(* ===== verification/_CoqProject ===== *)
-Q . S2P
Prelude.v
Mem.v
RingBuf.v
Str.v
Params.v
Asm.v
AsmSpec.v
Start.v
FsData.v
DevData.v
Machine.v
Spinlock.v
SpinlockConc.v
Sched.v
Sleeplock.v
Ring.v
Bio.v
BioSpec.v
Log.v
LogDisk.v
LogSpec.v
LogCommit.v
LogTheorems.v
FsTxn.v
Kalloc.v
Vm.v
Uart.v
Printf.v
Console.v
ConsoleSpec.v
Virtio.v
VirtioSpec.v
Fs.v
FsAlloc.v
FsInode.v
FsFile.v
FsBmap.v
FsWrite.v
FsDir.v
FsPath.v
Mkfs.v
MkfsSpec.v
MkfsTheorems.v
Pipe.v
File.v
Proc.v
Syscall.v
Exec.v
SysFile.v
Trap.v
Main.v
PageTable.v
VmWalk.v
VmMap.v
VmSpace.v
VmFree.v
Cow.v
UserView.v
UserCopy.v
ProcSpec.v
PipeSpec.v
VmDemo.v
FsDemo.v
DevTheorems.v
PipeTheorems.v
FsTheorems.v
VmTheorems.v
ProcFork.v
ProcTrap.v
ProcTheorems.v
UserMode.v
Sh.v
ShSpec.v
ShSound.v
Grep.v
User.v
UserSpec.v
Umalloc.v
Ulib.v
ShRun.v
