(* ===== verification/Prelude.v ===== *)
(** * Verification of the xv6-riscv kernel (copy-on-write branch)

    The repository is the xv6 teaching kernel for RISC-V with copy-on-write
    fork, its user programs and the program that makes its disk image.  This
    library is a shallow embedding of that code with the theorems that make it
    correct.

    ** How the code is modelled

    A C function is a computation [M St A] of this file: it ends normally, ends
    in panic() with its message, or diverges.  The state of the kernel is the
    record [kernel] of Machine.v: physical memory byte by byte, the harts, and
    the globals of each file under their C names.  A pointer into physical
    memory is an address; a pointer into a table (proc, buf, inode, file) is an
    index.  Integers are [Z], reduced where the C type is.  Loops are [loop]:
    up to 2^64 rounds, more than any loop of the code that ends can take, and a
    loop that goes on after that is the result [Diverge].  [wp m s Q] says that
    [m] ends normally from [s] and that [Q] then holds, so every theorem stated
    with it includes termination and the absence of panics; [runs] is the
    weaker form that admits a panic.

    Assembly is a list of instructions with a semantics (Asm): registers, control
    registers, memory, the mode, and loads, stores and fetches through the
    Sv39 page table that satp points to.  User programs that do little more
    than make system calls are trees of such calls (ShRun).

    A few recursions have fuel: freewalk() (64 nested calls, a page table has
    three levels), the functions of the shell's parser (the number of
    characters and of nodes) and runcmd() (the number of nodes) are proved never
    to run out of it.  The endless loops of the shell and of init take the
    number of rounds as an argument; the theorem about the shell asks for more
    rounds than there are lines.

    ** Files and sources

    - Foundations: Prelude (integers, monad, [wp]), Mem (RAM,
      fields of a block), RingBuf, Params (kernel/param.h, memlayout.h, riscv.h),
      FsData, DevData and Machine (the structs and globals: proc.h, buf.h,
      file.h, fs.h, virtio.h and those of the C files).
    - Str: kernel/string.c.
    - Locks and blocking: Spinlock and SpinlockConc (kernel/spinlock.c, on one
      hart and as steps of several), Sched (sleep(), wakeup(), sched() of
      kernel/proc.c), Sleeplock (kernel/sleeplock.c).
    - Memory: Kalloc (kernel/kalloc.c), Vm (kernel/vm.c), with PageTable (the
      memory invariant [minv]), VmWalk, VmMap, VmSpace, VmFree, Cow, UserView,
      UserCopy and VmTheorems for the proofs, and VmDemo, a small machine to
      which the theorems are applied.
    - Disk: Bio (kernel/bio.c) with Ring, BioSpec; Log (kernel/log.c)
      with LogDisk, LogSpec, LogCommit, LogTheorems.
    - File system: Fs (kernel/fs.c) with FsTxn, FsAlloc, FsInode, FsFile,
      FsBmap, FsWrite, FsDir, FsPath, FsTheorems, and FsDemo, a
      small disk.  Mkfs (mkfs/mkfs.c) with MkfsSpec, MkfsTheorems.
    - Pipes and files: Pipe, File (kernel/pipe.c, kernel/file.c) with PipeSpec
      and PipeTheorems.
    - Devices: Uart, Printf, Console, Virtio (kernel/uart.c, printf.c,
      console.c, plic.c, virtio_disk.c) with ConsoleSpec, VirtioSpec,
      DevTheorems.
    - Processes: Proc (kernel/proc.c) with ProcSpec and ProcFork, Syscall and
      SysFile (syscall.c, sysproc.c, sysfile.c), Exec (exec.c), Trap (trap.c)
      with ProcTrap and ProcTheorems, Main (main.c).
    - Assembly: Asm (trampoline.S, swtch.S, kernelvec.S, entry.S and the
      machine) with AsmSpec; Start (start.c); UserMode, where uservec,
      usertrap(), the system call, usertrapret() and userret are put together.
    - User space: Sh (the parser of user/sh.c) with ShSpec, ShSound; Grep, User
      and UserSpec (user/grep.c, cat.c, wc.c, echo.c, printf.c); Umalloc
      (umalloc.c); Ulib (ulib.c); ShRun (the rest of sh.c, init.c, kill.c, ln.c,
      mkdir.c, rm.c, zombie.c).

    ** What the theorems show

    - Memory.  [minv] ties the reference counts, the free list and all page
      tables together: a page has as many references as mappings, table slots
      and other owners.  Every operation of vm.c and kalloc.c keeps it and is
      specified by what it does to the [views] of all processes: a fork gives
      the child the memory of the parent, a write after it is seen by the
      writer alone, freeing an address space returns every page.  Over any
      sequence of these operations after kinit() nothing panics, and the count
      of a page is the number of its owners.
      An operation that fails for lack of memory does so only when fewer
      pages are free than it can need: 6 for a new process, and 2 for each
      page of memory that fork() copies, 3 that uvmalloc() adds.
    - Processes.  What user code sees across a trap: a store to a page that is
      shared copy-on-write goes on as if the page had been private, and after
      fork() parent and child go on behind the ecall with the same registers but
      a0 and the same memory.  A fork with a free slot and enough pages succeeds,
      and the child is runnable.  swtch() and kernelvec restore what they save.
    - Start-up.  start() enters main() in supervisor mode with traps delegated,
      and every timer interrupt after it raises a software interrupt.
    - Locks.  Mutual exclusion for many locks under every interleaving of the
      harts; acquire() and release() panic only when misused and restore the
      interrupt state.
    - Crash safety.  The disk is the sequence of block writes; a crash keeps a
      prefix.  Whatever prefix it is, recovery finds all updates of a
      transaction or none, also for a write() of user bytes to a file.  Three
      calls that each use the blocks begin_op() promised fill the log and panic.
    - File system.  Files, directories and path names over the block map and
      the bitmap on disk: reads return what was written, or stop at a byte that
      cannot be stored in the memory of the user; names resolve as in
      the tree of directories, inodes and blocks are not shared; the image
      that mkfs makes is such a file system.
    - Devices.  The console is an editor of lines, with the process list for
      control-P; the UART and the pipes are queues, and a process that waits for
      room in the UART's buffer gets it from the interrupt handler (the contract
      [UartOthers], which [uart_machine] keeps); the disk driver with a device that follows the protocol is a
      synchronous transfer of a block, printf() sends the text of its format.
    - User space.  The shell's parser implements its grammar and ends on every
      line, and each line is run as the processes its command stands for, with
      redirections and pipes at the right descriptors and no other pipe end
      open in a process that runs a program or waits; grep decides the language of the pattern and writes the matching
      lines however the reads split the input; malloc() and free() keep the
      heap well-formed, return, and never touch a block in use, for requests of
      up to 2^31 - 32 bytes; malloc() of the largest sizes wraps; atoi() reads back what printf() prints.

    ** Parameters

    What other processes do while one sleeps is the parameter [others] of
    Sched.v; what a device answers, the addresses the linker chooses
    ([Linker], [Boot] in Start), the machine code at an address, the files of the
    host of mkfs, and for user programs what a system call returns are parameters
    as well, with what the code relies on as classes or hypotheses.  Those of
    UserMode say that the kernel page table maps the kernel, its stacks and the
    trampoline as kvmmake() made it.  Except in SpinlockConc the kernel runs on
    one hart between two sleeps.  The theorem about the interrupts of the UART
    assumes that nothing is typed while a process waits for room.

    ** Not modelled

    - The TLB, caches and fences, which the semantics of memory has no place for;
      interrupts between two instructions of the kernel, except as what
      happens while a process sleeps and as the transparency of kernelvec.
    - kernel/ramdisk.c: it is not built, and uses fields and constants that the
      headers do not have.
    - user/initcode.S and user/usys.pl: the machine code of the first program is
      an array in proc.c, and a stub of a system call is a load of a7 and an
      ecall, where UserMode begins.
    - user/ls.c: it prints the result of fstat() for each entry of a directory,
      and the files that user programs see here have only contents.
    - user/usertests.c, cowtest.c, forktest.c, grind.c, stressfs.c: tests.
    - In the shell, a malloc() that fails: the parser does not check for it.
    - In UserMode, the hardware's load of the program counter from stvec: that
      usertrapret() sets it to uservec is shown, and uservec is what runs.
    - Headers that only declare: defs.h, types.h, date.h, user.h. *)

From stdpp Require Import gmap list strings.
From Stdlib Require Import ZArith Lia.
#[local] Open Scope Z_scope.

#[export] Set Default Goal Selector "!".

#[local] Open Scope Z_scope.

(** ** Machine integers

    C integers are kept as [Z]; a value that the code stores in a [w]-bit
    variable is reduced explicitly. *)

Definition u8 (z : Z) : Z := z mod 2 ^ 8.
Definition u16 (z : Z) : Z := z mod 2 ^ 16.
Definition u32 (z : Z) : Z := z mod 2 ^ 32.
Definition u64 (z : Z) : Z := z mod 2 ^ 64.

(** Two's complement reading of the low 32 (16) bits: the conversion to [int]
    ([short]) that the RISC-V ABI performs. *)
Definition s32 (z : Z) : Z := (z + 2 ^ 31) mod 2 ^ 32 - 2 ^ 31.
Definition s16 (z : Z) : Z := (z + 2 ^ 15) mod 2 ^ 16 - 2 ^ 15.

(** A C condition: non-zero is true. *)
Definition nz (z : Z) : bool := negb (z =? 0).

Lemma u64_small z : 0 ≤ z < 2 ^ 64 → u64 z = z.
Proof. apply Z.mod_small. Qed.

Lemma u64_range z : 0 ≤ u64 z < 2 ^ 64.
Proof. apply Z.mod_pos_bound. lia. Qed.

Lemma u32_small z : 0 ≤ z < 2 ^ 32 → u32 z = z.
Proof. apply Z.mod_small. Qed.

Lemma u32_range z : 0 ≤ u32 z < 2 ^ 32.
Proof. apply Z.mod_pos_bound. lia. Qed.

Lemma s32_small z : - 2 ^ 31 ≤ z < 2 ^ 31 → s32 z = z.
Proof. intros. unfold s32. rewrite Z.mod_small; lia. Qed.

Lemma s32_range z : - 2 ^ 31 ≤ s32 z < 2 ^ 31.
Proof. unfold s32. pose proof (Z.mod_pos_bound (z + 2 ^ 31) (2 ^ 32)). lia. Qed.

Lemma u64_add z m : u64 (u64 z + m) = u64 (z + m).
Proof. unfold u64. apply Zplus_mod_idemp_l. Qed.

Lemma div_mod_at a b q r : a = b * q + r → 0 ≤ r < b → a / b = q ∧ a mod b = r.
Proof.
  intros E H. split; [symmetry; apply (Z.div_unique a b q r)|symmetry; apply (Z.mod_unique a b q r)]; lia.
Qed.

(** ** C strings

    A string is the list of its bytes. *)

(** The bytes of a string constant. *)
Fixpoint chars (s : string) : list Z :=
  match s with
  | EmptyString => []
  | String c s' => Z.of_N (Ascii.N_of_ascii c) :: chars s'
  end.

(** The bytes of an array up to the terminating NUL. *)
Fixpoint cstring (l : list Z) : list Z :=
  match l with
  | c :: l' => if c =? 0 then [] else c :: cstring l'
  | [] => []
  end.

(** ** Computations of the kernel

    A kernel function is a computation [M St A] over a state [St].  It returns
    normally ([Ok]), stops the machine in [panic] ([Panic], with the message),
    or never comes back ([Diverge]: a spin on a lock nobody releases, or a loop
    that never exits). *)

Inductive res (St A : Type) : Type :=
| Ok (a : A) (s : St)
| Panic (msg : string) (s : St)
| Diverge.
Arguments Ok {St A} a s.
Arguments Panic {St A} msg s.
Arguments Diverge {St A}.

Definition M (St A : Type) : Type := St → res St A.

#[export] Instance M_ret {St} : MRet (M St) := λ A a s, Ok a s.
#[export] Instance M_bind {St} : MBind (M St) := λ A B f m s,
  match m s with
  | Ok a s' => f a s'
  | Panic msg s' => Panic msg s'
  | Diverge => Diverge
  end.

Section monad.
Context {St : Type}.

Definition gets {A} (f : St → A) : M St A := λ s, Ok (f s) s.
Definition modify (f : St → St) : M St unit := λ s, Ok tt (f s).
Definition panic {A} (msg : string) : M St A := λ s, Panic msg s.
Definition diverge {A} : M St A := λ _, Diverge.
Definition when (b : bool) (m : M St unit) : M St unit := if b then m else mret tt.

(** Up to [2 ^ k] iterations of a loop body that either continues with new
    loop variables ([inl]) or leaves the loop with a result ([inr]).  The
    recursion is on [k], so a loop bound of [2 ^ 64] costs nothing. *)
Fixpoint iterate {X R} (k : nat) (body : X → M St (X + R)) (x : X) : M St (X + R) :=
  match k with
  | O => body x
  | S k' => λ s,
      match iterate k' body x s with
      | Ok (inl y) s' => iterate k' body y s'
      | r => r
      end
  end.

(** A C loop.  [2 ^ 64] iterations are more than any loop over 64-bit
    variables needs; a loop that has not left by then diverges. *)
Definition loop {X R} (body : X → M St (X + R)) (x : X) : M St R :=
  r ← iterate 64 body x;
  match r with
  | inr v => mret v
  | inl _ => diverge
  end.
Definition continue {X R} (x : X) : M St (X + R) := mret (inl x).
Definition break {X R} (r : R) : M St (X + R) := mret (inr r).
End monad.

Arguments iterate : simpl never.
Arguments loop : simpl never.

(** ** Total correctness

    [wp m s Q]: started in [s], the computation [m] returns normally (no panic,
    no divergence) with a result and a state that satisfy [Q]. *)
Definition wp {St A} (m : M St A) (s : St) (Q : A → St → Prop) : Prop :=
  match m s with
  | Ok a s' => Q a s'
  | _ => False
  end.

(** [m] stops in [panic msg]. *)
Definition panics {St A} (m : M St A) (s : St) (msg : string) : Prop :=
  ∃ s', m s = Panic msg s'.

Section wp.
Context {St : Type}.

Lemma wp_iff {A} (m : M St A) s Q :
  wp m s Q ↔ ∃ a s', m s = Ok a s' ∧ Q a s'.
Proof. unfold wp. destruct (m s) as [a s'|msg s'|]; naive_solver. Qed.

(** A run that ends has a final state. *)
Lemma wp_run {A} (m : M St A) s Q : wp m s Q → ∃ a s', Q a s'.
Proof. intros (a & s' & _ & H)%wp_iff. eauto. Qed.

Lemma wp_ret {A} (a : A) (s : St) (Q : A → St → Prop) : Q a s → wp (mret a) s Q.
Proof. done. Qed.

Lemma wp_gets {A} (f : St → A) s Q : Q (f s) s → wp (gets f) s Q.
Proof. done. Qed.

Lemma wp_modify (f : St → St) s Q : Q tt (f s) → wp (modify f) s Q.
Proof. done. Qed.

Lemma wp_bind {A B} (m : M St A) (f : A → M St B) s Q :
  wp m s (λ a s', wp (f a) s' Q) → wp (m ≫= f) s Q.
Proof. unfold wp, mbind, M_bind. by destruct (m s). Qed.

(** A panic after a part that returns, and one in the first part. *)
Lemma panics_bind {A B} (m : M St A) (f : A → M St B) s Q msg :
  wp m s Q → (∀ a s', Q a s' → panics (f a) s' msg) → panics (m ≫= f) s msg.
Proof.
  intros (a & s' & E & HQ)%wp_iff Hf. destruct (Hf a s' HQ) as [s2 E2]. exists s2.
  unfold mbind, M_bind. by rewrite E.
Qed.
Lemma panics_bind_l {A B} (m : M St A) (f : A → M St B) s msg : panics m s msg → panics (m ≫= f) s msg.
Proof. intros [s' E]. exists s'. unfold mbind, M_bind. by rewrite E. Qed.

Lemma wp_unbind {A B} (m : M St A) (f : A → M St B) s Q :
  wp (m ≫= f) s Q → wp m s (λ a s', wp (f a) s' Q).
Proof. unfold wp, mbind, M_bind. by destruct (m s). Qed.

Lemma wp_mono {A} (m : M St A) s (Q Q' : A → St → Prop) :
  wp m s Q → (∀ a s', Q a s' → Q' a s') → wp m s Q'.
Proof. unfold wp. destruct (m s); naive_solver. Qed.

(** Two calls whose joint effect is known, and what follows. *)
Lemma wp_seq2 {A B C} (m1 : M St A) (m2 : M St B) (m3 : M St C) s Q :
  wp (m1;; m2) s (λ _ s', wp m3 s' Q) → wp (m1;; m2;; m3) s Q.
Proof. unfold wp, mbind, M_bind. destruct (m1 s) as [a s1| |]; [|done..]. by destruct (m2 s1). Qed.

Lemma wp_seq3 {A B C D} (m1 : M St A) (m2 : M St B) (m3 : M St C) (m4 : M St D) s Q :
  wp (m1;; m2;; m3) s (λ _ s', wp m4 s' Q) → wp (m1;; m2;; m3;; m4) s Q.
Proof.
  unfold wp, mbind, M_bind. destruct (m1 s) as [a s1| |]; [|done..].
  destruct (m2 s1) as [b s2| |]; [|done..]. by destruct (m3 s2).
Qed.

Lemma wp_seq4 {A B C D E} (m1 : M St A) (m2 : M St B) (m3 : M St C) (m4 : M St D) (m5 : M St E)
    s Q :
  wp (m1;; m2;; m3;; m4) s (λ _ s', wp m5 s' Q) → wp (m1;; m2;; m3;; m4;; m5) s Q.
Proof.
  unfold wp, mbind, M_bind. destruct (m1 s) as [a s1| |]; [|done..].
  destruct (m2 s1) as [b s2| |]; [|done..]. destruct (m3 s2) as [c s3| |]; [|done..].
  by destruct (m4 s3).
Qed.

Lemma wp_continue {X R} (x : X) s (Q : X + R → St → Prop) :
  Q (inl x) s → wp (continue x) s Q.
Proof. done. Qed.

Lemma wp_break {X R} (r : R) s (Q : X + R → St → Prop) :
  Q (inr r) s → wp (break r) s Q.
Proof. done. Qed.

(** The rule for loops: an invariant [I] on the loop variables and the state,
    and a variant [μ] below [2 ^ 64] that every iteration decreases. *)
Section loop_rule.
Context {X R : Type} (body : X → M St (X + R)).
Context (I : X → St → Prop) (μ : X → St → Z) (Q : R → St → Prop).
Hypothesis Hbody : ∀ x s, I x s →
  wp (body x) s (λ r s',
    match r with
    | inl y => I y s' ∧ 0 ≤ μ y s' < μ x s
    | inr v => Q v s'
    end).

Lemma wp_iterate k x s :
  I x s →
  wp (iterate k body x) s (λ r s',
    match r with
    | inl y => I y s' ∧ 0 ≤ μ y s' ≤ μ x s - 2 ^ Z.of_nat k
    | inr v => Q v s'
    end).
Proof.
  revert x s. induction k as [|k IH]; intros x s HI.
  - simpl. eapply wp_mono; [by apply Hbody|].
    intros [y|v] s'; [|done]. intros [? ?]. split; [done|]. lia.
  - specialize (IH x s HI) as H1. unfold wp in H1 |- *.
    change (iterate (S k) body x s) with
      (match iterate k body x s with
       | Ok (inl y) s' => iterate k body y s' | r => r end).
    destruct (iterate k body x s) as [[y|v] s'| |]; [|done..].
    destruct H1 as [HIy Hy]. specialize (IH y s' HIy) as H2. unfold wp in H2.
    destruct (iterate k body y s') as [[z|v] s''| |]; [|done..].
    destruct H2 as [? ?]. split; [done|].
    replace (2 ^ Z.of_nat (S k)) with (2 * 2 ^ Z.of_nat k); [lia|].
    rewrite Nat2Z.inj_succ, Z.pow_succ_r; lia.
Qed.

Lemma wp_loop x s : I x s → μ x s < 2 ^ 64 → wp (loop body x) s Q.
Proof.
  intros HI Hμ. unfold loop. apply wp_bind.
  eapply wp_mono; [by apply (wp_iterate 64)|].
  intros [y|v] s'; [|done]. change (Z.of_nat 64) with 64. lia.
Qed.
End loop_rule.

(** The same rule with the variant as an index of the invariant. *)
Section loop_rule_ix.
Context {X R : Type} (body : X → M St (X + R)).
Context (I : nat → X → St → Prop) (Q : R → St → Prop).
Hypothesis Hbody : ∀ n x s, I n x s →
  wp (body x) s (λ r s',
    match r with
    | inl y => ∃ m, (m < n)%nat ∧ I m y s'
    | inr v => Q v s'
    end).

Lemma wp_iterate_ix k n x s :
  I n x s →
  wp (iterate k body x) s (λ r s',
    match r with
    | inl y => ∃ m, Z.of_nat m + 2 ^ Z.of_nat k ≤ Z.of_nat n ∧ I m y s'
    | inr v => Q v s'
    end).
Proof.
  revert n x s. induction k as [|k IH]; intros n x s HI.
  - simpl. eapply wp_mono; [by apply (Hbody n)|].
    intros [y|v] s'; [|done]. intros (m & ? & ?). exists m. split; [|done]. lia.
  - specialize (IH n x s HI) as H1. unfold wp in H1 |- *.
    change (iterate (S k) body x s) with
      (match iterate k body x s with
       | Ok (inl y) s' => iterate k body y s' | r => r end).
    destruct (iterate k body x s) as [[y|v] s'| |]; [|done..].
    destruct H1 as (m & Hm & HIy). specialize (IH m y s' HIy) as H2. unfold wp in H2.
    destruct (iterate k body y s') as [[z|v] s''| |]; [|done..].
    destruct H2 as (m' & Hm' & ?). exists m'. split; [|done].
    rewrite Nat2Z.inj_succ, Z.pow_succ_r by lia. lia.
Qed.

Lemma wp_loop_ix n x s : I n x s → Z.of_nat n < 2 ^ 64 → wp (loop body x) s Q.
Proof.
  intros HI Hn. unfold loop. apply wp_bind.
  eapply wp_mono; [by apply (wp_iterate_ix 64)|].
  intros [y|v] s'; [|done]. intros (m & Hm & _). change (Z.of_nat 64) with 64 in Hm. lia.
Qed.
End loop_rule_ix.
End wp.

(** ** Proof automation *)

Create HintDb xv6.

(** Split on the integer comparison a branch of the code tests. *)
Ltac case_cmp :=
  match goal with
  | |- context [Z.eqb ?a ?b] => destruct (Z.eqb_spec a b)
  | |- context [Z.ltb ?a ?b] => destruct (Z.ltb_spec a b)
  | |- context [Z.leb ?a ?b] => destruct (Z.leb_spec a b)
  end.

(** Step through the parts of a computation that are not calls; files that
    define further primitives extend [wp_prim]. *)
Ltac wp_prim := fail.

Ltac wp_step :=
  lazymatch goal with
  | |- wp (_ ≫= _) _ _ => apply wp_bind
  | |- wp (mret _) _ _ => apply wp_ret
  | |- wp (gets _) _ _ => apply wp_gets
  | |- wp (modify _) _ _ => apply wp_modify
  | |- wp (continue _) _ _ => apply wp_continue
  | |- wp (break _) _ _ => apply wp_break
  | |- wp (when true _) _ _ => unfold when
  | |- wp (when false _) _ _ => apply wp_ret
  | _ => wp_prim
  end; cbv beta zeta.

Ltac wp_pure := cbv beta zeta; repeat wp_step.

(** Use the specification [H] of the call at the head of the computation. *)
Tactic Notation "wp_apply" uconstr(H) :=
  repeat apply wp_bind; eapply wp_mono; [eapply H|].

(** ** Lists *)

Lemma NoDup_app_comm {A} (l k : list A) : NoDup (l ++ k) → NoDup (k ++ l).
Proof. rewrite !NoDup_app. naive_solver. Qed.

Lemma sum_list_with_app {A} (f : A → nat) (l k : list A) :
  sum_list_with f (l ++ k) = (sum_list_with f l + sum_list_with f k)%nat.
Proof. induction l; simpl; lia. Qed.

Lemma list_alter_at {A} (f g : A → A) (l : list A) i x :
  l !! i = Some x → f x = g x → alter f i l = alter g i l.
Proof.
  intros Hx Hfg. apply list_eq. intros j. rewrite !list_lookup_alter.
  case_decide; [|done]. subst j. rewrite Hx. simpl. by rewrite Hfg.
Qed.

Lemma elem_of_tl {A} (x : A) (l : list A) : x ∈ tail l → x ∈ l.
Proof. destruct l; [done|]. by right. Qed.

Lemma elem_of_take_in {A} (x : A) m (l : list A) : x ∈ take m l → x ∈ l.
Proof. intros H. rewrite <-(take_drop m l). apply elem_of_app. by left. Qed.

Lemma list_alter_is_insert {A} (f : A → A) (l : list A) i x :
  l !! i = Some x → alter f i l = <[i := f x]> l.
Proof.
  intros Hx. apply list_eq. intros j. destruct (decide (i = j)) as [<-|].
  - rewrite list_lookup_alter_eq, Hx, list_lookup_insert_eq; [done|]. by eapply lookup_lt_Some.
  - by rewrite list_lookup_alter_ne, list_lookup_insert_ne.
Qed.

(** ** Sums over finite maps *)

Definition msum `{Countable Key} {V} (f : Key → V → Z) (m : gmap Key V) : Z :=
  map_fold (λ i x s, f i x + s) 0 m.

Definition ind (P : Prop) `{!Decision P} : Z := if decide P then 1 else 0.

Lemma ind_true (P : Prop) `{!Decision P} : P → ind P = 1.
Proof. intros. unfold ind. by rewrite decide_True. Qed.
Lemma ind_false (P : Prop) `{!Decision P} : ¬ P → ind P = 0.
Proof. intros. unfold ind. by rewrite decide_False. Qed.
Lemma ind_range (P : Prop) `{!Decision P} : 0 ≤ ind P ≤ 1.
Proof. unfold ind. case_decide; lia. Qed.
Lemma ind_pos (P : Prop) `{!Decision P} : 0 < ind P ↔ P.
Proof. unfold ind. case_decide; split; [done|lia|lia|done]. Qed.
Lemma ind_ext (P Q : Prop) `{!Decision P, !Decision Q} : (P ↔ Q) → ind P = ind Q.
Proof. intros HPQ. unfold ind. repeat case_decide; tauto. Qed.

Section msum.
Context `{Countable Key} {V : Type}.
Implicit Types (f g : Key → V → Z) (m : gmap Key V).

Lemma msum_empty f : msum f ∅ = 0.
Proof. done. Qed.

Lemma msum_insert_new f m i x :
  m !! i = None → msum f (<[i := x]> m) = f i x + msum f m.
Proof.
  intros. unfold msum. rewrite map_fold_insert_L; [done| |done]. intros. lia.
Qed.

Lemma msum_delete f m i x :
  m !! i = Some x → msum f m = f i x + msum f (delete i m).
Proof.
  intros Hi. rewrite <-(insert_delete_id m i x) at 1 by done.
  apply msum_insert_new, lookup_delete_eq.
Qed.

(** The contribution of one key. *)
Definition at_key f m (i : Key) : Z := match m !! i with Some x => f i x | None => 0 end.

Lemma msum_remove f m i : msum f (delete i m) = msum f m - at_key f m i.
Proof.
  unfold at_key. destruct (m !! i) as [x|] eqn:E.
  - rewrite (msum_delete f m i x) by done. lia.
  - rewrite delete_id by done. lia.
Qed.

Lemma msum_insert f m i x :
  msum f (<[i := x]> m) = msum f m - at_key f m i + f i x.
Proof.
  rewrite <-insert_delete_eq, msum_insert_new, msum_remove by apply lookup_delete_eq. lia.
Qed.

Lemma msum_nonneg f m : (∀ i x, m !! i = Some x → 0 ≤ f i x) → 0 ≤ msum f m.
Proof.
  induction m as [|i x m Hi IH] using map_ind; intros Hf; [done|].
  rewrite msum_insert_new by done.
  assert (0 ≤ f i x) by (apply Hf, lookup_insert_eq).
  assert (0 ≤ msum f m); [|lia]. apply IH. intros j y Hj. apply Hf.
  rewrite lookup_insert_ne; congruence.
Qed.

Lemma msum_at f m i x :
  (∀ i x, m !! i = Some x → 0 ≤ f i x) → m !! i = Some x → f i x ≤ msum f m.
Proof.
  intros Hf Hi. rewrite (msum_delete f m i x) by done.
  assert (0 ≤ msum f (delete i m)); [|lia]. apply msum_nonneg.
  intros j y [_ Hj]%lookup_delete_Some. by apply Hf.
Qed.

Lemma msum_at_2 f m i x j y :
  (∀ i x, m !! i = Some x → 0 ≤ f i x) → i ≠ j →
  m !! i = Some x → m !! j = Some y → f i x + f j y ≤ msum f m.
Proof.
  intros Hf Hne Hi Hj. rewrite (msum_delete f m i x) by done.
  assert (f j y ≤ msum f (delete i m)); [|lia]. apply msum_at.
  - intros k z [_ Hk]%lookup_delete_Some. by apply Hf.
  - by rewrite lookup_delete_ne.
Qed.

Lemma msum_ext f g m :
  (∀ i x, m !! i = Some x → f i x = g i x) → msum f m = msum g m.
Proof.
  induction m as [|i x m Hi IH] using map_ind; intros Hf; [done|].
  rewrite !msum_insert_new by done. f_equal.
  - apply Hf, lookup_insert_eq.
  - apply IH. intros j y Hj. apply Hf. rewrite lookup_insert_ne; congruence.
Qed.

Lemma msum_zero f m : (∀ i x, m !! i = Some x → f i x = 0) → msum f m = 0.
Proof.
  induction m as [|i x m Hi IH] using map_ind; intros Hf; [done|].
  rewrite msum_insert_new, IH by (first [done | intros j y Hj; apply Hf;
    rewrite lookup_insert_ne; congruence]).
  rewrite (Hf i x) by apply lookup_insert_eq. done.
Qed.

Lemma msum_mono f g m m' :
  (∀ i x, m !! i = Some x → ∃ y, m' !! i = Some y ∧ f i x ≤ g i y) →
  (∀ i x, m' !! i = Some x → 0 ≤ g i x) →
  msum f m ≤ msum g m'.
Proof.
  revert m'. induction m as [|i x m Hi IH] using map_ind; intros m' Hsub Hf.
  { rewrite msum_empty. by apply msum_nonneg. }
  destruct (Hsub i x) as (y & Hy & Hle); [apply lookup_insert_eq|].
  rewrite msum_insert_new by done. rewrite (msum_delete g m' i y) by done.
  apply Z.add_le_mono; [done|]. apply IH.
  - intros j z Hj. rewrite lookup_delete_ne by congruence. apply Hsub.
    rewrite lookup_insert_ne; congruence.
  - intros j z [_ Hj]%lookup_delete_Some. by apply Hf.
Qed.

Lemma msum_pos f m : 0 < msum f m → ∃ i x, m !! i = Some x ∧ 0 < f i x.
Proof.
  induction m as [|i x m Hi IH] using map_ind; [unfold msum; rewrite map_fold_empty; lia|].
  rewrite msum_insert_new by done. intros Hp.
  destruct (decide (0 < f i x)).
  - exists i, x. by rewrite lookup_insert_eq.
  - destruct IH as (j & y & Hj & ?); [lia|]. exists j, y.
    rewrite lookup_insert_ne; [done|congruence].
Qed.
End msum.

#[global] Opaque iterate.

(** * Computations that end

    [runs m s Q]: started in [s], the computation [m] ends, and when it ends
    normally its result and state satisfy [Q]; it may end in a panic. *)

Definition runs {St A} (m : M St A) (s : St) (Q : A → St → Prop) : Prop :=
  match m s with
  | Ok a s' => Q a s'
  | Panic _ _ => True
  | Diverge => False
  end.

Section runs.
Context {St : Type}.

Lemma runs_ret {A} (a : A) (s : St) (Q : A → St → Prop) : Q a s → runs (mret a) s Q.
Proof. done. Qed.
Lemma runs_panic {A} msg (s : St) (Q : A → St → Prop) : runs (panic msg) s Q.
Proof. done. Qed.
Lemma runs_gets {A} (f : St → A) s (Q : A → St → Prop) : Q (f s) s → runs (gets f) s Q.
Proof. done. Qed.
Lemma runs_modify (f : St → St) s (Q : unit → St → Prop) : Q tt (f s) → runs (modify f) s Q.
Proof. done. Qed.

Lemma runs_bind {A B} (m : M St A) (f : A → M St B) s Q : runs m s (λ a s', runs (f a) s' Q) → runs (m ≫= f) s Q.
Proof. unfold runs, mbind, M_bind. by destruct (m s). Qed.

Lemma runs_mono {A} (m : M St A) s (Q Q' : A → St → Prop) : runs m s Q → (∀ a s', Q a s' → Q' a s') → runs m s Q'.
Proof. unfold runs. destruct (m s); auto. Qed.

(** A computation that returns normally ends. *)
Lemma wp_runs {A} (m : M St A) s (Q : A → St → Prop) : wp m s Q → runs m s Q.
Proof. unfold wp, runs. by destruct (m s). Qed.

Section loop_rule.
Context {X R : Type} (body : X → M St (X + R)).
Context (I : X → St → Prop) (μ : X → St → Z) (Q : R → St → Prop).
Hypothesis Hbody : ∀ x s, I x s →
  runs (body x) s (λ r s', match r with inl y => I y s' ∧ 0 ≤ μ y s' < μ x s | inr v => Q v s' end).

Lemma runs_iterate k x s :
  I x s → runs (iterate k body x) s (λ r s',
    match r with inl y => I y s' ∧ 0 ≤ μ y s' ≤ μ x s - 2 ^ Z.of_nat k | inr v => Q v s' end).
Proof.
  revert x s. induction k as [|k IH]; intros x s HI.
  - eapply runs_mono; [by apply Hbody|]. intros [y|v] s'; [|done]. intros [? ?]. split; [done|]. simpl. lia.
  - pose proof (IH x s HI) as H1. unfold runs in H1 |- *.
    change (iterate (S k) body x s) with (match iterate k body x s with Ok (inl y) s' => iterate k body y s' | r => r end).
    destruct (iterate k body x s) as [[y|v] s'| |]; [|done..]. destruct H1 as [HIy Hy].
    pose proof (IH y s' HIy) as H2. unfold runs in H2. destruct (iterate k body y s') as [[z|v] s''| |]; [|done..].
    destruct H2 as [? ?]. split; [done|]. rewrite Nat2Z.inj_succ, Z.pow_succ_r; lia.
Qed.

Lemma runs_loop x s : I x s → μ x s < 2 ^ 64 → runs (loop body x) s Q.
Proof.
  intros HI Hμ. unfold loop. apply runs_bind. eapply runs_mono; [by apply (runs_iterate 64)|].
  intros [y|v] s'; [|done]. change (Z.of_nat 64) with 64. lia.
Qed.
End loop_rule.
End runs.
