(* ===== verification/Mem.v ===== *)
(** * Physical memory

    RAM as a finite map from byte addresses to byte values (an address that was
    never written reads as zero, as [.bss] does), with little-endian loads and
    stores of [n]-byte values, as the RISC-V [lb]/[sb] .. [ld]/[sd]
    instructions perform them; and the same for lists of bytes, which the file
    system code overlays its structures on. *)

From stdpp Require Import gmap list.
From Stdlib Require Import ZArith Lia.
From S2P Require Import Prelude.
#[local] Open Scope Z_scope.

Abbreviation mem := (gmap Z Z).

Definition ldb (r : mem) (a : Z) : Z := default 0 (r !! a) mod 256.
Definition stb (r : mem) (a v : Z) : mem := <[a := v mod 256]> r.

Fixpoint ldn (n : nat) (r : mem) (a : Z) : Z :=
  match n with
  | O => 0
  | S n' => ldb r a + 256 * ldn n' r (a + 1)
  end.

Fixpoint stn (n : nat) (r : mem) (a v : Z) : mem :=
  match n with
  | O => r
  | S n' => stn n' (stb r a v) (a + 1) (v / 256)
  end.

Definition ld64 (r : mem) (a : Z) : Z := ldn 8 r a.
Definition st64 (r : mem) (a v : Z) : mem := stn 8 r a v.
Definition ld32 (r : mem) (a : Z) : Z := ldn 4 r a.
Definition st32 (r : mem) (a v : Z) : mem := stn 4 r a v.

(** The bytes of an [n]-byte value, least significant first. *)
Fixpoint le_bytes (n : nat) (v : Z) : list Z :=
  match n with
  | O => []
  | S n' => v mod 256 :: le_bytes n' (v / 256)
  end.

Fixpoint le_val (bs : list Z) : Z :=
  match bs with
  | [] => 0
  | b :: bs' => b mod 256 + 256 * le_val bs'
  end.

(** [n] bytes of memory from address [a]. *)
Fixpoint ld_bytes (n : nat) (r : mem) (a : Z) : list Z :=
  match n with
  | O => []
  | S n' => ldb r a :: ld_bytes n' r (a + 1)
  end.

Fixpoint st_bytes (r : mem) (a : Z) (bs : list Z) : mem :=
  match bs with
  | [] => r
  | b :: bs' => st_bytes (stb r a b) (a + 1) bs'
  end.

Lemma ldb_range r a : 0 ≤ ldb r a < 256.
Proof. apply Z.mod_pos_bound. lia. Qed.

Lemma ldb_stb r a v b : ldb (stb r a v) b = if decide (a = b) then v mod 256 else ldb r b.
Proof.
  unfold ldb, stb. destruct (decide (a = b)) as [->|].
  - rewrite lookup_insert_eq. simpl. apply Z.mod_mod. lia.
  - by rewrite lookup_insert_ne.
Qed.

Lemma ldb_stb_eq r a v : ldb (stb r a v) a = v mod 256.
Proof. rewrite ldb_stb. by destruct (decide (a = a)). Qed.

Lemma ldb_stb_ne r a v b : a ≠ b → ldb (stb r a v) b = ldb r b.
Proof. intros. rewrite ldb_stb. by destruct (decide (a = b)). Qed.

Lemma ldb_empty a : ldb ∅ a = 0.
Proof. unfold ldb. by rewrite lookup_empty. Qed.

Lemma ldn_range n r a : 0 ≤ ldn n r a < 256 ^ Z.of_nat n.
Proof.
  revert a. induction n as [|n IH]; intros a; cbn [ldn]; [lia|].
  rewrite Nat2Z.inj_succ, Z.pow_succ_r by lia.
  pose proof (ldb_range r a). specialize (IH (a + 1)). lia.
Qed.

Lemma ld64_range r a : 0 ≤ ld64 r a < 2 ^ 64.
Proof. apply (ldn_range 8). Qed.

Lemma ldb_stn_out n r a v b : b < a ∨ a + Z.of_nat n ≤ b → ldb (stn n r a v) b = ldb r b.
Proof.
  revert r a v. induction n as [|n IH]; intros r a v Hb; cbn [stn]; [done|].
  rewrite IH by lia. apply ldb_stb_ne. lia.
Qed.

(** The bytes a store writes do not depend on what was there. *)
Lemma ldb_stn_ext n r r' a v b :
  (¬ a ≤ b < a + Z.of_nat n → ldb r' b = ldb r b) → ldb (stn n r' a v) b = ldb (stn n r a v) b.
Proof.
  revert r r' a v. induction n as [|n IH]; intros r r' a v Hb; cbn [stn]; [apply Hb; lia|].
  apply IH. intros Hn. rewrite !ldb_stb. case_decide; [done|]. apply Hb. lia.
Qed.

Lemma ldn_ext n r r' a :
  (∀ b, a ≤ b < a + Z.of_nat n → ldb r' b = ldb r b) → ldn n r' a = ldn n r a.
Proof.
  revert a. induction n as [|n IH]; intros a H; cbn [ldn]; [done|].
  rewrite H by lia. rewrite IH; [done|]. intros b Hb. apply H. lia.
Qed.

Lemma ldn_stn n r a v : ldn n (stn n r a v) a = v mod 256 ^ Z.of_nat n.
Proof.
  revert r a v. induction n as [|n IH]; intros r a v; cbn [ldn stn].
  { change (256 ^ Z.of_nat 0) with 1. by rewrite Z.mod_1_r. }
  rewrite ldb_stn_out by lia. rewrite ldb_stb_eq, IH.
  rewrite Nat2Z.inj_succ, Z.pow_succ_r by lia.
  rewrite Z.rem_mul_r by lia. done.
Qed.

Lemma ldn_stn_out n m r a v b :
  b + Z.of_nat n ≤ a ∨ a + Z.of_nat m ≤ b → ldn n (stn m r a v) b = ldn n r b.
Proof. intros H. apply ldn_ext. intros c Hc. apply ldb_stn_out. lia. Qed.

Lemma ld64_st64 r a v : 0 ≤ v < 2 ^ 64 → ld64 (st64 r a v) a = v.
Proof.
  intros Hv. unfold ld64, st64. rewrite ldn_stn. apply Z.mod_small.
  change (256 ^ Z.of_nat 8) with (2 ^ 64). done.
Qed.

Lemma ld64_st64_out r a v b : b + 8 ≤ a ∨ a + 8 ≤ b → ld64 (st64 r a v) b = ld64 r b.
Proof. intros. apply ldn_stn_out. lia. Qed.

Lemma ld32_st32 r a v : 0 ≤ v < 2 ^ 32 → ld32 (st32 r a v) a = v.
Proof. intros Hv. unfold ld32, st32. rewrite ldn_stn. by apply Z.mod_small. Qed.

Lemma ld32_st32_out r a v b : b + 4 ≤ a ∨ a + 4 ≤ b → ld32 (st32 r a v) b = ld32 r b.
Proof. intros. apply ldn_stn_out. lia. Qed.

Lemma ld64_st32_out r a v b : b + 8 ≤ a ∨ a + 4 ≤ b → ld64 (st32 r a v) b = ld64 r b.
Proof. intros. apply ldn_stn_out. lia. Qed.

Lemma ld32_st64_out r a v b : b + 4 ≤ a ∨ a + 8 ≤ b → ld32 (st64 r a v) b = ld32 r b.
Proof. intros. apply ldn_stn_out. lia. Qed.

Lemma ldb_st32_out r a v b : b < a ∨ a + 4 ≤ b → ldb (st32 r a v) b = ldb r b.
Proof. intros. apply ldb_stn_out. lia. Qed.

Lemma ldb_st64_ext r r' a v b :
  ldb r' b = ldb r b → ldb (st64 r' a v) b = ldb (st64 r a v) b.
Proof. intros. by apply ldb_stn_ext. Qed.

Lemma ldb_st64_out r a v b : b < a ∨ a + 8 ≤ b → ldb (st64 r a v) b = ldb r b.
Proof. intros. apply ldb_stn_out. lia. Qed.

Lemma ld64_ext r r' a :
  (∀ b, a ≤ b < a + 8 → ldb r' b = ldb r b) → ld64 r' a = ld64 r a.
Proof. intros H. apply ldn_ext. intros b Hb. apply H. lia. Qed.

Lemma ld64_zero r a : (∀ b, a ≤ b < a + 8 → ldb r b = 0) → ld64 r a = 0.
Proof.
  intros H. unfold ld64. cbn [ldn]. rewrite !H by lia. done.
Qed.

(** The same bytes at another address. *)
Lemma ldn_at n r r' a a' :
  (∀ i, 0 ≤ i < Z.of_nat n → ldb r' (a' + i) = ldb r (a + i)) → ldn n r' a' = ldn n r a.
Proof.
  revert a a'. induction n as [|n IH]; intros a a' H; cbn [ldn]; [done|].
  pose proof (H 0 ltac:(lia)) as H0. rewrite !Z.add_0_r in H0. rewrite H0, (IH (a + 1) (a' + 1)); [done|].
  intros i Hi. specialize (H (i + 1) ltac:(lia)).
  by replace (a' + 1 + i) with (a' + (i + 1)) by lia; replace (a + 1 + i) with (a + (i + 1)) by lia.
Qed.

Lemma ld64_at r r' a a' :
  (∀ i, 0 ≤ i < 8 → ldb r' (a' + i) = ldb r (a + i)) → ld64 r' a' = ld64 r a.
Proof. intros H. apply ldn_at. intros i Hi. apply H. lia. Qed.

(** ** Byte strings *)

Lemma length_ld_bytes n r a : length (ld_bytes n r a) = n.
Proof. revert a. induction n; intros; simpl; auto. Qed.

Lemma lookup_ld_bytes n r a (i : nat) :
  (i < n)%nat → ld_bytes n r a !! i = Some (ldb r (a + Z.of_nat i)).
Proof.
  revert a i. induction n as [|n IH]; intros a i Hi; [lia|].
  destruct i as [|i]; cbn [ld_bytes].
  - simpl. do 2 f_equal. lia.
  - simpl. rewrite IH by lia. do 2 f_equal. lia.
Qed.

Lemma ldb_st_bytes r a bs b :
  ldb (st_bytes r a bs) b =
    match (if (a <=? b) then bs !! Z.to_nat (b - a) else None) with
    | Some v => v mod 256
    | None => ldb r b
    end.
Proof.
  revert r a. induction bs as [|v bs IH]; intros r a; cbn [st_bytes].
  { by destruct (a <=? b). }
  rewrite IH. destruct (Z.leb_spec (a + 1) b), (Z.leb_spec a b); try lia.
  - replace (Z.to_nat (b - a)) with (S (Z.to_nat (b - (a + 1)))) by lia. simpl.
    destruct (bs !! _); [done|]. apply ldb_stb_ne. lia.
  - replace (Z.to_nat (b - a)) with 0%nat by lia. simpl.
    replace b with a by lia. apply ldb_stb_eq.
  - apply ldb_stb_ne. lia.
Qed.

Lemma ldb_st_bytes_out r a bs b :
  b < a ∨ a + Z.of_nat (length bs) ≤ b → ldb (st_bytes r a bs) b = ldb r b.
Proof.
  intros H. rewrite ldb_st_bytes. destruct (Z.leb_spec a b); [|done].
  rewrite lookup_ge_None_2; [done|]. lia.
Qed.

Lemma ldb_st_bytes_in r a bs (i : nat) v :
  bs !! i = Some v → ldb (st_bytes r a bs) (a + Z.of_nat i) = v mod 256.
Proof.
  intros H. rewrite ldb_st_bytes. destruct (Z.leb_spec a (a + Z.of_nat i)); [|lia].
  replace (Z.to_nat (a + Z.of_nat i - a)) with i by lia. by rewrite H.
Qed.

Lemma length_le_bytes n v : length (le_bytes n v) = n.
Proof. revert v. induction n; intros; simpl; auto. Qed.

Lemma le_val_le_bytes n v : le_val (le_bytes n v) = v mod 256 ^ Z.of_nat n.
Proof.
  revert v. induction n as [|n IH]; intros v; cbn [le_val le_bytes].
  { change (256 ^ Z.of_nat 0) with 1. by rewrite Z.mod_1_r. }
  rewrite IH, Nat2Z.inj_succ, Z.pow_succ_r, Z.rem_mul_r by lia.
  rewrite Z.mod_mod by lia. done.
Qed.

#[global] Opaque ldb stb ldn stn ld64 st64.

(** * Fields of a byte block

    Little-endian loads and stores of [n]-byte fields in a list of bytes: how
    the file system code reads and writes the structures it overlays on the
    data of a buffer. *)

(** Replace the bytes from [off] on by [bs]. *)
Definition splice (off : nat) (bs l : list Z) : list Z :=
  take off l ++ bs ++ drop (off + length bs) l.

Definition bld (n : nat) (off : Z) (l : list Z) : Z := le_val (take n (drop (Z.to_nat off) l)).
Definition bst (n : nat) (off v : Z) (l : list Z) : list Z :=
  splice (Z.to_nat off) (le_bytes n v) l.

#[global] Arguments bld : simpl never.
#[global] Arguments bst : simpl never.

Lemma length_splice off bs l : (off + length bs ≤ length l)%nat → length (splice off bs l) = length l.
Proof. intros H. unfold splice. rewrite !length_app, length_take, length_drop. lia. Qed.

Lemma lookup_splice off bs l i :
  (off + length bs ≤ length l)%nat →
  splice off bs l !! i =
    if decide (off ≤ i < off + length bs)%nat then bs !! (i - off)%nat else l !! i.
Proof.
  intros H. unfold splice. destruct (decide (i < off)%nat).
  - rewrite lookup_app_l by (rewrite length_take; lia).
    rewrite lookup_take_lt by lia. by rewrite decide_False by lia.
  - rewrite lookup_app_r by (rewrite length_take; lia). rewrite length_take_le by lia.
    case_decide.
    + by rewrite lookup_app_l by lia.
    + rewrite lookup_app_r by lia. rewrite lookup_drop. f_equal. lia.
Qed.

Lemma splice_take_drop off bs l :
  (off + length bs ≤ length l)%nat → take (length bs) (drop off (splice off bs l)) = bs.
Proof.
  intros H. unfold splice. rewrite drop_app_ge by (rewrite length_take; lia).
  rewrite length_take_le, Nat.sub_diag by lia. rewrite drop_0. by rewrite take_app_length.
Qed.

(** What lies outside of the replaced range is unchanged. *)
Lemma splice_take_drop_out off bs l off' n :
  (off + length bs ≤ length l)%nat → (off' + n ≤ off ∨ off + length bs ≤ off')%nat →
  take n (drop off' (splice off bs l)) = take n (drop off' l).
Proof.
  intros H Ho. apply list_eq. intros i. rewrite !lookup_take.
  destruct (decide (i < n)%nat); [|done].
  rewrite !lookup_drop, lookup_splice by done. by rewrite decide_False by lia.
Qed.

Lemma splice_all bs l : length bs = length l → splice 0 bs l = bs.
Proof. intros E. unfold splice. rewrite E. simpl. by rewrite drop_all, app_nil_r. Qed.

Lemma length_bst n off v l :
  0 ≤ off → off + Z.of_nat n ≤ Z.of_nat (length l) → length (bst n off v l) = length l.
Proof. intros. unfold bst. apply length_splice. rewrite length_le_bytes. lia. Qed.

Lemma bld_bst n off v l :
  0 ≤ off → off + Z.of_nat n ≤ Z.of_nat (length l) →
  bld n off (bst n off v l) = v mod 256 ^ Z.of_nat n.
Proof.
  intros. unfold bld, bst. rewrite <-(length_le_bytes n v) at 1.
  rewrite splice_take_drop by (rewrite length_le_bytes; lia). apply le_val_le_bytes.
Qed.

Lemma bld_bst_out n off m off' v l :
  0 ≤ off → 0 ≤ off' → off' + Z.of_nat m ≤ Z.of_nat (length l) →
  off + Z.of_nat n ≤ off' ∨ off' + Z.of_nat m ≤ off →
  bld n off (bst m off' v l) = bld n off l.
Proof.
  intros. unfold bld, bst. rewrite splice_take_drop_out; [done|rewrite length_le_bytes; lia..].
Qed.

Lemma le_val_range l : 0 ≤ le_val l < 256 ^ Z.of_nat (length l).
Proof.
  induction l as [|b l IH]; cbn [le_val length]; [lia|].
  rewrite Nat2Z.inj_succ, Z.pow_succ_r by lia. pose proof (Z.mod_pos_bound b 256). lia.
Qed.

Lemma bld_range n off l : 0 ≤ bld n off l < 256 ^ Z.of_nat n.
Proof.
  unfold bld. pose proof (le_val_range (take n (drop (Z.to_nat off) l))) as H.
  rewrite length_take in H. split; [lia|]. eapply Z.lt_le_trans; [apply H|].
  apply Z.pow_le_mono_r; lia.
Qed.
