(* ===== verification/RingBuf.v ===== *)
(** * Ring buffers

    A buffer of [N] bytes with a read and a write index that wrap at [M], as the
    pipes, the console and the UART have: the contents as a list, and what adding,
    taking and taking back a byte do to it. *)

From stdpp Require Import list.
From Stdlib Require Import ZArith Lia.
From S2P Require Import Prelude.
#[local] Open Scope Z_scope.

Section ring.
Context (N M : Z).

(** How many bytes there are, and which. *)
Definition rcount (r w : Z) : Z := (w - r) mod M.
Definition rat (buf : list Z) (i : Z) : Z := default 0 (buf !! Z.to_nat (i mod N)).
Definition rlist (buf : list Z) (r w : Z) : list Z := (λ i, rat buf (r + i)) <$> seqZ 0 (rcount r w).

Record ring_ok (buf : list Z) (r w : Z) : Prop := {
  rg_len : length buf = Z.to_nat N;
  rg_r : 0 ≤ r < M;
  rg_w : 0 ≤ w < M;
  rg_count : rcount r w ≤ N;
}.

Context (HN : 0 < N) (HM : N < M) (Hdiv : (N | M)).

Lemma rcount_range r w : 0 ≤ rcount r w < M.
Proof. apply Z.mod_pos_bound. lia. Qed.

Lemma length_rlist buf r w : Z.of_nat (length (rlist buf r w)) = rcount r w.
Proof. unfold rlist. rewrite length_fmap, length_seqZ. pose proof (rcount_range r w). lia. Qed.

Lemma lookup_rlist buf r w (i : nat) :
  Z.of_nat i < rcount r w → rlist buf r w !! i = Some (rat buf (r + Z.of_nat i)).
Proof.
  intros Hi. unfold rlist. rewrite list_lookup_fmap, lookup_seqZ_lt by lia. simpl. do 3 f_equal.
Qed.

Lemma rat_wrap buf i : rat buf (i mod M) = rat buf i.
Proof. unfold rat. do 3 f_equal. symmetry. apply Znumtheory.Zmod_div_mod; [lia..|done]. Qed.

Lemma rat_insert buf i j c :
  length buf = Z.to_nat N →
  rat (<[Z.to_nat (i mod N) := c]> buf) j = if decide (i mod N = j mod N) then c else rat buf j.
Proof.
  intros Hl. unfold rat. pose proof (Z.mod_pos_bound i N HN). pose proof (Z.mod_pos_bound j N HN).
  case_decide as E.
  - rewrite E, list_lookup_insert_eq by lia. done.
  - rewrite list_lookup_insert_ne by lia. done.
Qed.

Lemma rcount_succ r w : rcount r w < M - 1 → rcount r ((w + 1) mod M) = rcount r w + 1.
Proof.
  intros Hc. pose proof (rcount_range r w). unfold rcount in *. rewrite Zminus_mod_idemp_l.
  replace (w + 1 - r) with (w - r + 1) by lia. rewrite <-(Zplus_mod_idemp_l (w - r)). apply Z.mod_small. lia.
Qed.

Lemma rcount_pred r w : 0 < rcount r w → rcount r ((w - 1) mod M) = rcount r w - 1.
Proof.
  intros Hc. pose proof (rcount_range r w). unfold rcount in *. rewrite Zminus_mod_idemp_l.
  replace (w - 1 - r) with (w - r - 1) by lia. rewrite <-(Zminus_mod_idemp_l (w - r)). apply Z.mod_small. lia.
Qed.

Lemma rcount_next r w : 0 < rcount r w → rcount ((r + 1) mod M) w = rcount r w - 1.
Proof.
  intros Hc. pose proof (rcount_range r w). unfold rcount in *. rewrite Zminus_mod_idemp_r.
  replace (w - (r + 1)) with (w - r - 1) by lia. rewrite <-(Zminus_mod_idemp_l (w - r)). apply Z.mod_small. lia.
Qed.

(** The write index from the read index and the count. *)
Lemma rcount_w r w : 0 ≤ w < M → w = (r + rcount r w) mod M.
Proof.
  intros Hw. unfold rcount. rewrite Zplus_mod_idemp_r. replace (r + (w - r)) with w by lia.
  symmetry. by apply Z.mod_small.
Qed.

(** The slot of the next byte is not in use. *)
Lemma slot_fresh r w i : 0 ≤ w < M → 0 ≤ i < rcount r w → rcount r w < N → w mod N ≠ (r + i) mod N.
Proof.
  intros Hw Hi Hc E. rewrite (rcount_w r w Hw) in E at 1. rewrite <-Znumtheory.Zmod_div_mod in E by (lia || done).
  assert ((rcount r w - i) mod N = 0) as E0.
  { replace (rcount r w - i) with ((r + rcount r w) - (r + i)) by lia.
    rewrite Zminus_mod, E, Z.sub_diag. apply Z.mod_0_l. lia. }
  rewrite Z.mod_small in E0 by lia. lia.
Qed.

Lemma rlist_put buf r w c :
  ring_ok buf r w → rcount r w < N →
  let buf' := <[Z.to_nat (w mod N) := c]> buf in
  let w' := (w + 1) mod M in
  ring_ok buf' r w' ∧ rlist buf' r w' = rlist buf r w ++ [c].
Proof.
  intros [R1 R2 R3 R4] Hc buf' w'. pose proof (rcount_range r w) as Hr.
  assert (rcount r w' = rcount r w + 1) as Ec by (apply rcount_succ; lia). split.
  - split; [by unfold buf'; rewrite length_insert|done|apply Z.mod_pos_bound; lia|lia].
  - unfold rlist. rewrite Ec, seqZ_app by lia. rewrite fmap_app. f_equal.
    + apply list_fmap_ext. intros i x Hx. apply lookup_seqZ in Hx as [-> Hx]. unfold buf'.
      rewrite rat_insert by done. rewrite decide_False; [done|]. apply slot_fresh; [done|lia|done].
    + change (seqZ (0 + rcount r w) 1) with [0 + rcount r w]. simpl. f_equal. unfold buf'.
      rewrite rat_insert, decide_True; [done| |done].
      rewrite (rcount_w r w R3) at 1. symmetry. apply Znumtheory.Zmod_div_mod; [lia..|done].
Qed.

Lemma rlist_get buf r w :
  ring_ok buf r w → 0 < rcount r w →
  let r' := (r + 1) mod M in
  ring_ok buf r' w ∧ rlist buf r w = rat buf r :: rlist buf r' w.
Proof.
  intros [R1 R2 R3 R4] Hc r'. assert (rcount r' w = rcount r w - 1) as Ec by (by apply rcount_next). split.
  - split; [done|apply Z.mod_pos_bound; lia|done|lia].
  - unfold rlist. rewrite Ec. replace (rcount r w) with (1 + (rcount r w - 1)) at 1 by lia.
    rewrite seqZ_app by lia. simpl. rewrite Z.add_0_r. f_equal. change (0 + 1) with (1 + 0).
    rewrite <-fmap_add_seqZ, <-list_fmap_compose.
    apply list_fmap_ext. intros i x _. simpl. rewrite <-(rat_wrap buf (r + _)), <-(rat_wrap buf (r' + x)).
    unfold r'. rewrite Zplus_mod_idemp_l. do 2 f_equal. lia.
Qed.

Lemma rlist_drop_last buf r w :
  ring_ok buf r w → 0 < rcount r w →
  let w' := (w - 1) mod M in
  ring_ok buf r w' ∧ rlist buf r w = rlist buf r w' ++ [rat buf (w - 1)].
Proof.
  intros [R1 R2 R3 R4] Hc w'. assert (rcount r w' = rcount r w - 1) as Ec by (by apply rcount_pred). split.
  - split; [done|done|apply Z.mod_pos_bound; lia|lia].
  - unfold rlist. rewrite Ec. replace (rcount r w) with (rcount r w - 1 + 1) at 1 by lia.
    rewrite seqZ_app by lia. rewrite fmap_app. f_equal. simpl. f_equal.
    rewrite <-(rat_wrap buf (w - 1)), <-(rat_wrap buf (r + _)). rewrite (rcount_w r w R3) at 2.
    rewrite Zminus_mod_idemp_l. do 2 f_equal. lia.
Qed.

Lemma rlist_nil buf r w : ring_ok buf r w → r = w ↔ rlist buf r w = [].
Proof.
  intros [R1 R2 R3 R4]. pose proof (length_rlist buf r w) as Hl. split.
  - intros ->. unfold rcount in Hl. rewrite Z.sub_diag, Z.mod_0_l in Hl by lia.
    by destruct (rlist buf w w).
  - intros E. rewrite E in Hl. simpl in Hl. rewrite (rcount_w r w R3), <-Hl, Z.add_0_r.
    symmetry. by apply Z.mod_small.
Qed.

Lemma ring_full buf r w : ring_ok buf r w → w = (r + N) mod M ↔ rcount r w = N.
Proof.
  intros [R1 R2 R3 R4]. split.
  - intros ->. unfold rcount. rewrite Zminus_mod_idemp_l. replace (r + N - r) with N by lia. apply Z.mod_small. lia.
  - intros E. rewrite (rcount_w r w R3) at 1. by rewrite E.
Qed.

(** ** Two adjacent parts of a ring *)

Lemma rcount_add r w e : rcount r w + rcount w e < M → rcount r e = rcount r w + rcount w e.
Proof.
  intros H. pose proof (rcount_range r w). pose proof (rcount_range w e). unfold rcount in *.
  replace (e - r) with ((w - r) + (e - w)) by lia. rewrite Zplus_mod. apply Z.mod_small. lia.
Qed.

Lemma rlist_app buf r w e :
  0 ≤ w < M → rcount r w + rcount w e < M → rlist buf r e = rlist buf r w ++ rlist buf w e.
Proof.
  intros Hw H. pose proof (rcount_range r w). pose proof (rcount_range w e). unfold rlist at 1.
  rewrite (rcount_add r w e) by done. rewrite seqZ_app, fmap_app by lia. f_equal. unfold rlist.
  rewrite Z.add_0_l. replace (rcount r w) with (rcount r w + 0) by lia.
  rewrite <-fmap_add_seqZ, <-list_fmap_compose. apply list_fmap_ext. intros i x _. simpl.
  rewrite <-(rat_wrap buf (r + _)), <-(rat_wrap buf (w + x)). rewrite (rcount_w r w Hw) at 2.
  rewrite Zplus_mod_idemp_l. do 2 f_equal. lia.
Qed.

(** Storing behind the second part does not change the first. *)
Lemma rlist_put_other buf r w e c :
  ring_ok buf r w → 0 ≤ e < M → rcount r w + rcount w e < N →
  rlist (<[Z.to_nat (e mod N) := c]> buf) r w = rlist buf r w.
Proof.
  intros [R1 R2 R3 R4] He H. pose proof (rcount_range w e). apply list_fmap_ext.
  intros i x Hx. apply lookup_seqZ in Hx as [-> Hx]. rewrite rat_insert by done.
  rewrite decide_False; [done|]. apply slot_fresh; [done|rewrite (rcount_add r w e); lia|rewrite (rcount_add r w e); lia].
Qed.
End ring.
