(* ===== verification/Str.v ===== *)
(** * Memory and string routines (kernel/string.c)

    The routines work on physical memory [mem]; pointers are addresses.  A
    [while(n-- > 0)] loop is a recursion on [n]; [strlen], whose loop has no
    counter, uses the [loop] combinator. *)

From stdpp Require Import gmap list.
From Stdlib Require Import ZArith Lia.
From S2P Require Import Prelude Mem.
#[local] Open Scope Z_scope.

(** ** Definitions *)

Fixpoint memset_loop (n : nat) (r : mem) (cdst c i : Z) : mem :=
  match n with
  | O => r
  | S n' => memset_loop n' (stb r (cdst + i) c) cdst c (i + 1)
  end.

Definition memset (r : mem) (dst c n : Z) : mem := memset_loop (Z.to_nat n) r dst c 0.

Fixpoint memcmp_loop (n : nat) (r : mem) (s1 s2 : Z) : Z :=
  match n with
  | O => 0
  | S n' =>
      if negb (ldb r s1 =? ldb r s2) then ldb r s1 - ldb r s2
      else memcmp_loop n' r (s1 + 1) (s2 + 1)
  end.

Definition memcmp (r : mem) (v1 v2 n : Z) : Z := memcmp_loop (Z.to_nat n) r v1 v2.

(** [*d++ = *s++] *)
Fixpoint copy_up (n : nat) (r : mem) (d s : Z) : mem :=
  match n with
  | O => r
  | S n' => copy_up n' (stb r d (ldb r s)) (d + 1) (s + 1)
  end.

(** [*--d = *--s] *)
Fixpoint copy_down (n : nat) (r : mem) (d s : Z) : mem :=
  match n with
  | O => r
  | S n' => copy_down n' (stb r (d - 1) (ldb r (s - 1))) (d - 1) (s - 1)
  end.

Definition memmove (r : mem) (dst src n : Z) : mem :=
  if n =? 0 then r
  else if (src <? dst) && (dst <? src + n)
  then copy_down (Z.to_nat n) r (dst + n) (src + n)
  else copy_up (Z.to_nat n) r dst src.

Definition memcpy (r : mem) (dst src n : Z) : mem := memmove r dst src n.

Fixpoint strncmp_loop (n : nat) (r : mem) (p q : Z) : Z :=
  match n with
  | O => 0
  | S n' =>
      if nz (ldb r p) && (ldb r p =? ldb r q)
      then strncmp_loop n' r (p + 1) (q + 1)
      else ldb r p - ldb r q
  end.

Definition strncmp (r : mem) (p q n : Z) : Z := strncmp_loop (Z.to_nat n) r p q.

(** [while(n-- > 0) *s++ = 0] *)
Fixpoint strncpy_pad (n : nat) (r : mem) (s : Z) : mem :=
  match n with
  | O => r
  | S n' => strncpy_pad n' (stb r s 0) (s + 1)
  end.

Fixpoint strncpy_loop (n : nat) (r : mem) (s t : Z) : mem :=
  match n with
  | O => r
  | S n' =>
      let c := ldb r t in
      let r' := stb r s c in
      if nz c then strncpy_loop n' r' (s + 1) (t + 1) else strncpy_pad n' r' (s + 1)
  end.

Definition strncpy (r : mem) (s t n : Z) : mem := strncpy_loop (Z.to_nat n) r s t.

(** The loop that stops after [--n] reaches zero or a NUL was copied, and the
    store of the final NUL; [n] counts the bytes left before the last one. *)
Fixpoint safestrcpy_loop (n : nat) (r : mem) (s t : Z) : mem :=
  match n with
  | O => stb r s 0
  | S n' =>
      let c := ldb r t in
      let r' := stb r s c in
      if nz c then safestrcpy_loop n' r' (s + 1) (t + 1) else stb r' (s + 1) 0
  end.

Definition safestrcpy (r : mem) (s t n : Z) : mem :=
  if n <=? 0 then r else safestrcpy_loop (Z.to_nat (n - 1)) r s t.

Definition strlen (s : Z) : M mem Z :=
  loop (λ n, c ← gets (λ r, ldb r (s + n));
             if c =? 0 then break n else continue (s32 (n + 1))) 0.

(** ** Specifications *)

(** The NUL-terminated string [bs] is stored at [a]. *)
Definition is_cstr (r : mem) (a : Z) (bs : list Z) : Prop :=
  (∀ i b, bs !! i = Some b → ldb r (a + Z.of_nat i) = b ∧ b ≠ 0) ∧
  ldb r (a + Z.of_nat (length bs)) = 0.

Lemma memset_loop_spec n r cdst c i b :
  ldb (memset_loop n r cdst c i) b =
    if decide (cdst + i ≤ b < cdst + i + Z.of_nat n) then c mod 256 else ldb r b.
Proof.
  revert r i. induction n as [|n IH]; intros r i; cbn [memset_loop].
  { case_decide; [lia|done]. }
  rewrite IH, ldb_stb. repeat case_decide; try done; lia.
Qed.

(** memset fills exactly the [n] bytes at [dst] with the low byte of [c]. *)
Lemma memset_spec r dst c n b :
  ldb (memset r dst c n) b = if decide (dst ≤ b < dst + n) then c mod 256 else ldb r b.
Proof.
  unfold memset. rewrite memset_loop_spec. repeat case_decide; try done; lia.
Qed.

Lemma copy_up_spec n r d s b :
  ¬ (s < d < s + Z.of_nat n) →
  ldb (copy_up n r d s) b =
    if decide (d ≤ b < d + Z.of_nat n) then ldb r (s + (b - d)) else ldb r b.
Proof.
  revert r d s. induction n as [|n IH]; intros r d s H; cbn [copy_up].
  { case_decide; [lia|done]. }
  rewrite IH by lia. repeat case_decide; try lia.
  - rewrite ldb_stb_ne by lia. f_equal. lia.
  - replace b with d by lia. rewrite ldb_stb_eq. rewrite Z.mod_small by apply ldb_range.
    f_equal. lia.
  - by rewrite ldb_stb_ne by lia.
Qed.

Lemma copy_down_spec n r d s b :
  s ≤ d →
  ldb (copy_down n r d s) b =
    if decide (d - Z.of_nat n ≤ b < d) then ldb r (s + (b - d)) else ldb r b.
Proof.
  revert r d s. induction n as [|n IH]; intros r d s H; cbn [copy_down].
  { case_decide; [lia|done]. }
  rewrite IH by lia. repeat case_decide; try lia.
  - destruct (decide (s + (b - d) = d - 1)).
    + lia.
    + rewrite ldb_stb_ne by lia. f_equal. lia.
  - replace b with (d - 1) by lia. rewrite ldb_stb_eq.
    rewrite Z.mod_small by apply ldb_range. f_equal. lia.
  - by rewrite ldb_stb_ne by lia.
Qed.

(** memmove copies the [n] source bytes as they were before the call, also when
    source and destination overlap, and changes nothing else. *)
Lemma memmove_spec r dst src n b :
  0 ≤ n →
  ldb (memmove r dst src n) b =
    if decide (dst ≤ b < dst + n) then ldb r (src + (b - dst)) else ldb r b.
Proof.
  intros Hn. unfold memmove. destruct (Z.eqb_spec n 0) as [->|].
  { case_decide; [lia|done]. }
  destruct (Z.ltb_spec src dst), (Z.ltb_spec dst (src + n)); simpl.
  - rewrite copy_down_spec by lia. repeat case_decide; try done; try lia. f_equal. lia.
  - rewrite copy_up_spec by lia. repeat case_decide; try lia; done.
  - rewrite copy_up_spec by lia. repeat case_decide; try lia; done.
  - rewrite copy_up_spec by lia. repeat case_decide; try lia; done.
Qed.

(** memcmp is zero exactly when the two ranges hold the same bytes. *)
Lemma memcmp_zero r v1 v2 n :
  memcmp r v1 v2 n = 0 ↔ ∀ i, 0 ≤ i < n → ldb r (v1 + i) = ldb r (v2 + i).
Proof.
  unfold memcmp.
  assert (∀ m s1 s2, memcmp_loop m r s1 s2 = 0 ↔
            ∀ i, 0 ≤ i < Z.of_nat m → ldb r (s1 + i) = ldb r (s2 + i)) as H.
  { induction m as [|m IH]; intros s1 s2; cbn [memcmp_loop]; [split; [lia|done]|].
    destruct (Z.eqb_spec (ldb r s1) (ldb r s2)) as [E|E]; simpl.
    - rewrite IH. split; intros H i Hi.
      + destruct (decide (i = 0)) as [->|]; [by rewrite !Z.add_0_r|].
        specialize (H (i - 1) ltac:(lia)).
        replace (s1 + i) with (s1 + 1 + (i - 1)) by lia.
        by replace (s2 + i) with (s2 + 1 + (i - 1)) by lia.
      + rewrite <-!Z.add_assoc. apply H. lia.
    - split; [lia|]. intros H. specialize (H 0 ltac:(lia)).
      rewrite !Z.add_0_r in H. lia. }
  rewrite H. split; intros Hi i ?; apply Hi; lia.
Qed.

Lemma is_cstr_cons r a b bs :
  is_cstr r a (b :: bs) ↔ ldb r a = b ∧ b ≠ 0 ∧ is_cstr r (a + 1) bs.
Proof.
  unfold is_cstr. cbn [length]. split.
  - intros [H1 H2]. destruct (H1 0%nat b eq_refl) as [Ha Hb].
    rewrite Z.add_0_r in Ha. repeat split; try done.
    + destruct (H1 (S i) b0 H) as [<- _]. f_equal. lia.
    + by destruct (H1 (S i) b0 H).
    + rewrite <-H2. f_equal. lia.
  - intros (Ha & Hb & H1 & H2). split.
    + intros [|i] c Hc; simpl in Hc.
      * injection Hc as <-. by rewrite Z.add_0_r.
      * destruct (H1 i c Hc) as [<- ?]. split; [f_equal; lia|done].
    + rewrite <-H2. f_equal. lia.
Qed.

Lemma is_cstr_nil r a : is_cstr r a [] ↔ ldb r a = 0.
Proof.
  unfold is_cstr. simpl. rewrite Z.add_0_r. split; [by intros [_ ?]|]. done.
Qed.

Lemma is_cstr_ext r r' a bs :
  (∀ b, a ≤ b ≤ a + Z.of_nat (length bs) → ldb r' b = ldb r b) →
  is_cstr r a bs → is_cstr r' a bs.
Proof.
  intros He [H1 H2]. split.
  - intros i b Hb. apply lookup_lt_Some in Hb as Hl. rewrite He by lia. by apply H1.
  - rewrite He by lia. done.
Qed.

(** strlen returns the length of the string at its argument. *)
Lemma strlen_spec r s bs :
  is_cstr r s bs → Z.of_nat (length bs) < 2 ^ 31 →
  strlen s r = Ok (Z.of_nat (length bs)) r.
Proof.
  intros [Hb Hz] Hlen.
  assert (wp (strlen s) r (λ n r', n = Z.of_nat (length bs) ∧ r' = r)) as H.
  { unfold strlen.
    apply (wp_loop _ (λ n r', r' = r ∧ 0 ≤ n ≤ Z.of_nat (length bs))
                     (λ n _, Z.of_nat (length bs) - n)); [|split; [done|lia]|lia].
    intros n ? [-> Hn]. wp_pure.
    destruct (decide (n = Z.of_nat (length bs))) as [->|].
    - rewrite Hz. simpl. done.
    - destruct (lookup_lt_is_Some_2 bs (Z.to_nat n)) as [b Hbn]; [lia|].
      destruct (Hb _ _ Hbn) as [Hl ?]. rewrite Z2Nat.id in Hl by lia.
      destruct (Z.eqb_spec (ldb r (s + n)) 0); [congruence|].
      wp_pure. rewrite s32_small by lia. split; [split; [done|lia]|lia]. }
  apply wp_iff in H as (? & ? & -> & -> & ->). done.
Qed.

(** strncmp compares at most [n] bytes and stops at a NUL: it returns zero
    exactly when the strings, cut to [n] bytes, are equal. *)
Lemma strncmp_loop_zero n r p q ps qs :
  is_cstr r p ps → is_cstr r q qs →
  strncmp_loop n r p q = 0 ↔ take n ps = take n qs.
Proof.
  revert p q ps qs. induction n as [|n IH]; intros p q ps qs Hp Hq; cbn [strncmp_loop].
  { by rewrite !take_0. }
  unfold nz. destruct ps as [|a ps], qs as [|b qs];
    [apply is_cstr_nil in Hp|apply is_cstr_nil in Hp
    |apply is_cstr_cons in Hp as (<- & ? & Hp)|apply is_cstr_cons in Hp as (<- & ? & Hp)];
    [apply is_cstr_nil in Hq|apply is_cstr_cons in Hq as (<- & ? & Hq)
    |apply is_cstr_nil in Hq|apply is_cstr_cons in Hq as (<- & ? & Hq)]; simpl.
  - rewrite Hp, Hq. done.
  - rewrite Hp. simpl. split; [lia|done].
  - rewrite Hq. destruct (Z.eqb_spec (ldb r p) 0); simpl; split; try done; lia.
  - destruct (Z.eqb_spec (ldb r p) 0); simpl; [done|].
    destruct (Z.eqb_spec (ldb r p) (ldb r q)) as [E|E].
    + rewrite IH by done. split; [intros ->; by rewrite E|intros [=]; done].
    + split; [lia|intros [=]; done].
Qed.

Lemma strncmp_zero r p q n ps qs :
  is_cstr r p ps → is_cstr r q qs →
  strncmp r p q n = 0 ↔ take (Z.to_nat n) ps = take (Z.to_nat n) qs.
Proof. apply strncmp_loop_zero. Qed.

Lemma strncpy_pad_spec n r s b :
  ldb (strncpy_pad n r s) b =
    if decide (s ≤ b < s + Z.of_nat n) then 0 else ldb r b.
Proof.
  revert r s. induction n as [|n IH]; intros r s; cbn [strncpy_pad].
  { case_decide; [lia|done]. }
  rewrite IH, ldb_stb. repeat case_decide; try done; lia.
Qed.

(** strncpy stores the string cut to [n] bytes and pads with NULs: no byte
    outside the [n] destination bytes changes. *)
Lemma strncpy_loop_spec n r s t ts b :
  is_cstr r t ts →
  s + Z.of_nat n ≤ t ∨ t + Z.of_nat (length ts) < s →
  ldb (strncpy_loop n r s t) b =
    if decide (s ≤ b < s + Z.of_nat n)
    then default 0 (ts !! Z.to_nat (b - s)) else ldb r b.
Proof.
  revert r s t ts. induction n as [|n IH]; intros r s t ts Ht Hd; cbn [strncpy_loop].
  { case_decide; [lia|done]. }
  destruct ts as [|c ts]; rewrite ?is_cstr_cons, ?is_cstr_nil in Ht.
  - rewrite Ht. cbn. rewrite strncpy_pad_spec, ldb_stb. repeat case_decide; try done; lia.
  - destruct Ht as (Hc & Hnz & Ht). rewrite Hc. unfold nz.
    destruct (Z.eqb_spec c 0); [done|]. cbn [length] in Hd. simpl.
    erewrite IH; [|eapply is_cstr_ext; [|exact Ht]; intros; apply ldb_stb_ne; lia|lia].
    repeat case_decide; try lia.
    + replace (Z.to_nat (b - s)) with (S (Z.to_nat (b - (s + 1)))) by lia. done.
    + replace b with s by lia. rewrite Z.sub_diag, ldb_stb_eq. simpl.
      rewrite <-Hc. apply Z.mod_small, ldb_range.
    + apply ldb_stb_ne. lia.
Qed.

Lemma strncpy_spec r s t n ts b :
  is_cstr r t ts → 0 ≤ n → s + n ≤ t ∨ t + Z.of_nat (length ts) < s →
  ldb (strncpy r s t n) b =
    if decide (s ≤ b < s + n) then default 0 (ts !! Z.to_nat (b - s)) else ldb r b.
Proof.
  intros Ht Hn Hd. unfold strncpy.
  rewrite (strncpy_loop_spec _ _ _ _ _ _ Ht) by lia. by rewrite Z2Nat.id by lia.
Qed.

Lemma safestrcpy_loop_spec n r s t ts :
  is_cstr r t ts →
  s + Z.of_nat n < t ∨ t + Z.of_nat (length ts) < s →
  is_cstr (safestrcpy_loop n r s t) s (take n ts) ∧
  (∀ b, b < s ∨ s + Z.of_nat n < b → ldb (safestrcpy_loop n r s t) b = ldb r b).
Proof.
  revert r s t ts. induction n as [|n IH]; intros r s t ts Ht Hd; cbn [safestrcpy_loop].
  { rewrite take_0, is_cstr_nil. rewrite ldb_stb_eq. split; [done|].
    intros b Hb. apply ldb_stb_ne. lia. }
  destruct ts as [|c ts]; rewrite ?is_cstr_cons, ?is_cstr_nil in Ht.
  - rewrite Ht. cbn. rewrite is_cstr_nil. split.
    + rewrite ldb_stb_ne by lia. by rewrite ldb_stb_eq.
    + intros b Hb. rewrite !ldb_stb_ne by lia. done.
  - destruct Ht as (Hc & Hnz & Ht). rewrite Hc. unfold nz.
    destruct (Z.eqb_spec c 0); [done|]. cbn [length] in Hd. simpl.
    destruct (IH (stb r s c) (s + 1) (t + 1) ts) as [H1 H2]; [|lia|].
    { eapply is_cstr_ext; [|exact Ht]. intros; apply ldb_stb_ne; lia. }
    rewrite is_cstr_cons. split; [split; [|done]|].
    + rewrite H2 by lia. rewrite ldb_stb_eq. rewrite <-Hc.
      apply Z.mod_small, ldb_range.
    + intros b Hb. rewrite H2 by lia. apply ldb_stb_ne. lia.
Qed.

(** safestrcpy always leaves a NUL-terminated string of at most [n - 1] bytes
    in the destination and writes nothing outside its [n] bytes. *)
Lemma safestrcpy_spec r s t n ts :
  is_cstr r t ts → 0 < n → s + n ≤ t ∨ t + Z.of_nat (length ts) < s →
  is_cstr (safestrcpy r s t n) s (take (Z.to_nat (n - 1)) ts) ∧
  (∀ b, b < s ∨ s + n ≤ b → ldb (safestrcpy r s t n) b = ldb r b).
Proof.
  intros Ht Hn Hd. unfold safestrcpy. destruct (Z.leb_spec n 0); [lia|].
  destruct (safestrcpy_loop_spec (Z.to_nat (n - 1)) r s t ts) as [H1 H2]; [done|lia|].
  split; [done|]. intros b Hb. apply H2. lia.
Qed.

(** ** Theorems *)

Lemma ld_bytes_ext n r r' a a' :
  (∀ i, 0 ≤ i < Z.of_nat n → ldb r' (a' + i) = ldb r (a + i)) → ld_bytes n r' a' = ld_bytes n r a.
Proof.
  revert a a'. induction n as [|n IH]; intros a a' H; cbn [ld_bytes]; [done|].
  pose proof (H 0 ltac:(lia)) as H0. rewrite !Z.add_0_r in H0. rewrite H0. f_equal. apply IH.
  intros i Hi. replace (a' + 1 + i) with (a' + (1 + i)) by lia.
  replace (a + 1 + i) with (a + (1 + i)) by lia. apply H. lia.
Qed.

(** memmove() leaves at the destination the bytes that were at the source
    before the call, also when the two ranges overlap, and changes no byte
    outside the destination. *)
Theorem memmove_correct r dst src (n : nat) :
  ld_bytes n (memmove r dst src (Z.of_nat n)) dst = ld_bytes n r src ∧
  ∀ b, b < dst ∨ dst + Z.of_nat n ≤ b → ldb (memmove r dst src (Z.of_nat n)) b = ldb r b.
Proof.
  split.
  - apply ld_bytes_ext. intros i Hi. rewrite memmove_spec, decide_True by lia. f_equal. lia.
  - intros b Hb. rewrite memmove_spec, decide_False by lia. done.
Qed.

(** safestrcpy() leaves a NUL-terminated string in the destination: the source
    string cut to [n - 1] bytes, whose length strlen() finds; no byte outside
    the [n] destination bytes changes. *)
Theorem safestrcpy_correct r s t n ts :
  is_cstr r t ts → 0 < n ≤ 2 ^ 31 → s + n ≤ t ∨ t + Z.of_nat (length ts) < s →
  let r' := safestrcpy r s t n in
  is_cstr r' s (take (Z.to_nat (n - 1)) ts) ∧
  strlen s r' = Ok (Z.min (n - 1) (Z.of_nat (length ts))) r' ∧
  ∀ b, b < s ∨ s + n ≤ b → ldb r' b = ldb r b.
Proof.
  intros Ht Hn Hd r'. destruct (safestrcpy_spec r s t n ts) as [H1 H2]; [done|lia|done|].
  split_and!; [done| |done]. unfold r'. rewrite (strlen_spec _ _ _ H1).
  - rewrite length_take. do 2 f_equal. lia.
  - rewrite length_take. lia.
Qed.

(** strncmp() returns zero exactly when the two strings agree up to [n] bytes;
    with [strncpy] before it, it recognises the name that was stored. *)
Theorem strncmp_correct r p q n ps qs :
  is_cstr r p ps → is_cstr r q qs →
  (strncmp r p q n = 0 ↔ take (Z.to_nat n) ps = take (Z.to_nat n) qs) ∧
  (0 ≤ n → Z.of_nat (length ps) < n → p + Z.of_nat (length ps) < q ∨ q + n ≤ p →
   strncmp (strncpy r q p n) p q n = 0).
Proof.
  intros Hp Hq. split; [by apply strncmp_zero|]. intros Hn Hlen Hd.
  assert (is_cstr (strncpy r q p n) p ps) as Hp'.
  { eapply is_cstr_ext; [|exact Hp]. intros b Hb.
    rewrite (strncpy_spec _ _ _ _ _ _ Hp), decide_False by lia. done. }
  assert (is_cstr (strncpy r q p n) q ps) as Hq'.
  { pose proof (proj1 Hp) as H1. split.
    - intros i b Hb. apply lookup_lt_Some in Hb as Hl.
      rewrite (strncpy_spec _ _ _ _ _ _ Hp), decide_True by lia.
      replace (Z.to_nat (q + Z.of_nat i - q)) with i by lia. rewrite Hb. split; [done|]. by apply (H1 i).
    - rewrite (strncpy_spec _ _ _ _ _ _ Hp), decide_True by lia.
      replace (Z.to_nat (q + Z.of_nat (length ps) - q)) with (length ps) by lia.
      by rewrite lookup_ge_None_2. }
  by apply (strncmp_zero _ _ _ _ _ _ Hp' Hq').
Qed.

(** The strings [ls] at 100 and [lsx] at 200. *)
Definition two_strings : mem :=
  st_bytes (st_bytes ∅ 100 [108; 115; 0]) 200 [108; 115; 120; 0].

Lemma two_strings_1 : is_cstr two_strings 100 [108; 115].
Proof. rewrite !is_cstr_cons, is_cstr_nil. by vm_compute. Qed.
Lemma two_strings_2 : is_cstr two_strings 200 [108; 115; 120].
Proof. rewrite !is_cstr_cons, is_cstr_nil. by vm_compute. Qed.

Lemma safestrcpy_correct_witness :
  let r' := safestrcpy two_strings 50 200 3 in
  is_cstr r' 50 (take (Z.to_nat (3 - 1)) [108; 115; 120]) ∧
  strlen 50 r' = Ok (Z.min (3 - 1) 3) r' ∧
  ∀ b, b < 50 ∨ 50 + 3 ≤ b → ldb r' b = ldb two_strings b.
Proof. apply (safestrcpy_correct two_strings 50 200 3 [108; 115; 120] two_strings_2); simpl; lia. Defined.

Lemma strncmp_correct_witness :
  (strncmp two_strings 100 200 14 = 0 ↔
   take (Z.to_nat 14) [108; 115] = take (Z.to_nat 14) [108; 115; 120]) ∧
  (0 ≤ 14 → 2 < 14 → 100 + 2 < 200 ∨ 200 + 14 ≤ 100 →
   strncmp (strncpy two_strings 200 100 14) 100 200 14 = 0).
Proof. apply (strncmp_correct two_strings 100 200 14 _ _ two_strings_1 two_strings_2). Defined.

#[global] Opaque memset memmove.
