(* ===== verification/Params.v ===== *)
(** * Kernel parameters, memory layout and page-table macros

    kernel/param.h, kernel/memlayout.h and the paging part of kernel/riscv.h,
    with the arithmetic of the page and PTE macros. *)

From stdpp Require Import gmap list.
From Stdlib Require Import ZArith Lia.
From S2P Require Import Prelude.
#[local] Open Scope Z_scope.

(** ** kernel/param.h *)

Definition NPROC := 64.
Definition NCPU := 8.
Definition NOFILE := 16.
Definition NFILE := 100.
Definition NINODE := 50.
Definition NDEV := 10.
Definition ROOTDEV := 1.
Definition MAXARG := 32.
Definition MAXOPBLOCKS := 10.
Definition LOGSIZE := MAXOPBLOCKS * 3.
Definition NBUF := MAXOPBLOCKS * 3.
Definition FSSIZE := 1000.
Definition MAXPATH := 128.

(** ** kernel/riscv.h: pages and page-table entries *)

Definition PGSIZE := 4096.
Definition PGSHIFT := 12.

Definition PGROUNDUP (sz : Z) : Z := Z.land (u64 (sz + PGSIZE - 1)) (Z.lnot (PGSIZE - 1)).
Definition PGROUNDDOWN (a : Z) : Z := Z.land a (Z.lnot (PGSIZE - 1)).

Definition PTE_V := Z.shiftl 1 0.
Definition PTE_R := Z.shiftl 1 1.
Definition PTE_W := Z.shiftl 1 2.
Definition PTE_X := Z.shiftl 1 3.
Definition PTE_U := Z.shiftl 1 4.
Definition PTE_COW := Z.shiftl 1 8.

Definition PA2PTE (pa : Z) : Z := u64 (Z.shiftl (Z.shiftr pa 12) 10).
Definition PTE2PA (pte : Z) : Z := u64 (Z.shiftl (Z.shiftr pte 10) 12).
Definition PTE_FLAGS (pte : Z) : Z := Z.land pte 0x3FF.

Definition PXMASK := 0x1FF.
Definition PXSHIFT (level : Z) : Z := PGSHIFT + 9 * level.
Definition PX (level va : Z) : Z := Z.land (Z.shiftr va (PXSHIFT level)) PXMASK.

Definition MAXVA := Z.shiftl 1 (9 + 9 + 9 + 12 - 1).

Definition SATP_SV39 := Z.shiftl 8 60.
Definition MAKE_SATP (pagetable : Z) : Z := Z.lor SATP_SV39 (Z.shiftr pagetable 12).

Definition SSTATUS_SPP := Z.shiftl 1 8.
Definition SSTATUS_SPIE := Z.shiftl 1 5.
Definition SSTATUS_UPIE := Z.shiftl 1 4.
Definition SSTATUS_SIE := Z.shiftl 1 1.
Definition SSTATUS_UIE := Z.shiftl 1 0.

(** ** kernel/memlayout.h *)

Definition UART0 := 0x10000000.
Definition UART0_IRQ := 10.
Definition VIRTIO0 := 0x10001000.
Definition VIRTIO0_IRQ := 1.
Definition PLIC := 0x0c000000.
Definition KERNBASE := 0x80000000.
Definition PHYSTOP := KERNBASE + 128 * 1024 * 1024.
Definition TRAMPOLINE := MAXVA - PGSIZE.
Definition KSTACK (p : Z) : Z := TRAMPOLINE - (p + 1) * 2 * PGSIZE.
Definition TRAPFRAME := TRAMPOLINE - PGSIZE.

(** ** Symbols the linker defines (kernel/kernel.ld)

    [kend] is [end], the first address after the kernel; [etext] the end of the
    kernel text; [trampoline] the page of trampoline.S. *)
Class Linker := {
  kend : Z;
  etext : Z;
  trampoline : Z;
}.

(** What kernel.ld guarantees of them: the text starts at KERNBASE and is
    padded to a page, the trampoline is one page of it, data follows. *)
Class LinkerOk `{Linker} := {
  kend_range : KERNBASE < kend ≤ PHYSTOP;
  etext_range : KERNBASE < etext ≤ kend;
  etext_aligned : etext mod PGSIZE = 0;
  trampoline_aligned : trampoline mod PGSIZE = 0;
  trampoline_range : KERNBASE ≤ trampoline < etext;
}.

(** ** Pages *)

(** A page-aligned address. *)
Definition aligned (a : Z) : Prop := a mod PGSIZE = 0.
#[export] Instance aligned_dec a : Decision (aligned a).
Proof. unfold aligned. apply _. Defined.

(** The page an address lies in. *)
Definition page (a : Z) : Z := a - a mod PGSIZE.

Ltac Zconst :=
  unfold TRAPFRAME, TRAMPOLINE, PHYSTOP, KERNBASE, PGSIZE, PGSHIFT in *;
  change MAXVA with (2 ^ 38) in *.

Lemma PGROUNDDOWN_page a : PGROUNDDOWN a = page a.
Proof.
  unfold PGROUNDDOWN, page. change (PGSIZE - 1) with (Z.ones 12).
  rewrite <-Z.ldiff_land, Z.ldiff_ones_r, Z.shiftr_div_pow2, Z.shiftl_mul_pow2 by lia.
  change PGSIZE with (2 ^ 12). pose proof (Z.div_mod a (2 ^ 12)). lia.
Qed.

Lemma PGROUNDUP_small sz :
  0 ≤ sz ≤ 2 ^ 64 - PGSIZE → PGROUNDUP sz = page (sz + PGSIZE - 1).
Proof.
  intros H. unfold PGROUNDUP. rewrite u64_small by (Zconst; lia).
  apply PGROUNDDOWN_page.
Qed.

Lemma page_aligned a : aligned (page a).
Proof.
  unfold aligned, page. rewrite Zminus_mod_idemp_r, Z.sub_diag. done.
Qed.

Lemma page_range a : page a ≤ a < page a + PGSIZE.
Proof. unfold page. pose proof (Z.mod_pos_bound a PGSIZE). Zconst. lia. Qed.

Lemma page_id a : aligned a → page a = a.
Proof. unfold aligned, page. intros ->. lia. Qed.

Lemma aligned_div a : aligned a → a = PGSIZE * (a / PGSIZE).
Proof. unfold aligned. intros H. pose proof (Z.div_mod a PGSIZE). Zconst. lia. Qed.

Lemma page_offset p o : aligned p → 0 ≤ o < PGSIZE → page (p + o) = p.
Proof.
  intros Hp Ho. unfold page, aligned in *.
  rewrite Z.add_mod, Hp by (Zconst; lia). rewrite Z.add_0_l, Z.mod_mod by (Zconst; lia).
  rewrite Z.mod_small by lia. lia.
Qed.

Lemma aligned_add p o : aligned p → aligned o → aligned (p + o).
Proof.
  unfold aligned. intros Hp Ho. rewrite Z.add_mod, Hp, Ho by (Zconst; lia). done.
Qed.

Lemma aligned_PGSIZE : aligned PGSIZE.
Proof. done. Qed.

Lemma aligned_lt_le p q : aligned p → aligned q → p < q → p + PGSIZE ≤ q.
Proof.
  intros Hp%aligned_div Hq%aligned_div Hlt. rewrite Hp, Hq in *. Zconst. lia.
Qed.

#[export] Hint Resolve page_aligned aligned_add aligned_PGSIZE : xv6.

(** ** Page-table entries

    An entry is a page number in bits 10..53 and ten flag bits; [mkpte]
    assembles the entry the code builds as [PA2PTE(pa) | flags]. *)

Definition mkpte (pa fl : Z) : Z := Z.lor (PA2PTE pa) fl.

(** Physical addresses an entry can hold: page-aligned, below [2 ^ 56]. *)
Definition pa_ok (pa : Z) : Prop := aligned pa ∧ 0 ≤ pa < 2 ^ 56.

Lemma PA2PTE_div pa : 0 ≤ pa < 2 ^ 56 → PA2PTE pa = pa / PGSIZE * 1024.
Proof.
  intros H. unfold PA2PTE. rewrite Z.shiftr_div_pow2, Z.shiftl_mul_pow2 by lia.
  change (2 ^ 12) with PGSIZE. change (2 ^ 10) with 1024.
  apply u64_small. pose proof (Z.div_lt_upper_bound pa PGSIZE (2 ^ 44)).
  pose proof (Z.div_pos pa PGSIZE). Zconst. lia.
Qed.

Lemma lor_pow2 n a b : 0 ≤ n → 0 ≤ b < 2 ^ n → Z.lor (a * 2 ^ n) b = a * 2 ^ n + b.
Proof.
  intros Hn Hb.
  assert (Z.land (a * 2 ^ n) b = 0) as H0.
  { rewrite <-Z.shiftl_mul_pow2 by lia. apply Z.bits_inj'. intros i Hi. rewrite Z.land_spec, Z.shiftl_spec, Z.bits_0 by lia.
    destruct (Z.ltb_spec i n).
    - by rewrite Z.testbit_neg_r by lia.
    - rewrite <-(Z.mod_small b (2 ^ n)) by lia. rewrite Z.mod_pow2_bits_high by lia. apply andb_false_r. }
  by rewrite <-Z.lxor_lor, <-Z.add_nocarry_lxor.
Qed.

Lemma lor_low a b : 0 ≤ b < 1024 → Z.lor (a * 1024) b = a * 1024 + b.
Proof. apply (lor_pow2 10). lia. Qed.

Lemma mkpte_add pa fl :
  0 ≤ pa < 2 ^ 56 → 0 ≤ fl < 1024 → mkpte pa fl = pa / PGSIZE * 1024 + fl.
Proof. intros Hpa Hfl. unfold mkpte. rewrite PA2PTE_div by done. by apply lor_low. Qed.

Lemma mkpte_range pa fl :
  0 ≤ pa < 2 ^ 56 → 0 ≤ fl < 1024 → 0 ≤ mkpte pa fl < 2 ^ 54.
Proof.
  intros Hpa Hfl. rewrite mkpte_add by done.
  pose proof (Z.div_lt_upper_bound pa PGSIZE (2 ^ 44)).
  pose proof (Z.div_pos pa PGSIZE). Zconst. lia.
Qed.

Lemma PTE2PA_mkpte pa fl : pa_ok pa → 0 ≤ fl < 1024 → PTE2PA (mkpte pa fl) = pa.
Proof.
  intros [Hal Hpa] Hfl. unfold PTE2PA. rewrite mkpte_add by done.
  rewrite Z.shiftr_div_pow2, Z.shiftl_mul_pow2 by lia.
  change (2 ^ 10) with 1024. rewrite Z.div_add_l, (Z.div_small fl) by lia.
  rewrite Z.add_0_r. change (2 ^ 12) with PGSIZE.
  rewrite Z.mul_comm, <-aligned_div by done. apply u64_small. lia.
Qed.

Lemma PTE_FLAGS_mod pte : PTE_FLAGS pte = pte mod 1024.
Proof. unfold PTE_FLAGS. change 0x3FF with (Z.ones 10). by rewrite Z.land_ones by lia. Qed.

Lemma PTE_FLAGS_range pte : 0 ≤ PTE_FLAGS pte < 1024.
Proof. rewrite PTE_FLAGS_mod. apply Z.mod_pos_bound. lia. Qed.

Lemma PTE_FLAGS_mkpte pa fl : 0 ≤ pa < 2 ^ 56 → 0 ≤ fl < 1024 → PTE_FLAGS (mkpte pa fl) = fl.
Proof.
  intros Hpa Hfl. rewrite PTE_FLAGS_mod, mkpte_add by done.
  rewrite Z.add_comm, Z.mod_add, Z.mod_small by lia. done.
Qed.

(** A flag mask sees only the flags of an entry. *)
Lemma land_flags pte m : 0 ≤ m < 1024 → Z.land pte m = Z.land (PTE_FLAGS pte) m.
Proof.
  intros Hm. unfold PTE_FLAGS. rewrite <-Z.land_assoc. f_equal.
  rewrite <-(Z.mod_small m (2 ^ 10)) at 1 by lia. rewrite <-Z.land_ones by lia.
  by rewrite Z.land_comm.
Qed.

Lemma mkpte_eta pte :
  0 ≤ pte < 2 ^ 54 → mkpte (PTE2PA pte) (PTE_FLAGS pte) = pte.
Proof.
  intros H. assert (PTE2PA pte = pte / 1024 * PGSIZE) as E.
  { unfold PTE2PA. rewrite Z.shiftr_div_pow2, Z.shiftl_mul_pow2 by lia.
    apply u64_small. pose proof (Z.div_lt_upper_bound pte 1024 (2 ^ 44)).
    pose proof (Z.div_pos pte 1024). Zconst. lia. }
  pose proof (Z.div_lt_upper_bound pte 1024 (2 ^ 44)).
  pose proof (Z.div_pos pte 1024).
  rewrite mkpte_add; [|rewrite E; Zconst; lia|apply PTE_FLAGS_range].
  rewrite E, Z.div_mul by done. rewrite PTE_FLAGS_mod.
  pose proof (Z.div_mod pte 1024). lia.
Qed.

Lemma PTE2PA_ok pte : 0 ≤ pte < 2 ^ 54 → pa_ok (PTE2PA pte).
Proof.
  intros H. unfold pa_ok, aligned, PTE2PA.
  rewrite Z.shiftr_div_pow2, Z.shiftl_mul_pow2 by lia.
  pose proof (Z.div_lt_upper_bound pte (2 ^ 10) (2 ^ 44)).
  pose proof (Z.div_pos pte (2 ^ 10)). rewrite u64_small by lia.
  change (2 ^ 12) with PGSIZE. rewrite Z.mod_mul by done. Zconst. lia.
Qed.
