(* ===== verification/Asm.v ===== *)
(** * The assembly of the kernel (trampoline.S, kernelvec.S, swtch.S, entry.S)

    The part of the RISC-V instruction set that the assembly files use, with
    address translation by the page table in satp, and the files themselves as
    lists of instructions.  An instruction that faults has no result. *)

From stdpp Require Import functions gmap list strings.
From Stdlib Require Import ZArith Lia.
From S2P Require Import Prelude Mem Params.
#[local] Open Scope Z_scope.

(** ** Registers *)

Module Reg.
Inductive t : Set :=
| zero | ra | sp | gp | tp | t0 | t1 | t2 | s0 | s1
| a0 | a1 | a2 | a3 | a4 | a5 | a6 | a7
| s2 | s3 | s4 | s5 | s6 | s7 | s8 | s9 | s10 | s11 | t3 | t4 | t5 | t6.
#[global] Instance eq_dec : EqDecision t.
Proof. solve_decision. Defined.
End Reg.

Module Csr.
Inductive t : Set :=
| satp | sscratch | sstatus | sepc | stvec | sip | sie
| mstatus | mepc | mscratch | mhartid | medeleg | mideleg | mtvec | mie | mcounteren | pmpaddr0 | pmpcfg0.
#[global] Instance eq_dec : EqDecision t.
Proof. solve_decision. Defined.
End Csr.

Inductive mode : Set := User | Supervisor | Machine.

Abbreviation regs := (Reg.t → Z).

(** One core, with the memory it works on. *)
Record core : Type := mkCore {
  h_reg : regs;
  h_csr : Csr.t → Z;
  h_mem : mem;
  h_mode : mode;
  h_pc : Z;
}.

Definition set_reg (r : Reg.t) (v : Z) (s : core) : core :=
  mkCore (if decide (r = Reg.zero) then h_reg s else <[r := v]> (h_reg s)) (h_csr s) (h_mem s) (h_mode s) (h_pc s).
Definition set_csr (c : Csr.t) (v : Z) (s : core) : core :=
  mkCore (h_reg s) (<[c := v]> (h_csr s)) (h_mem s) (h_mode s) (h_pc s).
Definition set_mem (m : mem) (s : core) : core := mkCore (h_reg s) (h_csr s) m (h_mode s) (h_pc s).
Definition set_mode (md : mode) (s : core) : core := mkCore (h_reg s) (h_csr s) (h_mem s) md (h_pc s).
Definition set_pc (pc : Z) (s : core) : core := mkCore (h_reg s) (h_csr s) (h_mem s) (h_mode s) pc.

(** ** Address translation *)

Inductive access : Set := Load | Store | Fetch.

Definition bit (x m : Z) : bool := nz (Z.land x m).

(** The leaf entry of [va] in the three-level table at [root]; leaves of the
    upper levels, which the kernel does not use, are not translated. *)
Fixpoint sv39 (l : nat) (m : mem) (root va : Z) : option Z :=
  let pte := ld64 m (root + 8 * PX (Z.of_nat l) va) in
  if negb (bit pte PTE_V) then None else
  let leaf := bit pte PTE_R || bit pte PTE_X in
  match l with
  | O => if leaf then Some pte else None
  | S l' => if leaf then None else sv39 l' m (PTE2PA pte) va
  end.

Definition permitted (a : access) (md : mode) (pte : Z) : bool :=
  match a with Load => bit pte PTE_R | Store => bit pte PTE_W | Fetch => bit pte PTE_X end &&
  match md with User => bit pte PTE_U | _ => negb (bit pte PTE_U) end.

(** The physical address of [va] for the access [a]. *)
Definition translate (a : access) (md : mode) (satp : Z) (m : mem) (va : Z) : option Z :=
  match md with
  | Machine => Some va
  | _ =>
      if Z.shiftr satp 60 =? 0 then Some va
      else if (Z.shiftr satp 60 =? 8) && (0 <=? va) && (va <? MAXVA) then
        pte ← sv39 2 m (Z.land satp (2 ^ 44 - 1) * PGSIZE) va;
        if permitted a md pte then Some (PTE2PA pte + va mod PGSIZE) else None
      else None
  end.
Definition xlate (a : access) (s : core) (va : Z) : option Z :=
  translate a (h_mode s) (h_csr s Csr.satp) (h_mem s) va.

(** ** Instructions *)

Inductive instr : Set :=
| sd (rs : Reg.t) (off : Z) (base : Reg.t)
| ld (rd : Reg.t) (off : Z) (base : Reg.t)
| li (rd : Reg.t) (imm : Z)
| addi (rd rs : Reg.t) (imm : Z)
| add (rd rs1 rs2 : Reg.t)
| mul (rd rs1 rs2 : Reg.t)
| csrr (rd : Reg.t) (c : Csr.t)
| csrw (c : Csr.t) (rs : Reg.t)
| csrrw (rd : Reg.t) (c : Csr.t) (rs : Reg.t)
| sfence_vma
| jr (rs : Reg.t)
| call (f back : Z) (* [back] is the address behind the call *)
| sret
| mret_.

Definition SPP_mode (sstatus : Z) : mode := if bit sstatus SSTATUS_SPP then Supervisor else User.
Definition MPP_mode (mstatus : Z) : mode :=
  let mpp := Z.land (Z.shiftr mstatus 11) 3 in if mpp =? 0 then User else if mpp =? 1 then Supervisor else Machine.

(** sret: SIE becomes SPIE, SPIE is set, SPP becomes user mode; mret likewise. *)
Definition sret_status (x : Z) : Z :=
  let ie := if bit x SSTATUS_SPIE then SSTATUS_SIE else 0 in
  Z.lor (Z.lor (Z.land x (Z.lnot (Z.lor SSTATUS_SPP SSTATUS_SIE))) ie) SSTATUS_SPIE.
Definition MSTATUS_MPIE : Z := Z.shiftl 1 7.
Definition mret_status (x : Z) : Z :=
  let ie := if bit x MSTATUS_MPIE then Z.shiftl 1 3 else 0 in
  Z.lor (Z.lor (Z.land x (Z.lnot (Z.lor (Z.shiftl 3 11) (Z.shiftl 1 3)))) ie) MSTATUS_MPIE.

Definition step (i : instr) (s : core) : option core :=
  let R := h_reg s in
  match i with
  | sd rs off base =>
      pa ← xlate Store s (u64 (R base + off)); Some (set_mem (st64 (h_mem s) pa (R rs)) s)
  | ld rd off base =>
      pa ← xlate Load s (u64 (R base + off)); Some (set_reg rd (ld64 (h_mem s) pa) s)
  | li rd imm => Some (set_reg rd (u64 imm) s)
  | addi rd rs imm => Some (set_reg rd (u64 (R rs + imm)) s)
  | add rd rs1 rs2 => Some (set_reg rd (u64 (R rs1 + R rs2)) s)
  | mul rd rs1 rs2 => Some (set_reg rd (u64 (R rs1 * R rs2)) s)
  | csrr rd c => Some (set_reg rd (h_csr s c) s)
  | csrw c rs => Some (set_csr c (R rs) s)
  | csrrw rd c rs => Some (set_reg rd (h_csr s c) (set_csr c (R rs) s))
  | sfence_vma => Some s
  | jr rs => Some (set_pc (R rs) s)
  | call f back => Some (set_pc f (set_reg Reg.ra back s))
  | sret =>
      let x := h_csr s Csr.sstatus in
      Some (set_mode (SPP_mode x) (set_pc (h_csr s Csr.sepc) (set_csr Csr.sstatus (sret_status x) s)))
  | mret_ =>
      let x := h_csr s Csr.mstatus in
      Some (set_mode (MPP_mode x) (set_pc (h_csr s Csr.mepc) (set_csr Csr.mstatus (mret_status x) s)))
  end.

(** Code without jumps except at its end.  [fetch] says whether the next
    instruction can be fetched. *)
Fixpoint run (fetch : core → bool) (p : list instr) (s : core) : option core :=
  match p with
  | [] => Some s
  | i :: p' => if fetch s then s' ← step i s; run fetch p' s' else None
  end.

Definition always (s : core) : bool := true.

(** The code of trampoline.S is fetched from the page at TRAMPOLINE. *)
Definition from_trampoline `{Linker} (s : core) : bool :=
  bool_decide (xlate Fetch s TRAMPOLINE = Some trampoline).

(** ** trampoline.S *)

Section trampoline.
Import Reg.

Definition uservec : list instr :=
  [csrrw a0 Csr.sscratch a0;
   sd ra 40 a0; sd sp 48 a0; sd gp 56 a0; sd tp 64 a0; sd t0 72 a0; sd t1 80 a0; sd t2 88 a0;
   sd s0 96 a0; sd s1 104 a0; sd a1 120 a0; sd a2 128 a0; sd a3 136 a0; sd a4 144 a0; sd a5 152 a0;
   sd a6 160 a0; sd a7 168 a0; sd s2 176 a0; sd s3 184 a0; sd s4 192 a0; sd s5 200 a0; sd s6 208 a0;
   sd s7 216 a0; sd s8 224 a0; sd s9 232 a0; sd s10 240 a0; sd s11 248 a0; sd t3 256 a0; sd t4 264 a0;
   sd t5 272 a0; sd t6 280 a0;
   csrr t0 Csr.sscratch; sd t0 112 a0;
   ld sp 8 a0; ld tp 32 a0; ld t0 16 a0; ld t1 0 a0;
   csrw Csr.satp t1; sfence_vma;
   jr t0].

Definition userret : list instr :=
  [csrw Csr.satp a1; sfence_vma;
   ld t0 112 a0; csrw Csr.sscratch t0;
   ld ra 40 a0; ld sp 48 a0; ld gp 56 a0; ld tp 64 a0; ld t0 72 a0; ld t1 80 a0; ld t2 88 a0;
   ld s0 96 a0; ld s1 104 a0; ld a1 120 a0; ld a2 128 a0; ld a3 136 a0; ld a4 144 a0; ld a5 152 a0;
   ld a6 160 a0; ld a7 168 a0; ld s2 176 a0; ld s3 184 a0; ld s4 192 a0; ld s5 200 a0; ld s6 208 a0;
   ld s7 216 a0; ld s8 224 a0; ld s9 232 a0; ld s10 240 a0; ld s11 248 a0; ld t3 256 a0; ld t4 264 a0;
   ld t5 272 a0; ld t6 280 a0;
   csrrw a0 Csr.sscratch a0;
   sret].

(** ** swtch.S *)

Definition swtch : list instr :=
  [sd ra 0 a0; sd sp 8 a0; sd s0 16 a0; sd s1 24 a0; sd s2 32 a0; sd s3 40 a0; sd s4 48 a0;
   sd s5 56 a0; sd s6 64 a0; sd s7 72 a0; sd s8 80 a0; sd s9 88 a0; sd s10 96 a0; sd s11 104 a0;
   ld ra 0 a1; ld sp 8 a1; ld s0 16 a1; ld s1 24 a1; ld s2 32 a1; ld s3 40 a1; ld s4 48 a1;
   ld s5 56 a1; ld s6 64 a1; ld s7 72 a1; ld s8 80 a1; ld s9 88 a1; ld s10 96 a1; ld s11 104 a1;
   jr ra].

(** ** kernelvec.S *)

(** kernelvec up to and including the call of kerneltrap() at address [f]; the
    code behind the call is at [back]. *)
Definition kernelvec (f back : Z) : list instr :=
  [addi sp sp (-256);
   sd ra 0 sp; sd sp 8 sp; sd gp 16 sp; sd tp 24 sp; sd t0 32 sp; sd t1 40 sp; sd t2 48 sp;
   sd s0 56 sp; sd s1 64 sp; sd a0 72 sp; sd a1 80 sp; sd a2 88 sp; sd a3 96 sp; sd a4 104 sp;
   sd a5 112 sp; sd a6 120 sp; sd a7 128 sp; sd s2 136 sp; sd s3 144 sp; sd s4 152 sp; sd s5 160 sp;
   sd s6 168 sp; sd s7 176 sp; sd s8 184 sp; sd s9 192 sp; sd s10 200 sp; sd s11 208 sp; sd t3 216 sp;
   sd t4 224 sp; sd t5 232 sp; sd t6 240 sp;
   call f back].

(** ... and from there on. *)
Definition kernelvec_ret : list instr :=
  [ld ra 0 sp; ld sp 8 sp; ld gp 16 sp; ld t0 32 sp; ld t1 40 sp; ld t2 48 sp;
   ld s0 56 sp; ld s1 64 sp; ld a0 72 sp; ld a1 80 sp; ld a2 88 sp; ld a3 96 sp; ld a4 104 sp;
   ld a5 112 sp; ld a6 120 sp; ld a7 128 sp; ld s2 136 sp; ld s3 144 sp; ld s4 152 sp; ld s5 160 sp;
   ld s6 168 sp; ld s7 176 sp; ld s8 184 sp; ld s9 192 sp; ld s10 200 sp; ld s11 208 sp; ld t3 216 sp;
   ld t4 224 sp; ld t5 232 sp; ld t6 240 sp;
   addi sp sp 256;
   sret].

Definition timervec : list instr :=
  [csrrw a0 Csr.mscratch a0;
   sd a1 0 a0; sd a2 8 a0; sd a3 16 a0;
   ld a1 24 a0; ld a2 32 a0; ld a3 0 a1; add a3 a3 a2; sd a3 0 a1;
   li a1 2; csrw Csr.sip a1;
   ld a3 16 a0; ld a2 8 a0; ld a1 0 a0; csrrw a0 Csr.mscratch a0;
   mret_].

(** ** entry.S *)

(** The stacks are at [stack0]; start() is at [f]. *)
Definition entry_S (stack0 f back : Z) : list instr :=
  [li sp stack0; li a0 (1024 * 4); csrr a1 Csr.mhartid; addi a1 a1 1; mul a0 a0 a1; add sp sp a0;
   call f back].
End trampoline.
