(* ===== verification/AsmSpec.v ===== *)
(** * The assembly of the kernel: what it does

    Saving and restoring registers: uservec and userret move the registers of
    a user process to its trapframe and back, swtch and kernelvec those of a
    kernel thread to its context or stack, and timervec leaves all registers as
    they were. *)

From stdpp Require Import functions gmap list strings.
From Stdlib Require Import ZArith Lia.
From S2P Require Import Prelude Mem Params Asm.
#[local] Open Scope Z_scope.

(** Facts about the tables below, by evaluation. *)
Ltac by_table := apply (bool_decide_eq_true_1 _); by vm_compute.

(** ** Blocks of loads and stores *)

Definition saves (base : Reg.t) (l : list (Reg.t * Z)) : list instr := (λ x, sd x.1 x.2 base) <$> l.
Definition restores (base : Reg.t) (l : list (Reg.t * Z)) : list instr := (λ x, ld x.1 x.2 base) <$> l.

Definition stores (m : mem) (pa : Z) (R : regs) (l : list (Reg.t * Z)) : mem :=
  foldl (λ m x, st64 m (pa + x.2) (R x.1)) m l.
Definition loads (m : mem) (pa : Z) (R : regs) (l : list (Reg.t * Z)) : regs :=
  foldl (λ R x, <[x.1 := ld64 m (pa + x.2)]> R) R l.
Definition set_regs (R : regs) (s : core) : core := mkCore R (h_csr s) (h_mem s) (h_mode s) (h_pc s).

(** Memory is the same except for the [n] bytes at [pa]. *)
Definition same_out (pa n : Z) (m m' : mem) : Prop := ∀ b, ¬ pa ≤ b < pa + n → ldb m' b = ldb m b.

#[export] Instance same_out_preorder pa n : PreOrder (same_out pa n).
Proof. split; [by intros m b|]. intros m1 m2 m3 H1 H2 b Hb. rewrite H2, H1; done. Qed.

(** The [n] bytes at the virtual address [va] are those at [pa], also after
    stores to them. *)
Definition window (md : mode) (satp : Z) (m : mem) (va pa n : Z) : Prop :=
  ∀ m' a o, same_out pa n m m' → a ≠ Fetch → 0 ≤ o → o + 8 ≤ n → translate a md satp m' (u64 (va + o)) = Some (pa + o).

(** The code can be fetched, also after such stores. *)
Definition fetches (f : core → bool) (s : core) (pa n : Z) : Prop :=
  ∀ s', h_mode s' = h_mode s → h_csr s' Csr.satp = h_csr s Csr.satp → same_out pa n (h_mem s) (h_mem s') → f s' = true.

Lemma fetches_now f s pa n : fetches f s pa n → f s = true.
Proof. intros H. by apply H. Qed.

Lemma fetches_later f s s' pa n :
  fetches f s pa n → h_mode s' = h_mode s → h_csr s' Csr.satp = h_csr s Csr.satp → same_out pa n (h_mem s) (h_mem s') →
  fetches f s' pa n.
Proof. intros H H1 H2 H3 s2 E1 E2 E3. apply H; [congruence|congruence|by etrans]. Qed.

Lemma window_later md satp m m' va pa n : window md satp m va pa n → same_out pa n m m' → window md satp m' va pa n.
Proof. intros H Hs m2 a o H2. apply H. by etrans. Qed.

Lemma same_out_st64 pa n m o v : 0 ≤ o → o + 8 ≤ n → same_out pa n m (st64 m (pa + o) v).
Proof. intros H1 H2 b Hb. apply ldb_st64_out. lia. Qed.

Definition in_range (n : Z) (l : list (Reg.t * Z)) : Prop := Forall (λ x, 0 ≤ x.2 ∧ x.2 + 8 ≤ n) l.

Lemma in_range_elem n l r o : in_range n l → (r, o) ∈ l → 0 ≤ o ∧ o + 8 ≤ n.
Proof. unfold in_range. rewrite Forall_forall. intros H Hx. apply (H _ Hx). Qed.

Lemma run_saves f l base va pa n p s :
  h_reg s base = va → window (h_mode s) (h_csr s Csr.satp) (h_mem s) va pa n → fetches f s pa n → in_range n l →
  run f (saves base l ++ p) s = run f p (set_mem (stores (h_mem s) pa (h_reg s) l) s).
Proof.
  revert s. induction l as [|[r o] l IH]; intros s Hb Hw Hf Hl.
  - by destruct s.
  - apply Forall_cons_1 in Hl as [[H0 H1] Hl]. cbn [saves fmap list_fmap app run fst snd] in *. rewrite (fetches_now _ _ _ _ Hf).
    cbn [step]. unfold xlate. rewrite Hb, (Hw (h_mem s) Store o) by done. cbn [mbind option_bind].
    pose proof (same_out_st64 pa n (h_mem s) o (h_reg s r) H0 H1) as Ho.
    apply (IH (set_mem (st64 (h_mem s) (pa + o) (h_reg s r)) s)); [done| | |done].
    + by eapply window_later.
    + by eapply fetches_later.
Qed.

Lemma run_restores f l base va pa n p s :
  h_reg s base = va → window (h_mode s) (h_csr s Csr.satp) (h_mem s) va pa n → fetches f s pa n → in_range n l →
  Forall (λ x, x.1 ≠ Reg.zero ∧ (x.1 = base → ld64 (h_mem s) (pa + x.2) = va)) l →
  run f (restores base l ++ p) s = run f p (set_regs (loads (h_mem s) pa (h_reg s) l) s).
Proof.
  revert s. induction l as [|[r o] l IH]; intros s Hb Hw Hf Hl Hr.
  - by destruct s.
  - apply Forall_cons_1 in Hl as [[H0 H1] Hl]. apply Forall_cons_1 in Hr as [[Hz Hrb] Hr].
    cbn [restores fmap list_fmap app run fst snd] in *. rewrite (fetches_now _ _ _ _ Hf).
    cbn [step]. unfold xlate. rewrite Hb, (Hw (h_mem s) Load o) by done. cbn [mbind option_bind].
    unfold set_reg. rewrite decide_False by done.
    apply (IH (set_regs (<[r := ld64 (h_mem s) (pa + o)]> (h_reg s)) s)); [|done|done|done|done].
    cbn [h_reg set_regs]. destruct (decide (r = base)) as [->|Hne].
    + rewrite fn_lookup_insert. auto.
    + by rewrite fn_lookup_insert_ne.
Qed.

(** ** What the blocks leave behind *)

Lemma stores_cons m pa R r o l : stores m pa R ((r, o) :: l) = stores (st64 m (pa + o) (R r)) pa R l.
Proof. done. Qed.

Lemma loads_cons m pa R r o l : loads m pa R ((r, o) :: l) = loads m pa (<[r := ld64 m (pa + o)]> R) l.
Proof. done. Qed.

(** The slots do not overlap. *)
Definition apart (l : list (Reg.t * Z)) : Prop := ∀ i j x y, l !! i = Some x → l !! j = Some y → i ≠ j → x.2 + 8 ≤ y.2 ∨ y.2 + 8 ≤ x.2.

(** Slots in ascending order. *)
Fixpoint ascending (o : Z) (l : list (Reg.t * Z)) : bool :=
  match l with [] => true | x :: l' => (o <=? x.2) && ascending (x.2 + 8) l' end.

Lemma ascending_ge o l x : ascending o l = true → x ∈ l → o ≤ x.2.
Proof.
  revert o. induction l as [|y l IH]; intros o Ha Hx; [by apply not_elem_of_nil in Hx|].
  cbn [ascending] in Ha. apply andb_true_iff in Ha as [H1 H2]. apply Z.leb_le in H1.
  apply elem_of_cons in Hx as [->|Hx]; [done|]. specialize (IH _ H2 Hx). lia.
Qed.

Lemma ascending_apart o l : ascending o l = true → apart l.
Proof.
  revert o. induction l as [|y l IH]; intros o Ha i j x z Hi Hj Hij; [done|].
  cbn [ascending] in Ha. apply andb_true_iff in Ha as [_ H2].
  destruct i as [|i], j as [|j]; cbn in Hi, Hj; simplify_eq.
  - left. by apply (ascending_ge _ l), list_elem_of_lookup_2 with j.
  - right. by apply (ascending_ge _ l), list_elem_of_lookup_2 with i.
  - apply (IH _ H2 i j); [done|done|congruence].
Qed.

Lemma stores_out m pa n R l : in_range n l → same_out pa n m (stores m pa R l).
Proof.
  revert m. induction l as [|[r o] l IH]; intros m Hl; [reflexivity|].
  apply Forall_cons_1 in Hl as [[H0 H1] Hl]. rewrite stores_cons. etrans; [by apply (same_out_st64 pa n m o (R r))|]. by apply IH.
Qed.

Lemma stores_other m pa R l o :
  Forall (λ x, x.2 + 8 ≤ o ∨ o + 8 ≤ x.2) l → ld64 (stores m pa R l) (pa + o) = ld64 m (pa + o).
Proof.
  revert m. induction l as [|[r o'] l IH]; intros m Hl; [done|]. apply Forall_cons_1 in Hl as [H1 Hl].
  rewrite stores_cons, (IH _ Hl). apply ld64_st64_out. cbn [fst snd] in *. lia.
Qed.

Lemma stores_lookup m pa R l r o :
  apart l → (r, o) ∈ l → 0 ≤ R r < 2 ^ 64 → ld64 (stores m pa R l) (pa + o) = R r.
Proof.
  revert m. induction l as [|x l IH]; intros m Ha Hx HR; [by apply not_elem_of_nil in Hx|].
  assert (apart l) as Ha' by (intros i j y z H1 H2 Hij; apply (Ha (S i) (S j)); [done|done|congruence]).
  apply elem_of_cons in Hx as [<-|Hx]; [|destruct x; rewrite stores_cons; by apply IH].
  rewrite stores_cons, stores_other; [by apply ld64_st64|].
  apply Forall_lookup. intros i y Hy. destruct (Ha (S i) O y (r, o)); [done|done|done|by left|by right].
Qed.

Lemma loads_other m pa R l r : r ∉ l.*1 → loads m pa R l r = R r.
Proof.
  revert R. induction l as [|[r' o] l IH]; intros R Hr; [done|]. cbn [fmap list_fmap fst] in Hr.
  apply not_elem_of_cons in Hr as [Hne Hr]. rewrite loads_cons, IH by done. by rewrite fn_lookup_insert_ne.
Qed.

Lemma loads_lookup m pa R l r o : NoDup l.*1 → (r, o) ∈ l → loads m pa R l r = ld64 m (pa + o).
Proof.
  revert R. induction l as [|[r' o'] l IH]; intros R Hn Hx; [by apply not_elem_of_nil in Hx|].
  cbn [fmap list_fmap fst] in Hn. apply NoDup_cons in Hn as [Hr Hn]. rewrite loads_cons.
  apply elem_of_cons in Hx as [[= -> ->]|Hx]; [|by apply IH].
  rewrite loads_other by done. apply fn_lookup_insert.
Qed.

(** ** trampoline.S *)

(** The registers in struct trapframe, without a0. *)
Definition tf_layout : list (Reg.t * Z) :=
  [(Reg.ra, 40); (Reg.sp, 48); (Reg.gp, 56); (Reg.tp, 64); (Reg.t0, 72); (Reg.t1, 80); (Reg.t2, 88);
   (Reg.s0, 96); (Reg.s1, 104); (Reg.a1, 120); (Reg.a2, 128); (Reg.a3, 136); (Reg.a4, 144); (Reg.a5, 152);
   (Reg.a6, 160); (Reg.a7, 168); (Reg.s2, 176); (Reg.s3, 184); (Reg.s4, 192); (Reg.s5, 200); (Reg.s6, 208);
   (Reg.s7, 216); (Reg.s8, 224); (Reg.s9, 232); (Reg.s10, 240); (Reg.s11, 248); (Reg.t3, 256); (Reg.t4, 264);
   (Reg.t5, 272); (Reg.t6, 280)].

(** The words of the trapframe at [tf] hold the registers [R]. *)
Definition tf_regs (m : mem) (tf : Z) (R : regs) : Prop :=
  ld64 m (tf + 112) = R Reg.a0 ∧ ∀ r o, (r, o) ∈ tf_layout → ld64 m (tf + o) = R r.

Lemma layout_all r : r ≠ Reg.zero → r ≠ Reg.a0 → ∃ o, (r, o) ∈ tf_layout.
Proof.
  intros H1 H2.
  assert (r ∈ tf_layout.*1) as Hr by (destruct r; try done; by_table).
  apply list_elem_of_fmap in Hr as ([r' o] & -> & Hx). by exists o.
Qed.

Section trampoline.
Context `{LNK : !Linker}.

Lemma uservec_blocks :
  uservec = csrrw Reg.a0 Csr.sscratch Reg.a0 :: saves Reg.a0 tf_layout ++
    csrr Reg.t0 Csr.sscratch :: saves Reg.a0 [(Reg.t0, 112)] ++
    restores Reg.a0 [(Reg.sp, 8); (Reg.tp, 32); (Reg.t0, 16); (Reg.t1, 0)] ++
    [csrw Csr.satp Reg.t1; sfence_vma; jr Reg.t0].
Proof. done. Qed.

Lemma userret_blocks :
  userret = csrw Csr.satp Reg.a1 :: sfence_vma :: restores Reg.a0 [(Reg.t0, 112)] ++
    csrw Csr.sscratch Reg.t0 :: restores Reg.a0 tf_layout ++ [csrrw Reg.a0 Csr.sscratch Reg.a0; sret].
Proof. done. Qed.

(** The kernel has been entered from user mode: the registers are in the
    trapframe at [tf], and the registers the kernel needs come from it. *)
Record kernel_entry (s : core) (tf : Z) (s' : core) : Prop := {
  ke_mode : h_mode s' = Supervisor;
  ke_satp : h_csr s' Csr.satp = ld64 (h_mem s) tf;
  ke_csr : ∀ c, c ≠ Csr.satp → c ≠ Csr.sscratch → h_csr s' c = h_csr s c;
  ke_pc : h_pc s' = ld64 (h_mem s) (tf + 16);
  ke_sp : h_reg s' Reg.sp = ld64 (h_mem s) (tf + 8);
  ke_tp : h_reg s' Reg.tp = ld64 (h_mem s) (tf + 32);
  ke_saved : tf_regs (h_mem s') tf (h_reg s);
  ke_mem : same_out tf PGSIZE (h_mem s) (h_mem s');
  ke_kernel : ∀ o, o + 8 ≤ 40 → ld64 (h_mem s') (tf + o) = ld64 (h_mem s) (tf + o);
}.

Lemma layout_range : in_range PGSIZE tf_layout.
Proof. by_table. Qed.

Lemma layout_high : Forall (λ x : Reg.t * Z, 40 ≤ x.2) tf_layout.
Proof. by_table. Qed.

Lemma layout_regs : Forall (λ x : Reg.t * Z, x.1 ≠ Reg.zero ∧ x.1 ≠ Reg.a0) tf_layout.
Proof. by_table. Qed.

Lemma layout_apart : apart tf_layout.
Proof. by apply (ascending_apart 40). Qed.

(** The page of the trapframe after uservec. *)
Lemma uservec_mem m tf R R0 a0 :
  (∀ r, 0 ≤ R r < 2 ^ 64) → R Reg.a0 = a0 → (∀ r, r ≠ Reg.a0 → R0 r = R r) →
  let m2 := st64 (stores m tf R0 tf_layout) (tf + 112) a0 in
  tf_regs m2 tf R ∧ same_out tf PGSIZE m m2 ∧ ∀ o, o + 8 ≤ 40 → ld64 m2 (tf + o) = ld64 m (tf + o).
Proof.
  intros HR <- H0 m2. split_and!; [split|..].
  - by apply ld64_st64.
  - intros r o Hx.
    assert (o + 8 ≤ 112 ∨ 120 ≤ o) as Ho.
    { apply (Forall_forall (λ x : Reg.t * Z, x.2 + 8 ≤ 112 ∨ 120 ≤ x.2) tf_layout) with (x := (r, o)) in Hx; [done|].
      by_table. }
    assert (r ≠ Reg.a0) as Hr.
    { intros ->. apply (list_elem_of_fmap_2 fst) in Hx. revert Hx. by_table. }
    unfold m2. rewrite ld64_st64_out, stores_lookup with (r := r) by (done || lia || apply layout_apart || by rewrite H0).
    by apply H0.
  - etrans; [apply stores_out, layout_range|]. apply same_out_st64; [lia|Zconst; lia].
  - intros o Ho. unfold m2. rewrite ld64_st64_out by lia. apply stores_other.
    eapply Forall_impl; [apply layout_high|]. intros x Hx. cbn in Hx. lia.
Qed.

(** The trampoline is mapped, whatever is written to the page at [tf]. *)
Definition tramp_mapped (satp : Z) (m : mem) (tf : Z) : Prop :=
  ∀ m', same_out tf PGSIZE m m' → translate Fetch Supervisor satp m' TRAMPOLINE = Some trampoline.

Lemma tramp_fetches s tf :
  h_mode s = Supervisor → tramp_mapped (h_csr s Csr.satp) (h_mem s) tf → fetches from_trampoline s tf PGSIZE.
Proof.
  intros Hmd Ht s' H1 H2 H3. apply bool_decide_eq_true_2. unfold xlate. rewrite H1, H2, Hmd. by apply Ht.
Qed.

Lemma uservec_spec s tf :
  h_mode s = Supervisor → h_csr s Csr.sscratch = TRAPFRAME → (∀ r, 0 ≤ h_reg s r < 2 ^ 64) →
  window Supervisor (h_csr s Csr.satp) (h_mem s) TRAPFRAME tf PGSIZE →
  tramp_mapped (h_csr s Csr.satp) (h_mem s) tf → tramp_mapped (ld64 (h_mem s) tf) (h_mem s) tf →
  ∃ s', run from_trampoline uservec s = Some s' ∧ kernel_entry s tf s'.
Proof.
  intros Hmd Hsc HR Hw Hu Hk. pose proof (tramp_fetches s tf Hmd Hu) as Hf.
  rewrite uservec_blocks. cbn [run]. rewrite (fetches_now _ _ _ _ Hf).
  cbn [step mbind option_bind]. rewrite Hsc.
  set (s1 := set_reg Reg.a0 TRAPFRAME (set_csr Csr.sscratch (h_reg s Reg.a0) s)).
  assert (fetches from_trampoline s1 tf PGSIZE) as Hf1 by (by eapply fetches_later).
  rewrite (run_saves from_trampoline tf_layout Reg.a0 TRAPFRAME tf PGSIZE _ s1);
    [|done|by rewrite <-Hmd in Hw|done|apply layout_range].
  set (m1 := stores _ tf (h_reg s1) tf_layout).
  assert (same_out tf PGSIZE (h_mem s) m1) as Ho1 by apply stores_out, layout_range.
  assert (fetches from_trampoline (set_mem m1 s1) tf PGSIZE) as Hf2 by (by eapply fetches_later).
  cbn [run]. rewrite (fetches_now _ _ _ _ Hf2). cbn [step mbind option_bind].
  set (s3 := set_reg Reg.t0 (h_reg s Reg.a0) (set_mem m1 s1)).
  assert (window (h_mode s3) (h_csr s3 Csr.satp) (h_mem s3) TRAPFRAME tf PGSIZE) as Hw3.
  { change (window (h_mode s) (h_csr s Csr.satp) m1 TRAPFRAME tf PGSIZE). rewrite Hmd. by eapply window_later. }
  change (h_csr (set_mem m1 s1) Csr.sscratch) with (h_reg s Reg.a0). fold s3.
  rewrite (run_saves from_trampoline [(Reg.t0, 112)] Reg.a0 TRAPFRAME tf PGSIZE _ s3);
    [|done|done|by eapply fetches_later|by_table].
  destruct (uservec_mem (h_mem s) tf (h_reg s) (h_reg s1) (h_reg s Reg.a0) HR eq_refl) as (M1 & M2 & M3).
  { intros r Hr. change (h_reg s1 r) with (<[Reg.a0 := TRAPFRAME]> (h_reg s) r). by apply fn_lookup_insert_ne. }
  set (m2 := st64 _ _ _) in M1, M2, M3. change (stores (h_mem s3) tf (h_reg s3) [(Reg.t0, 112)]) with m2.
  set (KL := [(Reg.sp, 8); (Reg.tp, 32); (Reg.t0, 16); (Reg.t1, 0)]).
  rewrite (run_restores from_trampoline KL Reg.a0 TRAPFRAME tf PGSIZE _ (set_mem m2 s3));
    [|done| |by apply (fetches_later _ s)|by_table|by repeat constructor].
  2:{ change (window (h_mode s) (h_csr s Csr.satp) m2 TRAPFRAME tf PGSIZE). rewrite Hmd. by eapply window_later. }
  set (R4 := loads _ tf _ KL). set (s4 := set_regs R4 _).
  assert (fetches from_trampoline s4 tf PGSIZE) as Hf4 by (by apply (fetches_later _ s)).
  assert (∀ r o, (r, o) ∈ KL → R4 r = ld64 (h_mem s) (tf + o)) as HK.
  { intros r o Hx. unfold R4. rewrite (loads_lookup _ _ _ KL r o); [|by_table|done].
    apply M3. apply (Forall_forall (λ x : Reg.t * Z, x.2 + 8 ≤ 40) KL) with (x := (r, o)) in Hx; [done|].
    by_table. }
  pose proof (HK Reg.t1 0 ltac:(by_table)) as E1. rewrite Z.add_0_r in E1.
  assert (∀ s', h_mode s' = Supervisor → h_csr s' Csr.satp = ld64 (h_mem s) tf → h_mem s' = m2 → from_trampoline s' = true) as Hfk.
  { intros s' A1 A2 A3. unfold from_trampoline. apply bool_decide_eq_true_2. unfold xlate. rewrite A1, A2, A3. by apply Hk. }
  cbn [run app]. rewrite (fetches_now _ _ _ _ Hf4). cbn [step mbind option_bind].
  assert (h_csr (set_csr Csr.satp (h_reg s4 Reg.t1) s4) Csr.satp = ld64 (h_mem s) tf) as E2 by (by rewrite <-E1).
  rewrite !Hfk by done. eexists. split; [reflexivity|]. split; try done.
  - intros c Hc1 Hc2. change (h_csr _ c) with (<[Csr.satp := h_reg s4 Reg.t1]> (<[Csr.sscratch := h_reg s Reg.a0]> (h_csr s)) c) at 1.
    by rewrite !fn_lookup_insert_ne.
  - apply HK. by_table.
  - apply HK. by_table.
  - apply HK. by_table.
Qed.

(** Back in user mode, with the registers [R]. *)
Record user_entry (s : core) (usatp : Z) (R : regs) (s' : core) : Prop := {
  ue_regs : ∀ r, r ≠ Reg.zero → h_reg s' r = R r;
  ue_pc : h_pc s' = h_csr s Csr.sepc;
  ue_mode : h_mode s' = SPP_mode (h_csr s Csr.sstatus);
  ue_status : h_csr s' Csr.sstatus = sret_status (h_csr s Csr.sstatus);
  ue_satp : h_csr s' Csr.satp = usatp;
  ue_scratch : h_csr s' Csr.sscratch = TRAPFRAME;
  ue_csr : ∀ c, c ∉ [Csr.satp; Csr.sscratch; Csr.sstatus] → h_csr s' c = h_csr s c;
  ue_mem : h_mem s' = h_mem s;
}.

Lemma userret_spec s tf usatp R :
  h_mode s = Supervisor → h_reg s Reg.a0 = TRAPFRAME → h_reg s Reg.a1 = usatp → tf_regs (h_mem s) tf R →
  tramp_mapped (h_csr s Csr.satp) (h_mem s) tf → tramp_mapped usatp (h_mem s) tf →
  window Supervisor usatp (h_mem s) TRAPFRAME tf PGSIZE →
  ∃ s', run from_trampoline userret s = Some s' ∧ user_entry s usatp R s'.
Proof.
  intros Hmd Ha0 Ha1 [HR0 HR] Hk Hu Hw. rewrite userret_blocks. cbn [run].
  rewrite (fetches_now _ s tf PGSIZE) by (by apply tramp_fetches). cbn [step mbind option_bind]. rewrite Ha1.
  set (s1 := set_csr Csr.satp usatp s).
  assert (∀ s', h_mode s' = Supervisor → h_csr s' Csr.satp = usatp → h_mem s' = h_mem s →
    fetches from_trampoline s' tf PGSIZE) as Hft.
  { intros s' A1 A2 A3. apply tramp_fetches; [done|by rewrite A2, A3]. }
  rewrite (fetches_now _ s1 tf PGSIZE) by (by apply Hft).
  rewrite (run_restores from_trampoline [(Reg.t0, 112)] Reg.a0 TRAPFRAME tf PGSIZE _ s1);
    [|done|by rewrite <-Hmd in Hw|by apply Hft|by_table|by repeat constructor].
  set (s2 := set_regs _ s1). cbn [run]. rewrite (fetches_now _ s2 tf PGSIZE) by (by apply Hft). cbn [step mbind option_bind].
  change (h_reg s2 Reg.t0) with (ld64 (h_mem s) (tf + 112)). rewrite HR0. set (s3 := set_csr Csr.sscratch _ s2).
  rewrite (run_restores from_trampoline tf_layout Reg.a0 TRAPFRAME tf PGSIZE _ s3);
    [|done|by rewrite <-Hmd in Hw|by apply Hft|apply layout_range|].
  2:{ eapply Forall_impl; [apply layout_regs|]. by intros x [? ?]. }
  set (R4 := loads _ tf _ tf_layout). set (s4 := set_regs R4 s3).
  cbn [run app]. rewrite (fetches_now _ s4 tf PGSIZE) by (by apply Hft). cbn [step mbind option_bind].
  rewrite (fetches_now _ _ tf PGSIZE) by (by apply Hft). cbn [step mbind option_bind].
  eexists. split; [reflexivity|]. split; try done.
  - intros r Hz. change (h_reg _ r) with (<[Reg.a0 := R Reg.a0]> R4 r).
    destruct (decide (r = Reg.a0)) as [->|Hne]; [apply fn_lookup_insert|]. rewrite fn_lookup_insert_ne by done.
    destruct (layout_all r Hz Hne) as [o Ho]. unfold R4. rewrite (loads_lookup _ _ _ _ r o); [by apply HR|by_table|done].
  - intros c Hc. rewrite !not_elem_of_cons in Hc. destruct Hc as (C1 & C2 & C3 & _).
    cbn [h_csr set_mode set_pc set_csr set_reg s4 s3 s2 s1 set_regs]. by rewrite !fn_lookup_insert_ne.
Qed.
End trampoline.

(** ** swtch.S *)

(** The registers in struct context. *)
Definition ctx_layout : list (Reg.t * Z) :=
  [(Reg.ra, 0); (Reg.sp, 8); (Reg.s0, 16); (Reg.s1, 24); (Reg.s2, 32); (Reg.s3, 40); (Reg.s4, 48);
   (Reg.s5, 56); (Reg.s6, 64); (Reg.s7, 72); (Reg.s8, 80); (Reg.s9, 88); (Reg.s10, 96); (Reg.s11, 104)].
Definition CTX_SIZE : Z := 112.

(** The context at [pa] holds the registers [R]. *)
Definition ctx_regs (m : mem) (pa : Z) (R : regs) : Prop := ∀ r o, (r, o) ∈ ctx_layout → ld64 m (pa + o) = R r.

Lemma swtch_blocks : swtch = saves Reg.a0 ctx_layout ++ restores Reg.a1 ctx_layout ++ [jr Reg.ra].
Proof. done. Qed.

Lemma always_fetches s pa n : fetches always s pa n.
Proof. by intros s'. Qed.

Lemma swtch_spec s old new :
  (∀ r, 0 ≤ h_reg s r < 2 ^ 64) →
  window (h_mode s) (h_csr s Csr.satp) (h_mem s) (h_reg s Reg.a0) old CTX_SIZE →
  (∀ m, same_out old CTX_SIZE (h_mem s) m → window (h_mode s) (h_csr s Csr.satp) m (h_reg s Reg.a1) new CTX_SIZE) →
  old + CTX_SIZE ≤ new ∨ new + CTX_SIZE ≤ old →
  ∃ s', run always swtch s = Some s' ∧ ctx_regs (h_mem s') old (h_reg s) ∧ ctx_regs (h_mem s) new (h_reg s') ∧
    h_pc s' = ld64 (h_mem s) new ∧ same_out old CTX_SIZE (h_mem s) (h_mem s') ∧
    h_csr s' = h_csr s ∧ h_mode s' = h_mode s ∧ ∀ r, r ∉ ctx_layout.*1 → h_reg s' r = h_reg s r.
Proof.
  intros HR Hwo Hwn Hap. rewrite swtch_blocks.
  assert (in_range CTX_SIZE ctx_layout) as Hr by by_table.
  pose proof (stores_out (h_mem s) old CTX_SIZE (h_reg s) ctx_layout Hr) as Ho. set (m1 := stores _ _ _ _) in Ho.
  rewrite (run_saves always ctx_layout Reg.a0 (h_reg s Reg.a0) old CTX_SIZE _ s); [|done|done|apply always_fetches|done]. fold m1.
  rewrite (run_restores always ctx_layout Reg.a1 (h_reg s Reg.a1) new CTX_SIZE _ (set_mem m1 s));
    [|done|by apply Hwn|apply always_fetches|done|by repeat constructor].
  set (R2 := loads _ _ _ _). assert (ctx_regs (h_mem s) new R2) as HR2.
  { intros r o Hx. unfold R2. rewrite (loads_lookup _ _ _ _ r o) by (done || by_table). apply ld64_ext. intros b Hb. symmetry.
    apply Ho. pose proof (in_range_elem _ _ _ _ Hr Hx). unfold CTX_SIZE in *. lia. }
  eexists. split; [reflexivity|]. split_and!; try done.
  - intros r o Hx. apply stores_lookup; [by apply (ascending_apart 0)|done|done].
  - change (R2 Reg.ra = ld64 (h_mem s) new). rewrite <-(HR2 Reg.ra 0) by by_table. by rewrite Z.add_0_r.
  - intros r Hx. by apply loads_other.
Qed.

(** Going away from a context and coming back to it: [s1] calls swtch(old, new);
    later, with the context at [old] untouched, some [s2] calls swtch(x, old). *)
Lemma swtch_back s1 s1' s2 s2' old :
  ctx_regs (h_mem s1') old (h_reg s1) → (∀ b, old ≤ b < old + CTX_SIZE → ldb (h_mem s2) b = ldb (h_mem s1') b) →
  ctx_regs (h_mem s2) old (h_reg s2') → ∀ r, r ∈ ctx_layout.*1 → h_reg s2' r = h_reg s1 r.
Proof.
  intros H1 Hs H2 r ([r' o] & -> & Hx)%list_elem_of_fmap. cbn [fst]. rewrite <-(H2 r' o), <-(H1 r' o) by done.
  apply ld64_ext. intros b Hb. apply Hs.
  assert (in_range CTX_SIZE ctx_layout) as Hr by by_table.
  pose proof (in_range_elem _ _ _ _ Hr Hx). lia.
Qed.

(** ** kernelvec *)

(** The registers on the kernel stack; tp is saved but not restored. *)
Definition kv_layout : list (Reg.t * Z) :=
  [(Reg.ra, 0); (Reg.sp, 8); (Reg.gp, 16); (Reg.tp, 24); (Reg.t0, 32); (Reg.t1, 40); (Reg.t2, 48);
   (Reg.s0, 56); (Reg.s1, 64); (Reg.a0, 72); (Reg.a1, 80); (Reg.a2, 88); (Reg.a3, 96); (Reg.a4, 104);
   (Reg.a5, 112); (Reg.a6, 120); (Reg.a7, 128); (Reg.s2, 136); (Reg.s3, 144); (Reg.s4, 152); (Reg.s5, 160);
   (Reg.s6, 168); (Reg.s7, 176); (Reg.s8, 184); (Reg.s9, 192); (Reg.s10, 200); (Reg.s11, 208); (Reg.t3, 216);
   (Reg.t4, 224); (Reg.t5, 232); (Reg.t6, 240)].
Definition kv_back : list (Reg.t * Z) := filter (λ x, x.1 ≠ Reg.tp) kv_layout.

Lemma kernelvec_blocks f back :
  kernelvec f back = addi Reg.sp Reg.sp (-256) :: saves Reg.sp kv_layout ++ [call f back].
Proof. done. Qed.

Lemma kernelvec_ret_blocks : kernelvec_ret = restores Reg.sp kv_back ++ [addi Reg.sp Reg.sp 256; sret].
Proof. done. Qed.

(** The registers are on the stack, and kerneltrap() is called. *)
Lemma kernelvec_spec s pa f back :
  (∀ r, 0 ≤ h_reg s r < 2 ^ 64) → 256 ≤ h_reg s Reg.sp →
  window (h_mode s) (h_csr s Csr.satp) (h_mem s) (h_reg s Reg.sp - 256) pa 256 →
  ∃ s', run always (kernelvec f back) s = Some s' ∧ h_pc s' = f ∧ h_reg s' Reg.sp = h_reg s Reg.sp - 256 ∧
    h_csr s' = h_csr s ∧ h_mode s' = h_mode s ∧ same_out pa 256 (h_mem s) (h_mem s') ∧
    ld64 (h_mem s') (pa + 8) = h_reg s Reg.sp - 256 ∧
    ∀ r o, (r, o) ∈ kv_layout → r ≠ Reg.sp → ld64 (h_mem s') (pa + o) = h_reg s r.
Proof.
  intros HR Hsp Hw. pose proof (HR Reg.sp) as Hsr. rewrite kernelvec_blocks. cbn [run always step mbind option_bind].
  rewrite u64_small by lia. set (s1 := set_reg Reg.sp _ s).
  assert (in_range 256 kv_layout) as Hr by by_table.
  rewrite (run_saves always kv_layout Reg.sp (h_reg s Reg.sp - 256) pa 256 _ s1); [|done|done|apply always_fetches|done].
  assert (∀ r, r ≠ Reg.sp → h_reg s1 r = h_reg s r) as H1.
  { intros r Hne. change (h_reg s1 r) with (<[Reg.sp := h_reg s Reg.sp + -256]> (h_reg s) r). by apply fn_lookup_insert_ne. }
  assert (∀ r o, (r, o) ∈ kv_layout → ld64 (stores (h_mem s1) pa (h_reg s1) kv_layout) (pa + o) = h_reg s1 r) as Hs.
  { intros r o Hx. apply stores_lookup; [by apply (ascending_apart 0)|done|].
    destruct (decide (r = Reg.sp)) as [->|]; [|by rewrite H1].
    change (h_reg s1 Reg.sp) with (h_reg s Reg.sp + -256). lia. }
  eexists. split; [reflexivity|]. split_and!; try done.
  - by apply (stores_out (h_mem s) pa 256).
  - apply (Hs Reg.sp 8). by_table.
  - intros r o Hx Hne. rewrite <-H1 by done. by apply Hs.
Qed.

(** Afterwards, with the stack as it was, the registers are as they were. *)
Lemma kernelvec_ret_spec s pa R :
  256 ≤ R Reg.sp < 2 ^ 64 → h_reg s Reg.sp = R Reg.sp - 256 →
  window (h_mode s) (h_csr s Csr.satp) (h_mem s) (R Reg.sp - 256) pa 256 →
  ld64 (h_mem s) (pa + 8) = R Reg.sp - 256 →
  (∀ r o, (r, o) ∈ kv_layout → r ≠ Reg.sp → ld64 (h_mem s) (pa + o) = R r) →
  ∃ s', run always kernelvec_ret s = Some s' ∧ (∀ r, r ≠ Reg.zero → r ≠ Reg.tp → h_reg s' r = R r) ∧
    h_reg s' Reg.tp = h_reg s Reg.tp ∧ h_pc s' = h_csr s Csr.sepc ∧ h_mode s' = SPP_mode (h_csr s Csr.sstatus) ∧
    h_mem s' = h_mem s.
Proof.
  intros HR Hsp Hw H8 Hs. rewrite kernelvec_ret_blocks.
  rewrite (run_restores always kv_back Reg.sp (R Reg.sp - 256) pa 256 _ s); [|done|done|apply always_fetches|by_table|].
  2:{ assert (Forall (λ x : Reg.t * Z, x.1 ≠ Reg.zero ∧ (x.1 = Reg.sp → x.2 = 8)) kv_back) as Ht by by_table.
      eapply Forall_impl; [exact Ht|]. intros x [Hz Hx]. split; [done|]. intros Hx1. by rewrite Hx. }
  set (R2 := loads _ _ _ _).
  assert (∀ r o, (r, o) ∈ kv_back → R2 r = ld64 (h_mem s) (pa + o)) as HR2.
  { intros r o Hx. apply loads_lookup; [by_table|done]. }
  assert (R2 Reg.sp = R Reg.sp - 256) as Hsp2 by (rewrite (HR2 Reg.sp 8) by by_table; done).
  eexists. split; [reflexivity|]. cbn [step]. split_and!; try done.
  - intros r Hz Htp. change (h_reg _ r) with (<[Reg.sp := u64 (R2 Reg.sp + 256)]> R2 r).
    destruct (decide (r = Reg.sp)) as [->|Hne].
    { rewrite fn_lookup_insert, Hsp2, u64_small by lia. lia. }
    rewrite fn_lookup_insert_ne by done.
    assert (r ∈ kv_back.*1) as Hr by (destruct r; try done; by_table).
    apply list_elem_of_fmap in Hr as ([r' o] & -> & Hx). cbn [fst] in *. rewrite (HR2 r' o) by done.
    apply list_elem_of_filter in Hx as [_ Hx]. by apply Hs.
Qed.

(** ** timervec *)

(** Machine mode works on physical addresses. *)
Lemma machine_window satp m a n : 0 ≤ a → a + n ≤ 2 ^ 64 → window Machine satp m a a n.
Proof. intros H0 H1 m' ac o _ _ Ho Hn. cbn [translate]. by rewrite u64_small by lia. Qed.

(** The scratch area of start.c for one hart: the saved registers are in the
    first three words, the address of the compare register and the interval in
    the last two. *)
Record timer_scratch (m : mem) (sc cmp : Z) : Prop := {
  ts_range : 0 ≤ sc ∧ sc + 40 ≤ 2 ^ 64;
  ts_cmp : ld64 m (sc + 24) = cmp ∧ 0 ≤ cmp ∧ cmp + 8 ≤ 2 ^ 64;
  ts_apart : cmp + 8 ≤ sc ∨ sc + 40 ≤ cmp;
}.

Lemma run_step p i s s' : step i s = Some s' → run always (i :: p) s = run always p s'.
Proof. intros H. cbn [run always]. by rewrite H. Qed.

Lemma run_sd_m p rs o b s a v :
  h_mode s = Machine → u64 (h_reg s b + o) = a → h_reg s rs = v →
  run always (sd rs o b :: p) s = run always p (set_mem (st64 (h_mem s) a v) s).
Proof. intros Hm <- <-. cbn [run always step]. unfold xlate. by rewrite Hm. Qed.

Lemma run_ld_m p rd o b s a v :
  h_mode s = Machine → rd ≠ Reg.zero → u64 (h_reg s b + o) = a → ld64 (h_mem s) a = v →
  run always (ld rd o b :: p) s = run always p (set_reg rd v s).
Proof. intros Hm Hz <- <-. cbn [run always step]. unfold xlate. by rewrite Hm. Qed.

(** A timer interrupt: the next one is scheduled, a software interrupt is
    raised for supervisor mode, and the interrupted code does not notice. *)
Lemma timervec_spec s cmp :
  let sc := h_csr s Csr.mscratch in
  h_mode s = Machine → (∀ r, 0 ≤ h_reg s r < 2 ^ 64) → timer_scratch (h_mem s) sc cmp →
  ∃ s', run always timervec s = Some s' ∧ (∀ r, r ≠ Reg.zero → h_reg s' r = h_reg s r) ∧
    ld64 (h_mem s') cmp = u64 (ld64 (h_mem s) cmp + ld64 (h_mem s) (sc + 32)) ∧
    h_csr s' Csr.sip = 2 ∧ h_csr s' Csr.mscratch = sc ∧
    h_pc s' = h_csr s Csr.mepc ∧ h_mode s' = MPP_mode (h_csr s Csr.mstatus) ∧
    ∀ b, ¬ sc ≤ b < sc + 24 → ¬ cmp ≤ b < cmp + 8 → ldb (h_mem s') b = ldb (h_mem s) b.
Proof.
  intros sc Hmd HR [[R0 R1] (C1 & C2 & C3) Hap]. unfold timervec.
  set (m1 := st64 (st64 (st64 (h_mem s) sc (h_reg s Reg.a1)) (sc + 8) (h_reg s Reg.a2)) (sc + 16) (h_reg s Reg.a3)).
  set (new := u64 (ld64 (h_mem s) cmp + ld64 (h_mem s) (sc + 32))). set (m2 := st64 m1 cmp new).
  assert (u64 (sc + 0) = sc ∧ u64 (sc + 8) = sc + 8 ∧ u64 (sc + 16) = sc + 16 ∧ u64 (sc + 24) = sc + 24 ∧
    u64 (sc + 32) = sc + 32 ∧ u64 (cmp + 0) = cmp) as (U0 & U1 & U2 & U3 & U4 & U5) by (rewrite !u64_small; lia).
  assert (ld64 m1 (sc + 24) = cmp) as E24 by (unfold m1; by rewrite !ld64_st64_out by lia).
  assert (ld64 m1 (sc + 32) = ld64 (h_mem s) (sc + 32)) as E32 by (unfold m1; by rewrite !ld64_st64_out by lia).
  assert (ld64 m1 cmp = ld64 (h_mem s) cmp) as Ecmp by (unfold m1; by rewrite !ld64_st64_out by lia).
  assert (ld64 m2 sc = h_reg s Reg.a1) as E0 by (unfold m2, m1; rewrite !ld64_st64_out by lia; by apply ld64_st64).
  assert (ld64 m2 (sc + 8) = h_reg s Reg.a2) as E8 by (unfold m2, m1; rewrite !ld64_st64_out by lia; by apply ld64_st64).
  assert (ld64 m2 (sc + 16) = h_reg s Reg.a3) as E16 by (unfold m2, m1; rewrite ld64_st64_out by lia; by apply ld64_st64).
  rewrite (run_step _ (csrrw Reg.a0 Csr.mscratch Reg.a0) _ (set_reg Reg.a0 sc (set_csr Csr.mscratch (h_reg s Reg.a0) s))) by done.
  rewrite (run_sd_m _ _ _ _ _ sc (h_reg s Reg.a1)), (run_sd_m _ _ _ _ _ (sc + 8) (h_reg s Reg.a2)),
    (run_sd_m _ _ _ _ _ (sc + 16) (h_reg s Reg.a3)), (run_ld_m _ _ _ _ _ (sc + 24) cmp),
    (run_ld_m _ _ _ _ _ (sc + 32) (ld64 (h_mem s) (sc + 32))), (run_ld_m _ _ _ _ _ cmp (ld64 (h_mem s) cmp)) by done.
  erewrite (run_step _ (add _ _ _)) by reflexivity. rewrite (run_sd_m _ _ _ _ _ cmp new) by done.
  erewrite (run_step _ (li _ _)) by reflexivity. erewrite (run_step _ (csrw _ _)) by reflexivity.
  rewrite (run_ld_m _ _ _ _ _ (sc + 16) (h_reg s Reg.a3)), (run_ld_m _ _ _ _ _ (sc + 8) (h_reg s Reg.a2)),
    (run_ld_m _ _ _ _ _ sc (h_reg s Reg.a1)) by done.
  erewrite (run_step _ (csrrw _ _ _)) by reflexivity. eexists. split; [reflexivity|]. split_and!; try done.
  - intros r Hr. destruct r; done.
  - change (ld64 m2 cmp = new). apply ld64_st64, u64_range.
  - intros b Hb1 Hb2. change (ldb m2 b = ldb (h_mem s) b). unfold m2, m1. by rewrite !ldb_st64_out by lia.
Qed.

(** ** entry.S *)

(** Each hart gets the end of its own 4096 bytes of [stack0]. *)
Lemma entry_spec s stack0 f back :
  0 ≤ stack0 < 2 ^ 32 → 0 ≤ h_csr s Csr.mhartid < 8 →
  ∃ s', run always (entry_S stack0 f back) s = Some s' ∧ h_pc s' = f ∧
    h_reg s' Reg.sp = stack0 + 4096 * (h_csr s Csr.mhartid + 1) ∧ h_mem s' = h_mem s ∧ h_csr s' = h_csr s ∧ h_mode s' = h_mode s.
Proof.
  intros Hst Hh. eexists. split; [reflexivity|]. split_and!; try done.
  change (u64 (u64 stack0 + u64 (4096 * u64 (h_csr s Csr.mhartid + 1))) = stack0 + 4096 * (h_csr s Csr.mhartid + 1)).
  rewrite (u64_small stack0), (u64_small (h_csr s Csr.mhartid + 1)) by lia. rewrite (u64_small (4096 * _)) by lia.
  apply u64_small. lia.
Qed.

(** ** Theorems *)

(** C7. swtch() switches kernel threads: a thread that calls swtch(old, new) and
    that some other thread switches back to later, with its context untouched,
    returns from its own call with its stack pointer and all callee-saved
    registers as they were. *)
Theorem swtch_correct s1 old new :
  (∀ r, 0 ≤ h_reg s1 r < 2 ^ 64) →
  window (h_mode s1) (h_csr s1 Csr.satp) (h_mem s1) (h_reg s1 Reg.a0) old CTX_SIZE →
  (∀ m, same_out old CTX_SIZE (h_mem s1) m → window (h_mode s1) (h_csr s1 Csr.satp) m (h_reg s1 Reg.a1) new CTX_SIZE) →
  old + CTX_SIZE ≤ new ∨ new + CTX_SIZE ≤ old →
  ∃ s1', run always swtch s1 = Some s1' ∧ ctx_regs (h_mem s1) new (h_reg s1') ∧ h_pc s1' = ld64 (h_mem s1) new ∧
    ∀ s2 x, (∀ b, old ≤ b < old + CTX_SIZE → ldb (h_mem s2) b = ldb (h_mem s1') b) →
      (∀ r, 0 ≤ h_reg s2 r < 2 ^ 64) →
      window (h_mode s2) (h_csr s2 Csr.satp) (h_mem s2) (h_reg s2 Reg.a0) x CTX_SIZE →
      (∀ m, same_out x CTX_SIZE (h_mem s2) m → window (h_mode s2) (h_csr s2 Csr.satp) m (h_reg s2 Reg.a1) old CTX_SIZE) →
      x + CTX_SIZE ≤ old ∨ old + CTX_SIZE ≤ x →
      ∃ s2', run always swtch s2 = Some s2' ∧ h_pc s2' = h_reg s1 Reg.ra ∧
        ∀ r, r ∈ [Reg.ra; Reg.sp; Reg.s0; Reg.s1; Reg.s2; Reg.s3; Reg.s4; Reg.s5; Reg.s6; Reg.s7; Reg.s8; Reg.s9; Reg.s10; Reg.s11] →
          h_reg s2' r = h_reg s1 r.
Proof.
  intros HR Hwo Hwn Hap. destruct (swtch_spec s1 old new HR Hwo Hwn Hap) as (s1' & H1 & H2 & H3 & H4 & H5 & _).
  exists s1'. split_and!; try done. intros s2 x Hs HR2 Hw1 Hw2 Hap2.
  destruct (swtch_spec s2 x old HR2 Hw1 Hw2 Hap2) as (s2' & G1 & G2 & G3 & G4 & _).
  pose proof (swtch_back s1 s1' s2 s2' old H2 Hs G3) as Hb. exists s2'. split_and!; [done| |done].
  rewrite G4, <-(Hb Reg.ra) by by_table. rewrite <-(G3 Reg.ra 0) by by_table. by rewrite Z.add_0_r.
Qed.

(** C8. An interrupt or exception in the kernel is transparent: kernelvec calls
    kerneltrap() with the registers on the stack, and when that returns, with the
    stack pointer and the stack as they were, the interrupted code goes on at sepc
    with every register as it was, except tp, which stays that of the hart. *)
Theorem kernelvec_correct s pa f back :
  (∀ r, 0 ≤ h_reg s r < 2 ^ 64) → 256 ≤ h_reg s Reg.sp →
  window (h_mode s) (h_csr s Csr.satp) (h_mem s) (h_reg s Reg.sp - 256) pa 256 →
  ∃ s1, run always (kernelvec f back) s = Some s1 ∧ h_pc s1 = f ∧ same_out pa 256 (h_mem s) (h_mem s1) ∧
    ∀ s2, h_reg s2 Reg.sp = h_reg s1 Reg.sp → (∀ b, pa ≤ b < pa + 256 → ldb (h_mem s2) b = ldb (h_mem s1) b) →
      window (h_mode s2) (h_csr s2 Csr.satp) (h_mem s2) (h_reg s Reg.sp - 256) pa 256 →
      ∃ s3, run always kernelvec_ret s2 = Some s3 ∧ (∀ r, r ≠ Reg.zero → r ≠ Reg.tp → h_reg s3 r = h_reg s r) ∧
        h_reg s3 Reg.tp = h_reg s2 Reg.tp ∧ h_pc s3 = h_csr s2 Csr.sepc ∧ h_mode s3 = SPP_mode (h_csr s2 Csr.sstatus) ∧
        h_mem s3 = h_mem s2.
Proof.
  intros HR Hsp Hw. destruct (kernelvec_spec s pa f back HR Hsp Hw) as (s1 & K1 & K2 & K3 & K4 & K5 & K6 & K7 & K8).
  exists s1. split_and!; try done. intros s2 Hsp2 Hs Hw2.
  assert (∀ r o, (r, o) ∈ kv_layout → ld64 (h_mem s2) (pa + o) = ld64 (h_mem s1) (pa + o)) as Hld.
  { intros r o Hx. apply ld64_ext. intros b Hb. apply Hs.
    assert (in_range 256 kv_layout) as Hr by by_table. pose proof (in_range_elem _ _ _ _ Hr Hx). lia. }
  apply (kernelvec_ret_spec s2 pa (h_reg s)); [split; [done|apply HR]|congruence|done| |].
  - rewrite (Hld Reg.sp 8) by by_table. done.
  - intros r o Hx Hne. rewrite (Hld r o) by done. by apply K8.
Qed.

(** On a core without paging. *)
Definition idle : core :=
  mkCore (λ r, match r with Reg.sp => 8192 | Reg.a0 => 1024 | Reg.a1 => 2048 | _ => 7 end) (λ _, 0) ∅ Supervisor 0.

Lemma bare_window m a n : 0 ≤ a → a + n ≤ 2 ^ 64 → window Supervisor 0 m a a n.
Proof. intros H0 H1 m' ac o _ _ Ho Hn. cbn [translate]. change (Z.shiftr 0 60 =? 0) with true. cbv iota. by rewrite u64_small by lia. Qed.

Lemma swtch_correct_witness :
  ∃ s1', run always swtch idle = Some s1' ∧ ctx_regs ∅ 2048 (h_reg s1') ∧ h_pc s1' = 0 ∧
    ∀ s2 x, (∀ b, 1024 ≤ b < 1024 + CTX_SIZE → ldb (h_mem s2) b = ldb (h_mem s1') b) →
      (∀ r, 0 ≤ h_reg s2 r < 2 ^ 64) →
      window (h_mode s2) (h_csr s2 Csr.satp) (h_mem s2) (h_reg s2 Reg.a0) x CTX_SIZE →
      (∀ m, same_out x CTX_SIZE (h_mem s2) m → window (h_mode s2) (h_csr s2 Csr.satp) m (h_reg s2 Reg.a1) 1024 CTX_SIZE) →
      x + CTX_SIZE ≤ 1024 ∨ 1024 + CTX_SIZE ≤ x →
      ∃ s2', run always swtch s2 = Some s2' ∧ h_pc s2' = 7 ∧
        ∀ r, r ∈ [Reg.ra; Reg.sp; Reg.s0; Reg.s1; Reg.s2; Reg.s3; Reg.s4; Reg.s5; Reg.s6; Reg.s7; Reg.s8; Reg.s9; Reg.s10; Reg.s11] →
          h_reg s2' r = h_reg idle r.
Proof.
  apply (swtch_correct idle 1024 2048); [intros r; by destruct r|apply bare_window; unfold CTX_SIZE; lia| |unfold CTX_SIZE; lia].
  intros m _. apply bare_window; unfold CTX_SIZE; lia.
Defined.

Lemma kernelvec_correct_witness :
  ∃ s1, run always (kernelvec 4096 512) idle = Some s1 ∧ h_pc s1 = 4096 ∧ same_out 7936 256 ∅ (h_mem s1) ∧
    ∀ s2, h_reg s2 Reg.sp = h_reg s1 Reg.sp → (∀ b, 7936 ≤ b < 7936 + 256 → ldb (h_mem s2) b = ldb (h_mem s1) b) →
      window (h_mode s2) (h_csr s2 Csr.satp) (h_mem s2) 7936 7936 256 →
      ∃ s3, run always kernelvec_ret s2 = Some s3 ∧ (∀ r, r ≠ Reg.zero → r ≠ Reg.tp → h_reg s3 r = h_reg idle r) ∧
        h_reg s3 Reg.tp = h_reg s2 Reg.tp ∧ h_pc s3 = h_csr s2 Csr.sepc ∧ h_mode s3 = SPP_mode (h_csr s2 Csr.sstatus) ∧
        h_mem s3 = h_mem s2.
Proof.
  apply (kernelvec_correct idle 7936 4096 512); [intros r; by destruct r|cbn; lia|apply bare_window; lia].
Defined.
