(* ===== verification/Start.v ===== *)
(** * Machine-mode boot (kernel/start.c)

    start() and timerinit() work on the registers of one core in machine mode;
    the code that then runs on timer interrupts is timervec of kernelvec.S. *)

From stdpp Require Import functions gmap list strings.
From Stdlib Require Import ZArith Lia.
From S2P Require Import Prelude Mem Params Asm AsmSpec.
#[local] Open Scope Z_scope.

Abbreviation B := (M core).

(** ** riscv.h *)

Definition r_mhartid : B Z := gets (λ s, h_csr s Csr.mhartid).
Definition MSTATUS_MPP_MASK : Z := Z.shiftl 3 11.
Definition MSTATUS_MPP_M : Z := Z.shiftl 3 11.
Definition MSTATUS_MPP_S : Z := Z.shiftl 1 11.
Definition MSTATUS_MPP_U : Z := Z.shiftl 0 11.
Definition MSTATUS_MIE : Z := Z.shiftl 1 3.
Definition r_mstatus : B Z := gets (λ s, h_csr s Csr.mstatus).
Definition w_mstatus (x : Z) : B unit := modify (set_csr Csr.mstatus x).
Definition w_mepc (x : Z) : B unit := modify (set_csr Csr.mepc x).
Definition SIE_SEIE : Z := Z.shiftl 1 9.
Definition SIE_STIE : Z := Z.shiftl 1 5.
Definition SIE_SSIE : Z := Z.shiftl 1 1.
Definition r_sie : B Z := gets (λ s, h_csr s Csr.sie).
Definition w_sie (x : Z) : B unit := modify (set_csr Csr.sie x).
Definition MIE_MEIE : Z := Z.shiftl 1 11.
Definition MIE_MTIE : Z := Z.shiftl 1 7.
Definition MIE_MSIE : Z := Z.shiftl 1 3.
Definition r_mie : B Z := gets (λ s, h_csr s Csr.mie).
Definition w_mie (x : Z) : B unit := modify (set_csr Csr.mie x).
Definition w_medeleg (x : Z) : B unit := modify (set_csr Csr.medeleg x).
Definition w_mideleg (x : Z) : B unit := modify (set_csr Csr.mideleg x).
Definition w_mtvec (x : Z) : B unit := modify (set_csr Csr.mtvec x).
Definition w_pmpcfg0 (x : Z) : B unit := modify (set_csr Csr.pmpcfg0 x).
Definition w_pmpaddr0 (x : Z) : B unit := modify (set_csr Csr.pmpaddr0 x).
Definition w_satp (x : Z) : B unit := modify (set_csr Csr.satp x).
Definition w_mscratch (x : Z) : B unit := modify (set_csr Csr.mscratch x).
Definition w_tp (x : Z) : B unit := modify (set_reg Reg.tp x).

(** memlayout.h *)
Definition CLINT : Z := 0x2000000.
Definition CLINT_MTIMECMP (hartid : Z) : Z := CLINT + 0x4000 + 8 * hartid.
Definition CLINT_MTIME : Z := CLINT + 0xBFF8.

Definition load64 (a : Z) : B Z := gets (λ s, ld64 (h_mem s) a).
Definition store64 (a v : Z) : B unit := modify (λ s, set_mem (st64 (h_mem s) a v) s).

(** An instruction in the middle of C code. *)
Definition asm (i : instr) : B unit :=
  λ s, match step i s with Some s' => Ok tt s' | None => Panic "trap" s end.

(** ** start.c *)

(** The addresses of main(), of timervec and of the array timer_scratch. *)
Class Boot := { main_addr : Z; timervec_addr : Z; timer_scratch_addr : Z }.

Section start.
Context `{BOOT : !Boot}.

Definition timerinit : B unit :=
  h ← r_mhartid;
  let id := s32 h in
  let interval := 1000000 in
  t ← load64 CLINT_MTIME;
  store64 (CLINT_MTIMECMP id) (u64 (t + interval));;
  let scratch := timer_scratch_addr + 40 * id in
  store64 (scratch + 8 * 3) (CLINT_MTIMECMP id);;
  store64 (scratch + 8 * 4) interval;;
  w_mscratch scratch;;
  w_mtvec timervec_addr;;
  x ← r_mstatus;
  w_mstatus (Z.lor x MSTATUS_MIE);;
  x ← r_mie;
  w_mie (Z.lor x MIE_MTIE).

Definition start : B unit :=
  x ← r_mstatus;
  let x := Z.land x (Z.lnot MSTATUS_MPP_MASK) in
  let x := Z.lor x MSTATUS_MPP_S in
  w_mstatus x;;
  w_mepc main_addr;;
  w_satp 0;;
  w_medeleg 0xffff;;
  w_mideleg 0xffff;;
  x ← r_sie;
  w_sie (Z.lor (Z.lor (Z.lor x SIE_SEIE) SIE_STIE) SIE_SSIE);;
  w_pmpaddr0 0x3fffffffffffff;;
  w_pmpcfg0 0xf;;
  timerinit;;
  h ← r_mhartid;
  let id := s32 h in
  w_tp (u64 id);;
  asm mret_.
End start.

(** ** What boot leaves behind *)

(** The scratch areas are in RAM, apart from the CLINT. *)
Class BootOk `{Boot} := { timer_scratch_range : KERNBASE ≤ timer_scratch_addr ∧ timer_scratch_addr + 320 ≤ PHYSTOP }.

Lemma MPP_supervisor x :
  MPP_mode (Z.lor (Z.lor (Z.land x (Z.lnot MSTATUS_MPP_MASK)) MSTATUS_MPP_S) MSTATUS_MIE) = Supervisor.
Proof.
  unfold MPP_mode. replace (Z.land _ 3) with 1; [done|]. symmetry. apply Z.bits_inj'. intros n Hn.
  rewrite Z.land_spec, Z.shiftr_spec, !Z.lor_spec, Z.land_spec, Z.lnot_spec by lia.
  unfold MSTATUS_MPP_MASK, MSTATUS_MPP_S, MSTATUS_MIE. rewrite !Z.shiftl_spec by lia.
  replace (n + 11 - 11) with n by lia. destruct (decide (n = 0)) as [->|H0]; [by destruct (Z.testbit x (0 + 11))|].
  destruct (decide (n = 1)) as [->|H1]; [by destruct (Z.testbit x (1 + 11))|].
  rewrite (Z.bits_above_log2 3 n), (Z.bits_above_log2 1 n) by (cbn; lia). by rewrite !andb_false_r.
Qed.

Section start_theorems.
Context `{BOOT : !Boot, BOK : !BootOk}.

(** The registers of a core that start() has set up for hart [id]. *)
Record started (id : Z) (s s' : core) : Prop := {
  st_mode : h_mode s' = Supervisor;
  st_pc : h_pc s' = main_addr;
  st_satp : h_csr s' Csr.satp = 0;
  st_tp : h_reg s' Reg.tp = id;
  st_deleg : h_csr s' Csr.medeleg = 0xffff ∧ h_csr s' Csr.mideleg = 0xffff;
  st_sie : h_csr s' Csr.sie = Z.lor (Z.lor (Z.lor (h_csr s Csr.sie) SIE_SEIE) SIE_STIE) SIE_SSIE;
  st_mie : h_csr s' Csr.mie = Z.lor (h_csr s Csr.mie) MIE_MTIE;
  st_mtvec : h_csr s' Csr.mtvec = timervec_addr;
  st_scratch : h_csr s' Csr.mscratch = timer_scratch_addr + 40 * id;
  st_timer : timer_scratch (h_mem s') (timer_scratch_addr + 40 * id) (CLINT_MTIMECMP id);
  st_interval : ld64 (h_mem s') (timer_scratch_addr + 40 * id + 32) = 1000000;
  st_first : ld64 (h_mem s') (CLINT_MTIMECMP id) = u64 (ld64 (h_mem s) CLINT_MTIME + 1000000);
}.

Lemma start_spec s id :
  h_mode s = Machine → h_csr s Csr.mhartid = id → 0 ≤ id < 8 → wp start s (λ _ s', started id s s').
Proof.
  intros Hmd Hid Hr. pose proof timer_scratch_range as [T1 T2]. unfold PHYSTOP, KERNBASE in *.
  assert (s32 id = id) as Es by (by apply s32_small; lia).
  assert (0 ≤ CLINT_MTIMECMP id ∧ CLINT_MTIMECMP id + 8 ≤ 0x3000000) as Hc by (unfold CLINT_MTIMECMP, CLINT; lia).
  unfold start, timerinit, r_mstatus, w_mstatus, w_mepc, w_satp, w_medeleg, w_mideleg, r_sie, w_sie, w_pmpaddr0, w_pmpcfg0,
    r_mhartid, load64, store64, w_mscratch, w_mtvec, r_mie, w_mie, w_tp. wp_pure.
  repeat match goal with |- context [s32 (h_csr ?X Csr.mhartid)] =>
    replace (s32 (h_csr X Csr.mhartid)) with id by (change (h_csr X Csr.mhartid) with (h_csr s Csr.mhartid); congruence) end.
  set (sc := timer_scratch_addr + 40 * id). set (cmp := CLINT_MTIMECMP id) in *.
  set (m := st64 (st64 (st64 (h_mem s) cmp (u64 (ld64 (h_mem s) CLINT_MTIME + 1000000))) (sc + 8 * 3) cmp) (sc + 8 * 4) 1000000).
  unfold wp, asm. cbn [step]. split; try done.
  - apply MPP_supervisor.
  - change (u64 id = id). apply u64_small. lia.
  - split; [unfold sc; lia| |unfold sc; lia]. split; [|lia].
    change (ld64 m (sc + 24) = cmp). unfold m. rewrite ld64_st64_out by lia. apply ld64_st64. lia.
  - change (ld64 m (sc + 8 * 4) = 1000000). by apply ld64_st64.
  - change (ld64 m cmp = u64 (ld64 (h_mem s) CLINT_MTIME + 1000000)). unfold m. rewrite !ld64_st64_out by (unfold sc; lia).
    apply ld64_st64, u64_range.
Qed.

(** C9. Boot in machine mode: on each hart start() enters main() in supervisor
    mode without paging, with the hart id in tp and all traps delegated; and
    from then on every timer interrupt, whenever it comes, schedules the next
    one a million cycles later, raises a supervisor software interrupt and
    leaves every register of the interrupted code as it was. *)
Theorem start_correct s id :
  h_mode s = Machine → h_csr s Csr.mhartid = id → 0 ≤ id < 8 →
  wp start s (λ _ s1, started id s s1 ∧
    ∀ s2, h_mode s2 = Machine → (∀ r, 0 ≤ h_reg s2 r < 2 ^ 64) → h_csr s2 Csr.mscratch = h_csr s1 Csr.mscratch →
      (∀ o, 24 ≤ o < 40 → ldb (h_mem s2) (h_csr s1 Csr.mscratch + o) = ldb (h_mem s1) (h_csr s1 Csr.mscratch + o)) →
      ∃ s3, run always timervec s2 = Some s3 ∧ (∀ r, r ≠ Reg.zero → h_reg s3 r = h_reg s2 r) ∧
        ld64 (h_mem s3) (CLINT_MTIMECMP id) = u64 (ld64 (h_mem s2) (CLINT_MTIMECMP id) + 1000000) ∧
        h_csr s3 Csr.sip = 2 ∧ h_csr s3 Csr.mscratch = h_csr s2 Csr.mscratch ∧
        h_pc s3 = h_csr s2 Csr.mepc ∧ h_mode s3 = MPP_mode (h_csr s2 Csr.mstatus)).
Proof.
  intros Hmd Hid Hr. eapply wp_mono; [by apply (start_spec s id)|]. intros [] s1 Hs. split; [done|].
  destruct Hs as [_ _ _ _ _ _ _ _ Hsc [T1 (T2 & T3 & T4) T5] Hiv _]. intros s2 Hm2 HR2 Hms Hsame. rewrite Hsc in *.
  assert (∀ o, 24 ≤ o → o + 8 ≤ 40 → ld64 (h_mem s2) (timer_scratch_addr + 40 * id + o) =
    ld64 (h_mem s1) (timer_scratch_addr + 40 * id + o)) as Hld.
  { intros o H1 H2. apply ld64_ext. intros b Hb. replace b with (timer_scratch_addr + 40 * id + (b - (timer_scratch_addr + 40 * id))) by lia.
    apply Hsame. lia. }
  destruct (timervec_spec s2 (CLINT_MTIMECMP id)) as (s3 & H1 & H2 & H3 & H4 & H5 & H6 & H7 & _); [done|done| |].
  { rewrite Hms. split; [done| |done]. rewrite Hld by lia. done. }
  exists s3. rewrite Hms in *. rewrite Hld, Hiv in H3 by lia. done.
Qed.
End start_theorems.

(** ** The theorem on a concrete core *)

#[local] Instance boot0 : Boot := {| main_addr := KERNBASE + 0x1000; timervec_addr := KERNBASE + 0x2000; timer_scratch_addr := KERNBASE + 0x9000 |}.
#[local] Instance boot0_ok : BootOk.
Proof. by split. Qed.

(** Hart 1 after reset. *)
Definition reset : core := mkCore (λ _, 0) (<[Csr.mhartid := 1]> (λ _, 0)) ∅ Machine KERNBASE.

Lemma start_correct_witness :
  wp start reset (λ _ s1, started 1 reset s1 ∧
    ∀ s2, h_mode s2 = Machine → (∀ r, 0 ≤ h_reg s2 r < 2 ^ 64) → h_csr s2 Csr.mscratch = h_csr s1 Csr.mscratch →
      (∀ o, 24 ≤ o < 40 → ldb (h_mem s2) (h_csr s1 Csr.mscratch + o) = ldb (h_mem s1) (h_csr s1 Csr.mscratch + o)) →
      ∃ s3, run always timervec s2 = Some s3 ∧ (∀ r, r ≠ Reg.zero → h_reg s3 r = h_reg s2 r) ∧
        ld64 (h_mem s3) (CLINT_MTIMECMP 1) = u64 (ld64 (h_mem s2) (CLINT_MTIMECMP 1) + 1000000) ∧
        h_csr s3 Csr.sip = 2 ∧ h_csr s3 Csr.mscratch = h_csr s2 Csr.mscratch ∧
        h_pc s3 = h_csr s2 Csr.mepc ∧ h_mode s3 = MPP_mode (h_csr s2 Csr.mstatus)).
Proof. apply (start_correct reset 1); [reflexivity|reflexivity|lia]. Defined.
