(* ===== verification/FsData.v ===== *)
(** * The data of the I/O side of the kernel

    The structures of kernel/buf.h, kernel/sleeplock.h, kernel/fs.h,
    kernel/file.h, kernel/log.c and kernel/pipe.c, and the record [fsys] of the
    globals that hold them.  Pointers into a table are indices into it. *)

From stdpp Require Import gmap list strings.
From Stdlib Require Import ZArith Lia.
From S2P Require Import Prelude Mem Params.
#[local] Open Scope Z_scope.

(** ** kernel/fs.h *)

Definition ROOTINO := 1.
Definition BSIZE := 1024.
Definition FSMAGIC := 0x10203040.
Definition NDIRECT := 12.
Definition NINDIRECT := BSIZE / 4.
Definition MAXFILE := NDIRECT + NINDIRECT.
Definition DIRSIZ := 14.

(** sizeof(struct dinode), sizeof(struct dirent) *)
Definition DINODE_SIZE := 64.
Definition DIRENT_SIZE := 16.
Definition IPB := BSIZE / DINODE_SIZE.
Definition BPB := BSIZE * 8.

(** A disk block: BSIZE bytes. *)
Abbreviation block := (list Z).
Definition zero_block : block := replicate (Z.to_nat BSIZE) 0.

Record superblock : Type := mkSb {
  sb_magic : Z;
  sb_size : Z;
  sb_nblocks : Z;
  sb_ninodes : Z;
  sb_nlog : Z;
  sb_logstart : Z;
  sb_inodestart : Z;
  sb_bmapstart : Z;
}.

Definition IBLOCK (i : Z) (sb : superblock) : Z := u32 (i / IPB + sb_inodestart sb).
Definition BBLOCK (b : Z) (sb : superblock) : Z := u32 (b / BPB + sb_bmapstart sb).

(** ** kernel/sleeplock.h *)

(** The sleep locks of the kernel, by the object that contains them. *)
Inductive slid : Type := SL_buf (i : nat) | SL_inode (i : nat).
#[export] Instance slid_eq_dec : EqDecision slid.
Proof. solve_decision. Defined.
#[export] Instance slid_countable : Countable slid.
Proof.
  refine (inj_countable'
    (λ s, match s with SL_buf i => inl i | SL_inode i => inr i end)
    (λ x, match x with inl i => SL_buf i | inr i => SL_inode i end) _).
  by intros [].
Defined.

Record sleeplock : Type := mkSleep {
  sl_locked : Z;
  sl_name : string;
  sl_pid : Z;
}.

(** ** kernel/buf.h

    [b_prev] and [b_next] link the buffers in a ring through [bcache.head]; a
    pointer is an index into [bcache], where index 0 is [bcache.head] itself and
    [i + 1] is [bcache.buf[i]]. *)
Record buf : Type := mkBuf {
  b_valid : Z;
  b_disk : Z;
  b_dev : Z;
  b_blockno : Z;
  b_refcnt : Z;
  b_prev : nat;
  b_next : nat;
  b_data : block;
}.

Definition upd_b_valid (f : Z → Z) (b : buf) : buf :=
  mkBuf (f (b_valid b)) (b_disk b) (b_dev b) (b_blockno b) (b_refcnt b) (b_prev b)
    (b_next b) (b_data b).
Definition upd_b_disk (f : Z → Z) (b : buf) : buf :=
  mkBuf (b_valid b) (f (b_disk b)) (b_dev b) (b_blockno b) (b_refcnt b) (b_prev b)
    (b_next b) (b_data b).
Definition upd_b_dev (f : Z → Z) (b : buf) : buf :=
  mkBuf (b_valid b) (b_disk b) (f (b_dev b)) (b_blockno b) (b_refcnt b) (b_prev b)
    (b_next b) (b_data b).
Definition upd_b_blockno (f : Z → Z) (b : buf) : buf :=
  mkBuf (b_valid b) (b_disk b) (b_dev b) (f (b_blockno b)) (b_refcnt b) (b_prev b)
    (b_next b) (b_data b).
Definition upd_b_refcnt (f : Z → Z) (b : buf) : buf :=
  mkBuf (b_valid b) (b_disk b) (b_dev b) (b_blockno b) (f (b_refcnt b)) (b_prev b)
    (b_next b) (b_data b).
Definition upd_b_prev (f : nat → nat) (b : buf) : buf :=
  mkBuf (b_valid b) (b_disk b) (b_dev b) (b_blockno b) (b_refcnt b) (f (b_prev b))
    (b_next b) (b_data b).
Definition upd_b_next (f : nat → nat) (b : buf) : buf :=
  mkBuf (b_valid b) (b_disk b) (b_dev b) (b_blockno b) (b_refcnt b) (b_prev b)
    (f (b_next b)) (b_data b).
Definition upd_b_data (f : block → block) (b : buf) : buf :=
  mkBuf (b_valid b) (b_disk b) (b_dev b) (b_blockno b) (b_refcnt b) (b_prev b) (b_next b)
    (f (b_data b)).

(** ** kernel/log.c *)

Record logheader : Type := mkLh {
  lh_n : Z;
  lh_block : list Z;
}.

Record logstate : Type := mkLog {
  lg_start : Z;
  lg_size : Z;
  lg_outstanding : Z;
  lg_committing : Z;
  lg_dev : Z;
  lg_lh : logheader;
}.

Definition upd_lh_n (f : Z → Z) (h : logheader) : logheader :=
  mkLh (f (lh_n h)) (lh_block h).
Definition upd_lh_block (f : (list Z) → (list Z)) (h : logheader) : logheader :=
  mkLh (lh_n h) (f (lh_block h)).
Definition upd_lg_start (f : Z → Z) (l : logstate) : logstate :=
  mkLog (f (lg_start l)) (lg_size l) (lg_outstanding l) (lg_committing l) (lg_dev l)
    (lg_lh l).
Definition upd_lg_size (f : Z → Z) (l : logstate) : logstate :=
  mkLog (lg_start l) (f (lg_size l)) (lg_outstanding l) (lg_committing l) (lg_dev l)
    (lg_lh l).
Definition upd_lg_outstanding (f : Z → Z) (l : logstate) : logstate :=
  mkLog (lg_start l) (lg_size l) (f (lg_outstanding l)) (lg_committing l) (lg_dev l)
    (lg_lh l).
Definition upd_lg_committing (f : Z → Z) (l : logstate) : logstate :=
  mkLog (lg_start l) (lg_size l) (lg_outstanding l) (f (lg_committing l)) (lg_dev l)
    (lg_lh l).
Definition upd_lg_dev (f : Z → Z) (l : logstate) : logstate :=
  mkLog (lg_start l) (lg_size l) (lg_outstanding l) (lg_committing l) (f (lg_dev l))
    (lg_lh l).
Definition upd_lg_lh (f : logheader → logheader) (l : logstate) : logstate :=
  mkLog (lg_start l) (lg_size l) (lg_outstanding l) (lg_committing l) (lg_dev l)
    (f (lg_lh l)).

(** ** kernel/stat.h, kernel/fcntl.h, kernel/file.h *)

Definition T_DIR := 1.
Definition T_FILE := 2.
Definition T_DEVICE := 3.

Definition O_RDONLY := 0x000.
Definition O_WRONLY := 0x001.
Definition O_RDWR := 0x002.
Definition O_CREATE := 0x200.
Definition O_TRUNC := 0x400.

Definition CONSOLE := 1.

Record inode : Type := mkInode {
  i_dev : Z;
  i_inum : Z;
  i_ref : Z;
  i_valid : Z;
  i_type : Z;
  i_major : Z;
  i_minor : Z;
  i_nlink : Z;
  i_size : Z;
  i_addrs : list Z;
}.

Definition upd_i_dev (f : Z → Z) (i : inode) : inode :=
  mkInode (f (i_dev i)) (i_inum i) (i_ref i) (i_valid i) (i_type i) (i_major i)
    (i_minor i) (i_nlink i) (i_size i) (i_addrs i).
Definition upd_i_inum (f : Z → Z) (i : inode) : inode :=
  mkInode (i_dev i) (f (i_inum i)) (i_ref i) (i_valid i) (i_type i) (i_major i)
    (i_minor i) (i_nlink i) (i_size i) (i_addrs i).
Definition upd_i_ref (f : Z → Z) (i : inode) : inode :=
  mkInode (i_dev i) (i_inum i) (f (i_ref i)) (i_valid i) (i_type i) (i_major i)
    (i_minor i) (i_nlink i) (i_size i) (i_addrs i).
Definition upd_i_valid (f : Z → Z) (i : inode) : inode :=
  mkInode (i_dev i) (i_inum i) (i_ref i) (f (i_valid i)) (i_type i) (i_major i)
    (i_minor i) (i_nlink i) (i_size i) (i_addrs i).
Definition upd_i_type (f : Z → Z) (i : inode) : inode :=
  mkInode (i_dev i) (i_inum i) (i_ref i) (i_valid i) (f (i_type i)) (i_major i)
    (i_minor i) (i_nlink i) (i_size i) (i_addrs i).
Definition upd_i_major (f : Z → Z) (i : inode) : inode :=
  mkInode (i_dev i) (i_inum i) (i_ref i) (i_valid i) (i_type i) (f (i_major i))
    (i_minor i) (i_nlink i) (i_size i) (i_addrs i).
Definition upd_i_minor (f : Z → Z) (i : inode) : inode :=
  mkInode (i_dev i) (i_inum i) (i_ref i) (i_valid i) (i_type i) (i_major i)
    (f (i_minor i)) (i_nlink i) (i_size i) (i_addrs i).
Definition upd_i_nlink (f : Z → Z) (i : inode) : inode :=
  mkInode (i_dev i) (i_inum i) (i_ref i) (i_valid i) (i_type i) (i_major i) (i_minor i)
    (f (i_nlink i)) (i_size i) (i_addrs i).
Definition upd_i_size (f : Z → Z) (i : inode) : inode :=
  mkInode (i_dev i) (i_inum i) (i_ref i) (i_valid i) (i_type i) (i_major i) (i_minor i)
    (i_nlink i) (f (i_size i)) (i_addrs i).
Definition upd_i_addrs (f : (list Z) → (list Z)) (i : inode) : inode :=
  mkInode (i_dev i) (i_inum i) (i_ref i) (i_valid i) (i_type i) (i_major i) (i_minor i)
    (i_nlink i) (i_size i) (f (i_addrs i)).

Inductive ftype : Type := FD_NONE | FD_PIPE | FD_INODE | FD_DEVICE.
#[export] Instance ftype_eq_dec : EqDecision ftype.
Proof. solve_decision. Defined.

Record file : Type := mkFile {
  f_type : ftype;
  f_ref : Z;
  f_readable : Z;
  f_writable : Z;
  f_pipe : Z;
  f_ip : option nat;
  f_off : Z;
  f_major : Z;
}.

Definition upd_f_type (f : ftype → ftype) (fl : file) : file :=
  mkFile (f (f_type fl)) (f_ref fl) (f_readable fl) (f_writable fl) (f_pipe fl) (f_ip fl)
    (f_off fl) (f_major fl).
Definition upd_f_ref (f : Z → Z) (fl : file) : file :=
  mkFile (f_type fl) (f (f_ref fl)) (f_readable fl) (f_writable fl) (f_pipe fl) (f_ip fl)
    (f_off fl) (f_major fl).
Definition upd_f_readable (f : Z → Z) (fl : file) : file :=
  mkFile (f_type fl) (f_ref fl) (f (f_readable fl)) (f_writable fl) (f_pipe fl) (f_ip fl)
    (f_off fl) (f_major fl).
Definition upd_f_writable (f : Z → Z) (fl : file) : file :=
  mkFile (f_type fl) (f_ref fl) (f_readable fl) (f (f_writable fl)) (f_pipe fl) (f_ip fl)
    (f_off fl) (f_major fl).
Definition upd_f_pipe (f : Z → Z) (fl : file) : file :=
  mkFile (f_type fl) (f_ref fl) (f_readable fl) (f_writable fl) (f (f_pipe fl)) (f_ip fl)
    (f_off fl) (f_major fl).
Definition upd_f_ip (f : (option nat) → (option nat)) (fl : file) : file :=
  mkFile (f_type fl) (f_ref fl) (f_readable fl) (f_writable fl) (f_pipe fl) (f (f_ip fl))
    (f_off fl) (f_major fl).
Definition upd_f_off (f : Z → Z) (fl : file) : file :=
  mkFile (f_type fl) (f_ref fl) (f_readable fl) (f_writable fl) (f_pipe fl) (f_ip fl)
    (f (f_off fl)) (f_major fl).
Definition upd_f_major (f : Z → Z) (fl : file) : file :=
  mkFile (f_type fl) (f_ref fl) (f_readable fl) (f_writable fl) (f_pipe fl) (f_ip fl)
    (f_off fl) (f (f_major fl)).

(** ** kernel/pipe.c *)

Definition PIPESIZE := 512.

Record pipe : Type := mkPipe {
  pi_data : list Z;
  pi_nread : Z;
  pi_nwrite : Z;
  pi_readopen : Z;
  pi_writeopen : Z;
}.

Definition upd_pi_data (f : (list Z) → (list Z)) (p : pipe) : pipe :=
  mkPipe (f (pi_data p)) (pi_nread p) (pi_nwrite p) (pi_readopen p) (pi_writeopen p).
Definition upd_pi_nread (f : Z → Z) (p : pipe) : pipe :=
  mkPipe (pi_data p) (f (pi_nread p)) (pi_nwrite p) (pi_readopen p) (pi_writeopen p).
Definition upd_pi_nwrite (f : Z → Z) (p : pipe) : pipe :=
  mkPipe (pi_data p) (pi_nread p) (f (pi_nwrite p)) (pi_readopen p) (pi_writeopen p).
Definition upd_pi_readopen (f : Z → Z) (p : pipe) : pipe :=
  mkPipe (pi_data p) (pi_nread p) (pi_nwrite p) (f (pi_readopen p)) (pi_writeopen p).
Definition upd_pi_writeopen (f : Z → Z) (p : pipe) : pipe :=
  mkPipe (pi_data p) (pi_nread p) (pi_nwrite p) (pi_readopen p) (f (pi_writeopen p)).

(** ** The globals

    [disk] is the contents of the disk, by block number; [writes] records every
    block written to it, oldest first, so that a crash at any moment is a prefix
    of it.  A pipe is known by the address of the page that holds it.  [first] is
    the static variable of forkret(). *)
Record fsys : Type := mkFsys {
  disk : gmap Z block;
  writes : list (Z * block);
  sleeplocks : gmap slid sleeplock;
  bcache : list buf;
  log : logstate;
  sb : superblock;
  itable : list inode;
  ftable : list file;
  pipes : gmap Z pipe;
  first : Z;
}.

Definition upd_disk (f : (gmap Z block) → (gmap Z block)) (s : fsys) : fsys :=
  mkFsys (f (disk s)) (writes s) (sleeplocks s) (bcache s) (log s) (sb s) (itable s)
    (ftable s) (pipes s) (first s).
Definition upd_writes (f : (list (Z * block)) → (list (Z * block))) (s : fsys) : fsys :=
  mkFsys (disk s) (f (writes s)) (sleeplocks s) (bcache s) (log s) (sb s) (itable s)
    (ftable s) (pipes s) (first s).
Definition upd_sleeplocks (f : (gmap slid sleeplock) → (gmap slid sleeplock)) (s : fsys) : fsys :=
  mkFsys (disk s) (writes s) (f (sleeplocks s)) (bcache s) (log s) (sb s) (itable s)
    (ftable s) (pipes s) (first s).
Definition upd_bcache (f : (list buf) → (list buf)) (s : fsys) : fsys :=
  mkFsys (disk s) (writes s) (sleeplocks s) (f (bcache s)) (log s) (sb s) (itable s)
    (ftable s) (pipes s) (first s).
Definition upd_log (f : logstate → logstate) (s : fsys) : fsys :=
  mkFsys (disk s) (writes s) (sleeplocks s) (bcache s) (f (log s)) (sb s) (itable s)
    (ftable s) (pipes s) (first s).
Definition upd_sb (f : superblock → superblock) (s : fsys) : fsys :=
  mkFsys (disk s) (writes s) (sleeplocks s) (bcache s) (log s) (f (sb s)) (itable s)
    (ftable s) (pipes s) (first s).
Definition upd_itable (f : (list inode) → (list inode)) (s : fsys) : fsys :=
  mkFsys (disk s) (writes s) (sleeplocks s) (bcache s) (log s) (sb s) (f (itable s))
    (ftable s) (pipes s) (first s).
Definition upd_ftable (f : (list file) → (list file)) (s : fsys) : fsys :=
  mkFsys (disk s) (writes s) (sleeplocks s) (bcache s) (log s) (sb s) (itable s)
    (f (ftable s)) (pipes s) (first s).
Definition upd_pipes (f : (gmap Z pipe) → (gmap Z pipe)) (s : fsys) : fsys :=
  mkFsys (disk s) (writes s) (sleeplocks s) (bcache s) (log s) (sb s) (itable s)
    (ftable s) (f (pipes s)) (first s).

Definition upd_first (f : Z → Z) (s : fsys) : fsys :=
  mkFsys (disk s) (writes s) (sleeplocks s) (bcache s) (log s) (sb s) (itable s)
    (ftable s) (pipes s) (f (first s)).

(** The globals at boot: [.bss] is zero. *)
Definition buf0 : buf := mkBuf 0 0 0 0 0 0 0 zero_block.
Definition inode0 : inode := mkInode 0 0 0 0 0 0 0 0 0 (replicate 13 0).
Definition file0 : file := mkFile FD_NONE 0 0 0 0 None 0 0.
Definition log0 : logstate := mkLog 0 0 0 0 0 (mkLh 0 (replicate (Z.to_nat LOGSIZE) 0)).
Definition sb0 : superblock := mkSb 0 0 0 0 0 0 0 0.
Definition fsys0 (d : gmap Z block) : fsys :=
  mkFsys d [] ∅ (replicate (S (Z.to_nat NBUF)) buf0) log0 sb0
    (replicate (Z.to_nat NINODE) inode0) (replicate (Z.to_nat NFILE) file0) ∅ 1.
