(* ===== verification/DevData.v ===== *)
(** * The data of the device drivers

    The globals of kernel/console.c, kernel/uart.c, kernel/printf.c and
    kernel/virtio_disk.c, and the history of accesses to device registers. *)

From stdpp Require Import list strings.
From Stdlib Require Import ZArith Lia.
#[local] Open Scope Z_scope.

(** ** kernel/console.c *)

Definition INPUT_BUF := 128.
(** [cons], without its lock. *)
Record console : Type := mkCons {
  cs_buf : list Z;
  cs_r : Z;
  cs_w : Z;
  cs_e : Z;
}.

Definition upd_cs_buf (f : (list Z) → (list Z)) (c : console) : console :=
  mkCons (f (cs_buf c)) (cs_r c) (cs_w c) (cs_e c).
Definition upd_cs_r (f : Z → Z) (c : console) : console :=
  mkCons (cs_buf c) (f (cs_r c)) (cs_w c) (cs_e c).
Definition upd_cs_w (f : Z → Z) (c : console) : console :=
  mkCons (cs_buf c) (cs_r c) (f (cs_w c)) (cs_e c).
Definition upd_cs_e (f : Z → Z) (c : console) : console :=
  mkCons (cs_buf c) (cs_r c) (cs_w c) (f (cs_e c)).

(** ** kernel/uart.c *)

Definition UART_TX_BUF_SIZE := 32.
(** The transmit buffer, [uart_tx_w] and [uart_tx_r]. *)
Record uart : Type := mkUart {
  ut_buf : list Z;
  ut_w : Z;
  ut_r : Z;
}.

Definition upd_ut_buf (f : (list Z) → (list Z)) (u : uart) : uart :=
  mkUart (f (ut_buf u)) (ut_w u) (ut_r u).
Definition upd_ut_w (f : Z → Z) (u : uart) : uart :=
  mkUart (ut_buf u) (f (ut_w u)) (ut_r u).
Definition upd_ut_r (f : Z → Z) (u : uart) : uart :=
  mkUart (ut_buf u) (ut_w u) (f (ut_r u)).

(** ** kernel/virtio.h and kernel/virtio_disk.c *)

(** this many virtio descriptors *)
Definition NUM := 8.

(** What a descriptor points at: the request header [ops[i]], the data of a
    buffer, the status byte [info[i].status], or nothing. *)
Inductive dma : Type :=
| Dma_null
| Dma_op (i : Z)
| Dma_data (b : nat)
| Dma_status (i : Z).
#[export] Instance dma_eq_dec : EqDecision dma.
Proof. solve_decision. Defined.

(** struct virtq_desc *)
Record vdesc : Type := mkDesc {
  vq_addr : dma;
  vq_len : Z;
  vq_flags : Z;
  vq_next : Z;
}.

Definition upd_vq_addr (f : dma → dma) (d : vdesc) : vdesc :=
  mkDesc (f (vq_addr d)) (vq_len d) (vq_flags d) (vq_next d).
Definition upd_vq_len (f : Z → Z) (d : vdesc) : vdesc :=
  mkDesc (vq_addr d) (f (vq_len d)) (vq_flags d) (vq_next d).
Definition upd_vq_flags (f : Z → Z) (d : vdesc) : vdesc :=
  mkDesc (vq_addr d) (vq_len d) (f (vq_flags d)) (vq_next d).
Definition upd_vq_next (f : Z → Z) (d : vdesc) : vdesc :=
  mkDesc (vq_addr d) (vq_len d) (vq_flags d) (f (vq_next d)).

(** struct virtio_blk_req: the type and the sector. *)
Record blkreq : Type := mkReq {
  rq_type : Z;
  rq_reserved : Z;
  rq_sector : Z;
}.

(** struct disk, without its lock: the descriptors, the avail ring, the used
    ring that the device writes ([vd_dev_idx] is [used->idx]), and the driver's
    own book-keeping. *)
Record vdisk : Type := mkVdisk {
  vd_desc : list vdesc;
  vd_avail_idx : Z;
  vd_avail_ring : list Z;
  vd_dev_idx : Z;
  vd_used_ring : list Z;
  vd_free : list Z;
  vd_used_idx : Z;
  vd_info_b : list (option nat);
  vd_info_status : list Z;
  vd_ops : list blkreq;
}.

Definition upd_vd_desc (f : (list vdesc) → (list vdesc)) (v : vdisk) : vdisk :=
  mkVdisk (f (vd_desc v)) (vd_avail_idx v) (vd_avail_ring v) (vd_dev_idx v)
    (vd_used_ring v) (vd_free v) (vd_used_idx v) (vd_info_b v) (vd_info_status v)
    (vd_ops v).
Definition upd_vd_avail_idx (f : Z → Z) (v : vdisk) : vdisk :=
  mkVdisk (vd_desc v) (f (vd_avail_idx v)) (vd_avail_ring v) (vd_dev_idx v)
    (vd_used_ring v) (vd_free v) (vd_used_idx v) (vd_info_b v) (vd_info_status v)
    (vd_ops v).
Definition upd_vd_avail_ring (f : (list Z) → (list Z)) (v : vdisk) : vdisk :=
  mkVdisk (vd_desc v) (vd_avail_idx v) (f (vd_avail_ring v)) (vd_dev_idx v)
    (vd_used_ring v) (vd_free v) (vd_used_idx v) (vd_info_b v) (vd_info_status v)
    (vd_ops v).
Definition upd_vd_dev_idx (f : Z → Z) (v : vdisk) : vdisk :=
  mkVdisk (vd_desc v) (vd_avail_idx v) (vd_avail_ring v) (f (vd_dev_idx v))
    (vd_used_ring v) (vd_free v) (vd_used_idx v) (vd_info_b v) (vd_info_status v)
    (vd_ops v).
Definition upd_vd_used_ring (f : (list Z) → (list Z)) (v : vdisk) : vdisk :=
  mkVdisk (vd_desc v) (vd_avail_idx v) (vd_avail_ring v) (vd_dev_idx v)
    (f (vd_used_ring v)) (vd_free v) (vd_used_idx v) (vd_info_b v) (vd_info_status v)
    (vd_ops v).
Definition upd_vd_free (f : (list Z) → (list Z)) (v : vdisk) : vdisk :=
  mkVdisk (vd_desc v) (vd_avail_idx v) (vd_avail_ring v) (vd_dev_idx v) (vd_used_ring v)
    (f (vd_free v)) (vd_used_idx v) (vd_info_b v) (vd_info_status v) (vd_ops v).
Definition upd_vd_used_idx (f : Z → Z) (v : vdisk) : vdisk :=
  mkVdisk (vd_desc v) (vd_avail_idx v) (vd_avail_ring v) (vd_dev_idx v) (vd_used_ring v)
    (vd_free v) (f (vd_used_idx v)) (vd_info_b v) (vd_info_status v) (vd_ops v).
Definition upd_vd_info_b (f : (list (option nat)) → (list (option nat))) (v : vdisk) : vdisk :=
  mkVdisk (vd_desc v) (vd_avail_idx v) (vd_avail_ring v) (vd_dev_idx v) (vd_used_ring v)
    (vd_free v) (vd_used_idx v) (f (vd_info_b v)) (vd_info_status v) (vd_ops v).
Definition upd_vd_info_status (f : (list Z) → (list Z)) (v : vdisk) : vdisk :=
  mkVdisk (vd_desc v) (vd_avail_idx v) (vd_avail_ring v) (vd_dev_idx v) (vd_used_ring v)
    (vd_free v) (vd_used_idx v) (vd_info_b v) (f (vd_info_status v)) (vd_ops v).
Definition upd_vd_ops (f : (list blkreq) → (list blkreq)) (v : vdisk) : vdisk :=
  mkVdisk (vd_desc v) (vd_avail_idx v) (vd_avail_ring v) (vd_dev_idx v) (vd_used_ring v)
    (vd_free v) (vd_used_idx v) (vd_info_b v) (vd_info_status v) (f (vd_ops v)).

(** ** All of them *)

(** [d_panicked] and [d_locking] are [panicked] and [pr.locking] of
    kernel/printf.c; [d_devsw] says which entries of [devsw] are filled in;
    [d_started] is [started] of kernel/main.c; [d_mmio] is the history of the accesses to device registers, newest first: a
    register with the value written to it, or [None] for a read. *)
Record devs : Type := mkDevs {
  d_cons : console;
  d_uart : uart;
  d_panicked : Z;
  d_locking : Z;
  d_vdisk : vdisk;
  d_devsw : list bool;
  d_started : Z;
  d_mmio : list (Z * option Z);
}.

Definition upd_d_cons (f : console → console) (d : devs) : devs :=
  mkDevs (f (d_cons d)) (d_uart d) (d_panicked d) (d_locking d) (d_vdisk d) (d_devsw d)
    (d_started d) (d_mmio d).
Definition upd_d_uart (f : uart → uart) (d : devs) : devs :=
  mkDevs (d_cons d) (f (d_uart d)) (d_panicked d) (d_locking d) (d_vdisk d) (d_devsw d)
    (d_started d) (d_mmio d).
Definition upd_d_panicked (f : Z → Z) (d : devs) : devs :=
  mkDevs (d_cons d) (d_uart d) (f (d_panicked d)) (d_locking d) (d_vdisk d) (d_devsw d)
    (d_started d) (d_mmio d).
Definition upd_d_locking (f : Z → Z) (d : devs) : devs :=
  mkDevs (d_cons d) (d_uart d) (d_panicked d) (f (d_locking d)) (d_vdisk d) (d_devsw d)
    (d_started d) (d_mmio d).
Definition upd_d_vdisk (f : vdisk → vdisk) (d : devs) : devs :=
  mkDevs (d_cons d) (d_uart d) (d_panicked d) (d_locking d) (f (d_vdisk d)) (d_devsw d)
    (d_started d) (d_mmio d).
Definition upd_d_devsw (f : (list bool) → (list bool)) (d : devs) : devs :=
  mkDevs (d_cons d) (d_uart d) (d_panicked d) (d_locking d) (d_vdisk d) (f (d_devsw d))
    (d_started d) (d_mmio d).
Definition upd_d_started (f : Z → Z) (d : devs) : devs :=
  mkDevs (d_cons d) (d_uart d) (d_panicked d) (d_locking d) (d_vdisk d) (d_devsw d)
    (f (d_started d)) (d_mmio d).
Definition upd_d_mmio (f : (list (Z * option Z)) → (list (Z * option Z))) (d : devs) : devs :=
  mkDevs (d_cons d) (d_uart d) (d_panicked d) (d_locking d) (d_vdisk d) (d_devsw d)
    (d_started d) (f (d_mmio d)).

(** At boot: [.bss] is zero. *)
Definition cons0 : console := mkCons (replicate (Z.to_nat INPUT_BUF) 0) 0 0 0.
Definition uart0 : uart := mkUart (replicate (Z.to_nat UART_TX_BUF_SIZE) 0) 0 0.
Definition desc0 : vdesc := mkDesc Dma_null 0 0 0.
Definition vdisk0 : vdisk :=
  mkVdisk (replicate (Z.to_nat NUM) desc0) 0 (replicate (Z.to_nat NUM) 0) 0
    (replicate (Z.to_nat NUM) 0) (replicate (Z.to_nat NUM) 0) 0 (replicate (Z.to_nat NUM) None)
    (replicate (Z.to_nat NUM) 0) (replicate (Z.to_nat NUM) (mkReq 0 0 0)).
Definition devs0 : devs := mkDevs cons0 uart0 0 0 vdisk0 [] 0 [].
