(* ===== verification/Machine.v ===== *)
(** * The machine state of the kernel

    The hart's registers, physical memory and the C globals of the modelled
    files, as one record; a kernel function is a computation over it.  The
    per-file globals keep their C names. *)

From stdpp Require Import gmap list strings.
From Stdlib Require Import ZArith Lia.
From S2P Require Import Prelude Mem Params FsData DevData.
#[local] Open Scope Z_scope.

(** ** Locks, cpus and registers *)

(** The spinlocks of the kernel, by the variable that holds them. *)
Inductive lockid : Type :=
| LK_kmem | LK_krefs | LK_pid | LK_wait | LK_ticks
| LK_bcache | LK_log | LK_itable | LK_ftable
| LK_cons | LK_uart | LK_pr | LK_vdisk
| LK_proc (i : nat)
| LK_sleep (s : slid)
| LK_pipe (pi : Z).
#[export] Instance lockid_eq_dec : EqDecision lockid.
Proof. solve_decision. Defined.
#[export] Instance lockid_countable : Countable lockid.
Proof.
  refine (inj_countable'
    (λ lk, match lk with
           | LK_kmem => inl (inl 0%nat) | LK_krefs => inl (inl 1%nat)
           | LK_pid => inl (inl 2%nat) | LK_wait => inl (inl 3%nat)
           | LK_ticks => inl (inl 4%nat) | LK_bcache => inl (inl 5%nat)
           | LK_log => inl (inl 6%nat) | LK_itable => inl (inl 7%nat)
           | LK_ftable => inl (inl 8%nat) | LK_cons => inl (inl 9%nat)
           | LK_uart => inl (inl 10%nat) | LK_pr => inl (inl 11%nat)
           | LK_vdisk => inl (inl 12%nat) | LK_proc i => inl (inr i)
           | LK_sleep s => inr (inl s) | LK_pipe p => inr (inr p)
           end : (nat + nat) + (slid + Z))
    (λ x, match x with
          | inl (inl 0%nat) => LK_kmem | inl (inl 1%nat) => LK_krefs
          | inl (inl 2%nat) => LK_pid | inl (inl 3%nat) => LK_wait
          | inl (inl 4%nat) => LK_ticks | inl (inl 5%nat) => LK_bcache
          | inl (inl 6%nat) => LK_log | inl (inl 7%nat) => LK_itable
          | inl (inl 8%nat) => LK_ftable | inl (inl 9%nat) => LK_cons
          | inl (inl 10%nat) => LK_uart | inl (inl 11%nat) => LK_pr
          | inl (inl _) => LK_vdisk | inl (inr i) => LK_proc i
          | inr (inl s) => LK_sleep s | inr (inr p) => LK_pipe p
          end) _).
  by intros [].
Defined.

(** struct spinlock; [lk_cpu] is the index of the holder in [cpus], if any. *)
Record spinlock : Type := mkLock {
  lk_locked : Z;
  lk_name : string;
  lk_cpu : option nat;
}.

(** What a process can sleep on: the address of one of these objects. *)
Inductive chan : Type :=
| Ch_proc (i : nat)
| Ch_ticks
| Ch_sleep (s : slid)
| Ch_log
| Ch_nread (pi : Z)
| Ch_nwrite (pi : Z)
| Ch_cons
| Ch_uart
| Ch_vdisk
| Ch_buf (b : nat).
#[export] Instance chan_eq_dec : EqDecision chan.
Proof. solve_decision. Defined.

(** struct cpu (kernel/proc.h); the saved scheduler context is not used by the
    modelled code. *)
Record cpu : Type := mkCpu {
  cproc : option nat;
  noff : Z;
  intena : Z;
}.

Definition upd_cproc (f : (option nat) → (option nat)) (c : cpu) : cpu :=
  mkCpu (f (cproc c)) (noff c) (intena c).
Definition upd_noff (f : Z → Z) (c : cpu) : cpu :=
  mkCpu (cproc c) (f (noff c)) (intena c).
Definition upd_intena (f : Z → Z) (c : cpu) : cpu :=
  mkCpu (cproc c) (noff c) (f (intena c)).

(** The supervisor registers of the running hart (kernel/riscv.h). *)
Record csrs : Type := mkCsrs {
  sstatus : Z;
  sepc : Z;
  scause : Z;
  stval : Z;
  stvec : Z;
  satp : Z;
  sip : Z;
  tp : Z;
}.

Definition upd_sstatus (f : Z → Z) (c : csrs) : csrs :=
  mkCsrs (f (sstatus c)) (sepc c) (scause c) (stval c) (stvec c) (satp c) (sip c) (tp c).
Definition upd_sepc (f : Z → Z) (c : csrs) : csrs :=
  mkCsrs (sstatus c) (f (sepc c)) (scause c) (stval c) (stvec c) (satp c) (sip c) (tp c).
Definition upd_scause (f : Z → Z) (c : csrs) : csrs :=
  mkCsrs (sstatus c) (sepc c) (f (scause c)) (stval c) (stvec c) (satp c) (sip c) (tp c).
Definition upd_stval (f : Z → Z) (c : csrs) : csrs :=
  mkCsrs (sstatus c) (sepc c) (scause c) (f (stval c)) (stvec c) (satp c) (sip c) (tp c).
Definition upd_stvec (f : Z → Z) (c : csrs) : csrs :=
  mkCsrs (sstatus c) (sepc c) (scause c) (stval c) (f (stvec c)) (satp c) (sip c) (tp c).
Definition upd_satp (f : Z → Z) (c : csrs) : csrs :=
  mkCsrs (sstatus c) (sepc c) (scause c) (stval c) (stvec c) (f (satp c)) (sip c) (tp c).
Definition upd_sip (f : Z → Z) (c : csrs) : csrs :=
  mkCsrs (sstatus c) (sepc c) (scause c) (stval c) (stvec c) (satp c) (f (sip c)) (tp c).
Definition upd_tp (f : Z → Z) (c : csrs) : csrs :=
  mkCsrs (sstatus c) (sepc c) (scause c) (stval c) (stvec c) (satp c) (sip c) (f (tp c)).

(** The state of locks and harts: what acquire() and release() work on. *)
Record harts : Type := mkHarts {
  locks : gmap lockid spinlock;
  cpus : list cpu;
  csr : csrs;
}.

Definition upd_locks (f : (gmap lockid spinlock) → (gmap lockid spinlock)) (h : harts) : harts :=
  mkHarts (f (locks h)) (cpus h) (csr h).
Definition upd_cpus (f : (list cpu) → (list cpu)) (h : harts) : harts :=
  mkHarts (locks h) (f (cpus h)) (csr h).
Definition upd_csr (f : csrs → csrs) (h : harts) : harts :=
  mkHarts (locks h) (cpus h) (f (csr h)).

(** ** Processes (kernel/proc.h) *)

Inductive procstate : Type := UNUSED | USED | SLEEPING | RUNNABLE | RUNNING | ZOMBIE.
#[export] Instance procstate_eq_dec : EqDecision procstate.
Proof. solve_decision. Defined.

(** struct context: return address, stack pointer and s0..s11. *)
Record context : Type := mkContext {
  ctx_ra : Z;
  ctx_sp : Z;
  ctx_s : list Z;
}.

(** struct proc.  Pointers to table entries ([parent], [ofile], [cwd]) are
    table indices; [None] is the null pointer.  The trapframe is a page of
    physical memory. *)
Record proc : Type := mkProc {
  p_state : procstate;
  p_chan : option chan;
  p_killed : Z;
  p_xstate : Z;
  p_pid : Z;
  p_parent : option nat;
  p_kstack : Z;
  p_sz : Z;
  p_pagetable : Z;
  p_trapframe : Z;
  p_context : context;
  p_ofile : list (option nat);
  p_cwd : option nat;
  p_name : list Z;
}.

Definition upd_p_state (f : procstate → procstate) (p : proc) : proc :=
  mkProc (f (p_state p)) (p_chan p) (p_killed p) (p_xstate p) (p_pid p) (p_parent p)
    (p_kstack p) (p_sz p) (p_pagetable p) (p_trapframe p) (p_context p) (p_ofile p)
    (p_cwd p) (p_name p).
Definition upd_p_chan (f : (option chan) → (option chan)) (p : proc) : proc :=
  mkProc (p_state p) (f (p_chan p)) (p_killed p) (p_xstate p) (p_pid p) (p_parent p)
    (p_kstack p) (p_sz p) (p_pagetable p) (p_trapframe p) (p_context p) (p_ofile p)
    (p_cwd p) (p_name p).
Definition upd_p_killed (f : Z → Z) (p : proc) : proc :=
  mkProc (p_state p) (p_chan p) (f (p_killed p)) (p_xstate p) (p_pid p) (p_parent p)
    (p_kstack p) (p_sz p) (p_pagetable p) (p_trapframe p) (p_context p) (p_ofile p)
    (p_cwd p) (p_name p).
Definition upd_p_xstate (f : Z → Z) (p : proc) : proc :=
  mkProc (p_state p) (p_chan p) (p_killed p) (f (p_xstate p)) (p_pid p) (p_parent p)
    (p_kstack p) (p_sz p) (p_pagetable p) (p_trapframe p) (p_context p) (p_ofile p)
    (p_cwd p) (p_name p).
Definition upd_p_pid (f : Z → Z) (p : proc) : proc :=
  mkProc (p_state p) (p_chan p) (p_killed p) (p_xstate p) (f (p_pid p)) (p_parent p)
    (p_kstack p) (p_sz p) (p_pagetable p) (p_trapframe p) (p_context p) (p_ofile p)
    (p_cwd p) (p_name p).
Definition upd_p_parent (f : (option nat) → (option nat)) (p : proc) : proc :=
  mkProc (p_state p) (p_chan p) (p_killed p) (p_xstate p) (p_pid p) (f (p_parent p))
    (p_kstack p) (p_sz p) (p_pagetable p) (p_trapframe p) (p_context p) (p_ofile p)
    (p_cwd p) (p_name p).
Definition upd_p_kstack (f : Z → Z) (p : proc) : proc :=
  mkProc (p_state p) (p_chan p) (p_killed p) (p_xstate p) (p_pid p) (p_parent p)
    (f (p_kstack p)) (p_sz p) (p_pagetable p) (p_trapframe p) (p_context p) (p_ofile p)
    (p_cwd p) (p_name p).
Definition upd_p_sz (f : Z → Z) (p : proc) : proc :=
  mkProc (p_state p) (p_chan p) (p_killed p) (p_xstate p) (p_pid p) (p_parent p)
    (p_kstack p) (f (p_sz p)) (p_pagetable p) (p_trapframe p) (p_context p) (p_ofile p)
    (p_cwd p) (p_name p).
Definition upd_p_pagetable (f : Z → Z) (p : proc) : proc :=
  mkProc (p_state p) (p_chan p) (p_killed p) (p_xstate p) (p_pid p) (p_parent p)
    (p_kstack p) (p_sz p) (f (p_pagetable p)) (p_trapframe p) (p_context p) (p_ofile p)
    (p_cwd p) (p_name p).
Definition upd_p_trapframe (f : Z → Z) (p : proc) : proc :=
  mkProc (p_state p) (p_chan p) (p_killed p) (p_xstate p) (p_pid p) (p_parent p)
    (p_kstack p) (p_sz p) (p_pagetable p) (f (p_trapframe p)) (p_context p) (p_ofile p)
    (p_cwd p) (p_name p).
Definition upd_p_context (f : context → context) (p : proc) : proc :=
  mkProc (p_state p) (p_chan p) (p_killed p) (p_xstate p) (p_pid p) (p_parent p)
    (p_kstack p) (p_sz p) (p_pagetable p) (p_trapframe p) (f (p_context p)) (p_ofile p)
    (p_cwd p) (p_name p).
Definition upd_p_ofile (f : (list (option nat)) → (list (option nat))) (p : proc) : proc :=
  mkProc (p_state p) (p_chan p) (p_killed p) (p_xstate p) (p_pid p) (p_parent p)
    (p_kstack p) (p_sz p) (p_pagetable p) (p_trapframe p) (p_context p) (f (p_ofile p))
    (p_cwd p) (p_name p).
Definition upd_p_cwd (f : (option nat) → (option nat)) (p : proc) : proc :=
  mkProc (p_state p) (p_chan p) (p_killed p) (p_xstate p) (p_pid p) (p_parent p)
    (p_kstack p) (p_sz p) (p_pagetable p) (p_trapframe p) (p_context p) (p_ofile p)
    (f (p_cwd p)) (p_name p).
Definition upd_p_name (f : (list Z) → (list Z)) (p : proc) : proc :=
  mkProc (p_state p) (p_chan p) (p_killed p) (p_xstate p) (p_pid p) (p_parent p)
    (p_kstack p) (p_sz p) (p_pagetable p) (p_trapframe p) (p_context p) (p_ofile p)
    (p_cwd p) (f (p_name p)).

(** ** The kernel *)

Record kernel : Type := mkKernel {
  ram : mem;
  hs : harts;
  freelist : Z;
  krefs : gmap Z Z;
  procs : list proc;
  nextpid : Z;
  initproc : option nat;
  ticks : Z;
  kernel_pagetable : Z;
  fs : fsys;
  dev : devs;
}.

Definition upd_ram (f : mem → mem) (k : kernel) : kernel :=
  mkKernel (f (ram k)) (hs k) (freelist k) (krefs k) (procs k) (nextpid k) (initproc k)
    (ticks k) (kernel_pagetable k) (fs k) (dev k).
Definition upd_hs (f : harts → harts) (k : kernel) : kernel :=
  mkKernel (ram k) (f (hs k)) (freelist k) (krefs k) (procs k) (nextpid k) (initproc k)
    (ticks k) (kernel_pagetable k) (fs k) (dev k).
Definition upd_freelist (f : Z → Z) (k : kernel) : kernel :=
  mkKernel (ram k) (hs k) (f (freelist k)) (krefs k) (procs k) (nextpid k) (initproc k)
    (ticks k) (kernel_pagetable k) (fs k) (dev k).
Definition upd_krefs (f : (gmap Z Z) → (gmap Z Z)) (k : kernel) : kernel :=
  mkKernel (ram k) (hs k) (freelist k) (f (krefs k)) (procs k) (nextpid k) (initproc k)
    (ticks k) (kernel_pagetable k) (fs k) (dev k).
Definition upd_procs (f : (list proc) → (list proc)) (k : kernel) : kernel :=
  mkKernel (ram k) (hs k) (freelist k) (krefs k) (f (procs k)) (nextpid k) (initproc k)
    (ticks k) (kernel_pagetable k) (fs k) (dev k).
Definition upd_nextpid (f : Z → Z) (k : kernel) : kernel :=
  mkKernel (ram k) (hs k) (freelist k) (krefs k) (procs k) (f (nextpid k)) (initproc k)
    (ticks k) (kernel_pagetable k) (fs k) (dev k).
Definition upd_initproc (f : (option nat) → (option nat)) (k : kernel) : kernel :=
  mkKernel (ram k) (hs k) (freelist k) (krefs k) (procs k) (nextpid k) (f (initproc k))
    (ticks k) (kernel_pagetable k) (fs k) (dev k).
Definition upd_ticks (f : Z → Z) (k : kernel) : kernel :=
  mkKernel (ram k) (hs k) (freelist k) (krefs k) (procs k) (nextpid k) (initproc k)
    (f (ticks k)) (kernel_pagetable k) (fs k) (dev k).
Definition upd_kernel_pagetable (f : Z → Z) (k : kernel) : kernel :=
  mkKernel (ram k) (hs k) (freelist k) (krefs k) (procs k) (nextpid k) (initproc k)
    (ticks k) (f (kernel_pagetable k)) (fs k) (dev k).
Definition upd_fs (f : fsys → fsys) (k : kernel) : kernel :=
  mkKernel (ram k) (hs k) (freelist k) (krefs k) (procs k) (nextpid k) (initproc k)
    (ticks k) (kernel_pagetable k) (f (fs k)) (dev k).
Definition upd_dev (f : devs → devs) (k : kernel) : kernel :=
  mkKernel (ram k) (hs k) (freelist k) (krefs k) (procs k) (nextpid k) (initproc k)
    (ticks k) (kernel_pagetable k) (fs k) (f (dev k)).

Abbreviation K := (M kernel).

(** A lock variable; one that was never initialised is zero, as [.bss] is. *)
Definition lock_of (h : harts) (lk : lockid) : spinlock :=
  default (mkLock 0 EmptyString None) (locks h !! lk).
Definition set_lock (lk : lockid) (l : spinlock) : harts → harts := upd_locks <[lk := l]>.

(** Run a routine that works on the lock and hart state only. *)
Definition on_hs {A} (m : M harts A) : K A := λ k,
  match m (hs k) with
  | Ok a h => Ok a (upd_hs (λ _, h) k)
  | Panic msg h => Panic msg (upd_hs (λ _, h) k)
  | Diverge => Diverge
  end.

(** Run a routine that works on physical memory only. *)
Definition on_ram {A} (m : M mem A) : K A := λ k,
  match m (ram k) with
  | Ok a r => Ok a (upd_ram (λ _, r) k)
  | Panic msg r => Panic msg (upd_ram (λ _, r) k)
  | Diverge => Diverge
  end.

(** Loads and stores. *)
Definition load64 (a : Z) : K Z := gets (λ k, ld64 (ram k) a).
Definition store64 (a v : Z) : K unit := modify (upd_ram (λ r, st64 r a v)).

Lemma wp_on_hs {A} (m : M harts A) k Q :
  wp m (hs k) (λ a h, Q a (upd_hs (λ _, h) k)) → wp (on_hs m) k Q.
Proof. unfold wp, on_hs. by destruct (m (hs k)). Qed.

Lemma wp_on_ram {A} (m : M mem A) k Q :
  wp m (ram k) (λ a r, Q a (upd_ram (λ _, r) k)) → wp (on_ram m) k Q.
Proof. unfold wp, on_ram. by destruct (m (ram k)). Qed.

Lemma wp_load64 a k Q : Q (ld64 (ram k) a) k → wp (load64 a) k Q.
Proof. done. Qed.

Lemma wp_store64 a v k Q : Q tt (upd_ram (λ r, st64 r a v) k) → wp (store64 a v) k Q.
Proof. done. Qed.

Ltac wp_mem :=
  lazymatch goal with
  | |- wp (load64 _) _ _ => apply wp_load64
  | |- wp (store64 _ _) _ _ => apply wp_store64
  end.
Ltac wp_prim ::= wp_mem.
