(* ===== verification/Spinlock.v ===== *)
(** * Interrupt control and spinlocks (kernel/spinlock.c, kernel/riscv.h)

    The calls are modelled as the running hart executes them.  A spin on a lock
    another hart holds does not end while that hart does nothing, so it
    diverges; mutual exclusion between several harts is the subject of
    SpinlockConc. *)

From stdpp Require Import gmap list strings.
From Stdlib Require Import ZArith Lia.
From S2P Require Import Prelude Mem Params Machine.
#[local] Open Scope Z_scope.

(** ** Definitions *)

Abbreviation H := (M harts).

(** Registers: [r_sstatus], [w_sstatus] and [r_tp]. *)
Definition r_sstatus : H Z := gets (λ h, sstatus (csr h)).
Definition w_sstatus (x : Z) : H unit := modify (upd_csr (upd_sstatus (λ _, x))).
Definition r_tp : H Z := gets (λ h, tp (csr h)).

Definition intr_on : H unit := x ← r_sstatus; w_sstatus (Z.lor x SSTATUS_SIE).
Definition intr_off : H unit := x ← r_sstatus; w_sstatus (Z.land x (Z.lnot SSTATUS_SIE)).
Definition intr_get : H Z :=
  x ← r_sstatus; mret (if nz (Z.land x SSTATUS_SIE) then 1 else 0).

Definition cpuid : H Z := id ← r_tp; mret (s32 id).

(** The running cpu, as an index into [cpus]. *)
Definition mycpu : H nat := id ← cpuid; mret (Z.to_nat id).

Definition cpu0 : cpu := mkCpu None 0 0.
Definition get_cpu {A} (f : cpu → A) : H A :=
  c ← mycpu; gets (λ h, f (default cpu0 (cpus h !! c))).
Definition set_cpu (f : cpu → cpu) : H unit :=
  c ← mycpu; modify (upd_cpus (alter f c)).

Definition push_off : H unit :=
  old ← intr_get;
  intr_off;;
  n ← get_cpu noff;
  when (n =? 0) (set_cpu (upd_intena (λ _, old)));;
  set_cpu (upd_noff (λ n, s32 (n + 1))).

Definition pop_off : H unit :=
  on ← intr_get;
  if nz on then panic "pop_off - interruptible" else
  n ← get_cpu noff;
  if n <? 1 then panic "pop_off" else
  set_cpu (upd_noff (λ n, s32 (n - 1)));;
  n ← get_cpu noff;
  i ← get_cpu intena;
  when ((n =? 0) && nz i) intr_on.

Definition initlock_h (lk : lockid) (name : string) : H unit :=
  modify (set_lock lk (mkLock 0 name None)).

Definition holding (lk : lockid) : H bool :=
  l ← gets (λ h, lock_of h lk);
  if nz (lk_locked l) then c ← mycpu; mret (bool_decide (lk_cpu l = Some c))
  else mret false.

(** __sync_lock_test_and_set(&lk->locked, 1): an atomic swap. *)
Definition test_and_set (lk : lockid) : H Z :=
  l ← gets (λ h, lock_of h lk);
  modify (set_lock lk (mkLock 1 (lk_name l) (lk_cpu l)));;
  mret (lk_locked l).

(** while(__sync_lock_test_and_set(&lk->locked, 1) != 0); *)
Definition spin (lk : lockid) : H unit :=
  loop (λ _, old ← test_and_set lk; if nz old then continue tt else break tt) tt.

Definition acquire_h (lk : lockid) : H unit :=
  push_off;;
  h ← holding lk;
  if h : bool then panic "acquire" else
  spin lk;;
  c ← mycpu;
  l ← gets (λ h, lock_of h lk);
  modify (set_lock lk (mkLock (lk_locked l) (lk_name l) (Some c))).

Definition release_h (lk : lockid) : H unit :=
  h ← holding lk;
  if negb h then panic "release" else
  l ← gets (λ h, lock_of h lk);
  modify (set_lock lk (mkLock (lk_locked l) (lk_name l) None));;
  modify (set_lock lk (mkLock 0 (lk_name l) None));;
  pop_off.

(** The calls, as the rest of the kernel makes them. *)
Definition initlock (lk : lockid) (name : string) : K unit := on_hs (initlock_h lk name).
Definition acquire (lk : lockid) : K unit := on_hs (acquire_h lk).
Definition release (lk : lockid) : K unit := on_hs (release_h lk).

(** ** Specification *)

Section spec.
Implicit Types h : harts.

Definition hart h : nat := Z.to_nat (s32 (tp (csr h))).
Definition the_cpu h : cpu := default cpu0 (cpus h !! hart h).
Definition sie h : bool := nz (Z.land (sstatus (csr h)) SSTATUS_SIE).

(** The running hart has a [struct cpu], its nesting depth has not run over,
    and interrupts are off inside a critical section. *)
Record hart_ok h : Prop := {
  ho_cpu : (hart h < length (cpus h))%nat;
  ho_noff : 0 ≤ noff (the_cpu h) < 2 ^ 31 - 1;
  ho_off : 0 < noff (the_cpu h) → sie h = false;
}.

(** The lock is free, as initlock() and release() leave it. *)
Definition lock_free (lk : lockid) h : Prop :=
  lk_locked (lock_of h lk) = 0 ∧ lk_cpu (lock_of h lk) = None.

(** Two hart states that code cannot tell apart: [intena] counts only inside
    a critical section (push_off sets it on the way in). *)
Definition cpu_eq (c c' : cpu) : Prop :=
  cproc c = cproc c' ∧ noff c = noff c' ∧ (0 < noff c → intena c = intena c').
Record hs_eq h h' : Prop := {
  he_locks : ∀ lk, lock_of h lk = lock_of h' lk;
  he_cpus : Forall2 cpu_eq (cpus h) (cpus h');
  he_csr : csr h = csr h';
}.

(** What acquire() and release() do to a hart state. *)
Definition acq (lk : lockid) h : harts :=
  set_lock lk (mkLock 1 (lk_name (lock_of h lk)) (Some (hart h)))
    (mkHarts (locks h)
      (alter (λ c, mkCpu (cproc c) (noff c + 1)
                     (if noff c =? 0 then (if sie h then 1 else 0) else intena c))
         (hart h) (cpus h))
      (upd_sstatus (λ x, Z.land x (Z.lnot SSTATUS_SIE)) (csr h))).
Definition rel (lk : lockid) h : harts :=
  let c := the_cpu h in
  set_lock lk (mkLock 0 (lk_name (lock_of h lk)) None)
    (mkHarts (locks h)
      (alter (upd_noff (λ n, n - 1)) (hart h) (cpus h))
      (if (noff c - 1 =? 0) && nz (intena c)
       then upd_sstatus (λ x, Z.lor x SSTATUS_SIE) (csr h) else csr h)).
End spec.

(** ** The interrupt bit *)

Lemma sie_off x : nz (Z.land (Z.land x (Z.lnot SSTATUS_SIE)) SSTATUS_SIE) = false.
Proof.
  rewrite <-Z.land_assoc, (Z.land_comm (Z.lnot _)), Z.land_lnot_diag, Z.land_0_r. done.
Qed.

Lemma nz_land_bit x i : 0 ≤ i → nz (Z.land x (Z.shiftl 1 i)) = Z.testbit x i.
Proof.
  intros Hi. rewrite Z.shiftl_1_l. unfold nz.
  destruct (Z.testbit x i) eqn:E.
  - destruct (Z.eqb_spec (Z.land x (2 ^ i)) 0) as [H|]; [|done].
    apply (f_equal (λ y, Z.testbit y i)) in H.
    rewrite Z.land_spec, Z.pow2_bits_true, E, Z.bits_0 in H by lia. done.
  - destruct (Z.eqb_spec (Z.land x (2 ^ i)) 0) as [|H]; [done|]. destruct H.
    apply Z.bits_inj'. intros n Hn. rewrite Z.land_spec, Z.bits_0.
    destruct (decide (n = i)) as [->|]; [by rewrite E|].
    rewrite Z.pow2_bits_false by lia. apply andb_false_r.
Qed.

Lemma sie_on x : nz (Z.land (Z.lor x SSTATUS_SIE) SSTATUS_SIE) = true.
Proof.
  unfold SSTATUS_SIE. rewrite nz_land_bit by lia. rewrite Z.shiftl_1_l, Z.lor_spec, Z.pow2_bits_true by lia. apply orb_true_r.
Qed.

(** Turning interrupts off and, if they were on, on again restores sstatus. *)
Lemma sie_restore x :
  (if nz (Z.land x SSTATUS_SIE)
   then Z.lor (Z.land x (Z.lnot SSTATUS_SIE)) SSTATUS_SIE
   else Z.land x (Z.lnot SSTATUS_SIE)) = x.
Proof.
  unfold SSTATUS_SIE. rewrite nz_land_bit by lia. rewrite Z.shiftl_1_l.
  apply Z.bits_inj'. intros n Hn. destruct (Z.testbit x 1) eqn:E;
    rewrite ?Z.lor_spec, Z.land_spec, Z.lnot_spec by lia;
    (destruct (decide (n = 1)) as [->|];
     [by rewrite Z.pow2_bits_true, E by lia
     |rewrite Z.pow2_bits_false by lia; by destruct (Z.testbit x n)]).
Qed.

(** ** Equivalent hart states *)

#[export] Instance cpu_eq_equivalence : Equivalence cpu_eq.
Proof.
  unfold cpu_eq. split.
  - done.
  - intros c c' (? & E & ?). rewrite <-E. naive_solver.
  - intros c1 c2 c3 (? & E & ?) (? & E' & ?). rewrite E in *. naive_solver congruence.
Qed.

#[export] Instance hs_eq_equivalence : Equivalence hs_eq.
Proof.
  split.
  - intros h. by split.
  - intros h h' [H1 H2 H3]. split; [done|by symmetry|done].
  - intros h1 h2 h3 [H1 H2 H3] [G1 G2 G3]. split; [|by etrans|congruence].
    intros. by rewrite H1.
Qed.

Lemma hs_eq_hart h h' : hs_eq h h' → hart h = hart h'.
Proof. intros [_ _ H]. unfold hart. by rewrite H. Qed.

Lemma hs_eq_cpu h h' : hs_eq h h' → cpu_eq (the_cpu h) (the_cpu h').
Proof.
  intros H. unfold the_cpu. rewrite <-(hs_eq_hart _ _ H).
  pose proof (Forall2_length _ _ _ (he_cpus _ _ H)) as Hl.
  destruct (cpus h !! hart h) eqn:E, (cpus h' !! hart h) eqn:E'; simpl.
  - eapply Forall2_lookup_lr; [apply H|done|done].
  - apply lookup_lt_Some in E. apply lookup_ge_None in E'. lia.
  - apply lookup_lt_Some in E'. apply lookup_ge_None in E. lia.
  - done.
Qed.

#[export] Instance hart_ok_proper : Proper (hs_eq ==> iff) hart_ok.
Proof.
  assert (∀ h h', hs_eq h h' → hart_ok h → hart_ok h') as H.
  { intros h h' He [H1 H2 H3]. destruct (hs_eq_cpu _ _ He) as (?&E&?).
    split; [|by rewrite <-E|].
    - rewrite <-(hs_eq_hart _ _ He), <-(Forall2_length _ _ _ (he_cpus _ _ He)). done.
    - unfold sie in *. rewrite <-(he_csr _ _ He), <-E. done. }
  intros h h' He. split; apply H; [done|by symmetry].
Qed.

#[export] Instance lock_free_proper lk : Proper (hs_eq ==> iff) (lock_free lk).
Proof. intros h h' He. unfold lock_free. by rewrite (he_locks _ _ He). Qed.

Lemma lock_of_set lk l h lk' :
  lock_of (set_lock lk l h) lk' = if decide (lk = lk') then l else lock_of h lk'.
Proof.
  unfold lock_of, set_lock. simpl. rewrite lookup_insert. by case_decide.
Qed.

Lemma set_lock_set lk l l' h : set_lock lk l (set_lock lk l' h) = set_lock lk l h.
Proof. unfold set_lock, upd_locks. simpl. by rewrite insert_insert_eq. Qed.

Lemma rel_acq lk h : hart_ok h → lock_free lk h → hs_eq (rel lk (acq lk h)) h.
Proof.
  intros [Hc Hn Ho] [Hf1 Hf2].
  assert (the_cpu (acq lk h) = mkCpu (cproc (the_cpu h)) (noff (the_cpu h) + 1)
            (if noff (the_cpu h) =? 0 then (if sie h then 1 else 0) else intena (the_cpu h)))
    as Ec.
  { unfold the_cpu, acq. simpl. change (hart _) with (hart h) at 1.
    rewrite list_lookup_alter_eq. by destruct (lookup_lt_is_Some_2 _ _ Hc) as [c ->]. }
  split.
  - intros lk'. unfold rel, acq. rewrite lock_of_set. case_decide; [|].
    + subst lk'. rewrite lock_of_set. case_decide; [|done]. simpl.
      destruct (lock_of h lk); simpl in *. by subst.
    + unfold lock_of. simpl. by rewrite lookup_insert_ne.
  - unfold rel. simpl. change (hart (acq lk h)) with (hart h).
    unfold acq. simpl. apply Forall2_same_length_lookup_2; [by rewrite !length_alter|].
    intros i c c' Hi Hi'. destruct (decide (hart h = i)) as [<-|Hne].
    + rewrite !list_lookup_alter_eq, Hi' in Hi. simpl in Hi. injection Hi as <-.
      unfold the_cpu in *. rewrite Hi' in *. simpl in *. unfold cpu_eq. simpl.
      split_and!; [done|lia|]. intros. destruct (Z.eqb_spec (noff c') 0); [lia|done].
    + rewrite !list_lookup_alter_ne in Hi by done. by simplify_eq.
  - unfold rel. rewrite Ec. simpl. unfold sie in *.
    replace (noff (the_cpu h) + 1 - 1) with (noff (the_cpu h)) by lia.
    pose proof (sie_restore (sstatus (csr h))) as Hr.
    destruct (csr h) as [x ? ? ? ? ? ? ?] eqn:Ecsr; unfold upd_sstatus in *; simpl in *.
    destruct (Z.eqb_spec (noff (the_cpu h)) 0) as [E|E]; simpl.
    + destruct (nz (Z.land x SSTATUS_SIE)); simpl; by rewrite Hr.
    + rewrite Ho in Hr by lia. by rewrite Hr.
Qed.

(** ** acquire() and release() *)

#[local] Ltac unfold_h :=
  unfold acquire_h, release_h, push_off, pop_off, holding, test_and_set, intr_get, intr_on,
    intr_off, get_cpu, set_cpu, mycpu, cpuid, r_tp, r_sstatus, w_sstatus, gets, modify, when,
    mbind, M_bind, mret, M_ret; simpl.

(** push_off() on a hart state: the part of [acq] that is not the lock. *)
Definition pushed (h : harts) : harts :=
  mkHarts (locks h)
    (alter (λ c, mkCpu (cproc c) (noff c + 1)
                   (if noff c =? 0 then (if sie h then 1 else 0) else intena c))
       (hart h) (cpus h))
    (upd_sstatus (λ x, Z.land x (Z.lnot SSTATUS_SIE)) (csr h)).

Lemma push_off_eq h : hart_ok h → push_off h = Ok tt (pushed h).
Proof.
  destruct h as [L C R]. intros [Hc Hn _].
  unfold the_cpu in Hn. unfold pushed, hart in *. simpl in *.
  destruct (lookup_lt_is_Some_2 _ _ Hc) as [c Hl]. rewrite Hl in Hn. simpl in Hn.
  unfold_h. unfold upd_cpus, upd_csr. simpl. rewrite Hl. simpl.
  destruct (Z.eqb_spec (noff c) 0) as [E|E]; simpl; do 2 f_equal.
  - rewrite list_alter_alter_eq. eapply list_alter_at; [done|]. simpl.
    unfold upd_noff, upd_intena. simpl. rewrite E. rewrite s32_small by lia. done.
  - eapply list_alter_at; [done|]. unfold upd_noff. simpl. rewrite s32_small by lia.
    destruct (Z.eqb_spec (noff c) 0); [lia|done].
Qed.

Lemma lock_of_set_eq lk l h : lock_of (set_lock lk l h) lk = l.
Proof. rewrite lock_of_set. by case_decide. Qed.

(** The spin loop leaves at once when the lock is free. *)
Lemma spin_free lk h :
  lk_locked (lock_of h lk) = 0 →
  spin lk h =
    Ok tt (set_lock lk (mkLock 1 (lk_name (lock_of h lk)) (lk_cpu (lock_of h lk))) h).
Proof.
  intros Hf.
  assert (wp (spin lk) h
    (λ _ h', h' = set_lock lk (mkLock 1 (lk_name (lock_of h lk)) (lk_cpu (lock_of h lk))) h))
    as Hw.
  { unfold spin. apply (wp_loop _ (λ _ h', h' = h) (λ _ _, 0)); [|done|lia].
    intros [] ? ->. unfold test_and_set. wp_pure. by rewrite Hf. }
  apply wp_iff in Hw as ([] & ? & -> & ->). done.
Qed.

Lemma acquire_h_eq lk h :
  hart_ok h → lock_free lk h → acquire_h lk h = Ok tt (acq lk h).
Proof.
  intros Hok [Hf1 Hf2]. unfold acquire_h. unfold mbind, M_bind.
  rewrite push_off_eq by done. unfold holding, gets, mbind, M_bind.
  change (lock_of (pushed h) lk) with (lock_of h lk).
  rewrite Hf1. change (nz 0) with false. cbn iota beta.
  unfold mret, M_ret. rewrite spin_free by done.
  change (lock_of (pushed h) lk) with (lock_of h lk).
  unfold mycpu, cpuid, r_tp, gets, mbind, M_bind, mret, M_ret, modify.
  rewrite lock_of_set_eq. simpl. rewrite set_lock_set. done.
Qed.

(** Inside the critical section the running hart holds the lock. *)
Lemma acq_cpu lk h :
  hart_ok h →
  cpus (acq lk h) !! hart h = Some (mkCpu (cproc (the_cpu h)) (noff (the_cpu h) + 1)
    (if noff (the_cpu h) =? 0 then (if sie h then 1 else 0) else intena (the_cpu h))).
Proof.
  intros [Hc _ _]. unfold acq, the_cpu. simpl. rewrite list_lookup_alter_eq.
  by destruct (lookup_lt_is_Some_2 _ _ Hc) as [c ->].
Qed.

(** pop_off() on a hart state: the part of [rel] that is not the lock. *)
Definition popped (h : harts) : harts :=
  let c := the_cpu h in
  mkHarts (locks h)
    (alter (upd_noff (λ n, n - 1)) (hart h) (cpus h))
    (if (noff c - 1 =? 0) && nz (intena c)
     then upd_sstatus (λ x, Z.lor x SSTATUS_SIE) (csr h) else csr h).

Lemma pop_off_eq g c :
  cpus g !! hart g = Some c → 1 ≤ noff c < 2 ^ 31 → sie g = false →
  pop_off g = Ok tt (popped g).
Proof.
  intros Hl Hn Es. unfold popped, the_cpu. rewrite Hl. simpl.
  destruct g as [L C R]. unfold hart, sie in *. simpl in *.
  unfold pop_off, intr_get, r_sstatus, gets, mbind, M_bind, mret, M_ret. simpl.
  rewrite Es. simpl.
  unfold get_cpu, set_cpu, mycpu, cpuid, r_tp, gets, mbind, M_bind, mret, M_ret. simpl.
  rewrite Hl. simpl. destruct (Z.ltb_spec (noff c) 1); [lia|].
  unfold modify, upd_cpus. simpl. rewrite list_lookup_alter_eq, Hl. simpl.
  rewrite s32_small by lia.
  assert (alter (upd_noff (λ n, s32 (n - 1))) (Z.to_nat (s32 (tp R))) C =
          alter (upd_noff (λ n, n - 1)) (Z.to_nat (s32 (tp R))) C) as ->.
  { eapply list_alter_at; [done|]. unfold upd_noff. by rewrite s32_small by lia. }
  unfold when. by destruct ((noff c - 1 =? 0) && _).
Qed.

(** release() of a lock the running hart holds. *)
Lemma release_held lk g c :
  nz (lk_locked (lock_of g lk)) = true → lk_cpu (lock_of g lk) = Some (hart g) →
  cpus g !! hart g = Some c → 1 ≤ noff c < 2 ^ 31 → sie g = false →
  release_h lk g = Ok tt (rel lk g).
Proof.
  intros El1 El2 Hl Hn Es.
  unfold release_h, holding, gets, mbind, M_bind. rewrite El1, El2. simpl.
  unfold mycpu, cpuid, r_tp, gets, mbind, M_bind, mret, M_ret.
  rewrite bool_decide_true by done. simpl. unfold modify. rewrite set_lock_set.
  by rewrite (pop_off_eq _ c).
Qed.

Lemma release_h_eq lk h :
  hart_ok h → release_h lk (acq lk h) = Ok tt (rel lk (acq lk h)).
Proof.
  intros Hok. pose proof (ho_noff _ Hok).
  eapply release_held; try (unfold acq; by rewrite lock_of_set_eq).
  - change (hart (acq lk h)) with (hart h). by apply acq_cpu.
  - simpl. lia.
  - unfold sie, acq. simpl. apply sie_off.
Qed.

(** ** For the callers *)

Lemma wp_acquire lk k (Q : unit → kernel → Prop) :
  hart_ok (hs k) → lock_free lk (hs k) →
  Q tt (upd_hs (acq lk) k) → wp (acquire lk) k Q.
Proof. intros. apply wp_on_hs. unfold wp. by rewrite acquire_h_eq. Qed.

(** [h] is the hart state before the critical section, whose body has not
    touched the lock and hart state. *)
Lemma wp_release lk h k (Q : unit → kernel → Prop) :
  hart_ok h → hs k = acq lk h →
  Q tt (upd_hs (λ _, rel lk (acq lk h)) k) → wp (release lk) k Q.
Proof. intros Hok E HQ. apply wp_on_hs. unfold wp. by rewrite E, release_h_eq. Qed.

(** ** Error paths and nesting *)

(** Acquiring a lock the hart already holds, or releasing one it does not
    hold, stops the machine. *)
Lemma acquire_held lk h :
  hart_ok h → nz (lk_locked (lock_of h lk)) = true → lk_cpu (lock_of h lk) = Some (hart h) →
  panics (acquire_h lk) h "acquire".
Proof.
  intros Hok H1 H2. unfold panics, acquire_h. unfold mbind, M_bind.
  rewrite push_off_eq by done. unfold holding, gets, mbind, M_bind.
  change (lock_of (pushed h) lk) with (lock_of h lk). rewrite H1, H2.
  unfold mycpu, cpuid, r_tp, gets, mbind, M_bind, mret, M_ret.
  change (Z.to_nat (s32 (tp (csr (pushed h))))) with (hart h).
  rewrite bool_decide_true by done. eauto.
Qed.

Lemma release_not_held lk h :
  nz (lk_locked (lock_of h lk)) = false ∨ lk_cpu (lock_of h lk) ≠ Some (hart h) →
  panics (release_h lk) h "release".
Proof.
  intros Hn. unfold panics, release_h, holding, gets, mbind, M_bind.
  destruct (nz (lk_locked (lock_of h lk))) eqn:E.
  - destruct Hn as [|Hn]; [done|].
    unfold mycpu, cpuid, r_tp, gets, mbind, M_bind, mret, M_ret.
    change (Z.to_nat (s32 (tp (csr h)))) with (hart h).
    rewrite bool_decide_false by done. simpl. eauto.
  - unfold mret, M_ret. simpl. eauto.
Qed.

(** A critical section inside a critical section: the inner release leaves
    interrupts off, the outer one restores them. *)
Lemma acq_hart_ok lk h :
  hart_ok h → noff (the_cpu h) < 2 ^ 31 - 2 → hart_ok (acq lk h).
Proof.
  intros Hok Hb. pose proof (acq_cpu lk h Hok) as Hl. destruct Hok as [Hc Hn Ho].
  split.
  - change (hart (acq lk h)) with (hart h). unfold acq. simpl. by rewrite length_alter.
  - unfold the_cpu. change (hart (acq lk h)) with (hart h). rewrite Hl. simpl. lia.
  - intros _. unfold sie, acq. simpl. apply sie_off.
Qed.

Lemma acq_lock_free lk lk' h : lk ≠ lk' → lock_free lk' h → lock_free lk' (acq lk h).
Proof.
  intros Hne [H1 H2]. unfold lock_free, acq. rewrite lock_of_set.
  by destruct (decide (lk = lk')).
Qed.

(** ** Reasoning up to [hs_eq]

    A critical section whose body makes calls that restore the hart state only
    up to [hs_eq]. *)

Lemma pushed_cpu h :
  hart_ok h →
  cpus (pushed h) !! hart h = Some (mkCpu (cproc (the_cpu h)) (noff (the_cpu h) + 1)
    (if noff (the_cpu h) =? 0 then (if sie h then 1 else 0) else intena (the_cpu h))).
Proof. apply (acq_cpu LK_kmem). Qed.

Lemma popped_pushed h : hart_ok h → hs_eq (popped (pushed h)) h.
Proof.
  intros Hok.
  assert (hart_ok (set_lock LK_kmem (mkLock 0 EmptyString None) h)) as Hok'.
  { destruct Hok. by split. }
  destruct (rel_acq LK_kmem _ Hok') as [_ H2 H3]; [unfold lock_free; by rewrite lock_of_set_eq|].
  split; [done|exact H2|exact H3].
Qed.

Lemma popped_proper g g' :
  hs_eq g g' → 0 < noff (the_cpu g) → hs_eq (popped g) (popped g').
Proof.
  intros He Hn. destruct (hs_eq_cpu _ _ He) as (_ & Hn' & Hi).
  specialize (Hi Hn). destruct He as [H1 H2 H3]. split.
  - exact H1.
  - unfold popped. simpl. replace (hart g') with (hart g) by (unfold hart; by rewrite H3).
    apply Forall2_same_length_lookup_2.
    { rewrite !length_alter. by eapply Forall2_length. }
    intros i c c' Hc Hc'. destruct (decide (hart g = i)) as [<-|].
    + rewrite list_lookup_alter_eq in Hc, Hc'.
      apply fmap_Some in Hc as (d & Hd & ->). apply fmap_Some in Hc' as (d' & Hd' & ->).
      destruct (Forall2_lookup_lr _ _ _ _ _ _ H2 Hd Hd') as (? & E & Hid).
      unfold cpu_eq. simpl. split_and!; [done|lia|]. intros. apply Hid. lia.
    + rewrite list_lookup_alter_ne in Hc, Hc' by done.
      eapply Forall2_lookup_lr; [exact H2|done|done].
  - unfold popped. simpl. by rewrite Hn', Hi, H3.
Qed.

Lemma rel_proper lk g g' :
  hs_eq g g' → 0 < noff (the_cpu g) → hs_eq (rel lk g) (rel lk g').
Proof.
  intros He Hn. destruct (popped_proper g g' He Hn) as [_ H2 H3].
  split; [|exact H2|exact H3]. intros lk'. unfold rel. rewrite !lock_of_set.
  case_decide; [by rewrite (he_locks _ _ He)|]. exact (he_locks _ _ He lk').
Qed.

Lemma acq_proper lk h h' : hart_ok h → hs_eq h h' → hs_eq (acq lk h) (acq lk h').
Proof.
  intros Hok He. pose proof (hs_eq_hart _ _ He) as Hh. pose proof (ho_noff _ Hok) as Hn.
  destruct He as [H1 H2 H3]. split.
  - intros lk'. unfold acq. rewrite !lock_of_set, H1, Hh. case_decide; [done|]. apply H1.
  - unfold acq. simpl. rewrite <-Hh. unfold sie. rewrite <-H3. apply Forall2_same_length_lookup_2.
    { rewrite !length_alter. by eapply Forall2_length. }
    intros i c c' Hc Hc'. destruct (decide (hart h = i)) as [<-|].
    + rewrite list_lookup_alter_eq in Hc, Hc'. apply fmap_Some in Hc as (d & Hd & ->).
      apply fmap_Some in Hc' as (d' & Hd' & ->). unfold the_cpu in Hn. rewrite Hd in Hn. simpl in Hn.
      destruct (Forall2_lookup_lr _ _ _ _ _ _ H2 Hd Hd') as (E1 & E2 & Hid).
      unfold cpu_eq. simpl. split_and!; [done|lia|]. intros _. rewrite <-E2.
      destruct (Z.eqb_spec (noff d) 0); [done|]. apply Hid. lia.
    + rewrite list_lookup_alter_ne in Hc, Hc' by done. eapply Forall2_lookup_lr; [exact H2|done|done].
  - unfold acq. simpl. by rewrite H3.
Qed.

(** release() when the body of the critical section has restored the hart
    state up to [hs_eq]. *)
Lemma wp_release_eq lk h k (Q : unit → kernel → Prop) :
  hart_ok h → lock_free lk h → hs_eq (hs k) (acq lk h) →
  (∀ h', hs_eq h' h → Q tt (upd_hs (λ _, h') k)) → wp (release lk) k Q.
Proof.
  intros Hok Hf He HQ. pose proof (ho_noff _ Hok) as Hb. pose proof (acq_cpu lk h Hok) as Ha.
  pose proof (hs_eq_hart _ _ He) as Hh. change (hart (acq lk h)) with (hart h) in Hh.
  pose proof (hs_eq_cpu _ _ He) as (_ & Hn & _).
  unfold the_cpu in Hn at 2. change (hart (acq lk h)) with (hart h) in Hn.
  rewrite Ha in Hn. simpl in Hn.
  assert (is_Some (cpus (hs k) !! hart h)) as [c Hc].
  { apply lookup_lt_is_Some. rewrite (Forall2_length _ _ _ (he_cpus _ _ He)).
    by apply lookup_lt_Some in Ha. }
  assert (the_cpu (hs k) = c) as Ec by (unfold the_cpu; by rewrite Hh, Hc).
  apply wp_on_hs. unfold wp. rewrite (release_held lk (hs k) c).
  - apply HQ. etrans; [|by apply rel_acq]. apply rel_proper; [done|lia].
  - rewrite (he_locks _ _ He). unfold acq. by rewrite lock_of_set_eq.
  - rewrite (he_locks _ _ He), Hh. unfold acq at 1. by rewrite lock_of_set_eq.
  - by rewrite Hh.
  - rewrite <-Ec. lia.
  - unfold sie. rewrite (he_csr _ _ He). unfold acq. simpl. apply sie_off.
Qed.

(** ** Theorems *)

(** A critical section: acquire() of a free lock turns interrupts off, leaves
    the lock held by the running hart and the other locks alone; release()
    then gives back a state that code cannot tell from the one before,
    interrupts and their nesting included. *)
Theorem acquire_release_correct lk h :
  hart_ok h → lock_free lk h →
  wp (acquire_h lk) h (λ _ h1,
    lk_locked (lock_of h1 lk) = 1 ∧ lk_cpu (lock_of h1 lk) = Some (hart h1) ∧ hart h1 = hart h ∧
    sie h1 = false ∧ noff (the_cpu h1) = noff (the_cpu h) + 1 ∧
    (∀ lk', lk' ≠ lk → lock_of h1 lk' = lock_of h lk') ∧
    wp (release_h lk) h1 (λ _ h2, hs_eq h2 h)).
Proof.
  intros Hok Hf. unfold wp at 1. rewrite acquire_h_eq by done. split_and!.
  - unfold acq. by rewrite lock_of_set_eq.
  - unfold acq at 1. by rewrite lock_of_set_eq.
  - done.
  - unfold sie, acq. simpl. apply sie_off.
  - unfold the_cpu at 1. change (hart (acq lk h)) with (hart h). by rewrite acq_cpu.
  - intros lk' Hne. unfold acq. rewrite lock_of_set. by destruct (decide (lk = lk')).
  - unfold wp. rewrite release_h_eq by done. by apply rel_acq.
Qed.

(** Misuse is detected: acquiring a lock one holds panics, and so does
    releasing a lock one does not hold. *)
Theorem spinlock_misuse lk h :
  hart_ok h →
  (lk_locked (lock_of h lk) ≠ 0 → lk_cpu (lock_of h lk) = Some (hart h) →
   panics (acquire_h lk) h "acquire") ∧
  (lk_locked (lock_of h lk) = 0 ∨ lk_cpu (lock_of h lk) ≠ Some (hart h) →
   panics (release_h lk) h "release").
Proof.
  intros Hok. split.
  - intros H1 H2. apply acquire_held; try done. unfold nz. by destruct (Z.eqb_spec (lk_locked (lock_of h lk)) 0).
  - intros H. apply release_not_held. unfold nz.
    destruct (Z.eqb_spec (lk_locked (lock_of h lk)) 0); [by left|]. right. by destruct H.
Qed.

(** A hart with interrupts on. *)
Definition hart0 : harts := mkHarts ∅ [cpu0] (mkCsrs SSTATUS_SIE 0 0 0 0 0 0 0).

Lemma hart0_ok : hart_ok hart0.
Proof. split; [vm_compute; lia|by vm_compute|by vm_compute]. Qed.

Lemma acquire_release_correct_witness :
  wp (acquire_h LK_kmem) hart0 (λ _ h1,
    lk_locked (lock_of h1 LK_kmem) = 1 ∧ lk_cpu (lock_of h1 LK_kmem) = Some (hart h1) ∧
    hart h1 = hart hart0 ∧ sie h1 = false ∧ noff (the_cpu h1) = noff (the_cpu hart0) + 1 ∧
    (∀ lk', lk' ≠ LK_kmem → lock_of h1 lk' = lock_of hart0 lk') ∧
    wp (release_h LK_kmem) h1 (λ _ h2, hs_eq h2 hart0)).
Proof. apply (acquire_release_correct LK_kmem hart0); [exact hart0_ok|done]. Defined.

Lemma spinlock_misuse_witness :
  (lk_locked (lock_of hart0 LK_kmem) ≠ 0 → lk_cpu (lock_of hart0 LK_kmem) = Some (hart hart0) →
   panics (acquire_h LK_kmem) hart0 "acquire") ∧
  (lk_locked (lock_of hart0 LK_kmem) = 0 ∨ lk_cpu (lock_of hart0 LK_kmem) ≠ Some (hart hart0) →
   panics (release_h LK_kmem) hart0 "release").
Proof. apply (spinlock_misuse LK_kmem hart0 hart0_ok). Defined.
