(* ===== verification/SpinlockConc.v ===== *)
(** * Spinlocks on several harts

    acquire() and release() (kernel/spinlock.c) as steps that harts take in any
    order.  Every hart has its registers and its [struct cpu], and runs the
    push_off(), pop_off() and test-and-set of [Spinlock]; the lock words and
    [cpu] fields are shared, and each access to one of them is a step of its
    own.  push_off() and pop_off() touch only what belongs to the hart, so they
    are one step each.  The steps are sequentially consistent; the fences of
    the code, which ask for no more than that, have no step.

    Between its calls a hart does what the rest of the kernel does: it calls
    acquire() or release() on any of the locks, also on one it may not, and
    turns interrupts on or off while it holds none. *)

From stdpp Require Import gmap list strings.
From Stdlib Require Import ZArith Lia.
From S2P Require Import Prelude Params Machine Spinlock.
#[local] Open Scope Z_scope.

(** ** Definitions *)

(** What a hart does next.  In acquire(): push_off(); holding()'s read of
    [locked], then of [cpu]; the test-and-set; setting [cpu].  In release():
    holding()'s reads; clearing [cpu]; clearing [locked]; pop_off().  A hart
    that has called panic() keeps the place it was at. *)
Inductive pc :=
  | Client
  | AcqPush (lk : lockid) | AcqTest (lk : lockid) | AcqCpu (lk : lockid)
  | Spinning (lk : lockid) | Taken (lk : lockid)
  | RelTest (lk : lockid) | RelCpu (lk : lockid) | RelClear (lk : lockid)
  | RelStore (lk : lockid) | RelPop
  | Panicked (p : pc) (msg : string).

(** A hart: its place, the locks it got from acquire() and has not given back,
    the interrupt setting its code asked for, and its registers. *)
Record hart_st := mkHart { h_pc : pc; h_held : list lockid; h_on : bool; h_csr : csrs }.
Record sys := mkSys { s_locks : gmap lockid spinlock; s_cpus : list cpu; s_harts : list hart_st }.

Definition view (x : hart_st) (s : sys) : harts := mkHarts (s_locks s) (s_cpus s) (h_csr x).
Definition put (i : nat) (p : pc) (held : list lockid) (on : bool) (h : harts) (s : sys) : sys :=
  mkSys (locks h) (cpus h) (<[i := mkHart p held on (csr h)]> (s_harts s)).

(** One step of acquire() or release(). *)
Definition next (p : pc) (held : list lockid) : H (pc * list lockid) :=
  match p with
  | AcqPush lk => push_off;; mret (AcqTest lk, held)
  | AcqTest lk =>
      l ← gets (λ h, lock_of h lk);
      mret (if nz (lk_locked l) then AcqCpu lk else Spinning lk, held)
  | AcqCpu lk =>
      l ← gets (λ h, lock_of h lk);
      c ← mycpu;
      if bool_decide (lk_cpu l = Some c) then panic "acquire" else mret (Spinning lk, held)
  | Spinning lk =>
      old ← test_and_set lk;
      mret (if nz old then Spinning lk else Taken lk, held)
  | Taken lk =>
      c ← mycpu;
      l ← gets (λ h, lock_of h lk);
      modify (set_lock lk (mkLock (lk_locked l) (lk_name l) (Some c)));;
      mret (Client, lk :: held)
  | RelTest lk =>
      l ← gets (λ h, lock_of h lk);
      if nz (lk_locked l) then mret (RelCpu lk, held) else panic "release"
  | RelCpu lk =>
      l ← gets (λ h, lock_of h lk);
      c ← mycpu;
      if bool_decide (lk_cpu l = Some c) then mret (RelClear lk, held) else panic "release"
  | RelClear lk =>
      l ← gets (λ h, lock_of h lk);
      modify (set_lock lk (mkLock (lk_locked l) (lk_name l) None));;
      mret (RelStore lk, filter (λ m, m ≠ lk) held)
  | RelStore lk =>
      l ← gets (λ h, lock_of h lk);
      modify (set_lock lk (mkLock 0 (lk_name l) (lk_cpu l)));;
      mret (RelPop, held)
  | RelPop => pop_off;; mret (Client, held)
  | Client | Panicked _ _ => mret (p, held)
  end.

Definition resume (i : nat) (x : hart_st) (s : sys) : sys :=
  match next (h_pc x) (h_held x) (view x s) with
  | Ok (p, held) h => put i p held (h_on x) h s
  | Panic msg h => put i (Panicked (h_pc x) msg) (h_held x) (h_on x) h s
  | Diverge => s
  end.

(** intr_on() and intr_off() in the code of the hart; a trap into the kernel
    and the return from it change the bit in the same way. *)
Definition set_intr (on : bool) : H unit := if on then intr_on else intr_off.

(** The steps, on the locks of [L]. *)
Inductive step (L : gset lockid) (s : sys) : sys → Prop :=
  | step_code i x : s_harts s !! i = Some x → step L s (resume i x s)
  | step_acquire i x lk :
      s_harts s !! i = Some x → h_pc x = Client → lk ∈ L →
      step L s (put i (AcqPush lk) (h_held x) (h_on x) (view x s) s)
  | step_release i x lk :
      s_harts s !! i = Some x → h_pc x = Client → lk ∈ L →
      step L s (put i (RelTest lk) (h_held x) (h_on x) (view x s) s)
  | step_intr i x on h :
      s_harts s !! i = Some x → h_pc x = Client → h_held x = [] →
      set_intr on (view x s) = Ok tt h →
      step L s (put i Client [] on h s).

(** initlock() of every lock, and harts that hold nothing. *)
Definition linit (L : gset lockid) (name : lockid → string) : sys :=
  mkSys (set_to_map (λ lk, (lk, mkLock 0 (name lk) None)) L) (replicate (Z.to_nat NCPU) cpu0)
    ((λ i, mkHart Client [] false (mkCsrs 0 0 0 0 0 0 0 (Z.of_nat i))) <$> seq 0 (Z.to_nat NCPU)).

Definition reachable (L : gset lockid) (name : lockid → string) : sys → Prop := rtc (step L) (linit L name).

(** The hart has the lock word: from the test-and-set that found it free to the
    store that frees it. *)
Definition inside (x : hart_st) (lk : lockid) : Prop :=
  lk ∈ h_held x ∨ h_pc x = Taken lk ∨ h_pc x = RelStore lk.

Definition interrupts (x : hart_st) : bool := nz (Z.land (sstatus (h_csr x)) SSTATUS_SIE).

(** ** The invariant *)

(** push_off()s that no pop_off() has undone, beside those of [h_held]. *)
Fixpoint extra (p : pc) : Z :=
  match p with
  | AcqTest _ | AcqCpu _ | Spinning _ | Taken _ | RelStore _ | RelPop => 1
  | Panicked p _ => extra p
  | _ => 0
  end.
Definition depth (x : hart_st) : Z := Z.of_nat (length (h_held x)) + extra (h_pc x).

(** A panic is one that the caller asked for. *)
Definition misused (p : pc) (msg : string) (held : list lockid) : Prop :=
  (∃ lk, p = AcqCpu lk ∧ msg = "acquire"%string ∧ lk ∈ held) ∨
  (∃ lk, (p = RelTest lk ∨ p = RelCpu lk) ∧ msg = "release"%string ∧ lk ∉ held).

Definition pc_ok (L : gset lockid) (p : pc) (held : list lockid) : Prop :=
  match p with
  | AcqPush lk | AcqTest lk | AcqCpu lk => lk ∈ L
  | Spinning lk | Taken lk => lk ∈ L ∧ lk ∉ held
  | RelStore lk => lk ∉ held
  | RelClear lk => lk ∈ held
  | Panicked p msg => misused p msg held
  | _ => True
  end.

Record hart_inv (L : gset lockid) (C : list cpu) (i : nat) (x : hart_st) : Prop := {
  hi_tp : tp (h_csr x) = Z.of_nat i;
  hi_small : (i < Z.to_nat NCPU)%nat;
  hi_cpu : ∃ c, C !! i = Some c ∧ noff c = depth x ∧
    (if decide (depth x = 0) then interrupts x = h_on x
     else interrupts x = false ∧ nz (intena c) = h_on x);
  hi_nodup : NoDup (h_held x);
  hi_sub : ∀ lk, lk ∈ h_held x → lk ∈ L;
  hi_pc : pc_ok L (h_pc x) (h_held x);
}.

(** A lock, the harts that have its word and the one it names. *)
Record lock_inv (l : spinlock) (I N : nat → Prop) : Prop := {
  li_one : ∀ i j, I i → I j → i = j;
  li_word : lk_locked l = 0 ∧ (∀ i, ¬ I i) ∨ lk_locked l = 1 ∧ ∃ i, I i;
  li_cpu : ∀ i, lk_cpu l = Some i ↔ N i;
  li_in : ∀ i, N i → I i;
}.

Definition insides (X : list hart_st) (lk : lockid) (i : nat) : Prop := ∃ x, X !! i = Some x ∧ inside x lk.
Definition holders (X : list hart_st) (lk : lockid) (i : nat) : Prop := ∃ x, X !! i = Some x ∧ lk ∈ h_held x.

Definition lock_at (s : sys) (lk : lockid) : spinlock := default (mkLock 0 EmptyString None) (s_locks s !! lk).

Record sys_inv (L : gset lockid) (s : sys) : Prop := {
  si_hart : ∀ i x, s_harts s !! i = Some x → hart_inv L (s_cpus s) i x;
  si_lock : ∀ lk, lock_inv (lock_at s lk) (insides (s_harts s) lk) (holders (s_harts s) lk);
}.

(** *** The lock words *)

Lemma lock_inv_ext l I N I' N' :
  (∀ i, I' i ↔ I i) → (∀ i, N' i ↔ N i) → lock_inv l I N → lock_inv l I' N'.
Proof.
  intros EI EN [H1 H2 H3 H4]. split.
  - intros i j. rewrite !EI. apply H1.
  - destruct H2 as [[? H2]|[? [i Hi]]]; [left|right]; (split; [done|]).
    + intros i. rewrite EI. apply H2.
    + exists i. by rewrite EI.
  - intros i. by rewrite EN.
  - intros i. rewrite EN, EI. apply H4.
Qed.

(** The test-and-set that finds the word 0. *)
Lemma lock_inv_take l I N i I' :
  lock_inv l I N → lk_locked l = 0 → (∀ j, I' j ↔ j = i ∨ I j) →
  lock_inv (mkLock 1 (lk_name l) (lk_cpu l)) I' N.
Proof.
  intros [H1 H2 H3 H4] Hl EI. assert (∀ j, ¬ I j) as Hno by (destruct H2 as [[_ ?]|[? _]]; [done|lia]).
  split; simpl.
  - intros j j'. rewrite !EI. intros [->|?] [->|?]; [done|exfalso; by eapply Hno..].
  - right. split; [done|]. exists i. rewrite EI. by left.
  - done.
  - intros j Hj. rewrite EI. right. by apply H4.
Qed.

(** [lk->cpu = mycpu()] *)
Lemma lock_inv_record l I N i N' :
  lock_inv l I N → I i → (∀ j, N' j ↔ j = i ∨ N j) →
  lock_inv (mkLock (lk_locked l) (lk_name l) (Some i)) I N'.
Proof.
  intros [H1 H2 H3 H4] Hi EN. split; simpl; [done|done| |].
  - intros j. rewrite EN. split; [intros [=]; by left|]. intros [->|Hj]; [done|]. by rewrite (H1 i j); [|done|apply H4].
  - intros j. rewrite EN. intros [->|?]; [done|by apply H4].
Qed.

(** [lk->cpu = 0] *)
Lemma lock_inv_clear l I N i N' :
  lock_inv l I N → I i → (∀ j, N' j ↔ N j ∧ j ≠ i) →
  lock_inv (mkLock (lk_locked l) (lk_name l) None) I N'.
Proof.
  intros [H1 H2 H3 H4] Hi EN. split; simpl; [done|done| |].
  - intros j. rewrite EN. split; [done|]. intros [Hj []]. by apply H1; [apply H4|].
  - intros j. rewrite EN. intros [? _]. by apply H4.
Qed.

(** [__sync_lock_release] *)
Lemma lock_inv_free l I N i I' :
  lock_inv l I N → I i → ¬ N i → (∀ j, I' j ↔ I j ∧ j ≠ i) →
  lock_inv (mkLock 0 (lk_name l) (lk_cpu l)) I' N.
Proof.
  intros [H1 H2 H3 H4] Hi Hn EI. split; simpl.
  - intros j j'. rewrite !EI. intros [? _] [? _]. by apply H1.
  - left. split; [done|]. intros j. rewrite EI. intros [? []]. by apply H1.
  - done.
  - intros j Hj. rewrite EI. split; [by apply H4|]. by intros ->.
Qed.

Lemma filter_out_id (lk : lockid) (l : list lockid) : lk ∉ l → filter (λ m, m ≠ lk) l = l.
Proof.
  induction l as [|a l IH]; [done|]. rewrite not_elem_of_cons. intros [Ha Hl].
  rewrite filter_cons_True by done. by rewrite IH.
Qed.

Lemma length_filter_out (lk : lockid) (l : list lockid) :
  NoDup l → lk ∈ l → S (length (filter (λ m, m ≠ lk) l)) = length l.
Proof.
  induction 1 as [|a l Ha Hn IH]; [by intros ?%elem_of_nil|]. intros [->|Hl]%elem_of_cons.
  - rewrite filter_cons_False by (intros []; done). by rewrite filter_out_id.
  - rewrite filter_cons_True by (by intros ->). simpl. by rewrite IH.
Qed.

(** *** Changing one hart *)

Section change.
Context (L : gset lockid) (s : sys) (i : nat) (x : hart_st).
Hypothesis Hs : sys_inv L s.
Hypothesis Hx : s_harts s !! i = Some x.

Lemma holders_insert x' lk j :
  holders (<[i := x']> (s_harts s)) lk j ↔ if decide (j = i) then lk ∈ h_held x' else holders (s_harts s) lk j.
Proof.
  pose proof (lookup_lt_Some _ _ _ Hx) as Hi. unfold holders. case_decide as E.
  - subst. rewrite list_lookup_insert_eq by done. split; [by intros (? & [= <-] & ?)|]. intros ?. by exists x'.
  - by rewrite list_lookup_insert_ne by done.
Qed.
Lemma insides_insert x' lk j :
  insides (<[i := x']> (s_harts s)) lk j ↔ if decide (j = i) then inside x' lk else insides (s_harts s) lk j.
Proof.
  pose proof (lookup_lt_Some _ _ _ Hx) as Hi. unfold insides. case_decide as E.
  - subst. rewrite list_lookup_insert_eq by done. split; [by intros (? & [= <-] & ?)|]. intros ?. by exists x'.
  - by rewrite list_lookup_insert_ne by done.
Qed.

Lemma holders_at lk : holders (s_harts s) lk i ↔ lk ∈ h_held x.
Proof. unfold holders. rewrite Hx. split; [by intros (? & [= <-] & ?)|]. intros ?. by exists x. Qed.
Lemma insides_at lk : insides (s_harts s) lk i ↔ inside x lk.
Proof. unfold insides. rewrite Hx. split; [by intros (? & [= <-] & ?)|]. intros ?. by exists x. Qed.

Lemma x_inv : hart_inv L (s_cpus s) i x.
Proof. by apply Hs. Qed.

(** The other harts do not notice that [struct cpu] number [i] changes. *)
Lemma harts_put p held on h :
  (∀ j, j ≠ i → cpus h !! j = s_cpus s !! j) →
  hart_inv L (cpus h) i (mkHart p held on (csr h)) →
  ∀ j y, s_harts (put i p held on h s) !! j = Some y → hart_inv L (cpus h) j y.
Proof.
  intros Hc Hi j y Hy. simpl in Hy. destruct (decide (i = j)) as [->|Hne].
  - rewrite list_lookup_insert_eq in Hy by (by eapply lookup_lt_Some). by injection Hy as <-.
  - rewrite list_lookup_insert_ne in Hy by done. destruct (si_hart _ _ Hs j y Hy) as [H1 H2 H3 H4 H5 H6].
    split; try done. by rewrite Hc by done.
Qed.

(** Steps that leave the lock words, and who has them, alone. *)
Lemma put_same p held on h :
  locks h = s_locks s → (∀ j, j ≠ i → cpus h !! j = s_cpus s !! j) →
  hart_inv L (cpus h) i (mkHart p held on (csr h)) → held = h_held x →
  (∀ lk, inside (mkHart p held on (csr h)) lk ↔ inside x lk) →
  sys_inv L (put i p held on h s).
Proof.
  intros El Hc Hi Eh Ei. split; [by apply harts_put|]. intros lk. unfold lock_at. simpl. rewrite El.
  eapply lock_inv_ext; [| |apply Hs].
  - intros j. rewrite insides_insert. case_decide; [subst; by rewrite insides_at|done].
  - intros j. rewrite holders_insert. case_decide; [subst; by rewrite holders_at|done].
Qed.

(** Steps on the words of one lock. *)
Lemma put_lock p held on R lk l :
  let x' := mkHart p held on R in
  hart_inv L (s_cpus s) i x' →
  (∀ m, m ≠ lk → (inside x' m ↔ inside x m) ∧ (m ∈ held ↔ m ∈ h_held x)) →
  lock_inv l (insides (<[i := x']> (s_harts s)) lk) (holders (<[i := x']> (s_harts s)) lk) →
  sys_inv L (put i p held on (mkHarts (<[lk := l]> (s_locks s)) (s_cpus s) R) s).
Proof.
  intros x' Hi Hm Hl. split; [by apply harts_put|]. intros m. unfold lock_at. simpl.
  destruct (decide (lk = m)) as [<-|Hne]; [by rewrite lookup_insert_eq|]. rewrite lookup_insert_ne by done.
  destruct (Hm m) as [E1 E2]; [done|]. eapply lock_inv_ext; [| |apply Hs].
  - intros j. rewrite insides_insert. case_decide; [subst; by rewrite insides_at|done].
  - intros j. rewrite holders_insert. case_decide; [subst; by rewrite holders_at|done].
Qed.
End change.

(** *** The steps *)

Section steps.
Context (L : gset lockid) (s : sys) (i : nat) (x : hart_st).
Hypothesis HL : Z.of_nat (size L) < 2 ^ 31 - 1.
Hypothesis Hs : sys_inv L s.
Hypothesis Hx : s_harts s !! i = Some x.

Lemma view_hart : hart (view x s) = i.
Proof.
  destruct (x_inv L s i x Hs Hx) as [Ht Hi]. unfold hart. simpl. rewrite Ht. unfold NCPU in Hi.
  rewrite s32_small by lia. lia.
Qed.
Lemma mycpu_eq : mycpu (view x s) = Ok i (view x s).
Proof. pose proof view_hart as E. unfold hart in E. unfold mycpu, cpuid, r_tp, gets, mbind, M_bind, mret, M_ret. by rewrite E. Qed.

Lemma held_bound : Z.of_nat (length (h_held x)) < 2 ^ 31 - 1.
Proof.
  destruct (x_inv L s i x Hs Hx) as [_ _ _ Hn Hl _].
  assert (size (list_to_set (h_held x) : gset lockid) ≤ size L)%nat as Hle.
  { apply subseteq_size. intros lk. rewrite elem_of_list_to_set. apply Hl. }
  rewrite size_list_to_set in Hle by done. lia.
Qed.

(** A move that involves neither the nesting depth nor the registers. *)
Lemma hart_inv_move p on :
  extra p = extra (h_pc x) → pc_ok L p (h_held x) → on = h_on x →
  hart_inv L (s_cpus s) i (mkHart p (h_held x) on (h_csr x)).
Proof.
  intros Ep Hp ->. destruct (x_inv L s i x Hs Hx) as [H1 H2 H3 H4 H5 H6]. split; try done.
  unfold depth in *. simpl. by rewrite Ep.
Qed.

Lemma goto_inv p :
  extra p = extra (h_pc x) → pc_ok L p (h_held x) →
  (∀ lk, p = Taken lk ∨ p = RelStore lk ↔ h_pc x = Taken lk ∨ h_pc x = RelStore lk) →
  sys_inv L (put i p (h_held x) (h_on x) (view x s) s).
Proof.
  intros Ep Hp Hi. eapply put_same; try done; [by apply hart_inv_move|].
  intros lk. unfold inside. simpl. by rewrite Hi.
Qed.

Lemma push_inv lk : h_pc x = AcqPush lk → sys_inv L (resume i x s).
Proof.
  intros Ep. pose proof view_hart as Ev. pose proof held_bound as Hb.
  destruct (x_inv L s i x Hs Hx) as [H1 H2 (c & Hc & Hn & Hi) H4 H5 H6]. unfold depth in Hn, Hi. rewrite Ep in *. simpl in *.
  assert (the_cpu (view x s) = c) as Ec by (unfold the_cpu; simpl; by rewrite Ev, Hc).
  assert (hart_ok (view x s)) as Hok.
  { split; rewrite ?Ec, ?Ev; simpl; [by eapply lookup_lt_Some|lia|]. intros Hpos.
    rewrite decide_False in Hi by lia. apply Hi. }
  unfold resume, mbind, M_bind. rewrite Ep. simpl. unfold mbind, M_bind. rewrite push_off_eq by done.
  cbn [mret M_ret]. eapply put_same; try done.
  - intros j Hj. simpl. rewrite Ev. by rewrite list_lookup_alter_ne.
  - split; simpl; try done. eexists. rewrite Ev, list_lookup_alter_eq, Hc. split; [done|].
    unfold depth. simpl. rewrite decide_False by lia. split; [lia|]. split; [apply sie_off|].
    destruct (Z.eqb_spec (noff c) 0) as [E|E].
    + rewrite decide_True in Hi by lia. rewrite <-Hi. unfold sie, interrupts. simpl. by destruct (nz (Z.land _ _)).
    + rewrite decide_False in Hi by lia. apply Hi.
  - intros lk'. unfold inside. rewrite Ep. simpl. naive_solver.
Qed.

Lemma pop_inv : h_pc x = RelPop → sys_inv L (resume i x s).
Proof.
  intros Ep. pose proof view_hart as Ev. pose proof held_bound as Hb.
  destruct (x_inv L s i x Hs Hx) as [H1 H2 (c & Hc & Hn & Hi) H4 H5 H6]. unfold depth in Hn, Hi. rewrite Ep in *. simpl in *.
  rewrite decide_False in Hi by lia. destruct Hi as [Hi1 Hi2].
  unfold resume. rewrite Ep. simpl. unfold mbind, M_bind.
  rewrite (pop_off_eq _ c); [|by rewrite Ev|lia|done]. cbn [mret M_ret]. eapply put_same; try done.
  - intros j Hj. simpl. rewrite Ev. by rewrite list_lookup_alter_ne.
  - assert (the_cpu (view x s) = c) as Ec by (unfold the_cpu; simpl; by rewrite Ev, Hc).
    split; simpl; rewrite ?Ec; try done.
    { by destruct (_ && _). }
    eexists. rewrite Ev, list_lookup_alter_eq, Hc. split; [done|]. unfold depth. simpl. split; [lia|].
    unfold interrupts in *. simpl. case_decide as E.
    + destruct (Z.eqb_spec (noff c - 1) 0); [|lia]. rewrite <-Hi2. destruct (nz (intena c)); simpl; [apply sie_on|done].
    + destruct (Z.eqb_spec (noff c - 1) 0); [lia|]. done.
  - intros lk'. unfold inside. rewrite Ep. simpl. naive_solver.
Qed.

Lemma intr_inv on h :
  h_pc x = Client → h_held x = [] → set_intr on (view x s) = Ok tt h → sys_inv L (put i Client [] on h s).
Proof.
  intros Ep Eh E. destruct (x_inv L s i x Hs Hx) as [H1 H2 (c & Hc & Hn & _) H4 H5 H6].
  assert (h = upd_csr (upd_sstatus (λ v, if on then Z.lor v SSTATUS_SIE else Z.land v (Z.lnot SSTATUS_SIE))) (view x s)) as ->.
  { destruct on; by injection E. }
  eapply put_same; try done.
  - split; simpl; try done; [|constructor|by intros ? ?%elem_of_nil]. exists c. unfold depth in *. rewrite Ep, Eh in Hn. simpl in *.
    split; [done|]. split; [done|]. unfold interrupts. simpl.
    destruct on; [apply sie_on|apply sie_off].
  - intros lk. unfold inside. rewrite Ep, Eh. simpl. naive_solver.
Qed.

(** The test-and-set. *)
Lemma spin_inv lk : h_pc x = Spinning lk → sys_inv L (resume i x s).
Proof.
  intros Ep. pose proof (x_inv L s i x Hs Hx) as Hi. pose proof (hi_pc _ _ _ _ Hi) as Hpc. rewrite Ep in Hpc. destruct Hpc as [HlL Hh].
  pose proof (si_lock _ _ Hs lk) as Hl. set (l := lock_at s lk) in *.
  unfold resume. rewrite Ep. unfold next, test_and_set, gets, modify, mbind, M_bind, mret, M_ret.
  change (lock_of (view x s) lk) with l. cbv beta iota.
  change (set_lock lk (mkLock 1 (lk_name l) (lk_cpu l)) (view x s))
    with (mkHarts (<[lk := mkLock 1 (lk_name l) (lk_cpu l)]> (s_locks s)) (s_cpus s) (h_csr x)).
  destruct (li_word _ _ _ Hl) as [[E Hno]|[E Hin]]; rewrite E; simpl.
  - eapply put_lock; try done.
    + eapply hart_inv_move; try done. by rewrite Ep.
    + intros m Hm. split; [|done]. unfold inside. rewrite Ep. simpl. naive_solver.
    + eapply (lock_inv_ext _ _ (holders (s_harts s) lk)); [done| |eapply (lock_inv_take _ _ _ i); [exact Hl|done|]].
      * intros j. rewrite (holders_insert s i x Hx). case_decide; [subst; by rewrite (holders_at s i x Hx)|done].
      * intros j. rewrite (insides_insert s i x Hx). unfold inside. simpl. case_decide; naive_solver.
  - eapply put_lock; try done.
    + eapply hart_inv_move; try done. by rewrite Ep.
    + intros m Hm. split; [|done]. unfold inside. rewrite Ep. simpl. naive_solver.
    + replace (mkLock 1 (lk_name l) (lk_cpu l)) with l by (rewrite <-E; by destruct l).
      eapply lock_inv_ext; [| |exact Hl]; intros j.
      * rewrite (insides_insert s i x Hx). case_decide; [|done]. subst. rewrite (insides_at s i x Hx). unfold inside. by rewrite Ep.
      * rewrite (holders_insert s i x Hx). case_decide; [subst; by rewrite (holders_at s i x Hx)|done].
Qed.

(** The depth does not change when a lock is recorded or cleared. *)
Lemma hart_inv_held p held :
  Z.of_nat (length held) + extra p = depth x → NoDup held → (∀ lk, lk ∈ held → lk ∈ L) → pc_ok L p held →
  hart_inv L (s_cpus s) i (mkHart p held (h_on x) (h_csr x)).
Proof.
  intros Ed Hn Hl Hp. destruct (x_inv L s i x Hs Hx) as [H1 H2 H3 H4 H5 H6]. split; try done.
  by replace (depth (mkHart p held (h_on x) (h_csr x))) with (depth x) by done.
Qed.

Lemma record_inv lk : h_pc x = Taken lk → sys_inv L (resume i x s).
Proof.
  intros Ep. destruct (x_inv L s i x Hs Hx) as [_ _ _ Hnd Hsub Hpc]. rewrite Ep in Hpc. destruct Hpc as [HlL Hh].
  pose proof (si_lock _ _ Hs lk) as Hl. set (l := lock_at s lk) in *.
  unfold resume. rewrite Ep. unfold next, gets, modify, mbind, M_bind, mret, M_ret. rewrite mycpu_eq by done.
  change (lock_of (view x s) lk) with l. cbv beta iota. eapply put_lock; try done.
  - apply hart_inv_held; try done.
    + unfold depth. rewrite Ep. simpl. lia.
    + by apply NoDup_cons.
    + intros m [->|?]%elem_of_cons; [done|by apply Hsub].
  - intros m Hm. unfold inside. rewrite Ep. simpl. rewrite elem_of_cons. naive_solver.
  - eapply lock_inv_ext; [| |eapply (lock_inv_record _ _ _ i (λ j, j = i ∨ holders (s_harts s) lk j)); [exact Hl| |done]].
    + intros j. rewrite (insides_insert s i x Hx). case_decide; [|done]. subst. rewrite (insides_at s i x Hx).
      unfold inside. rewrite Ep. simpl. rewrite elem_of_cons. naive_solver.
    + intros j. rewrite (holders_insert s i x Hx). simpl. case_decide; rewrite ?elem_of_cons; naive_solver.
    + apply (insides_at s i x Hx). unfold inside. rewrite Ep. naive_solver.
Qed.

Lemma clear_inv lk : h_pc x = RelClear lk → sys_inv L (resume i x s).
Proof.
  intros Ep. destruct (x_inv L s i x Hs Hx) as [_ _ _ Hnd Hsub Hpc]. rewrite Ep in Hpc. simpl in Hpc.
  pose proof (si_lock _ _ Hs lk) as Hl. set (l := lock_at s lk) in *.
  unfold resume. rewrite Ep. unfold next, gets, modify, mbind, M_bind, mret, M_ret.
  change (lock_of (view x s) lk) with l. cbv beta iota.
  assert (∀ m, m ∈ filter (λ m, m ≠ lk) (h_held x) ↔ m ≠ lk ∧ m ∈ h_held x) as Hf by (intros m; by rewrite list_elem_of_filter).
  eapply put_lock; try done.
  - apply hart_inv_held.
    + unfold depth. rewrite Ep. simpl. pose proof (length_filter_out lk _ Hnd Hpc). lia.
    + by apply NoDup_filter.
    + intros m [_ ?]%Hf. by apply Hsub.
    + simpl. rewrite Hf. naive_solver.
  - intros m Hm. unfold inside. rewrite Ep. simpl. rewrite Hf. naive_solver.
  - eapply lock_inv_ext; [| |eapply (lock_inv_clear _ _ _ i (λ j, holders (s_harts s) lk j ∧ j ≠ i)); [exact Hl| |done]].
    + intros j. rewrite (insides_insert s i x Hx). case_decide; [|done]. subst. rewrite (insides_at s i x Hx).
      unfold inside. rewrite Ep. simpl. rewrite Hf. naive_solver.
    + intros j. rewrite (holders_insert s i x Hx). simpl. case_decide; rewrite ?Hf; naive_solver.
    + apply (insides_at s i x Hx). by left.
Qed.

Lemma store_inv lk : h_pc x = RelStore lk → sys_inv L (resume i x s).
Proof.
  intros Ep. destruct (x_inv L s i x Hs Hx) as [_ _ _ Hnd Hsub Hpc]. rewrite Ep in Hpc. simpl in Hpc.
  pose proof (si_lock _ _ Hs lk) as Hl. set (l := lock_at s lk) in *.
  unfold resume. rewrite Ep. unfold next, gets, modify, mbind, M_bind, mret, M_ret.
  change (lock_of (view x s) lk) with l. cbv beta iota. eapply put_lock; try done.
  - apply hart_inv_move; try done. by rewrite Ep.
  - intros m Hm. unfold inside. rewrite Ep. simpl. naive_solver.
  - eapply lock_inv_ext; [| |eapply (lock_inv_free _ _ _ i (λ j, insides (s_harts s) lk j ∧ j ≠ i)); [exact Hl| | |done]].
    + intros j. rewrite (insides_insert s i x Hx). unfold inside. simpl. case_decide; naive_solver.
    + intros j. rewrite (holders_insert s i x Hx). case_decide; [subst; by rewrite (holders_at s i x Hx)|done].
    + apply (insides_at s i x Hx). unfold inside. rewrite Ep. naive_solver.
    + by rewrite (holders_at s i x Hx).
Qed.

(** holding(): the hart that reads [cpu] finds itself there if it holds the lock. *)
Lemma named lk : bool_decide (lk_cpu (lock_at s lk) = Some i) = bool_decide (lk ∈ h_held x).
Proof. apply bool_decide_ext. rewrite (li_cpu _ _ _ (si_lock _ _ Hs lk)). by apply (holders_at s i x Hx). Qed.

Lemma resume_inv : sys_inv L (resume i x s).
Proof.
  pose proof (hi_pc _ _ _ _ (x_inv L s i x Hs Hx)) as Hpc.
  destruct (h_pc x) as [|lk|lk|lk|lk|lk|lk|lk|lk|lk| |p msg] eqn:Ep;
    [|by eapply push_inv| | |by eapply spin_inv|by eapply record_inv| | |by eapply clear_inv|by eapply store_inv|by eapply pop_inv|];
    unfold resume; rewrite Ep; unfold next, gets, mbind, M_bind, mret, M_ret; rewrite ?mycpu_eq;
    try change (lock_of (view x s) lk) with (lock_at s lk); cbv beta iota.
  - apply goto_inv; by rewrite ?Ep.
  - destruct (li_word _ _ _ (si_lock _ _ Hs lk)) as [[E Hno]|[E Hin]]; rewrite E; simpl;
      (apply goto_inv; rewrite ?Ep; try done; try (intros; naive_solver)).
    split; [done|]. intros Hh. apply (Hno i), (insides_at s i x Hx). by left.
  - rewrite named. case_bool_decide as Hh; (apply goto_inv; rewrite ?Ep; try done; try (intros; naive_solver)).
    left. by exists lk.
  - destruct (li_word _ _ _ (si_lock _ _ Hs lk)) as [[E Hno]|[E Hin]]; rewrite E; simpl;
      (apply goto_inv; rewrite ?Ep; try done; try (intros; naive_solver)).
    right. exists lk. split_and!; [by left|done|]. intros Hh. apply (Hno i), (insides_at s i x Hx). by left.
  - rewrite named. case_bool_decide as Hh; (apply goto_inv; rewrite ?Ep; try done; try (intros; naive_solver)).
    right. exists lk. split_and!; [by right|done|done].
  - apply goto_inv; by rewrite ?Ep.
Qed.
End steps.

Lemma step_inv L s s' : Z.of_nat (size L) < 2 ^ 31 - 1 → sys_inv L s → step L s s' → sys_inv L s'.
Proof.
  intros HL Hs [i x Hx|i x lk Hx Ep Hlk|i x lk Hx Ep Hlk|i x on h Hx Ep Eh E].
  - by apply resume_inv.
  - eapply goto_inv; rewrite ?Ep; try done. naive_solver.
  - eapply goto_inv; rewrite ?Ep; try done. naive_solver.
  - by eapply intr_inv.
Qed.

Lemma linit_hart L name i x :
  s_harts (linit L name) !! i = Some x →
  x = mkHart Client [] false (mkCsrs 0 0 0 0 0 0 0 (Z.of_nat i)) ∧ (i < Z.to_nat NCPU)%nat.
Proof. unfold linit. cbn [s_harts]. rewrite list_lookup_fmap. intros (j & [-> Hj]%lookup_seq & ->)%fmap_Some. done. Qed.

Lemma linit_inv L name : sys_inv L (linit L name).
Proof.
  split.
  - intros i x [-> Hi]%linit_hart. split; try done; [|constructor|by intros ? ?%elem_of_nil].
    exists cpu0. split; [by apply lookup_replicate|]. done.
  - intros lk.
    assert (lk_locked (lock_at (linit L name) lk) = 0 ∧ lk_cpu (lock_at (linit L name) lk) = None) as [E1 E2].
    { unfold lock_at. destruct (s_locks (linit L name) !! lk) as [l|] eqn:E; [|done]. simpl in *.
      apply lookup_set_to_map in E as (m & _ & [= _ <-]); done. }
    assert (∀ i, ¬ insides (s_harts (linit L name)) lk i) as Hno.
    { intros i (x & [-> _]%linit_hart & [?%elem_of_nil|[?|?]]); done. }
    split; [intros i j H; by destruct (Hno i)|by left| |].
    + intros i. rewrite E2. split; [done|]. intros (x & [-> _]%linit_hart & ?%elem_of_nil). done.
    + intros i (x & [-> _]%linit_hart & ?%elem_of_nil). done.
Qed.

Lemma reachable_inv L name s : Z.of_nat (size L) < 2 ^ 31 - 1 → reachable L name s → sys_inv L s.
Proof.
  intros HL Hr. pose proof (linit_inv L name) as H0. unfold reachable in Hr. revert H0.
  induction Hr as [|s1 s2 s3 Hst _ IH]; intros H0; [done|]. apply IH. by eapply step_inv.
Qed.

(** C13. Mutual exclusion: however the harts interleave, and whatever locks they
    ask for in whatever order, at most one hart is between a successful
    test-and-set of a lock and the store that frees it, and a lock that no hart
    is inside is free.  A hart that got a lock from acquire() is named as its
    holder and has interrupts off.  acquire() panics only on a hart that
    already has the lock and release() only on one that does not have it;
    push_off() and pop_off() never panic.  Once a hart has given all its locks
    back its nesting depth is 0 and interrupts are as it had set them.  The
    locks are fewer than 2^31 - 1, so that the depth fits its int. *)
Theorem mutual_exclusion L name s :
  Z.of_nat (size L) < 2 ^ 31 - 1 → reachable L name s →
  (∀ lk i j x y, s_harts s !! i = Some x → s_harts s !! j = Some y → inside x lk → inside y lk → i = j) ∧
  (∀ lk, (∀ i x, s_harts s !! i = Some x → ¬ inside x lk) → lk_locked (lock_at s lk) = 0) ∧
  (∀ lk i x, s_harts s !! i = Some x → lk ∈ h_held x →
     lk_locked (lock_at s lk) = 1 ∧ lk_cpu (lock_at s lk) = Some i ∧ interrupts x = false) ∧
  (∀ i x p msg, s_harts s !! i = Some x → h_pc x = Panicked p msg → misused p msg (h_held x)) ∧
  (∀ i x, s_harts s !! i = Some x → h_pc x = Client → h_held x = [] →
     interrupts x = h_on x ∧ ∃ c, s_cpus s !! i = Some c ∧ noff c = 0).
Proof.
  intros HL Hr%reachable_inv; [|done]. destruct Hr as [Hh Hl]. split_and!.
  - intros lk i j x y Hx Hy Hi Hj. eapply (li_one _ _ _ (Hl lk)); by eexists.
  - intros lk Hno. destruct (li_word _ _ _ (Hl lk)) as [[? _]|[_ (i & x & Hx & Hi)]]; [done|]. by destruct (Hno i x).
  - intros lk i x Hx Hi. assert (holders (s_harts s) lk i) as Hn by (by exists x).
    destruct (Hl lk) as [_ Hw Hc Hin]. split_and!; [|by apply Hc|].
    + destruct Hw as [[_ []%(λ H, H i)]|[? _]]; [by apply Hin|done].
    + destruct (hi_cpu _ _ _ _ (Hh i x Hx)) as (c & _ & _ & Hd). rewrite decide_False in Hd; [apply Hd|].
      unfold depth. destruct (h_held x); [by apply elem_of_nil in Hi|]. simpl length.
      assert (0 ≤ extra (h_pc x)); [|lia]. clear. induction (h_pc x); simpl; lia.
  - intros i x p msg Hx Ep. pose proof (hi_pc _ _ _ _ (Hh i x Hx)) as Hp. by rewrite Ep in Hp.
  - intros i x Hx Ep Eh. destruct (hi_cpu _ _ _ _ (Hh i x Hx)) as (c & Hc & Hn & Hd). unfold depth in *.
    rewrite Ep, Eh in *. simpl in *. split; [done|by exists c].
Qed.

(** *** A schedule *)

(** Let hart [i] go on, or call acquire(). *)
Inductive act := Go (i : nat) | Acquire (i : nat) (lk : lockid).
Definition play1 (a : act) (s : sys) : sys :=
  match a with
  | Go i => match s_harts s !! i with Some x => resume i x s | None => s end
  | Acquire i lk =>
      match s_harts s !! i with
      | Some x => if h_pc x is Client then put i (AcqPush lk) (h_held x) (h_on x) (view x s) s else s
      | None => s
      end
  end.

Definition play (l : list act) (s : sys) : sys := foldl (λ s a, play1 a s) s l.

Definition asks_in (L : gset lockid) (a : act) : Prop :=
  match a with Go _ => True | Acquire _ lk => lk ∈ L end.

Lemma play_steps L l s : Forall (asks_in L) l → rtc (step L) s (play l s).
Proof.
  intros Hl. revert s. induction Hl as [|a l Ha _ IH]; intros s; [done|]. etrans; [|apply IH].
  destruct a as [i|i lk]; simpl in *; (destruct (s_harts s !! i) as [x|] eqn:Hx; [|done]).
  - by apply rtc_once, step_code.
  - destruct (h_pc x) eqn:Ep; try done. by apply rtc_once, step_acquire.
Qed.

(** Hart 0 has taken the lock of the page allocator; hart 1 spins on it. *)
Lemma mutual_exclusion_witness :
  let L : gset lockid := {[LK_kmem]} in
  let s := play
    [Acquire 0 LK_kmem; Go 0; Go 0; Go 0; Go 0; Acquire 1 LK_kmem; Go 1; Go 1; Go 1; Go 1]
    (linit L (λ _, "kmem"%string)) in
  (h_held <$> s_harts s !! 0%nat = Some [LK_kmem] ∧ h_pc <$> s_harts s !! 1%nat = Some (Spinning LK_kmem)) ∧
  (∀ lk i j x y, s_harts s !! i = Some x → s_harts s !! j = Some y → inside x lk → inside y lk → i = j).
Proof.
  intros L s. split; [split; vm_compute; reflexivity|].
  refine (proj1 (mutual_exclusion L (λ _, "kmem"%string) s _ _)); [vm_compute; reflexivity|].
  apply play_steps. repeat constructor; apply elem_of_singleton; reflexivity.
Defined.
