(* ===== verification/Sched.v ===== *)
(** * The current process, sleep and wakeup (kernel/proc.c)

    The part of proc.c that blocks and wakes kernel threads.  A thread gives up
    the hart in sched(), by swtch() to the scheduler, and continues when some
    hart's scheduler picks it again; what the rest of the system does in the
    meantime is the parameter [others] of the model. *)

From stdpp Require Import gmap list strings.
From Stdlib Require Import ZArith Lia.
From S2P Require Import Prelude Mem Params FsData DevData Machine Spinlock.
#[local] Open Scope Z_scope.

(** ** Definitions *)

(** The steps of all other threads between a swtch() away from the running
    thread and the swtch() back to it. *)
Class Others := others : K unit.

(** A load or store through a null pointer is a page fault in the kernel, which
    kerneltrap() turns into a panic. *)
Definition null_deref {A} : K A := panic "kerneltrap".

Definition proc0 : proc :=
  mkProc UNUSED None 0 0 0 None 0 0 0 0 (mkContext 0 0 (replicate 12 0))
    (replicate (Z.to_nat NOFILE) None) None (replicate 16 0).
Definition proc_of (k : kernel) (p : nat) : proc := default proc0 (procs k !! p).
Definition get_proc {A} (p : nat) (f : proc → A) : K A := gets (λ k, f (proc_of k p)).
Definition set_proc (p : nat) (f : proc → proc) : K unit := modify (upd_procs (alter f p)).

Definition myproc : K (option nat) :=
  on_hs (push_off;; p ← get_cpu cproc; pop_off;; mret p).

(** [myproc()->...]: the process that the caller goes on to dereference. *)
Definition curproc : K nat :=
  p ← myproc;
  match p with Some p => mret p | None => null_deref end.

Section sched_defs.
Context `{OTH : Others}.

Definition sched : K unit :=
  p ← curproc;
  h ← on_hs (holding (LK_proc p));
  if negb h then panic "sched p->lock" else
  n ← on_hs (get_cpu noff);
  if negb (n =? 1) then panic "sched locks" else
  st ← get_proc p p_state;
  if bool_decide (st = RUNNING) then panic "sched running" else
  i ← on_hs intr_get;
  if nz i then panic "sched interruptible" else
  intena ← on_hs (get_cpu intena);
  others;;
  on_hs (set_cpu (upd_intena (λ _, intena))).

Definition yield : K unit :=
  p ← curproc;
  acquire (LK_proc p);;
  set_proc p (upd_p_state (λ _, RUNNABLE));;
  sched;;
  release (LK_proc p).

Definition sleep (ch : chan) (lk : lockid) : K unit :=
  p ← curproc;
  acquire (LK_proc p);;
  release lk;;
  set_proc p (upd_p_chan (λ _, Some ch));;
  set_proc p (upd_p_state (λ _, SLEEPING));;
  sched;;
  set_proc p (upd_p_chan (λ _, None));;
  release (LK_proc p);;
  acquire lk.
End sched_defs.

(** The body of wakeup()'s loop. *)
Definition wakeup_at (ch : option chan) (p : nat) : K unit :=
  me ← myproc;
  when (bool_decide (Some p ≠ me)) (
    acquire (LK_proc p);;
    st ← get_proc p p_state;
    c ← get_proc p p_chan;
    when (bool_decide (st = SLEEPING) && bool_decide (c = ch))
      (set_proc p (upd_p_state (λ _, RUNNABLE)));;
    release (LK_proc p)).

Definition wakeup (ch : option chan) : K unit :=
  loop (λ p, if Z.of_nat p <? NPROC then wakeup_at ch p;; continue (S p) else break tt) O.

(** ** Specification *)

(** The hart runs process [me], outside every critical section. *)
Record calm (me : nat) (h : harts) : Prop := {
  ca_ok : hart_ok h;
  ca_noff : noff (the_cpu h) = 0;
  ca_free : ∀ lk, lock_free lk h;
  ca_proc : cproc (the_cpu h) = Some me;
}.

(** The hart runs process [me] inside the critical section of [lk]. *)
Definition inside (lk : lockid) (me : nat) (h : harts) : Prop :=
  ∃ h0, calm me h0 ∧ hs_eq h (acq lk h0).

(** What a wakeup() may do to a process. *)
Definition woke (p p' : proc) : Prop :=
  p' = p ∨ p_state p = SLEEPING ∧ p' = upd_p_state (λ _, RUNNABLE) p.

(** A call that leaves the hart as it was and may wake processes; nothing else
    changes outside of [fs]. *)
Record kquiet (k k' : kernel) : Prop := {
  kq_hs : hs_eq (hs k') (hs k);
  kq_procs : Forall2 woke (procs k) (procs k');
  kq_ram : ram k' = ram k;
  kq_freelist : freelist k' = freelist k;
  kq_krefs : krefs k' = krefs k;
  kq_nextpid : nextpid k' = nextpid k;
  kq_initproc : initproc k' = initproc k;
  kq_ticks : ticks k' = ticks k;
  kq_kpt : kernel_pagetable k' = kernel_pagetable k;
}.

#[export] Instance woke_preorder : PreOrder woke.
Proof.
  split.
  - by left.
  - intros p1 p2 p3 H1 [->|[H2 ->]]; [done|]. destruct H1 as [->|[H1 ->]]; [by right|done].
Qed.

#[export] Instance kquiet_preorder : PreOrder kquiet.
Proof.
  split.
  - by split.
  - intros k1 k2 k3 [] []. split; [by etrans|by etrans|congruence..].
Qed.

#[export] Instance calm_proper me : Proper (hs_eq ==> iff) (calm me).
Proof.
  assert (∀ h h', hs_eq h h' → calm me h → calm me h') as H.
  { intros h h' He [H1 H2 H3 H4]. destruct (hs_eq_cpu _ _ He) as (E1 & E2 & _). split.
    - by rewrite <-He.
    - congruence.
    - intros lk. by rewrite <-He.
    - congruence. }
  intros h h' He. split; apply H; [done|by symmetry].
Qed.

#[export] Instance inside_proper lk me : Proper (hs_eq ==> iff) (inside lk me).
Proof.
  assert (∀ h h', hs_eq h h' → inside lk me h → inside lk me h') as H.
  { intros h h' He (h0 & H1 & H2). exists h0. split; [done|]. by rewrite <-He. }
  intros h h' He. split; apply H; [done|by symmetry].
Qed.

(** Woken processes keep their identity. *)
Lemma woke_pid p p' : woke p p' → p_pid p' = p_pid p.
Proof. by intros [->|[_ ->]]. Qed.

Lemma kquiet_proc k k' me : kquiet k k' → woke (proc_of k me) (proc_of k' me).
Proof.
  intros H. unfold proc_of. pose proof (proj1 (Forall2_lookup _ _ _) (kq_procs _ _ H) me) as Hl.
  by destruct Hl.
Qed.

Lemma kquiet_calm me k k' : kquiet k k' → calm me (hs k) → calm me (hs k').
Proof. intros H Hc. by rewrite (kq_hs _ _ H). Qed.

(** *** myproc() *)

Lemma wp_myproc k (Q : option nat → kernel → Prop) :
  hart_ok (hs k) →
  (∀ h, hs_eq h (hs k) → Q (cproc (the_cpu (hs k))) (upd_hs (λ _, h) k)) →
  wp myproc k Q.
Proof.
  intros Hok HQ. pose proof (pushed_cpu _ Hok) as Hc. pose proof (ho_noff _ Hok).
  apply wp_on_hs. unfold wp, mbind, M_bind. rewrite push_off_eq by done.
  unfold get_cpu, mycpu, cpuid, r_tp, gets, mbind, M_bind, mret, M_ret.
  change (Z.to_nat (s32 (tp (csr (pushed (hs k)))))) with (hart (hs k)).
  rewrite Hc. simpl. rewrite (pop_off_eq (pushed (hs k)) _ Hc).
  - by apply HQ, popped_pushed.
  - simpl. lia.
  - unfold sie, pushed. simpl. apply sie_off.
Qed.

Lemma wp_curproc me k (Q : nat → kernel → Prop) :
  hart_ok (hs k) → cproc (the_cpu (hs k)) = Some me →
  (∀ h, hs_eq h (hs k) → Q me (upd_hs (λ _, h) k)) → wp curproc k Q.
Proof.
  intros Hok Hme HQ. unfold curproc. apply wp_bind, wp_myproc; [done|].
  intros h Hh. rewrite Hme. apply wp_ret. by apply HQ.
Qed.

(** *** Critical sections *)

Lemma wp_enter lk me k (Q : unit → kernel → Prop) :
  calm me (hs k) → Q tt (upd_hs (acq lk) k) → wp (acquire lk) k Q.
Proof. intros [] HQ. by apply wp_acquire. Qed.

Lemma calm_inside lk me h : calm me h → inside lk me (acq lk h).
Proof. intros. by exists h. Qed.

(** Leave the critical section entered in a state with harts [h]. *)
Lemma wp_leave lk me h k (Q : unit → kernel → Prop) :
  calm me h → hs_eq (hs k) (acq lk h) →
  (∀ h', hs_eq h' h → Q tt (upd_hs (λ _, h') k)) → wp (release lk) k Q.
Proof. intros [] He HQ. by eapply wp_release_eq. Qed.

Lemma inside_ok lk me h :
  inside lk me h →
  hart_ok h ∧ cproc (the_cpu h) = Some me ∧ ∀ lk', lk' ≠ lk → lock_free lk' h.
Proof.
  intros (h0 & Hc & He). pose proof Hc as [Hok Hn Hf Hp].
  pose proof (acq_cpu lk h0 Hok) as Ha. destruct (hs_eq_cpu _ _ He) as (E1 & _ & _).
  split_and!.
  - rewrite He. apply acq_hart_ok; [done|lia].
  - rewrite E1. unfold the_cpu. change (hart (acq lk h0)) with (hart h0). by rewrite Ha.
  - intros lk' Hne. rewrite He. by apply acq_lock_free.
Qed.

(** *** wakeup() *)

Definition wake_one (ch : option chan) (p : proc) : proc :=
  if bool_decide (p_state p = SLEEPING) && bool_decide (p_chan p = ch)
  then upd_p_state (λ _, RUNNABLE) p else p.

Lemma woke_wake_one ch p : woke p (wake_one ch p).
Proof.
  unfold wake_one. destruct (bool_decide_reflect (p_state p = SLEEPING)); [|by left].
  simpl. destruct (bool_decide (p_chan p = ch)); [by right|by left].
Qed.

(** The process table after a wakeup() by process [o], if it is one. *)
Definition wake_all (ch : option chan) (o : option nat) (ps : list proc) : list proc :=
  imap (λ i p, if decide (o = Some i) then p else wake_one ch p) ps.

Lemma woke_wake_all ch o ps : Forall2 woke ps (wake_all ch o ps).
Proof.
  apply Forall2_same_length_lookup_2; [unfold wake_all; by rewrite length_imap|].
  intros i p p' Hp. unfold wake_all. rewrite list_lookup_imap, Hp. simpl.
  intros [= <-]. case_decide; [done|]. apply woke_wake_one.
Qed.

(** The table when the loop of wakeup() has passed the first [n] processes. *)
Definition wake_upto (n : nat) (ch : option chan) (o : option nat) (ps : list proc) : list proc :=
  wake_all ch o (take n ps) ++ drop n ps.

Lemma wake_upto_S n ch o ps p :
  ps !! n = Some p →
  wake_upto (S n) ch o ps =
    <[n := if decide (o = Some n) then p else wake_one ch p]> (wake_upto n ch o ps).
Proof.
  intros Hp. unfold wake_upto. pose proof (lookup_lt_Some _ _ _ Hp).
  rewrite (take_S_r _ _ p) by done. unfold wake_all. rewrite imap_app. simpl.
  rewrite Nat.add_0_r, length_take_le by lia.
  rewrite (drop_S ps p n) by done.
  rewrite insert_app_r_alt by (rewrite length_imap, length_take_le; lia).
  rewrite length_imap, length_take_le, Nat.sub_diag by lia. simpl. by rewrite <-app_assoc.
Qed.

Lemma wake_upto_lookup n ch o ps p :
  ps !! n = Some p → wake_upto n ch o ps !! n = Some p.
Proof.
  intros Hp. unfold wake_upto. pose proof (lookup_lt_Some _ _ _ Hp).
  unfold wake_all. rewrite lookup_app_r; rewrite length_imap, length_take_le by lia; [|lia].
  by rewrite Nat.sub_diag, lookup_drop, Nat.add_0_r.
Qed.

Lemma wake_upto_all n ch o ps : (length ps ≤ n)%nat → wake_upto n ch o ps = wake_all ch o ps.
Proof. intros. unfold wake_upto. rewrite take_ge, drop_ge by done. apply app_nil_r. Qed.

Lemma wp_get_proc {A} p (f : proc → A) k (Q : A → kernel → Prop) :
  Q (f (proc_of k p)) k → wp (get_proc p f) k Q.
Proof. done. Qed.
Lemma wp_set_proc p f k (Q : unit → kernel → Prop) :
  Q tt (upd_procs (alter f p) k) → wp (set_proc p f) k Q.
Proof. done. Qed.

Ltac wp_proc :=
  lazymatch goal with
  | |- wp (get_proc _ _) _ _ => apply wp_get_proc
  | |- wp (set_proc _ _) _ _ => apply wp_set_proc
  | _ => wp_mem
  end.
Ltac wp_prim ::= wp_proc.

Section wakeup.
Context (ch : option chan) (o : option nat) (k : kernel).
Hypothesis Hok : hart_ok (hs k).
Hypothesis Hme : cproc (the_cpu (hs k)) = o.
Hypothesis Hfree : ∀ p, lock_free (LK_proc p) (hs k).
Hypothesis Hlen : length (procs k) = Z.to_nat NPROC.

(** The states between two iterations of the loop. *)
Definition waking (ps : list proc) (k' : kernel) : Prop :=
  ∃ h, hs_eq h (hs k) ∧ k' = upd_hs (λ _, h) (upd_procs (λ _, ps) k).

Lemma wake_leave p h ps k' :
  hs_eq h (hs k) → k' = upd_hs (λ _, acq (LK_proc p) h) (upd_procs (λ _, ps) k) →
  wp (release (LK_proc p)) k' (λ _, waking ps).
Proof.
  intros Hh ->. eapply (wp_release _ h); [by rewrite Hh|done|].
  eexists. split; [|done]. etrans; [apply rel_acq; by rewrite Hh|done].
Qed.

Lemma wakeup_at_spec p q k' :
  procs k !! p = Some q → waking (wake_upto p ch o (procs k)) k' →
  wp (wakeup_at ch p) k' (λ _, waking (wake_upto (S p) ch o (procs k))).
Proof.
  intros Hq (h & Hh & ->). pose proof (wake_upto_lookup _ ch o _ _ Hq) as Hq'.
  unfold wakeup_at. apply wp_bind, wp_myproc; [simpl; by rewrite Hh|].
  intros h1 Hh1. simpl in Hh1. assert (hs_eq h1 (hs k)) as Hh1' by (by etrans).
  simpl hs. assert (cproc (the_cpu h) = o) as ->
    by (destruct (hs_eq_cpu _ _ Hh) as (-> & _); done).
  rewrite (wake_upto_S _ _ _ _ _ Hq). destruct (decide (o = Some p)) as [Eo|Hne].
  - rewrite bool_decide_false by naive_solver. wp_pure. exists h1. split; [done|].
    by rewrite list_insert_id.
  - rewrite bool_decide_true by naive_solver. unfold when at 1.
    apply wp_bind, wp_acquire; [simpl; by rewrite Hh1'..|]. wp_pure.
    unfold proc_of. simpl. rewrite Hq'. simpl. unfold wake_one. destruct (_ && _); wp_pure.
    + eapply wake_leave; [exact Hh1'|]. unfold upd_hs, upd_procs. simpl. f_equal.
      by apply list_alter_is_insert.
    + eapply wake_leave; [exact Hh1'|]. by rewrite list_insert_id.
Qed.

(** wakeup(), from a place where no process lock is held. *)
Lemma wp_wakeup (Q : unit → kernel → Prop) :
  (∀ k', waking (wake_all ch o (procs k)) k' → Q tt k') → wp (wakeup ch) k Q.
Proof.
  intros HQ. unfold wakeup. unfold NPROC in *.
  apply (wp_loop _ (λ p k', (p ≤ 64)%nat ∧ waking (wake_upto p ch o (procs k)) k')
           (λ p _, 64 - Z.of_nat p)).
  - intros p k' [Hp Hw]. case_cmp.
    + destruct (lookup_lt_is_Some_2 (procs k) p) as [q Hq]; [lia|].
      apply wp_bind. eapply wp_mono; [by eapply wakeup_at_spec|].
      intros ? k2 Hw2. wp_pure. split; [split; [lia|done]|lia].
    + wp_pure. apply HQ. rewrite wake_upto_all in Hw by lia. done.
  - split; [lia|]. exists (hs k). split; [done|]. by destruct k.
  - lia.
Qed.
End wakeup.

(** wakeup() under one lock, as the kernel's callers use it. *)
Lemma wp_wakeup_inside ch lk me h k (Q : unit → kernel → Prop) :
  calm me h → hs_eq (hs k) (acq lk h) → (∀ p, lk ≠ LK_proc p) →
  length (procs k) = Z.to_nat NPROC →
  (∀ h', hs_eq h' (acq lk h) →
    Q tt (upd_hs (λ _, h') (upd_procs (λ _, wake_all ch (Some me) (procs k)) k))) →
  wp (wakeup ch) k Q.
Proof.
  intros Hc Hh Hlk Hl HQ. destruct (inside_ok lk me (hs k)) as (H1 & H2 & H3); [by exists h|].
  apply (wp_wakeup ch (Some me) k); [done|done|intros p; by apply H3|done|].
  intros k' (h' & Hh' & ->). apply HQ. by etrans.
Qed.

(** ** Running a system call

    Process [me] runs on the hart and holds no spinlock: the state in which the
    file system code is called and to which it returns. *)
Record running (me : nat) (k : kernel) : Prop := {
  ru_calm : calm me (hs k);
  ru_procs : length (procs k) = Z.to_nat NPROC;
}.

Lemma kquiet_running me k k' : kquiet k k' → running me k → running me k'.
Proof.
  intros H [H1 H2]. split; [by eapply kquiet_calm|].
  by rewrite <-(Forall2_length _ _ _ (kq_procs _ _ H)).
Qed.

(** The pid of the running process. *)
Definition mypid (me : nat) (k : kernel) : Z := p_pid (proc_of k me).

Lemma kquiet_mypid me k k' : kquiet k k' → mypid me k' = mypid me k.
Proof. intros H. by apply woke_pid, kquiet_proc. Qed.

(** States that differ in the hart state, up to [hs_eq], and in [fs]. *)
Lemma kquiet_upd h f k : hs_eq h (hs k) → kquiet k (upd_hs (λ _, h) (upd_fs f k)).
Proof. intros. by split. Qed.

(** * sleep()

    What a process that sleeps finds when it runs again, in terms of what the
    other threads do in the meantime. *)

Ltac wp_prim ::= wp_proc.

Lemma lock_of_acq lk h l :
  lock_of (acq lk h) l = if decide (lk = l) then mkLock 1 (lk_name (lock_of h lk)) (Some (hart h)) else lock_of h l.
Proof. unfold acq. by rewrite lock_of_set. Qed.
Lemma lock_of_rel lk h l :
  lock_of (rel lk h) l = if decide (lk = l) then mkLock 0 (lk_name (lock_of h lk)) None else lock_of h l.
Proof. unfold rel. by rewrite lock_of_set. Qed.

Lemma the_cpu_acq lk h :
  hart_ok h → the_cpu (acq lk h) = mkCpu (cproc (the_cpu h)) (noff (the_cpu h) + 1)
    (if noff (the_cpu h) =? 0 then (if sie h then 1 else 0) else intena (the_cpu h)).
Proof. intros Hok. unfold the_cpu at 1. change (hart (acq lk h)) with (hart h). by rewrite acq_cpu. Qed.

(** Taking a second lock and giving back the first leaves the second. *)
Lemma rel_first lk lk' h :
  hart_ok h → noff (the_cpu h) < 2 ^ 31 - 2 → lk ≠ lk' → lock_free lk h →
  hs_eq (rel lk (acq lk' (acq lk h))) (acq lk' h).
Proof.
  intros Hok Hn Hne [Hf1 Hf2]. pose proof (ho_noff _ Hok) as Hn0.
  assert (hart_ok (acq lk h)) as Hok1 by (by apply acq_hart_ok).
  pose proof (the_cpu_acq lk' _ Hok1) as E2. rewrite (the_cpu_acq lk h Hok) in E2. simpl in E2. split.
  - intros l. rewrite lock_of_rel, !lock_of_acq, (decide_False (P := lk' = lk)), (decide_False (P := lk = lk')) by congruence.
    rewrite (decide_True (P := lk = lk)) by done. simpl.
    destruct (decide (lk = l)) as [<-|Hl]; [|by destruct (decide (lk' = l))].
    rewrite decide_False by congruence. destruct (lock_of h lk); simpl in *. by subst.
  - unfold rel, acq. simpl. rewrite !list_alter_alter_eq. destruct (lookup_lt_is_Some_2 _ _ (ho_cpu _ Hok)) as [c Hc].
    assert (the_cpu h = c) as Ec by (unfold the_cpu; by rewrite Hc).
    change (hart (mkHarts _ _ _)) with (hart h). apply Forall2_same_length_lookup_2; [by rewrite !length_alter|].
    intros i x y. destruct (decide (hart h = i)) as [<-|]; cycle 1.
    { rewrite !list_lookup_alter_ne by done. intros ->. by intros [= ->]. }
    rewrite !list_lookup_alter_eq, Hc. simpl. intros [= <-] [= <-]. rewrite Ec in *.
    unfold cpu_eq, compose, upd_noff. simpl. split_and!; [done|lia|]. intros _. destruct (Z.eqb_spec (noff c + 1) 0); [lia|done].
  - unfold rel. rewrite E2. simpl. destruct (Z.eqb_spec (noff (the_cpu h) + 1 + 1 - 1) 0); [lia|]. simpl.
    unfold upd_sstatus. simpl. f_equal. by rewrite <-Z.land_assoc, Z.land_diag.
Qed.

(** The hart state with [intena] set. *)
Definition set_intena (i : Z) (h : harts) : harts :=
  mkHarts (locks h) (alter (upd_intena (λ _, i)) (hart h) (cpus h)) (csr h).

(** What the code finds out about a hart inside the critical section of [lk]. *)
Section inside.
Context (lk : lockid) (h g : harts) (Hok : hart_ok h) (Hn : noff (the_cpu h) = 0) (Hg : hs_eq g (acq lk h)).

Lemma inside_cpu : the_cpu g = mkCpu (cproc (the_cpu h)) 1 (if sie h then 1 else 0).
Proof.
  destruct (hs_eq_cpu _ _ Hg) as (E1 & E2 & E3). rewrite (the_cpu_acq lk h Hok) in *. rewrite Hn in *. simpl in *.
  rewrite E2 in E3. specialize (E3 ltac:(lia)). destruct (the_cpu g). simpl in *. by rewrite E1, E2, E3.
Qed.

Lemma inside_lookup : cpus g !! hart g = Some (the_cpu g).
Proof.
  assert (hart_ok g) as [Hc _ _] by (rewrite Hg; apply acq_hart_ok; [done|lia]).
  unfold the_cpu. by destruct (lookup_lt_is_Some_2 _ _ Hc) as [c ->].
Qed.

Lemma inside_sie : sie g = false.
Proof. unfold sie. rewrite (he_csr _ _ Hg). apply sie_off. Qed.

Lemma inside_lock : nz (lk_locked (lock_of g lk)) = true ∧ lk_cpu (lock_of g lk) = Some (hart g).
Proof.
  rewrite (he_locks _ _ Hg), lock_of_acq, decide_True by done. split; [done|]. simpl. by rewrite (hs_eq_hart _ _ Hg).
Qed.

Lemma inside_holding : holding lk g = Ok true g.
Proof.
  destruct inside_lock as [E1 E2]. unfold holding, gets, mbind, M_bind. rewrite E1, E2.
  unfold mycpu, cpuid, r_tp, gets, mbind, M_bind, mret, M_ret. by rewrite bool_decide_true.
Qed.
End inside.

Section sleep.
Context `{OTH : Others} (ch : chan) (lk : lockid) (me : nat) (h : harts) (k : kernel).
Context (Hc : calm me h) (Hlk : lk ≠ LK_proc me) (Hk : hs_eq (hs k) (acq lk h)).

(** The process is asleep, its lock is held by the scheduler's hart. *)
Definition asleep (h1 : harts) : kernel :=
  upd_hs (λ _, h1) (upd_procs (alter (upd_p_state (λ _, SLEEPING)) me)
    (upd_procs (alter (upd_p_chan (λ _, Some ch)) me) k)).

Lemma wp_sched k1 Q :
  hs_eq (hs k1) (acq (LK_proc me) h) → p_state (proc_of k1 me) ≠ RUNNING →
  (∀ h1, hs_eq h1 (acq (LK_proc me) h) → wp others (upd_hs (λ _, h1) k1) (λ _ k',
     Q tt (upd_hs (set_intena (if sie h then 1 else 0)) k'))) →
  wp sched k1 Q.
Proof.
  intros H1 Hst HQ. pose proof Hc as [C1 C2 C3 C4].
  pose proof (inside_cpu _ _ _ C1 C2 H1) as Ecpu.
  assert (hart_ok (hs k1)) as Hok1 by (rewrite H1; apply acq_hart_ok; [done|lia]).
  unfold sched. apply wp_bind, (wp_curproc me); [done|by rewrite Ecpu|]. intros h1 Hh1.
  assert (hs_eq h1 (acq (LK_proc me) h)) as Hh by (by etrans).
  pose proof (inside_cpu _ _ _ C1 C2 Hh) as Ecpu1.
  apply wp_bind, wp_on_hs. unfold wp at 1. simpl hs. rewrite (inside_holding _ _ _ Hh). simpl negb. cbv iota.
  apply wp_bind, wp_on_hs. unfold get_cpu, mycpu, cpuid, r_tp. wp_pure. simpl hs. fold (hart h1). fold (the_cpu h1).
  rewrite Ecpu1. simpl noff. change (1 =? 1) with true. simpl negb. cbv iota. wp_pure.
  rewrite bool_decide_eq_false_2 by done. apply wp_bind, wp_on_hs. unfold intr_get, r_sstatus. wp_pure.
  pose proof (inside_sie _ _ _ Hh) as Es. unfold sie in Es. simpl hs. rewrite Es. change (nz 0) with false. cbv iota. apply wp_bind, wp_on_hs.
  unfold get_cpu, mycpu, cpuid, r_tp. wp_pure. simpl hs. fold (hart h1). fold (the_cpu h1). rewrite Ecpu1. simpl.
  eapply wp_mono; [exact (HQ h1 Hh)|]. intros [] k' HQ'. apply wp_on_hs.
  unfold set_cpu, mycpu, cpuid, r_tp. wp_pure. exact HQ'.
Qed.

Lemma wp_sleep Q :
  (∀ h1, hs_eq h1 (acq (LK_proc me) h) → wp others (asleep h1) (λ _ k',
     hs_eq (set_intena (if sie h then 1 else 0) (hs k')) (acq (LK_proc me) h) ∧
     ∀ h2, hs_eq h2 (acq lk h) → Q tt (upd_hs (λ _, h2) (upd_procs (alter (upd_p_chan (λ _, None)) me) k')))) →
  wp (sleep ch lk) k Q.
Proof.
  intros HQ. pose proof Hc as [C1 C2 C3 C4]. pose proof (inside_cpu _ _ _ C1 C2 Hk) as Ecpu.
  assert (hart_ok (hs k)) as Hok1 by (rewrite Hk; apply acq_hart_ok; [done|lia]).
  unfold sleep. apply wp_bind, (wp_curproc me); [done|by rewrite Ecpu|]. intros h1 Hh1.
  assert (hs_eq h1 (acq lk h)) as Hh by (by etrans).
  apply wp_bind, wp_acquire; [by simpl; rewrite Hh1|simpl; rewrite Hh; apply acq_lock_free; [done|by apply C3]|]. simpl.
  assert (hart_ok h1) as Hok2 by (by rewrite Hh1).
  assert (hs_eq (rel lk (acq (LK_proc me) h1)) (acq (LK_proc me) h)) as Hrel.
  { etrans; [|apply (rel_first lk (LK_proc me) h); [done|lia|done|by apply C3]].
    apply rel_proper; [by apply acq_proper|]. rewrite (the_cpu_acq _ _ Hok2), (inside_cpu _ _ _ C1 C2 Hh). simpl. lia. }
  apply wp_bind, wp_on_hs. unfold wp at 1. simpl hs.
  rewrite (release_held lk (acq (LK_proc me) h1) (the_cpu (acq (LK_proc me) h1))); cycle 1.
  - rewrite lock_of_acq, decide_False by done. by destruct (inside_lock _ _ _ Hh).
  - rewrite lock_of_acq, decide_False by done. by destruct (inside_lock _ _ _ Hh).
  - rewrite the_cpu_acq by done. change (hart (acq (LK_proc me) h1)) with (hart h1). by rewrite acq_cpu.
  - rewrite the_cpu_acq, (inside_cpu _ _ _ C1 C2 Hh) by done. simpl. lia.
  - unfold sie, acq. simpl. apply sie_off.
  - wp_pure. apply (wp_sched _ _); [exact Hrel| |].
    + unfold proc_of. simpl. rewrite list_lookup_alter_eq. by destruct (alter _ _ _ !! me).
    + intros h2 Hh2. eapply wp_mono; [exact (HQ h2 Hh2)|]. intros [] k' [Hh' HQ']. wp_pure.
      apply (wp_release_eq (LK_proc me) h); [done|by apply C3|exact Hh'|]. intros h3 Hh3.
      apply (wp_acquire lk); [by simpl; rewrite Hh3|simpl; rewrite Hh3; apply C3|]. simpl.
      apply (HQ' (acq lk h3)). apply acq_proper; [by rewrite Hh3|done].
Qed.
End sleep.
