(* ===== verification/Sleeplock.v ===== *)
(** * Sleep locks (kernel/sleeplock.c)

    Long-term locks for processes; a process that finds one taken sleeps until
    it is released. *)

From stdpp Require Import gmap list strings.
From Stdlib Require Import ZArith Lia.
From S2P Require Import Prelude Mem Params FsData Machine Spinlock Sched.
#[local] Open Scope Z_scope.

(** ** Definitions *)

Definition get_fs {A} (f : fsys → A) : K A := gets (λ k, f (fs k)).
Definition set_fs (f : fsys → fsys) : K unit := modify (upd_fs f).

Definition sleeplock0 : sleeplock := mkSleep 0 EmptyString 0.
Definition sleeplock_of (f : fsys) (s : slid) : sleeplock :=
  default sleeplock0 (sleeplocks f !! s).
Definition set_sleeplock (s : slid) (g : sleeplock → sleeplock) (f : fsys) : fsys :=
  upd_sleeplocks <[s := g (sleeplock_of f s)]> f.

Definition initsleeplock (s : slid) (name : string) : K unit :=
  initlock (LK_sleep s) "sleep lock";;
  set_fs (set_sleeplock s (λ l, mkSleep (sl_locked l) name (sl_pid l)));;
  set_fs (set_sleeplock s (λ l, mkSleep 0 (sl_name l) (sl_pid l)));;
  set_fs (set_sleeplock s (λ l, mkSleep (sl_locked l) (sl_name l) 0)).

Definition acquiresleep `{OTH : Others} (s : slid) : K unit :=
  acquire (LK_sleep s);;
  loop (λ _,
    l ← get_fs (λ f, sl_locked (sleeplock_of f s));
    if nz l then sleep (Ch_sleep s) (LK_sleep s);; continue tt else break tt) tt;;
  set_fs (set_sleeplock s (λ l, mkSleep 1 (sl_name l) (sl_pid l)));;
  p ← curproc;
  pid ← get_proc p p_pid;
  set_fs (set_sleeplock s (λ l, mkSleep (sl_locked l) (sl_name l) pid));;
  release (LK_sleep s).

Definition releasesleep (s : slid) : K unit :=
  acquire (LK_sleep s);;
  set_fs (set_sleeplock s (λ l, mkSleep 0 (sl_name l) (sl_pid l)));;
  set_fs (set_sleeplock s (λ l, mkSleep (sl_locked l) (sl_name l) 0));;
  wakeup (Some (Ch_sleep s));;
  release (LK_sleep s).

Definition holdingsleep (s : slid) : K bool :=
  acquire (LK_sleep s);;
  l ← get_fs (λ f, sleeplock_of f s);
  r ← (if nz (sl_locked l) then
         p ← curproc;
         pid ← get_proc p p_pid;
         mret (sl_pid l =? pid)
       else mret false);
  release (LK_sleep s);;
  mret r.

(** ** Specification *)

Lemma wp_get_fs {A} (f : fsys → A) k (Q : A → kernel → Prop) :
  Q (f (fs k)) k → wp (get_fs f) k Q.
Proof. done. Qed.
Lemma wp_set_fs f k (Q : unit → kernel → Prop) : Q tt (upd_fs f k) → wp (set_fs f) k Q.
Proof. done. Qed.

Ltac wp_fs :=
  lazymatch goal with
  | |- wp (get_fs _) _ _ => apply wp_get_fs
  | |- wp (set_fs _) _ _ => apply wp_set_fs
  | _ => wp_proc
  end.
Ltac wp_prim ::= wp_fs.

(** A sleep lock as releasesleep() leaves it, and one held by process [pid]. *)
Definition sl_free (l : sleeplock) : sleeplock := mkSleep 0 (sl_name l) 0.
Definition sl_held (pid : Z) (l : sleeplock) : sleeplock := mkSleep 1 (sl_name l) pid.

Lemma sleeplock_of_set s g f s' :
  sleeplock_of (set_sleeplock s g f) s' =
    if decide (s = s') then g (sleeplock_of f s) else sleeplock_of f s'.
Proof.
  unfold sleeplock_of, set_sleeplock. simpl. rewrite lookup_insert. by case_decide.
Qed.

Lemma set_sleeplock_set s g g' f :
  set_sleeplock s g (set_sleeplock s g' f) = set_sleeplock s (λ l, g (g' l)) f.
Proof.
  unfold set_sleeplock at 1. rewrite sleeplock_of_set, decide_True by done.
  unfold set_sleeplock, upd_sleeplocks. simpl. by rewrite insert_insert_eq.
Qed.

(** The state of a call that only changes [fs], by [g]. *)
Definition fs_after (g : fsys → fsys) (k k' : kernel) : Prop :=
  kquiet k k' ∧ fs k' = g (fs k).

Section sleeplock_specs.
Context (me : nat) (k : kernel) (Hrun : running me k).

Lemma acquiresleep_spec `{OTH : Others} s :
  sl_locked (sleeplock_of (fs k) s) = 0 →
  wp (acquiresleep s) k (λ _ k',
    fs_after (set_sleeplock s (sl_held (mypid me k))) k k').
Proof.
  intros Hl. destruct Hrun as [Hc Hp]. unfold acquiresleep.
  apply wp_bind, (wp_enter _ me); [done|].
  apply wp_bind. apply (wp_loop _ (λ _ k', k' = upd_hs (acq (LK_sleep s)) k) (λ _ _, 0));
    [|done|lia].
  intros [] ? ->. wp_pure. simpl fs. rewrite Hl. change (nz 0) with false. wp_pure. cbv iota. wp_pure.
  destruct (inside_ok (LK_sleep s) me (acq (LK_sleep s) (hs k))) as (H1 & H2 & H3);
    [by apply calm_inside|].
  apply (wp_curproc me); [done..|]. intros h Hh. wp_pure.
  eapply (wp_leave _ me (hs k)); [done|exact Hh|]. intros h' Hh'. split.
  - by split.
  - simpl. by rewrite set_sleeplock_set.
Qed.

Lemma releasesleep_spec s :
  wp (releasesleep s) k (λ _ k', fs_after (set_sleeplock s sl_free) k k').
Proof.
  destruct Hrun as [Hc Hp]. unfold releasesleep.
  apply wp_bind, (wp_enter _ me); [done|]. wp_pure.
  eapply (wp_wakeup_inside _ (LK_sleep s) me (hs k)); [done..|]. intros h Hh.
  eapply (wp_leave _ me (hs k)); [done|exact Hh|]. intros h' Hh'. split.
  - split; try done. apply woke_wake_all.
  - simpl. by rewrite set_sleeplock_set.
Qed.

Lemma holdingsleep_spec s :
  wp (holdingsleep s) k (λ r k',
    r = nz (sl_locked (sleeplock_of (fs k) s)) && (sl_pid (sleeplock_of (fs k) s) =? mypid me k) ∧
    fs_after id k k').
Proof.
  destruct Hrun as [Hc Hp]. unfold holdingsleep.
  apply wp_bind, (wp_enter _ me); [done|]. wp_pure. simpl fs.
  destruct (nz _) eqn:E; wp_pure.
  - destruct (inside_ok (LK_sleep s) me (acq (LK_sleep s) (hs k))) as (H1 & H2 & H3);
      [by apply calm_inside|].
    apply (wp_curproc me); [done..|]. intros h Hh. wp_pure.
    eapply (wp_leave _ me (hs k)); [done|exact Hh|]. intros h' Hh'. wp_pure.
    split; [done|]. by split.
  - eapply (wp_leave _ me (hs k)); [done|done|]. intros h' Hh'. wp_pure.
    split; [done|]. by split.
Qed.
End sleeplock_specs.
