(* ===== verification/Ring.v ===== *)
(** * Doubly linked rings

    The list of buffers in bio.c, linked through [b_prev] and [b_next] and
    closed by [bcache.head] (buffer 0), and what the pointer operations do to
    it. *)

From stdpp Require Import gmap list strings.
From Stdlib Require Import ZArith Lia.
From S2P Require Import Prelude Mem Params FsData.
#[local] Open Scope Z_scope.

(** ** Chains

    Consecutive elements of [l] point to each other. *)
Section chainl.
Implicit Types (nx pv : nat → nat) (l : list nat).

Fixpoint chain_from nx pv (a : nat) l : Prop :=
  match l with
  | [] => True
  | b :: l' => nx a = b ∧ pv b = a ∧ chain_from nx pv b l'
  end.
Definition chainl nx pv l : Prop :=
  match l with [] => True | a :: l' => chain_from nx pv a l' end.

Lemma chainl_cons nx pv a b l :
  chainl nx pv (a :: b :: l) ↔ nx a = b ∧ pv b = a ∧ chainl nx pv (b :: l).
Proof. done. Qed.

Lemma chainl_app nx pv l1 a l2 :
  chainl nx pv (l1 ++ a :: l2) ↔ chainl nx pv (l1 ++ [a]) ∧ chainl nx pv (a :: l2).
Proof.
  induction l1 as [|b l1 IH]; [simpl; tauto|].
  destruct l1 as [|c l1].
  - simpl app. rewrite !chainl_cons. simpl. tauto.
  - simpl app in *. rewrite !chainl_cons. rewrite IH. tauto.
Qed.

(** Only the [next] pointers of all but the last element and the [prev]
    pointers of all but the first count. *)
Lemma chainl_ext nx pv nx' pv' l z :
  (∀ a, a ∈ l → nx' a = nx a) → (∀ a, a ∈ tail (l ++ [z]) → pv' a = pv a) →
  chainl nx pv (l ++ [z]) → chainl nx' pv' (l ++ [z]).
Proof.
  induction l as [|a l IH]; intros Hn Hp; [done|].
  assert (∃ b l', l ++ [z] = b :: l') as (b & l' & E) by (destruct l; simpl; eauto).
  simpl app in *. rewrite E in *. rewrite !chainl_cons. intros (H1 & H2 & H3).
  split_and!.
  - rewrite Hn; [done|by left].
  - rewrite Hp; [done|by left].
  - apply IH; [| |done].
    + intros c Hc. apply Hn. by right.
    + intros c Hc. apply Hp. by right.
Qed.
End chainl.

(** ** Rings of buffers *)

Definition nx (bs : list buf) (i : nat) : nat := b_next (default buf0 (bs !! i)).
Definition pv (bs : list buf) (i : nat) : nat := b_prev (default buf0 (bs !! i)).

(** The ring starts and ends at the head. *)
Definition ring (bs : list buf) (L : list nat) : Prop :=
  chainl (nx bs) (pv bs) (O :: L ++ [O]).

Definition set_nx (i v : nat) (bs : list buf) : list buf := alter (upd_b_next (λ _, v)) i bs.
Definition set_pv (i v : nat) (bs : list buf) : list buf := alter (upd_b_prev (λ _, v)) i bs.

Lemma nx_set_nx bs i v j :
  (i < length bs)%nat → nx (set_nx i v bs) j = if decide (i = j) then v else nx bs j.
Proof.
  intros Hi. unfold nx, set_nx. rewrite list_lookup_alter. case_decide; [|done].
  subst. by destruct (lookup_lt_is_Some_2 _ _ Hi) as [b ->].
Qed.
Lemma pv_set_pv bs i v j :
  (i < length bs)%nat → pv (set_pv i v bs) j = if decide (i = j) then v else pv bs j.
Proof.
  intros Hi. unfold pv, set_pv. rewrite list_lookup_alter. case_decide; [|done].
  subst. by destruct (lookup_lt_is_Some_2 _ _ Hi) as [b ->].
Qed.
Lemma nx_set_pv bs i v j : nx (set_pv i v bs) j = nx bs j.
Proof.
  unfold nx, set_pv. rewrite list_lookup_alter. case_decide; [|done].
  subst. by destruct (bs !! j).
Qed.
Lemma pv_set_nx bs i v j : pv (set_nx i v bs) j = pv bs j.
Proof.
  unfold pv, set_nx. rewrite list_lookup_alter. case_decide; [|done].
  subst. by destruct (bs !! j).
Qed.
Lemma length_set_nx i v bs : length (set_nx i v bs) = length bs.
Proof. apply length_alter. Qed.
Lemma length_set_pv i v bs : length (set_pv i v bs) = length bs.
Proof. apply length_alter. Qed.

Create Rewrite HintDb ring.
#[export] Hint Rewrite length_set_nx length_set_pv nx_set_pv pv_set_nx : ring.

#[local] Ltac ring_lia := (autorewrite with ring; lia).

(** A list of distinct buffers of the table. *)
Definition ring_ok (n : nat) (L : list nat) : Prop :=
  NoDup L ∧ Forall (λ i, (0 < i < n)%nat) L.

(** Take buffer [x] out of the ring. *)
Definition unlink (x : nat) (bs : list buf) : list buf :=
  let bs := set_pv (nx bs x) (pv bs x) bs in
  set_nx (pv bs x) (nx bs x) bs.

(** Put buffer [x] in front. *)
Definition push_front (x : nat) (bs : list buf) : list buf :=
  let bs := set_pv x O (set_nx x (nx bs O) bs) in
  let bs := set_pv (nx bs O) x bs in
  set_nx O x bs.

Lemma ring_hd bs L : ring bs L → nx bs O = default O (head L).
Proof. unfold ring. destruct L as [|a L]; simpl; tauto. Qed.

Lemma push_front_ring n x bs L :
  ring_ok n L → x ∉ L → (0 < x < n)%nat → length bs = n → ring bs L →
  ring (push_front x bs) (x :: L).
Proof.
  intros [Hnd Hr] Hx Hxn Hl HR. pose proof (ring_hd _ _ HR) as Hh.
  unfold push_front. remember (nx bs O) as y eqn:Ey.
  assert (nx (set_pv x O (set_nx x y bs)) O = y) as ->.
  { autorewrite with ring. rewrite nx_set_nx by lia. by destruct (decide (x = O)); [lia|]. }
  assert (y < n)%nat as Hy.
  { rewrite Hh. destruct L as [|a L]; simpl; [lia|]. apply Forall_cons in Hr. lia. }
  unfold ring. rewrite <-app_comm_cons.
  set (bs' := set_nx _ _ _).
  assert (∀ j, nx bs' j = if decide (O = j) then x else if decide (x = j) then y else nx bs j)
    as Hnx.
  { intros j. unfold bs'. rewrite nx_set_nx by ring_lia.
    case_decide; [done|]. autorewrite with ring. by rewrite nx_set_nx by lia. }
  assert (∀ j, pv bs' j = if decide (y = j) then x else if decide (x = j) then O else pv bs j)
    as Hpv.
  { intros j. unfold bs'. autorewrite with ring.
    rewrite pv_set_pv by ring_lia. case_decide; [done|].
    rewrite pv_set_pv by ring_lia. by autorewrite with ring. }
  assert (y ∉ tail (L ++ [O]) ∧ ∃ l, L ++ [O] = y :: l) as [Hy1 [l Hl']].
  { rewrite Hh. destruct L as [|a L]; simpl.
    - split; [apply not_elem_of_nil|by exists []].
    - split; [|by eexists]. apply Forall_cons in Hr as [? ?]. apply NoDup_cons in Hnd as [? ?].
      rewrite elem_of_app, list_elem_of_singleton. intros [?|?]; [done|lia]. }
  assert (x ≠ y) as Hxy.
  { intros ->. assert (y ∈ L ++ [O]) as E by (rewrite Hl'; by left).
    rewrite elem_of_app, list_elem_of_singleton in E. destruct E; [done|lia]. }
  unfold ring in HR. rewrite Hl' in HR |- *. rewrite !chainl_cons. split_and!.
  - rewrite Hnx. by case_decide.
  - rewrite Hpv. rewrite decide_False by done. by case_decide.
  - rewrite Hnx. rewrite decide_False by lia. by case_decide.
  - rewrite Hpv. by case_decide.
  - destruct HR as (_ & _ & HR). change (chainl (nx bs) (pv bs) (y :: l)) in HR.
    rewrite <-Hl' in HR |- *. revert HR. apply chainl_ext.
    + intros a Ha. rewrite Hnx. rewrite Forall_forall in Hr. specialize (Hr a Ha).
      rewrite decide_False by lia. rewrite decide_False; [done|]. by intros ->.
    + intros a Ha. rewrite Hpv. rewrite decide_False by (by intros ->).
      rewrite decide_False; [done|]. intros ->. apply elem_of_tl in Ha.
      rewrite elem_of_app, list_elem_of_singleton in Ha. destruct Ha; [done|lia].
Qed.

Section unlink.
(** [p] comes before [x] in the ring, and [y] after it. *)
Context (n x : nat) (bs : list buf) (L1 L2 A B : list nat) (p y : nat).
Hypothesis Hok : ring_ok n (L1 ++ x :: L2).
Hypothesis Hlen : length bs = n.
Hypothesis HR : ring bs (L1 ++ x :: L2).
Hypothesis EA : O :: L1 = A ++ [p].
Hypothesis EB : L2 ++ [O] = y :: B.

Lemma ul_in a : a ∈ L1 ++ x :: L2 → (0 < a < n)%nat.
Proof. destruct Hok as [_ Hr]. rewrite Forall_forall in Hr. apply Hr. Qed.

Lemma ul_p : p ∈ O :: L1.
Proof. rewrite EA. apply elem_of_app. right. by left. Qed.
Lemma ul_y : y ∈ L2 ++ [O].
Proof. rewrite EB. by left. Qed.

Lemma ul_bounds : (x < n ∧ p < n ∧ y < n)%nat.
Proof.
  assert (x < n)%nat by (apply ul_in; apply elem_of_app; right; by left). split; [done|split].
  - pose proof ul_p as [->|Hp]%elem_of_cons; [lia|]. apply ul_in. by apply elem_of_app; left.
  - pose proof ul_y as [Hy|Hy%list_elem_of_singleton]%elem_of_app; [|lia]. apply ul_in. apply elem_of_app. right. by right.
Qed.

Lemma ul_L1 a : a ∈ L1 → a ≠ O ∧ a ∉ L2.
Proof.
  intros Ha. destruct Hok as [Hnd _]. apply NoDup_app in Hnd as (_ & Hdis & _). split.
  - intros ->. assert (O ∈ L1 ++ x :: L2) as E%ul_in; [by apply elem_of_app; left|lia].
  - intros ?. apply (Hdis a Ha). by right.
Qed.
Lemma ul_L2 a : a ∈ L2 → a ≠ O.
Proof. intros Ha ->. assert (O ∈ L1 ++ x :: L2) as E%ul_in; [|lia]. apply elem_of_app. right. by right. Qed.

(** The parts of the ring before and after [x]. *)
Lemma ul_parts :
  chainl (nx bs) (pv bs) (A ++ [p]) ∧ pv bs x = p ∧ nx bs x = y ∧ chainl (nx bs) (pv bs) (y :: B).
Proof.
  unfold ring in HR. rewrite <-app_assoc, app_comm_cons, EA, <-app_comm_cons, EB in HR.
  rewrite <-app_assoc in HR. simpl app in HR. apply chainl_app in HR as [HR1 (E1 & E2 & E3 & E4 & HR2)]. done.
Qed.

Lemma ul_ne : x ≠ y.
Proof.
  destruct Hok as [Hnd _]. apply NoDup_app in Hnd as (_ & _ & [Hx2 _]%NoDup_cons).
  intros E. pose proof ul_y as [Hy|Hy%list_elem_of_singleton]%elem_of_app; [by rewrite <-E in Hy|].
  assert (x ∈ L1 ++ x :: L2) as Hx%ul_in; [apply elem_of_app; right; by left|lia].
Qed.

Lemma unlink_links j :
  nx (unlink x bs) j = (if decide (p = j) then y else nx bs j) ∧ pv (unlink x bs) j = (if decide (y = j) then p else pv bs j).
Proof.
  destruct ul_parts as (_ & E2 & E3 & _). pose proof ul_bounds. pose proof ul_ne.
  unfold unlink. rewrite E2, E3. autorewrite with ring.
  rewrite pv_set_pv by lia. rewrite decide_False, E2, E3 by done. split.
  - rewrite nx_set_nx by ring_lia. by autorewrite with ring.
  - autorewrite with ring. by rewrite pv_set_pv by ring_lia.
Qed.

Lemma unlink_before : chainl (nx (unlink x bs)) (pv (unlink x bs)) (A ++ [p]).
Proof.
  destruct ul_parts as (HR1 & _). revert HR1. apply chainl_ext.
  - intros a Ha. rewrite (proj1 (unlink_links a)), decide_False; [done|]. intros <-.
    assert (NoDup (O :: L1)) as Hn0.
    { destruct Hok as [Hnd _]. apply NoDup_app in Hnd as (Hnd1 & _). apply NoDup_cons. split; [|done]. intros HO. by destruct (ul_L1 O HO). }
    rewrite EA in Hn0. apply NoDup_app in Hn0 as (_ & Hn0 & _). apply (Hn0 p Ha). by left.
  - intros a Ha. rewrite <-EA in Ha. simpl in Ha. rewrite (proj2 (unlink_links a)), decide_False; [done|].
    intros <-. pose proof ul_y as [Hy|Hy%list_elem_of_singleton]%elem_of_app; by destruct (ul_L1 y Ha).
Qed.

Lemma unlink_after : chainl (nx (unlink x bs)) (pv (unlink x bs)) (y :: B).
Proof.
  destruct ul_parts as (_ & _ & _ & HR2). rewrite <-EB in *. revert HR2. apply chainl_ext.
  - intros a Ha. rewrite (proj1 (unlink_links a)), decide_False; [done|]. intros <-.
    pose proof ul_p as [->|Hp]%elem_of_cons; [by apply (ul_L2 O Ha)|]. by destruct (ul_L1 p Hp).
  - intros a Ha. rewrite (proj2 (unlink_links a)), decide_False; [done|]. intros <-.
    destruct Hok as [Hnd _]. apply NoDup_app in Hnd as (_ & _ & [_ Hnd2]%NoDup_cons). pose proof ul_L2 as HL2. clear HR.
    destruct L2 as [|z L2']; simpl in *; [by apply elem_of_nil in Ha|].
    injection EB as -> _. apply NoDup_cons in Hnd2 as [? ?].
    apply elem_of_app in Ha as [?|Ha%list_elem_of_singleton]; [done|]. apply (HL2 y); [by left|done].
Qed.
End unlink.

Lemma unlink_ring n x bs L1 L2 :
  ring_ok n (L1 ++ x :: L2) → length bs = n → ring bs (L1 ++ x :: L2) →
  ring (unlink x bs) (L1 ++ L2).
Proof.
  intros Hok Hl HR.
  assert (∃ A p, O :: L1 = A ++ [p]) as (A & p & EA).
  { destruct (exists_last (l:=O :: L1)) as (A & p & E); [done|]. eauto. }
  assert (∃ y B, L2 ++ [O] = y :: B) as (y & B & EB) by (destruct L2; simpl; eauto).
  unfold ring. rewrite <-app_assoc, EB, app_comm_cons, EA, <-app_assoc. simpl app. apply chainl_app.
  split; [by eapply unlink_before|]. destruct (unlink_links n x bs L1 L2 A B p y Hok Hl HR EA EB p) as [E1 _].
  destruct (unlink_links n x bs L1 L2 A B p y Hok Hl HR EA EB y) as [_ E2].
  rewrite decide_True in E1 by done. rewrite decide_True in E2 by done. split_and!; [done..|]. by eapply unlink_after.
Qed.

(** ** Walking the ring *)

Lemma ring_next bs L1 x L2 : ring bs (L1 ++ x :: L2) → nx bs x = default O (head L2).
Proof.
  unfold ring. rewrite <-app_assoc. intros [_ H]%(chainl_app _ _ (O :: L1) x (L2 ++ [O])).
  by destruct L2, H.
Qed.

Lemma ring_prev bs L1 x L2 : ring bs (L1 ++ x :: L2) → pv bs x = default O (last L1).
Proof.
  unfold ring. destruct L1 as [|y L1 _] using rev_ind.
  - simpl. intros (_ & H & _). done.
  - rewrite last_snoc. rewrite <-!app_assoc.
    intros [_ H]%(chainl_app _ _ (O :: L1) y (x :: L2 ++ [O])). by destruct H as (_ & H & _).
Qed.

Lemma ring_last bs L : ring bs L → pv bs O = default O (last L).
Proof.
  unfold ring. destruct L as [|y L _] using rev_ind.
  - simpl. tauto.
  - rewrite last_snoc. rewrite <-!app_assoc.
    intros [_ H]%(chainl_app _ _ (O :: L) y [O]). by destruct H as (_ & H & _).
Qed.

(** ** Everything but the links *)

Definition strip (b : buf) : buf := upd_b_prev (λ _, O) (upd_b_next (λ _, O) b).

Lemma strip_set_nx i v bs : strip <$> set_nx i v bs = strip <$> bs.
Proof.
  apply list_eq. intros j. unfold set_nx. rewrite !list_lookup_fmap, list_lookup_alter.
  case_decide; [|done]. subst j. by destruct (bs !! i).
Qed.
Lemma strip_set_pv i v bs : strip <$> set_pv i v bs = strip <$> bs.
Proof.
  apply list_eq. intros j. unfold set_pv. rewrite !list_lookup_fmap, list_lookup_alter.
  case_decide; [|done]. subst j. by destruct (bs !! i).
Qed.

Lemma strip_unlink x bs : strip <$> unlink x bs = strip <$> bs.
Proof. unfold unlink. by rewrite strip_set_nx, strip_set_pv. Qed.
Lemma strip_push_front x bs : strip <$> push_front x bs = strip <$> bs.
Proof. unfold push_front. by rewrite strip_set_nx, !strip_set_pv, strip_set_nx. Qed.

Lemma strip_length (bs bs' : list buf) : strip <$> bs' = strip <$> bs → length bs' = length bs.
Proof. intros E. by rewrite <-(length_fmap strip bs'), E, length_fmap. Qed.

Lemma strip_lookup (bs bs' : list buf) i b' :
  strip <$> bs' = strip <$> bs → bs' !! i = Some b' →
  ∃ b, bs !! i = Some b ∧ strip b = strip b'.
Proof.
  intros E Hb. assert ((strip <$> bs) !! i = Some (strip b')) as Hi
    by (by rewrite <-E, list_lookup_fmap, Hb).
  rewrite list_lookup_fmap in Hi. apply fmap_Some in Hi as (b & Hb' & ?). eauto.
Qed.

(** brelse(): move buffer [x] to the front. *)
Lemma move_front_ring n x bs L :
  ring_ok n L → length bs = n → ring bs L → x ∈ L →
  ∃ L', L' ≡ₚ L ∧ ring (push_front x (unlink x bs)) L'.
Proof.
  intros Hok Hl HR (L1 & L2 & ->)%list_elem_of_split.
  exists (x :: L1 ++ L2). split; [by rewrite Permutation_middle|].
  pose proof Hok as [Hnd Hr].
  assert (NoDup (x :: L1 ++ L2)) as [Hx Hnd']%NoDup_cons by (by rewrite Permutation_middle).
  assert (Forall (λ i, (0 < i < n)%nat) (x :: L1 ++ L2)) as [Hx0 Hr']%Forall_cons
    by (by rewrite Permutation_middle).
  apply (push_front_ring n); [by split|done|done| |by apply (unlink_ring n)].
  rewrite <-Hl. apply strip_length, strip_unlink.
Qed.
