(* ===== verification/Bio.v ===== *)
(** * The buffer cache (kernel/bio.c)

    Definitions of bio.c over the kernel state.  The buffers form a ring through
    [bcache.head], in the pointers [b_prev] and [b_next]; buffer 0 is the head.

    virtio_disk_rw() appears here through what it does for its caller, the
    transfer of one block ([disk_rw]); how the driver does it is the subject of
    the virtio model. *)

From stdpp Require Import gmap list strings.
From Stdlib Require Import ZArith Lia.
From S2P Require Import Prelude Mem Params FsData Machine Spinlock Sched Sleeplock.
#[local] Open Scope Z_scope.

(** ** Definitions *)

Definition dget (d : gmap Z block) (b : Z) : block := default zero_block (d !! b).

Definition buf_of (f : fsys) (i : nat) : buf := default buf0 (bcache f !! i).
Definition get_buf {A} (i : nat) (g : buf → A) : K A := get_fs (λ f, g (buf_of f i)).
Definition set_buf (i : nat) (g : buf → buf) : K unit := set_fs (upd_bcache (alter g i)).

(** virtio_disk_rw(b, write): write [b->data] to the disk, or read it. *)
Definition disk_rw (i : nat) (write : bool) : K unit :=
  b ← get_buf i b_blockno;
  if write then
    d ← get_buf i b_data;
    set_fs (upd_disk <[b := d]>);;
    set_fs (upd_writes (λ ws, ws ++ [(b, d)]))
  else
    d ← get_fs (λ f, dget (disk f) b);
    set_buf i (upd_b_data (λ _, d)).

Definition binit : K unit :=
  initlock LK_bcache "bcache";;
  set_buf 0 (upd_b_prev (λ _, O));;
  set_buf 0 (upd_b_next (λ _, O));;
  loop (λ b,
    if Z.of_nat b <? 1 + NBUF then
      first ← get_buf 0 b_next;
      set_buf b (upd_b_next (λ _, first));;
      set_buf b (upd_b_prev (λ _, O));;
      initsleeplock (SL_buf b) "buffer";;
      first ← get_buf 0 b_next;
      set_buf first (upd_b_prev (λ _, b));;
      set_buf 0 (upd_b_next (λ _, b));;
      continue (S b)
    else break tt) 1%nat.

Section bio_defs.
Context `{OTH : Others}.

(** The first loop of bget(): is the block cached? *)
Definition bget_cached (dev blockno : Z) : K (option nat) :=
  first ← get_buf 0 b_next;
  loop (λ b,
    if bool_decide (b = O) then break None else
    d ← get_buf b b_dev;
    n ← get_buf b b_blockno;
    if (d =? dev) && (n =? blockno) then
      set_buf b (upd_b_refcnt (λ r, u32 (r + 1)));;
      release LK_bcache;;
      acquiresleep (SL_buf b);;
      break (Some b)
    else
      next ← get_buf b b_next;
      continue next) first.

(** The second loop: recycle the least recently used unused buffer. *)
Definition bget_recycle (dev blockno : Z) : K nat :=
  last ← get_buf 0 b_prev;
  loop (λ b,
    if bool_decide (b = O) then panic "bget: no buffers" else
    r ← get_buf b b_refcnt;
    if r =? 0 then
      set_buf b (upd_b_dev (λ _, dev));;
      set_buf b (upd_b_blockno (λ _, blockno));;
      set_buf b (upd_b_valid (λ _, 0));;
      set_buf b (upd_b_refcnt (λ _, 1));;
      release LK_bcache;;
      acquiresleep (SL_buf b);;
      break b
    else
      prev ← get_buf b b_prev;
      continue prev) last.

Definition bget (dev blockno : Z) : K nat :=
  acquire LK_bcache;;
  r ← bget_cached dev blockno;
  match r with
  | Some b => mret b
  | None => bget_recycle dev blockno
  end.

Definition bread (dev blockno : Z) : K nat :=
  b ← bget dev blockno;
  v ← get_buf b b_valid;
  when (v =? 0) (disk_rw b false;; set_buf b (upd_b_valid (λ _, 1)));;
  mret b.
End bio_defs.

Definition bwrite (b : nat) : K unit :=
  h ← holdingsleep (SL_buf b);
  if negb h then panic "bwrite" else disk_rw b true.

(** The pointer surgery of brelse(). *)
Definition to_front (b : nat) : K unit :=
  n ← get_buf b b_next; p ← get_buf b b_prev;
  set_buf n (upd_b_prev (λ _, p));;
  n ← get_buf b b_next; p ← get_buf b b_prev;
  set_buf p (upd_b_next (λ _, n));;
  first ← get_buf 0 b_next;
  set_buf b (upd_b_next (λ _, first));;
  set_buf b (upd_b_prev (λ _, O));;
  first ← get_buf 0 b_next;
  set_buf first (upd_b_prev (λ _, b));;
  set_buf 0 (upd_b_next (λ _, b)).

Definition brelse (b : nat) : K unit :=
  h ← holdingsleep (SL_buf b);
  if negb h then panic "brelse" else
  releasesleep (SL_buf b);;
  acquire LK_bcache;;
  set_buf b (upd_b_refcnt (λ r, u32 (r - 1)));;
  r ← get_buf b b_refcnt;
  when (r =? 0) (to_front b);;
  release LK_bcache.

Definition bpin (b : nat) : K unit :=
  acquire LK_bcache;;
  set_buf b (upd_b_refcnt (λ r, u32 (r + 1)));;
  release LK_bcache.

Definition bunpin (b : nat) : K unit :=
  acquire LK_bcache;;
  set_buf b (upd_b_refcnt (λ r, u32 (r - 1)));;
  release LK_bcache.
