(* ===== verification/BioSpec.v ===== *)
(** * What the buffer cache promises

    The invariant of the buffer cache and the specification of each function of
    bio.c against it.  The invariant names three things the pointers hide: the
    contents [V] of every disk block as the file system sees it, the buffers
    [H] the running process holds (with block number and current data), and the
    blocks [P] that the log has pinned, whose contents are not on disk yet. *)

From stdpp Require Import gmap list strings.
From Stdlib Require Import ZArith Lia.
From S2P Require Import Prelude Mem Params FsData Machine Spinlock Sched Sleeplock Ring Bio.
#[local] Open Scope Z_scope.

(** ** The invariant *)

Abbreviation view := (Z → block).
Abbreviation holds := (gmap nat (Z * block)).

Definition vset (V : view) (n : Z) (d : block) : view := λ m, if decide (n = m) then d else V m.

Definition pinned (P : gset Z) (b : buf) : bool :=
  bool_decide (b_dev b = ROOTDEV ∧ b_blockno b ∈ P).

(** One buffer, with its sleep lock [l]; [h] is what the running process (with
    pid [pid]) holds of it. *)
Record buf_ok (pid : Z) (V : view) (P : gset Z) (h : option (Z * block)) (l : sleeplock)
    (b : buf) : Prop := {
  bk_dev : b_dev b = 0 ∨ b_dev b = ROOTDEV;
  bk_valid : b_valid b = 0 ∨ b_valid b = 1 ∧ b_dev b = ROOTDEV;
  bk_pin : pinned P b = true → b_valid b = 1;
  bk_ref : b_refcnt b = (if h is Some _ then 1 else 0) + (if pinned P b then 1 else 0);
  bk_held : ∀ n d, h = Some (n, d) →
    b_blockno b = n ∧ b_data b = d ∧ b_valid b = 1 ∧ length d = Z.to_nat BSIZE ∧
    sl_locked l = 1 ∧ sl_pid l = pid;
  bk_free : h = None →
    sl_locked l = 0 ∧ (b_valid b = 1 → b_data b = V (b_blockno b));
}.

Definition NB : nat := Z.to_nat NBUF.
#[global] Arguments NB : simpl never.

Record bcache_ok (pid : Z) (f : fsys) (V : view) (H : holds) (P : gset Z) : Prop := {
  bo_len : length (bcache f) = S NB;
  bo_ring : ∃ L, L ≡ₚ seq 1 NB ∧ ring (bcache f) L;
  bo_buf : ∀ i b, (0 < i)%nat → bcache f !! i = Some b →
    buf_ok pid V P (H !! i) (sleeplock_of f (SL_buf i)) b;
  bo_uniq : ∀ i j b b', (0 < i)%nat → (0 < j)%nat →
    bcache f !! i = Some b → bcache f !! j = Some b' →
    b_dev b = ROOTDEV → b_dev b' = ROOTDEV → b_blockno b = b_blockno b' → i = j;
  bo_held : ∀ i, is_Some (H !! i) → (0 < i ≤ NB)%nat;
  bo_pin : ∀ n, n ∈ P → ∃ i b, (0 < i)%nat ∧ bcache f !! i = Some b ∧
    b_dev b = ROOTDEV ∧ b_blockno b = n;
  bo_disk : ∀ n, n ∉ P → dget (disk f) n = V n;
  bo_size : ∀ n, length (V n) = Z.to_nat BSIZE;
}.

(** What bio.c leaves alone. *)
Record cache_only (f f' : fsys) : Prop := {
  co_log : log f' = log f;
  co_sb : sb f' = sb f;
  co_itable : itable f' = itable f;
  co_ftable : ftable f' = ftable f;
  co_pipes : pipes f' = pipes f;
  co_ilock : ∀ i, sleeplock_of f' (SL_inode i) = sleeplock_of f (SL_inode i);
}.

#[export] Instance cache_only_preorder : PreOrder cache_only.
Proof.
  split; [by split|]. intros f1 f2 f3 [] []. split; [congruence..|].
  intros i. etrans; eauto.
Qed.

(** ** The invariant under changes *)

Lemma vset_eq V n d : vset V n d n = d.
Proof. unfold vset. by case_decide. Qed.
Lemma vset_ne V n d m : n ≠ m → vset V n d m = V m.
Proof. intros. unfold vset. by case_decide. Qed.

Lemma dget_insert d n b m : dget (<[n := b]> d) m = if decide (n = m) then b else dget d m.
Proof. unfold dget. rewrite lookup_insert. by destruct (decide (n = m)). Qed.

(** One buffer changes; the view, the holds and the pins change with it. *)
Lemma bcache_ok_change pid f f' V V' H H' P P' i b b' :
  bcache_ok pid f V H P → (0 < i)%nat → bcache f !! i = Some b →
  bcache f' = <[i := b']> (bcache f) → b_prev b' = b_prev b → b_next b' = b_next b →
  (∀ j, j ≠ i → sleeplock_of f' (SL_buf j) = sleeplock_of f (SL_buf j)) →
  (∀ j, j ≠ i → H' !! j = H !! j) →
  buf_ok pid V' P' (H' !! i) (sleeplock_of f' (SL_buf i)) b' →
  (b_dev b' = ROOTDEV → ∀ j c, j ≠ i → (0 < j)%nat → bcache f !! j = Some c →
     b_dev c = ROOTDEV → b_blockno c ≠ b_blockno b') →
  (∀ m, ¬ (b_dev b' = ROOTDEV ∧ m = b_blockno b') → V' m = V m ∧ (m ∈ P' ↔ m ∈ P)) →
  (b_dev b = ROOTDEV → b_blockno b ∈ P → b_dev b' = ROOTDEV ∧ b_blockno b' = b_blockno b) →
  (∀ m, m ∉ P' → dget (disk f') m = V' m) →
  (∀ m, length (V' m) = Z.to_nat BSIZE) →
  bcache_ok pid f' V' H' P'.
Proof.
  intros [Ol Or Ob Ou Oh Op Od Os] Hi Hb Eb Epv Enx Esl EH Hb' Huq HVP Hold Hd Hs.
  pose proof (lookup_lt_Some _ _ _ Hb) as Hlt.
  assert (∀ j c, bcache f' !! j = Some c →
    j = i ∧ c = b' ∨ j ≠ i ∧ bcache f !! j = Some c) as Hlk.
  { intros j c. rewrite Eb, list_lookup_insert_Some. naive_solver. }
  split; try done.
  - by rewrite Eb, length_insert.
  - destruct Or as (L & HL & HR). exists L. split; [done|]. revert HR. unfold ring.
    apply (chainl_ext _ _ _ _ (O :: L)); intros a _; unfold nx, pv; rewrite Eb;
      (destruct (decide (a = i)) as [->|];
       [by rewrite list_lookup_insert_eq, Hb | by rewrite list_lookup_insert_ne]).
  - intros j c Hj [[-> ->]|[Hne Hc]]%Hlk; [done|].
    pose proof (Ob j c Hj Hc) as [K1 K2 K3 K4 K5 K6].
    assert (b_dev c = ROOTDEV → V' (b_blockno c) = V (b_blockno c) ∧
      (b_blockno c ∈ P' ↔ b_blockno c ∈ P)) as Hc'.
    { intros Hdc. apply HVP. intros [Hdb ?]. by eapply Huq. }
    assert (pinned P' c = pinned P c) as Ep.
    { unfold pinned. apply bool_decide_ext. naive_solver. }
    rewrite EH, Esl by done. split; rewrite ?Ep; try done.
    intros Hn. destruct (K6 Hn) as [? HV]. split; [done|]. intros Hv.
    rewrite HV by done. destruct K2 as [?|[_ Hdc]]; [congruence|]. by destruct (Hc' Hdc).
  - intros j1 j2 c1 c2 Hj1 Hj2 [[-> ->]|[Hn1 Hc1]]%Hlk [[-> ->]|[Hn2 Hc2]]%Hlk D1 D2 E;
      [done| | |by eapply Ou].
    + exfalso. by eapply (Huq D1 j2 c2).
    + exfalso. by eapply (Huq D2 j1 c1).
  - intros j Hj. destruct (decide (j = i)) as [->|]; [lia|]. apply Oh. by rewrite <-EH.
  - intros m Hm. destruct (decide (b_dev b' = ROOTDEV ∧ m = b_blockno b')) as [[? ->]|Hm'].
    + exists i, b'. split_and!; [done| |done..]. by rewrite Eb, list_lookup_insert_eq.
    + pose proof (HVP m Hm') as [_ HP]. apply HP in Hm as Hm2.
      destruct (Op m Hm2) as (j & c & ? & Hc & ? & Hcm).
      assert (j ≠ i) as Hne.
      { intros ->. rewrite Hb in Hc. injection Hc as <-. rewrite Hcm in Hold.
        destruct Hold; [done..|]. by apply Hm'. }
      exists j, c. split_and!; [done| |done..]. by rewrite Eb, list_lookup_insert_ne.
Qed.

Lemma buf_ok_strip pid V P h l b b' :
  strip b = strip b' → buf_ok pid V P h l b → buf_ok pid V P h l b'.
Proof.
  destruct b, b'. unfold strip, upd_b_prev, upd_b_next. simpl. intros [= <- <- <- <- <- <-].
  intros [K1 K2 K3 K4 K5 K6]. by split.
Qed.

Lemma strip_key b b' :
  strip b = strip b' → b_dev b = b_dev b' ∧ b_blockno b = b_blockno b'.
Proof. intros E. split; [exact (f_equal b_dev E)|exact (f_equal b_blockno E)]. Qed.

(** The order of the buffers changes. *)
Lemma bcache_ok_links pid f bs' V H P L' :
  bcache_ok pid f V H P → strip <$> bs' = strip <$> bcache f →
  L' ≡ₚ seq 1 NB → ring bs' L' → bcache_ok pid (upd_bcache (λ _, bs') f) V H P.
Proof.
  intros [Ol Or Ob Ou Oh Op Od Os] E HL HR. split; try done; simpl.
  - rewrite (strip_length (bcache f)); done.
  - by exists L'.
  - intros i b' Hi Hb'. destruct (strip_lookup _ _ _ _ E Hb') as (b & Hb & Es).
    eapply buf_ok_strip; [exact Es|]. by apply Ob.
  - intros i j b1 b2 Hi Hj H1 H2.
    destruct (strip_lookup _ _ _ _ E H1) as (c1 & Hc1 & E1).
    destruct (strip_lookup _ _ _ _ E H2) as (c2 & Hc2 & E2).
    destruct (strip_key _ _ E1) as [D1 N1], (strip_key _ _ E2) as [D2 N2].
    rewrite <-D1, <-D2, <-N1, <-N2. by apply Ou.
  - intros n Hn. destruct (Op n Hn) as (i & b & Hi & Hb & ? & ?).
    symmetry in E. destruct (strip_lookup _ _ _ _ E Hb) as (b' & Hb' & Es).
    destruct (strip_key _ _ Es) as [D1 N1]. exists i, b'. by rewrite D1, N1.
Qed.

(** While the process holds, and the log pins, fewer buffers than there are,
    some buffer is unused. *)
Lemma free_buffer pid f V H P :
  bcache_ok pid f V H P → (size H + size P < NB)%nat →
  ∃ i b, (0 < i)%nat ∧ bcache f !! i = Some b ∧ b_refcnt b = 0.
Proof.
  intros Hok Hsz.
  destruct (decide (Exists (λ i, b_refcnt (buf_of f i) = 0) (seq 1 NB))) as [He|He].
  { apply Exists_exists in He as (i & Hi & Hr). apply elem_of_seq in Hi.
    destruct (lookup_lt_is_Some_2 (bcache f) i) as [b Hb]; [rewrite (bo_len _ _ _ _ _ Hok); lia|].
    exists i, b. unfold buf_of in Hr. rewrite Hb in Hr. split_and!; [lia|done|done]. }
  exfalso. apply not_Exists_Forall in He; [|apply _]. rewrite Forall_forall in He.
  set (g := λ i, if H !! i is Some _ then inl i else inr (b_blockno (buf_of f i)) : nat + Z).
  assert (∀ i, i ∈ seq 1 NB → ∃ b, (0 < i)%nat ∧ bcache f !! i = Some b ∧
    (H !! i = None → b_dev b = ROOTDEV ∧ b_blockno b ∈ P)) as Hused.
  { intros i Hi. pose proof (He i Hi : b_refcnt (buf_of f i) ≠ 0) as Hri. apply elem_of_seq in Hi.
    destruct (lookup_lt_is_Some_2 (bcache f) i) as [b Hb]; [rewrite (bo_len _ _ _ _ _ Hok); lia|].
    exists b. split_and!; [lia|done|]. intros Hn. unfold buf_of in Hri. rewrite Hb in Hri.
    pose proof (bk_ref _ _ _ _ _ _ (bo_buf _ _ _ _ _ Hok i b ltac:(lia) Hb)) as Hr.
    rewrite Hn in Hr. unfold pinned in Hr. simpl in Hri.
    destruct (bool_decide_reflect (b_dev b = ROOTDEV ∧ b_blockno b ∈ P)); [done|lia]. }
  assert (NoDup (g <$> seq 1 NB)) as Hnd.
  { apply NoDup_fmap_2_strong; [|apply NoDup_seq]. intros i j Hi Hj E.
    destruct (Hused i Hi) as (b & ? & Hb & Hbu), (Hused j Hj) as (c & ? & Hc & Hcu).
    unfold g, buf_of in E. rewrite Hb, Hc in E. simpl in E.
    destruct (H !! i), (H !! j); simplify_eq; [done|].
    destruct Hbu, Hcu; [done..|]. by eapply (bo_uniq _ _ _ _ _ Hok). }
  assert (g <$> seq 1 NB ⊆+ (inl <$> elements (dom H)) ++ (inr <$> elements P)) as Hsub.
  { apply NoDup_submseteq; [done|]. intros x (i & -> & Hi)%list_elem_of_fmap.
    destruct (Hused i Hi) as (b & ? & Hb & Hbu). apply elem_of_app. unfold g.
    destruct (H !! i) eqn:E.
    - left. apply list_elem_of_fmap_2, elem_of_elements, elem_of_dom. eauto.
    - right. apply list_elem_of_fmap_2, elem_of_elements. unfold buf_of. rewrite Hb. by apply Hbu. }
  apply submseteq_length in Hsub.
  rewrite length_app, !length_fmap, length_seq in Hsub.
  change (length (elements (dom H))) with (size (dom H)) in Hsub.
  change (length (elements P)) with (size P) in Hsub. rewrite size_dom in Hsub. lia.
Qed.

(** ** The functions of bio.c *)

Lemma wp_get_buf {A} i (g : buf → A) k (Q : A → kernel → Prop) :
  Q (g (buf_of (fs k) i)) k → wp (get_buf i g) k Q.
Proof. done. Qed.
Lemma wp_set_buf i g k (Q : unit → kernel → Prop) :
  Q tt (upd_fs (upd_bcache (alter g i)) k) → wp (set_buf i g) k Q.
Proof. done. Qed.

Ltac wp_bio :=
  lazymatch goal with
  | |- wp (get_buf _ _) _ _ => apply wp_get_buf
  | |- wp (set_buf _ _) _ _ => apply wp_set_buf
  | _ => wp_fs
  end.
Ltac wp_prim ::= wp_bio.

Lemma upd_buf_upd_buf g g' i k :
  upd_fs (upd_bcache (alter g i)) (upd_fs (upd_bcache (alter g' i)) k) =
  upd_fs (upd_bcache (alter (g ∘ g') i)) k.
Proof. unfold upd_fs, upd_bcache. cbn. by rewrite list_alter_alter_eq. Qed.

Lemma buf_of_lookup f i b : bcache f !! i = Some b → buf_of f i = b.
Proof. intros H. unfold buf_of. by rewrite H. Qed.

Lemma ring_members pid f V H P L i :
  bcache_ok pid f V H P → L ≡ₚ seq 1 NB → i ∈ L →
  (0 < i)%nat ∧ ∃ b, bcache f !! i = Some b.
Proof.
  intros Hok HL Hi. rewrite HL in Hi. apply elem_of_seq in Hi. split; [lia|].
  apply lookup_lt_is_Some_2. rewrite (bo_len _ _ _ _ _ Hok). lia.
Qed.

Section bio_specs.
Context `{OTH : Others} (me : nat) (pid : Z).

(** The state of a process that runs and uses the buffer cache. *)
Record bio_ok (k : kernel) (V : view) (H : holds) (P : gset Z) : Prop := {
  bi_run : running me k;
  bi_pid : mypid me k = pid;
  bi_cache : bcache_ok pid (fs k) V H P;
}.

(** Buffer [i] caches block [n]. *)
Definition caches (f : fsys) (n : Z) (i : nat) (b : buf) : Prop :=
  (0 < i)%nat ∧ bcache f !! i = Some b ∧ b_dev b = ROOTDEV ∧ b_blockno b = n.

(** After bget() found or recycled a buffer: its new contents [g b], locked. *)
Definition got (k k' : kernel) (i : nat) (g : buf → buf) : Prop :=
  kquiet k k' ∧
  fs k' = set_sleeplock (SL_buf i) (sl_held pid) (upd_bcache (alter g i) (fs k)).

(** Leaving the critical section of bget() and locking the buffer. *)
Lemma bget_lock {A} k i g k1 (m : K A) (Q : A → kernel → Prop) :
  running me k → mypid me k = pid →
  sl_locked (sleeplock_of (fs k) (SL_buf i)) = 0 →
  hs_eq (hs k1) (acq LK_bcache (hs k)) → k1 = upd_hs (λ _, hs k1) (upd_fs (upd_bcache (alter g i)) k) →
  (∀ k', got k k' i g → wp m k' Q) →
  wp (release LK_bcache;; acquiresleep (SL_buf i);; m) k1 Q.
Proof.
  intros Hrun Hpid Hl He Ek1 HQ. apply wp_bind.
  eapply (wp_leave _ me (hs k)); [apply Hrun|exact He|]. intros h' Hh'.
  set (k2 := upd_hs _ k1). assert (kquiet k k2) as Hq2 by (unfold k2; rewrite Ek1; by split).
  assert (fs k2 = upd_bcache (alter g i) (fs k)) as Hf2 by (unfold k2; by rewrite Ek1).
  apply wp_bind. eapply wp_mono; [eapply (acquiresleep_spec me)|].
  - by eapply kquiet_running.
  - by rewrite Hf2.
  - intros ? k3 [Hq3 Hf3]. apply HQ. split; [by etrans|].
    rewrite Hf3, Hf2. by rewrite (kquiet_mypid me k k2), Hpid.
Qed.

Definition add_ref (b : buf) : buf := upd_b_refcnt (λ r, u32 (r + 1)) b.
Definition recycle (n : Z) (b : buf) : buf :=
  mkBuf 0 (b_disk b) ROOTDEV n 1 (b_prev b) (b_next b) (b_data b).

(** A buffer nobody holds is unlocked. *)
Lemma unheld_unlocked k V H P i b :
  bio_ok k V H P → (0 < i)%nat → bcache (fs k) !! i = Some b → H !! i = None →
  sl_locked (sleeplock_of (fs k) (SL_buf i)) = 0.
Proof.
  intros [_ _ Hok] Hi Hb Hn. pose proof (bo_buf _ _ _ _ _ Hok i b Hi Hb) as Hbo.
  by apply (bk_free _ _ _ _ _ _ Hbo Hn).
Qed.

(** The first loop of bget(): the buffer that caches the block, if one does. *)
Lemma bget_cached_spec k V H P n :
  bio_ok k V H P → (∀ i d, H !! i ≠ Some (n, d)) →
  wp (bget_cached ROOTDEV n) (upd_hs (acq LK_bcache) k) (λ r k',
    match r with
    | Some i => ∃ b, caches (fs k) n i b ∧ H !! i = None ∧ got k k' i add_ref
    | None => k' = upd_hs (acq LK_bcache) k ∧ ∀ i b, ¬ caches (fs k) n i b
    end).
Proof.
  intros Hbi Hn. pose proof Hbi as [Hrun Hpid Hok]. destruct (bo_ring _ _ _ _ _ Hok) as (L & HL & HR).
  unfold bget_cached. wp_pure.
  apply (wp_loop_ix _ (λ m b k', k' = upd_hs (acq LK_bcache) k ∧ ∃ L1 L2, L = L1 ++ L2 ∧
            m = length L2 ∧ b = default O (head L2) ∧ ∀ i c, i ∈ L1 → ¬ caches (fs k) n i c))
    with (n := length L).
  - intros m i k' (-> & L1 & L2 & -> & -> & -> & Hno). destruct L2 as [|i L2]; simpl.
    + wp_pure. split; [done|]. intros i c Hc. apply (Hno i c); [|done].
      rewrite app_nil_r in HL. rewrite HL. apply elem_of_seq.
      destruct Hc as (? & Hc & _). apply lookup_lt_Some in Hc.
      rewrite (bo_len _ _ _ _ _ Hok) in Hc. lia.
    + destruct (ring_members _ _ _ _ _ _ i Hok HL) as (Hi & b & Hb); [set_solver|].
      rewrite bool_decide_false by lia. wp_pure. simpl fs. rewrite (buf_of_lookup _ _ _ Hb).
      destruct (_ && _) eqn:E.
      * apply andb_true_iff in E as [Ed%Z.eqb_eq En%Z.eqb_eq].
        assert (H !! i = None) as HHi.
        { destruct (H !! i) as [[n' d]|] eqn:E; [|done]. exfalso. apply (Hn i d).
          destruct (bk_held _ _ _ _ _ _ (bo_buf _ _ _ _ _ Hok i b Hi Hb) n' d E) as [<- _].
          by rewrite <-En. }
        apply wp_bind, wp_set_buf. eapply (bget_lock k i add_ref); [done|done| |done|done|].
        { by eapply unheld_unlocked. }
        intros k' Hg. wp_pure. by exists b.
      * wp_pure. exists (length L2). split; [lia|]. split; [done|].
        exists (L1 ++ [i]), L2. rewrite <-app_assoc. split_and!; [done|done| |].
        { rewrite <-(ring_next _ _ _ _ HR). unfold nx, buf_of. simpl. by rewrite Hb. }
        intros j c [Hj|Hj%list_elem_of_singleton]%elem_of_app; [by apply Hno|]. subst j.
        intros (_ & Hc & Ed & En). rewrite Hb in Hc. injection Hc as <-.
        by rewrite Ed, En, !Z.eqb_refl in E.
  - split; [done|]. exists [], L. split_and!; [done|done| |].
    + rewrite <-(ring_hd _ _ HR). done.
    + intros i c Hi. by apply elem_of_nil in Hi.
  - rewrite HL, length_seq. unfold NB, NBUF, MAXOPBLOCKS. lia.
Qed.

(** The second loop: it finds an unused buffer. *)
Lemma bget_recycle_spec k V H P n :
  bio_ok k V H P → (size H + size P < NB)%nat →
  wp (bget_recycle ROOTDEV n) (upd_hs (acq LK_bcache) k) (λ i k',
    ∃ b, (0 < i)%nat ∧ bcache (fs k) !! i = Some b ∧ b_refcnt b = 0 ∧ got k k' i (recycle n)).
Proof.
  intros Hbi Hsz. pose proof Hbi as [Hrun Hpid Hok]. destruct (bo_ring _ _ _ _ _ Hok) as (L & HL & HR).
  unfold bget_recycle. wp_pure.
  apply (wp_loop_ix _ (λ m b k', k' = upd_hs (acq LK_bcache) k ∧ ∃ L1 L2, L = L1 ++ L2 ∧
            m = length L1 ∧ b = default O (last L1) ∧
            ∀ i, i ∈ L2 → b_refcnt (buf_of (fs k) i) ≠ 0))
    with (n := length L).
  - intros m i k' (-> & L1 & L2 & -> & -> & -> & Hno). destruct L1 as [|i L1 _] using rev_ind; simpl.
    + exfalso. destruct (free_buffer _ _ _ _ _ Hok Hsz) as (i & b & Hi & Hb & Hr).
      apply (Hno i); [|by rewrite (buf_of_lookup _ _ _ Hb)]. rewrite app_nil_l in HL. rewrite HL.
      apply elem_of_seq. apply lookup_lt_Some in Hb. rewrite (bo_len _ _ _ _ _ Hok) in Hb. lia.
    + rewrite last_snoc. simpl default. rewrite <-app_assoc in HL, HR. cbn [app] in HL, HR.
      destruct (ring_members _ _ _ _ _ _ i Hok HL) as (Hi & b & Hb); [set_solver|].
      rewrite bool_decide_false by lia. wp_pure. simpl fs. rewrite (buf_of_lookup _ _ _ Hb).
      destruct (Z.eqb_spec (b_refcnt b) 0) as [Er|Er].
      * do 4 (apply wp_bind, wp_set_buf).
        assert (H !! i = None) as HHi.
        { pose proof (bk_ref _ _ _ _ _ _ (bo_buf _ _ _ _ _ Hok i b Hi Hb)) as E.
          destruct (H !! i); [|done]. destruct (pinned P b); lia. }
        eapply (bget_lock k i (recycle n)); [done|done| |done| |].
        { by eapply unheld_unlocked. }
        { rewrite !upd_buf_upd_buf. reflexivity. }
        intros k' Hg. wp_pure. exists b. by split_and!.
      * wp_pure. exists (length L1). split; [rewrite length_app; simpl; lia|]. split; [done|].
        exists L1, (i :: L2). rewrite <-app_assoc. split_and!; [done|done| |].
        { rewrite <-(ring_prev _ _ _ _ HR). unfold pv, buf_of. simpl. by rewrite Hb. }
        intros j [->|Hj]%elem_of_cons; [by rewrite (buf_of_lookup _ _ _ Hb)|by apply Hno].
  - split; [done|]. exists L, []. rewrite app_nil_r. split_and!; [done|done| |].
    + rewrite <-(ring_last _ _ HR). done.
    + intros i Hi. by apply elem_of_nil in Hi.
  - rewrite HL, length_seq. unfold NB, NBUF, MAXOPBLOCKS. lia.
Qed.

(** Calls that use the cache and do not write to the disk. *)
Record quiet_io (k k' : kernel) : Prop := {
  qi_quiet : kquiet k k';
  qi_cache : cache_only (fs k) (fs k');
  qi_disk : disk (fs k') = disk (fs k);
  qi_writes : writes (fs k') = writes (fs k);
}.

#[export] Instance quiet_io_preorder : PreOrder quiet_io.
Proof.
  split; [by split|]. intros k1 k2 k3 [] []. split; [by etrans|by etrans|congruence..].
Qed.

(** A buffer becomes held. *)
Lemma hold_ok f f' V H P i b b' n :
  bcache_ok pid f V H P → (0 < i)%nat → bcache f !! i = Some b → H !! i = None →
  bcache f' = <[i := b']> (bcache f) → b_prev b' = b_prev b → b_next b' = b_next b →
  (∀ j, sleeplock_of f' (SL_buf j) =
    if decide (j = i) then sl_held pid (sleeplock_of f (SL_buf j)) else sleeplock_of f (SL_buf j)) →
  disk f' = disk f →
  b_dev b' = ROOTDEV → b_blockno b' = n → b_valid b' = 1 → b_data b' = V n →
  b_refcnt b' = 1 + (if bool_decide (n ∈ P) then 1 else 0) →
  (∀ j c, j ≠ i → ¬ caches f n j c) → (b_dev b = ROOTDEV → b_blockno b ∈ P → b_blockno b = n) →
  bcache_ok pid f' V (<[i := (n, V n)]> H) P.
Proof.
  intros Hok Hi Hb HHi Eb Epv Enx Esl Ed Hdev Hno Hv Hda Hr Hothers Hpin.
  eapply (bcache_ok_change pid f f' V V H _ P P i b b'); try done.
  - intros j Hj. rewrite Esl. by rewrite decide_False.
  - intros j Hj. by rewrite lookup_insert_ne.
  - rewrite lookup_insert_eq, Esl, decide_True by done. split; try done.
    + by right.
    + by right.
    + rewrite Hr. unfold pinned. rewrite Hno.
      rewrite (bool_decide_ext (b_dev b' = ROOTDEV ∧ n ∈ P) (n ∈ P)); naive_solver.
    + intros n' d' [= <- <-]. split_and!; try done. apply (bo_size _ _ _ _ _ Hok).
  - intros _ j c Hj Hj0 Hc Hdc Hnc. apply (Hothers j c Hj). rewrite <-Hno, <-Hnc. done.
  - naive_solver.
  - intros m Hm. rewrite Ed. by apply (bo_disk _ _ _ _ _ Hok).
  - apply (bo_size _ _ _ _ _ Hok).
Qed.

Lemma got_sleeplocks k k' i g :
  got k k' i g → ∀ s, sleeplock_of (fs k') s =
    if decide (s = SL_buf i) then sl_held pid (sleeplock_of (fs k) s) else sleeplock_of (fs k) s.
Proof.
  intros [_ E] s. rewrite E, sleeplock_of_set. unfold sleeplock_of. simpl.
  repeat case_decide; congruence.
Qed.

(** What bget() returns. *)
Definition bget_post (k : kernel) (H : holds) (n : Z) (i : nat) (k' : kernel) : Prop :=
  ∃ b g, (0 < i)%nat ∧ bcache (fs k) !! i = Some b ∧ H !! i = None ∧ got k k' i g ∧
    (caches (fs k) n i b ∧ g = add_ref ∨
     b_refcnt b = 0 ∧ g = recycle n ∧ ∀ j c, ¬ caches (fs k) n j c).

Lemma bget_spec k V H P n :
  bio_ok k V H P → (∀ i d, H !! i ≠ Some (n, d)) → (size H + size P < NB)%nat ∨ n ∈ P →
  wp (bget ROOTDEV n) k (bget_post k H n).
Proof.
  intros Hbi Hn Hsz. pose proof Hbi as [Hrun Hpid Hok].
  unfold bget. apply wp_bind, (wp_enter _ me); [apply Hrun|]. apply wp_bind.
  eapply wp_mono; [by eapply bget_cached_spec|]. intros [i|] k1; simpl.
  - intros (b & Hc & HHi & Hg). wp_pure. exists b, add_ref. destruct Hc as (? & ? & ? & ?).
    split_and!; try done. left. by split.
  - intros [-> Hno]. destruct Hsz as [Hsz|Hp].
    2:{ exfalso. destruct (bo_pin _ _ _ _ _ Hok n Hp) as (j & c & Hc). by apply (Hno j c). }
    eapply wp_mono; [by eapply bget_recycle_spec|]. intros i k1 (b & Hi & Hb & Hr & Hg). exists b, (recycle n).
    pose proof (bk_ref _ _ _ _ _ _ (bo_buf _ _ _ _ _ Hok i b Hi Hb)) as E.
    assert (H !! i = None) by (destruct (H !! i); [destruct (pinned P b); lia|done]).
    split_and!; try done. by right.
Qed.

(** The buffer that bread() returns, once it is valid. *)
Lemma bread_done k V H P n i b g k1 k2 b2 :
  bio_ok k V H P → (0 < i)%nat → bcache (fs k) !! i = Some b → H !! i = None →
  got k k1 i g → kquiet k1 k2 → fs k2 = upd_bcache (λ _, <[i := b2]> (bcache (fs k))) (fs k1) →
  b_prev b2 = b_prev b → b_next b2 = b_next b → b_dev b2 = ROOTDEV → b_blockno b2 = n →
  b_valid b2 = 1 → b_data b2 = V n →
  b_refcnt b2 = 1 + (if bool_decide (n ∈ P) then 1 else 0) →
  (∀ j c, j ≠ i → ¬ caches (fs k) n j c) →
  (b_dev b = ROOTDEV → b_blockno b ∈ P → b_blockno b = n) →
  H !! i = None ∧ quiet_io k k2 ∧ bio_ok k2 V (<[i := (n, V n)]> H) P ∧
  b_blockno (buf_of (fs k2) i) = n ∧ b_data (buf_of (fs k2) i) = V n.
Proof.
  intros Hbi Hi Hb HHi Hg Hq2 Hf2 Epv Enx Hdev Hno Hv Hda Hr Hot Hpin.
  pose proof Hbi as [Hrun Hpid Hok]. pose proof (got_sleeplocks _ _ _ _ Hg) as Hsl.
  destruct Hg as [Hq1 Hf1]. assert (kquiet k k2) as Hq by (by etrans).
  assert (bcache (fs k2) = <[i := b2]> (bcache (fs k))) as Hc2 by (by rewrite Hf2).
  assert (∀ s, sleeplock_of (fs k2) s = sleeplock_of (fs k1) s) as Hsl2 by (by rewrite Hf2).
  assert (buf_of (fs k2) i = b2) as Eb2.
  { apply buf_of_lookup. rewrite Hc2. apply list_lookup_insert_eq. by eapply lookup_lt_Some. }
  split_and!; [done| | |by rewrite Eb2|by rewrite Eb2].
  - split; [done| |by rewrite Hf2, Hf1|by rewrite Hf2, Hf1].
    split; try (by rewrite Hf2, Hf1). intros j. rewrite Hsl2, Hsl. by case_decide.
  - split; [by eapply kquiet_running|by rewrite (kquiet_mypid me k k2)|].
    eapply (hold_ok (fs k) (fs k2)); try done.
    + intros j. rewrite Hsl2, Hsl. repeat case_decide; congruence.
    + by rewrite Hf2, Hf1.
Qed.

(** bread() hands out the current contents of the block, in a buffer that the
    process then holds. *)
Lemma bread_spec k V H P n :
  bio_ok k V H P → (∀ i d, H !! i ≠ Some (n, d)) → (size H + size P < NB)%nat ∨ n ∈ P →
  wp (bread ROOTDEV n) k (λ i k',
    H !! i = None ∧ quiet_io k k' ∧ bio_ok k' V (<[i := (n, V n)]> H) P ∧
    b_blockno (buf_of (fs k') i) = n ∧ b_data (buf_of (fs k') i) = V n).
Proof.
  intros Hbi Hn Hsz. pose proof Hbi as [Hrun Hpid Hok].
  unfold bread. apply wp_bind. eapply wp_mono; [by eapply bget_spec|].
  intros i k1 (b & g & Hi & Hb & HHi & Hg & Hcase).
  assert (bcache (fs k1) = <[i := g b]> (bcache (fs k))) as Hc1.
  { destruct Hg as [_ ->]. simpl. by apply list_alter_is_insert. }
  assert (buf_of (fs k1) i = g b) as Eb1.
  { apply buf_of_lookup. rewrite Hc1. apply list_lookup_insert_eq. by eapply lookup_lt_Some. }
  assert (disk (fs k1) = disk (fs k)) as Ed1 by (by destruct Hg as [_ ->]).
  pose proof (bo_buf _ _ _ _ _ Hok i b Hi Hb) as [B1 B2 B3 B4 B5 B6].
  rewrite HHi in B4, B6. destruct B6 as [_ B6]; [done|].
  assert (b_dev (g b) = ROOTDEV ∧ b_blockno (g b) = n ∧ b_prev (g b) = b_prev b ∧
    b_next (g b) = b_next b ∧ b_refcnt (g b) = 1 + (if bool_decide (n ∈ P) then 1 else 0) ∧
    (b_valid (g b) = 1 ∧ b_data (g b) = V n ∨ b_valid (g b) = 0 ∧ n ∉ P) ∧
    (∀ j c, j ≠ i → ¬ caches (fs k) n j c) ∧
    (b_dev b = ROOTDEV → b_blockno b ∈ P → b_blockno b = n)) as
    (G1 & G2 & G3 & G4 & G5 & G6 & G7 & G8).
  { destruct Hcase as [[Hc ->]|(Hr & -> & Hno)]; simpl.
    - destruct Hc as (_ & _ & Hdb & Hnb). unfold pinned in *. rewrite Hdb, Hnb in *.
      rewrite (bool_decide_ext (ROOTDEV = ROOTDEV ∧ n ∈ P) (n ∈ P)) in * by naive_solver.
      split_and!; try done.
      + rewrite B4. by case_bool_decide.
      + destruct B2 as [B2|[B2 _]]; [right|left; by rewrite B6]. split; [done|].
        intros Hp. rewrite bool_decide_true in B3 by done. rewrite B3 in B2; done.
      + intros j c Hj (Hj0 & Hc & Hdc & Hnc). apply Hj.
        apply (bo_uniq _ _ _ _ _ Hok j i c b); congruence.
    - assert (n ∉ P) as HnP.
      { intros Hp. destruct (bo_pin _ _ _ _ _ Hok n Hp) as (j & c & Hc). by apply (Hno j c). }
      split_and!; try done.
      + by rewrite bool_decide_false.
      + by right.
      + intros Hdb Hp. unfold pinned in B4. rewrite bool_decide_true in B4 by done. lia. }
  wp_pure. rewrite Eb1. destruct G6 as [[Gv Gd]|[Gv Gp]]; rewrite Gv.
  - wp_pure. eapply (bread_done k V H P n i b g k1 k1 (g b)); try done.
    rewrite <-Hc1. by destruct (fs k1).
  - change (0 =? 0) with true. unfold when. unfold disk_rw. wp_pure. rewrite upd_buf_upd_buf.
    eapply (bread_done k V H P n i b g k1 _
      (upd_b_valid (λ _, 1) (upd_b_data (λ _, dget (disk (fs k1)) (b_blockno (buf_of (fs k1) i))) (g b))));
      try done.
    + simpl. unfold upd_bcache. simpl. f_equal. rewrite Hc1.
      rewrite (list_alter_is_insert _ _ _ (g b)), list_insert_insert_eq; [done|].
      apply list_lookup_insert_eq. by eapply lookup_lt_Some.
    + simpl. rewrite Eb1, G2, Ed1. by apply (bo_disk _ _ _ _ _ Hok).
Qed.

(** *** Operations on a held buffer *)

Lemma held_buf k V H P i n d :
  bio_ok k V H P → H !! i = Some (n, d) →
  ∃ b, (0 < i)%nat ∧ bcache (fs k) !! i = Some b ∧ b_dev b = ROOTDEV ∧ b_blockno b = n ∧
    b_data b = d ∧ b_valid b = 1 ∧ length d = Z.to_nat BSIZE ∧
    b_refcnt b = 1 + (if bool_decide (n ∈ P) then 1 else 0) ∧
    sl_locked (sleeplock_of (fs k) (SL_buf i)) = 1 ∧
    sl_pid (sleeplock_of (fs k) (SL_buf i)) = mypid me k.
Proof.
  intros [_ Hpid Hok] HHi. destruct (bo_held _ _ _ _ _ Hok i) as [Hi Hi']; [by eexists|].
  destruct (lookup_lt_is_Some_2 (bcache (fs k)) i) as [b Hb];
    [rewrite (bo_len _ _ _ _ _ Hok); lia|].
  pose proof (bo_buf _ _ _ _ _ Hok i b Hi Hb) as [B1 B2 B3 B4 B5 B6].
  destruct (B5 n d HHi) as (E1 & E2 & E3 & E4 & E5 & E6).
  destruct B2 as [?|[_ B2]]; [congruence|]. exists b. rewrite HHi in B4. unfold pinned in B4.
  rewrite B2, E1, (bool_decide_ext (ROOTDEV = ROOTDEV ∧ n ∈ P) (n ∈ P)) in B4 by naive_solver.
  split_and!; congruence.
Qed.

Lemma holdingsleep_held k V H P i n d (Q : bool → kernel → Prop) :
  bio_ok k V H P → H !! i = Some (n, d) →
  (∀ k', kquiet k k' → fs k' = fs k → Q true k') → wp (holdingsleep (SL_buf i)) k Q.
Proof.
  intros Hbi HHi HQ. destruct (held_buf _ _ _ _ _ _ _ Hbi HHi) as (b & ? & ? & ? & ? & ? & ? & ? & ? & El & Ep).
  eapply wp_mono; [apply (holdingsleep_spec me), Hbi|]. intros r k' [-> [Hq Hf]].
  rewrite El, Ep, Z.eqb_refl. by apply HQ.
Qed.

(** Operations that change one held buffer and keep its identity. *)
Lemma held_change k k' V V' H H' P P' i n d b b' :
  bio_ok k V H P → H !! i = Some (n, d) → bcache (fs k) !! i = Some b →
  kquiet k k' → bcache (fs k') = <[i := b']> (bcache (fs k)) →
  (∀ j, sleeplock_of (fs k') (SL_buf j) = sleeplock_of (fs k) (SL_buf j)) →
  b_prev b' = b_prev b → b_next b' = b_next b → b_dev b' = ROOTDEV → b_blockno b' = n →
  b_valid b' = 1 → (∀ j, j ≠ i → H' !! j = H !! j) → H' !! i = Some (n, b_data b') →
  length (b_data b') = Z.to_nat BSIZE →
  b_refcnt b' = 1 + (if bool_decide (n ∈ P') then 1 else 0) →
  (∀ m, m ≠ n → V' m = V m ∧ (m ∈ P' ↔ m ∈ P)) → length (V' n) = Z.to_nat BSIZE →
  (∀ m, m ∉ P' → dget (disk (fs k')) m = V' m) →
  bio_ok k' V' H' P'.
Proof.
  intros Hbi HHi Hb Hq Eb Esl Epv Enx Hdev Hno Hv EH HHi' Hlen Hr HVP HVn Hd.
  destruct (held_buf _ _ _ _ _ _ _ Hbi HHi) as
    (c & Hi & Hc & Dc & Nc & Ec & Vc & Lc & Rc & El & Ep).
  rewrite Hb in Hc. injection Hc as <-. pose proof Hbi as [Hrun Hpid Hok].
  split; [by eapply kquiet_running|by rewrite (kquiet_mypid me k k')|].
  eapply (bcache_ok_change pid (fs k) (fs k') V V' H H' P P' i b b'); try done.
  - rewrite HHi', Esl. split; try done.
    + by right.
    + by right.
    + rewrite Hr. unfold pinned. rewrite Hno.
      rewrite (bool_decide_ext (b_dev b' = ROOTDEV ∧ n ∈ P') (n ∈ P')); naive_solver.
    + intros n' d' [= <- <-]. split_and!; try done. congruence.
  - intros _ j c Hj Hj0 Hc Hdc Hnc. apply Hj. apply (bo_uniq _ _ _ _ _ Hok j i c b); congruence.
  - intros m Hm. apply HVP. intros ->. apply Hm. by rewrite Hno.
  - naive_solver.
  - intros m. destruct (decide (m = n)) as [->|Hm]; [done|].
    destruct (HVP m Hm) as [-> _]. apply (bo_size _ _ _ _ _ Hok).
Qed.

(** A store into the data of a held buffer. *)
Lemma set_data_ok k V H P i n d g :
  bio_ok k V H P → H !! i = Some (n, d) → length (g d) = Z.to_nat BSIZE →
  bio_ok (upd_fs (upd_bcache (alter (upd_b_data g) i)) k) V (<[i := (n, g d)]> H) P.
Proof.
  intros Hbi HHi Hl. destruct (held_buf _ _ _ _ _ _ _ Hbi HHi) as
    (b & Hi & Hb & Db & Nb & Eb & Vb & Lb & Rb & El & Ep).
  eapply (held_change k _ V V H _ P P i n d b (upd_b_data g b)); simpl; try done.
  - by apply list_alter_is_insert.
  - intros j Hj. by rewrite lookup_insert_ne.
  - by rewrite lookup_insert_eq, Eb.
  - by rewrite Eb.
  - apply (bo_size _ _ _ _ _ (bi_cache _ _ _ _ Hbi)).
  - apply (bo_disk _ _ _ _ _ (bi_cache _ _ _ _ Hbi)).
Qed.

(** The contents of a held buffer of a pinned block become the contents of the
    block. *)
Lemma publish_ok k V H P i n d :
  bio_ok k V H P → H !! i = Some (n, d) → n ∈ P → bio_ok k (vset V n d) H P.
Proof.
  intros Hbi HHi Hn. destruct (held_buf _ _ _ _ _ _ _ Hbi HHi) as
    (b & Hi & Hb & Db & Nb & Eb & Vb & Lb & Rb & El & Ep).
  eapply (held_change k k V _ H H P P i n d b b); try done.
  - by rewrite list_insert_id.
  - by rewrite Eb.
  - by rewrite Eb.
  - intros m Hm. by rewrite vset_ne.
  - by rewrite vset_eq.
  - intros m Hm. rewrite vset_ne by (by intros ->). apply (bo_disk _ _ _ _ _ (bi_cache _ _ _ _ Hbi) m Hm).
Qed.

Lemma bwrite_spec k V H P i n d :
  bio_ok k V H P → H !! i = Some (n, d) →
  wp (bwrite i) k (λ _ k',
    kquiet k k' ∧ cache_only (fs k) (fs k') ∧ bio_ok k' (vset V n d) H P ∧
    disk (fs k') = <[n := d]> (disk (fs k)) ∧ writes (fs k') = writes (fs k) ++ [(n, d)]).
Proof.
  intros Hbi HHi. destruct (held_buf _ _ _ _ _ _ _ Hbi HHi) as
    (b & Hi & Hb & Db & Nb & Eb & Vb & Lb & Rb & El & Ep).
  unfold bwrite. apply wp_bind. eapply holdingsleep_held; [done..|]. intros k1 Hq Hf. simpl.
  unfold disk_rw. wp_pure. rewrite Hf, (buf_of_lookup _ _ _ Hb), Nb, Eb. split_and!.
  - destruct Hq. by split.
  - by split; simpl; rewrite ?Hf.
  - eapply (held_change k _ V _ H H P P i n d b b); simpl; rewrite ?Hf; try done.
    + destruct Hq. by split.
    + by rewrite list_insert_id.
    + by rewrite Eb.
    + by rewrite Eb.
    + intros m Hm. by rewrite vset_ne.
    + by rewrite vset_eq.
    + intros m Hm. rewrite dget_insert. unfold vset. destruct (decide (n = m)); [done|].
      apply (bo_disk _ _ _ _ _ (bi_cache _ _ _ _ Hbi) m Hm).
  - simpl. by rewrite Hf.
  - simpl. by rewrite Hf.
Qed.

(** bpin() of a block that is not pinned: its contents in the held buffer
    become the contents of the block. *)
Lemma bpin_spec k V H P i n d :
  bio_ok k V H P → H !! i = Some (n, d) → n ∉ P →
  wp (bpin i) k (λ _ k', quiet_io k k' ∧ bio_ok k' (vset V n d) H ({[n]} ∪ P)).
Proof.
  intros Hbi HHi Hn. destruct (held_buf _ _ _ _ _ _ _ Hbi HHi) as
    (b & Hi & Hb & Db & Nb & Eb & Vb & Lb & Rb & El & Ep).
  rewrite bool_decide_false in Rb by done. pose proof (bi_run _ _ _ _ Hbi) as Hrun.
  unfold bpin. apply wp_bind, (wp_enter _ me); [apply Hrun|]. wp_pure.
  eapply (wp_leave _ me (hs k)); [apply Hrun|done|]. intros h' Hh'. split.
  - by split.
  - eapply (held_change k _ V _ H H P _ i n d b (upd_b_refcnt (λ r, u32 (r + 1)) b)); simpl; try done.
    + by apply list_alter_is_insert.
    + by rewrite Eb.
    + by rewrite Eb.
    + rewrite Rb, bool_decide_true by set_solver. done.
    + intros m Hm. rewrite vset_ne by done. set_solver.
    + by rewrite vset_eq.
    + intros m Hm. rewrite vset_ne by set_solver.
      apply (bo_disk _ _ _ _ _ (bi_cache _ _ _ _ Hbi) m). set_solver.
Qed.

(** bunpin() of a block whose contents have reached the disk. *)
Lemma bunpin_spec k V H P i n d :
  bio_ok k V H P → H !! i = Some (n, d) → n ∈ P → dget (disk (fs k)) n = V n →
  wp (bunpin i) k (λ _ k', quiet_io k k' ∧ bio_ok k' V H (P ∖ {[n]})).
Proof.
  intros Hbi HHi Hn Hd. destruct (held_buf _ _ _ _ _ _ _ Hbi HHi) as
    (b & Hi & Hb & Db & Nb & Eb & Vb & Lb & Rb & El & Ep).
  rewrite bool_decide_true in Rb by done. pose proof (bi_run _ _ _ _ Hbi) as Hrun.
  unfold bunpin. apply wp_bind, (wp_enter _ me); [apply Hrun|]. wp_pure.
  eapply (wp_leave _ me (hs k)); [apply Hrun|done|]. intros h' Hh'. split.
  - by split.
  - eapply (held_change k _ V _ H H P _ i n d b (upd_b_refcnt (λ r, u32 (r - 1)) b)); simpl; try done.
    + by apply list_alter_is_insert.
    + by rewrite Eb.
    + by rewrite Eb.
    + rewrite Rb, bool_decide_false by set_solver. done.
    + intros m Hm. set_solver.
    + apply (bo_size _ _ _ _ _ (bi_cache _ _ _ _ Hbi)).
    + intros m Hm. destruct (decide (m = n)) as [->|]; [done|].
      apply (bo_disk _ _ _ _ _ (bi_cache _ _ _ _ Hbi) m). set_solver.
Qed.

(** The pointer surgery is [unlink] and [push_front]. *)
Lemma wp_to_front i k (Q : unit → kernel → Prop) :
  Q tt (upd_fs (upd_bcache (λ bs, push_front i (unlink i bs))) k) → wp (to_front i) k Q.
Proof. intros HQ. unfold to_front. wp_pure. exact HQ. Qed.

(** A buffer is no longer held. *)
Lemma unhold_ok k V H P i n b f' :
  bio_ok k V H P → H !! i = Some (n, V n) → bcache (fs k) !! i = Some b →
  bcache f' = <[i := upd_b_refcnt (λ r, u32 (r - 1)) b]> (bcache (fs k)) →
  (∀ s, sleeplock_of f' s = if decide (SL_buf i = s) then sl_free (sleeplock_of (fs k) (SL_buf i))
    else sleeplock_of (fs k) s) →
  disk f' = disk (fs k) → bcache_ok pid f' V (delete i H) P.
Proof.
  intros Hbi HHi Hb' Ec Esl Ed. destruct (held_buf _ _ _ _ _ _ _ Hbi HHi) as
    (b0 & Hi & Hb & Db & Nb & Eb & Vb & Lb & Rb & El & Ep).
  rewrite Hb in Hb'. injection Hb' as ->. pose proof Hbi as [Hrun Hpid Hok].
  eapply (bcache_ok_change pid (fs k) f' V V H _ P P i b _); try done; simpl.
  - intros j Hj. rewrite Esl. by rewrite decide_False by congruence.
  - intros j Hj. by rewrite lookup_delete_ne.
  - rewrite lookup_delete_eq, Esl, decide_True by done.
    destruct (bo_buf _ _ _ _ _ Hok i b Hi Hb) as [B1 B2 B3 B4 B5 B6]. rewrite HHi in B4.
    split; try done; simpl.
    + change (pinned P (upd_b_refcnt (λ r, u32 (r - 1)) b)) with (pinned P b). rewrite B4.
      by destruct (pinned P b).
    + intros _. split; [done|]. by rewrite Nb, Eb.
  - intros _ j c Hj Hj0 Hc Hdc Hnc. apply Hj. apply (bo_uniq _ _ _ _ _ Hok j i c b); congruence.
  - intros m Hm. rewrite Ed. by apply (bo_disk _ _ _ _ _ Hok).
  - apply (bo_size _ _ _ _ _ Hok).
Qed.

Lemma to_front_ok f V H P i :
  bcache_ok pid f V H P → (0 < i ≤ NB)%nat →
  bcache_ok pid (upd_bcache (λ bs, push_front i (unlink i bs)) f) V H P.
Proof.
  intros Hok Hi. destruct (bo_ring _ _ _ _ _ Hok) as (L & HL & HR).
  assert (ring_ok (S NB) L) as HLok.
  { split; [rewrite HL; apply NoDup_seq|]. rewrite HL. apply Forall_forall.
    intros x Hx%elem_of_seq. lia. }
  destruct (move_front_ring (S NB) i (bcache f) L) as (L' & HL' & HR'); [done| |done| |].
  - apply (bo_len _ _ _ _ _ Hok).
  - rewrite HL. apply elem_of_seq. lia.
  - eapply (bcache_ok_links pid f _ V H P L'); [done| |by rewrite HL'|done].
    by rewrite strip_push_front, strip_unlink.
Qed.

(** brelse() of a buffer that shows the contents of its block. *)
Lemma brelse_spec k V H P i n :
  bio_ok k V H P → H !! i = Some (n, V n) →
  wp (brelse i) k (λ _ k', quiet_io k k' ∧ bio_ok k' V (delete i H) P).
Proof.
  intros Hbi HHi. destruct (held_buf _ _ _ _ _ _ _ Hbi HHi) as (b & Hi & Hb & _).
  unfold brelse. apply wp_bind. eapply holdingsleep_held; [done..|]. intros k1 Hq1 Hf1. simpl.
  pose proof Hbi as [Hrun Hpid Hok].
  apply wp_bind. eapply wp_mono; [apply (releasesleep_spec me); by eapply kquiet_running|].
  intros ? k2 [Hq2 Hf2]. rewrite Hf1 in Hf2. assert (kquiet k k2) as Hq by (by etrans).
  assert (running me k2) as Hrun2 by (by eapply kquiet_running).
  apply wp_bind, (wp_enter _ me); [apply Hrun2|]. apply wp_bind, wp_set_buf.
  set (k3 := upd_fs _ _). assert (bcache_ok pid (fs k3) V (delete i H) P) as Hok3.
  { eapply (unhold_ok k V H P i n b); try done; simpl; rewrite Hf2.
    - by apply list_alter_is_insert.
    - intros s. apply sleeplock_of_set.
    - done. }
  assert (∀ k4, bcache_ok pid (fs k4) V (delete i H) P →
    k4 = upd_fs (λ f, upd_bcache (λ _, bcache (fs k4)) f) k3 →
    wp (release LK_bcache) k4 (λ _ k', quiet_io k k' ∧ bio_ok k' V (delete i H) P)) as Hrel.
  { intros k4 Hok4 E4. eapply (wp_leave _ me (hs k2)); [apply Hrun2|by rewrite E4|].
    intros h' Hh'. assert (kquiet k (upd_hs (λ _, h') k4)) as Hq4.
    { etrans; [exact Hq|]. rewrite E4. by split. }
    split; [|split; [by eapply kquiet_running|by rewrite (kquiet_mypid me k)|done]].
    split; [done| |by rewrite E4; simpl; rewrite Hf2|by rewrite E4; simpl; rewrite Hf2].
    split; try (rewrite E4; simpl; by rewrite Hf2). intros j.
    rewrite E4. change (sleeplock_of (fs k2) (SL_inode j) = sleeplock_of (fs k) (SL_inode j)).
    rewrite Hf2. apply sleeplock_of_set. }
  apply wp_bind, wp_get_buf. apply wp_bind. case_cmp; unfold when.
  - apply wp_to_front. apply Hrel; [|done]. apply to_front_ok; [done|].
    apply lookup_lt_Some in Hb. rewrite (bo_len _ _ _ _ _ Hok) in Hb. lia.
  - wp_pure. by apply Hrel.
Qed.

(** The view counts only block by block. *)
Lemma bio_ok_ext k V V' H P : (∀ n, V' n = V n) → bio_ok k V H P → bio_ok k V' H P.
Proof.
  intros E [Hr Hp [Ol Or Ob Ou Oh Op Od Os]]. split; [done|done|]. split; try done.
  - intros i b Hi Hb. destruct (Ob i b Hi Hb) as [K1 K2 K3 K4 K5 K6]. split; try done.
    intros Hn. rewrite E. by apply K6.
  - intros n Hn. rewrite E. by apply Od.
  - intros n. rewrite E. apply Os.
Qed.

(** States that differ only in parts bio.c does not look at. *)
Lemma bio_ok_frame k k' V H P :
  bio_ok k V H P → kquiet k k' → bcache (fs k') = bcache (fs k) → disk (fs k') = disk (fs k) →
  (∀ i, sleeplock_of (fs k') (SL_buf i) = sleeplock_of (fs k) (SL_buf i)) → bio_ok k' V H P.
Proof.
  intros [Hr Hp [Ol Or Ob Ou Oh Op Od Os]] Hq Ec Ed Es.
  split; [by eapply kquiet_running|by rewrite (kquiet_mypid me k)|].
  split; rewrite ?Ec, ?Ed; try done. intros i b Hi Hb. rewrite Es. by apply Ob.
Qed.
End bio_specs.

(** * Boot of the buffer cache

    binit() turns the zeroed table of buffers into an empty cache: the ring
    holds every buffer, and every block reads as it is on the disk. *)

Ltac wp_prim ::= wp_bio.

(** What the initialisation of locks may change of the hart state. *)
Record hs_init (h h' : harts) : Prop := {
  hi_cpus : cpus h' = cpus h;
  hi_csr : csr h' = csr h;
  hi_free : ∀ lk, lock_free lk h → lock_free lk h';
}.

#[export] Instance hs_init_preorder : PreOrder hs_init.
Proof.
  split; [by split|]. intros h1 h2 h3 [] []. split; [congruence..|]. auto.
Qed.

Lemma hs_init_set lk nm h : hs_init h (set_lock lk (mkLock 0 nm None) h).
Proof.
  split; [done..|]. intros lk' [? ?]. unfold lock_free. rewrite lock_of_set. by case_decide.
Qed.

Lemma hs_init_calm me h h' : hs_init h h' → calm me h → calm me h'.
Proof.
  intros [E1 E2 E3] [[C1 C2 C3] C4 C5 C6].
  assert (the_cpu h' = the_cpu h) as Ec by (unfold the_cpu, hart; by rewrite E1, E2).
  split; [split| | |]; unfold hart, sie in *; rewrite ?Ec, ?E1, ?E2; auto.
Qed.

Lemma wp_initlock lk nm k (Q : unit → kernel → Prop) :
  Q tt (upd_hs (set_lock lk (mkLock 0 nm None)) k) → wp (initlock lk nm) k Q.
Proof. done. Qed.

Lemma wp_initsleeplock sl nm k (Q : unit → kernel → Prop) :
  Q tt (upd_fs (set_sleeplock sl (λ _, mkSleep 0 nm 0))
    (upd_hs (set_lock (LK_sleep sl) (mkLock 0 "sleep lock" None)) k)) →
  wp (initsleeplock sl nm) k Q.
Proof.
  intros HQ. unfold initsleeplock. wp_pure. apply wp_initlock. wp_pure.
  revert HQ. unfold upd_fs. simpl. by rewrite !set_sleeplock_set.
Qed.

(** A state that differs in [fs] and in initialised locks only. *)
Definition inits (k k' : kernel) : Prop :=
  ∃ h, hs_init (hs k) h ∧ k' = upd_hs (λ _, h) (upd_fs (λ _, fs k') k).

#[export] Instance inits_preorder : PreOrder inits.
Proof.
  split.
  - intros k. exists (hs k). split; [done|]. by destruct k.
  - intros k1 k2 k3 (h2 & H2 & E2) (h3 & H3 & E3). exists h3.
    rewrite E2 in H3. simpl in H3. split; [by etrans|]. rewrite E3, E2. done.
Qed.

Lemma inits_upd g f k : hs_init (hs k) (g (hs k)) → inits k (upd_hs g (upd_fs f k)).
Proof. intros H. by exists (g (hs k)). Qed.

Lemma inits_running me k k' : inits k k' → running me k → running me k'.
Proof. intros (h & H & ->) []. split; [by eapply hs_init_calm|done]. Qed.

(** The table after [j] iterations of the loop of binit(). *)
Record binit_at (f : fsys) (bs : list buf) (j : nat) : Prop := {
  bt_strip : strip <$> bs = replicate (S NB) buf0;
  bt_ring : ring bs (reverse (seq 1 j));
  bt_lock : ∀ i, (0 < i ≤ j)%nat → sl_locked (sleeplock_of f (SL_buf i)) = 0;
}.

Lemma reverse_seq_S j : reverse (seq 1 (S j)) = S j :: reverse (seq 1 j).
Proof. by rewrite seq_S, reverse_snoc. Qed.

Lemma binit_at_push f f' bs j :
  binit_at f bs j → (j < NB)%nat →
  (∀ i, sleeplock_of f' (SL_buf i) =
     if decide (i = S j) then mkSleep 0 "buffer" 0 else sleeplock_of f (SL_buf i)) →
  binit_at f' (push_front (S j) bs) (S j).
Proof.
  intros [H1 H2 H3] Hj Hl. split.
  - by rewrite strip_push_front.
  - rewrite reverse_seq_S. apply (push_front_ring (S NB)).
    + split; [rewrite reverse_Permutation; apply NoDup_seq|].
      rewrite reverse_Permutation. apply Forall_forall. intros i Hi%elem_of_seq. lia.
    + rewrite elem_of_reverse, elem_of_seq. lia.
    + lia.
    + rewrite <-(length_fmap strip), H1. apply length_replicate.
    + done.
  - intros i Hi. rewrite Hl. case_decide; [done|]. apply H3. lia.
Qed.

Lemma binit_at_ok pid f bs V :
  bcache f = bs → binit_at f bs NB → (∀ n, dget (disk f) n = V n) →
  (∀ n, length (V n) = Z.to_nat BSIZE) → bcache_ok pid f V ∅ ∅.
Proof.
  intros <- [H1 H2 H3] HV Hs.
  assert (∀ i b, bcache f !! i = Some b → b_dev b = 0 ∧ b_valid b = 0 ∧ b_refcnt b = 0) as Hb.
  { intros i b Hi. assert ((strip <$> bcache f) !! i = Some (strip b)) as E
      by (by rewrite list_lookup_fmap, Hi).
    rewrite H1 in E. apply lookup_replicate in E as [E _].
    split_and!; [exact (f_equal b_dev E)|exact (f_equal b_valid E)|exact (f_equal b_refcnt E)]. }
  split; try done.
  - rewrite <-(length_fmap strip), H1. apply length_replicate.
  - exists (reverse (seq 1 NB)). split; [apply reverse_Permutation|done].
  - intros i b Hi Hl. pose proof (lookup_lt_Some _ _ _ Hl) as Hlt.
    rewrite <-(length_fmap strip), H1, length_replicate in Hlt.
    destruct (Hb i b Hl) as (D & Va & R). assert (pinned ∅ b = false) as Ep.
    { apply bool_decide_false. set_solver. }
    split; rewrite ?Ep, ?lookup_empty; try done; auto.
    intros _. split; [apply H3; lia|]. lia.
  - intros i j b b' Hi Hj Hb1 Hb2 D1. destruct (Hb i b Hb1) as [D _]. rewrite D in D1. done.
  - intros i [? Hi]. by rewrite lookup_empty in Hi.
Qed.

Lemma binit_spec pid k :
  strip <$> bcache (fs k) = replicate (S NB) buf0 →
  (∀ n, length (dget (disk (fs k)) n) = Z.to_nat BSIZE) →
  wp binit k (λ _ k', inits k k' ∧ cache_only (fs k) (fs k') ∧
    disk (fs k') = disk (fs k) ∧ writes (fs k') = writes (fs k) ∧
    bcache_ok pid (fs k') (dget (disk (fs k))) ∅ ∅).
Proof.
  intros Hz Hs. unfold binit. wp_pure. apply wp_initlock. wp_pure.
  set (k1 := upd_fs _ _).
  set (I := λ j k', inits k k' ∧ cache_only (fs k) (fs k') ∧ disk (fs k') = disk (fs k) ∧
    writes (fs k') = writes (fs k) ∧ binit_at (fs k') (bcache (fs k')) j).
  apply (wp_loop _ (λ b k', (0 < b ≤ S NB)%nat ∧ I (pred b) k') (λ b _, Z.of_nat (S NB - b)));
    [|split; [unfold NB, NBUF, MAXOPBLOCKS; lia|]|unfold NB, NBUF, MAXOPBLOCKS; lia].
  - intros b k' [Hb (I1 & I2 & I3 & I4 & I5)].
    destruct (Z.ltb_spec (Z.of_nat b) (1 + NBUF)) as [Hlt|Hge].
    + destruct b as [|j]; [lia|]. simpl pred in *. wp_pure. apply wp_initsleeplock. wp_pure. assert (j < NB)%nat as Hj by (unfold NB in *; lia).
      split; [|lia]. split; [lia|].
      set (k2 := upd_fs _ _). simpl pred.
      set (f2 := set_sleeplock (SL_buf (S j)) (λ _, mkSleep 0 "buffer" 0) (fs k')).
      assert (bcache (fs k2) = push_front (S j) (bcache (fs k'))) as Eb by done.
      unfold I. split_and!.
      * etrans; [exact I1|]. eexists. split; [apply (hs_init_set (LK_sleep (SL_buf (S j))) "sleep lock")|]. done.
      * etrans; [exact I2|]. split; try done. intros i.
        change (sleeplock_of (fs k2) (SL_inode i)) with (sleeplock_of f2 (SL_inode i)).
        unfold f2. by rewrite sleeplock_of_set, decide_False.
      * done.
      * done.
      * rewrite Eb. eapply binit_at_push; [exact I5|done|]. intros i.
        change (sleeplock_of (fs k2) (SL_buf i)) with (sleeplock_of f2 (SL_buf i)).
        unfold f2. rewrite sleeplock_of_set.
        destruct (decide (i = S j)) as [->|]; [by rewrite decide_True|].
        by rewrite decide_False by congruence.
    + wp_pure. assert (b = S NB) as -> by (unfold NB in *; lia). simpl pred in I5.
      split_and!; [done..|]. eapply binit_at_ok; [done|done| |done]. by rewrite I3.
  - simpl pred. unfold I. split_and!; try done.
    + eexists. split; [apply (hs_init_set LK_bcache "bcache")|]. done.
    + change (bcache (fs k1)) with (set_nx 0 0 (set_pv 0 0 (bcache (fs k)))). split.
      * by rewrite strip_set_nx, strip_set_pv.
      * unfold ring. simpl. assert (0 < length (bcache (fs k)))%nat as Hl.
        { rewrite <-(length_fmap strip), Hz, length_replicate. lia. }
        rewrite nx_set_nx by (by rewrite length_set_pv). rewrite pv_set_nx, pv_set_pv by done. done.
      * intros i Hi. lia.
Qed.
