(* ===== verification/Log.v ===== *)
(** * The log (kernel/log.c)

    Definitions of log.c over the kernel state.  An out-of-bounds access to
    [log.lh.block] is undefined in C; the model stops there. *)

From stdpp Require Import gmap list strings.
From Stdlib Require Import ZArith Lia.
From S2P Require Import Prelude Mem Params FsData Machine Spinlock Sched Sleeplock Bio.
#[local] Open Scope Z_scope.

Definition undefined {A} : K A := panic "undefined behaviour".

Definition get_log {A} (g : logstate → A) : K A := get_fs (λ f, g (log f)).
Definition set_log (g : logstate → logstate) : K unit := set_fs (upd_log g).
Definition get_n : K Z := get_log (λ l, lh_n (lg_lh l)).
Definition set_n (v : Z) : K unit := set_log (upd_lg_lh (upd_lh_n (λ _, v))).
(** log.lh.block[i] *)
Definition get_block (i : Z) : K Z :=
  b ← get_log (λ l, lh_block (lg_lh l) !! Z.to_nat i);
  match b with Some b => mret b | None => undefined end.
Definition set_block (i v : Z) : K unit :=
  _ ← get_block i;
  set_log (upd_lg_lh (upd_lh_block <[Z.to_nat i := v]>)).

(** struct logheader in a block: [n] at offset 0, [block[i]] at [4 + 4 * i]. *)
Definition hd_n (d : block) : Z := s32 (bld 4 0 d).
Definition hd_block (d : block) (i : Z) : Z := s32 (bld 4 (4 + 4 * i) d).
Definition LOGHEADER_SIZE := 4 + 4 * LOGSIZE.

Section log_defs.
Context `{OTH : Others}.

(** bread(log.dev, b), with the conversion of [int] to [uint]. *)
Definition log_bread (b : Z) : K nat :=
  dev ← get_log lg_dev;
  bread (u32 dev) (u32 b).

Definition install_trans (recovering : Z) : K unit :=
  loop (λ tail,
    n ← get_n;
    if tail <? n then
      start ← get_log lg_start;
      lbuf ← log_bread (start + tail + 1);
      b ← get_block tail;
      dbuf ← log_bread b;
      d ← get_buf lbuf b_data;
      set_buf dbuf (upd_b_data (λ _, d));;
      bwrite dbuf;;
      when (recovering =? 0) (bunpin dbuf);;
      brelse lbuf;;
      brelse dbuf;;
      continue (tail + 1)
    else break tt) 0.

Definition read_head : K unit :=
  start ← get_log lg_start;
  buf ← log_bread start;
  lh ← get_buf buf b_data;
  set_n (hd_n lh);;
  loop (λ i,
    n ← get_n;
    if i <? n then set_block i (hd_block lh i);; continue (i + 1)
    else break tt) 0;;
  brelse buf.

Definition write_head : K unit :=
  start ← get_log lg_start;
  buf ← log_bread start;
  n ← get_n;
  set_buf buf (upd_b_data (bst 4 0 n));;
  loop (λ i,
    n ← get_n;
    if i <? n then
      b ← get_block i;
      set_buf buf (upd_b_data (bst 4 (4 + 4 * i) b));;
      continue (i + 1)
    else break tt) 0;;
  bwrite buf;;
  brelse buf.

Definition recover_from_log : K unit :=
  read_head;;
  install_trans 1;;
  set_n 0;;
  write_head.

Definition initlog (dev : Z) (sb : superblock) : K unit :=
  if BSIZE <=? LOGHEADER_SIZE then panic "initlog: too big logheader" else
  initlock LK_log "log";;
  set_log (upd_lg_start (λ _, s32 (sb_logstart sb)));;
  set_log (upd_lg_size (λ _, s32 (sb_nlog sb)));;
  set_log (upd_lg_dev (λ _, dev));;
  recover_from_log.

Definition begin_op : K unit :=
  acquire LK_log;;
  loop (λ _,
    c ← get_log lg_committing;
    if nz c then sleep Ch_log LK_log;; continue tt else
    n ← get_n;
    o ← get_log lg_outstanding;
    if LOGSIZE <? n + (o + 1) * MAXOPBLOCKS then sleep Ch_log LK_log;; continue tt else
    set_log (upd_lg_outstanding (λ o, o + 1));;
    release LK_log;;
    break tt) tt.

Definition write_log : K unit :=
  loop (λ tail,
    n ← get_n;
    if tail <? n then
      start ← get_log lg_start;
      to ← log_bread (start + tail + 1);
      b ← get_block tail;
      from ← log_bread b;
      d ← get_buf from b_data;
      set_buf to (upd_b_data (λ _, d));;
      bwrite to;;
      brelse from;;
      brelse to;;
      continue (tail + 1)
    else break tt) 0.

Definition commit : K unit :=
  n ← get_n;
  when (0 <? n) (
    write_log;;
    write_head;;
    install_trans 0;;
    set_n 0;;
    write_head).

Definition end_op : K unit :=
  acquire LK_log;;
  set_log (upd_lg_outstanding (λ o, o - 1));;
  c ← get_log lg_committing;
  if nz c then panic "log.committing" else
  o ← get_log lg_outstanding;
  do_commit ← (if o =? 0 then set_log (upd_lg_committing (λ _, 1));; mret true
               else wakeup (Some Ch_log);; mret false);
  release LK_log;;
  when do_commit (
    commit;;
    acquire LK_log;;
    set_log (upd_lg_committing (λ _, 0));;
    wakeup (Some Ch_log);;
    release LK_log).
End log_defs.

(** The loop of log_write(): the first slot that holds the block, or [n]. *)
Definition log_slot (blockno : Z) : K Z :=
  loop (λ i,
    n ← get_n;
    if i <? n then
      b ← get_block i;
      if u32 b =? blockno then break i else continue (i + 1)
    else break i) 0.

Definition log_write (b : nat) : K unit :=
  acquire LK_log;;
  n ← get_n;
  size ← get_log lg_size;
  if (LOGSIZE <=? n) || (size - 1 <=? n) then panic "too big a transaction" else
  o ← get_log lg_outstanding;
  if o <? 1 then panic "log_write outside of trans" else
  blockno ← get_buf b b_blockno;
  i ← log_slot blockno;
  set_block i (s32 blockno);;
  n ← get_n;
  when (i =? n) (bpin b;; n ← get_n; set_n (n + 1));;
  release LK_log.
