(* ===== verification/LogDisk.v ===== *)
(** * The log on disk

    What the blocks of the log area mean, and what a crash can leave behind.
    The disk is known through the sequence of block writes made to it; a crash
    keeps a prefix of it (the disk writes a block atomically).  [recovered] is
    the contents of the file system that recovery brings back from a disk. *)

From stdpp Require Import gmap list strings.
From Stdlib Require Import ZArith Lia.
From S2P Require Import Prelude Mem Params FsData Bio BioSpec Log.
#[local] Open Scope Z_scope.

(** ** Sequences of writes *)

Definition apply_writes (d : gmap Z block) (ws : list (Z * block)) : gmap Z block :=
  foldl (λ d w, <[w.1 := w.2]> d) d ws.
Definition vsets (V : view) (ws : list (Z * block)) : view := foldl (λ V w, vset V w.1 w.2) V ws.

Lemma apply_writes_app d ws ws' :
  apply_writes d (ws ++ ws') = apply_writes (apply_writes d ws) ws'.
Proof. apply foldl_app. Qed.

Lemma vsets_app V ws ws' : vsets V (ws ++ ws') = vsets (vsets V ws) ws'.
Proof. apply foldl_app. Qed.

Lemma vsets_ext V V' ws b : V b = V' b → vsets V ws b = vsets V' ws b.
Proof.
  revert V V'. induction ws as [|w ws IH]; intros V V' E; [done|]. simpl. apply IH.
  unfold vset. by case_decide.
Qed.

Lemma dget_apply_writes d ws b : dget (apply_writes d ws) b = vsets (dget d) ws b.
Proof.
  revert d. induction ws as [|w ws IH]; intros d; [done|]. simpl. rewrite IH.
  apply vsets_ext. rewrite dget_insert. unfold vset. by destruct (decide (w.1 = b)).
Qed.

Lemma vsets_not_in V ws b : b ∉ ws.*1 → vsets V ws b = V b.
Proof.
  revert V. induction ws as [|w ws IH]; intros V Hb; [done|]. simpl in *.
  rewrite IH by set_solver. apply vset_ne. set_solver.
Qed.

(** All writes agree with [W]. *)
Lemma vsets_agree V W ws b :
  (∀ w, w ∈ ws → w.2 = W w.1) → vsets V ws b = if decide (b ∈ ws.*1) then W b else V b.
Proof.
  revert V. induction ws as [|w ws IH]; intros V Hw; [by rewrite decide_False by set_solver|].
  simpl. rewrite IH by set_solver. unfold vset.
  destruct (decide (b ∈ ws.*1)); [by rewrite decide_True by set_solver|].
  destruct (decide (w.1 = b)) as [<-|].
  - rewrite decide_True by set_solver. apply Hw. set_solver.
  - by rewrite decide_False by set_solver.
Qed.

(** What a list of writes leaves in a block it writes. *)
Lemma vsets_in V V' ws b : b ∈ ws.*1 → vsets V ws b = vsets V' ws b.
Proof.
  revert V V'. induction ws as [|w ws IH]; intros V V' Hb; [by apply elem_of_nil in Hb|].
  simpl in *. destruct (decide (b ∈ ws.*1)); [by apply IH|].
  apply elem_of_cons in Hb as [->|]; [|done]. apply vsets_ext. by rewrite !vset_eq.
Qed.

(** Writing a prefix first changes nothing. *)
Lemma vsets_again V m ws b : vsets (vsets V (take m ws)) ws b = vsets V ws b.
Proof.
  destruct (decide (b ∈ ws.*1)) as [Hb|Hb]; [by apply vsets_in|].
  rewrite !vsets_not_in; [done|done| |done]. intros Hb'. apply Hb.
  rewrite <-(take_drop m ws), fmap_app. apply elem_of_app. by left.
Qed.

(** ** The header block *)

(** What write_head() stores over the header block [d], after [j] iterations
    of its loop and at the end. *)
Fixpoint hd_upto (bl : list Z) (d : block) (j : nat) : block :=
  match j with
  | O => bst 4 0 (Z.of_nat (length bl)) d
  | S j' => bst 4 (4 + 4 * Z.of_nat j') (default 0 (bl !! j')) (hd_upto bl d j')
  end.
Definition hd_set (bl : list Z) (d : block) : block := hd_upto bl d (length bl).

Lemma length_hd_upto bl d j :
  length d = Z.to_nat BSIZE → (j ≤ Z.to_nat LOGSIZE)%nat → length (hd_upto bl d j) = Z.to_nat BSIZE.
Proof.
  intros Hd. unfold LOGSIZE, MAXOPBLOCKS, BSIZE in *. induction j as [|j IH]; intros Hj; cbn [hd_upto].
  - rewrite length_bst; lia.
  - rewrite length_bst; rewrite ?IH; lia.
Qed.

Lemma hd_upto_n bl d j :
  length d = Z.to_nat BSIZE → (j ≤ Z.to_nat LOGSIZE)%nat → (length bl ≤ Z.to_nat LOGSIZE)%nat →
  hd_n (hd_upto bl d j) = Z.of_nat (length bl).
Proof.
  intros Hd Hj Hb. pose proof (length_hd_upto bl d) as Hlen. unfold hd_n.
  unfold LOGSIZE, MAXOPBLOCKS, BSIZE in *. induction j as [|j IH]; cbn [hd_upto].
  - rewrite bld_bst by lia. change (256 ^ Z.of_nat 4) with (2 ^ 32).
    rewrite Z.mod_small by lia. apply s32_small. lia.
  - rewrite bld_bst_out by (rewrite ?Hlen by lia; lia). apply IH. lia.
Qed.

Lemma hd_upto_block bl d j i b :
  length d = Z.to_nat BSIZE → (j ≤ Z.to_nat LOGSIZE)%nat → (i < j)%nat → bl !! i = Some b →
  0 ≤ b < 2 ^ 31 → hd_block (hd_upto bl d j) (Z.of_nat i) = b.
Proof.
  intros Hd Hj Hi Hb Hr. pose proof (length_hd_upto bl d) as Hlen. unfold hd_block.
  unfold LOGSIZE, MAXOPBLOCKS, BSIZE in *. induction j as [|j IH]; [lia|]. cbn [hd_upto].
  destruct (decide (i = j)) as [->|].
  - rewrite bld_bst by (rewrite ?Hlen by lia; lia). rewrite Hb. simpl.
    change (256 ^ Z.of_nat 4) with (2 ^ 32). rewrite Z.mod_small by lia. apply s32_small. lia.
  - rewrite bld_bst_out by (rewrite ?Hlen by lia; lia). apply IH; lia.
Qed.

(** ** What recovery makes of a disk *)

Section log_area.
Context (start size : Z).

(** A block that is not in the log area. *)
Definition home (b : Z) : Prop := 0 ≤ b < 2 ^ 31 ∧ ¬ (start ≤ b < start + size).

#[export] Instance home_dec b : Decision (home b).
Proof. unfold home. apply _. Defined.

(** The committed transaction in the log: block numbers and contents. *)
Definition entries (d : gmap Z block) : list (Z * block) :=
  (λ i, (hd_block (dget d start) i, dget d (start + i + 1))) <$> seqZ 0 (hd_n (dget d start)).

Definition recovered (d : gmap Z block) : view := vsets (dget d) (entries d).

(** The log area is where mkfs puts it, and its header is one the kernel
    writes. *)
Record log_area_ok : Prop := {
  la_start : 0 < start;
  la_size : 1 ≤ size ≤ LOGSIZE;
  la_end : start + size < 2 ^ 31;
}.
Record log_disk_ok (d : gmap Z block) : Prop := {
  ld_n : 0 ≤ hd_n (dget d start) ≤ LOGSIZE;
  ld_size : hd_n (dget d start) < size;
  ld_home : ∀ w, w ∈ entries d → home w.1;
}.

Lemma entries_ext d d' :
  (∀ b, start ≤ b < start + size → dget d' b = dget d b) → hd_n (dget d start) < size →
  1 ≤ size → entries d' = entries d.
Proof.
  intros E Hn Hs. unfold entries. rewrite E by lia. apply list_fmap_ext.
  intros i x Hx. apply lookup_seqZ in Hx as [-> Hx]. by rewrite E by lia.
Qed.

(** The writes of recover_from_log(). *)
Definition recover_writes (d : gmap Z block) : list (Z * block) :=
  entries d ++ [(start, hd_set [] (dget d start))].

Lemma entries_none d : hd_n (dget d start) = 0 → entries d = [].
Proof. intros E. unfold entries. by rewrite E. Qed.

Lemma home_not_start b : log_area_ok → home b → b ≠ start.
Proof. intros [] [_ ?]. lia. Qed.

(** Writes to home blocks leave the log alone. *)
Lemma entries_home_writes d ws :
  log_area_ok → hd_n (dget d start) < size → (∀ w, w ∈ ws → home w.1) →
  entries (apply_writes d ws) = entries d.
Proof.
  intros Hla Hn Hw. apply entries_ext; [|done|destruct Hla; lia]. intros b Hb.
  rewrite dget_apply_writes. apply vsets_not_in. intros (w & -> & H)%list_elem_of_fmap.
  destruct (Hw w H) as [_ H']. lia.
Qed.

(** A crash at any point of recovery loses nothing: the next recovery brings
    back the same contents. *)
Lemma recover_crash d m b :
  log_area_ok → log_disk_ok d → length (dget d start) = Z.to_nat BSIZE → home b →
  recovered (apply_writes d (take m (recover_writes d))) b = recovered d b.
Proof.
  intros Hla [Hn Hs Hh] Hlen Hb. unfold recover_writes.
  destruct (decide (m ≤ length (entries d))%nat) as [Hm|Hm].
  - rewrite take_app_le by done. unfold recovered at 1.
    rewrite entries_home_writes; [|done|done|].
    + erewrite vsets_ext; [|apply dget_apply_writes]. apply vsets_again.
    + intros w Hw. apply Hh. by eapply elem_of_take_in.
  - rewrite take_ge by (rewrite length_app; simpl; lia). rewrite apply_writes_app.
    set (d1 := apply_writes d (entries d)). unfold apply_writes. simpl. set (d2 := <[_ := _]> d1).
    unfold recovered at 1. rewrite entries_none; simpl.
    + unfold d2. rewrite dget_insert, decide_False.
      * unfold d1. by rewrite dget_apply_writes.
      * intros E. by apply (home_not_start b Hla Hb).
    + unfold d2. rewrite dget_insert, decide_True by done. unfold hd_set.
      rewrite hd_upto_n; [done|done|simpl; lia|simpl; lia].
Qed.

(** After recovery the home blocks hold the recovered contents and the log is
    empty. *)
Lemma recover_final d b :
  log_area_ok → log_disk_ok d → length (dget d start) = Z.to_nat BSIZE → home b →
  let d' := apply_writes d (recover_writes d) in
  dget d' b = recovered d b ∧ hd_n (dget d' start) = 0.
Proof.
  intros Hla Hld Hlen Hb d'. unfold d', recover_writes. rewrite apply_writes_app.
  unfold apply_writes at 1 3. simpl. rewrite !dget_insert.
  rewrite (decide_True (P:=start = start)), decide_False by (try done; intros E; by apply (home_not_start b Hla Hb)).
  split; [apply dget_apply_writes|]. unfold hd_set. rewrite hd_upto_n; [done|done|simpl; lia|simpl; lia].
Qed.

(** *** Commit *)

Definition log_writes (bl : list Z) (V : view) : list (Z * block) :=
  imap (λ i b, (start + Z.of_nat i + 1, V b)) bl.
Definition home_writes (bl : list Z) (V : view) : list (Z * block) := (λ b, (b, V b)) <$> bl.

(** The writes of commit() for the transaction that gives the blocks [bl] the
    contents [V]. *)
Definition commit_writes (d : gmap Z block) (bl : list Z) (V : view) : list (Z * block) :=
  let h := hd_set bl (dget d start) in
  log_writes bl V ++ [(start, h)] ++ home_writes bl V ++ [(start, hd_set [] h)].

(** A transaction that fits the log and is to home blocks. *)
Record trans_ok (bl : list Z) : Prop := {
  tr_size : Z.of_nat (length bl) ≤ LOGSIZE;
  tr_fits : Z.of_nat (length bl) < size;
  tr_home : ∀ b, b ∈ bl → home b;
}.

Lemma log_writes_range bl V w :
  trans_ok bl → w ∈ log_writes bl V → start < w.1 < start + size.
Proof.
  intros [_ Hf _] (i & b & -> & Hi)%elem_of_lookup_imap_1. apply lookup_lt_Some in Hi. simpl. lia.
Qed.

Lemma log_writes_get bl V W i b :
  bl !! i = Some b → vsets W (log_writes bl V) (start + Z.of_nat i + 1) = V b.
Proof.
  intros Hb. rewrite (vsets_agree _ (λ x, V (default 0 (bl !! Z.to_nat (x - start - 1))))).
  - rewrite decide_True.
    { replace (Z.to_nat _) with i by lia. by rewrite Hb. }
    apply list_elem_of_fmap. exists (start + Z.of_nat i + 1, V b). split; [simpl; lia|].
    by apply (elem_of_lookup_imap_2 (λ i b, (start + Z.of_nat i + 1, V b))).
  - intros w (j & c & -> & Hj)%elem_of_lookup_imap_1. simpl.
    replace (Z.to_nat _) with j by lia. by rewrite Hj.
Qed.

(** The disk once the header has been written, and possibly some home blocks. *)
Lemma committed_entries d bl V d' :
  log_area_ok → trans_ok bl → length (dget d start) = Z.to_nat BSIZE →
  (∀ b, start < b < start + size → dget d' b = dget (apply_writes d (log_writes bl V)) b) →
  dget d' start = hd_set bl (dget d start) → entries d' = home_writes bl V.
Proof.
  intros Hla [Hs Hf Hh] Hlen Hlog Hhd. unfold entries, home_writes. rewrite Hhd.
  assert (hd_n (hd_set bl (dget d start)) = Z.of_nat (length bl)) as ->.
  { apply hd_upto_n; [done|lia..]. }
  apply list_eq. intros i. rewrite !list_lookup_fmap.
  destruct (decide (i < length bl)%nat) as [Hi|Hi].
  - destruct (lookup_lt_is_Some_2 bl i Hi) as [b Hb]. rewrite Hb. simpl.
    rewrite lookup_seqZ_lt by lia. simpl. f_equal. f_equal.
    + unfold hd_set. rewrite Z.add_0_l. apply hd_upto_block; [done|lia|done|done|].
      apply Hh. by eapply list_elem_of_lookup_2.
    + rewrite Hlog by lia. rewrite dget_apply_writes, Z.add_0_l. by apply log_writes_get.
  - rewrite (lookup_ge_None_2 bl) by lia. simpl. rewrite lookup_seqZ_ge by lia. done.
Qed.

(** Writes to the log area leave the home blocks alone. *)
Lemma dget_log_area ws d c :
  home c → (∀ w, w ∈ ws → start ≤ w.1 < start + size) → dget (apply_writes d ws) c = dget d c.
Proof.
  intros [_ Hc] Hw. rewrite dget_apply_writes. apply vsets_not_in.
  intros (w & -> & H)%list_elem_of_fmap. apply Hc. by apply Hw.
Qed.

Lemma vsets_home_writes bl V W c :
  (c ∉ bl → W c = V c) → vsets W (home_writes bl V) c = V c.
Proof.
  intros HW. rewrite (vsets_agree _ V).
  - case_decide as Hcb; [done|]. apply HW. intros Hx. apply Hcb.
    apply list_elem_of_fmap. exists (c, V c). split; [done|].
    by apply (list_elem_of_fmap_2 (λ b, (b, V b))).
  - by intros w (x & -> & _)%list_elem_of_fmap.
Qed.

(** The disk when the header has been written. *)
Definition committed_disk (d : gmap Z block) (bl : list Z) (V : view) : gmap Z block :=
  <[start := hd_set bl (dget d start)]> (apply_writes d (log_writes bl V)).

Lemma committed_home d bl V c :
  log_area_ok → trans_ok bl → home c → dget (committed_disk d bl V) c = dget d c.
Proof.
  intros Hla Htr Hc. unfold committed_disk. rewrite dget_insert, decide_False
    by (intros E; by apply (home_not_start c Hla Hc)).
  apply dget_log_area; [done|]. intros w Hw%(log_writes_range bl V w Htr). lia.
Qed.

(** From then on, whatever home blocks have been installed. *)
Lemma committed_install d bl V ws :
  log_area_ok → trans_ok bl → length (dget d start) = Z.to_nat BSIZE →
  (∀ w, w ∈ ws → w ∈ home_writes bl V) →
  entries (apply_writes (committed_disk d bl V) ws) = home_writes bl V.
Proof.
  intros Hla Htr Hlen Hws.
  assert (∀ c, ¬ home c → dget (apply_writes (committed_disk d bl V) ws) c =
    dget (committed_disk d bl V) c) as Hnh.
  { intros c Hc. rewrite dget_apply_writes. apply vsets_not_in.
    intros (w & -> & (x & -> & Hx)%Hws%list_elem_of_fmap)%list_elem_of_fmap.
    by apply Hc, (tr_home _ Htr). }
  eapply (committed_entries d bl V); [done..| |].
  - intros c Hc. rewrite Hnh by (intros [_ ?]; lia). unfold committed_disk.
    by rewrite dget_insert, decide_False by lia.
  - rewrite Hnh by (intros Hs; by apply (home_not_start start Hla Hs)).
    unfold committed_disk. by rewrite dget_insert, decide_True.
Qed.

(** A crash at any point of commit(): before the header is written the old
    contents are recovered, from then on the new contents. *)
Lemma commit_crash d bl V m b :
  log_area_ok → trans_ok bl → length (dget d start) = Z.to_nat BSIZE →
  hd_n (dget d start) = 0 → (∀ c, home c → c ∉ bl → dget d c = V c) → home b →
  recovered (apply_writes d (take m (commit_writes d bl V))) b =
    if decide (m ≤ length bl)%nat then dget d b else V b.
Proof.
  intros Hla Htr Hlen Hn0 HV Hb. unfold commit_writes.
  assert (length (log_writes bl V) = length bl) as Hl1 by apply length_imap.
  assert (length (home_writes bl V) = length bl) as Hl2 by apply length_fmap.
  case_decide as Hm.
  - rewrite take_app_le by lia. unfold recovered. rewrite entries_none.
    + simpl. apply dget_log_area; [done|].
      intros w Hw%elem_of_take_in%(log_writes_range bl V w Htr). lia.
    + rewrite dget_apply_writes, vsets_not_in; [done|].
      intros (w & E & Hw%elem_of_take_in%(log_writes_range bl V w Htr))%list_elem_of_fmap. lia.
  - rewrite take_app_ge by lia. rewrite apply_writes_app, Hl1.
    destruct (m - length bl)%nat as [|m'] eqn:Em; [lia|].
    change (apply_writes _ (take (S m') ([?w] ++ ?ws))) with
      (apply_writes (committed_disk d bl V) (take m' ws)).
    assert (b ∉ bl → dget (committed_disk d bl V) b = V b) as Hc
      by (intros; rewrite committed_home by done; by apply HV).
    destruct (decide (m' ≤ length bl)%nat) as [Hm'|Hm'].
    + rewrite take_app_le by lia. unfold recovered.
      rewrite committed_install by (first [done | intros w; apply elem_of_take_in]).
      apply vsets_home_writes. intros Hcb. rewrite dget_apply_writes, vsets_not_in; [by apply Hc|].
      by intros (w & -> & (x & -> & Hx)%elem_of_take_in%list_elem_of_fmap)%list_elem_of_fmap.
    + rewrite take_ge by (rewrite length_app; simpl; lia). rewrite apply_writes_app.
      unfold recovered. rewrite entries_none; simpl.
      * rewrite dget_insert, decide_False by (intros E; by apply (home_not_start b Hla Hb)).
        rewrite dget_apply_writes. by apply vsets_home_writes.
      * rewrite dget_insert, decide_True by done. unfold hd_set at 1.
        rewrite hd_upto_n; [done| |simpl; lia|simpl; lia].
        apply length_hd_upto; [done|destruct Htr; lia].
Qed.

Lemma log_disk_ok_empty d : log_area_ok → hd_n (dget d start) = 0 → log_disk_ok d.
Proof.
  intros [] E. split; [rewrite E; unfold LOGSIZE, MAXOPBLOCKS; lia|lia|].
  rewrite entries_none by done. set_solver.
Qed.

(** The header at any point of commit() is one recovery can read. *)
Lemma commit_crash_ok d bl V m :
  log_area_ok → trans_ok bl → length (dget d start) = Z.to_nat BSIZE →
  hd_n (dget d start) = 0 → log_disk_ok (apply_writes d (take m (commit_writes d bl V))).
Proof.
  intros Hla Htr Hlen Hn0. unfold commit_writes.
  assert (length (log_writes bl V) = length bl) as Hl1 by apply length_imap.
  assert (length (home_writes bl V) = length bl) as Hl2 by apply length_fmap.
  destruct (decide (m ≤ length bl)%nat) as [Hm|Hm].
  - apply log_disk_ok_empty; [done|]. rewrite take_app_le by lia.
    rewrite dget_apply_writes, vsets_not_in; [done|].
    intros (w & E & Hw%elem_of_take_in%(log_writes_range bl V w Htr))%list_elem_of_fmap. lia.
  - rewrite take_app_ge by lia. rewrite apply_writes_app, Hl1.
    destruct (m - length bl)%nat as [|m'] eqn:Em; [lia|].
    change (apply_writes _ (take (S m') ([?w] ++ ?ws))) with
      (apply_writes (committed_disk d bl V) (take m' ws)).
    destruct (decide (m' ≤ length bl)%nat) as [Hm'|Hm'].
    + rewrite take_app_le by lia.
      assert (dget (apply_writes (committed_disk d bl V) (take m' (home_writes bl V))) start =
        hd_set bl (dget d start)) as Eh.
      { rewrite dget_apply_writes, vsets_not_in.
        - unfold committed_disk. by rewrite dget_insert, decide_True.
        - intros (w & E & (x & -> & Hx)%elem_of_take_in%list_elem_of_fmap)%list_elem_of_fmap.
          simpl in E. apply (home_not_start x Hla (tr_home _ Htr _ Hx)). done. }
      assert (hd_n (hd_set bl (dget d start)) = Z.of_nat (length bl)) as En
        by (apply hd_upto_n; [done|destruct Htr; lia..]).
      split; rewrite ?Eh, ?En; [destruct Htr; lia|apply Htr|].
      rewrite committed_install by (first [done | intros w; apply elem_of_take_in]).
      intros w (x & -> & Hx)%list_elem_of_fmap. by apply Htr.
    + apply log_disk_ok_empty; [done|]. rewrite take_ge by (rewrite length_app; simpl; lia).
      rewrite apply_writes_app. simpl. rewrite dget_insert, decide_True by done. unfold hd_set at 1.
      rewrite hd_upto_n; [done| |simpl; lia|simpl; lia].
      apply length_hd_upto; [done|destruct Htr; lia].
Qed.

(** The same for a crash during recovery. *)
Lemma recover_crash_ok d m :
  log_area_ok → log_disk_ok d → length (dget d start) = Z.to_nat BSIZE →
  log_disk_ok (apply_writes d (take m (recover_writes d))).
Proof.
  intros Hla Hld Hlen. pose proof Hld as [Hn Hs Hh]. unfold recover_writes.
  destruct (decide (m ≤ length (entries d))%nat) as [Hm|Hm].
  - rewrite take_app_le by done.
    assert (∀ w, w ∈ take m (entries d) → home w.1) as Hw
      by (intros w Hw; apply Hh; by eapply elem_of_take_in).
    assert (dget (apply_writes d (take m (entries d))) start = dget d start) as Eh.
    { rewrite dget_apply_writes. apply vsets_not_in. intros (w & E & Hx)%list_elem_of_fmap.
      apply (home_not_start w.1 Hla (Hw _ Hx)). done. }
    split; rewrite ?Eh; [done|done|]. by rewrite entries_home_writes.
  - apply log_disk_ok_empty; [done|]. rewrite take_ge by (rewrite length_app; simpl; lia).
    rewrite apply_writes_app. simpl. rewrite dget_insert, decide_True by done. unfold hd_set.
    rewrite hd_upto_n; [done|done|simpl; lia|simpl; lia].
Qed.
End log_area.
