(* ===== verification/LogSpec.v ===== *)
(** * What the log promises

    Specifications of the functions of log.c.  The functions that write to the
    disk are specified by the exact sequence of their writes; [LogDisk] says
    what a crash in the middle of it leaves. *)

From stdpp Require Import gmap list strings.
From Stdlib Require Import ZArith Lia.
From S2P Require Import Prelude Mem Params FsData Machine Spinlock Sched Sleeplock Ring Bio.
From S2P Require Import BioSpec Log LogDisk.
#[local] Open Scope Z_scope.

Lemma wp_get_log {A} (g : logstate → A) k (Q : A → kernel → Prop) :
  Q (g (log (fs k))) k → wp (get_log g) k Q.
Proof. done. Qed.
Lemma wp_set_log g k (Q : unit → kernel → Prop) :
  Q tt (upd_fs (upd_log g) k) → wp (set_log g) k Q.
Proof. done. Qed.
Lemma wp_get_n k (Q : Z → kernel → Prop) : Q (lh_n (lg_lh (log (fs k)))) k → wp get_n k Q.
Proof. done. Qed.
Lemma wp_set_n v k (Q : unit → kernel → Prop) :
  Q tt (upd_fs (upd_log (upd_lg_lh (upd_lh_n (λ _, v)))) k) → wp (set_n v) k Q.
Proof. done. Qed.

Ltac wp_log :=
  lazymatch goal with
  | |- wp (get_log _) _ _ => apply wp_get_log
  | |- wp (set_log _) _ _ => apply wp_set_log
  | |- wp get_n _ _ => apply wp_get_n
  | |- wp (set_n _) _ _ => apply wp_set_n
  | _ => wp_bio
  end.
Ltac wp_prim ::= wp_log.

(** The in-memory log: the transaction consists of the blocks [bl]. *)
Record log_ok (f : fsys) (bl : list Z) : Prop := {
  lo_dev : lg_dev (log f) = ROOTDEV;
  lo_area : log_area_ok (lg_start (log f)) (lg_size (log f));
  lo_n : lh_n (lg_lh (log f)) = Z.of_nat (length bl);
  lo_len : length (lh_block (lg_lh (log f))) = Z.to_nat LOGSIZE;
  lo_bl : take (length bl) (lh_block (lg_lh (log f))) = bl;
  lo_tr : trans_ok (lg_start (log f)) (lg_size (log f)) bl;
}.

Lemma log_ok_frame f f' bl : log f' = log f → log_ok f bl → log_ok f' bl.
Proof. intros E []. split; by rewrite E. Qed.

Lemma log_ok_lookup f bl i b :
  log_ok f bl → bl !! i = Some b → lh_block (lg_lh (log f)) !! i = Some b.
Proof.
  intros Hlo Hb. rewrite <-(lo_bl _ _ Hlo) in Hb. rewrite lookup_take in Hb.
  by destruct (decide _).
Qed.

(** What the functions that write to the disk change besides [fs]: the log in
    memory stays. *)
Record wrote (k k' : kernel) (ws : list (Z * block)) : Prop := {
  wr_quiet : kquiet k k';
  wr_cache : cache_only (fs k) (fs k');
  wr_disk : disk (fs k') = apply_writes (disk (fs k)) ws;
  wr_writes : writes (fs k') = writes (fs k) ++ ws;
}.

Lemma wrote_nil k k' : quiet_io k k' → wrote k k' [].
Proof. intros []. split; try done. by rewrite app_nil_r. Qed.

Lemma wrote_trans k1 k2 k3 ws1 ws2 :
  wrote k1 k2 ws1 → wrote k2 k3 ws2 → wrote k1 k3 (ws1 ++ ws2).
Proof.
  intros [A1 A2 A3 A4] [B1 B2 B3 B4]. split; [by etrans|by etrans| |].
  - by rewrite B3, A3, apply_writes_app.
  - by rewrite B4, A4, app_assoc.
Qed.

Lemma wrote_io k1 k2 k3 ws : wrote k1 k2 ws → quiet_io k2 k3 → wrote k1 k3 ws.
Proof. intros H1 H2. rewrite <-(app_nil_r ws). eapply wrote_trans; [done|by apply wrote_nil]. Qed.

Section log_specs.
Context `{OTH : Others} (me : nat) (pid : Z).
Abbreviation bio := (bio_ok me pid).

Lemma log_bread_spec k V H P bl n :
  bio k V H P → log_ok (fs k) bl → 0 ≤ n < 2 ^ 32 → (∀ i d, H !! i ≠ Some (n, d)) →
  (size H + size P < NB)%nat ∨ n ∈ P →
  wp (log_bread n) k (λ i k',
    H !! i = None ∧ quiet_io k k' ∧ bio k' V (<[i := (n, V n)]> H) P ∧
    b_blockno (buf_of (fs k') i) = n ∧ b_data (buf_of (fs k') i) = V n).
Proof.
  intros Hbi Hlo Hn HH Hsz. unfold log_bread. wp_pure. rewrite (lo_dev _ _ Hlo).
  change (u32 ROOTDEV) with ROOTDEV. rewrite u32_small by done. by apply bread_spec.
Qed.

Lemma wp_get_block k bl i b (Q : Z → kernel → Prop) :
  log_ok (fs k) bl → bl !! Z.to_nat i = Some b → Q b k → wp (get_block i) k Q.
Proof.
  intros Hlo Hb HQ. unfold get_block. wp_pure. by rewrite (log_ok_lookup _ _ _ _ Hlo Hb).
Qed.

(** bwrite() as one write. *)
Lemma bwrite_wrote k V H P i n d :
  bio k V H P → H !! i = Some (n, d) →
  wp (bwrite i) k (λ _ k', wrote k k' [(n, d)] ∧ bio k' (vset V n d) H P).
Proof.
  intros Hbi HHi. eapply wp_mono; [by eapply bwrite_spec|].
  intros ? k' (Hq & Hc & Hbi' & Hd & Hw). split; [by split|done].
Qed.

(** *** write_log() *)

Lemma log_writes_take start bl (V : view) t b :
  bl !! t = Some b →
  take (S t) (log_writes start bl V) = take t (log_writes start bl V) ++ [(start + Z.of_nat t + 1, V b)].
Proof.
  intros Hb. apply take_S_r. unfold log_writes. by rewrite list_lookup_imap, Hb.
Qed.

Lemma pins_bound f bl : log_ok f bl → (size (list_to_set bl : gset Z) < NB)%nat.
Proof.
  intros [_ [_ Hs _] _ _ _ [_ Hf _]]. unfold NB, LOGSIZE, NBUF, MAXOPBLOCKS in *.
  assert (size (list_to_set bl : gset Z) ≤ length bl)%nat; [|lia].
  clear. induction bl as [|x bl IH]; [done|]. simpl.
  rewrite size_union_alt, size_singleton.
  pose proof (subseteq_size (list_to_set bl ∖ {[x]} : gset Z) (list_to_set bl)). set_solver by lia.
Qed.

Lemma home_not_log start size bl b i :
  log_area_ok start size → trans_ok start size bl → b ∈ bl → 0 ≤ i < size → b ≠ start + i.
Proof. intros [] [_ _ Hh] Hb Hi ->. destruct (Hh _ Hb) as [_ ?]. lia. Qed.

Lemma log_views start bl V ws b :
  (∀ w, w ∈ ws → w ∈ log_writes start bl V) → (∀ i, (i < length bl)%nat → b ≠ start + Z.of_nat i + 1) →
  vsets V ws b = V b.
Proof.
  intros Hw Hb. apply vsets_not_in.
  intros (w & E & (i & c & -> & Hi)%Hw%elem_of_lookup_imap_1)%list_elem_of_fmap.
  apply lookup_lt_Some in Hi. by apply (Hb i Hi).
Qed.

(** Two buffers in use, for blocks [x] and [y]. *)
Definition two (i : nat) (x : Z) (dx : block) (j : nat) (y : Z) (dy : block) : holds :=
  <[j := (y, dy)]> (<[i := (x, dx)]> ∅).

Lemma two_swap i x dx j y dy : i ≠ j → two i x dx j y dy = two j y dy i x dx.
Proof. intros. unfold two. by rewrite insert_insert_ne. Qed.

Lemma hold_first k V P bl x :
  bio k V ∅ P → log_ok (fs k) bl → 0 ≤ x < 2 ^ 31 → (size P < NB)%nat →
  wp (log_bread x) k (λ i k', quiet_io k k' ∧ bio k' V {[i := (x, V x)]} P ∧
    b_data (buf_of (fs k') i) = V x).
Proof.
  intros Hbi Hlo Hx Hs.
  eapply wp_mono; [eapply (log_bread_spec k V ∅ P bl x); try done; [lia|left; by rewrite map_size_empty]|].
  intros i k1 (_ & Hq1 & Hbi1 & _ & Hd). done.
Qed.

Lemma hold_second k V P bl i x dx y :
  bio k V {[i := (x, dx)]} P → log_ok (fs k) bl → 0 ≤ y < 2 ^ 31 → x ≠ y →
  (S (size P) < NB)%nat ∨ y ∈ P →
  wp (log_bread y) k (λ j k', i ≠ j ∧ quiet_io k k' ∧ bio k' V (two i x dx j y (V y)) P ∧
    b_data (buf_of (fs k') j) = V y).
Proof.
  intros Hbi Hlo Hy Hne Hs. eapply wp_mono; [eapply (log_bread_spec k V _ P bl y Hbi Hlo)|].
  - lia.
  - intros j d. rewrite lookup_singleton_Some. naive_solver.
  - by rewrite map_size_singleton.
  - intros j k1 (Hj & Hq1 & Hbi1 & _ & Hd). rewrite lookup_singleton_None in Hj. done.
Qed.

(** Store [d] in the first buffer and write it to the disk. *)
Lemma copy_write k V P i x dx j y dy d :
  bio k V (two i x dx j y dy) P → i ≠ j → length d = Z.to_nat BSIZE →
  wp (set_buf i (upd_b_data (λ _, d));; bwrite i) k (λ _ k',
    wrote k k' [(x, d)] ∧ bio k' (vset V x d) (two i x d j y dy) P).
Proof.
  intros Hbi Hne Hl. apply wp_bind, wp_set_buf.
  pose proof (set_data_ok me pid k V _ P i x dx (λ _, d) Hbi) as Hbi1. unfold two in Hbi1.
  rewrite lookup_insert_ne, lookup_insert_eq in Hbi1 by done. specialize (Hbi1 eq_refl Hl).
  rewrite insert_insert_ne, insert_insert_eq in Hbi1 by done.
  eapply wp_mono; [eapply (bwrite_wrote _ V _ P i x d Hbi1)|].
  - rewrite lookup_insert_ne, lookup_insert_eq by done. done.
  - intros ? k' [Hw Hbi']. split; [|done].
    eapply (wrote_trans k (upd_fs (upd_bcache (alter (upd_b_data (λ _, d)) i)) k) k' []); [|done].
    apply wrote_nil. by split.
Qed.

Lemma release_two k V P i x j y :
  bio k V (two i x (V x) j y (V y)) P → i ≠ j →
  wp (brelse j;; brelse i) k (λ _ k', quiet_io k k' ∧ bio k' V ∅ P).
Proof.
  intros Hbi Hne. apply wp_bind.
  eapply wp_mono; [eapply (brelse_spec me pid k V _ P j y Hbi); apply lookup_insert_eq|].
  intros ? k1 [Hq1 Hbi1]. unfold two in Hbi1.
  rewrite delete_insert_id in Hbi1 by (by rewrite lookup_insert_ne).
  eapply wp_mono; [eapply (brelse_spec me pid k1 V _ P i x Hbi1); apply lookup_insert_eq|].
  intros ? k2 [Hq2 Hbi2]. rewrite delete_insert_id in Hbi2 by done. split; [by etrans|done].
Qed.

Lemma write_log_spec k V bl :
  bio k V ∅ (list_to_set bl) → log_ok (fs k) bl →
  let ws := log_writes (lg_start (log (fs k))) bl V in
  wp write_log k (λ _ k', wrote k k' ws ∧ bio k' (vsets V ws) ∅ (list_to_set bl)).
Proof.
  intros Hbi Hlo ws. pose proof Hlo as [_ Hla Hn _ _ Htr]. pose proof (pins_bound _ _ Hlo) as Hpb.
  unfold write_log.
  apply (wp_loop _ (λ tail k', ∃ t, tail = Z.of_nat t ∧ (t ≤ length bl)%nat ∧
            wrote k k' (take t ws) ∧ bio k' (vsets V (take t ws)) ∅ (list_to_set bl))
           (λ tail _, Z.of_nat (length bl) - tail)).
  - intros ? k1 (t & -> & Ht & Hw & Hbi1).
    assert (log (fs k1) = log (fs k)) as El by apply Hw.
    assert (log_ok (fs k1) bl) as Hlo1 by (by eapply log_ok_frame).
    wp_pure. rewrite El, Hn. case_cmp.
    + destruct (lookup_lt_is_Some_2 bl t) as [b Hb]; [lia|].
      assert (b ∈ bl) as Hbl by (by eapply list_elem_of_lookup_2).
      pose proof (tr_home _ _ _ Htr b Hbl) as [Hbr Hbh]. pose proof Hla as [L1 L2 L3].
      pose proof (tr_fits _ _ _ Htr).
      set (x := lg_start (log (fs k)) + Z.of_nat t + 1) in *.
      apply wp_bind, wp_get_log. rewrite El. fold x.
      apply wp_bind. eapply wp_mono; [eapply (hold_first k1 _ _ bl x); try done; lia|].
      intros to k2 (Hq2 & Hbi2 & _).
      assert (log_ok (fs k2) bl) as Hlo2 by (eapply log_ok_frame; [apply Hq2|done]).
      apply wp_bind. eapply wp_get_block; [done|by rewrite Nat2Z.id|].
      apply wp_bind. eapply wp_mono; [eapply (hold_second k2 _ _ bl to x _ b Hbi2); try done|].
      { lia. } { right. set_solver. }
      intros from k3 (Hne & Hq3 & Hbi3 & Hd3). apply wp_bind, wp_get_buf. rewrite Hd3.
      set (Vt := vsets V (take t ws)) in *.
      assert (Vt b = V b) as Evt.
      { apply (log_views (lg_start (log (fs k))) bl); [intros w; apply elem_of_take_in|]. lia. }
      apply wp_seq2. eapply wp_mono; [eapply copy_write; [exact Hbi3|done|]|].
      { apply (bo_size _ _ _ _ _ (bi_cache _ _ _ _ _ _ Hbi1)). }
      intros ? k4 [Hw4 Hbi4]. apply wp_seq2.
      eapply wp_mono; [eapply (release_two k4 (vset Vt x (Vt b)) _ to x from b)|].
      { by rewrite vset_eq, vset_ne by lia. } { done. }
      intros ? k5 [Hq5 Hbi5]. wp_pure. split; [|lia]. exists (S t).
      unfold ws. rewrite (log_writes_take _ _ _ _ _ Hb). fold ws x.
      rewrite vsets_app. split_and!; [lia|lia| |].
      * eapply wrote_trans; [exact Hw|]. rewrite <-Evt.
        eapply (wrote_trans k1 k3 k5 []); [apply wrote_nil; by etrans|by eapply wrote_io].
      * simpl. fold Vt. by rewrite <-Evt.
    + wp_pure. assert (t = length bl) as -> by lia.
      rewrite take_ge in Hw, Hbi1 by (unfold ws, log_writes; rewrite length_imap; lia). done.
  - exists O. split_and!; [done|lia| |done]. simpl. by apply wrote_nil.
  - destruct Htr as [Htr _ _]. unfold LOGSIZE, MAXOPBLOCKS in *. lia.
Qed.

(** *** install_trans() *)

(** The writes of install_trans() when the disk looks like [W]. *)
Definition inst_writes (start : Z) (bl : list Z) (W : view) : list (Z * block) :=
  imap (λ i b, (b, W (start + Z.of_nat i + 1))) bl.

(** The blocks still pinned after [t] iterations. *)
Definition inst_pins (recovering : Z) (bl : list Z) (t : nat) : gset Z :=
  if recovering =? 0 then list_to_set (drop t bl) else ∅.

Lemma inst_pins_size r f bl t : log_ok f bl → (size (inst_pins r bl t) < NB)%nat.
Proof.
  intros Hlo. unfold inst_pins. destruct (r =? 0); [|rewrite size_empty; unfold NB, NBUF, MAXOPBLOCKS; lia].
  eapply Nat.le_lt_trans; [|by eapply pins_bound]. apply subseteq_size.
  rewrite <-(take_drop t bl) at 2. rewrite list_to_set_app. set_solver.
Qed.

Lemma inst_pins_S r bl t b :
  NoDup bl → bl !! t = Some b →
  inst_pins r bl (S t) = if r =? 0 then inst_pins r bl t ∖ {[b]} else inst_pins r bl t.
Proof.
  intros Hnd Hb. unfold inst_pins. destruct (r =? 0); [|done]. apply set_eq. intros y.
  rewrite (drop_S bl b t) by done. simpl.
  assert (b ∉ drop (S t) bl); [|set_solver].
  rewrite <-(take_drop_middle bl t b) in Hnd by done.
  apply NoDup_app in Hnd as (_ & _ & [? _]%NoDup_cons). done.
Qed.

Lemma inst_views start size bl W ws i :
  log_area_ok start size → trans_ok start size bl →
  (∀ w, w ∈ ws → w ∈ inst_writes start bl W) → 0 ≤ i < size → vsets W ws (start + i) = W (start + i).
Proof.
  intros Hla Htr Hw Hi. apply vsets_not_in.
  intros (w & E & (j & c & -> & Hj)%Hw%elem_of_lookup_imap_1)%list_elem_of_fmap.
  apply list_elem_of_lookup_2 in Hj.
  by eapply (home_not_log start size bl c i).
Qed.

Lemma buf_data k V H P i n d : bio k V H P → H !! i = Some (n, d) → b_data (buf_of (fs k) i) = d.
Proof.
  intros Hbi HHi. destruct (held_buf _ _ _ _ _ _ _ _ _ Hbi HHi) as (b & _ & Hb & _ & _ & Ed & _).
  by rewrite (buf_of_lookup _ _ _ Hb).
Qed.

(** The last part of an iteration: unpin if the block was pinned, release. *)
Lemma install_release r k V P i x j y :
  bio k V (two i x (V x) j y (V y)) P → i ≠ j → dget (disk (fs k)) x = V x →
  (r =? 0 = true → x ∈ P) →
  wp (when (r =? 0) (bunpin i);; brelse j;; brelse i) k (λ _ k',
    quiet_io k k' ∧ bio k' V ∅ (if r =? 0 then P ∖ {[x]} else P)).
Proof.
  intros Hbi Hne Hd Hx. apply wp_bind. destruct (r =? 0).
  - unfold when. eapply wp_mono; [eapply (bunpin_spec me pid k V _ P i x (V x)); try done|].
    + unfold two. by rewrite lookup_insert_ne, lookup_insert_eq.
    + by apply Hx.
    + intros ? k1 [Hq1 Hbi1]. eapply wp_mono; [by eapply release_two|].
      intros ? k2 [Hq2 Hbi2]. split; [by etrans|done].
  - wp_step. exact (release_two k V P i x j y Hbi Hne).
Qed.

(** One iteration, for block [b] with its log block [x]. *)
Lemma install_step {B} r k V P bl t b x (rest : K B) (Q : B → kernel → Prop) :
  bio k V ∅ P → log_ok (fs k) bl → x = lg_start (log (fs k)) + Z.of_nat t + 1 →
  bl !! t = Some b → (size P < NB)%nat → (if r =? 0 then b ∈ P else P = ∅) →
  (∀ k', wrote k k' [(b, V x)] → bio k' (vset V b (V x)) ∅ (if r =? 0 then P ∖ {[b]} else P) →
    wp rest k' Q) →
  wp (lbuf ← log_bread x;
      b ← get_block (Z.of_nat t);
      dbuf ← log_bread b;
      d ← get_buf lbuf b_data;
      set_buf dbuf (upd_b_data (λ _, d));;
      bwrite dbuf;;
      when (r =? 0) (bunpin dbuf);;
      brelse lbuf;;
      brelse dbuf;;
      rest) k Q.
Proof.
  intros Hbi Hlo Ex Hb Hsz HP HQ. pose proof Hlo as [_ [L1 L2 L3] _ _ _ Htr].
  assert (b ∈ bl) as Hbl by (by eapply list_elem_of_lookup_2).
  pose proof (tr_home _ _ _ Htr b Hbl) as [Hbr Hbh]. pose proof (tr_fits _ _ _ Htr).
  pose proof (lookup_lt_Some _ _ _ Hb).
  apply wp_bind. eapply wp_mono; [eapply (hold_first k V P bl x); try done; lia|].
  intros lb k2 (Hq2 & Hbi2 & _).
  assert (log_ok (fs k2) bl) as Hlo2 by (eapply log_ok_frame; [apply Hq2|done]).
  apply wp_bind. eapply wp_get_block; [done|by rewrite Nat2Z.id|].
  apply wp_bind. eapply wp_mono; [eapply (hold_second k2 V P bl lb x _ b Hbi2); try done|].
  { lia. }
  { destruct (r =? 0); [by right|left]. subst P. rewrite size_empty.
    unfold NB, NBUF, MAXOPBLOCKS. lia. }
  intros db k3 (Hne & Hq3 & Hbi3 & _). apply wp_bind, wp_get_buf.
  rewrite (buf_data _ _ _ _ lb x (V x) Hbi3)
    by (unfold two; rewrite lookup_insert_ne, lookup_insert_eq; done).
  rewrite two_swap in Hbi3 by done.
  apply wp_seq2. eapply wp_mono; [eapply copy_write; [exact Hbi3|done|]|].
  { apply (bo_size _ _ _ _ _ (bi_cache _ _ _ _ _ _ Hbi)). }
  intros ? k4 [Hw4 Hbi4]. apply wp_seq3.
  eapply wp_mono; [eapply (install_release r k4 (vset V b (V x)) P db b lb x)|].
  - by rewrite vset_eq, vset_ne by lia.
  - done.
  - rewrite (wr_disk _ _ _ Hw4). simpl. rewrite dget_insert, vset_eq. by case_decide.
  - intros E. by rewrite E in HP.
  - intros [] k5 [Hq5 Hbi5]. apply HQ; [|done].
    eapply (wrote_trans k k3 k5 []); [apply wrote_nil; by etrans|by eapply wrote_io].
Qed.

Lemma install_trans_spec r k W bl :
  bio k W ∅ (inst_pins r bl 0) → log_ok (fs k) bl → NoDup bl ∨ r =? 0 = false →
  let ws := inst_writes (lg_start (log (fs k))) bl W in
  wp (install_trans r) k (λ _ k', wrote k k' ws ∧ bio k' (vsets W ws) ∅ ∅).
Proof.
  intros Hbi Hlo Hnd ws. pose proof Hlo as [_ Hla Hn _ _ Htr]. unfold install_trans.
  assert (length ws = length bl) as Hlw by apply length_imap.
  apply (wp_loop _ (λ tail k', ∃ t, tail = Z.of_nat t ∧ (t ≤ length bl)%nat ∧
            wrote k k' (take t ws) ∧ bio k' (vsets W (take t ws)) ∅ (inst_pins r bl t))
           (λ tail _, Z.of_nat (length bl) - tail)).
  - intros ? k1 (t & -> & Ht & Hw & Hbi1).
    assert (log (fs k1) = log (fs k)) as El by apply Hw.
    assert (log_ok (fs k1) bl) as Hlo1 by (by eapply log_ok_frame).
    wp_pure. rewrite El, Hn.
    destruct (Z.ltb_spec (Z.of_nat t) (Z.of_nat (length bl))).
    + destruct (lookup_lt_is_Some_2 bl t) as [b Hb]; [lia|]. apply wp_bind, wp_get_log. rewrite El.
      set (x := lg_start (log (fs k)) + Z.of_nat t + 1).
      assert (take (S t) ws = take t ws ++ [(b, W x)]) as Ews.
      { apply take_S_r. unfold ws, inst_writes. by rewrite list_lookup_imap, Hb. }
      assert (vsets W (take t ws) x = W x) as Ex.
      { unfold x. rewrite <-Z.add_assoc. destruct Htr as [? ? ?].
        eapply (inst_views _ _ bl); [done..|intros w; apply elem_of_take_in|lia]. }
      eapply (install_step r k1 _ _ bl t b x); try done.
      * by rewrite El.
      * by eapply inst_pins_size.
      * unfold inst_pins. destruct (r =? 0); [|done]. rewrite (drop_S bl b t) by done. set_solver.
      * intros k2 Hw2 Hbi2. wp_pure. split; [|lia]. exists (S t). rewrite Ews, vsets_app, <-Ex.
        split_and!; [lia|lia|by eapply wrote_trans|]. simpl.
        destruct Hnd as [Hnd|Hr]; [by rewrite (inst_pins_S r bl t b)|].
        rewrite Hr in Hbi2. unfold inst_pins in *. by rewrite Hr in *.
    + wp_pure. assert (t = length bl) as -> by lia. rewrite take_ge in Hw, Hbi1 by lia.
      split; [done|]. unfold inst_pins in Hbi1. rewrite drop_all in Hbi1. by destruct (r =? 0).
  - exists O. split_and!; [done|lia| |done]. simpl. by apply wrote_nil.
  - destruct Htr as [Htr _ _]. unfold LOGSIZE, MAXOPBLOCKS in *. lia.
Qed.

(** *** The header *)

(** A store into the only buffer in use. *)
Lemma set_data_one k V P i n d g :
  bio k V {[i := (n, d)]} P → length (g d) = Z.to_nat BSIZE →
  quiet_io k (upd_fs (upd_bcache (alter (upd_b_data g) i)) k) ∧
  bio (upd_fs (upd_bcache (alter (upd_b_data g) i)) k) V {[i := (n, g d)]} P.
Proof.
  intros Hbi Hl. split; [by split|].
  pose proof (set_data_ok me pid k V _ P i n d g Hbi) as Hbi'.
  rewrite lookup_singleton_eq, insert_singleton_eq in Hbi'. by apply Hbi'.
Qed.

Lemma release_one k V P i n :
  bio k V {[i := (n, V n)]} P → wp (brelse i) k (λ _ k', quiet_io k k' ∧ bio k' V ∅ P).
Proof.
  intros Hbi. eapply wp_mono; [eapply (brelse_spec me pid k V _ P i n Hbi), lookup_singleton_eq|].
  intros ? k' [Hq Hbi']. rewrite delete_singleton_eq in Hbi'. done.
Qed.

Lemma write_head_spec k W P bl :
  bio k W ∅ P → log_ok (fs k) bl → (size P < NB)%nat →
  let start := lg_start (log (fs k)) in
  let h := hd_set bl (W start) in
  wp write_head k (λ _ k', wrote k k' [(start, h)] ∧ bio k' (vset W start h) ∅ P).
Proof.
  intros Hbi Hlo Hsz start h. pose proof Hlo as [_ Hla Hn _ _ Htr]. pose proof Hla as [L1 L2 L3].
  pose proof (tr_size _ _ _ Htr) as Hts.
  assert (length (W start) = Z.to_nat BSIZE) as Hl
    by apply (bo_size _ _ _ _ _ (bi_cache _ _ _ _ _ _ Hbi)).
  unfold write_head. apply wp_bind, wp_get_log. fold start.
  apply wp_bind. eapply wp_mono; [eapply (hold_first k W P bl start); try done; unfold start; lia|].
  intros i k1 (Hq1 & Hbi1 & _). assert (log (fs k1) = log (fs k)) as El by apply Hq1.
  wp_pure. rewrite El, Hn.
  destruct (set_data_one k1 W P i start (W start) (bst 4 0 (Z.of_nat (length bl))) Hbi1)
    as [Hq2 Hbi2]; [rewrite length_bst; unfold BSIZE in *; lia|].
  set (k2 := upd_fs _ k1) in *.
  apply (wp_loop _ (λ j k', ∃ t, j = Z.of_nat t ∧ (t ≤ length bl)%nat ∧ quiet_io k k' ∧
            bio k' W {[i := (start, hd_upto bl (W start) t)]} P)
           (λ j _, Z.of_nat (length bl) - j)).
  - intros ? k3 (t & -> & Ht & Hq3 & Hbi3). assert (log (fs k3) = log (fs k)) as El3 by apply Hq3.
    wp_pure. rewrite El3, Hn. case_cmp.
    + destruct (lookup_lt_is_Some_2 bl t) as [b Hb]; [lia|].
      apply wp_bind. eapply wp_get_block; [by eapply log_ok_frame|by rewrite Nat2Z.id|]. wp_pure.
      destruct (set_data_one k3 W P i start _ (bst 4 (4 + 4 * Z.of_nat t) b) Hbi3) as [Hq4 Hbi4].
      { unfold LOGSIZE, MAXOPBLOCKS in Hts.
        rewrite length_bst; rewrite ?length_hd_upto by (first [done | unfold LOGSIZE, MAXOPBLOCKS; lia]);
          [done|lia|unfold BSIZE; lia]. }
      split; [|lia]. exists (S t). split_and!; [lia|lia|by etrans|]. cbn [hd_upto]. by rewrite Hb.
    + wp_pure. assert (t = length bl) as -> by lia. cbv iota.
      wp_pure. eapply wp_mono; [eapply (bwrite_wrote k3 W _ P i start); [done|apply lookup_singleton_eq]|].
      intros ? k4 [Hw4 Hbi4]. eapply wp_mono; [eapply (release_one k4 _ P i start)|].
      { rewrite vset_eq. exact Hbi4. }
      intros ? k5 [Hq5 Hbi5]. split; [|done].
      eapply (wrote_trans k k3 k5 []); [by apply wrote_nil|by eapply wrote_io].
  - exists O. split_and!; [done|lia|by etrans|done].
  - unfold LOGSIZE, MAXOPBLOCKS in *. lia.
Qed.

(** Only the header of the log in memory has changed, and the cache. *)
Record lh_changed (k k' : kernel) (lh : logheader) : Prop := {
  lc_quiet : kquiet k k';
  lc_cache : cache_only (upd_log (upd_lg_lh (λ _, lh)) (fs k)) (fs k');
  lc_disk : disk (fs k') = disk (fs k);
  lc_writes : writes (fs k') = writes (fs k);
}.

Lemma lh_changed_io k1 k2 k3 lh : lh_changed k1 k2 lh → quiet_io k2 k3 → lh_changed k1 k3 lh.
Proof. intros [] []. split; [by etrans|by etrans|congruence..]. Qed.

Lemma lh_changed_set k V H P k' lh g :
  bio k' V H P → lh_changed k k' lh →
  lh_changed k (upd_fs (upd_log (upd_lg_lh g)) k') (g lh) ∧
  bio (upd_fs (upd_log (upd_lg_lh g)) k') V H P.
Proof.
  intros Hbi [C1 [D1 D2 D3 D4 D5 D6] C3 C4]. split.
  - split; [etrans; [exact C1|by split]| |done|done]. split; try done. simpl. by rewrite D1.
  - eapply bio_ok_frame; [done|by split|done..].
Qed.

(** The log in memory after a header with [n] blocks has been read. *)
Lemma read_head_spec k W P :
  bio k W ∅ P → (size P < NB)%nat → lg_dev (log (fs k)) = ROOTDEV →
  log_area_ok (lg_start (log (fs k))) (lg_size (log (fs k))) →
  length (lh_block (lg_lh (log (fs k)))) = Z.to_nat LOGSIZE →
  let start := lg_start (log (fs k)) in
  let bl := hd_block (W start) <$> seqZ 0 (hd_n (W start)) in
  0 ≤ hd_n (W start) → trans_ok start (lg_size (log (fs k))) bl →
  wp read_head k (λ _ k',
    bio k' W ∅ P ∧ log_ok (fs k') bl ∧ lh_changed k k' (lg_lh (log (fs k')))).
Proof.
  intros Hbi Hsz Hdev Hla Hlen start bl Hn Htr. pose proof Hla as [L1 L2 L3].
  assert (Z.of_nat (length bl) = hd_n (W start)) as Hbn
    by (unfold bl; rewrite length_fmap, length_seqZ; lia).
  pose proof (tr_size _ _ _ Htr) as Hts.
  unfold read_head. apply wp_bind, wp_get_log. fold start. apply wp_bind.
  unfold log_bread at 1. apply wp_bind, wp_get_log. rewrite Hdev.
  change (u32 ROOTDEV) with ROOTDEV. rewrite u32_small by (unfold start; lia).
  eapply wp_mono; [eapply (bread_spec me pid k W ∅ P start); try done; left; by rewrite map_size_empty|].
  intros i k1 (_ & Hq1 & Hbi1 & _ & Hd1). wp_pure. rewrite Hd1.
  assert (lh_changed k k1 (lg_lh (log (fs k)))) as Hc1.
  { destruct Hq1 as [? [] ? ?]. split; try done. split; try done. simpl. by destruct (log (fs k)). }
  destruct (lh_changed_set k W _ P k1 _ (upd_lh_n (λ _, hd_n (W start))) Hbi1 Hc1) as [Hc2 Hbi2].
  set (k2 := upd_fs _ k1) in *.
  apply (wp_loop _ (λ j k', ∃ t B, j = Z.of_nat t ∧ (t ≤ length bl)%nat ∧
            lh_changed k k' (mkLh (hd_n (W start)) B) ∧ bio k' W {[i := (start, W start)]} P ∧
            length B = Z.to_nat LOGSIZE ∧ take t B = take t bl)
           (λ j _, Z.of_nat (length bl) - j)).
  - intros ? k3 (t & B & -> & Ht & Hc3 & Hbi3 & HlB & HtB).
    assert (log (fs k3) = upd_lg_lh (λ _, mkLh (hd_n (W start)) B) (log (fs k))) as El by apply Hc3.
    wp_pure. rewrite El. simpl.
    destruct (Z.ltb_spec (Z.of_nat t) (hd_n (W start))).
    + assert (bl !! t = Some (hd_block (W start) (Z.of_nat t))) as Hb.
      { unfold bl. rewrite list_lookup_fmap, lookup_seqZ_lt by lia. simpl. do 2 f_equal. }
      unfold set_block, get_block. wp_pure. rewrite El. simpl.
      destruct (lookup_lt_is_Some_2 B t) as [v Hv]; [unfold LOGSIZE, MAXOPBLOCKS in *; lia|].
      rewrite Nat2Z.id, Hv. wp_pure. split; [|lia].
      destruct (lh_changed_set k W _ P k3 _
        (upd_lh_block <[t := hd_block (W start) (Z.of_nat t)]>) Hbi3 Hc3) as [Hc4 Hbi4].
      exists (S t), (<[t := hd_block (W start) (Z.of_nat t)]> B).
      split_and!; [lia|lia|exact Hc4|exact Hbi4|by rewrite length_insert|].
      rewrite (take_S_r bl t _ Hb), <-HtB.
      erewrite take_S_r by (apply list_lookup_insert_eq; by eapply lookup_lt_Some).
      by rewrite take_insert_ge.
    + wp_pure. cbv iota. wp_pure. assert (t = length bl) as -> by lia.
      eapply wp_mono; [by eapply (release_one k3 W P i start)|]. intros ? k4 [Hq4 Hbi4].
      assert (lh_changed k k4 (mkLh (hd_n (W start)) B)) as Hc4 by (by eapply lh_changed_io).
      assert (log (fs k4) = upd_lg_lh (λ _, mkLh (hd_n (W start)) B) (log (fs k))) as El4 by apply Hc4.
      rewrite El4. split_and!; [done| |done]. split; rewrite El4; simpl; try done.
      by rewrite HtB, firstn_all.
  - exists O, (lh_block (lg_lh (log (fs k)))). split_and!; [done|lia|exact Hc2|done..].
  - unfold LOGSIZE, MAXOPBLOCKS in *. lia.
Qed.
End log_specs.
