(* ===== verification/LogCommit.v ===== *)
(** * Transactions: commit, recovery, begin_op() and end_op()

    The specifications of [LogSpec] put together: the writes of commit() and of
    recovery are the sequences that [LogDisk] studies. *)

From stdpp Require Import gmap list strings.
From Stdlib Require Import ZArith Lia.
From S2P Require Import Prelude Mem Params FsData Machine Spinlock Sched Sleeplock Ring Bio.
From S2P Require Import BioSpec Log LogDisk LogSpec.
#[local] Open Scope Z_scope.
Ltac wp_prim ::= wp_log.

(** The kernel writes [ws] to the disk; in memory only the cache and the log
    header change. *)
Record logged (k k' : kernel) (ws : list (Z * block)) : Prop := {
  lg_quiet : kquiet k k';
  lg_cache : cache_only (upd_log (upd_lg_lh (λ _, lg_lh (log (fs k')))) (fs k)) (fs k');
  lg_disk : disk (fs k') = apply_writes (disk (fs k)) ws;
  lg_writes : writes (fs k') = writes (fs k) ++ ws;
}.

Lemma wrote_logged k k' ws : wrote k k' ws → logged k k' ws.
Proof.
  intros [H1 [D1 D2 D3 D4 D5 D6] H3 H4]. split; try done. split; try done. simpl.
  rewrite D1. by destruct (log (fs k)).
Qed.

Lemma logged_trans k1 k2 k3 ws1 ws2 :
  logged k1 k2 ws1 → logged k2 k3 ws2 → logged k1 k3 (ws1 ++ ws2).
Proof.
  intros [A1 [D1 D2 D3 D4 D5 D6] A3 A4] [B1 [E1 E2 E3 E4 E5 E6] B3 B4].
  split; [by etrans| |by rewrite B3, A3, apply_writes_app|by rewrite B4, A4, app_assoc].
  split; simpl in *; try congruence.
  - rewrite E1. simpl in *. by rewrite D1.
  - intros i. etrans; [apply E6|apply D6].
Qed.

Lemma lh_changed_logged k k' : lh_changed k k' (lg_lh (log (fs k'))) → logged k k' [].
Proof. intros []. split; try done. by rewrite app_nil_r. Qed.

Section commit.
Context `{OTH : Others} (me : nat) (pid : Z).
Abbreviation bio := (bio_ok me pid).

(** log.lh.n = 0 *)
Lemma clear_n k V H P bl :
  bio k V H P → log_ok (fs k) bl →
  let k' := upd_fs (upd_log (upd_lg_lh (upd_lh_n (λ _, 0)))) k in
  logged k k' [] ∧ bio k' V H P ∧ log_ok (fs k') [].
Proof.
  intros Hbi [L1 L2 L3 L4 L5 [T1 T2 T3]] k'. split_and!.
  - apply lh_changed_logged. by split.
  - eapply bio_ok_frame; [done|by split|done..].
  - destruct L2 as [? ? ?]. split; try done. split; simpl; [unfold LOGSIZE, MAXOPBLOCKS; lia|lia|].
    intros b Hb. by apply elem_of_nil in Hb.
Qed.

Lemma logged_log k k' ws :
  logged k k' ws → lg_start (log (fs k')) = lg_start (log (fs k)) ∧
    lg_size (log (fs k')) = lg_size (log (fs k)).
Proof. intros [_ [D1 _ _ _ _ _] _ _]. by rewrite D1. Qed.

(** What the log and the header hold when the blocks are installed. *)
Section views.
Context (start size : Z) (bl : list Z) (V : Z → list Z) (h : list Z).
Hypothesis Hla : log_area_ok start size.
Hypothesis Htr : trans_ok start size bl.
Let W := vset (vsets V (log_writes start bl V)) start h.

Lemma inst_home : inst_writes start bl W = home_writes bl V.
Proof.
  unfold inst_writes, home_writes. apply list_eq. intros i.
  rewrite list_lookup_imap, list_lookup_fmap. destruct (bl !! i) as [b|] eqn:Eb; [|done]. simpl.
  do 2 f_equal. unfold W. rewrite vset_ne by lia. by apply log_writes_get.
Qed.

Lemma commit_head : vsets W (home_writes bl V) start = h.
Proof.
  rewrite vsets_not_in; [unfold W; by rewrite vset_eq|].
  intros (w & E & (x & -> & Hx)%list_elem_of_fmap)%list_elem_of_fmap. simpl in E.
  apply (home_not_start start size x); [done|by apply Htr|done].
Qed.

Lemma commit_home b : home start size b → vsets W (home_writes bl V) b = V b.
Proof.
  intros Hb. apply vsets_home_writes. intros Hbl. unfold W.
  rewrite vset_ne by (intros E; by eapply home_not_start).
  apply (log_views start bl); [done|]. intros i Hi. pose proof (tr_fits _ _ _ Htr).
  destruct Hb as [_ Hb]. lia.
Qed.
End views.

Lemma commit_spec k V bl :
  bio k V ∅ (list_to_set bl) → log_ok (fs k) bl → NoDup bl →
  let start := lg_start (log (fs k)) in
  let size := lg_size (log (fs k)) in
  let ws := if decide (bl = []) then [] else commit_writes start (disk (fs k)) bl V in
  hd_n (V start) = 0 →
  wp commit k (λ _ k', ∃ V',
    logged k k' ws ∧ bio k' V' ∅ ∅ ∧ log_ok (fs k') [] ∧ hd_n (V' start) = 0 ∧
    ∀ b, home start size b → V' b = V b).
Proof.
  intros Hbi Hlo Hnd start size ws Hn0. pose proof Hlo as [_ Hla Hn _ _ Htr].
  unfold commit. wp_pure. rewrite Hn. unfold ws. clear ws. destruct (decide (bl = [])) as [->|Hne].
  { simpl. wp_pure. exists V. split_and!; try done. by apply wrote_logged, wrote_nil. }
  assert (0 < Z.of_nat (length bl)) as Hpos by (destruct bl; [done|simpl; lia]).
  destruct (Z.ltb_spec 0 (Z.of_nat (length bl))); [|lia]. unfold when.
  assert (∀ c, home start size c → c ≠ start) as Hstart by (intros; by eapply home_not_start).
  pose proof (pins_bound _ _ Hlo) as Hpb.
  apply wp_bind. eapply wp_mono; [by eapply (write_log_spec me pid k V bl)|]. fold start.
  intros ? k1 [Hw1 Hbi1]. set (V1 := vsets V (log_writes start bl V)) in *.
  assert (log (fs k1) = log (fs k)) as El1 by apply Hw1.
  assert (log_ok (fs k1) bl) as Hlo1 by (by eapply log_ok_frame).
  apply wp_bind. eapply wp_mono; [eapply (write_head_spec me pid k1 V1 _ bl); try done|].
  rewrite El1. fold start. intros ? k2 [Hw2 Hbi2].
  set (h := hd_set bl (V1 start)) in *. set (V2 := vset V1 start h) in *.
  assert (log (fs k2) = log (fs k)) as El2 by (rewrite <-El1; apply Hw2).
  assert (log_ok (fs k2) bl) as Hlo2 by (by eapply log_ok_frame).
  apply wp_bind. eapply wp_mono; [eapply (install_trans_spec me pid 0 k2 V2 bl); try done; by left|].
  rewrite El2. fold start. intros ? k3 [Hw3 Hbi3].
  assert (log_ok (fs k3) bl) as Hlo3 by (eapply log_ok_frame; [apply Hw3|done]).
  destruct (clear_n k3 _ _ _ bl Hbi3 Hlo3) as (Hl4 & Hbi4 & Hlo4).
  apply wp_bind, wp_set_n. set (k4 := upd_fs _ k3) in *.
  eapply wp_mono; [eapply (write_head_spec me pid k4 _ ∅ []); try done|].
  { rewrite size_empty. lia. }
  intros ? k5 [Hw5 Hbi5].
  assert (V1 start = V start) as E1.
  { apply (log_views start bl); [done|]. lia. }
  assert (V start = dget (disk (fs k)) start) as Ed.
  { symmetry. apply (bo_disk _ _ _ _ _ (bi_cache _ _ _ _ _ _ Hbi)).
    rewrite elem_of_list_to_set. intros Hs. by apply (Hstart start); [apply Htr|]. }
  assert (inst_writes start bl V2 = home_writes bl V) as Ei by apply inst_home.
  rewrite Ei in *. set (V3 := vsets V2 (home_writes bl V)) in *.
  assert (lg_start (log (fs k4)) = start) as Es4.
  { unfold k4. simpl. by rewrite (co_log _ _ (wr_cache _ _ _ Hw3)), El2. }
  rewrite Es4 in *.
  assert (V3 start = h) as E3 by (by eapply commit_head).
  exists (vset V3 start (hd_set [] (V3 start))).
  assert (logged k k5 (commit_writes start (disk (fs k)) bl V)) as Hlog.
  { unfold commit_writes. rewrite <-Ed, <-E1. fold h.
    eapply (logged_trans k k1); [by apply wrote_logged|].
    eapply (logged_trans k1 k2); [by apply wrote_logged|].
    eapply (logged_trans k2 k3); [by apply wrote_logged|].
    eapply (logged_trans k3 k4 k5 []); [done|]. rewrite <-E3. by apply wrote_logged. }
  split_and!; [done|done| | |].
  - eapply log_ok_frame; [apply Hw5|done].
  - rewrite vset_eq. unfold hd_set. rewrite hd_upto_n; [done| |simpl; lia|simpl; lia].
    apply (bo_size _ _ _ _ _ (bi_cache _ _ _ _ _ _ Hbi4)).
  - intros b Hb. rewrite vset_ne by (intros E; by apply (Hstart b)). by eapply commit_home.
Qed.

(** *** Recovery *)

Lemma entries_inst start W d :
  (∀ b, dget d b = W b) →
  inst_writes start (hd_block (W start) <$> seqZ 0 (hd_n (W start))) W = entries start d.
Proof.
  intros E. unfold inst_writes, entries. rewrite E. apply list_eq. intros i.
  rewrite list_lookup_imap, !list_lookup_fmap.
  destruct (decide (Z.of_nat i < hd_n (W start))) as [Hi|Hi].
  - rewrite !lookup_seqZ_lt by lia. simpl. by rewrite E, Z.add_0_l.
  - by rewrite !lookup_seqZ_ge by lia.
Qed.

Lemma recover_spec k W :
  bio k W ∅ ∅ → lg_dev (log (fs k)) = ROOTDEV →
  length (lh_block (lg_lh (log (fs k)))) = Z.to_nat LOGSIZE →
  let start := lg_start (log (fs k)) in
  let size := lg_size (log (fs k)) in
  let d := disk (fs k) in
  log_area_ok start size → log_disk_ok start size d →
  wp recover_from_log k (λ _ k', ∃ V',
    logged k k' (recover_writes start d) ∧ bio k' V' ∅ ∅ ∧ log_ok (fs k') [] ∧
    hd_n (V' start) = 0 ∧ ∀ b, home start size b → V' b = recovered start d b).
Proof.
  intros Hbi Hdev Hlen start size d Hla [Hn Hs Hh].
  assert (∀ b, dget d b = W b) as HW
    by (intros b; by apply (bo_disk _ _ _ _ _ (bi_cache _ _ _ _ _ _ Hbi))).
  pose proof (entries_inst start W d HW) as Ee. rewrite HW in Hn, Hs.
  set (bl := hd_block (W start) <$> seqZ 0 (hd_n (W start))) in *.
  assert (Z.of_nat (length bl) = hd_n (W start)) as Hbn
    by (unfold bl; rewrite length_fmap, length_seqZ; lia).
  assert (trans_ok start size bl) as Htr.
  { split; [lia|lia|]. intros b (i & Hi)%list_elem_of_lookup_1.
    apply (Hh (b, W (start + Z.of_nat i + 1))). rewrite <-Ee.
    by apply (elem_of_lookup_imap_2 (λ i b, (b, W (start + Z.of_nat i + 1)))). }
  assert (size_lt : (base.size (∅ : gset Z) < NB)%nat)
    by (rewrite size_empty; unfold NB, NBUF, MAXOPBLOCKS; lia).
  unfold recover_from_log. apply wp_bind.
  eapply wp_mono; [eapply (read_head_spec me pid k W ∅); try done; fold start; lia|].
  fold start. fold bl. intros ? k1 (Hbi1 & Hlo1 & Hlc1). apply lh_changed_logged in Hlc1.
  destruct (logged_log _ _ _ Hlc1) as [Es1 _]. fold start in Es1.
  apply wp_bind. eapply wp_mono; [eapply (install_trans_spec me pid 1 k1 W bl); try done; by right|].
  rewrite Es1, Ee. intros ? k2 [Hw2 Hbi2].
  assert (log_ok (fs k2) bl) as Hlo2 by (eapply log_ok_frame; [apply Hw2|done]).
  destruct (clear_n k2 _ _ _ bl Hbi2 Hlo2) as (Hl3 & Hbi3 & Hlo3).
  apply wp_bind, wp_set_n. set (k3 := upd_fs _ k2) in *.
  eapply wp_mono; [eapply (write_head_spec me pid k3 _ ∅ []); try done|].
  intros ? k4 [Hw4 Hbi4].
  assert (lg_start (log (fs k3)) = start) as Es3.
  { unfold k3. simpl. by rewrite (co_log _ _ (wr_cache _ _ _ Hw2)). }
  rewrite Es3 in *. set (V := vsets W (entries start d)) in *.
  assert (V start = dget d start) as EV.
  { rewrite HW. unfold V. rewrite <-Ee.
    pose proof (inst_views start size bl W (inst_writes start bl W) 0 Hla Htr) as Hv.
    rewrite Z.add_0_r in Hv. apply Hv; [done|]. destruct Hla. lia. }
  exists (vset V start (hd_set [] (V start))). split_and!; [|done| | |].
  - unfold recover_writes. rewrite <-EV. eapply (logged_trans k k1 k4 []); [done|].
    eapply (logged_trans k1 k2); [by apply wrote_logged|].
    eapply (logged_trans k2 k3 k4 []); [done|by apply wrote_logged].
  - eapply log_ok_frame; [apply Hw4|done].
  - rewrite vset_eq. unfold hd_set. rewrite hd_upto_n; [done| |simpl; lia|simpl; lia].
    apply (bo_size _ _ _ _ _ (bi_cache _ _ _ _ _ _ Hbi3)).
  - intros b Hb. rewrite vset_ne by (intros E; by apply (home_not_start start size b Hla Hb)).
    unfold V, recovered. apply vsets_ext. by rewrite HW.
Qed.

(** *** Transactions of one process *)

(** What lies above the log, and where the log is. *)
Record above_log (f f' : fsys) : Prop := {
  al_start : lg_start (log f') = lg_start (log f);
  al_size : lg_size (log f') = lg_size (log f);
  al_sb : sb f' = sb f;
  al_itable : itable f' = itable f;
  al_ftable : ftable f' = ftable f;
  al_pipes : pipes f' = pipes f;
  al_ilock : ∀ i, sleeplock_of f' (SL_inode i) = sleeplock_of f (SL_inode i);
}.

#[export] Instance above_log_preorder : PreOrder above_log.
Proof.
  split; [by split|]. intros f1 f2 f3 [] []. split; [congruence..|]. intros i. etrans; eauto.
Qed.

Lemma logged_above k k' ws : logged k k' ws → above_log (fs k) (fs k').
Proof. intros [_ [D1 D2 D3 D4 D5 D6] _ _]. split; try done; by rewrite D1. Qed.
Lemma cache_only_above f f' : cache_only f f' → above_log f f'.
Proof. intros [D1 D2 D3 D4 D5 D6]. split; try done; by rewrite D1. Qed.

(** The log with the transaction [bl] open for [o] system calls (0 or 1 in a
    sequential execution); [V] is the contents of the disk as they see it. *)
Record txn (k : kernel) (V : view) (H : holds) (bl : list Z) (o : Z) : Prop := {
  tx_bio : bio k V H (list_to_set bl);
  tx_log : log_ok (fs k) bl;
  tx_nodup : NoDup bl;
  tx_head : hd_n (V (lg_start (log (fs k)))) = 0;
  tx_committing : lg_committing (log (fs k)) = 0;
  tx_outstanding : lg_outstanding (log (fs k)) = o;
}.

(** Between transactions: nothing is logged and nothing is held. *)
Definition idle (k : kernel) (V : view) : Prop := txn k V ∅ [] 0.

Lemma idle_disk k V b : idle k V → dget (disk (fs k)) b = V b.
Proof.
  intros [Hbi _ _ _ _ _]. apply (bo_disk _ _ _ _ _ (bi_cache _ _ _ _ _ _ Hbi)). set_solver.
Qed.

Lemma log_ok_counts f bl g :
  (∀ l, lg_start (g l) = lg_start l ∧ lg_size (g l) = lg_size l ∧ lg_dev (g l) = lg_dev l ∧
    lg_lh (g l) = lg_lh l) → log_ok f bl → log_ok (upd_log g f) bl.
Proof.
  intros Hg []. destruct (Hg (log f)) as (E1 & E2 & E3 & E4). split; simpl; rewrite ?E1, ?E2, ?E3, ?E4; done.
Qed.

(** begin_op() admits one more system call while the log has room for it. *)
Lemma begin_op_admits k V H bl o :
  txn k V H bl o → Z.of_nat (length bl) + (o + 1) * MAXOPBLOCKS ≤ LOGSIZE →
  wp begin_op k (λ _ k', kquiet k k' ∧ txn k' V H bl (o + 1) ∧
    fs k' = upd_log (upd_lg_outstanding (λ o, o + 1)) (fs k)).
Proof.
  intros [Hbi Hlo Hnd Hhd Hco Hout] Hroom. pose proof (bi_run _ _ _ _ _ _ Hbi) as Hrun.
  unfold begin_op. apply wp_bind, (wp_enter _ me); [apply Hrun|].
  apply (wp_loop _ (λ _ k', k' = upd_hs (acq LK_log) k) (λ _ _, 0)); [|done|lia].
  intros [] ? ->. wp_pure. change (fs (upd_hs (acq LK_log) k)) with (fs k).
  rewrite Hco. change (nz 0) with false. cbv iota. wp_pure. change (fs (upd_hs (acq LK_log) k)) with (fs k).
  rewrite Hout, (lo_n _ _ Hlo).
  destruct (Z.ltb_spec LOGSIZE (Z.of_nat (length bl) + (o + 1) * MAXOPBLOCKS)); [lia|]. wp_pure.
  eapply (wp_leave _ me (hs k)); [apply Hrun|done|]. intros h' Hh'. wp_pure.
  assert (kquiet k (upd_hs (λ _, h') (upd_fs (upd_log (upd_lg_outstanding (λ o, o + 1)))
    (upd_hs (acq LK_log) k)))) as Hq by (by split).
  split_and!; [done| |done]. split; try done.
  - eapply bio_ok_frame; [done|done|done..].
  - by apply log_ok_counts.
  - simpl. by rewrite Hout.
Qed.

Lemma begin_op_spec k V :
  idle k V →
  wp begin_op k (λ _ k', kquiet k k' ∧ txn k' V ∅ [] 1 ∧
    fs k' = upd_log (upd_lg_outstanding (λ o, o + 1)) (fs k)).
Proof. intros Hi. by apply (begin_op_admits k V ∅ [] 0). Qed.

(** The last end_op(): the transaction is committed. *)
Lemma end_op_spec k V bl :
  txn k V ∅ bl 1 →
  let start := lg_start (log (fs k)) in
  let size := lg_size (log (fs k)) in
  let ws := if decide (bl = []) then [] else commit_writes start (disk (fs k)) bl V in
  wp end_op k (λ _ k', ∃ V',
    kquiet k k' ∧ above_log (fs k) (fs k') ∧ idle k' V' ∧
    disk (fs k') = apply_writes (disk (fs k)) ws ∧ writes (fs k') = writes (fs k) ++ ws ∧
    ∀ b, home start size b → V' b = V b).
Proof.
  intros [Hbi Hlo Hnd Hhd Hco Hout] start size ws. pose proof (bi_run _ _ _ _ _ _ Hbi) as Hrun.
  unfold end_op. apply wp_bind, (wp_enter _ me); [apply Hrun|]. wp_pure. simpl fs. simpl log.
  simpl lg_committing. simpl lg_outstanding. rewrite Hco. change (nz 0) with false. cbv iota.
  wp_pure. simpl fs. simpl log. simpl lg_outstanding. rewrite Hout. change (1 - 1 =? 0) with true.
  cbv iota. wp_pure.
  eapply (wp_leave _ me (hs k)); [apply Hrun|done|]. intros h1 Hh1. unfold when.
  set (k1 := upd_hs _ _). assert (kquiet k k1) as Hq1 by (by split).
  assert (fs k1 = upd_log (λ l, upd_lg_committing (λ _, 1) (upd_lg_outstanding (λ o, o - 1) l)) (fs k))
    as Ef1 by done.
  assert (bio k1 V ∅ (list_to_set bl)) as Hbi1 by (by eapply bio_ok_frame).
  assert (log_ok (fs k1) bl) as Hlo1 by (rewrite Ef1; by apply log_ok_counts).
  apply wp_bind. eapply wp_mono; [by eapply (commit_spec k1 V bl)|].
  rewrite Ef1. simpl. fold start size ws. intros ? k2 (V' & Hl2 & Hbi2 & Hlo2 & Hhd2 & HV').
  pose proof (bi_run _ _ _ _ _ _ Hbi2) as Hrun2.
  pose proof (co_log _ _ (lg_cache _ _ _ Hl2)) as El2. rewrite Ef1 in El2. simpl in El2.
  wp_pure. apply (wp_enter _ me); [apply Hrun2|]. wp_pure.
  eapply (wp_wakeup_inside _ LK_log me (hs k2)); [apply Hrun2|done|done|apply Hrun2|]. intros h3 Hh3.
  eapply (wp_leave _ me (hs k2)); [apply Hrun2|exact Hh3|]. intros h4 Hh4.
  set (k4 := upd_hs _ _).
  assert (kquiet k2 k4) as Hq4.
  { split; try done. apply woke_wake_all. }
  exists V'. split_and!; [| | | |by apply Hl2|done].
  - etrans; [exact Hq1|]. etrans; [apply Hl2|done].
  - etrans; [|by split; simpl]. etrans; [|eapply logged_above, Hl2]. rewrite Ef1. by split.
  - split; try done.
    + eapply bio_ok_frame; [exact Hbi2|done..].
    + by apply log_ok_counts.
    + constructor.
    + simpl. by rewrite El2.
    + simpl. rewrite El2. simpl. rewrite Hout. done.
  - simpl. rewrite (lg_disk _ _ _ Hl2). by rewrite Ef1.
Qed.

(** *** log_write() *)

Lemma wp_bpin_inside i k (Q : unit → kernel → Prop) :
  hart_ok (hs k) → lock_free LK_bcache (hs k) →
  (∀ h', hs_eq h' (hs k) → Q tt (upd_hs (λ _, h') (upd_fs (upd_bcache (alter add_ref i)) k))) →
  wp (bpin i) k Q.
Proof.
  intros Hok Hf HQ. unfold bpin. apply wp_bind, wp_acquire; [done..|]. wp_pure.
  eapply (wp_release _ (hs k)); [done|done|]. apply HQ. by apply rel_acq.
Qed.

(** The slot of a block in the transaction, or the next free one. *)
Lemma log_slot_spec k bl n :
  log_ok (fs k) bl → NoDup bl → 0 ≤ n < 2 ^ 31 →
  wp (log_slot n) k (λ i k', k' = k ∧ ∃ t, i = Z.of_nat t ∧
    (bl !! t = Some n ∨ t = length bl ∧ n ∉ bl)).
Proof.
  intros Hlo Hnd Hn. unfold log_slot.
  apply (wp_loop _ (λ j k', k' = k ∧ ∃ t, j = Z.of_nat t ∧ (t ≤ length bl)%nat ∧ n ∉ take t bl)
           (λ j _, Z.of_nat (length bl) - j)).
  - intros ? ? (-> & t & -> & Ht & Hni). wp_pure. rewrite (lo_n _ _ Hlo). case_cmp.
    + destruct (lookup_lt_is_Some_2 bl t) as [b Hb]; [lia|].
      apply wp_bind. eapply wp_get_block; [done|by rewrite Nat2Z.id|].
      assert (b ∈ bl) as Hbl by (by eapply list_elem_of_lookup_2).
      destruct (tr_home _ _ _ (lo_tr _ _ Hlo) b Hbl) as [Hbr _].
      rewrite u32_small by lia. case_cmp; wp_pure.
      * split; [done|]. exists t. split; [done|]. left. congruence.
      * split; [|lia]. split; [done|]. exists (S t). split_and!; [lia|lia|].
        rewrite (take_S_r bl t b Hb). set_solver.
    + wp_pure. split; [done|]. exists t. split; [done|]. right. split; [lia|].
      by rewrite take_ge in Hni by lia.
  - split; [done|]. exists O. split_and!; [done|lia|]. simpl. set_solver.
  - destruct (lo_tr _ _ Hlo) as [? ? ?]. unfold LOGSIZE, MAXOPBLOCKS in *. lia.
Qed.

Definition log_add (n : Z) (bl : list Z) : list Z := if decide (n ∈ bl) then bl else bl ++ [n].

(** The log in memory after log_write() has stored [n] in slot [t]. *)
Lemma log_absorb f bl t n :
  log_ok f bl → bl !! t = Some n → upd_log (upd_lg_lh (upd_lh_block <[t := n]>)) f = f.
Proof.
  intros Hlo Hb. pose proof (log_ok_lookup _ _ _ _ Hlo Hb) as Hl.
  destruct f as [? ? ? ? l ? ? ? ?], l as [? ? ? ? ? [hn hb]].
  unfold upd_log, upd_lg_lh, upd_lh_block. simpl in *. by rewrite list_insert_id.
Qed.

Lemma log_append f f' bl n :
  log_ok f bl → home (lg_start (log f)) (lg_size (log f)) n →
  Z.of_nat (length bl) < lg_size (log f) - 1 →
  log f' = upd_lg_lh (λ h, mkLh (lh_n h + 1) (<[length bl := n]> (lh_block h))) (log f) →
  log_ok f' (bl ++ [n]).
Proof.
  intros [L1 L2 L3 L4 L5 [T1 T2 T3]] Hn Hs E. pose proof L2 as [? A2 ?].
  split; rewrite E; simpl; try done.
  - rewrite L3, length_app. simpl. lia.
  - by rewrite length_insert.
  - rewrite length_app, Nat.add_1_r. simpl.
    erewrite take_S_r by (apply list_lookup_insert_eq; unfold LOGSIZE, MAXOPBLOCKS in *; lia).
    by rewrite take_insert_ge, L5.
  - split; rewrite ?length_app; simpl; [unfold LOGSIZE, MAXOPBLOCKS in *; lia|lia|].
    intros b [Hb|Hb%list_elem_of_singleton]%elem_of_app; [by apply T3|by subst].
Qed.

Definition log_written (k : kernel) (V : view) (H : holds) (bl : list Z) (o n : Z) (d : block)
    (k' : kernel) : Prop :=
  kquiet k k' ∧ above_log (fs k) (fs k') ∧ txn k' (vset V n d) H (log_add n bl) o ∧
  disk (fs k') = disk (fs k) ∧ writes (fs k') = writes (fs k).

(** The block is in the transaction already. *)
Lemma log_written_absorb k V H bl o i n d k' :
  txn k V H bl o → H !! i = Some (n, d) → n ∈ bl → n ≠ lg_start (log (fs k)) →
  kquiet k k' → fs k' = fs k → log_written k V H bl o n d k'.
Proof.
  intros [Hbi Hlo Hnd Hhd Hco Hout] HHi Hn Hns Hq Ef. unfold log_written, log_add.
  rewrite decide_True, Ef by done. split_and!; [done|done| |done|done].
  split; rewrite ?Ef; try done.
  - eapply publish_ok; [|done|set_solver]. eapply bio_ok_frame; [exact Hbi|done|by rewrite Ef..].
  - by rewrite vset_ne.
Qed.

(** The block is added to the transaction, and pinned. *)
Lemma log_written_append k V H bl o i n d k' :
  txn k V H bl o → H !! i = Some (n, d) → n ∉ bl → n ≠ lg_start (log (fs k)) →
  home (lg_start (log (fs k))) (lg_size (log (fs k))) n →
  Z.of_nat (length bl) < lg_size (log (fs k)) - 1 → kquiet k k' →
  fs k' = upd_log (upd_lg_lh (λ h, mkLh (lh_n h + 1) (<[length bl := n]> (lh_block h))))
            (upd_bcache (alter add_ref i) (fs k)) →
  log_written k V H bl o n d k'.
Proof.
  intros [Hbi Hlo Hnd Hhd Hco Hout] HHi Hn Hns Hh Hs Hq Ef. unfold log_written, log_add.
  destruct (held_buf _ _ _ _ _ _ _ _ _ Hbi HHi) as
    (b & Hi & Hb & Db & Nb & Eb & Vb & Lb & Rb & El & Ep).
  rewrite bool_decide_false in Rb by set_solver.
  rewrite decide_False by done. split_and!; [done|by rewrite Ef| |by rewrite Ef|by rewrite Ef].
  split; rewrite ?Ef; try done.
  - rewrite list_to_set_app_L. simpl. rewrite union_empty_r_L, union_comm_L.
    eapply (held_change me pid k k' V _ H H _ _ i n d b (add_ref b)); try done.
    + rewrite Ef. simpl. by apply list_alter_is_insert.
    + by rewrite Ef.
    + simpl. by rewrite Eb.
    + simpl. by rewrite Eb.
    + simpl. rewrite Rb, bool_decide_true by set_solver. done.
    + intros m Hm. rewrite vset_ne by done. set_solver.
    + by rewrite vset_eq.
    + intros m Hm. rewrite vset_ne by set_solver. rewrite Ef. simpl.
      apply (bo_disk _ _ _ _ _ (bi_cache _ _ _ _ _ _ Hbi)). set_solver.
  - by eapply (log_append (fs k)).
  - apply NoDup_app. split_and!; [done|set_solver|apply NoDup_singleton].
  - simpl. by rewrite vset_ne.
Qed.

Lemma log_write_put k V H bl o i n d t :
  txn k V H bl o → H !! i = Some (n, d) →
  home (lg_start (log (fs k))) (lg_size (log (fs k))) n →
  Z.of_nat (length bl) < lg_size (log (fs k)) - 1 →
  bl !! t = Some n ∨ t = length bl ∧ n ∉ bl →
  wp (set_block (Z.of_nat t) (s32 n);;
      n' ← get_n;
      when (Z.of_nat t =? n') (bpin i;; n' ← get_n; set_n (n' + 1));;
      release LK_log) (upd_hs (acq LK_log) k) (λ _, log_written k V H bl o n d).
Proof.
  intros Htx HHi Hh Hs Ht. pose proof Htx as [Hbi Hlo Hnd Hhd Hco Hout].
  pose proof (bi_run _ _ _ _ _ _ Hbi) as Hrun. pose proof (lo_n _ _ Hlo) as Hln.
  destruct (lo_tr _ _ Hlo) as [T1 T2 T3]. pose proof (lo_area _ _ Hlo) as [_ A2 _].
  assert (n ≠ lg_start (log (fs k))) as Hns by (intros E; by eapply home_not_start; [apply Hlo|..]).
  destruct Hh as [Hnr Hnh] eqn:E; clear E.
  assert (t < Z.to_nat LOGSIZE)%nat as Htl.
  { destruct Ht as [Ht|[-> _]]; [apply lookup_lt_Some in Ht|]; unfold LOGSIZE, MAXOPBLOCKS in *; lia. }
  destruct (lookup_lt_is_Some_2 (lh_block (lg_lh (log (fs k)))) t) as [v Hv];
    [by rewrite (lo_len _ _ Hlo)|].
  unfold set_block, get_block. wp_pure. change (fs (upd_hs (acq LK_log) k)) with (fs k).
  rewrite Nat2Z.id, Hv. wp_pure. rewrite s32_small by lia. simpl fs. simpl log. simpl lg_lh.
  simpl lh_n. rewrite Hln. destruct Ht as [Ht|[-> Hni]].
  - destruct (Z.eqb_spec (Z.of_nat t) (Z.of_nat (length bl)));
      [apply lookup_lt_Some in Ht; lia|]. wp_pure.
    eapply (wp_leave _ me (hs k)); [apply Hrun|done|]. intros h' Hh'.
    eapply log_written_absorb; [done|done|by eapply list_elem_of_lookup_2|done|by split|].
    simpl. by eapply log_absorb.
  - rewrite Z.eqb_refl. unfold when. apply wp_bind.
    destruct (inside_ok LK_log me (acq LK_log (hs k))) as (H1 & H2 & H3); [apply calm_inside, Hrun|].
    apply wp_bpin_inside; [done|by apply H3|]. intros h1 Hh1. wp_pure.
    eapply (wp_leave _ me (hs k)); [apply Hrun|exact Hh1|]. intros h' Hh'.
    eapply log_written_append; try done.
Qed.

Lemma log_write_spec k V H bl o i n d :
  txn k V H bl o → 1 ≤ o → H !! i = Some (n, d) →
  home (lg_start (log (fs k))) (lg_size (log (fs k))) n →
  Z.of_nat (length bl) < lg_size (log (fs k)) - 1 →
  wp (log_write i) k (λ _, log_written k V H bl o n d).
Proof.
  intros Htx Ho HHi Hh Hs. pose proof Htx as [Hbi Hlo Hnd Hhd Hco Hout].
  pose proof (bi_run _ _ _ _ _ _ Hbi) as Hrun.
  destruct (held_buf _ _ _ _ _ _ _ _ _ Hbi HHi) as (b & Hi & Hb & Db & Nb & _).
  pose proof Hh as [Hnr _]. pose proof (lo_n _ _ Hlo) as Hln. destruct (lo_tr _ _ Hlo) as [T1 T2 T3].
  pose proof (lo_area _ _ Hlo) as [_ A2 _].
  unfold log_write. apply wp_bind, (wp_enter _ me); [apply Hrun|]. wp_pure.
  change (fs (upd_hs (acq LK_log) k)) with (fs k). rewrite Hln.
  destruct (Z.leb_spec LOGSIZE (Z.of_nat (length bl))); [unfold LOGSIZE, MAXOPBLOCKS in *; lia|].
  destruct (Z.leb_spec (lg_size (log (fs k)) - 1) (Z.of_nat (length bl))); [lia|]. simpl orb. cbv iota.
  wp_pure. change (fs (upd_hs (acq LK_log) k)) with (fs k). rewrite Hout.
  destruct (Z.ltb_spec o 1); [lia|]. wp_pure. change (fs (upd_hs (acq LK_log) k)) with (fs k).
  rewrite (buf_of_lookup _ _ _ Hb), Nb.
  eapply wp_mono; [by eapply (log_slot_spec _ bl n)|]. intros ? ? (-> & t & -> & Ht).
  by apply log_write_put.
Qed.
End commit.
