(* ===== verification/LogTheorems.v ===== *)
(** * Correctness of the log and the buffer cache

    Crash safety: at whatever point of a commit or of a recovery the machine
    stops, recovery finds the contents of before or of after the transaction.
    The claims are stated for the code of log.c itself, through the sequence of
    block writes it makes. *)

From stdpp Require Import gmap list strings.
From Stdlib Require Import ZArith Lia.
From S2P Require Import Prelude Mem Params FsData DevData Machine Spinlock Sched Sleeplock Ring Bio.
From S2P Require Import BioSpec Log LogDisk LogSpec LogCommit.
#[local] Open Scope Z_scope.
Ltac wp_prim ::= wp_log.

Section log_theorems.
Context `{OTH : Others} (me : nat) (pid : Z).
Abbreviation bio := (bio_ok me pid).
Abbreviation txn := (txn me pid).
Abbreviation idle := (idle me pid).

(** ** Start-up *)

(** initlog() with its arguments in place. *)
Definition log_set_up (s : superblock) (f : fsys) : fsys :=
  upd_log (λ l, upd_lg_dev (λ _, ROOTDEV) (upd_lg_size (λ _, s32 (sb_nlog s))
    (upd_lg_start (λ _, s32 (sb_logstart s)) l))) f.

Lemma bio_inits k k' V H P :
  bio k V H P → inits k k' → bcache (fs k') = bcache (fs k) → disk (fs k') = disk (fs k) →
  (∀ i, sleeplock_of (fs k') (SL_buf i) = sleeplock_of (fs k) (SL_buf i)) → bio k' V H P.
Proof.
  intros [Hr Hp [Ol Or Ob Ou Oh Op Od Os]] Hi Ec Ed Es.
  split; [by eapply inits_running| |].
  - destruct Hi as (h & _ & ->). done.
  - split; rewrite ?Ec, ?Ed; try done. intros i b Hi' Hb. rewrite Es. by apply Ob.
Qed.

Lemma initlog_spec k W s :
  bio k W ∅ ∅ → length (lh_block (lg_lh (log (fs k)))) = Z.to_nat LOGSIZE →
  lg_committing (log (fs k)) = 0 → lg_outstanding (log (fs k)) = 0 →
  let start := s32 (sb_logstart s) in
  let size := s32 (sb_nlog s) in
  let d := disk (fs k) in
  log_area_ok start size → log_disk_ok start size d →
  wp (initlog ROOTDEV s) k (λ _ k', ∃ V',
    idle k' V' ∧ lg_start (log (fs k')) = start ∧ lg_size (log (fs k')) = size ∧
    writes (fs k') = writes (fs k) ++ recover_writes start d ∧
    disk (fs k') = apply_writes d (recover_writes start d) ∧
    ∀ b, home start size b → V' b = recovered start d b).
Proof.
  intros Hbi Hlen Hc Ho start size d Hla Hld. unfold initlog.
  change (BSIZE <=? LOGHEADER_SIZE) with false. cbv iota. wp_pure. apply wp_initlock. wp_pure.
  set (k1 := upd_fs _ _).
  assert (bio k1 W ∅ ∅) as Hbi1.
  { eapply bio_inits; [exact Hbi| |done..]. eexists. split; [apply (hs_init_set LK_log "log")|done]. }
  eapply wp_mono; [eapply (recover_spec me pid k1 W); try done|]. simpl. fold start size d.
  intros ? k2 (V' & Hl & Hbi2 & Hlo2 & Hhd & HV). pose proof (co_log _ _ (lg_cache _ _ _ Hl)) as El.
  simpl in El.
  assert (lg_start (log (fs k2)) = start) as E1 by (by rewrite El).
  exists V'. split_and!; [|done|by rewrite El|apply Hl|apply Hl|done].
  split; [done|done|apply NoDup_nil_2|by rewrite E1|by rewrite El..].
Qed.

(** ** Blocks within a transaction *)

(** What the calls of one system call leave alone while its transaction is
    open; in particular nothing is written to the disk. *)
Record in_txn (k k' : kernel) : Prop := {
  it_quiet : kquiet k k';
  it_above : above_log (fs k) (fs k');
  it_disk : disk (fs k') = disk (fs k);
  it_writes : writes (fs k') = writes (fs k);
}.

#[export] Instance in_txn_preorder : PreOrder in_txn.
Proof. split; [by split|]. intros k1 k2 k3 [] []. split; [by etrans|by etrans|congruence..]. Qed.

Lemma quiet_io_in_txn k k' : quiet_io k k' → in_txn k k'.
Proof. intros []. split; try done. by apply cache_only_above. Qed.

Lemma txn_quiet_io k k' V H H' bl o :
  txn k V H bl o → quiet_io k k' → bio k' V H' (list_to_set bl) → txn k' V H' bl o.
Proof.
  intros [T1 T2 T3 T4 T5 T6] [_ Hc _ _] Hbi. pose proof (co_log _ _ Hc) as El.
  split; rewrite ?El; try done. by eapply log_ok_frame.
Qed.

Lemma txn_set_data k V H bl o i n d g :
  txn k V H bl o → H !! i = Some (n, d) → length (g d) = Z.to_nat BSIZE →
  txn (upd_fs (upd_bcache (alter (upd_b_data g) i)) k) V (<[i := (n, g d)]> H) bl o.
Proof.
  intros Htx HHi Hl. eapply txn_quiet_io; [exact Htx|by split|].
  eapply set_data_ok; [apply Htx|done|done].
Qed.

(** No more blocks are in use and in the log than there are buffers. *)
Definition room (H : holds) (bl : list Z) (n : Z) : Prop :=
  (size H + length bl < NB)%nat ∨ n ∈ bl.

Lemma txn_bread k V H bl o n :
  txn k V H bl o → (∀ i d, H !! i ≠ Some (n, d)) → room H bl n →
  wp (bread ROOTDEV n) k (λ i k', H !! i = None ∧ in_txn k k' ∧
    txn k' V (<[i := (n, V n)]> H) bl o ∧
    b_blockno (buf_of (fs k') i) = n ∧ b_data (buf_of (fs k') i) = V n).
Proof.
  intros Htx HH Hr. eapply wp_mono.
  - eapply (bread_spec me pid k V H (list_to_set bl)); [apply Htx|done|].
    destruct Hr as [Hr|Hr]; [left|right; set_solver].
    rewrite size_list_to_set by apply Htx. done.
  - intros i k' (H1 & H2 & H3 & H4). split_and!; try done; try apply H4.
    + by apply quiet_io_in_txn.
    + by eapply txn_quiet_io.
Qed.

Lemma txn_brelse k V H bl o i n :
  txn k V H bl o → H !! i = Some (n, V n) →
  wp (brelse i) k (λ _ k', in_txn k k' ∧ txn k' V (delete i H) bl o).
Proof.
  intros Htx HHi. eapply wp_mono; [eapply (brelse_spec me pid k V H); [apply Htx|done]|].
  intros ? k' [H2 H3]. split; [by apply quiet_io_in_txn|by eapply txn_quiet_io].
Qed.

Lemma txn_log_write k V H bl o i n d :
  txn k V H bl o → 1 ≤ o → H !! i = Some (n, d) →
  home (lg_start (log (fs k))) (lg_size (log (fs k))) n →
  Z.of_nat (length bl) < lg_size (log (fs k)) - 1 →
  wp (log_write i) k (λ _ k', in_txn k k' ∧ txn k' (vset V n d) H (log_add n bl) o).
Proof.
  intros Htx Ho HHi Hh Hs. eapply wp_mono; [by eapply (log_write_spec me pid)|].
  intros ? k' (H1 & H2 & H3 & H4 & H5). by split.
Qed.

(** Reading a block into a buffer no one holds takes a free slot of [H]. *)
Lemma holds_fresh (H : holds) i n d : H !! i = None → delete i (<[i := (n, d)]> H) = H.
Proof. apply delete_insert_id. Qed.

(** The idiom of fs.c: read a block, change it, log it, release it. *)
Lemma txn_update k V H bl o n g :
  txn k V H bl o → 1 ≤ o → (∀ i d, H !! i ≠ Some (n, d)) → room H bl n →
  home (lg_start (log (fs k))) (lg_size (log (fs k))) n →
  Z.of_nat (length bl) < lg_size (log (fs k)) - 1 → length (g (V n)) = Z.to_nat BSIZE →
  wp (i ← bread ROOTDEV n; set_buf i (upd_b_data g);; log_write i;; brelse i) k (λ _ k',
    in_txn k k' ∧ txn k' (vset V n (g (V n))) H (log_add n bl) o).
Proof.
  intros Htx Ho HH Hr Hh Hs Hd. apply wp_bind. eapply wp_mono; [by eapply (txn_bread k V H)|].
  intros i k1 (HHi & Hq1 & Htx1 & _ & _). wp_pure.
  apply (txn_set_data _ _ _ _ _ i n (V n) g) in Htx1; [|by rewrite lookup_insert_eq|done].
  set (k2 := upd_fs _ k1) in *. rewrite insert_insert_eq in Htx1.
  assert (in_txn k1 k2) as Hq2 by (by split).
  destruct (it_above _ _ Hq1) as [As Az _ _ _ _ _].
  eapply wp_mono; [eapply (txn_log_write k2); [exact Htx1|done|apply lookup_insert_eq|..]|].
  { change (log (fs k2)) with (log (fs k1)). by rewrite As, Az. }
  { change (log (fs k2)) with (log (fs k1)). by rewrite Az. }
  intros ? k3 [Hq3 Htx3].
  eapply wp_mono; [eapply txn_brelse; [exact Htx3|]|].
  { rewrite vset_eq. apply lookup_insert_eq. }
  intros ? k4 [Hq4 Htx4]. rewrite holds_fresh in Htx4 by done.
  split; [|done]. etrans; [exact Hq1|]. etrans; [exact Hq2|]. by etrans.
Qed.

(** The transaction grows by at most one block. *)
Lemma length_log_add n bl : (length (log_add n bl) ≤ S (length bl))%nat.
Proof. unfold log_add. case_decide; [lia|]. rewrite length_app. simpl. lia. Qed.

(** ** Crashes *)

(** A machine that boots on the disk [d], as far as binit(). *)
Record booted (d : gmap Z block) (k : kernel) : Prop := {
  bd_bio : bio k (dget d) ∅ ∅;
  bd_disk : disk (fs k) = d;
  bd_lh : length (lh_block (lg_lh (log (fs k)))) = Z.to_nat LOGSIZE;
  bd_committing : lg_committing (log (fs k)) = 0;
  bd_outstanding : lg_outstanding (log (fs k)) = 0;
}.

(** Recovery on [d] ends, and the file system then sees [W]. *)
Definition recovers (s : superblock) (d : gmap Z block) (W : view) : Prop :=
  ∀ k, booted d k → wp (initlog ROOTDEV s) k (λ _ k', ∃ V',
    idle k' V' ∧ ∀ b, home (s32 (sb_logstart s)) (s32 (sb_nlog s)) b → V' b = W b).

Lemma recovers_spec s d W :
  let start := s32 (sb_logstart s) in
  let size := s32 (sb_nlog s) in
  log_area_ok start size → log_disk_ok start size d →
  (∀ b, home start size b → recovered start d b = W b) → recovers s d W.
Proof.
  intros start size Hla Hld HW k [B1 B2 B3 B4 B5].
  eapply wp_mono; [eapply (initlog_spec k (dget d) s); rewrite ?B2; done|].
  rewrite B2. intros ? k' (V' & Hi & _ & _ & _ & _ & HV). exists V'. split; [done|].
  intros b Hb. rewrite HV by done. by apply HW.
Qed.

Lemma txn_header k V H bl o :
  txn k V H bl o → let start := lg_start (log (fs k)) in
  dget (disk (fs k)) start = V start ∧ length (V start) = Z.to_nat BSIZE ∧
  log_area_ok start (lg_size (log (fs k))) ∧ trans_ok start (lg_size (log (fs k))) bl ∧
  ∀ c, c ∉ bl → dget (disk (fs k)) c = V c.
Proof.
  intros [Hbi Hlo _ _ _ _] start. destruct (bi_cache _ _ _ _ _ _ Hbi) as [_ _ _ _ _ _ Hd Hs].
  pose proof (lo_area _ _ Hlo) as Hla. pose proof (lo_tr _ _ Hlo) as Htr. fold start in Hla, Htr.
  assert (∀ c, c ∉ bl → dget (disk (fs k)) c = V c) as HV by (intros; apply Hd; set_solver).
  split_and!; [|apply Hs|done|done|done]. apply HV. intros Hin.
  by eapply home_not_start; [exact Hla|apply Htr|].
Qed.

(** What a crash during the writes [ws] of end_op() leaves is recovered. *)
Lemma end_op_crash k V bl s m :
  txn k V ∅ bl 1 → lg_start (log (fs k)) = s32 (sb_logstart s) →
  lg_size (log (fs k)) = s32 (sb_nlog s) → bl ≠ [] →
  recovers s (apply_writes (disk (fs k))
      (take m (commit_writes (lg_start (log (fs k))) (disk (fs k)) bl V)))
    (if decide (m ≤ length bl)%nat then dget (disk (fs k)) else V).
Proof.
  intros Htx Es Ez Hne. destruct (txn_header _ _ _ _ _ Htx) as (Hh & Hl & Hla & Htr & HV).
  rewrite Es, Ez in *. apply recovers_spec; [done| |].
  - apply commit_crash_ok; [done|done|by rewrite Hh|]. rewrite Hh, <-Es. apply Htx.
  - intros b Hb. rewrite (commit_crash (s32 (sb_logstart s)) (s32 (sb_nlog s))); try done.
    + by case_decide.
    + by rewrite Hh.
    + rewrite Hh, <-Es. apply Htx.
    + intros c _. apply HV.
Qed.

Lemma empty_recovers k V s :
  txn k V ∅ [] 1 → lg_start (log (fs k)) = s32 (sb_logstart s) →
  lg_size (log (fs k)) = s32 (sb_nlog s) → recovers s (disk (fs k)) V.
Proof.
  intros Htx Es Ez. destruct (txn_header _ _ _ _ _ Htx) as (Hh & Hl & Hla & Htr & HV).
  rewrite Es, Ez in *.
  assert (hd_n (dget (disk (fs k)) (s32 (sb_logstart s))) = 0) as Hz
    by (rewrite Hh, <-Es; apply Htx).
  apply recovers_spec; [done|by apply log_disk_ok_empty|].
  intros b Hb. unfold recovered. rewrite entries_none by done. simpl. apply HV. set_solver.
Qed.

(** The last end_op() and the states a crash in it can leave. *)
Lemma end_op_all k V bl s :
  txn k V ∅ bl 1 → lg_start (log (fs k)) = s32 (sb_logstart s) →
  lg_size (log (fs k)) = s32 (sb_nlog s) →
  wp end_op k (λ _ k', ∃ ws V',
    writes (fs k') = writes (fs k) ++ ws ∧ disk (fs k') = apply_writes (disk (fs k)) ws ∧
    idle k' V' ∧
    (∀ b, home (lg_start (log (fs k))) (lg_size (log (fs k))) b →
       V' b = V b ∧ dget (disk (fs k')) b = V b) ∧
    recovers s (disk (fs k')) V ∧
    ∀ m, recovers s (apply_writes (disk (fs k)) (take m ws)) (dget (disk (fs k))) ∨
         recovers s (apply_writes (disk (fs k)) (take m ws)) V).
Proof.
  intros Htx Es Ez. eapply wp_mono; [by eapply (end_op_spec me pid)|].
  intros ? k' (V' & Hq & Ha & Hi & Hd & Hw & HV). eexists _, V'.
  split_and!; [exact Hw|exact Hd|done| | |].
  - intros b Hb. split; [by apply HV|]. rewrite <-HV by done. by apply (idle_disk me pid).
  - rewrite Hd. case_decide as Hbl; [subst bl; by apply empty_recovers|].
    rewrite <-(firstn_all (commit_writes _ _ _ _)).
    pose proof (end_op_crash k V bl s (length (commit_writes (lg_start (log (fs k))) (disk (fs k)) bl V))
      Htx Es Ez Hbl) as Hc. rewrite decide_False in Hc; [done|].
    unfold commit_writes, log_writes. rewrite !length_app, length_imap. simpl. lia.
  - intros m. case_decide as Hbl.
    + subst bl. right. rewrite take_nil. by apply empty_recovers.
    + pose proof (end_op_crash k V bl s m Htx Es Ez Hbl) as Hc.
      case_decide; [by left|by right].
Qed.

(** C17. Crash safety of a transaction: the last end_op() of a transaction makes
    a sequence [ws] of block writes; a machine that stops after any number of
    them and reboots finds, after initlog(), the file system as it was before
    the transaction or as the transaction left it, never a mixture.  When
    end_op() returns the transaction is durable and the log is empty. *)
Theorem end_op_atomic k V bl s :
  txn k V ∅ bl 1 → lg_start (log (fs k)) = s32 (sb_logstart s) →
  lg_size (log (fs k)) = s32 (sb_nlog s) →
  wp end_op k (λ _ k', ∃ ws V',
    writes (fs k') = writes (fs k) ++ ws ∧ disk (fs k') = apply_writes (disk (fs k)) ws ∧
    idle k' V' ∧
    (∀ b, home (lg_start (log (fs k))) (lg_size (log (fs k))) b →
       V' b = V b ∧ dget (disk (fs k')) b = V b) ∧
    recovers s (disk (fs k')) V ∧
    ∀ m, recovers s (apply_writes (disk (fs k)) (take m ws)) (dget (disk (fs k))) ∨
         recovers s (apply_writes (disk (fs k)) (take m ws)) V).
Proof. apply end_op_all. Qed.

(** C18. Recovery: initlog() on a disk with a committed transaction installs it
    and empties the log.  The file system then sees the recovered contents, on
    the disk and through the cache, and a crash at any point of the recovery is
    recovered to the same contents by the next one. *)
Theorem recovery_correct d k s :
  let start := s32 (sb_logstart s) in
  let size := s32 (sb_nlog s) in
  booted d k → log_area_ok start size → log_disk_ok start size d →
  wp (initlog ROOTDEV s) k (λ _ k', ∃ ws V',
    writes (fs k') = writes (fs k) ++ ws ∧ disk (fs k') = apply_writes d ws ∧
    idle k' V' ∧ hd_n (dget (disk (fs k')) start) = 0 ∧
    (∀ b, home start size b →
       V' b = recovered start d b ∧ dget (disk (fs k')) b = recovered start d b) ∧
    ∀ m, recovers s (apply_writes d (take m ws)) (recovered start d)).
Proof.
  intros start size [B1 B2 B3 B4 B5] Hla Hld.
  assert (length (dget d start) = Z.to_nat BSIZE) as Hlen
    by apply (bo_size _ _ _ _ _ (bi_cache _ _ _ _ _ _ B1)).
  eapply wp_mono; [eapply (initlog_spec k (dget d) s); rewrite ?B2; done|].
  rewrite B2. fold start size. intros ? k' (V' & Hi & Es & Ez & Hw & Hd & HV).
  eexists _, V'. split_and!; [exact Hw|exact Hd|done| | |].
  - pose proof (tx_head _ _ _ _ _ _ _ Hi) as Hz. rewrite Es in Hz.
    by rewrite (idle_disk me pid k' V' start Hi).
  - intros b Hb. split; [by apply HV|]. rewrite <-HV by done. by apply (idle_disk me pid).
  - intros m. apply recovers_spec; [done|by apply recover_crash_ok|].
    intros b Hb. by apply (recover_crash start size).
Qed.

(** Reading back what was logged: in a transaction, a block that is read,
    changed, passed to log_write() and released reads as changed from then on,
    every other block reads as before, and nothing is written to the disk. *)
Theorem block_update_roundtrip k V bl n d m :
  txn k V ∅ bl 1 → home (lg_start (log (fs k))) (lg_size (log (fs k))) n →
  Z.of_nat (length bl) < lg_size (log (fs k)) - 1 → length d = Z.to_nat BSIZE →
  wp ((i ← bread ROOTDEV n; set_buf i (upd_b_data (λ _, d));; log_write i;; brelse i);;
      j ← bread ROOTDEV m; get_buf j b_data) k (λ r k',
    r = (if decide (n = m) then d else V m) ∧
    disk (fs k') = disk (fs k) ∧ writes (fs k') = writes (fs k) ∧
    ∃ H, txn k' (vset V n d) H (log_add n bl) 1).
Proof.
  intros Htx Hh Hs Hd. pose proof (lo_area _ _ (tx_log _ _ _ _ _ _ _ Htx)) as [_ A2 _].
  assert (Z.of_nat NB = LOGSIZE) as HNB by done.
  apply wp_bind. eapply wp_mono; [eapply (txn_update k V ∅ bl 1 n (λ _, d)); try done|].
  { left. rewrite map_size_empty. lia. }
  intros ? k1 [Hq1 Htx1]. apply wp_bind.
  eapply wp_mono; [eapply (txn_bread k1 _ ∅ _ _ m); [done|done|]|].
  { left. rewrite map_size_empty. pose proof (length_log_add n bl). lia. }
  intros j k2 (_ & Hq2 & Htx2 & _ & Ed). wp_pure. rewrite Ed.
  destruct Hq1 as [_ _ D1 W1], Hq2 as [_ _ D2 W2].
  split_and!; [done|congruence|congruence|by eexists].
Qed.

(** ** The capacity of the log *)

(** Change the blocks [ns], each the way fs.c does it. *)
Fixpoint update_blocks (g : block → block) (ns : list Z) : K unit :=
  match ns with
  | [] => mret tt
  | n :: ns' =>
      (i ← bread ROOTDEV n; set_buf i (upd_b_data g);; log_write i;; brelse i);;
      update_blocks g ns'
  end.

(** What three system calls that run at the same time do with the log: all have
    begun before the first of their blocks is changed. *)
Definition three_calls (g : block → block) (ns : list Z) : K unit :=
  (begin_op;; begin_op;; begin_op);; update_blocks g ns.

(** The log with [bl] in it, and blocks [ns] still to be changed. *)
Definition filling k V bl o ns : Prop :=
  txn k V ∅ bl o ∧ 1 ≤ o ∧ NoDup (bl ++ ns) ∧
  Forall (home (lg_start (log (fs k))) (lg_size (log (fs k)))) ns.

Lemma fill_one g k V bl o n ns :
  (∀ b, length (g b) = Z.to_nat BSIZE) → filling k V bl o (n :: ns) →
  lg_size (log (fs k)) = LOGSIZE → Z.of_nat (length bl) < LOGSIZE - 1 →
  wp (i ← bread ROOTDEV n; set_buf i (upd_b_data g);; log_write i;; brelse i) k (λ _ k',
    in_txn k k' ∧ ∃ V', filling k' V' (bl ++ [n]) o ns).
Proof.
  intros Hg (Htx & Ho & Hnd & [Hn Hns]%Forall_cons) Hz Hl.
  assert (n ∉ bl) as Hni by (apply NoDup_app in Hnd as (_ & Hd & _); intros ?; apply (Hd n); [done|by left]).
  eapply wp_mono; [apply (txn_update k V ∅ bl o n g); try done|].
  - left. rewrite map_size_empty. unfold NB, LOGSIZE, NBUF, MAXOPBLOCKS in *. lia.
  - by rewrite Hz.
  - intros _ k' [Hq Htx']. split; [done|]. eexists. unfold log_add in Htx'. rewrite decide_False in Htx' by done.
    destruct (it_above _ _ Hq) as [As Az _ _ _ _ _]. split_and!; [exact Htx'|done|by rewrite <-app_assoc|by rewrite As, Az].
Qed.

(** What does not fit any more is refused with a panic. *)
Lemma fill_full g k V bl o n ns :
  filling k V bl o (n :: ns) → lg_size (log (fs k)) = LOGSIZE → Z.of_nat (length bl) = LOGSIZE - 1 →
  panics (i ← bread ROOTDEV n; set_buf i (upd_b_data g);; log_write i;; brelse i) k "too big a transaction".
Proof.
  intros (Htx & Ho & Hnd & _) Hz Hl.
  eapply panics_bind; [eapply (txn_bread k V ∅ bl); [done|done|]|].
  { left. rewrite map_size_empty. unfold NB, LOGSIZE, NBUF, MAXOPBLOCKS in *. lia. }
  intros i k1 (_ & Hq & Htx1 & _). pose proof (bi_run _ _ _ _ _ _ (tx_bio _ _ _ _ _ _ _ Htx1)) as Hrun.
  apply (panics_bind _ _ _ (λ _ k2, k2 = upd_fs (upd_bcache (alter (upd_b_data g) i)) k1)); [done|].
  intros _ k2 ->. apply panics_bind_l. unfold log_write.
  set (k2 := upd_fs _ k1). apply (panics_bind _ _ _ (λ _ k3, k3 = upd_hs (acq LK_log) k2)).
  { by apply (wp_enter _ me); [apply Hrun|]. }
  intros _ k3 ->. 
  unfold panics, get_n, get_log, get_fs, gets, mbind, M_bind.
  change (log (fs (upd_hs (acq LK_log) k2))) with (log (fs k1)).
  rewrite (lo_n _ _ (tx_log _ _ _ _ _ _ _ Htx1)), Hl. destruct (it_above _ _ Hq) as [_ Az _ _ _ _ _]. rewrite Az, Hz.
  change ((LOGSIZE <=? _) || _) with true. by eexists.
Qed.

Lemma fill_blocks g k V bl o ns :
  (∀ b, length (g b) = Z.to_nat BSIZE) → filling k V bl o ns → lg_size (log (fs k)) = LOGSIZE →
  (Z.of_nat (length bl + length ns) < LOGSIZE →
   wp (update_blocks g ns) k (λ _ k', lh_n (lg_lh (log (fs k'))) = Z.of_nat (length bl + length ns))) ∧
  (Z.of_nat (length bl) < LOGSIZE → LOGSIZE ≤ Z.of_nat (length bl + length ns) →
   panics (update_blocks g ns) k "too big a transaction").
Proof.
  intros Hg. revert k V bl. induction ns as [|n ns IH]; intros k V bl Hf Hz; simpl.
  - split; [|lia]. intros _. apply wp_ret. destruct Hf as [Htx _].
    rewrite (lo_n _ _ (tx_log _ _ _ _ _ _ _ Htx)). lia.
  - assert (∀ (k' : kernel) V', in_txn k k' → filling k' V' (bl ++ [n]) o ns →
      lg_size (log (fs k')) = LOGSIZE ∧ length (bl ++ [n]) = S (length bl)) as Hnext.
    { intros k' V' Hq _. destruct (it_above _ _ Hq) as [_ Az _ _ _ _ _]. rewrite Az, length_app. simpl. split; [done|lia]. }
    split.
    + intros Hl. apply wp_bind. eapply wp_mono; [apply (fill_one g k V bl o n ns); [done|done|done|lia]|]. intros _ k' (Hq & V' & Hf').
      destruct (Hnext k' V' Hq Hf') as [Hz' El]. destruct (IH k' V' _ Hf' Hz') as [H1 _]. rewrite El in H1.
      replace (length bl + S (length ns))%nat with (S (length bl) + length ns)%nat by lia. apply H1. lia.
    + intros Hb Hl. destruct (decide (Z.of_nat (length bl) = LOGSIZE - 1)) as [E|E].
      * by eapply panics_bind_l, fill_full.
      * eapply panics_bind; [apply (fill_one g k V bl o n ns); [done|done|done|lia]|]. intros _ k' (Hq & V' & Hf').
        destruct (Hnext k' V' Hq Hf') as [Hz' El]. destruct (IH k' V' _ Hf' Hz') as [_ H2]. rewrite El in H2. apply H2; lia.
Qed.

(** C19. The capacity of the log.  With the log of 30 blocks that mkfs makes and
    nothing in it, begin_op() admits three system calls at the same time.  If
    together they change fewer than 30 blocks, all of them go into the log; if
    each changes the MAXOPBLOCKS = 10 blocks that it was promised, 30 in all,
    log_write() panics: one block of the 30 is the header. *)
Theorem log_capacity k V g ns :
  idle k V → lg_size (log (fs k)) = LOGSIZE →
  NoDup ns → Forall (home (lg_start (log (fs k))) (lg_size (log (fs k)))) ns →
  (∀ b, length (g b) = Z.to_nat BSIZE) →
  (Z.of_nat (length ns) < 3 * MAXOPBLOCKS →
   wp (three_calls g ns) k (λ _ k', lh_n (lg_lh (log (fs k'))) = Z.of_nat (length ns))) ∧
  (Z.of_nat (length ns) = 3 * MAXOPBLOCKS → panics (three_calls g ns) k "too big a transaction").
Proof.
  intros Hi Hz Hnd Hh Hg.
  assert (wp (begin_op;; begin_op;; begin_op) k (λ _ k', filling k' V [] 3 ns ∧ lg_size (log (fs k')) = LOGSIZE)) as H3.
  { apply wp_bind. eapply wp_mono; [by apply (begin_op_admits me pid k V ∅ [] 0)|]. intros _ k1 (_ & H1 & E1).
    apply wp_bind. eapply wp_mono; [by apply (begin_op_admits me pid k1 V ∅ [] 1)|]. intros _ k2 (_ & H2 & E2).
    eapply wp_mono; [by apply (begin_op_admits me pid k2 V ∅ [] 2)|]. intros _ k3 (_ & H3 & E3).
    unfold filling. rewrite E3, E2, E1. split; [|done]. split_and!; [done|lia|done|done]. }
  split; intros Hl.
  - apply wp_bind. eapply wp_mono; [exact H3|].
    intros _ k' [Hf Hz']. destruct (fill_blocks g k' V [] 3 ns Hg Hf Hz') as [H1 _]. by apply H1.
  - eapply panics_bind; [exact H3|].
    intros _ k' [Hf Hz']. destruct (fill_blocks g k' V [] 3 ns Hg Hf Hz') as [_ H2]. apply H2; [done|].
    unfold MAXOPBLOCKS, LOGSIZE in *. simpl length. unfold MAXOPBLOCKS. lia.
Qed.
End log_theorems.

(** ** Examples *)

(** A machine at boot with process 0 on its only hart, and a zeroed disk. *)
Definition boot_kernel : kernel :=
  mkKernel ∅ (mkHarts ∅ [mkCpu (Some O) 0 0] (mkCsrs 0 0 0 0 0 0 0 0)) 0 ∅
    (replicate (Z.to_nat NPROC) proc0) 1 None 0 0 (fsys0 ∅) devs0.
(** mkfs's superblock, for the log. *)
Definition boot_sb : superblock := mkSb FSMAGIC 1000 954 200 30 2 32 45.

Lemma boot_running : running 0 boot_kernel.
Proof. split; [|done]. split; [split| | |]; done || (vm_compute; try done; lia). Qed.

Lemma zero_disk_size n : length (dget ∅ n) = Z.to_nat BSIZE.
Proof. unfold dget. rewrite lookup_empty. apply length_replicate. Qed.

(** What main() does before any process runs leads to such a machine. *)
Lemma binit_booted me k d :
  running me k → strip <$> bcache (fs k) = replicate (S NB) buf0 → disk (fs k) = d →
  (∀ n, length (dget d n) = Z.to_nat BSIZE) → log (fs k) = log0 →
  ∃ k', booted me (mypid me k) d k'.
Proof.
  intros Hr Hz Hd Hs Hl. subst d.
  destruct (wp_run _ _ _ (binit_spec (mypid me k) k Hz Hs)) as (u & k' & Hi & Hc & Hd & _ & Hok).
  exists k'.
  pose proof (co_log _ _ Hc) as El. rewrite Hl in El.
  split; [|done|by rewrite El..]. split; [by eapply inits_running| |exact Hok].
  by destruct Hi as (h & _ & ->).
Qed.

Lemma boot_booted : ∃ k, booted 0 0 ∅ k.
Proof.
  apply (binit_booted 0 boot_kernel); [apply boot_running| |done|apply zero_disk_size|done].
  change (bcache (fs boot_kernel)) with (replicate (S NB) buf0). by rewrite fmap_replicate.
Qed.

Lemma boot_log_ok :
  log_area_ok (s32 (sb_logstart boot_sb)) (s32 (sb_nlog boot_sb)) ∧
  log_disk_ok (s32 (sb_logstart boot_sb)) (s32 (sb_nlog boot_sb)) ∅.
Proof.
  assert (log_area_ok (s32 (sb_logstart boot_sb)) (s32 (sb_nlog boot_sb))) as Ha
    by (split; vm_compute; done).
  split; [done|]. apply log_disk_ok_empty; [done|]. by vm_compute.
Qed.

Lemma home_50 : home (s32 (sb_logstart boot_sb)) (s32 (sb_nlog boot_sb)) 50.
Proof.
  change (s32 (sb_logstart boot_sb)) with 2. change (s32 (sb_nlog boot_sb)) with 30.
  unfold home. lia.
Qed.

(** A file system between transactions, and one with an open transaction. *)
Lemma boot_idle `{OTH : Others} : ∃ k V, idle 0 0 k V ∧
  lg_start (log (fs k)) = s32 (sb_logstart boot_sb) ∧ lg_size (log (fs k)) = s32 (sb_nlog boot_sb).
Proof.
  destruct boot_booted as [k Hk], boot_log_ok as [Ha Hd]. destruct Hk as [B1 B2 B3 B4 B5].
  rewrite <-B2 in Hd.
  destruct (wp_run _ _ _ (initlog_spec 0 0 k (dget ∅) boot_sb B1 B3 B4 B5 Ha Hd))
    as (u & k' & V' & Hi & Es & Ez & _). by exists k', V'.
Qed.

Lemma boot_txn `{OTH : Others} : ∃ k V, txn 0 0 k V ∅ [] 1 ∧
  lg_start (log (fs k)) = s32 (sb_logstart boot_sb) ∧ lg_size (log (fs k)) = s32 (sb_nlog boot_sb).
Proof.
  destruct boot_idle as (k & V & Hi & Es & Ez).
  destruct (wp_run _ _ _ (begin_op_spec 0 0 k V Hi)) as (u & k' & _ & Ht & Ef).
  exists k', V. by rewrite Ef.
Qed.

(** Block 50 is in the transaction. *)
Lemma boot_txn_50 `{OTH : Others} : ∃ k V, txn 0 0 k V ∅ [50] 1 ∧
  lg_start (log (fs k)) = s32 (sb_logstart boot_sb) ∧ lg_size (log (fs k)) = s32 (sb_nlog boot_sb).
Proof.
  destruct boot_txn as (k & V & Ht & Es & Ez).
  unshelve epose proof (txn_update 0 0 k V ∅ [] 1 50 (λ _, zero_block) Ht _ _ _ _ _ _) as Hu.
  - done.
  - done.
  - left. rewrite map_size_empty. vm_compute. lia.
  - rewrite Es, Ez. apply home_50.
  - rewrite Ez. by vm_compute.
  - apply length_replicate.
  - destruct (wp_run _ _ _ Hu) as (u & k' & Hq & Ht'). destruct (it_above _ _ Hq) as [As Az _ _ _ _ _]. exists k', (vset V 50 zero_block).
    rewrite As, Az. split_and!; done.
Qed.

(** Nobody else runs. *)
Definition alone : Others := mret tt.

Lemma end_op_atomic_witness : ∃ k V,
  txn 0 0 k V ∅ [50] 1 ∧ wp (end_op (OTH := alone)) k (λ _ k', ∃ V',
    idle 0 0 k' V' ∧ dget (disk (fs k')) 50 = V 50).
Proof.
  destruct (boot_txn_50 (OTH := alone)) as (k & V & Ht & Es & Ez). exists k, V. split; [done|].
  eapply wp_mono; [apply (end_op_atomic (OTH := alone) 0 0 k V [50] boot_sb Ht Es Ez)|].
  intros ? k' (ws & V' & _ & _ & Hi & HV & _). exists V'. split; [done|].
  apply HV. rewrite Es, Ez. apply home_50.
Defined.

Lemma recovery_correct_witness : ∃ k,
  booted 0 0 ∅ k ∧ wp (initlog (OTH := alone) ROOTDEV boot_sb) k (λ _ k', ∃ V', idle 0 0 k' V').
Proof.
  destruct boot_booted as [k Hk], boot_log_ok as [Ha Hd]. exists k. split; [done|].
  eapply wp_mono; [apply (recovery_correct (OTH := alone) 0 0 ∅ k boot_sb Hk Ha Hd)|].
  intros ? k' (ws & V' & _ & _ & Hi & _). by exists V'.
Defined.

Lemma block_update_roundtrip_witness : ∃ k V,
  txn 0 0 k V ∅ [] 1 ∧
  wp ((i ← bread (OTH := alone) ROOTDEV 50; set_buf i (upd_b_data (λ _, zero_block));; log_write i;;
       brelse i);; j ← bread (OTH := alone) ROOTDEV 50; get_buf j b_data) k (λ r _, r = zero_block).
Proof.
  destruct (boot_txn (OTH := alone)) as (k & V & Ht & Es & Ez). exists k, V. split; [done|].
  eapply wp_mono; [apply (block_update_roundtrip (OTH := alone) 0 0 k V [] 50 zero_block 50 Ht)|].
  - rewrite Es, Ez. apply home_50.
  - rewrite Ez. by vm_compute.
  - apply length_replicate.
  - intros r k' (E & _). by rewrite decide_True in E.
Defined.

(** Three calls on the file system as booted, with 30 blocks from block 50 on. *)
Lemma log_capacity_witness :
  ∃ k V, idle 0 0 k V ∧
    panics (three_calls (OTH := alone) (λ _, zero_block) (seqZ 50 30)) k "too big a transaction".
Proof.
  destruct (boot_idle (OTH := alone)) as (k & V & Hi & Es & Ez). exists k, V. split; [exact Hi|].
  apply (log_capacity (OTH := alone) 0 0 k V); [exact Hi|by rewrite Ez|apply NoDup_seqZ| |done|done].
  apply Forall_forall. intros n Hn%elem_of_seqZ. rewrite Es, Ez.
  change (s32 (sb_logstart boot_sb)) with 2. change (s32 (sb_nlog boot_sb)) with 30. unfold home. lia.
Defined.
