(* ===== verification/FsTxn.v ===== *)
(** * File-system operations inside a transaction

    The state of a process between begin_op() and end_op(), with what is left
    of the log as a budget: [op o k V H r] says that the process sees the disk
    contents [V], holds the buffers [H], and may log [r] more blocks; [o] is the
    number of system calls in the transaction, 0 for a reader outside of one. *)

From stdpp Require Import gmap list strings.
From Stdlib Require Import ZArith Lia.
From S2P Require Import Prelude Mem Params FsData Machine Spinlock Sched Sleeplock Ring Bio.
From S2P Require Import BioSpec Log LogDisk LogSpec LogCommit LogTheorems.
#[local] Open Scope Z_scope.
Ltac wp_prim ::= wp_log.

(** What the file system calls of a process leave alone besides memory pages,
    inodes and their locks. *)
Record fsq (k k' : kernel) : Prop := {
  fq_hs : hs_eq (hs k') (hs k);
  fq_procs : Forall2 woke (procs k) (procs k');
  fq_nextpid : nextpid k' = nextpid k;
  fq_initproc : initproc k' = initproc k;
  fq_ticks : ticks k' = ticks k;
  fq_kpt : kernel_pagetable k' = kernel_pagetable k;
  fq_start : lg_start (log (fs k')) = lg_start (log (fs k));
  fq_size : lg_size (log (fs k')) = lg_size (log (fs k));
  fq_sb : sb (fs k') = sb (fs k);
  fq_ftable : ftable (fs k') = ftable (fs k);
  fq_pipes : pipes (fs k') = pipes (fs k);
  fq_disk : disk (fs k') = disk (fs k);
  fq_writes : writes (fs k') = writes (fs k);
}.

#[export] Instance fsq_preorder : PreOrder fsq.
Proof. split; [by split|]. intros k1 k2 k3 [] []. split; [by etrans|by etrans|congruence..]. Qed.

(** Memory pages are as before. *)
Record mem_same (k k' : kernel) : Prop := {
  ms_ram : ram k' = ram k;
  ms_freelist : freelist k' = freelist k;
  ms_krefs : krefs k' = krefs k;
}.

#[export] Instance mem_same_preorder : PreOrder mem_same.
Proof. split; [by split|]. intros k1 k2 k3 [] []. split; congruence. Qed.

(** The inode table and its locks are as before. *)
Record inodes_same (k k' : kernel) : Prop := {
  is_itable : itable (fs k') = itable (fs k);
  is_locks : ∀ i, sleeplock_of (fs k') (SL_inode i) = sleeplock_of (fs k) (SL_inode i);
}.

#[export] Instance inodes_same_preorder : PreOrder inodes_same.
Proof.
  split; [by split|]. intros k1 k2 k3 [] []. split; [congruence|]. intros i. etrans; eauto.
Qed.

(** An operation on blocks only. *)
Definition blkq (k k' : kernel) : Prop := fsq k k' ∧ mem_same k k' ∧ inodes_same k k'.

#[export] Instance blkq_preorder : PreOrder blkq.
Proof.
  split; [intros k; split; [done|by split]|].
  intros k1 k2 k3 (?&?&?) (?&?&?). split; [by etrans|]. split; by etrans.
Qed.

Lemma in_txn_blkq k k' : in_txn k k' → blkq k k'.
Proof. intros [[] [] ? ?]. split; [by split|]. split; by split. Qed.

Lemma blkq_fsq k k' : blkq k k' → fsq k k'.
Proof. by intros []. Qed.

(** A buffer's contents change. *)
Lemma blkq_set_data i g k : blkq k (upd_fs (upd_bcache (alter (upd_b_data g) i)) k).
Proof. split; [by split|]. split; by split. Qed.

Lemma fsq_kquiet_running me k k' : fsq k k' → running me k → running me k'.
Proof.
  intros H [H1 H2]. split; [by rewrite (fq_hs _ _ H)|].
  by rewrite <-(Forall2_length _ _ _ (fq_procs _ _ H)).
Qed.

Lemma set_data_twice i g g' k :
  upd_fs (upd_bcache (alter (upd_b_data g') i)) (upd_fs (upd_bcache (alter (upd_b_data g) i)) k) =
  upd_fs (upd_bcache (alter (upd_b_data (λ d, g' (g d))) i)) k.
Proof. unfold upd_fs, upd_bcache. simpl. by rewrite list_alter_alter_eq. Qed.

(** A change of a buffer that depends on its contents. *)
Lemma wp_set_data_ext {A} i g g' (m : K A) k Q :
  g (b_data (buf_of (fs k) i)) = g' (b_data (buf_of (fs k) i)) →
  wp (set_buf i (upd_b_data g');; m) k Q → wp (set_buf i (upd_b_data g);; m) k Q.
Proof.
  intros E. unfold wp, mbind, M_bind, set_buf, set_fs, modify.
  replace (upd_fs (upd_bcache (alter (upd_b_data g) i)) k)
    with (upd_fs (upd_bcache (alter (upd_b_data g') i)) k); [done|].
  unfold upd_fs, upd_bcache, buf_of in *. f_equal. f_equal.
  destruct (bcache (fs k) !! i) as [b|] eqn:Eb.
  - apply (list_alter_at _ _ _ _ b); [done|]. unfold upd_b_data. simpl in E. by rewrite E.
  - apply list_eq. intros j. rewrite !list_lookup_alter. case_decide; [|done]. subst. by rewrite Eb.
Qed.

Section op.
Context `{OTH : Others} (me : nat) (pid : Z).

Definition op (o : Z) (k : kernel) (V : view) (H : holds) (r : nat) : Prop :=
  ∃ bl, txn me pid k V H bl o ∧ Z.of_nat (length bl + r) < lg_size (log (fs k)).

Lemma op_txn o k V H r :
  op o k V H r → ∃ bl, txn me pid k V H bl o ∧ (length bl + r < NB)%nat ∧
    Z.of_nat (length bl + r) < lg_size (log (fs k)).
Proof.
  intros (bl & Htx & Hs). exists bl. split_and!; [done| |done].
  pose proof (lo_area _ _ (tx_log _ _ _ _ _ _ _ Htx)) as [_ A2 _].
  assert (Z.of_nat NB = LOGSIZE) by done. lia.
Qed.

Lemma op_less o k V H r r' : (r' ≤ r)%nat → op o k V H r → op o k V H r'.
Proof. intros Hr (bl & Htx & Hs). exists bl. split; [done|lia]. Qed.

Lemma op_running o k V H r : op o k V H r → running me k ∧ mypid me k = pid.
Proof. intros (bl & [[] _ _ _ _ _] & _). done. Qed.

Lemma op_block_size o k V H r n : op o k V H r → length (V n) = Z.to_nat BSIZE.
Proof. intros (bl & [[_ _ []] _ _ _ _ _] & _). done. Qed.

Lemma op_ext o k V V' H r : (∀ n, V' n = V n) → op o k V H r → op o k V' H r.
Proof.
  intros E (bl & [T1 T2 T3 T4 T5 T6] & Hs). exists bl. split; [|done]. split; try done.
  - by eapply bio_ok_ext.
  - by rewrite E.
Qed.

(** States that differ in memory, in inodes and their locks. *)
Lemma op_frame o k k' V H r :
  op o k V H r → running me k' → mypid me k' = mypid me k →
  bcache (fs k') = bcache (fs k) → log (fs k') = log (fs k) → disk (fs k') = disk (fs k) →
  (∀ i, sleeplock_of (fs k') (SL_buf i) = sleeplock_of (fs k) (SL_buf i)) → op o k' V H r.
Proof.
  intros (bl & [[Hr Hp [Ol Or Ob Ou Oh Op Od Os]] T2 T3 T4 T5 T6] & Hs) Hrun Hpid Ec El Ed Es.
  exists bl. rewrite El. split; [|done]. split; rewrite ?El; try done.
  - split; [done|congruence|]. split; rewrite ?Ec, ?Ed; try done.
    intros i b Hi Hb. rewrite Es. by apply Ob.
  - by eapply log_ok_frame.
Qed.

Lemma op_bread o k V H r n :
  op o k V H r → (∀ i d, H !! i ≠ Some (n, d)) → (size H ≤ r)%nat →
  wp (bread ROOTDEV n) k (λ i k', H !! i = None ∧ blkq k k' ∧ op o k' V (<[i := (n, V n)]> H) r ∧
    b_data (buf_of (fs k') i) = V n).
Proof.
  intros (bl & Htx & HNB & Hs)%op_txn HH Hr.
  eapply wp_mono; [eapply (txn_bread me pid k V H bl); [done|done|left; lia]|].
  intros i k' (H1 & H2 & H3 & _ & H5). split_and!; [done|by apply in_txn_blkq| |done].
  exists bl. split; [done|]. by rewrite (al_size _ _ (it_above _ _ H2)).
Qed.

Lemma op_brelse o k V H r i n :
  op o k V H r → H !! i = Some (n, V n) →
  wp (brelse i) k (λ _ k', blkq k k' ∧ op o k' V (delete i H) r).
Proof.
  intros (bl & Htx & Hs) HHi. eapply wp_mono; [by eapply txn_brelse|].
  intros ? k' [H2 H3]. split; [by apply in_txn_blkq|]. exists bl. split; [done|].
  by rewrite (al_size _ _ (it_above _ _ H2)).
Qed.

Lemma op_set_data o k V H r i n d g :
  op o k V H r → H !! i = Some (n, d) → length (g d) = Z.to_nat BSIZE →
  op o (upd_fs (upd_bcache (alter (upd_b_data g) i)) k) V (<[i := (n, g d)]> H) r.
Proof. intros (bl & Htx & Hs) HHi Hl. exists bl. split; [by apply txn_set_data|done]. Qed.

(** A block outside of the log. *)
Definition fshome (k : kernel) (n : Z) : Prop :=
  home (lg_start (log (fs k))) (lg_size (log (fs k))) n.

(** Where the file system lies on the disk. *)
Record same_disk (k k' : kernel) : Prop := {
  sd_start : lg_start (log (fs k')) = lg_start (log (fs k));
  sd_size : lg_size (log (fs k')) = lg_size (log (fs k));
  sd_sb : sb (fs k') = sb (fs k);
}.

#[export] Instance same_disk_equivalence : Equivalence same_disk.
Proof.
  split; [by split| |].
  - intros k1 k2 []. by split.
  - intros k1 k2 k3 [] []. split; congruence.
Qed.

Lemma fsq_same k k' : fsq k k' → same_disk k k'.
Proof. intros []. by split. Qed.

Lemma same_fshome k k' n : same_disk k k' → fshome k' n ↔ fshome k n.
Proof. intros H. unfold fshome. by rewrite (sd_start _ _ H), (sd_size _ _ H). Qed.

Lemma fsq_fshome k k' n : fsq k k' → fshome k' n ↔ fshome k n.
Proof. intros H. unfold fshome. by rewrite (fq_start _ _ H), (fq_size _ _ H). Qed.

Lemma op_log_write k V H r i n d :
  op 1 k V H (S r) → H !! i = Some (n, d) → fshome k n →
  wp (log_write i) k (λ _ k', blkq k k' ∧ op 1 k' (vset V n d) H r).
Proof.
  intros (bl & Htx & Hs) HHi Hh. eapply wp_mono; [eapply (txn_log_write me pid); try done; lia|].
  intros ? k' [H2 H3]. split; [by apply in_txn_blkq|]. exists (log_add n bl). split; [done|].
  rewrite (al_size _ _ (it_above _ _ H2)). pose proof (length_log_add n bl). lia.
Qed.

(** Read a block, look at it, release it. *)
Lemma op_peek o k V H r n :
  op o k V H r → (∀ i d, H !! i ≠ Some (n, d)) → (size H ≤ r)%nat →
  wp (bread ROOTDEV n) k (λ i k1, blkq k k1 ∧ b_data (buf_of (fs k1) i) = V n ∧
    op o k1 V (<[i := (n, V n)]> H) r ∧ H !! i = None ∧
    ∀ k2, op o k2 V (<[i := (n, V n)]> H) r → wp (brelse i) k2 (λ _ k3, blkq k2 k3 ∧ op o k3 V H r)).
Proof.
  intros Hop HH Hr. eapply wp_mono; [by eapply op_bread|].
  intros i k1 (H1 & H2 & H3 & H4). split_and!; try done. intros k2 Hop2.
  eapply wp_mono; [eapply op_brelse; [exact Hop2|apply lookup_insert_eq]|].
  intros ? k3 [H5 H6]. by rewrite holds_fresh in H6.
Qed.

(** Log the changed block [i] and release it. *)
Lemma op_log_release k V H r i n d :
  op 1 k V (<[i := (n, d)]> H) (S r) → H !! i = None → fshome k n →
  wp (log_write i;; brelse i) k (λ _ k', blkq k k' ∧ op 1 k' (vset V n d) H r).
Proof.
  intros Hop HHi Hh. apply wp_bind.
  eapply wp_mono; [eapply op_log_write; [exact Hop|apply lookup_insert_eq|done]|].
  intros ? k1 [Hq1 Hop1].
  eapply wp_mono; [eapply op_brelse; [exact Hop1|rewrite vset_eq; apply lookup_insert_eq]|].
  intros ? k2 [Hq2 Hop2]. rewrite holds_fresh in Hop2 by done. split; [by etrans|done].
Qed.

Lemma op_update k V H r n g :
  op 1 k V H (S r) → (∀ i d, H !! i ≠ Some (n, d)) → (size H ≤ S r)%nat → fshome k n →
  length (g (V n)) = Z.to_nat BSIZE →
  wp (i ← bread ROOTDEV n; set_buf i (upd_b_data g);; log_write i;; brelse i) k (λ _ k',
    blkq k k' ∧ op 1 k' (vset V n (g (V n))) H r).
Proof.
  intros Hop HH Hr Hh Hg. apply wp_bind. eapply wp_mono; [by eapply op_bread|].
  intros i k1 (H1 & H2 & H3 & H4). do 2 wp_step.
  apply (op_set_data _ _ _ _ _ i n (V n) g) in H3; [|by rewrite lookup_insert_eq|done].
  rewrite insert_insert_eq in H3.
  eapply wp_mono; [eapply op_log_release; [exact H3|done|]|].
  { apply (fsq_fshome k k1); [by apply blkq_fsq|done]. }
  intros ? k2 [Hq2 Hop2]. split; [|done]. etrans; [exact H2|]. etrans; [apply blkq_set_data|done].
Qed.
End op.
