(* ===== verification/Kalloc.v ===== *)
(** * The physical page allocator (kernel/kalloc.c)

    Free pages are linked through their first eight bytes; [krefs] counts the
    references to every page of RAM, so that copy-on-write mappings can share
    one.  The free list is modelled where it lives, in physical memory. *)

From stdpp Require Import gmap list strings.
From Stdlib Require Import ZArith Lia.
From S2P Require Import Prelude Mem Str Params FsData DevData Machine Spinlock.
#[local] Open Scope Z_scope.

(** ** Definitions *)

Section kalloc_defs.
Context `{LNK : !Linker}.

Definition refindex (pa : Z) : K Z :=
  if (pa <? KERNBASE) || (PHYSTOP <=? pa) || negb (pa mod PGSIZE =? 0)
  then panic "refindex"
  else mret (s32 ((pa - KERNBASE) / PGSIZE)).

(** krefs.count[index], an [int]. *)
Definition get_ref (index : Z) : K Z := gets (λ k, default 0 (krefs k !! index)).
Definition set_ref (index v : Z) : K unit := modify (upd_krefs <[index := s32 v]>).

Definition kfree (pa : Z) : K unit :=
  if negb (pa mod PGSIZE =? 0) || (pa <? kend) || (PHYSTOP <=? pa)
  then panic "kfree" else
  index ← refindex pa;
  acquire LK_krefs;;
  c ← get_ref index;
  if c <? 1 then release LK_krefs;; panic "kfree ref" else
  set_ref index (c - 1);;
  c ← get_ref index;
  if 0 <? c then release LK_krefs else
  release LK_krefs;;
  modify (upd_ram (λ r, memset r pa 1 PGSIZE));;
  acquire LK_kmem;;
  next ← gets freelist;
  store64 pa next;;
  modify (upd_freelist (λ _, pa));;
  release LK_kmem.

Definition freerange (pa_start pa_end : Z) : K unit :=
  loop (λ p,
    if p + PGSIZE <=? pa_end then
      index ← refindex p;
      set_ref index 1;;
      kfree p;;
      continue (p + PGSIZE)
    else break tt) (PGROUNDUP pa_start).

Definition kinit : K unit :=
  initlock LK_kmem "kmem";;
  initlock LK_krefs "krefs";;
  freerange kend PHYSTOP.

Definition krefinc (pa : Z) : K unit :=
  index ← refindex pa;
  acquire LK_krefs;;
  c ← get_ref index;
  if c <? 1 then release LK_krefs;; panic "krefinc" else
  set_ref index (c + 1);;
  release LK_krefs.

Definition krefcount (pa : Z) : K Z :=
  index ← refindex pa;
  acquire LK_krefs;;
  count ← get_ref index;
  release LK_krefs;;
  mret count.

Definition kalloc : K Z :=
  acquire LK_kmem;;
  r ← gets freelist;
  when (nz r) (next ← load64 r; modify (upd_freelist (λ _, next)));;
  release LK_kmem;;
  when (nz r) (
    acquire LK_krefs;;
    index ← refindex r;
    c ← get_ref index;
    if negb (c =? 0) then release LK_krefs;; panic "kalloc ref" else
    index ← refindex r;
    set_ref index 1;;
    release LK_krefs;;
    modify (upd_ram (λ m, memset m r 5 PGSIZE)));;
  mret r.
End kalloc_defs.

(** ** Vocabulary of the specifications *)

(** Only pages that satisfy [P] differ between two memories. *)
Definition only_pages (P : Z → Prop) (r r' : mem) : Prop :=
  ∀ a, ¬ P (page a) → ldb r' a = ldb r a.

Lemma only_pages_refl P r : only_pages P r r.
Proof. by intros a _. Qed.

Lemma only_pages_trans P r1 r2 r3 :
  only_pages P r1 r2 → only_pages P r2 r3 → only_pages P r1 r3.
Proof. intros H1 H2 a Ha. by rewrite H2, H1. Qed.

Lemma only_pages_weaken (P Q : Z → Prop) r r' :
  (∀ p, P p → Q p) → only_pages P r r' → only_pages Q r r'.
Proof. intros HPQ H a Ha. apply H. auto. Qed.

Lemma only_pages_memset r p c n :
  aligned p → 0 ≤ n ≤ PGSIZE → only_pages (λ q, q = p) r (memset r p c n).
Proof.
  intros Hp Hn a Ha. rewrite memset_spec. case_decide; [|done].
  destruct Ha. replace a with (p + (a - p)) by lia. apply page_offset; [done|lia].
Qed.

Lemma only_pages_st64 r p o v :
  aligned p → 0 ≤ o → o + 8 ≤ PGSIZE → only_pages (λ q, q = p) r (st64 r (p + o) v).
Proof.
  intros Hp Ho Ho' a Ha. apply ldb_st64_out.
  destruct (decide (p + o ≤ a < p + o + 8)); [|lia].
  destruct Ha. replace a with (p + (a - p)) by lia. apply page_offset; [done|lia].
Qed.

Lemma only_pages_st64_0 r p v : aligned p → only_pages (λ q, q = p) r (st64 r p v).
Proof.
  intros Hp. pose proof (only_pages_st64 r p 0 v Hp) as H. rewrite Z.add_0_r in H.
  apply H; Zconst; lia.
Qed.

Lemma only_pages_ld64 P r r' p o :
  aligned p → 0 ≤ o → o + 8 ≤ PGSIZE → ¬ P p → only_pages P r r' →
  ld64 r' (p + o) = ld64 r (p + o).
Proof.
  intros Hp Ho Ho' HP H. apply ld64_ext. intros b Hb. apply H.
  replace b with (p + (b - p)) by lia. rewrite page_offset; [done|done|lia].
Qed.

(** A call that may change physical memory and the allocator, and nothing else
    that its caller can see. *)
Record kframe (k k' : kernel) : Prop := {
  kf_hs : hs_eq (hs k') (hs k);
  kf_procs : procs k' = procs k;
  kf_nextpid : nextpid k' = nextpid k;
  kf_initproc : initproc k' = initproc k;
  kf_ticks : ticks k' = ticks k;
  kf_kpt : kernel_pagetable k' = kernel_pagetable k;
  kf_fs : fs k' = fs k;
  kf_dev : dev k' = dev k;
}.

#[export] Instance kframe_preorder : PreOrder kframe.
Proof.
  split.
  - by split.
  - intros k1 k2 k3 [] []. split; [by etrans|congruence..].
Qed.

(** The reference count of a page, and the pages that have one. *)
Definition pidx (pa : Z) : Z := (pa - KERNBASE) / PGSIZE.
Definition cnt (k : kernel) (pa : Z) : Z := default 0 (krefs k !! pidx pa).
Definition ram_page (pa : Z) : Prop := aligned pa ∧ KERNBASE ≤ pa < PHYSTOP.

(** Follow the free list from [p]: it consists of the pages [F]. *)
Fixpoint chain (r : mem) (p : Z) (F : list Z) : Prop :=
  match F with
  | [] => p = 0
  | x :: F' => p = x ∧ chain r (ld64 r x) F'
  end.

Section alloc_inv.
Context `{LNK : !Linker}.

(** A page the allocator manages. *)
Definition valid_page (pa : Z) : Prop := aligned pa ∧ kend ≤ pa < PHYSTOP.
Definition managed (top pa : Z) : Prop := valid_page pa ∧ pa < top.

(** The allocator's invariant; [F] are the free pages, in list order.  During
    kinit() the pages from [top] on have not been handed to the allocator yet;
    afterwards [top] is PHYSTOP. *)
Record alloc_inv (top : Z) (k : kernel) (F : list Z) : Prop := {
  ai_hart : hart_ok (hs k);
  ai_kmem : lock_free LK_kmem (hs k);
  ai_krefs : lock_free LK_krefs (hs k);
  ai_chain : chain (ram k) (freelist k) F;
  ai_nodup : NoDup F;
  ai_valid : Forall (managed top) F;
  ai_free : ∀ pa, managed top pa → cnt k pa = 0 ↔ pa ∈ F;
  ai_cnt : ∀ pa, managed top pa → 0 ≤ cnt k pa < 2 ^ 31;
}.
End alloc_inv.

#[export] Instance ram_page_dec pa : Decision (ram_page pa).
Proof. unfold ram_page. apply _. Defined.
#[export] Instance valid_page_dec `{!Linker} pa : Decision (valid_page pa).
Proof. unfold valid_page. apply _. Defined.

(** ** Lemmas *)

Lemma wp_get_ref i k (Q : Z → kernel → Prop) :
  Q (default 0 (krefs k !! i)) k → wp (get_ref i) k Q.
Proof. done. Qed.

Lemma wp_set_ref i v k (Q : unit → kernel → Prop) :
  Q tt (upd_krefs <[i := s32 v]> k) → wp (set_ref i v) k Q.
Proof. done. Qed.

Ltac wp_refs :=
  lazymatch goal with
  | |- wp (get_ref _) _ _ => apply wp_get_ref
  | |- wp (set_ref _ _) _ _ => apply wp_set_ref
  | _ => wp_mem
  end.
Ltac wp_prim ::= wp_refs.

Lemma pidx_inj p q : ram_page p → ram_page q → pidx p = pidx q → p = q.
Proof.
  intros [Hp ?] [Hq ?]. unfold pidx, aligned in *. Zconst. intros E.
  Z.div_mod_to_equations. lia.
Qed.

Lemma refindex_eq pa k : ram_page pa → refindex pa k = Ok (pidx pa) k.
Proof.
  intros [Ha Hr]. unfold refindex. unfold aligned in Ha. rewrite Ha.
  destruct (Z.ltb_spec pa KERNBASE); [lia|]. destruct (Z.leb_spec PHYSTOP pa); [lia|].
  simpl. unfold mret, M_ret. f_equal. apply s32_small. unfold pidx.
  pose proof (Z.div_pos (pa - KERNBASE) PGSIZE).
  pose proof (Z.div_lt_upper_bound (pa - KERNBASE) PGSIZE (2 ^ 31)). Zconst. lia.
Qed.

Lemma wp_refindex pa k (Q : Z → kernel → Prop) :
  ram_page pa → Q (pidx pa) k → wp (refindex pa) k Q.
Proof. intros. unfold wp. by rewrite refindex_eq. Qed.

Lemma chain_ext r r' p F :
  Forall aligned F → (∀ x a, x ∈ F → page a = x → ldb r' a = ldb r a) →
  chain r p F → chain r' p F.
Proof.
  revert p. induction F as [|x F IH]; intros p Hv Hx; simpl; [done|].
  intros [-> Hc]. split; [done|]. inversion Hv; subst.
  rewrite (ld64_ext r r' x).
  - apply IH; [done| |done]. intros y a Hy. apply Hx. by right.
  - intros b Hb. apply (Hx x); [by left|].
    replace b with (x + (b - x)) by lia. apply page_offset; [done|Zconst; lia].
Qed.

Section alloc_lemmas.
Context `{LNK : !Linker, LOK : !LinkerOk}.

Lemma valid_ram pa : valid_page pa → ram_page pa.
Proof. intros [? ?]. pose proof kend_range. split; [done|lia]. Qed.

Lemma valid_nonzero pa : valid_page pa → pa ≠ 0.
Proof. intros [? ?]. pose proof kend_range. Zconst. lia. Qed.

Lemma managed_ram top pa : managed top pa → ram_page pa.
Proof. intros [? _]. by apply valid_ram. Qed.

Lemma managed_aligned top F : Forall (managed top) F → Forall aligned F.
Proof. intros H. eapply Forall_impl; [exact H|]. by intros p [[? ?] ?]. Qed.

Lemma cnt_set k p q v :
  ram_page p → ram_page q → - 2 ^ 31 ≤ v < 2 ^ 31 →
  default 0 (<[pidx p := s32 v]> (krefs k) !! pidx q) = if decide (p = q) then v else cnt k q.
Proof.
  intros Hp Hq Hv. unfold cnt. case_decide as E.
  - subst. rewrite lookup_insert_eq. simpl. by apply s32_small.
  - rewrite lookup_insert_ne; [done|]. intros ?. apply E. by apply pidx_inj.
Qed.

Lemma chain_range top r p F : Forall (managed top) F → chain r p F → 0 ≤ p < 2 ^ 64.
Proof.
  destruct F as [|x F]; simpl; [intros _ ->; lia|].
  intros [[[? ?] ?] _]%Forall_cons [-> _]. pose proof kend_range. Zconst. lia.
Qed.

(** The invariant speaks of the hart state only up to [hs_eq], of the counts,
    and of memory only through the free pages. *)
Lemma alloc_inv_frame top k k' F :
  alloc_inv top k F → hs_eq (hs k') (hs k) → freelist k' = freelist k → krefs k' = krefs k →
  only_pages (λ p, p ∉ F) (ram k) (ram k') → alloc_inv top k' F.
Proof.
  intros [H1 H2 H3 H4 H5 H6 H7 H8] Hh Hf Hk Hr. split; try done.
  - by rewrite Hh.
  - by rewrite Hh.
  - by rewrite Hh.
  - rewrite Hf. eapply chain_ext; [by eapply managed_aligned| |done].
    intros x a Hx <-. apply Hr. intros E. by apply E.
  - unfold cnt. by rewrite Hk.
  - unfold cnt. by rewrite Hk.
Qed.
End alloc_lemmas.

(** ** The operations *)

Section alloc_ops.
Context `{LNK : !Linker, LOK : !LinkerOk}.

(** krefinc() adds one reference to a page in use. *)
Lemma krefinc_spec top k F pa :
  alloc_inv top k F → managed top pa → 1 ≤ cnt k pa < 2 ^ 31 - 1 →
  wp (krefinc pa) k (λ _ k',
    alloc_inv top k' F ∧ kframe k k' ∧ ram k' = ram k ∧ cnt k' pa = cnt k pa + 1 ∧
    (∀ q, ram_page q → q ≠ pa → cnt k' q = cnt k q)).
Proof.
  intros Hi Hv Hc. pose proof Hi as [Hok Hkm Hkr Hch Hnd Hva Hfr Hct].
  pose proof (managed_ram _ _ Hv) as Hrp.
  unfold krefinc. apply wp_bind, wp_refindex; [done|].
  apply wp_bind, wp_acquire; [done..|]. wp_pure.
  change (default 0 (krefs (upd_hs (acq LK_krefs) k) !! pidx pa)) with (cnt k pa).
  destruct (Z.ltb_spec (cnt k pa) 1); [lia|]. wp_pure.
  eapply wp_release; [exact Hok|done|].
  set (k' := upd_hs _ _).
  assert (∀ q, ram_page q → cnt k' q = if decide (pa = q) then cnt k pa + 1 else cnt k q)
    as Hcnt by (intros; unfold cnt at 1; simpl; apply cnt_set; [done|done|lia]).
  assert (hs_eq (hs k') (hs k)) as Hhs by (apply rel_acq; done).
  split_and!.
  - split; try (by rewrite Hhs); try done.
    + intros q Hq. rewrite Hcnt by (by apply managed_ram with top). case_decide.
      * subst q. rewrite <-Hfr by done. lia.
      * by apply Hfr.
    + intros q Hq. rewrite Hcnt by (by apply managed_ram with top). case_decide; [lia|by apply Hct].
  - by split.
  - done.
  - rewrite Hcnt by done. by case_decide.
  - intros q Hq Hne. rewrite Hcnt by done. by case_decide.
Qed.
(** krefcount() reads the count of a page and changes nothing. *)
Lemma krefcount_spec top k F pa :
  alloc_inv top k F → ram_page pa →
  wp (krefcount pa) k (λ c k',
    c = cnt k pa ∧ alloc_inv top k' F ∧ kframe k k' ∧ ram k' = ram k ∧
    freelist k' = freelist k ∧ krefs k' = krefs k).
Proof.
  intros Hi Hrp. pose proof Hi as [Hok _ Hkr _ _ _ _ _].
  unfold krefcount. apply wp_bind, wp_refindex; [done|].
  apply wp_bind, wp_acquire; [done..|]. wp_pure.
  eapply wp_release; [exact Hok|done|]. wp_pure.
  assert (hs_eq (rel LK_krefs (acq LK_krefs (hs k))) (hs k)) as Hhs by (by apply rel_acq).
  split_and!; try done. by eapply alloc_inv_frame.
Qed.

(** The state after the last reference to [pa] was dropped. *)
Lemma free_last top k k' F pa :
  alloc_inv top k F → managed top pa → cnt k pa = 1 → kframe k k' →
  ram k' = st64 (memset (ram k) pa 1 PGSIZE) pa (freelist k) → freelist k' = pa →
  (∀ q, ram_page q → cnt k' q = if decide (pa = q) then 0 else cnt k q) →
  alloc_inv top k' (pa :: F) ∧ only_pages (λ q, q = pa) (ram k) (ram k').
Proof.
  intros [Hok Hkm Hkr Hch Hnd Hva Hfr Hct] Hv Hc Hkf Er Hfl Hcnt.
  pose proof Hv as [[Hal _] _].
  assert (only_pages (λ q, q = pa) (ram k) (ram k')) as Hop.
  { rewrite Er. eapply only_pages_trans.
    - apply (only_pages_memset _ pa 1 PGSIZE); [done|Zconst; lia].
    - by apply only_pages_st64_0. }
  assert (ld64 (ram k') pa = freelist k) as Hnext.
  { rewrite Er. apply ld64_st64. eapply chain_range; eassumption. }
  clear Er. assert (pa ∉ F) as Hnin by (rewrite <-Hfr by done; lia).
  split; [|done]. split; try (by rewrite (kf_hs _ _ Hkf)).
  - split; [done|]. rewrite Hnext. eapply chain_ext; [by eapply managed_aligned| |exact Hch].
    intros x a Hx <-. apply Hop. intros E. apply Hnin. rewrite <-E. exact Hx.
  - by apply NoDup_cons.
  - by apply Forall_cons.
  - intros q Hq. rewrite Hcnt by (by apply managed_ram with top). rewrite elem_of_cons.
    case_decide; [subst q; split; [by left|done]|]. rewrite Hfr by done. naive_solver.
  - intros q Hq. rewrite Hcnt by (by apply managed_ram with top).
    specialize (Hct q Hq). case_decide; subst; lia.
Qed.

(** The state after a reference that was not the last one was dropped. *)
Lemma free_more top k k' F pa :
  alloc_inv top k F → managed top pa → 1 < cnt k pa → kframe k k' →
  ram k' = ram k → freelist k' = freelist k →
  (∀ q, ram_page q → cnt k' q = if decide (pa = q) then cnt k pa - 1 else cnt k q) →
  alloc_inv top k' F.
Proof.
  intros [Hok Hkm Hkr Hch Hnd Hva Hfr Hct] Hv Hc Hkf Er Hfl Hcnt.
  split; try (by rewrite (kf_hs _ _ Hkf)); try done.
  - by rewrite Er, Hfl.
  - intros q Hq. rewrite Hcnt by (by apply managed_ram with top).
    case_decide; [subst q; rewrite <-Hfr by done; lia|by apply Hfr].
  - intros q Hq. rewrite Hcnt by (by apply managed_ram with top).
    specialize (Hct q Hq). case_decide; subst; lia.
Qed.

(** kfree() of a page with several references drops one of them and leaves
    memory alone; of a page with one reference, it puts the page on the free
    list and overwrites (only) that page. *)
Lemma kfree_spec top k F pa :
  alloc_inv top k F → managed top pa → 1 ≤ cnt k pa →
  wp (kfree pa) k (λ _ k',
    kframe k k' ∧
    (∀ q, ram_page q → cnt k' q = if decide (pa = q) then cnt k pa - 1 else cnt k q) ∧
    if decide (cnt k pa = 1)
    then alloc_inv top k' (pa :: F) ∧ only_pages (λ q, q = pa) (ram k) (ram k')
    else alloc_inv top k' F ∧ ram k' = ram k).
Proof.
  intros Hi Hv Hc. pose proof Hi as [Hok Hkm Hkr _ _ _ _ Hct].
  pose proof (managed_ram _ _ Hv) as Hrp. pose proof Hv as [[Hal Hrg] _].
  specialize (Hct _ Hv).
  unfold kfree. unfold aligned in Hal. rewrite Hal.
  destruct (Z.ltb_spec pa kend); [lia|]. destruct (Z.leb_spec PHYSTOP pa); [lia|].
  cbn [negb orb Z.eqb]. apply wp_bind, wp_refindex; [done|].
  apply wp_bind, wp_acquire; [done..|]. wp_pure.
  change (default 0 (krefs (upd_hs (acq LK_krefs) k) !! pidx pa)) with (cnt k pa).
  destruct (Z.ltb_spec (cnt k pa) 1); [lia|]. wp_pure.
  assert (∀ q, ram_page q →
            default 0 (<[pidx pa:=s32 (cnt k pa - 1)]> (krefs k) !! pidx q) =
            if decide (pa = q) then cnt k pa - 1 else cnt k q)
    as Hcnt by (intros; apply cnt_set; [done|done|lia]).
  simpl. rewrite Hcnt, decide_True by done.
  assert (hs_eq (rel LK_krefs (acq LK_krefs (hs k))) (hs k)) as Hhs by (by apply rel_acq).
  destruct (Z.ltb_spec 0 (cnt k pa - 1)) as [Hgt|Hle].
  - eapply wp_release; [exact Hok|reflexivity|]. rewrite decide_False by lia.
    split_and!; [by split|unfold cnt at 1; exact Hcnt| |reflexivity].
    eapply free_more; [exact Hi|done|lia|by split|reflexivity..|unfold cnt at 1; exact Hcnt].
  - eapply wp_bind, wp_release; [exact Hok|reflexivity|]. wp_pure.
    eapply wp_acquire; [simpl; by rewrite Hhs|simpl; by rewrite Hhs|].
    wp_pure.
    assert (hart_ok (rel LK_krefs (acq LK_krefs (hs k)))) as Hok' by (by rewrite Hhs).
    eapply wp_release; [exact Hok'|reflexivity|]. rewrite decide_True by lia.
    match goal with |- kframe _ ?k' ∧ _ => assert (kframe k k') as Hkf end.
    { split; try reflexivity. simpl. etrans; [apply rel_acq|]; by rewrite ?Hhs. }
    split; [exact Hkf|]. split; [unfold cnt at 1; exact Hcnt|].
    eapply free_last; [exact Hi|done|lia|exact Hkf|reflexivity|reflexivity|].
    intros q Hq. unfold cnt at 1. simpl. rewrite Hcnt by done.
    by replace (cnt k pa - 1) with 0 by lia.
Qed.

(** The state after a free page was taken off the list. *)
Lemma alloc_first top k k' x F :
  alloc_inv top k (x :: F) → kframe k k' →
  ram k' = memset (ram k) x 5 PGSIZE → freelist k' = ld64 (ram k) x →
  (∀ q, ram_page q → cnt k' q = if decide (x = q) then 1 else cnt k q) →
  alloc_inv top k' F ∧ only_pages (λ q, q = x) (ram k) (ram k') ∧
  (∀ a, page a = x → ldb (ram k') a = 5).
Proof.
  intros [Hok Hkm Hkr Hch Hnd Hva Hfr Hct] Hkf Er Hfl Hcnt.
  destruct Hch as [_ Hch]. apply Forall_cons in Hva as [[[Hal Hr] _] Hva].
  apply NoDup_cons in Hnd as [Hnin Hnd].
  assert (only_pages (λ q, q = x) (ram k) (ram k')) as Hop.
  { rewrite Er. apply only_pages_memset; [done|Zconst; lia]. }
  split_and!; [|done|].
  - clear Er. split; try (by rewrite (kf_hs _ _ Hkf)); try done.
    + rewrite Hfl. eapply chain_ext; [by eapply managed_aligned| |exact Hch].
      intros y a Hy <-. apply Hop. intros E. apply Hnin. rewrite <-E. exact Hy.
    + intros q Hq. rewrite Hcnt by (by apply managed_ram with top). case_decide.
      * subst q. split; [lia|done].
      * rewrite Hfr by done. rewrite elem_of_cons. naive_solver.
    + intros q Hq. rewrite Hcnt by (by apply managed_ram with top).
      specialize (Hct q Hq). case_decide; lia.
  - intros a Ha. rewrite Er, memset_spec. rewrite decide_True; [done|].
    pose proof (page_range a). lia.
Qed.

(** kalloc() takes the first free page: it had no references, has one now and is
    filled with 5s; with no free page it returns 0 and changes nothing. *)
Lemma kalloc_spec top k F :
  alloc_inv top k F →
  wp kalloc k (λ p k',
    kframe k k' ∧
    match F with
    | [] => p = 0 ∧ alloc_inv top k' [] ∧ ram k' = ram k ∧ krefs k' = krefs k
    | x :: F' => p = x ∧ managed top p ∧ alloc_inv top k' F' ∧
        (∀ q, ram_page q → cnt k' q = if decide (p = q) then 1 else cnt k q) ∧
        only_pages (λ q, q = p) (ram k) (ram k') ∧
        (∀ a, page a = p → ldb (ram k') a = 5)
    end).
Proof.
  intros Hi. pose proof Hi as [Hok Hkm Hkr Hch _ Hva Hfr _].
  unfold kalloc. apply wp_bind, wp_acquire; [done..|]. wp_pure.
  assert (hs_eq (rel LK_kmem (acq LK_kmem (hs k))) (hs k)) as Hhs by (by apply rel_acq).
  destruct F as [|x F'].
  - simpl in Hch. simpl. rewrite Hch. unfold when. simpl. wp_pure.
    eapply wp_release; [exact Hok|reflexivity|]. wp_pure.
    split; [by split|]. split_and!; try done.
    eapply alloc_inv_frame; try done.
  - destruct Hch as [Hfl Hch]. simpl. rewrite Hfl.
    apply Forall_cons in Hva as [Hvx Hva]. pose proof (managed_ram _ _ Hvx) as Hrx.
    assert (nz x = true) as Hnz.
    { unfold nz. pose proof (valid_nonzero _ (proj1 Hvx)). by destruct (Z.eqb_spec x 0). }
    rewrite Hnz. wp_pure.
    eapply wp_release; [exact Hok|reflexivity|]. wp_pure.
    eapply wp_acquire; [simpl; by rewrite Hhs|simpl; by rewrite Hhs|]. wp_pure.
    apply wp_refindex; [done|]. wp_pure.
    simpl. change (default 0 (krefs k !! pidx x)) with (cnt k x).
    assert (cnt k x = 0) as -> by (apply Hfr; [done|by left]). simpl.
    wp_pure. apply wp_refindex; [done|]. wp_pure.
    assert (hart_ok (rel LK_kmem (acq LK_kmem (hs k)))) as Hok' by (by rewrite Hhs).
    eapply wp_release; [exact Hok'|reflexivity|]. wp_pure.
    match goal with |- kframe _ ?k' ∧ _ => assert (kframe k k') as Hkf;
      [|assert (∀ q, ram_page q → cnt k' q = if decide (x = q) then 1 else cnt k q) as Hcnt] end.
    { split; try reflexivity. simpl. etrans; [apply rel_acq|]; by rewrite ?Hhs. }
    { intros q Hq. unfold cnt at 1. simpl. apply cnt_set; [done|done|lia]. }
    split; [exact Hkf|]. split; [done|]. split; [done|].
    edestruct alloc_first as (?&?&?); [exact Hi|exact Hkf|reflexivity..|exact Hcnt|].
    split_and!; assumption.
Qed.

(** Handing the next page to the allocator: it counts one reference, which
    kfree() is about to release. *)
Lemma managed_next p pa : aligned p → managed (p + PGSIZE) pa → managed p pa ∨ pa = p.
Proof.
  intros Hp [[Ha Hr] Hlt]. destruct (decide (pa = p)); [by right|left].
  split; [done|]. destruct (Z.lt_ge_cases pa p); [done|].
  pose proof (aligned_lt_le p pa Hp Ha). lia.
Qed.

Lemma grow_inv p k F :
  alloc_inv p k F → managed (p + PGSIZE) p →
  alloc_inv (p + PGSIZE) (upd_krefs <[pidx p := s32 1]> k) F ∧
  cnt (upd_krefs <[pidx p := s32 1]> k) p = 1.
Proof.
  intros [Hok Hkm Hkr Hch Hnd Hva Hfr Hct] Hp.
  pose proof (managed_ram _ _ Hp) as Hrp. pose proof Hp as [[Hal _] _].
  assert (∀ q, ram_page q → cnt (upd_krefs <[pidx p := s32 1]> k) q =
                           if decide (p = q) then 1 else cnt k q) as Hcnt.
  { intros q Hq. unfold cnt at 1. simpl. apply cnt_set; [done|done|lia]. }
  split; [|rewrite Hcnt by done; by rewrite decide_True].
  split; try done.
  - eapply Forall_impl; [exact Hva|]. intros q [? ?]. split; [done|Zconst; lia].
  - intros q Hq. rewrite Hcnt by (by eapply managed_ram).
    destruct (managed_next _ _ Hal Hq) as [Hm| ->].
    + rewrite decide_False; [by apply Hfr|]. intros ->. destruct Hm. lia.
    + rewrite decide_True by done. split; [done|]. intros Hin.
      rewrite Forall_forall in Hva. destruct (Hva _ Hin). lia.
  - intros q Hq. rewrite Hcnt by (by eapply managed_ram).
    destruct (managed_next _ _ Hal Hq) as [Hm| ->]; case_decide; [lia|by apply Hct|lia|done].
Qed.

(** The loop of freerange(), from the first page boundary at or above [end]. *)
Definition freed_upto k0 (p : Z) k : Prop :=
  aligned p ∧ kend ≤ p ≤ PHYSTOP ∧ kframe k0 k ∧ only_pages valid_page (ram k0) (ram k) ∧
  ∃ F, alloc_inv p k F ∧ ∀ pa, managed p pa → pa ∈ F.

Lemma freerange_spec k0 k :
  freed_upto k0 (PGROUNDUP kend) k →
  wp (freerange kend PHYSTOP) k (λ _ k', freed_upto k0 PHYSTOP k').
Proof.
  intros Hinit. unfold freerange.
  apply (wp_loop _ (freed_upto k0) (λ p _, PHYSTOP - p)); [|done|].
  2:{ destruct Hinit as (_ & Hr & _). pose proof kend_range. Zconst. lia. }
  clear k Hinit. intros p k (Hal & Hr & Hkf & Hop & F & Hi & Hall).
  assert (aligned PHYSTOP) as Htop by done.
  destruct (Z.leb_spec (p + PGSIZE) PHYSTOP) as [Hle|Hgt].
  2:{ wp_pure. destruct (Z.lt_ge_cases p PHYSTOP) as [Hlt|Hge].
      - pose proof (aligned_lt_le p PHYSTOP Hal Htop). lia.
      - replace PHYSTOP with p by lia. split_and!; try done; try lia. by exists F. }
  assert (managed (p + PGSIZE) p) as Hm by (repeat split; try done; Zconst; lia).
  destruct (grow_inv p k F Hi Hm) as [Hi' Hc].
  wp_pure. apply wp_refindex; [by eapply managed_ram|]. wp_pure.
  eapply wp_mono; [apply kfree_spec; [exact Hi'|exact Hm|lia]|].
  intros _ k' (Hkf' & Hcnt & Hpost). rewrite Hc, decide_True in Hpost by done.
  destruct Hpost as [Hi'' Hop']. wp_pure.
  split; [|Zconst; lia]. split_and!; [by apply aligned_add|Zconst; lia|lia| | |].
  - etrans; [exact Hkf|]. destruct Hkf' as [H1 H2 H3 H4 H5 H6]. by split.
  - eapply only_pages_trans; [exact Hop|]. eapply only_pages_weaken; [|exact Hop'].
    intros q ->. apply Hm.
  - exists (p :: F). split; [done|]. intros q Hq. apply elem_of_cons.
    destruct (managed_next _ _ Hal Hq); [right; by apply Hall|by left].
Qed.

(** kinit(), from a boot state with an empty free list, gives the allocator
    every page between [end] and PHYSTOP, all of them free. *)
Lemma kinit_start k :
  hart_ok (hs k) → freelist k = 0 →
  let k0 := upd_hs (λ h, set_lock LK_krefs (mkLock 0 "krefs" None)
                           (set_lock LK_kmem (mkLock 0 "kmem" None) h)) k in
  freed_upto k0 (PGROUNDUP kend) k0.
Proof.
  intros Hok Hfl k0. pose proof kend_range as Hk.
  rewrite PGROUNDUP_small by (Zconst; lia). set (p := page (kend + PGSIZE - 1)).
  assert (aligned p) as Hal by apply page_aligned.
  assert (kend ≤ p ≤ PHYSTOP) as Hr.
  { assert (aligned PHYSTOP) as Ht by done. pose proof (page_range (kend + PGSIZE - 1)).
    subst p. split; [lia|]. destruct (Z.le_gt_cases (page (kend + PGSIZE - 1)) PHYSTOP) as [|H']; [done|].
    pose proof (aligned_lt_le _ _ Ht Hal H'). lia. }
  assert (∀ q, ¬ managed p q) as Hno.
  { intros q [[Hq ?] Hlt]. pose proof (aligned_lt_le q p Hq Hal Hlt).
    pose proof (page_range (kend + PGSIZE - 1)). subst p. lia. }
  split_and!; [done|apply Hr|apply Hr|reflexivity|apply only_pages_refl|].
  exists []. split; [|by intros q ?%Hno]. split; try (by intros q ?%Hno); try done.
  - destruct Hok. by split.
  - unfold lock_free, lock_of. simpl. by rewrite lookup_insert_ne, lookup_insert_eq.
  - unfold lock_free, lock_of. simpl. by rewrite lookup_insert_eq.
  - constructor.
Qed.

Lemma kinit_spec k :
  hart_ok (hs k) → freelist k = 0 →
  wp kinit k (λ _ k', ∃ F,
    alloc_inv PHYSTOP k' F ∧ (∀ pa, valid_page pa ↔ pa ∈ F) ∧
    hart_ok (hs k') ∧ procs k' = procs k ∧ only_pages valid_page (ram k) (ram k')).
Proof.
  intros Hok Hfl. pose proof (kinit_start k Hok Hfl) as Hst. simpl in Hst.
  unfold kinit. apply wp_bind, wp_on_hs, wp_modify. apply wp_bind, wp_on_hs, wp_modify.
  eapply wp_mono; [apply freerange_spec; exact Hst|].
  intros _ k' (_ & _ & Hkf & Hop & F & Hi & Hall). exists F. split_and!; try done.
  - intros pa. split.
    + intros Hv. apply Hall. split; [done|apply Hv].
    + intros Hin. pose proof (ai_valid _ _ _ Hi) as Hva. rewrite Forall_forall in Hva.
      by apply Hva.
  - apply Hi.
  - apply Hkf.
Qed.
End alloc_ops.

(** * A small concrete machine

    A kernel image that leaves eight pages of RAM to the allocator: pages 0 to 4
    are in use, 5, 6 and 7 are on the free list.  The theorems about kalloc.c
    are applied to it. *)

#[export] Instance demo_linker : Linker := {|
  kend := PHYSTOP - 8 * PGSIZE;
  etext := KERNBASE + 8 * PGSIZE;
  trampoline := KERNBASE + 7 * PGSIZE;
|}.

#[export] Instance demo_linker_ok : LinkerOk.
Proof. by split. Qed.

Definition pg (i : Z) : Z := PHYSTOP - 8 * PGSIZE + i * PGSIZE.

Lemma demo_pages pa :
  valid_page pa ↔ pa ∈ [pg 0; pg 1; pg 2; pg 3; pg 4; pg 5; pg 6; pg 7].
Proof.
  rewrite !elem_of_cons, elem_of_nil. unfold valid_page, pg, kend, demo_linker, aligned. Zconst. split.
  - intros [Ha Hr]. Z.div_mod_to_equations. lia.
  - intros H. repeat destruct H as [->|H]; try done; split; try done; lia.
Qed.

Lemma pg_valid i : 0 ≤ i < 8 → valid_page (pg i).
Proof.
  intros Hi. apply demo_pages. rewrite !elem_of_cons. unfold pg. Zconst. lia.
Qed.

(** Pages 5, 6 and 7 on the free list; the others have one owner each. *)
Definition demo_ram : mem := st64 (st64 (st64 ∅ (pg 5) (pg 6)) (pg 6) (pg 7)) (pg 7) 0.
Definition demo_refs : gmap Z Z := list_to_map ((λ i, (pidx (pg i), 1)) <$> [0; 1; 2; 3; 4]).
Definition demo0 : kernel :=
  mkKernel demo_ram (mkHarts ∅ [cpu0] (mkCsrs 0 0 0 0 0 0 0 0)) (pg 5) demo_refs [] 1 None 0 0
    (fsys0 ∅) devs0.

Lemma demo_cnt pa :
  valid_page pa → cnt demo0 pa = (if decide (pa ∈ [pg 0; pg 1; pg 2; pg 3; pg 4]) then 1 else 0) ∧ (cnt demo0 pa = 0 ↔ pa ∈ [pg 5; pg 6; pg 7]).
Proof.
  rewrite demo_pages, !elem_of_cons, elem_of_nil. intros H.
  repeat destruct H as [->|H]; try done;
    (split; [by vm_compute|]; apply (bool_decide_eq_true_1 _); by vm_compute).
Qed.

Lemma demo0_alloc : alloc_inv PHYSTOP demo0 [pg 5; pg 6; pg 7].
Proof.
  split; try done.
  - split; [vm_compute; lia|by vm_compute|by vm_compute].
  - apply (bool_decide_eq_true_1 _). by vm_compute.
  - repeat constructor; by apply pg_valid.
  - intros pa [Hv _]. by apply demo_cnt.
  - intros pa [Hv _]. destruct (demo_cnt pa Hv) as [-> _]. case_decide; lia.
Qed.


(** ** Theorems *)

Section kalloc_theorems.
Context `{LNK : !Linker, LOK : !LinkerOk}.

Lemma kfree_invalid k pa :
  ¬ valid_page pa → panics (kfree pa) k "kfree".
Proof.
  intros Hv. unfold panics, kfree, valid_page, aligned in *.
  destruct (Z.eqb_spec (pa mod PGSIZE) 0); simpl; [|by eexists].
  destruct (Z.ltb_spec pa kend); simpl; [by eexists|].
  destruct (Z.leb_spec PHYSTOP pa); [by eexists|]. destruct Hv. lia.
Qed.

Lemma kfree_free k F pa :
  alloc_inv PHYSTOP k F → pa ∈ F → panics (kfree pa) k "kfree ref".
Proof.
  intros Hi Hin. pose proof Hi as [Hok Hkm Hkr _ _ Hva Hfr _].
  rewrite Forall_forall in Hva. destruct (Hva _ Hin) as [[Hal Hr] Hlt].
  unfold panics, kfree. unfold aligned in Hal. rewrite Hal.
  destruct (Z.ltb_spec pa kend); [lia|]. destruct (Z.leb_spec PHYSTOP pa); [lia|].
  cbn [negb orb Z.eqb]. unfold mbind, M_bind. rewrite refindex_eq by (by apply valid_ram).
  unfold acquire, on_hs. rewrite acquire_h_eq by done. unfold get_ref, gets. simpl.
  change (default 0 (krefs k !! pidx pa)) with (cnt k pa).
  assert (cnt k pa = 0) as -> by (apply Hfr; [split; [done|lia]|done]). simpl.
  unfold release, on_hs. simpl. rewrite release_h_eq by done. unfold panic. eauto.
Qed.

(** C10. kfree() drops one reference.  If it was the last one the page, and only
    that page, is overwritten and put on the free list; otherwise memory does
    not change.  Freeing a page that is already free, or an address that is
    not a page of the allocator, panics. *)
Theorem kfree_correct k F pa :
  alloc_inv PHYSTOP k F →
  (¬ valid_page pa → panics (kfree pa) k "kfree") ∧
  (pa ∈ F → panics (kfree pa) k "kfree ref") ∧
  (valid_page pa → pa ∉ F →
   wp (kfree pa) k (λ _ k', kframe k k' ∧
     (∀ q, ram_page q → cnt k' q = if decide (pa = q) then cnt k pa - 1 else cnt k q) ∧
     (cnt k pa = 1 → alloc_inv PHYSTOP k' (pa :: F) ∧ only_pages (λ q, q = pa) (ram k) (ram k')) ∧
     (cnt k pa ≠ 1 → alloc_inv PHYSTOP k' F ∧ ram k' = ram k))).
Proof.
  intros Hi. split_and!; [by apply kfree_invalid|by apply kfree_free|].
  intros Hv Hn. assert (managed PHYSTOP pa) as Hm by (split; [done|apply Hv]).
  rewrite <-(ai_free _ _ _ Hi) in Hn by done. pose proof (ai_cnt _ _ _ Hi _ Hm).
  eapply wp_mono; [apply kfree_spec; [done|done|lia]|].
  intros ? k' (H1 & H2 & H3). split_and!; try done; intros HC; by case_decide.
Qed.

(** C11. kalloc() takes a free page (it has no references) and returns it with one
    reference; returning it with kfree() restores the free list and all
    counts.  kalloc() returns 0 only when no page is free, and then changes
    nothing. *)
Theorem kalloc_correct k F :
  alloc_inv PHYSTOP k F →
  wp kalloc k (λ p k1, kframe k k1 ∧
    match F with
    | [] => p = 0 ∧ ram k1 = ram k ∧ krefs k1 = krefs k
    | x :: F' => p = x ∧ cnt k p = 0 ∧ cnt k1 p = 1 ∧ alloc_inv PHYSTOP k1 F' ∧
        only_pages (λ q, q = p) (ram k) (ram k1) ∧
        wp (kfree p) k1 (λ _ k2, alloc_inv PHYSTOP k2 F ∧ kframe k k2 ∧
          only_pages (λ q, q = p) (ram k) (ram k2) ∧ ∀ q, ram_page q → cnt k2 q = cnt k q)
    end).
Proof.
  intros Hi. eapply wp_mono; [by apply kalloc_spec|]. intros p k1 [Hkf H]. split; [done|].
  destruct F as [|x F']; [by destruct H as (? & _ & ? & ?)|].
  destruct H as (<- & Hm & Hi1 & Hc & Hop & _).
  assert (cnt k p = 0) as H0 by (apply (ai_free _ _ _ Hi); [done|by left]).
  assert (cnt k1 p = 1) as H1.
  { rewrite Hc by (by eapply managed_ram). by rewrite decide_True. }
  split_and!; try done. eapply wp_mono; [apply kfree_spec; [done|done|lia]|].
  intros _ k2 (Hkf2 & Hc2 & H2). rewrite decide_True in H2 by done. destruct H2 as [Hi2 Hop2].
  split_and!; [done|by etrans|by eapply only_pages_trans|].
  intros q Hq. rewrite Hc2 by done. case_decide; [subst; lia|]. rewrite Hc by done.
  by rewrite decide_False.
Qed.

(** kinit() hands every page between the end of the kernel and PHYSTOP to the
    allocator: afterwards they are all free, each once on the list. *)
Theorem kinit_correct k :
  hart_ok (hs k) → freelist k = 0 →
  wp kinit k (λ _ k', ∃ F,
    alloc_inv PHYSTOP k' F ∧ NoDup F ∧ (∀ pa, valid_page pa ↔ pa ∈ F) ∧
    (∀ pa, valid_page pa → cnt k' pa = 0) ∧ only_pages valid_page (ram k) (ram k')).
Proof.
  intros Hok Hf. eapply wp_mono; [by apply kinit_spec|].
  intros ? k' (F & Hi & Hall & _ & _ & Hop). exists F. split_and!; try done.
  - apply Hi.
  - intros pa Hv. apply (ai_free _ _ _ Hi); [split; [done|apply Hv]|by apply Hall].
Qed.
End kalloc_theorems.

Lemma kfree_correct_witness :
  (¬ valid_page (pg 3) → panics (kfree (pg 3)) demo0 "kfree") ∧
  (pg 3 ∈ [pg 5; pg 6; pg 7] → panics (kfree (pg 3)) demo0 "kfree ref") ∧
  (valid_page (pg 3) → pg 3 ∉ [pg 5; pg 6; pg 7] →
   wp (kfree (pg 3)) demo0 (λ _ k', kframe demo0 k' ∧
     (∀ q, ram_page q → cnt k' q = if decide (pg 3 = q) then cnt demo0 (pg 3) - 1 else cnt demo0 q) ∧
     (cnt demo0 (pg 3) = 1 → alloc_inv PHYSTOP k' (pg 3 :: [pg 5; pg 6; pg 7]) ∧
        only_pages (λ q, q = pg 3) (ram demo0) (ram k')) ∧
     (cnt demo0 (pg 3) ≠ 1 → alloc_inv PHYSTOP k' [pg 5; pg 6; pg 7] ∧ ram k' = ram demo0))).
Proof. apply (kfree_correct demo0 [pg 5; pg 6; pg 7] (pg 3) demo0_alloc). Defined.

Lemma kalloc_correct_witness :
  wp kalloc demo0 (λ p k1, kframe demo0 k1 ∧
    p = pg 5 ∧ cnt demo0 p = 0 ∧ cnt k1 p = 1 ∧ alloc_inv PHYSTOP k1 [pg 6; pg 7] ∧
        only_pages (λ q, q = p) (ram demo0) (ram k1) ∧
        wp (kfree p) k1 (λ _ k2, alloc_inv PHYSTOP k2 [pg 5; pg 6; pg 7] ∧ kframe demo0 k2 ∧
          only_pages (λ q, q = p) (ram demo0) (ram k2) ∧ ∀ q, ram_page q → cnt k2 q = cnt demo0 q)).
Proof. apply (kalloc_correct demo0 [pg 5; pg 6; pg 7] demo0_alloc). Defined.

(** Boot: one hart, nothing on the free list, no counts. *)
Definition boot : kernel := mkKernel ∅ hart0 0 ∅ [] 1 None 0 0 (fsys0 ∅) devs0.

Lemma kinit_correct_witness :
  wp kinit boot (λ _ k', ∃ F,
    alloc_inv PHYSTOP k' F ∧ NoDup F ∧ (∀ pa, valid_page pa ↔ pa ∈ F) ∧
    (∀ pa, valid_page pa → cnt k' pa = 0) ∧ only_pages valid_page (ram boot) (ram k')).
Proof. apply (kinit_correct boot); [exact hart0_ok|done]. Defined.
