(* ===== verification/Vm.v ===== *)
(** * Virtual memory: kernel/vm.c

    One definition per function of vm.c, in its order of dependency, over the
    kernel state of [Machine].  A page table is what it is in the C: the
    physical address of a page of 512 eight-byte entries in RAM.  proc.c's
    proc_mapstacks(), which kvmmake() calls, is here as well.

    The loops run in [loop]; freewalk(), whose recursion follows the contents
    of memory, has fuel for 64 nested calls (a table has 3 levels). *)

From stdpp Require Import gmap list strings.
From Stdlib Require Import ZArith Lia.
From S2P Require Import Prelude Mem Str Params FsData Machine Spinlock Sched Kalloc.
#[local] Open Scope Z_scope.

(** The address of [pagetable[i]]. *)
Definition entry (pagetable i : Z) : Z := pagetable + 8 * i.

Section vm_defs.
Context `{LNK : !Linker}.

Definition do_memset (dst c n : Z) : K unit := modify (upd_ram (λ r, memset r dst c n)).
Definition do_memmove (dst src n : Z) : K unit := modify (upd_ram (λ r, memmove r dst src n)).

(** The for loop of walk(), from [level] down to 1, and its final return. *)
Fixpoint walk_from (level : nat) (pagetable va : Z) (alloc : bool) : K Z :=
  match level with
  | O => mret (entry pagetable (PX 0 va))
  | S level' =>
      let pte := entry pagetable (PX (Z.of_nat level) va) in
      e ← load64 pte;
      if nz (Z.land e PTE_V) then walk_from level' (PTE2PA e) va alloc
      else if negb alloc then mret 0 else
      p ← kalloc;
      if p =? 0 then mret 0 else
      do_memset p 0 PGSIZE;;
      store64 pte (Z.lor (PA2PTE p) PTE_V);;
      walk_from level' p va alloc
  end.

Definition walk (pagetable va : Z) (alloc : bool) : K Z :=
  if MAXVA <=? va then panic "walk" else walk_from 2 pagetable va alloc.

Definition walkaddr (pagetable va : Z) : K Z :=
  if MAXVA <=? va then mret 0 else
  pte ← walk pagetable va false;
  if pte =? 0 then mret 0 else
  e ← load64 pte;
  if Z.land e PTE_V =? 0 then mret 0 else
  if Z.land e PTE_U =? 0 then mret 0 else
  mret (PTE2PA e).

Definition mappages (pagetable va size pa perm : Z) : K Z :=
  if size =? 0 then panic "mappages: size" else
  let last := PGROUNDDOWN (u64 (va + size - 1)) in
  loop (λ '(a, pa),
    pte ← walk pagetable a true;
    if pte =? 0 then break (-1) else
    e ← load64 pte;
    if nz (Z.land e PTE_V) then panic "mappages: remap" else
    store64 pte (Z.lor (Z.lor (PA2PTE pa) perm) PTE_V);;
    if a =? last then break 0
    else continue (u64 (a + PGSIZE), u64 (pa + PGSIZE)))
    (PGROUNDDOWN va, pa).

Definition kvmmap (kpgtbl va pa sz perm : Z) : K unit :=
  r ← mappages kpgtbl va sz pa perm;
  if negb (r =? 0) then panic "kvmmap" else mret tt.

(** proc.c: a kernel stack, with a guard page below it, for each process slot. *)
Definition proc_mapstacks (kpgtbl : Z) : K unit :=
  loop (λ p,
    if p <? NPROC then
      pa ← kalloc;
      if pa =? 0 then panic "kalloc" else
      let va := KSTACK p in
      kvmmap kpgtbl va pa PGSIZE (Z.lor PTE_R PTE_W);;
      continue (p + 1)
    else break tt) 0.

Definition kvmmake : K Z :=
  kpgtbl ← kalloc;
  do_memset kpgtbl 0 PGSIZE;;
  kvmmap kpgtbl UART0 UART0 PGSIZE (Z.lor PTE_R PTE_W);;
  kvmmap kpgtbl VIRTIO0 VIRTIO0 PGSIZE (Z.lor PTE_R PTE_W);;
  kvmmap kpgtbl PLIC PLIC 0x400000 (Z.lor PTE_R PTE_W);;
  kvmmap kpgtbl KERNBASE KERNBASE (etext - KERNBASE) (Z.lor PTE_R PTE_X);;
  kvmmap kpgtbl etext etext (PHYSTOP - etext) (Z.lor PTE_R PTE_W);;
  kvmmap kpgtbl TRAMPOLINE trampoline PGSIZE (Z.lor PTE_R PTE_X);;
  proc_mapstacks kpgtbl;;
  mret kpgtbl.

Definition kvminit : K unit :=
  kpgtbl ← kvmmake;
  modify (upd_kernel_pagetable (λ _, kpgtbl)).

(** [sfence_vma()] flushes the TLB, which the model does not have. *)
Definition kvminithart : K unit :=
  kpgtbl ← gets kernel_pagetable;
  modify (upd_hs (upd_csr (upd_satp (λ _, MAKE_SATP kpgtbl)))).

Definition uvmunmap (pagetable va npages : Z) (do_free : bool) : K unit :=
  if negb (va mod PGSIZE =? 0) then panic "uvmunmap: not aligned" else
  loop (λ a,
    if a <? u64 (va + u64 (npages * PGSIZE)) then
      pte ← walk pagetable a false;
      if pte =? 0 then panic "uvmunmap: walk" else
      e ← load64 pte;
      if Z.land e PTE_V =? 0 then panic "uvmunmap: not mapped" else
      if PTE_FLAGS e =? PTE_V then panic "uvmunmap: not a leaf" else
      when do_free (e' ← load64 pte; kfree (PTE2PA e'));;
      store64 pte 0;;
      continue (u64 (a + PGSIZE))
    else break tt) va.

Definition uvmcreate : K Z :=
  pagetable ← kalloc;
  if pagetable =? 0 then mret 0 else
  do_memset pagetable 0 PGSIZE;;
  mret pagetable.

Definition PTE_WRXU : Z := Z.lor (Z.lor (Z.lor PTE_W PTE_R) PTE_X) PTE_U.

Definition uvminit (pagetable src sz : Z) : K unit :=
  if PGSIZE <=? sz then panic "inituvm: more than a page" else
  p ← kalloc;
  do_memset p 0 PGSIZE;;
  _ ← mappages pagetable 0 PGSIZE p PTE_WRXU;
  do_memmove p src sz.

Definition uvmdealloc (pagetable oldsz newsz : Z) : K Z :=
  if oldsz <=? newsz then mret oldsz else
  when (PGROUNDUP newsz <? PGROUNDUP oldsz) (
    let npages := s32 ((PGROUNDUP oldsz - PGROUNDUP newsz) / PGSIZE) in
    uvmunmap pagetable (PGROUNDUP newsz) (u64 npages) true);;
  mret newsz.

Definition uvmalloc (pagetable oldsz newsz : Z) : K Z :=
  if newsz <? oldsz then mret oldsz else
  let oldsz := PGROUNDUP oldsz in
  loop (λ a,
    if a <? newsz then
      p ← kalloc;
      if p =? 0 then uvmdealloc pagetable a oldsz;; break 0 else
      do_memset p 0 PGSIZE;;
      r ← mappages pagetable a PGSIZE p PTE_WRXU;
      if negb (r =? 0) then kfree p;; uvmdealloc pagetable a oldsz;; break 0
      else continue (u64 (a + PGSIZE))
    else break newsz) oldsz.

(** freewalk() with fuel for [n] nested calls. *)
Fixpoint freewalk_fuel (n : nat) (pagetable : Z) : K unit :=
  match n with
  | O => diverge
  | S n' =>
      loop (λ i,
        if i <? 512 then
          pte ← load64 (entry pagetable i);
          if nz (Z.land pte PTE_V) && (Z.land pte (Z.lor (Z.lor PTE_R PTE_W) PTE_X) =? 0) then
            freewalk_fuel n' (PTE2PA pte);;
            store64 (entry pagetable i) 0;;
            continue (i + 1)
          else if nz (Z.land pte PTE_V) then panic "freewalk: leaf"
          else continue (i + 1)
        else break tt) 0;;
      kfree pagetable
  end.
Definition freewalk : Z → K unit := freewalk_fuel 64.

Definition uvmfree (pagetable sz : Z) : K unit :=
  when (0 <? sz) (uvmunmap pagetable 0 (PGROUNDUP sz / PGSIZE) true);;
  freewalk pagetable.

(** The loop of uvmcopy() ends with [None], or at [goto err] with [Some i]. *)
Definition uvmcopy (old new sz : Z) : K Z :=
  r ← loop (λ i,
    if i <? sz then
      pte ← walk old i false;
      if pte =? 0 then panic "uvmcopy: pte should exist" else
      e ← load64 pte;
      if Z.land e PTE_V =? 0 then panic "uvmcopy: page not present" else
      e ← load64 pte;
      let pa := PTE2PA e in
      e ← load64 pte;
      let flags := PTE_FLAGS e in
      flags ← (if Z.land flags (Z.lor PTE_W PTE_U) =? Z.lor PTE_W PTE_U then
                 let flags := Z.lor (Z.land flags (Z.lnot PTE_W)) PTE_COW in
                 store64 pte (Z.lor (PA2PTE pa) flags);;
                 mret flags
               else mret flags);
      r ← mappages new i PGSIZE pa flags;
      if negb (r =? 0) then break (Some i) else
      krefinc pa;;
      continue (u64 (i + PGSIZE))
    else break None) 0;
  match r with
  | None => mret 0
  | Some i => uvmunmap new 0 (i / PGSIZE) true;; mret (-1)
  end.

Definition PTE_VUCOW : Z := Z.lor (Z.lor PTE_V PTE_U) PTE_COW.

Definition cowalloc (pagetable va : Z) : K Z :=
  if MAXVA <=? va then mret (-1) else
  let va := PGROUNDDOWN va in
  pte ← walk pagetable va false;
  if pte =? 0 then mret (-1) else
  e ← load64 pte;
  if negb (Z.land e PTE_VUCOW =? PTE_VUCOW) then mret (-1) else
  e ← load64 pte;
  let pa := PTE2PA e in
  let flags := Z.land (Z.lor (PTE_FLAGS e) PTE_W) (Z.lnot PTE_COW) in
  c ← krefcount pa;
  if c =? 1 then store64 pte (Z.lor (PA2PTE pa) flags);; mret 0 else
  p ← kalloc;
  if p =? 0 then mret (-1) else
  do_memmove p pa PGSIZE;;
  store64 pte (Z.lor (PA2PTE p) flags);;
  kfree pa;;
  mret 0.

Definition uvmclear (pagetable va : Z) : K unit :=
  pte ← walk pagetable va false;
  if pte =? 0 then panic "uvmclear" else
  e ← load64 pte;
  store64 pte (Z.land e (Z.lnot PTE_U)).

Definition copyout (pagetable dstva src len : Z) : K Z :=
  loop (λ '(dstva, src, len),
    if 0 <? len then
      let va0 := PGROUNDDOWN dstva in
      if MAXVA <=? va0 then break (-1) else
      pte ← walk pagetable va0 false;
      cow ← (if pte =? 0 then mret 0 else
             e ← load64 pte;
             if Z.land e PTE_COW =? 0 then mret 0 else cowalloc pagetable va0);
      if cow <? 0 then break (-1) else
      pa0 ← walkaddr pagetable va0;
      if pa0 =? 0 then break (-1) else
      let n := PGSIZE - (dstva - va0) in
      let n := if len <? n then len else n in
      do_memmove (pa0 + (dstva - va0)) src n;;
      continue (u64 (va0 + PGSIZE), u64 (src + n), len - n)
    else break 0) (dstva, src, len).

Definition copyin (pagetable dst srcva len : Z) : K Z :=
  loop (λ '(srcva, dst, len),
    if 0 <? len then
      let va0 := PGROUNDDOWN srcva in
      pa0 ← walkaddr pagetable va0;
      if pa0 =? 0 then break (-1) else
      let n := PGSIZE - (srcva - va0) in
      let n := if len <? n then len else n in
      do_memmove dst (pa0 + (srcva - va0)) n;;
      continue (u64 (va0 + PGSIZE), u64 (dst + n), len - n)
    else break 0) (srcva, dst, len).

(** The inner loop of copyinstr(): [inl] the bytes of this page are used up,
    [inr] the terminating zero was copied. *)
Definition copyinstr_page (p dst n max : Z) : K (Z * Z + unit) :=
  loop (λ '(p, dst, n, max),
    if 0 <? n then
      c ← gets (λ k, ldb (ram k) p);
      if c =? 0 then
        modify (upd_ram (λ r, stb r dst 0));;
        break (inr tt)
      else
        modify (upd_ram (λ r, stb r dst c));;
        continue (p + 1, dst + 1, n - 1, max - 1)
    else break (inl (dst, max))) (p, dst, n, max).

Definition copyinstr (pagetable dst srcva max : Z) : K Z :=
  loop (λ '(srcva, dst, max),
    if 0 <? max then
      let va0 := PGROUNDDOWN srcva in
      pa0 ← walkaddr pagetable va0;
      if pa0 =? 0 then break (-1) else
      let n := PGSIZE - (srcva - va0) in
      let n := if max <? n then max else n in
      r ← copyinstr_page (pa0 + (srcva - va0)) dst n max;
      match r with
      | inr _ => break 0
      | inl (dst, max) => continue (u64 (va0 + PGSIZE), dst, max)
      end
    else break (-1)) (srcva, dst, max).
End vm_defs.

(** * Moving bytes between kernel objects, RAM pages and user memory (kernel/proc.c)

    The kernel's own objects (a buffer's data, a directory entry on the stack)
    are records and byte lists in the model, while copyout(), copyin() and
    memmove() work on addresses.  Where the code takes the address of such an
    object, the object is laid out at the address the linker or the compiler
    gave it before the call, and read back from there after it. *)

(** Where the kernel objects are: [bdata] is the data of the buffer in use,
    [kloc] the local object whose address is passed. *)
Class Kobj := {
  bdata : Z;
  kloc : Z;
}.

(** They are in the kernel's own part of RAM, apart from each other. *)
Class KobjOk `{Linker, Kobj} := {
  bdata_range : KERNBASE ≤ bdata ∧ bdata + BSIZE ≤ kend;
  kloc_range : KERNBASE ≤ kloc ∧ kloc + BSIZE ≤ kend;
  kobj_apart : bdata + BSIZE ≤ kloc ∨ kloc + BSIZE ≤ bdata;
}.

Section uio_defs.
Context `{LNK : !Linker, KOB : !Kobj}.

(** Lay the object [bs] out at [a]; read [n] bytes back. *)
Definition put_bytes (a : Z) (bs : list Z) : K unit := modify (upd_ram (λ r, st_bytes r a bs)).
Definition get_bytes (a : Z) (n : nat) : K (list Z) := gets (λ k, ld_bytes n (ram k) a).

Definition either_copyout (user_dst dst src len : Z) : K Z :=
  p ← myproc;
  if nz user_dst then
    match p with
    | None => null_deref
    | Some p => pt ← get_proc p p_pagetable; copyout pt dst src len
    end
  else do_memmove dst src len;; mret 0.

Definition either_copyin (dst user_src src len : Z) : K Z :=
  p ← myproc;
  if nz user_src then
    match p with
    | None => null_deref
    | Some p => pt ← get_proc p p_pagetable; copyin pt dst src len
    end
  else do_memmove dst src len;; mret 0.

(** either_copyout() from, and either_copyin() into, a kernel object. *)
Definition object_out (user_dst dst : Z) (bs : list Z) : K Z :=
  put_bytes bdata bs;;
  either_copyout user_dst dst bdata (Z.of_nat (length bs)).
Definition object_in (user_src src len : Z) : K (Z * list Z) :=
  r ← either_copyin bdata user_src src len;
  bs ← get_bytes bdata (Z.to_nat len);
  mret (r, bs).
End uio_defs.
