(* ===== verification/Uart.v ===== *)
(** * Device registers and the UART (kernel/uart.c)

    A device is what it answers: the value of a register is a function of the
    history of all accesses to device registers, which is an argument of the
    model; the drivers are proved correct for every such device.

    A process that finds the transmit buffer full sleeps; what it relies on then
    is the class [UartOthers]. *)

From stdpp Require Import gmap list strings.
From Stdlib Require Import ZArith Lia.
From S2P Require Import Prelude Mem RingBuf Params FsData DevData Machine Spinlock Sched.
#[local] Open Scope Z_scope.

(** The devices: what reading a register returns, after the accesses so far. *)
Class Mmio := mmio_value : list (Z * option Z) → Z → Z.

Definition get_dev {A} (g : devs → A) : K A := gets (λ k, g (dev k)).
Definition set_dev (g : devs → devs) : K unit := modify (upd_dev g).

Section mmio.
Context `{MIO : Mmio}.

Definition reg_read (a : Z) : K Z :=
  h ← get_dev d_mmio;
  set_dev (upd_d_mmio (cons (a, None)));;
  mret (mmio_value h a).
Definition reg_write (a v : Z) : K unit := set_dev (upd_d_mmio (cons (a, Some v))).
End mmio.

(** ** Registers of the 16550a *)

Inductive uart_reg : Type :=
| RHR | THR | IER | FCR | ISR | LCR | LSR.
Definition uart_offset (r : uart_reg) : Z :=
  match r with
  | RHR => 0
  | THR => 0
  | IER => 1
  | FCR => 2
  | ISR => 2
  | LCR => 3
  | LSR => 5
  end.
Coercion uart_offset : uart_reg >-> Z.
#[global] Arguments uart_offset : simpl never.
(** Bits of the registers. *)
Inductive uart_bits : Type :=
| IER_RX_ENABLE | IER_TX_ENABLE | FCR_FIFO_ENABLE | FCR_FIFO_CLEAR
| LCR_EIGHT_BITS | LCR_BAUD_LATCH | LSR_RX_READY | LSR_TX_IDLE.
Definition uart_mask (b : uart_bits) : Z :=
  match b with
  | IER_RX_ENABLE => 1
  | IER_TX_ENABLE => 2
  | FCR_FIFO_ENABLE => 1
  | FCR_FIFO_CLEAR => 6
  | LCR_EIGHT_BITS => 3
  | LCR_BAUD_LATCH => 128
  | LSR_RX_READY => 1
  | LSR_TX_IDLE => 32
  end.
Coercion uart_mask : uart_bits >-> Z.
#[global] Arguments uart_mask : simpl never.

(** for(;;) ; *)
Definition hang : K unit := loop (λ _ : unit, continue tt) tt.

Section uart.
Context `{OTH : Others, MIO : Mmio}.

Definition ReadReg (reg : Z) : K Z := v ← reg_read (UART0 + reg); mret (u8 v).
Definition WriteReg (reg v : Z) : K unit := reg_write (UART0 + reg) (u8 v).

Definition get_uart {A} (g : uart → A) : K A := get_dev (λ d, g (d_uart d)).
Definition set_uart (g : uart → uart) : K unit := set_dev (upd_d_uart g).

Definition uartinit : K unit :=
  WriteReg IER 0;;
  WriteReg LCR LCR_BAUD_LATCH;;
  WriteReg 0 3;;
  WriteReg 1 0;;
  WriteReg LCR LCR_EIGHT_BITS;;
  WriteReg FCR (Z.lor FCR_FIFO_ENABLE FCR_FIFO_CLEAR);;
  WriteReg IER (Z.lor IER_TX_ENABLE IER_RX_ENABLE);;
  initlock LK_uart "uart".

(** The UART can take a character. *)
Definition tx_idle : K bool :=
  s ← ReadReg LSR;
  mret (negb (Z.land s LSR_TX_IDLE =? 0)).

Definition uartstart : K unit :=
  loop (λ _ : unit,
    w ← get_uart ut_w;
    r ← get_uart ut_r;
    if w =? r then break tt else
    i ← tx_idle;
    if negb i then break tt else
    r ← get_uart ut_r;
    c ← get_uart (λ u, default 0 (ut_buf u !! Z.to_nat (r mod UART_TX_BUF_SIZE)));
    set_uart (upd_ut_r (λ r, u64 (r + 1)));;
    wakeup (Some Ch_uart);;
    WriteReg THR c;;
    continue tt) tt.

Definition uartputc (c : Z) : K unit :=
  acquire LK_uart;;
  p ← get_dev d_panicked;
  when (nz p) hang;;
  loop (λ _ : unit,
    w ← get_uart ut_w;
    r ← get_uart ut_r;
    if w =? u64 (r + UART_TX_BUF_SIZE) then
      sleep Ch_uart LK_uart;;
      continue tt
    else
      set_uart (λ u, upd_ut_buf <[Z.to_nat (ut_w u mod UART_TX_BUF_SIZE) := u8 c]> u);;
      set_uart (upd_ut_w (λ w, u64 (w + 1)));;
      uartstart;;
      release LK_uart;;
      break tt) tt.

Definition uartputc_sync (c : Z) : K unit :=
  on_hs push_off;;
  p ← get_dev d_panicked;
  when (nz p) hang;;
  loop (λ _ : unit, i ← tx_idle; (if i : bool then break tt else continue tt)) tt;;
  WriteReg THR c;;
  on_hs pop_off.

Definition uartgetc : K Z :=
  s ← ReadReg LSR;
  if negb (Z.land s LSR_RX_READY =? 0) then ReadReg RHR else mret (-1).
End uart.

(** * What the UART sends

    The characters written to the transmit register, in order.  uartputc_sync()
    sends its character; uartputc() and uartstart() move characters through the
    transmit buffer without losing or reordering any. *)

(** The characters sent, oldest first. *)
Definition to_thr (e : Z * option Z) : option Z := if e.1 =? UART0 + THR then e.2 else None.
Definition sent (h : list (Z * option Z)) : list Z := reverse (omap to_thr h).

Lemma sent_write c h : sent ((UART0 + THR, Some c) :: h) = sent h ++ [c].
Proof. unfold sent. simpl. by rewrite reverse_cons. Qed.

Lemma sent_read a h : sent ((a, None) :: h) = sent h.
Proof. unfold sent. simpl. unfold to_thr. simpl. by destruct (_ =? _). Qed.

Ltac wp_dev :=
  lazymatch goal with
  | |- wp (get_dev _) _ _ => apply wp_gets
  | |- wp (set_dev _) _ _ => apply wp_modify
  | |- wp (get_uart _) _ _ => apply wp_gets
  | |- wp (set_uart _) _ _ => apply wp_modify
  | |- wp (reg_read _) _ _ => unfold reg_read
  | |- wp (reg_write _ _) _ _ => unfold reg_write
  | |- wp (ReadReg _) _ _ => unfold ReadReg
  | |- wp (WriteReg _ _) _ _ => unfold WriteReg
  | _ => wp_proc
  end.
Ltac wp_prim ::= wp_dev.

(** The UART is ready for a character after the accesses [h]. *)
Definition tx_ready `{Mmio} (h : list (Z * option Z)) : bool :=
  negb (Z.land (u8 (mmio_value h (UART0 + LSR))) LSR_TX_IDLE =? 0).

(** The UART finishes sending: a driver that polls the line status register
    finds it ready some time. *)
Class UartLive `{Mmio} := uart_live : ∀ h, ∃ n : nat,
  Z.of_nat n < 2 ^ 62 ∧ tx_ready (replicate n (UART0 + LSR, None) ++ h) = true.

(** [k] after other accesses to devices and with the hart state [h]. *)
Definition with_mmio (m : list (Z * option Z)) (k : kernel) : kernel := upd_dev (upd_d_mmio (λ _, m)) k.

(** [k'] is [k] after the characters [cs] have been sent. *)
Definition printed (cs : list Z) (k k' : kernel) : Prop :=
  ∃ h m, hs_eq h (hs k) ∧ sent m = sent (d_mmio (dev k)) ++ cs ∧ k' = upd_hs (λ _, h) (with_mmio m k).

Lemma printed_nil k : printed [] k k.
Proof. exists (hs k), (d_mmio (dev k)). split_and!; [done|by rewrite app_nil_r|]. by destruct k as [? ? ? ? ? ? ? ? ? ? []]. Qed.

Lemma printed_app cs cs' k1 k2 k3 : printed cs k1 k2 → printed cs' k2 k3 → printed (cs ++ cs') k1 k3.
Proof.
  intros (h & m & Hh & Hm & ->) (h' & m' & Hh' & Hm' & ->). exists h', m'. simpl in *.
  split_and!; [by etrans|by rewrite Hm', Hm, app_assoc|done].
Qed.

Section uart_spec.
Context `{OTH : Others, MIO : Mmio, LIV : !UartLive}.

Lemma wp_tx_idle k Q :
  Q (tx_ready (d_mmio (dev k))) (with_mmio ((UART0 + LSR, None) :: d_mmio (dev k)) k) → wp tx_idle k Q.
Proof. intros HQ. unfold tx_idle. wp_pure. exact HQ. Qed.

(** Polling until the UART is ready. *)
Lemma tx_wait k Q :
  (∀ m, sent m = sent (d_mmio (dev k)) → Q tt (with_mmio m k)) →
  wp (loop (λ _ : unit, i ← tx_idle; (if i : bool then break tt else continue tt)) tt) k Q.
Proof.
  intros HQ. destruct (uart_live (d_mmio (dev k))) as (n & Hn & Hrdy). set (h := d_mmio (dev k)) in *.
  apply (wp_loop _ (λ _ s, ∃ j, (j ≤ n)%nat ∧ s = with_mmio (replicate j (UART0 + LSR, None) ++ h) k)
    (λ _ s, Z.of_nat (n + length h) - Z.of_nat (length (d_mmio (dev s))))).
  - intros _ s (j & Hj & ->). apply wp_bind, wp_tx_idle. simpl d_mmio.
    assert (sent (replicate j (UART0 + LSR, None) ++ h) = sent h) as Es.
    { clear. induction j as [|j IH]; [done|]. simpl. by rewrite sent_read. }
    destruct (tx_ready (replicate j (UART0 + LSR, None) ++ h)) eqn:Er; wp_pure.
    + apply HQ. by rewrite sent_read.
    + assert (j ≠ n) by (intros ->; congruence). split; [by exists (S j); split; [lia|]|].
      simpl. rewrite length_app, length_replicate. lia.
  - exists 0%nat. split; [lia|]. by destruct k as [? ? ? ? ? ? ? ? ? ? []].
  - simpl. fold h. lia.
Qed.

Lemma uartputc_sync_spec c k :
  hart_ok (hs k) → d_panicked (dev k) = 0 → wp (uartputc_sync c) k (λ _ k', printed [u8 c] k k').
Proof.
  intros Hok Hp. unfold uartputc_sync. apply wp_bind, wp_on_hs. unfold wp at 1. rewrite push_off_eq by done.
  wp_pure. simpl. rewrite Hp. simpl. wp_pure. apply tx_wait. intros m Hm. wp_pure.
  apply wp_on_hs. unfold wp. pose proof (pushed_cpu _ Hok) as Hc. pose proof (ho_noff _ Hok). simpl.
  rewrite (pop_off_eq (pushed (hs k)) _ Hc); [|simpl; lia|unfold sie, pushed; simpl; apply sie_off].
  exists (popped (pushed (hs k))). eexists. split_and!; [by apply popped_pushed| |done].
  simpl. rewrite sent_write. simpl in Hm. by rewrite Hm.
Qed.
End uart_spec.

(** ** The transmit buffer *)

Definition pending (u : uart) : list Z := rlist UART_TX_BUF_SIZE (2 ^ 64) (ut_buf u) (ut_r u) (ut_w u).

Record uart_ok (u : uart) : Prop := {
  uo_ring : ring_ok UART_TX_BUF_SIZE (2 ^ 64) (ut_buf u) (ut_r u) (ut_w u);
  uo_bytes : Forall (λ c, 0 ≤ c < 256) (pending u);
}.

Lemma tx_div : (UART_TX_BUF_SIZE | 2 ^ 64).
Proof. by exists (2 ^ 59). Qed.

Lemma length_pending u : Z.of_nat (length (pending u)) = rcount (2 ^ 64) (ut_r u) (ut_w u).
Proof. by apply (length_rlist UART_TX_BUF_SIZE). Qed.

Definition take_char (u : uart) : uart := upd_ut_r (λ r, u64 (r + 1)) u.
Definition add_char (c : Z) (u : uart) : uart :=
  upd_ut_w (λ w, u64 (w + 1)) (upd_ut_buf <[Z.to_nat (ut_w u mod UART_TX_BUF_SIZE) := u8 c]> u).

Lemma pending_nil u : uart_ok u → (ut_w u =? ut_r u) = bool_decide (pending u = []).
Proof.
  intros [H _]. apply eq_true_iff_eq. rewrite Z.eqb_eq, bool_decide_eq_true.
  rewrite <-(rlist_nil UART_TX_BUF_SIZE (2 ^ 64) eq_refl eq_refl _ _ _ H). split; congruence.
Qed.

Lemma pending_full u :
  uart_ok u → (ut_w u =? u64 (ut_r u + UART_TX_BUF_SIZE)) = bool_decide (length (pending u) = Z.to_nat UART_TX_BUF_SIZE).
Proof.
  intros [H _]. pose proof (length_pending u) as Hl. apply eq_true_iff_eq. rewrite Z.eqb_eq, bool_decide_eq_true.
  unfold u64. rewrite (ring_full UART_TX_BUF_SIZE (2 ^ 64) eq_refl eq_refl _ _ _ H). unfold UART_TX_BUF_SIZE in *. lia.
Qed.

Lemma take_char_spec u c cs :
  uart_ok u → pending u = c :: cs →
  uart_ok (take_char u) ∧ pending (take_char u) = cs ∧ 0 ≤ c < 256 ∧
  default 0 (ut_buf u !! Z.to_nat (ut_r u mod UART_TX_BUF_SIZE)) = c.
Proof.
  intros [H Hb] Hp. pose proof (length_pending u) as Hl. rewrite Hp in Hl, Hb. cbn [length] in Hl.
  assert (0 < rcount (2 ^ 64) (ut_r u) (ut_w u)) as Hpos by (rewrite <-Hl; lia).
  destruct (rlist_get UART_TX_BUF_SIZE (2 ^ 64) eq_refl eq_refl tx_div _ _ _ H Hpos) as [H1 H2].
  apply Forall_cons in Hb as [Hc Hcs]. unfold pending in Hp. rewrite H2 in Hp. injection Hp as Hc' Hcs'.
  split_and!; [|exact Hcs'|apply Hc|apply Hc|exact Hc']. split; [exact H1|].
  assert (pending (take_char u) = cs) as -> by exact Hcs'. done.
Qed.

Lemma add_char_spec c u :
  uart_ok u → (length (pending u) < Z.to_nat UART_TX_BUF_SIZE)%nat →
  uart_ok (add_char c u) ∧ pending (add_char c u) = pending u ++ [u8 c].
Proof.
  intros [H Hb] Hlt. pose proof (length_pending u) as Hl.
  assert (rcount (2 ^ 64) (ut_r u) (ut_w u) < UART_TX_BUF_SIZE) as Hc by (rewrite <-Hl; unfold UART_TX_BUF_SIZE in *; lia).
  destruct (rlist_put UART_TX_BUF_SIZE (2 ^ 64) eq_refl eq_refl tx_div _ _ _ (u8 c) H Hc) as [H1 H2].
  split; [|exact H2]. split; [exact H1|].
  assert (pending (add_char c u) = pending u ++ [u8 c]) as -> by exact H2. apply Forall_app. split; [done|].
  constructor; [|done]. apply Z.mod_pos_bound. done.
Qed.

(** What has been sent and what waits, in order. *)
Definition stream (d : devs) : list Z := sent (d_mmio d) ++ pending (d_uart d).

(** No spinlock is held; [o] is the process that runs on the hart, if one does. *)
Record at_rest (o : option nat) (k : kernel) : Prop := {
  ar_ok : hart_ok (hs k);
  ar_noff : noff (the_cpu (hs k)) = 0;
  ar_free : ∀ lk, lock_free lk (hs k);
  ar_proc : cproc (the_cpu (hs k)) = o;
  ar_procs : length (procs k) = Z.to_nat NPROC;
}.

Lemma running_rest me k : running me k → at_rest (Some me) k.
Proof. by intros [[] ?]. Qed.

Section transmit.
Context `{MIO : Mmio} (o : option nat) (k0 : kernel) (Hrest : at_rest o k0).

Definition with_uart (u : uart) (m : list (Z * option Z)) (ps : list proc) (k : kernel) : kernel :=
  upd_procs (λ _, ps) (upd_dev (λ d, upd_d_uart (λ _, u) (upd_d_mmio (λ _, m) d)) k).

(** Hart state [h]; the buffer is [u], [out] has been sent; processes may have
    been woken. *)
Definition in_uart (h : harts) (u : uart) (out : list Z) (s : kernel) : Prop :=
  ∃ h' m ps, hs_eq h' h ∧ sent m = out ∧ Forall2 woke (procs k0) ps ∧ s = upd_hs (λ _, h') (with_uart u m ps k0).

(** The buffer is empty, or the UART was busy when it was last asked. *)
Definition stalled (u : uart) (s : kernel) : Prop :=
  pending u = [] ∨ ∃ m, d_mmio (dev s) = (UART0 + LSR, None) :: m ∧ tx_ready m = false.

(** Who waits for room in the buffer is runnable. *)
Definition writers_woken (s : kernel) : Prop := ∀ p q,
  o ≠ Some p → procs k0 !! p = Some q → p_state q = SLEEPING → p_chan q = Some Ch_uart → p_state (proc_of s p) = RUNNABLE.

(** From [s], with buffer [u], to [s'], with buffer [u']: nothing to do, the UART
    is busy, or there is more room and the writers know it. *)
Definition started (u u' : uart) (s s' : kernel) : Prop :=
  pending u = [] ∧ s' = s ∨
  tx_ready (d_mmio (dev s)) = false ∧ s' = with_mmio ((UART0 + LSR, None) :: d_mmio (dev s)) s ∨
  (length (pending u') < length (pending u))%nat ∧ writers_woken s'.

Lemma in_uart_enter :
  in_uart (acq LK_uart (hs k0)) (d_uart (dev k0)) (sent (d_mmio (dev k0))) (upd_hs (acq LK_uart) k0).
Proof.
  exists (acq LK_uart (hs k0)), (d_mmio (dev k0)), (procs k0). split_and!; [done|done|done|].
  by destruct k0 as [? ? ? ? ? ? ? ? ? ? []].
Qed.

Lemma rest_wakeup k Q :
  hs_eq (hs k) (acq LK_uart (hs k0)) → length (procs k) = Z.to_nat NPROC →
  (∀ h', hs_eq h' (acq LK_uart (hs k0)) →
    Q tt (upd_hs (λ _, h') (upd_procs (λ _, wake_all (Some Ch_uart) o (procs k)) k))) →
  wp (wakeup (Some Ch_uart)) k Q.
Proof.
  intros Hh Hl HQ. destruct Hrest as [R1 R2 R3 R4 R5]. pose proof (the_cpu_acq LK_uart _ R1) as Ec.
  apply (wp_wakeup _ o).
  - rewrite Hh. apply acq_hart_ok; [done|lia].
  - destruct (hs_eq_cpu _ _ Hh) as (-> & _). by rewrite Ec.
  - intros p. rewrite Hh. by apply acq_lock_free, R3.
  - done.
  - intros k' (h' & Hh' & ->). apply HQ. by etrans.
Qed.

Lemma woken_wake_all p q ps :
  o ≠ Some p → ps !! p = Some q → p_state q = RUNNABLE ∨ p_state q = SLEEPING ∧ p_chan q = Some Ch_uart →
  ∃ q', wake_all (Some Ch_uart) o ps !! p = Some q' ∧ p_state q' = RUNNABLE.
Proof.
  intros Ho Hq Hs. unfold wake_all. rewrite list_lookup_imap, Hq. simpl. eexists. split; [done|].
  rewrite decide_False by done. unfold wake_one. destruct Hs as [Hs|[Hs Hc]].
  - by rewrite Hs.
  - by rewrite Hs, Hc, !bool_decide_eq_true_2.
Qed.

(** A wakeup, from a table in which processes may have been woken before. *)
Lemma writers_wake s ps h u m :
  Forall2 woke (procs k0) ps → s = upd_hs (λ _, h) (with_uart u m (wake_all (Some Ch_uart) o ps) k0) → writers_woken s.
Proof.
  intros Hps -> p q Ho Hq Hs Hc. unfold proc_of. simpl. destruct (Forall2_lookup_l _ _ _ _ _ Hps Hq) as (q1 & Hq1 & Hw).
  destruct (woken_wake_all p q1 ps Ho Hq1) as (q' & -> & Hq'); [|done]. destruct Hw as [->|[_ ->]]; [by right|by left].
Qed.

Lemma uartstart_spec u out s :
  uart_ok u → in_uart (acq LK_uart (hs k0)) u out s →
  wp uartstart s (λ _ s', ∃ u' out', uart_ok u' ∧ out' ++ pending u' = out ++ pending u ∧
    in_uart (acq LK_uart (hs k0)) u' out' s' ∧ stalled u' s' ∧ started u u' s s').
Proof.
  intros Hok Hs. unfold uartstart.
  apply (wp_loop _ (λ _ s', ∃ u' out', uart_ok u' ∧ out' ++ pending u' = out ++ pending u ∧
      in_uart (acq LK_uart (hs k0)) u' out' s' ∧
      (u' = u ∧ s' = s ∨ (length (pending u') < length (pending u))%nat ∧ writers_woken s'))
    (λ _ s, Z.of_nat (length (pending (d_uart (dev s)))))).
  - intros _ s1 (u1 & out1 & Hok1 & Ho1 & (h & m & ps & H1 & H2 & H3 & Es) & Hpr). wp_pure.
    assert (d_uart (dev s1) = u1) as -> by (by rewrite Es). assert (d_mmio (dev s1) = m) as Em by (by rewrite Es).
    rewrite (pending_nil u1 Hok1). destruct (pending u1) as [|c cs] eqn:Ep.
    + simpl. wp_pure. exists u1, out1. rewrite Ep. split_and!; [done|done|by exists h, m, ps|by left|].
      destruct Hpr as [[-> ->]|Hpr]; [by left|right; right; by rewrite Ep].
    + simpl. apply wp_bind, wp_tx_idle. rewrite Em. destruct (tx_ready m) eqn:Er; simpl; wp_pure; cycle 1.
      { exists u1, out1. rewrite Ep. split_and!; [done|done| |right; by exists m|].
        - exists h, ((UART0 + LSR, None) :: m), ps. rewrite sent_read. by rewrite Es.
        - destruct Hpr as [[-> ->]|[Hpr Hw]]; [right; left; by rewrite Em|right; right]. rewrite Ep. split; [done|].
          exact Hw. }
      destruct (take_char_spec u1 c cs Hok1 Ep) as (G1 & G2 & G3 & G4). rewrite Es. simpl in *. rewrite G4.
      apply rest_wakeup; [done|simpl|].
      { rewrite <-(Forall2_length _ _ _ H3). by destruct Hrest. }
      intros h' Hh'. wp_pure. split; cycle 1.
      { change (0 ≤ Z.of_nat (length (pending (take_char u1))) < Z.of_nat (S (length cs))). rewrite G2. lia. }
      exists (take_char u1), (out1 ++ [c]). split_and!; [done|by rewrite <-app_assoc, G2| |].
      * exists h', ((UART0 + THR, Some (u8 c)) :: (UART0 + LSR, None) :: m), (wake_all (Some Ch_uart) o ps).
        split_and!; [done| |etrans; [done|apply woke_wake_all]|done].
        rewrite sent_write, sent_read, H2. unfold u8. by rewrite Z.mod_small.
      * right. split; [|by eapply (writers_wake _ ps)]. rewrite G2. destruct Hpr as [[-> _]|[Hpr _]]; [rewrite Ep; simpl; lia|simpl in Hpr; lia].
  - exists u, out. split_and!; [done|done|done|by left].
  - rewrite length_pending. pose proof (rcount_range UART_TX_BUF_SIZE (2 ^ 64) eq_refl eq_refl (ut_r (d_uart (dev s))) (ut_w (d_uart (dev s)))). lia.
Qed.

Lemma uart_leave u out s Q :
  in_uart (acq LK_uart (hs k0)) u out s →
  (∀ h', hs_eq h' (hs k0) → in_uart (hs k0) u out (upd_hs (λ _, h') s) → Q tt (upd_hs (λ _, h') s)) → wp (release LK_uart) s Q.
Proof.
  intros (h & m & ps & H1 & H2 & H3 & ->) HQ. destruct Hrest as [R1 R2 R3 R4 R5].
  apply (wp_release_eq _ (hs k0)); [done|apply R3|done|]. intros h' Hh'. apply HQ; [done|]. by exists h', m, ps.
Qed.

(** uartputc() once there is room. *)
Lemma put_char_spec {A} c s (m : K A) Q :
  let u := d_uart (dev k0) in
  uart_ok u → (length (pending u) < Z.to_nat UART_TX_BUF_SIZE)%nat →
  hs_eq (hs s) (acq LK_uart (hs k0)) → s = upd_hs (λ _, hs s) k0 →
  (∀ u' out s', uart_ok u' → out ++ pending u' = stream (dev k0) ++ [u8 c] → in_uart (hs k0) u' out s' →
    stalled u' s' → wp m s' Q) →
  wp (set_uart (λ u, upd_ut_buf <[Z.to_nat (ut_w u mod UART_TX_BUF_SIZE) := u8 c]> u);;
      set_uart (upd_ut_w (λ w, u64 (w + 1)));; uartstart;; release LK_uart;; m) s Q.
Proof.
  intros u Hok Hlt Hh Es HQ. wp_pure. destruct (add_char_spec c u Hok Hlt) as [A1 A2].
  eapply wp_mono; [apply (uartstart_spec (add_char c u) (sent (d_mmio (dev k0)))); [done|]|].
  - exists (hs s), (d_mmio (dev k0)), (procs k0). rewrite Es. split_and!; [done|done|done|].
    by destruct k0 as [? ? ? ? ? ? ? ? ? ? []].
  - intros ? s1 (u1 & out1 & B1 & B2 & B3 & B4 & _). apply wp_bind. eapply uart_leave; [exact B3|]. intros h' Hh' Hin.
    apply (HQ u1 out1); [done| |done|done]. by rewrite A2, app_assoc in B2.
Qed.
End transmit.

(** ** Waiting for room

    uartputc() sleeps while the buffer is full.  What it needs of the rest of the
    system is stated here; that the interrupt handler provides it is proved
    with the other theorems about the drivers. *)

(** Outside of the harts, the processes and the devices nothing changes. *)
Definition same_rest (k k' : kernel) : Prop :=
  ∃ h ps d, k' = upd_hs (λ _, h) (upd_procs (λ _, ps) (upd_dev (λ _, d) k)).

(** While process [me] waits for room, the rest of the system changes the rest of
    the state by [R]; it lets the process run again, with interrupts and locks as
    they were; characters are sent in order, and those of [W] are added at the
    end; and each time
    there is room, or, when others have filled the buffer again, less is left of
    what they have to do, by [uw_rank]. *)
Class UartOthers `{OTH : Others, MIO : Mmio} (me : nat) (R : kernel → kernel → Prop) (W : list Z → Prop) := {
  uw_rank : devs → Z;
  uw_rank_range d : 0 ≤ uw_rank d < 2 ^ 61;
  uw_preorder :: PreOrder R;
  uw_rest k k' : same_rest k k' → R k k';
  uw_nil : W [];
  uw_app cs cs' : W cs → W cs' → W (cs ++ cs');
  uw_run h k p :
    calm me h → hs_eq (hs k) (acq (LK_proc me) h) → length (procs k) = Z.to_nat NPROC →
    procs k !! me = Some p → p_state p = SLEEPING → p_chan p = Some Ch_uart →
    uart_ok (d_uart (dev k)) → length (pending (d_uart (dev k))) = Z.to_nat UART_TX_BUF_SIZE →
    wp others k (λ _ k',
      hs_eq (set_intena (if sie h then 1 else 0) (hs k')) (acq (LK_proc me) h) ∧ length (procs k') = Z.to_nat NPROC ∧
      p_state (proc_of k' me) = RUNNING ∧ R k k' ∧ uart_ok (d_uart (dev k')) ∧
      (∃ more, W more ∧ stream (dev k') = stream (dev k) ++ more) ∧
      ((length (pending (d_uart (dev k'))) < Z.to_nat UART_TX_BUF_SIZE)%nat ∨ uw_rank (dev k') < uw_rank (dev k)));
}.

Lemma running_lookup k p : p_state (proc_of k p) = RUNNING → ∃ q, procs k !! p = Some q ∧ p_state q = RUNNING.
Proof. unfold proc_of. destruct (procs k !! p) as [q|]; [by exists q|done]. Qed.

Section uartputc.
Context `{OTH : Others, MIO : Mmio} (me : nat) (R : kernel → kernel → Prop) (W : list Z → Prop) `{UOT : !UartOthers me R W}.
Context (k0 : kernel) (Hrun : running me k0) (Hst : p_state (proc_of k0 me) = RUNNING).

(** The room there is. *)
Definition room (k : kernel) : Prop := (length (pending (d_uart (dev k))) < Z.to_nat UART_TX_BUF_SIZE)%nat.

(** In the loop of uartputc(): [more] has been added by others. *)
Record waiting (more : list Z) (s : kernel) : Prop := {
  wt_hs : hs_eq (hs s) (acq LK_uart (hs k0));
  wt_procs : length (procs s) = Z.to_nat NPROC;
  wt_state : p_state (proc_of s me) = RUNNING;
  wt_uart : uart_ok (d_uart (dev s));
  wt_rest : R k0 s;
  wt_stream : stream (dev s) = stream (dev k0) ++ more;
  wt_more : W more;
  wt_room : room k0 → more = [] ∧ s = upd_hs (λ _, hs s) k0;
}.

Lemma waiting_full more s Q :
  waiting more s → ¬ room s →
  (∀ more' s', waiting more' s' → room s' ∨ uw_rank (dev s') < uw_rank (dev s) → Q tt s') →
  wp (sleep Ch_uart LK_uart) s Q.
Proof.
  intros [W1 W2 W3 W4 W5 W6 W8 W7] Hfull HQ. pose proof (ru_calm _ _ Hrun) as Hc.
  destruct (running_lookup s me W3) as (q & Hq & Hqs).
  assert (length (pending (d_uart (dev s))) = Z.to_nat UART_TX_BUF_SIZE) as Hl.
  { pose proof (length_pending (d_uart (dev s))) as Hl. pose proof (rg_count _ _ _ _ _ (uo_ring _ W4)). unfold room, UART_TX_BUF_SIZE in *. lia. }
  apply (wp_sleep _ _ me (hs k0)); [done|done|done|]. intros h1 Hh1.
  eapply wp_mono; [eapply (uw_run (hs k0) _ (upd_p_state (λ _, SLEEPING) (upd_p_chan (λ _, Some Ch_uart) q)));
    [done|exact Hh1|simpl; by rewrite !length_alter|simpl; by rewrite !list_lookup_alter_eq, Hq|done..]|].
  intros [] k' (A1 & A2 & A3 & A4 & A5 & (more' & A8 & A6) & A7). split; [done|]. intros h2 Hh2.
  apply (HQ (more ++ more')); [|done].
  assert (∀ k1 k2, same_rest k1 k2 → R k1 k2) as HR by apply uw_rest. split; [done|simpl; by rewrite length_alter| |done| | |by apply uw_app|].
  - unfold proc_of in *. simpl. rewrite list_lookup_alter_eq. by destruct (procs k' !! me).
  - etrans; [exact W5|]. etrans; [|apply HR; by exists h2, (alter (upd_p_chan (λ _, None)) me (procs k')), (dev k')].
    etrans; [|exact A4]. apply HR. by eexists _, _, _.
  - change (stream (dev k') = stream (dev k0) ++ more ++ more'). rewrite A6. change (stream (dev s) ++ more' = stream (dev k0) ++ more ++ more').
    by rewrite W6, app_assoc.
  - intros Hr. exfalso. apply Hfull. destruct (W7 Hr) as [_ ->]. exact Hr.
Qed.

(** uartputc(): nothing is lost or overtaken. *)
Lemma uartputc_spec c :
  d_panicked (dev k0) = 0 → uart_ok (d_uart (dev k0)) →
  wp (uartputc c) k0 (λ _ k', ∃ more, W more ∧ running me k' ∧ p_state (proc_of k' me) = RUNNING ∧ R k0 k' ∧
    uart_ok (d_uart (dev k')) ∧ stalled (d_uart (dev k')) k' ∧
    stream (dev k') = stream (dev k0) ++ more ++ [u8 c] ∧ (room k0 → more = [] ∧ kquiet k0 k' ∧ fs k' = fs k0)).
Proof.
  intros Hp Hok. pose proof (ru_calm _ _ Hrun) as Hc. unfold uartputc. apply wp_bind, (wp_enter _ me); [done|].
  wp_pure. simpl. rewrite Hp. simpl. wp_pure.
  apply (wp_loop _ (λ _ s, ∃ more, waiting more s)
    (λ _ s, if decide (room s) then 0 else 1 + uw_rank (dev s))); cycle 1.
  - exists []. split; [done|by destruct Hrun|done|done| |by rewrite app_nil_r|apply uw_nil|done]. apply uw_rest.
    exists (acq LK_uart (hs k0)), (procs k0), (dev k0). by destruct k0.
  - pose proof (uw_rank_range (dev k0)). case_decide; simpl; lia.
  - intros _ s (more & Hw). pose proof Hw as [W1 W2 W3 W4 W5 W6 W8 W7]. wp_pure. rewrite (pending_full _ W4).
    pose proof (uw_rank_range (dev s)) as Hrs. destruct (decide (room s)) as [Hr|Hr].
    + rewrite bool_decide_eq_false_2 by (unfold room in Hr; lia). set (k1 := upd_hs (λ _, hs k0) s).
      assert (at_rest (Some me) k1) as Hk1 by (destruct Hc; by split).
      apply (put_char_spec (Some me) k1 Hk1); [done|done|done|by destruct s|]. intros u' out s' A1 A2 A3 A4. wp_pure.
      exists more. destruct A3 as (h' & m & ps & H1 & H2 & H3 & ->). simpl in H1, H3. change (dev k1) with (dev s) in A2.
      assert (p_state (default proc0 (ps !! me)) = RUNNING) as Hme.
      { destruct (running_lookup s me W3) as (q & Hq & Hqs). destruct (Forall2_lookup_l _ _ _ _ _ H3 Hq) as (q' & -> & [->|[Hs _]]); [done|congruence]. }
      split_and!; [done| |exact Hme| |done|done| |].
      * split; [by simpl; rewrite H1|]. simpl. by rewrite <-(Forall2_length _ _ _ H3).
      * etrans; [exact W5|]. apply uw_rest. by eexists _, _, _.
      * unfold stream at 1. simpl. by rewrite H2, A2, W6, app_assoc.
      * intros [-> Es]%W7. subst k1. rewrite Es. rewrite Es in H3. split_and!; [done|by split|done].
    + rewrite bool_decide_eq_true_2; [wp_pure|].
      * eapply waiting_full; [done|done|]. intros more' s' Hw' Hr'. wp_pure. split; [by exists more'|].
        pose proof (uw_rank_range (dev s')). destruct (decide (room s')); [lia|]. destruct Hr' as [|]; [done|lia].
      * pose proof (length_pending (d_uart (dev s))). pose proof (rg_count _ _ _ _ _ (uo_ring _ W4)). unfold room, UART_TX_BUF_SIZE in *. lia.
Qed.
End uartputc.
