(* ===== verification/Printf.v ===== *)
(** * Formatted output (kernel/printf.c) and procdump() (kernel/proc.c)

    Characters go to the UART one at a time.  Strings are lists of bytes, the
    variable arguments a list. *)

From stdpp Require Import gmap list strings.
From Stdlib Require Import ZArith Lia.
From S2P Require Import Prelude Mem RingBuf Params FsData DevData Machine Spinlock Sched Uart.
#[local] Open Scope Z_scope.

(** An argument of printf(): a number, or a string or null pointer. *)
Inductive arg : Type :=
| A_int (z : Z)
| A_str (s : option (list Z)).

Definition BACKSPACE := 256.

(** The digits [0] to [f]. *)
Definition digits : list Z := chars "0123456789abcdef".
Definition digit (d : Z) : Z := default 0 (digits !! Z.to_nat d).

Section printf.
Context `{OTH : Others, MIO : Mmio}.

(** consputc() of kernel/console.c. *)
Definition consputc (c : Z) : K unit :=
  if c =? BACKSPACE then
    uartputc_sync 8;; uartputc_sync 32;; uartputc_sync 8
  else uartputc_sync c.

Fixpoint put_all (cs : list Z) : K unit :=
  match cs with
  | [] => mret tt
  | c :: cs' => consputc c;; put_all cs'
  end.

(** The do-while loop of printint(): the contents of [buf], the last digit
    first; [buf] has room for 16 characters. *)
Fixpoint printint_digits (n : nat) (x base : Z) : list Z :=
  match n with
  | O => []
  | S n' =>
      digit (x mod base) :: (if x / base =? 0 then [] else printint_digits n' (x / base) base)
  end.

Definition printint (xx base : Z) (sign : bool) : K unit :=
  let sign := sign && (xx <? 0) in
  let x := u32 (if sign then - xx else xx) in
  let buf := printint_digits 16 x base in
  let buf := if sign then buf ++ [45] else buf in
  put_all (reverse buf).

Fixpoint printptr_loop (n : nat) (x : Z) : K unit :=
  match n with
  | O => mret tt
  | S n' => consputc (digit (Z.shiftr x 60));; printptr_loop n' (u64 (Z.shiftl x 4))
  end.
Definition printptr (x : Z) : K unit :=
  consputc 48;;
  consputc 120;;
  printptr_loop 16 (u64 x).

(** The loop over the format string.  An argument that is missing or not of the
    type of the conversion has no defined value in C; nothing is printed. *)
Fixpoint printf_loop (fmt : list Z) (ap : list arg) : K unit :=
  match fmt with
  | [] => mret tt
  | c :: fmt' =>
      if negb (c =? 37) then consputc c;; printf_loop fmt' ap else
      match fmt' with
      | [] => mret tt
      | c :: fmt' =>
          if c =? 100 then
            match ap with A_int z :: _ => printint (s32 z) 10 true | _ => mret tt end;;
            printf_loop fmt' (tail ap)
          else if c =? 120 then
            match ap with A_int z :: _ => printint (s32 z) 16 true | _ => mret tt end;;
            printf_loop fmt' (tail ap)
          else if c =? 112 then
            match ap with A_int z :: _ => printptr z | _ => mret tt end;;
            printf_loop fmt' (tail ap)
          else if c =? 115 then
            match ap with
            | A_str s :: _ => put_all (default (chars "(null)") s)
            | _ => mret tt
            end;;
            printf_loop fmt' (tail ap)
          else if c =? 37 then consputc 37;; printf_loop fmt' ap
          else consputc 37;; consputc c;; printf_loop fmt' ap
      end
  end.

Definition printf (fmt : list Z) (ap : list arg) : K unit :=
  locking ← get_dev d_locking;
  when (nz locking) (acquire LK_pr);;
  printf_loop fmt ap;;
  when (nz locking) (release LK_pr).

(** panic(): the message, and the machine stops. *)
Definition panic_stop (s : list Z) : K unit :=
  set_dev (upd_d_locking (λ _, 0));;
  printf (chars "panic: ") [];;
  printf s [];;
  printf [10] [];;
  set_dev (upd_d_panicked (λ _, 1));;
  hang.

Definition printfinit : K unit :=
  initlock LK_pr "pr";;
  set_dev (upd_d_locking (λ _, 1)).

(** ** procdump() of kernel/proc.c *)

Definition state_name (s : procstate) : list Z :=
  match s with
  | UNUSED => chars "unused"
  | USED => chars "???"
  | SLEEPING => chars "sleep "
  | RUNNABLE => chars "runble"
  | RUNNING => chars "run   "
  | ZOMBIE => chars "zombie"
  end.

Definition procdump : K unit :=
  printf [10] [];;
  loop (λ p : nat,
    if Z.of_nat p <? NPROC then
      st ← get_proc p p_state;
      if bool_decide (st = UNUSED) then continue (S p) else
      pid ← get_proc p p_pid;
      name ← get_proc p p_name;
      printf (chars "%d %s %s") [A_int pid; A_str (Some (state_name st)); A_str (Some (cstring name))];;
      printf [10] [];;
      continue (S p)
    else break tt) 0%nat.
End printf.

(** * What printf() prints

    Numerals, and the text that a format string and its arguments stand for;
    printf() sends exactly that text. *)

Ltac wp_prim ::= wp_dev.

(** ** Numerals *)

(** The number that digits, the most significant first, stand for. *)
Definition value (base : Z) (vs : list Z) : Z := foldl (λ x v, x * base + v) 0 vs.

(** [vs] are the digits of [x], without leading zeros. *)
Record numeral (base x : Z) (vs : list Z) : Prop := {
  nu_digits : Forall (λ v, 0 ≤ v < base) vs;
  nu_value : value base vs = x;
  nu_some : vs ≠ [];
  nu_lead : head vs = Some 0 → vs = [0];
}.

(** A number as printf() writes it. *)
Definition number_text (base z : Z) (t : list Z) : Prop :=
  ∃ vs, numeral base (Z.abs z) vs ∧ t = (if z <? 0 then [45] else []) ++ (digit <$> vs).

(** An address: 16 hexadecimal digits. *)
Definition pointer_text (x : Z) (t : list Z) : Prop :=
  ∃ vs, length vs = 16%nat ∧ Forall (λ v, 0 ≤ v < 16) vs ∧ value 16 vs = x ∧ t = [48; 120] ++ (digit <$> vs).

Lemma value_snoc base vs v : value base (vs ++ [v]) = value base vs * base + v.
Proof. unfold value. by rewrite foldl_app. Qed.

Lemma value_cons base v vs : value base (v :: vs) = v * base ^ Z.of_nat (length vs) + value base vs.
Proof.
  induction vs as [|w vs IH] using rev_ind; [unfold value; simpl; lia|].
  rewrite app_comm_cons, !value_snoc, IH, length_app, Nat.add_1_r, Nat2Z.inj_succ, Z.pow_succ_r by lia. lia.
Qed.

Lemma value_range base vs : 0 < base → Forall (λ v, 0 ≤ v < base) vs → 0 ≤ value base vs < base ^ Z.of_nat (length vs).
Proof.
  intros Hb. induction 1 as [|v vs Hv Hvs IH]; [done|]. rewrite value_cons. simpl length.
  rewrite Nat2Z.inj_succ, Z.pow_succ_r by lia. nia.
Qed.

Lemma foldl_pos base vs x :
  0 < base → Forall (λ v, 0 ≤ v < base) vs → 0 < x → 0 < foldl (λ x v, x * base + v) x vs.
Proof. intros Hb Hvs. revert x. induction Hvs as [|v vs Hv Hvs IH]; intros x Hx; simpl; [done|]. apply IH. nia. Qed.

Lemma value_pos base v vs :
  0 < base → Forall (λ v, 0 ≤ v < base) (v :: vs) → v ≠ 0 → 0 < value base (v :: vs).
Proof. intros Hb [Hv Hvs]%Forall_cons Hnz. unfold value. simpl. apply foldl_pos; [done|done|lia]. Qed.

(** The loop of printint() makes the digits, the last one first; there is only
    one numeral for a number. *)
Lemma printint_digits_numeral n x base vs :
  1 < base → numeral base x vs → x < base ^ Z.of_nat n → (0 < n)%nat →
  reverse (printint_digits n x base) = digit <$> vs.
Proof.
  intros Hb. revert x vs. induction n as [|n IH]; intros x vs [N1 N2 N3 N4] Hx Hn; [lia|]. simpl.
  destruct vs as [|v ws _] using rev_ind; [done|]. rewrite value_snoc in N2.
  apply Forall_app in N1 as [Hws [Hv _]%Forall_cons].
  assert (x / base = value base ws ∧ x mod base = v) as [Ed Em].
  { split; symmetry; [apply (Z.div_unique_pos x base _ v)|apply (Z.mod_unique_pos x base (value base ws))]; lia. }
  rewrite Ed, Em, fmap_app. destruct ws as [|w ws].
  - by destruct (Z.eqb_spec (value base []) 0).
  - assert (w ≠ 0) as Hw by (intros ->; specialize (N4 eq_refl); by destruct ws).
    pose proof (value_pos base w ws ltac:(lia) Hws Hw) as Hp.
    destruct (Z.eqb_spec (value base (w :: ws)) 0); [lia|]. rewrite reverse_cons. f_equal.
    rewrite Nat2Z.inj_succ, Z.pow_succ_r in Hx by lia. apply IH.
    + split; [done|done|done|]. intros [= ->]. done.
    + apply (Z.mul_lt_mono_pos_l base); lia.
    + destruct n; [|lia]. simpl in Hx. nia.
Qed.

(** ** Text *)

Definition byte (c : Z) : Prop := 0 ≤ c < 256.

(** The text of a format string with its arguments. *)
Inductive formats : list Z → list arg → list Z → Prop :=
| F_end ap : formats [] ap []
| F_char c fmt ap t : c ≠ 37 → byte c → formats fmt ap t → formats (c :: fmt) ap (c :: t)
| F_d z fmt ap t t' : number_text 10 (s32 z) t → formats fmt ap t' →
    formats (37 :: 100 :: fmt) (A_int z :: ap) (t ++ t')
| F_x z fmt ap t t' : number_text 16 (s32 z) t → formats fmt ap t' →
    formats (37 :: 120 :: fmt) (A_int z :: ap) (t ++ t')
| F_p z fmt ap t t' : pointer_text (u64 z) t → formats fmt ap t' →
    formats (37 :: 112 :: fmt) (A_int z :: ap) (t ++ t')
| F_s s fmt ap t : Forall byte s → formats fmt ap t → formats (37 :: 115 :: fmt) (A_str (Some s) :: ap) (s ++ t)
| F_null fmt ap t : formats fmt ap t → formats (37 :: 115 :: fmt) (A_str None :: ap) (chars "(null)" ++ t)
| F_percent fmt ap t : formats fmt ap t → formats (37 :: 37 :: fmt) ap (37 :: t)
| F_unknown c fmt ap t : c ∉ [100; 120; 112; 115; 37] → byte c → formats fmt ap t →
    formats (37 :: c :: fmt) ap (37 :: c :: t)
| F_last ap : formats [37] ap [].

Section kprintf_spec.
Context `{OTH : Others, MIO : Mmio, LIV : !UartLive}.

(** The UART driver can send. *)
Definition can_print (k : kernel) : Prop := hart_ok (hs k) ∧ d_panicked (dev k) = 0.

Lemma printed_can cs k k' : printed cs k k' → can_print k → can_print k'.
Proof. intros (h & m & Hh & _ & ->) [H1 H2]. split; simpl; [by rewrite Hh|done]. Qed.

Lemma consputc_spec c k : can_print k → byte c → wp (consputc c) k (λ _ k', printed [c] k k').
Proof.
  intros [H1 H2] Hc. unfold byte in Hc. unfold consputc, BACKSPACE. destruct (Z.eqb_spec c 256); [lia|].
  replace [c] with [u8 c]; [by apply uartputc_sync_spec|]. f_equal. unfold u8. apply Z.mod_small. lia.
Qed.

Lemma consputc_then c (m : K unit) t k :
  can_print k → byte c → (∀ k', can_print k' → wp m k' (λ _ k2, printed t k' k2)) →
  wp (consputc c;; m) k (λ _ k', printed (c :: t) k k').
Proof.
  intros Hk Hc Hm. apply wp_bind. eapply wp_mono; [by apply consputc_spec|]. intros ? k1 H1.
  eapply wp_mono; [apply Hm; eapply printed_can; [exact H1|done]|]. intros ? k2 H2. by apply (printed_app [c] t k k1 k2).
Qed.

Lemma put_all_spec cs k : can_print k → Forall byte cs → wp (put_all cs) k (λ _ k', printed cs k k').
Proof.
  intros Hk Hcs. revert k Hk. induction Hcs as [|c cs Hc Hcs IH]; intros k Hk; simpl.
  - wp_pure. apply printed_nil.
  - by apply consputc_then.
Qed.

Lemma digit_byte v : byte (digit v).
Proof.
  unfold digit. destruct (digits !! Z.to_nat v) as [c|] eqn:E; [|done].
  assert (Forall byte digits) as Hd by (repeat constructor; done). by eapply Forall_lookup_1.
Qed.

(** A conversion: its text, and then that of the rest. *)
Lemma print_then (m m' : K unit) t t' k :
  can_print k → wp m k (λ _ k', printed t k k') → (∀ k', can_print k' → wp m' k' (λ _ k2, printed t' k' k2)) →
  wp (m;; m') k (λ _ k', printed (t ++ t') k k').
Proof.
  intros Hk H1 H2. apply wp_bind. eapply wp_mono; [exact H1|]. intros ? k1 Hp.
  eapply wp_mono; [apply H2; eapply printed_can; [exact Hp|done]|]. intros ? k2 Hp2. eapply printed_app; [exact Hp|exact Hp2].
Qed.

Lemma printint_spec base z t k :
  base = 10 ∨ base = 16 → can_print k → - 2 ^ 31 ≤ z < 2 ^ 31 → number_text base z t →
  wp (printint z base true) k (λ _ k', printed t k k').
Proof.
  intros Hb Hk Hz (vs & Hn & ->). unfold printint. simpl andb.
  assert (u32 (if z <? 0 then - z else z) = Z.abs z) as ->.
  { destruct (Z.ltb_spec z 0); rewrite u32_small; lia. }
  assert (reverse (printint_digits 16 (Z.abs z) base) = digit <$> vs) as Hr.
  { apply printint_digits_numeral; [lia|done| |lia]. change (Z.of_nat 16) with 16. destruct Hb as [-> | ->]; lia. }
  assert (Forall byte (digit <$> vs)) as Hby by (apply Forall_fmap, Forall_true; intros; apply digit_byte).
  destruct (z <? 0).
  - rewrite reverse_app, Hr. apply put_all_spec; [done|]. by constructor.
  - rewrite Hr. by apply put_all_spec.
Qed.

(** The digits of a number that are left for the loop of printptr(). *)
Lemma printptr_loop_spec n vs x k :
  can_print k → length vs = n → Forall (λ v, 0 ≤ v < 16) vs → x = value 16 vs * 16 ^ (16 - Z.of_nat n) →
  (n ≤ 16)%nat → wp (printptr_loop n x) k (λ _ k', printed (digit <$> vs) k k').
Proof.
  revert vs x k. induction n as [|n IH]; intros vs x k Hk Hl Hvs Hx Hn.
  { destruct vs; [|done]. simpl. wp_pure. apply printed_nil. }
  destruct vs as [|v vs]; [discriminate Hl|]. injection Hl as Hl. cbn [printptr_loop fmap list_fmap].
  apply Forall_cons in Hvs as [Hv Hvs]. pose proof (value_range 16 vs ltac:(lia) Hvs) as Hr.
  rewrite value_cons in Hx. rewrite Hl in *. set (y := value 16 vs) in *.
  assert (16 ^ Z.of_nat n * 16 ^ (15 - Z.of_nat n) = 2 ^ 60) as Ep.
  { rewrite <-Z.pow_add_r by lia. by replace (Z.of_nat n + (15 - Z.of_nat n)) with 15 by lia. }
  replace (16 - Z.of_nat (S n)) with (15 - Z.of_nat n) in Hx by lia. set (q := 16 ^ (15 - Z.of_nat n)) in *.
  assert (0 < q) by (apply Z.pow_pos_nonneg; lia).
  assert (x = v * 2 ^ 60 + y * q ∧ 0 ≤ y * q < 2 ^ 60) as [Ex Hy] by nia.
  assert (Z.shiftr x 60 = v) as ->.
  { rewrite Z.shiftr_div_pow2 by lia. symmetry. apply (Z.div_unique_pos x (2 ^ 60) v (y * q)); lia. }
  apply consputc_then; [done|apply digit_byte|]. intros k1 Hk1. apply IH; [done|done|done| |lia].
  rewrite Z.shiftl_mul_pow2 by lia. unfold u64. symmetry. fold y.
  replace (16 - Z.of_nat n) with (Z.succ (15 - Z.of_nat n)) by lia. rewrite Z.pow_succ_r by lia. fold q.
  apply (Z.mod_unique_pos _ _ v); lia.
Qed.

Lemma printptr_spec x t k :
  can_print k → pointer_text (u64 x) t → wp (printptr x) k (λ _ k', printed t k k').
Proof.
  intros Hk (vs & Hl & Hvs & Hv & ->). unfold printptr. simpl app.
  apply consputc_then; [done|done|]. intros k1 Hk1. apply consputc_then; [done|done|]. intros k2 Hk2.
  apply printptr_loop_spec; [done|done|done| |lia]. rewrite Hv. simpl. lia.
Qed.

Lemma printf_loop_spec fmt ap t : formats fmt ap t → ∀ k, can_print k →
  wp (printf_loop fmt ap) k (λ _ k', printed t k k').
Proof.
  induction 1 as [ap|c fmt ap t Hc Hb Hf IH|z fmt ap t t' Ht Hf IH|z fmt ap t t' Ht Hf IH|z fmt ap t t' Ht Hf IH|
    s fmt ap t Hs Hf IH|fmt ap t Hf IH|fmt ap t Hf IH|c fmt ap t Hc Hb Hf IH|ap]; intros k Hk; cbn [printf_loop].
  - wp_pure. apply printed_nil.
  - apply Z.eqb_neq in Hc. rewrite Hc. simpl. by apply consputc_then.
  - apply print_then; [done| |done]. apply printint_spec; [by left|done|apply s32_range|done].
  - apply print_then; [done| |done]. apply printint_spec; [by right|done|apply s32_range|done].
  - apply print_then; [done| |done]. by apply printptr_spec.
  - apply print_then; [done| |done]. by apply put_all_spec.
  - apply print_then; [done| |done]. apply put_all_spec; [done|]. repeat constructor; done.
  - by apply consputc_then.
  - rewrite !not_elem_of_cons in Hc. destruct Hc as (H1 & H2 & H3 & H4 & H5 & _). apply Z.eqb_neq in H1, H2, H3, H4, H5.
    rewrite H1, H2, H3, H4, H5. apply consputc_then; [done|done|]. intros k1 Hk1. by apply consputc_then.
  - wp_pure. apply printed_nil.
Qed.

(** printf() may be called: its lock is free and there is room to nest. *)
Record may_print (k : kernel) : Prop := {
  mp_can : can_print k;
  mp_depth : noff (the_cpu (hs k)) < 2 ^ 31 - 2;
  mp_lock : lock_free LK_pr (hs k);
}.

Lemma printed_may cs k k' : printed cs k k' → may_print k → may_print k'.
Proof.
  intros Hp [H1 H2 H3]. pose proof (printed_can _ _ _ Hp H1) as Hc. destruct Hp as (h & m & Hh & _ & ->).
  split; [done| |]; simpl.
  - destruct (hs_eq_cpu _ _ Hh) as (_ & -> & _). done.
  - unfold lock_free. by rewrite (he_locks _ _ Hh).
Qed.

Lemma kprintf_spec fmt ap t k :
  may_print k → formats fmt ap t → wp (printf fmt ap) k (λ _ k', printed t k k').
Proof.
  intros [[Hok Hp] Hn Hf] Ht. unfold printf. wp_pure. destruct (nz (d_locking (dev k))); simpl when.
  - apply wp_acquire; [done|done|]. apply wp_bind.
    eapply wp_mono; [apply (printf_loop_spec fmt ap t Ht); split; [by apply acq_hart_ok|done]|].
    intros ? k1 (h & m & Hh & Hm & ->). apply (wp_release_eq _ (hs k)); [done|done|done|].
    intros h' Hh'. by exists h', m.
  - wp_pure. eapply wp_mono; [by apply (printf_loop_spec fmt ap t Ht)|]. intros ? k1 H1. wp_pure. exact H1.
Qed.
End kprintf_spec.

(** ** The text of procdump() *)

Lemma numeral_exists base x : 1 < base → 0 ≤ x → ∃ vs, numeral base x vs.
Proof.
  intros Hb Hx. revert x Hx. apply (Zlt_0_ind (λ x, ∃ vs, numeral base x vs)). intros x IH Hx.
  destruct (decide (x < base)) as [Hlt|Hge].
  { exists [x]. split; [repeat constructor; lia|unfold value; simpl; lia|done|]. by intros [= ->]. }
  destruct (IH (x / base)) as [vs [N1 N2 N3 N4]].
  { split; [apply Z.div_pos; lia|apply Z.div_lt; lia]. }
  exists (vs ++ [x mod base]). pose proof (Z.mod_pos_bound x base ltac:(lia)) as Hm. split.
  - apply Forall_app. split; [done|repeat constructor; lia].
  - rewrite value_snoc, N2. pose proof (Z.div_mod x base ltac:(lia)). lia.
  - by destruct vs.
  - destruct vs as [|v vs]; [done|]. simpl. intros [= ->]. specialize (N4 eq_refl). injection N4 as ->.
    unfold value in N2. simpl in N2. assert (0 < x / base); [|lia]. apply Z.div_str_pos. lia.
Qed.

Lemma number_text_exists base z : 1 < base → ∃ t, number_text base z t.
Proof. intros Hb. destruct (numeral_exists base (Z.abs z) Hb ltac:(lia)) as [vs Hv]. eexists. by exists vs. Qed.

(** The line of a process: its pid, its state and its name. *)
Definition proc_line (p : proc) (t : list Z) : Prop :=
  if decide (p_state p = UNUSED) then t = []
  else ∃ n, number_text 10 (s32 (p_pid p)) n ∧
    t = n ++ [32] ++ state_name (p_state p) ++ [32] ++ cstring (p_name p) ++ [10].

Definition dump_text (ps : list proc) (t : list Z) : Prop :=
  ∃ ts, Forall2 proc_line ps ts ∧ t = 10 :: mjoin ts.

(** Names are made of bytes. *)
Definition names_ok (ps : list proc) : Prop := Forall (λ p, Forall byte (cstring (p_name p))) ps.

Lemma state_name_bytes st : Forall byte (state_name st).
Proof. destruct st; repeat constructor; done. Qed.

Section procdump.
Context `{OTH : Others, MIO : Mmio, LIV : !UartLive}.

Lemma dump_line p k :
  may_print k → Forall byte (cstring (p_name p)) → p_state p ≠ UNUSED →
  wp (printf (chars "%d %s %s") [A_int (p_pid p); A_str (Some (state_name (p_state p))); A_str (Some (cstring (p_name p)))];;
      printf [10] []) k (λ _ k', ∃ t, proc_line p t ∧ printed t k k').
Proof.
  intros Hk Hb Hst. destruct (number_text_exists 10 (s32 (p_pid p)) ltac:(done)) as [n Hn].
  apply wp_bind. eapply wp_mono; [apply (kprintf_spec _ _ (n ++ [32] ++ state_name (p_state p) ++ [32] ++ cstring (p_name p) ++ [])); [done|]|].
  { apply F_d; [done|]. apply F_char; [done|done|]. apply F_s; [apply state_name_bytes|]. apply F_char; [done|done|].
    apply F_s; [done|apply F_end]. }
  intros ? k1 H1. eapply wp_mono; [apply (kprintf_spec [10] [] [10]); [exact (printed_may _ _ _ H1 Hk)|]|].
  { apply F_char; [done|done|apply F_end]. }
  intros ? k2 H2. eexists. split; [|eapply printed_app; [exact H1|exact H2]].
  unfold proc_line. rewrite decide_False by done. exists n. split; [done|]. by rewrite app_nil_r, <-!app_assoc.
Qed.

Lemma procdump_spec k :
  may_print k → length (procs k) = Z.to_nat NPROC → names_ok (procs k) →
  wp procdump k (λ _ k', ∃ t, dump_text (procs k) t ∧ printed t k k').
Proof.
  intros Hk Hl Hn. unfold procdump. apply wp_bind.
  eapply wp_mono; [apply (kprintf_spec [10] [] [10]); [done|apply F_char; [done|done|apply F_end]]|].
  intros ? k1 H1.
  apply (wp_loop _ (λ i s, (i ≤ length (procs k))%nat ∧ ∃ ts, Forall2 proc_line (take i (procs k)) ts ∧ printed (10 :: mjoin ts) k s)
    (λ i _, NPROC - Z.of_nat i)); [|split; [lia|by exists []]|unfold NPROC; lia].
  intros i s (Hi & ts & Hts & Hs). pose proof (printed_may _ _ _ Hs Hk) as Hm.
  assert (procs s = procs k) as Eps by (by destruct Hs as (? & ? & _ & _ & ->)).
  destruct (Z.ltb_spec (Z.of_nat i) NPROC) as [Hlt|Hge]; cycle 1.
  { wp_pure. exists (10 :: mjoin ts). split; [|done]. exists ts. by rewrite take_ge in Hts by lia. }
  destruct (lookup_lt_is_Some_2 (procs k) i) as [p Hp]; [lia|].
  assert (proc_of s i = p) as Ep by (unfold proc_of; by rewrite Eps, Hp).
  assert (∀ t, proc_line p t → Forall2 proc_line (take (S i) (procs k)) (ts ++ [t])) as Hext.
  { intros t Ht. rewrite (take_S_r _ _ _ Hp). apply Forall2_app; [done|by constructor]. }
  wp_pure. rewrite Ep. case_bool_decide as Hst.
  { wp_pure. split; [split; [lia|]|lia]. exists (ts ++ [[]]). split; [apply Hext; unfold proc_line; by rewrite decide_True|].
    by rewrite join_app, app_nil_r. }
  apply wp_bind, wp_gets, wp_bind, wp_gets. rewrite Ep. apply wp_seq2. eapply wp_mono; [apply (dump_line p s Hm); [|done]|].
  { by eapply (Forall_lookup_1 _ _ i p Hn). }
  intros ? s2 (t & Ht & Hs2). wp_pure. split; [split; [lia|]|lia]. exists (ts ++ [t]). split; [by apply Hext|].
  rewrite join_app. simpl. rewrite app_nil_r. exact (printed_app (10 :: mjoin ts) t k s s2 Hs Hs2).
Qed.
End procdump.
