(* ===== verification/Console.v ===== *)
(** * The console (kernel/console.c), the UART interrupt (kernel/uart.c) and the
    interrupt controller (kernel/plic.c)

    Input characters go through the line editor into a ring of 128 bytes: the
    bytes from [r] to [w] are lines that consoleread() may take, those from [w]
    to [e] the line that is being edited. *)

From stdpp Require Import gmap list strings.
From Stdlib Require Import ZArith Lia.
From S2P Require Import Prelude Mem Params FsData DevData Machine Spinlock Sched Kalloc Vm.
From S2P Require Import Uart Printf.
#[local] Open Scope Z_scope.

(** Control-x *)
Definition C (x : Z) : Z := x - 64.

Section console.
Context `{OTH : Others, LNK : !Linker, KOB : !Kobj, MIO : Mmio}.

Definition get_cons {A} (g : console → A) : K A := get_dev (λ d, g (d_cons d)).
Definition set_cons (g : console → console) : K unit := set_dev (upd_d_cons g).
Definition cons_at (c : console) (i : Z) : Z := default 0 (cs_buf c !! Z.to_nat (i mod INPUT_BUF)).

Definition consolewrite (user_src src n : Z) : K Z :=
  loop (λ i,
    if i <? n then
      r ← either_copyin kloc user_src (u64 (src + i)) 1;
      if r =? -1 then break i else
      cs ← get_bytes kloc 1;
      uartputc (default 0 (head cs));;
      continue (i + 1)
    else break i) 0.

(** The inner loop of consoleread(): [false] if the process was killed. *)
Definition consoleread_wait : K bool :=
  loop (λ _ : unit,
    r ← get_cons cs_r;
    w ← get_cons cs_w;
    if r =? w then
      p ← curproc;
      killed ← get_proc p p_killed;
      if nz killed then release LK_cons;; break false else
      sleep Ch_cons LK_cons;;
      continue tt
    else break true) tt.

Definition consoleread (user_dst dst n : Z) : K Z :=
  let target := u32 n in
  acquire LK_cons;;
  r ← loop (λ '(n, dst),
    if 0 <? n then
      ok ← consoleread_wait;
      if negb ok then break None else
      c ← get_cons (λ c, cons_at c (cs_r c));
      set_cons (upd_cs_r (λ r, u32 (r + 1)));;
      if c =? C 68 then
        when (u32 n <? target) (set_cons (upd_cs_r (λ r, u32 (r - 1))));;
        break (Some n)
      else
        put_bytes kloc [c];;
        r ← either_copyout user_dst dst kloc 1;
        if r =? -1 then break (Some n) else
        let dst := u64 (dst + 1) in
        let n := n - 1 in
        if c =? 10 then break (Some n) else continue (n, dst)
    else break (Some n)) (n, dst);
  match r with
  | None => mret (-1)
  | Some n =>
      release LK_cons;;
      mret (s32 (u32 (target - n)))
  end.

(** The while loop of control-U. *)
Definition kill_line : K unit :=
  loop (λ _ : unit,
    e ← get_cons cs_e;
    w ← get_cons cs_w;
    c ← get_cons (λ c, cons_at c (u32 (cs_e c - 1)));
    if negb (e =? w) && negb (c =? 10) then
      set_cons (upd_cs_e (λ e, u32 (e - 1)));;
      consputc BACKSPACE;;
      continue tt
    else break tt) tt.

(** A character that is not a control character of the editor. *)
Definition store_char (c : Z) : K unit :=
  e ← get_cons cs_e;
  r ← get_cons cs_r;
  when (negb (c =? 0) && (u32 (e - r) <? INPUT_BUF)) (
    let c := if c =? 13 then 10 else c in
    consputc c;;
    set_cons (λ s, upd_cs_buf <[Z.to_nat (cs_e s mod INPUT_BUF) := u8 c]> s);;
    set_cons (upd_cs_e (λ e, u32 (e + 1)));;
    e ← get_cons cs_e;
    r ← get_cons cs_r;
    when ((c =? 10) || (c =? C 68) || (e =? u32 (r + INPUT_BUF))) (
      set_cons (upd_cs_w (λ _, e));;
      wakeup (Some Ch_cons))).

Definition consoleintr (c : Z) : K unit :=
  acquire LK_cons;;
  (if c =? C 80 then procdump
   else if c =? C 85 then kill_line
   else if (c =? C 72) || (c =? 127) then
     e ← get_cons cs_e;
     w ← get_cons cs_w;
     when (negb (e =? w)) (
       set_cons (upd_cs_e (λ e, u32 (e - 1)));;
       consputc BACKSPACE)
   else store_char c);;
  release LK_cons.

(** devsw[CONSOLE] *)
Definition CONSOLE := 1.

Definition consoleinit : K unit :=
  initlock LK_cons "cons";;
  uartinit;;
  set_dev (upd_d_devsw (λ _, [false; true])).

(** uartintr() of kernel/uart.c *)
Definition uartintr : K unit :=
  loop (λ _ : unit,
    c ← uartgetc;
    if c =? -1 then break tt else
    consoleintr c;;
    continue tt) tt;;
  acquire LK_uart;;
  uartstart;;
  release LK_uart.
End console.

(** ** kernel/plic.c *)

Definition PLIC_SENABLE (hart : Z) : Z := PLIC + 0x2080 + hart * 0x100.
Definition PLIC_SPRIORITY (hart : Z) : Z := PLIC + 0x201000 + hart * 0x2000.
Definition PLIC_SCLAIM (hart : Z) : Z := PLIC + 0x201004 + hart * 0x2000.

Section plic.
Context `{MIO : Mmio}.

Definition plicinit : K unit :=
  reg_write (PLIC + UART0_IRQ * 4) 1;;
  reg_write (PLIC + VIRTIO0_IRQ * 4) 1.

Definition plicinithart : K unit :=
  hart ← on_hs cpuid;
  reg_write (PLIC_SENABLE hart) (Z.lor (Z.shiftl 1 UART0_IRQ) (Z.shiftl 1 VIRTIO0_IRQ));;
  reg_write (PLIC_SPRIORITY hart) 0.

Definition plic_claim : K Z :=
  hart ← on_hs cpuid;
  irq ← reg_read (PLIC_SCLAIM hart);
  mret (s32 irq).

Definition plic_complete (irq : Z) : K unit :=
  hart ← on_hs cpuid;
  reg_write (PLIC_SCLAIM hart) (u32 irq).
End plic.
