(* ===== verification/ConsoleSpec.v ===== *)
(** * The line editor of the console

    The input ring as two lists, the lines that can be read and the line that is
    being edited, and consoleintr() as an editor of them. *)

From stdpp Require Import gmap list strings.
From Stdlib Require Import ZArith Lia.
From S2P Require Import Prelude Mem RingBuf Params FsData DevData Machine Spinlock Sched Kalloc Vm.
From S2P Require Import Uart Printf Console.
#[local] Open Scope Z_scope.
Ltac wp_cons :=
  lazymatch goal with
  | |- wp (get_cons _) _ _ => apply wp_gets
  | |- wp (set_cons _) _ _ => apply wp_modify
  | _ => wp_dev
  end.
Ltac wp_prim ::= wp_cons.

(** ** The two lists *)

Definition ready (c : console) : list Z := rlist INPUT_BUF (2 ^ 32) (cs_buf c) (cs_r c) (cs_w c).
Definition editing (c : console) : list Z := rlist INPUT_BUF (2 ^ 32) (cs_buf c) (cs_w c) (cs_e c).

(** The line that is edited has no character that ends a line. *)
Definition ends_line (c : Z) : bool := (c =? 10) || (c =? C 68).

Record cons_ok (c : console) : Prop := {
  co_ready : ring_ok INPUT_BUF (2 ^ 32) (cs_buf c) (cs_r c) (cs_w c);
  co_edit : ring_ok INPUT_BUF (2 ^ 32) (cs_buf c) (cs_w c) (cs_e c);
  co_room : rcount (2 ^ 32) (cs_r c) (cs_w c) + rcount (2 ^ 32) (cs_w c) (cs_e c) ≤ INPUT_BUF;
  co_line : Forall (λ b, ends_line b = false) (editing c);
}.

Definition rubout : list Z := [8; 32; 8].

(** What a character does to the two lists, and what is echoed. *)
Definition line_step (c : Z) (rd ed : list Z) : list Z * list Z * list Z :=
  if c =? C 85 then (rd, [], mjoin (replicate (length ed) rubout))
  else if (c =? C 72) || (c =? 127) then
    (rd, take (length ed - 1) ed, if decide (ed = []) then [] else rubout)
  else if (c =? 0) || bool_decide (INPUT_BUF ≤ Z.of_nat (length rd + length ed)) then (rd, ed, [])
  else
    let c := if c =? 13 then 10 else c in
    if ends_line c || bool_decide (Z.of_nat (length rd + length ed + 1) = INPUT_BUF)
    then (rd ++ ed ++ [c], [], [c]) else (rd, ed ++ [c], [c]).

(** Control-P prints the process list and leaves the lines alone. *)
Definition edit_step (b : Z) (ps : list proc) (rd ed rd' ed' out : list Z) : Prop :=
  if b =? C 80 then rd' = rd ∧ ed' = ed ∧ dump_text ps out else (rd', ed', out) = line_step b rd ed.

(** Readers are woken when there is something new to read. *)
Definition woken (me : nat) (rd rd' : list Z) (ps : list proc) : list proc :=
  if decide (rd' = rd) then ps else wake_all (Some Ch_cons) (Some me) ps.

Lemma input_div : (INPUT_BUF | 2 ^ 32).
Proof. by exists (2 ^ 25). Qed.

Lemma length_ready c : Z.of_nat (length (ready c)) = rcount (2 ^ 32) (cs_r c) (cs_w c).
Proof. by apply (length_rlist INPUT_BUF). Qed.
Lemma length_editing c : Z.of_nat (length (editing c)) = rcount (2 ^ 32) (cs_w c) (cs_e c).
Proof. by apply (length_rlist INPUT_BUF). Qed.

Definition no_edit (c : console) : bool := cs_e c =? cs_w c.
Lemma no_edit_nil c : cons_ok c → no_edit c = bool_decide (editing c = []).
Proof.
  intros [_ H _ _]. unfold no_edit. apply eq_true_iff_eq. rewrite Z.eqb_eq, bool_decide_eq_true.
  rewrite <-(rlist_nil INPUT_BUF (2 ^ 32) eq_refl eq_refl _ _ _ H). split; congruence.
Qed.

(** Rubbing out the last character. *)
Definition rub (c : console) : console := upd_cs_e (λ e, u32 (e - 1)) c.

Lemma rub_spec c :
  cons_ok c → editing c ≠ [] →
  cons_ok (rub c) ∧ ready (rub c) = ready c ∧ editing (rub c) = take (length (editing c) - 1) (editing c) ∧
  ends_line (cons_at c (u32 (cs_e c - 1))) = false.
Proof.
  intros [H1 H2 H3 H4] Hne. pose proof (length_editing c) as Hl.
  assert (0 < rcount (2 ^ 32) (cs_w c) (cs_e c)) as Hp by (rewrite <-Hl; destruct (editing c); [done|simpl; lia]).
  destruct (rlist_drop_last INPUT_BUF (2 ^ 32) eq_refl eq_refl input_div _ _ _ H2 Hp) as [G1 G2].
  pose proof (rcount_pred INPUT_BUF (2 ^ 32) eq_refl eq_refl (cs_w c) (cs_e c) Hp) as Hc.
  change (editing c = editing (rub c) ++ [rat INPUT_BUF (cs_buf c) (cs_e c - 1)]) in G2.
  assert (cons_at c (u32 (cs_e c - 1)) = rat INPUT_BUF (cs_buf c) (cs_e c - 1)) as ->.
  { exact (rat_wrap INPUT_BUF (2 ^ 32) eq_refl eq_refl input_div (cs_buf c) (cs_e c - 1)). }
  rewrite G2 in H4. apply Forall_app in H4 as [H4 [H5 _]%Forall_cons]. split_and!; [|done| |done].
  - split; [done|done| |done]. unfold rub, u32. simpl. lia.
  - rewrite G2, length_app, Nat.add_sub. by rewrite take_app_length.
Qed.

(** A character behind the line. *)
Definition store (b : Z) (c : console) : console :=
  upd_cs_e (λ e, u32 (e + 1)) (upd_cs_buf <[Z.to_nat (cs_e c mod INPUT_BUF) := b]> c).
(** The line is complete. *)
Definition finish (c : console) : console := upd_cs_w (λ _, cs_e c) c.

Lemma store_spec b c :
  cons_ok c → Z.of_nat (length (ready c) + length (editing c)) < INPUT_BUF →
  ring_ok INPUT_BUF (2 ^ 32) (cs_buf (store b c)) (cs_r c) (cs_w c) ∧
  ring_ok INPUT_BUF (2 ^ 32) (cs_buf (store b c)) (cs_w c) (cs_e (store b c)) ∧
  rcount (2 ^ 32) (cs_r c) (cs_w c) + rcount (2 ^ 32) (cs_w c) (cs_e (store b c)) =
    Z.of_nat (length (ready c) + length (editing c) + 1) ∧
  ready (store b c) = ready c ∧ editing (store b c) = editing c ++ [b].
Proof.
  intros [H1 H2 H3 H4] Hl. pose proof (length_ready c) as L1. pose proof (length_editing c) as L2.
  assert (rcount (2 ^ 32) (cs_w c) (cs_e c) < INPUT_BUF) as Hlt by (pose proof (Nat2Z.is_nonneg (length (ready c))); lia).
  destruct (rlist_put INPUT_BUF (2 ^ 32) eq_refl eq_refl input_div _ _ _ b H2 Hlt) as [G1 G2].
  assert (ring_ok INPUT_BUF (2 ^ 32) (cs_buf (store b c)) (cs_r c) (cs_w c)) as G0.
  { destruct H1 as [R1 R2 R3 R4]. split; try done. simpl. by rewrite length_insert. }
  split_and!; [done|exact G1| | |exact G2].
  - pose proof (length_rlist INPUT_BUF (2 ^ 32) eq_refl eq_refl (cs_buf (store b c)) (cs_w c) (cs_e (store b c))) as L3.
    change (rlist INPUT_BUF (2 ^ 32) (cs_buf (store b c)) (cs_w c) (cs_e (store b c)) = editing c ++ [b]) in G2.
    rewrite G2, length_app in L3. cbn [length] in L3. rewrite <-L1, <-L3. lia.
  - apply (rlist_put_other INPUT_BUF (2 ^ 32) eq_refl eq_refl input_div (cs_buf c) (cs_r c) (cs_w c) (cs_e c) b H1); [apply H2|lia].
Qed.

(** The ring is full. *)
Lemma store_full b c :
  cons_ok c → Z.of_nat (length (ready c) + length (editing c)) < INPUT_BUF →
  (cs_e (store b c) =? u32 (cs_r (store b c) + INPUT_BUF)) =
    bool_decide (Z.of_nat (length (ready c) + length (editing c) + 1) = INPUT_BUF).
Proof.
  intros Hok Hlt. destruct (store_spec b c Hok Hlt) as (G1 & G2 & G3 & _). assert (INPUT_BUF = 128) as EI by done.
  assert (rcount (2 ^ 32) (cs_r c) (cs_e (store b c)) = Z.of_nat (length (ready c) + length (editing c) + 1)) as Hc.
  { rewrite (rcount_add INPUT_BUF (2 ^ 32) eq_refl eq_refl (cs_r c) (cs_w c)); lia. }
  assert (ring_ok INPUT_BUF (2 ^ 32) (cs_buf (store b c)) (cs_r c) (cs_e (store b c))) as Hr.
  { destruct G1 as [A1 A2 A3 A4], G2 as [B1 B2 B3 B4]. split; try done. lia. }
  apply eq_true_iff_eq. rewrite Z.eqb_eq, bool_decide_eq_true, <-Hc.
  apply (ring_full INPUT_BUF (2 ^ 32) eq_refl eq_refl _ _ _ Hr).
Qed.

Lemma finish_spec c :
  ring_ok INPUT_BUF (2 ^ 32) (cs_buf c) (cs_r c) (cs_w c) → ring_ok INPUT_BUF (2 ^ 32) (cs_buf c) (cs_w c) (cs_e c) →
  rcount (2 ^ 32) (cs_r c) (cs_w c) + rcount (2 ^ 32) (cs_w c) (cs_e c) ≤ INPUT_BUF →
  cons_ok (finish c) ∧ ready (finish c) = ready c ++ editing c ∧ editing (finish c) = [].
Proof.
  intros H1 H2 H3. assert (INPUT_BUF = 128) as EI by done. pose proof H1 as [A1 A2 A3 A4]. pose proof H2 as [B1 B2 B3 B4].
  assert (rlist INPUT_BUF (2 ^ 32) (cs_buf c) (cs_e c) (cs_e c) = []) as Hn.
  { apply (rlist_nil INPUT_BUF (2 ^ 32) eq_refl eq_refl); [|done]. split; try done. unfold rcount. rewrite Z.sub_diag. done. }
  assert (rcount (2 ^ 32) (cs_r c) (cs_e c) = rcount (2 ^ 32) (cs_r c) (cs_w c) + rcount (2 ^ 32) (cs_w c) (cs_e c)) as Hc
    by (apply (rcount_add INPUT_BUF (2 ^ 32) eq_refl eq_refl); lia).
  assert (rcount (2 ^ 32) (cs_e c) (cs_e c) = 0) as Hz by (unfold rcount; by rewrite Z.sub_diag).
  split_and!; [split|..].
  - split; try done. simpl. lia.
  - split; try done. simpl. lia.
  - simpl. lia.
  - unfold editing, finish. simpl. by rewrite Hn.
  - apply (rlist_app INPUT_BUF (2 ^ 32) eq_refl eq_refl input_div (cs_buf c) (cs_r c) (cs_w c) (cs_e c)); [done|lia].
  - exact Hn.
Qed.

Lemma mjoin_replicate_S {A} n (l : list A) : mjoin (replicate (S n) l) = mjoin (replicate n l) ++ l.
Proof. induction n as [|n IH]; simpl; [by rewrite app_nil_r|]. rewrite <-app_assoc. f_equal. exact IH. Qed.

(** ** consoleintr() *)

Section consoleintr.
Context `{OTH : Others, LNK : !Linker, KOB : !Kobj, MIO : Mmio, LIV : !UartLive} (me : nat) (k0 : kernel).
Context (Hrun : running me k0) (Hpan : d_panicked (dev k0) = 0).

(** [k0] with the console as [c] and other accesses to devices. *)
Definition with_cons (c : console) (m : list (Z * option Z)) (k : kernel) : kernel :=
  upd_dev (λ d, upd_d_cons (λ _, c) (upd_d_mmio (λ _, m) d)) k.

(** Inside the critical section: the console is [c], [out] has been echoed. *)
Definition in_cons (c : console) (out : list Z) (s : kernel) : Prop :=
  ∃ h m, hs_eq h (acq LK_cons (hs k0)) ∧ sent m = sent (d_mmio (dev k0)) ++ out ∧
    s = upd_hs (λ _, h) (with_cons c m k0).

Lemma in_cons_c c out s : in_cons c out s → d_cons (dev s) = c.
Proof. by intros (h & m & _ & _ & ->). Qed.

Lemma in_cons_set g c out s : in_cons c out s → in_cons (g c) out (upd_dev (upd_d_cons g) s).
Proof. intros (h & m & H1 & H2 & ->). by exists h, m. Qed.

Lemma in_cons_enter : in_cons (d_cons (dev k0)) [] (upd_hs (acq LK_cons) k0).
Proof.
  exists (acq LK_cons (hs k0)), (d_mmio (dev k0)). split_and!; [done|by rewrite app_nil_r|].
  by destruct k0 as [? ? ? ? ? ? ? ? ? ? []].
Qed.

Lemma in_cons_can c out s : in_cons c out s → can_print s.
Proof.
  intros (h & m & H1 & _ & ->). split; [|done]. simpl. rewrite H1.
  by destruct (inside_ok LK_cons me (acq LK_cons (hs k0))) as (? & _); [apply calm_inside; by destruct Hrun|].
Qed.

Lemma in_cons_printed c out out' s s' : in_cons c out s → printed out' s s' → in_cons c (out ++ out') s'.
Proof.
  intros (h & m & H1 & H2 & ->) (h' & m' & H3 & H4 & ->). simpl in *. exists h', m'.
  split_and!; [by etrans|by rewrite H4, H2, app_assoc|done].
Qed.

Lemma in_cons_echo b c out s Q :
  in_cons c out s → byte b → (∀ s', in_cons c (out ++ [b]) s' → Q tt s') → wp (consputc b) s Q.
Proof.
  intros Hs Hb HQ. eapply wp_mono; [apply consputc_spec; [by eapply in_cons_can|done]|].
  intros [] s' Hp. apply HQ. eapply in_cons_printed; [done|exact Hp].
Qed.

Lemma in_cons_rubout c out s Q :
  in_cons c out s → (∀ s', in_cons c (out ++ rubout) s' → Q tt s') → wp (consputc BACKSPACE) s Q.
Proof.
  intros Hs HQ. unfold consputc. change (BACKSPACE =? BACKSPACE) with true. cbv iota.
  assert (∀ b out s Q, byte b → in_cons c out s → (∀ s', in_cons c (out ++ [b]) s' → Q tt s') →
    wp (uartputc_sync b) s Q) as H1.
  { clear Hs HQ. intros b out1 s1 Q1 Hb Hs HQ. destruct (in_cons_can c out1 s1 Hs) as [H1 H2].
    eapply wp_mono; [by apply uartputc_sync_spec|]. intros [] s' Hp. apply HQ. eapply in_cons_printed; [done|].
    replace b with (u8 b); [exact Hp|]. apply Z.mod_small. exact Hb. }
  apply wp_bind. eapply (H1 8); [done|done|]. intros s1 Hs1.
  apply wp_bind. eapply (H1 32); [done|done|]. intros s2 Hs2.
  eapply (H1 8); [done|done|]. intros s3 Hs3. apply HQ. by rewrite <-!app_assoc in Hs3.
Qed.

(** Control-U rubs the line out. *)
Lemma kill_line_spec c out s Q :
  cons_ok c → in_cons c out s →
  (∀ c' s', cons_ok c' → ready c' = ready c → editing c' = [] →
    in_cons c' (out ++ mjoin (replicate (length (editing c)) rubout)) s' → Q tt s') →
  wp kill_line s Q.
Proof.
  intros Hok Hs HQ. unfold kill_line.
  apply (wp_loop _ (λ _ s, ∃ c' n, cons_ok c' ∧ ready c' = ready c ∧ (length (editing c') + n)%nat = length (editing c) ∧
      in_cons c' (out ++ mjoin (replicate n rubout)) s)
    (λ _ s, Z.of_nat (length (editing (d_cons (dev s)))))).
  - intros _ s1 (c1 & n & Hok1 & Hr1 & Hl1 & Hs1). wp_pure. rewrite (in_cons_c _ _ _ Hs1).
    fold (no_edit c1). rewrite (no_edit_nil c1 Hok1).
    destruct (decide (editing c1 = [])) as [E|E]; cycle 1.
    + rewrite bool_decide_eq_false_2 by done. destruct (rub_spec c1 Hok1 E) as (R1 & R2 & R3 & R4).
      unfold ends_line in R4. apply orb_false_iff in R4 as [-> _]. simpl. wp_pure.
      eapply in_cons_rubout; [by apply (in_cons_set (upd_cs_e _))|]. intros s2 Hs2. wp_pure.
      assert (0 < length (editing c1))%nat by (destruct (editing c1); [done|simpl; lia]).
      split; [exists (rub c1), (S n); split_and!; [done|congruence|rewrite R3, length_take; lia|]|].
      * by rewrite mjoin_replicate_S, app_assoc.
      * rewrite (in_cons_c _ _ _ Hs2). change (upd_cs_e _ c1) with (rub c1). rewrite R3, length_take. lia.
    + rewrite bool_decide_eq_true_2 by done. simpl. wp_pure. apply (HQ c1); try done.
      rewrite E in Hl1. simpl in Hl1. by rewrite <-Hl1.
  - exists c, 0%nat. split_and!; [done|done|lia|]. by rewrite app_nil_r.
  - rewrite (in_cons_c _ _ _ Hs), length_editing. destruct (co_edit _ Hok) as [_ _ _ H]. unfold INPUT_BUF in H. lia.
Qed.

(** The console becomes [c'], [out] is echoed; readers are woken when there is
    something new to read. *)
Definition edited (h : harts) (c' : console) (out : list Z) (s : kernel) : Prop :=
  ∃ h' m, hs_eq h' h ∧ sent m = sent (d_mmio (dev k0)) ++ out ∧
    s = upd_hs (λ _, h') (upd_procs (woken me (ready (d_cons (dev k0))) (ready c')) (with_cons c' m k0)).

Lemma in_cons_edited c out s :
  in_cons c out s → ready c = ready (d_cons (dev k0)) → edited (acq LK_cons (hs k0)) c out s.
Proof.
  intros (h & m & H1 & H2 & ->) Hr. exists h, m. split_and!; [done|done|]. rewrite Hr.
  unfold woken, upd_procs, upd_hs. simpl. rewrite decide_True by done. by destruct k0.
Qed.

(** The outcome for the character [b]. *)
Definition edit_done (h : harts) (b : Z) (c : console) (s : kernel) : Prop :=
  ∃ c' out, edit_step b (procs k0) (ready c) (editing c) (ready c') (editing c') out ∧
    cons_ok c' ∧ edited h c' out s.

Lemma edit_done_line b c c' out s h :
  b ≠ C 80 → line_step b (ready c) (editing c) = (ready c', editing c', out) → cons_ok c' → edited h c' out s →
  edit_done h b c s.
Proof. intros Hb El Hok He. exists c', out. split_and!; [|done|done]. unfold edit_step. apply Z.eqb_neq in Hb. by rewrite Hb. Qed.

Lemma store_char_spec b s :
  let c := d_cons (dev k0) in
  cons_ok c → byte b → b ≠ C 80 → b ≠ C 85 → b ≠ C 72 → b ≠ 127 → in_cons c [] s →
  wp (store_char b) s (λ _ s', edit_done (acq LK_cons (hs k0)) b c s').
Proof.
  intros c Hok Hb H0 H1 H2 H3 Hs. pose proof Hok as [R1 R2 R3 R4].
  pose proof (length_ready c) as L1. pose proof (length_editing c) as L2. assert (INPUT_BUF = 128) as EI by done.
  assert (rcount (2 ^ 32) (cs_r c) (cs_e c) = Z.of_nat (length (ready c) + length (editing c))) as Hcnt.
  { rewrite (rcount_add INPUT_BUF (2 ^ 32) eq_refl eq_refl (cs_r c) (cs_w c) (cs_e c)); lia. }
  pose proof (λ c' out s', edit_done_line b c c' out s' (acq LK_cons (hs k0)) H0) as Hdone.
  unfold line_step in Hdone. apply Z.eqb_neq in H1, H2, H3. rewrite H1, H2, H3 in Hdone. simpl orb in Hdone. cbv iota in Hdone.
  unfold store_char. wp_pure. rewrite (in_cons_c _ _ _ Hs). change (u32 (cs_e c - cs_r c)) with (rcount (2 ^ 32) (cs_r c) (cs_e c)).
  rewrite Hcnt. destruct (Z.eqb_spec b 0) as [->|Hb0].
  { simpl in *. wp_pure. apply (Hdone c []); [done|done|by apply in_cons_edited]. }
  simpl orb in Hdone. simpl. destruct (Z.ltb_spec (Z.of_nat (length (ready c) + length (editing c))) INPUT_BUF) as [Hlt|Hge]; cycle 1.
  { rewrite bool_decide_eq_true_2 in Hdone by done. wp_pure. apply (Hdone c []); [done|done|by apply in_cons_edited]. }
  rewrite bool_decide_eq_false_2 in Hdone by lia. cbv iota in Hdone.
  set (b' := if b =? 13 then 10 else b) in *. assert (byte b') as Hb' by (unfold b'; by destruct (b =? 13)).
  apply wp_bind. eapply in_cons_echo; [done|done|]. intros s1 Hs1. simpl app in Hs1. wp_pure.
  assert (u8 b' = b') as -> by (apply Z.mod_small; exact Hb').
  destruct (store_spec b' c Hok Hlt) as (G1 & G2 & G3 & G4 & G5).
  apply (in_cons_set (λ s, upd_cs_buf <[Z.to_nat (cs_e s mod INPUT_BUF) := b']> s)) in Hs1.
  apply (in_cons_set (upd_cs_e (λ e, u32 (e + 1)))) in Hs1. change (upd_cs_e _ _) with (store b' c) in Hs1.
  set (s2 := upd_dev _ (upd_dev _ s1)) in *. rewrite (in_cons_c _ _ _ Hs1).
  rewrite (store_full b' c Hok Hlt). fold (ends_line b').
  set (n := Z.of_nat (length (ready c) + length (editing c) + 1)) in *.
  destruct (ends_line b' || bool_decide (n = INPUT_BUF)) eqn:Efin; wp_pure.
  - apply (in_cons_set (upd_cs_w (λ _, cs_e (store b' c)))) in Hs1. change (upd_cs_w _ _) with (finish (store b' c)) in Hs1.
    destruct (finish_spec (store b' c)) as (F1 & F2 & F3); [done|done|simpl in *; lia|].
    destruct Hs1 as (h & m & I1 & I2 & I3). rewrite I3.
    apply (wp_wakeup_inside _ LK_cons me (hs k0)); [by destruct Hrun|done|done|by destruct Hrun|].
    intros h' Hh'. rewrite G4, G5 in F2. apply (Hdone (finish (store b' c)) [b']); [by rewrite F2, F3|done|].
    exists h', m. split_and!; [done|done|]. unfold woken, upd_procs. simpl. rewrite decide_False; [done|]. rewrite F2. intros E%(f_equal length).
    change (d_cons (dev k0)) with c in E. rewrite !length_app in E. cbn [length] in E. lia.
  - apply (Hdone (store b' c) [b']); [by rewrite G4, G5| |by apply in_cons_edited]. apply orb_false_iff in Efin as [E1 _].
    split; [done|done|transitivity n; [apply Z.eq_le_incl, G3|lia]|]. rewrite G5. apply Forall_app. split; [done|by constructor].
Qed.

Lemma backspace_spec b s :
  let c := d_cons (dev k0) in
  cons_ok c → b = C 72 ∨ b = 127 → in_cons c [] s →
  wp (e ← get_cons cs_e; w ← get_cons cs_w;
      when (negb (e =? w)) (set_cons (upd_cs_e (λ e, u32 (e - 1)));; consputc BACKSPACE)) s
    (λ _ s', edit_done (acq LK_cons (hs k0)) b c s').
Proof.
  intros c Hok Hb Hs. assert (b ≠ C 80) as H80 by (by destruct Hb as [-> | ->]). assert (line_step b (ready c) (editing c) =
    (ready c, take (length (editing c) - 1) (editing c), if decide (editing c = []) then [] else rubout)) as El.
  { unfold line_step. by destruct Hb as [-> | ->]. }
  wp_pure. rewrite (in_cons_c _ _ _ Hs). fold (no_edit c). rewrite (no_edit_nil c Hok).
  case_decide as E.
  - rewrite bool_decide_eq_true_2 by done. simpl. wp_pure.
    apply (edit_done_line b c c []); [done|by rewrite El, E|done|by apply in_cons_edited].
  - rewrite bool_decide_eq_false_2 by done. simpl. wp_pure. destruct (rub_spec c Hok E) as (R1 & R2 & R3 & _).
    eapply in_cons_rubout; [by apply (in_cons_set (upd_cs_e _))|]. intros s2 Hs2.
    apply (edit_done_line b c (rub c) rubout); [done|by rewrite El, R2, R3|done|by apply in_cons_edited].
Qed.

Lemma procdump_inside s :
  let c := d_cons (dev k0) in
  cons_ok c → names_ok (procs k0) → in_cons c [] s →
  wp procdump s (λ _ s', edit_done (acq LK_cons (hs k0)) (C 80) c s').
Proof.
  intros c Hok Hn Hs. pose proof (in_cons_can _ _ _ Hs) as Hcan.
  assert (inside LK_cons me (hs s)) as Hin.
  { destruct Hs as (h & m & Hh & _ & ->). exists (hs k0). split; [by destruct Hrun|done]. }
  assert (procs s = procs k0) as Ep by (by destruct Hs as (h & m & _ & _ & ->)).
  eapply wp_mono; [apply procdump_spec|].
  - split; [done| |by apply (inside_ok LK_cons me)]. destruct Hin as (h0 & Hc & He).
    destruct (hs_eq_cpu _ _ He) as (_ & -> & _). unfold the_cpu. change (hart (acq LK_cons h0)) with (hart h0).
    rewrite (acq_cpu _ _ (ca_ok _ _ Hc)). simpl. rewrite (ca_noff _ _ Hc). lia.
  - rewrite Ep. by destruct Hrun.
  - by rewrite Ep.
  - intros ? s' (t & Ht & Hp). exists c, t. rewrite Ep in Ht. split_and!; [|done|].
    + unfold edit_step. by rewrite Z.eqb_refl.
    + apply in_cons_edited; [|done]. exact (in_cons_printed c [] t s s' Hs Hp).
Qed.

Lemma consoleintr_spec b :
  let c := d_cons (dev k0) in
  cons_ok c → byte b → names_ok (procs k0) → wp (consoleintr b) k0 (λ _ k', edit_done (hs k0) b c k').
Proof.
  intros c Hok Hb Hn. pose proof (ru_calm _ _ Hrun) as Hc. unfold consoleintr.
  apply wp_bind, (wp_enter _ me); [done|]. pose proof in_cons_enter as Hs. set (s := upd_hs (acq LK_cons) k0) in *.
  apply wp_bind. eapply (wp_mono _ _ (λ _ s', edit_done (acq LK_cons (hs k0)) b c s')).
  - destruct (Z.eqb_spec b (C 80)) as [->|H80]; [by apply procdump_inside|].
    destruct (Z.eqb_spec b (C 85)) as [->|H85].
    { eapply kill_line_spec; [done|done|]. intros c' s' Hok' Hr He Hs'. eapply edit_done_line; [done| |done|by apply in_cons_edited].
      unfold line_step. by rewrite Z.eqb_refl, Hr, He. }
    destruct (Z.eqb_spec b (C 72)) as [H72|H72]; [|destruct (Z.eqb_spec b 127) as [H127|H127]]; simpl orb; cbv iota.
    + apply backspace_spec; [done|by left|done].
    + apply backspace_spec; [done|by right|done].
    + by apply store_char_spec.
  - intros ? s' (c' & out & Hst & Hok' & h' & m & H1 & H2 & ->).
    apply (wp_leave _ me (hs k0)); [done|done|]. intros h2 Hh2. exists c', out. split_and!; try done.
    by exists h2, m.
Qed.
End consoleintr.
