(* ===== verification/Virtio.v ===== *)
(** * The disk driver (kernel/virtio_disk.c)

    The driver and the device share the descriptors, the avail ring and the used
    ring of [struct disk].  The device works while the driver waits: what it
    does is part of what the rest of the machine does during sleep(). *)

From stdpp Require Import gmap list strings.
From Stdlib Require Import ZArith Lia.
From S2P Require Import Prelude Mem Params FsData DevData Machine Spinlock Sched Sleeplock Bio Uart.
#[local] Open Scope Z_scope.

(** ** Registers and constants of kernel/virtio.h *)

(** The registers and their offsets. *)
Inductive virtio_mmio : Type :=
| VIRTIO_MMIO_MAGIC_VALUE | VIRTIO_MMIO_VERSION | VIRTIO_MMIO_DEVICE_ID
| VIRTIO_MMIO_VENDOR_ID | VIRTIO_MMIO_DEVICE_FEATURES | VIRTIO_MMIO_DRIVER_FEATURES
| VIRTIO_MMIO_GUEST_PAGE_SIZE | VIRTIO_MMIO_QUEUE_SEL | VIRTIO_MMIO_QUEUE_NUM_MAX
| VIRTIO_MMIO_QUEUE_NUM | VIRTIO_MMIO_QUEUE_ALIGN | VIRTIO_MMIO_QUEUE_PFN
| VIRTIO_MMIO_QUEUE_READY | VIRTIO_MMIO_QUEUE_NOTIFY
| VIRTIO_MMIO_INTERRUPT_STATUS | VIRTIO_MMIO_INTERRUPT_ACK | VIRTIO_MMIO_STATUS.
Definition mmio_offset (r : virtio_mmio) : Z :=
  match r with
  | VIRTIO_MMIO_MAGIC_VALUE => 0x000
  | VIRTIO_MMIO_VERSION => 0x004
  | VIRTIO_MMIO_DEVICE_ID => 0x008
  | VIRTIO_MMIO_VENDOR_ID => 0x00c
  | VIRTIO_MMIO_DEVICE_FEATURES => 0x010
  | VIRTIO_MMIO_DRIVER_FEATURES => 0x020
  | VIRTIO_MMIO_GUEST_PAGE_SIZE => 0x028
  | VIRTIO_MMIO_QUEUE_SEL => 0x030
  | VIRTIO_MMIO_QUEUE_NUM_MAX => 0x034
  | VIRTIO_MMIO_QUEUE_NUM => 0x038
  | VIRTIO_MMIO_QUEUE_ALIGN => 0x03c
  | VIRTIO_MMIO_QUEUE_PFN => 0x040
  | VIRTIO_MMIO_QUEUE_READY => 0x044
  | VIRTIO_MMIO_QUEUE_NOTIFY => 0x050
  | VIRTIO_MMIO_INTERRUPT_STATUS => 0x060
  | VIRTIO_MMIO_INTERRUPT_ACK => 0x064
  | VIRTIO_MMIO_STATUS => 0x070
  end.
Coercion mmio_offset : virtio_mmio >-> Z.
#[global] Arguments mmio_offset : simpl never.

(** The features and their bits. *)
Inductive virtio_feature : Type :=
| VIRTIO_BLK_F_RO | VIRTIO_BLK_F_SCSI | VIRTIO_BLK_F_CONFIG_WCE | VIRTIO_BLK_F_MQ
| VIRTIO_F_ANY_LAYOUT | VIRTIO_RING_F_INDIRECT_DESC | VIRTIO_RING_F_EVENT_IDX.
Definition feature_bit (r : virtio_feature) : Z :=
  match r with
  | VIRTIO_BLK_F_RO => 5
  | VIRTIO_BLK_F_SCSI => 7
  | VIRTIO_BLK_F_CONFIG_WCE => 11
  | VIRTIO_BLK_F_MQ => 12
  | VIRTIO_F_ANY_LAYOUT => 27
  | VIRTIO_RING_F_INDIRECT_DESC => 28
  | VIRTIO_RING_F_EVENT_IDX => 29
  end.
Coercion feature_bit : virtio_feature >-> Z.
#[global] Arguments feature_bit : simpl never.

(** The bits of the status register. *)
Inductive virtio_status : Type :=
| VIRTIO_CONFIG_S_ACKNOWLEDGE | VIRTIO_CONFIG_S_DRIVER | VIRTIO_CONFIG_S_DRIVER_OK | VIRTIO_CONFIG_S_FEATURES_OK.
Definition status_bit (b : virtio_status) : Z :=
  match b with
  | VIRTIO_CONFIG_S_ACKNOWLEDGE => 1
  | VIRTIO_CONFIG_S_DRIVER => 2
  | VIRTIO_CONFIG_S_DRIVER_OK => 4
  | VIRTIO_CONFIG_S_FEATURES_OK => 8
  end.
Coercion status_bit : virtio_status >-> Z.
#[global] Arguments status_bit : simpl never.
Definition VRING_DESC_F_NEXT := 1.
Definition VRING_DESC_F_WRITE := 2.
Definition VIRTIO_BLK_T_IN := 0.
Definition VIRTIO_BLK_T_OUT := 1.
Definition BLKREQ_SIZE := 16.

(** Where the linker put [disk.pages]. *)
Class DiskPages := disk_pages : Z.

Section virtio.
Context `{OTH : Others, MIO : Mmio, DPG : DiskPages}.

Definition get_vd {A} (g : vdisk → A) : K A := get_dev (λ d, g (d_vdisk d)).
Definition set_vd (g : vdisk → vdisk) : K unit := set_dev (upd_d_vdisk g).
Definition desc_of (v : vdisk) (i : Z) : vdesc := default desc0 (vd_desc v !! Z.to_nat i).
Definition set_desc (i : Z) (g : vdesc → vdesc) : K unit := set_vd (upd_vd_desc (alter g (Z.to_nat i))).

Definition rd (r : Z) : K Z := v ← reg_read (VIRTIO0 + r); mret (u32 v).
Definition wr (r v : Z) : K unit := reg_write (VIRTIO0 + r) (u32 v).

(** features &= ~(1 << b); the mask is an int, extended to 64 bits. *)
Definition drop_feature (b f : Z) : Z := Z.land f (u64 (Z.lnot (Z.shiftl 1 b))).

Definition virtio_disk_init : K unit :=
  initlock LK_vdisk "virtio_disk";;
  magic ← rd VIRTIO_MMIO_MAGIC_VALUE;
  if negb (magic =? 0x74726976) then panic "could not find virtio disk" else
  version ← rd VIRTIO_MMIO_VERSION;
  if negb (version =? 1) then panic "could not find virtio disk" else
  device ← rd VIRTIO_MMIO_DEVICE_ID;
  if negb (device =? 2) then panic "could not find virtio disk" else
  vendor ← rd VIRTIO_MMIO_VENDOR_ID;
  if negb (vendor =? 0x554d4551) then panic "could not find virtio disk" else
  let status := VIRTIO_CONFIG_S_ACKNOWLEDGE in
  wr VIRTIO_MMIO_STATUS status;;
  let status := Z.lor status VIRTIO_CONFIG_S_DRIVER in
  wr VIRTIO_MMIO_STATUS status;;
  features ← rd VIRTIO_MMIO_DEVICE_FEATURES;
  let features := drop_feature VIRTIO_BLK_F_RO features in
  let features := drop_feature VIRTIO_BLK_F_SCSI features in
  let features := drop_feature VIRTIO_BLK_F_CONFIG_WCE features in
  let features := drop_feature VIRTIO_BLK_F_MQ features in
  let features := drop_feature VIRTIO_F_ANY_LAYOUT features in
  let features := drop_feature VIRTIO_RING_F_EVENT_IDX features in
  let features := drop_feature VIRTIO_RING_F_INDIRECT_DESC features in
  wr VIRTIO_MMIO_DRIVER_FEATURES features;;
  let status := Z.lor status VIRTIO_CONFIG_S_FEATURES_OK in
  wr VIRTIO_MMIO_STATUS status;;
  let status := Z.lor status VIRTIO_CONFIG_S_DRIVER_OK in
  wr VIRTIO_MMIO_STATUS status;;
  wr VIRTIO_MMIO_GUEST_PAGE_SIZE PGSIZE;;
  wr VIRTIO_MMIO_QUEUE_SEL 0;;
  max ← rd VIRTIO_MMIO_QUEUE_NUM_MAX;
  if max =? 0 then panic "virtio disk has no queue 0" else
  if max <? NUM then panic "virtio disk max queue too short" else
  wr VIRTIO_MMIO_QUEUE_NUM NUM;;
  set_vd (λ v, mkVdisk (replicate (Z.to_nat NUM) desc0) 0 (replicate (Z.to_nat NUM) 0) 0
    (replicate (Z.to_nat NUM) 0) (vd_free v) (vd_used_idx v) (vd_info_b v) (vd_info_status v) (vd_ops v));;
  wr VIRTIO_MMIO_QUEUE_PFN (Z.shiftr disk_pages PGSHIFT);;
  loop (λ i,
    if i <? NUM then
      set_vd (upd_vd_free <[Z.to_nat i := 1]>);;
      continue (i + 1)
    else break tt) 0.

Definition alloc_desc : K Z :=
  loop (λ i,
    if i <? NUM then
      f ← get_vd (λ v, default 0 (vd_free v !! Z.to_nat i));
      if nz f then
        set_vd (upd_vd_free <[Z.to_nat i := 0]>);;
        break i
      else continue (i + 1)
    else break (-1)) 0.

Definition free_desc (i : Z) : K unit :=
  if NUM <=? i then panic "free_desc 1" else
  f ← get_vd (λ v, default 0 (vd_free v !! Z.to_nat i));
  if nz f then panic "free_desc 2" else
  set_desc i (upd_vq_addr (λ _, Dma_null));;
  set_desc i (upd_vq_len (λ _, 0));;
  set_desc i (upd_vq_flags (λ _, 0));;
  set_desc i (upd_vq_next (λ _, 0));;
  set_vd (upd_vd_free <[Z.to_nat i := 1]>);;
  wakeup (Some Ch_vdisk).

Definition free_chain (i : Z) : K unit :=
  loop (λ i,
    flag ← get_vd (λ v, vq_flags (desc_of v i));
    nxt ← get_vd (λ v, vq_next (desc_of v i));
    free_desc i;;
    if negb (Z.land flag VRING_DESC_F_NEXT =? 0) then continue nxt else break tt) i.

(** [None] when there are not three free descriptors. *)
Definition alloc3_desc : K (option (Z * Z * Z)) :=
  i0 ← alloc_desc;
  if i0 <? 0 then mret None else
  i1 ← alloc_desc;
  if i1 <? 0 then free_desc i0;; mret None else
  i2 ← alloc_desc;
  if i2 <? 0 then free_desc i0;; free_desc i1;; mret None else
  mret (Some (i0, i1, i2)).

(** The descriptors of a request. *)
Definition format_request (b : nat) (write : bool) (sector i0 i1 i2 : Z) : K unit :=
  set_vd (upd_vd_ops <[Z.to_nat i0 := mkReq (if write then VIRTIO_BLK_T_OUT else VIRTIO_BLK_T_IN) 0 sector]>);;
  set_desc i0 (upd_vq_addr (λ _, Dma_op i0));;
  set_desc i0 (upd_vq_len (λ _, BLKREQ_SIZE));;
  set_desc i0 (upd_vq_flags (λ _, VRING_DESC_F_NEXT));;
  set_desc i0 (upd_vq_next (λ _, i1));;
  set_desc i1 (upd_vq_addr (λ _, Dma_data b));;
  set_desc i1 (upd_vq_len (λ _, BSIZE));;
  set_desc i1 (upd_vq_flags (λ _, if write then 0 else VRING_DESC_F_WRITE));;
  set_desc i1 (upd_vq_flags (λ f, Z.lor f VRING_DESC_F_NEXT));;
  set_desc i1 (upd_vq_next (λ _, i2));;
  set_vd (upd_vd_info_status <[Z.to_nat i0 := 255]>);;
  set_desc i2 (upd_vq_addr (λ _, Dma_status i0));;
  set_desc i2 (upd_vq_len (λ _, 1));;
  set_desc i2 (upd_vq_flags (λ _, VRING_DESC_F_WRITE));;
  set_desc i2 (upd_vq_next (λ _, 0)).

Definition virtio_disk_rw (b : nat) (write : bool) : K unit :=
  blockno ← get_buf b b_blockno;
  let sector := u64 (u32 (blockno * (BSIZE / 512))) in
  acquire LK_vdisk;;
  '(i0, i1, i2) ← loop (λ _ : unit,
    r ← alloc3_desc;
    match r with
    | Some idx => break idx
    | None => sleep Ch_vdisk LK_vdisk;; continue tt
    end) tt;
  format_request b write sector i0 i1 i2;;
  set_buf b (upd_b_disk (λ _, 1));;
  set_vd (upd_vd_info_b <[Z.to_nat i0 := Some b]>);;
  idx ← get_vd vd_avail_idx;
  set_vd (upd_vd_avail_ring <[Z.to_nat (idx mod NUM) := i0]>);;
  set_vd (upd_vd_avail_idx (λ i, u16 (i + 1)));;
  wr VIRTIO_MMIO_QUEUE_NOTIFY 0;;
  loop (λ _ : unit,
    d ← get_buf b b_disk;
    if d =? 1 then sleep (Ch_buf b) LK_vdisk;; continue tt else break tt) tt;;
  set_vd (upd_vd_info_b <[Z.to_nat i0 := None]>);;
  free_chain i0;;
  release LK_vdisk.

(** A null [info[id].b] is a null pointer. *)
Definition virtio_disk_intr : K unit :=
  acquire LK_vdisk;;
  st ← rd VIRTIO_MMIO_INTERRUPT_STATUS;
  wr VIRTIO_MMIO_INTERRUPT_ACK (Z.land st 3);;
  loop (λ _ : unit,
    seen ← get_vd vd_used_idx;
    idx ← get_vd vd_dev_idx;
    if negb (seen =? idx) then
      id ← get_vd (λ v, default 0 (vd_used_ring v !! Z.to_nat (seen mod NUM)));
      status ← get_vd (λ v, default 0 (vd_info_status v !! Z.to_nat id));
      if negb (status =? 0) then panic "virtio_disk_intr status" else
      b ← get_vd (λ v, default None (vd_info_b v !! Z.to_nat id));
      match b with
      | None => null_deref
      | Some b =>
          set_buf b (upd_b_disk (λ _, 0));;
          wakeup (Some (Ch_buf b));;
          set_vd (upd_vd_used_idx (λ i, u16 (i + 1)));;
          continue tt
      end
    else break tt) tt;;
  release LK_vdisk.
End virtio.
