(* ===== verification/VirtioSpec.v ===== *)
(** * The disk driver transfers blocks

    virtio_disk_rw() together with the interrupt handler, the scheduler and a
    device that follows the virtio protocol: the block is transferred, the
    descriptors are free again and the process runs on. *)

From stdpp Require Import gmap list strings.
From Stdlib Require Import ZArith Lia.
From S2P Require Import Prelude Mem Params FsData DevData Machine Spinlock Sched Sleeplock Bio Uart Virtio.
#[local] Open Scope Z_scope.

Ltac wp_vd :=
  lazymatch goal with
  | |- wp (get_vd _) _ _ => apply wp_gets
  | |- wp (set_vd _) _ _ => apply wp_modify
  | |- wp (set_desc _ _) _ _ => apply wp_modify
  | |- wp (get_buf _ _) _ _ => apply wp_gets
  | |- wp (set_buf _ _) _ _ => apply wp_modify
  | |- wp (get_fs _) _ _ => apply wp_gets
  | |- wp (set_fs _) _ _ => apply wp_modify
  | |- wp (rd _) _ _ => unfold rd
  | |- wp (wr _ _) _ _ => unfold wr
  | _ => wp_dev
  end.
Ltac wp_prim ::= wp_vd.

(** ** The device *)

(** A block request as the device finds it, by the layout of the virtio block
    device: a header to read, the data to read or write, a status byte to write. *)
Definition request (v : vdisk) (i : Z) : option (nat * blkreq * Z) :=
  let d0 := desc_of v i in
  let d1 := desc_of v (vq_next d0) in
  let d2 := desc_of v (vq_next d1) in
  match vq_addr d0, vq_addr d1, vq_addr d2 with
  | Dma_op j, Dma_data b, Dma_status st =>
      match vd_ops v !! Z.to_nat j with
      | Some rq =>
          if (vq_len d0 =? BLKREQ_SIZE) && (vq_len d1 =? BSIZE) && (vq_len d2 =? 1) &&
             (vq_flags d0 =? VRING_DESC_F_NEXT) && (vq_flags d2 =? VRING_DESC_F_WRITE) &&
             (vq_flags d1 =? Z.lor (if rq_type rq =? VIRTIO_BLK_T_OUT then 0 else VRING_DESC_F_WRITE) VRING_DESC_F_NEXT)
          then Some (b, rq, st) else None
      | None => None
      end
  | _, _, _ => None
  end.

(** The transfer between the data of buffer [b] and the disk; a block is two sectors. *)
Definition transfer (b : nat) (rq : blkreq) (f : fsys) : fsys :=
  let n := rq_sector rq / 2 in
  if rq_type rq =? VIRTIO_BLK_T_OUT then
    upd_writes (λ ws, ws ++ [(n, b_data (buf_of f b))]) (upd_disk <[n := b_data (buf_of f b)]> f)
  else upd_bcache (alter (upd_b_data (λ _, dget (disk f) n)) b) f.

(** The state after the device has served request [i]. *)
Definition served (i : Z) (b : nat) (rq : blkreq) (st : Z) (k : kernel) : kernel :=
  upd_fs (transfer b rq) (upd_dev (upd_d_vdisk (λ v,
    upd_vd_dev_idx (λ n, u16 (n + 1)) (upd_vd_used_ring <[Z.to_nat (vd_dev_idx v mod NUM) := i]>
      (upd_vd_info_status <[Z.to_nat st := 0]> v)))) k).

(** A device that serves the request at the head of the avail ring. *)
Definition serves (device : K unit) : Prop := ∀ k i b rq st,
  let v := d_vdisk (dev k) in
  vd_avail_idx v = u16 (vd_dev_idx v + 1) → vd_avail_ring v !! Z.to_nat (vd_dev_idx v mod NUM) = Some i →
  request v i = Some (b, rq, st) → device k = Ok tt (served i b rq st k).

(** While process [me] sleeps: the scheduler lets go of it and allows interrupts,
    the device works and raises its interrupt (the hart takes it with interrupts
    off), and the scheduler runs the process again when it is runnable. *)
Definition machine `{Mmio} (device : K unit) (me : nat) : Others :=
  on_hs (set_cpu (upd_cproc (λ _, None)));;
  release (LK_proc me);;
  on_hs intr_on;;
  device;;
  on_hs intr_off;;
  virtio_disk_intr;;
  on_hs intr_on;;
  acquire (LK_proc me);;
  st ← get_proc me p_state;
  if bool_decide (st = RUNNABLE) then
    set_proc me (upd_p_state (λ _, RUNNING));;
    on_hs (set_cpu (upd_cproc (λ _, Some me)))
  else hang.

(** ** The hart while no process runs on it *)

Definition set_cproc (o : option nat) (h : harts) : harts :=
  mkHarts (locks h) (alter (upd_cproc (λ _, o)) (hart h) (cpus h)) (csr h).

Lemma wp_set_cproc o k (Q : unit → kernel → Prop) :
  Q tt (upd_hs (set_cproc o) k) → wp (on_hs (set_cpu (upd_cproc (λ _, o)))) k Q.
Proof. intros HQ. apply wp_on_hs. exact HQ. Qed.
Lemma wp_intr_on k (Q : unit → kernel → Prop) :
  Q tt (upd_hs (upd_csr (upd_sstatus (λ x, Z.lor x SSTATUS_SIE))) k) → wp (on_hs intr_on) k Q.
Proof. intros HQ. apply wp_on_hs. exact HQ. Qed.
Lemma wp_intr_off k (Q : unit → kernel → Prop) :
  Q tt (upd_hs (upd_csr (upd_sstatus (λ x, Z.land x (Z.lnot SSTATUS_SIE)))) k) → wp (on_hs intr_off) k Q.
Proof. intros HQ. apply wp_on_hs. exact HQ. Qed.

(** The hart is as in [h], but runs no process and may have interrupts on. *)
Record idle_hart (h g : harts) : Prop := {
  ih_locks : ∀ lk, lock_of g lk = lock_of h lk;
  ih_cpus : Forall2 cpu_eq (cpus g) (cpus (set_cproc None h));
  ih_csr : ∃ x, csr g = upd_sstatus (λ _, x) (csr h) ∧
    Z.land x (Z.lnot SSTATUS_SIE) = Z.land (sstatus (csr h)) (Z.lnot SSTATUS_SIE);
}.

Section idle_hart.
Context (me : nat) (h : harts) (Hc : calm me h).

Lemma idle_hs_eq g g' : hs_eq g' g → idle_hart h g → idle_hart h g'.
Proof.
  intros [E1 E2 E3] [I1 I2 I3]. split.
  - intros lk. by rewrite E1.
  - by etrans.
  - by rewrite E3.
Qed.

Lemma idle_start g : hs_eq g (set_cproc None h) → idle_hart h g.
Proof.
  intros Hg. apply (idle_hs_eq (set_cproc None h)); [done|]. split; [done|done|].
  exists (sstatus (csr h)). split; [by destruct h as [? ? []]|done].
Qed.

Lemma idle_csr g f :
  (∀ x, Z.land (f x) (Z.lnot SSTATUS_SIE) = Z.land x (Z.lnot SSTATUS_SIE)) →
  idle_hart h g → idle_hart h (upd_csr (upd_sstatus f) g).
Proof.
  intros Hf [I1 I2 (x & I3 & I4)]. split; [done|done|]. exists (f x). split; [|by rewrite Hf].
  simpl. by rewrite I3.
Qed.

Lemma sie_lor_off x : Z.land (Z.lor x SSTATUS_SIE) (Z.lnot SSTATUS_SIE) = Z.land x (Z.lnot SSTATUS_SIE).
Proof. rewrite Z.land_lor_distr_l. rewrite Z.land_lnot_diag. by rewrite Z.lor_0_r. Qed.
Lemma sie_land_off x : Z.land (Z.land x (Z.lnot SSTATUS_SIE)) (Z.lnot SSTATUS_SIE) = Z.land x (Z.lnot SSTATUS_SIE).
Proof. by rewrite <-Z.land_assoc, Z.land_diag. Qed.

Lemma idle_cpu g : idle_hart h g → the_cpu g = mkCpu None 0 (intena (the_cpu g)) ∧ (hart g < length (cpus g))%nat ∧ hart g = hart h.
Proof.
  intros [I1 I2 (x & I3 & I4)]. destruct Hc as [C1 C2 C3 C4].
  assert (hart g = hart h) as Eh by (unfold hart; by rewrite I3).
  destruct (lookup_lt_is_Some_2 _ _ (ho_cpu _ C1)) as [c Ec].
  assert (the_cpu h = c) as Ec' by (unfold the_cpu; by rewrite Ec).
  assert (cpus (set_cproc None h) !! hart h = Some (upd_cproc (λ _, None) c)) as E2.
  { unfold set_cproc. simpl. by rewrite list_lookup_alter_eq, Ec. }
  destruct (Forall2_lookup_r _ _ _ _ _ I2 E2) as (d & Ed & E3 & E4 & E5).
  assert (the_cpu g = d) as Ed' by (unfold the_cpu; by rewrite Eh, Ed).
  split_and!; [|rewrite Eh; by eapply lookup_lt_Some|done]. rewrite Ed'. destruct d. simpl in *. rewrite E3, E4, <-C2, Ec'. done.
Qed.

Lemma idle_ok g : idle_hart h g → hart_ok g ∧ ∀ lk, lock_free lk g.
Proof.
  intros Hi. destruct (idle_cpu g Hi) as (E1 & E2 & E3). split.
  - split; [done|rewrite E1; simpl; lia|]. rewrite E1. simpl. lia.
  - intros lk. unfold lock_free. rewrite (ih_locks _ _ Hi). apply Hc.
Qed.

(** The process runs again. *)
Lemma idle_back lk g g' :
  idle_hart h g → hs_eq g' (acq lk g) →
  hs_eq (set_intena (if sie h then 1 else 0) (set_cproc (Some me) g')) (acq lk h).
Proof.
  intros Hi Hg. destruct (idle_cpu g Hi) as (E1 & E2 & E3). destruct (idle_ok g Hi) as [Hok _]. pose proof Hc as [C1 C2 C3 C4].
  pose proof (hs_eq_hart _ _ Hg) as Eh. change (hart (acq lk g)) with (hart g) in Eh. rewrite E3 in Eh.
  pose proof (Forall2_length _ _ _ (he_cpus _ _ Hg)) as L1. pose proof (Forall2_length _ _ _ (ih_cpus _ _ Hi)) as L2.
  unfold acq, set_cproc in L1, L2. simpl in L1, L2. rewrite length_alter in L1, L2. split.
  - intros l. change (lock_of (set_intena _ _) l) with (lock_of g' l).
    rewrite (he_locks _ _ Hg), !lock_of_acq, !(ih_locks _ _ Hi), E3. done.
  - unfold set_intena, set_cproc. simpl. change (hart (mkHarts _ _ (csr g'))) with (hart g'). rewrite Eh.
    apply Forall2_same_length_lookup_2; [rewrite !length_alter; lia|]. intros i x y Hx Hy.
    destruct (decide (hart h = i)) as [<-|Hne].
    + pose proof (acq_cpu lk h C1) as Hy'. unfold acq in Hy'. simpl in Hy'. rewrite Hy in Hy'. injection Hy' as ->.
      rewrite !list_lookup_alter_eq in Hx. destruct (cpus g' !! hart h) as [d|] eqn:Ed; [|done]. injection Hx as <-.
      pose proof (hs_eq_cpu _ _ Hg) as (_ & Hn & _). rewrite (the_cpu_acq _ _ Hok), E1 in Hn. simpl in Hn.
      assert (the_cpu g' = d) as Et by (unfold the_cpu; by rewrite Eh, Ed).
      rewrite Et in Hn. unfold cpu_eq. simpl. rewrite C2, Hn, C4. by split_and!.
    + rewrite !list_lookup_alter_ne in Hx by done. unfold acq in Hy. simpl in Hy. rewrite list_lookup_alter_ne in Hy by done.
      destruct (Forall2_lookup_l _ _ _ _ _ (he_cpus _ _ Hg) Hx) as (z & Hz & Hxz).
      unfold acq in Hz. simpl in Hz. rewrite E3, list_lookup_alter_ne in Hz by done.
      destruct (Forall2_lookup_l _ _ _ _ _ (ih_cpus _ _ Hi) Hz) as (w & Hw & Hzw).
      unfold set_cproc in Hw. simpl in Hw. rewrite list_lookup_alter_ne in Hw by done. rewrite Hy in Hw. injection Hw as <-. by etrans.
  - simpl. rewrite (he_csr _ _ Hg). simpl. destruct (ih_csr _ _ Hi) as (x & -> & Hx). unfold upd_sstatus. simpl. by rewrite Hx.
Qed.
End idle_hart.

(** ** Descriptors *)

(** No request is outstanding: all descriptors are free. *)
Record vd_idle (v : vdisk) : Prop := {
  vi_desc : length (vd_desc v) = 8%nat;
  vi_free : vd_free v = replicate 8 1;
  vi_avail : vd_avail_idx v = vd_used_idx v;
  vi_used : vd_dev_idx v = vd_used_idx v;
  vi_idx : 0 ≤ vd_used_idx v < 2 ^ 16;
  vi_avail_ring : length (vd_avail_ring v) = 8%nat;
  vi_used_ring : length (vd_used_ring v) = 8%nat;
  vi_info_b : length (vd_info_b v) = 8%nat;
  vi_info_status : length (vd_info_status v) = 8%nat;
  vi_ops : length (vd_ops v) = 8%nat;
}.

Definition with_vd (v : vdisk) (k : kernel) : kernel := upd_dev (upd_d_vdisk (λ _, v)) k.

(** alloc_desc() takes the first free descriptor. *)
Lemma alloc_desc_spec (j : nat) k Q :
  let v := d_vdisk (dev k) in
  (j < 8)%nat → (∀ i, (i < j)%nat → vd_free v !! i = Some 0) → vd_free v !! j = Some 1 →
  Q (Z.of_nat j) (upd_dev (upd_d_vdisk (upd_vd_free <[j := 0]>)) k) → wp alloc_desc k Q.
Proof.
  intros v Hj Hlow Hfree HQ. unfold alloc_desc.
  apply (wp_loop _ (λ i s, s = k ∧ 0 ≤ i ≤ Z.of_nat j) (λ i _, 8 - i)); [|split; [done|lia]|lia].
  intros i s [-> Hi]. unfold NUM. rewrite (proj2 (Z.ltb_lt _ _)) by lia. wp_pure. fold v.
  destruct (decide (i = Z.of_nat j)) as [->|Hne].
  - rewrite Nat2Z.id, Hfree. change (nz (default 0 (Some 1))) with true. cbv iota. wp_pure. exact HQ.
  - rewrite Hlow by lia. change (nz (default 0 (Some 0))) with false. cbv iota. wp_pure. split; [split; [done|lia]|lia].
Qed.

(** ** The interrupt handler *)

Section intr.
Context `{MIO : Mmio} (me : nat) (h : harts) (Hc : calm me h).

(** The request of buffer [b] is complete. *)
Definition completed (b : nat) (m : list (Z * option Z)) (k : kernel) : kernel :=
  upd_procs (wake_all (Some (Ch_buf b)) None) (upd_fs (upd_bcache (alter (upd_b_disk (λ _, 0)) b))
    (upd_dev (λ d, upd_d_vdisk (upd_vd_used_idx (λ i, u16 (i + 1))) (upd_d_mmio (λ _, m) d)) k)).

Lemma u16_next n : 0 ≤ n < 2 ^ 16 → n ≠ u16 (n + 1).
Proof. intros Hn E. unfold u16 in E. destruct (decide (n = 65535)) as [->|Hne]; [done|]. rewrite Z.mod_small in E; lia. Qed.

Lemma virtio_disk_intr_spec k b i :
  let v := d_vdisk (dev k) in
  idle_hart h (hs k) → length (procs k) = Z.to_nat NPROC → 0 ≤ vd_used_idx v < 2 ^ 16 →
  vd_dev_idx v = u16 (vd_used_idx v + 1) → vd_used_ring v !! Z.to_nat (vd_used_idx v mod NUM) = Some i →
  vd_info_status v !! Z.to_nat i = Some 0 → vd_info_b v !! Z.to_nat i = Some (Some b) →
  wp virtio_disk_intr k (λ _ k', ∃ g m, idle_hart h g ∧ k' = upd_hs (λ _, g) (completed b m k)).
Proof.
  intros v Hi Hl Hn Hd Hr Hs Hb. destruct (idle_ok me h Hc _ Hi) as [Hok Hfree]. unfold virtio_disk_intr.
  apply wp_bind, wp_acquire; [done|apply Hfree|]. wp_pure.
  match goal with |- wp _ ?s _ => set (k1 := s) end. set (m := d_mmio (dev k1)).
  apply (wp_loop _ (λ _ s, s = k1 ∨ ∃ g, hs_eq g (acq LK_vdisk (hs k)) ∧ s = upd_hs (λ _, g) (completed b m k))
    (λ _ s, if decide (vd_used_idx (d_vdisk (dev s)) = vd_used_idx v) then 1 else 0)).
  - intros _ s [->|(g & Hg & ->)]; wp_pure.
    + change (d_vdisk (dev k1)) with v. rewrite Hd, (proj2 (Z.eqb_neq _ _) (u16_next _ Hn)). simpl negb. cbv iota. wp_pure.
      change (d_vdisk (dev k1)) with v. rewrite Hr. simpl default. rewrite Hs. change (default 0 (Some 0) =? 0) with true. simpl negb. cbv iota.
      wp_pure. change (d_vdisk (dev k1)) with v. rewrite Hb. simpl default. cbv iota. wp_pure.
      apply (wp_wakeup _ None).
      * simpl. apply acq_hart_ok; [done|]. destruct (idle_cpu me h Hc _ Hi) as (-> & _). simpl. lia.
      * simpl. rewrite the_cpu_acq by done. simpl. by destruct (idle_cpu me h Hc _ Hi) as (-> & _).
      * intros p. simpl. by apply acq_lock_free, Hfree.
      * done.
      * intros k' (g & Hg & ->). wp_pure. split; [right; by exists g|]. simpl. fold v.
        rewrite decide_False, decide_True; [lia|done|]. intros E. by apply (u16_next _ Hn).
    + simpl. fold v. rewrite Hd, Z.eqb_refl. simpl. wp_pure.
      apply (wp_release_eq _ (hs k)); [done|apply Hfree|done|]. intros g' Hg'. exists g', m. split; [by eapply idle_hs_eq|done].
  - by left.
  - case_decide; lia.
Qed.
End intr.

(** ** Asleep until the request is complete *)

Section machine.
Context `{MIO : Mmio} (me : nat) (h : harts) (Hc : calm me h) (device : K unit) (Hdev : serves device).

(** Request [i], for buffer [b], is the only one that the device has not served. *)
Record queued (v : vdisk) (i : Z) (b : nat) (rq : blkreq) : Prop := {
  qd_idx : 0 ≤ vd_used_idx v < 2 ^ 16;
  qd_dev : vd_dev_idx v = vd_used_idx v;
  qd_avail : vd_avail_idx v = u16 (vd_used_idx v + 1);
  qd_ring : vd_avail_ring v !! Z.to_nat (vd_used_idx v mod NUM) = Some i;
  qd_request : request v i = Some (b, rq, i);
  qd_info : vd_info_b v !! Z.to_nat i = Some (Some b);
  qd_used : length (vd_used_ring v) = 8%nat;
  qd_status : (Z.to_nat i < length (vd_info_status v))%nat;
}.

Lemma set_cproc_hs g g' o : hs_eq g g' → hs_eq (set_cproc o g) (set_cproc o g').
Proof.
  intros He. pose proof (hs_eq_hart _ _ He) as Eh. destruct He as [E1 E2 E3]. split; [done| |done].
  unfold set_cproc. simpl. rewrite Eh. apply Forall2_same_length_lookup_2; [rewrite !length_alter; by eapply Forall2_length|].
  intros j x y Hx Hy. destruct (decide (hart g' = j)) as [<-|Hne].
  - rewrite list_lookup_alter_eq in Hx, Hy. apply fmap_Some in Hx as (c & Hx & ->). apply fmap_Some in Hy as (d & Hy & ->).
    destruct (Forall2_lookup_lr _ _ _ _ _ _ E2 Hx Hy) as (F1 & F2 & F3). by split_and!.
  - rewrite list_lookup_alter_ne in Hx, Hy by done. by eapply Forall2_lookup_lr.
Qed.

Lemma set_cproc_acq o lk : hs_eq (set_cproc o (acq lk h)) (acq lk (set_cproc o h)).
Proof.
  split; [done| |done]. unfold set_cproc, acq. simpl. change (hart (mkHarts _ _ _)) with (hart h).
  rewrite !list_alter_alter_eq. apply Forall2_same_length_lookup_2; [by rewrite !length_alter|].
  intros j x y. destruct (decide (hart h = j)) as [<-|Hne].
  - rewrite !list_lookup_alter_eq. destruct (cpus h !! hart h); [|done]. intros [= <-] [= <-]. done.
  - rewrite !list_lookup_alter_ne by done. intros ->. by intros [= ->].
Qed.

Lemma machine_spec k b i rq p :
  hs_eq (hs k) (acq (LK_proc me) h) → length (procs k) = Z.to_nat NPROC →
  procs k !! me = Some p → p_state p = SLEEPING → p_chan p = Some (Ch_buf b) → queued (d_vdisk (dev k)) i b rq →
  wp (machine device me) k (λ _ k', ∃ g m, hs_eq (set_intena (if sie h then 1 else 0) g) (acq (LK_proc me) h) ∧
    k' = upd_hs (λ _, g) (upd_procs (alter (upd_p_state (λ _, RUNNING)) me) (completed b m (served i b rq i k)))).
Proof.
  intros Hh Hl Hp Hst Hch [Q1 Q2 Q3 Q4 Q5 Q6 Q7 Q8]. pose proof Hc as [C1 C2 C3 C4]. unfold machine, others.
  set (hi := set_cproc None h). assert (idle_hart h hi) as Hi by (by eapply idle_start).
  destruct (idle_ok me h Hc _ Hi) as [Hoki Hfi].
  apply wp_bind, wp_set_cproc. apply wp_bind, (wp_release_eq _ hi); [done|apply Hfi| |].
  { simpl. etrans; [|apply set_cproc_acq]. exact (set_cproc_hs _ _ None Hh). }
  intros g1 Hg1. assert (idle_hart h g1) as Hi1 by (by eapply idle_hs_eq).
  apply wp_bind, wp_intr_on. apply wp_bind.
  eassert (idle_hart h _) as Hi2 by (eapply (idle_csr _ _ (λ x, Z.lor x SSTATUS_SIE)); [apply sie_lor_off|exact Hi1]).
  match goal with |- wp _ ?s _ => set (k1 := s) end.
  unfold wp at 1. rewrite (Hdev k1 i b rq i); [|change (d_vdisk (dev k1)) with (d_vdisk (dev k)); rewrite ?Q2; done..].
  apply wp_bind, wp_intr_off. apply wp_bind.
  eassert (idle_hart h _) as Hi3 by (eapply (idle_csr _ _ (λ x, Z.land x (Z.lnot SSTATUS_SIE))); [apply sie_land_off|exact Hi2]).
  match goal with |- wp _ ?s _ => set (k2 := s) end.
  eapply wp_mono; [apply (virtio_disk_intr_spec me h Hc k2 b i); [exact Hi3|done|done| | | |done]|].
  - simpl. by rewrite Q2.
  - simpl. rewrite Q2. apply list_lookup_insert_eq. rewrite Q7. pose proof (Z.mod_pos_bound (vd_used_idx (d_vdisk (dev k))) NUM ltac:(done)).
    unfold NUM in *. lia.
  - simpl. by apply list_lookup_insert_eq.
  - intros [] k3 (g & m & Hg & ->). apply wp_bind, wp_intr_on.
    eassert (idle_hart h _) as Hi4 by (eapply (idle_csr _ _ (λ x, Z.lor x SSTATUS_SIE)); [apply sie_lor_off|exact Hg]).
    destruct (idle_ok me h Hc _ Hi4) as [Hok4 Hf4].
    apply wp_bind, wp_acquire; [exact Hok4|apply Hf4|]. wp_pure.
    match goal with |- context [proc_of ?s me] => assert (p_state (proc_of s me) = RUNNABLE) as Er end.
    { unfold proc_of. simpl. unfold wake_all. rewrite list_lookup_imap, Hp. simpl. unfold wake_one.
      by rewrite Hst, Hch, !bool_decide_eq_true_2. }
    rewrite Er, bool_decide_eq_true_2 by done. wp_pure. apply wp_set_cproc.
    eexists _, m. split; [eapply (idle_back me h Hc); [exact Hi4|reflexivity]|]. reflexivity.
Qed.
End machine.

(** ** Giving the descriptors back *)

Section free.
Context `{MIO : Mmio} (me : nat) (h : harts) (Hc : calm me h) (k : kernel).

(** Inside the critical section, with the driver's state [v]; processes may have
    been woken. *)
Definition driving (v : vdisk) (s : kernel) : Prop :=
  ∃ g ps, hs_eq g (acq LK_vdisk h) ∧ Forall2 woke (procs k) ps ∧ s = upd_hs (λ _, g) (upd_procs (λ _, ps) (with_vd v k)).

Lemma driving_vd v s : driving v s → d_vdisk (dev s) = v.
Proof. by intros (g & ps & _ & _ & ->). Qed.

Lemma driving_start v : hs_eq (hs k) (acq LK_vdisk h) → d_vdisk (dev k) = v → driving v k.
Proof. intros Hk <-. exists (hs k), (procs k). split_and!; [done|done|]. by destruct k as [? ? ? ? ? ? ? ? ? ? []]. Qed.

Context (Hl : length (procs k) = Z.to_nat NPROC).

Definition freed (i : nat) (v : vdisk) : vdisk :=
  upd_vd_free <[i := 1]> (upd_vd_desc (alter (λ _, mkDesc Dma_null 0 0 0) i) v).

Lemma clear_desc i v :
  upd_vd_desc (alter (upd_vq_next (λ _, 0)) i) (upd_vd_desc (alter (upd_vq_flags (λ _, 0)) i)
    (upd_vd_desc (alter (upd_vq_len (λ _, 0)) i) (upd_vd_desc (alter (upd_vq_addr (λ _, Dma_null)) i) v))) =
  upd_vd_desc (alter (λ _, mkDesc Dma_null 0 0 0) i) v.
Proof. unfold upd_vd_desc. simpl. by rewrite !list_alter_alter_eq. Qed.

Lemma free_desc_spec (i : nat) v s Q :
  driving v s → (i < 8)%nat → vd_free v !! i = Some 0 → (∀ s', driving (freed i v) s' → Q tt s') →
  wp (free_desc (Z.of_nat i)) s Q.
Proof.
  intros Hs Hi Hf HQ. unfold free_desc, NUM. rewrite (proj2 (Z.leb_gt _ _)) by lia. wp_pure.
  rewrite (driving_vd _ _ Hs), Nat2Z.id, Hf. change (nz (default 0 (Some 0))) with false. cbv iota. wp_pure.
  rewrite Nat2Z.id. destruct Hs as (g & ps & H1 & H2 & ->).
  apply (wp_wakeup_inside _ LK_vdisk me h); [done|done|done|simpl; by rewrite <-(Forall2_length _ _ _ H2)|].
  intros g' Hg'. apply HQ. exists g', (wake_all (Some Ch_vdisk) (Some me) ps).
  split_and!; [done|etrans; [done|apply woke_wake_all]|].
  unfold freed. by rewrite <-clear_desc.
Qed.

(** A chain of three descriptors. *)
Lemma free_chain_spec (i0 i1 i2 : nat) v s Q :
  driving v s → (i0 < 8)%nat → (i1 < 8)%nat → (i2 < 8)%nat → i0 ≠ i1 → i0 ≠ i2 → i1 ≠ i2 →
  vd_free v !! i0 = Some 0 → vd_free v !! i1 = Some 0 → vd_free v !! i2 = Some 0 →
  Z.land (vq_flags (desc_of v (Z.of_nat i0))) VRING_DESC_F_NEXT ≠ 0 → vq_next (desc_of v (Z.of_nat i0)) = Z.of_nat i1 →
  Z.land (vq_flags (desc_of v (Z.of_nat i1))) VRING_DESC_F_NEXT ≠ 0 → vq_next (desc_of v (Z.of_nat i1)) = Z.of_nat i2 →
  Z.land (vq_flags (desc_of v (Z.of_nat i2))) VRING_DESC_F_NEXT = 0 →
  (∀ s', driving (freed i2 (freed i1 (freed i0 v))) s' → Q tt s') → wp (free_chain (Z.of_nat i0)) s Q.
Proof.
  intros Hs L0 L1 L2 N01 N02 N12 F0 F1 F2 G0 X0 G1 X1 G2 HQ. unfold free_chain.
  assert (∀ i j v, i ≠ j → vd_free (freed i v) !! j = vd_free v !! j ∧ desc_of (freed i v) (Z.of_nat j) = desc_of v (Z.of_nat j)) as Hfr.
  { intros i j v' Hne. unfold desc_of. simpl. rewrite Nat2Z.id, list_lookup_insert_ne, list_lookup_alter_ne by done. done. }
  apply (wp_loop _ (λ x s, x = Z.of_nat i0 ∧ driving v s ∨ x = Z.of_nat i1 ∧ driving (freed i0 v) s ∨
      x = Z.of_nat i2 ∧ driving (freed i1 (freed i0 v)) s)
    (λ x _, if decide (x = Z.of_nat i0) then 2 else if decide (x = Z.of_nat i1) then 1 else 0)); [|by left|repeat case_decide; lia].
  intros x s1 [[-> H1]|[[-> H1]|[-> H1]]]; wp_pure; rewrite (driving_vd _ _ H1).
  - eapply free_desc_spec; [done|done|done|]. intros s2 H2. apply Z.eqb_neq in G0. rewrite G0, X0. wp_pure.
    split; [right; by left|]. rewrite decide_False by lia. rewrite !decide_True by lia. lia.
  - destruct (Hfr i0 i1 v N01) as [E1 E2]. rewrite E2.
    eapply free_desc_spec; [done|done|by rewrite E1|]. intros s2 H2. apply Z.eqb_neq in G1. rewrite G1, X1. wp_pure.
    split; [right; by right|]. repeat case_decide; lia.
  - destruct (Hfr i1 i2 (freed i0 v) N12) as [E1 E2]. destruct (Hfr i0 i2 v N02) as [E3 E4]. rewrite E2, E4.
    eapply free_desc_spec; [done|done|by rewrite E1, E3|]. intros s2 H2. rewrite G2. wp_pure. by apply HQ.
Qed.
End free.

(** ** Submitting a request *)

Definition the_request (write : bool) (sector : Z) : blkreq :=
  mkReq (if write then VIRTIO_BLK_T_OUT else VIRTIO_BLK_T_IN) 0 sector.

(** The descriptors 0, 1 and 2 are taken for a request. *)
Definition formatted (b : nat) (write : bool) (sector : Z) (v : vdisk) : vdisk :=
  upd_vd_info_status <[0%nat := 255]> (upd_vd_ops <[0%nat := the_request write sector]>
    (upd_vd_desc (λ l, alter (λ _, mkDesc (Dma_status 0) 1 VRING_DESC_F_WRITE 0) 2%nat
      (alter (λ _, mkDesc (Dma_data b) BSIZE (Z.lor (if write then 0 else VRING_DESC_F_WRITE) VRING_DESC_F_NEXT) 2) 1%nat
        (alter (λ _, mkDesc (Dma_op 0) BLKREQ_SIZE VRING_DESC_F_NEXT 1) 0%nat l))) v)).

(** The assignments of format_request(), one after the other. *)
Lemma formatted_steps b write sector v :
  let set i g := upd_vd_desc (alter g i) in
  formatted b write sector v =
  set 2%nat (upd_vq_next (λ _, 0)) (set 2%nat (upd_vq_flags (λ _, VRING_DESC_F_WRITE))
  (set 2%nat (upd_vq_len (λ _, 1)) (set 2%nat (upd_vq_addr (λ _, Dma_status 0))
  (upd_vd_info_status <[0%nat := 255]>
  (set 1%nat (upd_vq_next (λ _, 2)) (set 1%nat (upd_vq_flags (λ f, Z.lor f VRING_DESC_F_NEXT))
  (set 1%nat (upd_vq_flags (λ _, if write then 0 else VRING_DESC_F_WRITE))
  (set 1%nat (upd_vq_len (λ _, BSIZE)) (set 1%nat (upd_vq_addr (λ _, Dma_data b))
  (set 0%nat (upd_vq_next (λ _, 1)) (set 0%nat (upd_vq_flags (λ _, VRING_DESC_F_NEXT))
  (set 0%nat (upd_vq_len (λ _, BLKREQ_SIZE)) (set 0%nat (upd_vq_addr (λ _, Dma_op 0))
  (upd_vd_ops <[0%nat := the_request write sector]> v)))))))))))))).
Proof.
  assert (∀ f g w, upd_vd_desc f (upd_vd_desc g w) = upd_vd_desc (λ l, f (g l)) w) as Hdesc by done.
  assert (∀ f g w, upd_vd_desc f (upd_vd_info_status g w) = upd_vd_info_status g (upd_vd_desc f w)) as Hstatus by done.
  assert (∀ f g w, upd_vd_desc f (upd_vd_ops g w) = upd_vd_ops g (upd_vd_desc f w)) as Hops by done.
  intros set. subst set. cbv beta. rewrite !Hdesc, Hstatus, Hdesc, Hops. unfold formatted.
  do 2 f_equal. unfold upd_vd_desc. f_equal. by rewrite !list_alter_alter_eq.
Qed.

Section submit.
Context `{MIO : Mmio}.

Lemma format_request_spec b write sector s Q :
  Q tt (with_vd (formatted b write sector (d_vdisk (dev s))) s) → wp (format_request b write sector 0 1 2) s Q.
Proof.
  intros HQ. unfold format_request. wp_pure. rewrite formatted_steps in HQ. exact HQ.
Qed.
End submit.

(** * A block transfer, from request to completion

    virtio_disk_rw() with its interrupt handler does what the buffer cache
    relies on: the synchronous transfer [disk_rw] of one block. *)

Ltac wp_prim ::= wp_vd.

(** ** The state of the driver along a request *)

Definition taken : list Z := [0; 0; 0; 1; 1; 1; 1; 1].

(** The request is in the avail ring. *)
Definition submitted (b : nat) (write : bool) (sector : Z) (v : vdisk) : vdisk :=
  upd_vd_avail_idx (λ i, u16 (i + 1)) (upd_vd_avail_ring <[Z.to_nat (vd_avail_idx v mod NUM) := 0]>
    (upd_vd_info_b <[0%nat := Some b]> (formatted b write sector (upd_vd_free (λ _, taken) v)))).

(** The device has served it and the handler has seen it. *)
Definition finished (v : vdisk) : vdisk :=
  upd_vd_used_idx (λ i, u16 (i + 1)) (upd_vd_dev_idx (λ n, u16 (n + 1))
    (upd_vd_used_ring <[Z.to_nat (vd_dev_idx v mod NUM) := 0]> (upd_vd_info_status <[0%nat := 0]> v))).

Section states.
Context (v : vdisk) (Hv : vd_idle v) (b : nat) (write : bool) (sector : Z).

Lemma submitted_desc :
  ∃ l, vd_desc (submitted b write sector v) = mkDesc (Dma_op 0) BLKREQ_SIZE VRING_DESC_F_NEXT 1 ::
    mkDesc (Dma_data b) BSIZE (Z.lor (if write then 0 else VRING_DESC_F_WRITE) VRING_DESC_F_NEXT) 2 ::
    mkDesc (Dma_status 0) 1 VRING_DESC_F_WRITE 0 :: l.
Proof.
  pose proof (vi_desc _ Hv) as L. unfold submitted. cbn [vd_desc upd_vd_avail_idx upd_vd_avail_ring upd_vd_info_b].
  unfold formatted. cbn [vd_desc upd_vd_info_status upd_vd_ops upd_vd_desc upd_vd_free].
  destruct (vd_desc v) as [|d0 [|d1 [|d2 l]]]; [done..|]. by exists l.
Qed.

Lemma submitted_queued : queued (submitted b write sector v) 0 b (the_request write sector).
Proof.
  pose proof Hv as [I1 I2 I3 I4 I5 I6 I7 I8 I9 I10]. destruct submitted_desc as [l El].
  split; [exact I5|exact I4|simpl; by rewrite I3| | |by simpl; apply list_lookup_insert_eq; rewrite I8; lia|exact I7|].
  - simpl. rewrite I3. apply list_lookup_insert_eq. rewrite I6. pose proof (Z.mod_pos_bound (vd_used_idx v) NUM eq_refl). unfold NUM in *. lia.
  - unfold request. assert (desc_of (submitted b write sector v) 0 = mkDesc (Dma_op 0) BLKREQ_SIZE VRING_DESC_F_NEXT 1) as -> by (unfold desc_of; by rewrite El). change (Z.to_nat 0) with 0%nat. cbn [default lookup list_lookup vq_next vq_addr vq_len vq_flags].
    assert (desc_of (submitted b write sector v) 1 =
      mkDesc (Dma_data b) BSIZE (Z.lor (if write then 0 else VRING_DESC_F_WRITE) VRING_DESC_F_NEXT) 2) as -> by (unfold desc_of; by rewrite El).
    cbn [vq_next vq_addr]. assert (desc_of (submitted b write sector v) 2 = mkDesc (Dma_status 0) 1 VRING_DESC_F_WRITE 0) as ->
      by (unfold desc_of; by rewrite El).
    cbn [vq_next vq_addr]. change (vd_ops (submitted b write sector v)) with (<[0%nat := the_request write sector]> (vd_ops v)).
    rewrite list_lookup_insert_eq by (rewrite I10; lia). by destruct write.
  - simpl. rewrite length_insert, I9. lia.
Qed.

(** The descriptors are given back. *)
Definition given_back : vdisk :=
  freed 2 (freed 1 (freed 0 (upd_vd_info_b <[0%nat := None]> (finished (submitted b write sector v))))).

Lemma given_back_idle : vd_idle given_back.
Proof.
  pose proof Hv as [I1 I2 I3 I4 I5 I6 I7 I8 I9 I10]. split; simpl; rewrite ?length_alter, ?length_insert, ?I4; try done.
  - by rewrite I3.
  - unfold u16. apply Z.mod_pos_bound. done.
Qed.
End states.

(** ** The transfer *)

(** What [disk_rw] does to the file system state. *)
Definition transferred (b : nat) (write : bool) (f : fsys) : fsys :=
  let n := b_blockno (buf_of f b) in
  if write then upd_writes (λ ws, ws ++ [(n, b_data (buf_of f b))]) (upd_disk <[n := b_data (buf_of f b)]> f)
  else upd_bcache (alter (upd_b_data (λ _, dget (disk f) n)) b) f.

Lemma disk_rw_eq b write k : disk_rw b write k = Ok tt (upd_fs (transferred b write) k).
Proof. by destruct write. Qed.

Definition sector_of (f : fsys) (b : nat) : Z := u64 (u32 (b_blockno (buf_of f b) * (BSIZE / 512))).

Lemma marked_data b f : b_data (buf_of (upd_bcache (alter (upd_b_disk (λ _, 1)) b) f) b) = b_data (buf_of f b).
Proof. unfold buf_of. cbn [bcache upd_bcache]. rewrite list_lookup_alter_eq. by destruct (bcache f !! b). Qed.

(** Marking the buffer as owned by the disk and unmarking it leaves the rest. *)
Lemma marked_same b (l : list buf) (g : buf → buf) :
  b_disk (default buf0 (l !! b)) = 0 → (∀ x, b_disk x = 0 → upd_b_disk (λ _, 0) (g (upd_b_disk (λ _, 1) x)) = g x) →
  alter (upd_b_disk (λ _, 0)) b (alter g b (alter (upd_b_disk (λ _, 1)) b l)) = alter g b l.
Proof.
  intros Hd Hg. rewrite !list_alter_alter_eq. apply list_eq. intros i.
  destruct (decide (b = i)) as [<-|Hne]; [|by rewrite !list_lookup_alter_ne].
  rewrite !list_lookup_alter_eq. destruct (l !! b) as [x|]; [|done]. simpl in *. unfold compose. by rewrite Hg.
Qed.

Lemma transfer_marked b write f :
  b_disk (buf_of f b) = 0 → 0 ≤ b_blockno (buf_of f b) < 2 ^ 31 →
  upd_bcache (alter (upd_b_disk (λ _, 0)) b)
    (transfer b (the_request write (sector_of f b)) (upd_bcache (alter (upd_b_disk (λ _, 1)) b) f)) = transferred b write f.
Proof.
  intros Hd Hn. unfold transfer, transferred, sector_of. rewrite marked_data. unfold buf_of in Hd. set (n := b_blockno (buf_of f b)) in *.
  cbn [rq_sector rq_type the_request]. change (BSIZE / 512) with 2.
  assert (u64 (u32 (n * 2)) / 2 = n) as ->.
  { unfold u64, u32. rewrite (Z.mod_small (n * 2)) by lia. rewrite Z.mod_small by lia. apply Z.div_mul. lia. }
  assert (∀ g s, g (bcache s) = bcache s → upd_bcache g s = s) as Hsame by (intros g [] E; unfold upd_bcache; cbn in *; by rewrite E).
  destruct write.
  - change (VIRTIO_BLK_T_OUT =? VIRTIO_BLK_T_OUT) with true. cbv iota.
    match goal with |- _ = ?s => etrans; [|apply (Hsame (λ l, alter (upd_b_disk (λ _, 0)) b (alter (upd_b_disk (λ _, 1)) b l)) s)]; [done|] end.
    cbn [bcache upd_writes upd_disk]. pose proof (marked_same b (bcache f) (λ x, x) Hd) as E.
    rewrite !(list_alter_id (λ x, x)) in E by done. apply E. intros [] Hx. cbn in Hx. by subst.
  - change (VIRTIO_BLK_T_IN =? VIRTIO_BLK_T_OUT) with false. cbv iota. cbn [disk upd_bcache].
    pose proof (marked_same b (bcache f) (upd_b_data (λ _, dget (disk f) n)) Hd) as E.
    unfold upd_bcache. cbn [bcache disk]. rewrite E; [done|]. intros [] Hx. cbn in Hx. by subst.
Qed.

(** ** The process while it waits *)

(** It slept on the buffer, was woken and runs again. *)
Definition resumed (b me : nat) (ps : list proc) : list proc :=
  alter (upd_p_chan (λ _, None)) me (alter (upd_p_state (λ _, RUNNING)) me
    (wake_all (Some (Ch_buf b)) None (alter (upd_p_state (λ _, SLEEPING)) me (alter (upd_p_chan (λ _, Some (Ch_buf b))) me ps)))).

Lemma resumed_woke b me ps p :
  ps !! me = Some p → p_state p = RUNNING → p_chan p = None → Forall2 woke ps (resumed b me ps).
Proof.
  intros Hp Hst Hch. unfold resumed.
  apply Forall2_same_length_lookup_2; [unfold wake_all; by rewrite !length_alter, length_imap, !length_alter|].
  intros i x y Hx Hy. destruct (decide (me = i)) as [<-|Hne].
  - rewrite Hp in Hx. injection Hx as <-. left. revert Hy. rewrite !list_lookup_alter_eq. unfold wake_all.
    rewrite list_lookup_imap, !list_lookup_alter_eq, Hp. simpl. unfold wake_one. simpl. rewrite !bool_decide_eq_true_2 by done.
    simpl. intros [= <-]. destruct p. simpl in *. by subst.
  - revert Hy. rewrite !list_lookup_alter_ne by done. unfold wake_all. rewrite list_lookup_imap, !list_lookup_alter_ne, Hx by done.
    simpl. intros [= <-]. apply woke_wake_one.
Qed.

Section rw.
Context `{MIO : Mmio, DPG : DiskPages} (device : K unit) (Hdev : serves device) (me : nat).
#[local] Instance oth : Others := machine device me.

Lemma alloc3_desc_spec k Q :
  vd_free (d_vdisk (dev k)) = replicate 8 1 →
  Q (Some (0, 1, 2)) (with_vd (upd_vd_free (λ _, taken) (d_vdisk (dev k))) k) → wp alloc3_desc k Q.
Proof.
  intros Hf HQ. unfold alloc3_desc.
  apply wp_bind, (alloc_desc_spec 0); [lia|intros; lia|by rewrite Hf|]. cbn. apply wp_bind.
  apply (alloc_desc_spec 1); [lia| |simpl; by rewrite Hf|].
  { intros [|] Hi; [simpl; by rewrite Hf|lia]. }
  cbn. apply wp_bind. apply (alloc_desc_spec 2); [lia| |simpl; by rewrite Hf|].
  { intros [|[|]] Hi; [simpl; by rewrite Hf..|lia]. }
  cbn. wp_pure. revert HQ. unfold with_vd, upd_dev, upd_d_vdisk, upd_vd_free. cbn. by rewrite Hf.
Qed.
(** The request is complete when the process leaves the waiting loop. *)
Definition done_with (b : nat) (rq : blkreq) (g : harts) (m : list (Z * option Z)) (k : kernel) : kernel :=
  upd_hs (λ _, g) (upd_procs (resumed b me) (upd_fs (λ f, upd_bcache (alter (upd_b_disk (λ _, 0)) b) (transfer b rq f))
    (upd_dev (λ d, upd_d_vdisk finished (upd_d_mmio (λ _, m) d)) k))).

Lemma wait_spec h k b rq p Q :
  calm me h → hs_eq (hs k) (acq LK_vdisk h) → length (procs k) = Z.to_nat NPROC →
  procs k !! me = Some p → queued (d_vdisk (dev k)) 0 b rq →
  (b < length (bcache (fs k)))%nat → b_disk (buf_of (fs k) b) = 1 →
  (∀ g m, hs_eq g (acq LK_vdisk h) → Q tt (done_with b rq g m k)) →
  wp (loop (λ _ : unit, d ← get_buf b b_disk; if d =? 1 then sleep (Ch_buf b) LK_vdisk;; continue tt else break tt) tt) k Q.
Proof.
  intros Hc Hk Hl Hp Hq Hb Hd HQ.
  assert (∀ g m, b_disk (buf_of (fs (done_with b rq g m k)) b) = 0) as Hz.
  { intros g m. unfold buf_of. simpl. rewrite list_lookup_alter_eq.
    destruct (bcache (transfer b rq (fs k)) !! b) eqn:E; [done|]. exfalso. apply lookup_ge_None in E.
    unfold transfer in E. destruct (rq_type rq =? _); cbn in E; rewrite ?length_alter in E; lia. }
  apply (wp_loop _ (λ _ s, s = k ∨ ∃ g m, hs_eq g (acq LK_vdisk h) ∧ s = done_with b rq g m k)
    (λ _ s, b_disk (buf_of (fs s) b))); [|by left|lia].
  intros _ s [->|(g & m & Hg & ->)]; wp_pure; [|rewrite Hz; wp_pure; by apply HQ].
  rewrite Hd. change (1 =? 1) with true. cbv iota. apply wp_bind, (wp_sleep _ _ me h); [done|done|done|].
  intros h1 Hh1. set (ka := asleep (Ch_buf b) me k h1). set (pa := upd_p_state (λ _, SLEEPING) (upd_p_chan (λ _, Some (Ch_buf b)) p)).
  assert (length (procs ka) = Z.to_nat NPROC) as Hla by (cbn [ka asleep procs upd_hs upd_procs]; by rewrite !length_alter).
  assert (procs ka !! me = Some pa) as Hpa by (cbn [ka asleep procs upd_hs upd_procs]; by rewrite !list_lookup_alter_eq, Hp).
  change others with (machine device me). eapply wp_mono.
  - exact (machine_spec me h Hc device Hdev ka b 0 rq pa Hh1 Hla Hpa eq_refl eq_refl Hq).
  - intros [] k' (g & m & Hg & ->). split; [done|]. intros h2 Hh2. wp_pure.
    split; [right; exists h2, m; split; [exact Hh2|reflexivity]|]. change (0 ≤ b_disk (buf_of (fs (done_with b rq h2 m k)) b) < 1). rewrite Hz. lia.
Qed.

(** The chain that is given back. *)
Lemma finished_chain v b write sector :
  vd_idle v → let w := upd_vd_info_b <[0%nat := None]> (finished (submitted b write sector v)) in
  vd_free w = taken ∧ desc_of w 0 = mkDesc (Dma_op 0) BLKREQ_SIZE VRING_DESC_F_NEXT 1 ∧
  desc_of w 1 = mkDesc (Dma_data b) BSIZE (Z.lor (if write then 0 else VRING_DESC_F_WRITE) VRING_DESC_F_NEXT) 2 ∧
  desc_of w 2 = mkDesc (Dma_status 0) 1 VRING_DESC_F_WRITE 0.
Proof.
  intros Hv w. destruct (submitted_desc v Hv b write sector) as [l El].
  assert (∀ u, vd_free (upd_vd_info_b <[0%nat := None]> (finished u)) = vd_free u) as Hf by reflexivity.
  assert (∀ u, vd_desc (upd_vd_info_b <[0%nat := None]> (finished u)) = vd_desc u) as Hd by reflexivity.
  unfold w, desc_of. rewrite Hf, Hd, El. split_and!; reflexivity.
Qed.

Lemma virtio_disk_rw_spec k b write p :
  running me k → vd_idle (d_vdisk (dev k)) → procs k !! me = Some p → p_state p = RUNNING → p_chan p = None →
  (b < length (bcache (fs k)))%nat → b_disk (buf_of (fs k) b) = 0 → 0 ≤ b_blockno (buf_of (fs k) b) < 2 ^ 31 →
  wp (virtio_disk_rw b write) k (λ _ k', kquiet k k' ∧ vd_idle (d_vdisk (dev k')) ∧ fs k' = transferred b write (fs k)).
Proof.
  intros [Hc Hl] Hv Hp Hst Hch Hb Hd Hn. pose proof Hc as [C1 C2 C3 C4]. set (v := d_vdisk (dev k)) in *.
  set (sector := sector_of (fs k) b). unfold virtio_disk_rw. wp_pure.
  change (u64 (u32 (b_blockno (buf_of (fs k) b) * (BSIZE / 512)))) with sector.
  apply wp_acquire; [done|apply C3|]. wp_pure.
  apply (wp_loop _ (λ _ s, s = upd_hs (acq LK_vdisk) k) (λ _ _, 0)); [|done|lia]. intros _ s ->.
  apply wp_bind, alloc3_desc_spec; [apply Hv|]. wp_pure. apply format_request_spec. wp_pure.
  match goal with |- wp _ ?s _ => assert (∃ d, d_vdisk d = submitted b write sector v ∧
    s = upd_dev (λ _, d) (upd_fs (upd_bcache (alter (upd_b_disk (λ _, 1)) b)) (upd_hs (acq LK_vdisk) k))) as (d & Ed & ->) end.
  { eexists. split; [|reflexivity]. reflexivity. }
  match goal with |- wp _ ?s _ => set (ks := s) end.
  apply (wait_spec (hs k) ks b (the_request write sector) p).
  - exact Hc.
  - reflexivity.
  - exact Hl.
  - exact Hp.
  - cbn. rewrite Ed. exact (submitted_queued v Hv b write sector).
  - cbn [ks fs]. cbn. by rewrite length_alter.
  - unfold buf_of. cbn. rewrite list_lookup_alter_eq. by destruct (lookup_lt_is_Some_2 _ _ Hb) as [x ->].
  - intros g m Hg. wp_pure. change (Z.to_nat 0) with 0%nat.
    match goal with |- wp _ ?s _ => set (kd := s) end.
    assert (Forall2 woke (procs k) (procs kd)) as Hps by exact (resumed_woke b me _ p Hp Hst Hch).
    destruct (finished_chain v b write sector Hv) as (Ef & E0 & E1 & E2).
    rewrite <-Ed in Ef, E0, E1, E2. set (w := upd_vd_info_b <[0%nat := None]> (finished (d_vdisk d))) in *.
    apply (free_chain_spec me (hs k) Hc kd (eq_trans (eq_sym (Forall2_length _ _ _ Hps)) Hl) 0 1 2 w);
      [|lia|lia|lia|done|done|done|by rewrite Ef..| | | | | |].
    + exact (driving_start _ kd w Hg eq_refl).
    + change (Z.of_nat 0) with 0. by rewrite E0.
    + change (Z.of_nat 0) with 0. by rewrite E0.
    + change (Z.of_nat 1) with 1. rewrite E1. by destruct write.
    + change (Z.of_nat 1) with 1. by rewrite E1.
    + change (Z.of_nat 2) with 2. by rewrite E2.
    + intros s' (g' & ps & Hg' & Hps' & ->). apply (wp_release_eq _ (hs k)); [done|apply C3|exact Hg'|]. intros h' Hh'.
      split_and!.
      * split; [exact Hh'|exact (transitivity Hps Hps')|reflexivity..].
      * cbn [d_vdisk dev w]. unfold w. rewrite Ed. exact (given_back_idle v Hv b write sector).
      * exact (transfer_marked b write (fs k) Hd Hn).
Qed.
End rw.
