(* ===== verification/Fs.v ===== *)
(** * The file system (kernel/fs.c)

    One definition per function of fs.c over the kernel state.  An inode
    pointer is an index into [itable.inode]; paths and names are the bytes of
    the C strings. *)

From stdpp Require Import gmap list strings.
From Stdlib Require Import ZArith Lia.
From S2P Require Import Prelude Mem Str Params FsData Machine Spinlock Sched Sleeplock Bio Log.
From S2P Require Import Kalloc Vm.
#[local] Open Scope Z_scope.

(** ** Objects *)

Definition inode_of (f : fsys) (i : nat) : inode := default inode0 (itable f !! i).
Definition get_inode {A} (i : nat) (g : inode → A) : K A := get_fs (λ f, g (inode_of f i)).
Definition set_inode (i : nat) (g : inode → inode) : K unit := set_fs (upd_itable (alter g i)).

(** ip->addrs[i] *)
Definition get_addr (ip : nat) (i : Z) : K Z :=
  get_inode ip (λ x, default 0 (i_addrs x !! Z.to_nat i)).
Definition set_addr (ip : nat) (i v : Z) : K unit :=
  set_inode ip (upd_i_addrs <[Z.to_nat i := v]>).

(** struct superblock, as it lies in block 1. *)
Definition sb_decode (d : block) : superblock :=
  mkSb (bld 4 0 d) (bld 4 4 d) (bld 4 8 d) (bld 4 12 d) (bld 4 16 d) (bld 4 20 d) (bld 4 24 d)
    (bld 4 28 d).

(** struct dinode number [s] of a block of inodes. *)
Definition di_off (s : Z) : Z := DINODE_SIZE * s.
Definition di_type (s : Z) (d : block) : Z := s16 (bld 2 (di_off s) d).
Definition di_major (s : Z) (d : block) : Z := s16 (bld 2 (di_off s + 2) d).
Definition di_minor (s : Z) (d : block) : Z := s16 (bld 2 (di_off s + 4) d).
Definition di_nlink (s : Z) (d : block) : Z := s16 (bld 2 (di_off s + 6) d).
Definition di_size (s : Z) (d : block) : Z := bld 4 (di_off s + 8) d.
Definition di_addrs (s : Z) (d : block) : list Z :=
  (λ i, bld 4 (di_off s + 12 + 4 * i) d) <$> seqZ 0 (NDIRECT + 1).
(** dip->addrs = addrs *)
Fixpoint di_set_addrs (s i : Z) (addrs : list Z) (d : block) : block :=
  match addrs with
  | [] => d
  | a :: addrs' => di_set_addrs s (i + 1) addrs' (bst 4 (di_off s + 12 + 4 * i) a d)
  end.

(** [struct dirent]: 2 bytes of inode number, then the name. *)
Definition de_inum (de : list Z) : Z := bld 2 0 de.
Definition de_name (de : list Z) : list Z := drop 2 de.
Definition mk_dirent (inum : Z) (name : list Z) : list Z := le_bytes 2 inum ++ name.

(** string.c on byte lists; past the end of a C string there are zeros. *)
Fixpoint strncmp_l (n : nat) (p q : list Z) : Z :=
  match n with
  | O => 0
  | S n' =>
      let a := default 0 (head p) in
      let b := default 0 (head q) in
      if nz a && (a =? b) then strncmp_l n' (tail p) (tail q) else a - b
  end.
Fixpoint strncpy_l (n : nat) (t : list Z) : list Z :=
  match n with
  | O => []
  | S n' =>
      let c := default 0 (head t) in
      if nz c then c :: strncpy_l n' (tail t) else replicate n 0
  end.

Section fs_defs.
Context `{OTH : Others, LNK : !Linker, KOB : !Kobj}.

(** ** Blocks *)

Definition readsb (dev : Z) : K unit :=
  bp ← bread (u32 dev) 1;
  d ← get_buf bp b_data;
  set_fs (upd_sb (λ _, sb_decode d));;
  brelse bp.

Definition fsinit (dev : Z) : K unit :=
  readsb dev;;
  s ← get_fs sb;
  if negb (sb_magic s =? FSMAGIC) then panic "invalid file system" else
  initlog dev s.

Definition bzero (dev bno : Z) : K unit :=
  bp ← bread (u32 dev) (u32 bno);
  set_buf bp (upd_b_data (λ _, zero_block));;
  log_write bp;;
  brelse bp.

(** The inner loop of balloc(): a free bit of the bitmap block [bp], that
    stands for the blocks from [b] on. *)
Definition balloc_bit (dev b : Z) (bp : nat) : K (option Z) :=
  loop (λ bi,
    size ← get_fs (λ f, sb_size (sb f));
    if (bi <? BPB) && (u32 (b + bi) <? size) then
      let m := Z.shiftl 1 (bi mod 8) in
      d ← get_buf bp b_data;
      let v := bld 1 (bi / 8) d in
      if Z.land v m =? 0 then
        set_buf bp (upd_b_data (bst 1 (bi / 8) (Z.lor v m)));;
        log_write bp;;
        brelse bp;;
        bzero (s32 dev) (b + bi);;
        break (Some (u32 (b + bi)))
      else continue (bi + 1)
    else break None) 0.

Definition balloc (dev : Z) : K Z :=
  loop (λ b,
    s ← get_fs sb;
    if u32 b <? sb_size s then
      bp ← bread dev (BBLOCK b s);
      r ← balloc_bit dev b bp;
      match r with
      | Some a => break a
      | None => brelse bp;; continue (b + BPB)
      end
    else panic "balloc: out of blocks") 0.

Definition bfree (dev b : Z) : K unit :=
  s ← get_fs sb;
  bp ← bread (u32 dev) (BBLOCK b s);
  let bi := b mod BPB in
  let m := Z.shiftl 1 (bi mod 8) in
  d ← get_buf bp b_data;
  let v := bld 1 (bi / 8) d in
  if Z.land v m =? 0 then panic "freeing free block" else
  set_buf bp (upd_b_data (bst 1 (bi / 8) (Z.land v (Z.lnot m))));;
  log_write bp;;
  brelse bp.

(** ** Inodes *)

Definition iinit : K unit :=
  initlock LK_itable "itable";;
  loop (λ i,
    if Z.of_nat i <? NINODE then initsleeplock (SL_inode i) "inode";; continue (S i)
    else break tt) 0%nat.

(** The loop of iget(): the entry of the inode, or else the first free one. *)
Definition iget_scan (dev inum : Z) : K (nat + option nat) :=
  loop (λ '(i, empty),
    if Z.of_nat i <? NINODE then
      ip ← get_inode i id;
      if (0 <? i_ref ip) && (i_dev ip =? dev) && (i_inum ip =? inum) then
        set_inode i (upd_i_ref (λ r, r + 1));;
        release LK_itable;;
        break (inl i)
      else
        let empty := match empty with
                     | None => if i_ref ip =? 0 then Some i else None
                     | Some _ => empty
                     end in
        continue (S i, empty)
    else break (inr empty)) (0%nat, None).

Definition iget (dev inum : Z) : K nat :=
  acquire LK_itable;;
  r ← iget_scan dev inum;
  match r with
  | inl i => mret i
  | inr None => panic "iget: no inodes"
  | inr (Some i) =>
      set_inode i (upd_i_dev (λ _, dev));;
      set_inode i (upd_i_inum (λ _, inum));;
      set_inode i (upd_i_ref (λ _, 1));;
      set_inode i (upd_i_valid (λ _, 0));;
      release LK_itable;;
      mret i
  end.

Definition ialloc (dev type : Z) : K nat :=
  loop (λ inum,
    s ← get_fs sb;
    if inum <? sb_ninodes s then
      bp ← bread dev (IBLOCK inum s);
      let sl := inum mod IPB in
      d ← get_buf bp b_data;
      if di_type sl d =? 0 then
        set_buf bp (upd_b_data
          (splice (Z.to_nat (di_off sl)) (replicate (Z.to_nat DINODE_SIZE) 0)));;
        set_buf bp (upd_b_data (bst 2 (di_off sl) type));;
        log_write bp;;
        brelse bp;;
        ip ← iget dev inum;
        break ip
      else brelse bp;; continue (inum + 1)
    else panic "ialloc: no inodes") 1.

Definition iupdate (ip : nat) : K unit :=
  s ← get_fs sb;
  dev ← get_inode ip i_dev;
  inum ← get_inode ip i_inum;
  bp ← bread dev (IBLOCK inum s);
  let sl := inum mod IPB in
  x ← get_inode ip id;
  set_buf bp (upd_b_data (bst 2 (di_off sl) (i_type x)));;
  set_buf bp (upd_b_data (bst 2 (di_off sl + 2) (i_major x)));;
  set_buf bp (upd_b_data (bst 2 (di_off sl + 4) (i_minor x)));;
  set_buf bp (upd_b_data (bst 2 (di_off sl + 6) (i_nlink x)));;
  set_buf bp (upd_b_data (bst 4 (di_off sl + 8) (i_size x)));;
  set_buf bp (upd_b_data (di_set_addrs sl 0 (i_addrs x)));;
  log_write bp;;
  brelse bp.

Definition idup (ip : nat) : K nat :=
  acquire LK_itable;;
  set_inode ip (upd_i_ref (λ r, r + 1));;
  release LK_itable;;
  mret ip.

Definition ilock (ip : option nat) : K unit :=
  match ip with
  | None => panic "ilock"
  | Some ip =>
      ref ← get_inode ip i_ref;
      if ref <? 1 then panic "ilock" else
      acquiresleep (SL_inode ip);;
      valid ← get_inode ip i_valid;
      when (valid =? 0) (
        s ← get_fs sb;
        dev ← get_inode ip i_dev;
        inum ← get_inode ip i_inum;
        bp ← bread dev (IBLOCK inum s);
        let sl := inum mod IPB in
        d ← get_buf bp b_data;
        set_inode ip (upd_i_type (λ _, di_type sl d));;
        set_inode ip (upd_i_major (λ _, di_major sl d));;
        set_inode ip (upd_i_minor (λ _, di_minor sl d));;
        set_inode ip (upd_i_nlink (λ _, di_nlink sl d));;
        set_inode ip (upd_i_size (λ _, di_size sl d));;
        set_inode ip (upd_i_addrs (λ _, di_addrs sl d));;
        brelse bp;;
        set_inode ip (upd_i_valid (λ _, 1));;
        type ← get_inode ip i_type;
        if type =? 0 then panic "ilock: no type" else mret tt)
  end.

Definition iunlock (ip : option nat) : K unit :=
  match ip with
  | None => panic "iunlock"
  | Some ip =>
      h ← holdingsleep (SL_inode ip);
      if negb h then panic "iunlock" else
      ref ← get_inode ip i_ref;
      if ref <? 1 then panic "iunlock" else
      releasesleep (SL_inode ip)
  end.

(** ** Inode content *)

Definition bmap (ip : nat) (bn : Z) : K Z :=
  dev ← get_inode ip i_dev;
  if bn <? NDIRECT then
    addr ← get_addr ip bn;
    if addr =? 0 then addr ← balloc dev; set_addr ip bn addr;; mret addr
    else mret addr
  else
  let bn := bn - NDIRECT in
  if bn <? NINDIRECT then
    addr ← get_addr ip NDIRECT;
    addr ← (if addr =? 0 then addr ← balloc dev; set_addr ip NDIRECT addr;; mret addr
            else mret addr);
    bp ← bread dev addr;
    addr ← get_buf bp (λ b, bld 4 (4 * bn) (b_data b));
    addr ← (if addr =? 0 then
              addr ← balloc dev;
              set_buf bp (upd_b_data (bst 4 (4 * bn) addr));;
              log_write bp;;
              mret addr
            else mret addr);
    brelse bp;;
    mret addr
  else panic "bmap: out of range".

Definition itrunc (ip : nat) : K unit :=
  dev ← get_inode ip i_dev;
  loop (λ i,
    if i <? NDIRECT then
      a ← get_addr ip i;
      when (nz a) (bfree (s32 dev) a;; set_addr ip i 0);;
      continue (i + 1)
    else break tt) 0;;
  ind ← get_addr ip NDIRECT;
  when (nz ind) (
    bp ← bread dev ind;
    loop (λ j,
      if j <? NINDIRECT then
        a ← get_buf bp (λ b, bld 4 (4 * j) (b_data b));
        when (nz a) (bfree (s32 dev) a);;
        continue (j + 1)
      else break tt) 0;;
    brelse bp;;
    ind ← get_addr ip NDIRECT;
    bfree (s32 dev) ind;;
    set_addr ip NDIRECT 0);;
  set_inode ip (upd_i_size (λ _, 0));;
  iupdate ip.

Definition iput (ip : nat) : K unit :=
  acquire LK_itable;;
  x ← get_inode ip id;
  when ((i_ref x =? 1) && nz (i_valid x) && (i_nlink x =? 0)) (
    acquiresleep (SL_inode ip);;
    release LK_itable;;
    itrunc ip;;
    set_inode ip (upd_i_type (λ _, 0));;
    iupdate ip;;
    set_inode ip (upd_i_valid (λ _, 0));;
    releasesleep (SL_inode ip);;
    acquire LK_itable);;
  set_inode ip (upd_i_ref (λ r, r - 1));;
  release LK_itable.

Definition iunlockput (ip : nat) : K unit :=
  iunlock (Some ip);;
  iput ip.

(** struct stat, as it is copied to the user: [dev], [ino], [type], [nlink] and
    (after 4 bytes of padding) [size]. *)
Definition stati (ip : nat) : K (list Z) :=
  x ← get_inode ip id;
  mret (le_bytes 4 (i_dev x) ++ le_bytes 4 (i_inum x) ++ le_bytes 2 (i_type x) ++
        le_bytes 2 (i_nlink x) ++ replicate 4 0 ++ le_bytes 8 (i_size x)).

Definition readi (ip : nat) (user_dst dst off n : Z) : K Z :=
  size ← get_inode ip i_size;
  if (size <? off) || (u32 (off + n) <? off) then mret 0 else
  let n := if size <? u32 (off + n) then size - off else n in
  loop (λ '(tot, off, dst),
    if tot <? n then
      dev ← get_inode ip i_dev;
      a ← bmap ip (off / BSIZE);
      bp ← bread dev a;
      let m := Z.min (n - tot) (BSIZE - off mod BSIZE) in
      d ← get_buf bp b_data;
      r ← object_out user_dst dst (take (Z.to_nat m) (drop (Z.to_nat (off mod BSIZE)) d));
      if r =? -1 then brelse bp;; break (s32 (-1)) else
      brelse bp;;
      continue (u32 (tot + m), u32 (off + m), u64 (dst + m))
    else break (s32 tot)) (0, off, dst).

(** The loop of writei(): the final [tot] and [off]. *)
Definition writei_loop (ip : nat) (user_src src off n : Z) : K (Z * Z) :=
  loop (λ '(tot, off, src),
    if tot <? n then
      dev ← get_inode ip i_dev;
      a ← bmap ip (off / BSIZE);
      bp ← bread dev a;
      let m := Z.min (n - tot) (BSIZE - off mod BSIZE) in
      d ← get_buf bp b_data;
      put_bytes bdata (take (Z.to_nat m) (drop (Z.to_nat (off mod BSIZE)) d));;
      '(r, bs) ← object_in user_src src m;
      set_buf bp (upd_b_data (splice (Z.to_nat (off mod BSIZE)) bs));;
      if r =? -1 then brelse bp;; break (tot, off) else
      log_write bp;;
      brelse bp;;
      continue (u32 (tot + m), u32 (off + m), u64 (src + m))
    else break (tot, off)) (0, off, src).

Definition writei (ip : nat) (user_src src off n : Z) : K Z :=
  size ← get_inode ip i_size;
  if (size <? off) || (u32 (off + n) <? off) then mret (-1) else
  if MAXFILE * BSIZE <? u32 (off + n) then mret (-1) else
  '(tot, off) ← writei_loop ip user_src src off n;
  size ← get_inode ip i_size;
  when (size <? off) (set_inode ip (upd_i_size (λ _, off)));;
  iupdate ip;;
  mret (s32 tot).

(** ** Directories *)

Definition namecmp (s t : list Z) : Z := strncmp_l (Z.to_nat DIRSIZ) s t.

(** readi(dp, 0, (uint64)&de, off, sizeof(de)) != sizeof(de), and the entry. *)
Definition read_dirent (dp : nat) (off : Z) : K (bool * list Z) :=
  r ← readi dp 0 kloc off DIRENT_SIZE;
  de ← get_bytes kloc (Z.to_nat DIRENT_SIZE);
  mret (r =? DIRENT_SIZE, de).

(** The entry with the name, and its offset. *)
Definition dirlookup (dp : nat) (name : list Z) : K (option (nat * Z)) :=
  type ← get_inode dp i_type;
  if negb (type =? T_DIR) then panic "dirlookup not DIR" else
  loop (λ off,
    size ← get_inode dp i_size;
    if off <? size then
      '(ok, de) ← read_dirent dp off;
      if negb ok then panic "dirlookup read" else
      if de_inum de =? 0 then continue (u32 (off + DIRENT_SIZE)) else
      if namecmp name (de_name de) =? 0 then
        dev ← get_inode dp i_dev;
        ip ← iget dev (de_inum de);
        break (Some (ip, off))
      else continue (u32 (off + DIRENT_SIZE))
    else break None) 0.

(** The second loop of dirlink(): the offset of a free entry, or the end. *)
Definition dirlink_slot (dp : nat) : K Z :=
  loop (λ off,
    size ← get_inode dp i_size;
    if u32 off <? size then
      '(ok, de) ← read_dirent dp (u32 off);
      if negb ok then panic "dirlink read" else
      if de_inum de =? 0 then break off else continue (off + DIRENT_SIZE)
    else break off) 0.

Definition dirlink (dp : nat) (name : list Z) (inum : Z) : K Z :=
  r ← dirlookup dp name;
  match r with
  | Some (ip, _) => iput ip;; mret (-1)
  | None =>
      off ← dirlink_slot dp;
      put_bytes kloc (mk_dirent (u16 inum) (strncpy_l (Z.to_nat DIRSIZ) name));;
      n ← writei dp 0 kloc (u32 off) DIRENT_SIZE;
      if negb (n =? DIRENT_SIZE) then panic "dirlink" else mret 0
  end.
End fs_defs.

(** ** Paths

    [path] is the bytes of the string, without the terminating NUL; [name] is
    the array of DIRSIZ bytes the caller gave. *)

Definition SLASH := 47.

Fixpoint skip_slashes (path : list Z) : list Z :=
  match path with
  | c :: path' => if c =? SLASH then skip_slashes path' else path
  | [] => []
  end.
(** The characters up to the next slash, and the rest. *)
Fixpoint path_elem (path : list Z) : list Z * list Z :=
  match path with
  | c :: path' =>
      if c =? SLASH then ([], path)
      else let '(s, rest) := path_elem path' in (c :: s, rest)
  | [] => ([], [])
  end.

Definition skipelem (path name : list Z) : option (list Z * list Z) :=
  match skip_slashes path with
  | [] => None
  | path =>
      let '(s, rest) := path_elem path in
      let name := if DIRSIZ <=? Z.of_nat (length s)
                  then splice 0 (take (Z.to_nat DIRSIZ) s) name
                  else <[length s := 0]> (splice 0 s name) in
      Some (skip_slashes rest, name)
  end.

Section path_defs.
Context `{OTH : Others, LNK : !Linker, KOB : !Kobj}.

(** The result is the inode, if any, and the final contents of [name]. *)
Definition namex (path : list Z) (nameiparent : Z) (name : list Z) : K (option nat * list Z) :=
  ip ← (if default 0 (head path) =? SLASH then iget ROOTDEV ROOTINO
        else p ← curproc;
             cwd ← get_proc p p_cwd;
             match cwd with Some c => idup c | None => null_deref end);
  loop (λ '(path, name, ip),
    match skipelem path name with
    | None =>
        if nz nameiparent then iput ip;; break (None, name) else break (Some ip, name)
    | Some (path, name) =>
        ilock (Some ip);;
        type ← get_inode ip i_type;
        if negb (type =? T_DIR) then iunlockput ip;; break (None, name) else
        if nz nameiparent && bool_decide (path = []) then
          iunlock (Some ip);; break (Some ip, name)
        else
        next ← dirlookup ip name;
        match next with
        | None => iunlockput ip;; break (None, name)
        | Some (next, _) => iunlockput ip;; continue (path, name, next)
        end
    end) (path, name, ip).

Definition namei (path : list Z) : K (option nat) :=
  '(ip, _) ← namex path 0 (replicate (Z.to_nat DIRSIZ) 0);
  mret ip.

Definition nameiparent (path name : list Z) : K (option nat * list Z) := namex path 1 name.
End path_defs.
