(* ===== verification/FsAlloc.v ===== *)
(** * The block allocator of the file system

    The free-block bitmap as a predicate [used] on block numbers, what balloc()
    and bfree() do to it, and what they leave alone. *)

From stdpp Require Import gmap list strings.
From Stdlib Require Import ZArith Lia.
From S2P Require Import Prelude Mem Params FsData Machine Spinlock Sched Sleeplock Ring Bio.
From S2P Require Import BioSpec Log LogDisk LogSpec LogCommit LogTheorems FsTxn Kalloc Vm Fs.
#[local] Open Scope Z_scope.
Ltac wp_prim ::= wp_log.

(** ** Bits of a byte *)

Lemma testbit_set v i j :
  0 ≤ i < 8 → 0 ≤ j < 8 →
  Z.testbit (Z.lor v (Z.shiftl 1 i) mod 256 ^ Z.of_nat 1) j = Z.testbit v j || (i =? j).
Proof.
  intros Hi Hj. change (256 ^ Z.of_nat 1) with (2 ^ 8). rewrite Z.mod_pow2_bits_low by lia.
  rewrite Z.lor_spec, Z.shiftl_1_l, Z.pow2_bits_eqb by lia. done.
Qed.

Lemma testbit_clear v i j :
  0 ≤ i < 8 → 0 ≤ j < 8 →
  Z.testbit (Z.land v (Z.lnot (Z.shiftl 1 i)) mod 256 ^ Z.of_nat 1) j = Z.testbit v j && negb (i =? j).
Proof.
  intros Hi Hj. change (256 ^ Z.of_nat 1) with (2 ^ 8). rewrite Z.mod_pow2_bits_low by lia.
  rewrite Z.land_spec, Z.lnot_spec, Z.shiftl_1_l, Z.pow2_bits_eqb by lia. done.
Qed.

Lemma land_bit_zero v i : 0 ≤ i → (Z.land v (Z.shiftl 1 i) =? 0) = negb (Z.testbit v i).
Proof.
  intros Hi. rewrite <-(nz_land_bit v i Hi). unfold nz. by rewrite negb_involutive.
Qed.

(** ** The bitmap *)

Section bitmap.
Context (s : superblock).

(** The byte and bit of block [b] in its bitmap block. *)
Definition bm_byte (b : Z) : Z := b mod BPB / 8.
Definition bit_of (d : block) (b : Z) : bool := Z.testbit (bld 1 (bm_byte b) d) (b mod 8).

Definition used (V : view) (b : Z) : bool := bit_of (V (BBLOCK b s)) b.

(** A block number of the file system. *)
Definition blkno (b : Z) : Prop := 0 ≤ b < sb_size s.

(** Where the bitmap lies. *)
Record bmap_layout : Prop := {
  bl_size : 0 < sb_size s < 2 ^ 31;
  bl_start : 0 ≤ sb_bmapstart s;
  bl_end : sb_bmapstart s + sb_size s / BPB < 2 ^ 31;
}.

Lemma BBLOCK_eq b : bmap_layout → blkno b → BBLOCK b s = b / BPB + sb_bmapstart s.
Proof.
  intros [] []. unfold BBLOCK. apply u32_small.
  assert (0 ≤ b / BPB ≤ sb_size s / BPB); [|lia].
  split; [apply Z.div_pos|apply Z.div_le_mono]; unfold BPB, BSIZE in *; lia.
Qed.

Lemma bm_byte_range b : 0 ≤ bm_byte b < BSIZE.
Proof.
  unfold bm_byte. pose proof (Z.mod_pos_bound b BPB). unfold BPB, BSIZE in *.
  split; [apply Z.div_pos; lia|apply Z.div_lt_upper_bound; lia].
Qed.

(** Two blocks with the same bit are the same. *)
Lemma same_bit b c :
  b / BPB = c / BPB → bm_byte b = bm_byte c → b mod 8 = c mod 8 → b = c.
Proof.
  unfold bm_byte, BPB, BSIZE. intros H1 H2 H3.
  rewrite (Z.div_mod b (1024 * 8)), (Z.div_mod c (1024 * 8)) by lia. rewrite H1. f_equal.
  rewrite (Z.div_mod (b mod (1024 * 8)) 8), (Z.div_mod (c mod (1024 * 8)) 8) by lia. rewrite H2.
  f_equal. rewrite <-!(Znumtheory.Zmod_div_mod 8 (1024 * 8)) by (try lia; by exists 1024). done.
Qed.

(** The bitmap block of [b] with its bit set or cleared. *)
Definition bm_set (on : bool) (b : Z) (d : block) : block :=
  let v := bld 1 (bm_byte b) d in
  let m := Z.shiftl 1 (b mod 8) in
  bst 1 (bm_byte b) (if on then Z.lor v m else Z.land v (Z.lnot m)) d.

Lemma length_bm_set on b d : length d = Z.to_nat BSIZE → length (bm_set on b d) = Z.to_nat BSIZE.
Proof.
  intros Hd. unfold bm_set. pose proof (bm_byte_range b). rewrite length_bst; unfold BSIZE in *; lia.
Qed.

Lemma bit_of_set on b d c :
  length d = Z.to_nat BSIZE → b / BPB = c / BPB →
  bit_of (bm_set on b d) c = if decide (b = c) then on else bit_of d c.
Proof.
  intros Hd Hbc. unfold bit_of, bm_set. pose proof (bm_byte_range b). pose proof (bm_byte_range c).
  pose proof (Z.mod_pos_bound b 8). pose proof (Z.mod_pos_bound c 8). unfold BSIZE in *.
  destruct (decide (bm_byte b = bm_byte c)) as [E|E].
  - rewrite <-E, bld_bst by lia.
    assert (b mod 8 =? c mod 8 = bool_decide (b = c)) as Eb.
    { case_bool_decide as Hc; [subst; apply Z.eqb_refl|]. apply Z.eqb_neq. intros Hm.
      by apply Hc, same_bit. }
    destruct on; rewrite ?testbit_set, ?testbit_clear, Eb by lia;
      case_decide; case_bool_decide; try done; by rewrite ?orb_true_r, ?andb_false_r, ?orb_false_r, ?andb_true_r.
  - rewrite bld_bst_out by lia. rewrite decide_False by congruence. done.
Qed.

(** Setting a bit of the bitmap. *)
Lemma used_set on V b c :
  bmap_layout → blkno b → blkno c → length (V (BBLOCK b s)) = Z.to_nat BSIZE →
  used (vset V (BBLOCK b s) (bm_set on b (V (BBLOCK b s)))) c =
    if decide (b = c) then on else used V c.
Proof.
  intros Hl Hb Hc Hd. unfold used. destruct (decide (BBLOCK b s = BBLOCK c s)) as [E|E].
  - rewrite <-E, vset_eq, bit_of_set; [done|done|].
    rewrite !BBLOCK_eq in E by done. lia.
  - rewrite vset_ne by done. rewrite decide_False by congruence. done.
Qed.

(** A block that is not part of the bitmap. *)
Definition not_bitmap (n : Z) : Prop := ∀ b, blkno b → BBLOCK b s ≠ n.

Lemma used_other V n d c : not_bitmap n → blkno c → used (vset V n d) c = used V c.
Proof. intros Hn Hc. unfold used. rewrite vset_ne; [done|]. intros E. by apply (Hn c). Qed.
End bitmap.

(** ** The invariant of the allocator *)

(** The blocks of the bitmap and the boot block are marked as used, and every
    free block is outside of the log. *)
Record bitmap_ok (k : kernel) (V : view) : Prop := {
  bm_layout : bmap_layout (sb (fs k));
  bm_home : ∀ b, blkno (sb (fs k)) b → fshome k (BBLOCK b (sb (fs k)));
  bm_used : ∀ b, blkno (sb (fs k)) b → blkno (sb (fs k)) (BBLOCK b (sb (fs k))) ∧
    used (sb (fs k)) V (BBLOCK b (sb (fs k))) = true;
  bm_boot : used (sb (fs k)) V 0 = true;
  bm_free : ∀ b, blkno (sb (fs k)) b → used (sb (fs k)) V b = false → fshome k b;
}.

Lemma bitmap_ok_same k k' V : same_disk k k' → bitmap_ok k V → bitmap_ok k' V.
Proof.
  intros Hq [B1 B2 B3 B4 B5]. split; rewrite ?(sd_sb _ _ Hq); try done.
  - intros b Hb. apply (same_fshome _ _ _ Hq). by apply B2.
  - intros b Hb Hu. apply (same_fshome _ _ _ Hq). by apply B5.
Qed.

(** The bitmap is read through [used] only. *)
Lemma bitmap_ok_more k V V' :
  bitmap_ok k V →
  (∀ c, blkno (sb (fs k)) c → used (sb (fs k)) V c = true → used (sb (fs k)) V' c = true) →
  bitmap_ok k V'.
Proof.
  intros [B1 B2 B3 B4 B5] Hu. assert (blkno (sb (fs k)) 0) as H0 by (destruct B1; split; lia).
  split; try done.
  - intros b Hb. destruct (B3 b Hb) as [? ?]. split; [done|]. by apply Hu.
  - by apply Hu.
  - intros b Hb Hub. apply B5; [done|]. destruct (used (sb (fs k)) V b) eqn:E; [|done].
    rewrite Hu in Hub; done.
Qed.

Lemma free_not_bitmap k V b :
  bitmap_ok k V → used (sb (fs k)) V b = false → not_bitmap (sb (fs k)) b.
Proof.
  intros Hb Hu c Hc E. destruct (bm_used _ _ Hb c Hc) as [_ Hu']. rewrite E in Hu'. congruence.
Qed.

(** The buffers the caller holds are not part of the bitmap and in use. *)
Definition holds_ok (s : superblock) (V : view) (H : holds) : Prop :=
  ∀ i n d, H !! i = Some (n, d) → not_bitmap s n ∧ used s V n = true.

Section alloc_specs.
Context `{OTH : Others} (me : nat) (pid : Z).
Abbreviation op := (op me pid 1).

Lemma bzero_spec k V H r n :
  op k V H (S r) → (∀ i d, H !! i ≠ Some (n, d)) → (size H ≤ S r)%nat → fshome k n →
  wp (bzero (s32 ROOTDEV) n) k (λ _ k', blkq k k' ∧ op k' (vset V n zero_block) H r).
Proof.
  intros Hop HH Hr Hh. unfold bzero. pose proof Hh as [Hn _].
  change (u32 (s32 ROOTDEV)) with ROOTDEV. rewrite u32_small by lia.
  apply (op_update me pid k V H r n (λ _, zero_block)); try done.
Qed.

(** What balloc() has done when it returns [a]. *)
Definition allocated (k : kernel) (V : view) (H : holds) (r : nat) (a : Z) (k' : kernel) : Prop :=
  let s := sb (fs k) in
  blkq k k' ∧ blkno s a ∧ used s V a = false ∧
  op k' (vset (vset V (BBLOCK a s) (bm_set true a (V (BBLOCK a s)))) a zero_block) H r.

(** The bit of block [a] is found clear in the bitmap block [bp]. *)
Lemma balloc_take k V H r a bp :
  let s := sb (fs k) in
  op k V (<[bp := (BBLOCK a s, V (BBLOCK a s))]> H) (S (S r)) → H !! bp = None →
  bitmap_ok k V → holds_ok s V H → (size H ≤ S r)%nat → blkno s a → used s V a = false →
  wp (set_buf bp (upd_b_data (bm_set true a));; log_write bp;; brelse bp;; bzero (s32 ROOTDEV) a) k
    (λ _, allocated k V H r a).
Proof.
  intros s Hop HHb Hbm HH Hr Ha Hu. pose proof (bm_home _ _ Hbm a Ha) as Hhb. do 2 wp_step.
  apply (op_set_data _ _ _ _ _ _ _ bp (BBLOCK a s) (V (BBLOCK a s)) (bm_set true a)) in Hop;
    [|by rewrite lookup_insert_eq|by eapply length_bm_set, op_block_size].
  rewrite insert_insert_eq in Hop. set (k1 := upd_fs _ k) in *.
  assert (blkq k k1) as Hq1 by apply blkq_set_data.
  apply wp_seq2. eapply wp_mono; [eapply op_log_release; [exact Hop|done|exact Hhb]|].
  intros ? k2 [Hq2 Hop2]. assert (blkq k k2) as Hq by (by etrans).
  eapply wp_mono; [eapply bzero_spec; [exact Hop2| |done|]|].
  - intros i d HHi. destruct (HH i a d HHi) as [_ Hu']. congruence.
  - apply (fsq_fshome k k2); [by apply blkq_fsq|]. by apply (bm_free _ _ Hbm).
  - intros ? k3 [Hq3 Hop3]. split; [by etrans|]. done.
Qed.

(** Every block below [a] is in use. *)
Definition full_below (s : superblock) (V : view) (a : Z) : Prop :=
  ∀ c, 0 ≤ c < a → used s V c = true.

Lemma balloc_bit_spec k V H r b bp :
  let s := sb (fs k) in
  op k V (<[bp := (BBLOCK b s, V (BBLOCK b s))]> H) (S (S r)) → H !! bp = None →
  b_data (buf_of (fs k) bp) = V (BBLOCK b s) →
  bitmap_ok k V → holds_ok s V H → (size H ≤ S r)%nat → blkno s b → (BPB | b) →
  full_below s V b →
  wp (balloc_bit ROOTDEV b bp) k (λ x k',
    match x with
    | Some a => full_below s V a ∧ allocated k V H r a k'
    | None => k' = k ∧ full_below s V (Z.min (b + BPB) (sb_size s))
    end).
Proof.
  intros s Hop HHb Hd Hbm HH Hr Hb [q Hq] Hfull. pose proof (bm_layout _ _ Hbm) as [Hsz _ _].
  fold s in Hsz. unfold blkno in Hb. unfold balloc_bit.
  apply (wp_loop _ (λ bi k', k' = k ∧ 0 ≤ bi ≤ BPB ∧ full_below s V (Z.min (b + bi) (sb_size s)))
    (λ bi _, BPB - bi)); [|split_and!; try done|unfold BPB, BSIZE; lia].
  - intros bi ? (-> & Hbi & Hf). wp_pure. fold s.
    destruct (Z.ltb_spec bi BPB) as [Hlt|Hge]; cycle 1.
    { simpl. wp_pure. split; [done|]. replace BPB with bi by lia. done. }
    assert (0 ≤ b + bi < 2 ^ 32) by (unfold BPB, BSIZE in *; lia).
    rewrite u32_small by lia. simpl andb.
    destruct (Z.ltb_spec (b + bi) (sb_size s)) as [Hlt'|Hge']; cycle 1.
    { wp_pure. split; [done|]. intros c Hc. apply Hf. lia. }
    wp_pure. rewrite Hd. set (a := b + bi) in *.
    assert (a mod BPB = bi ∧ a / BPB = b / BPB) as [Em Eq].
    { assert (0 < BPB) by done. unfold a. rewrite Hq. split.
      - rewrite Z.add_comm, Z_mod_plus_full. apply Z.mod_small. lia.
      - rewrite Z.div_add_l, Z.div_mul, Z.div_small by lia. lia. }
    assert (BBLOCK a s = BBLOCK b s) as EB by (unfold BBLOCK; by rewrite Eq).
    assert (bi / 8 = bm_byte a) as E8 by (unfold bm_byte; by rewrite Em).
    assert (bi mod 8 = a mod 8) as Em8.
    { rewrite <-Em. symmetry. apply Znumtheory.Zmod_div_mod; [lia|done|by exists BSIZE]. }
    rewrite E8, Em8, land_bit_zero by (by apply Z.mod_pos_bound).
    change (Z.testbit _ _) with (bit_of (V (BBLOCK b s)) a). rewrite <-EB.
    change (bit_of _ a) with (used s V a). destruct (used s V a) eqn:Eu; simpl negb; cbv iota.
    + wp_pure. split; [|lia]. split_and!; [done|lia|lia|]. intros c Hc.
      destruct (decide (c = a)) as [->|]; [done|]. apply Hf. lia.
    + rewrite <-EB in Hop, Hd.
      apply (wp_set_data_ext _ _ (bm_set true a)); [by rewrite Hd|].
      apply wp_seq4. eapply wp_mono; [eapply balloc_take; eauto; fold s; unfold blkno; lia|].
      intros ? k' Hal. wp_pure. split; [|done].
      intros c Hc. apply Hf. lia.
  - intros c Hc. apply Hfull. lia.
Qed.

(** The bitmap after balloc() returned [a]. *)
Lemma allocated_used k V a :
  let s := sb (fs k) in
  bitmap_ok k V → blkno s a → used s V a = false → (∀ n, length (V n) = Z.to_nat BSIZE) →
  let V' := vset (vset V (BBLOCK a s) (bm_set true a (V (BBLOCK a s)))) a zero_block in
  (∀ c, blkno s c → used s V' c = if decide (a = c) then true else used s V c) ∧
  (∀ n, not_bitmap s n → n ≠ a → V' n = V n) ∧ bitmap_ok k V'.
Proof.
  intros s Hbm Ha Hu Hs V'. pose proof (free_not_bitmap _ _ _ Hbm Hu) as Hnb.
  assert (∀ c, blkno s c → used s V' c = if decide (a = c) then true else used s V c) as Hused.
  { intros c Hc. unfold V'. rewrite used_other by done. apply used_set; try done. apply Hbm. }
  split_and!; [done| |].
  - intros n Hn Hna. unfold V'. rewrite !vset_ne; [done|by apply Hn|done].
  - eapply bitmap_ok_more; [exact Hbm|]. intros c Hc Hcu. fold s. rewrite Hused by done.
    by case_decide.
Qed.

Lemma balloc_spec k V H r :
  let s := sb (fs k) in
  op k V H (S (S r)) → bitmap_ok k V → holds_ok s V H → (size H ≤ S r)%nat →
  (∃ b, blkno s b ∧ used s V b = false) →
  wp (balloc ROOTDEV) k (λ a k', full_below s V a ∧ allocated k V H r a k').
Proof.
  intros s Hop Hbm HH Hr (b0 & Hb0 & Hu0). pose proof (bm_layout _ _ Hbm) as [Hsz _ _].
  fold s in Hsz. unfold balloc.
  apply (wp_loop _ (λ b k', blkq k k' ∧ op k' V H (S (S r)) ∧ 0 ≤ b ≤ b0 ∧ (BPB | b) ∧
    full_below s V b) (λ b _, b0 + 1 - b)).
  - intros b k1 (Hq & Hop1 & Hb & Hdiv & Hf). wp_pure. assert (sb (fs k1) = s) as -> by apply Hq.
    unfold blkno in Hb0. rewrite u32_small by lia. destruct (Z.ltb_spec b (sb_size s)); [|lia].
    assert (blkno s b) as Hbb by (unfold blkno; lia). wp_pure.
    eapply wp_mono; [eapply (op_peek me pid 1 k1 V H); [done| |lia]|].
    { intros i d HHi. destruct (HH i _ d HHi) as [Hnb _]. by apply (Hnb b). }
    intros i k2 (Hq2 & Hd2 & Hop2 & HHi & Hrel). wp_pure.
    assert (blkq k k2) as Hq02 by (by etrans). assert (sb (fs k2) = s) as Es2 by apply Hq02.
    eapply wp_mono; [eapply (balloc_bit_spec k2 V H r b i); rewrite ?Es2; try done|].
    { by apply (bitmap_ok_same k k2); [apply fsq_same, Hq02|]. }
    rewrite Es2. intros [a|] k3; [|].
    + intros [Hfa (A1 & A2 & A3 & A4)]. rewrite Es2 in *. wp_pure. split; [done|].
      split_and!; [by etrans|done|done|done].
    + intros [-> Hfull]. apply wp_bind. eapply wp_mono; [by apply Hrel|].
      intros ? k4 [Hq4 Hop4]. wp_pure.
      assert (¬ b0 < b + BPB).
      { intros ?. rewrite Hfull in Hu0 by lia. done. }
      split; [|unfold BPB, BSIZE in *; lia]. split_and!; [by etrans|done|unfold BPB, BSIZE in *; lia|lia| |].
      * apply Z.divide_add_r; [done|apply Z.divide_refl].
      * intros c Hc. apply Hfull. lia.
  - split_and!; [done|done|lia|unfold blkno in Hb0; lia|apply Z.divide_0_r|]. intros c Hc. lia.
  - unfold blkno in Hb0. lia.
Qed.

Lemma bfree_spec k V H r b :
  let s := sb (fs k) in
  op k V H (S r) → bitmap_ok k V → holds_ok s V H → (size H ≤ S r)%nat → blkno s b →
  used s V b = true →
  wp (bfree (s32 ROOTDEV) b) k (λ _ k', blkq k k' ∧
    op k' (vset V (BBLOCK b s) (bm_set false b (V (BBLOCK b s)))) H r).
Proof.
  intros s Hop Hbm HH Hr Hb Hu. unfold bfree. wp_pure. fold s.
  change (u32 (s32 ROOTDEV)) with ROOTDEV.
  eapply wp_mono; [eapply (op_bread me pid 1 k V H); [done| |done]|].
  { intros i d HHi. destruct (HH i _ d HHi) as [Hnb _]. by apply (Hnb b). }
  intros i k1 (HHi & Hq & Hop1 & Hd). wp_pure. rewrite Hd.
  assert (b mod BPB mod 8 = b mod 8) as Em8.
  { symmetry. apply Znumtheory.Zmod_div_mod; [lia|done|by exists BSIZE]. }
  rewrite Em8. change (b mod BPB / 8) with (bm_byte b).
  rewrite land_bit_zero by (by apply Z.mod_pos_bound).
  change (Z.testbit _ _) with (used s V b). rewrite Hu. simpl negb. cbv iota.
  apply (wp_set_data_ext _ _ (bm_set false b)); [by rewrite Hd|]. do 2 wp_step.
  apply (op_set_data _ _ _ _ _ _ _ i (BBLOCK b s) (V (BBLOCK b s)) (bm_set false b)) in Hop1;
    [|by rewrite lookup_insert_eq|by eapply length_bm_set, op_block_size].
  rewrite insert_insert_eq in Hop1.
  eapply wp_mono; [eapply op_log_release; [exact Hop1|done|]|].
  { apply (fsq_fshome k k1); [by apply blkq_fsq|]. by apply (bm_home _ _ Hbm). }
  intros ? k2 [Hq2 Hop2]. split; [|done]. etrans; [exact Hq|]. etrans; [apply blkq_set_data|done].
Qed.
End alloc_specs.
