(* ===== verification/FsInode.v ===== *)
(** * Inodes on disk and in memory

    The encoding of [struct dinode] in its block, iupdate(), and the locking
    functions: ilock() fills an entry of the inode table from the disk,
    iunlock(), iget(), idup() and iput() manage the references to it. *)

From stdpp Require Import gmap list strings.
From Stdlib Require Import ZArith Lia.
From S2P Require Import Prelude Mem Str Params FsData Machine Spinlock Sched Sleeplock Ring Bio BioSpec Log LogDisk LogSpec LogCommit LogTheorems FsTxn Kalloc Vm Fs.
From S2P Require Import FsAlloc.
#[local] Open Scope Z_scope.

Ltac wp_prim ::= wp_log.

(** ** The encoding *)

Record dinode : Type := mkDi {
  dn_type : Z;
  dn_major : Z;
  dn_minor : Z;
  dn_nlink : Z;
  dn_size : Z;
  dn_addrs : list Z;
}.

(** The disk part of an inode in memory, and of slot [sl] of a block. *)
Definition di_inode (x : inode) : dinode :=
  mkDi (i_type x) (i_major x) (i_minor x) (i_nlink x) (i_size x) (i_addrs x).
Definition di_decode (sl : Z) (d : block) : dinode :=
  mkDi (di_type sl d) (di_major sl d) (di_minor sl d) (di_nlink sl d) (di_size sl d) (di_addrs sl d).

(** Lengths of blocks under stores, and arithmetic. *)
Ltac blk_lia := unfold BSIZE in *; repeat first [lia | rewrite length_bst].

(** The values fit their C types. *)
Record dinode_wf (x : dinode) : Prop := {
  dw_type : - 2 ^ 15 ≤ dn_type x < 2 ^ 15;
  dw_major : - 2 ^ 15 ≤ dn_major x < 2 ^ 15;
  dw_minor : - 2 ^ 15 ≤ dn_minor x < 2 ^ 15;
  dw_nlink : - 2 ^ 15 ≤ dn_nlink x < 2 ^ 15;
  dw_size : 0 ≤ dn_size x < 2 ^ 32;
  dw_len : length (dn_addrs x) = 13%nat;
  dw_addrs : Forall (λ a, 0 ≤ a < 2 ^ 32) (dn_addrs x);
}.

(** What iupdate() stores in slot [sl]. *)
Definition di_write (sl : Z) (x : dinode) (d : block) : block :=
  di_set_addrs sl 0 (dn_addrs x)
    (bst 4 (di_off sl + 8) (dn_size x)
    (bst 2 (di_off sl + 6) (dn_nlink x)
    (bst 2 (di_off sl + 4) (dn_minor x)
    (bst 2 (di_off sl + 2) (dn_major x)
    (bst 2 (di_off sl) (dn_type x) d))))).

Lemma s16_store z : - 2 ^ 15 ≤ z < 2 ^ 15 → s16 (z mod 256 ^ Z.of_nat 2) = z.
Proof.
  intros Hz. unfold s16. change (256 ^ Z.of_nat 2) with (2 ^ 16).
  rewrite Zplus_mod_idemp_l. rewrite Z.mod_small; lia.
Qed.

Section slots.
Context (sl : Z) (Hsl : 0 ≤ sl < IPB).

Lemma slot_fits : 0 ≤ di_off sl ∧ di_off sl + 64 ≤ BSIZE.
Proof. unfold di_off, IPB, DINODE_SIZE, BSIZE in *. change (1024 / 64) with 16 in Hsl. lia. Qed.

Lemma di_set_addrs_spec i addrs d :
  length d = Z.to_nat BSIZE → 0 ≤ i → i + Z.of_nat (length addrs) ≤ 13 →
  length (di_set_addrs sl i addrs d) = Z.to_nat BSIZE ∧
  (∀ j a, addrs !! j = Some a → 0 ≤ a < 2 ^ 32 →
     bld 4 (di_off sl + 12 + 4 * (i + Z.of_nat j)) (di_set_addrs sl i addrs d) = a) ∧
  (∀ n off, 0 ≤ off → off + Z.of_nat n ≤ di_off sl + 12 + 4 * i ∨ di_off sl + 64 ≤ off →
     bld n off (di_set_addrs sl i addrs d) = bld n off d).
Proof.
  pose proof slot_fits as [F1 F2]. unfold BSIZE in *.
  revert i d. induction addrs as [|a addrs IH]; intros i d Hd Hi Hl; cbn [di_set_addrs length] in *.
  { split_and!; [done| |done]. intros j a Hj. by rewrite lookup_nil in Hj. }
  assert (length (bst 4 (di_off sl + 12 + 4 * i) a d) = Z.to_nat 1024) as Hd'
    by (rewrite length_bst; lia).
  destruct (IH (i + 1) _ Hd') as (L1 & L2 & L3); [lia..|]. split_and!; [done| |].
  - intros [|j] b Hj Hb; simpl in Hj.
    + injection Hj as ->. rewrite L3 by lia. rewrite Z.add_0_r, bld_bst by lia.
      change (256 ^ Z.of_nat 4) with (2 ^ 32). apply Z.mod_small. done.
    + replace (i + Z.of_nat (S j)) with (i + 1 + Z.of_nat j) by lia. by apply L2.
  - intros n off Hoff Hout. rewrite L3 by lia. apply bld_bst_out; lia.
Qed.

(** The encoding read back: the slot written, and any other. *)
Lemma di_decode_write x d :
  length d = Z.to_nat BSIZE → dinode_wf x → di_decode sl (di_write sl x d) = x.
Proof.
  intros Hd [W1 W2 W3 W4 W5 W6 W7]. pose proof slot_fits as [F1 F2].
  unfold di_write. set (d5 := bst 4 _ _ _).
  assert (length d5 = Z.to_nat BSIZE) as H5
    by (unfold d5; blk_lia).
  destruct (di_set_addrs_spec 0 (dn_addrs x) d5) as (L1 & L2 & L3); [done|lia|lia|].
  destruct x as [ty ma mi nl sz ad]. unfold di_decode. simpl in *. f_equal.
  - unfold di_type. rewrite L3 by lia. unfold d5.
    rewrite !bld_bst_out by blk_lia. rewrite bld_bst by blk_lia. by apply s16_store.
  - unfold di_major. rewrite L3 by lia. unfold d5.
    rewrite !(bld_bst_out _ _ _ (_ + 8)), !(bld_bst_out _ _ _ (_ + 6)), !(bld_bst_out _ _ _ (_ + 4))
      by blk_lia.
    rewrite bld_bst by blk_lia. by apply s16_store.
  - unfold di_minor. rewrite L3 by lia. unfold d5.
    rewrite !(bld_bst_out _ _ _ (_ + 8)), !(bld_bst_out _ _ _ (_ + 6)) by blk_lia.
    rewrite bld_bst by blk_lia. by apply s16_store.
  - unfold di_nlink. rewrite L3 by lia. unfold d5.
    rewrite !(bld_bst_out _ _ _ (_ + 8)) by blk_lia.
    rewrite bld_bst by blk_lia. by apply s16_store.
  - unfold di_size. rewrite L3 by lia. unfold d5.
    rewrite bld_bst by blk_lia. change (256 ^ Z.of_nat 4) with (2 ^ 32).
    by apply Z.mod_small.
  - unfold di_addrs. apply list_eq. intros j. rewrite list_lookup_fmap.
    destruct (decide (j < 13)%nat) as [Hj|Hj].
    + rewrite lookup_seqZ_lt by (unfold NDIRECT; lia). simpl.
      destruct (lookup_lt_is_Some_2 ad j) as [a Ha]; [lia|]. rewrite Ha. f_equal.
      rewrite Z.add_0_l. rewrite <-(Z.add_0_l (Z.of_nat j)). apply L2; [done|].
      rewrite Forall_lookup in W7. by apply (W7 j).
    + rewrite lookup_seqZ_ge by (unfold NDIRECT; lia). simpl. symmetry. apply lookup_ge_None. lia.
Qed.

Lemma bld_write_out x d n off :
  length d = Z.to_nat BSIZE → length (dn_addrs x) = 13%nat → 0 ≤ off →
  off + Z.of_nat n ≤ di_off sl ∨ di_off sl + 64 ≤ off →
  bld n off (di_write sl x d) = bld n off d.
Proof.
  intros Hd Hl Ho Hout. pose proof slot_fits as [F1 F2]. unfold di_write. set (d5 := bst 4 _ _ _).
  assert (length d5 = Z.to_nat BSIZE) as H5
    by (unfold d5; blk_lia).
  destruct (di_set_addrs_spec 0 (dn_addrs x) d5) as (L1 & L2 & L3); [done|lia|lia|].
  rewrite L3 by lia. unfold d5.
  rewrite !bld_bst_out by blk_lia. done.
Qed.

Lemma length_di_write x d :
  length d = Z.to_nat BSIZE → length (dn_addrs x) = 13%nat →
  length (di_write sl x d) = Z.to_nat BSIZE.
Proof.
  intros Hd Hl. pose proof slot_fits as [F1 F2]. unfold di_write. set (d5 := bst 4 _ _ _).
  assert (length d5 = Z.to_nat BSIZE) as H5
    by (unfold d5; blk_lia).
  destruct (di_set_addrs_spec 0 (dn_addrs x) d5) as (L1 & _); [done|lia|lia|done].
Qed.
End slots.

Lemma di_decode_other sl sl' x d :
  0 ≤ sl < IPB → 0 ≤ sl' < IPB → sl' ≠ sl → length d = Z.to_nat BSIZE →
  length (dn_addrs x) = 13%nat → di_decode sl' (di_write sl x d) = di_decode sl' d.
Proof.
  intros Hs Hs' Hne Hd Hl. pose proof (slot_fits sl Hs). pose proof (slot_fits sl' Hs').
  assert (∀ n off, di_off sl' ≤ off → off + Z.of_nat n ≤ di_off sl' + 64 →
    bld n off (di_write sl x d) = bld n off d) as Hb.
  { intros n off H1 H2. apply bld_write_out; try done; unfold di_off, DINODE_SIZE in *; lia. }
  unfold di_decode, di_type, di_major, di_minor, di_nlink, di_size, di_addrs.
  rewrite !Hb by lia. f_equal. apply list_fmap_ext. intros j i Hi.
  apply lookup_seqZ in Hi. apply Hb; unfold NDIRECT in *; lia.
Qed.

(** ** Operations on the inode table *)

Lemma wp_get_inode {A} i (g : inode → A) k (Q : A → kernel → Prop) :
  Q (g (inode_of (fs k) i)) k → wp (get_inode i g) k Q.
Proof. done. Qed.
Lemma wp_set_inode i g k (Q : unit → kernel → Prop) :
  Q tt (upd_fs (upd_itable (alter g i)) k) → wp (set_inode i g) k Q.
Proof. done. Qed.
Lemma wp_get_addr i j k (Q : Z → kernel → Prop) :
  Q (default 0 (i_addrs (inode_of (fs k) i) !! Z.to_nat j)) k → wp (get_addr i j) k Q.
Proof. done. Qed.
Lemma wp_set_addr i j v k (Q : unit → kernel → Prop) :
  Q tt (upd_fs (upd_itable (alter (upd_i_addrs <[Z.to_nat j := v]>) i)) k) → wp (set_addr i j v) k Q.
Proof. done. Qed.

Ltac wp_ino :=
  lazymatch goal with
  | |- wp (get_inode _ _) _ _ => apply wp_get_inode
  | |- wp (set_inode _ _) _ _ => apply wp_set_inode
  | |- wp (get_addr _ _) _ _ => apply wp_get_addr
  | |- wp (set_addr _ _ _) _ _ => apply wp_set_addr
  | _ => wp_log
  end.
Ltac wp_prim ::= wp_ino.

Lemma inode_of_lookup f ip x : itable f !! ip = Some x → inode_of f ip = x.
Proof. intros H. unfold inode_of. by rewrite H. Qed.

(** The entry [ip] of the table becomes [x]; nothing else of the file system
    changes but buffers. *)
Record iset (ip : nat) (x : inode) (k k' : kernel) : Prop := {
  ie_fsq : fsq k k';
  ie_mem : mem_same k k';
  ie_itable : itable (fs k') = <[ip := x]> (itable (fs k));
  ie_locks : ∀ i, sleeplock_of (fs k') (SL_inode i) = sleeplock_of (fs k) (SL_inode i);
}.

Lemma iset_blkq ip x k k' : itable (fs k) !! ip = Some x → blkq k k' → iset ip x k k'.
Proof.
  intros Hx (H1 & H2 & [H3 H4]). split; try done. rewrite H3. symmetry. by apply list_insert_id.
Qed.

Lemma iset_trans ip x y k1 k2 k3 : iset ip x k1 k2 → iset ip y k2 k3 → iset ip y k1 k3.
Proof.
  intros [A1 A2 A3 A4] [B1 B2 B3 B4]. split; [by etrans|by etrans| |].
  - by rewrite B3, A3, list_insert_insert_eq.
  - intros i. by rewrite B4.
Qed.

Lemma iset_upd ip x g k :
  itable (fs k) !! ip = Some x → iset ip (g x) k (upd_fs (upd_itable (alter g ip)) k).
Proof. intros Hx. split; [by split..| |done]. simpl. by apply list_alter_is_insert. Qed.

Lemma iset_lookup ip x k k' :
  (ip < length (itable (fs k)))%nat → iset ip x k k' → itable (fs k') !! ip = Some x.
Proof. intros Hl []. rewrite ie_itable0. by apply list_lookup_insert_eq. Qed.

Lemma set_inode_twice i g g' k :
  upd_fs (upd_itable (alter g' i)) (upd_fs (upd_itable (alter g i)) k) =
  upd_fs (upd_itable (alter (λ x, g' (g x)) i)) k.
Proof. unfold upd_fs, upd_itable. simpl. by rewrite list_alter_alter_eq. Qed.

Section inode_specs.
Context `{OTH : Others} (me : nat) (pid : Z).
Abbreviation op := (op me pid).

Lemma op_upd_itable o k V H r g : op o k V H r → op o (upd_fs (upd_itable g) k) V H r.
Proof.
  intros Hop. pose proof (op_running _ _ _ _ _ _ _ Hop) as [Hrun _].
  eapply op_frame; [exact Hop| |done..]. by destruct Hrun.
Qed.

(** The disk part of inode number [inum]. *)
Definition dinode_of (s : superblock) (V : view) (inum : Z) : dinode :=
  di_decode (inum mod IPB) (V (IBLOCK inum s)).

(** The block of an inode of this file system. *)
Definition inode_block (k : kernel) (inum : Z) : Prop :=
  0 ≤ inum ∧ fshome k (IBLOCK inum (sb (fs k))).

Lemma slot_range inum : 0 ≤ inum mod IPB < IPB.
Proof. apply Z.mod_pos_bound. done. Qed.

Lemma iupdate_spec k V H r ip x :
  let ib := IBLOCK (i_inum x) (sb (fs k)) in
  op 1 k V H (S r) → itable (fs k) !! ip = Some x → i_dev x = ROOTDEV →
  length (i_addrs x) = 13%nat → fshome k ib → (∀ i d, H !! i ≠ Some (ib, d)) → (size H ≤ S r)%nat →
  wp (iupdate ip) k (λ _ k', blkq k k' ∧
    op 1 k' (vset V ib (di_write (i_inum x mod IPB) (di_inode x) (V ib))) H r).
Proof.
  intros ib Hop Hx Hdev Hlen Hh HH Hr. pose proof (inode_of_lookup _ _ _ Hx) as Ex.
  unfold iupdate. wp_pure. rewrite Ex, Hdev. fold ib.
  eapply wp_mono; [by eapply (op_bread me pid 1 k V H)|].
  intros i k1 (HHi & Hq & Hop1 & Hd). wp_pure.
  assert (inode_of (fs k1) ip = x) as Ex1 by (unfold inode_of; by rewrite (is_itable _ _ (proj2 (proj2 Hq)))).
  rewrite Ex1. set (k2 := upd_fs _ _).
  assert (k2 = upd_fs (upd_bcache (alter (upd_b_data
    (di_write (i_inum x mod IPB) (di_inode x))) i)) k1) as E2.
  { unfold k2. by rewrite !set_data_twice. }
  assert (blkq k1 k2) as Hq2 by (rewrite E2; apply blkq_set_data).
  assert (op 1 k2 V (<[i := (ib, di_write (i_inum x mod IPB) (di_inode x) (V ib))]> H) (S r)) as Hop2.
  { rewrite E2, <-(insert_insert_eq H i _ (ib, V ib)).
    apply op_set_data; [done|apply lookup_insert_eq|].
    apply length_di_write; [apply slot_range|by eapply op_block_size|done]. }
  apply (wp_unbind (log_write i) (λ _, brelse i)).
  eapply wp_mono; [eapply op_log_release; [exact Hop2|done|]|].
  { apply (fsq_fshome k k2); [by apply blkq_fsq; etrans|done]. }
  intros ? k3 [Hq3 Hop3]. split; [|done]. etrans; [exact Hq|]. by etrans.
Qed.

(** What ilock() fills in. *)
Definition filled (x : inode) (d : dinode) : inode :=
  mkInode (i_dev x) (i_inum x) (i_ref x) 1 (dn_type d) (dn_major d) (dn_minor d) (dn_nlink d)
    (dn_size d) (dn_addrs d).

Definition locked_inode (s : superblock) (V : view) (x : inode) : inode :=
  if i_valid x =? 0 then filled x (dinode_of s V (i_inum x)) else x.

(** After ilock(): the entry is [x], its lock is held. *)
Record ilocked (ip : nat) (x : inode) (k k' : kernel) : Prop := {
  il_fsq : fsq k k';
  il_mem : mem_same k k';
  il_itable : itable (fs k') = <[ip := x]> (itable (fs k));
  il_locks : ∀ i, sleeplock_of (fs k') (SL_inode i) =
    if decide (ip = i) then sl_held pid (sleeplock_of (fs k) (SL_inode i))
    else sleeplock_of (fs k) (SL_inode i);
}.

Lemma ilocked_iset ip x y k1 k2 k3 : ilocked ip x k1 k2 → iset ip y k2 k3 → ilocked ip y k1 k3.
Proof.
  intros [A1 A2 A3 A4] [B1 B2 B3 B4]. split; [by etrans|by etrans| |].
  - by rewrite B3, A3, list_insert_insert_eq.
  - intros i. by rewrite B4.
Qed.

(** The part of ilock() that reads the inode in. *)
Lemma ilock_fill o k V H r ip x :
  let s := sb (fs k) in
  op o k V H r → itable (fs k) !! ip = Some x → i_dev x = ROOTDEV →
  (∀ i d, H !! i ≠ Some (IBLOCK (i_inum x) s, d)) → (size H ≤ r)%nat →
  dn_type (dinode_of s V (i_inum x)) ≠ 0 →
  wp (bp ← bread ROOTDEV (IBLOCK (i_inum x) s);
      let sl := i_inum x mod IPB in
      d ← get_buf bp b_data;
      set_inode ip (upd_i_type (λ _, di_type sl d));;
      set_inode ip (upd_i_major (λ _, di_major sl d));;
      set_inode ip (upd_i_minor (λ _, di_minor sl d));;
      set_inode ip (upd_i_nlink (λ _, di_nlink sl d));;
      set_inode ip (upd_i_size (λ _, di_size sl d));;
      set_inode ip (upd_i_addrs (λ _, di_addrs sl d));;
      brelse bp;;
      set_inode ip (upd_i_valid (λ _, 1));;
      type ← get_inode ip i_type;
      if type =? 0 then panic "ilock: no type" else mret tt) k
    (λ _ k', iset ip (filled x (dinode_of s V (i_inum x))) k k' ∧ op o k' V H r).
Proof.
  intros s Hop Hx Hdev HH Hr Hty. apply wp_bind.
  eapply wp_mono; [by eapply (op_peek me pid o k V H)|].
  intros i k1 (Hq1 & Hd1 & Hop1 & HHi & Hrel). wp_pure. rewrite Hd1. set (k2 := upd_fs _ _).
  assert (itable (fs k1) !! ip = Some x) as Hx1 by (by rewrite (is_itable _ _ (proj2 (proj2 Hq1)))).
  unfold k2. rewrite !set_inode_twice. clear k2. set (g := λ y : inode, _). set (k2 := upd_fs _ k1).
  assert (iset ip (g x) k1 k2) as H2 by (by apply iset_upd).
  apply (iset_blkq ip x) in Hq1; [|done].
  eapply wp_mono; [by apply Hrel, op_upd_itable|]. intros ? k3 [Hq3 Hop3]. wp_pure.
  assert (itable (fs k3) !! ip = Some (g x)) as Hx3.
  { rewrite (is_itable _ _ (proj2 (proj2 Hq3))). apply (iset_lookup _ _ k1 k2); [|done].
    by eapply lookup_lt_Some. }
  assert (iset ip (g x) k k3) as H3.
  { eapply iset_trans; [exact Hq1|]. eapply iset_trans; [exact H2|].
    apply iset_blkq; [|done]. apply (iset_lookup _ _ k1 k2); [|done]. by eapply lookup_lt_Some. }
  set (k4 := upd_fs _ k3).
  assert (iset ip (upd_i_valid (λ _, 1) (g x)) k3 k4) as H4 by (by apply iset_upd).
  assert (inode_of (fs k4) ip = upd_i_valid (λ _, 1) (g x)) as ->.
  { apply inode_of_lookup, (iset_lookup _ _ k3 k4); [|done]. by eapply lookup_lt_Some. }
  destruct (Z.eqb_spec (i_type (upd_i_valid (λ _, 1) (g x))) 0) as [E|E]; [done|].
  wp_pure. split; [|by apply op_upd_itable]. by eapply iset_trans.
Qed.

Lemma ilock_spec o k V H r ip x :
  let s := sb (fs k) in
  op o k V H r → itable (fs k) !! ip = Some x → i_dev x = ROOTDEV → 1 ≤ i_ref x →
  sl_locked (sleeplock_of (fs k) (SL_inode ip)) = 0 →
  (∀ i d, H !! i ≠ Some (IBLOCK (i_inum x) s, d)) → (size H ≤ r)%nat →
  i_type (locked_inode s V x) ≠ 0 ∨ i_valid x ≠ 0 →
  wp (ilock (Some ip)) k (λ _ k', ilocked ip (locked_inode s V x) k k' ∧ op o k' V H r).
Proof.
  intros s Hop Hx Hdev Href Hfree HH Hr Hty. pose proof (inode_of_lookup _ _ _ Hx) as Ex.
  pose proof (op_running _ _ _ _ _ _ _ Hop) as [Hrun Hpid].
  unfold ilock. wp_pure. rewrite Ex. destruct (Z.ltb_spec (i_ref x) 1); [lia|]. cbv iota.
  apply wp_bind. eapply wp_mono; [by apply (acquiresleep_spec me k Hrun)|].
  intros ? k1 [Hq1 Hf1]. rewrite Hpid in Hf1.
  assert (op o k1 V H r) as Hop1.
  { eapply op_frame; [exact Hop|by eapply kquiet_running|by apply kquiet_mypid|by rewrite Hf1..|].
    intros i. rewrite Hf1, sleeplock_of_set. by rewrite decide_False. }
  assert (ilocked ip x k k1) as Hil1.
  { split; try (by rewrite Hf1).
    - destruct Hq1. split; try done; by rewrite Hf1.
    - by destruct Hq1.
    - rewrite Hf1. symmetry. by apply list_insert_id.
    - intros i. rewrite Hf1, sleeplock_of_set. destruct (decide (ip = i)) as [->|].
      + by rewrite decide_True.
      + by rewrite decide_False by congruence. }
  wp_pure. assert (itable (fs k1) !! ip = Some x) as Hx1 by (by rewrite Hf1).
  rewrite (inode_of_lookup _ _ _ Hx1). unfold locked_inode in *.
  destruct (Z.eqb_spec (i_valid x) 0) as [Ev|Ev]; [|by wp_pure]. unfold when. do 6 wp_step.
  rewrite (inode_of_lookup _ _ _ Hx1), Hdev.
  assert (sb (fs k1) = s) as Es by (by rewrite Hf1). rewrite <-Es in *.
  eapply wp_mono; [eapply (ilock_fill o k1 V H r ip x); try done|].
  { destruct Hty as [Hty|]; [exact Hty|done]. }
  intros ? k2 [Hs2 Hop2]. split; [|done]. by eapply ilocked_iset.
Qed.

(** ilock() right after iupdate() of an entry marked as not valid reads back
    what iupdate() stored. *)
Lemma dinode_of_update s V inum x :
  dinode_wf x → length (V (IBLOCK inum s)) = Z.to_nat BSIZE →
  dinode_of s (vset V (IBLOCK inum s) (di_write (inum mod IPB) x (V (IBLOCK inum s)))) inum = x.
Proof. intros Hw Hl. unfold dinode_of. rewrite vset_eq. apply di_decode_write; [apply slot_range|done..]. Qed.

Lemma dinode_of_other s V inum inum' x :
  length (dn_addrs x) = 13%nat → length (V (IBLOCK inum s)) = Z.to_nat BSIZE →
  IBLOCK inum s ≠ IBLOCK inum' s ∨ inum' mod IPB ≠ inum mod IPB →
  dinode_of s (vset V (IBLOCK inum s) (di_write (inum mod IPB) x (V (IBLOCK inum s)))) inum' =
  dinode_of s V inum'.
Proof.
  intros Hx Hl Hne. unfold dinode_of. destruct (decide (IBLOCK inum s = IBLOCK inum' s)) as [E|E].
  - rewrite <-E, vset_eq. apply di_decode_other; [apply slot_range..| |done|done]. by destruct Hne.
  - by rewrite vset_ne.
Qed.

Lemma iunlock_spec o k V H r ip x :
  op o k V H r → itable (fs k) !! ip = Some x → 1 ≤ i_ref x →
  sl_locked (sleeplock_of (fs k) (SL_inode ip)) = 1 →
  sl_pid (sleeplock_of (fs k) (SL_inode ip)) = pid →
  wp (iunlock (Some ip)) k (λ _ k', fsq k k' ∧ mem_same k k' ∧ itable (fs k') = itable (fs k) ∧
    (∀ i, sleeplock_of (fs k') (SL_inode i) =
       if decide (ip = i) then sl_free (sleeplock_of (fs k) (SL_inode i))
       else sleeplock_of (fs k) (SL_inode i)) ∧ op o k' V H r).
Proof.
  intros Hop Hx Href Hlk Hp. pose proof (op_running _ _ _ _ _ _ _ Hop) as [Hrun Hpid].
  unfold iunlock. apply wp_bind. eapply wp_mono; [by apply (holdingsleep_spec me k)|].
  intros b k1 [-> [Hq1 Hf1]]. unfold id in Hf1.
  rewrite Hlk, Hp, Hpid, Z.eqb_refl. change (nz 1) with true. simpl negb. cbv iota. wp_pure.
  rewrite Hf1, (inode_of_lookup _ _ _ Hx). destruct (Z.ltb_spec (i_ref x) 1); [lia|]. cbv iota.
  eapply wp_mono; [eapply (releasesleep_spec me); by eapply kquiet_running|].
  intros ? k2 [Hq2 Hf2]. rewrite Hf1 in Hf2. assert (kquiet k k2) as Hq by (by etrans).
  split_and!.
  - destruct Hq. split; try done; by rewrite Hf2.
  - by destruct Hq.
  - by rewrite Hf2.
  - intros i. rewrite Hf2, sleeplock_of_set. destruct (decide (ip = i)) as [->|].
    + by rewrite decide_True.
    + by rewrite decide_False by congruence.
  - eapply op_frame; [exact Hop|by eapply kquiet_running|by apply kquiet_mypid|by rewrite Hf2..|].
    intros i. rewrite Hf2, sleeplock_of_set. by rewrite decide_False.
Qed.
End inode_specs.

(** * The table of inodes in memory

    iget() finds the entry of an inode or takes a free one, idup() and iput()
    count the references: every inode in use has one entry. *)

Ltac wp_prim ::= wp_ino.

(** ** The table *)

Definition imatch (dev inum : Z) (x : inode) : bool :=
  (0 <? i_ref x) && (i_dev x =? dev) && (i_inum x =? inum).
Definition ifree (x : inode) : bool := i_ref x =? 0.

(** The first entry with the property. *)
Definition find_ix (f : inode → bool) (l : list inode) : option nat := fst <$> list_find f l.

(** The entry iget() returns and the table it leaves; [None] when it panics. *)
Definition iget_in (tbl : list inode) (dev inum : Z) : option (nat * list inode) :=
  match find_ix (imatch dev inum) tbl with
  | Some i => Some (i, alter (upd_i_ref (λ r, r + 1)) i tbl)
  | None =>
      match find_ix ifree tbl with
      | Some i => Some (i, alter (λ x, upd_i_valid (λ _, 0) (upd_i_ref (λ _, 1)
                    (upd_i_inum (λ _, inum) (upd_i_dev (λ _, dev) x)))) i tbl)
      | None => None
      end
  end.

(** Every inode in use has one entry. *)
Record itable_ok (tbl : list inode) : Prop := {
  it_length : length tbl = Z.to_nat NINODE;
  it_ref : ∀ i x, tbl !! i = Some x → 0 ≤ i_ref x;
  it_unique : ∀ i j x y, tbl !! i = Some x → tbl !! j = Some y → 0 < i_ref x → 0 < i_ref y →
    i_dev x = i_dev y → i_inum x = i_inum y → i = j;
}.

Lemma find_ix_Some f l i :
  find_ix f l = Some i ↔ ∃ x, l !! i = Some x ∧ f x = true ∧ ∀ j y, l !! j = Some y → (j < i)%nat → f y = false.
Proof.
  unfold find_ix. rewrite fmap_Some. split.
  - intros ([j x] & (H1 & H2 & H3)%list_find_Some & ->). exists x. split_and!; [done|by apply Is_true_true|].
    intros j' y Hj Hlt. specialize (H3 _ _ Hj Hlt). by apply Is_true_false.
  - intros (x & H1 & H2 & H3). exists (i, x). split; [|done]. apply list_find_Some.
    split_and!; [done|by apply Is_true_true|]. intros j y Hj Hlt. by rewrite (H3 j y Hj Hlt); intros [].
Qed.

Lemma find_ix_None f l : find_ix f l = None ↔ ∀ i x, l !! i = Some x → f x = false.
Proof.
  unfold find_ix. rewrite fmap_None, list_find_None, Forall_lookup.
  split; intros H i x Hi; specialize (H i x Hi); [by apply Is_true_false|by rewrite H; intros []].
Qed.

Lemma find_ix_S f l i x :
  l !! i = Some x →
  find_ix f (take (S i) l) =
    match find_ix f (take i l) with Some j => Some j | None => if f x then Some i else None end.
Proof.
  intros Hx. rewrite (take_S_r _ _ _ Hx). unfold find_ix.
  destruct (list_find f (take i l)) as [[j y]|] eqn:E; [by rewrite (list_find_app_l _ _ _ _ _ E)|].
  rewrite (list_find_app_r _ _ _ E). simpl.
  pose proof (lookup_lt_Some _ _ _ Hx). rewrite length_take_le by lia.
  unfold decide, is_Some_dec. destruct (f x) eqn:Ef; simpl; by rewrite ?Ef.
Qed.

(** An entry is replaced by one that no other entry is in use for. *)
Lemma itable_ok_insert tbl i x :
  itable_ok tbl → 0 ≤ i_ref x →
  (∀ j y, j ≠ i → tbl !! j = Some y → 0 < i_ref y → 0 < i_ref x →
     ¬ (i_dev y = i_dev x ∧ i_inum y = i_inum x)) →
  itable_ok (<[i := x]> tbl).
Proof.
  intros [T1 T2 T3] Hr Hu. split; [by rewrite length_insert| |].
  - intros j y [(-> & <- & _)|[_ Hy]]%list_lookup_insert_Some; [done|by eapply T2].
  - intros a b y z [(-> & <- & _)|[Ha Hy]]%list_lookup_insert_Some
      [(-> & <- & _)|[Hb Hz]]%list_lookup_insert_Some H1 H2 E1 E2; try done.
    + by destruct (Hu b z).
    + by destruct (Hu a y).
    + by apply (T3 a b y z).
Qed.

Lemma imatch_true dev inum x :
  imatch dev inum x = true ↔ 0 < i_ref x ∧ i_dev x = dev ∧ i_inum x = inum.
Proof. unfold imatch. rewrite !andb_true_iff, Z.ltb_lt, !Z.eqb_eq. tauto. Qed.

(** iget() keeps it so, and returns an entry of the inode. *)
Lemma iget_in_ok tbl dev inum i tbl' :
  itable_ok tbl → iget_in tbl dev inum = Some (i, tbl') →
  itable_ok tbl' ∧ (∃ x, tbl' !! i = Some x ∧ i_dev x = dev ∧ i_inum x = inum ∧ 0 < i_ref x) ∧
  ∀ j, j ≠ i → tbl' !! j = tbl !! j.
Proof.
  intros Hok Hg. unfold iget_in in Hg.
  destruct (find_ix (imatch dev inum) tbl) as [j|] eqn:E1.
  - injection Hg as <- <-. apply find_ix_Some in E1 as (x & Hx & (H1 & H2 & H3)%imatch_true & _).
    rewrite (list_alter_is_insert _ _ _ _ Hx). pose proof (lookup_lt_Some _ _ _ Hx).
    split_and!; [apply itable_ok_insert; [done|simpl; lia|]| |].
    + intros b y Hb Hy H4 _ [E1 E2]. by destruct Hb, (it_unique _ Hok b j y x).
    + eexists. rewrite list_lookup_insert_eq by done. split_and!; try done. simpl. lia.
    + intros b Hb. by rewrite list_lookup_insert_ne.
  - destruct (find_ix ifree tbl) as [j|] eqn:E2; [|done]. injection Hg as <- <-.
    rewrite find_ix_None in E1. apply find_ix_Some in E2 as (x & Hx & Hf & _).
    rewrite (list_alter_is_insert _ _ _ _ Hx). pose proof (lookup_lt_Some _ _ _ Hx).
    split_and!; [apply itable_ok_insert; [done|done|]| |].
    + simpl. intros b y Hb Hy H4 _ [H5 H6]. specialize (E1 _ _ Hy).
      by rewrite (proj2 (imatch_true dev inum y)) in E1.
    + eexists. rewrite list_lookup_insert_eq by done. done.
    + intros b Hb. by rewrite list_lookup_insert_ne.
Qed.

Lemma iget_in_room tbl dev inum x :
  x ∈ tbl → imatch dev inum x = true ∨ i_ref x = 0 → is_Some (iget_in tbl dev inum).
Proof.
  intros [j Hx]%list_elem_of_lookup Hor. unfold iget_in.
  destruct (find_ix (imatch dev inum) tbl) as [i|] eqn:E1; [done|].
  destruct (find_ix ifree tbl) as [i|] eqn:E2; [done|].
  rewrite find_ix_None in E1, E2. specialize (E1 _ _ Hx). specialize (E2 _ _ Hx).
  unfold ifree in E2. apply Z.eqb_neq in E2. destruct Hor; congruence.
Qed.

(** ** The functions *)

Section iget_specs.
Context `{OTH : Others} (me : nat) (k : kernel) (Hrun : running me k).

Lemma iget_spec dev inum i tbl' :
  length (itable (fs k)) = Z.to_nat NINODE → iget_in (itable (fs k)) dev inum = Some (i, tbl') →
  wp (iget dev inum) k (λ j k', j = i ∧ fs_after (upd_itable (λ _, tbl')) k k').
Proof.
  intros Hlen Hg. pose proof (ru_calm _ _ Hrun) as Hc. set (tbl := itable (fs k)) in *.
  assert (length tbl = 50%nat ∧ NINODE = 50) as [Hl Hnn] by (by rewrite Hlen).
  unfold iget. apply wp_bind, (wp_enter _ me); [done|]. set (k0 := upd_hs _ k).
  assert (wp (iget_scan dev inum) k0 (λ r k', match r with
    | inl j => j = i ∧ fs_after (upd_itable (λ _, tbl')) k k'
    | inr e => k' = k0 ∧ find_ix (imatch dev inum) tbl = None ∧ e = find_ix ifree tbl end)) as Hscan.
  { unfold iget_scan.
    apply (wp_loop _ (λ '(j, e) k', k' = k0 ∧ (j ≤ length tbl)%nat ∧
      find_ix (imatch dev inum) (take j tbl) = None ∧ e = find_ix ifree (take j tbl))
      (λ '(j, _) _, Z.of_nat (length tbl) - Z.of_nat j)); [| |lia].
    2: { split_and!; [done|lia|done|done]. }
    intros [j e] ? (-> & Hj & Hn & ->). destruct (Z.ltb_spec (Z.of_nat j) NINODE) as [Hlt|Hge]; cycle 1.
    { wp_pure. assert (j = length tbl) as -> by lia. by rewrite !firstn_all in *. }
    destruct (lookup_lt_is_Some_2 tbl j) as [x Hx]; [lia|].
    wp_pure. unfold id. change (fs k0) with (fs k). rewrite (inode_of_lookup _ _ _ Hx).
    fold (imatch dev inum x). destruct (imatch dev inum x) eqn:Em.
    - wp_pure. eapply (wp_leave _ me (hs k)); [done|done|]. intros h' Hh'. wp_pure.
      assert (find_ix (imatch dev inum) tbl = Some j) as Ef.
      { apply find_ix_Some. exists x. split_and!; [done|done|]. intros a y Ha Hlt'.
        rewrite find_ix_None in Hn. apply (Hn a). by rewrite lookup_take_lt. }
      unfold iget_in in Hg. rewrite Ef in Hg. injection Hg as <- <-. split; [done|].
      split; [by split|done].
    - wp_pure. split; [|lia]. split_and!; [done|lia|by rewrite (find_ix_S _ _ _ _ Hx), Hn, Em|].
      rewrite (find_ix_S _ _ _ _ Hx). by destruct (find_ix ifree (take j tbl)). }
  wp_pure. eapply wp_mono; [exact Hscan|]. intros [j|e] k1; [intros [-> H1]; by wp_pure|].
  intros (-> & Hn & ->). unfold iget_in in Hg. rewrite Hn in Hg.
  destruct (find_ix ifree tbl) as [j|] eqn:Ef; [|done]. injection Hg as <- <-. wp_pure.
  rewrite !set_inode_twice. eapply (wp_leave _ me (hs k)); [done|done|]. intros h' Hh'. wp_pure.
  split; [done|]. split; [by split|done].
Qed.

Lemma idup_spec ip :
  wp (idup ip) k (λ j k', j = ip ∧ fs_after (upd_itable (alter (upd_i_ref (λ r, r + 1)) ip)) k k').
Proof.
  pose proof (ru_calm _ _ Hrun) as Hc. unfold idup. apply wp_bind, (wp_enter _ me); [done|]. wp_pure.
  eapply (wp_leave _ me (hs k)); [done|done|]. intros h' Hh'. wp_pure.
  split; [done|]. split; [by split|done].
Qed.

(** iput() of a reference that is not the last one to a deleted inode. *)
Lemma iput_keep_spec ip x :
  itable (fs k) !! ip = Some x → i_ref x ≠ 1 ∨ i_valid x = 0 ∨ i_nlink x ≠ 0 →
  wp (iput ip) k (λ _ k', fs_after (upd_itable (alter (upd_i_ref (λ r, r - 1)) ip)) k k').
Proof.
  intros Hx Hkeep. pose proof (ru_calm _ _ Hrun) as Hc. unfold iput.
  apply wp_bind, (wp_enter _ me); [done|]. wp_pure. unfold id. simpl fs. rewrite (inode_of_lookup _ _ _ Hx).
  assert ((i_ref x =? 1) && nz (i_valid x) && (i_nlink x =? 0) = false) as ->.
  { unfold nz. destruct (Z.eqb_spec (i_ref x) 1), (Z.eqb_spec (i_valid x) 0), (Z.eqb_spec (i_nlink x) 0);
      naive_solver. }
  wp_pure. eapply (wp_leave _ me (hs k)); [done|done|]. intros h' Hh'. split; [by split|done].
Qed.
End iget_specs.

(** iput() undoes iget(). *)
Lemma iput_iget tbl dev inum i tbl' x :
  iget_in tbl dev inum = Some (i, tbl') → tbl !! i = Some x → imatch dev inum x = true →
  alter (upd_i_ref (λ r, r - 1)) i tbl' = tbl.
Proof.
  intros Hg Hx Hm. unfold iget_in in Hg. destruct (find_ix (imatch dev inum) tbl) as [j|] eqn:E1.
  - injection Hg as <- <-. rewrite list_alter_alter_eq. apply list_eq. intros a.
    rewrite list_lookup_alter. case_decide; [subst|done]. rewrite Hx. simpl. f_equal.
    destruct x. unfold upd_i_ref. simpl. f_equal. lia.
  - rewrite find_ix_None in E1. by rewrite (E1 _ _ Hx) in Hm.
Qed.
