(* ===== verification/FsFile.v ===== *)
(** * The contents of a file

    The block map of an inode (12 direct blocks and one indirect block) as a
    function from block numbers in the file to disk blocks, what it means for
    an inode to own its blocks, and how allocation changes the map without
    changing the contents: a block that is missing reads as zeros. *)

From stdpp Require Import gmap list strings.
From Stdlib Require Import ZArith Lia.
From S2P Require Import Prelude Mem Params FsData Machine Spinlock Sched Sleeplock Ring Bio.
From S2P Require Import BioSpec Log LogDisk LogSpec LogCommit LogTheorems FsTxn Kalloc Vm Fs.
From S2P Require Import FsAlloc FsInode.
#[local] Open Scope Z_scope.

Definition iaddr (x : inode) (j : Z) : Z := default 0 (i_addrs x !! Z.to_nat j).
Definition set_iaddr (j v : Z) (x : inode) : inode := upd_i_addrs <[Z.to_nat j := v]> x.

(** The disk block of block [bn] of the file; 0 if there is none. *)
Definition fmap_at (V : view) (x : inode) (bn : Z) : Z :=
  if bn <? NDIRECT then iaddr x bn
  else if iaddr x NDIRECT =? 0 then 0
  else bld 4 (4 * (bn - NDIRECT)) (V (iaddr x NDIRECT)).

(** Its contents. *)
Definition fblk (V : view) (x : inode) (bn : Z) : block :=
  if fmap_at V x bn =? 0 then zero_block else V (fmap_at V x bn).

Definition in_file (bn : Z) : Prop := 0 ≤ bn < MAXFILE.

(** The blocks of the file, the indirect one included. *)
Definition owns (V : view) (x : inode) (n : Z) : Prop :=
  n ≠ 0 ∧ (n = iaddr x NDIRECT ∨ ∃ bn, in_file bn ∧ fmap_at V x bn = n).

Ltac file_lia :=
  unfold in_file, MAXFILE, NINDIRECT, NDIRECT, BSIZE in *; change (1024 / 4) with 256 in *; lia.

Section files.
Context (hm : Z → Prop) (s : superblock).

(** A block of inodes. *)
Definition not_iblock (n : Z) : Prop := ∀ i, 0 ≤ i < sb_ninodes s → IBLOCK i s ≠ n.

(** A block a file can own. *)
Record dblock (V : view) (a : Z) : Prop := {
  db_blkno : blkno s a;
  db_used : used s V a = true;
  db_home : hm a;
  db_bitmap : not_bitmap s a;
  db_iblock : not_iblock a;
}.

Record file_ok (V : view) (x : inode) : Prop := {
  fo_len : length (i_addrs x) = 13%nat;
  fo_data : ∀ bn, in_file bn → fmap_at V x bn ≠ 0 → dblock V (fmap_at V x bn);
  fo_ind : iaddr x NDIRECT ≠ 0 → dblock V (iaddr x NDIRECT);
  fo_inj : ∀ bn bn', in_file bn → in_file bn' → fmap_at V x bn ≠ 0 →
    fmap_at V x bn = fmap_at V x bn' → bn = bn';
  fo_sep : ∀ bn, in_file bn → fmap_at V x bn ≠ 0 → fmap_at V x bn ≠ iaddr x NDIRECT;
}.

(** The effect of balloc() on the contents of the disk. *)
Record alloc_step (V : view) (a : Z) (V' : view) : Prop := {
  as_blkno : blkno s a;
  as_nonzero : a ≠ 0;
  as_free : used s V a = false;
  as_home : hm a;
  as_bitmap : not_bitmap s a;
  as_iblock : not_iblock a;
  as_zero : V' a = zero_block;
  as_used : ∀ c, blkno s c → used s V' c = if decide (a = c) then true else used s V c;
  as_same : ∀ n, not_bitmap s n → n ≠ a → V' n = V n;
}.

Lemma alloc_dblock V a V' : alloc_step V a V' → dblock V' a.
Proof. intros []. split; try done. rewrite as_used0 by done. by rewrite decide_True. Qed.

Lemma dblock_alloc V a V' b : alloc_step V a V' → dblock V b → dblock V' b ∧ b ≠ a ∧ V' b = V b.
Proof.
  intros [A1 A0 A2 A3 A4 A5 A6 A7 A8] [D1 D2 D3 D4 D5].
  assert (b ≠ a) as Hne by congruence. split_and!; [|done|by apply A8].
  split; try done. rewrite A7 by done. by case_decide.
Qed.

Lemma length_set_iaddr j v x : length (i_addrs (set_iaddr j v x)) = length (i_addrs x).
Proof. apply length_insert. Qed.

Lemma iaddr_set j v x j' :
  length (i_addrs x) = 13%nat → 0 ≤ j ≤ NDIRECT → 0 ≤ j' →
  iaddr (set_iaddr j v x) j' = if decide (j = j') then v else iaddr x j'.
Proof.
  intros Hl Hj Hj'. unfold iaddr, set_iaddr. simpl. unfold NDIRECT in *. case_decide.
  - subst. by rewrite list_lookup_insert_eq by lia.
  - by rewrite list_lookup_insert_ne by lia.
Qed.

(** Allocation alone changes nothing. *)
Lemma fmap_alloc V a V' x bn :
  alloc_step V a V' → file_ok V x → fmap_at V' x bn = fmap_at V x bn.
Proof.
  intros Ha Hf. unfold fmap_at. destruct (Z.ltb_spec bn NDIRECT); [done|].
  destruct (Z.eqb_spec (iaddr x NDIRECT) 0) as [|E]; [done|].
  by destruct (dblock_alloc _ _ _ _ Ha (fo_ind _ _ Hf E)) as (_ & _ & ->).
Qed.

Lemma fblk_alloc V a V' x bn :
  alloc_step V a V' → file_ok V x → in_file bn → fblk V' x bn = fblk V x bn.
Proof.
  intros Ha Hf Hbn. unfold fblk. rewrite (fmap_alloc _ _ _ _ _ Ha Hf).
  destruct (Z.eqb_spec (fmap_at V x bn) 0) as [|E]; [done|].
  by destruct (dblock_alloc _ _ _ _ Ha (fo_data _ _ Hf _ Hbn E)) as (_ & _ & ->).
Qed.

Lemma fresh_in_file V a V' x :
  alloc_step V a V' → file_ok V x →
  (∀ bn, in_file bn → fmap_at V x bn ≠ a) ∧ iaddr x NDIRECT ≠ a.
Proof.
  intros Ha Hf. pose proof (as_nonzero _ _ _ Ha). split.
  - intros bn Hbn E. assert (fmap_at V x bn ≠ 0) as Hne by congruence.
    by destruct (dblock_alloc _ _ _ _ Ha (fo_data _ _ Hf _ Hbn Hne)) as (_ & Hna & _).
  - intros E. assert (iaddr x NDIRECT ≠ 0) as Hne by congruence.
    by destruct (dblock_alloc _ _ _ _ Ha (fo_ind _ _ Hf Hne)) as (_ & Hna & _).
Qed.

(** The new block [a] becomes block [bn] of the file, through the new inode
    [x'] or the new indirect block in [W]. *)
Section attach.
Context (V V' W : view) (a bn : Z) (x x' : inode).
Context (Ha : alloc_step V a V') (Hf : file_ok V x) (Hbn : in_file bn) (H0 : fmap_at V x bn = 0).
Context (Hlen : length (i_addrs x') = 13%nat).
Context (Hind : iaddr x' NDIRECT = iaddr x NDIRECT).
Context (HW : ∀ n, n ≠ iaddr x NDIRECT → W n = V' n).
Context (Hu : ∀ c, blkno s c → used s W c = used s V' c).
Context (Hmap : ∀ b, in_file b → fmap_at W x' b = if decide (b = bn) then a else fmap_at V x b).

Lemma attach_dblock b : dblock V b → dblock W b.
Proof.
  intros Hb. destruct (dblock_alloc _ _ _ _ Ha Hb) as [[D1 D2 D3 D4 D5] _].
  split; try done. by rewrite Hu.
Qed.

Lemma attach_ok : file_ok W x'.
Proof.
  destruct (fresh_in_file _ _ _ _ Ha Hf) as [Hfr1 Hfr2]. pose proof (as_nonzero _ _ _ Ha) as Ha0.
  assert (dblock W a) as HWa.
  { destruct (alloc_dblock _ _ _ Ha). split; try done. by rewrite Hu. }
  split; [done| | | |].
  - intros b Hb. rewrite Hmap by done. case_decide; [done|]. intros Hne.
    by apply attach_dblock, (fo_data _ _ Hf).
  - rewrite Hind. intros Hne. by apply attach_dblock, (fo_ind _ _ Hf).
  - intros b b' Hb Hb'. rewrite !Hmap by done.
    pose proof (Hfr1 b Hb). pose proof (Hfr1 b' Hb'). repeat case_decide; subst; try done.
    apply (fo_inj _ _ Hf); done.
  - intros b Hb. rewrite Hmap, Hind by done. case_decide; [done|]. by apply (fo_sep _ _ Hf).
Qed.

Lemma attach_fblk b : in_file b → fblk W x' b = fblk V x b.
Proof.
  intros Hb. unfold fblk. rewrite Hmap by done. pose proof (as_nonzero _ _ _ Ha) as Ha0.
  destruct (fresh_in_file _ _ _ _ Ha Hf) as [Hfr1 Hfr2]. case_decide as E.
  - subst b. rewrite H0. destruct (Z.eqb_spec a 0); [done|]. simpl.
    rewrite HW by congruence. apply Ha.
  - destruct (Z.eqb_spec (fmap_at V x b) 0) as [|Hne]; [done|].
    rewrite HW by (by apply (fo_sep _ _ Hf)).
    by destruct (dblock_alloc _ _ _ _ Ha (fo_data _ _ Hf _ Hb Hne)) as (_ & _ & ->).
Qed.

Lemma attach_own n : used s V n = true → owns W x' n → owns V x n.
Proof.
  intros Hn [H1 [H2|(b & Hb & H2)]]; (split; [done|]).
  - left. by rewrite <-Hind.
  - rewrite Hmap in H2 by done. case_decide; [|right; by exists b].
    pose proof (as_free _ _ _ Ha). congruence.
Qed.
End attach.

(** What allocating block [bn] has achieved. *)
Record grown (V : view) (x : inode) (bn a : Z) (W : view) (x' : inode) : Prop := {
  gr_ok : file_ok W x';
  gr_map : fmap_at W x' bn = a;
  gr_nonzero : a ≠ 0;
  gr_same : ∀ b, in_file b → fblk W x' b = fblk V x b;
  gr_keep : ∀ b, in_file b → fmap_at V x b ≠ 0 → fmap_at W x' b = fmap_at V x b;
  gr_own : ∀ n, blkno s n → used s V n = true → owns W x' n → owns V x n;
  gr_inode : x' = upd_i_addrs (λ _, i_addrs x') x;
}.

Lemma set_iaddr_addrs j v x : set_iaddr j v x = upd_i_addrs (λ _, i_addrs (set_iaddr j v x)) x.
Proof. by destruct x. Qed.

Lemma grow_direct V a V' x bn :
  alloc_step V a V' → file_ok V x → 0 ≤ bn < NDIRECT → iaddr x bn = 0 →
  grown V x bn a V' (set_iaddr bn a x).
Proof.
  intros Ha Hf Hbn H0. assert (in_file bn) as Hin by file_lia.
  pose proof (fo_len _ _ Hf) as Hl.
  assert (iaddr (set_iaddr bn a x) NDIRECT = iaddr x NDIRECT) as Hi
    by (rewrite iaddr_set, decide_False by file_lia; done).
  assert (∀ b, in_file b → fmap_at V' (set_iaddr bn a x) b = if decide (b = bn) then a else fmap_at V x b)
    as Hmap.
  { intros b Hb. rewrite <-(fmap_alloc _ _ _ _ b Ha Hf). unfold fmap_at. rewrite Hi.
    unfold in_file in Hb. destruct (Z.ltb_spec b NDIRECT).
    - rewrite iaddr_set by file_lia. repeat case_decide; done || file_lia.
    - rewrite decide_False by file_lia. done. }
  assert (fmap_at V x bn = 0) as Hz.
  { unfold fmap_at. destruct (Z.ltb_spec bn NDIRECT); [done|lia]. }
  split; [| |apply Ha| | | |apply set_iaddr_addrs].
  - eapply (attach_ok V V' V' a bn x); try done. by rewrite length_set_iaddr.
  - rewrite Hmap by done. by rewrite decide_True.
  - intros b Hb. by eapply (attach_fblk V V' V' a bn x).
  - intros b Hb Hne. rewrite Hmap by done. case_decide; congruence.
  - intros n _. by eapply attach_own.
Qed.

Lemma grow_entry V a V' x bn :
  let ind := iaddr x NDIRECT in
  alloc_step V a V' → file_ok V x → NDIRECT ≤ bn < MAXFILE → ind ≠ 0 → 0 ≤ a < 2 ^ 32 →
  length (V' ind) = Z.to_nat BSIZE → fmap_at V x bn = 0 →
  grown V x bn a (vset V' ind (bst 4 (4 * (bn - NDIRECT)) a (V' ind))) x.
Proof.
  intros ind Ha Hf Hbn Hind Har Hlen H0.
  assert (in_file bn) as Hin by file_lia.
  set (W := vset _ _ _). pose proof (fo_ind _ _ Hf Hind) as Hdi. fold ind in Hdi.
  assert (∀ b, in_file b → fmap_at W x b = if decide (b = bn) then a else fmap_at V x b) as Hmap.
  { intros b Hb. rewrite <-(fmap_alloc _ _ _ _ b Ha Hf). unfold fmap_at. fold ind.
    unfold in_file in Hb. destruct (Z.ltb_spec b NDIRECT); [by rewrite decide_False by lia|].
    destruct (Z.eqb_spec ind 0); [done|]. unfold W. rewrite vset_eq.
    unfold MAXFILE, NINDIRECT, NDIRECT, BSIZE in *. change (1024 / 4) with 256 in *. case_decide.
    - subst b. rewrite bld_bst by lia. change (256 ^ Z.of_nat 4) with (2 ^ 32). by apply Z.mod_small.
    - rewrite bld_bst_out by lia. done. }
  split; [| |apply Ha| | | |by destruct x].
  - eapply (attach_ok V V' W a bn x); try done; [apply Hf|].
    intros c Hc. apply used_other; [apply Hdi|done].
  - rewrite Hmap by done. by rewrite decide_True.
  - intros b Hb. eapply (attach_fblk V V' W a bn x); try done.
    intros n Hn. unfold W. by rewrite vset_ne.
  - intros b Hb Hne. rewrite Hmap by done. case_decide; congruence.
  - intros n _. by eapply attach_own.
Qed.

Lemma bld_zero_block n off : bld n off zero_block = 0.
Proof.
  unfold bld, zero_block. rewrite drop_replicate, take_replicate.
  generalize (n `min` (Z.to_nat BSIZE - Z.to_nat off))%nat as m.
  induction m as [|m IH]; [done|]. cbn [replicate le_val]. by rewrite IH.
Qed.

(** A new, empty indirect block. *)
Lemma grow_indirect V a V' x :
  alloc_step V a V' → file_ok V x → iaddr x NDIRECT = 0 →
  let x' := set_iaddr NDIRECT a x in
  file_ok V' x' ∧ iaddr x' NDIRECT = a ∧ (∀ b, in_file b → fmap_at V' x' b = fmap_at V x b) ∧
  (∀ b, in_file b → fblk V' x' b = fblk V x b) ∧
  (∀ n, blkno s n → used s V n = true → used s V' n = true ∧ (owns V' x' n → owns V x n)).
Proof.
  intros Ha Hf H0 x'. pose proof (fo_len _ _ Hf) as Hl. pose proof (as_nonzero _ _ _ Ha) as Ha0.
  assert (iaddr x' NDIRECT = a) as Hi.
  { unfold x'. rewrite iaddr_set by file_lia. by rewrite decide_True. }
  assert (∀ b, in_file b → fmap_at V' x' b = fmap_at V x b) as Hmap.
  { intros b Hb. unfold fmap_at. rewrite Hi, H0. simpl. unfold in_file in Hb.
    destruct (Z.ltb_spec b NDIRECT).
    - unfold x'. rewrite iaddr_set by file_lia. by rewrite decide_False by lia.
    - destruct (Z.eqb_spec a 0); [done|]. rewrite (as_zero _ _ _ Ha). apply bld_zero_block. }
  destruct (fresh_in_file _ _ _ _ Ha Hf) as [Hfr1 Hfr2].
  split_and!; [|done|done| |].
  - split.
    + unfold x'. by rewrite length_set_iaddr.
    + intros b Hb. rewrite Hmap by done. intros Hne.
      by apply (dblock_alloc _ _ _ _ Ha), (fo_data _ _ Hf).
    + rewrite Hi. intros _. by eapply alloc_dblock.
    + intros b b' Hb Hb'. rewrite !Hmap by done. by apply (fo_inj _ _ Hf).
    + intros b Hb. rewrite Hmap, Hi by done. intros _. by apply Hfr1.
  - intros b Hb. unfold fblk. rewrite Hmap by done.
    destruct (Z.eqb_spec (fmap_at V x b) 0) as [|Hne]; [done|].
    by destruct (dblock_alloc _ _ _ _ Ha (fo_data _ _ Hf _ Hb Hne)) as (_ & _ & ->).
  - intros n Hn Hu. rewrite (as_used _ _ _ Ha) by done. split; [by case_decide|].
    intros [O1 [O2|(b & Hb & O2)]]; (split; [done|]).
    + pose proof (as_free _ _ _ Ha). congruence.
    + right. exists b. by rewrite <-Hmap.
Qed.
End files.

(** The predicates under an equivalent [hm]. *)
Lemma dblock_hm (hm hm' : Z → Prop) s V a : (∀ n, hm n → hm' n) → dblock hm s V a → dblock hm' s V a.
Proof. intros Hh []. split; auto. Qed.

Lemma file_ok_hm (hm hm' : Z → Prop) s V x :
  (∀ n, hm n → hm' n) → file_ok hm s V x → file_ok hm' s V x.
Proof.
  intros Hh []. split; try done.
  - intros bn Hbn Hne. eapply dblock_hm; eauto.
  - intros Hne. eapply dblock_hm; eauto.
Qed.

Lemma grown_hm (hm hm' : Z → Prop) s V x bn a W x' :
  (∀ n, hm n → hm' n) → grown hm s V x bn a W x' → grown hm' s V x bn a W x'.
Proof. intros Hh []. split; try done. by eapply file_ok_hm. Qed.

(** Growing a file that was given an empty indirect block before. *)
Lemma grown_after hm s V x V1 x1 bn a W x' :
  x1 = upd_i_addrs (λ _, i_addrs x1) x → (∀ b, in_file b → fblk V1 x1 b = fblk V x b) →
  (∀ b, in_file b → fmap_at V1 x1 b = fmap_at V x b) →
  (∀ n, blkno s n → used s V n = true → used s V1 n = true ∧ (owns V1 x1 n → owns V x n)) →
  grown hm s V1 x1 bn a W x' → grown hm s V x bn a W x'.
Proof.
  intros E1 Hs Hm Ho [G1 G2 G3 G4 G5 G6 G7]. split; try done.
  - intros b Hb. by rewrite G4, Hs.
  - intros b Hb Hne. rewrite <-(Hm b Hb) in Hne |- *. by apply G5.
  - intros n Hn Hu Hw. destruct (Ho n Hn Hu) as [? Ho']. auto.
  - rewrite G7, E1. by destruct x.
Qed.
