(* ===== verification/FsBmap.v ===== *)
(** * bmap()

    bmap() returns the disk block of a block of the file.  Where there is none
    it allocates one, without changing what the file contains. *)

From stdpp Require Import gmap list strings.
From Stdlib Require Import ZArith Lia.
From S2P Require Import Prelude Mem Str Params FsData Machine Spinlock Sched Sleeplock Ring Bio BioSpec Log LogDisk LogSpec LogCommit LogTheorems FsTxn Kalloc Vm Fs.
From S2P Require Import FsAlloc FsInode FsFile.
#[local] Open Scope Z_scope.

Ltac wp_prim ::= wp_ino.

(** The layout of the disk: the bitmap, and the inode blocks. *)
Record layout_ok (k : kernel) (V : view) : Prop := {
  ly_bitmap : bitmap_ok k V;
  ly_istart : 0 ≤ sb_inodestart (sb (fs k)) ∧
    sb_inodestart (sb (fs k)) + sb_ninodes (sb (fs k)) / IPB < 2 ^ 31;
  ly_iblock : ∀ i, 0 ≤ i < sb_ninodes (sb (fs k)) →
    let n := IBLOCK i (sb (fs k)) in
    blkno (sb (fs k)) n ∧ used (sb (fs k)) V n = true ∧ fshome k n ∧ not_bitmap (sb (fs k)) n;
}.

(** Blocks in use stay in use, and keep their contents unless [own]. *)
Record kept (s : superblock) (own : Z → Prop) (V V' : view) : Prop := {
  kp_used : ∀ c, blkno s c → used s V c = true → used s V' c = true;
  kp_same : ∀ n, blkno s n → used s V n = true → not_bitmap s n → ¬ own n → V' n = V n;
}.

Lemma kept_refl s own V : kept s own V V.
Proof. by split. Qed.

Lemma kept_trans s (own1 own2 own3 : Z → Prop) V1 V2 V3 :
  (∀ n, own1 n → own3 n) → (∀ n, own2 n → own3 n ∨ (blkno s n → used s V1 n = false)) →
  kept s own1 V1 V2 → kept s own2 V2 V3 → kept s own3 V1 V3.
Proof.
  intros H1 H2 [A1 A2] [B1 B2]. split; [auto|]. intros n Hn Hu Hb Ho.
  rewrite B2; [apply A2|done|by apply A1|done|]; auto.
  intros Ho2. destruct (H2 n Ho2) as [?|Hu']; [done|]. rewrite Hu' in Hu; done.
Qed.

Lemma kept_mono s (own own' : Z → Prop) V V' :
  (∀ n, own n → own' n) → kept s own V V' → kept s own' V V'.
Proof. intros Ho [H1 H2]. split; [done|]. intros n Hn Hu Hb Hno. apply H2; auto. Qed.

Lemma layout_same k k' V : same_disk k k' → layout_ok k V → layout_ok k' V.
Proof.
  intros Hq [L1 L0 L2]. split; [by eapply bitmap_ok_same|by rewrite (sd_sb _ _ Hq)|]. rewrite (sd_sb _ _ Hq).
  intros i Hi. destruct (L2 i Hi) as (? & ? & ? & ?). split_and!; try done.
  by apply (same_fshome _ _ _ Hq).
Qed.

Lemma iblock_inj k V i j :
  layout_ok k V → 0 ≤ i < sb_ninodes (sb (fs k)) → 0 ≤ j < sb_ninodes (sb (fs k)) →
  IBLOCK i (sb (fs k)) = IBLOCK j (sb (fs k)) → i mod IPB = j mod IPB → i = j.
Proof.
  intros [_ [L1 L2] _] Hi Hj. unfold IBLOCK.
  assert (∀ c, 0 ≤ c < sb_ninodes (sb (fs k)) → 0 ≤ c / IPB ≤ sb_ninodes (sb (fs k)) / IPB) as Hd.
  { intros c Hc. split; [apply Z.div_pos; [lia|done]|apply Z.div_le_mono; [done|lia]]. }
  pose proof (Hd i Hi). pose proof (Hd j Hj). rewrite !u32_small by lia. intros E1 E2.
  rewrite (Z.div_mod i IPB), (Z.div_mod j IPB) by done. lia.
Qed.

Lemma alloc_step_same k k' s V a V' :
  same_disk k k' → alloc_step (fshome k) s V a V' → alloc_step (fshome k') s V a V'.
Proof. intros Hq []. split; try done. by apply (same_fshome _ _ _ Hq). Qed.

Lemma layout_kept k V V' own : layout_ok k V → kept (sb (fs k)) own V V' → layout_ok k V'.
Proof.
  intros [L1 L0 L2] [K1 _]. split; [by eapply bitmap_ok_more|done|].
  intros i Hi. destruct (L2 i Hi) as (? & ? & ? & ?). split_and!; try done. by apply K1.
Qed.

(** [n] blocks are free. *)
Definition avail (s : superblock) (V : view) (n : nat) : Prop :=
  ∃ l, NoDup l ∧ (n ≤ length l)%nat ∧ ∀ b, b ∈ l → blkno s b ∧ used s V b = false.

Lemma avail_some s V n : avail s V (S n) → ∃ b, blkno s b ∧ used s V b = false.
Proof.
  intros ([|b l] & _ & Hl & Hf); [simpl in Hl; lia|]. exists b. apply Hf. by left.
Qed.

Lemma avail_less s V n m : (m ≤ n)%nat → avail s V n → avail s V m.
Proof. intros Hm (l & H1 & H2 & H3). exists l. split_and!; [done|lia|done]. Qed.

Lemma avail_step s V a V' n :
  (∀ c, blkno s c → used s V' c = if decide (a = c) then true else used s V c) →
  avail s V (S n) → avail s V' n.
Proof.
  intros Hu (l & Hnd & Hl & Hf). exists (filter (λ b, b ≠ a) l). split_and!.
  - by apply NoDup_filter.
  - assert (length l ≤ S (length (filter (λ b, b ≠ a) l)))%nat; [|lia].
    clear Hl Hf. induction l as [|b l IH]; [simpl; lia|].
    apply NoDup_cons in Hnd as [Hb Hnd]. rewrite filter_cons. case_decide as E.
    + simpl. specialize (IH Hnd). lia.
    + assert (b = a) as -> by (destruct (decide (b = a)); naive_solver).
      replace (filter (λ b, b ≠ a) l) with l; [simpl; lia|]. symmetry. clear IH Hnd E.
      induction l as [|c l IH]; [done|]. rewrite filter_cons, decide_True by set_solver.
      f_equal. apply IH. set_solver.
  - intros b [Hb Hin]%list_elem_of_filter. destruct (Hf b Hin) as [? ?]. split; [done|].
    rewrite Hu by done. by rewrite decide_False.
Qed.

Section bmap_specs.
Context `{OTH : Others} (me : nat) (pid : Z).
Abbreviation op := (op me pid).

Lemma balloc_step k V H r :
  let s := sb (fs k) in
  op 1 k V H (S (S r)) → layout_ok k V → holds_ok s V H → (size H ≤ S r)%nat → avail s V 1 →
  wp (balloc ROOTDEV) k (λ a k', ∃ V', blkq k k' ∧ op 1 k' V' H r ∧
    alloc_step (fshome k) s V a V' ∧ layout_ok k V' ∧ kept s (λ _, False) V V').
Proof.
  intros s Hop Hly HH Hr Hav. subst s. pose proof (ly_bitmap _ _ Hly) as Hbm.
  eapply wp_mono; [eapply (balloc_spec me pid k V H r); try done; by eapply avail_some|].
  intros a k' [_ (Hq & Ha & Hu & Hop')]. eexists. split_and!; [done|exact Hop'|..].
  all: destruct (allocated_used k V a Hbm Ha Hu) as (U1 & U2 & U3);
    [by intros; eapply op_block_size|].
  - split; try done.
    + intros ->. by rewrite (bm_boot _ _ Hbm) in Hu.
    + by apply (bm_free _ _ Hbm).
    + by apply (free_not_bitmap k V).
    + intros i Hi E. destruct (ly_iblock _ _ Hly i Hi) as (_ & Hu' & _).
      rewrite E in Hu'. congruence.
    + by rewrite vset_eq.
  - split; [done|apply Hly|]. intros i Hi. destruct (ly_iblock _ _ Hly i Hi) as (I1 & I2 & I3 & I4).
    split_and!; try done. rewrite U1 by done. by case_decide.
  - split.
    + intros c Hc Hcu. rewrite U1 by done. by case_decide.
    + intros n Hn Hnu Hnb _. apply U2; [done|]. congruence.
Qed.

Lemma bmap_hit o k V r ip x bn :
  op o k V ∅ r → itable (fs k) !! ip = Some x → i_dev x = ROOTDEV → in_file bn →
  fmap_at V x bn ≠ 0 →
  wp (bmap ip bn) k (λ a k', a = fmap_at V x bn ∧ blkq k k' ∧ op o k' V ∅ r).
Proof.
  intros Hop Hx Hdev Hbn Hne. pose proof (inode_of_lookup _ _ _ Hx) as Ex.
  unfold bmap. wp_pure. rewrite Ex, Hdev. unfold fmap_at in *.
  destruct (Z.ltb_spec bn NDIRECT) as [Hd|Hd].
  - wp_pure. rewrite Ex. fold (iaddr x bn). destruct (Z.eqb_spec (iaddr x bn) 0); [done|].
    by wp_pure.
  - destruct (Z.ltb_spec (bn - NDIRECT) NINDIRECT); [|file_lia]. wp_pure. rewrite Ex.
    fold (iaddr x NDIRECT). destruct (Z.eqb_spec (iaddr x NDIRECT) 0); [done|]. wp_pure.
    eapply wp_mono; [eapply (op_peek me pid o k V ∅ r (iaddr x NDIRECT) Hop); [done|rewrite map_size_empty; lia]|].
    intros i k1 (Hq1 & Hd1 & Hop1 & HHi & Hrel). wp_pure. rewrite Hd1.
    destruct (Z.eqb_spec (bld 4 (4 * (bn - NDIRECT)) (V (iaddr x NDIRECT))) 0); [done|]. wp_pure.
    eapply wp_mono; [by apply Hrel|]. intros ? k2 [Hq2 Hop2]. wp_pure.
    split_and!; [done|by etrans|done].
Qed.

(** At most [m] blocks were allocated. *)
Definition spent (s : superblock) (m : nat) (V V' : view) : Prop :=
  ∀ n, avail s V (m + n) → avail s V' n.

Lemma spent_step hm s V a V' : alloc_step hm s V a V' → spent s 1 V V'.
Proof. intros Ha n Hn. eapply avail_step; [apply Ha|done]. Qed.

Lemma spent_used s m V V' W :
  (∀ c, blkno s c → used s W c = used s V' c) → spent s m V V' → spent s m V W.
Proof.
  intros Hu Hs n Hn. destruct (Hs n Hn) as (l & H1 & H2 & H3). exists l. split_and!; [done..|].
  intros b Hb. destruct (H3 b Hb). rewrite Hu; done.
Qed.

Lemma spent_trans s m1 m2 V1 V2 V3 : spent s m1 V1 V2 → spent s m2 V2 V3 → spent s (m1 + m2) V1 V3.
Proof. intros H1 H2 n Hn. apply H2, H1. by rewrite Nat.add_assoc. Qed.

Lemma spent_more s m m' V V' : (m ≤ m')%nat → spent s m V V' → spent s m' V V'.
Proof. intros Hm H n Hn. apply H. eapply avail_less; [|exact Hn]. lia. Qed.

Lemma spent_refl s m V : spent s m V V.
Proof. intros n Hn. eapply avail_less; [|exact Hn]. lia. Qed.

(** What a call of bmap() that may allocate has done. *)
Definition bmapped (k : kernel) (V : view) (ip : nat) (x : inode) (bn : Z) (r : nat) (a : Z)
    (k' : kernel) : Prop :=
  ∃ V' x', iset ip x' k k' ∧ op 1 k' V' ∅ r ∧ layout_ok k V' ∧
    grown (fshome k) (sb (fs k)) V x bn a V' x' ∧ kept (sb (fs k)) (λ n, n ≠ 0 ∧ n = iaddr x NDIRECT) V V' ∧
    spent (sb (fs k)) 2 V V'.

Lemma grown_refl hm s V x bn :
  file_ok hm s V x → fmap_at V x bn ≠ 0 → grown hm s V x bn (fmap_at V x bn) V x.
Proof. intros. split; try done. by destruct x. Qed.

(** The indirect block [ind] is there: bmap()'s work on its entry. *)
Lemma bmap_entry k V r x bn :
  let s := sb (fs k) in
  let ind := iaddr x NDIRECT in
  op 1 k V ∅ (S (S (S r))) → layout_ok k V → file_ok (fshome k) s V x →
  NDIRECT ≤ bn < MAXFILE → ind ≠ 0 → fmap_at V x bn ≠ 0 ∨ avail s V 1 →
  wp (bp ← bread ROOTDEV ind;
      addr ← get_buf bp (λ b, bld 4 (4 * (bn - NDIRECT)) (b_data b));
      addr ← (if addr =? 0 then
                addr ← balloc ROOTDEV;
                set_buf bp (upd_b_data (bst 4 (4 * (bn - NDIRECT)) addr));;
                log_write bp;;
                mret addr
              else mret addr);
      brelse bp;;
      mret addr) k (λ a k', ∃ V', blkq k k' ∧ op 1 k' V' ∅ r ∧ layout_ok k V' ∧
        grown (fshome k) s V x bn a V' x ∧ kept s (λ n, n = ind) V V' ∧ spent s 1 V V').
Proof.
  intros s ind Hop Hly Hf Hbn Hind Hav. subst s. pose proof (fo_ind _ _ _ _ Hf Hind) as Hdi. fold ind in Hdi.
  assert (fmap_at V x bn = bld 4 (4 * (bn - NDIRECT)) (V ind)) as Em.
  { unfold fmap_at. fold ind. destruct (Z.ltb_spec bn NDIRECT); [lia|].
    by destruct (Z.eqb_spec ind 0). }
  apply wp_bind. eapply wp_mono; [eapply (op_peek me pid 1 k V ∅ _ ind Hop); [done|rewrite map_size_empty; lia]|].
  intros i k1 (Hq1 & Hd1 & Hop1 & HHi & Hrel). wp_pure. rewrite Hd1, <-Em.
  destruct (Z.eqb_spec (fmap_at V x bn) 0) as [E0|E0]; cycle 1.
  { wp_pure. eapply wp_mono; [by apply Hrel|]. intros ? k2 [Hq2 Hop2]. wp_pure. exists V.
    split_and!; [by etrans|by eapply op_less; [|exact Hop2]; lia|done|by apply grown_refl|
      apply kept_refl|apply spent_refl]. }
  destruct Hav as [?|Hav]; [done|]. wp_pure.
  assert (same_disk k k1) as Hs1 by (apply fsq_same, Hq1). pose proof (sd_sb _ _ Hs1) as Es.
  eapply wp_mono; [eapply (balloc_step k1 V); rewrite ?Es; [exact Hop1| | | |done]|].
  { by apply (layout_same k). }
  { intros j n d. rewrite insert_empty, lookup_singleton_Some. intros [_ [= <- <-]]. split; apply Hdi. }
  { rewrite insert_empty, map_size_singleton. lia. }
  rewrite Es. intros a k2 (V1 & Hq2 & Hop2 & Hal & Hly1 & Hk1).
  symmetry in Hs1. apply (alloc_step_same k1 k) in Hal; [|done]. apply (layout_same k1 k) in Hly1; [|done].
  destruct (dblock_alloc _ _ _ _ _ _ Hal Hdi) as (Hdi1 & Hne & EV). wp_pure. set (k3 := upd_fs _ k2).
  assert (blkq k2 k3) as Hq3 by apply blkq_set_data.
  set (d := bst 4 (4 * (bn - NDIRECT)) a (V1 ind)).
  assert (length (V1 ind) = Z.to_nat BSIZE) as Hlen by (by eapply op_block_size).
  assert (length d = Z.to_nat BSIZE) as Hd by (unfold d; rewrite length_bst; file_lia).
  assert (op 1 k3 V1 (<[i := (ind, d)]> ∅) (S r)) as Hop3.
  { rewrite <-(insert_insert_eq ∅ i _ (ind, V ind)). unfold d in *. rewrite EV in *.
    apply (op_set_data me pid 1 k2 V1 _ (S r) i ind (V ind) (bst 4 (4 * (bn - NDIRECT)) a));
      [done|apply lookup_insert_eq|done]. }
  eapply wp_mono; [eapply op_log_write; [exact Hop3|apply lookup_insert_eq|]|].
  { apply (same_fshome k); [|apply Hdi]. symmetry in Hs1. etrans; [exact Hs1|].
    apply fsq_same, blkq_fsq. by etrans. }
  intros ? k4 [Hq4 Hop4]. wp_pure.
  eapply wp_mono; [eapply op_brelse; [exact Hop4|rewrite vset_eq; apply lookup_insert_eq]|].
  intros ? k5 [Hq5 Hop5]. rewrite holds_fresh in Hop5 by done. wp_pure.
  assert (0 ≤ a < 2 ^ 32) as Har.
  { destruct (as_blkno _ _ _ _ _ Hal), (bm_layout _ _ (ly_bitmap _ _ Hly)) as [? _ _]. lia. }
  pose proof (grow_entry _ _ _ _ _ _ _ Hal Hf Hbn Hind Har Hlen E0) as Hgr. fold ind d in Hgr.
  assert (kept (sb (fs k)) (λ n, n = ind) V1 (vset V1 ind d)) as Hk2.
  { split.
    - intros c Hc. rewrite used_other; [done|apply Hdi|done].
    - intros n _ _ _ Hn. by rewrite vset_ne. }
  exists (vset V1 ind d). split_and!; [|done| |done| |].
  - etrans; [exact Hq1|]. etrans; [exact Hq2|]. etrans; [exact Hq3|]. by etrans.
  - by eapply layout_kept.
  - eapply kept_trans; [| |exact Hk1|exact Hk2]; naive_solver.
  - eapply spent_used; [|by eapply spent_step]. intros c Hc. apply used_other; [apply Hdi|done].
Qed.

(** balloc() for the inode: the address is stored in [addrs[j]]. *)
Lemma balloc_addr k V r ip x j :
  let s := sb (fs k) in
  op 1 k V ∅ (S (S r)) → layout_ok k V → avail s V 1 → itable (fs k) !! ip = Some x →
  wp (addr ← balloc ROOTDEV; set_addr ip j addr;; mret addr) k (λ a k', ∃ V',
    iset ip (set_iaddr j a x) k k' ∧ op 1 k' V' ∅ r ∧ alloc_step (fshome k) s V a V' ∧
    layout_ok k V' ∧ kept s (λ _, False) V V').
Proof.
  intros s Hop Hly Hav Hx. apply wp_bind.
  eapply wp_mono; [eapply (balloc_step k V ∅ r); try done|].
  { rewrite map_size_empty. lia. }
  intros a k1 (V' & Hq1 & Hop1 & Hal & Hly1 & Hk1). wp_pure. exists V'.
  split_and!; [|by apply op_upd_itable|done..].
  assert (itable (fs k1) !! ip = Some x) as Hx1 by (by rewrite (is_itable _ _ (proj2 (proj2 Hq1)))).
  eapply iset_trans; [by apply (iset_blkq ip x)|]. by apply (iset_upd ip x (set_iaddr j a)).
Qed.

Lemma bmap_spec k V r ip x bn :
  op 1 k V ∅ (5 + r) → layout_ok k V → itable (fs k) !! ip = Some x → i_dev x = ROOTDEV →
  file_ok (fshome k) (sb (fs k)) V x → in_file bn →
  fmap_at V x bn ≠ 0 ∨ avail (sb (fs k)) V 2 →
  wp (bmap ip bn) k (bmapped k V ip x bn r).
Proof.
  intros Hop Hly Hx Hdev Hf Hbn Hav. destruct (decide (fmap_at V x bn = 0)) as [E0|E0]; cycle 1.
  { eapply wp_mono; [by eapply bmap_hit|]. intros a k' (-> & Hq & Hop'). exists V, x.
    split_and!; [by apply iset_blkq|by eapply op_less; [|exact Hop']; lia|done|by apply grown_refl|
      apply kept_refl|apply spent_refl]. }
  destruct Hav as [?|Hav]; [done|]. pose proof (inode_of_lookup _ _ _ Hx) as Ex.
  assert (avail (sb (fs k)) V 1) as Hav1 by (by eapply avail_less; [|exact Hav]; lia).
  unfold bmap. wp_pure. rewrite Ex, Hdev. destruct (Z.ltb_spec bn NDIRECT) as [Hd|Hd].
  - assert (iaddr x bn = 0) as Ea.
    { revert E0. unfold fmap_at. by destruct (Z.ltb_spec bn NDIRECT); [|lia]. }
    do 2 wp_step. rewrite Ex. fold (iaddr x bn). rewrite Ea. change (0 =? 0) with true. cbv iota.
    eapply wp_mono; [eapply (balloc_addr k V (3 + r)); done|].
    intros a k1 (V' & Hi & Hop1 & Hal & Hly1 & Hk1). exists V', (set_iaddr bn a x).
    split_and!; [done|by eapply op_less; [|exact Hop1]; lia|done| | |].
    + eapply grow_direct; try done. file_lia.
    + eapply kept_mono; [|exact Hk1]. done.
    + eapply spent_more; [|by eapply spent_step]. lia.
  - destruct (Z.ltb_spec (bn - NDIRECT) NINDIRECT); [|file_lia]. do 2 wp_step. rewrite Ex.
    fold (iaddr x NDIRECT). destruct (Z.eqb_spec (iaddr x NDIRECT) 0) as [Ei|Ei]; cycle 1.
    + wp_pure. eapply wp_unbind, wp_mono; [eapply (bmap_entry k V (2 + r)); try done; file_lia || by right|].
      intros a k1 (V' & Hq1 & Hop1 & Hly1 & Hgr & Hk1 & Hsp). exists V', x.
      split_and!; [by apply iset_blkq|by eapply op_less; [|exact Hop1]; lia|done|done| |].
      { eapply kept_mono; [|exact Hk1]. by intros n ->. }
      eapply spent_more; [|exact Hsp]. lia.
    + apply wp_bind. eapply wp_mono; [eapply (balloc_addr k V (3 + r)); done|].
      intros ind k1 (V1 & Hi1 & Hop1 & Hal & Hly1 & Hk1).
      destruct (grow_indirect _ _ _ _ _ _ Hal Hf Ei) as (Hf1 & Hind & Hm1 & Hb1 & Ho1).
      set (x1 := set_iaddr NDIRECT ind x) in *.
      assert (same_disk k k1) as Hs1 by (apply fsq_same, Hi1). pose proof (sd_sb _ _ Hs1) as Es1.
      rewrite <-Hind.
      assert (∀ n, fshome k1 n ↔ fshome k n) as Hh1 by (intros; by apply same_fshome).
      eapply wp_mono; [eapply (bmap_entry k1 V1 r x1 bn); rewrite ?Es1; try done|].
      * by apply (layout_same k).
      * eapply file_ok_hm; [|exact Hf1]. intros. by apply Hh1.
      * unfold in_file in Hbn. lia.
      * rewrite Hind. apply Hal.
      * right. eapply avail_step; [apply Hal|done].
      * rewrite Es1. intros a k2 (V2 & Hq2 & Hop2 & Hly2 & Hgr & Hk2 & Hsp). exists V2, x1.
        assert (itable (fs k1) !! ip = Some x1) as Hx1
          by (eapply iset_lookup; [|done]; by eapply lookup_lt_Some).
        split_and!; [|done| | | |].
        -- eapply iset_trans; [exact Hi1|]. by apply iset_blkq.
        -- apply (layout_same k1); [by symmetry|done].
        -- eapply grown_after; [apply set_iaddr_addrs|exact Hb1|exact Hm1|exact Ho1|].
           eapply grown_hm; [|exact Hgr]. intros. by apply Hh1.
        -- eapply kept_trans; [| |exact Hk1|exact Hk2]; [naive_solver|].
           intros n Hn. right. intros _. rewrite Hn, Hind. apply Hal.
        -- apply (spent_trans _ 1 1 _ V1); [by eapply spent_step|done].
Qed.
End bmap_specs.

(** * readi()

    The bytes of a file, and readi() against them.  Where the bytes go is an
    interface: a [sink] says what is known of memory after some bytes have been
    put out; there is one for kernel memory and one for user memory. *)

Ltac wp_prim ::= wp_ino.

(** ** The bytes of a file *)

Definition fbyte (V : view) (x : inode) (i : Z) : Z :=
  default 0 (fblk V x (i / BSIZE) !! Z.to_nat (i mod BSIZE)).

Definition fslice (V : view) (x : inode) (off n : Z) : list Z := fbyte V x <$> seqZ off n.

Lemma length_fslice V x off n : length (fslice V x off n) = Z.to_nat n.
Proof. unfold fslice. by rewrite length_fmap, length_seqZ. Qed.

Lemma fslice_app V x off a b :
  0 ≤ a → 0 ≤ b → fslice V x off (a + b) = fslice V x off a ++ fslice V x (off + a) b.
Proof. intros. unfold fslice. by rewrite seqZ_app, fmap_app. Qed.

(** A part of one block. *)
Lemma fslice_chunk V x off m :
  0 ≤ off → 0 ≤ m ≤ BSIZE - off mod BSIZE → length (fblk V x (off / BSIZE)) = Z.to_nat BSIZE →
  take (Z.to_nat m) (drop (Z.to_nat (off mod BSIZE)) (fblk V x (off / BSIZE))) = fslice V x off m.
Proof.
  intros Ho Hm Hl. pose proof (Z.mod_pos_bound off BSIZE ltac:(done)) as Hr.
  apply list_eq. intros i. unfold fslice. rewrite list_lookup_fmap.
  destruct (decide (Z.of_nat i < m)) as [Hi|Hi].
  - rewrite lookup_take_lt, lookup_drop by lia. rewrite lookup_seqZ_lt by lia. simpl.
    destruct (lookup_lt_is_Some_2 (fblk V x (off / BSIZE)) (Z.to_nat (off mod BSIZE) + i)) as [b Hb];
      [lia|]. rewrite Hb. f_equal. unfold fbyte.
    pose proof (Z.div_mod off BSIZE ltac:(done)) as Hd.
    assert ((off + Z.of_nat i) / BSIZE = off / BSIZE ∧ (off + Z.of_nat i) mod BSIZE = off mod BSIZE + Z.of_nat i)
      as [-> ->].
    { apply div_mod_at; lia. }
    replace (Z.to_nat (off mod BSIZE + Z.of_nat i)) with (Z.to_nat (off mod BSIZE) + i)%nat by lia.
    by rewrite Hb.
  - rewrite lookup_take_ge by lia. rewrite lookup_seqZ_ge by lia. done.
Qed.

(** ** Where the bytes go *)

Lemma kframe_fsq k k' : kframe k k' → fsq k k' ∧ inodes_same k k'.
Proof. intros []. split; [split; try done; try congruence|split]; rewrite ?kf_procs, ?kf_fs; done. Qed.

Section sinks.
Context `{LNK : !Linker, KOB : !Kobj} (me : nat).

(** [sk_at out k]: the bytes [out] have been put out; [sk_failed all k]: putting
    out [all] has failed before its end. *)
Record sink (user_dst dst : Z) : Type := {
  sk_at : list Z → kernel → Prop;
  sk_failed : list Z → kernel → Prop;
  sk_stable : ∀ out k k', fsq k k' → mem_same k k' → sk_at out k → sk_at out k';
  sk_failed_stable : ∀ all k k', fsq k k' → mem_same k k' → sk_failed all k → sk_failed all k';
  sk_failed_app : ∀ all more k, sk_failed all k → sk_failed (all ++ more) k;
  sk_out : ∀ out bs k, running me k → sk_at out k → (length bs ≤ Z.to_nat BSIZE)%nat →
    wp (object_out user_dst (u64 (dst + Z.of_nat (length out))) bs) k (λ r k',
      kframe k k' ∧ (r = 0 ∧ sk_at (out ++ bs) k' ∨ r = -1 ∧ sk_failed (out ++ bs) k'));
}.
End sinks.

Section readi.
Context `{OTH : Others, LNK : !Linker, KOB : !Kobj} (me : nat) (pid : Z).
Abbreviation op := (op me pid).

Lemma op_kframe o k k' V H r : op o k V H r → kframe k k' → op o k' V H r.
Proof.
  intros Hop [T1 T2 _ _ _ _ T3]. pose proof (op_running _ _ _ _ _ _ _ Hop) as [[Hc Hl] _].
  eapply op_frame; [exact Hop| | |by rewrite T3..].
  - split; [by rewrite T1|by rewrite T2].
  - unfold mypid, proc_of. by rewrite T2.
Qed.

(** A file without holes, of a size that the block map can hold. *)
Record whole (V : view) (x : inode) : Prop := {
  wh_size : 0 ≤ i_size x ≤ MAXFILE * BSIZE;
  wh_map : ∀ bn, 0 ≤ bn → bn * BSIZE < i_size x → fmap_at V x bn ≠ 0;
}.

Lemma whole_block V x off :
  whole V x → 0 ≤ off < i_size x → in_file (off / BSIZE) ∧ fmap_at V x (off / BSIZE) ≠ 0.
Proof.
  intros [W1 W2] Ho. pose proof (Z.div_mod off BSIZE ltac:(done)) as Hd.
  pose proof (Z.mod_pos_bound off BSIZE ltac:(done)) as Hr.
  assert (0 ≤ off / BSIZE) by (apply Z.div_pos; [lia|done]). split.
  - split; [done|]. apply Z.div_lt_upper_bound; [done|]. lia.
  - apply W2; [done|lia].
Qed.

(** How many bytes there are to read. *)
Definition readable (x : inode) (off n : Z) : Z :=
  if (i_size x <? off) || (u32 (off + n) <? off) then 0
  else if i_size x <? u32 (off + n) then i_size x - off else n.

Lemma readable_bounds x off n :
  0 ≤ off → 0 ≤ n < 2 ^ 32 → off < 2 ^ 32 → off ≤ i_size x → off ≤ u32 (off + n) →
  let n' := if i_size x <? u32 (off + n) then i_size x - off else n in 0 ≤ n' ∧ off + n' ≤ i_size x.
Proof.
  intros H0 Hn Ho E1 E2. assert (u32 (off + n) = off + n) as En.
  { destruct (decide (off + n < 2 ^ 32)); [by apply u32_small; lia|]. exfalso.
    unfold u32 in E2. rewrite <-(Z.mod_unique (off + n) (2 ^ 32) 1 (off + n - 2 ^ 32)) in E2; lia. }
  rewrite En. simpl. destruct (Z.ltb_spec (i_size x) (off + n)); lia.
Qed.

(** One round of the loop: the rest of a block, or what is left of the request. *)
Lemma readi_round o k V r ip x u dst (S : sink me u dst) off n tot :
  op o k V ∅ r → itable (fs k) !! ip = Some x → i_dev x = ROOTDEV → whole V x →
  0 ≤ off → 0 ≤ tot < n → off + n ≤ i_size x → sk_at _ _ _ S (fslice V x off tot) k →
  let m := Z.min (n - tot) (BSIZE - (off + tot) mod BSIZE) in
  wp (dev ← get_inode ip i_dev;
      a ← bmap ip ((off + tot) / BSIZE);
      bp ← bread dev a;
      d ← get_buf bp b_data;
      r ← object_out u (u64 (dst + tot)) (take (Z.to_nat m) (drop (Z.to_nat ((off + tot) mod BSIZE)) d));
      if r =? -1 then brelse bp;; break (s32 (-1)) else
      brelse bp;;
      continue (u32 (tot + m), u32 (off + tot + m), u64 (u64 (dst + tot) + m))) k (λ res k',
    fsq k k' ∧ inodes_same k k' ∧ op o k' V ∅ r ∧
    (res = inl (u32 (tot + m), u32 (off + tot + m), u64 (dst + (tot + m))) ∧
       sk_at _ _ _ S (fslice V x off (tot + m)) k' ∨
     res = inr (-1) ∧ sk_failed _ _ _ S (fslice V x off (tot + m)) k')).
Proof.
  intros Hop Hx Hdev Hwh Ho Ht Hn HS m. wp_pure. rewrite (inode_of_lookup _ _ _ Hx), Hdev.
  destruct (whole_block V x (off + tot) Hwh) as [Hbn Hne]; [lia|]. set (bn := (off + tot) / BSIZE) in *.
  eapply wp_mono; [by eapply bmap_hit|]. intros a k2 (-> & Hq2 & Hop2). wp_pure.
  eapply wp_mono; [eapply (op_peek me pid o k2 V ∅ r); [done|done|rewrite map_size_empty; lia]|].
  intros i k3 (Hq3 & Hd3 & Hop3 & HHi & Hrel). wp_pure. rewrite Hd3.
  pose proof (Z.mod_pos_bound (off + tot) BSIZE ltac:(done)) as Hr.
  assert (0 < m ≤ n - tot ∧ m ≤ BSIZE - (off + tot) mod BSIZE) as [Hm1 Hm2] by (unfold m; lia). clearbody m.
  assert (fblk V x bn = V (fmap_at V x bn)) as Eb by (unfold fblk; by destruct (Z.eqb_spec (fmap_at V x bn) 0)).
  rewrite <-Eb. unfold bn in Eb |- *.
  rewrite (fslice_chunk V x (off + tot) m); [|lia|lia|rewrite Eb; by eapply op_block_size].
  assert (blkq k k3) as Hq13 by (by etrans).
  assert (sk_at _ _ _ S (fslice V x off tot) k3) as HS3 by (eapply sk_stable; [apply Hq13|apply Hq13|done]).
  rewrite u64_add. replace (dst + tot + m) with (dst + (tot + m)) by lia.
  replace (dst + tot) with (dst + Z.of_nat (length (fslice V x off tot))) by (rewrite length_fslice; lia).
  eapply wp_mono; [eapply (sk_out _ _ _ S); [by eapply op_running|done|rewrite length_fslice; lia]|].
  intros v k4 [Ht4 Hv]. destruct (kframe_fsq _ _ Ht4) as [Hq4 Hi4].
  pose proof (op_kframe _ _ _ _ _ _ Hop3 Ht4) as Hop4.
  assert (fsq k k4 ∧ inodes_same k k4) as [Hq04 Hi04] by (split; (etrans; [apply Hq13|done])).
  rewrite <-fslice_app in Hv by lia.
  destruct Hv as [[-> Hv]|[-> Hv]]; simpl; apply wp_bind;
    (eapply wp_mono; [by apply Hrel|]); intros ? k5 [Hq5 Hop5]; wp_pure;
    (split_and!; [by etrans; [|apply Hq5]|by etrans; [|apply Hq5]|done|]).
  - left. split; [done|]. eapply sk_stable; [apply Hq5|apply Hq5|done].
  - right. split; [done|]. eapply sk_failed_stable; [apply Hq5|apply Hq5|done].
Qed.

Lemma readi_spec o k V r ip x u dst (S : sink me u dst) off n :
  op o k V ∅ r → itable (fs k) !! ip = Some x → i_dev x = ROOTDEV → whole V x →
  0 ≤ off < 2 ^ 32 → 0 ≤ n < 2 ^ 32 → 0 ≤ dst < 2 ^ 64 → sk_at _ _ _ S [] k →
  wp (readi ip u dst off n) k (λ v k',
    fsq k k' ∧ inodes_same k k' ∧ op o k' V ∅ r ∧
    (v = readable x off n ∧ sk_at _ _ _ S (fslice V x off (readable x off n)) k' ∨
     v = -1 ∧ sk_failed _ _ _ S (fslice V x off (readable x off n)) k')).
Proof.
  intros Hop Hx Hdev Hwh Ho Hn Hdst HS. unfold readi, readable. wp_pure. rewrite (inode_of_lookup _ _ _ Hx).
  destruct ((i_size x <? off) || (u32 (off + n) <? off)) eqn:E0.
  { wp_pure. split_and!; [done|done|done|]. by left. }
  apply orb_false_iff in E0 as [E1 E2]. apply Z.ltb_ge in E1, E2.
  destruct (readable_bounds x off n) as [Hn1 Hn2]; [lia..|].
  set (n' := if i_size x <? u32 (off + n) then i_size x - off else n) in *.
  pose proof (wh_size _ _ Hwh) as Hsz. change (MAXFILE * BSIZE) with 274432 in Hsz. clearbody n'.
  apply (wp_loop _ (λ '(tot, off', dst') k', 0 ≤ tot ≤ n' ∧ off' = off + tot ∧
    dst' = u64 (dst + tot) ∧ fsq k k' ∧ inodes_same k k' ∧ op o k' V ∅ r ∧
    sk_at _ _ _ S (fslice V x off tot) k') (λ '(tot, _, _) _, n' - tot)).
  - intros [[tot off'] dst'] k1 (Ht & -> & -> & Hq1 & Hi1 & Hop1 & HS1).
    destruct (Z.ltb_spec tot n') as [Hlt|Hge]; cycle 1.
    { wp_pure. replace n' with tot by lia. rewrite s32_small by lia. split_and!; try done. by left. }
    eapply wp_mono; [eapply (readi_round o k1 V r ip x u dst S off n' tot); try done; [|lia..]|].
    { by rewrite (is_itable _ _ Hi1). }
    pose proof (Z.mod_pos_bound (off + tot) BSIZE ltac:(done)) as Hr.
    intros res k2 (Hq2 & Hi2 & Hop2 & [[-> HS2]|[-> Hf]]).
    + rewrite !u32_small by lia. split; [|lia]. split_and!; [lia..|done|by etrans|by etrans|done|done].
    + split_and!; [by etrans|by etrans|done|]. right. split; [done|].
      set (m := Z.min _ _) in *. replace n' with (tot + m + (n' - tot - m)) by lia.
      rewrite fslice_app by lia. by apply sk_failed_app.
  - split_and!; try done; try lia. rewrite Z.add_0_r. by rewrite u64_small.
  - lia.
Qed.
End readi.

(** ** Kernel memory as destination *)

Section kernel_sink.
Context `{OTH : Others, LNK : !Linker, KOB : !Kobj, KOK : !KobjOk} (me : nat).

(** The byte at [b] after [bs] was stored at [a]. *)
Definition stored (a : Z) (bs : list Z) (r : mem) (b : Z) : Z :=
  if decide (a ≤ b < a + Z.of_nat (length bs)) then default 0 (bs !! Z.to_nat (b - a)) mod 256
  else ldb r b.

Definition in_bdata (b : Z) : Prop := bdata ≤ b < bdata + BSIZE.

(** [n] bytes at [dst] that are not the data of the buffer. *)
Definition kdst (dst n : Z) : Prop :=
  0 ≤ dst ∧ dst + n < 2 ^ 64 ∧ (dst + n ≤ bdata ∨ bdata + BSIZE ≤ dst).

Definition kernel_at (k0 : kernel) (dst n : Z) (out : list Z) (k : kernel) : Prop :=
  freelist k = freelist k0 ∧ krefs k = krefs k0 ∧
  (Z.of_nat (length out) ≤ n → ∀ b, ¬ in_bdata b → ldb (ram k) b = stored dst out (ram k0) b).

Lemma wp_myproc_kframe k (Q : option nat → kernel → Prop) :
  running me k → (∀ k', kframe k k' → mem_same k k' → Q (Some me) k') → wp myproc k Q.
Proof.
  intros [Hc _] HQ. apply wp_myproc; [apply Hc|]. intros h Hh. rewrite (ca_proc _ _ Hc).
  apply HQ; by split.
Qed.

Lemma kernel_out k0 dst n out bs k :
  kdst dst n → running me k → kernel_at k0 dst n out k → (length bs ≤ Z.to_nat BSIZE)%nat →
  wp (object_out 0 (u64 (dst + Z.of_nat (length out))) bs) k (λ r k',
    kframe k k' ∧ (r = 0 ∧ kernel_at k0 dst n (out ++ bs) k' ∨ r = -1 ∧ False)).
Proof.
  intros (Hd & Hd2 & Hap) Hrun (K1 & K2 & K3) Hbs. unfold object_out, either_copyout, put_bytes, do_memmove.
  wp_pure. apply wp_myproc_kframe; [by destruct Hrun|]. intros k1 Ht1 Hm1.
  change (nz 0) with false. cbv iota. wp_pure. split.
  { destruct Ht1. by split. }
  left. split; [done|]. split_and!; [by rewrite <-K1; apply (ms_freelist _ _ Hm1)|by rewrite <-K2; apply (ms_krefs _ _ Hm1)|].
  rewrite length_app. intros Hlen b Hb. simpl. rewrite (ms_ram _ _ Hm1). simpl.
  rewrite u64_small by lia. rewrite memmove_spec by lia. unfold stored, in_bdata in *. rewrite length_app.
  assert (ldb (st_bytes (ram k) bdata bs) b = stored dst out (ram k0) b) as Es.
  { rewrite ldb_st_bytes_out by lia. apply K3; [lia|done]. }
  unfold stored in Es. set (o := Z.of_nat (length out)) in *.
  destruct (decide (dst + o ≤ b < dst + o + Z.of_nat (length bs))) as [H1|H1].
  - rewrite (decide_True (P := dst ≤ b < _)) by lia. rewrite ldb_st_bytes.
    rewrite (proj2 (Z.leb_le _ _)) by lia. rewrite lookup_app_r by lia.
    replace (Z.to_nat (bdata + (b - (dst + o)) - bdata)) with (Z.to_nat (b - dst) - length out)%nat by lia.
    destruct (lookup_lt_is_Some_2 bs (Z.to_nat (b - dst) - length out)) as [v ->]; [lia|done].
  - rewrite Es. case_decide.
    + rewrite decide_True by lia. by rewrite lookup_app_l by lia.
    + by rewrite decide_False by lia.
Qed.

Definition kernel_sink (k0 : kernel) (dst n : Z) (Hd : kdst dst n) : sink me 0 dst.
Proof.
  refine {| sk_at := kernel_at k0 dst n; sk_failed := λ _ _, False |}.
  - abstract (intros out k k' _ [M1 M2 M3]; unfold kernel_at; by rewrite M1, M2, M3).
  - done.
  - done.
  - abstract (intros out bs k Hrun Hat Hbs; by apply kernel_out).
Defined.
End kernel_sink.
