(* ===== verification/FsWrite.v ===== *)
(** * writei()

    writei() against the bytes of the file: after it the file holds the bytes of
    the source from the offset on, its other bytes are unchanged, its size is
    the larger of the old size and the end of the write, and the inode on disk
    is the one in memory. *)

From stdpp Require Import gmap list strings.
From Stdlib Require Import ZArith Lia.
From S2P Require Import Prelude Mem Str Params FsData Machine Spinlock Sched Sleeplock Ring Bio.
From S2P Require Import BioSpec Log LogDisk LogSpec LogCommit LogTheorems FsTxn Kalloc Vm Fs.
From S2P Require Import FsAlloc FsInode FsFile FsBmap.
#[local] Open Scope Z_scope.
Ltac wp_prim ::= wp_ino.

(** ** Where the bytes come from *)

Section sources.
Context `{LNK : !Linker, KOB : !Kobj} (me : nat).

(** [so_at k]: the bytes [bs] are there. *)
Record source (user_src src : Z) (bs : list Z) : Type := {
  so_at : kernel → Prop;
  so_stable : ∀ k k', fsq k k' → mem_same k k' → so_at k → so_at k';
  so_bdata : ∀ k d, (length d ≤ Z.to_nat BSIZE)%nat → so_at k →
    so_at (upd_ram (λ r, st_bytes r bdata d) k);
  so_in : ∀ i m k, running me k → so_at k → (i + m ≤ length bs)%nat → (m ≤ Z.to_nat BSIZE)%nat →
    wp (object_in user_src (u64 (src + Z.of_nat i)) (Z.of_nat m)) k (λ '(r, ds) k',
      kframe k k' ∧ so_at k' ∧ r = 0 ∧ ds = take m (drop i bs));
}.
End sources.

(** ** One block *)

Section chunk.
Context (hm : Z → Prop) (s : superblock) (V : view) (x : inode) (off : Z) (ds : list Z).
Context (Hf : file_ok hm s V x) (Hoff : 0 ≤ off).
Abbreviation bn := (off / BSIZE).
Abbreviation a := (fmap_at V x bn).
Context (Hbn : in_file bn) (Ha : a ≠ 0) (Hlen : length (V a) = Z.to_nat BSIZE).
Context (Hds : off mod BSIZE + Z.of_nat (length ds) ≤ BSIZE).

Definition chunk : view := vset V a (splice (Z.to_nat (off mod BSIZE)) ds (V a)).

Lemma chunk_fmap b : in_file b → fmap_at chunk x b = fmap_at V x b.
Proof.
  intros Hb. unfold fmap_at, chunk. destruct (b <? NDIRECT); [done|].
  destruct (Z.eqb_spec (iaddr x NDIRECT) 0); [done|]. rewrite vset_ne; [done|].
  by apply (fo_sep _ _ _ _ Hf).
Qed.

Lemma chunk_used c : blkno s c → used s chunk c = used s V c.
Proof. intros Hc. apply used_other; [|done]. apply (fo_data _ _ _ _ Hf _ Hbn Ha). Qed.

Lemma chunk_dblock b : dblock hm s V b → dblock hm s chunk b.
Proof. intros []. split; try done. by rewrite chunk_used. Qed.

Lemma chunk_ok : file_ok hm s chunk x.
Proof.
  split; [apply Hf| | | |].
  - intros b Hb. rewrite chunk_fmap by done. intros. by apply chunk_dblock, (fo_data _ _ _ _ Hf).
  - intros. by apply chunk_dblock, (fo_ind _ _ _ _ Hf).
  - intros b b' Hb Hb'. rewrite !chunk_fmap by done. by apply (fo_inj _ _ _ _ Hf).
  - intros b Hb. rewrite chunk_fmap by done. by apply (fo_sep _ _ _ _ Hf).
Qed.

Lemma chunk_fbyte i :
  0 ≤ i < MAXFILE * BSIZE →
  fbyte chunk x i =
    if decide (off ≤ i < off + Z.of_nat (length ds)) then default 0 (ds !! Z.to_nat (i - off))
    else fbyte V x i.
Proof.
  intros Hi. pose proof (Z.div_mod i BSIZE ltac:(done)). pose proof (Z.div_mod off BSIZE ltac:(done)).
  pose proof (Z.mod_pos_bound i BSIZE ltac:(done)). pose proof (Z.mod_pos_bound off BSIZE ltac:(done)).
  assert (in_file (i / BSIZE)) as Hib.
  { split; [apply Z.div_pos; [lia|done]|]. apply Z.div_lt_upper_bound; [done|lia]. }
  unfold fbyte, fblk. rewrite chunk_fmap by done. unfold chunk.
  destruct (decide (i / BSIZE = bn)) as [E|E]; cycle 1.
  { rewrite decide_False by (unfold BSIZE in *; lia).
    destruct (Z.eqb_spec (fmap_at V x (i / BSIZE)) 0) as [|Hne]; [done|].
    rewrite vset_ne; [done|]. intros E'. apply E. symmetry. by apply (fo_inj _ _ _ _ Hf). }
  rewrite E. destruct (Z.eqb_spec a 0); [done|]. rewrite vset_eq.
  rewrite lookup_splice by lia. rewrite E in *.
  destruct (decide (off ≤ i < off + Z.of_nat (length ds))) as [Hc|Hc].
  - rewrite decide_True by lia. do 2 f_equal. lia.
  - by rewrite decide_False by lia.
Qed.

Lemma chunk_kept : kept s (λ n, n = a) V chunk.
Proof.
  split; [intros c Hc; by rewrite chunk_used|]. intros n _ _ _ Hn. unfold chunk. by rewrite vset_ne.
Qed.

Lemma chunk_owns n : owns chunk x n → owns V x n.
Proof.
  intros [H1 H2]. split; [done|]. destruct H2 as [?|(b & Hb & H2)]; [by left|].
  right. exists b. by rewrite <-chunk_fmap.
Qed.
End chunk.

(** ** The loop *)

(** How many blocks the [n] bytes from [off] on touch. *)
Definition nchunks (off n : Z) : Z :=
  if n =? 0 then 0 else (off + n - 1) / BSIZE - off / BSIZE + 1.

Lemma nchunks_step off n m :
  0 ≤ off → 0 < n → m = Z.min n (BSIZE - off mod BSIZE) →
  0 ≤ nchunks (off + m) (n - m) ∧ nchunks off n = 1 + nchunks (off + m) (n - m).
Proof.
  intros Ho Hn Em. pose proof (Z.div_mod off BSIZE ltac:(done)) as Hd.
  pose proof (Z.mod_pos_bound off BSIZE ltac:(done)) as Hr. unfold nchunks.
  destruct (Z.eqb_spec n 0); [lia|]. destruct (Z.eqb_spec (n - m) 0).
  - assert ((off + n - 1) / BSIZE = off / BSIZE); [|lia].
    apply (div_mod_at _ _ _ (off mod BSIZE + n - 1)); lia.
  - assert (m = BSIZE - off mod BSIZE) as Em' by lia.
    assert ((off + m) / BSIZE = off / BSIZE + 1) as -> by (apply (div_mod_at _ _ _ 0); unfold BSIZE in *; lia).
    replace (off + m + (n - m) - 1) with (off + n - 1) by lia. split; [|lia].
    assert (off / BSIZE + 1 ≤ (off + n - 1) / BSIZE); [|lia].
    apply Z.div_le_lower_bound; [done|]. unfold BSIZE in *. lia.
Qed.

(** The blocks that are missing can be allocated. *)
Definition fits (s : superblock) (V : view) (x : inode) (off n : Z) : Prop :=
  (∀ bn, off / BSIZE ≤ bn → bn * BSIZE < off + n → fmap_at V x bn ≠ 0) ∨
  avail s V (Z.to_nat (2 * nchunks off n)).

(** [tot] bytes of [bs] have been written at [off]. *)
Record writing (hm : Z → Prop) (s : superblock) (V : view) (x : inode) (off : Z) (bs : list Z)
    (tot : Z) (V1 : view) (x1 : inode) : Prop := {
  wr_file : file_ok hm s V1 x1;
  wr_inode : x1 = upd_i_addrs (λ _, i_addrs x1) x;
  wr_bytes : ∀ i, 0 ≤ i < MAXFILE * BSIZE → fbyte V1 x1 i =
    if decide (off ≤ i < off + tot) then default 0 (bs !! Z.to_nat (i - off)) else fbyte V x i;
  wr_keep : ∀ bn, in_file bn → fmap_at V x bn ≠ 0 → fmap_at V1 x1 bn = fmap_at V x bn;
  wr_new : ∀ bn, 0 < tot → off / BSIZE ≤ bn → bn * BSIZE < off + tot → fmap_at V1 x1 bn ≠ 0;
  wr_kept : kept s (owns V x) V V1;
  wr_own : ∀ n, blkno s n → used s V n = true → owns V1 x1 n → owns V x n;
}.

Lemma writing_start hm s V x off bs : file_ok hm s V x → 0 ≤ off → writing hm s V x off bs 0 V x.
Proof.
  intros Hf Ho. split; try done.
  - by destruct x.
  - intros i _. by rewrite decide_False by lia.
Qed.

(** One iteration: bmap() has grown the file, the block gets its bytes. *)
Lemma writing_step hm s V x off bs tot m V1 x1 a V2 x2 :
  let off' := off + tot in
  let ds := take (Z.to_nat m) (drop (Z.to_nat tot) bs) in
  writing hm s V x off bs tot V1 x1 → 0 ≤ off → 0 ≤ tot → tot + m ≤ Z.of_nat (length bs) →
  off' + m ≤ MAXFILE * BSIZE → 0 < m ≤ BSIZE - off' mod BSIZE →
  grown hm s V1 x1 (off' / BSIZE) a V2 x2 → kept s (λ n, n ≠ 0 ∧ n = iaddr x1 NDIRECT) V1 V2 →
  length (V2 a) = Z.to_nat BSIZE →
  writing hm s V x off bs (tot + m) (vset V2 a (splice (Z.to_nat (off' mod BSIZE)) ds (V2 a))) x2.
Proof.
  intros off' ds [W1 W2 W3 W4 W5 W6 W7] Ho Ht Hb Hmax Hm [G1 G2 G3 G4 G5 G6 G7] Hk Hlen.
  assert (length ds = Z.to_nat m) as Hds by (unfold ds; rewrite length_take, length_drop; lia).
  pose proof (Z.div_mod off' BSIZE ltac:(done)) as Hd. pose proof (Z.div_mod off BSIZE ltac:(done)) as Hd0.
  pose proof (Z.mod_pos_bound off' BSIZE ltac:(done)) as Hr. pose proof (Z.mod_pos_bound off BSIZE ltac:(done)) as Hr0.
  assert (in_file (off' / BSIZE)) as Hin.
  { split; [apply Z.div_pos; [lia|done]|apply Z.div_lt_upper_bound; [done|lia]]. }
  subst a. set (V3 := vset _ _ _). assert (V3 = chunk V2 x2 off' ds) as E3 by done.
  split; rewrite ?E3.
  - apply (chunk_ok hm s); try done.
  - rewrite G7, W2. by destruct x.
  - intros i Hi. rewrite (chunk_fbyte hm s) by (done || lia). rewrite Hds.
    assert (fbyte V2 x2 i = fbyte V1 x1 i) as ->.
    { unfold fbyte. rewrite G4; [done|]. pose proof (Z.div_mod i BSIZE ltac:(done)).
      split; [apply Z.div_pos; [lia|done]|apply Z.div_lt_upper_bound; [done|lia]]. }
    rewrite W3 by done. subst off'. case_decide as H1.
    + rewrite decide_True by lia. unfold ds. rewrite lookup_take_lt, lookup_drop by lia.
      do 2 f_equal. lia.
    + case_decide as H2; [by rewrite decide_True by lia|by rewrite decide_False by lia].
  - intros bn Hbn Hne. rewrite (chunk_fmap hm s) by done. rewrite <-W4 in Hne |- * by done. by apply G5.
  - intros bn _ H1 H2.
    assert (in_file bn).
    { split; [|apply (Z.mul_lt_mono_pos_r BSIZE); [done|lia]].
      assert (0 ≤ off / BSIZE) by (apply Z.div_pos; [lia|done]). lia. }
    rewrite (chunk_fmap hm s) by done. destruct (decide (bn = off' / BSIZE)) as [->|Hne]; [done|].
    assert (bn < off' / BSIZE) as Hlt by (unfold BSIZE in *; lia).
    assert (fmap_at V1 x1 bn ≠ 0); [|by rewrite G5].
    apply W5; [|done|]; unfold BSIZE in *; lia.
  - split; [intros c Hc Hu; rewrite (chunk_used hm) by done; by apply Hk, W6|].
    intros n Hn Hu Hnb Hno. assert (used s V1 n = true) as Hu1 by (by apply W6).
    unfold chunk. rewrite vset_ne.
    + rewrite (kp_same _ _ _ _ Hk), (kp_same _ _ _ _ W6); try done.
      intros [N1 N2]. apply Hno, W7; try done. split; [done|by left].
    + intros E. apply Hno, W7, G6; try done. split; [congruence|]. right. by eexists.
  - intros n Hn Hu Hw. apply (chunk_owns hm s) in Hw; try done. apply W7, G6; try done. by apply W6.
Qed.

(** The entry [ip] of the table becomes [x]; memory may change too. *)
Record ichanged (ip : nat) (x : inode) (k k' : kernel) : Prop := {
  ic_fsq : fsq k k';
  ic_itable : itable (fs k') = <[ip := x]> (itable (fs k));
  ic_locks : ∀ i, sleeplock_of (fs k') (SL_inode i) = sleeplock_of (fs k) (SL_inode i);
}.

Lemma ichanged_iset ip x y k1 k2 k3 : ichanged ip x k1 k2 → iset ip y k2 k3 → ichanged ip y k1 k3.
Proof.
  intros [A1 A2 A3] [B1 B2 B3 B4]. split; [by etrans| |].
  - by rewrite B3, A2, list_insert_insert_eq.
  - intros i. by rewrite B4.
Qed.

Lemma ichanged_same ip x k1 k2 k3 :
  ichanged ip x k1 k2 → fsq k2 k3 → inodes_same k2 k3 → ichanged ip x k1 k3.
Proof.
  intros [A1 A2 A3] B1 [B2 B3]. split; [by etrans|congruence|]. intros i. by rewrite B3.
Qed.

Lemma ichanged_lookup ip x k k' :
  (ip < length (itable (fs k)))%nat → ichanged ip x k k' → itable (fs k') !! ip = Some x.
Proof. intros Hl []. rewrite ic_itable0. by apply list_lookup_insert_eq. Qed.

Section writei.
Context `{OTH : Others, LNK : !Linker, KOB : !Kobj} (me : nat) (pid : Z).
Abbreviation op := (op me pid).

Lemma fits_step s V1 x1 off n m hm V2 x2 a W :
  0 ≤ off → 0 < n → off + n ≤ MAXFILE * BSIZE → m = Z.min n (BSIZE - off mod BSIZE) →
  grown hm s V1 x1 (off / BSIZE) a V2 x2 → spent s 2 V1 V2 →
  (∀ b, in_file b → fmap_at W x2 b = fmap_at V2 x2 b) → (∀ c, blkno s c → used s W c = used s V2 c) →
  fits s V1 x1 off n → fits s W x2 (off + m) (n - m).
Proof.
  intros Ho Hn Hmax Em [_ _ _ _ G5 _ _] Hsp HW Hu [Hf|Hf].
  - left. intros bn H1 H2. pose proof (Z.div_le_mono off (off + m) BSIZE ltac:(done)).
    pose proof (Z.mod_pos_bound off BSIZE ltac:(done)).
    assert (in_file bn).
    { split; [assert (0 ≤ off / BSIZE) by (apply Z.div_pos; [lia|done]); lia|].
      apply (Z.mul_lt_mono_pos_r BSIZE); [done|lia]. }
    rewrite HW by done. assert (fmap_at V1 x1 bn ≠ 0) by (apply Hf; lia). by rewrite G5.
  - right. destruct (nchunks_step off n m Ho Hn Em) as [H1 H2].
    eapply (spent_used s 2 V1 V2 W); [done|done|]. eapply avail_less; [|exact Hf]. lia.
Qed.

(** The state of the loop after [tot] bytes. *)
Definition wstate (k : kernel) (V : view) (ip : nat) (x : inode) (off : Z) (bs : list Z)
    (tot : Z) (r : nat) (k' : kernel) (V' : view) (x' : inode) : Prop :=
  writing (fshome k) (sb (fs k)) V x off bs tot V' x' ∧ layout_ok k V' ∧ ichanged ip x' k k' ∧
  op 1 k' V' ∅ r.

(** The bytes of the source go into the block [a] of the file. *)
Lemma writei_put k V a off tot m bs r u src (S : source me u src bs) :
  let o := Z.to_nat ((off + tot) mod BSIZE) in
  let ds := take (Z.to_nat m) (drop (Z.to_nat tot) bs) in
  op 1 k V ∅ (1 + r) → a ≠ 0 → fshome k a → so_at _ _ _ _ S k →
  0 ≤ tot → 0 < m ≤ BSIZE - (off + tot) mod BSIZE → tot + m ≤ Z.of_nat (length bs) →
  wp (bp ← bread ROOTDEV a;
      d ← get_buf bp b_data;
      put_bytes bdata (take (Z.to_nat m) (drop (Z.to_nat ((off + tot) mod BSIZE)) d));;
      '(v, ds) ← object_in u (u64 (src + tot)) m;
      set_buf bp (upd_b_data (splice (Z.to_nat ((off + tot) mod BSIZE)) ds));;
      if v =? -1 then brelse bp;; break (tot, off + tot) else
      log_write bp;;
      brelse bp;;
      continue (u32 (tot + m), u32 (off + tot + m), u64 (u64 (src + tot) + m))) k (λ v k',
    v = inl (u32 (tot + m), u32 (off + tot + m), u64 (u64 (src + tot) + m)) ∧ so_at _ _ _ _ S k' ∧
    op 1 k' (vset V a (splice o ds (V a))) ∅ r ∧ fsq k k' ∧ inodes_same k k').
Proof.
  intros o ds Hop Ha0 Hh HS Ht Hm Hlen. pose proof (Z.mod_pos_bound (off + tot) BSIZE ltac:(done)) as Hr. apply wp_bind.
  eapply wp_mono; [eapply (op_bread me pid 1 k V ∅ (1 + r) a Hop); [done|rewrite map_size_empty; lia]|].
  intros i k3 (HHi & Hq3 & Hop3 & Hd3). unfold put_bytes. wp_pure. rewrite Hd3. set (k4 := upd_ram _ k3).
  assert (so_at _ _ _ _ S k4) as HS4.
  { apply so_bdata; [rewrite length_take; lia|]. eapply so_stable; [apply Hq3|apply Hq3|done]. }
  assert (kframe k3 k4) as Ht4 by (by split).
  pose proof (op_kframe me pid _ _ _ _ _ _ Hop3 Ht4) as Hop4.
  replace tot with (Z.of_nat (Z.to_nat tot)) at 1 by lia. replace m with (Z.of_nat (Z.to_nat m)) at 1 by lia.
  eapply wp_mono; [eapply (so_in _ _ _ _ S); [by eapply op_running|done|lia|lia]|].
  intros [v ds'] k5 (Ht5 & HS5 & -> & ->). change (0 =? -1) with false. cbv iota. do 2 wp_step. fold ds.
  pose proof (op_kframe me pid _ _ _ _ _ _ Hop4 Ht5) as Hop5.
  assert (length (V a) = Z.to_nat BSIZE) as Hla by (by eapply op_block_size).
  assert (length ds = Z.to_nat m) as Hds by (unfold ds; rewrite length_take, length_drop; lia).
  eapply (op_set_data me pid _ _ _ _ _ i a (V a) (splice o ds)) in Hop5; [|apply lookup_insert_eq|rewrite length_splice; unfold o; lia].
  rewrite insert_insert_eq in Hop5. set (k6 := upd_fs _ k5) in *.
  assert (blkq k5 k6) as Hq6 by apply blkq_set_data.
  assert (fsq k k6 ∧ inodes_same k k6) as [Hf6 Hi6].
  { pose proof (kframe_fsq _ _ Ht4) as [A1 A2]. pose proof (kframe_fsq _ _ Ht5) as [B1 B2].
    split; [etrans; [apply Hq3|etrans; [done|etrans; [done|apply Hq6]]]|etrans; [apply Hq3|etrans; [done|etrans; [done|apply Hq6]]]]. }
  apply (wp_seq2 (log_write i) (brelse i)).
  eapply wp_mono; [eapply op_log_release; [exact Hop5|done|]|].
  { apply (same_fshome k); [by apply fsq_same|done]. }
  intros ? k7 [Hq7 Hop7]. wp_pure. split_and!; [done| |done|etrans; [done|apply Hq7]|etrans; [done|apply Hq7]].
  eapply so_stable; [apply Hq7|apply Hq7|]. eapply so_stable; [apply Hq6|apply Hq6|done].
Qed.

Lemma writei_iter k V ip x off bs tot n r u src (S : source me u src bs) k1 V1 x1 :
  let s := sb (fs k) in
  let m := Z.min (n - tot) (BSIZE - (off + tot) mod BSIZE) in
  (ip < length (itable (fs k)))%nat → i_dev x = ROOTDEV → 
  0 ≤ off → 0 ≤ tot < n → n = Z.of_nat (length bs) → off + n ≤ MAXFILE * BSIZE →
  wstate k V ip x off bs tot (6 + r) k1 V1 x1 → so_at _ _ _ _ S k1 → fits s V1 x1 (off + tot) (n - tot) →
  wp (dev ← get_inode ip i_dev;
      a ← bmap ip ((off + tot) / BSIZE);
      bp ← bread dev a;
      d ← get_buf bp b_data;
      put_bytes bdata (take (Z.to_nat m) (drop (Z.to_nat ((off + tot) mod BSIZE)) d));;
      '(v, ds) ← object_in u (u64 (src + tot)) m;
      set_buf bp (upd_b_data (splice (Z.to_nat ((off + tot) mod BSIZE)) ds));;
      if v =? -1 then brelse bp;; break (tot, off + tot) else
      log_write bp;;
      brelse bp;;
      continue (u32 (tot + m), u32 (off + tot + m), u64 (u64 (src + tot) + m))) k1 (λ v k2,
    v = inl (tot + m, off + (tot + m), u64 (src + (tot + m))) ∧ so_at _ _ _ _ S k2 ∧
    ∃ V2 x2, wstate k V ip x off bs (tot + m) r k2 V2 x2 ∧
      fits s V2 x2 (off + (tot + m)) (n - (tot + m))).
Proof.
  intros s m Hip Hdev Ho Ht Hn Hmax (Hw & Hly & Hic & Hop) HS Hfit. subst s.
  pose proof (Z.mod_pos_bound (off + tot) BSIZE ltac:(done)) as Hr.
  assert (0 < m ≤ n - tot ∧ m ≤ BSIZE - (off + tot) mod BSIZE) as [Hm1 Hm2] by (unfold m; lia).
  pose proof (ichanged_lookup _ _ _ _ Hip Hic) as Hx1.
  assert (i_dev x1 = ROOTDEV) as Hdev1 by (rewrite (wr_inode _ _ _ _ _ _ _ _ _ Hw); done).
  pose proof (fsq_same _ _ (ic_fsq _ _ _ _ Hic)) as Hs1. pose proof (sd_sb _ _ Hs1) as Es1.
  assert (in_file ((off + tot) / BSIZE)) as Hin.
  { split; [apply Z.div_pos; [lia|done]|apply Z.div_lt_upper_bound; [done|lia]]. }
  wp_pure. rewrite (inode_of_lookup _ _ _ Hx1), Hdev1.
  eapply wp_mono; [eapply (bmap_spec me pid k1 V1 (1 + r)); rewrite ?Es1; try done|].
  { by apply (layout_same k). }
  { eapply file_ok_hm; [|apply Hw]. intros. by apply (same_fshome k). }
  { destruct Hfit as [Hf|Hf]; [left; apply Hf; [done|]|right].
    - pose proof (Z.div_mod (off + tot) BSIZE ltac:(done)). lia.
    - eapply avail_less; [|exact Hf].
      destruct (nchunks_step (off + tot) (n - tot) m) as [H1 H2]; [lia..|done|]. lia. }
  intros a k2 (V2 & x2 & Hi2 & Hop2 & Hly2 & Hgr & Hk2 & Hsp). rewrite Es1 in Hgr, Hk2, Hsp.
  symmetry in Hs1. apply (layout_same k1 k) in Hly2; [|done].
  apply (grown_hm _ (fshome k)) in Hgr; [|intros; by apply (same_fshome k1 k)]. symmetry in Hs1.
  pose proof (gr_map _ _ _ _ _ _ _ _ Hgr) as Ea. pose proof (gr_nonzero _ _ _ _ _ _ _ _ Hgr) as Ha0.
  pose proof (gr_ok _ _ _ _ _ _ _ _ Hgr) as Hf2.
  assert (dblock (fshome k) (sb (fs k)) V2 a) as Hda.
  { rewrite <-Ea. apply (fo_data _ _ _ _ Hf2); [done|by rewrite Ea]. }
  assert (ichanged ip x2 k k2) as Hic2 by by eapply ichanged_iset.
  eapply wp_mono; [apply (writei_put k2 V2 a off tot m bs r u src S); [done|done| | |lia..]|].
  { apply (same_fshome k); [apply fsq_same, Hic2|apply Hda]. }
  { eapply so_stable; [apply Hi2|apply Hi2|done]. }
  intros ? k7 (-> & HS7 & Hop7 & Hf7 & Hi7). assert (MAXFILE * BSIZE = 274432) as Hmx by done.
  set (ds := take _ _) in Hop7. set (d := splice _ ds (V2 a)) in Hop7.
  assert (length (V2 a) = Z.to_nat BSIZE) as Hla by (by eapply op_block_size).
  assert (length ds = Z.to_nat m) as Hds by (unfold ds; rewrite length_take, length_drop; lia).
  rewrite u64_add, !u32_small by lia. split_and!; [by rewrite !Z.add_assoc|done|].
  assert (vset V2 a d = chunk V2 x2 (off + tot) ds) as Ec by (unfold chunk, d; by rewrite Ea).
  assert (kept (sb (fs k)) (λ n, n = a) V2 (vset V2 a d)) as Hk3.
  { rewrite Ec, <-Ea. eapply chunk_kept; try done. by rewrite Ea. }
  exists (vset V2 a d), x2. rewrite !Z.add_assoc, Z.sub_add_distr.
  split; [split_and!|].
  - eapply writing_step; try done; lia.
  - by eapply layout_kept.
  - by eapply ichanged_same.
  - done.
  - eapply fits_step; try done; try lia; rewrite Ec; intros c Hc.
    + eapply chunk_fmap; try done. by rewrite Ea.
    + eapply chunk_used; try done. by rewrite Ea.
Qed.

Lemma writei_loop_spec k V ip x off bs r u src (S : source me u src bs) :
  let s := sb (fs k) in
  let n := Z.of_nat (length bs) in
  itable (fs k) !! ip = Some x → i_dev x = ROOTDEV → 0 ≤ off → off + n ≤ MAXFILE * BSIZE →
  file_ok (fshome k) s V x → layout_ok k V → op 1 k V ∅ (Z.to_nat (6 * nchunks off n) + r) →
  so_at _ _ _ _ S k → fits s V x off n → 0 ≤ src < 2 ^ 64 →
  wp (writei_loop ip u src off n) k (λ '(tot, off') k', tot = n ∧ off' = off + n ∧
    so_at _ _ _ _ S k' ∧ ∃ V' x', wstate k V ip x off bs n r k' V' x').
Proof.
  intros s n Hx Hdev Ho Hmax Hf Hly Hop HS Hfit Hsrc. unfold writei_loop.
  apply (wp_loop _ (λ '(tot, off', src') k', 0 ≤ tot ≤ n ∧ off' = off + tot ∧ src' = u64 (src + tot) ∧
    so_at _ _ _ _ S k' ∧ ∃ V' x',
      wstate k V ip x off bs tot (Z.to_nat (6 * nchunks (off + tot) (n - tot)) + r) k' V' x' ∧
      fits s V' x' (off + tot) (n - tot)) (λ '(tot, _, _) _, n - tot)).
  - intros [[tot off'] src'] k1 (Ht & -> & -> & HS1 & V1 & x1 & Hw & Hfit1).
    destruct (Z.ltb_spec tot n) as [Hlt|Hge]; cycle 1.
    { wp_pure. assert (tot = n) as -> by lia. split_and!; [done..|]. exists V1, x1.
      by rewrite Z.sub_diag in Hw. }
    set (m := Z.min (n - tot) (BSIZE - (off + tot) mod BSIZE)).
    pose proof (Z.mod_pos_bound (off + tot) BSIZE ltac:(done)).
    destruct (nchunks_step (off + tot) (n - tot) m) as [H1 H2]; [lia..|done|].
    eapply wp_mono; [eapply (writei_iter k V ip x off bs tot n
      (Z.to_nat (6 * nchunks (off + tot + m) (n - tot - m)) + r) u src S k1 V1 x1); try done|].
    + by eapply lookup_lt_Some.
    + lia.
    + destruct Hw as (? & ? & ? & Hop1). split_and!; try done. eapply op_less; [|exact Hop1]. lia.
    + intros ? k2 (-> & HS2 & V2 & x2 & Hw2 & Hfit2). fold m in Hw2, Hfit2 |- *. split; [|lia].
      split_and!; [lia|lia|done|done|done|]. exists V2, x2. split; [|done].
      by rewrite Z.sub_add_distr, Z.add_assoc.
  - split_and!; [lia|lia|lia|by rewrite Z.add_0_r, u64_small|done|]. exists V, x.
    rewrite Z.add_0_r, Z.sub_0_r. split; [|done]. split_and!; [by apply writing_start|done| |done].
    split; [done| |done]. symmetry. by apply list_insert_id.
  - assert (MAXFILE * BSIZE = 274432) by done. lia.
Qed.

(** What writei() has done to the inode [x] and the disk contents [V]. *)
Record written (k : kernel) (V : view) (x : inode) (off : Z) (bs : list Z) (V' : view) (x' : inode)
    : Prop := {
  wt_inode : x' = upd_i_size (λ z, Z.max z (off + Z.of_nat (length bs))) (upd_i_addrs (λ _, i_addrs x') x);
  wt_whole : whole V' x';
  wt_file : file_ok (fshome k) (sb (fs k)) V' x';
  wt_layout : layout_ok k V';
  wt_bytes : ∀ i, 0 ≤ i < MAXFILE * BSIZE → fbyte V' x' i =
    if decide (off ≤ i < off + Z.of_nat (length bs)) then default 0 (bs !! Z.to_nat (i - off))
    else fbyte V x i;
  wt_disk : dinode_of (sb (fs k)) V' (i_inum x) = di_inode x';
  wt_others : ∀ inum, 0 ≤ inum < sb_ninodes (sb (fs k)) → inum ≠ i_inum x →
    dinode_of (sb (fs k)) V' inum = dinode_of (sb (fs k)) V inum;
  wt_kept : kept (sb (fs k)) (λ n, owns V x n ∨ n = IBLOCK (i_inum x) (sb (fs k))) V V';
}.

Lemma owns_dblock hm s V x n : file_ok hm s V x → owns V x n → dblock hm s V n.
Proof.
  intros Hf [H1 [->|(bn & Hbn & <-)]]; [by apply (fo_ind _ _ _ _ Hf)|by apply (fo_data _ _ _ _ Hf)].
Qed.

(** A block that is not the file's changes. *)
Section other.
Context (hm : Z → Prop) (s : superblock) (V : view) (x : inode) (n : Z) (d : block).
Context (Hf : file_ok hm s V x) (Hn : not_bitmap s n) (Ho : ¬ owns V x n).

Lemma other_fmap b : fmap_at (vset V n d) x b = fmap_at V x b.
Proof.
  unfold fmap_at. destruct (b <? NDIRECT); [done|].
  destruct (Z.eqb_spec (iaddr x NDIRECT) 0) as [|Hne]; [done|]. rewrite vset_ne; [done|].
  intros E. apply Ho. split; [congruence|]. by left.
Qed.

Lemma other_fblk b : in_file b → fblk (vset V n d) x b = fblk V x b.
Proof.
  intros Hb. unfold fblk. rewrite other_fmap. destruct (Z.eqb_spec (fmap_at V x b) 0) as [|Hne]; [done|].
  rewrite vset_ne; [done|]. intros E. apply Ho. split; [congruence|]. right. by exists b.
Qed.

Lemma other_fbyte i : 0 ≤ i < MAXFILE * BSIZE → fbyte (vset V n d) x i = fbyte V x i.
Proof.
  intros Hi. unfold fbyte. rewrite other_fblk; [done|].
  split; [apply Z.div_pos; [lia|done]|apply Z.div_lt_upper_bound; [done|lia]].
Qed.

Lemma other_dblock b : dblock hm s V b → dblock hm s (vset V n d) b.
Proof. intros []. split; try done. by rewrite used_other. Qed.

Lemma other_file : file_ok hm s (vset V n d) x.
Proof.
  split; [apply Hf| | | |].
  - intros b Hb. rewrite other_fmap. intros. by apply other_dblock, (fo_data _ _ _ _ Hf).
  - intros. by apply other_dblock, (fo_ind _ _ _ _ Hf).
  - intros b b' Hb Hb'. rewrite !other_fmap. by apply (fo_inj _ _ _ _ Hf).
  - intros b Hb. rewrite other_fmap. by apply (fo_sep _ _ _ _ Hf).
Qed.
End other.

Lemma file_ok_size hm s V x g : file_ok hm s V x → file_ok hm s V (upd_i_size g x).
Proof. by intros []. Qed.

Lemma file_addrs hm s V x :
  file_ok hm s V x → bmap_layout s → Forall (λ a, 0 ≤ a < 2 ^ 32) (i_addrs x).
Proof.
  intros Hf [Hs _ _]. apply Forall_lookup. intros j a Hj. pose proof (lookup_lt_Some _ _ _ Hj) as Hl.
  rewrite (fo_len _ _ _ _ Hf) in Hl. assert (iaddr x (Z.of_nat j) = a) as Ea.
  { unfold iaddr. by rewrite Nat2Z.id, Hj. }
  destruct (decide (a = 0)) as [->|Hne]; [lia|]. assert (dblock hm s V a) as [[Hb1 Hb2] _ _ _ _]; [|lia].
  rewrite <-Ea in Hne |- *. destruct (decide (j = 12%nat)) as [->|Hj']; [by apply (fo_ind _ _ _ _ Hf)|].
  assert (fmap_at V x (Z.of_nat j) = iaddr x (Z.of_nat j)) as Em.
  { unfold fmap_at. destruct (Z.ltb_spec (Z.of_nat j) NDIRECT); [done|unfold NDIRECT in *; lia]. }
  rewrite <-Em in Hne |- *. apply (fo_data _ _ _ _ Hf); [file_lia|done].
Qed.

(** The inode, with its new size, goes to its block. *)
Lemma written_update k V x off bs V1 x1 :
  let s := sb (fs k) in
  let ib := IBLOCK (i_inum x) s in
  let x2 := upd_i_size (λ z, Z.max z (off + Z.of_nat (length bs))) x1 in
  file_ok (fshome k) s V x → layout_ok k V → whole V x → dinode_wf (di_inode x) →
  0 ≤ i_inum x < sb_ninodes s → 0 ≤ off ≤ i_size x → off + Z.of_nat (length bs) ≤ MAXFILE * BSIZE →
  writing (fshome k) s V x off bs (Z.of_nat (length bs)) V1 x1 → layout_ok k V1 →
  length (V1 ib) = Z.to_nat BSIZE →
  written k V x off bs (vset V1 ib (di_write (i_inum x mod IPB) (di_inode x2) (V1 ib))) x2.
Proof.
  intros s ib x2 Hf Hly [Ws Wm] Hwf Hinum Ho Hmax [W1 W2 W3 W4 W5 W6 W7] Hly1 Hlen.
  destruct (ly_iblock _ _ Hly (i_inum x) Hinum) as (I1 & I2 & I3 & I4). fold s ib in I1, I2, I3, I4.
  assert (∀ i, 0 ≤ i < sb_ninodes s → ¬ owns V1 x1 (IBLOCK i s)) as Hno.
  { intros i Hi Hw. apply (owns_dblock _ _ _ _ _ W1) in Hw. by apply (db_iblock _ _ _ _ Hw i Hi). }
  assert (∀ i, 0 ≤ i < sb_ninodes s → ¬ owns V x (IBLOCK i s)) as Hno0.
  { intros i Hi Hw. apply (owns_dblock _ _ _ _ _ Hf) in Hw. by apply (db_iblock _ _ _ _ Hw i Hi). }
  set (W := vset _ _ _).
  assert (∀ b, fmap_at W x2 b = fmap_at V1 x1 b) as Hmap by (intros b; apply (other_fmap V1 x1), Hno, Hinum).
  assert (file_ok (fshome k) s W x2) as Hf2 by (by apply file_ok_size, other_file, Hno).
  assert (i_size x2 = Z.max (i_size x) (off + Z.of_nat (length bs))) as Esz.
  { unfold x2. simpl. by rewrite W2. }
  assert (kept s (λ n, n = ib) V1 W) as Hk2.
  { unfold W. split; [intros c Hc; by rewrite (used_other s)|]. intros n _ _ _ Hn. by rewrite vset_ne. }
  split; try done.
  - unfold x2. by rewrite W2 at 1; destruct x.
  - split; [lia|]. intros bn Hbn Hb. rewrite Hmap, Esz in *.
    assert (in_file bn) by (split; [lia|apply (Z.mul_lt_mono_pos_r BSIZE); [done|lia]]).
    destruct (decide (bn * BSIZE < i_size x)) as [Hs|Hs]; [rewrite W4; auto|].
    apply W5; [lia| |lia]. apply Z.div_le_upper_bound; [done|]. unfold BSIZE in *. lia.
  - by apply (layout_kept k V1 W (λ n, n = ib)).
  - intros i Hi. rewrite <-W3 by done. unfold W. by apply (other_fbyte V1 x1); [apply Hno|].
  - apply dinode_of_update; [|done]. destruct Hwf as [D1 D2 D3 D4 D5 _ _]. unfold x2.
    split; simpl; try (by rewrite W2); [|apply W1|by eapply file_addrs, bm_layout, ly_bitmap].
    rewrite W2. simpl. assert (MAXFILE * BSIZE = 274432) by done. lia.
  - intros inum Hi Hne. unfold W, ib. rewrite dinode_of_other; [|apply W1|done|].
    + unfold dinode_of. destruct (ly_iblock _ _ Hly inum Hi) as (J1 & J2 & J3 & J4).
      rewrite (kp_same _ _ _ _ W6); auto.
    + destruct (decide (IBLOCK (i_inum x) s = IBLOCK inum s)); [right|by left].
      intros E. apply Hne. by apply (iblock_inj k V).
  - eapply (kept_trans _ _ (λ n, n = ib)); [| |exact W6|exact Hk2]; [by left|]. intros n ->. left. by right.
Qed.

Lemma writei_spec k V r ip x u src bs (S : source me u src bs) off :
  let s := sb (fs k) in
  let n := Z.of_nat (length bs) in
  op 1 k V ∅ (Z.to_nat (6 * nchunks off n) + (1 + r)) → layout_ok k V →
  itable (fs k) !! ip = Some x → i_dev x = ROOTDEV → dinode_wf (di_inode x) →
  0 ≤ i_inum x < sb_ninodes s → file_ok (fshome k) s V x → whole V x →
  0 ≤ off ≤ i_size x → off + n ≤ MAXFILE * BSIZE → fits s V x off n →
  0 ≤ src < 2 ^ 64 → so_at _ _ _ _ S k →
  wp (writei ip u src off n) k (λ v k', v = n ∧ ∃ V' x',
    so_at _ _ _ _ S k' ∧ written k V x off bs V' x' ∧ ichanged ip x' k k' ∧ op 1 k' V' ∅ r).
Proof.
  intros s n Hop Hly Hx Hdev Hwf Hin Hf Hwh Ho Hmax Hfit Hsrc HS.
  assert (MAXFILE * BSIZE = 274432) as Hmx by done. unfold writei. wp_pure.
  rewrite (inode_of_lookup _ _ _ Hx), u32_small by lia.
  destruct (Z.ltb_spec (i_size x) off); [lia|]. destruct (Z.ltb_spec (off + n) off); [lia|]. simpl orb.
  cbv iota. destruct (Z.ltb_spec (MAXFILE * BSIZE) (off + n)); [lia|]. wp_pure.
  eapply wp_mono; [eapply (writei_loop_spec k V ip x off bs (1 + r) u src S); done || lia|].
  intros [tot off'] k1 (-> & -> & HS1 & V1 & x1 & Hw & Hly1 & Hic & Hop1).
  assert (ip < length (itable (fs k)))%nat as Hip by (by eapply lookup_lt_Some).
  wp_pure. rewrite (inode_of_lookup _ _ _ (ichanged_lookup _ _ _ _ Hip Hic)).
  set (x2 := upd_i_size (λ z, Z.max z (off + n)) x1).
  assert (i_size x1 = i_size x ∧ i_dev x1 = i_dev x ∧ i_inum x1 = i_inum x) as (Esz & Ed & Ei).
  { by rewrite (wr_inode _ _ _ _ _ _ _ _ _ Hw). }
  assert (wp (when (i_size x1 <? off + n) (set_inode ip (upd_i_size (λ _, off + n)))) k1 (λ _ k2,
    so_at _ _ _ _ S k2 ∧ ichanged ip x2 k k2 ∧ op 1 k2 V1 ∅ (1 + r))) as Hwhen.
  { unfold when. destruct (Z.ltb_spec (i_size x1) (off + n)) as [Hlt|Hge]; wp_pure.
    - split_and!; [| |by apply op_upd_itable].
      { by eapply so_stable; [..|exact HS1]. }
      eapply ichanged_iset; [exact Hic|].
      assert (x2 = upd_i_size (λ _, off + n) x1) as ->.
      { unfold x2, upd_i_size. by rewrite Z.max_r by lia. }
      apply iset_upd. by eapply ichanged_lookup.
    - assert (x2 = x1) as ->; [|done]. unfold x2, upd_i_size. rewrite Z.max_l by lia. by destruct x1. }
  eapply wp_mono; [exact Hwhen|]. intros ? k2 (HS2 & Hic2 & Hop2). wp_pure.
  pose proof (fsq_same _ _ (ic_fsq _ _ _ _ Hic2)) as Hs2. pose proof (sd_sb _ _ Hs2) as Es2.
  destruct (ly_iblock _ _ Hly (i_inum x) Hin) as (_ & _ & Hhome & _).
  eapply wp_mono; [eapply (iupdate_spec me pid k2 V1 ∅ r ip x2); try done|].
  - by eapply ichanged_lookup.
  - by rewrite <-Ed in Hdev.
  - apply (fo_len _ _ _ _ (wr_file _ _ _ _ _ _ _ _ _ Hw)).
  - apply (same_fshome k); [done|]. rewrite Es2. simpl. by rewrite Ei.
  - rewrite map_size_empty. lia.
  - intros ? k3 [Hq3 Hop3]. wp_pure. rewrite s32_small by lia. split; [done|].
    rewrite Es2 in Hop3. change (i_inum x2) with (i_inum x1) in Hop3. rewrite Ei in Hop3.
    eexists _, x2. split_and!; [| | |exact Hop3].
    + eapply so_stable; [apply Hq3|apply Hq3|done].
    + apply written_update; try done. by eapply op_block_size.
    + eapply ichanged_same; [done|apply Hq3..].
Qed.
End writei.

(** ** Kernel memory as source *)

Section kernel_source.
Context `{OTH : Others, LNK : !Linker, KOB : !Kobj} (me : nat).

Definition kernel_has (src : Z) (bs : list Z) (k : kernel) : Prop :=
  ∀ i b, bs !! i = Some b → ldb (ram k) (src + Z.of_nat i) = b.

Lemma kernel_has_bdata src bs k f :
  kdst src (Z.of_nat (length bs)) → kernel_has src bs k →
  (∀ b, ¬ in_bdata b → ldb (f (ram k)) b = ldb (ram k) b) → kernel_has src bs (upd_ram f k).
Proof.
  intros (_ & _ & Ha) Hk Hf i b Hi. simpl. pose proof (lookup_lt_Some _ _ _ Hi).
  rewrite Hf; [by apply Hk|]. unfold in_bdata. lia.
Qed.

Lemma kernel_in src bs i m k :
  kdst src (Z.of_nat (length bs)) → running me k → kernel_has src bs k → (i + m ≤ length bs)%nat →
  (m ≤ Z.to_nat BSIZE)%nat →
  wp (object_in 0 (u64 (src + Z.of_nat i)) (Z.of_nat m)) k (λ '(c, ds) k',
    kframe k k' ∧ kernel_has src bs k' ∧ c = 0 ∧ ds = take m (drop i bs)).
Proof.
  intros Hkd Hrun Hk Hi Hm. pose proof Hkd as (H1 & H2 & H3). unfold BSIZE in *.
  unfold object_in, either_copyin, get_bytes, do_memmove.
  rewrite u64_small by lia. wp_pure. apply (wp_myproc_kframe me); [done|]. intros k2 Hf2 Hm2.
  change (nz 0) with false. cbv iota. wp_pure.
  assert (kernel_has src bs k2) as Hk2 by (intros j b; rewrite (ms_ram _ _ Hm2); apply Hk).
  split_and!; [by destruct Hf2; split| |done|].
  - apply kernel_has_bdata; [done|done|]. intros b Hb. unfold in_bdata, BSIZE in Hb.
    rewrite memmove_spec by lia. by rewrite decide_False by lia.
  - rewrite Nat2Z.id. cbn [ram upd_ram]. rewrite (ms_ram _ _ Hm2). apply list_eq. intros j.
    destruct (decide (j < m)%nat) as [Hj|Hj].
    + rewrite lookup_ld_bytes, memmove_spec, decide_True by lia. rewrite lookup_take_lt, lookup_drop by done.
      destruct (lookup_lt_is_Some_2 bs (i + j)) as [b Eb]; [lia|]. rewrite Eb, <-(Hk _ _ Eb). do 2 f_equal. lia.
    + rewrite (lookup_ge_None_2 (ld_bytes _ _ _)) by (rewrite length_ld_bytes; lia).
      by rewrite lookup_take_ge by lia.
Qed.

Definition kernel_source (src : Z) (bs : list Z) (Hs : kdst src (Z.of_nat (length bs))) :
    source me 0 src bs.
Proof.
  refine {| so_at := kernel_has src bs |}.
  - abstract (intros k k' _ Hm Hk i b; rewrite (ms_ram _ _ Hm); apply Hk).
  - abstract (intros k d Hd Hk; apply kernel_has_bdata; [done|done|]; intros b Hb;
      unfold in_bdata, BSIZE in *; apply ldb_st_bytes_out; lia).
  - abstract (intros i m k Hrun Hk Hi Hm; by apply (kernel_in src bs i m k)).
Defined.
End kernel_source.
