(* ===== verification/FsDir.v ===== *)
(** * Directories

    A directory is a file of entries of 16 bytes: an inode number, 0 for a free
    entry, and a name of at most 14 bytes.  dirlookup() finds the first entry in
    use with the name; dirlink() adds an entry for a name that is not there. *)

From stdpp Require Import gmap list strings.
From Stdlib Require Import ZArith Lia.
From S2P Require Import Prelude Mem Str Params FsData Machine Spinlock Sched Sleeplock Ring Bio.
From S2P Require Import BioSpec Log LogDisk LogSpec LogCommit LogTheorems FsTxn Kalloc Vm Fs.
From S2P Require Import FsAlloc FsInode FsFile FsBmap FsWrite.
#[local] Open Scope Z_scope.
Ltac wp_prim ::= wp_ino.

(** ** Names *)

(** The C string in the first [n] bytes. *)
Fixpoint cstr (n : nat) (l : list Z) : list Z :=
  match n, l with
  | S n', c :: l' => if nz c then c :: cstr n' l' else []
  | _, _ => []
  end.

Lemma strncmp_l_zero n p q : strncmp_l n p q = 0 ↔ cstr n p = cstr n q.
Proof.
  revert p q. induction n as [|n IH]; intros p q; [done|]. cbn [strncmp_l cstr].
  unfold nz. destruct p as [|a p], q as [|b q]; simpl.
  - done.
  - destruct (Z.eqb_spec b 0); simpl; split; intros; done || lia.
  - destruct (Z.eqb_spec a 0); simpl; [split; intros; done || lia|].
    destruct (Z.eqb_spec a 0); [done|]. split; [lia|done].
  - destruct (Z.eqb_spec a 0); simpl.
    + subst a. destruct (Z.eqb_spec b 0); simpl; split; intros; done || lia.
    + destruct (Z.eqb_spec a b) as [->|Hne]; simpl.
      * destruct (Z.eqb_spec b 0); [done|]. simpl. rewrite IH. split; [congruence|by intros [= ?]].
      * split; [lia|]. destruct (Z.eqb_spec b 0); simpl; [done|congruence].
Qed.

Lemma cstr_strncpy n t : cstr n (strncpy_l n t) = cstr n t.
Proof.
  revert t. induction n as [|n IH]; intros t; [done|]. cbn [strncpy_l]. destruct t as [|c t]; [done|].
  simpl. destruct (nz c) eqn:E; simpl; by rewrite ?E, ?IH.
Qed.

Lemma length_strncpy n t : length (strncpy_l n t) = n.
Proof.
  revert t. induction n as [|n IH]; intros t; [done|]. cbn [strncpy_l].
  destruct (nz _); simpl; [by rewrite IH|by rewrite length_replicate].
Qed.

(** ** Entries *)

Definition dirent_at (V : view) (x : inode) (off : Z) : list Z :=
  (λ b, b mod 256) <$> fslice V x off DIRENT_SIZE.

(** The inode number and the name of entry [j]. *)
Definition entry_at (V : view) (x : inode) (j : Z) : Z * list Z :=
  let de := dirent_at V x (DIRENT_SIZE * j) in
  (de_inum de, cstr (Z.to_nat DIRSIZ) (de_name de)).

Definition nentries (x : inode) : Z := i_size x / DIRENT_SIZE.

Definition is_entry (name : list Z) (e : Z * list Z) : bool :=
  negb (e.1 =? 0) && bool_decide (e.2 = cstr (Z.to_nat DIRSIZ) name).

(** The first entry with the name: its place and its inode number. *)
Definition dir_find (V : view) (x : inode) (name : list Z) : option (nat * (Z * list Z)) :=
  list_find (is_entry name) (entry_at V x <$> seqZ 0 (nentries x)).

(** A directory that can be read. *)
Record dir_ok (V : view) (x : inode) : Prop := {
  do_type : i_type x = T_DIR;
  do_dev : i_dev x = ROOTDEV;
  do_whole : whole V x;
  do_size : i_size x mod DIRENT_SIZE = 0;
}.

Section dirs.
Context `{OTH : Others, LNK : !Linker, LOK : !LinkerOk, KOB : !Kobj, KOK : !KobjOk} (me : nat) (pid : Z).
Abbreviation op := (op me pid).

Lemma kloc_dst : kdst kloc DIRENT_SIZE.
Proof.
  pose proof kloc_range as [H1 H2]. pose proof kobj_apart. pose proof kend_range.
  unfold kdst, DIRENT_SIZE, BSIZE, KERNBASE, PHYSTOP in *. unfold KERNBASE in *. lia.
Qed.

Lemma read_dirent_spec o k V r dp x off :
  op o k V ∅ r → itable (fs k) !! dp = Some x → i_dev x = ROOTDEV → whole V x →
  0 ≤ off → off + DIRENT_SIZE ≤ i_size x →
  wp (read_dirent dp off) k (λ '(ok, de) k', ok = true ∧ de = dirent_at V x off ∧
    fsq k k' ∧ inodes_same k k' ∧ op o k' V ∅ r).
Proof.
  intros Hop Hx Hdev Hwh Ho Hsz. pose proof kloc_dst as Hkd. pose proof (wh_size _ _ Hwh) as Hmx.
  change (MAXFILE * BSIZE) with 274432 in Hmx. unfold read_dirent, get_bytes.
  change DIRENT_SIZE with 16 in *. wp_pure.
  eapply wp_mono; [eapply (readi_spec me pid o k V r dp x 0 kloc (kernel_sink me k kloc 16 Hkd)); try done; try lia|].
  { destruct Hkd. unfold DIRENT_SIZE in *. lia. }
  { split_and!; [done|done|]. intros _ b Hb. unfold stored. by rewrite decide_False by (simpl; lia). }
  intros v k' (Hq & Hi & Hop' & Hv). wp_pure.
  assert (readable x off 16 = 16) as Er.
  { unfold readable. rewrite u32_small by lia.
    destruct (Z.ltb_spec (i_size x) off), (Z.ltb_spec (off + 16) off), (Z.ltb_spec (i_size x) (off + 16)); done || lia. }
  rewrite Er in Hv. destruct Hv as [[-> (_ & _ & Hm)]|[_ []]]. split_and!; try done.
  rewrite length_fslice in Hm. specialize (Hm ltac:(lia)).
  unfold dirent_at. change DIRENT_SIZE with 16. apply list_eq. intros j. rewrite list_lookup_fmap.
  destruct (decide (j < 16)%nat) as [Hj|Hj].
  - rewrite lookup_ld_bytes by lia. rewrite Hm.
    + unfold stored. rewrite length_fslice, decide_True by lia.
      replace (Z.to_nat (kloc + Z.of_nat j - kloc)) with j by lia.
      destruct (lookup_lt_is_Some_2 (fslice V x off 16) j) as [b Hb]; [rewrite length_fslice; lia|]. by rewrite Hb.
    + destruct Hkd as (_ & _ & Hap). unfold in_bdata, DIRENT_SIZE in *. lia.
  - rewrite (lookup_ge_None_2 (ld_bytes _ _ _)) by (rewrite length_ld_bytes; lia).
    by rewrite (lookup_ge_None_2 (fslice _ _ _ _)) by (rewrite length_fslice; lia).
Qed.

(** The inode table and the result after dirlookup(). *)
Definition found (V : view) (x : inode) (name : list Z) (tbl : list inode)
    (v : option (nat * Z)) (tbl' : list inode) : Prop :=
  match dir_find V x name with
  | None => v = None ∧ tbl' = tbl
  | Some (j, e) => ∃ i, iget_in tbl ROOTDEV e.1 = Some (i, tbl') ∧ v = Some (i, DIRENT_SIZE * Z.of_nat j)
  end.

Lemma entry_lookup V x j :
  (entry_at V x <$> seqZ 0 (nentries x)) !! j =
    if decide (Z.of_nat j < nentries x) then Some (entry_at V x (Z.of_nat j)) else None.
Proof.
  rewrite list_lookup_fmap. case_decide.
  - by rewrite lookup_seqZ_lt, Z.add_0_l by lia.
  - by rewrite lookup_seqZ_ge by lia.
Qed.

Lemma dir_size V x : dir_ok V x → i_size x = DIRENT_SIZE * nentries x ∧ 0 ≤ nentries x.
Proof.
  intros [_ _ [W _] D]. unfold nentries. pose proof (Z.div_mod (i_size x) DIRENT_SIZE ltac:(done)).
  split; [lia|]. apply Z.div_pos; [lia|done].
Qed.

Lemma is_entry_true name de :
  is_entry name (de_inum de, cstr (Z.to_nat DIRSIZ) (de_name de)) =
  negb (de_inum de =? 0) && (namecmp name (de_name de) =? 0).
Proof.
  unfold is_entry, namecmp. cbn [fst snd]. generalize (Z.to_nat DIRSIZ) as n. intros n. f_equal.
  pose proof (strncmp_l_zero n name (de_name de)) as Hz.
  destruct (Z.eqb_spec (strncmp_l n name (de_name de)) 0) as [E|E].
  - apply bool_decide_eq_true. symmetry. by apply Hz.
  - apply bool_decide_eq_false. intros E'. by apply E, Hz.
Qed.

Lemma dirlookup_spec o k V r dp x name :
  op o k V ∅ r → itable (fs k) !! dp = Some x → dir_ok V x →
  length (itable (fs k)) = Z.to_nat NINODE →
  (∀ j e, dir_find V x name = Some (j, e) → is_Some (iget_in (itable (fs k)) ROOTDEV e.1)) →
  wp (dirlookup dp name) k (λ v k', fsq k k' ∧ op o k' V ∅ r ∧
    (∀ i, sleeplock_of (fs k') (SL_inode i) = sleeplock_of (fs k) (SL_inode i)) ∧
    found V x name (itable (fs k)) v (itable (fs k'))).
Proof.
  intros Hop Hx Hd Hlen Hroom. destruct (dir_size _ _ Hd) as [Esz Hn]. pose proof Hd as [D1 D2 D3 D4].
  pose proof (wh_size _ _ D3) as Hmx. change (MAXFILE * BSIZE) with 274432 in Hmx.
  assert (DIRENT_SIZE = 16) as E16 by done.
  unfold dirlookup. wp_pure. rewrite (inode_of_lookup _ _ _ Hx), D1. change (T_DIR =? T_DIR) with true. cbv iota. simpl negb. cbv iota.
  apply (wp_loop _ (λ off k', ∃ j : nat, off = DIRENT_SIZE * Z.of_nat j ∧ Z.of_nat j ≤ nentries x ∧
    (∀ i, (i < j)%nat → is_entry name (entry_at V x (Z.of_nat i)) = false) ∧
    fsq k k' ∧ inodes_same k k' ∧ op o k' V ∅ r) (λ off _, i_size x - off)).
  - intros off k1 (j & -> & Hj & Hno & Hq1 & Hi1 & Hop1).
    assert (itable (fs k1) !! dp = Some x) as Hx1 by (by rewrite (is_itable _ _ Hi1)).
    wp_pure. rewrite (inode_of_lookup _ _ _ Hx1).
    destruct (Z.ltb_spec (DIRENT_SIZE * Z.of_nat j) (i_size x)) as [Hlt|Hge]; cycle 1.
    { wp_pure. split_and!; [done|done|apply Hi1|]. unfold found.
      assert (dir_find V x name = None) as ->; [|split; [done|apply Hi1]].
      apply list_find_None, Forall_lookup. intros i e. rewrite entry_lookup. case_decide; [|done].
      intros [= <-]. rewrite Hno by lia. by intros []. }
    wp_pure. eapply wp_mono; [eapply (read_dirent_spec o k1 V r dp x); try done; lia|].
    intros [ok de] k2 (-> & -> & Hq2 & Hi2 & Hop2). simpl negb. cbv iota.
    assert (itable (fs k2) = itable (fs k)) as Et by (by rewrite (is_itable _ _ Hi2), (is_itable _ _ Hi1)).
    assert (fsq k k2 ∧ inodes_same k k2) as [Hq02 Hi02] by (split; by etrans).
    pose proof (is_entry_true name (dirent_at V x (DIRENT_SIZE * Z.of_nat j))) as Ee.
    fold (entry_at V x (Z.of_nat j)) in Ee. set (de := dirent_at _ _ _) in *.
    assert (is_entry name (entry_at V x (Z.of_nat j)) = false →
      let off' := u32 (DIRENT_SIZE * Z.of_nat j + DIRENT_SIZE) in
      (∃ j' : nat, off' = DIRENT_SIZE * Z.of_nat j' ∧ Z.of_nat j' ≤ nentries x ∧
        (∀ i, (i < j')%nat → is_entry name (entry_at V x (Z.of_nat i)) = false) ∧
        fsq k k2 ∧ inodes_same k k2 ∧ op o k2 V ∅ r) ∧
      0 ≤ i_size x - off' < i_size x - DIRENT_SIZE * Z.of_nat j) as Hnext.
    { intros Hf. simpl. rewrite u32_small by lia. split; [|lia]. exists (S j).
      split_and!; try done; try lia. intros i Hi. destruct (decide (i = j)) as [->|]; [done|]. apply Hno. lia. }
    destruct (Z.eqb_spec (de_inum de) 0) as [E0|E0].
    { wp_pure. by apply Hnext. }
    destruct (Z.eqb_spec (namecmp name (de_name de)) 0) as [E1|E1]; cycle 1.
    { wp_pure. by apply Hnext. }
    simpl in Ee.
    assert (dir_find V x name = Some (j, entry_at V x (Z.of_nat j))) as Ef.
    { apply list_find_Some. rewrite entry_lookup, decide_True by lia. split_and!; [done|by rewrite Ee|].
      intros i e. rewrite entry_lookup. case_decide; [|done]. intros [= <-] Hi. rewrite Hno by done. by intros []. }
    destruct (Hroom _ _ Ef) as [[i tbl'] Hg]. change ((entry_at V x (Z.of_nat j)).1) with (de_inum de) in Hg.
    wp_pure. rewrite (inode_of_lookup (fs k2) dp x), D2 by (by rewrite Et).
    pose proof (op_running _ _ _ _ _ _ _ Hop2) as [Hrun2 _].
    eapply wp_mono; [eapply (iget_spec me k2 Hrun2 ROOTDEV (de_inum de) i tbl'); by rewrite Et|].
    intros ? k3 (-> & Hq3 & Hf3). wp_pure. split_and!.
    + etrans; [exact Hq02|]. destruct Hq3. split; try done; by rewrite Hf3.
    + eapply op_frame; [exact Hop2|by eapply kquiet_running|by apply kquiet_mypid|by rewrite Hf3..].
    + intros a. rewrite Hf3. apply Hi02.
    + unfold found. rewrite Ef, Hf3. exists i. done.
  - exists O. split_and!; try done. lia.
  - lia.
Qed.

(** ** Adding an entry *)

(** The first free entry, or the end. *)
Definition free_slot (V : view) (x : inode) (j : Z) : Prop :=
  0 ≤ j ≤ nentries x ∧ (∀ i, 0 ≤ i < j → (entry_at V x i).1 ≠ 0) ∧
  (j < nentries x → (entry_at V x j).1 = 0).

Lemma dirlink_slot_spec o k V r dp x :
  op o k V ∅ r → itable (fs k) !! dp = Some x → dir_ok V x →
  wp (dirlink_slot dp) k (λ off k', fsq k k' ∧ inodes_same k k' ∧ op o k' V ∅ r ∧
    ∃ j, off = DIRENT_SIZE * j ∧ free_slot V x j).
Proof.
  intros Hop Hx Hd. destruct (dir_size _ _ Hd) as [Esz Hn]. pose proof Hd as [D1 D2 D3 D4].
  pose proof (wh_size _ _ D3) as Hmx. change (MAXFILE * BSIZE) with 274432 in Hmx.
  assert (DIRENT_SIZE = 16) as E16 by done. unfold dirlink_slot.
  apply (wp_loop _ (λ off k', fsq k k' ∧ inodes_same k k' ∧ op o k' V ∅ r ∧ ∃ j, off = DIRENT_SIZE * j ∧
    0 ≤ j ≤ nentries x ∧ ∀ i, 0 ≤ i < j → (entry_at V x i).1 ≠ 0) (λ off _, i_size x - off)).
  - intros off k1 (Hq1 & Hi1 & Hop1 & j & -> & Hj & Hno).
    assert (itable (fs k1) !! dp = Some x) as Hx1 by (by rewrite (is_itable _ _ Hi1)).
    wp_pure. rewrite (inode_of_lookup _ _ _ Hx1), u32_small by lia.
    destruct (Z.ltb_spec (DIRENT_SIZE * j) (i_size x)) as [Hlt|Hge]; cycle 1.
    { wp_pure. split_and!; try done. exists j. split; [done|]. split_and!; [lia|lia|done|].
      intros. unfold DIRENT_SIZE in *. lia. }
    wp_pure. eapply wp_mono; [eapply (read_dirent_spec o k1 V r dp x); try done; lia|].
    intros [ok de] k2 (-> & -> & Hq2 & Hi2 & Hop2). simpl negb. cbv iota.
    assert (fsq k k2 ∧ inodes_same k k2) as [Hq02 Hi02] by (split; by etrans).
    change (de_inum (dirent_at V x (DIRENT_SIZE * j))) with ((entry_at V x j).1).
    destruct (Z.eqb_spec ((entry_at V x j).1) 0); wp_pure.
    + split_and!; try done. exists j. split_and!; done || lia.
    + split; [|lia]. split_and!; try done. exists (j + 1). split_and!; [lia..|].
      intros i Hi. destruct (decide (i = j)) as [->|]; [done|]. apply Hno. lia.
  - split_and!; try done. exists 0. split_and!; [done|lia|lia|lia].
  - lia.
Qed.

Lemma dirent_written k V x V' x' j i de :
  written k V x (DIRENT_SIZE * j) de V' x' → length de = Z.to_nat DIRENT_SIZE → 0 ≤ i →
  DIRENT_SIZE * (i + 1) ≤ MAXFILE * BSIZE →
  dirent_at V' x' (DIRENT_SIZE * i) =
    if decide (i = j) then (λ b, b mod 256) <$> de else dirent_at V x (DIRENT_SIZE * i).
Proof.
  intros Hw Hde Hi Hmax. unfold DIRENT_SIZE in *.
  assert (∀ a : nat, (a < 16)%nat → dirent_at V' x' (16 * i) !! a = Some (fbyte V' x' (16 * i + Z.of_nat a) mod 256) ∧
    dirent_at V x (16 * i) !! a = Some (fbyte V x (16 * i + Z.of_nat a) mod 256)) as Hat.
  { intros a Ha. unfold dirent_at, fslice. rewrite !list_lookup_fmap, lookup_seqZ_lt by (unfold DIRENT_SIZE; lia). done. }
  apply list_eq. intros a. destruct (decide (a < 16)%nat) as [Ha|Ha].
  - destruct (Hat a Ha) as [-> E]. rewrite (wt_bytes _ _ _ _ _ _ _ Hw) by lia. rewrite Hde.
    change (Z.of_nat (Z.to_nat 16)) with 16. case_decide as H1; case_decide as H2; try lia.
    + subst i. rewrite list_lookup_fmap.
      replace (Z.to_nat (16 * j + Z.of_nat a - 16 * j)) with a by lia.
      destruct (lookup_lt_is_Some_2 de a) as [b Eb]; [rewrite Hde; lia|]. by rewrite Eb.
    + by rewrite E.
  - assert (∀ W y, length (dirent_at W y (16 * i)) = 16%nat) as Hl.
    { intros W y. unfold dirent_at. rewrite length_fmap, length_fslice. done. }
    rewrite lookup_ge_None_2 by (rewrite Hl; lia). symmetry. apply lookup_ge_None.
    case_decide; [rewrite length_fmap, Hde|rewrite Hl]; lia.
Qed.

Lemma written_same k k' V x off bs V' x' :
  same_disk k k' → written k' V x off bs V' x' → written k V x off bs V' x'.
Proof.
  intros Hs [W1 W2 W3 W4 W5 W6 W7 W8]. rewrite (sd_sb _ _ Hs) in *. split; try done.
  - eapply file_ok_hm; [|exact W3]. intros n. by apply (same_fshome k).
  - apply (layout_same k'); [by symmetry|done].
Qed.

Lemma ichanged_after ip x k1 k2 k3 :
  fsq k1 k2 → inodes_same k1 k2 → ichanged ip x k2 k3 → ichanged ip x k1 k3.
Proof.
  intros Hq [I1 I2] [A1 A2 A3]. split; [by etrans|congruence|]. intros i. by rewrite A3.
Qed.

Lemma nchunks_entry j : 0 ≤ j → nchunks (DIRENT_SIZE * j) DIRENT_SIZE = 1.
Proof.
  intros Hj. unfold nchunks, DIRENT_SIZE, BSIZE. change (16 =? 0) with false. cbv iota.
  pose proof (Z.div_mod (16 * j) 1024 ltac:(done)). pose proof (Z.mod_pos_bound (16 * j) 1024 ltac:(done)).
  pose proof (Z.div_mod (16 * j + 16 - 1) 1024 ltac:(done)).
  pose proof (Z.mod_pos_bound (16 * j + 16 - 1) 1024 ltac:(done)). lia.
Qed.

Definition new_entry (name : list Z) (inum : Z) : list Z :=
  mk_dirent (u16 inum) (strncpy_l (Z.to_nat DIRSIZ) name).

Lemma length_new_entry name inum : length (new_entry name inum) = Z.to_nat DIRENT_SIZE.
Proof. unfold new_entry, mk_dirent. by rewrite length_app, length_le_bytes, length_strncpy. Qed.

(** Bytes. *)
Definition bytes (l : list Z) : Prop := Forall (λ b, 0 ≤ b < 256) l.

Lemma bytes_le n v : bytes (le_bytes n v).
Proof.
  revert v. induction n as [|n IH]; intros v; [by constructor|]. cbn [le_bytes]. constructor; [|apply IH].
  apply Z.mod_pos_bound. lia.
Qed.

Lemma bytes_strncpy n t : bytes t → bytes (strncpy_l n t).
Proof.
  revert t. induction n as [|n IH]; intros t Ht; [by constructor|]. cbn [strncpy_l]. destruct t as [|c t].
  - apply Forall_replicate. lia.
  - apply Forall_cons in Ht as [Hc Ht]. simpl. destruct (nz c); [constructor; [done|by apply IH]|].
    constructor; [lia|]. apply Forall_replicate. lia.
Qed.

Lemma bytes_new_entry name inum : bytes name → bytes (new_entry name inum).
Proof. intros Hn. apply Forall_app. split; [apply bytes_le|by apply bytes_strncpy]. Qed.

Lemma bytes_mod l : bytes l → (λ b, b mod 256) <$> l = l.
Proof.
  intros Hl. rewrite <-(list_fmap_id l) at 2. apply list_fmap_ext. intros i b Hb. unfold id.
  apply Z.mod_small. by eapply (proj1 (Forall_lookup _ _) Hl).
Qed.

(** dirlink() of a new name. *)
Lemma dirlink_spec k V r dp x name inum :
  let s := sb (fs k) in
  op 1 k V ∅ (7 + r) → layout_ok k V → itable (fs k) !! dp = Some x → dir_ok V x →
  dinode_wf (di_inode x) → 0 ≤ i_inum x < sb_ninodes s → file_ok (fshome k) s V x →
  length (itable (fs k)) = Z.to_nat NINODE → bytes name → dir_find V x name = None →
  i_size x + DIRENT_SIZE ≤ MAXFILE * BSIZE → avail s V 2 →
  wp (dirlink dp name inum) k (λ v k', v = 0 ∧ ∃ V' x' j, free_slot V x j ∧
    written k V x (DIRENT_SIZE * j) (new_entry name inum) V' x' ∧ ichanged dp x' k k' ∧ op 1 k' V' ∅ r).
Proof.
  intros s Hop Hly Hx Hd Hwf Hin Hf Hlen Hby Hnone Hmax Hav. pose proof kloc_dst as Hkd.
  destruct (dir_size _ _ Hd) as [Esz Hn]. unfold dirlink. wp_pure.
  eapply wp_mono; [eapply (dirlookup_spec 1 k V (7 + r)); try done|].
  { intros j e. by rewrite Hnone. }
  unfold found. rewrite Hnone. intros v k1 (Hq1 & Hop1 & Hl1 & -> & Ht1). cbv iota. wp_pure.
  assert (inodes_same k k1) as Hi1 by (by split).
  assert (itable (fs k1) !! dp = Some x) as Hx1 by (by rewrite Ht1).
  eapply wp_mono; [by eapply (dirlink_slot_spec 1 k1 V (7 + r))|].
  intros off k2 (Hq2 & Hi2 & Hop2 & j & -> & Hfree). unfold put_bytes. wp_pure.
  change (mk_dirent _ _) with (new_entry name inum). set (de := new_entry name inum). set (k3 := upd_ram _ k2).
  pose proof (length_new_entry name inum) as Hde. fold de in Hde.
  assert (kdst kloc (Z.of_nat (length de))) as Hkd' by (by rewrite Hde).
  assert (kframe k2 k3) as Hf3 by (by split). destruct (kframe_fsq _ _ Hf3) as [Hq3 Hi3].
  assert (fsq k k3 ∧ inodes_same k k3) as [Hq03 Hi03].
  { split; (etrans; [done|]); by etrans. }
  pose proof (fsq_same _ _ Hq03) as Hs3. pose proof (sd_sb _ _ Hs3) as Es3.
  destruct Hfree as (Hj & Hfr). pose proof (wh_size _ _ (do_whole _ _ Hd)) as Hwz.
  change (MAXFILE * BSIZE) with 274432 in Hmax, Hwz. change DIRENT_SIZE with 16 in *.
  rewrite u32_small by lia. replace 16 with (Z.of_nat (length de)) at 2 by (by rewrite Hde).
  eapply wp_mono; [eapply (writei_spec me pid k3 V r dp x 0 kloc de (kernel_source me kloc de Hkd') (16 * j))|].
  - rewrite Hde. change (Z.of_nat (Z.to_nat 16)) with DIRENT_SIZE. change 16 with DIRENT_SIZE.
    rewrite nchunks_entry by lia. by eapply op_kframe.
  - by apply (layout_same k).
  - by rewrite (is_itable _ _ Hi03).
  - apply Hd.
  - done.
  - by rewrite Es3.
  - rewrite Es3. eapply file_ok_hm; [|exact Hf]. intros n. by apply (same_fshome k).
  - apply Hd.
  - lia.
  - rewrite Hde. change (MAXFILE * BSIZE) with 274432. lia.
  - right. rewrite Es3, Hde. change (Z.of_nat (Z.to_nat 16)) with DIRENT_SIZE. change 16 with DIRENT_SIZE.
    by rewrite nchunks_entry by lia.
  - destruct Hkd as (? & ? & _). lia.
  - intros i b Hi. unfold k3. cbn [ram upd_ram]. rewrite (ldb_st_bytes_in _ _ _ _ _ Hi). apply Z.mod_small.
    by eapply (proj1 (Forall_lookup _ _) (bytes_new_entry name inum Hby)).
  - intros n k4 (-> & V' & x' & _ & Hw & Hic & Hop4). rewrite Hde. change (Z.of_nat (Z.to_nat 16)) with 16.
    simpl negb. cbv iota. wp_pure. split; [done|]. exists V', x', j. split_and!; [by split|..].
    + by eapply written_same.
    + by eapply ichanged_after.
    + done.
Qed.

(** What the directory looks like after dirlink(). *)
Record linked (V : view) (x : inode) (name : list Z) (inum : Z) (V' : view) (x' : inode) : Prop := {
  lk_dir : dir_ok V' x';
  lk_name : ∃ j, dir_find V' x' name = Some (j, (inum, cstr (Z.to_nat DIRSIZ) name));
  lk_others : ∀ other, cstr (Z.to_nat DIRSIZ) other ≠ cstr (Z.to_nat DIRSIZ) name →
    dir_find V' x' other = dir_find V x other;
}.

Lemma new_entry_decode name inum :
  0 ≤ inum < 2 ^ 16 →
  de_inum (new_entry name inum) = inum ∧
  cstr (Z.to_nat DIRSIZ) (de_name (new_entry name inum)) = cstr (Z.to_nat DIRSIZ) name.
Proof.
  intros Hi. unfold de_inum, de_name, new_entry, mk_dirent. split.
  - unfold bld. change (Z.to_nat 0) with 0%nat. rewrite drop_0, take_app_le by (rewrite length_le_bytes; lia).
    rewrite take_ge by (rewrite length_le_bytes; lia). rewrite le_val_le_bytes. unfold u16.
    change (256 ^ Z.of_nat 2) with (2 ^ 16). by rewrite !Z.mod_small by (rewrite ?Z.mod_small; lia).
  - rewrite drop_app_length' by (by rewrite length_le_bytes). apply cstr_strncpy.
Qed.

Lemma dirlink_linked k V x name inum V' x' j :
  dir_ok V x → free_slot V x j → written k V x (DIRENT_SIZE * j) (new_entry name inum) V' x' →
  bytes name → 0 < inum < 2 ^ 16 → dir_find V x name = None → i_size x + DIRENT_SIZE ≤ MAXFILE * BSIZE →
  linked V x name inum V' x'.
Proof.
  intros Hd (Hj & Hused & Hfree) Hw Hby Hin Hnone Hmax. destruct (dir_size _ _ Hd) as [Esz Hn].
  assert (i_size x' = DIRENT_SIZE * Z.max (nentries x) (j + 1)) as Esz'.
  { pose proof (f_equal i_size (wt_inode _ _ _ _ _ _ _ Hw)) as Es. cbn [i_size upd_i_size upd_i_addrs] in Es.
    rewrite length_new_entry, Esz in Es. rewrite Es. unfold DIRENT_SIZE. lia. }
  assert (nentries x' = Z.max (nentries x) (j + 1)) as En.
  { unfold nentries at 1. rewrite Esz'. by rewrite Z.mul_comm, Z.div_mul. }
  destruct (new_entry_decode name inum) as [De Dn]; [lia|].
  assert (∀ i, 0 ≤ i < nentries x' → entry_at V' x' i =
    if decide (i = j) then (inum, cstr (Z.to_nat DIRSIZ) name) else entry_at V x i) as He.
  { intros i Hi. unfold entry_at. rewrite (dirent_written _ _ _ _ _ _ _ _ Hw); [|apply length_new_entry|lia|].
    - case_decide; [|done]. rewrite bytes_mod by (by apply bytes_new_entry). by rewrite De, Dn.
    - unfold DIRENT_SIZE in *. lia. }
  split.
  - split; [| |apply Hw|].
    + rewrite (wt_inode _ _ _ _ _ _ _ Hw). apply Hd.
    + rewrite (wt_inode _ _ _ _ _ _ _ Hw). apply Hd.
    + rewrite Esz', Z.mul_comm. by apply Z.mod_mul.
  - exists (Z.to_nat j). apply list_find_Some. rewrite entry_lookup, decide_True by lia.
    rewrite Z2Nat.id, He, decide_True by lia. split_and!; [done| |].
    + unfold is_entry. cbn [fst snd]. rewrite bool_decide_true by done. destruct (Z.eqb_spec inum 0); [lia|done].
    + intros i e. rewrite entry_lookup. case_decide; [|done]. intros [= <-] Hi.
      rewrite He, decide_False by lia. apply list_find_None in Hnone. rewrite Forall_lookup in Hnone.
      apply (Hnone i). by rewrite entry_lookup, decide_True by lia.
  - intros other Hne. assert (is_entry other (inum, cstr (Z.to_nat DIRSIZ) name) = false) as Hnew.
    { unfold is_entry. cbn [fst snd]. rewrite bool_decide_false by congruence. apply andb_false_r. }
    destruct (dir_find V x other) as [[i e]|] eqn:Ef.
    + apply list_find_Some in Ef as (H1 & H2 & H3). rewrite entry_lookup in H1. case_decide as Hi; [|done].
      injection H1 as <-. apply list_find_Some. rewrite entry_lookup, decide_True, He by lia.
      assert (Z.of_nat i ≠ j) as Hij.
      { intros <-. unfold is_entry in H2. by rewrite Hfree in H2 by lia. }
      rewrite decide_False by done. split_and!; [done|done|]. intros a e. rewrite entry_lookup.
      case_decide; [|done]. intros [= <-] Ha. rewrite He by lia. case_decide; [by rewrite Hnew; intros []|].
      apply (H3 a); [|done]. by rewrite entry_lookup, decide_True by lia.
    + apply list_find_None in Ef. rewrite Forall_lookup in Ef. apply list_find_None, Forall_lookup.
      intros a e. rewrite entry_lookup. case_decide; [|done]. intros [= <-]. rewrite He by lia.
      case_decide; [by rewrite Hnew; intros []|]. apply (Ef a). by rewrite entry_lookup, decide_True by lia.
Qed.
End dirs.
