(* ===== verification/FsPath.v ===== *)
(** * Path names

    The components of a path, and that skipelem() takes them off one by one.
    Resolving a path in the tree of directories on the disk, and that namex()
    does it. *)

From stdpp Require Import gmap list strings.
From Stdlib Require Import ZArith Lia.
From S2P Require Import Prelude Mem Str Params FsData Machine Spinlock Sched Sleeplock Ring Bio.
From S2P Require Import BioSpec Log LogDisk LogSpec LogCommit LogTheorems FsTxn Kalloc Vm Fs.
From S2P Require Import FsAlloc FsInode FsFile FsBmap FsWrite FsDir.
#[local] Open Scope Z_scope.
Ltac wp_prim ::= wp_ino.

(** ** Components *)

(** The pieces between slashes. *)
Fixpoint split_path (path : list Z) : list (list Z) :=
  match path with
  | [] => [[]]
  | c :: path' =>
      if c =? SLASH then [] :: split_path path'
      else match split_path path' with
           | s :: l => (c :: s) :: l
           | [] => [[c]]
           end
  end.

(** The components of a path: the pieces that are not empty. *)
Definition components (path : list Z) : list (list Z) := filter (λ s, s ≠ []) (split_path path).

Lemma components_slash path : components (SLASH :: path) = components path.
Proof. done. Qed.

Lemma components_skip path : components (skip_slashes path) = components path.
Proof.
  induction path as [|c path IH]; [done|]. simpl. destruct (Z.eqb_spec c SLASH) as [->|Hne]; [|done].
  by rewrite components_slash.
Qed.

Lemma skip_slashes_head path c rest : skip_slashes path = c :: rest → c ≠ SLASH.
Proof.
  induction path as [|d path IH]; [done|]. simpl. destruct (Z.eqb_spec d SLASH); [done|by intros [= -> ->]].
Qed.

Lemma skip_slashes_length path : (length (skip_slashes path) ≤ length path)%nat.
Proof. induction path as [|c path IH]; [done|]. simpl. destruct (c =? SLASH); simpl; lia. Qed.

Lemma skip_slashes_nz path : Forall (λ c, c ≠ 0) path → Forall (λ c, c ≠ 0) (skip_slashes path).
Proof. induction 1 as [|c path Hc H IH]; [done|]. simpl. destruct (c =? SLASH); [done|by constructor]. Qed.

Lemma skip_slashes_nil path : skip_slashes path = [] ↔ components path = [].
Proof.
  rewrite <-components_skip. split; [by intros ->|]. pose proof (skip_slashes_head path) as Hh.
  destruct (skip_slashes path) as [|c p]; [done|]. specialize (Hh c p eq_refl). apply Z.eqb_neq in Hh.
  unfold components. simpl. rewrite Hh. by destruct (split_path p).
Qed.

Lemma path_elem_split path s rest :
  path_elem path = (s, rest) →
  path = s ++ rest ∧ (rest = [] ∨ head rest = Some SLASH) ∧
  ∃ l, split_path path = s :: l ∧ filter (λ s, s ≠ []) l = components rest.
Proof.
  revert s rest. induction path as [|c path IH]; intros s rest; simpl.
  { intros [= <- <-]. split_and!; [done|by left|]. by exists []. }
  destruct (Z.eqb_spec c SLASH) as [->|Hne].
  { intros [= <- <-]. split_and!; [done|by right|]. by exists (split_path path). }
  destruct (path_elem path) as [s' rest'] eqn:E. intros [= <- <-].
  destruct (IH s' rest' eq_refl) as (-> & H2 & l & H3 & H4). split_and!; [done|done|].
  exists l. by rewrite H3.
Qed.

Lemma cstr_take n s : Forall (λ c, c ≠ 0) s → cstr n s = take n s.
Proof.
  intros Hs. revert n. induction Hs as [|c s Hc Hs IH]; intros [|n]; [done..|]. simpl. unfold nz.
  apply Z.eqb_neq in Hc. by rewrite Hc, IH.
Qed.

Lemma cstr_stop n s t : Forall (λ c, c ≠ 0) s → cstr n (s ++ 0 :: t) = take n s.
Proof.
  intros Hs. revert n. induction Hs as [|c s Hc Hs IH]; intros [|n]; [done..|]. simpl. unfold nz.
  apply Z.eqb_neq in Hc. by rewrite Hc, IH.
Qed.

(** The name buffer holds the component, cut off at 14 bytes. *)
Lemma name_buffer s name :
  length name = Z.to_nat DIRSIZ → Forall (λ c, c ≠ 0) s →
  let name' := if DIRSIZ <=? Z.of_nat (length s) then splice 0 (take (Z.to_nat DIRSIZ) s) name
               else <[length s := 0]> (splice 0 s name) in
  length name' = Z.to_nat DIRSIZ ∧ cstr (Z.to_nat DIRSIZ) name' = take (Z.to_nat DIRSIZ) s.
Proof.
  intros Hl Hs. destruct (Z.leb_spec DIRSIZ (Z.of_nat (length s))) as [Hge|Hlt]; cbv zeta.
  - assert (length (take (Z.to_nat DIRSIZ) s) = length name) as Ht by (rewrite length_take; lia).
    rewrite splice_all by done. split; [by rewrite Ht|].
    rewrite cstr_take by (by apply Forall_take). by rewrite take_take, Nat.min_id.
  - assert (<[length s := 0]> (splice 0 s name) = s ++ 0 :: drop (S (length s)) name) as ->.
    { unfold splice. simpl. rewrite insert_app_r_alt, Nat.sub_diag by done. f_equal.
      destruct (drop (length s) name) as [|c t] eqn:E.
      - apply (f_equal length) in E. rewrite length_drop in E. simpl in E. lia.
      - simpl. f_equal. change t with (drop 1 (c :: t)). rewrite <-E, drop_drop. f_equal. lia. }
    split; [|by apply cstr_stop]. rewrite length_app. simpl. rewrite length_drop. lia.
Qed.

Lemma skipelem_spec path name :
  length name = Z.to_nat DIRSIZ → Forall (λ c, c ≠ 0) path →
  match components path with
  | [] => skipelem path name = None
  | c :: cs => ∃ rest name', skipelem path name = Some (rest, name') ∧ components rest = cs ∧
      (rest = [] ↔ cs = []) ∧ (length rest < length path)%nat ∧ Forall (λ c, c ≠ 0) rest ∧
      length name' = Z.to_nat DIRSIZ ∧ cstr (Z.to_nat DIRSIZ) name' = take (Z.to_nat DIRSIZ) c ∧
      Forall (λ c, c ≠ 0) c
  end.
Proof.
  intros Hl Hnz. rewrite <-components_skip. unfold skipelem.
  pose proof (skip_slashes_length path) as Hlen. pose proof (skip_slashes_head path) as Hh.
  assert (Forall (λ c, c ≠ 0) (skip_slashes path)) as Hnz1 by (by apply skip_slashes_nz).
  destruct (skip_slashes path) as [|c p]; [done|]. specialize (Hh c p eq_refl). set (q := c :: p) in *.
  destruct (path_elem q) as [s rest] eqn:E. destruct (path_elem_split _ _ _ E) as (Hq & Hrest & l & Hsp & Hfl).
  assert (s ≠ []) as Hs.
  { intros ->. simpl in Hq. destruct Hrest as [->|Hr]; [done|]. rewrite <-Hq in Hr. by injection Hr. }
  rewrite Hq in Hnz1. apply Forall_app in Hnz1 as [Hns Hnr].
  unfold components at 1. rewrite Hsp, filter_cons_True by done. rewrite Hfl.
  destruct (name_buffer s name Hl Hns) as [N1 N2].
  exists (skip_slashes rest). eexists. split; [reflexivity|]. rewrite components_skip.
  split_and!; [done|apply skip_slashes_nil| |by apply skip_slashes_nz|exact N1|exact N2|done].
  pose proof (skip_slashes_length rest). apply (f_equal length) in Hq. rewrite length_app in Hq.
  destruct s; [done|]. simpl in *. lia.
Qed.

(** ** The tree *)

Section tree.
Context (s : superblock) (V : view).

(** Inode [n] of the disk. *)
Definition node (n : Z) : inode := filled (mkInode ROOTDEV n 0 0 0 0 0 0 0 []) (dinode_of s V n).

(** Resolving the components [cs] from inode [n]: the inode of the file, or, for
    [parent], of the directory that has the last component, and that component. *)
Fixpoint resolve (parent : bool) (n : Z) (cs : list (list Z)) : option (Z * list Z) :=
  match cs with
  | [] => if parent then None else Some (n, [])
  | c :: cs' =>
      if negb (i_type (node n) =? T_DIR) then None else
      if parent && bool_decide (cs' = []) then Some (n, take (Z.to_nat DIRSIZ) c) else
      match dir_find V (node n) (take (Z.to_nat DIRSIZ) c) with
      | Some (_, (n', _)) => resolve parent n' cs'
      | None => None
      end
  end.

(** The inodes [L] are in use, and closed under looking up names. *)
Record tree (L : Z → Prop) : Prop := {
  tr_type : ∀ n, L n → i_type (node n) ≠ 0;
  tr_nlink : ∀ n, L n → i_nlink (node n) ≠ 0;
  tr_dir : ∀ n, L n → i_type (node n) = T_DIR → dir_ok V (node n);
  tr_entry : ∀ n name j e, L n → i_type (node n) = T_DIR → dir_find V (node n) name = Some (j, e) → L e.1;
}.

(** The copy of an inode in memory agrees with the disk. *)
Definition fresh (x : inode) : Prop :=
  i_dev x = ROOTDEV ∧ (i_valid x = 0 ∨ di_inode x = dinode_of s V (i_inum x)).

Lemma di_filled x d : di_inode (filled x d) = d.
Proof. by destruct d. Qed.

Lemma fresh_locked x : fresh x → fresh (locked_inode s V x) ∧ di_inode (locked_inode s V x) = dinode_of s V (i_inum x).
Proof.
  intros [H1 H2]. unfold locked_inode. destruct (Z.eqb_spec (i_valid x) 0) as [E|E].
  - split; [split; [done|right]|]; by rewrite di_filled.
  - destruct H2 as [?|H2]; [done|]. split; [by split; [|right]|done].
Qed.

(** What depends only on the contents of an inode. *)
Lemma node_same x : di_inode x = dinode_of s V (i_inum x) →
  i_type x = i_type (node (i_inum x)) ∧ i_nlink x = i_nlink (node (i_inum x)) ∧
  (∀ name, dir_find V x name = dir_find V (node (i_inum x)) name) ∧
  (i_dev x = ROOTDEV → dir_ok V (node (i_inum x)) → dir_ok V x).
Proof.
  intros E. unfold node. rewrite <-E. split_and!; [done..|].
  intros Hd [D1 D2 [D3 D4] D5]. split; [done|done|by split|done].
Qed.

Lemma dir_find_cstr x name name' :
  cstr (Z.to_nat DIRSIZ) name = cstr (Z.to_nat DIRSIZ) name' → dir_find V x name = dir_find V x name'.
Proof. intros E. unfold dir_find, is_entry. by rewrite E. Qed.

(** ** References to inodes while a path is resolved

    The table is [tbl0] with a reference more for each of [ips]. *)
Definition refs_of (i : nat) (ips : list nat) : Z := Z.of_nat (length (filter (i =.) ips)).

Record walking (tbl0 : list inode) (ips : list nat) (tbl : list inode) : Prop := {
  wk_ref : ∀ i x, tbl !! i = Some x → ∃ x0, tbl0 !! i = Some x0 ∧ 0 ≤ i_ref x0 ∧ i_ref x = i_ref x0 + refs_of i ips ∧
    (0 < i_ref x0 → i_dev x = i_dev x0 ∧ i_inum x = i_inum x0);
  wk_fresh : ∀ i x, tbl !! i = Some x → 0 < i_ref x → fresh x;
  wk_ok : itable_ok tbl;
}.

Lemma walking_start tbl :
  itable_ok tbl → (∀ i x, tbl !! i = Some x → 0 < i_ref x → fresh x) → walking tbl [] tbl.
Proof.
  intros Hok Hf. split; [|done|done]. intros i x Hx. exists x.
  split_and!; [done|by eapply it_ref|unfold refs_of; simpl; lia|done].
Qed.

Lemma refs_of_cons i j ips : refs_of i (j :: ips) = refs_of i ips + if decide (i = j) then 1 else 0.
Proof. unfold refs_of. rewrite filter_cons. case_decide; simpl; lia. Qed.

Lemma refs_of_nonneg i ips : 0 ≤ refs_of i ips.
Proof. unfold refs_of. lia. Qed.

Lemma refs_of_in i ips : i ∈ ips → 0 < refs_of i ips.
Proof.
  induction 1 as [i ips|i j ips Hin IH]; rewrite refs_of_cons; [|case_decide; lia].
  rewrite decide_True by done. pose proof (refs_of_nonneg i ips). lia.
Qed.

(** Entry [i] is changed to [y]. *)
Lemma walking_set tbl0 ips ips' tbl i x y :
  walking tbl0 ips tbl → tbl !! i = Some x → (∀ j, j ≠ i → refs_of j ips' = refs_of j ips) →
  i_ref y = i_ref x + refs_of i ips' - refs_of i ips →
  (0 < i_ref x → i_dev y = i_dev x ∧ i_inum y = i_inum x) → (0 < i_ref y → fresh y) →
  itable_ok (<[i := y]> tbl) → walking tbl0 ips' (<[i := y]> tbl).
Proof.
  intros [W1 W2 W3] Hx Hj Hr Hid Hf Hok. split; [| |done].
  - intros j z [(-> & <- & _)|[Hne Hz]]%list_lookup_insert_Some.
    + destruct (W1 _ x Hx) as (x0 & H0 & H1 & H2 & H3). pose proof (refs_of_nonneg j ips). exists x0.
      split_and!; [done|done|lia|]. intros Hp. destruct (Hid ltac:(lia)) as [-> ->]. by apply H3.
    + rewrite Hj by done. by apply W1.
  - intros j z [(-> & <- & _)|[Hne Hz]]%list_lookup_insert_Some; [done|by apply (W2 j)].
Qed.

Lemma itable_ok_same tbl i x y :
  itable_ok tbl → tbl !! i = Some x → 0 ≤ i_ref y →
  (0 < i_ref y → 0 < i_ref x ∧ i_dev y = i_dev x ∧ i_inum y = i_inum x) → itable_ok (<[i := y]> tbl).
Proof.
  intros Hok Hx Hr Hs. apply itable_ok_insert; [done|done|]. intros j z Hj Hz H1 H2 [E1 E2].
  destruct (Hs H2) as (H3 & E3 & E4). destruct Hj. apply (it_unique _ Hok j i z x); congruence.
Qed.

Lemma walking_get tbl0 ips tbl n i tbl' :
  walking tbl0 ips tbl → iget_in tbl ROOTDEV n = Some (i, tbl') →
  walking tbl0 (i :: ips) tbl' ∧ ∃ x, tbl' !! i = Some x ∧ i_inum x = n ∧ 0 < i_ref x.
Proof.
  intros Hw Hg. destruct (iget_in_ok _ _ _ _ _ (wk_ok _ _ _ Hw) Hg) as (Hok & (x' & Hx' & _ & Hn & Hr) & _).
  split; [|by exists x']. unfold iget_in in Hg.
  assert (∀ j, j ≠ i → refs_of j (i :: ips) = refs_of j ips) as Hj
    by (intros j Hne; rewrite refs_of_cons, decide_False by done; lia).
  destruct (find_ix (imatch ROOTDEV n) tbl) as [j|] eqn:E1.
  - injection Hg as -> <-. apply find_ix_Some in E1 as (x & Hx & (H1 & H2 & H3)%imatch_true & _).
    rewrite (list_alter_is_insert _ _ _ _ Hx) in *. eapply walking_set; try done; [|intros _; by apply (wk_fresh _ _ _ Hw i x)].
    rewrite refs_of_cons, decide_True by done. simpl. lia.
  - destruct (find_ix ifree tbl) as [j|] eqn:E2; [|done]. injection Hg as -> <-.
    apply find_ix_Some in E2 as (x & Hx & Hf & _). apply Z.eqb_eq in Hf.
    rewrite (list_alter_is_insert _ _ _ _ Hx) in *. eapply walking_set; try done; [|lia|intros _; split; [done|by left]].
    rewrite refs_of_cons, decide_True by done. simpl. lia.
Qed.

Lemma walking_put tbl0 ip ips tbl x :
  walking tbl0 (ip :: ips) tbl → tbl !! ip = Some x → walking tbl0 ips (alter (upd_i_ref (λ r, r - 1)) ip tbl).
Proof.
  intros Hw Hx. rewrite (list_alter_is_insert _ _ _ _ Hx). destruct (wk_ref _ _ _ Hw _ _ Hx) as (x0 & _ & H0 & H1 & _).
  rewrite refs_of_cons, decide_True in H1 by done. pose proof (refs_of_nonneg ip ips).
  eapply walking_set; try done.
  - intros j Hne. rewrite refs_of_cons, decide_False by done. lia.
  - rewrite refs_of_cons, decide_True by done. simpl. lia.
  - simpl. intros _. apply (wk_fresh _ _ _ Hw ip x); [done|lia].
  - eapply itable_ok_same; [by destruct Hw|done|simpl; lia|]. simpl. intros. split; [lia|done].
Qed.

Lemma walking_dup tbl0 ip ips tbl x :
  walking tbl0 ips tbl → tbl !! ip = Some x → 0 < i_ref x →
  walking tbl0 (ip :: ips) (alter (upd_i_ref (λ r, r + 1)) ip tbl).
Proof.
  intros Hw Hx Hr. rewrite (list_alter_is_insert _ _ _ _ Hx). eapply walking_set; try done.
  - intros j Hne. rewrite refs_of_cons, decide_False by done. lia.
  - rewrite refs_of_cons, decide_True by done. simpl. lia.
  - simpl. intros _. by apply (wk_fresh _ _ _ Hw ip x).
  - eapply itable_ok_same; [by destruct Hw|done|simpl; lia|]. done.
Qed.

Lemma walking_swap tbl0 i j tbl : walking tbl0 [i; j] tbl → walking tbl0 [j; i] tbl.
Proof.
  intros [W1 W2 W3]. split; [|done|done]. intros a x Hx.
  assert (refs_of a [j; i] = refs_of a [i; j]) as -> by (rewrite !refs_of_cons; lia). by apply W1.
Qed.

Lemma walking_lock tbl0 ips tbl ip x :
  walking tbl0 ips tbl → tbl !! ip = Some x → 0 < i_ref x → walking tbl0 ips (<[ip := locked_inode s V x]> tbl).
Proof.
  intros Hw Hx Hr. assert (i_ref (locked_inode s V x) = i_ref x ∧ i_dev (locked_inode s V x) = i_dev x ∧
    i_inum (locked_inode s V x) = i_inum x) as (E1 & E2 & E3) by (unfold locked_inode; by destruct (_ =? 0)).
  eapply walking_set; try done; [lia| |].
  - intros _. apply fresh_locked. by apply (wk_fresh _ _ _ Hw ip x).
  - eapply itable_ok_same; [by destruct Hw|done|lia|]. by rewrite E1, E2, E3.
Qed.

(** Entries in use stay what they are. *)
Lemma iget_in_keep tbl dev n i tbl' j x :
  iget_in tbl dev n = Some (i, tbl') → tbl !! j = Some x → 0 < i_ref x →
  ∃ x', tbl' !! j = Some x' ∧ i_inum x' = i_inum x ∧ 0 < i_ref x'.
Proof.
  intros Hg Hx Hr. unfold iget_in in Hg. destruct (find_ix (imatch dev n) tbl) as [a|] eqn:E1.
  - injection Hg as -> <-. rewrite list_lookup_alter. case_decide; [subst|by exists x]. rewrite Hx. simpl.
    eexists. split_and!; [done|done|simpl; lia].
  - destruct (find_ix ifree tbl) as [a|] eqn:E2; [|done]. injection Hg as -> <-.
    apply find_ix_Some in E2 as (y & Hy & Hf & _). apply Z.eqb_eq in Hf.
    rewrite list_lookup_alter_ne; [by exists x|]. intros ->. rewrite Hx in Hy. injection Hy as <-. lia.
Qed.

(** Two entries that were free leave one free beside the directory. *)
Lemma walking_room tbl0 ips tbl n a b x y :
  walking tbl0 ips tbl → length tbl0 = length tbl → (length ips ≤ 1)%nat → a ≠ b →
  tbl0 !! a = Some x → i_ref x = 0 → tbl0 !! b = Some y → i_ref y = 0 → is_Some (iget_in tbl ROOTDEV n).
Proof.
  intros Hw Hl Hips Hab Ha Hra Hb Hrb.
  assert (∃ i x0 x, refs_of i ips = 0 ∧ tbl0 !! i = Some x0 ∧ i_ref x0 = 0 ∧ tbl !! i = Some x) as (i & x0 & z & E0 & E1 & E2 & E3).
  { destruct (lookup_lt_is_Some_2 tbl a) as [xa Hxa]; [apply lookup_lt_Some in Ha; lia|].
    destruct (lookup_lt_is_Some_2 tbl b) as [xb Hxb]; [apply lookup_lt_Some in Hb; lia|].
    destruct ips as [|i [|]]; simpl in Hips; [by exists a, x, xa| |lia].
    destruct (decide (a = i)) as [<-|Hne]; [exists b, y, xb|exists a, x, xa]; split_and!; try done;
      by rewrite refs_of_cons, decide_False. }
  apply (iget_in_room _ _ _ z); [by apply list_elem_of_lookup; exists i|right].
  destruct (wk_ref _ _ _ Hw _ _ E3) as (x1 & H1 & _ & H2 & _). rewrite E1 in H1. injection H1 as <-. lia.
Qed.
End tree.

(** ** namex() *)

Section namex.
Context `{OTH : Others, LNK : !Linker, LOK : !LinkerOk, KOB : !Kobj, KOK : !KobjOk} (me : nat) (pid : Z).
Context (o : Z) (k0 : kernel) (V : view) (r : nat) (L : Z → Prop).
Abbreviation op := (op me pid).
Let s := sb (fs k0).
Let tbl0 := itable (fs k0).
Context (Htree : tree s V L).
Context (Hlen : length tbl0 = Z.to_nat NINODE).
Context (Hfree : ∃ a b x y, a ≠ b ∧ tbl0 !! a = Some x ∧ i_ref x = 0 ∧ tbl0 !! b = Some y ∧ i_ref y = 0).

(** The state while a path is resolved: there are references to [ips], and the
    process has the lock of [l]. *)
Record walks (ips : list nat) (l : option nat) (k : kernel) : Prop := {
  ws_op : op o k V ∅ r;
  ws_fsq : fsq k0 k;
  ws_locks : ∀ i, sl_locked (sleeplock_of (fs k) (SL_inode i)) = if decide (l = Some i) then 1 else 0;
  ws_pid : ∀ i, l = Some i → sl_pid (sleeplock_of (fs k) (SL_inode i)) = pid;
  ws_walk : walking s V tbl0 ips (itable (fs k));
}.

(** Entry [ip] of the table is for inode [n]. *)
Definition entry_for (ip : nat) (n : Z) (k : kernel) : Prop :=
  ∃ x, itable (fs k) !! ip = Some x ∧ i_inum x = n ∧ 0 < i_ref x.
(** ... and has been read from the disk. *)
Definition entry_read (ip : nat) (n : Z) (k : kernel) : Prop :=
  ∃ x, itable (fs k) !! ip = Some x ∧ i_inum x = n ∧ 0 < i_ref x ∧ i_dev x = ROOTDEV ∧ di_inode x = dinode_of s V n.

Lemma ws_running ips l k : walks ips l k → running me k.
Proof. intros Hw. by destruct (op_running _ _ _ _ _ _ _ (ws_op _ _ _ Hw)). Qed.

Lemma walks_after ips ips' l k k' f :
  walks ips l k → fs_after (upd_itable f) k k' → walking s V tbl0 ips' (f (itable (fs k))) → walks ips' l k'.
Proof.
  intros Hw [Hq Hf] Hk. pose proof (ws_running _ _ _ Hw). destruct Hw as [W1 W2 W3 W4 W5]. split.
  - eapply op_frame; [exact W1|by eapply kquiet_running|by apply kquiet_mypid|by rewrite Hf..].
  - etrans; [exact W2|]. destruct Hq. split; try done; by rewrite Hf.
  - intros i. rewrite Hf. apply W3.
  - intros i. rewrite Hf. apply W4.
  - by rewrite Hf.
Qed.

Lemma walks_iput ip ips n k :
  walks (ip :: ips) None k → L n → entry_for ip n k → wp (iput ip) k (λ _ k', walks ips None k' ∧
    ∀ j m, j ∈ ips → entry_for j m k → entry_for j m k').
Proof.
  intros Hw HL (x & Hx & Hn & Hr). pose proof (wk_fresh _ _ _ _ _ (ws_walk _ _ _ Hw) _ _ Hx Hr) as [Hd Hv].
  eapply wp_mono; [apply (iput_keep_spec me k (ws_running _ _ _ Hw) ip x Hx)|].
  - right. destruct Hv as [Hv|Hv]; [by left|right]. destruct (node_same s V x Hv) as (_ & -> & _).
    rewrite Hn. by apply (tr_nlink _ _ _ Htree).
  - intros u k' Ha. assert (walks ips None k') as Hw' by (eapply walks_after; [done|exact Ha|]; eapply walking_put; [apply Hw|done]).
    split; [done|]. intros j m Hj (y & Hy & Hm & _). destruct Ha as [_ Ef]. unfold entry_for.
    assert (∃ y', itable (fs k') !! j = Some y' ∧ i_inum y' = m) as (y' & Hy' & Hm').
    { rewrite Ef. simpl. destruct (decide (ip = j)) as [->|Hne];
        [rewrite list_lookup_alter_eq, Hy; by eexists|rewrite list_lookup_alter_ne by done; by exists y]. }
    exists y'. split_and!; [done|done|]. destruct (wk_ref _ _ _ _ _ (ws_walk _ _ _ Hw') _ _ Hy') as (x0 & _ & H0 & H1 & _).
    pose proof (refs_of_in j ips Hj). lia.
Qed.

Lemma walks_ilock ip ips n k :
  walks ips None k → L n → entry_for ip n k → wp (ilock (Some ip)) k (λ _ k', walks ips (Some ip) k' ∧ entry_read ip n k').
Proof.
  intros Hw HL (x & Hx & Hn & Hr). pose proof Hw as [W1 W2 W3 W4 W5].
  pose proof (wk_fresh _ _ _ _ _ W5 _ _ Hx Hr) as Hfr. destruct (fresh_locked _ _ _ Hfr) as [[Hd _] Hdi].
  assert (sb (fs k) = s) as Es by apply W2.
  assert (i_inum (locked_inode s V x) = n ∧ i_ref (locked_inode s V x) = i_ref x) as [E1 E2]
    by (unfold locked_inode; by destruct (_ =? 0)).
  eapply wp_mono; [eapply (ilock_spec me pid o k V ∅ r ip x W1 Hx)|]; rewrite ?Es.
  - apply Hfr.
  - lia.
  - by rewrite W3, decide_False.
  - done.
  - rewrite map_size_empty. lia.
  - left. change (dn_type (di_inode (locked_inode s V x)) ≠ 0). rewrite Hdi, Hn. by apply (tr_type _ _ _ Htree).
  - intros _ k' [[I1 I2 I3 I4] Hop]. split.
    + split; [done|by etrans| | |].
      * intros i. rewrite I4. destruct (decide (ip = i)) as [->|Hne]; [by rewrite decide_True|].
        rewrite W3, !decide_False; congruence.
      * intros i [= <-]. by rewrite I4, decide_True.
      * rewrite I3. by apply walking_lock.
    + exists (locked_inode s V x). rewrite I3, list_lookup_insert_eq by (by eapply lookup_lt_Some).
      split_and!; try done; [lia|]. by rewrite Hdi, Hn.
Qed.

Lemma walks_iunlock ip ips n k :
  walks ips (Some ip) k → entry_for ip n k →
  wp (iunlock (Some ip)) k (λ _ k', walks ips None k' ∧ itable (fs k') = itable (fs k)).
Proof.
  intros Hw (x & Hx & Hn & Hr). pose proof Hw as [W1 W2 W3 W4 W5].
  eapply wp_mono; [eapply (iunlock_spec me pid o k V ∅ r ip x W1 Hx); [lia| |by apply W4]|].
  - by rewrite W3, decide_True.
  - intros _ k' (H1 & H2 & H3 & H4 & H5). split; [|done]. split; [done|by etrans| |done|by rewrite H3].
    intros i. rewrite H4. destruct (decide (ip = i)) as [->|Hne]; [done|].
    rewrite W3, !decide_False; congruence.
Qed.

Lemma walks_dirlookup ip n name fnd k :
  walks [ip] (Some ip) k → L n → i_type (node s V n) = T_DIR → entry_read ip n k →
  dir_find V (node s V n) name = fnd →
  wp (dirlookup ip name) k (λ v k', entry_for ip n k' ∧
    match fnd with
    | None => v = None ∧ walks [ip] (Some ip) k'
    | Some (_, e) => ∃ i off, v = Some (i, off) ∧ walks [i; ip] (Some ip) k' ∧ L e.1 ∧ entry_for i e.1 k'
    end).
Proof.
  intros Hw HL Hty (x & Hx & Hn & Hr & Hd & Hdi) Ef. pose proof Hw as [W1 W2 W3 W4 W5]. pose proof W5 as [K1 K2 K3].
  rewrite <-Hn in Hdi. destruct (node_same s V x Hdi) as (E1 & E2 & E3 & E4). rewrite Hn in *.
  destruct Hfree as (a & b & y & z & Hab & Ha & Hra & Hb & Hrb).
  eapply wp_mono; [apply (dirlookup_spec me pid o k V r ip x name W1 Hx)|].
  - apply E4; [done|]. by apply (tr_dir _ _ _ Htree).
  - apply K3.
  - intros j e _. eapply walking_room; try done. by rewrite (it_length _ K3).
  - intros v k' (H1 & H2 & H3 & H4). unfold found in H4. rewrite E3, Ef in H4.
    assert (∀ ips, walking s V tbl0 ips (itable (fs k')) → walks ips (Some ip) k') as Hws.
    { intros ips Hips. split; [done|by etrans|intros i; rewrite H3; apply W3|intros i; rewrite H3; apply W4|done]. }
    destruct fnd as [[j e]|].
    + destruct H4 as (i & Hg & ->). destruct (walking_get _ _ _ _ _ _ _ _ W5 Hg) as [G1 G2].
      split; [|eexists i, _; split_and!; [done|by apply Hws|by eapply (tr_entry _ _ _ Htree)|done]].
      destruct (iget_in_keep _ _ _ _ _ _ _ Hg Hx Hr) as (x' & ? & ? & ?). exists x'. by rewrite <-Hn.
    + destruct H4 as [-> H4]. split; [exists x; by rewrite H4|]. split; [done|]. apply Hws. by rewrite H4.
Qed.

(** Where a path starts: at the root, or at the current directory. *)
Definition path_start (path : list Z) (n : Z) : Prop :=
  if default 0 (head path) =? SLASH then n = ROOTINO
  else ∃ c, p_cwd (proc_of k0 me) = Some c ∧ entry_for c n k0.

Lemma walks_start k path n :
  walks [] None k → procs k = procs k0 → itable (fs k) = tbl0 → L n → path_start path n →
  wp (if default 0 (head path) =? SLASH then iget ROOTDEV ROOTINO
      else p ← curproc; cwd ← get_proc p p_cwd; match cwd with Some c => idup c | None => null_deref end) k
    (λ ip k', walks [ip] None k' ∧ entry_for ip n k').
Proof.
  intros Hw Hp Ht HL Hst. unfold path_start in Hst. destruct (_ =? SLASH).
  - subst n. destruct Hfree as (a & b & y & z & Hab & Ha & Hra & Hb & Hrb).
    destruct (walking_room s V tbl0 [] (itable (fs k)) ROOTINO a b y z) as [[i tbl'] Hg]; try done; [apply Hw|by rewrite Ht|simpl; lia|].
    eapply wp_mono; [eapply (iget_spec me k (ws_running _ _ _ Hw) ROOTDEV ROOTINO i tbl'); [by rewrite Ht|done]|].
    intros ? k' (-> & Ha'). destruct (walking_get _ _ _ _ _ _ _ _ (ws_walk _ _ _ Hw) Hg) as [G1 G2].
    split; [by eapply walks_after|]. destruct Ha' as [_ Ef]. unfold entry_for. by rewrite Ef.
  - destruct Hst as (c & Hc & x & Hx & Hn & Hr). pose proof (ws_running _ _ _ Hw) as [[C1 C2 C3 C4] Hl].
    apply wp_bind, (wp_curproc me); [done|done|]. intros h Hh. wp_pure.
    assert (p_cwd (proc_of (upd_hs (λ _, h) k) me) = Some c) as -> by (unfold proc_of in *; simpl; by rewrite Hp).
    assert (walks [] None (upd_hs (λ _, h) k)) as Hw1.
    { eapply (walks_after [] [] None k _ id); [done| |apply Hw]. split; [by split|]. simpl. by destruct (fs k). }
    eapply wp_mono; [apply (idup_spec me _ (ws_running _ _ _ Hw1))|]. intros ? k' [-> Ha].
    assert (itable (fs (upd_hs (λ _, h) k)) !! c = Some x) as Hx1 by (simpl; rewrite Ht; exact Hx).
    split; [eapply walks_after; [done|done|]; by eapply walking_dup; [apply Hw1| |]|].
    destruct Ha as [_ Ef]. unfold entry_for. rewrite Ef. simpl. rewrite list_lookup_alter_eq. simpl in Hx1. rewrite Hx1.
    eexists. split_and!; [done|done|simpl; lia].
Qed.

(** The outcome of resolving [cs] from inode [n]. *)
Definition resolved (parent : bool) (n : Z) (cs : list (list Z)) (v : option nat * list Z) (k' : kernel) : Prop :=
  match resolve s V parent n cs with
  | None => v.1 = None ∧ walks [] None k'
  | Some (m, last) => ∃ ip, v.1 = Some ip ∧ walks [ip] None k' ∧ entry_for ip m k' ∧
      (parent = true → cstr (Z.to_nat DIRSIZ) v.2 = last)
  end.

Lemma walks_iunlockput ip ips n k :
  walks (ip :: ips) (Some ip) k → L n → entry_for ip n k →
  wp (iunlockput ip) k (λ _ k', walks ips None k' ∧ ∀ j m, j ∈ ips → entry_for j m k → entry_for j m k').
Proof.
  intros Hw HL He. unfold iunlockput. apply wp_bind. eapply wp_mono; [by eapply walks_iunlock|].
  intros _ k1 [Hw1 Et]. eapply wp_mono; [apply (walks_iput ip ips n k1 Hw1 HL); unfold entry_for; by rewrite Et|].
  intros _ k2 [Hw2 He2]. split; [done|]. intros j m Hj Hm. apply He2; [done|]. unfold entry_for. by rewrite Et.
Qed.

Lemma namex_spec path np name n :
  walks [] None k0 → L n → path_start path n → length name = Z.to_nat DIRSIZ → Forall (λ c, c ≠ 0) path →
  Z.of_nat (length path) < 2 ^ 31 →
  wp (namex path np name) k0 (resolved (nz np) n (components path)).
Proof.
  intros Hw HL Hst Hname Hnz Hlp. unfold namex. apply wp_bind. eapply wp_mono; [by apply (walks_start k0 path n)|].
  intros ip k1 [Hw1 He1].
  apply (wp_loop _ (λ '(p, nm, i) k, ∃ m, walks [i] None k ∧ L m ∧ entry_for i m k ∧
      length nm = Z.to_nat DIRSIZ ∧ Forall (λ c, c ≠ 0) p ∧
      resolve s V (nz np) n (components path) = resolve s V (nz np) m (components p))
    (λ '(p, _, _) _, Z.of_nat (length p))); [|by exists n|lia].
  clear ip k1 Hw1 He1 Hw Hst HL Hname Hnz Hlp. intros [[p nm] i] k (m & Hw & HL & He & Hnm & Hnz & Hres).
  unfold resolved. rewrite Hres. pose proof (skipelem_spec p nm Hnm Hnz) as Hsk.
  destruct (components p) as [|c cs] eqn:Ec.
  { rewrite Hsk. simpl. destruct (nz np) eqn:Enp; wp_pure; [|by exists i].
    eapply wp_mono; [by eapply walks_iput|]. intros _ k' [? _]. by wp_pure. }
  destruct Hsk as (rest & nm' & -> & Ers & Enil & Hlt & Hnz' & Hnm' & Ecs & Hcz).
  apply wp_bind. eapply wp_mono; [by eapply walks_ilock|]. intros _ k1 [Hw1 He1].
  pose proof He1 as (x & Hx & Hxn & Hxr & _ & Hdi). rewrite <-Hxn in Hdi.
  destruct (node_same s V x Hdi) as (Ety & _). rewrite Hxn in Ety. wp_pure. rewrite (inode_of_lookup _ _ _ Hx), Ety.
  revert Hres. cbn [resolve]. assert (entry_for i m k1) as He1' by (by exists x).
  destruct (Z.eqb_spec (i_type (node s V m)) T_DIR) as [Hdir|Hdir]; cycle 1.
  { intros _. simpl negb. cbv iota. apply wp_bind. eapply wp_mono; [by eapply walks_iunlockput|]. intros _ k2 [? _]. by wp_pure. }
  simpl negb. cbv iota.
  assert (bool_decide (rest = []) = bool_decide (cs = [])) as -> by (by apply bool_decide_ext).
  destruct (nz np && bool_decide (cs = [])) eqn:Enp.
  { intros _. apply wp_bind. eapply wp_mono; [by eapply walks_iunlock|]. intros _ k2 [Hw2 Et2]. wp_pure. exists i.
    split_and!; [done|done| |done]. unfold entry_for. by rewrite Et2. }
  assert (dir_find V (node s V m) nm' = dir_find V (node s V m) (take (Z.to_nat DIRSIZ) c)) as Ed.
  { apply dir_find_cstr. rewrite Ecs, cstr_take, take_take, Nat.min_id by (by apply Forall_take). done. }
  destruct (dir_find V (node s V m) (take (Z.to_nat DIRSIZ) c)) as [[j [m' nm2]]|].
  all: intros Hres; apply wp_bind; eapply wp_mono; [by apply (walks_dirlookup i m nm' _ k1 Hw1 HL Hdir He1 Ed)|].
  all: intros v k2 [He2 Hv].
  - destruct Hv as (i2 & off & -> & Hw2 & HL2 & Hi2). wp_pure.
    assert (walks [i; i2] (Some i) k2) as Hw2' by (destruct Hw2; split; try done; by apply walking_swap).
    eapply wp_mono; [by apply (walks_iunlockput i [i2] m k2)|]. intros _ k3 [Hw3 He3]. wp_pure.
    split; [|lia]. exists m'. split_and!; try done; [apply He3; [by left|done]|]. by rewrite Ers.
  - destruct Hv as [-> Hw2]. wp_pure. eapply wp_mono; [by eapply walks_iunlockput|]. intros _ k3 [? _]. by wp_pure.
Qed.
End namex.
