(* ===== verification/Mkfs.v ===== *)
(** * The file system image builder (mkfs/mkfs.c)

    A host program: it writes the image of a file system with the given files in
    its root directory.  The image is a map from sectors to blocks; what the host
    finds in the files is an argument.  The host stores integers with the low byte
    first, as RISC-V does. *)

From stdpp Require Import gmap list strings.
From Stdlib Require Import ZArith Lia.
From S2P Require Import Prelude Mem Params FsData Machine Fs.
#[local] Open Scope Z_scope.

(** ** The globals *)

Definition NINODES := 200.
Definition nbitmap := FSSIZE / (BSIZE * 8) + 1.
Definition ninodeblocks := NINODES / IPB + 1.
Definition nlog := LOGSIZE.

Record mkfs : Type := mkMkfs {
  mk_img : gmap Z block;
  mk_sb : superblock;
  mk_freeinode : Z;
  mk_freeblock : Z;
}.

Definition upd_mk_img (f : gmap Z block → gmap Z block) (s : mkfs) : mkfs :=
  mkMkfs (f (mk_img s)) (mk_sb s) (mk_freeinode s) (mk_freeblock s).
Definition upd_mk_sb (f : superblock → superblock) (s : mkfs) : mkfs :=
  mkMkfs (mk_img s) (f (mk_sb s)) (mk_freeinode s) (mk_freeblock s).
Definition upd_mk_freeinode (f : Z → Z) (s : mkfs) : mkfs :=
  mkMkfs (mk_img s) (mk_sb s) (f (mk_freeinode s)) (mk_freeblock s).
Definition upd_mk_freeblock (f : Z → Z) (s : mkfs) : mkfs :=
  mkMkfs (mk_img s) (mk_sb s) (mk_freeinode s) (f (mk_freeblock s)).

(** A file of the host: what the successive calls of read() return before the
    one that finds the end. *)
Definition hostfile : Type := list (list Z).
(** The host: whether the image can be created, and its files. *)
Record host : Type := mkHost {
  h_image : bool;
  h_open : list Z → option hostfile;
}.

Abbreviation MK := (M mkfs).

(** die() and a failed assert() end the program. *)
Definition die {A} (s : string) : MK A := panic s.

(** convert to intel byte order *)
Definition xshort (x : Z) : Z := le_val (le_bytes 2 x).
Definition xint (x : Z) : Z := le_val (le_bytes 4 x).

(** ** Sectors *)

(** The sector at the offset that lseek() goes to. *)
Definition sector (sec : Z) : Z := u32 (sec * BSIZE) / BSIZE.
Definition wsect (sec : Z) (buf : block) : MK unit := modify (upd_mk_img <[sector sec := buf]>).
Definition rsect (sec : Z) : MK block :=
  b ← gets (λ s, mk_img s !! sector sec);
  match b with Some d => mret d | None => die "read" end.

(** ** Inodes *)

(** struct dinode, as 64 bytes. *)
Definition din_size (din : list Z) : Z := xint (bld 4 8 din).
Definition din_addr (i : Z) (din : list Z) : Z := xint (bld 4 (12 + 4 * i) din).
Definition set_din_size (v : Z) : list Z → list Z := bst 4 8 (xint v).
Definition set_din_addr (i v : Z) : list Z → list Z := bst 4 (12 + 4 * i) (xint v).

Definition winode (inum : Z) (ip : list Z) : MK unit :=
  sb ← gets mk_sb;
  let bn := IBLOCK inum sb in
  buf ← rsect bn;
  wsect bn (splice (Z.to_nat (DINODE_SIZE * (inum mod IPB))) ip buf).
Definition rinode (inum : Z) : MK (list Z) :=
  sb ← gets mk_sb;
  let bn := IBLOCK inum sb in
  buf ← rsect bn;
  mret (take (Z.to_nat DINODE_SIZE) (drop (Z.to_nat (DINODE_SIZE * (inum mod IPB))) buf)).

Definition ialloc (type : Z) : MK Z :=
  inum ← gets mk_freeinode;
  modify (upd_mk_freeinode (λ i, u32 (i + 1)));;
  let din := replicate (Z.to_nat DINODE_SIZE) 0 in
  let din := bst 2 0 (xshort type) din in
  let din := bst 2 6 (xshort 1) din in
  let din := set_din_size 0 din in
  winode inum din;;
  mret inum.

(** freeblock++ *)
Definition next_block : MK Z :=
  b ← gets mk_freeblock;
  modify (upd_mk_freeblock (λ b, u32 (b + 1)));;
  mret b.

(** ** The bitmap *)

Definition set_bit (buf : block) (i : Z) : block :=
  bst 1 (i / 8) (Z.lor (bld 1 (i / 8) buf) (Z.shiftl 1 (i mod 8))) buf.
Definition balloc (used : Z) : MK unit :=
  if negb (used <? BSIZE * 8) then die "used < BSIZE*8" else
  sb ← gets mk_sb;
  wsect (sb_bmapstart sb) (foldl set_bit zero_block (seqZ 0 used)).

(** ** Appending to a file *)

(** The block of the file that [off] lies in, allocated if it is not there: the
    two branches of the loop of iappend(). *)
Definition iappend_block (fbn : Z) (din : list Z) : MK (Z * list Z) :=
  if fbn <? NDIRECT then
    din ← (if din_addr fbn din =? 0 then b ← next_block; mret (set_din_addr fbn b din) else mret din);
    mret (din_addr fbn din, din)
  else
    din ← (if din_addr NDIRECT din =? 0 then b ← next_block; mret (set_din_addr NDIRECT b din) else mret din);
    indirect ← rsect (din_addr NDIRECT din);
    indirect ← (if bld 4 (4 * (fbn - NDIRECT)) indirect =? 0 then
      b ← next_block;
      let indirect := bst 4 (4 * (fbn - NDIRECT)) (xint b) indirect in
      wsect (din_addr NDIRECT din) indirect;;
      mret indirect
    else mret indirect);
    mret (xint (bld 4 (4 * (fbn - NDIRECT)) indirect), din).

Definition iappend (inum : Z) (xp : list Z) : MK unit :=
  din ← rinode inum;
  '(din, off) ← loop (λ '(din, off, p),
    if 0 <? Z.of_nat (length p) then
      let fbn := off / BSIZE in
      if negb (fbn <? MAXFILE) then die "fbn < MAXFILE" else
      '(x, din) ← iappend_block fbn din;
      let n1 := Z.min (Z.of_nat (length p)) (u32 ((fbn + 1) * BSIZE - off)) in
      buf ← rsect x;
      wsect x (splice (Z.to_nat (off - fbn * BSIZE)) (take (Z.to_nat n1) p) buf);;
      continue (din, u32 (off + n1), drop (Z.to_nat n1) p)
    else break (din, off)) (din, din_size din, xp);
  winode inum (set_din_size off din).

(** ** main() *)

(** bzero(&de, sizeof(de)); de.inum = xshort(inum); the name is copied into
    de.name. *)
Definition dirent (inum : Z) (name : list Z) : list Z :=
  splice 2 name (bst 2 0 (xshort inum) (replicate (Z.to_nat DIRENT_SIZE) 0)).

(** "user/" *)
Definition user_dir : list Z := [117; 115; 101; 114; 47].
(** Without "user/" in front. *)
Definition without_dir (arg : list Z) : list Z :=
  if strncmp_l 5 arg user_dir =? 0 then drop 5 arg else arg.
(** Without the leading _. *)
Definition without_bar (name : list Z) : list Z :=
  match name with 95 :: name' => name' | _ => name end.

Section main.
Context (hst : host).

Definition add_file (rootino : Z) (arg : list Z) : MK unit :=
  let shortname := without_dir arg in
  if bool_decide (47 ∈ shortname) then die "index(shortname, '/') == 0" else
  match h_open hst arg with
  | None => die "open"
  | Some chunks =>
      let shortname := without_bar shortname in
      inum ← ialloc T_FILE;
      iappend rootino (dirent inum (strncpy_l (Z.to_nat DIRSIZ) shortname));;
      loop (λ chunks,
        match chunks with
        | buf :: chunks' => iappend inum buf;; continue chunks'
        | [] => break tt
        end) chunks
  end.

Definition sb_bytes (s : superblock) : list Z :=
  le_bytes 4 (sb_magic s) ++ le_bytes 4 (sb_size s) ++ le_bytes 4 (sb_nblocks s) ++ le_bytes 4 (sb_ninodes s) ++
  le_bytes 4 (sb_nlog s) ++ le_bytes 4 (sb_logstart s) ++ le_bytes 4 (sb_inodestart s) ++ le_bytes 4 (sb_bmapstart s).

(** The exit status. *)
Definition main (argv : list (list Z)) : MK Z :=
  match argv with
  | _ :: _ :: files =>
      if negb (h_image hst) then die "open image" else
      let nmeta := 2 + nlog + ninodeblocks + nbitmap in
      let nblocks := FSSIZE - nmeta in
      modify (upd_mk_sb (λ _, mkSb FSMAGIC (xint FSSIZE) (xint nblocks) (xint NINODES) (xint nlog) (xint 2)
        (xint (2 + nlog)) (xint (2 + nlog + ninodeblocks))));;
      modify (upd_mk_freeblock (λ _, nmeta));;
      loop (λ i,
        if i <? FSSIZE then wsect i zero_block;; continue (i + 1) else break tt) 0;;
      sb ← gets mk_sb;
      wsect 1 (splice 0 (sb_bytes sb) zero_block);;
      rootino ← ialloc T_DIR;
      if negb (rootino =? ROOTINO) then die "rootino == ROOTINO" else
      iappend rootino (dirent rootino [46]);;
      iappend rootino (dirent rootino [46; 46]);;
      loop (λ files,
        match files with
        | f :: files' => add_file rootino f;; continue files'
        | [] => break tt
        end) files;;
      din ← rinode rootino;
      let off := din_size din in
      let off := u32 ((off / BSIZE + 1) * BSIZE) in
      winode rootino (set_din_size off din);;
      fb ← gets mk_freeblock;
      balloc fb;;
      mret 0
  | _ => mret 1
  end.
End main.
