(* ===== verification/MkfsSpec.v ===== *)
(** * Building a file

    The image during mkfs as the disk that the file system code of the kernel
    would see if the bitmap were written at once; iappend() extends one file and
    leaves the others alone. *)

From stdpp Require Import gmap list strings.
From Stdlib Require Import ZArith Lia.
From S2P Require Import Prelude Mem Params FsData Machine Bio BioSpec LogDisk FsTxn Fs FsAlloc FsInode FsFile FsBmap FsWrite FsDir FsPath Mkfs.
#[local] Open Scope Z_scope.

(** ** The layout *)

(** The superblock that main() writes. *)
Definition the_sb : superblock := mkSb FSMAGIC 1000 954 200 30 2 32 45.
(** The first data block. *)
Definition nmeta := 46.
(** Blocks outside of the log. *)
Definition hm : Z → Prop := home 2 30.

Lemma the_iblock n : 0 ≤ n < 200 → IBLOCK n the_sb = n / 16 + 32 ∧ 0 ≤ n / 16 < 13.
Proof.
  intros Hn. assert (0 ≤ n / 16 < 13) as Hd by (split; [apply Z.div_pos; lia|apply Z.div_lt_upper_bound; lia]).
  split; [|done]. unfold IBLOCK. change IPB with 16. simpl. apply u32_small. lia.
Qed.

Lemma the_bblock b : blkno the_sb b → BBLOCK b the_sb = 45.
Proof.
  unfold blkno, BBLOCK. simpl. intros Hb. rewrite Z.div_small; [done|]. unfold BPB, BSIZE. lia.
Qed.

Lemma the_not_bitmap a : a ≠ 45 → not_bitmap the_sb a.
Proof. intros Ha b Hb. rewrite the_bblock by done. congruence. Qed.

Lemma the_not_iblock a : nmeta ≤ a → not_iblock the_sb a.
Proof. intros Ha i Hi. unfold nmeta in Ha. simpl in Hi. destruct (the_iblock i Hi) as [-> ?]. lia. Qed.

Lemma sector_small b : 0 ≤ b < 1000 → sector b = b.
Proof. intros Hb. unfold sector, BSIZE. rewrite u32_small by lia. apply Z.div_mul. lia. Qed.

(** ** The bitmap *)

Definition bitmap (n : Z) : block := foldl set_bit zero_block (seqZ 0 n).

Lemma set_bit_eq i d : 0 ≤ i < BPB → set_bit d i = bm_set true i d.
Proof. intros Hi. unfold set_bit, bm_set, bm_byte. by rewrite (Z.mod_small i BPB). Qed.

Lemma bitmap_S (n : nat) : bitmap (Z.of_nat (S n)) = set_bit (bitmap (Z.of_nat n)) (Z.of_nat n).
Proof. unfold bitmap. rewrite seqZ_S, foldl_app. done. Qed.

Lemma bitmap_spec (n : nat) : Z.of_nat n ≤ BPB →
  length (bitmap (Z.of_nat n)) = Z.to_nat BSIZE ∧
  ∀ b, 0 ≤ b < BPB → bit_of (bitmap (Z.of_nat n)) b = (b <? Z.of_nat n).
Proof.
  induction n as [|n IH]; intros Hn.
  - split; [apply length_replicate|]. intros b Hb. unfold bit_of, bitmap. simpl. rewrite bld_zero_block.
    rewrite Z.testbit_0_l. symmetry. apply Z.ltb_ge. lia.
  - destruct IH as [L IH]; [lia|]. rewrite bitmap_S, set_bit_eq by lia. split; [by apply length_bm_set|].
    intros b Hb. rewrite bit_of_set; [|done|rewrite !Z.div_small by lia; done]. rewrite IH by done. case_decide.
    + subst. symmetry. apply Z.ltb_lt. lia.
    + apply eq_true_iff_eq. rewrite !Z.ltb_lt. lia.
Qed.

(** ** The image as a disk *)

(** [V]: the disk, with the bitmap that main() writes at the end. *)
Record shows (V : view) (st : mkfs) : Prop := {
  sh_bitmap : V 45 = bitmap (mk_freeblock st);
  sh_img : ∀ b, b ≠ 45 → V b = dget (mk_img st) b;
  sh_sects : ∀ b, 0 ≤ b < 1000 → ∃ d, mk_img st !! b = Some d ∧ length d = Z.to_nat BSIZE;
  sh_free : nmeta ≤ mk_freeblock st ≤ 1000;
  sh_zero : ∀ b, mk_freeblock st ≤ b < 1000 → V b = zero_block;
}.

Lemma shows_used V st b : shows V st → blkno the_sb b → used the_sb V b = (b <? mk_freeblock st).
Proof.
  intros [H1 _ _ H4 _] Hb. unfold used, nmeta in *. rewrite the_bblock by done. rewrite H1.
  unfold blkno in Hb. simpl in Hb. assert (BPB = 8192) as E by done.
  destruct (bitmap_spec (Z.to_nat (mk_freeblock st))) as [_ H]; [lia|]. rewrite Z2Nat.id in H by lia. apply H. lia.
Qed.

Lemma shows_block V st b : shows V st → 0 ≤ b < 1000 → b ≠ 45 → mk_img st !! b = Some (V b) ∧ length (V b) = Z.to_nat BSIZE.
Proof.
  intros Hs Hb Hne. destruct (sh_sects _ _ Hs b Hb) as (d & E & L). rewrite (sh_img _ _ Hs b Hne). unfold dget. by rewrite E.
Qed.

Lemma wp_rsect V b st Q : shows V st → 0 ≤ b < 1000 → b ≠ 45 → Q (V b) st → wp (rsect b) st Q.
Proof.
  intros Hs Hb Hne HQ. unfold rsect. rewrite (sector_small b Hb). destruct (shows_block V st b Hs Hb Hne) as [E _].
  apply wp_bind, wp_gets. rewrite E. exact HQ.
Qed.

Definition put_sect (b : Z) (d : block) (st : mkfs) : mkfs := upd_mk_img <[b := d]> st.

Lemma wp_wsect b d st Q : 0 ≤ b < 1000 → Q tt (put_sect b d st) → wp (wsect b d) st Q.
Proof. intros Hb HQ. unfold wsect. rewrite (sector_small b Hb). apply wp_modify. exact HQ. Qed.

(** A block in use is written. *)
Lemma shows_put V b d st :
  shows V st → length d = Z.to_nat BSIZE → b < mk_freeblock st → b ≠ 45 → shows (vset V b d) (put_sect b d st).
Proof.
  intros [H1 H2 H3 H4 H5] Hd Hb Hne. split.
  - by rewrite vset_ne.
  - intros c Hc. unfold vset, put_sect, dget. simpl. rewrite lookup_insert. case_decide; [done|]. by apply H2.
  - intros c Hc. unfold put_sect. simpl. rewrite lookup_insert. case_decide; [by exists d|]. by apply H3.
  - done.
  - intros c Hc. simpl in Hc. rewrite vset_ne by lia. by apply H5.
Qed.

(** A block is allocated. *)
Definition take_block (st : mkfs) : mkfs := upd_mk_freeblock (λ b, b + 1) st.

Lemma next_block_spec V st Q :
  shows V st → mk_freeblock st < 1000 →
  (∀ V', alloc_step hm the_sb V (mk_freeblock st) V' → shows V' (take_block st) → Q (mk_freeblock st) (take_block st)) →
  wp next_block st Q.
Proof.
  intros Hs Hlt HQ. pose proof Hs as [H1 H2 H3 H4 H5]. unfold nmeta in *. unfold next_block.
  apply wp_bind, wp_gets, wp_bind, wp_modify, wp_ret. set (a := mk_freeblock st) in *.
  assert (upd_mk_freeblock (λ b, u32 (b + 1)) st = take_block st) as ->.
  { unfold take_block, upd_mk_freeblock. fold a. by rewrite u32_small by lia. }
  assert (shows (vset V 45 (bitmap (a + 1))) (take_block st)) as Hs'.
  { split; [by rewrite vset_eq|intros b Hb; rewrite vset_ne by congruence; by apply H2|done|simpl; fold a; unfold nmeta; lia|].
    simpl. fold a. intros b Hb. rewrite vset_ne by lia. apply H5. fold a. lia. }
  apply (HQ (vset V 45 (bitmap (a + 1)))); [|exact Hs']. split.
  - unfold blkno. simpl. lia.
  - lia.
  - rewrite (shows_used V st) by (done || unfold blkno; simpl; lia). apply Z.ltb_irrefl.
  - unfold hm, home. lia.
  - apply the_not_bitmap. lia.
  - apply the_not_iblock. unfold nmeta. lia.
  - rewrite vset_ne by lia. apply H5. fold a. lia.
  - intros c Hc. rewrite (shows_used _ _ _ Hs' Hc), (shows_used _ _ _ Hs Hc). simpl. fold a. case_decide.
    + apply Z.ltb_lt. lia.
    + apply eq_true_iff_eq. rewrite !Z.ltb_lt. lia.
  - intros n Hn Hna. rewrite vset_ne; [done|]. intros <-. apply (Hn 0); [unfold blkno; simpl; lia|]. by rewrite the_bblock.
Qed.

(** ** struct dinode *)

(** The bytes [din] are the inode [x]. *)
Record din_is (din : list Z) (x : inode) : Prop := {
  din_len : length din = 64%nat;
  din_decode : di_decode 0 din = di_inode x;
}.

Lemma xint_small v : 0 ≤ v < 2 ^ 32 → xint v = v.
Proof. intros Hv. unfold xint. rewrite le_val_le_bytes. by apply Z.mod_small. Qed.

Lemma bld4_range off d : 0 ≤ bld 4 off d < 2 ^ 32.
Proof. apply (bld_range 4). Qed.

Lemma din_is_addr din x j : din_is din x → 0 ≤ j ≤ NDIRECT → din_addr j din = iaddr x j.
Proof.
  intros [_ Hd] Hj. unfold din_addr. rewrite xint_small by apply bld4_range. unfold iaddr.
  assert (i_addrs x = di_addrs 0 din) as -> by (change (i_addrs x) with (dn_addrs (di_inode x)); by rewrite <-Hd).
  unfold di_addrs, NDIRECT in *. rewrite list_lookup_fmap, lookup_seqZ_lt by lia. simpl. unfold di_off. f_equal. lia.
Qed.

Lemma din_is_size din x : din_is din x → din_size din = i_size x.
Proof.
  intros [_ Hd]. unfold din_size. rewrite xint_small by apply bld4_range.
  change (i_size x) with (dn_size (di_inode x)). by rewrite <-Hd.
Qed.

(** Storing a field at [off] leaves what is read elsewhere. *)
Lemma din_set_out n off din v m o :
  length din = 64%nat → 0 ≤ off → off + Z.of_nat m ≤ 64 → 0 ≤ o → o + Z.of_nat n ≤ off ∨ off + Z.of_nat m ≤ o →
  bld n o (bst m off v din) = bld n o din.
Proof. intros Hl H1 H2 H3 H4. apply bld_bst_out; lia. Qed.

Lemma seqZ_map_lookup {A} (f : Z → A) m (i : nat) : Z.of_nat i < m → (f <$> seqZ 0 m) !! i = Some (f (Z.of_nat i)).
Proof. intros Hi. by rewrite list_lookup_fmap, lookup_seqZ_lt by lia. Qed.

Lemma din_set_addr din x j v :
  din_is din x → 0 ≤ j ≤ NDIRECT → 0 ≤ v < 2 ^ 32 → din_is (set_din_addr j v din) (set_iaddr j v x).
Proof.
  intros [Hl Hd] Hj Hv. unfold set_din_addr. rewrite (xint_small v Hv). unfold NDIRECT in Hj. split; [rewrite length_bst; lia|].
  unfold di_decode in *. injection Hd as E1 E2 E3 E4 E5 E6. unfold di_type, di_major, di_minor, di_nlink, di_size, di_off in *.
  rewrite !din_set_out by lia. rewrite E1, E2, E3, E4, E5. unfold set_iaddr, upd_i_addrs, di_inode. simpl. f_equal.
  rewrite <-E6. unfold di_addrs, di_off, NDIRECT. apply list_eq. intros i.
  destruct (decide (i < 13)%nat) as [Hi|Hi]; cycle 1.
  { rewrite !lookup_ge_None_2; [done|rewrite length_insert, length_fmap, length_seqZ; lia|rewrite length_fmap, length_seqZ; lia]. }
  rewrite seqZ_map_lookup by lia. destruct (decide (Z.to_nat j = i)) as [<-|Hne].
  - rewrite list_lookup_insert_eq by (rewrite length_fmap, length_seqZ; lia). f_equal.
    rewrite Z2Nat.id, bld_bst by lia. by apply Z.mod_small.
  - rewrite list_lookup_insert_ne, seqZ_map_lookup by lia. f_equal. apply din_set_out; lia.
Qed.

Definition with_size (v : Z) (x : inode) : inode := upd_i_size (λ _, v) x.

Lemma din_set_size din x v : din_is din x → 0 ≤ v < 2 ^ 32 → din_is (set_din_size v din) (with_size v x).
Proof.
  intros [Hl Hd] Hv. unfold set_din_size. rewrite (xint_small v Hv). split; [rewrite length_bst; lia|].
  unfold di_decode in *. injection Hd as E1 E2 E3 E4 E5 E6. unfold di_type, di_major, di_minor, di_nlink, di_size, di_off in *.
  rewrite !(din_set_out 2) by lia. rewrite E1, E2, E3, E4, bld_bst by lia. change (256 ^ Z.of_nat 4) with (2 ^ 32).
  rewrite Z.mod_small by done. unfold with_size, upd_i_size, di_inode. simpl. f_equal. rewrite <-E6.
  unfold di_addrs, di_off. apply list_fmap_ext. intros i y Hy. apply lookup_seqZ in Hy. apply din_set_out; unfold NDIRECT in *; lia.
Qed.

(** ** The block of an offset *)

Definition mk_frame (st st' : mkfs) : Prop := mk_sb st' = mk_sb st ∧ mk_freeinode st' = mk_freeinode st.

(** How many blocks are allocated for block [bn]. *)
Definition cost (V : view) (x : inode) (bn : Z) : Z :=
  (if fmap_at V x bn =? 0 then 1 else 0) + (if (NDIRECT <=? bn) && (iaddr x NDIRECT =? 0) then 1 else 0).

(** Block [bn] is there, as block [a]; nothing else has changed in the file. *)
Record extended (V : view) (x : inode) (bn a : Z) (V' : view) (x' : inode) : Prop := {
  ex_grown : grown hm the_sb V x bn a V' x';
  ex_kept : kept the_sb (λ n, n ≠ 0 ∧ n = iaddr x NDIRECT) V V';
  ex_none : ∀ b, in_file b → b ≠ bn → fmap_at V x b = 0 → fmap_at V' x' b = 0;
  ex_ind : iaddr x' NDIRECT = 0 ↔ iaddr x NDIRECT = 0 ∧ bn < NDIRECT;
}.

Lemma alloc_kept s V a V' : alloc_step hm s V a V' → kept s (λ _, False) V V'.
Proof.
  intros [A1 A2 A3 A4 A5 A6 A7 A8 A9]. split.
  - intros c Hc Hu. rewrite A8 by done. by case_decide.
  - intros n Hn Hu Hnb _. apply A9; [done|]. congruence.
Qed.

Lemma extended_refl V x bn :
  file_ok hm the_sb V x → in_file bn → fmap_at V x bn ≠ 0 → extended V x bn (fmap_at V x bn) V x.
Proof.
  intros Hf Hb Hne. split; [by apply grown_refl|apply kept_refl|done|]. split; [|by intros []]. intros E. split; [done|].
  apply Z.nle_gt. intros Hd. apply Hne. unfold fmap_at. rewrite E. by destruct (Z.ltb_spec bn NDIRECT); [lia|].
Qed.

Lemma extended_direct V x bn a V' :
  file_ok hm the_sb V x → alloc_step hm the_sb V a V' → 0 ≤ bn < NDIRECT → iaddr x bn = 0 →
  extended V x bn a V' (set_iaddr bn a x).
Proof.
  intros Hf Ha Hb H0. pose proof (fo_len _ _ _ _ Hf) as Hl.
  assert (iaddr (set_iaddr bn a x) NDIRECT = iaddr x NDIRECT) as Ei by (rewrite iaddr_set, decide_False by file_lia; done).
  split; [by apply grow_direct|by eapply kept_mono; [|by eapply alloc_kept]| |].
  - intros b Hin Hne Hz. rewrite <-Hz, <-(fmap_alloc _ _ _ _ _ _ b Ha Hf). unfold fmap_at. rewrite Ei.
    destruct (Z.ltb_spec b NDIRECT); [|done]. rewrite iaddr_set by (unfold in_file in Hin; file_lia). by rewrite decide_False.
  - rewrite Ei. intuition lia.
Qed.

Lemma extended_entry V x bn a V' :
  let ind := iaddr x NDIRECT in
  file_ok hm the_sb V x → alloc_step hm the_sb V a V' → NDIRECT ≤ bn < MAXFILE → ind ≠ 0 → fmap_at V x bn = 0 →
  length (V' ind) = Z.to_nat BSIZE →
  extended V x bn a (vset V' ind (bst 4 (4 * (bn - NDIRECT)) a (V' ind))) x.
Proof.
  intros ind Hf Ha Hb Hi H0 Hl. pose proof (fo_ind _ _ _ _ Hf Hi) as Hd. fold ind in Hd.
  assert (0 ≤ a < 2 ^ 32) as Har by (destruct (as_blkno _ _ _ _ _ Ha); simpl in *; lia).
  split; [by apply grow_entry| | |].
  - apply (kept_trans _ (λ _, False) (λ n, n = ind) _ _ V'); [done|intros n ->; by left|by eapply alloc_kept|]. split.
    + intros c Hc. rewrite used_other; [done|apply Hd|done].
    + intros n _ _ _ Hn. by rewrite vset_ne.
  - intros b Hin Hne Hz. rewrite <-Hz, <-(fmap_alloc _ _ _ _ _ _ b Ha Hf). unfold fmap_at. fold ind.
    unfold in_file in Hin. destruct (Z.ltb_spec b NDIRECT); [done|]. destruct (Z.eqb_spec ind 0); [done|]. rewrite vset_eq.
    apply bld_bst_out; file_lia.
  - fold ind. split; [done|lia].
Qed.

(** First a new indirect block, then the entry. *)
Lemma extended_indirect V x bn ind V1 a V2 :
  let x1 := set_iaddr NDIRECT ind x in
  file_ok hm the_sb V x → alloc_step hm the_sb V ind V1 → NDIRECT ≤ bn < MAXFILE → iaddr x NDIRECT = 0 →
  extended V1 x1 bn a V2 x1 → extended V x bn a V2 x1.
Proof.
  intros x1 Hf Ha Hb H0 [E1 E2 E3 E4]. destruct (grow_indirect _ _ _ _ _ _ Ha Hf H0) as (Hf1 & Hi & Hm & Hb1 & Ho). fold x1 in Hf1, Hi, Hm, Hb1, Ho.
  split.
  - eapply grown_after; [apply set_iaddr_addrs|exact Hb1|exact Hm|exact Ho|exact E1].
  - eapply kept_trans; [| |by eapply alloc_kept|exact E2]; [done|]. intros n [_ ->]. right. intros _. rewrite Hi. apply Ha.
  - intros b Hin Hne Hz. apply E3; [done|done|]. by rewrite Hm.
  - rewrite Hi. pose proof (as_nonzero _ _ _ _ _ Ha). split; [done|lia].
Qed.

(** The entry of the indirect block. *)
Lemma iappend_entry_spec V x bn (din : list Z) st (Q : Z * list Z → mkfs → Prop) :
  let ind := iaddr x NDIRECT in
  shows V st → file_ok hm the_sb V x → NDIRECT ≤ bn < MAXFILE → ind ≠ 0 →
  mk_freeblock st + (if fmap_at V x bn =? 0 then 1 else 0) ≤ 1000 →
  (∀ a st' V', shows V' st' → extended V x bn a V' x → mk_frame st st' →
    mk_freeblock st' = mk_freeblock st + (if fmap_at V x bn =? 0 then 1 else 0) → Q (a, din) st') →
  wp (indirect ← rsect ind;
      indirect ← (if bld 4 (4 * (bn - NDIRECT)) indirect =? 0 then
        b ← next_block;
        let indirect := bst 4 (4 * (bn - NDIRECT)) (xint b) indirect in
        wsect ind indirect;;
        mret indirect
      else mret indirect);
      mret (xint (bld 4 (4 * (bn - NDIRECT)) indirect), din)) st Q.
Proof.
  intros ind Hs Hf Hb Hi Hc HQ. pose proof (sh_free _ _ Hs) as Hfb. unfold nmeta in Hfb.
  pose proof (fo_ind _ _ _ _ Hf Hi) as Hd. fold ind in Hd. pose proof (db_blkno _ _ _ _ Hd) as Hi0. unfold blkno in Hi0. simpl in Hi0.
  assert (ind ≠ 45) as Hi45 by (intros E; apply (db_bitmap _ _ _ _ Hd 0); [unfold blkno; simpl; lia|by rewrite the_bblock]).
  assert (fmap_at V x bn = bld 4 (4 * (bn - NDIRECT)) (V ind)) as Em.
  { unfold fmap_at. fold ind. rewrite (proj2 (Z.ltb_ge _ _)) by lia. by destruct (Z.eqb_spec ind 0). }
  apply wp_bind, (wp_rsect V); [done|done|done|]. rewrite <-Em. apply wp_bind. destruct (Z.eqb_spec (fmap_at V x bn) 0) as [E0|E0].
  - apply wp_bind. eapply next_block_spec; [exact Hs|lia|]. intros V' Ha Hs'. set (a := mk_freeblock st) in *.
    destruct (dblock_alloc _ _ _ _ _ _ Ha Hd) as (Hd' & Hne & Ev). destruct (shows_block _ _ ind Hs' Hi0 Hi45) as [_ Hl'].
    assert (0 ≤ a < 2 ^ 32) as Hr by lia. rewrite (xint_small a Hr), <-Ev.
    apply wp_bind, wp_wsect; [done|]. apply wp_ret, wp_ret. assert (MAXFILE = 268 ∧ NDIRECT = 12 ∧ BSIZE = 1024) as (EM & EN & EB) by done.
    rewrite bld_bst by lia. change (256 ^ Z.of_nat 4) with (2 ^ 32). rewrite Z.mod_small, (xint_small a Hr) by done.
    eapply (HQ a _ _); [apply (shows_put V'); [done|by rewrite length_bst by lia| |done]| |done|done].
    + simpl. fold a. assert (used the_sb V' ind = true) as Hu by apply Hd'. rewrite (shows_used _ _ _ Hs') in Hu by apply Hd'.
      apply Z.ltb_lt in Hu. exact Hu.
    + apply (extended_entry V x bn a V'); try done.
  - apply wp_ret, wp_ret. rewrite <-Em. rewrite xint_small by (rewrite Em; apply bld4_range).
    apply (HQ _ _ V); [done|apply extended_refl; [done|unfold in_file; file_lia|done]|done|lia].
Qed.

Lemma iappend_block_spec V x bn din st Q :
  shows V st → file_ok hm the_sb V x → din_is din x → in_file bn → mk_freeblock st + cost V x bn ≤ 1000 →
  (∀ a din' st' V' x', shows V' st' → din_is din' x' → extended V x bn a V' x' → mk_frame st st' →
    mk_freeblock st' = mk_freeblock st + cost V x bn → Q (a, din') st') →
  wp (iappend_block bn din) st Q.
Proof.
  intros Hs Hf Hdin Hb Hc HQ. unfold iappend_block, cost in *. pose proof Hb as [Hb0 Hb1].
  pose proof (sh_free _ _ Hs) as Hfb. unfold nmeta in Hfb. assert (0 ≤ NDIRECT) as HN by done.
  assert (0 ≤ mk_freeblock st < 2 ^ 32) as Hr by lia. pose proof (fo_len _ _ _ _ Hf) as Hlen.
  destruct (Z.ltb_spec bn NDIRECT) as [Hlt|Hge].
  - rewrite (din_is_addr din x bn Hdin) by lia. rewrite (proj2 (Z.leb_gt _ _)) in * by lia. simpl andb in *. cbv iota in Hc.
    assert (fmap_at V x bn = iaddr x bn) as Em by (unfold fmap_at; by rewrite (proj2 (Z.ltb_lt _ _))). rewrite Em in *.
    destruct (Z.eqb_spec (iaddr x bn) 0) as [E0|E0].
    + apply wp_bind, wp_bind. eapply next_block_spec; [exact Hs|lia|]. intros V' Ha Hs'. apply wp_ret, wp_ret.
      assert (din_is (set_din_addr bn (mk_freeblock st) din) (set_iaddr bn (mk_freeblock st) x)) as Hd' by (apply din_set_addr; [done|lia|done]).
      rewrite (din_is_addr _ _ bn Hd') by lia. rewrite (iaddr_set _ _ _ _ Hlen) by lia. rewrite decide_True by done.
      eapply (HQ _ _ _ V'); [done|done|by apply extended_direct|done|done].
    + apply wp_bind, wp_ret, wp_ret. rewrite (din_is_addr din x bn Hdin) by lia. rewrite <-Em.
      apply (HQ _ _ _ V x); [done|done|apply extended_refl; [done|done|by rewrite Em]|done|lia].
  - rewrite (din_is_addr din x NDIRECT Hdin) by lia. rewrite (proj2 (Z.leb_le _ _)) in * by lia. simpl andb in *.
    destruct (Z.eqb_spec (iaddr x NDIRECT) 0) as [E0|E0].
    + assert (fmap_at V x bn = 0) as Em by (unfold fmap_at; rewrite E0; by rewrite (proj2 (Z.ltb_ge _ _))). rewrite Em in *. change (0 =? 0) with true in *. cbv iota in Hc.
      apply wp_bind, wp_bind. eapply next_block_spec; [exact Hs|lia|]. intros V' Ha Hs'. apply wp_ret.
      set (ind := mk_freeblock st) in *. set (x1 := set_iaddr NDIRECT ind x).
      assert (din_is (set_din_addr NDIRECT ind din) x1) as Hd' by (apply din_set_addr; [done|lia|done]).
      rewrite (din_is_addr _ _ NDIRECT Hd') by lia.
      destruct (grow_indirect _ _ _ _ _ _ Ha Hf E0) as (Hf1 & Hi & Hm & _). fold x1 in Hf1, Hi, Hm.
      eapply (iappend_entry_spec V' x1); [done|done|lia|rewrite Hi; lia|rewrite Hm, Em by done; simpl; fold ind; simpl in Hc; lia|].
      intros a st' V2 Hs2 He [F1 F2] Ef. rewrite Hm, Em in Ef by done.
      eapply HQ; [exact Hs2|exact Hd'|by eapply extended_indirect|done|]. rewrite Ef. simpl. fold ind. lia.
    + apply wp_bind, wp_ret. rewrite (din_is_addr _ _ NDIRECT Hdin) by lia.
      eapply (iappend_entry_spec V x); [done|done|lia|done|lia|].
      intros a st' V2 Hs2 He Hfr Ef. eapply HQ; [exact Hs2|exact Hdin|done|done|lia].
Qed.

(** ** Inodes on the image *)

Lemma bld_window n o p m l : 0 ≤ o → 0 ≤ p → o + Z.of_nat n ≤ Z.of_nat m →
  bld n o (take m (drop (Z.to_nat p) l)) = bld n (p + o) l.
Proof.
  intros Ho Hp Hm. unfold bld. f_equal. rewrite skipn_firstn_comm, take_take, drop_drop. f_equal; [lia|]. f_equal. lia.
Qed.

Lemma bld_splice n o p ds l : 0 ≤ o → 0 ≤ p → o + Z.of_nat n ≤ Z.of_nat (length ds) →
  p + Z.of_nat (length ds) ≤ Z.of_nat (length l) → bld n (p + o) (splice (Z.to_nat p) ds l) = bld n o ds.
Proof.
  intros Ho Hp Hn Hl. rewrite <-(bld_window n o p (length ds)) by done. rewrite splice_take_drop by lia. done.
Qed.

Lemma bld_splice_out n o p ds l : 0 ≤ o → 0 ≤ p → p + Z.of_nat (length ds) ≤ Z.of_nat (length l) →
  o + Z.of_nat n ≤ p ∨ p + Z.of_nat (length ds) ≤ o → bld n o (splice (Z.to_nat p) ds l) = bld n o l.
Proof. intros Ho Hp Hl Hout. unfold bld. rewrite splice_take_drop_out; [done|lia|lia]. Qed.

(** A field-wise copy of an inode. *)
Lemma di_decode_ext sl sl' d d' :
  (∀ n o, (n ≤ 4)%nat → 0 ≤ o → o + Z.of_nat n ≤ 64 → bld n (di_off sl + o) d = bld n (di_off sl' + o) d') →
  di_decode sl d = di_decode sl' d'.
Proof.
  intros H. unfold di_decode, di_type, di_major, di_minor, di_nlink, di_size, di_addrs. pose proof (H 2%nat 0) as H0. rewrite !Z.add_0_r in H0.
  rewrite H0, !H by lia. f_equal. apply list_fmap_ext. intros i j Hj. apply lookup_seqZ in Hj. unfold NDIRECT in Hj.
  rewrite <-!Z.add_assoc. apply H; lia.
Qed.

Section inode_io.
Context (V : view) (st : mkfs) (n : Z) (Hs : shows V st) (Hsb : mk_sb st = the_sb) (Hn : 0 ≤ n < 200).

Lemma iblock_data : let b := IBLOCK n the_sb in 0 ≤ b < 45 ∧ length (V b) = Z.to_nat BSIZE.
Proof.
  destruct (the_iblock n Hn) as [E ?]. cbv zeta. rewrite E. split; [lia|]. by apply (shows_block V st); [|lia..].
Qed.

Lemma slot_of : 0 ≤ DINODE_SIZE * (n mod IPB) ∧ DINODE_SIZE * (n mod IPB) + 64 ≤ BSIZE.
Proof. pose proof (slot_range n). unfold DINODE_SIZE, BSIZE, IPB in *. change (BSIZE / DINODE_SIZE) with 16 in *. lia. Qed.

Lemma rinode_spec Q :
  (∀ din, length din = 64%nat → di_decode 0 din = dinode_of the_sb V n → Q din st) → wp (rinode n) st Q.
Proof.
  intros HQ. pose proof iblock_data as [Hb Hl]. pose proof slot_of as [S1 S2].
  unfold rinode. apply wp_bind, wp_gets. rewrite Hsb. apply wp_bind, (wp_rsect V); [done|lia|lia|]. apply wp_ret. apply HQ.
  - rewrite length_take, length_drop, Hl. unfold DINODE_SIZE, BSIZE in *. lia.
  - apply di_decode_ext. intros m o Hm Ho Ho'. change (di_off 0) with 0. rewrite Z.add_0_l. by apply bld_window.
Qed.

Lemma winode_spec din x Q :
  din_is din x →
  (∀ d st', let V' := vset V (IBLOCK n the_sb) d in
    shows V' st' → mk_frame st st' → mk_freeblock st' = mk_freeblock st →
    dinode_of the_sb V' n = di_inode x → (∀ m, 0 ≤ m < 200 → m ≠ n → dinode_of the_sb V' m = dinode_of the_sb V m) →
    Q tt st') →
  wp (winode n din) st Q.
Proof.
  intros [Hl Hd] HQ. pose proof iblock_data as [Hb Hlb]. pose proof slot_of as [S1 S2]. pose proof (sh_free _ _ Hs) as Hfb. unfold nmeta in Hfb.
  unfold winode. apply wp_bind, wp_gets. rewrite Hsb. apply wp_bind, (wp_rsect V); [done|lia|lia|]. apply wp_wsect; [lia|].
  set (d := splice _ _ _). assert (BSIZE = 1024) as EB by done.
  assert (length d = Z.to_nat BSIZE) as Hd' by (unfold d; rewrite length_splice; lia).
  eapply (HQ d); [apply shows_put; [done|done|lia|lia]|done|done| |].
  - unfold dinode_of. rewrite vset_eq, <-Hd. apply di_decode_ext. intros m o Hm Ho Ho'. change (di_off 0) with 0. rewrite Z.add_0_l.
    apply bld_splice; lia.
  - intros m Hm Hne. unfold dinode_of, vset. case_decide as E; [|done]. rewrite <-E. apply di_decode_ext. intros k o Hk Ho Ho'.
    destruct (the_iblock n Hn) as [E1 _]. destruct (the_iblock m Hm) as [E2 _]. rewrite E1, E2 in E.
    pose proof (Z.div_mod n 16 ltac:(lia)). pose proof (Z.div_mod m 16 ltac:(lia)). pose proof (slot_range m). change IPB with 16 in *.
    apply bld_splice_out; unfold di_off, DINODE_SIZE in *; lia.
Qed.
End inode_io.

(** * The files of the image

    What the image holds while mkfs builds it, and that iappend() adds the bytes
    it is given to the end of one file. *)

(** ** How many blocks a file takes *)

Definition nblocks_of (sz : Z) : Z := (sz + BSIZE - 1) / BSIZE.
(** With the indirect block. *)
Definition need (sz : Z) : Z := nblocks_of sz + (if NDIRECT <? nblocks_of sz then 1 else 0).

(** The blocks of the file are those of its first [sz] bytes. *)
Record fills (V : view) (x : inode) (sz : Z) : Prop := {
  fi_map : ∀ bn, in_file bn → fmap_at V x bn = 0 ↔ sz ≤ bn * BSIZE;
  fi_ind : iaddr x NDIRECT = 0 ↔ sz ≤ NDIRECT * BSIZE;
}.

Lemma nblocks_step off n : 0 ≤ off → 0 < n ≤ BSIZE - off mod BSIZE →
  nblocks_of (off + n) = off / BSIZE + 1 ∧ nblocks_of off = off / BSIZE + (if off mod BSIZE =? 0 then 0 else 1).
Proof.
  intros Ho Hn. unfold nblocks_of. pose proof (Z.div_mod off BSIZE ltac:(done)) as Hd.
  pose proof (Z.mod_pos_bound off BSIZE ltac:(done)) as Hr. assert (BSIZE = 1024) as EB by done. split.
  - apply (div_mod_at _ _ _ (off mod BSIZE + n - 1)); lia.
  - destruct (Z.eqb_spec (off mod BSIZE) 0).
    + apply (div_mod_at _ _ _ (BSIZE - 1)); lia.
    + apply (div_mod_at _ _ _ (off mod BSIZE - 1)); lia.
Qed.

Lemma need_mono a b : 0 ≤ a ≤ b → 0 ≤ need a ≤ need b.
Proof.
  intros Hab. unfold need. assert (0 ≤ nblocks_of a ≤ nblocks_of b) as H.
  { unfold nblocks_of. split; [apply Z.div_pos; unfold BSIZE; lia|apply Z.div_le_mono; unfold BSIZE; lia]. }
  destruct (Z.ltb_spec NDIRECT (nblocks_of a)), (Z.ltb_spec NDIRECT (nblocks_of b)); lia.
Qed.

(** The blocks that an append within one block allocates. *)
Lemma need_step V x off n :
  0 ≤ off → off / BSIZE < MAXFILE → 0 < n ≤ BSIZE - off mod BSIZE → fills V x off →
  need (off + n) = need off + cost V x (off / BSIZE).
Proof.
  intros Ho Hb Hn [F1 F2]. destruct (nblocks_step off n Ho Hn) as [E1 E2]. unfold need, cost. rewrite E1, E2.
  pose proof (Z.div_mod off BSIZE ltac:(done)) as Hd. pose proof (Z.mod_pos_bound off BSIZE ltac:(done)) as Hr.
  assert (0 ≤ off / BSIZE) as H0 by (apply Z.div_pos; [lia|done]). specialize (F1 (off / BSIZE) (conj H0 Hb)).
  assert (BSIZE = 1024) as EB by done. assert (NDIRECT = 12) as EN by done.
  set (bn := off / BSIZE) in *. set (r := off mod BSIZE) in *.
  destruct (Z.eqb_spec r 0), (Z.eqb_spec (fmap_at V x bn) 0), (Z.leb_spec NDIRECT bn), (Z.eqb_spec (iaddr x NDIRECT) 0); simpl;
    destruct (Z.ltb_spec NDIRECT (bn + 1)); repeat (match goal with |- context [?a <? ?b] => destruct (Z.ltb_spec a b) end); lia.
Qed.

Lemma fills_step V x off n a V' x' W :
  0 ≤ off → off / BSIZE < MAXFILE → 0 < n ≤ BSIZE - off mod BSIZE → fills V x off → extended V x (off / BSIZE) a V' x' →
  (∀ b, in_file b → fmap_at W x' b = fmap_at V' x' b) → fills W x' (off + n).
Proof.
  intros Ho Hb Hn [F1 F2] [E1 E2 E3 E4] HW.
  pose proof (Z.div_mod off BSIZE ltac:(done)) as Hd. pose proof (Z.mod_pos_bound off BSIZE ltac:(done)) as Hr.
  assert (0 ≤ off / BSIZE) as H0 by (apply Z.div_pos; [lia|done]).
  assert (BSIZE = 1024) as EB by done. assert (NDIRECT = 12) as EN by done. set (bn := off / BSIZE) in *. split.
  - intros b Hin. rewrite HW by done. destruct (decide (b = bn)) as [->|Hne].
    + rewrite (gr_map _ _ _ _ _ _ _ _ E1). pose proof (gr_nonzero _ _ _ _ _ _ _ _ E1). lia.
    + assert (fmap_at V' x' b = 0 ↔ fmap_at V x b = 0) as ->; [|rewrite F1 by done; nia].
      split; [|by apply E3]. intros Hz. destruct (decide (fmap_at V x b = 0)) as [|Hnz]; [done|].
      by rewrite (gr_keep _ _ _ _ _ _ _ _ E1) in Hz.
  - rewrite E4, F2. nia.
Qed.

(** ** The loop of iappend() *)

Section append.
Context (V : view) (st : mkfs) (x : inode) (off : Z) (ds : list Z).
Context (Hs : shows V st) (Hf : file_ok hm the_sb V x) (Ho : 0 ≤ off) (Hfill : fills V x off).
Context (Hmax : off + Z.of_nat (length ds) ≤ MAXFILE * BSIZE).
Context (Hroom : mk_freeblock st + need (off + Z.of_nat (length ds)) - need off ≤ 1000).

(** [tot] bytes have been appended. *)
Record appending (tot : Z) (din : list Z) (V1 : view) (x1 : inode) (st1 : mkfs) : Prop := {
  ap_tot : 0 ≤ tot ≤ Z.of_nat (length ds);
  ap_din : din_is din x1;
  ap_shows : shows V1 st1;
  ap_frame : mk_frame st st1;
  ap_write : writing hm the_sb V x off ds tot V1 x1;
  ap_fills : fills V1 x1 (off + tot);
  ap_free : mk_freeblock st1 = mk_freeblock st + need (off + tot) - need off;
}.

Lemma appending_start din : din_is din x → appending 0 din V x st.
Proof.
  intros Hd. split; [lia|done|done|done|by apply writing_start|by rewrite Z.add_0_r|rewrite Z.add_0_r; lia].
Qed.

Lemma append_iter tot din V1 x1 st1 :
  let p := drop (Z.to_nat tot) ds in
  let fbn := (off + tot) / BSIZE in
  let n1 := Z.min (Z.of_nat (length p)) (u32 ((fbn + 1) * BSIZE - (off + tot))) in
  appending tot din V1 x1 st1 → tot < Z.of_nat (length ds) →
  wp ('(a, din) ← iappend_block fbn din;
      buf ← rsect a;
      wsect a (splice (Z.to_nat (off + tot - fbn * BSIZE)) (take (Z.to_nat n1) p) buf);;
      continue (R := list Z * Z) (din, u32 (off + tot + n1), drop (Z.to_nat n1) p)) st1 (λ v st2, ∃ din2 V2 x2,
    0 < n1 ∧ v = inl (din2, off + (tot + n1), drop (Z.to_nat (tot + n1)) ds) ∧ appending (tot + n1) din2 V2 x2 st2).
Proof.
  intros p fbn n1 [A1 A2 A3 A4 A5 A6 A7] Hlt. assert (BSIZE = 1024) as EB by done. assert (MAXFILE = 268) as EM by done.
  pose proof (Z.div_mod (off + tot) BSIZE ltac:(done)) as Hd. pose proof (Z.mod_pos_bound (off + tot) BSIZE ltac:(done)) as Hr. fold fbn in Hd.
  assert (length p = Z.to_nat (Z.of_nat (length ds) - tot)) as Hp by (unfold p; rewrite length_drop; lia).
  assert (in_file fbn) as Hin by (split; [apply Z.div_pos; lia|apply Z.div_lt_upper_bound; lia]). pose proof Hin as [Hin0 Hin1].
  assert (n1 = Z.min (Z.of_nat (length ds) - tot) (BSIZE - (off + tot) mod BSIZE)) as En.
  { unfold n1. rewrite Hp, u32_small by lia. lia. }
  assert (0 < n1 ≤ BSIZE - (off + tot) mod BSIZE ∧ tot + n1 ≤ Z.of_nat (length ds)) as [Hn Hle] by lia.
  assert (need (off + (tot + n1)) = need (off + tot) + cost V1 x1 fbn) as Ec.
  { rewrite Z.add_assoc. apply need_step; [lia|lia|done|done]. }
  pose proof (need_mono (off + (tot + n1)) (off + Z.of_nat (length ds)) ltac:(lia)) as Hm.
  apply wp_bind. eapply iappend_block_spec; [exact A3|apply A5|exact A2|done|lia|].
  intros a din2 st2 V2 x2 Hs2 Hd2 Hex [F1 F2] Ef. pose proof (ex_grown _ _ _ _ _ _ Hex) as Hg.
  pose proof (gr_ok _ _ _ _ _ _ _ _ Hg) as Hf2. pose proof (gr_map _ _ _ _ _ _ _ _ Hg) as Ea. pose proof (gr_nonzero _ _ _ _ _ _ _ _ Hg) as Ha0.
  assert (dblock hm the_sb V2 a) as Hda by (rewrite <-Ea; apply (fo_data _ _ _ _ Hf2); [done|by rewrite Ea]).
  pose proof (db_blkno _ _ _ _ Hda) as Hab. unfold blkno in Hab. simpl in Hab.
  assert (a ≠ 45) as Ha45 by (intros E; apply (db_bitmap _ _ _ _ Hda 0); [unfold blkno; simpl; lia|by rewrite the_bblock]).
  assert (a < mk_freeblock st2) as Haf.
  { pose proof (db_used _ _ _ _ Hda) as Hu. rewrite (shows_used _ _ _ Hs2) in Hu by apply Hda. by apply Z.ltb_lt. }
  destruct (shows_block V2 st2 a Hs2 Hab Ha45) as [_ Hla].
  apply wp_bind, (wp_rsect V2); [done|done|done|]. apply wp_bind, wp_wsect; [done|]. apply wp_ret.
  replace (off + tot - fbn * BSIZE) with ((off + tot) mod BSIZE) by lia.
  set (d := splice _ _ _). set (V3 := vset V2 a d).
  assert (length (take (Z.to_nat n1) p) = Z.to_nat n1) as Hlt1 by (rewrite length_take; lia).
  exists din2, V3, x2. split; [lia|]. split.
  { rewrite u32_small by lia. unfold p. rewrite drop_drop. rewrite <-Z.add_assoc, <-Z2Nat.inj_add by lia. done. }
  split; [lia|done| | | | |].
  - apply shows_put; [done|unfold d; rewrite length_splice; lia|done|done].
  - destruct A4 as [G1 G2]. split; simpl; congruence.
  - apply (writing_step hm the_sb V x off ds tot n1 V1 x1 a V2 x2 A5); [done|lia|lia|lia|lia|done|apply Hex|done].
  - rewrite Z.add_assoc. eapply (fills_step V1 x1 (off + tot) n1 a V2 x2); [lia|lia|done|done|done|].
    intros b Hb. assert (V3 = chunk V2 x2 (off + tot) (take (Z.to_nat n1) p)) as ->.
    { unfold V3, chunk, d. fold fbn. by rewrite Ea. }
    eapply (chunk_fmap hm the_sb); fold fbn; rewrite ?Ea; done.
  - simpl. rewrite Ef, A7, Ec. lia.
Qed.
End append.

(** ** A file whose blocks are kept *)

Section kept_file.
Context (s : superblock) (V V' : view) (own : Z → Prop) (y : inode).
Context (Hf : file_ok hm s V y) (Hk : kept s own V V') (Ho : ∀ n, owns V y n → ¬ own n).

Lemma kept_block n : owns V y n → V' n = V n.
Proof.
  intros Hn. pose proof (owns_dblock _ _ _ _ _ Hf Hn) as [D1 D2 D3 D4 D5]. apply (kp_same _ _ _ _ Hk); auto.
Qed.

Lemma kept_fmap b : fmap_at V' y b = fmap_at V y b.
Proof.
  unfold fmap_at. destruct (b <? NDIRECT); [done|]. destruct (Z.eqb_spec (iaddr y NDIRECT) 0) as [|Hne]; [done|].
  rewrite kept_block; [done|]. split; [done|by left].
Qed.

Lemma kept_fbyte i : 0 ≤ i < MAXFILE * BSIZE → fbyte V' y i = fbyte V y i.
Proof.
  intros Hi. unfold fbyte, fblk. rewrite kept_fmap. destruct (Z.eqb_spec (fmap_at V y (i / BSIZE)) 0) as [|Hne]; [done|].
  rewrite kept_block; [done|]. split; [done|]. right. exists (i / BSIZE). split; [|done].
  split; [apply Z.div_pos; [lia|done]|apply Z.div_lt_upper_bound; [done|lia]].
Qed.

Lemma kept_dblock n : dblock hm s V n → dblock hm s V' n.
Proof. intros []. split; try done. by apply (kp_used _ _ _ _ Hk). Qed.

Lemma kept_file : file_ok hm s V' y.
Proof.
  split; [apply Hf| | | |].
  - intros b Hb. rewrite kept_fmap. intros. by apply kept_dblock, (fo_data _ _ _ _ Hf).
  - intros. by apply kept_dblock, (fo_ind _ _ _ _ Hf).
  - intros b b' Hb Hb'. rewrite !kept_fmap. by apply (fo_inj _ _ _ _ Hf).
  - intros b Hb. rewrite kept_fmap. by apply (fo_sep _ _ _ _ Hf).
Qed.

Lemma kept_owns n : owns V' y n ↔ owns V y n.
Proof. unfold owns. by setoid_rewrite kept_fmap. Qed.
End kept_file.

(** ** What the image holds *)

(** Inode [n] is a file of type [ty] with the bytes [bs]. *)
Record file_is (V : view) (n ty : Z) (bs : list Z) : Prop := {
  ff_inode : dinode_of the_sb V n = mkDi ty 0 0 1 (Z.of_nat (length bs)) (i_addrs (node the_sb V n));
  ff_ok : file_ok hm the_sb V (node the_sb V n);
  ff_fills : fills V (node the_sb V n) (Z.of_nat (length bs));
  ff_bytes : ∀ i, 0 ≤ i < MAXFILE * BSIZE → fbyte V (node the_sb V n) i = default 0 (bs !! Z.to_nat i);
}.

(** A free inode. *)
Definition free_inode : dinode := mkDi 0 0 0 0 0 (replicate 13 0).

Abbreviation files := (list (Z * list Z)).
Definition total_need (F : files) : Z := foldr (λ f n, need (Z.of_nat (length f.2)) + n) 0 F.

(** The blocks before the inodes: the boot block, the superblock and the log. *)
Definition meta_block (b : Z) : block := if b =? 1 then splice 0 (sb_bytes the_sb) zero_block else zero_block.

(** The files [F] are the inodes from 1 on. *)
Record image (F : files) (V : view) (st : mkfs) : Prop := {
  im_shows : shows V st;
  im_sb : mk_sb st = the_sb;
  im_next : mk_freeinode st = 1 + Z.of_nat (length F);
  im_inodes : 1 + Z.of_nat (length F) ≤ 200;
  im_free : mk_freeblock st = nmeta + total_need F;
  im_file : ∀ i ty bs, F !! i = Some (ty, bs) → file_is V (1 + Z.of_nat i) ty bs;
  im_unused : ∀ n, n = 0 ∨ 1 + Z.of_nat (length F) ≤ n < 200 → dinode_of the_sb V n = free_inode;
  im_meta : ∀ b, 0 ≤ b < 32 → V b = meta_block b;
  im_data : ∀ i n, (i < length F)%nat → owns V (node the_sb V (1 + Z.of_nat i)) n → nmeta ≤ n;
  im_apart : ∀ i j n, i ≠ j → (i < length F)%nat → (j < length F)%nat →
    owns V (node the_sb V (1 + Z.of_nat i)) n → ¬ owns V (node the_sb V (1 + Z.of_nat j)) n;
}.

Lemma total_need_insert F i ty bs ty' bs' :
  F !! i = Some (ty, bs) → total_need (<[i := (ty', bs')]> F) = total_need F + need (Z.of_nat (length bs')) - need (Z.of_nat (length bs)).
Proof.
  revert i. induction F as [|f F IH]; intros i Hi; [done|]. destruct i as [|i].
  - injection Hi as ->. unfold total_need. simpl. lia.
  - transitivity (need (Z.of_nat (length f.2)) + (total_need F + need (Z.of_nat (length bs')) - need (Z.of_nat (length bs)))).
    + exact (f_equal (Z.add _) (IH i Hi)).
    + unfold total_need. simpl. lia.
Qed.

(** ** iappend() *)

Lemma node_same_dinode V V' n : dinode_of the_sb V' n = dinode_of the_sb V n → node the_sb V' n = node the_sb V n.
Proof. unfold node. by intros ->. Qed.

Lemma iblock_other y W m : file_ok hm the_sb W y → 0 ≤ m < 200 → ¬ owns W y (IBLOCK m the_sb).
Proof. intros Hf Hm Hw. apply (owns_dblock _ _ _ _ _ Hf) in Hw. by apply (db_iblock _ _ _ _ Hw m). Qed.

Lemma iblock_notbm m : 0 ≤ m < 200 → not_bitmap the_sb (IBLOCK m the_sb).
Proof. intros Hm. apply the_not_bitmap. destruct (the_iblock m Hm) as [-> ?]. lia. Qed.

(** A block in use that is not changed. *)
Lemma kept_meta V V' st (changed : Z → Prop) b :
  shows V st → kept the_sb changed V V' → 0 ≤ b < 45 → ¬ changed b → V' b = V b.
Proof.
  intros Hs Hk Hb Hc. pose proof (sh_free _ _ Hs) as Hf. unfold nmeta in Hf.
  assert (blkno the_sb b) as Hbn by (unfold blkno; simpl; lia).
  apply (kp_same _ _ _ _ Hk); [done| |apply the_not_bitmap; lia|done]. rewrite (shows_used _ _ _ Hs Hbn). apply Z.ltb_lt. lia.
Qed.

(** A file that keeps its inode and its blocks. *)
Lemma file_is_kept V V' (changed : Z → Prop) m ty bs :
  file_is V m ty bs → kept the_sb changed V V' → (∀ a, owns V (node the_sb V m) a → ¬ changed a) →
  dinode_of the_sb V' m = dinode_of the_sb V m →
  file_is V' m ty bs ∧ node the_sb V' m = node the_sb V m ∧
  ∀ a, owns V' (node the_sb V m) a ↔ owns V (node the_sb V m) a.
Proof.
  intros [F1 F2 F3 F4] Hk Hch Ed. pose proof (node_same_dinode _ _ _ Ed) as En.
  split_and!; [|done|by intros a; apply (kept_owns the_sb V V' changed _ F2 Hk Hch)]. split; rewrite ?En.
  - by rewrite Ed, F1.
  - apply (kept_file the_sb V V' changed _ F2 Hk Hch).
  - split; [|apply F3]. intros b Hb. rewrite (kept_fmap the_sb V V' changed _ F2 Hk Hch). by apply F3.
  - intros k Hk'. rewrite (kept_fbyte the_sb V V' changed _ F2 Hk Hch) by done. by apply F4.
Qed.

(** The inode that iappend() writes. *)
Lemma node_written V V' n x1 v :
  x1 = upd_i_addrs (λ _, i_addrs x1) (node the_sb V n) → dinode_of the_sb V' n = di_inode (with_size v x1) →
  node the_sb V' n = with_size v x1.
Proof. intros E1 E2. unfold node. rewrite E2. rewrite E1. done. Qed.

Lemma with_size_fmap V x v b : fmap_at V (with_size v x) b = fmap_at V x b.
Proof. done. Qed.

Section iappend.
Context (F : files) (V : view) (st : mkfs) (Him : image F V st).
Context (i : nat) (ty : Z) (bs ds : list Z) (Hi : F !! i = Some (ty, bs)).
Abbreviation n := (1 + Z.of_nat i).
Context (Hmax : Z.of_nat (length (bs ++ ds)) ≤ MAXFILE * BSIZE).
Context (Hroom : nmeta + total_need (<[i := (ty, bs ++ ds)]> F) ≤ 1000).
Abbreviation x := (node the_sb V n).
Abbreviation off := (Z.of_nat (length bs)).

Lemma append_inum : 0 ≤ n < 200.
Proof. pose proof (lookup_lt_Some _ _ _ Hi). pose proof (im_inodes _ _ _ Him). lia. Qed.

(** The state after the loop and winode(). *)
Section append_done.
Context (V1 : view) (x1 : inode) (st1 st' : mkfs) (din : list Z) (d : block).
Abbreviation V' := (vset V1 (IBLOCK n the_sb) d).
Context (Hap : appending V st x off ds (Z.of_nat (length ds)) din V1 x1 st1).
Context (Hs' : shows V' st') (Hfr : mk_frame st1 st') (Hfree : mk_freeblock st' = mk_freeblock st1).
Context (Hdi : dinode_of the_sb V' n = di_inode (with_size (off + Z.of_nat (length ds)) x1)).
Context (Hoth : ∀ m, 0 ≤ m < 200 → m ≠ n → dinode_of the_sb V' m = dinode_of the_sb V1 m).

Abbreviation changed := (λ a, owns V x a ∨ a = IBLOCK n the_sb).

Lemma append_kept : kept the_sb changed V V'.
Proof.
  eapply kept_trans; [| |apply Hap|]; [by left|intros a Ha; left; right; exact Ha|]. split.
  - intros c Hc. rewrite used_other; [done|apply iblock_notbm, append_inum|done].
  - intros a _ _ _ Ha. by rewrite vset_ne.
Qed.

Lemma append_dinode m : 0 ≤ m < 200 → m ≠ n → dinode_of the_sb V' m = dinode_of the_sb V m.
Proof.
  intros Hm Hne. rewrite Hoth by done. unfold dinode_of. destruct (the_iblock m Hm) as [E ?].
  rewrite (kp_same _ _ _ _ (wr_kept _ _ _ _ _ _ _ _ _ (ap_write _ _ _ _ _ _ _ _ _ _ Hap))); [done| | |by apply iblock_notbm|].
  - unfold blkno. rewrite E. simpl. lia.
  - rewrite (shows_used _ _ _ (im_shows _ _ _ Him)); [apply Z.ltb_lt|unfold blkno; rewrite E; simpl; lia].
    rewrite E. pose proof (sh_free _ _ (im_shows _ _ _ Him)). unfold nmeta in *. lia.
  - apply iblock_other; [|done]. apply (im_file _ _ _ Him _ _ _ Hi).
Qed.

Lemma append_node : node the_sb V' n = with_size (off + Z.of_nat (length ds)) x1.
Proof. apply (node_written V); [apply Hap|exact Hdi]. Qed.

Lemma append_own_file : file_is V' n ty (bs ++ ds).
Proof.
  pose proof (im_file _ _ _ Him _ _ _ Hi) as [F1 F2 F3 F4]. pose proof Hap as [A1 A2 A3 A4 [W1 W2 W3 W4 W5 W6 W7] A6 A7].
  assert (¬ owns V1 x1 (IBLOCK n the_sb)) as Hno by (apply iblock_other; [done|apply append_inum]).
  assert (∀ b, fmap_at V' x1 b = fmap_at V1 x1 b) as Hm by (intros b; by apply other_fmap).
  split; rewrite ?append_node.
  - rewrite Hdi. rewrite length_app, Nat2Z.inj_add. unfold di_inode, with_size. rewrite W2. cbn -[node dinode_of].
    f_equal; unfold node, filled; rewrite F1; done.
  - apply file_ok_size, other_file; [done|apply iblock_notbm, append_inum|done].
  - rewrite length_app, Nat2Z.inj_add. split; [|exact (fi_ind _ _ _ A6)]. intros b Hb. change (fmap_at V' (with_size _ x1) b) with (fmap_at V' x1 b).
    rewrite Hm. by apply A6.
  - intros k Hk. change (fbyte V' (with_size _ x1) k) with (fbyte V' x1 k). rewrite other_fbyte, W3 by done. case_decide as E.
    + rewrite lookup_app_r by lia. do 2 f_equal. lia.
    + rewrite F4 by done. destruct (decide (k < off)); [by rewrite lookup_app_l by lia|].
      rewrite !lookup_ge_None_2; [done|rewrite length_app; lia|lia].
Qed.

(** Another file. *)
Lemma append_other j tyj bsj : j ≠ i → F !! j = Some (tyj, bsj) →
  let m := 1 + Z.of_nat j in
  file_is V' m tyj bsj ∧ node the_sb V' m = node the_sb V m ∧
  ∀ a, owns V' (node the_sb V m) a ↔ owns V (node the_sb V m) a.
Proof.
  intros Hne Hj m. pose proof (lookup_lt_Some _ _ _ Hj) as Hlj. pose proof (lookup_lt_Some _ _ _ Hi) as Hli. pose proof (im_inodes _ _ _ Him).
  pose proof (im_file _ _ _ Him _ _ _ Hj) as Hf. apply (file_is_kept V V' changed); [done|apply append_kept| |].
  - intros a Ha [Hb|Hb]; [by apply (im_apart _ _ _ Him j i a)|subst a]. revert Ha. apply iblock_other; [apply Hf|apply append_inum].
  - apply append_dinode; unfold m; lia.
Qed.

Lemma append_owns a : blkno the_sb a → used the_sb V a = true → owns V' (node the_sb V' n) a → owns V x a.
Proof.
  intros Ha Hu. rewrite append_node. pose proof (wr_own _ _ _ _ _ _ _ _ _ (ap_write _ _ _ _ _ _ _ _ _ _ Hap)) as Ho.
  assert (∀ b, fmap_at V' x1 b = fmap_at V1 x1 b) as Hm.
  { intros b. apply other_fmap, iblock_other; [apply Hap|apply append_inum]. }
  intros [H1 H2]. apply Ho; [done|done|]. split; [done|]. destruct H2 as [H2|(b & Hb & H2)]; [by left|right].
  exists b. by rewrite <-Hm.
Qed.

Lemma append_image : image (<[i := (ty, bs ++ ds)]> F) V' st'.
Proof.
  pose proof (lookup_lt_Some _ _ _ Hi) as Hli. pose proof Hap as [A1 A2 A3 [A4 A4'] A5 A6 A7]. destruct Hfr as [B1 B2].
  assert (∀ j, (j < length F)%nat → ∃ tyj bsj, F !! j = Some (tyj, bsj)) as Hlk.
  { intros j Hj. destruct (lookup_lt_is_Some_2 F j Hj) as [[tyj bsj] E]. by exists tyj, bsj. }
  assert (∀ j a, j ≠ i → (j < length F)%nat → owns V' (node the_sb V' (1 + Z.of_nat j)) a →
    owns V (node the_sb V (1 + Z.of_nat j)) a ∧ (owns V' (node the_sb V' n) a → owns V x a)) as Hown.
  { intros j a Hne Hj Ha. destruct (Hlk j Hj) as (tyj & bsj & E). destruct (append_other j tyj bsj Hne E) as (_ & En & Ho).
    rewrite En in Ha. apply Ho in Ha. split; [done|]. destruct (owns_dblock _ _ _ _ _ (ff_ok _ _ _ _ (im_file _ _ _ Him _ _ _ E)) Ha).
    by apply append_owns. }
  split; rewrite ?length_insert.
  - done.
  - rewrite B1, A4. apply Him.
  - rewrite B2, A4'. apply Him.
  - apply Him.
  - rewrite Hfree, A7, (im_free _ _ _ Him), (total_need_insert _ _ _ _ _ _ Hi), length_app, Nat2Z.inj_add. lia.
  - intros j tyj bsj Hj. destruct (decide (i = j)) as [<-|Hne].
    + rewrite list_lookup_insert_eq in Hj by done. injection Hj as <- <-. apply append_own_file.
    + rewrite list_lookup_insert_ne in Hj by done. by apply append_other.
  - intros m Hm. pose proof (im_inodes _ _ _ Him). rewrite append_dinode by lia. by apply Him.
  - intros b Hb. rewrite <-(im_meta _ _ _ Him b Hb). apply (kept_meta V _ st changed); [apply Him|apply append_kept|lia|].
    intros [Ho|Ho]; [pose proof (im_data _ _ _ Him i b Hli Ho) as Hd; unfold nmeta in Hd; lia|].
    destruct (the_iblock n append_inum) as [E ?]. lia.
  - intros j a Hj Ha. destruct (decide (j = i)) as [->|Hne]; [|by destruct (Hown j a Hne Hj Ha) as [P _]; apply (im_data _ _ _ Him j)].
    destruct (used the_sb V a) eqn:Hu.
    + apply (im_data _ _ _ Him i a Hj), append_owns; [|done|done].
      by apply (owns_dblock _ _ _ _ _ (ff_ok _ _ _ _ append_own_file)).
    + rewrite (shows_used _ _ _ (im_shows _ _ _ Him)) in Hu by apply (owns_dblock _ _ _ _ _ (ff_ok _ _ _ _ append_own_file) Ha).
      apply Z.ltb_ge in Hu. pose proof (sh_free _ _ (im_shows _ _ _ Him)). lia.
  - intros j1 j2 a Hne H1 H2 O1 O2. destruct (decide (j1 = i)) as [->|N1]; [|destruct (decide (j2 = i)) as [->|N2]].
    + destruct (Hown j2 a ltac:(congruence) H2 O2) as [P1 P2]. apply (im_apart _ _ _ Him i j2 a); auto.
    + destruct (Hown j1 a N1 H1 O1) as [P1 P2]. apply (im_apart _ _ _ Him j1 i a); auto.
    + destruct (Hown j1 a N1 H1 O1) as [P1 _]. destruct (Hown j2 a N2 H2 O2) as [P2 _]. by apply (im_apart _ _ _ Him j1 j2 a).
Qed.
End append_done.

Lemma iappend_spec Q : (∀ W st', image (<[i := (ty, bs ++ ds)]> F) W st' → Q tt st') → wp (iappend n ds) st Q.
Proof.
  intros HQ. pose proof append_inum as Hn. pose proof (im_file _ _ _ Him _ _ _ Hi) as [F1 F2 F3 F4]. pose proof (im_shows _ _ _ Him) as Hs.
  assert (mk_freeblock st + need (off + Z.of_nat (length ds)) - need off ≤ 1000) as Hr.
  { rewrite (im_free _ _ _ Him). rewrite (total_need_insert _ _ _ _ _ _ Hi), length_app, Nat2Z.inj_add in Hroom. lia. }
  rewrite length_app, Nat2Z.inj_add in Hmax. assert (MAXFILE * BSIZE = 274432) as EM by done.
  unfold iappend. apply wp_bind, (rinode_spec V st); [done|apply Him|done|]. intros din Hl Hd.
  assert (din_is din x) as Hdin by (split; [done|]; rewrite Hd; by unfold node; rewrite di_filled).
  assert (din_size din = off) as -> by (rewrite (din_is_size _ _ Hdin); unfold node; by rewrite F1).
  apply wp_bind.
  apply (wp_loop _ (λ '(din1, off1, p) s1, ∃ tot V1 x1, off1 = off + tot ∧ p = drop (Z.to_nat tot) ds ∧
      appending V st x off ds tot din1 V1 x1 s1) (λ '(_, _, p) _, Z.of_nat (length p))).
  - intros [[din1 off1] p] s1 (tot & V1 & x1 & -> & -> & Hap). pose proof (ap_tot _ _ _ _ _ _ _ _ _ _ Hap) as Ht. rewrite length_drop.
    destruct (Z.ltb_spec 0 (Z.of_nat (length ds - Z.to_nat tot))) as [Hlt|Hge].
    + assert ((off + tot) / BSIZE < MAXFILE) as Hlt' by (apply Z.div_lt_upper_bound; [done|lia]).
      rewrite (proj2 (Z.ltb_lt _ _) Hlt'). simpl negb. cbv iota. rewrite <-(length_drop ds).
      eapply wp_mono; [eapply (append_iter V st x off ds) with (V1 := V1) (x1 := x1); first [exact Hap|exact Hr|exact Hmax|lia]|].
      intros v s2 (din2 & V2 & x2 & Hn1 & -> & Hap2). split; [by eexists _, V2, x2|].
      pose proof (ap_tot _ _ _ _ _ _ _ _ _ _ Hap2). rewrite !length_drop. lia.
    + apply wp_ret. assert (tot = Z.of_nat (length ds)) as -> by lia.
      pose proof Hap as [_ A2 A3 [A4 A4'] _ _ _].
      eapply (winode_spec V1 s1 n); [done|rewrite A4; apply Him|done|apply din_set_size; [exact A2|lia]|].
      intros d st' V' Hs' Hfr Hfree Hdi Hoth. eapply HQ, (append_image V1 x1 s1 st' din1 d); done.
  - exists 0, V, x. rewrite Z.add_0_r. split_and!; [done|done|]. apply appending_start; done || lia.
  - lia.
Qed.
End iappend.

(** ** ialloc() *)

(** An empty file. *)
Lemma file_is_empty V n ty :
  dinode_of the_sb V n = mkDi ty 0 0 1 0 (replicate 13 0) → file_is V n ty [].
Proof.
  intros E. assert (i_addrs (node the_sb V n) = replicate 13 0) as Ea by (unfold node; by rewrite E).
  assert (∀ j, iaddr (node the_sb V n) j = 0) as Hi.
  { intros j. unfold iaddr. rewrite Ea. destruct (replicate 13 0 !! Z.to_nat j) as [v|] eqn:Ev; [|done]. by apply lookup_replicate in Ev as [-> _]. }
  assert (∀ b, fmap_at V (node the_sb V n) b = 0) as Hm by (intros b; unfold fmap_at; rewrite !Hi; by destruct (b <? NDIRECT)).
  split.
  - by rewrite Ea.
  - split; [by rewrite Ea|intros b _; by rewrite Hm|by rewrite Hi|intros b b' _ _; by rewrite Hm|intros b _; by rewrite Hm].
  - split; [|by rewrite Hi]. intros b Hb. rewrite Hm. simpl. unfold in_file, BSIZE in *. split; [lia|done].
  - intros i Hi'. unfold fbyte, fblk. rewrite Hm, lookup_nil. change (0 =? 0) with true. cbv iota. unfold zero_block.
    destruct (replicate (Z.to_nat BSIZE) 0 !! Z.to_nat (i mod BSIZE)) as [v|] eqn:Ev; [|done]. by apply lookup_replicate in Ev as [-> _].
Qed.

Lemma total_need_app F G : total_need (F ++ G) = total_need F + total_need G.
Proof. unfold total_need. induction F as [|f F IH]; simpl; [done|]. rewrite IH. lia. Qed.

Lemma new_dinode ty n : 0 ≤ ty < 2 ^ 15 →
  din_is (set_din_size 0 (bst 2 6 (xshort 1) (bst 2 0 (xshort ty) (replicate (Z.to_nat DINODE_SIZE) 0))))
    (mkInode ROOTDEV n 0 1 ty 0 0 1 0 (replicate 13 0)).
Proof.
  intros Hty. assert (xshort ty = ty) as -> by (unfold xshort; rewrite le_val_le_bytes; apply Z.mod_small; change (256 ^ Z.of_nat 2) with (2 ^ 16); lia).
  change (xshort 1) with 1. set (z := replicate (Z.to_nat DINODE_SIZE) 0). assert (length z = 64%nat) as Hz by done.
  assert (∀ m o, bld m o z = 0) as H0.
  { intros m o. unfold bld, z. rewrite drop_replicate, take_replicate.
    induction (m `min` (Z.to_nat DINODE_SIZE - Z.to_nat o))%nat as [|q IH]; [done|]. cbn [replicate le_val]. by rewrite IH. }
  change (mkInode ROOTDEV n 0 1 ty 0 0 1 0 (replicate 13 0)) with (with_size 0 (mkInode ROOTDEV n 0 1 ty 0 0 1 0 (replicate 13 0))).
  set (d1 := bst 2 0 ty z). assert (length d1 = 64%nat) as H1 by (unfold d1; rewrite length_bst; lia).
  assert (∀ m o, 2 ≤ o → bld m o d1 = 0) as B1 by (intros m o Ho; unfold d1; rewrite bld_bst_out by lia; apply H0).
  apply din_set_size; [|lia]. split; [by rewrite length_bst by lia|].
  assert (∀ m o, 8 ≤ o → bld m o (bst 2 6 1 d1) = 0) as B2 by (intros m o Ho; rewrite bld_bst_out by lia; apply B1; lia).
  unfold di_decode, di_type, di_major, di_minor, di_nlink, di_size, di_addrs, di_off, di_inode.
  change (DINODE_SIZE * 0) with 0. cbn [i_type i_major i_minor i_nlink i_size i_addrs]. rewrite (bld_bst 2 6), (B2 4%nat (0 + 8)) by lia.
  rewrite !(bld_bst_out 2 _ 2 6) by lia. rewrite (B1 2%nat (0 + 2)), (B1 2%nat (0 + 4)) by lia. unfold d1 at 1. rewrite bld_bst, s16_store by lia. f_equal.
Qed.

Lemma ialloc_spec F V st ty Q :
  image F V st → 1 + Z.of_nat (length F) < 200 → 0 ≤ ty < 2 ^ 15 →
  (∀ V' st', image (F ++ [(ty, [])]) V' st' → Q (1 + Z.of_nat (length F)) st') → wp (ialloc ty) st Q.
Proof.
  intros Him Hlen Hty HQ. pose proof Him as [I1 I2 I3 I4 I5 I6 I7 IM ID I8]. unfold ialloc. apply wp_bind, wp_gets, wp_bind, wp_modify.
  rewrite I3. set (n := 1 + Z.of_nat (length F)) in *. set (st1 := upd_mk_freeinode _ st).
  assert (shows V st1) as Hs1 by (by destruct I1).
  apply wp_bind, (winode_spec V st1 n Hs1 I2 ltac:(lia) _ _ _ (new_dinode ty n Hty)). intros d st' V' Hs' [F1 F2] Hfb Hdi Hoth.
  apply wp_ret, (HQ V'). simpl in F1, F2, Hfb.
  assert (kept the_sb (λ a, a = IBLOCK n the_sb) V V') as Hk.
  { unfold V'. split; [intros c Hc; rewrite used_other; [done|apply iblock_notbm; lia|done]|]. intros a _ _ _ Ha. by rewrite vset_ne. }
  assert (∀ i tyi bsi, F !! i = Some (tyi, bsi) → let m := 1 + Z.of_nat i in
    file_is V' m tyi bsi ∧ node the_sb V' m = node the_sb V m ∧ ∀ a, owns V' (node the_sb V m) a ↔ owns V (node the_sb V m) a) as Hold.
  { intros i tyi bsi Hi m. pose proof (lookup_lt_Some _ _ _ Hi). pose proof (I6 _ _ _ Hi) as Hf.
    apply (file_is_kept V V' _ m tyi bsi Hf Hk); [|apply Hoth; unfold m, n; lia].
    intros a Ha ->. revert Ha. apply iblock_other; [apply Hf|lia]. }
  assert (file_is V' n ty []) as Hnew by (by apply file_is_empty).
  assert (∀ a, ¬ owns V' (node the_sb V' n) a) as Hnone.
  { intros a [Ha [->|(b & Hb & <-)]].
    - apply Ha, (fi_ind _ _ _ (ff_fills _ _ _ _ Hnew)). simpl. done.
    - apply Ha, (fi_map _ _ _ (ff_fills _ _ _ _ Hnew)); [done|]. unfold in_file, BSIZE in *. simpl. lia. }
  assert (∀ i a, (i < length F + 1)%nat → owns V' (node the_sb V' (1 + Z.of_nat i)) a →
      (i < length F)%nat ∧ owns V (node the_sb V (1 + Z.of_nat i)) a) as Hown.
    { intros i a Hi Ha. destruct (decide (i < length F)%nat) as [Hlt|Hge].
      - split; [done|]. destruct (lookup_lt_is_Some_2 F i Hlt) as [[tyi bsi] E]. destruct (Hold i tyi bsi E) as (_ & En & Ho).
        rewrite En in Ha. by apply Ho.
      - exfalso. apply (Hnone a). replace n with (1 + Z.of_nat i) by (unfold n; lia). done. }
  split; rewrite ?length_app; simpl length.
  - done.
  - congruence.
  - rewrite F2, I3, u32_small by lia. unfold n. lia.
  - lia.
  - rewrite Hfb, I5, total_need_app. assert (total_need [(ty, [])] = 0) as -> by done. lia.
  - intros i tyi bsi. rewrite lookup_app_Some. intros [Hi|[Hge Hi]]; [by apply Hold|].
    destruct (i - length F)%nat as [|k] eqn:E; [|by destruct k]. injection Hi as <- <-.
    replace (1 + Z.of_nat i) with n by (unfold n; lia). exact Hnew.
  - intros m Hm. rewrite Hoth by lia. apply I7. lia.
  - intros b Hb. rewrite <-(IM b Hb). apply (kept_meta V V' st _ b I1 Hk); [lia|]. intros ->.
    destruct (the_iblock n ltac:(lia)) as [E ?]. lia.
  - intros i a Hi Ha. destruct (Hown i a Hi Ha) as [P1 P2]. by apply (ID i).
  - intros i j a Hne Hi Hj Oi Oj. destruct (Hown i a Hi Oi) as [Hi' Oi']. destruct (Hown j a Hj Oj) as [Hj' Oj'].
    by apply (I8 i j a).
Qed.

(** * main() of mkfs

    From the empty image to the last write: the blocks are zeroed, the
    superblock is written, the root directory gets its first two entries, every
    argument is added to it, and the size of the root directory and the bitmap
    are written at the end. *)

(** ** The empty file system *)

Lemma di_decode_zero sl : di_decode sl zero_block = free_inode.
Proof.
  unfold di_decode, di_type, di_major, di_minor, di_nlink, di_size, di_addrs. rewrite !bld_zero_block. unfold free_inode. f_equal.
  transitivity ((λ _ : Z, 0) <$> seqZ 0 (NDIRECT + 1)); [|done]. apply list_fmap_ext. intros i j _. apply bld_zero_block.
Qed.

Lemma image_start st :
  (∀ b, 0 ≤ b < 1000 → mk_img st !! b = Some (meta_block b)) → mk_sb st = the_sb → mk_freeinode st = 1 → mk_freeblock st = nmeta →
  ∃ V, image [] V st.
Proof.
  intros Hb Hs Hi Hf. set (V := λ b, if decide (b = 45) then bitmap (mk_freeblock st) else dget (mk_img st) b). exists V.
  assert (∀ b, 0 ≤ b < 1000 → b ≠ 45 → V b = meta_block b) as HV.
  { intros b Hr Hne. unfold V. rewrite decide_False by done. unfold dget. by rewrite Hb. }
  assert (∀ b, length (meta_block b) = Z.to_nat BSIZE) as Hl by (intros b; unfold meta_block; by destruct (b =? 1)).
  split; simpl length.
  - split.
    + unfold V. by rewrite decide_True.
    + intros b Hne. unfold V. by rewrite decide_False.
    + intros b Hr. exists (meta_block b). by rewrite Hb.
    + rewrite Hf. unfold nmeta. lia.
    + intros b Hr. rewrite Hf in Hr. unfold nmeta in Hr. rewrite HV by lia. unfold meta_block. by destruct (Z.eqb_spec b 1); [lia|].
  - done.
  - done.
  - done.
  - rewrite Hf. done.
  - intros i ty bs Hin. by rewrite lookup_nil in Hin.
  - intros n Hn. assert (0 ≤ n < 200) as Hr by lia. destruct (the_iblock n Hr) as [E ?]. unfold dinode_of. rewrite E, HV by lia.
    unfold meta_block. destruct (Z.eqb_spec (n / 16 + 32) 1); [lia|]. apply di_decode_zero.
  - intros b Hr. apply HV; lia.
  - intros i n Hlt. lia.
  - intros i j n _ Hlt. lia.
Qed.

(** The sectors are zeroed and the superblock is written. *)
Lemma format_spec s Q :
  mk_img s = ∅ → (∀ s', (∀ b, 0 ≤ b < 1000 → mk_img s' !! b = Some zero_block) → mk_sb s' = mk_sb s →
    mk_freeinode s' = mk_freeinode s → mk_freeblock s' = mk_freeblock s → Q tt s') →
  wp (loop (λ i, if i <? FSSIZE then wsect i zero_block;; continue (i + 1) else break tt) 0) s Q.
Proof.
  intros He HQ. assert (FSSIZE = 1000) as EF by done.
  apply (wp_loop _ (λ i s', 0 ≤ i ≤ 1000 ∧ (∀ b, 0 ≤ b < i → mk_img s' !! b = Some zero_block) ∧ mk_sb s' = mk_sb s ∧
    mk_freeinode s' = mk_freeinode s ∧ mk_freeblock s' = mk_freeblock s) (λ i _, 1000 - i)); [|split_and!; [lia..|done|done|done]|lia].
  intros i s1 (Hi & Hb & H1 & H2 & H3). destruct (Z.ltb_spec i FSSIZE).
  - apply wp_bind, wp_wsect; [lia|]. apply wp_ret. split; [|lia]. split_and!; [lia|lia| |done|done|done].
    intros b Hr. unfold put_sect. simpl. rewrite lookup_insert. case_decide; [done|]. apply Hb. lia.
  - apply wp_ret. apply HQ; [|done|done|done]. intros b Hr. apply Hb. lia.
Qed.

(** ** The files *)

(** The arguments of mkfs with the reads of their contents. *)
Abbreviation inputs := (list (list Z * hostfile)).

(** The name of the file in the image. *)
Definition short (arg : list Z) : list Z := without_bar (without_dir arg).

Definition entries (ins : inputs) : list (list Z) :=
  imap (λ i a, new_entry (short a.1) (2 + Z.of_nat i)) ins.
Definition root_bytes (ins : inputs) : list Z :=
  concat (new_entry [46] ROOTINO :: new_entry [46; 46] ROOTINO :: entries ins).
Definition contents (ins : inputs) : files :=
  (T_DIR, root_bytes ins) :: ((λ a, (T_FILE, concat a.2)) <$> ins).

(** A file of the host that mkfs takes. *)
Record accepted (hst : host) (a : list Z * hostfile) : Prop := {
  ac_open : h_open hst a.1 = Some a.2;
  ac_name : 47 ∉ without_dir a.1;
  ac_chunks : Forall (λ c, c ≠ []) a.2;
}.

(** There is room for the files. *)
Record fits (ins : inputs) : Prop := {
  ft_inodes : Z.of_nat (length ins) ≤ 198;
  ft_max : Forall (λ f, Z.of_nat (length f.2) ≤ MAXFILE * BSIZE) (contents ins);
  ft_room : nmeta + total_need (contents ins) ≤ 1000;
}.

Lemma dirent_eq inum t : (length t ≤ 14)%nat → dirent inum t = le_bytes 2 (u16 inum) ++ t ++ replicate (14 - length t) 0.
Proof.
  intros Hl. unfold dirent. assert (xshort inum = u16 inum) as -> by (unfold xshort; by rewrite le_val_le_bytes).
  unfold bst. change (Z.to_nat 0) with 0%nat. unfold splice at 2. rewrite length_le_bytes, drop_replicate, take_0, app_nil_l, Nat.add_0_l.
  unfold splice. rewrite take_app_le by (by rewrite length_le_bytes). rewrite take_ge by (by rewrite length_le_bytes). f_equal. f_equal.
  rewrite drop_app_ge by (rewrite length_le_bytes; lia). rewrite length_le_bytes, drop_replicate. f_equal.
  change (Z.to_nat DIRENT_SIZE) with 16%nat. lia.
Qed.

Lemma dirent_entry inum nm : dirent inum (strncpy_l (Z.to_nat DIRSIZ) nm) = new_entry nm inum.
Proof.
  assert (length (strncpy_l (Z.to_nat DIRSIZ) nm) = 14%nat) as Hl by apply length_strncpy.
  rewrite dirent_eq by lia. rewrite Hl. simpl replicate. by rewrite app_nil_r.
Qed.

Lemma length_concat {A} n (ls : list (list A)) : Forall (λ l, length l = n) ls → length (concat ls) = (n * length ls)%nat.
Proof. induction 1 as [|l ls Hl _ IH]; simpl; [lia|]. rewrite length_app, IH. lia. Qed.

Lemma entries_length ins : Forall (λ l, length l = 16%nat) (new_entry [46] ROOTINO :: new_entry [46; 46] ROOTINO :: entries ins).
Proof.
  repeat (constructor; [apply length_new_entry|]). apply Forall_lookup. intros i e He. unfold entries in He.
  rewrite list_lookup_imap in He. destruct (ins !! i); [|done]. injection He as <-. apply length_new_entry.
Qed.

Lemma length_root_bytes ins : length (root_bytes ins) = (16 * (2 + length ins))%nat.
Proof. unfold root_bytes. rewrite (length_concat 16) by apply entries_length. simpl length. unfold entries. by rewrite length_imap. Qed.

Lemma root_bytes_snoc ins a :
  root_bytes (ins ++ [a]) = root_bytes ins ++ new_entry (short a.1) (2 + Z.of_nat (length ins)).
Proof.
  unfold root_bytes, entries. rewrite imap_app, !app_comm_cons, concat_app. f_equal.
  cbn [imap concat]. unfold compose. by rewrite app_nil_r, Nat.add_0_r.
Qed.

Lemma contents_snoc ins a :
  contents (ins ++ [a]) = (T_DIR, root_bytes (ins ++ [a])) :: ((λ a, (T_FILE, concat a.2)) <$> ins) ++ [(T_FILE, concat a.2)].
Proof. unfold contents. by rewrite fmap_app. Qed.

Lemma concat_chunks_length (cs : hostfile) : Forall (λ c, c ≠ []) cs → (length cs ≤ length (concat cs))%nat.
Proof.
  induction 1 as [|c cs Hc _ IH]; [done|]. simpl. rewrite length_app. destruct c; [done|]. simpl. lia.
Qed.

(** ** Reading a file into the image *)

Section append_all.
Context (F : files) (i : nat) (ty : Z) (bs : list Z) (cs : hostfile).
Context (Hne : Forall (λ c, c ≠ []) cs).
Context (Hi : F !! i = Some (ty, bs)) (Hmax : Z.of_nat (length (bs ++ concat cs)) ≤ MAXFILE * BSIZE).
Context (Hroom : nmeta + total_need (<[i := (ty, bs ++ concat cs)]> F) ≤ 1000).

Lemma part_room bs' : (length bs' ≤ length (bs ++ concat cs))%nat → nmeta + total_need (<[i := (ty, bs')]> F) ≤ 1000.
Proof.
  intros Hl. pose proof Hroom as Hr. rewrite (total_need_insert _ _ _ _ _ _ Hi) in Hr. rewrite (total_need_insert _ _ _ _ _ _ Hi).
  pose proof (need_mono (Z.of_nat (length bs')) (Z.of_nat (length (bs ++ concat cs))) ltac:(lia)). lia.
Qed.

Lemma append_all_spec V st Q :
  image F V st → (∀ V' st', image (<[i := (ty, bs ++ concat cs)]> F) V' st' → Q tt st') →
  wp (loop (λ chunks, match chunks with
      | buf :: chunks' => iappend (1 + Z.of_nat i) buf;; continue chunks'
      | [] => break tt end) cs) st Q.
Proof.
  intros Him HQ. pose proof (concat_chunks_length cs Hne) as Hlen. assert (MAXFILE * BSIZE = 274432) as EM by done.
  assert (Z.of_nat (length cs) < 2 ^ 64) as Hsm by (rewrite length_app in Hmax; lia).
  apply (wp_loop _ (λ rest st', ∃ V' bs', image (<[i := (ty, bs')]> F) V' st' ∧ bs' ++ concat rest = bs ++ concat cs)
    (λ rest _, Z.of_nat (length rest))); [|by exists V, bs; rewrite list_insert_id|done].
  intros rest st1 (V1 & bs1 & I1 & E1). destruct rest as [|c rest].
  - apply wp_ret, (HQ V1). simpl in E1. by rewrite <-E1, app_nil_r.
  - simpl in E1. rewrite app_assoc in E1. assert (length (bs1 ++ c) ≤ length (bs ++ concat cs))%nat as Hle by (rewrite <-E1, (length_app (bs1 ++ c)); lia).
    apply wp_bind, (iappend_spec _ _ _ I1 i ty bs1 c); [by apply list_lookup_insert_eq, (lookup_lt_Some _ _ _ Hi)|lia| |].
    + rewrite list_insert_insert_eq. by apply part_room.
    + intros W st2 I2. rewrite list_insert_insert_eq in I2. apply wp_ret. split; [|simpl; lia]. by exists W, (bs1 ++ c).
Qed.
End append_all.

(** A file of the arguments: its inode, its entry in the root directory and its
    contents. *)
Section add_file.
Context (hst : host) (ins : inputs) (a : list Z * hostfile) (Ha : accepted hst a) (Hfit : fits (ins ++ [a])).
Abbreviation tail := ((λ a, (T_FILE, concat a.2)) <$> ins).

Lemma total_need_cons f F : total_need (f :: F) = need (Z.of_nat (length f.2)) + total_need F.
Proof. done. Qed.

Lemma need_0 : need 0 = 0.
Proof. done. Qed.

Lemma add_file_room :
  Z.of_nat (length (root_bytes (ins ++ [a]))) ≤ MAXFILE * BSIZE ∧ Z.of_nat (length (concat a.2)) ≤ MAXFILE * BSIZE ∧
  nmeta + (need (Z.of_nat (length (root_bytes (ins ++ [a])))) + total_need tail + need (Z.of_nat (length (concat a.2)))) ≤ 1000.
Proof.
  destruct Hfit as [_ Hm Hr]. rewrite contents_snoc in Hm, Hr. apply Forall_cons in Hm as [Hm1 Hm2].
  apply Forall_app in Hm2 as [_ Hm2]. apply Forall_cons in Hm2 as [Hm2 _].
  rewrite total_need_cons, total_need_app, total_need_cons in Hr. change (total_need []) with 0 in Hr.
  cbn [snd] in *. split_and!; [done|done|lia].
Qed.

Lemma add_file_spec V st Q :
  image (contents ins) V st → (∀ V' st', image (contents (ins ++ [a])) V' st' → Q tt st') → wp (add_file hst ROOTINO a.1) st Q.
Proof.
  intros Him HQ. destruct Ha as [A1 A2 A3]. pose proof add_file_room as (R1 & R2 & R3). pose proof (ft_inodes _ Hfit) as Hn.
  rewrite length_app in Hn. simpl length in Hn.
  assert (length (contents ins) = S (length ins)) as Hlen by (unfold contents; simpl; by rewrite length_fmap).
  pose proof (need_mono 0 (Z.of_nat (length (concat a.2))) ltac:(lia)) as Hnm. rewrite need_0 in Hnm.
  unfold add_file. rewrite bool_decide_eq_false_2 by done. rewrite A1.
  apply wp_bind, (ialloc_spec _ _ _ _ _ Him); [lia|done|]. intros V1 st1 I1. rewrite Hlen, dirent_entry.
  set (f := without_bar _). change f with (short a.1).
  replace (1 + Z.of_nat (S (length ins))) with (2 + Z.of_nat (length ins)) by lia.
  apply wp_bind. change ROOTINO with (1 + Z.of_nat 0).
  apply (iappend_spec _ _ _ I1 0 T_DIR (root_bytes ins)); rewrite <-?root_bytes_snoc; [done|done| |].
  { change (<[0%nat := ?x]> (contents ins ++ ?l)) with (x :: (tail ++ l)).
    rewrite total_need_cons, total_need_app, total_need_cons. change (total_need []) with 0. cbn [snd length]. change (need (Z.of_nat 0)) with 0. lia. }
  intros V2 st2 I2. change (<[0%nat := ?x]> (contents ins ++ ?l)) with (x :: (tail ++ l)) in I2.
  replace (2 + Z.of_nat (length ins)) with (1 + Z.of_nat (S (length ins))) by lia.
  assert (∀ r f g, <[S (length ins) := g]> (r :: tail ++ [f]) = r :: tail ++ [g]) as Hins.
  { intros r f' g. simpl. f_equal. rewrite insert_app_r_alt by (by rewrite length_fmap). by rewrite length_fmap, Nat.sub_diag. }
  refine (append_all_spec _ (S (length ins)) T_FILE [] a.2 A3 _ _ _ V2 st2 Q I2 _).
  - simpl. rewrite lookup_app_r by (by rewrite length_fmap). by rewrite length_fmap, Nat.sub_diag.
  - done.
  - rewrite Hins, total_need_cons, total_need_app, total_need_cons. change (total_need []) with 0. cbn [snd app]. lia.
  - intros V3 st3 I3. apply (HQ V3). rewrite contents_snoc. by rewrite Hins in I3.
Qed.
End add_file.

Lemma fits_app ins ins' : fits (ins ++ ins') → fits ins.
Proof.
  intros [H1 H2 H3]. rewrite length_app in H1. unfold contents in *. rewrite fmap_app in H2, H3.
  apply Forall_cons in H2 as [H2 H2']. apply Forall_app in H2' as [H2' _]. rewrite total_need_cons, total_need_app in H3. cbn [snd] in *.
  assert (length (root_bytes ins) ≤ length (root_bytes (ins ++ ins')))%nat as Hl by (rewrite !length_root_bytes, length_app; lia).
  pose proof (need_mono (Z.of_nat (length (root_bytes ins))) (Z.of_nat (length (root_bytes (ins ++ ins')))) ltac:(lia)) as Hm.
  assert (∀ G, 0 ≤ total_need G) as Hpos.
  { induction G as [|g G IH]; [done|]. rewrite total_need_cons. pose proof (need_mono (Z.of_nat (length g.2)) (Z.of_nat (length g.2)) ltac:(lia)). lia. }
  match type of H3 with context [total_need (?f <$> ins')] => specialize (Hpos (f <$> ins')) end.
  split; unfold contents; [lia|constructor; [cbn [snd]; lia|done]|]. rewrite total_need_cons. cbn [snd]. lia.
Qed.

Lemma add_files_spec hst ins V st Q :
  Forall (accepted hst) ins → fits ins → image (contents []) V st →
  (∀ V' st', image (contents ins) V' st' → Q tt st') →
  wp (loop (λ files, match files with
      | f :: files' => add_file hst ROOTINO f;; continue files'
      | [] => break tt end) ins.*1) st Q.
Proof.
  intros Ha Hfit Him HQ.
  apply (wp_loop _ (λ rest st', ∃ V' pre post, image (contents pre) V' st' ∧ ins = pre ++ post ∧ rest = post.*1)
    (λ rest _, Z.of_nat (length rest))); [|by exists V, [], ins|pose proof (ft_inodes _ Hfit); rewrite length_fmap; lia].
  intros rest st1 (V1 & pre & post & I1 & -> & ->). destruct post as [|a post]; simpl.
  - apply wp_ret, (HQ V1). by rewrite app_nil_r.
  - apply Forall_app in Ha as [_ Ha]. apply Forall_cons in Ha as [Ha _]. rewrite (assoc_L (++) pre [a] post : pre ++ a :: post = _) in Hfit.
    apply wp_bind, (add_file_spec hst pre a Ha (fits_app _ _ Hfit) V1 st1); [done|].
    intros V2 st2 I2. apply wp_ret. split; [|rewrite !length_fmap; lia].
    exists V2, (pre ++ [a]), post. split_and!; [done|by rewrite <-(assoc_L (++))|done].
Qed.

(** ** The end of main() *)

(** The size of the root directory, in whole blocks. *)
Definition root_size (ins : inputs) : Z := (Z.of_nat (length (root_bytes ins)) / BSIZE + 1) * BSIZE.

(** The image [W] that main() leaves: [V] with the size of the root directory
    changed, and with the bitmap. *)
Record finished (ins : inputs) (V : view) (st : mkfs) (W : view) (st' : mkfs) : Prop := {
  fn_image : image (contents ins) V st;
  fn_shows : shows W st';
  fn_free : mk_freeblock st' = mk_freeblock st;
  fn_kept : kept the_sb (λ a, a = IBLOCK ROOTINO the_sb) V W;
  fn_root : dinode_of the_sb W ROOTINO = di_inode (with_size (root_size ins) (node the_sb V ROOTINO));
  fn_other : ∀ m, 0 ≤ m < 200 → m ≠ ROOTINO → dinode_of the_sb W m = dinode_of the_sb V m;
}.

Lemma image_root ins V st : image (contents ins) V st → file_is V ROOTINO T_DIR (root_bytes ins).
Proof. intros Him. exact (im_file _ _ _ Him 0%nat _ _ eq_refl). Qed.

Lemma root_size_range ins : Z.of_nat (length (root_bytes ins)) ≤ MAXFILE * BSIZE → 0 ≤ root_size ins < 2 ^ 32.
Proof.
  intros Hl. unfold root_size. change (MAXFILE * BSIZE) with 274432 in Hl. unfold BSIZE.
  pose proof (Z.div_pos (Z.of_nat (length (root_bytes ins))) 1024 ltac:(lia) ltac:(lia)).
  pose proof (Z.div_lt_upper_bound (Z.of_nat (length (root_bytes ins))) 1024 1000 ltac:(lia) ltac:(lia)). lia.
Qed.

Lemma mkfs_end_spec ins V st Q :
  image (contents ins) V st → fits ins → (∀ st', finished ins V st (dget (mk_img st')) st' → Q 0 st') →
  wp (din ← rinode ROOTINO;
      let off := din_size din in
      let off := u32 ((off / BSIZE + 1) * BSIZE) in
      winode ROOTINO (set_din_size off din);;
      fb ← gets mk_freeblock;
      balloc fb;;
      mret 0) st Q.
Proof.
  intros Him Hfit HQ. pose proof Hfit as [_ Hmax _]. apply Forall_cons in Hmax as [Hmax _]. cbn [snd] in Hmax.
  pose proof (root_size_range _ Hmax) as Hsz. pose proof (image_root _ _ _ Him) as [F1 F2 F3 F4]. pose proof (im_shows _ _ _ Him) as Hs.
  apply wp_bind, (rinode_spec V st ROOTINO); [done|apply Him|done|]. intros din Hl Hd. cbv zeta.
  assert (din_is din (node the_sb V ROOTINO)) as Hdin by (split; [done|]; rewrite Hd; by unfold node; rewrite di_filled).
  assert (din_size din = Z.of_nat (length (root_bytes ins))) as -> by (rewrite (din_is_size _ _ Hdin); unfold node; by rewrite F1).
  fold (root_size ins). rewrite (u32_small (root_size ins)) by done.
  apply wp_bind. eapply (winode_spec V st ROOTINO); [done|apply Him|done|apply din_set_size; [exact Hdin|done]|].
  intros d st1 V1 Hs1 [Hf1 Hf2] Hfb Hdi Hoth. apply wp_bind, wp_gets, wp_bind. pose proof (sh_free _ _ Hs1) as Hr. unfold nmeta in Hr.
  unfold balloc. rewrite (proj2 (Z.ltb_lt _ _)) by (unfold BSIZE; lia). simpl negb. cbv iota. apply wp_bind, wp_gets.
  rewrite Hf1, (im_sb _ _ _ Him). apply wp_wsect; [simpl; lia|]. apply wp_ret, HQ.
  fold (bitmap (mk_freeblock st1)). set (st2 := put_sect _ _ _).
  assert (∀ b, dget (mk_img st2) b = V1 b) as HW.
  { intros b. unfold st2, put_sect, dget. simpl. rewrite lookup_insert. case_decide as E; [subst b; by rewrite (sh_bitmap _ _ Hs1)|].
    by rewrite (sh_img _ _ Hs1). }
  assert (∀ m, dinode_of the_sb (dget (mk_img st2)) m = dinode_of the_sb V1 m) as HD by (intros m; unfold dinode_of; by rewrite HW).
  split; [done| |done| |by rewrite HD|intros m Hm Hne; rewrite HD; by apply Hoth].
  - destruct Hs1 as [S1 S2 S3 S4 S5]. split; [by rewrite HW|done| |done|intros b Hb; rewrite HW; by apply S5].
    intros b Hb. unfold st2, put_sect. simpl. rewrite lookup_insert. case_decide; [|by apply S3].
    eexists. split; [done|]. rewrite <-(Z2Nat.id (mk_freeblock st1)) by lia. apply bitmap_spec. unfold BPB, BSIZE. lia.
  - split; [intros c Hc Hu; unfold used; rewrite HW; change (used the_sb V1 c = true)|intros a _ _ _ Ha; rewrite HW; unfold V1; by rewrite vset_ne].
    unfold V1. rewrite used_other; [done|by apply iblock_notbm|done].
Qed.

(** ** main() *)

Lemma main_spec hst prog img ins st Q :
  h_image hst = true → Forall (accepted hst) ins → fits ins → mk_img st = ∅ → mk_freeinode st = 1 →
  (∀ V st1 st', finished ins V st1 (dget (mk_img st')) st' → Q 0 st') → wp (main hst (prog :: img :: ins.*1)) st Q.
Proof.
  intros Hh Ha Hfit He Hi HQ. unfold main. rewrite Hh. simpl negb. cbv iota zeta.
  apply wp_bind, wp_modify, wp_bind, wp_modify, wp_bind, format_spec; [done|]. intros st1 Hz Hsb Hin Hfb.
  change (mk_sb st1 = the_sb) in Hsb. change (mk_freeblock st1 = nmeta) in Hfb.
  apply wp_bind, wp_gets. rewrite Hsb. apply wp_bind, wp_wsect; [lia|].
  destruct (image_start (put_sect 1 (splice 0 (sb_bytes the_sb) zero_block) st1)) as [V0 I0]; [|done|exact (eq_trans Hin Hi)|done|].
  { intros b Hb. unfold put_sect, meta_block. simpl. rewrite lookup_insert. case_decide as E; [by subst b|].
    rewrite (proj2 (Z.eqb_neq b 1)) by done. by apply Hz. }
  apply wp_bind, (ialloc_spec _ _ _ _ _ I0); [simpl; lia|done|]. intros V1 st2 I1. change (1 + Z.of_nat (length [])) with ROOTINO.
  simpl negb. cbv iota. change (iappend ROOTINO) with (iappend (1 + Z.of_nat 0)).
  apply wp_bind, (iappend_spec _ _ _ I1 0 T_DIR []); [done|vm_compute; congruence|vm_compute; congruence|]. intros V2 st3 I2.
  apply wp_bind, (iappend_spec _ _ _ I2 0 T_DIR (dirent ROOTINO [46])); [done|vm_compute; congruence|vm_compute; congruence|]. intros V3 st4 I3.
  assert (image (contents []) V3 st4) as I4.
  { replace (contents []) with [(T_DIR, dirent ROOTINO [46] ++ dirent ROOTINO [46; 46])] by (by vm_compute). exact I3. }
  apply wp_bind, (add_files_spec hst ins V3); [done|done|done|]. intros V4 st5 I5.
  apply (mkfs_end_spec ins V4 st5 Q I5 Hfit). intros st'. apply HQ.
Qed.
