(* ===== verification/MkfsTheorems.v ===== *)
(** * mkfs makes a file system

    The image that main() of mkfs.c writes is a file system as the kernel
    expects it: superblock, empty log, inodes, bitmap, a root directory with an
    entry for every file, and the files with their contents. *)

From stdpp Require Import gmap list strings.
From Stdlib Require Import ZArith Lia.
From S2P Require Import Prelude Mem Params FsData Machine Bio BioSpec LogDisk Fs FsTxn FsAlloc FsInode FsFile FsBmap FsWrite FsDir FsPath.
From S2P Require Import Mkfs MkfsSpec.
#[local] Open Scope Z_scope.

(** ** The entries of the root directory *)

Lemma lookup_concat_len {A} (n : nat) (ls : list (list A)) j k :
  Forall (λ l, length l = n) ls → (k < n)%nat → concat ls !! (n * j + k)%nat = ls !! j ≫= (.!! k).
Proof.
  intros Hl Hk. revert j. induction Hl as [|l ls Hl _ IH]; intros j; [done|]. cbn [concat]. destruct j as [|j].
  - rewrite Nat.mul_0_r, lookup_app_l by lia. done.
  - rewrite lookup_app_r by lia. replace (n * S j + k - length l)%nat with (n * j + k)%nat by lia. apply IH.
Qed.

Lemma dirent_at_concat V x ls j :
  (∀ i, 0 ≤ i < MAXFILE * BSIZE → fbyte V x i = default 0 (concat ls !! Z.to_nat i)) →
  Forall (λ l, length l = 16%nat) ls → Forall bytes ls → 0 ≤ j → DIRENT_SIZE * j + 16 ≤ MAXFILE * BSIZE →
  dirent_at V x (DIRENT_SIZE * j) = default (replicate 16 0) (ls !! Z.to_nat j).
Proof.
  intros Hb Hlen Hby Hj Hmax. unfold DIRENT_SIZE in *. apply list_eq. intros k. unfold dirent_at, fslice. rewrite !list_lookup_fmap.
  assert (∀ e, ls !! Z.to_nat j = Some e → length e = 16%nat ∧ bytes e) as He.
  { intros e Hin. split; [by apply (Forall_lookup_1 _ _ _ _ Hlen Hin)|by apply (Forall_lookup_1 _ _ _ _ Hby Hin)]. }
  destruct (decide (k < 16)%nat) as [Hk|Hk].
  - rewrite lookup_seqZ_lt by (unfold DIRENT_SIZE; lia). cbn [fmap option_fmap option_map]. rewrite Hb by lia.
    replace (Z.to_nat (16 * j + Z.of_nat k)) with (16 * Z.to_nat j + k)%nat by lia.
    rewrite (lookup_concat_len 16) by done. destruct (ls !! Z.to_nat j) as [e|]; cbn [mbind option_bind default from_option id].
    + destruct (He e eq_refl) as [El Eb]. destruct (lookup_lt_is_Some_2 e k ltac:(lia)) as [c Hc]. rewrite Hc. simpl. f_equal.
      apply Z.mod_small, (Forall_lookup_1 _ _ _ _ Eb Hc).
    + by rewrite lookup_replicate_2.
  - rewrite lookup_seqZ_ge by (unfold DIRENT_SIZE; lia). symmetry. apply lookup_ge_None_2.
    destruct (ls !! Z.to_nat j) as [e|]; simpl; [destruct (He e eq_refl)|]; lia.
Qed.

(** The names in the root directory with their inodes. *)
Definition listing (ins : inputs) : list (Z * list Z) :=
  (ROOTINO, [46]) :: (ROOTINO, [46; 46]) :: imap (λ i a, (2 + Z.of_nat i, cstr (Z.to_nat DIRSIZ) (short a.1))) ins.

Lemma without_dir_bytes a : bytes a → bytes (without_dir a).
Proof. intros Ha. unfold without_dir. case_match; [by apply Forall_drop|done]. Qed.

Lemma without_bar_suffix a : without_bar a = a ∨ ∃ c, a = c :: without_bar a.
Proof.
  unfold without_bar. repeat case_match; subst; first [by left|by right; eexists].
Qed.

Lemma bytes_short a : bytes a → bytes (short a).
Proof.
  intros Ha%without_dir_bytes. unfold short. destruct (without_bar_suffix (without_dir a)) as [->|[c E]]; [done|].
  rewrite E in Ha. by apply Forall_cons in Ha as [_ ?].
Qed.

Section root.
Context (hst : host) (ins : inputs) (Hacc : Forall (accepted hst) ins) (Hnames : Forall (λ a, bytes a.1) ins).
Context (V : view) (x : inode) (Hn : Z.of_nat (length ins) ≤ 198).
Context (Hb : ∀ i, 0 ≤ i < MAXFILE * BSIZE → fbyte V x i = default 0 (root_bytes ins !! Z.to_nat i)).

Lemma entries_bytes : Forall bytes (new_entry [46] ROOTINO :: new_entry [46; 46] ROOTINO :: entries ins).
Proof.
  constructor; [apply bytes_new_entry; by repeat constructor|]. constructor; [apply bytes_new_entry; by repeat constructor|].
  apply Forall_lookup. intros i e He. unfold entries in He. rewrite list_lookup_imap in He.
  destruct (ins !! i) as [a|] eqn:Ea; [|done]. injection He as <-.
  apply bytes_new_entry, bytes_short, (Forall_lookup_1 _ _ _ _ Hnames Ea).
Qed.

Lemma entry_at_root j : 0 ≤ j → DIRENT_SIZE * j + 16 ≤ MAXFILE * BSIZE → entry_at V x j = default (0, []) (listing ins !! Z.to_nat j).
Proof.
  intros Hj Hmax. unfold entry_at. rewrite (dirent_at_concat V x _ j Hb (entries_length ins) entries_bytes Hj Hmax).
  assert (∀ nm i, 0 ≤ i < 2 ^ 16 → (de_inum (new_entry nm i), cstr (Z.to_nat DIRSIZ) (de_name (new_entry nm i))) =
    (i, cstr (Z.to_nat DIRSIZ) nm)) as Hd by (intros nm i Hi; by destruct (new_entry_decode nm i Hi) as [-> ->]).
  unfold listing, entries. destruct (Z.to_nat j) as [|[|m]]; [exact (Hd [46] ROOTINO ltac:(done))|exact (Hd [46; 46] ROOTINO ltac:(done))|].
  change ((_ :: _ :: ?l) !! S (S m)) with (l !! m). rewrite !list_lookup_imap.
  destruct (ins !! m) as [a|] eqn:Ea; cbn [fmap option_fmap option_map default from_option id]; [|done].
  apply lookup_lt_Some in Ea. by rewrite Hd by lia.
Qed.

Lemma root_listing : i_size x = root_size ins → root_size ins ≤ MAXFILE * BSIZE →
  entry_at V x <$> seqZ 0 (nentries x) = listing ins ++ replicate (Z.to_nat (root_size ins / DIRENT_SIZE) - length (listing ins)) (0, []).
Proof.
  intros Hsz Hmax. unfold nentries. rewrite Hsz.
  assert (length (listing ins) = (2 + length ins)%nat) as Hl by (unfold listing; simpl; by rewrite length_imap).
  assert (Z.of_nat (2 + length ins) ≤ root_size ins / DIRENT_SIZE ∧ DIRENT_SIZE * (root_size ins / DIRENT_SIZE) ≤ root_size ins) as [Hc Hle].
  { unfold root_size. rewrite length_root_bytes. unfold BSIZE, DIRENT_SIZE. split; [apply Z.div_le_lower_bound; [lia|]|apply Z.mul_div_le; lia].
    pose proof (Z.div_mod (Z.of_nat (16 * (2 + length ins))) 1024 ltac:(lia)). pose proof (Z.mod_pos_bound (Z.of_nat (16 * (2 + length ins))) 1024). lia. }
  apply list_eq. intros k. rewrite list_lookup_fmap. unfold DIRENT_SIZE in *.
  destruct (decide (Z.of_nat k < root_size ins / 16)) as [Hk|Hk].
  - rewrite lookup_seqZ_lt by lia. cbn [fmap option_fmap option_map]. rewrite entry_at_root by (unfold DIRENT_SIZE; lia). rewrite Z.add_0_l, Nat2Z.id.
    destruct (decide (k < length (listing ins))%nat) as [Hin|Hout].
    + rewrite lookup_app_l by done. destruct (lookup_lt_is_Some_2 _ _ Hin) as [e ->]. done.
    + rewrite lookup_ge_None_2, lookup_app_r, lookup_replicate_2 by lia. done.
  - rewrite lookup_seqZ_ge by lia. symmetry. apply lookup_ge_None_2. rewrite length_app, length_replicate. lia.
Qed.
End root.

(** ** The file system *)

(** The files that the image holds: the root directory and the arguments. *)
Definition made_inode (ins : inputs) (n : Z) : Prop := 1 ≤ n < 2 + Z.of_nat (length ins).

(** What the image [W] is, as the kernel reads it. *)
Record made (ins : inputs) (W : view) : Prop := {
  md_sb : sb_decode (W 1) = the_sb;
  md_log : ∀ b, 2 ≤ b < 32 → W b = zero_block;
  md_used : ∀ b, blkno the_sb b → used the_sb W b = (b <? nmeta + total_need (contents ins));
  md_layout : ∀ k, sb (fs k) = the_sb → lg_start (log (fs k)) = sb_logstart the_sb → lg_size (log (fs k)) = sb_nlog the_sb → layout_ok k W;
  md_root : dir_ok W (node the_sb W ROOTINO);
  md_listing : ∃ k, entry_at W (node the_sb W ROOTINO) <$> seqZ 0 (nentries (node the_sb W ROOTINO)) = listing ins ++ replicate k (0, []);
  md_file : ∀ i (a : list Z * hostfile), ins !! i = Some a → let x := node the_sb W (2 + Z.of_nat i) in
    i_type x = T_FILE ∧ i_nlink x = 1 ∧ whole W x ∧ i_size x = Z.of_nat (length (concat a.2)) ∧ fslice W x 0 (i_size x) = concat a.2;
  md_ok : ∀ n, made_inode ins n → file_ok hm the_sb W (node the_sb W n);
  md_apart : ∀ m n b, made_inode ins m → made_inode ins n → m ≠ n → owns W (node the_sb W m) b → ¬ owns W (node the_sb W n) b;
  md_free : ∀ n, 0 ≤ n < 200 → ¬ made_inode ins n → dinode_of the_sb W n = free_inode;
  md_tree : tree the_sb W (made_inode ins);
  md_find : ∀ i (a : list Z * hostfile), ins !! i = Some a →
    (∀ j e, (j < 2 + i)%nat → listing ins !! j = Some e → e.2 ≠ cstr (Z.to_nat DIRSIZ) (short a.1)) →
    dir_find W (node the_sb W ROOTINO) (short a.1) = Some ((2 + i)%nat, (2 + Z.of_nat i, cstr (Z.to_nat DIRSIZ) (short a.1)));
}.

Section made.
Context (hst : host) (ins : inputs) (Hacc : Forall (accepted hst) ins) (Hnames : Forall (λ a, bytes a.1) ins) (Hfit : fits ins).
Context (Hpart : (2 + Z.of_nat (length ins)) mod 64 ≠ 0).
Context (V W : view) (st st' : mkfs) (Hfin : finished ins V st W st').
Abbreviation root := (node the_sb W ROOTINO).
Abbreviation changed := (λ a, a = IBLOCK ROOTINO the_sb).

Lemma made_not_changed i b : (i < length (contents ins))%nat → owns V (node the_sb V (1 + Z.of_nat i)) b → ¬ changed b.
Proof.
  intros Hi Ho ->. pose proof (im_data _ _ _ (fn_image _ _ _ _ _ Hfin) i _ Hi Ho) as Hd. unfold nmeta in Hd.
  destruct (the_iblock ROOTINO ltac:(done)) as [E ?]. lia.
Qed.

Lemma made_other i (a : list Z * hostfile) : ins !! i = Some a →
  file_is W (2 + Z.of_nat i) T_FILE (concat a.2) ∧ node the_sb W (2 + Z.of_nat i) = node the_sb V (2 + Z.of_nat i) ∧
  ∀ b, owns W (node the_sb V (2 + Z.of_nat i)) b ↔ owns V (node the_sb V (2 + Z.of_nat i)) b.
Proof.
  intros Hi. pose proof (fn_image _ _ _ _ _ Hfin) as Him. pose proof (lookup_lt_Some _ _ _ Hi) as Hlt. pose proof (ft_inodes _ Hfit) as Hn.
  assert (contents ins !! S i = Some (T_FILE, concat a.2)) as Hc by exact (eq_trans (list_lookup_fmap _ _ _) (f_equal (fmap (λ a, (T_FILE, concat a.2))) Hi)).
  pose proof (im_file _ _ _ Him _ _ _ Hc) as Hf. replace (1 + Z.of_nat (S i)) with (2 + Z.of_nat i) in Hf by lia.
  apply (file_is_kept V W changed); [done|apply Hfin| |apply (fn_other _ _ _ _ _ Hfin); unfold ROOTINO; lia].
  intros b Hb. apply (made_not_changed (S i)); [by apply lookup_lt_Some in Hc|]. by replace (1 + Z.of_nat (S i)) with (2 + Z.of_nat i) by lia.
Qed.

(** The root directory with its new size. *)
Lemma made_root_node : root = with_size (root_size ins) (node the_sb V ROOTINO).
Proof. apply (node_written V W ROOTINO (node the_sb V ROOTINO)); [done|apply Hfin]. Qed.

Lemma made_root_size : Z.of_nat (length (root_bytes ins)) < root_size ins ≤ MAXFILE * BSIZE ∧
  (∀ bn, bn * BSIZE < root_size ins → bn * BSIZE < Z.of_nat (length (root_bytes ins))).
Proof.
  pose proof (ft_inodes _ Hfit) as Hn. unfold root_size. change (MAXFILE * BSIZE) with 274432. unfold BSIZE.
  rewrite length_root_bytes. pose proof (Z.div_mod (2 + Z.of_nat (length ins)) 64 ltac:(lia)) as Hd.
  pose proof (Z.mod_pos_bound (2 + Z.of_nat (length ins)) 64 ltac:(lia)) as Hm.
  replace (Z.of_nat (16 * (2 + length ins)) / 1024) with ((2 + Z.of_nat (length ins)) / 64).
  2: { symmetry. apply (div_mod_at _ _ _ (16 * ((2 + Z.of_nat (length ins)) mod 64))); lia. }
  split; lia.
Qed.

Lemma made_root_ok : file_ok hm the_sb W root ∧ dir_ok W root ∧
  (∀ i, 0 ≤ i < MAXFILE * BSIZE → fbyte W root i = default 0 (root_bytes ins !! Z.to_nat i)) ∧
  ∀ b, owns W root b ↔ owns V (node the_sb V ROOTINO) b.
Proof.
  pose proof (image_root _ _ _ (fn_image _ _ _ _ _ Hfin)) as [F1 F2 F3 F4]. pose proof made_root_size as [Hsz Hbn].
  assert (∀ b, owns V (node the_sb V ROOTINO) b → ¬ changed b) as Hch.
  { intros b Hb. apply (made_not_changed 0); [simpl; lia|done]. }
  pose proof (fn_kept _ _ _ _ _ Hfin) as Hk. rewrite made_root_node.
  pose proof (kept_file the_sb V W changed _ F2 Hk Hch) as [K1 K2 K3 K4 K5].
  split_and!; [by split| |intros i Hi; rewrite <-F4 by done; apply (kept_fbyte the_sb V W changed _ F2 Hk Hch i Hi)|
    intros b; apply (kept_owns the_sb V W changed _ F2 Hk Hch b)].
  split; [unfold node; by rewrite F1|done| |].
  - split; [simpl; lia|]. intros bn H0 Hlt. rewrite with_size_fmap, (kept_fmap the_sb V W changed _ F2 Hk Hch). simpl in Hlt.
    rewrite (fi_map _ _ _ F3) by (unfold in_file; file_lia). apply Z.lt_nge. by apply Hbn.
  - simpl. unfold root_size. unfold BSIZE, DIRENT_SIZE. replace (_ * 1024) with ((Z.of_nat (length (root_bytes ins)) / 1024 + 1) * 64 * 16) by lia.
    apply Z.mod_mul. lia.
Qed.

Lemma made_cases n : made_inode ins n → n = ROOTINO ∨ ∃ i a, n = 2 + Z.of_nat i ∧ ins !! i = Some a.
Proof.
  unfold made_inode, ROOTINO. intros Hn. destruct (decide (n = 1)); [by left|right].
  destruct (lookup_lt_is_Some_2 ins (Z.to_nat (n - 2)) ltac:(lia)) as [a Ha]. exists (Z.to_nat (n - 2)), a. split; [lia|done].
Qed.

Lemma made_owns n b : made_inode ins n → owns W (node the_sb W n) b ↔ owns V (node the_sb V n) b.
Proof.
  intros [->|(i & a & -> & Hi)]%made_cases; [apply made_root_ok|]. destruct (made_other i a Hi) as (_ & -> & H). apply H.
Qed.

Lemma made_tree_entry name j e : dir_find W root name = Some (j, e) → made_inode ins e.1.
Proof.
  pose proof made_root_ok as (_ & _ & Hb & _). pose proof made_root_size as [Hsz _]. pose proof (ft_inodes _ Hfit) as Hn.
  unfold dir_find. rewrite (root_listing ins Hnames W root Hn Hb); [|by rewrite made_root_node|lia].
  intros (Hj & He & _)%list_find_Some. unfold is_entry in He. apply lookup_app_Some in Hj as [Hj|[_ Hj]].
  - unfold made_inode. unfold listing in Hj. destruct j as [|[|j]]; [injection Hj as <-; simpl; unfold ROOTINO; lia..|].
    change ((_ :: _ :: ?l) !! S (S j)) with (l !! j) in Hj. rewrite list_lookup_imap in Hj.
    destruct (ins !! j) as [a|] eqn:Ha; [|done]. injection Hj as <-. apply lookup_lt_Some in Ha. simpl. lia.
  - apply lookup_replicate in Hj as [-> _]. by simpl in He.
Qed.

Lemma made_meta b : 0 ≤ b < 32 → W b = meta_block b.
Proof.
  intros Hb. pose proof (fn_image _ _ _ _ _ Hfin) as Him. rewrite <-(im_meta _ _ _ Him) by done.
  apply (kept_meta V W st changed); [apply Him|apply Hfin|lia|]. destruct (the_iblock ROOTINO ltac:(done)) as [E ?]. lia.
Qed.

Lemma made_used b : blkno the_sb b → used the_sb W b = (b <? nmeta + total_need (contents ins)).
Proof.
  intros Hb. rewrite (shows_used W st' b (fn_shows _ _ _ _ _ Hfin) Hb), (fn_free _ _ _ _ _ Hfin).
  by rewrite (im_free _ _ _ (fn_image _ _ _ _ _ Hfin)).
Qed.

Lemma made_layout k : sb (fs k) = the_sb → lg_start (log (fs k)) = 2 → lg_size (log (fs k)) = 30 → layout_ok k W.
Proof.
  intros Hs Hl1 Hl2. pose proof (sh_free _ _ (fn_shows _ _ _ _ _ Hfin)) as Hfr. unfold nmeta in Hfr.
  assert (∀ b, 0 ≤ b < nmeta → used the_sb W b = true) as Hu.
  { unfold nmeta. intros b Hb. rewrite (shows_used W st' b (fn_shows _ _ _ _ _ Hfin)); [apply Z.ltb_lt|unfold blkno; simpl]; lia. }
  assert (∀ b, 32 ≤ b < 1000 → fshome k b) as Hh by (intros b Hb; unfold fshome, home; rewrite Hl1, Hl2; lia).
  unfold nmeta in Hu. split; rewrite ?Hs.
  - split; rewrite ?Hs.
    + done.
    + intros b Hb. rewrite the_bblock by done. apply Hh. lia.
    + intros b Hb. rewrite the_bblock by done. split; [done|apply Hu; lia].
    + apply Hu. lia.
    + intros b Hb Hf. apply Hh. rewrite (shows_used W st' b (fn_shows _ _ _ _ _ Hfin) Hb) in Hf. apply Z.ltb_ge in Hf.
      unfold blkno in Hb. simpl in Hb. lia.
  - done.
  - intros i Hi. change (0 ≤ i < 200) in Hi. destruct (the_iblock i Hi) as [E ?]. cbv zeta. rewrite E.
    split_and!; [unfold blkno; simpl; lia|apply Hu; lia|apply Hh; lia|apply the_not_bitmap; lia].
Qed.

Lemma made_file i (a : list Z * hostfile) : ins !! i = Some a → let x := node the_sb W (2 + Z.of_nat i) in
  i_type x = T_FILE ∧ i_nlink x = 1 ∧ whole W x ∧ i_size x = Z.of_nat (length (concat a.2)) ∧ fslice W x 0 (i_size x) = concat a.2.
Proof.
  intros Hi x. destruct (made_other i a Hi) as ([F1 F2 F3 F4] & _ & _). fold x in F1, F2, F3, F4.
  assert (Z.of_nat (length (concat a.2)) ≤ MAXFILE * BSIZE) as Hmax.
  { pose proof (ft_max _ Hfit) as Hm. apply Forall_cons in Hm as [_ Hm]. rewrite Forall_fmap in Hm. by apply (Forall_lookup_1 _ _ _ _ Hm Hi). }
  assert (i_size x = Z.of_nat (length (concat a.2))) as Hsz by (unfold x, node; by rewrite F1).
  split_and!; [unfold x, node; by rewrite F1|unfold x, node; by rewrite F1| |done|].
  - split; [lia|]. intros bn H0 Hlt. rewrite (fi_map _ _ _ F3) by (unfold in_file; file_lia). lia.
  - apply list_eq. intros k. unfold fslice. rewrite list_lookup_fmap, Hsz. destruct (decide (k < length (concat a.2))%nat) as [Hk|Hk].
    + rewrite lookup_seqZ_lt by lia. cbn [fmap option_fmap option_map]. rewrite F4 by lia. rewrite Z.add_0_l, Nat2Z.id.
      by destruct (lookup_lt_is_Some_2 _ _ Hk) as [c ->].
    + rewrite lookup_seqZ_ge by lia. symmetry. apply lookup_ge_None_2. lia.
Qed.

Lemma made_find i (a : list Z * hostfile) : ins !! i = Some a →
  (∀ j e, (j < 2 + i)%nat → listing ins !! j = Some e → e.2 ≠ cstr (Z.to_nat DIRSIZ) (short a.1)) →
  dir_find W root (short a.1) = Some ((2 + i)%nat, (2 + Z.of_nat i, cstr (Z.to_nat DIRSIZ) (short a.1))).
Proof.
  intros Hi Hfresh. pose proof made_root_ok as (_ & _ & Hb & _). pose proof made_root_size as [Hsz _].
  unfold dir_find. rewrite (root_listing ins Hnames W root (ft_inodes _ Hfit) Hb); [|by rewrite made_root_node|lia].
  apply list_find_app_l, list_find_Some. split_and!.
  - change (listing ins !! (2 + i)%nat) with (imap (λ i a, (2 + Z.of_nat i, cstr (Z.to_nat DIRSIZ) (short a.1))) ins !! i).
    by rewrite list_lookup_imap, Hi.
  - unfold is_entry. simpl. rewrite (proj2 (Z.eqb_neq _ 0)) by lia. by rewrite bool_decide_eq_true_2.
  - intros j e He Hj. unfold is_entry. rewrite bool_decide_eq_false_2 by (by eapply Hfresh). rewrite andb_false_r. by intros [].
Qed.

Lemma made_image : made ins W.
Proof.
  pose proof (fn_image _ _ _ _ _ Hfin) as Him. pose proof made_root_ok as (R1 & R2 & R3 & R4). pose proof made_root_size as [Hsz _].
  assert (length (contents ins) = S (length ins)) as Hlen by (unfold contents; simpl; by rewrite length_fmap).
  split; [by rewrite made_meta| |apply made_used|apply made_layout|done| |apply made_file| | | |split|apply made_find].
  - intros b Hb. rewrite made_meta by lia. unfold meta_block. by rewrite (proj2 (Z.eqb_neq b 1)) by lia.
  - eexists. apply (root_listing ins Hnames W root (ft_inodes _ Hfit) R3); [by rewrite made_root_node|lia].
  - intros n [->|(i & a & -> & Hi)]%made_cases; [done|]. by destruct (made_other i a Hi) as ([] & _ & _).
  - intros m n b Hm Hn Hne Ho1 Ho2. rewrite made_owns in Ho1, Ho2 by done. unfold made_inode in Hm, Hn.
    apply (im_apart _ _ _ Him (Z.to_nat (m - 1)) (Z.to_nat (n - 1)) b); [lia|lia|lia| |].
    + by replace (1 + Z.of_nat (Z.to_nat (m - 1))) with m by lia.
    + by replace (1 + Z.of_nat (Z.to_nat (n - 1))) with n by lia.
  - unfold made_inode. intros n Hr Hn. rewrite (fn_other _ _ _ _ _ Hfin) by (unfold ROOTINO; lia). apply (im_unused _ _ _ Him). lia.
  - intros n [->|(i & a & -> & Hi)]%made_cases; [by rewrite (do_type _ _ R2)|by destruct (made_file i a Hi) as (-> & _)].
  - intros n [->|(i & a & -> & Hi)]%made_cases; [|by destruct (made_file i a Hi) as (_ & -> & _)].
    rewrite made_root_node. pose proof (ff_inode _ _ _ _ (image_root _ _ _ Him)) as F1. unfold node. by rewrite F1.
  - intros n [->|(i & a & -> & Hi)]%made_cases Ht; [done|]. by destruct (made_file i a Hi) as (Ht' & _); rewrite Ht' in Ht.
  - intros n name j e [->|(i & a & -> & Hi)]%made_cases Ht; [apply made_tree_entry|].
    by destruct (made_file i a Hi) as (Ht' & _); rewrite Ht' in Ht.
Qed.
End made.

(** C21. mkfs on files that fit (names without a slash, at most 198 of them, none
    larger than a file can be, room for all of them, the root directory not
    ending with a block) exits with status 0 and leaves the image of a file
    system as the kernel needs it: the superblock, an empty log, the bitmap of
    the blocks in use, the root directory with ".", ".." and one entry for every
    file, every file with the contents it has on the host, no block in two
    files, all other inodes free, and every name found by a directory lookup. *)
Theorem mkfs_correct hst prog img ins s0 :
  h_image hst = true → Forall (accepted hst) ins → Forall (λ a, bytes a.1) ins → fits ins →
  (2 + Z.of_nat (length ins)) mod 64 ≠ 0 →
  wp (main hst (prog :: img :: ins.*1)) (mkMkfs ∅ s0 1 0) (λ v st', v = 0 ∧ made ins (dget (mk_img st'))).
Proof.
  intros Hh Ha Hn Hf Hp. apply (main_spec hst prog img ins); [done|done|done|done|done|].
  intros V st1 st' Hfin. split; [done|]. by apply (made_image ins Hn Hf Hp V _ st1 st').
Qed.

(** When the entries of the root directory end with a block, its new size covers
    a block that it does not have. *)
Lemma mkfs_root_hole hst prog img ins s0 :
  h_image hst = true → Forall (accepted hst) ins → fits ins → (2 + Z.of_nat (length ins)) mod 64 = 0 →
  wp (main hst (prog :: img :: ins.*1)) (mkMkfs ∅ s0 1 0) (λ v st', v = 0 ∧ ¬ whole (dget (mk_img st')) (node the_sb (dget (mk_img st')) ROOTINO)).
Proof.
  intros Hh Ha Hf Hp. apply (main_spec hst prog img ins); [done|done|done|done|done|].
  intros V st1 st' Hfin. split; [done|]. set (W := dget (mk_img st')) in *. intros [_ Hmap].
  pose proof (image_root _ _ _ (fn_image _ _ _ _ _ Hfin)) as [_ F2 F3 _].
  rewrite (made_root_node ins V W st1 st' Hfin) in Hmap. set (bn := (2 + Z.of_nat (length ins)) / 64).
  pose proof (Z.div_mod (2 + Z.of_nat (length ins)) 64 ltac:(lia)) as Hd. rewrite Hp in Hd. fold bn in Hd.
  pose proof (ft_inodes _ Hf) as Hn. assert (Z.of_nat (length (root_bytes ins)) = bn * 1024) as Hl by (rewrite length_root_bytes; lia).
  apply (Hmap bn); [lia| |].
  - simpl. unfold root_size. rewrite Hl. unfold BSIZE. rewrite Z.div_mul; lia.
  - rewrite with_size_fmap, (kept_fmap the_sb V W _ _ F2 (fn_kept _ _ _ _ _ Hfin)).
    + apply (fi_map _ _ _ F3); [file_lia|]. rewrite Hl. unfold BSIZE. lia.
    + intros b Hb. apply (made_not_changed ins V W st1 st' Hfin 0); [simpl; lia|done].
Qed.

(** "user/_ls" with six bytes in two reads, and "README". *)
Definition demo_ins : inputs :=
  [([117; 115; 101; 114; 47; 95; 108; 115], [[1; 2; 3; 4]; [5; 6]]); ([82; 69; 65; 68; 77; 69], [[72; 105]])].
Definition demo_host : host := mkHost true (λ nm, (λ f, f.2.2) <$> list_find (λ a, a.1 = nm) demo_ins).

Lemma mkfs_correct_witness :
  ∃ st', demo_ins.*1 ≠ [] ∧ wp (main demo_host ([] :: [] :: demo_ins.*1)) (mkMkfs ∅ st' 1 0)
    (λ v st', v = 0 ∧ made demo_ins (dget (mk_img st'))).
Proof.
  exists the_sb. split; [done|]. apply (mkfs_correct demo_host [] [] demo_ins the_sb); [done| | | |done].
  - apply Forall_cons_2; [|apply Forall_cons_2; [|done]].
    + split; [reflexivity|by apply (bool_decide_unpack _)|by repeat constructor].
    + split; [reflexivity|by apply (bool_decide_unpack _)|by repeat constructor].
  - by apply (bool_decide_unpack _).
  - by split; [|by apply (bool_decide_unpack _)|vm_compute].
Defined.
