(* ===== verification/Pipe.v ===== *)
(** * Pipes (kernel/pipe.c)

    Definitions of pipe.c over the kernel state.  A pipe occupies a page that
    kalloc() gave; it is known by the address of that page.  pipealloc(), which
    needs the file table, is in [File]. *)

From stdpp Require Import gmap list strings.
From Stdlib Require Import ZArith Lia.
From S2P Require Import Prelude Mem Params FsData Machine Spinlock Sched Sleeplock Kalloc Vm.
#[local] Open Scope Z_scope.

(** What kalloc() leaves in a page. *)
Definition pipe0 : pipe := mkPipe (replicate (Z.to_nat PIPESIZE) 5) 0 0 0 0.
Definition pipe_of (f : fsys) (pi : Z) : pipe := default pipe0 (pipes f !! pi).
Definition get_pipe {A} (pi : Z) (g : pipe → A) : K A := get_fs (λ f, g (pipe_of f pi)).
Definition set_pipe (pi : Z) (g : pipe → pipe) : K unit :=
  set_fs (λ f, upd_pipes <[pi := g (pipe_of f pi)]> f).

Section pipe_defs.
Context `{OTH : Others, LNK : !Linker, KOB : !Kobj}.

Definition pipeclose (pi writable : Z) : K unit :=
  acquire (LK_pipe pi);;
  (if nz writable then
     set_pipe pi (upd_pi_writeopen (λ _, 0));;
     wakeup (Some (Ch_nread pi))
   else
     set_pipe pi (upd_pi_readopen (λ _, 0));;
     wakeup (Some (Ch_nwrite pi)));;
  r ← get_pipe pi pi_readopen;
  w ← get_pipe pi pi_writeopen;
  if (r =? 0) && (w =? 0) then
    release (LK_pipe pi);;
    set_fs (upd_pipes (delete pi));;
    kfree pi
  else release (LK_pipe pi).

(** [pi->data[pi->nwrite++ % PIPESIZE] = ch] *)
Definition pipe_put (pi ch : Z) : K unit :=
  set_pipe pi (λ p, upd_pi_nwrite (λ w, u32 (w + 1))
    (upd_pi_data <[Z.to_nat (pi_nwrite p mod PIPESIZE) := ch]> p)).
(** [ch = pi->data[pi->nread++ % PIPESIZE]] *)
Definition pipe_get (pi : Z) : K Z :=
  ch ← get_pipe pi (λ p, default 0 (pi_data p !! Z.to_nat (pi_nread p mod PIPESIZE)));
  set_pipe pi (upd_pi_nread (λ r, u32 (r + 1)));;
  mret ch.

(** The loop of pipewrite(): [None] when it returns -1 at once. *)
Definition pipewrite_loop (pr : nat) (pi addr n : Z) : K (option Z) :=
  loop (λ i,
    if i <? n then
      ro ← get_pipe pi pi_readopen;
      killed ← get_proc pr p_killed;
      if (ro =? 0) || nz killed then release (LK_pipe pi);; break None else
      nw ← get_pipe pi pi_nwrite;
      nr ← get_pipe pi pi_nread;
      if nw =? u32 (nr + PIPESIZE) then
        wakeup (Some (Ch_nread pi));;
        sleep (Ch_nwrite pi) (LK_pipe pi);;
        continue i
      else
        pt ← get_proc pr p_pagetable;
        r ← copyin pt kloc (u64 (addr + i)) 1;
        if r =? -1 then break (Some i) else
        ch ← gets (λ k, ldb (ram k) kloc);
        pipe_put pi ch;;
        continue (i + 1)
    else break (Some i)) 0.

Definition pipewrite (pi addr n : Z) : K Z :=
  pr ← curproc;
  acquire (LK_pipe pi);;
  r ← pipewrite_loop pr pi addr n;
  match r with
  | None => mret (-1)
  | Some i => wakeup (Some (Ch_nread pi));; release (LK_pipe pi);; mret i
  end.

(** The first loop of piperead(): wait for data; [false] when killed. *)
Definition piperead_wait (pr : nat) (pi : Z) : K bool :=
  loop (λ _,
    nr ← get_pipe pi pi_nread;
    nw ← get_pipe pi pi_nwrite;
    wo ← get_pipe pi pi_writeopen;
    if (nr =? nw) && nz wo then
      killed ← get_proc pr p_killed;
      if nz killed then release (LK_pipe pi);; break false else
      sleep (Ch_nread pi) (LK_pipe pi);;
      continue tt
    else break true) tt.

(** The second loop: copy what there is. *)
Definition piperead_copy (pr : nat) (pi addr n : Z) : K Z :=
  loop (λ i,
    if i <? n then
      nr ← get_pipe pi pi_nread;
      nw ← get_pipe pi pi_nwrite;
      if nr =? nw then break i else
      ch ← pipe_get pi;
      pt ← get_proc pr p_pagetable;
      put_bytes kloc [ch];;
      r ← copyout pt (u64 (addr + i)) kloc 1;
      if r =? -1 then break i else continue (i + 1)
    else break i) 0.

Definition piperead (pi addr n : Z) : K Z :=
  pr ← curproc;
  acquire (LK_pipe pi);;
  ok ← piperead_wait pr pi;
  if negb ok then mret (-1) else
  i ← piperead_copy pr pi addr n;
  wakeup (Some (Ch_nwrite pi));;
  release (LK_pipe pi);;
  mret i.
End pipe_defs.
