(* ===== verification/File.v ===== *)
(** * The file table (kernel/file.c) and pipealloc() (kernel/pipe.c)

    A [struct file] pointer is an index into [ftable.file].  The switch table
    of device drivers and the console output are an interface here. *)

From stdpp Require Import gmap list strings.
From Stdlib Require Import ZArith Lia.
From S2P Require Import Prelude Mem Params FsData Machine Spinlock Sched Sleeplock Bio Log Kalloc.
From S2P Require Import Vm Fs Pipe.
#[local] Open Scope Z_scope.

(** The device drivers, as the code above them calls them: [devsw] (a missing
    entry is a null pointer), the interrupt handlers and the PLIC, and printf()
    to the console. *)
Class Devices := {
  devsw_read : Z → option (Z → Z → Z → K Z);
  devsw_write : Z → option (Z → Z → Z → K Z);
  plic_claim : K Z;
  plic_complete : Z → K unit;
  uartintr : K unit;
  virtio_disk_intr : K unit;
  printf : string → list Z → K unit;
}.

Definition file_of (f : fsys) (i : nat) : file := default file0 (ftable f !! i).
Definition get_file {A} (i : nat) (g : file → A) : K A := get_fs (λ f, g (file_of f i)).
Definition set_file (i : nat) (g : file → file) : K unit := set_fs (upd_ftable (alter g i)).

(** A pointer that the code dereferences. *)
Definition deref {A} (p : option A) : K A :=
  match p with Some x => mret x | None => null_deref end.

Definition fileinit : K unit := initlock LK_ftable "ftable".

Definition filealloc : K (option nat) :=
  acquire LK_ftable;;
  r ← loop (λ f,
    if Z.of_nat f <? NFILE then
      ref ← get_file f f_ref;
      if ref =? 0 then set_file f (upd_f_ref (λ _, 1));; break (Some f)
      else continue (S f)
    else break None) 0%nat;
  release LK_ftable;;
  mret r.

Definition filedup (f : nat) : K nat :=
  acquire LK_ftable;;
  ref ← get_file f f_ref;
  if ref <? 1 then panic "filedup" else
  set_file f (upd_f_ref (λ r, r + 1));;
  release LK_ftable;;
  mret f.

Section file_defs.
Context `{OTH : Others, LNK : !Linker, KOB : !Kobj}.

Definition fileclose (f : nat) : K unit :=
  acquire LK_ftable;;
  ref ← get_file f f_ref;
  if ref <? 1 then panic "fileclose" else
  set_file f (upd_f_ref (λ r, r - 1));;
  ref ← get_file f f_ref;
  if 0 <? ref then release LK_ftable else
  ff ← get_file f id;
  set_file f (upd_f_ref (λ _, 0));;
  set_file f (upd_f_type (λ _, FD_NONE));;
  release LK_ftable;;
  match f_type ff with
  | FD_PIPE => pipeclose (f_pipe ff) (f_writable ff)
  | FD_INODE | FD_DEVICE =>
      begin_op;;
      ip ← deref (f_ip ff);
      iput ip;;
      end_op
  | FD_NONE => mret tt
  end.

(** The code at [bad:] of pipealloc(); [pi] is zero there. *)
Definition pipealloc_bad (f0 f1 : option nat) : K (Z * option nat * option nat) :=
  match f0 with Some f => fileclose f | None => mret tt end;;
  match f1 with Some f => fileclose f | None => mret tt end;;
  mret (-1, f0, f1).

(** The result, *f0 and *f1. *)
Definition pipealloc : K (Z * option nat * option nat) :=
  f0 ← filealloc;
  match f0 with
  | None => pipealloc_bad None None
  | Some r =>
  f1 ← filealloc;
  match f1 with
  | None => pipealloc_bad f0 None
  | Some w =>
  pi ← kalloc;
  if pi =? 0 then pipealloc_bad f0 f1 else
  set_fs (upd_pipes <[pi := pipe0]>);;
  set_pipe pi (upd_pi_readopen (λ _, 1));;
  set_pipe pi (upd_pi_writeopen (λ _, 1));;
  set_pipe pi (upd_pi_nwrite (λ _, 0));;
  set_pipe pi (upd_pi_nread (λ _, 0));;
  initlock (LK_pipe pi) "pipe";;
  set_file r (λ f, upd_f_pipe (λ _, pi) (upd_f_writable (λ _, 0) (upd_f_readable (λ _, 1)
    (upd_f_type (λ _, FD_PIPE) f))));;
  set_file w (λ f, upd_f_pipe (λ _, pi) (upd_f_writable (λ _, 1) (upd_f_readable (λ _, 0)
    (upd_f_type (λ _, FD_PIPE) f))));;
  mret (0, f0, f1)
  end end.

Definition filestat (f : nat) (addr : Z) : K Z :=
  p ← myproc;
  type ← get_file f f_type;
  match type with
  | FD_INODE | FD_DEVICE =>
      ip ← get_file f f_ip;
      ilock ip;;
      ip ← deref ip;
      st ← stati ip;
      iunlock (Some ip);;
      p ← deref p;
      pt ← get_proc p p_pagetable;
      put_bytes kloc st;;
      r ← copyout pt addr kloc (Z.of_nat (length st));
      mret (if r <? 0 then -1 else 0)
  | _ => mret (-1)
  end.

Context `{DEV : !Devices}.

Definition fileread (f : nat) (addr n : Z) : K Z :=
  readable ← get_file f f_readable;
  if readable =? 0 then mret (-1) else
  type ← get_file f f_type;
  match type with
  | FD_PIPE => pi ← get_file f f_pipe; piperead pi addr n
  | FD_DEVICE =>
      major ← get_file f f_major;
      if (major <? 0) || (NDEV <=? major) then mret (-1) else
      match devsw_read major with
      | None => mret (-1)
      | Some read => read 1 addr n
      end
  | FD_INODE =>
      ip ← get_file f f_ip;
      ilock ip;;
      ip ← deref ip;
      off ← get_file f f_off;
      r ← readi ip 1 addr off (u32 n);
      when (0 <? r) (set_file f (upd_f_off (λ o, u32 (o + r))));;
      iunlock (Some ip);;
      mret r
  | FD_NONE => panic "fileread"
  end.

(** The loop of filewrite() over chunks that fit a transaction: how much was
    written. *)
Definition filewrite_loop (f : nat) (addr n : Z) : K Z :=
  let max := ((MAXOPBLOCKS - 1 - 1 - 2) / 2) * BSIZE in
  loop (λ i,
    if i <? n then
      let n1 := if max <? n - i then max else n - i in
      begin_op;;
      ip ← get_file f f_ip;
      ilock ip;;
      ip ← deref ip;
      off ← get_file f f_off;
      r ← writei ip 1 (u64 (addr + i)) off (u32 n1);
      when (0 <? r) (set_file f (upd_f_off (λ o, u32 (o + r))));;
      iunlock (Some ip);;
      end_op;;
      if negb (r =? n1) then break i else continue (i + r)
    else break i) 0.

Definition filewrite (f : nat) (addr n : Z) : K Z :=
  writable ← get_file f f_writable;
  if writable =? 0 then mret (-1) else
  type ← get_file f f_type;
  match type with
  | FD_PIPE => pi ← get_file f f_pipe; pipewrite pi addr n
  | FD_DEVICE =>
      major ← get_file f f_major;
      if (major <? 0) || (NDEV <=? major) then mret (-1) else
      match devsw_write major with
      | None => mret (-1)
      | Some write => write 1 addr n
      end
  | FD_INODE =>
      i ← filewrite_loop f addr n;
      mret (if i =? n then n else -1)
  | FD_NONE => panic "filewrite"
  end.
End file_defs.
