(* ===== verification/Proc.v ===== *)
(** * Processes (kernel/proc.c)

    The life of a process: allocation, fork(), exit(), wait(), kill() and the
    scheduler.  A [struct proc] pointer is an index into the table [proc].
    Sleeping and waking are in [Sched], the copies between user and kernel in
    [Vm]. *)

From stdpp Require Import gmap list strings.
From Stdlib Require Import ZArith Lia.
From S2P Require Import Prelude Mem Str Params FsData Machine Spinlock Sched Sleeplock Bio Log.
From S2P Require Import Kalloc Vm Fs Pipe File.
#[local] Open Scope Z_scope.

(** ** struct trapframe: offsets in the trapframe page *)

Definition TF_kernel_satp := 0.
Definition TF_kernel_sp := 8.
Definition TF_kernel_trap := 16.
Definition TF_epc := 24.
Definition TF_kernel_hartid := 32.
Definition TF_sp := 48.
Definition TF_a0 := 112.
Definition TF_a1 := 120.
Definition TF_a2 := 128.
Definition TF_a3 := 136.
Definition TF_a4 := 144.
Definition TF_a5 := 152.
Definition TF_a7 := 168.
Definition TRAPFRAME_SIZE := 288.

(** p->trapframe->x *)
Definition get_tf (p : nat) (x : Z) : K Z := tf ← get_proc p p_trapframe; load64 (tf + x).
Definition set_tf (p : nat) (x v : Z) : K unit := tf ← get_proc p p_trapframe; store64 (tf + x) v.

(** Code the trap path jumps to, by the addresses the linker gave it. *)
Class Text := {
  forkret_addr : Z;
  usertrap_addr : Z;
  kernelvec_addr : Z;
  uservec_addr : Z;
  userret_addr : Z;
}.

(** safestrcpy() on the bytes of an array and of a string. *)
Fixpoint safestrcpy_loop_l (n : nat) (s t : list Z) : list Z :=
  match n with
  | O => 0 :: tail s
  | S n' =>
      let c := default 0 (head t) in
      if nz c then c :: safestrcpy_loop_l n' (tail s) (tail t) else c :: 0 :: drop 2 s
  end.
Definition safestrcpy_l (s t : list Z) (n : Z) : list Z :=
  if n <=? 0 then s else safestrcpy_loop_l (Z.to_nat (n - 1)) s t.

Definition PNAME_SIZE := 16.

(** ** Allocation *)

Definition procinit : K unit :=
  initlock LK_pid "nextpid";;
  initlock LK_wait "wait_lock";;
  loop (λ p,
    if Z.of_nat p <? NPROC then
      initlock (LK_proc p) "proc";;
      set_proc p (upd_p_kstack (λ _, KSTACK (Z.of_nat p)));;
      continue (S p)
    else break tt) 0%nat.

Definition allocpid : K Z :=
  acquire LK_pid;;
  pid ← gets nextpid;
  modify (upd_nextpid (λ n, s32 (n + 1)));;
  release LK_pid;;
  mret pid.

Section alloc_defs.
Context `{LNK : !Linker}.

Definition proc_pagetable (p : nat) : K Z :=
  pagetable ← uvmcreate;
  if pagetable =? 0 then mret 0 else
  r ← mappages pagetable TRAMPOLINE PGSIZE trampoline (Z.lor PTE_R PTE_X);
  if r <? 0 then uvmfree pagetable 0;; mret 0 else
  tf ← get_proc p p_trapframe;
  r ← mappages pagetable TRAPFRAME PGSIZE tf (Z.lor PTE_R PTE_W);
  if r <? 0 then uvmunmap pagetable TRAMPOLINE 1 false;; uvmfree pagetable 0;; mret 0 else
  mret pagetable.

Definition proc_freepagetable (pagetable sz : Z) : K unit :=
  uvmunmap pagetable TRAMPOLINE 1 false;;
  uvmunmap pagetable TRAPFRAME 1 false;;
  uvmfree pagetable sz.

Definition freeproc (p : nat) : K unit :=
  tf ← get_proc p p_trapframe;
  when (nz tf) (kfree tf);;
  set_proc p (upd_p_trapframe (λ _, 0));;
  pt ← get_proc p p_pagetable;
  when (nz pt) (sz ← get_proc p p_sz; proc_freepagetable pt sz);;
  set_proc p (upd_p_pagetable (λ _, 0));;
  set_proc p (upd_p_sz (λ _, 0));;
  set_proc p (upd_p_pid (λ _, 0));;
  set_proc p (upd_p_parent (λ _, None));;
  set_proc p (upd_p_name <[0%nat := 0]>);;
  set_proc p (upd_p_chan (λ _, None));;
  set_proc p (upd_p_killed (λ _, 0));;
  set_proc p (upd_p_xstate (λ _, 0));;
  set_proc p (upd_p_state (λ _, UNUSED)).

(** The loop of allocproc(): an unused slot, with its lock held. *)
Definition allocproc_slot : K (option nat) :=
  loop (λ p,
    if Z.of_nat p <? NPROC then
      acquire (LK_proc p);;
      st ← get_proc p p_state;
      if bool_decide (st = UNUSED) then break (Some p)
      else release (LK_proc p);; continue (S p)
    else break None) 0%nat.

Context `{TXT : !Text}.

Definition allocproc : K (option nat) :=
  p ← allocproc_slot;
  match p with
  | None => mret None
  | Some p =>
      pid ← allocpid;
      set_proc p (upd_p_pid (λ _, pid));;
      set_proc p (upd_p_state (λ _, USED));;
      tf ← kalloc;
      set_proc p (upd_p_trapframe (λ _, tf));;
      if tf =? 0 then freeproc p;; release (LK_proc p);; mret None else
      pt ← proc_pagetable p;
      set_proc p (upd_p_pagetable (λ _, pt));;
      if pt =? 0 then freeproc p;; release (LK_proc p);; mret None else
      kstack ← get_proc p p_kstack;
      set_proc p (upd_p_context (λ _, mkContext 0 0 (replicate 12 0)));;
      set_proc p (upd_p_context (λ c, mkContext forkret_addr (ctx_sp c) (ctx_s c)));;
      set_proc p (upd_p_context (λ c, mkContext (ctx_ra c) (u64 (kstack + PGSIZE)) (ctx_s c)));;
      mret (Some p)
  end.
End alloc_defs.

(** ** The first process *)

Definition initcode : list Z :=
  [0x17; 0x05; 0x00; 0x00; 0x13; 0x05; 0x45; 0x02;
   0x97; 0x05; 0x00; 0x00; 0x93; 0x85; 0x35; 0x02;
   0x93; 0x08; 0x70; 0x00; 0x73; 0x00; 0x00; 0x00;
   0x93; 0x08; 0x20; 0x00; 0x73; 0x00; 0x00; 0x00;
   0xef; 0xf0; 0x9f; 0xff; 0x2f; 0x69; 0x6e; 0x69;
   0x74; 0x00; 0x00; 0x24; 0x00; 0x00; 0x00; 0x00;
   0x00; 0x00; 0x00; 0x00].

(** The characters "initcode". *)
Definition initcode_name : list Z := [105; 110; 105; 116; 99; 111; 100; 101].

Section proc_defs.
Context `{OTH : Others, LNK : !Linker, KOB : !Kobj, TXT : !Text}.

Definition userinit : K unit :=
  p ← allocproc;
  modify (upd_initproc (λ _, p));;
  p ← deref p;
  pt ← get_proc p p_pagetable;
  put_bytes kloc initcode;;
  uvminit pt kloc (Z.of_nat (length initcode));;
  set_proc p (upd_p_sz (λ _, PGSIZE));;
  set_tf p TF_epc 0;;
  set_tf p TF_sp PGSIZE;;
  set_proc p (upd_p_name (λ s, safestrcpy_l s initcode_name PNAME_SIZE));;
  cwd ← namei [SLASH];
  set_proc p (upd_p_cwd (λ _, cwd));;
  set_proc p (upd_p_state (λ _, RUNNABLE));;
  release (LK_proc p).

Definition growproc (n : Z) : K Z :=
  p ← curproc;
  sz0 ← get_proc p p_sz;
  let sz := u32 sz0 in
  pt ← get_proc p p_pagetable;
  if 0 <? n then
    sz ← uvmalloc pt sz (u32 (sz + n));
    let sz := u32 sz in
    if sz =? 0 then mret (-1) else
    set_proc p (upd_p_sz (λ _, sz));; mret 0
  else if n <? 0 then
    sz ← uvmdealloc pt sz (u32 (sz + n));
    set_proc p (upd_p_sz (λ _, u32 sz));; mret 0
  else set_proc p (upd_p_sz (λ _, sz));; mret 0.

(** ** fork() *)

(** np->ofile[i] = filedup(p->ofile[i]), for the open files. *)
Definition fork_files (p np : nat) : K unit :=
  loop (λ i,
    if Z.of_nat i <? NOFILE then
      f ← get_proc p (λ x, mjoin (p_ofile x !! i));
      match f with
      | Some f => f' ← filedup f; set_proc np (upd_p_ofile <[i := Some f']>)
      | None => mret tt
      end;;
      continue (S i)
    else break tt) 0%nat.

Definition fork : K Z :=
  p ← curproc;
  np ← allocproc;
  match np with
  | None => mret (-1)
  | Some np =>
      pt ← get_proc p p_pagetable;
      npt ← get_proc np p_pagetable;
      sz ← get_proc p p_sz;
      r ← uvmcopy pt npt sz;
      if r <? 0 then freeproc np;; release (LK_proc np);; mret (-1) else
      set_proc np (upd_p_sz (λ _, sz));;
      tf ← get_proc p p_trapframe;
      ntf ← get_proc np p_trapframe;
      do_memmove ntf tf TRAPFRAME_SIZE;;
      set_tf np TF_a0 0;;
      fork_files p np;;
      cwd ← get_proc p p_cwd;
      cwd ← deref cwd;
      cwd ← idup cwd;
      set_proc np (upd_p_cwd (λ _, Some cwd));;
      name ← get_proc p p_name;
      set_proc np (upd_p_name (λ s, safestrcpy_l s name PNAME_SIZE));;
      pid ← get_proc np p_pid;
      release (LK_proc np);;
      acquire LK_wait;;
      set_proc np (upd_p_parent (λ _, Some p));;
      release LK_wait;;
      acquire (LK_proc np);;
      set_proc np (upd_p_state (λ _, RUNNABLE));;
      release (LK_proc np);;
      mret pid
  end.

(** ** exit() *)

Definition reparent (p : nat) : K unit :=
  loop (λ pp,
    if Z.of_nat pp <? NPROC then
      par ← get_proc pp p_parent;
      when (bool_decide (par = Some p)) (
        init ← gets initproc;
        set_proc pp (upd_p_parent (λ _, init));;
        wakeup (Ch_proc <$> init));;
      continue (S pp)
    else break tt) 0%nat.

Definition exit_files (p : nat) : K unit :=
  loop (λ fd,
    if Z.of_nat fd <? NOFILE then
      f ← get_proc p (λ x, mjoin (p_ofile x !! fd));
      match f with
      | Some f => fileclose f;; set_proc p (upd_p_ofile <[fd := None]>)
      | None => mret tt
      end;;
      continue (S fd)
    else break tt) 0%nat.

(** exit() up to the call of sched(). *)
Definition exit_prepare (p : nat) (status : Z) : K unit :=
  exit_files p;;
  begin_op;;
  cwd ← get_proc p p_cwd;
  cwd ← deref cwd;
  iput cwd;;
  end_op;;
  set_proc p (upd_p_cwd (λ _, None));;
  acquire LK_wait;;
  reparent p;;
  par ← get_proc p p_parent;
  wakeup (Ch_proc <$> par);;
  acquire (LK_proc p);;
  set_proc p (upd_p_xstate (λ _, status));;
  set_proc p (upd_p_state (λ _, ZOMBIE));;
  release LK_wait.

Definition exit (status : Z) : K unit :=
  p ← myproc;
  init ← gets initproc;
  if bool_decide (p = init) then panic "init exiting" else
  p ← deref p;
  exit_prepare p status;;
  sched;;
  panic "zombie exit".

(** ** wait() *)

(** The scan of wait() over the table: it ends with the return value, or with
    [havekids]. *)
Definition wait_scan (p : nat) (addr : Z) : K (Z + bool) :=
  loop (λ '(np, havekids),
    if Z.of_nat np <? NPROC then
      par ← get_proc np p_parent;
      if bool_decide (par = Some p) then
        acquire (LK_proc np);;
        st ← get_proc np p_state;
        if bool_decide (st = ZOMBIE) then
          pid ← get_proc np p_pid;
          x ← get_proc np p_xstate;
          pt ← get_proc p p_pagetable;
          r ← (if nz addr then put_bytes kloc (le_bytes 4 x);; copyout pt addr kloc 4
               else mret 0);
          if r <? 0 then
            release (LK_proc np);; release LK_wait;; break (inl (-1))
          else
            freeproc np;; release (LK_proc np);; release LK_wait;; break (inl pid)
        else release (LK_proc np);; continue (S np, true)
      else continue (S np, havekids)
    else break (inr havekids)) (0%nat, false).

Definition wait (addr : Z) : K Z :=
  p ← curproc;
  acquire LK_wait;;
  loop (λ _,
    r ← wait_scan p addr;
    match r with
    | inl v => break v
    | inr havekids =>
        killed ← get_proc p p_killed;
        if negb havekids || nz killed then release LK_wait;; break (-1) else
        sleep (Ch_proc p) LK_wait;;
        continue tt
    end) tt.

(** ** The scheduler and kill() *)

(** One pass of scheduler() over the table.  [others] is the run of the chosen
    process, until it gives the hart back. *)
Definition scheduler_pass : K unit :=
  loop (λ p,
    if Z.of_nat p <? NPROC then
      acquire (LK_proc p);;
      st ← get_proc p p_state;
      when (bool_decide (st = RUNNABLE)) (
        set_proc p (upd_p_state (λ _, RUNNING));;
        on_hs (set_cpu (upd_cproc (λ _, Some p)));;
        others;;
        on_hs (set_cpu (upd_cproc (λ _, None))));;
      release (LK_proc p);;
      continue (S p)
    else break tt) 0%nat.

Definition scheduler : K unit :=
  on_hs (set_cpu (upd_cproc (λ _, None)));;
  loop (λ _, on_hs intr_on;; scheduler_pass;; continue tt) tt.

Definition kill (pid : Z) : K Z :=
  loop (λ p,
    if Z.of_nat p <? NPROC then
      acquire (LK_proc p);;
      pid' ← get_proc p p_pid;
      if pid' =? pid then
        set_proc p (upd_p_killed (λ _, 1));;
        st ← get_proc p p_state;
        when (bool_decide (st = SLEEPING)) (set_proc p (upd_p_state (λ _, RUNNABLE)));;
        release (LK_proc p);;
        break 0
      else release (LK_proc p);; continue (S p)
    else break (-1)) 0%nat.
End proc_defs.
