(* ===== verification/Syscall.v ===== *)
(** * System calls: arguments and process calls (kernel/syscall.c, kernel/sysproc.c)

    The kernel takes system-call arguments from the trapframe of the current
    process.  A string argument is the bytes up to the NUL; it is copied to the
    local array whose address is [kloc].  The table of handlers and syscall()
    itself are in [SysFile], after the file calls. *)

From stdpp Require Import gmap list strings.
From Stdlib Require Import ZArith Lia.
From S2P Require Import Prelude Mem Str Params FsData Machine Spinlock Sched Sleeplock Bio Log.
From S2P Require Import Kalloc Vm Fs Pipe File Proc.
#[local] Open Scope Z_scope.

Section arg_defs.
Context `{OTH : Others, LNK : !Linker, KOB : !Kobj}.

(** The result and, on success, the word at [addr]. *)
Definition fetchaddr (addr : Z) : K (Z * Z) :=
  p ← curproc;
  sz ← get_proc p p_sz;
  if (sz <=? addr) || (sz <? u64 (addr + 8)) then mret (-1, 0) else
  pt ← get_proc p p_pagetable;
  r ← copyin pt kloc addr 8;
  if negb (r =? 0) then mret (-1, 0) else
  v ← load64 kloc;
  mret (0, v).

Definition fetchstr (addr buf max : Z) : K Z :=
  p ← curproc;
  pt ← get_proc p p_pagetable;
  err ← copyinstr pt buf addr max;
  if err <? 0 then mret err else on_ram (strlen buf).

Definition argraw (n : Z) : K Z :=
  p ← curproc;
  if n =? 0 then get_tf p TF_a0 else
  if n =? 1 then get_tf p TF_a1 else
  if n =? 2 then get_tf p TF_a2 else
  if n =? 3 then get_tf p TF_a3 else
  if n =? 4 then get_tf p TF_a4 else
  if n =? 5 then get_tf p TF_a5 else
  panic "argraw".

Definition argint (n : Z) : K Z := x ← argraw n; mret (s32 x).
Definition argaddr (n : Z) : K Z := argraw n.

(** The result and the bytes of the string. *)
Definition argstr (n max : Z) : K (Z * list Z) :=
  addr ← argaddr n;
  r ← fetchstr addr kloc max;
  if r <? 0 then mret (r, []) else
  bs ← get_bytes kloc (Z.to_nat r);
  mret (r, bs).
End arg_defs.

(** ** sysproc.c *)

Section sysproc_defs.
Context `{OTH : Others, LNK : !Linker, KOB : !Kobj, TXT : !Text}.

(** The [uint64] of an [int] result. *)
Definition ret_int (m : K Z) : K Z := r ← m; mret (u64 r).

Definition sys_exit : K Z :=
  n ← argint 0;
  exit n;;
  mret 0.

Definition sys_getpid : K Z := ret_int (p ← curproc; get_proc p p_pid).

Definition sys_fork : K Z := ret_int fork.

Definition sys_wait : K Z := p ← argaddr 0; ret_int (wait p).

Definition sys_sbrk : K Z :=
  n ← argint 0;
  p ← curproc;
  sz ← get_proc p p_sz;
  let addr := s32 sz in
  r ← growproc n;
  if r <? 0 then mret (u64 (-1)) else mret (u64 addr).

(** [ticks - ticks0 < n] compares [uint]s: [n] is converted. *)
Definition sys_sleep : K Z :=
  n ← argint 0;
  acquire LK_ticks;;
  ticks0 ← gets ticks;
  loop (λ _,
    t ← gets ticks;
    if u32 (t - ticks0) <? u32 n then
      p ← curproc;
      killed ← get_proc p p_killed;
      if nz killed then release LK_ticks;; break (u64 (-1)) else
      sleep Ch_ticks LK_ticks;;
      continue tt
    else release LK_ticks;; break 0) tt.

Definition sys_kill : K Z := pid ← argint 0; ret_int (kill pid).

Definition sys_uptime : K Z :=
  acquire LK_ticks;;
  xticks ← gets ticks;
  release LK_ticks;;
  mret xticks.
End sysproc_defs.
