(* ===== verification/Exec.v ===== *)
(** * exec() (kernel/exec.c, kernel/elf.h) *)

From stdpp Require Import gmap list strings.
From Stdlib Require Import ZArith Lia.
From S2P Require Import Prelude Mem Str Params FsData Machine Spinlock Sched Sleeplock Bio Log.
From S2P Require Import Kalloc Vm Fs Pipe File Proc.
#[local] Open Scope Z_scope.

(** ** elf.h: fields of the headers, in their bytes *)

Definition ELF_MAGIC := 0x464C457F.
Definition ELFHDR_SIZE := 64.
Definition elf_magic (h : list Z) : Z := bld 4 0 h.
Definition elf_entry (h : list Z) : Z := bld 8 24 h.
Definition elf_phoff (h : list Z) : Z := bld 8 32 h.
Definition elf_phnum (h : list Z) : Z := bld 2 56 h.

Definition ELF_PROG_LOAD := 1.
Definition PROGHDR_SIZE := 56.
Definition ph_type (h : list Z) : Z := bld 4 0 h.
Definition ph_off (h : list Z) : Z := bld 8 8 h.
Definition ph_vaddr (h : list Z) : Z := bld 8 16 h.
Definition ph_filesz (h : list Z) : Z := bld 8 32 h.
Definition ph_memsz (h : list Z) : Z := bld 8 40 h.

Section exec_defs.
Context `{OTH : Others, LNK : !Linker, KOB : !Kobj, TXT : !Text}.

Definition loadseg (pagetable va : Z) (ip : nat) (offset sz : Z) : K Z :=
  loop (λ i,
    if i <? sz then
      pa ← walkaddr pagetable (u64 (va + i));
      if pa =? 0 then panic "loadseg: address should exist" else
      let n := if sz - i <? PGSIZE then sz - i else PGSIZE in
      r ← readi ip 0 pa (u32 (offset + i)) n;
      if negb (u32 r =? n) then break (-1) else continue (u32 (i + PGSIZE))
    else break 0) 0.

(** The loop over the program headers: did it succeed, and the final [sz]. *)
Definition exec_segments (ip : nat) (elf : list Z) (pagetable : Z) : K (bool * Z) :=
  loop (λ '(i, off, sz),
    if i <? elf_phnum elf then
      r ← readi ip 0 kloc (u32 off) PROGHDR_SIZE;
      ph ← get_bytes kloc (Z.to_nat PROGHDR_SIZE);
      if negb (r =? PROGHDR_SIZE) then break (false, sz) else
      if negb (ph_type ph =? ELF_PROG_LOAD) then continue (i + 1, s32 (off + PROGHDR_SIZE), sz) else
      if ph_memsz ph <? ph_filesz ph then break (false, sz) else
      if u64 (ph_vaddr ph + ph_memsz ph) <? ph_vaddr ph then break (false, sz) else
      sz1 ← uvmalloc pagetable sz (u64 (ph_vaddr ph + ph_memsz ph));
      if sz1 =? 0 then break (false, sz) else
      if negb (ph_vaddr ph mod PGSIZE =? 0) then break (false, sz1) else
      r ← loadseg pagetable (ph_vaddr ph) ip (u32 (ph_off ph)) (u32 (ph_filesz ph));
      if r <? 0 then break (false, sz1) else
      continue (i + 1, s32 (off + PROGHDR_SIZE), sz1)
    else break (true, sz)) (0, s32 (elf_phoff elf), 0).

(** The code at [bad:]. *)
Definition exec_bad (pagetable sz : Z) (ip : option nat) : K Z :=
  when (nz pagetable) (proc_freepagetable pagetable sz);;
  match ip with
  | Some ip => iunlockput ip;; end_op
  | None => mret tt
  end;;
  mret (-1).

(** Push the argument strings: the new [sp] and the pointers in [ustack]. *)
Definition exec_args (pagetable sp stackbase : Z) (argv : list Z) : K (option (Z * list Z)) :=
  loop (λ '(argc, sp, ustack),
    match argv !! argc with
    | None => undefined
    | Some 0 => break (Some (sp, ustack))
    | Some s =>
        if MAXARG <=? Z.of_nat argc then break None else
        n ← on_ram (strlen s);
        let sp := u64 (sp - (n + 1)) in
        let sp := sp - sp mod 16 in
        if sp <? stackbase then break None else
        n ← on_ram (strlen s);
        r ← copyout pagetable sp s (n + 1);
        if r <? 0 then break None else continue (S argc, sp, ustack ++ [sp])
    end) (0%nat, sp, []).

(** The array of pointers, as it is pushed. *)
Definition ustack_bytes (ustack : list Z) : list Z := mjoin (le_bytes 8 <$> (ustack ++ [0])).

(** The part of the path after the last slash. *)
Fixpoint last_elem (last s : list Z) : list Z :=
  match s with
  | [] => last
  | c :: s' => last_elem (if c =? SLASH then s' else last) s'
  end.

(** exec() once the program is loaded and the inode released: build the stack
    and commit to the new image. *)
Definition exec_commit (p : nat) (path : list Z) (argv elf : list Z) (pagetable sz : Z) : K Z :=
  oldsz ← get_proc p p_sz;
  let sz := PGROUNDUP sz in
  sz1 ← uvmalloc pagetable sz (u64 (sz + 2 * PGSIZE));
  if sz1 =? 0 then exec_bad pagetable sz None else
  let sz := sz1 in
  uvmclear pagetable (u64 (sz - 2 * PGSIZE));;
  let stackbase := u64 (sz - PGSIZE) in
  r ← exec_args pagetable sz stackbase argv;
  match r with
  | None => exec_bad pagetable sz None
  | Some (sp, ustack) =>
      let argc := Z.of_nat (length ustack) in
      let sp := u64 (sp - (argc + 1) * 8) in
      let sp := sp - sp mod 16 in
      if sp <? stackbase then exec_bad pagetable sz None else
      put_bytes kloc (ustack_bytes ustack);;
      r ← copyout pagetable sp kloc ((argc + 1) * 8);
      if r <? 0 then exec_bad pagetable sz None else
      set_tf p TF_a1 sp;;
      set_proc p (upd_p_name (λ s, safestrcpy_l s (last_elem path path) PNAME_SIZE));;
      oldpagetable ← get_proc p p_pagetable;
      set_proc p (upd_p_pagetable (λ _, pagetable));;
      set_proc p (upd_p_sz (λ _, sz));;
      set_tf p TF_epc (elf_entry elf);;
      set_tf p TF_sp sp;;
      proc_freepagetable oldpagetable oldsz;;
      mret (s32 argc)
  end.

Definition exec (path : list Z) (argv : list Z) : K Z :=
  p ← curproc;
  begin_op;;
  ip ← namei path;
  match ip with
  | None => end_op;; mret (-1)
  | Some ip =>
      ilock (Some ip);;
      r ← readi ip 0 kloc 0 ELFHDR_SIZE;
      elf ← get_bytes kloc (Z.to_nat ELFHDR_SIZE);
      if negb (r =? ELFHDR_SIZE) then exec_bad 0 0 (Some ip) else
      if negb (elf_magic elf =? ELF_MAGIC) then exec_bad 0 0 (Some ip) else
      pagetable ← proc_pagetable p;
      if pagetable =? 0 then exec_bad 0 0 (Some ip) else
      '(ok, sz) ← exec_segments ip elf pagetable;
      if negb ok then exec_bad pagetable sz (Some ip) else
      iunlockput ip;;
      end_op;;
      p ← curproc;
      exec_commit p path argv elf pagetable sz
  end.
End exec_defs.
