(* ===== verification/SysFile.v ===== *)
(** * File system calls and the system-call table (kernel/sysfile.c,
    kernel/syscall.c) *)

From stdpp Require Import gmap list strings.
From Stdlib Require Import ZArith Lia.
From S2P Require Import Prelude Mem Str Params FsData Machine Spinlock Sched Sleeplock Bio Log.
From S2P Require Import Kalloc Vm Fs Pipe File Proc Syscall Exec.
#[local] Open Scope Z_scope.

(** -1 as the result of a system call. *)
Definition NEG1 : Z := u64 (-1).

(** An uninitialised [char name[DIRSIZ]]. *)
Definition name0 : list Z := replicate (Z.to_nat DIRSIZ) 0.
Definition DOT : list Z := [46].
Definition DOTDOT : list Z := [46; 46].

Section sysfile_defs.
Context `{OTH : Others, LNK : !Linker, KOB : !Kobj, TXT : !Text, DEV : !Devices}.

(** ** Descriptors *)

(** The descriptor and the file, or [None] for -1. *)
Definition argfd (n : Z) : K (option (nat * nat)) :=
  fd ← argint n;
  if (fd <? 0) || (NOFILE <=? fd) then mret None else
  p ← curproc;
  f ← get_proc p (λ x, mjoin (p_ofile x !! Z.to_nat fd));
  mret (f ← f; Some (Z.to_nat fd, f)).

Definition fdalloc (f : nat) : K Z :=
  p ← curproc;
  loop (λ fd,
    if Z.of_nat fd <? NOFILE then
      x ← get_proc p (λ x, mjoin (p_ofile x !! fd));
      match x with
      | None => set_proc p (upd_p_ofile <[fd := Some f]>);; break (Z.of_nat fd)
      | Some _ => continue (S fd)
      end
    else break (-1)) 0%nat.

Definition sys_dup : K Z :=
  r ← argfd 0;
  match r with
  | None => mret NEG1
  | Some (_, f) =>
      fd ← fdalloc f;
      if fd <? 0 then mret NEG1 else
      filedup f;;
      mret fd
  end.

Definition sys_read : K Z :=
  r ← argfd 0;
  match r with
  | None => mret NEG1
  | Some (_, f) => n ← argint 2; p ← argaddr 1; ret_int (fileread f p n)
  end.

Definition sys_write : K Z :=
  r ← argfd 0;
  match r with
  | None => mret NEG1
  | Some (_, f) => n ← argint 2; p ← argaddr 1; ret_int (filewrite f p n)
  end.

Definition sys_close : K Z :=
  r ← argfd 0;
  match r with
  | None => mret NEG1
  | Some (fd, f) =>
      p ← curproc;
      set_proc p (upd_p_ofile <[fd := None]>);;
      fileclose f;;
      mret 0
  end.

Definition sys_fstat : K Z :=
  r ← argfd 0;
  match r with
  | None => mret NEG1
  | Some (_, f) => st ← argaddr 1; ret_int (filestat f st)
  end.

(** ** Links *)

(** The code at [bad:] of sys_link(). *)
Definition sys_link_bad (ip : nat) : K Z :=
  ilock (Some ip);;
  set_inode ip (upd_i_nlink (λ n, s16 (n - 1)));;
  iupdate ip;;
  iunlockput ip;;
  end_op;;
  mret NEG1.

Definition sys_link : K Z :=
  '(r, old) ← argstr 0 MAXPATH;
  if r <? 0 then mret NEG1 else
  '(r, new) ← argstr 1 MAXPATH;
  if r <? 0 then mret NEG1 else
  begin_op;;
  ip ← namei old;
  match ip with
  | None => end_op;; mret NEG1
  | Some ip =>
      ilock (Some ip);;
      type ← get_inode ip i_type;
      if type =? T_DIR then iunlockput ip;; end_op;; mret NEG1 else
      set_inode ip (upd_i_nlink (λ n, s16 (n + 1)));;
      iupdate ip;;
      iunlock (Some ip);;
      '(dp, name) ← nameiparent new name0;
      match dp with
      | None => sys_link_bad ip
      | Some dp =>
          ilock (Some dp);;
          ddev ← get_inode dp i_dev;
          idev ← get_inode ip i_dev;
          ok ← (if negb (ddev =? idev) then mret false else
                inum ← get_inode ip i_inum;
                r ← dirlink dp name inum;
                mret (negb (r <? 0)));
          if negb ok then iunlockput dp;; sys_link_bad ip else
          iunlockput dp;;
          iput ip;;
          end_op;;
          mret 0
      end
  end.

Definition isdirempty (dp : nat) : K bool :=
  loop (λ off,
    size ← get_inode dp i_size;
    if u32 off <? size then
      '(ok, de) ← read_dirent dp (u32 off);
      if negb ok then panic "isdirempty: readi" else
      if negb (de_inum de =? 0) then break false else continue (off + DIRENT_SIZE)
    else break true) (2 * DIRENT_SIZE).

(** The code at [bad:] of sys_unlink(). *)
Definition sys_unlink_bad (dp : nat) : K Z :=
  iunlockput dp;;
  end_op;;
  mret NEG1.

Definition sys_unlink : K Z :=
  '(r, path) ← argstr 0 MAXPATH;
  if r <? 0 then mret NEG1 else
  begin_op;;
  '(dp, name) ← nameiparent path name0;
  match dp with
  | None => end_op;; mret NEG1
  | Some dp =>
      ilock (Some dp);;
      if (namecmp name DOT =? 0) || (namecmp name DOTDOT =? 0) then sys_unlink_bad dp else
      r ← dirlookup dp name;
      match r with
      | None => sys_unlink_bad dp
      | Some (ip, off) =>
          ilock (Some ip);;
          nlink ← get_inode ip i_nlink;
          if nlink <? 1 then panic "unlink: nlink < 1" else
          type ← get_inode ip i_type;
          empty ← (if type =? T_DIR then isdirempty ip else mret true);
          if negb empty then iunlockput ip;; sys_unlink_bad dp else
          put_bytes kloc (replicate (Z.to_nat DIRENT_SIZE) 0);;
          n ← writei dp 0 kloc off DIRENT_SIZE;
          if negb (n =? DIRENT_SIZE) then panic "unlink: writei" else
          type ← get_inode ip i_type;
          when (type =? T_DIR) (set_inode dp (upd_i_nlink (λ n, s16 (n - 1)));; iupdate dp);;
          iunlockput dp;;
          set_inode ip (upd_i_nlink (λ n, s16 (n - 1)));;
          iupdate ip;;
          iunlockput ip;;
          end_op;;
          mret 0
      end
  end.

(** ** Creation *)

Definition create (path : list Z) (type major minor : Z) : K (option nat) :=
  '(dp, name) ← nameiparent path name0;
  match dp with
  | None => mret None
  | Some dp =>
      ilock (Some dp);;
      r ← dirlookup dp name;
      match r with
      | Some (ip, _) =>
          iunlockput dp;;
          ilock (Some ip);;
          t ← get_inode ip i_type;
          if (type =? T_FILE) && ((t =? T_FILE) || (t =? T_DEVICE)) then mret (Some ip) else
          iunlockput ip;;
          mret None
      | None =>
          dev ← get_inode dp i_dev;
          ip ← ialloc dev type;
          ilock (Some ip);;
          set_inode ip (upd_i_major (λ _, major));;
          set_inode ip (upd_i_minor (λ _, minor));;
          set_inode ip (upd_i_nlink (λ _, 1));;
          iupdate ip;;
          when (type =? T_DIR) (
            set_inode dp (upd_i_nlink (λ n, s16 (n + 1)));;
            iupdate dp;;
            inum ← get_inode ip i_inum;
            r ← dirlink ip DOT inum;
            if r <? 0 then panic "create dots" else
            pinum ← get_inode dp i_inum;
            r ← dirlink ip DOTDOT pinum;
            if r <? 0 then panic "create dots" else mret tt);;
          inum ← get_inode ip i_inum;
          r ← dirlink dp name inum;
          if r <? 0 then panic "create: dirlink" else
          iunlockput dp;;
          mret (Some ip)
      end
  end.

(** The first half of sys_open(): the locked inode; [None] when it returned -1. *)
Definition open_inode (path : list Z) (omode : Z) : K (option nat) :=
  if nz (Z.land omode O_CREATE) then
    ip ← create path T_FILE 0 0;
    match ip with None => end_op;; mret None | Some _ => mret ip end
  else
    ip ← namei path;
    match ip with
    | None => end_op;; mret None
    | Some i =>
        ilock ip;;
        type ← get_inode i i_type;
        if (type =? T_DIR) && negb (omode =? O_RDONLY) then
          iunlockput i;; end_op;; mret None
        else mret ip
    end.

(** The second half, for the locked inode. *)
Definition open_file (ip : nat) (omode : Z) : K Z :=
  type ← get_inode ip i_type;
  major ← get_inode ip i_major;
  if (type =? T_DEVICE) && ((major <? 0) || (NDEV <=? major)) then
    iunlockput ip;; end_op;; mret NEG1
  else
  f ← filealloc;
  fd ← match f with Some f => fdalloc f | None => mret (-1) end;
  match f with
  | None => iunlockput ip;; end_op;; mret NEG1
  | Some f =>
      if fd <? 0 then fileclose f;; iunlockput ip;; end_op;; mret NEG1 else
      (if type =? T_DEVICE then
         set_file f (upd_f_type (λ _, FD_DEVICE));;
         set_file f (upd_f_major (λ _, major))
       else
         set_file f (upd_f_type (λ _, FD_INODE));;
         set_file f (upd_f_off (λ _, 0)));;
      set_file f (upd_f_ip (λ _, Some ip));;
      set_file f (upd_f_readable (λ _, if nz (Z.land omode O_WRONLY) then 0 else 1));;
      set_file f (upd_f_writable (λ _,
        if nz (Z.land omode O_WRONLY) || nz (Z.land omode O_RDWR) then 1 else 0));;
      when (nz (Z.land omode O_TRUNC) && (type =? T_FILE)) (itrunc ip);;
      iunlock (Some ip);;
      end_op;;
      mret fd
  end.

Definition sys_open : K Z :=
  '(n, path) ← argstr 0 MAXPATH;
  if n <? 0 then mret NEG1 else
  omode ← argint 1;
  begin_op;;
  ip ← open_inode path omode;
  match ip with
  | None => mret NEG1
  | Some ip => open_file ip omode
  end.

Definition sys_mkdir : K Z :=
  begin_op;;
  '(r, path) ← argstr 0 MAXPATH;
  ip ← (if r <? 0 then mret None else create path T_DIR 0 0);
  match ip with
  | None => end_op;; mret NEG1
  | Some ip => iunlockput ip;; end_op;; mret 0
  end.

Definition sys_mknod : K Z :=
  begin_op;;
  '(r, path) ← argstr 0 MAXPATH;
  ip ← (if r <? 0 then mret None else
        major ← argint 1;
        minor ← argint 2;
        create path T_DEVICE (s16 major) (s16 minor));
  match ip with
  | None => end_op;; mret NEG1
  | Some ip => iunlockput ip;; end_op;; mret 0
  end.

Definition sys_chdir : K Z :=
  p ← curproc;
  begin_op;;
  '(r, path) ← argstr 0 MAXPATH;
  ip ← (if r <? 0 then mret None else namei path);
  match ip with
  | None => end_op;; mret NEG1
  | Some ip =>
      ilock (Some ip);;
      type ← get_inode ip i_type;
      if negb (type =? T_DIR) then iunlockput ip;; end_op;; mret NEG1 else
      iunlock (Some ip);;
      cwd ← get_proc p p_cwd;
      cwd ← deref cwd;
      iput cwd;;
      end_op;;
      set_proc p (upd_p_cwd (λ _, Some ip));;
      mret 0
  end.

(** ** exec and pipe *)

(** for(i = 0; i < NELEM(argv) && argv[i] != 0; i++) kfree(argv[i]) *)
Fixpoint free_argv (argv : list Z) : K unit :=
  match argv with
  | [] => mret tt
  | a :: argv' => if a =? 0 then mret tt else kfree a;; free_argv argv'
  end.

(** The loop that copies the argument strings in: [argv], and whether it ended
    at the null pointer. *)
Definition fetch_argv (uargv : Z) : K (bool * list Z) :=
  loop (λ '(i, argv),
    if MAXARG <=? Z.of_nat i then break (false, argv) else
    '(r, uarg) ← fetchaddr (u64 (uargv + 8 * Z.of_nat i));
    if r <? 0 then break (false, argv) else
    if uarg =? 0 then break (true, <[i := 0]> argv) else
    a ← kalloc;
    let argv := <[i := a]> argv in
    if a =? 0 then break (false, argv) else
    r ← fetchstr uarg a PGSIZE;
    if r <? 0 then break (false, argv) else continue (S i, argv))
    (0%nat, replicate (Z.to_nat MAXARG) 0).

Definition sys_exec : K Z :=
  '(r, path) ← argstr 0 MAXPATH;
  if r <? 0 then mret NEG1 else
  uargv ← argaddr 1;
  '(ok, argv) ← fetch_argv uargv;
  if negb ok then free_argv argv;; mret NEG1 else
  ret ← exec path argv;
  free_argv argv;;
  mret (u64 ret).

Definition sys_pipe : K Z :=
  p ← curproc;
  fdarray ← argaddr 0;
  '(r, rf, wf) ← pipealloc;
  if r <? 0 then mret NEG1 else
  rf ← deref rf;
  wf ← deref wf;
  fd0 ← fdalloc rf;
  fd1 ← (if fd0 <? 0 then mret (-1) else fdalloc wf);
  if (fd0 <? 0) || (fd1 <? 0) then
    when (0 <=? fd0) (set_proc p (upd_p_ofile <[Z.to_nat fd0 := None]>));;
    fileclose rf;;
    fileclose wf;;
    mret NEG1
  else
  pt ← get_proc p p_pagetable;
  put_bytes kloc (le_bytes 4 fd0);;
  r ← copyout pt fdarray kloc 4;
  r ← (if r <? 0 then mret r else
       put_bytes kloc (le_bytes 4 fd1);;
       copyout pt (u64 (fdarray + 4)) kloc 4);
  if r <? 0 then
    set_proc p (upd_p_ofile <[Z.to_nat fd0 := None]>);;
    set_proc p (upd_p_ofile <[Z.to_nat fd1 := None]>);;
    fileclose rf;;
    fileclose wf;;
    mret NEG1
  else mret 0.

(** ** syscall() *)

(** The numbers of kernel/syscall.h. *)
Inductive sysno : Type :=
| SYS_fork | SYS_exit | SYS_wait | SYS_pipe | SYS_read | SYS_kill | SYS_exec
| SYS_fstat | SYS_chdir | SYS_dup | SYS_getpid | SYS_sbrk | SYS_sleep | SYS_uptime
| SYS_open | SYS_write | SYS_mknod | SYS_unlink | SYS_link | SYS_mkdir | SYS_close.
Definition sys_num (s : sysno) : Z :=
  match s with
  | SYS_fork => 1 | SYS_exit => 2 | SYS_wait => 3 | SYS_pipe => 4 | SYS_read => 5 | SYS_kill => 6
  | SYS_exec => 7 | SYS_fstat => 8 | SYS_chdir => 9 | SYS_dup => 10 | SYS_getpid => 11 | SYS_sbrk => 12
  | SYS_sleep => 13 | SYS_uptime => 14 | SYS_open => 15 | SYS_write => 16 | SYS_mknod => 17 | SYS_unlink => 18
  | SYS_link => 19 | SYS_mkdir => 20 | SYS_close => 21
  end.
Coercion sys_num : sysno >-> Z.
#[global] Arguments sys_num : simpl never.

(** The table [syscalls], indexed by the numbers of kernel/syscall.h. *)
Definition syscalls : list (option (K Z)) :=
  [None; Some sys_fork; Some sys_exit; Some sys_wait; Some sys_pipe; Some sys_read;
   Some sys_kill; Some sys_exec; Some sys_fstat; Some sys_chdir; Some sys_dup;
   Some sys_getpid; Some sys_sbrk; Some sys_sleep; Some sys_uptime; Some sys_open;
   Some sys_write; Some sys_mknod; Some sys_unlink; Some sys_link; Some sys_mkdir;
   Some sys_close].

Definition syscall : K unit :=
  p ← curproc;
  a7 ← get_tf p TF_a7;
  let num := s32 a7 in
  match (if (0 <? num) && (num <? Z.of_nat (length syscalls))
         then mjoin (syscalls !! Z.to_nat num) else None) with
  | Some call => r ← call; set_tf p TF_a0 r
  | None =>
      pid ← get_proc p p_pid;
      printf "%d %s: unknown sys call %d\n" [pid; num];;
      set_tf p TF_a0 NEG1
  end.
End sysfile_defs.
