(* ===== verification/Trap.v ===== *)
(** * Traps (kernel/trap.c) and forkret() (kernel/proc.c) *)

From stdpp Require Import gmap list strings.
From Stdlib Require Import ZArith Lia.
From S2P Require Import Prelude Mem Str Params FsData Machine Spinlock Sched Sleeplock Bio Log.
From S2P Require Import Kalloc Vm Fs Pipe File Proc Syscall Exec SysFile.
#[local] Open Scope Z_scope.

(** ** Registers (kernel/riscv.h) *)

Definition r_csr {A} (f : csrs → A) : K A := gets (λ k, f (csr (hs k))).
Definition w_csr (f : csrs → csrs) : K unit := modify (upd_hs (upd_csr f)).
Definition r_sepc : K Z := r_csr sepc.
Definition w_sepc (x : Z) : K unit := w_csr (upd_sepc (λ _, x)).
Definition r_scause : K Z := r_csr scause.
Definition r_stval : K Z := r_csr stval.
Definition r_satp : K Z := r_csr satp.
Definition w_stvec (x : Z) : K unit := w_csr (upd_stvec (λ _, x)).
Definition r_sip : K Z := r_csr sip.
Definition w_sip (x : Z) : K unit := w_csr (upd_sip (λ _, x)).

Definition trapinit : K unit := initlock LK_ticks "time".

Definition clockintr : K unit :=
  acquire LK_ticks;;
  modify (upd_ticks (λ t, u32 (t + 1)));;
  wakeup (Some Ch_ticks);;
  release LK_ticks.

Section trap_defs.
Context `{OTH : Others, LNK : !Linker, KOB : !Kobj, TXT : !Text, DEV : !Devices}.

Definition trapinithart : K unit := w_stvec kernelvec_addr.

Definition devintr : K Z :=
  scause ← r_scause;
  if nz (Z.land scause 0x8000000000000000) && (Z.land scause 0xff =? 9) then
    irq ← plic_claim;
    (if irq =? UART0_IRQ then uartintr
     else if irq =? VIRTIO0_IRQ then virtio_disk_intr
     else when (nz irq) (printf "unexpected interrupt irq=%d\n" [irq]));;
    when (nz irq) (plic_complete irq);;
    mret 1
  else if scause =? 0x8000000000000001 then
    id ← on_hs cpuid;
    when (id =? 0) clockintr;;
    x ← r_sip;
    w_sip (Z.land x (Z.lnot 2));;
    mret 2
  else mret 0.

(** Return to user space: the result is the jump to userret in the trampoline,
    with its arguments. *)
Definition usertrapret : K (Z * Z * Z) :=
  p ← curproc;
  on_hs intr_off;;
  w_stvec (u64 (TRAMPOLINE + (uservec_addr - trampoline)));;
  satp ← r_satp;
  set_tf p TF_kernel_satp satp;;
  kstack ← get_proc p p_kstack;
  set_tf p TF_kernel_sp (u64 (kstack + PGSIZE));;
  set_tf p TF_kernel_trap usertrap_addr;;
  hartid ← on_hs r_tp;
  set_tf p TF_kernel_hartid hartid;;
  x ← on_hs r_sstatus;
  on_hs (w_sstatus (Z.lor (Z.land x (Z.lnot SSTATUS_SPP)) SSTATUS_SPIE));;
  epc ← get_tf p TF_epc;
  w_sepc epc;;
  pt ← get_proc p p_pagetable;
  mret (u64 (TRAMPOLINE + (userret_addr - trampoline)), TRAPFRAME, MAKE_SATP pt).

(** The dispatch of usertrap() on scause; the result is [which_dev]. *)
Definition usertrap_cause (p : nat) : K Z :=
  scause ← r_scause;
  if scause =? 8 then
    killed ← get_proc p p_killed;
    when (nz killed) (exit (-1));;
    epc ← get_tf p TF_epc;
    set_tf p TF_epc (u64 (epc + 4));;
    on_hs intr_on;;
    syscall;;
    mret 0
  else if scause =? 15 then
    pt ← get_proc p p_pagetable;
    va ← r_stval;
    r ← cowalloc pt va;
    when (r <? 0) (set_proc p (upd_p_killed (λ _, 1)));;
    mret 0
  else
    which_dev ← devintr;
    when (which_dev =? 0) (
      scause ← r_scause;
      pid ← get_proc p p_pid;
      printf "usertrap(): unexpected scause %p pid=%d\n" [scause; pid];;
      sepc ← r_sepc;
      stval ← r_stval;
      printf "            sepc=%p stval=%p\n" [sepc; stval];;
      set_proc p (upd_p_killed (λ _, 1)));;
    mret which_dev.

Definition usertrap : K (Z * Z * Z) :=
  x ← on_hs r_sstatus;
  if nz (Z.land x SSTATUS_SPP) then panic "usertrap: not from user mode" else
  w_stvec kernelvec_addr;;
  p ← curproc;
  sepc ← r_sepc;
  set_tf p TF_epc sepc;;
  which_dev ← usertrap_cause p;
  killed ← get_proc p p_killed;
  when (nz killed) (exit (-1));;
  when (which_dev =? 2) yield;;
  usertrapret.

Definition kerneltrap : K unit :=
  sepc ← r_sepc;
  sstatus ← on_hs r_sstatus;
  scause ← r_scause;
  if Z.land sstatus SSTATUS_SPP =? 0 then panic "kerneltrap: not from supervisor mode" else
  i ← on_hs intr_get;
  if nz i then panic "kerneltrap: interrupts enabled" else
  which_dev ← devintr;
  if which_dev =? 0 then
    printf "scause %p\n" [scause];;
    e ← r_sepc;
    v ← r_stval;
    printf "sepc=%p stval=%p\n" [e; v];;
    panic "kerneltrap"
  else
  (if which_dev =? 2 then
     p ← myproc;
     match p with
     | None => mret tt
     | Some _ =>
         p ← curproc;
         st ← get_proc p p_state;
         when (bool_decide (st = RUNNING)) yield
     end
   else mret tt);;
  w_sepc sepc;;
  on_hs (w_sstatus sstatus).

Definition forkret : K (Z * Z * Z) :=
  p ← curproc;
  release (LK_proc p);;
  first ← get_fs first;
  when (nz first) (set_fs (upd_first (λ _, 0));; fsinit ROOTDEV);;
  usertrapret.
End trap_defs.
