(* ===== verification/Main.v ===== *)
(** * Boot (kernel/main.c), and the drivers behind the interface of file.c and
    trap.c *)

From stdpp Require Import gmap list strings.
From Stdlib Require Import ZArith Lia.
From S2P Require Import Prelude Mem Params FsData DevData Machine Spinlock Sched Sleeplock Bio.
From S2P Require Import Kalloc Vm Uart Printf Console Virtio Fs File Proc Trap.
#[local] Open Scope Z_scope.

Section main.
Context `{OTH : Others, LNK : !Linker, KOB : !Kobj, TXT : !Text, MIO : Mmio, DPG : DiskPages}.

(** What [devsw] holds after consoleinit(), and the interrupt handlers. *)
#[local] Instance drivers : Devices := {|
  devsw_read := λ major, if major =? CONSOLE then Some consoleread else None;
  devsw_write := λ major, if major =? CONSOLE then Some consolewrite else None;
  File.plic_claim := Console.plic_claim;
  File.plic_complete := Console.plic_complete;
  File.uartintr := Console.uartintr;
  File.virtio_disk_intr := Virtio.virtio_disk_intr;
  File.printf := λ fmt args, Printf.printf (chars fmt) (A_int <$> args);
|}.

Definition main : K unit :=
  id ← on_hs cpuid;
  (if id =? 0 then
     consoleinit;;
     printfinit;;
     Printf.printf [10] [];;
     Printf.printf (chars "xv6 kernel is booting" ++ [10]) [];;
     Printf.printf [10] [];;
     kinit;;
     kvminit;;
     kvminithart;;
     procinit;;
     trapinit;;
     trapinithart;;
     plicinit;;
     plicinithart;;
     binit;;
     iinit;;
     fileinit;;
     virtio_disk_init;;
     userinit;;
     set_dev (upd_d_started (λ _, 1))
   else
     loop (λ _ : unit,
       s ← get_dev d_started;
       if s =? 0 then continue tt else break tt) tt;;
     id ← on_hs cpuid;
     Printf.printf (chars "hart %d starting" ++ [10]) [A_int id];;
     kvminithart;;
     trapinithart;;
     plicinithart);;
  scheduler.
End main.
