(* ===== verification/PageTable.v ===== *)
(** * Page tables and the memory invariant

    The abstract view of the kernel's page tables that the theorems about vm.c
    use.  A [pgtab] names the pages a table consists of ([tabs], by level and
    position) and its leaf entries ([leaves], by virtual page number); [pt_mem]
    says that RAM holds exactly that table.  The invariant [minv] ties all
    page tables of the system to the allocator: table pages are pairwise
    distinct, the reference count of every page is the number of its owners
    (tables, user mappings, and [E], the references that are not in a page
    table), and a page that a user mapping may write has no other owner. *)

From stdpp Require Import gmap list strings.
From Stdlib Require Import ZArith Lia.
From S2P Require Import Prelude Mem Str Params Machine Spinlock Kalloc Vm.
#[local] Open Scope Z_scope.

(** ** Abstract page tables *)

(** [tabs] maps level and position to the page that holds that part of the
    table: the root is at [(2, 0)], and entry [x] of the table at [(S l, i)]
    leads to [(l, 512 * i + x)].  [leaves] maps a virtual page number to its
    entry.  Mappings of virtual pages below [lim] count as references to the
    page they map. *)
Record pgtab := mkPt {
  tabs : gmap (nat * Z) Z;
  leaves : gmap Z Z;
  lim : Z;
}.

Definition pte_of (o : option Z) : Z := match o with Some p => mkpte p PTE_V | None => 0 end.

(** Entry [x] of the table at level [l], position [i]. *)
Definition word_at (t : pgtab) (l : nat) (i x : Z) : Z :=
  match l with
  | O => default 0 (leaves t !! (512 * i + x))
  | S l' => pte_of (tabs t !! (l', 512 * i + x))
  end.

Definition pt_mem (r : mem) (t : pgtab) : Prop :=
  ∀ l i p x, tabs t !! (l, i) = Some p → 0 ≤ x < 512 → ld64 r (entry p x) = word_at t l i x.

Record pt_wf (root : Z) (t : pgtab) : Prop := {
  wf_root : tabs t !! (2%nat, 0) = Some root;
  wf_tabs : ∀ l i, is_Some (tabs t !! (l, i)) →
    0 ≤ i ∧ (l = 2%nat ∧ i = 0 ∨ (l < 2)%nat ∧ is_Some (tabs t !! (S l, i / 512)));
  wf_leaf : ∀ v, is_Some (leaves t !! v) → 0 ≤ v ∧ is_Some (tabs t !! (O, v / 512));
  wf_lim : lim t * PGSIZE ≤ MAXVA;
}.

(** Flag tests, as the C code does them. *)
Definition has (e m : Z) : bool := nz (Z.land e m).

Definition PTE_RX : Z := Z.lor PTE_R PTE_X.

Section leaf_ok.
Context `{LNK : !Linker}.

(** A mapping that counts is of an allocated page, and a user mapping is either
    writable or copy-on-write; the others are not accessible from user mode. *)
Record leaf_ok (lim v e : Z) : Prop := {
  lo_range : 0 ≤ e < 2 ^ 54;
  lo_v : has e PTE_V = true;
  lo_rx : has e PTE_RX = true;
  lo_page : v < lim → valid_page (PTE2PA e);
  lo_cow : v < lim → has e PTE_U = true → has e PTE_W = negb (has e PTE_COW);
  lo_kern : lim ≤ v → has e PTE_U = false;
}.
End leaf_ok.

(** How often a page is a page-table page, and how often it is mapped. *)
Definition ntab (t : pgtab) (pa : Z) : Z := msum (λ _ p, ind (p = pa)) (tabs t).
Definition nref (t : pgtab) (pa : Z) : Z :=
  msum (λ v e, ind (v < lim t ∧ PTE2PA e = pa)) (leaves t).

Abbreviation tables := (gmap Z pgtab).
Definition npt (T : tables) (pa : Z) : Z := msum (λ _ t, ntab t pa) T.
Definition refs (T : tables) (pa : Z) : Z := msum (λ _ t, nref t pa) T.

Section minv.
Context `{LNK : !Linker}.

Record minv (k : kernel) (T : tables) (E : Z → Z) : Prop := {
  mi_alloc : ∃ F, alloc_inv PHYSTOP k F;
  mi_wf : ∀ r t, T !! r = Some t → pt_wf r t;
  mi_mem : ∀ r t, T !! r = Some t → pt_mem (ram k) t;
  mi_tabs : ∀ r t pos p, T !! r = Some t → tabs t !! pos = Some p → valid_page p;
  mi_leaf : ∀ r t v e, T !! r = Some t → leaves t !! v = Some e → leaf_ok (lim t) v e;
  mi_cnt : ∀ pa, valid_page pa → cnt k pa = npt T pa + refs T pa + E pa;
  mi_pt : ∀ pa, npt T pa = 0 ∨ npt T pa = 1 ∧ refs T pa = 0 ∧ E pa = 0;
  mi_w : ∀ r t v e, T !! r = Some t → leaves t !! v = Some e → v < lim t →
    has e PTE_U = true → has e PTE_W = true →
    refs T (PTE2PA e) = 1 ∧ E (PTE2PA e) ≤ 0;
}.
End minv.

(** One more (or less) external reference to a page. *)
Definition eadd (E : Z → Z) (p n : Z) : Z → Z := λ q, if decide (p = q) then E q + n else E q.

(** ** Arithmetic of virtual addresses *)

Definition vpn (va : Z) : Z := va / PGSIZE.
Definition vkey (l : nat) (va : Z) : Z := va / 2 ^ (12 + 9 * Z.of_nat l).

Lemma vkey_0 va : vkey 0 va = vpn va.
Proof. done. Qed.

Lemma vkey_S l va : vkey (S l) va = vkey l va / 512.
Proof.
  unfold vkey. rewrite Z.div_div by lia. f_equal.
  replace (12 + 9 * Z.of_nat (S l)) with (12 + 9 * Z.of_nat l + 9) by lia.
  by rewrite Z.pow_add_r by lia.
Qed.

Lemma PX_vkey l va : PX (Z.of_nat l) va = vkey l va mod 512.
Proof.
  unfold PX, PXSHIFT, PXMASK, PGSHIFT, vkey. change 0x1FF with (Z.ones 9).
  by rewrite Z.land_ones, Z.shiftr_div_pow2 by lia.
Qed.

Lemma vkey_top va : 0 ≤ va < MAXVA → vkey 3 va = 0.
Proof. intros. unfold vkey. apply Z.div_small. Zconst. simpl. lia. Qed.

Lemma PX_range l va : 0 ≤ PX (Z.of_nat l) va < 512.
Proof. rewrite PX_vkey. apply Z.mod_pos_bound. lia. Qed.

Lemma vkey_split l va : 512 * vkey (S l) va + PX (Z.of_nat l) va = vkey l va.
Proof. rewrite vkey_S, PX_vkey. symmetry. apply Z.div_mod. lia. Qed.

Lemma entry_page p x : aligned p → 0 ≤ x < 512 → page (entry p x) = p.
Proof. intros. apply page_offset; [done|Zconst; lia]. Qed.

Lemma entry_div v : 512 * (v / 512) + v mod 512 = v.
Proof. symmetry. apply Z.div_mod. lia. Qed.

Lemma mul512_inj i i' x x' :
  0 ≤ x < 512 → 0 ≤ x' < 512 → 512 * i + x = 512 * i' + x' → i = i' ∧ x = x'.
Proof. lia. Qed.

(** ** Flags *)

Lemma has_flags e m : 0 ≤ m < 1024 → has e m = has (PTE_FLAGS e) m.
Proof. intros. unfold has. by rewrite land_flags. Qed.

Lemma pte_child p : pa_ok p → has (mkpte p PTE_V) PTE_V = true ∧ PTE2PA (mkpte p PTE_V) = p.
Proof.
  intros Hp. split; [|by apply PTE2PA_mkpte].
  rewrite has_flags, PTE_FLAGS_mkpte by (first [done | apply Hp]). done.
Qed.

Lemma has_0 m : has 0 m = false.
Proof. done. Qed.

(** ** Counting *)

Lemma ntab_nonneg t pa : 0 ≤ ntab t pa.
Proof. apply msum_nonneg. intros. apply ind_range. Qed.
Lemma nref_nonneg t pa : 0 ≤ nref t pa.
Proof. apply msum_nonneg. intros. apply ind_range. Qed.
Lemma npt_nonneg T pa : 0 ≤ npt T pa.
Proof. apply msum_nonneg. intros. apply ntab_nonneg. Qed.
Lemma refs_nonneg T pa : 0 ≤ refs T pa.
Proof. apply msum_nonneg. intros. apply nref_nonneg. Qed.

Lemma npt_insert T r t t' pa :
  T !! r = Some t → npt (<[r := t']> T) pa = npt T pa - ntab t pa + ntab t' pa.
Proof. intros Hr. unfold npt. rewrite msum_insert. unfold at_key. by rewrite Hr. Qed.
Lemma refs_insert T r t t' pa :
  T !! r = Some t → refs (<[r := t']> T) pa = refs T pa - nref t pa + nref t' pa.
Proof. intros Hr. unfold refs. rewrite msum_insert. unfold at_key. by rewrite Hr. Qed.
Lemma npt_insert_new T r t pa :
  T !! r = None → npt (<[r := t]> T) pa = ntab t pa + npt T pa.
Proof. intros Hr. unfold npt. by rewrite msum_insert_new. Qed.
Lemma refs_insert_new T r t pa :
  T !! r = None → refs (<[r := t]> T) pa = nref t pa + refs T pa.
Proof. intros Hr. unfold refs. by rewrite msum_insert_new. Qed.
Lemma npt_delete T r t pa : T !! r = Some t → npt (delete r T) pa = npt T pa - ntab t pa.
Proof. intros Hr. unfold npt. rewrite msum_remove. unfold at_key. by rewrite Hr. Qed.
Lemma refs_delete T r t pa : T !! r = Some t → refs (delete r T) pa = refs T pa - nref t pa.
Proof. intros Hr. unfold refs. rewrite msum_remove. unfold at_key. by rewrite Hr. Qed.

Lemma ntab_npt T r t pa : T !! r = Some t → ntab t pa ≤ npt T pa.
Proof.
  intros Hr. unfold npt. apply (msum_at (λ _ t, ntab t pa) T r t); [|done].
  intros. apply ntab_nonneg.
Qed.

Lemma nref_refs T r t pa : T !! r = Some t → nref t pa ≤ refs T pa.
Proof.
  intros Hr. unfold refs. apply (msum_at (λ _ t, nref t pa) T r t); [|done].
  intros. apply nref_nonneg.
Qed.

Lemma nref_refs_2 T r t r' t' pa :
  r ≠ r' → T !! r = Some t → T !! r' = Some t' → nref t pa + nref t' pa ≤ refs T pa.
Proof.
  intros Hne Hr Hr'. unfold refs. apply (msum_at_2 (λ _ t, nref t pa) T r t r' t'); try done.
  intros. apply nref_nonneg.
Qed.

Lemma tab_ntab t pos p : tabs t !! pos = Some p → 1 ≤ ntab t p.
Proof.
  intros Hp. unfold ntab.
  pose proof (msum_at (λ _ q, ind (q = p)) (tabs t) pos p) as H. simpl in H.
  rewrite ind_true in H by done. apply H; [|done]. intros. apply ind_range.
Qed.

Lemma tab_npt T r t pos p : T !! r = Some t → tabs t !! pos = Some p → 1 ≤ npt T p.
Proof.
  intros Hr Hp. pose proof (tab_ntab _ _ _ Hp). pose proof (ntab_npt T r t p Hr). lia.
Qed.

Lemma tab_unique T r t pos r' t' pos' p :
  npt T p ≤ 1 → T !! r = Some t → T !! r' = Some t' →
  tabs t !! pos = Some p → tabs t' !! pos' = Some p → r = r' ∧ pos = pos'.
Proof.
  intros Hn Hr Hr' Hp Hp'. destruct (decide (r = r')) as [<-|Hne].
  - split; [done|]. simplify_eq. destruct (decide (pos = pos')); [done|exfalso].
    pose proof (msum_at_2 (λ _ q, ind (q = p)) (tabs t) pos p pos' p) as H. simpl in H.
    rewrite !ind_true in H by done. pose proof (ntab_npt T r t p Hr). unfold ntab in *.
    assert (1 + 1 ≤ msum (λ _ q, ind (q = p)) (tabs t)); [|lia].
    apply H; try done. intros. apply ind_range.
  - exfalso. pose proof (tab_ntab _ _ _ Hp). pose proof (tab_ntab _ _ _ Hp').
    pose proof (msum_at_2 (λ _ t, ntab t p) T r t r' t') as H1. simpl in H1.
    assert (ntab t p + ntab t' p ≤ npt T p); [|lia].
    apply H1; try done. intros. apply ntab_nonneg.
Qed.

Lemma leaf_nref t v e : leaves t !! v = Some e → v < lim t → 1 ≤ nref t (PTE2PA e).
Proof.
  intros Hv Hl. unfold nref.
  pose proof (msum_at (λ v' e', ind (v' < lim t ∧ PTE2PA e' = PTE2PA e)) (leaves t) v e) as H.
  simpl in H. rewrite ind_true in H by done. apply H; [|done]. intros. apply ind_range.
Qed.

Lemma leaf_refs T r t v e :
  T !! r = Some t → leaves t !! v = Some e → v < lim t → 1 ≤ refs T (PTE2PA e).
Proof.
  intros Hr Hv Hl. pose proof (leaf_nref t v e Hv Hl).
  pose proof (nref_refs T r t (PTE2PA e) Hr). lia.
Qed.

(** A page with one mapping has only that one. *)
Lemma leaf_unique T r t v e r' t' v' e' :
  refs T (PTE2PA e) ≤ 1 → T !! r = Some t → T !! r' = Some t' →
  leaves t !! v = Some e → leaves t' !! v' = Some e' → v < lim t → v' < lim t' →
  PTE2PA e = PTE2PA e' → r = r' ∧ v = v'.
Proof.
  intros Hn Hr Hr' Hv Hv' Hl Hl' HE. destruct (decide (r = r')) as [<-|Hne].
  - split; [done|]. simplify_eq. destruct (decide (v = v')); [done|exfalso].
    pose proof (msum_at_2 (λ v e', ind (v < lim t ∧ PTE2PA e' = PTE2PA e)) (leaves t) v e v' e')
      as H. simpl in H.
    rewrite (ind_true (v < lim t ∧ _)), (ind_true (v' < lim t ∧ _)) in H by done.
    pose proof (nref_refs T r t (PTE2PA e) Hr). unfold nref in *.
    enough (1 + 1 ≤ 1) by lia. etrans; [apply H; try done; intros; apply ind_range|lia].
  - exfalso. pose proof (leaf_nref _ _ _ Hv Hl). pose proof (leaf_nref _ _ _ Hv' Hl') as H2.
    rewrite <-HE in H2. pose proof (nref_refs_2 T r t r' t' (PTE2PA e) Hne Hr Hr'). lia.
Qed.

(** Changing one leaf. *)
Definition set_leaves (f : gmap Z Z → gmap Z Z) (t : pgtab) : pgtab :=
  mkPt (tabs t) (f (leaves t)) (lim t).
Definition set_tab (pos : nat * Z) (p : Z) (t : pgtab) : pgtab :=
  mkPt (<[pos := p]> (tabs t)) (leaves t) (lim t).
Definition del_tab (pos : nat * Z) (t : pgtab) : pgtab :=
  mkPt (delete pos (tabs t)) (leaves t) (lim t).

Lemma ntab_set_leaves f t pa : ntab (set_leaves f t) pa = ntab t pa.
Proof. done. Qed.

Definition leaf_ref (t : pgtab) (v pa : Z) : Z :=
  match leaves t !! v with Some e => ind (v < lim t ∧ PTE2PA e = pa) | None => 0 end.

Lemma nref_insert t v e pa :
  nref (set_leaves <[v := e]> t) pa =
  nref t pa - leaf_ref t v pa + ind (v < lim t ∧ PTE2PA e = pa).
Proof. unfold nref. simpl. by rewrite msum_insert. Qed.

Lemma nref_delete t v pa : nref (set_leaves (delete v) t) pa = nref t pa - leaf_ref t v pa.
Proof. unfold nref. simpl. by rewrite msum_remove. Qed.

Lemma ntab_set_tab t pos p pa :
  tabs t !! pos = None → ntab (set_tab pos p t) pa = ind (p = pa) + ntab t pa.
Proof. intros. unfold ntab. simpl. by rewrite msum_insert_new. Qed.

Lemma ntab_del_tab t pos p pa :
  tabs t !! pos = Some p → ntab (del_tab pos t) pa = ntab t pa - ind (p = pa).
Proof. intros Hp. unfold ntab. simpl. rewrite msum_remove. unfold at_key. by rewrite Hp. Qed.

(** ** Memory *)

Lemma pt_mem_frame P r r' t :
  (∀ pos p, tabs t !! pos = Some p → aligned p ∧ ¬ P p) →
  only_pages P r r' → pt_mem r t → pt_mem r' t.
Proof.
  intros Ht Hop Hm l i p x Hp Hx. destruct (Ht _ _ Hp) as [Hal HP].
  rewrite <-(Hm l i p x Hp Hx). unfold entry. eapply only_pages_ld64; try done; [lia|Zconst; lia].
Qed.

Lemma ld64_entry_ne r p x q y w :
  aligned p → aligned q → 0 ≤ x < 512 → 0 ≤ y < 512 → (p, x) ≠ (q, y) →
  ld64 (st64 r (entry p x) w) (entry q y) = ld64 r (entry q y).
Proof.
  intros Hp Hq Hx Hy Hne. apply ld64_st64_out. unfold entry.
  destruct (decide (p = q)) as [->|Hpq].
  - assert (x ≠ y) by congruence. lia.
  - pose proof (aligned_lt_le p q Hp Hq). pose proof (aligned_lt_le q p Hq Hp). Zconst. lia.
Qed.

(** One entry is written: the table [t'] is in memory if all its other
    entries were. *)
Lemma pt_mem_store r t' l i p x w :
  tabs t' !! (l, i) = Some p → 0 ≤ x < 512 → 0 ≤ w < 2 ^ 64 → word_at t' l i x = w →
  (∀ pos q, tabs t' !! pos = Some q → aligned q ∧ (q = p → pos = (l, i))) →
  (∀ l' i' q y, tabs t' !! (l', i') = Some q → 0 ≤ y < 512 → (l', i', y) ≠ (l, i, x) →
     ld64 r (entry q y) = word_at t' l' i' y) →
  pt_mem (st64 r (entry p x) w) t'.
Proof.
  intros Hp Hx Hw Hword Hpages Hrest l' i' q y Hq Hy.
  destruct (decide ((l', i', y) = (l, i, x))) as [Heq|Hne].
  - simplify_eq. by rewrite ld64_st64.
  - rewrite ld64_entry_ne; try done; [by eauto| | |].
    + by apply (Hpages _ _ Hp).
    + by apply (Hpages _ _ Hq).
    + intros Heq. simplify_eq. apply Hne. destruct (Hpages _ _ Hq) as [_ Hu].
      specialize (Hu eq_refl). congruence.
Qed.

Section minv_lemmas.
Context `{LNK : !Linker, LOK : !LinkerOk}.
Implicit Types (k : kernel) (T : tables) (E : Z → Z).

Lemma valid_pa_ok p : valid_page p → pa_ok p.
Proof. intros [? ?]. pose proof kend_range. split; [done|Zconst; lia]. Qed.

Lemma minv_tab_npt k T E r t pos p :
  minv k T E → T !! r = Some t → tabs t !! pos = Some p → npt T p = 1.
Proof. intros Hi Hr Hp. pose proof (tab_npt _ _ _ _ _ Hr Hp). destruct (mi_pt _ _ _ Hi p); lia. Qed.

Lemma minv_tab_unique k T E r t pos r' t' pos' p :
  minv k T E → T !! r = Some t → T !! r' = Some t' →
  tabs t !! pos = Some p → tabs t' !! pos' = Some p → r = r' ∧ pos = pos'.
Proof.
  intros Hi Hr Hr' Hp Hp'. eapply tab_unique; [|exact Hr|exact Hr'|done|done].
  rewrite (minv_tab_npt _ _ _ _ _ _ _ Hi Hr Hp). lia.
Qed.

Lemma minv_tab_cnt k T E r t pos p :
  minv k T E → T !! r = Some t → tabs t !! pos = Some p → cnt k p = 1.
Proof.
  intros Hi Hr Hp. pose proof (minv_tab_npt _ _ _ _ _ _ _ Hi Hr Hp) as Hn.
  rewrite (mi_cnt _ _ _ Hi) by (by eapply mi_tabs).
  destruct (mi_pt _ _ _ Hi p); lia.
Qed.

(** Memory outside free pages and table pages may change. *)
Lemma alloc_inv_ram k f F :
  alloc_inv PHYSTOP k F → only_pages (λ q, q ∉ F) (ram k) (f (ram k)) →
  alloc_inv PHYSTOP (upd_ram f k) F.
Proof. intros Hi Hop. by eapply alloc_inv_frame. Qed.

Lemma free_cnt k F q : alloc_inv PHYSTOP k F → q ∈ F → valid_page q ∧ cnt k q = 0.
Proof.
  intros Hi Hq. pose proof (ai_valid _ _ _ Hi) as Hv. rewrite Forall_forall in Hv.
  destruct (Hv _ Hq) as [? ?]. split; [done|]. by apply (ai_free _ _ _ Hi).
Qed.

Lemma minv_ram P k f T E :
  minv k T E → only_pages P (ram k) (f (ram k)) →
  (∀ q, P q → valid_page q → 0 < cnt k q ∧ npt T q = 0) →
  minv (upd_ram f k) T E.
Proof.
  intros Hi Hop HP. destruct Hi as [[F Ha] Hwf Hm Htb Hlf Hc Hpt Hw].
  split; try done.
  - exists F. apply alloc_inv_ram; [done|]. eapply only_pages_weaken; [|exact Hop].
    intros q Hq Hin. destruct (free_cnt _ _ _ Ha Hin) as [Hv H0]. destruct (HP _ Hq Hv). lia.
  - intros r t Hr. eapply pt_mem_frame; [|exact Hop|by apply (Hm r)].
    intros pos p Hp. split; [by eapply Htb|]. intros Hq.
    destruct (HP _ Hq) as [_ H0]; [by eapply Htb|].
    pose proof (tab_npt _ _ _ _ _ Hr Hp). lia.
Qed.

Lemma minv_ext k T E E' : (∀ q, E q = E' q) → minv k T E → minv k T E'.
Proof.
  intros HE [Ha Hwf Hm Htb Hlf Hc Hpt Hw]. split; try done.
  - intros pa Hv. by rewrite <-HE, Hc.
  - intros pa. by rewrite <-HE.
  - intros r t v e. rewrite <-HE. by apply Hw.
Qed.

(** Writing one entry of a table [t] that becomes [t']: what is left to show. *)
Lemma minv_store k T E E' r t t' l i p x w :
  minv k T E → T !! r = Some t → tabs t !! (l, i) = Some p → 0 ≤ x < 512 →
  pt_wf r t' → pt_mem (st64 (ram k) (entry p x) w) t' →
  (∀ pos q, tabs t' !! pos = Some q → valid_page q) →
  (∀ v e, leaves t' !! v = Some e → leaf_ok (lim t') v e) →
  (∀ pa, npt (<[r := t']> T) pa + refs (<[r := t']> T) pa + E' pa
         = npt T pa + refs T pa + E pa) →
  (∀ pa, npt (<[r := t']> T) pa = 0 ∨
         npt (<[r := t']> T) pa = 1 ∧ refs (<[r := t']> T) pa = 0 ∧ E' pa = 0) →
  (∀ r' t1 v e, <[r := t']> T !! r' = Some t1 → leaves t1 !! v = Some e → v < lim t1 →
     has e PTE_U = true → has e PTE_W = true →
     refs (<[r := t']> T) (PTE2PA e) = 1 ∧ E' (PTE2PA e) ≤ 0) →
  minv (upd_ram (λ m, st64 m (entry p x) w) k) (<[r := t']> T) E'.
Proof.
  intros Hi Hr Hp Hx Hwf' Hm' Htb' Hlf' Hc' Hpt' Hw'.
  pose proof (minv_tab_cnt _ _ _ _ _ _ _ Hi Hr Hp) as Hcp.
  assert (valid_page p) as Hvp by (by eapply mi_tabs).
  assert (only_pages (λ q, q = p) (ram k) (st64 (ram k) (entry p x) w)) as Hop.
  { unfold entry. apply only_pages_st64; [apply Hvp|lia|Zconst; lia]. }
  split; try done.
  - destruct (mi_alloc _ _ _ Hi) as [F Ha]. exists F. apply alloc_inv_ram; [done|].
    eapply only_pages_weaken; [|exact Hop]. intros q -> Hin.
    destruct (free_cnt _ _ _ Ha Hin). lia.
  - intros r1 t1 [[<- <-]|[Hne Hr1]]%lookup_insert_Some; [done|by eapply mi_wf].
  - intros r1 t1 [[<- <-]|[Hne Hr1]]%lookup_insert_Some; [done|].
    eapply pt_mem_frame; [|exact Hop|by eapply mi_mem].
    intros pos q Hq. split; [by eapply mi_tabs|]. intros ->. apply Hne.
    by eapply (minv_tab_unique _ _ _ r t (l, i) r1 t1 pos p).
  - intros r1 t1 pos q [[<- <-]|[Hne Hr1]]%lookup_insert_Some; [apply Htb'|by eapply mi_tabs].
  - intros r1 t1 v e [[<- <-]|[Hne Hr1]]%lookup_insert_Some; [apply Hlf'|by eapply mi_leaf].
  - intros pa Hv. rewrite Hc'. by apply (mi_cnt _ _ _ Hi).
Qed.

(** ** The allocator *)

(** What a call changes in RAM when it may use free pages and page-table pages:
    nothing that is mapped or that has an external owner. *)
Definition touch T E (q : Z) : Prop := valid_page q ∧ refs T q = 0 ∧ E q = 0.

Lemma kalloc_minv k T E :
  minv k T E →
  wp kalloc k (λ p k', kframe k k' ∧
    ((p = 0 ∧ minv k' T E ∧ ram k' = ram k ∧ krefs k' = krefs k ∧
      (∀ pa, valid_page pa → cnt k pa ≠ 0)) ∨
     (valid_page p ∧ cnt k p = 0 ∧ minv k' T (eadd E p 1) ∧
      (∀ q, ram_page q → cnt k' q = if decide (p = q) then 1 else cnt k q) ∧
      only_pages (λ q, q = p) (ram k) (ram k') ∧
      (∀ a, page a = p → ldb (ram k') a = 5)))).
Proof.
  intros Hi. destruct (mi_alloc _ _ _ Hi) as [F Ha].
  eapply wp_mono; [by apply kalloc_spec|]. intros p k' [Hkf Hpost]. split; [done|].
  destruct F as [|x F'].
  - left. destruct Hpost as (-> & Ha' & Er & Ek). split_and!; try done.
    + destruct Hi as [_ Hwf Hm Htb Hlf Hc Hpt Hw]. split; try done.
      * by exists [].
      * by rewrite Er.
      * intros pa Hv. unfold cnt. rewrite Ek. by apply Hc.
    + intros pa Hv H0. apply (ai_free _ _ _ Ha) in H0; [|split; [done|apply Hv]]. set_solver.
  - right. destruct Hpost as (<- & [Hv Hlt] & Ha' & Hc' & Hop & Hfill).
    assert (cnt k p = 0) as H0 by (apply (ai_free _ _ _ Ha); [done|by left]).
    assert (npt T p = 0) as Hn0.
    { rewrite (mi_cnt _ _ _ Hi) in H0 by done. destruct (mi_pt _ _ _ Hi p); lia. }
    split_and!; try done. destruct Hi as [_ Hwf Hm Htb Hlf Hc Hpt Hw]. split; try done.
    + by exists F'.
    + intros r t Hr. eapply pt_mem_frame; [|exact Hop|by apply (Hm r)].
      intros pos q Hq. split; [by eapply Htb|]. intros ->.
      pose proof (tab_npt _ _ _ _ _ Hr Hq). lia.
    + intros pa Hva. rewrite Hc' by (by apply valid_ram). unfold eadd.
      specialize (Hc pa Hva). case_decide; subst; lia.
    + intros pa. unfold eadd. case_decide; [subst; lia|apply Hpt].
    + intros r t v e Hr He Hl Hu Hwr. destruct (Hw _ _ _ _ Hr He Hl Hu Hwr) as [H1 H2].
      split; [done|]. unfold eadd. case_decide; [|done]. subst.
      rewrite Hc in H0 by done. lia.
Qed.

(** What kfree() of a page with [n] references does. *)
Record kfreed (pa : Z) k k' : Prop := {
  fr_frame : kframe k k';
  fr_alloc : ∃ F, alloc_inv PHYSTOP k' F;
  fr_cnt : ∀ q, ram_page q → cnt k' q = if decide (pa = q) then cnt k pa - 1 else cnt k q;
  fr_ram : only_pages (λ q, q = pa ∧ cnt k pa = 1) (ram k) (ram k');
}.

Lemma kfree_freed k T E pa :
  minv k T E → valid_page pa → 1 ≤ cnt k pa → wp (kfree pa) k (λ _ k', kfreed pa k k').
Proof.
  intros Hi Hv H1. destruct (mi_alloc _ _ _ Hi) as [F Ha].
  eapply wp_mono; [apply kfree_spec; [exact Ha|split; [done|apply Hv]|done]|].
  intros _ k' (Hkf & Hc' & Hpost). case_decide as HC; destruct Hpost as [Ha' Hr]; split; try done.
  - by eexists.
  - eapply only_pages_weaken; [|exact Hr]. by intros q ->.
  - by eexists.
  - rewrite Hr. apply only_pages_refl.
Qed.

(** It drops a reference that is not in a page table (yet, or any more). *)
Lemma minv_kfreed k T E pa k' :
  minv k T E → valid_page pa → npt T pa = 0 → kfreed pa k k' → minv k' T (eadd E pa (-1)).
Proof.
  intros [_ Hwf Hm Htb Hlf Hc Hpt Hw] Hv Hn0 [Hkf Ha Hc' Hop]. split; try done.
  - intros r t Hr. eapply pt_mem_frame; [|exact Hop|by apply (Hm r)].
    intros pos q Hq. split; [by eapply Htb|]. intros [-> _].
    pose proof (tab_npt _ _ _ _ _ Hr Hq). lia.
  - intros q Hq. rewrite Hc' by (by apply valid_ram). unfold eadd.
    pose proof (Hc q Hq). case_decide; subst; lia.
  - intros q. unfold eadd. case_decide; [subst; lia|apply Hpt].
  - intros r t v e Hr He Hl Hu Hwr. destruct (Hw _ _ _ _ Hr He Hl Hu Hwr) as [Hr1 Hr2].
    split; [done|]. unfold eadd. case_decide; lia.
Qed.

Lemma kfree_minv k T E pa :
  minv k T E → valid_page pa → 1 ≤ cnt k pa → npt T pa = 0 →
  wp (kfree pa) k (λ _ k', kfreed pa k k' ∧ minv k' T (eadd E pa (-1))).
Proof.
  intros Hi Hv H1 Hn0. eapply wp_mono; [by eapply kfree_freed|].
  intros ? k' Hf. split; [done|]. by eapply minv_kfreed.
Qed.
End minv_lemmas.
