(* ===== verification/VmWalk.v ===== *)
(** * walk() and mappages()

    walk() finds the slot of a virtual address in the table in memory, and with
    [alloc] adds the missing table pages; mappages() adds mappings. *)

From stdpp Require Import gmap list strings.
From Stdlib Require Import ZArith Lia.
From S2P Require Import Prelude Mem Str Params Machine Spinlock Kalloc Vm PageTable.
#[local] Open Scope Z_scope.

(** The address of the last-level entry for [va], 0 if the table has none. *)
Definition slot (t : pgtab) (va : Z) : Z :=
  match tabs t !! (O, vkey 1 va) with
  | Some q => entry q (PX 0 va)
  | None => 0
  end.

(** A page has at most one external owner. *)
Definition Eok (E : Z → Z) : Prop := ∀ q, 0 ≤ E q ≤ 1.

Section walk.
Context `{LNK : !Linker, LOK : !LinkerOk}.
Implicit Types (k : kernel) (T : tables) (E : Z → Z).

(** ** Counting free pages *)

Definition oom (k : kernel) : Prop := ∀ pa, valid_page pa → cnt k pa ≠ 0.

(** At most [n] pages that were free are in use now; at most [n] are free. *)
Definition taken (n : nat) k k' : Prop :=
  ∃ d, (length d ≤ n)%nat ∧ ∀ pa, valid_page pa → cnt k pa = 0 → cnt k' pa = 0 ∨ pa ∈ d.
Definition short (n : nat) k : Prop :=
  ∃ d, (length d ≤ n)%nat ∧ ∀ pa, valid_page pa → cnt k pa = 0 → pa ∈ d.

Lemma taken_0 k k' : (∀ pa, valid_page pa → cnt k pa = 0 → cnt k' pa = 0) → taken 0 k k'.
Proof. intros H. exists []. split; [done|]. intros pa Hv Hz. left. auto. Qed.

Lemma taken_refs n k k' : krefs k' = krefs k → taken n k k'.
Proof. intros H. exists []. split; [simpl; lia|]. intros pa Hv Hz. left. unfold cnt in *. by rewrite H. Qed.

Lemma taken_page k k' p : (∀ pa, valid_page pa → pa ≠ p → cnt k' pa = cnt k pa) → taken 1 k k'.
Proof.
  intros H. exists [p]. split; [done|]. intros pa Hv Hz. destruct (decide (pa = p)) as [->|Hne]; [right; set_solver|].
  left. by rewrite H.
Qed.

Lemma taken_trans n m k1 k2 k3 : taken n k1 k2 → taken m k2 k3 → taken (n + m) k1 k3.
Proof.
  intros (d & Hd & H1) (e & He & H2). exists (d ++ e). rewrite length_app. split; [lia|]. intros pa Hv Hz.
  destruct (H1 pa Hv Hz) as [Hz'|]; [|set_solver]. destruct (H2 pa Hv Hz'); set_solver.
Qed.

Lemma taken_le n m k k' : (n ≤ m)%nat → taken n k k' → taken m k k'.
Proof. intros Hl (d & Hd & H). exists d. split; [lia|done]. Qed.

Lemma taken_short n m k k' : taken n k k' → short m k' → short (n + m) k.
Proof.
  intros (d & Hd & H1) (e & He & H2). exists (d ++ e). rewrite length_app. split; [lia|]. intros pa Hv Hz.
  destruct (H1 pa Hv Hz) as [Hz'|]; [specialize (H2 pa Hv Hz')|]; set_solver.
Qed.

Lemma short_le n m k : (n ≤ m)%nat → short n k → short m k.
Proof. intros Hl (d & Hd & H). exists d. split; [lia|done]. Qed.

Lemma oom_short k : oom k → short 0 k.
Proof. intros H. exists []. split; [done|]. intros pa Hv Hz. by destruct (H pa Hv). Qed.

(** More free pages than that cannot be. *)
Lemma short_free n k l :
  short n k → NoDup l → Forall (λ pa, valid_page pa ∧ cnt k pa = 0) l → (length l ≤ n)%nat.
Proof.
  intros (d & Hd & H) Hn Hl. etrans; [|exact Hd]. apply submseteq_length, NoDup_submseteq; [done|].
  intros pa Hpa. rewrite Forall_forall in Hl. destruct (Hl pa Hpa). auto.
Qed.

(** ** Missing tables *)

Lemma tab_none_child root t l i x :
  pt_wf root t → (l < 2)%nat → 0 ≤ x < 512 → tabs t !! (S l, i) = None →
  tabs t !! (l, 512 * i + x) = None.
Proof.
  intros Hwf Hl Hx Hn. destruct (tabs t !! (l, 512 * i + x)) as [q|] eqn:E; [exfalso|done].
  destruct (wf_tabs _ _ Hwf l (512 * i + x)) as [_ [[? _]|[_ Hs]]]; [by eexists|lia|].
  replace ((512 * i + x) / 512) with i in Hs; [by rewrite Hn in Hs; destruct Hs|].
  rewrite Z.mul_comm, Z.div_add_l, (Z.div_small x) by lia. lia.
Qed.

Lemma leaf_none_child root t i x :
  pt_wf root t → 0 ≤ x < 512 → tabs t !! (O, i) = None → leaves t !! (512 * i + x) = None.
Proof.
  intros Hwf Hx Hn. destruct (leaves t !! (512 * i + x)) as [q|] eqn:E; [exfalso|done].
  destruct (wf_leaf _ _ Hwf (512 * i + x)) as [_ Hs]; [by eexists|].
  replace ((512 * i + x) / 512) with i in Hs; [by rewrite Hn in Hs; destruct Hs|].
  rewrite Z.mul_comm, Z.div_add_l, (Z.div_small x) by lia. lia.
Qed.

(** A table that is missing has only zero entries. *)
Lemma word_none root t l i x :
  pt_wf root t → (l ≤ 2)%nat → 0 ≤ x < 512 → tabs t !! (l, i) = None → word_at t l i x = 0.
Proof.
  intros Hwf Hl Hx Hn. destruct l as [|l]; simpl.
  - by rewrite (leaf_none_child _ _ _ _ Hwf Hx Hn).
  - by rewrite (tab_none_child root t l i x).
Qed.

Lemma tab_none_below root t l va :
  pt_wf root t → (l ≤ 2)%nat → tabs t !! (l, vkey (S l) va) = None →
  tabs t !! (O, vkey 1 va) = None.
Proof.
  intros Hwf. induction l as [|l IH]; intros Hl Hn; [done|].
  apply IH; [lia|]. rewrite <-(vkey_split (S l)).
  apply (tab_none_child root); [done|lia|apply PX_range|done].
Qed.

(** ** Looking up *)

Lemma walk_from_find l k root t va p :
  pt_wf root t → pt_mem (ram k) t → (∀ pos q, tabs t !! pos = Some q → valid_page q) →
  (l ≤ 2)%nat → tabs t !! (l, vkey (S l) va) = Some p →
  wp (walk_from l p va false) k (λ a k', k' = k ∧ a = slot t va).
Proof.
  intros Hwf Hm Hv. revert p. induction l as [|l IH]; intros p Hl Hp.
  - simpl. apply wp_ret. split; [done|]. unfold slot. by rewrite Hp.
  - simpl walk_from. wp_pure. rewrite (Hm _ _ _ _ Hp) by apply PX_range. simpl word_at.
    rewrite vkey_split. destruct (tabs t !! (l, vkey (S l) va)) as [q|] eqn:Hq; simpl pte_of.
    + destruct (pte_child q) as [Hh Hpa]; [by eapply valid_pa_ok, Hv|].
      unfold has in Hh. rewrite Hh, Hpa. apply IH; [lia|done].
    + simpl. apply wp_ret. split; [done|]. unfold slot.
      rewrite (tab_none_below root t l va); [done|done|lia|done].
Qed.

Lemma walk_find k T E r t va :
  minv k T E → T !! r = Some t → 0 ≤ va < MAXVA →
  wp (walk r va false) k (λ a k', k' = k ∧ a = slot t va).
Proof.
  intros Hi Hr Hva. unfold walk. destruct (Z.leb_spec MAXVA va); [lia|].
  apply (walk_from_find 2 k r).
  - by eapply mi_wf.
  - by eapply mi_mem.
  - intros. by eapply mi_tabs.
  - lia.
  - rewrite vkey_top by done. by eapply wf_root, mi_wf.
Qed.

(** The entry found there. *)
Lemma slot_load k T E r t va :
  minv k T E → T !! r = Some t → slot t va ≠ 0 →
  ld64 (ram k) (slot t va) = default 0 (leaves t !! vpn va).
Proof.
  intros Hi Hr Hs. unfold slot in *. destruct (tabs t !! _) as [q|] eqn:Hq; [|done].
  rewrite (mi_mem _ _ _ Hi _ _ Hr _ _ _ _ Hq) by apply (PX_range 0). unfold word_at.
  change (PX 0 va) with (PX (Z.of_nat 0) va). by rewrite vkey_split, vkey_0.
Qed.

Lemma slot_tab t va : slot t va ≠ 0 → ∃ q, tabs t !! (O, vkey 1 va) = Some q ∧ slot t va = entry q (PX 0 va).
Proof. unfold slot. destruct (tabs t !! _) as [q|]; [by exists q|done]. Qed.

Lemma slot_leaf root t va e : pt_wf root t → leaves t !! vpn va = Some e → is_Some (tabs t !! (O, vkey 1 va)).
Proof.
  intros Hwf He. destruct (wf_leaf _ _ Hwf (vpn va)) as [_ Hs]; [by eexists|].
  by rewrite (vkey_S 0), vkey_0.
Qed.

Lemma slot_found k T E r t va q :
  minv k T E → T !! r = Some t → tabs t !! (O, vkey 1 va) = Some q →
  slot t va = entry q (PX 0 va) ∧ slot t va ≠ 0.
Proof.
  intros Hi Hr Hq. unfold slot. rewrite Hq. split; [done|].
  pose proof (mi_tabs _ _ _ Hi _ _ _ _ Hr Hq) as [_ Hv].
  pose proof kend_range. pose proof (PX_range 0 va) as Hx. change (Z.of_nat 0) with 0 in Hx.
  unfold entry. Zconst. lia.
Qed.

Lemma slot_nonzero k T E r t va e :
  minv k T E → T !! r = Some t → leaves t !! vpn va = Some e → slot t va ≠ 0.
Proof.
  intros Hi Hr He. destruct (slot_leaf r t va e) as [q Hq]; [by eapply mi_wf|done|].
  by eapply slot_found.
Qed.

(** ** Adding a table page *)

Lemma word_set_tab root t l i q l' i' y :
  pt_wf root t → (l < 2)%nat → tabs t !! (l, i) = None → is_Some (tabs (set_tab (l, i) q t) !! (l', i')) →
  0 ≤ y < 512 →
  word_at (set_tab (l, i) q t) l' i' y =
  if decide ((l', 512 * i' + y) = (S l, i)) then mkpte q PTE_V
  else if decide ((l', i') = (l, i)) then 0 else word_at t l' i' y.
Proof.
  intros Hwf Hl Hn Hs Hy. destruct l' as [|l']; unfold word_at.
  - rewrite decide_False by (intros [=]). case_decide as Hd; [|done].
    injection Hd as <- <-. simpl. by rewrite (leaf_none_child root t i' y).
  - case_decide as H1.
    + simplify_eq. simpl. by rewrite lookup_insert_eq.
    + simpl tabs. rewrite lookup_insert_ne by (intros [=]; naive_solver). case_decide as Hd; [|done].
      injection Hd as <- <-. by rewrite (tab_none_child root t l' i' y) by (done || lia).
Qed.

Lemma set_tab_wf root t l i x q :
  pt_wf root t → (l < 2)%nat → 0 ≤ x < 512 → is_Some (tabs t !! (S l, i)) →
  tabs t !! (l, 512 * i + x) = None → pt_wf root (set_tab (l, 512 * i + x) q t).
Proof.
  intros Hwf Hl Hx Hp Hn. destruct (wf_tabs _ _ Hwf _ _ Hp) as [Hi0 _].
  pose proof Hwf as [Hroot Htabs Hleaf Hlm]. split; simpl; [..|done].
  - rewrite lookup_insert_ne; [done|]. intros ?; simplify_eq. lia.
  - assert (∀ l' i', is_Some (tabs t !! (l', i')) →
      is_Some (<[(l, 512 * i + x) := q]> (tabs t) !! (l', i'))) as Hmono.
    { intros l' i' H. apply lookup_insert_is_Some'. by right. }
    intros l' i' [[= <- <-]|H]%lookup_insert_is_Some'.
    + split; [lia|]. right. split; [done|]. apply Hmono.
      replace ((512 * i + x) / 512) with i; [done|].
      rewrite Z.mul_comm, Z.div_add_l, (Z.div_small x) by lia. lia.
    + destruct (Htabs _ _ H) as [? [?|[? ?]]]; split; auto.
  - intros v Hv. destruct (Hleaf _ Hv). split; [done|].
    apply lookup_insert_is_Some'. by right.
Qed.

Lemma add_tab_mem k T E r t l i x p q :
  minv k T E → T !! r = Some t → (l < 2)%nat → tabs t !! (S l, i) = Some p → 0 ≤ x < 512 →
  tabs t !! (l, 512 * i + x) = None → valid_page q → npt T q = 0 →
  (∀ y, 0 ≤ y < 512 → ld64 (ram k) (entry q y) = 0) →
  pt_mem (st64 (ram k) (entry p x) (mkpte q PTE_V)) (set_tab (l, 512 * i + x) q t).
Proof.
  intros Hi Hr Hl Hp Hx Hn Hvq Hnq Hz. assert (pt_wf r t) as Hwf by (by eapply mi_wf).
  apply pt_mem_store with (l := S l) (i := i).
  - simpl. rewrite lookup_insert_ne; [done|]. intros [=]. lia.
  - done.
  - pose proof (mkpte_range q PTE_V) as Hrg. destruct (valid_pa_ok q Hvq).
    assert (0 ≤ PTE_V < 1024) as HV by done. specialize (Hrg ltac:(lia) HV). lia.
  - simpl. by rewrite lookup_insert_eq.
  - simpl tabs. intros pos q' [[<- <-]|[Hne Hq']]%lookup_insert_Some.
    + split; [apply Hvq|]. intros ->. pose proof (tab_npt _ _ _ _ _ Hr Hp). lia.
    + split; [by eapply mi_tabs|]. intros ->.
      by destruct (minv_tab_unique _ _ _ _ _ _ _ _ _ _ Hi Hr Hr Hp Hq').
  - intros l' i' q' y Hq' Hy Hne. rewrite (word_set_tab r) by (try done; by eexists).
    rewrite decide_False; [|intros [= -> ?]; apply Hne; f_equal; [f_equal|]; lia].
    simpl tabs in Hq'. apply lookup_insert_Some in Hq' as [[[= <- <-] <-]|[Hne' Hq']].
    + rewrite decide_True by done. by apply Hz.
    + rewrite decide_False by congruence. by apply (mi_mem _ _ _ Hi _ _ Hr).
Qed.

Lemma minv_add_tab k T E r t l i x p q :
  minv k T E → T !! r = Some t → (l < 2)%nat → tabs t !! (S l, i) = Some p → 0 ≤ x < 512 →
  tabs t !! (l, 512 * i + x) = None →
  valid_page q → E q = 1 → npt T q = 0 → refs T q = 0 →
  (∀ y, 0 ≤ y < 512 → ld64 (ram k) (entry q y) = 0) →
  minv (upd_ram (λ m, st64 m (entry p x) (mkpte q PTE_V)) k)
       (<[r := set_tab (l, 512 * i + x) q t]> T) (eadd E q (-1)).
Proof.
  intros Hi Hr Hl Hp Hx Hn Hvq HEq Hnq Hrq Hz.
  set (t' := set_tab (l, 512 * i + x) q t).
  assert (pt_wf r t) as Hwf by (by eapply mi_wf).
  assert (∀ pa, npt (<[r := t']> T) pa = npt T pa + ind (q = pa)) as Hnpt.
  { intros pa. rewrite (npt_insert _ _ t) by done. subst t'. rewrite ntab_set_tab by done. lia. }
  assert (∀ pa, refs (<[r := t']> T) pa = refs T pa) as Hrefs.
  { intros pa. rewrite (refs_insert _ _ t) by done. unfold nref. simpl. lia. }
  assert (∀ pos q', tabs t' !! pos = Some q' → valid_page q') as Htb.
  { subst t'. simpl. intros pos q' [[_ <-]|[_ ?]]%lookup_insert_Some; [done|by eapply mi_tabs]. }
  eapply minv_store; [exact Hi|exact Hr|exact Hp|done|..].
  - by apply set_tab_wf.
  - by eapply add_tab_mem.
  - exact Htb.
  - intros v e. apply (mi_leaf _ _ _ Hi _ _ _ _ Hr).
  - intros pa. rewrite Hnpt, Hrefs. unfold eadd, ind. case_decide; lia.
  - intros pa. rewrite Hnpt, Hrefs. unfold eadd, ind.
    pose proof (mi_pt _ _ _ Hi pa). case_decide; [subst; lia|lia].
  - intros r' t1 v e Hr' He Hlim Hu Hw. rewrite Hrefs.
    assert (refs T (PTE2PA e) = 1 ∧ E (PTE2PA e) ≤ 0) as [H1 H2].
    { apply lookup_insert_Some in Hr' as [[<- <-]|[_ ?]]; [|by eapply (mi_w _ _ _ Hi r' t1 v)].
      by eapply (mi_w _ _ _ Hi r t v). }
    split; [done|]. unfold eadd. case_decide; lia.
Qed.

(** ** walk() with alloc *)

Lemma fresh_facts k T E p :
  minv k T E → Eok E → valid_page p → cnt k p = 0 → npt T p = 0 ∧ refs T p = 0 ∧ E p = 0.
Proof.
  intros Hi HE Hv H0. rewrite (mi_cnt _ _ _ Hi) in H0 by done.
  pose proof (npt_nonneg T p). pose proof (refs_nonneg T p). specialize (HE p). lia.
Qed.

(** A page fresh from kalloc() may be overwritten. *)
Lemma minv_fill k T E p c :
  minv k T E → valid_page p → npt T p = 0 → 0 < cnt k p →
  minv (upd_ram (λ r, memset r p c PGSIZE) k) T E.
Proof.
  intros Hi Hv Hn Hc. apply (minv_ram (λ q, q = p)); [done| |by intros q ->].
  apply only_pages_memset; [apply Hv|Zconst; lia].
Qed.

Lemma eadd_back E p n q : eadd (eadd E p n) p (- n) q = E q.
Proof. unfold eadd. case_decide; lia. Qed.

Lemma touch_insert T E r t t' q :
  T !! r = Some t → leaves t' = leaves t → lim t' = lim t →
  touch (<[r := t']> T) E q ↔ touch T E q.
Proof.
  intros Hr Hl Hm. unfold touch. rewrite (refs_insert _ _ t) by done.
  unfold nref. rewrite Hl, Hm.
  replace (refs T q - msum (λ v e, ind (v < lim t ∧ PTE2PA e = q)) (leaves t) +
           msum (λ v e, ind (v < lim t ∧ PTE2PA e = q)) (leaves t)) with (refs T q) by lia. done.
Qed.

(** What walk() with alloc does to the table: it may add table pages. *)
Record grown (t t' : pgtab) : Prop := {
  gr_tabs : tabs t ⊆ tabs t';
  gr_leaves : leaves t' = leaves t;
  gr_lim : lim t' = lim t;
}.

#[export] Instance grown_preorder : PreOrder grown.
Proof.
  split; [by split|]. intros t1 t2 t3 [H1 H2 H3] [H4 H5 H6].
  split; [by etrans|congruence|congruence].
Qed.

Definition walk_post n k T E r t va (a : Z) k' : Prop :=
  ∃ t', minv k' (<[r := t']> T) E ∧ kframe k k' ∧ grown t t' ∧
    only_pages (touch T E) (ram k) (ram k') ∧ a = slot t' va ∧
    taken n k k' ∧ (a = 0 ∧ oom k' ∨ a ≠ 0).

Lemma touch_tab k T E r t pos p :
  minv k T E → T !! r = Some t → tabs t !! pos = Some p → touch T E p.
Proof.
  intros Hi Hr Hp. pose proof (minv_tab_npt _ _ _ _ _ _ _ Hi Hr Hp).
  split; [by eapply mi_tabs|]. destruct (mi_pt _ _ _ Hi p); lia.
Qed.

(** kalloc() and memset() to zero, as all callers that keep the page do it. *)
Lemma zalloc {X} k T E (fail : K X) (kont : Z → K X) Q :
  minv k T E → Eok E →
  (∀ k', kframe k k' → minv k' T E → ram k' = ram k → oom k' → taken 0 k k' → wp fail k' Q) →
  (∀ p k', valid_page p → kframe k k' → minv k' T (eadd E p 1) → touch T E p → npt T p = 0 →
     only_pages (λ q, q = p) (ram k) (ram k') → (∀ a, page a = p → ldb (ram k') a = 0) → taken 1 k k' →
     wp (kont p) k' Q) →
  wp (p ← kalloc; if p =? 0 then fail else do_memset p 0 PGSIZE;; kont p) k Q.
Proof.
  intros Hi HE Hfail Hk. wp_pure.
  eapply wp_mono; [by apply kalloc_minv|]. intros p k1 [Hkf [Hz|Hz]].
  - destruct Hz as (-> & Hi1 & Er & Ek & Ho). simpl.
    apply Hfail; try done; [|by apply taken_refs]. intros pa Hv. unfold cnt. rewrite Ek. by apply Ho.
  - destruct Hz as (Hv & H0 & Hi1 & Hc & Hop & _).
    destruct (fresh_facts _ _ _ _ Hi HE Hv H0) as (Hn0 & Hr0 & HE0).
    pose proof (valid_nonzero _ Hv) as Hnz. destruct (Z.eqb_spec p 0); [done|].
    unfold do_memset. wp_pure. apply Hk; [exact Hv| | | |exact Hn0| | |].
    + etrans; [exact Hkf|]. by split.
    + apply minv_fill; [done..|]. rewrite Hc by (by apply valid_ram). rewrite decide_True by done. lia.
    + by split.
    + eapply only_pages_trans; [exact Hop|]. apply only_pages_memset; [apply Hv|Zconst; lia].
    + intros a Ha. cbn [ram upd_ram]. rewrite memset_spec, decide_True; [done|].
      pose proof (page_range a). lia.
    + apply (taken_page _ _ p). intros pa Hv' Hne. change (cnt k1 pa = cnt k pa).
      rewrite Hc by (by apply valid_ram). by rewrite decide_False by congruence.
Qed.

(** The step of walk() that adds a page. *)
Lemma walk_new k T E r t l i x p (kont : Z → K Z) (Q : Z → kernel → Prop) :
  minv k T E → Eok E → T !! r = Some t → (l < 2)%nat → tabs t !! (S l, i) = Some p →
  0 ≤ x < 512 → tabs t !! (l, 512 * i + x) = None →
  (∀ k', kframe k k' → minv k' T E → ram k' = ram k → oom k' → taken 0 k k' → Q 0 k') →
  (∀ q k', valid_page q → kframe k k' → only_pages (touch T E) (ram k) (ram k') →
     minv k' (<[r := set_tab (l, 512 * i + x) q t]> T) E → taken 1 k k' → wp (kont q) k' Q) →
  wp (q ← kalloc;
      if q =? 0 then mret 0 else
      do_memset q 0 PGSIZE;;
      store64 (entry p x) (Z.lor (PA2PTE q) PTE_V);; kont q) k Q.
Proof.
  intros Hi HE Hr Hl Hp Hx Hn Hoom Hok. apply (zalloc k T E); [done..| |].
  - intros k' Hkf Hi' Er Ho Htk. apply wp_ret. by apply Hoom.
  - intros q k1 Hv Hkf Hi1 Htq Hn0 Hop Hz Htk. wp_pure.
    assert (aligned p) as Hal by (by apply (mi_tabs _ _ _ Hi _ _ _ _ Hr Hp)).
    apply Hok; [exact Hv| | | |exact Htk].
    + etrans; [exact Hkf|]. by split.
    + eapply only_pages_trans; eapply only_pages_weaken; [|exact Hop| |].
      3:{ unfold entry. apply only_pages_st64; [done|lia|Zconst; lia]. }
      * by intros ? ->.
      * intros ? ->. by eapply touch_tab.
    + destruct Htq as (_ & Hr0 & HE0).
      eapply minv_ext; [apply (eadd_back E q 1)|].
      apply (minv_add_tab _ _ _ r t l i x p q Hi1); try done.
      * unfold eadd. rewrite decide_True by done. lia.
      * intros y Hy. apply ld64_zero. intros b Hb. apply Hz. unfold entry in Hb.
        replace b with (q + (b - q)) by lia. apply page_offset; [apply Hv|Zconst; lia].
Qed.

Lemma walk_from_alloc l k T E r t va p :
  minv k T E → Eok E → T !! r = Some t → (l ≤ 2)%nat → tabs t !! (l, vkey (S l) va) = Some p →
  wp (walk_from l p va true) k (walk_post l k T E r t va).
Proof.
  revert k T t p. induction l as [|l IH]; intros k T t p Hi HE Hr Hl Hp.
  - simpl. apply wp_ret. exists t. rewrite insert_id by done.
    destruct (slot_found _ _ _ _ _ _ _ Hi Hr Hp) as [<- ?].
    split_and!; [done|reflexivity|reflexivity|by apply only_pages_refl|done|by apply taken_refs|by right].
  - pose proof (mi_wf _ _ _ Hi _ _ Hr) as Hwf. simpl walk_from. wp_pure.
    rewrite (mi_mem _ _ _ Hi _ _ Hr _ _ _ _ Hp) by apply PX_range. simpl word_at.
    rewrite vkey_split. destruct (tabs t !! (l, vkey (S l) va)) as [q|] eqn:Hq; simpl pte_of.
    + destruct (pte_child q) as [Hh Hpa]; [by eapply valid_pa_ok, mi_tabs|].
      unfold has in Hh. rewrite Hh, Hpa. eapply wp_mono; [apply IH; try done; lia|]. intros a k' (t' & H1 & H2 & H3 & H4 & H5 & H6 & H7).
      exists t'. split_and!; try done. eapply taken_le; [|done]. lia.
    + simpl nz. cbn [negb].
      eapply (walk_new k T E r t l (vkey (S (S l)) va)); try done; [apply PX_range|..].
      * by rewrite vkey_split.
      * intros k' Hkf Hi' Er Ho Htk. exists t. rewrite insert_id by done.
        rewrite Er. split_and!; [done|done|reflexivity|apply only_pages_refl| | |by left].
        { unfold slot. rewrite (tab_none_below r t l va); [done|done|lia|done]. }
        by apply (taken_le 0); [lia|].
      * rewrite vkey_split. intros q k' Hv Hkf Hop Hi' Htk.
        set (t1 := set_tab (l, vkey (S l) va) q t) in *.
        assert (grown t t1) as Hg by (split; [by apply insert_subseteq|done..]).
        eapply wp_mono.
        { apply (IH k' (<[r := t1]> T) t1 q); [exact Hi'|done|apply lookup_insert_eq|lia|].
          subst t1. simpl. apply lookup_insert_eq. }
        intros a k2 (t2 & Hi2 & Hkf2 & Hg2 & Hop2 & Ha & Htk2 & Hz).
        exists t2. rewrite insert_insert_eq in Hi2. split_and!; [done|by etrans|by etrans| |done|by apply (taken_trans 1 l _ k')|done].
        eapply only_pages_trans; [exact Hop|]. eapply only_pages_weaken; [|exact Hop2].
        intros z. by apply (touch_insert T E r t t1).
Qed.

Lemma walk_alloc k T E r t va :
  minv k T E → Eok E → T !! r = Some t → 0 ≤ va < MAXVA →
  wp (walk r va true) k (walk_post 2 k T E r t va).
Proof.
  intros Hi HE Hr Hva. unfold walk. destruct (Z.leb_spec MAXVA va); [lia|].
  apply walk_from_alloc; try done. rewrite vkey_top by done. by eapply wf_root, mi_wf.
Qed.

(** ** Changing a leaf *)

Definition put_leaf (v : Z) (o : option Z) (t : pgtab) : pgtab :=
  set_leaves (partial_alter (λ _, o) v) t.

Definition opt_ref (lim v : Z) (o : option Z) (pa : Z) : Z :=
  match o with Some e => ind (v < lim ∧ PTE2PA e = pa) | None => 0 end.

Lemma put_leaf_lookup v o t v' :
  leaves (put_leaf v o t) !! v' = if decide (v = v') then o else leaves t !! v'.
Proof.
  simpl. case_decide.
  - subst. apply lookup_partial_alter_eq.
  - by apply lookup_partial_alter_ne.
Qed.

Lemma put_leaf_nref v o t pa :
  nref (put_leaf v o t) pa = nref t pa - leaf_ref t v pa + opt_ref (lim t) v o pa.
Proof.
  unfold put_leaf. destruct o as [e|].
  - apply (nref_insert t v e pa).
  - simpl opt_ref. rewrite Z.add_0_r. apply (nref_delete t v pa).
Qed.

Lemma refs_put_leaf T r t v o pa :
  T !! r = Some t →
  refs (<[r := put_leaf v o t]> T) pa = refs T pa - leaf_ref t v pa + opt_ref (lim t) v o pa.
Proof. intros Hr. rewrite (refs_insert _ _ t), put_leaf_nref by done. lia. Qed.

Lemma npt_put_leaf T r t v o pa :
  T !! r = Some t → npt (<[r := put_leaf v o t]> T) pa = npt T pa.
Proof. intros Hr. rewrite (npt_insert _ _ t) by done. unfold ntab. simpl. lia. Qed.

Lemma word_put_leaf v o t l i x :
  0 ≤ x < 512 →
  word_at (put_leaf v o t) l i x =
  if decide ((l, i, x) = (O, v / 512, v mod 512)) then default 0 o else word_at t l i x.
Proof.
  intros Hx. destruct l as [|l]; unfold word_at.
  - rewrite put_leaf_lookup. pose proof (entry_div v).
    pose proof (Z.mod_pos_bound v 512 ltac:(lia)). case_decide as H1; case_decide as H2; try done.
    + destruct H2. f_equal; [f_equal|]; lia.
    + destruct H1. injection H2 as -> ->. lia.
  - rewrite decide_False by (intros [=]). done.
Qed.

Lemma put_leaf_wf root t v o :
  pt_wf root t → 0 ≤ v → is_Some (tabs t !! (O, v / 512)) → pt_wf root (put_leaf v o t).
Proof.
  intros [H1 H2 H3 H4] Hv Hs. split; [done|done| |done]. intros v'. rewrite put_leaf_lookup.
  case_decide; [by subst|apply H3].
Qed.

Lemma minv_set_leaf k T E E' r t v o q :
  minv k T E → T !! r = Some t → tabs t !! (O, v / 512) = Some q → 0 ≤ v →
  (∀ e, o = Some e → leaf_ok (lim t) v e) →
  (∀ pa, refs (<[r := put_leaf v o t]> T) pa + E' pa = refs T pa + E pa) →
  (∀ pa, npt T pa = 1 → refs (<[r := put_leaf v o t]> T) pa = 0 ∧ E' pa = 0) →
  (∀ e, o = Some e → v < lim t → has e PTE_U = true → has e PTE_W = true →
     refs (<[r := put_leaf v o t]> T) (PTE2PA e) = 1 ∧ E' (PTE2PA e) ≤ 0) →
  (∀ r' t' v' e, T !! r' = Some t' → leaves t' !! v' = Some e → v' < lim t' →
     (r', v') ≠ (r, v) → has e PTE_U = true → has e PTE_W = true →
     refs (<[r := put_leaf v o t]> T) (PTE2PA e) = 1 ∧ E' (PTE2PA e) ≤ 0) →
  minv (upd_ram (λ m, st64 m (entry q (v mod 512)) (default 0 o)) k)
       (<[r := put_leaf v o t]> T) E'.
Proof.
  intros Hi Hr Hq Hv0 Hok Hsum Hpt Hnew Hold.
  pose proof (mi_wf _ _ _ Hi _ _ Hr) as Hwf.
  pose proof (Z.mod_pos_bound v 512 ltac:(lia)) as Hx.
  eapply minv_store; [exact Hi|exact Hr|exact Hq|done|..].
  - apply put_leaf_wf; [done|done|by eexists].
  - apply pt_mem_store with (l := O) (i := v / 512); [done|done| | | |].
    + destruct o as [e|]; simpl; [|lia]. pose proof (lo_range _ _ _ (Hok e eq_refl)). lia.
    + rewrite word_put_leaf by done. by rewrite decide_True.
    + intros pos p Hp. split; [by eapply (mi_tabs _ _ _ Hi _ _ _ _ Hr Hp)|]. intros ->.
      by destruct (minv_tab_unique _ _ _ _ _ _ _ _ _ _ Hi Hr Hr Hp Hq).
    + intros l i p y Hp Hy Hne. rewrite word_put_leaf, decide_False by done.
      by apply (mi_mem _ _ _ Hi _ _ Hr).
  - intros pos p Hp. by apply (mi_tabs _ _ _ Hi _ _ _ _ Hr Hp).
  - intros v' e. rewrite put_leaf_lookup. case_decide.
    + subst v'. apply Hok.
    + apply (mi_leaf _ _ _ Hi _ _ _ _ Hr).
  - intros pa. rewrite npt_put_leaf by done. specialize (Hsum pa). lia.
  - intros pa. rewrite npt_put_leaf by done.
    destruct (mi_pt _ _ _ Hi pa) as [?|[H1 _]]; [by left|right].
    destruct (Hpt pa H1). lia.
  - intros r' t1 v' e Hr' He Hl Hu Hw.
    apply lookup_insert_Some in Hr' as [[<- <-]|[Hne Hr']].
    + rewrite put_leaf_lookup in He. case_decide as Hd; [subst v'; by apply Hnew|].
      apply (Hold r t v'); try done. congruence.
    + apply (Hold r' t1 v'); try done. congruence.
Qed.
End walk.
