(* ===== verification/VmMap.v ===== *)
(** * Adding and removing mappings

    mappages(), kvmmap(), uvmunmap(), uvmdealloc() and uvmalloc() on the
    abstract table: they insert into and delete from its leaves, and keep the
    memory invariant. *)

From stdpp Require Import gmap list strings.
From Stdlib Require Import ZArith Lia.
From S2P Require Import Prelude Mem Str Params Machine Spinlock Kalloc Vm PageTable VmWalk.
#[local] Open Scope Z_scope.

(** A counting mapping takes over one external reference to the page. *)
Definition emap (lim v pa : Z) (E : Z → Z) : Z → Z :=
  if decide (v < lim) then eadd E pa (-1) else E.

Section map.
Context `{LNK : !Linker, LOK : !LinkerOk}.
Implicit Types (k : kernel) (T : tables) (E : Z → Z).

(** No user mapping may write the page. *)
Definition no_writer T (pa : Z) : Prop :=
  ∀ r t v e, T !! r = Some t → leaves t !! v = Some e → v < lim t →
    has e PTE_U = true → has e PTE_W = true → PTE2PA e ≠ pa.

(** When [e] may become the entry for page [v] of a table with limit [lm]. *)
Record mapping_ok T E (lm v e : Z) : Prop := {
  mo_leaf : leaf_ok lm v e;
  mo_used : v < lm → 0 < refs T (PTE2PA e) + E (PTE2PA e);
  mo_excl : v < lm → has e PTE_U = true → has e PTE_W = true →
            refs T (PTE2PA e) = 0 ∧ E (PTE2PA e) ≤ 1;
  mo_nowr : v < lm → no_writer T (PTE2PA e);
}.

Lemma no_writer_insert T r t t' pa :
  T !! r = Some t → leaves t' = leaves t → lim t' = lim t →
  no_writer T pa → no_writer (<[r := t']> T) pa.
Proof.
  intros Hr Hl Hm Hn r1 t1 v e [[<- <-]|[_ Hr1]]%lookup_insert_Some; [|by apply (Hn r1)].
  rewrite Hl, Hm. by apply (Hn r).
Qed.

Lemma refs_grown T r t t' pa :
  T !! r = Some t → grown t t' → refs (<[r := t']> T) pa = refs T pa.
Proof.
  intros Hr [_ Hl Hm]. rewrite (refs_insert _ _ t) by done. unfold nref. rewrite Hl, Hm. lia.
Qed.

Lemma mapping_ok_grown T E lm v e r t t' :
  T !! r = Some t → grown t t' → mapping_ok T E lm v e → mapping_ok (<[r := t']> T) E lm v e.
Proof.
  intros Hr Hg [H1 H2 H3 H4]. split; [done|rewrite (refs_grown _ _ t); done..|].
  intros Hlt. eapply no_writer_insert; [exact Hr|apply Hg..|auto].
Qed.

Lemma leaf_ref_none t v pa : leaves t !! v = None → leaf_ref t v pa = 0.
Proof. intros H. unfold leaf_ref. by rewrite H. Qed.

(** Writing a new leaf. *)
Lemma minv_new_leaf k T E r t v e q :
  minv k T E → T !! r = Some t → tabs t !! (O, v / 512) = Some q → 0 ≤ v →
  leaves t !! v = None → mapping_ok T E (lim t) v e →
  minv (upd_ram (λ m, st64 m (entry q (v mod 512)) e) k)
       (<[r := put_leaf v (Some e) t]> T) (emap (lim t) v (PTE2PA e) E).
Proof.
  intros Hi Hr Hq Hv Hnone [Hok Hused Hexcl Hnw].
  assert (∀ pa, refs (<[r := put_leaf v (Some e) t]> T) pa =
                refs T pa + ind (v < lim t ∧ PTE2PA e = pa)) as Hrefs.
  { intros pa. rewrite refs_put_leaf, leaf_ref_none by done. simpl. lia. }
  assert (∀ pa, emap (lim t) v (PTE2PA e) E pa = E pa - ind (v < lim t ∧ PTE2PA e = pa)) as HE.
  { intros pa. unfold emap, eadd, ind. repeat case_decide; naive_solver lia. }
  apply (minv_set_leaf k T E _ r t v (Some e) q); try done.
  - by intros ? [= <-].
  - intros pa. rewrite Hrefs, HE. lia.
  - intros pa Hn. rewrite Hrefs, HE. destruct (mi_pt _ _ _ Hi pa) as [?|(_ & H1 & H2)]; [lia|].
    rewrite ind_false; [lia|]. intros [Hl <-]. specialize (Hused Hl). lia.
  - intros ? [= <-] Hl Hu Hw. rewrite Hrefs, HE, ind_true by done.
    destruct (Hexcl Hl Hu Hw). lia.
  - intros r' t' v' e' Hr' He' Hl' _ Hu Hw.
    destruct (mi_w _ _ _ Hi _ _ _ _ Hr' He' Hl' Hu Hw). rewrite Hrefs, HE.
    rewrite ind_false; [lia|]. intros [Hl Heq]. by apply (Hnw Hl r' t' v' e').
Qed.

Lemma slot_key va : vkey 1 va = vpn va / 512 ∧ PX 0 va = vpn va mod 512.
Proof. split; [by rewrite (vkey_S 0), vkey_0|]. apply (PX_vkey 0). Qed.

Lemma vpn_nonneg va : 0 ≤ va → 0 ≤ vpn va.
Proof. intros. apply Z.div_pos; Zconst; lia. Qed.

Lemma only_pages_entry r q x w :
  aligned q → 0 ≤ x < 512 → only_pages (λ p, p = q) r (st64 r (entry q x) w).
Proof. intros. unfold entry. apply only_pages_st64; [done|lia|Zconst; lia]. Qed.

(** The body of mappages(): one page, and then [kont]; or no memory, and [fail]. *)
Definition map_done k T E r t a e k' : Prop :=
  ∃ t', minv k' (<[r := put_leaf (vpn a) (Some e) t']> T) (emap (lim t) (vpn a) (PTE2PA e) E) ∧
    kframe k k' ∧ grown t t' ∧ only_pages (touch T E) (ram k) (ram k') ∧ taken 2 k k'.
Definition map_failed k T E r t k' : Prop :=
  ∃ t', minv k' (<[r := t']> T) E ∧ kframe k k' ∧ grown t t' ∧
    only_pages (touch T E) (ram k) (ram k') ∧ oom k' ∧ taken 2 k k'.

Lemma map_one {X} k T E r t a e (kont fail : K X) Q :
  minv k T E → Eok E → T !! r = Some t → 0 ≤ a < MAXVA → leaves t !! vpn a = None →
  mapping_ok T E (lim t) (vpn a) e →
  (∀ k', map_failed k T E r t k' → wp fail k' Q) →
  (∀ k', map_done k T E r t a e k' → wp kont k' Q) →
  wp (pte ← walk r a true;
      if pte =? 0 then fail else
      e0 ← load64 pte;
      if nz (Z.land e0 PTE_V) then panic "mappages: remap" else
      store64 pte e;; kont) k Q.
Proof.
  intros Hi HE Hr Ha Hnone Hmo Hfail Hdone. wp_pure.
  eapply wp_mono; [by apply walk_alloc|].
  intros pte k1 (t1 & Hi1 & Hkf & Hg & Hop & -> & Htk & [[-> Ho]|Hnz]).
  { simpl. apply Hfail. by exists t1. }
  destruct (Z.eqb_spec (slot t1 a) 0); [done|]. wp_pure.
  assert (<[r := t1]> T !! r = Some t1) as Hr1 by apply lookup_insert_eq.
  rewrite (slot_load _ _ _ _ _ _ Hi1 Hr1) by done.
  rewrite (gr_leaves _ _ Hg), Hnone. simpl. wp_pure.
  destruct (slot_tab _ _ Hnz) as (q & Hq & ->).
  destruct (slot_key a) as [E1 E2]. rewrite E1 in Hq. rewrite E2.
  apply Hdone. exists t1. pose proof (gr_lim _ _ Hg) as Hlim. split_and!; [| |done| |exact Htk].
  - rewrite <-Hlim, <-(insert_insert_eq T r (put_leaf _ _ t1) t1).
    apply minv_new_leaf; try done.
    + apply vpn_nonneg. lia.
    + by rewrite (gr_leaves _ _ Hg).
    + rewrite Hlim. by eapply mapping_ok_grown.
  - etrans; [exact Hkf|]. by split.
  - eapply only_pages_trans; [exact Hop|]. eapply only_pages_weaken; [|apply only_pages_entry].
    + intros ? ->. apply (touch_insert T E r t t1); [done|apply Hg..|]. by eapply touch_tab.
    + by eapply (mi_tabs _ _ _ Hi1).
    + apply Z.mod_pos_bound. lia.
Qed.

(** ** mappages() of one page *)

Lemma page_add_sub va : aligned va → 0 ≤ va → va + PGSIZE ≤ 2 ^ 64 →
  PGROUNDDOWN va = va ∧ PGROUNDDOWN (u64 (va + PGSIZE - 1)) = va.
Proof.
  intros Hal H0 H1. rewrite !PGROUNDDOWN_page, page_id by done. split; [done|].
  rewrite u64_small by (Zconst; lia).
  replace (va + PGSIZE - 1) with (va + (PGSIZE - 1)) by lia.
  apply page_offset; [done|Zconst; lia].
Qed.

Lemma mappages_page k T E r t va pa perm :
  minv k T E → Eok E → T !! r = Some t → aligned va → 0 ≤ va < MAXVA →
  leaves t !! vpn va = None → mapping_ok T E (lim t) (vpn va) (mkpte pa (Z.lor perm PTE_V)) →
  wp (mappages r va PGSIZE pa perm) k (λ c k',
    c = 0 ∧ map_done k T E r t va (mkpte pa (Z.lor perm PTE_V)) k' ∨
    c = -1 ∧ map_failed k T E r t k').
Proof.
  intros Hi HE Hr Hal Hva Hnone Hmo. unfold mappages. cbn [Z.eqb PGSIZE].
  destruct (page_add_sub va) as [-> ->]; [done|lia|Zconst; lia|].
  apply (wp_loop _ (λ x s, x = (va, pa) ∧ s = k) (λ _ _, 0)); [|done|lia].
  intros x s [-> ->]. cbv beta iota.
  rewrite <-Z.lor_assoc. fold (mkpte pa (Z.lor perm PTE_V)).
  eapply map_one; try done.
  - intros k' Hk'. apply wp_break. by right.
  - intros k' Hk'. rewrite Z.eqb_refl. apply wp_break. by left.
Qed.

(** ** uvmunmap() *)

Definition clear_range (v0 v1 : Z) (t : pgtab) : pgtab :=
  set_leaves (filter (λ p, ¬ (v0 ≤ p.1 < v1))) t.

Lemma clear_range_lookup v0 v1 t v :
  leaves (clear_range v0 v1 t) !! v =
  if decide (v0 ≤ v < v1) then None else leaves t !! v.
Proof.
  simpl. rewrite map_lookup_filter. destruct (leaves t !! v) as [e|]; simpl.
  - repeat case_guard; case_decide; naive_solver.
  - by case_decide.
Qed.

Lemma pgtab_eq (t t' : pgtab) :
  tabs t = tabs t' → lim t = lim t' → (∀ v, leaves t !! v = leaves t' !! v) → t = t'.
Proof.
  destruct t as [a b c], t' as [a' b' c']; simpl. intros -> -> H. f_equal. by apply map_eq.
Qed.

Lemma clear_range_empty v0 v1 t : v1 ≤ v0 → clear_range v0 v1 t = t.
Proof.
  intros. apply pgtab_eq; [done..|]. intros v. rewrite clear_range_lookup.
  case_decide; [lia|done].
Qed.

Lemma clear_range_step v0 v1 t :
  v0 ≤ v1 → put_leaf v1 None (clear_range v0 v1 t) = clear_range v0 (v1 + 1) t.
Proof.
  intros. apply pgtab_eq; [done..|]. intros v. rewrite put_leaf_lookup, !clear_range_lookup.
  repeat case_decide; try done; lia.
Qed.

(** Removing one leaf. *)
Lemma minv_del_leaf k T E E' r t v e q :
  minv k T E' → (∀ pa, E' pa = E pa - ind (v < lim t ∧ PTE2PA e = pa)) →
  T !! r = Some t → tabs t !! (O, v / 512) = Some q → 0 ≤ v → leaves t !! v = Some e →
  minv (upd_ram (λ m, st64 m (entry q (v mod 512)) 0) k) (<[r := put_leaf v None t]> T) E.
Proof.
  intros Hi HE Hr Hq Hv He.
  assert (∀ pa, refs (<[r := put_leaf v None t]> T) pa =
                refs T pa - ind (v < lim t ∧ PTE2PA e = pa)) as Hrefs.
  { intros pa. rewrite refs_put_leaf by done. unfold leaf_ref. rewrite He. simpl. lia. }
  apply (minv_set_leaf k T E' E r t v None q); try done.
  - intros pa. rewrite Hrefs, HE. lia.
  - intros pa Hn. rewrite Hrefs. destruct (mi_pt _ _ _ Hi pa) as [?|(_ & H1 & H2)]; [lia|].
    rewrite HE in H2. rewrite ind_false in *; [lia|..]; intros [Hl <-];
      pose proof (leaf_refs _ _ _ _ _ Hr He Hl); lia.
  - intros r' t' v' e' Hr' He' Hl' Hne Hu Hw.
    destruct (mi_w _ _ _ Hi _ _ _ _ Hr' He' Hl' Hu Hw) as [H1 H2]. rewrite Hrefs.
    rewrite HE in H2. rewrite ind_false in *; [lia|..]; intros [Hl Heq];
      (destruct (leaf_unique T r t v e r' t' v' e'); [rewrite Heq; lia|congruence..]).
Qed.

Definition unmapped k T E r t' k' : Prop :=
  minv k' (<[r := t']> T) E ∧ kframe k k' ∧ only_pages (touch (<[r := t']> T) E) (ram k) (ram k').

Lemma leaf_not_table lm v e : leaf_ok lm v e → (PTE_FLAGS e =? PTE_V) = false.
Proof.
  intros Hl. destruct (Z.eqb_spec (PTE_FLAGS e) PTE_V) as [Hf|]; [|done].
  pose proof (lo_rx _ _ _ Hl) as H. rewrite has_flags, Hf in H by done. done.
Qed.

Lemma leaf_present lm v e : leaf_ok lm v e → (Z.land e PTE_V =? 0) = false.
Proof.
  intros Hl. pose proof (lo_v _ _ _ Hl) as H. unfold has, nz in H.
  by destruct (Z.land e PTE_V =? 0).
Qed.

Lemma refs_clear T r t v e pa :
  T !! r = Some t → leaves t !! v = Some e →
  refs (<[r := put_leaf v None t]> T) pa = refs T pa - ind (v < lim t ∧ PTE2PA e = pa).
Proof.
  intros Hr He. rewrite refs_put_leaf by done. unfold leaf_ref. rewrite He. simpl. lia.
Qed.

(** The page of a mapping has a reference, and is not a page-table page. *)
Lemma mapped_page k T E r t v e :
  minv k T E → Eok E → T !! r = Some t → leaves t !! v = Some e → v < lim t →
  valid_page (PTE2PA e) ∧ 1 ≤ refs T (PTE2PA e) ∧ npt T (PTE2PA e) = 0 ∧
  cnt k (PTE2PA e) = refs T (PTE2PA e) + E (PTE2PA e).
Proof.
  intros Hi HE Hr He Hl. pose proof (leaf_refs _ _ _ _ _ Hr He Hl).
  assert (valid_page (PTE2PA e)) as Hv by (by eapply lo_page; [by eapply mi_leaf|]).
  pose proof (mi_cnt _ _ _ Hi _ Hv). destruct (mi_pt _ _ _ Hi (PTE2PA e)); split_and!; try lia; done.
Qed.

(** The body of uvmunmap(). *)
Lemma unmap_one {X} k T E r t a e (do_free : bool) (kont : K X) Q :
  minv k T E → Eok E → T !! r = Some t → 0 ≤ a < MAXVA → leaves t !! vpn a = Some e →
  (if do_free then vpn a < lim t else lim t ≤ vpn a) →
  (∀ k', unmapped k T E r (put_leaf (vpn a) None t) k' → wp kont k' Q) →
  wp (pte ← walk r a false;
      if pte =? 0 then panic "uvmunmap: walk" else
      e ← load64 pte;
      if Z.land e PTE_V =? 0 then panic "uvmunmap: not mapped" else
      if PTE_FLAGS e =? PTE_V then panic "uvmunmap: not a leaf" else
      when do_free (e' ← load64 pte; kfree (PTE2PA e'));;
      store64 pte 0;; kont) k Q.
Proof.
  intros Hi HE Hr Ha He Hlim Hk. wp_pure. eapply wp_mono; [by eapply walk_find|].
  intros ? ? [-> ->]. pose proof (slot_nonzero _ _ _ _ _ _ _ Hi Hr He) as Hnz.
  destruct (Z.eqb_spec (slot t a) 0); [done|]. wp_pure.
  pose proof (slot_load _ _ _ _ _ _ Hi Hr Hnz) as Hld. rewrite He in Hld. rewrite Hld. simpl default.
  pose proof (mi_leaf _ _ _ Hi _ _ _ _ Hr He) as Hok.
  rewrite (leaf_present _ _ _ Hok), (leaf_not_table _ _ _ Hok).
  destruct (slot_tab _ _ Hnz) as (q & Hq & Hs). destruct (slot_key a) as [E1 E2].
  rewrite E1 in Hq. rewrite Hs, E2 in *.
  assert (touch T E q) as Htq by (by eapply touch_tab).
  assert (∀ pa, refs (<[r := put_leaf (vpn a) None t]> T) pa ≤ refs T pa) as Hle.
  { intros pa. rewrite (refs_clear T r t _ e) by done.
    pose proof (ind_range (vpn a < lim t ∧ PTE2PA e = pa)). lia. }
  assert (touch (<[r := put_leaf (vpn a) None t]> T) E q) as Htq'.
  { destruct Htq as (? & ? & ?). split_and!; try done. specialize (Hle q).
    pose proof (refs_nonneg (<[r := put_leaf (vpn a) None t]> T) q). lia. }
  assert (0 ≤ vpn a) as Hv0 by (apply vpn_nonneg; lia).
  assert (aligned q) as Hal by apply Htq.
  assert (0 ≤ vpn a mod 512 < 512) as Hx by (apply Z.mod_pos_bound; lia).
  destruct do_free.
  - wp_pure. rewrite Hld. simpl default.
    destruct (mapped_page _ _ _ _ _ _ _ Hi HE Hr He Hlim) as (Hv & Hr1 & Hn0 & Hc).
    specialize (HE (PTE2PA e)).
    eapply wp_mono; [apply (kfree_minv k T E); [done|done|lia|done]|].
    intros _ k1 [[Hkf _ Hc1 Hop] Hi1]. wp_pure. apply Hk. split_and!.
    + eapply (minv_del_leaf k1 T E _ r t _ e q Hi1); try done.
      intros pa. unfold eadd, ind. repeat case_decide; naive_solver lia.
    + etrans; [exact Hkf|]. by split.
    + eapply only_pages_trans; eapply only_pages_weaken; [|exact Hop| |by apply only_pages_entry].
      * intros ? [-> H1]. split; [done|]. rewrite (refs_clear T r t _ e), ind_true by done. lia.
      * by intros ? ->.
  - wp_pure. apply Hk. split_and!.
    + eapply (minv_del_leaf k T E E r t _ e q); try done.
      intros pa. rewrite ind_false; lia.
    + by split.
    + eapply only_pages_weaken; [|by apply only_pages_entry]. by intros ? ->.
Qed.

(** The pages [v0 .. v1) are mapped, all of them counting or none. *)
Definition mapped_range (t : pgtab) (v0 v1 : Z) (counted : bool) : Prop :=
  ∀ v, v0 ≤ v < v1 →
    is_Some (leaves t !! v) ∧ (if counted then v < lim t else lim t ≤ v).

Lemma vpn_add a n : aligned a → vpn (a + n * PGSIZE) = vpn a + n.
Proof. intros _. unfold vpn. by rewrite Z.div_add by done. Qed.

Lemma touch_mono T E r t1 t2 q :
  T !! r = Some t1 ∨ is_Some (T !! r) →
  (∀ pa, nref t2 pa ≤ nref t1 pa) →
  touch (<[r := t1]> T) E q → touch (<[r := t2]> T) E q.
Proof.
  intros Hr Hle (Hv & H0 & HE). split_and!; try done.
  assert (is_Some (T !! r)) as [t Ht] by (destruct Hr; [by eexists|done]).
  rewrite (refs_insert _ _ t) in * by done. specialize (Hle q).
  pose proof (refs_nonneg (<[r := t2]> T) q) as H. rewrite (refs_insert _ _ t) in H by done. lia.
Qed.

Lemma nref_clear_step t v pa : nref (put_leaf v None t) pa ≤ nref t pa.
Proof.
  rewrite put_leaf_nref. simpl. unfold leaf_ref. destruct (leaves t !! v) as [e|]; [|lia].
  pose proof (ind_range (v < lim t ∧ PTE2PA e = pa)). lia.
Qed.

Lemma uvmunmap_spec k T E r t va n do_free :
  minv k T E → Eok E → T !! r = Some t → aligned va → 0 ≤ va → 0 ≤ n →
  va + n * PGSIZE ≤ MAXVA → mapped_range t (vpn va) (vpn va + n) do_free →
  wp (uvmunmap r va n do_free) k (λ _ k',
    unmapped k T E r (clear_range (vpn va) (vpn va + n) t) k').
Proof.
  intros Hi HE Hr Hal Hva Hn Hmax Hmap. unfold uvmunmap.
  unfold aligned in Hal. rewrite Hal. cbn [Z.eqb negb]. fold (aligned va) in Hal.
  rewrite (u64_small (n * PGSIZE)), u64_small by (Zconst; lia).
  apply (wp_loop _
    (λ a s, ∃ i, a = va + i * PGSIZE ∧ 0 ≤ i ≤ n ∧
            unmapped k T E r (clear_range (vpn va) (vpn va + i) t) s)
    (λ a _, va + n * PGSIZE - a)).
  - intros a s (i & -> & Hin & Hi1 & Hkf & Hop).
    set (ti := clear_range (vpn va) (vpn va + i) t) in *.
    destruct (Z.ltb_spec (va + i * PGSIZE) (va + n * PGSIZE)) as [Hlt|Hge].
    + assert (i < n) as Hin' by (Zconst; lia).
      destruct (Hmap (vpn va + i)) as [[e He] Hlim]; [lia|].
      eapply (unmap_one s (<[r := ti]> T) E r ti _ e); [done|done|apply lookup_insert_eq|Zconst; lia|..].
      * rewrite vpn_add by done. subst ti. rewrite clear_range_lookup, decide_False; [done|lia].
      * by rewrite vpn_add.
      * intros k' (Hi' & Hkf' & Hop'). rewrite insert_insert_eq, vpn_add in Hi', Hop' by done.
        subst ti. rewrite clear_range_step in Hi', Hop' by lia.
        wp_pure. rewrite u64_small by (Zconst; lia). split; [|Zconst; lia].
        exists (i + 1). split_and!; [lia|lia|lia|]. split; [|split].
        { by rewrite Z.add_assoc. }
        { by etrans. }
        rewrite Z.add_assoc. eapply only_pages_trans; [|exact Hop'].
        eapply only_pages_weaken; [|exact Hop]. intros q Hq.
        eapply touch_mono; [right; by eexists| |exact Hq]. intros pa.
        rewrite <-clear_range_step by lia. apply nref_clear_step.
    + assert (i = n) as -> by (Zconst; lia). wp_pure. by split.
  - exists 0. rewrite clear_range_empty by lia. split_and!; [lia|lia|lia|]. split; [|split].
    + by rewrite insert_id.
    + reflexivity.
    + apply only_pages_refl.
  - Zconst. lia.
Qed.
End map.
