(* ===== verification/VmSpace.v ===== *)
(** * User address spaces

    uvmcreate(), uvmalloc(), uvmdealloc(), freewalk() and uvmfree(): creating,
    growing, shrinking and freeing a user address space, without leaking a page
    and without disturbing the others. *)

From stdpp Require Import gmap list strings.
From Stdlib Require Import ZArith Lia.
From S2P Require Import Prelude Mem Str Params Machine Spinlock Kalloc Vm PageTable VmWalk VmMap.
#[local] Open Scope Z_scope.

(** The number of pages that hold [sz] bytes. *)
Definition npg (sz : Z) : Z := (sz + PGSIZE - 1) / PGSIZE.

Section space.
Context `{LNK : !Linker, LOK : !LinkerOk}.
Implicit Types (k : kernel) (T : tables) (E : Z → Z).

Lemma PGROUNDUP_npg sz : 0 ≤ sz ≤ MAXVA → PGROUNDUP sz = npg sz * PGSIZE.
Proof.
  intros H. rewrite PGROUNDUP_small by (Zconst; lia). unfold page, npg.
  pose proof (Z.div_mod (sz + PGSIZE - 1) PGSIZE). Zconst. lia.
Qed.

Lemma npg_range sz : 0 ≤ sz ≤ MAXVA → 0 ≤ npg sz ∧ npg sz * PGSIZE ≤ MAXVA ∧
  sz ≤ npg sz * PGSIZE < sz + PGSIZE.
Proof.
  intros H. unfold npg. pose proof (Z.div_mod (sz + PGSIZE - 1) PGSIZE).
  pose proof (Z.mod_pos_bound (sz + PGSIZE - 1) PGSIZE). Zconst.
  assert (0 ≤ (sz + 4096 - 1) / 4096) by (apply Z.div_pos; lia). lia.
Qed.

Lemma npg_mul n : npg (n * PGSIZE) = n.
Proof.
  unfold npg. replace (n * PGSIZE + PGSIZE - 1) with (n * PGSIZE + (PGSIZE - 1)) by lia.
  rewrite Z.div_add_l by done. rewrite Z.div_small; [lia|Zconst; lia].
Qed.

Lemma npg_le a b : a ≤ b → npg a ≤ npg b.
Proof. intros. unfold npg. apply Z.div_le_mono; Zconst; lia. Qed.

Lemma aligned_mul n : aligned (n * PGSIZE).
Proof. unfold aligned. by apply Z.mod_mul. Qed.

Lemma vpn_mul n : vpn (n * PGSIZE) = n.
Proof. unfold vpn. by apply Z.div_mul. Qed.

(** ** uvmdealloc() *)

Lemma uvmdealloc_spec k T E r t oldsz newsz :
  minv k T E → Eok E → T !! r = Some t → 0 ≤ newsz → 0 ≤ oldsz ≤ MAXVA →
  mapped_range t (npg newsz) (npg oldsz) true →
  wp (uvmdealloc r oldsz newsz) k (λ c k',
    c = Z.min oldsz newsz ∧ unmapped k T E r (clear_range (npg newsz) (npg oldsz) t) k').
Proof.
  intros Hi HE Hr Hnew Hold Hmap. unfold uvmdealloc.
  destruct (Z.leb_spec oldsz newsz) as [Hle|Hlt].
  { apply wp_ret. split; [lia|]. rewrite clear_range_empty by (apply npg_le; lia).
    split; [by rewrite insert_id|]. split; [reflexivity|apply only_pages_refl]. }
  rewrite !PGROUNDUP_npg by lia. pose proof (npg_range newsz ltac:(lia)) as Hn.
  pose proof (npg_range oldsz ltac:(lia)) as Ho.
  destruct (Z.ltb_spec (npg newsz * PGSIZE) (npg oldsz * PGSIZE)) as [Hl|Hg]; wp_pure.
  - rewrite <-Z.mul_sub_distr_r, Z.div_mul by done.
    rewrite s32_small, u64_small by (Zconst; lia).
    eapply wp_mono; [apply (uvmunmap_spec k T E r t); try done|].
    + apply aligned_mul.
    + Zconst. lia.
    + Zconst. lia.
    + Zconst. lia.
    + by rewrite vpn_mul, Zplus_minus.
    + intros ? k' Hk'. apply wp_ret. split; [lia|].
      by rewrite vpn_mul, Zplus_minus in Hk'.
  - split; [lia|]. rewrite clear_range_empty by (Zconst; lia).
    split; [by rewrite insert_id|]. split; [reflexivity|apply only_pages_refl].
Qed.

(** ** uvmalloc() *)

Definition WRXU : Z := Z.lor PTE_WRXU PTE_V.

(** [t'] is [t] with zero-filled pages of its own at [v0 .. v1). *)
Record extended (m : mem) (t t' : pgtab) (v0 v1 : Z) : Prop := {
  ex_tabs : tabs t ⊆ tabs t';
  ex_lim : lim t' = lim t;
  ex_old : ∀ v, ¬ v0 ≤ v < v1 → leaves t' !! v = leaves t !! v;
  ex_new : ∀ v, v0 ≤ v < v1 → ∃ pa, leaves t' !! v = Some (mkpte pa WRXU) ∧
             valid_page pa ∧ ∀ a, page a = pa → ldb m a = 0;
}.

Lemma extended_empty m t v : extended m t t v v.
Proof. split; try done. intros. lia. Qed.

Lemma valid_mkpte_pa p fl : valid_page p → 0 ≤ fl < 1024 → PTE2PA (mkpte p fl) = p.
Proof. intros Hv Hf. by apply PTE2PA_mkpte; [apply valid_pa_ok|]. Qed.

Lemma has_mkpte p fl m : valid_page p → 0 ≤ fl < 1024 → 0 ≤ m < 1024 → has (mkpte p fl) m = has fl m.
Proof.
  intros Hv Hf Hm. destruct (valid_pa_ok _ Hv) as [_ Hp].
  rewrite has_flags, PTE_FLAGS_mkpte by done. done.
Qed.

Lemma leaf_ok_mkpte lm v p fl :
  valid_page p → 0 ≤ fl < 1024 → v < lm → has fl PTE_V = true → has fl PTE_RX = true →
  (has fl PTE_U = true → has fl PTE_W = negb (has fl PTE_COW)) →
  leaf_ok lm v (mkpte p fl).
Proof.
  intros Hv Hf Hl H1 H2 H3. destruct (valid_pa_ok _ Hv) as [_ Hp].
  split; try (by rewrite !has_mkpte).
  - pose proof (mkpte_range p fl Hp Hf). lia.
  - by rewrite valid_mkpte_pa.
  - lia.
Qed.

Lemma no_writer_unmapped T pa : refs T pa = 0 → no_writer T pa.
Proof.
  intros H0 r t v e Hr He Hl _ _ <-. pose proof (leaf_refs _ _ _ _ _ Hr He Hl). lia.
Qed.

(** A page of one's own may be mapped writable. *)
Lemma mapping_ok_fresh T E lm v p :
  valid_page p → refs T p = 0 → E p = 0 → v < lm →
  mapping_ok T (eadd E p 1) lm v (mkpte p WRXU).
Proof.
  intros Hv Hr HE Hl. split.
  - by apply leaf_ok_mkpte.
  - intros _. rewrite valid_mkpte_pa by done. unfold eadd. rewrite decide_True by done. lia.
  - intros _ _ _. rewrite valid_mkpte_pa by done. unfold eadd. rewrite decide_True by done. lia.
  - intros _. rewrite valid_mkpte_pa by done. by apply no_writer_unmapped.
Qed.

Lemma Eok_eadd E p : Eok E → E p = 0 → Eok (eadd E p 1).
Proof. intros H H0 q. unfold eadd. specialize (H q). case_decide; [subst|]; lia. Qed.

Lemma refs_extended T r t t' v0 v1 m pa :
  T !! r = Some t → extended m t t' v0 v1 → (∀ v, v0 ≤ v < v1 → leaves t !! v = None) →
  refs T pa ≤ refs (<[r := t']> T) pa.
Proof.
  intros Hr [_ Hl Hold _] Hnone. rewrite (refs_insert _ _ t) by done.
  assert (nref t pa ≤ nref t' pa); [|lia]. unfold nref. rewrite Hl.
  apply msum_mono; [|intros; apply ind_range].
  intros v e He. exists e. rewrite Hold; [done|]. intros Hv. by rewrite Hnone in He.
Qed.

Lemma extended_grown m t t1 t2 v0 v1 :
  extended m t t1 v0 v1 → grown t1 t2 → extended m t t2 v0 v1.
Proof.
  intros [H1 H2 H3 H4] [G1 G2 G3]. split; [by etrans|congruence|by rewrite G2..].
Qed.

Lemma extended_clear m t t' v0 v1 :
  extended m t t' v0 v1 → (∀ v, v0 ≤ v < v1 → leaves t !! v = None) →
  grown t (clear_range v0 v1 t').
Proof.
  intros [H1 H2 H3 _] Hn. split; [done| |done]. apply map_eq. intros v.
  rewrite clear_range_lookup. case_decide; [by rewrite Hn|by apply H3].
Qed.

Lemma extended_mapped m t t' v0 v1 :
  extended m t t' v0 v1 → v1 ≤ lim t → mapped_range t' v0 v1 true.
Proof.
  intros Hx Hl v Hv. destruct (ex_new _ _ _ _ _ Hx v Hv) as (pa & -> & _).
  rewrite (ex_lim _ _ _ _ _ Hx). split; [by eexists|lia].
Qed.

(** Memory that a counted mapping refers to is not touched. *)
Lemma touch_mapped k T E r t v e m a :
  T !! r = Some t → leaves t !! v = Some e → v < lim t →
  only_pages (touch T E) (ram k) m → page a = PTE2PA e → ldb m a = ldb (ram k) a.
Proof.
  intros Hr He Hl Hop Ha. apply Hop. rewrite Ha. intros (_ & H0 & _).
  pose proof (leaf_refs _ _ _ _ _ Hr He Hl). lia.
Qed.

(** What uvmalloc() leaves when it fails: the same mappings. *)
Definition uvm_same k T E r t k' : Prop :=
  ∃ t', minv k' (<[r := t']> T) E ∧ kframe k k' ∧ grown t t' ∧
    only_pages (touch T E) (ram k) (ram k').

Lemma dealloc_back {X} k s T E r t t2 m v0 i (x : X) Q :
  T !! r = Some t → Eok E → 0 ≤ v0 → 0 ≤ i → (v0 + i) * PGSIZE ≤ MAXVA → v0 + i ≤ lim t →
  minv s (<[r := t2]> T) E → kframe k s → only_pages (touch T E) (ram k) (ram s) →
  extended m t t2 v0 (v0 + i) → (∀ v, v0 ≤ v < v0 + i → leaves t !! v = None) →
  (∀ k', uvm_same k T E r t k' → Q x k') →
  wp (uvmdealloc r ((v0 + i) * PGSIZE) (v0 * PGSIZE);; mret x) s Q.
Proof.
  intros Hr HE Hv0 Hi0 Hmax Hlim Hi Hkf Hop Hex Hnone HQ. wp_pure.
  eapply wp_mono; [apply (uvmdealloc_spec s (<[r := t2]> T) E r t2)|]; try done.
  - apply lookup_insert_eq.
  - Zconst. lia.
  - Zconst. lia.
  - rewrite !npg_mul. by eapply extended_mapped.
  - intros c k' (_ & Hi' & Hkf' & Hop'). rewrite !npg_mul, insert_insert_eq in Hi', Hop'.
    apply wp_ret, HQ. pose proof (extended_clear _ _ _ _ _ Hex Hnone) as Hg.
    eexists. split_and!; [exact Hi'|by etrans|exact Hg|].
    eapply only_pages_trans; [exact Hop|]. eapply only_pages_weaken; [|exact Hop'].
    intros q. apply (touch_insert T E r t); [done|apply Hg..].
Qed.

Definition uvm_grown k T E r t v0 v1 k' : Prop :=
  ∃ t', minv k' (<[r := t']> T) E ∧ kframe k k' ∧ extended (ram k') t t' v0 v1 ∧
    only_pages (touch T E) (ram k) (ram k').

Lemma touch_grown T E r t t' m v0 v1 q :
  T !! r = Some t → extended m t t' v0 v1 → (∀ v, v0 ≤ v < v1 → leaves t !! v = None) →
  touch (<[r := t']> T) E q → touch T E q.
Proof.
  intros Hr Hex Hnone (Hv & H0 & HE). split_and!; try done.
  pose proof (refs_extended T r t t' v0 v1 m q Hr Hex Hnone). pose proof (refs_nonneg T q). lia.
Qed.

(** One page more. *)
Lemma extended_step m m' t ti t2 v0 i p :
  extended m t ti v0 (v0 + i) → grown ti t2 → 0 ≤ i → valid_page p →
  (∀ a v e, v0 ≤ v < v0 + i → leaves ti !! v = Some e → page a = PTE2PA e → ldb m' a = ldb m a) →
  (∀ a, page a = p → ldb m' a = 0) →
  extended m' t (put_leaf (v0 + i) (Some (mkpte p WRXU)) t2) v0 (v0 + i + 1).
Proof.
  intros [H1 H2 H3 H4] [G1 G2 G3] Hi Hv Hsame Hz. split.
  - by etrans.
  - simpl. congruence.
  - intros v Hv'. rewrite put_leaf_lookup, decide_False, G2 by lia. apply H3. lia.
  - intros v Hv'. rewrite put_leaf_lookup. case_decide; [by exists p|].
    rewrite G2. destruct (H4 v) as (pa & He & Hpa & H0); [lia|]. exists pa. split_and!; [done..|].
    intros a Ha. rewrite (Hsame a v (mkpte pa WRXU)); [by apply H0|lia|done|].
    by rewrite valid_mkpte_pa.
Qed.

Lemma touch_eadd T E p q : Eok E → touch T (eadd E p 1) q → touch T E q.
Proof.
  intros HE (Hv & H0 & H1). split_and!; try done. unfold eadd in H1. specialize (HE q).
  case_decide; lia.
Qed.

(** Giving back a page that was just allocated. *)
Lemma drop_fresh k T E p :
  minv k T (eadd E p 1) → valid_page p → refs T p = 0 → E p = 0 →
  wp (kfree p) k (λ _ k', kframe k k' ∧ minv k' T E ∧ only_pages (λ q, q = p) (ram k) (ram k')).
Proof.
  intros Hi Hv Hr HE. assert (eadd E p 1 p = 1) as H1.
  { unfold eadd. rewrite decide_True by done. lia. }
  assert (npt T p = 0) as Hn by (destruct (mi_pt _ _ _ Hi p); lia).
  eapply wp_mono; [apply (kfree_minv k T (eadd E p 1)); try done|].
  - rewrite (mi_cnt _ _ _ Hi), Hn, Hr, H1 by done. lia.
  - intros _ k' [[Hkf _ _ Hop] Hi']. split_and!; [done| |].
    + eapply minv_ext; [|exact Hi']. intros q. apply (eadd_back E p 1).
    + eapply only_pages_weaken; [|exact Hop]. by intros ? [? _].
Qed.

(** The page that was allocated is mapped, or given back. *)
Lemma map_fresh k k1 T E r t ti m v0 i p (kont : K (Z + Z)) Q :
  minv k1 (<[r := ti]> T) (eadd E p 1) → Eok E → T !! r = Some t → kframe k k1 →
  only_pages (touch T E) (ram k) (ram k1) →
  0 ≤ v0 → 0 ≤ i → (v0 + i) * PGSIZE < MAXVA → v0 + i < lim t →
  extended m t ti v0 (v0 + i) → (∀ v, v0 ≤ v ≤ v0 + i → leaves t !! v = None) →
  touch (<[r := ti]> T) E p →
  (∀ a v e, v0 ≤ v < v0 + i → leaves ti !! v = Some e → page a = PTE2PA e →
     ldb (ram k1) a = ldb m a) →
  (∀ a, page a = p → ldb (ram k1) a = 0) →
  (∀ k', uvm_same k T E r t k' → short 2 k1 → Q (inr 0) k') →
  (∀ k', uvm_grown k T E r t v0 (v0 + i + 1) k' → taken 2 k1 k' → wp kont k' Q) →
  wp (c ← mappages r ((v0 + i) * PGSIZE) PGSIZE p PTE_WRXU;
      if negb (c =? 0) then kfree p;; uvmdealloc r ((v0 + i) * PGSIZE) (v0 * PGSIZE);; break 0
      else kont) k1 Q.
Proof.
  intros Hi HE Hr Hkf Hop Hv0 Hi0 Hmax Hlim Hex Hnone Htp Hsame Hz Hfail Hok.
  assert (<[r := ti]> T !! r = Some ti) as Hri by apply lookup_insert_eq.
  pose proof Htp as (Hv & Hr0 & HE0). wp_pure. eapply wp_mono.
  { apply (mappages_page k1 (<[r := ti]> T) (eadd E p 1) r ti); try done.
    - by apply Eok_eadd.
    - apply aligned_mul.
    - Zconst. lia.
    - rewrite vpn_mul, (ex_old _ _ _ _ _ Hex) by lia. apply Hnone. lia.
    - rewrite vpn_mul. apply mapping_ok_fresh; try done. by rewrite (ex_lim _ _ _ _ _ Hex). }
  fold WRXU. intros c k2 [[-> Hd]|[-> Hf]]; cbn [Z.eqb negb].
  - destruct Hd as (t2 & Hi2 & Hkf2 & Hg2 & Hop2 & Htk). apply Hok; [|done]. exists (put_leaf (v0 + i) (Some (mkpte p WRXU)) t2).
    rewrite vpn_mul, insert_insert_eq, valid_mkpte_pa in Hi2 by done. split_and!.
    + eapply minv_ext; [|exact Hi2]. intros q. unfold emap.
      rewrite decide_True by (rewrite (ex_lim _ _ _ _ _ Hex); lia). apply (eadd_back E p 1).
    + by etrans.
    + eapply extended_step; [done..| |].
      * intros a v e Hv' He Ha. rewrite <-(Hsame a v e) by done.
        eapply (touch_mapped k1 _ _ r ti v e); [exact Hri|done| |exact Hop2|done].
        rewrite (ex_lim _ _ _ _ _ Hex). lia.
      * intros a Ha. rewrite Hop2; [by apply Hz|]. rewrite Ha. intros (_ & _ & H1).
        unfold eadd in H1. rewrite decide_True in H1 by done. lia.
    + eapply only_pages_trans; [exact Hop|]. eapply only_pages_weaken; [|exact Hop2].
      intros q Hq. eapply touch_grown; [exact Hr|exact Hex|intros; apply Hnone; lia|].
      by eapply touch_eadd.
  - destruct Hf as (t2 & Hi2 & Hkf2 & Hg2 & Hop2 & Ho & Htk). rewrite insert_insert_eq in Hi2. wp_pure.
    pose proof (taken_short 2 0 _ _ Htk (oom_short _ Ho)) as Hsh.
    assert (refs (<[r := t2]> T) p = 0) as Hr2.
    { rewrite <-Hr0, <-(insert_insert_eq T r t2 ti). by apply (refs_grown _ _ ti). }
    eapply wp_mono; [apply (drop_fresh k2 (<[r := t2]> T) E p); try done|].
    intros _ k3 (Hkf3 & Hi3 & Hop3).
    eapply (dealloc_back k k3 T E r t t2 m v0 i);
      [done|done|lia|lia|Zconst; lia|lia|done|by repeat (etrans; [eassumption|])| | |intros; apply Hnone; lia|intros k' Hk'; by apply Hfail].
    + eapply only_pages_trans; [exact Hop|].
      eapply only_pages_trans; eapply only_pages_weaken; [|exact Hop2| |exact Hop3]; intros q Hq.
      * eapply touch_grown; [exact Hr|exact Hex|intros; apply Hnone; lia|]. by eapply touch_eadd.
      * simpl in Hq. subst q. eapply touch_grown; [exact Hr|exact Hex|intros; apply Hnone; lia|done].
    + by eapply extended_grown.
Qed.

Lemma uvmalloc_spec k T E r t oldsz newsz :
  minv k T E → Eok E → T !! r = Some t → 0 ≤ oldsz ≤ newsz → newsz ≤ MAXVA →
  npg newsz ≤ lim t → (∀ v, npg oldsz ≤ v < npg newsz → leaves t !! v = None) →
  wp (uvmalloc r oldsz newsz) k (λ c k',
    c = newsz ∧ uvm_grown k T E r t (npg oldsz) (npg newsz) k' ∨
    c = 0 ∧ uvm_same k T E r t k' ∧ short (Z.to_nat (3 * (npg newsz - npg oldsz))) k).
Proof.
  intros Hi HE Hr Hsz Hmax Hlim Hnone. unfold uvmalloc.
  destruct (Z.ltb_spec newsz oldsz); [lia|]. rewrite PGROUNDUP_npg by lia.
  set (v0 := npg oldsz). pose proof (npg_range oldsz ltac:(lia)) as Ho.
  pose proof (npg_range newsz ltac:(lia)) as Hn. fold v0 in Ho, Hnone.
  pose proof (npg_le oldsz newsz ltac:(lia)) as Hvv. fold v0 in Hvv.
  apply (wp_loop _
    (λ a s, ∃ i, a = (v0 + i) * PGSIZE ∧ 0 ≤ i ∧ v0 + i ≤ npg newsz ∧
            uvm_grown k T E r t v0 (v0 + i) s ∧ taken (Z.to_nat (3 * i)) k s)
    (λ a _, npg newsz * PGSIZE - a)).
  - intros a s (i & -> & Hi0 & Hin & (ti & Hi1 & Hkf & Hex & Hop) & Htk).
    assert (∀ v, v0 ≤ v < v0 + i → leaves t !! v = None) as Hnone' by (intros; apply Hnone; lia).
    destruct (Z.ltb_spec ((v0 + i) * PGSIZE) newsz) as [Hlt|Hge].
    2:{ wp_pure. left. split; [done|]. replace (npg newsz) with (v0 + i) by (Zconst; lia).
        by exists ti. }
    apply (zalloc s (<[r := ti]> T) E); [done|done|..].
    + intros k1 Hkf1 Hi2 Er Hoom Htk1.
      eapply (dealloc_back k k1 T E r t ti (ram s));
        [done|done|lia|lia|Zconst; lia|lia|done|by etrans|by rewrite Er|done|done|].
      intros k' Hk'. right. split_and!; [done..|]. eapply short_le; [|eapply taken_short; [exact Htk|]].
      2:{ by eapply (taken_short 0 0), oom_short. } Zconst. lia.
    + intros p k1 Hv Hkf1 Hi2 Htp Hn0 Hop1 Hz Htk1.
      assert (touch T E p) as Htp' by (by eapply touch_grown).
      eapply (map_fresh k k1 T E r t ti (ram s)); 
        [done|done|done|by etrans| |lia|lia|Zconst; lia|Zconst; lia|done| |done| |done|..].
      * eapply only_pages_trans; [exact Hop|]. eapply only_pages_weaken; [|exact Hop1]. by intros ? ->.
      * intros v Hv'. apply Hnone. Zconst. lia.
      * intros a v e Hv' He Ha. apply Hop1. rewrite Ha. intros <-.
        destruct Htp as (_ & H0 & _).
        pose proof (leaf_refs _ _ _ _ _ (lookup_insert_eq T r ti) He). 
        rewrite (ex_lim _ _ _ _ _ Hex) in *. lia.
      * intros k' Hk' Hsh. right. split_and!; [done..|]. eapply short_le; [|eapply taken_short; [exact Htk|by eapply taken_short]].
        Zconst. lia.
      * intros k' Hk' Htk2. wp_pure. rewrite u64_small by (Zconst; lia). split; [|Zconst; lia].
        exists (i + 1). rewrite !Z.add_assoc. split_and!; [Zconst; lia|lia|Zconst; lia|done|].
        eapply taken_le; [|eapply taken_trans; [exact Htk|by eapply taken_trans]]. lia.
  - exists 0. rewrite Z.add_0_r. split_and!; [done|lia|lia| |by apply taken_refs]. exists t.
    rewrite insert_id by done. split_and!; [done|reflexivity|apply extended_empty|apply only_pages_refl].
  - Zconst. lia.
Qed.
End space.
