(* ===== verification/VmFree.v ===== *)
(** * Creating and freeing page tables

    uvmcreate() makes an empty table; freewalk() gives every page of a table
    without mappings back to the allocator; uvmfree() first removes the
    mappings. *)

From stdpp Require Import gmap list strings.
From Stdlib Require Import ZArith Lia.
From S2P Require Import Prelude Mem Str Params Machine Spinlock Kalloc Vm PageTable VmWalk VmMap VmSpace.
#[local] Open Scope Z_scope.

(** A table with only its root page. *)
Definition empty_pt (p lm : Z) : pgtab := mkPt {[ (2%nat, 0) := p ]} ∅ lm.

Section free.
Context `{LNK : !Linker, LOK : !LinkerOk}.
Implicit Types (k : kernel) (T : tables) (E : Z → Z).

(** ** uvmcreate() *)

Lemma minv_new_table k T E p lm :
  minv k T (eadd E p 1) → valid_page p → npt T p = 0 → refs T p = 0 → E p = 0 →
  lm * PGSIZE ≤ MAXVA → (∀ y, 0 ≤ y < 512 → ld64 (ram k) (entry p y) = 0) →
  T !! p = None ∧ minv k (<[p := empty_pt p lm]> T) E.
Proof.
  intros Hi Hv Hn Hr HE Hlm Hz.
  assert (T !! p = None) as Hnone.
  { destruct (T !! p) as [t|] eqn:Ht; [exfalso|done].
    pose proof (tab_npt _ _ _ _ _ Ht (wf_root _ _ (mi_wf _ _ _ Hi _ _ Ht))). lia. }
  split; [done|].
  assert (∀ pa, npt (<[p := empty_pt p lm]> T) pa = ind (p = pa) + npt T pa) as Hnpt.
  { intros pa. rewrite npt_insert_new by done. unfold ntab, empty_pt. simpl.
    rewrite <-insert_empty, msum_insert_new by done. rewrite msum_empty. lia. }
  assert (∀ pa, refs (<[p := empty_pt p lm]> T) pa = refs T pa) as Hrefs.
  { intros pa. rewrite refs_insert_new by done. unfold nref. simpl. by rewrite msum_empty. }
  destruct Hi as [Ha Hwf Hm Htb Hlf Hc Hpt Hw]. split; try done.
  - intros r t [[<- <-]|[_ H]]%lookup_insert_Some; [|by apply Hwf]. split; simpl; [..|done].
    + by rewrite lookup_singleton_eq.
    + intros l i [p' [[= <- <-] _]%lookup_singleton_Some]. split; [done|by left].
    + intros v [? Hs]. by rewrite lookup_empty in Hs.
  - intros r t [[<- <-]|[_ H]]%lookup_insert_Some; [|by apply (Hm r)].
    intros l i p' x. simpl tabs. intros [[= <- <-] <-]%lookup_singleton_Some Hx. rewrite Hz by done.
    simpl. by rewrite lookup_singleton_ne.
  - intros r t pos p' [[<- <-]|[_ H]]%lookup_insert_Some; [|by apply (Htb r)].
    simpl tabs. by intros [_ <-]%lookup_singleton_Some.
  - intros r t v e [[<- <-]|[_ H]]%lookup_insert_Some; [|by apply (Hlf r)].
    simpl. by rewrite lookup_empty.
  - intros pa Hva. rewrite Hnpt, Hrefs, Hc by done. unfold eadd, ind. case_decide; lia.
  - intros pa. rewrite Hnpt, Hrefs. unfold ind. case_decide.
    + subst. lia.
    + destruct (Hpt pa) as [?|(? & ? & HE')]; [by left|right].
      unfold eadd in HE'. rewrite decide_False in HE' by done. lia.
  - intros r t v e [[<- <-]|[_ H]]%lookup_insert_Some He Hl Hu Hwr.
    + simpl in He. by rewrite lookup_empty in He.
    + rewrite Hrefs. destruct (Hw _ _ _ _ H He Hl Hu Hwr) as [H1 H2]. split; [done|].
      unfold eadd in H2. case_decide; lia.
Qed.

Lemma page_zero m p :
  aligned p → (∀ a, page a = p → ldb m a = 0) →
  ∀ y, 0 ≤ y < 512 → ld64 m (entry p y) = 0.
Proof.
  intros Hp Hz y Hy. apply ld64_zero. intros b Hb. apply Hz. unfold entry in Hb.
  replace b with (p + (b - p)) by lia. apply page_offset; [done|Zconst; lia].
Qed.

Lemma uvmcreate_spec lm k T E :
  minv k T E → Eok E → lm * PGSIZE ≤ MAXVA →
  wp uvmcreate k (λ p k', kframe k k' ∧
    (p = 0 ∧ minv k' T E ∧ ram k' = ram k ∧ short 0 k ∨
     p ≠ 0 ∧ T !! p = None ∧ minv k' (<[p := empty_pt p lm]> T) E ∧
     only_pages (touch T E) (ram k) (ram k') ∧ taken 1 k k')).
Proof.
  intros Hi HE Hlm. unfold uvmcreate. apply (zalloc k T E); [done..| |].
  - intros k' Hkf Hi' Er Ho Htk. apply wp_ret. split; [done|]. left. split_and!; try done.
    by apply (taken_short 0 0 k k'), oom_short.
  - intros p k' Hv Hkf Hi' Htp Hn Hop Hz Htk. apply wp_ret. split; [done|]. right.
    destruct (minv_new_table k' T E p lm) as [? ?]; try done; [apply Htp..| |].
    { apply page_zero; [apply Hv|done]. }
    split_and!; [by apply valid_nonzero|done|done| |done].
    eapply only_pages_weaken; [|exact Hop]. by intros ? ->.
Qed.

(** ** freewalk() *)

(** The table at [(l, i)] has no tables below it. *)
Definition childless (t : pgtab) (l : nat) (i : Z) : Prop :=
  match l with
  | O => True
  | S l' => ∀ y, 0 ≤ y < 512 → tabs t !! (l', 512 * i + y) = None
  end.

Lemma word_del_tab t l i l' i' y :
  word_at (del_tab (l, i) t) l' i' y =
  if decide ((l', 512 * i' + y) = (S l, i)) then 0 else word_at t l' i' y.
Proof.
  destruct l' as [|l']; unfold word_at.
  - by rewrite decide_False by (intros [=]).
  - simpl tabs. case_decide as H1.
    + injection H1 as <- <-. by rewrite lookup_delete_eq.
    + rewrite lookup_delete_ne; [done|]. intros [= -> ->]. by apply H1.
Qed.

Lemma del_tab_wf root t l i :
  pt_wf root t → leaves t = ∅ → (l < 2)%nat → childless t l i → pt_wf root (del_tab (l, i) t).
Proof.
  intros [H1 H2 H3 H4] Hl Hl2 Hch. split; simpl tabs; [..|done].
  - rewrite lookup_delete_ne; [done|]. intros [=]. lia.
  - intros l' i' [p [Hne Hp]%lookup_delete_Some].
    destruct (H2 l' i') as [? [?|[? Hs]]]; [by eexists|by auto|].
    split; [done|]. right. split; [done|].
    rewrite lookup_delete_ne; [done|]. intros [= -> ->]. simpl in Hch.
    pose proof (entry_div i'). pose proof (Z.mod_pos_bound i' 512 ltac:(lia)) as Hb.
    specialize (Hch _ Hb). congruence.
  - simpl leaves. rewrite Hl. intros v [? Hs]. by rewrite lookup_empty in Hs.
Qed.

(** Clearing the entry for a child makes the child an external page. *)
Lemma minv_cut k T E r t l i x p c :
  minv k T E → T !! r = Some t → leaves t = ∅ → (l < 2)%nat →
  tabs t !! (S l, i) = Some p → 0 ≤ x < 512 → tabs t !! (l, 512 * i + x) = Some c →
  childless t l (512 * i + x) →
  minv (upd_ram (λ m, st64 m (entry p x) 0) k)
       (<[r := del_tab (l, 512 * i + x) t]> T) (eadd E c 1) ∧
  npt (<[r := del_tab (l, 512 * i + x) t]> T) c = 0.
Proof.
  intros Hi Hr Hl Hl2 Hp Hx Hc Hch. set (t' := del_tab (l, 512 * i + x) t).
  pose proof (mi_wf _ _ _ Hi _ _ Hr) as Hwf.
  assert (∀ pa, npt (<[r := t']> T) pa = npt T pa - ind (c = pa)) as Hnpt.
  { intros pa. rewrite (npt_insert _ _ t) by done. subst t'. rewrite (ntab_del_tab _ _ c) by done. lia. }
  assert (∀ pa, refs (<[r := t']> T) pa = refs T pa) as Hrefs.
  { intros pa. rewrite (refs_insert _ _ t) by done. unfold nref. simpl. lia. }
  pose proof (minv_tab_npt _ _ _ _ _ _ _ Hi Hr Hc) as Hnc.
  destruct (mi_pt _ _ _ Hi c) as [?|(_ & Hrc & HEc)]; [lia|].
  split; [|rewrite Hnpt, ind_true by done; lia].
  eapply minv_store; [exact Hi|exact Hr|exact Hp|done|..].
  - by apply del_tab_wf.
  - apply pt_mem_store with (l := S l) (i := i); [|done|lia| | |].
    + simpl. rewrite lookup_delete_ne; [done|]. intros [=]. lia.
    + subst t'. rewrite word_del_tab. by rewrite decide_True.
    + subst t'. simpl tabs. intros pos q [_ Hq]%lookup_delete_Some.
      split; [by apply (mi_tabs _ _ _ Hi _ _ _ _ Hr Hq)|]. intros ->.
      by destruct (minv_tab_unique _ _ _ _ _ _ _ _ _ _ Hi Hr Hr Hp Hq).
    + subst t'. simpl tabs. intros l' i' q y [_ Hq]%lookup_delete_Some Hy Hne.
      rewrite word_del_tab, decide_False; [by apply (mi_mem _ _ _ Hi _ _ Hr)|].
      intros [= -> ?]. apply Hne. f_equal; [f_equal|]; lia.
  - subst t'. simpl tabs. intros pos q [_ Hq]%lookup_delete_Some. by eapply mi_tabs.
  - subst t'. simpl. rewrite Hl. intros v e Hv. by rewrite lookup_empty in Hv.
  - intros pa. rewrite Hnpt, Hrefs. unfold eadd, ind. case_decide; lia.
  - intros pa. rewrite Hnpt, Hrefs. unfold eadd, ind. pose proof (mi_pt _ _ _ Hi pa).
    case_decide; [subst|]; lia.
  - intros r' t1 v e [[<- <-]|[_ Hr']]%lookup_insert_Some He Hlim Hu Hw.
    + subst t'. simpl in He. rewrite Hl in He. by rewrite lookup_empty in He.
    + rewrite Hrefs. destruct (mi_w _ _ _ Hi r' t1 v e) as [H1 H2]; try done. split; [done|].
      unfold eadd. case_decide; [|done]. subst. lia.
Qed.

(** The entry for a page that kfree() has taken back is cleared. *)
Lemma kfreed_store c k k' p o w :
  kfreed c k k' → aligned p → 0 ≤ o → o + 8 ≤ PGSIZE → valid_page p → cnt k' p ≠ 0 →
  kfreed c (upd_ram (λ m, st64 m (p + o) w) k) (upd_ram (λ m, st64 m (p + o) w) k').
Proof.
  intros [Hkf [F Ha] Hc Hop] Hal Ho Ho' Hv Hcp. split.
  - destruct Hkf. by split.
  - exists F. apply alloc_inv_ram; [done|].
    eapply only_pages_weaken; [|by apply only_pages_st64].
    intros q -> Hin. by destruct (free_cnt _ _ _ Ha Hin).
  - exact Hc.
  - intros a Hna. simpl. apply ldb_st64_ext. by apply Hop.
Qed.

(** [t1] is [t] without some tables below level [l]. *)
Record pruned (l : nat) (t t1 : pgtab) : Prop := {
  pr_leaves : leaves t1 = leaves t;
  pr_lim : lim t1 = lim t;
  pr_tabs : ∀ l' j, (l ≤ l')%nat → tabs t1 !! (l', j) = tabs t !! (l', j);
}.

Lemma pruned_trans l l' t t1 t2 : (l' ≤ l)%nat → pruned l t t1 → pruned l' t1 t2 → pruned l t t2.
Proof.
  intros Hl [H1 H2 H3] [G1 G2 G3]. split; [congruence..|].
  intros l1 j Hj. rewrite G3 by lia. by apply H3.
Qed.

Lemma pruned_del l t i : pruned (S l) t (del_tab (l, i) t).
Proof. split; [done..|]. intros l' j Hl. simpl. rewrite lookup_delete_ne; [done|]. intros [=]. lia. Qed.

Definition walked k T E r t l i (x : Z) k1 t1 : Prop :=
  minv k1 (<[r := t1]> T) E ∧ kframe k k1 ∧ only_pages (touch T E) (ram k) (ram k1) ∧
  pruned l t t1 ∧
  match l with
  | O => True
  | S l' => ∀ y, 0 ≤ y < x → tabs t1 !! (l', 512 * i + y) = None
  end.

(** A child has been freed and its entry cleared. *)
Lemma walked_step k T E r t l i x p c k1 t1 k2 t2 k3 :
  T !! r = Some t → leaves t = ∅ → (l < 2)%nat → 0 ≤ x < 512 →
  walked k T E r t (S l) i x k1 t1 → tabs t1 !! (S l, i) = Some p →
  tabs t1 !! (l, 512 * i + x) = Some c →
  walked k1 (<[r := t1]> T) E r t1 l (512 * i + x) 512 k2 t2 → kfreed c k2 k3 →
  walked k T E r t (S l) i (x + 1) (upd_ram (λ m, st64 m (entry p x) 0) k3)
    (del_tab (l, 512 * i + x) t2).
Proof.
  intros Hr Hlv Hl2 Hx (Hi1 & Hkf1 & Hop1 & Hpr1 & Hnone1) Hp Hc (Hi2 & Hkf2 & Hop2 & Hpr2 & Hch) Hf.
  rewrite insert_insert_eq in Hi2.
  assert (<[r := t2]> T !! r = Some t2) as Hr2 by apply lookup_insert_eq.
  assert (leaves t2 = ∅) as Hlv2.
  { rewrite (pr_leaves _ _ _ Hpr2), (pr_leaves _ _ _ Hpr1). done. }
  assert (lim t2 = lim t) as Hlm2.
  { rewrite (pr_lim _ _ _ Hpr2), (pr_lim _ _ _ Hpr1). done. }
  assert (tabs t2 !! (S l, i) = Some p) as Hp2 by (rewrite (pr_tabs _ _ _ Hpr2); [done|lia]).
  assert (tabs t2 !! (l, 512 * i + x) = Some c) as Hc2 by (rewrite (pr_tabs _ _ _ Hpr2); [done|lia]).
  assert (∀ q, touch (<[r := t2]> T) E q → touch T E q) as Ht2.
  { intros q. apply (touch_insert T E r t t2); [done|congruence|done]. }
  pose proof (mi_tabs _ _ _ Hi2 _ _ _ _ Hr2 Hp2) as Hvp.
  pose proof (mi_tabs _ _ _ Hi2 _ _ _ _ Hr2 Hc2) as Hvc.
  pose proof (touch_tab _ _ _ _ _ _ _ Hi2 Hr2 Hp2) as Htp.
  pose proof (touch_tab _ _ _ _ _ _ _ Hi2 Hr2 Hc2) as Htc.
  assert (cnt k3 p ≠ 0) as Hcp.
  { rewrite (fr_cnt _ _ _ Hf) by (by apply valid_ram).
    rewrite (minv_tab_cnt _ _ _ _ _ _ _ Hi2 Hr2 Hp2), decide_False; [done|]. intros ->.
    destruct (minv_tab_unique _ _ _ _ _ _ _ _ _ _ Hi2 Hr2 Hr2 Hp2 Hc2) as [_ [=]]. lia. }
  destruct (minv_cut _ _ _ _ _ _ _ _ _ _ Hi2 Hr2 Hlv2 Hl2 Hp2 Hx Hc2) as [Hi3 Hn3]; [by destruct l|].
  rewrite insert_insert_eq in Hi3, Hn3.
  split_and!.
  - eapply minv_ext; [apply (eadd_back E c 1)|].
    eapply minv_kfreed; [exact Hi3|done|exact Hn3|].
    unfold entry. apply kfreed_store; try done; [apply Hvp|lia|Zconst; lia].
  - etrans; [exact Hkf1|]. etrans; [exact Hkf2|]. etrans; [apply Hf|]. by split.
  - eapply only_pages_trans; [exact Hop1|].
    eapply only_pages_trans; [eapply only_pages_weaken; [|exact Hop2]|].
    { intros q. apply (touch_insert T E r t t1); [done|apply Hpr1..]. }
    eapply only_pages_trans; [eapply only_pages_weaken; [|apply (fr_ram _ _ _ Hf)]|].
    { intros q [-> _]. by apply Ht2. }
    eapply only_pages_weaken; [|apply only_pages_entry; [apply Hvp|done]].
    intros q ->. by apply Ht2.
  - eapply (pruned_trans _ (S l)); [done| |apply pruned_del]. by eapply (pruned_trans _ l); [lia|..].
  - intros y Hy. simpl. destruct (decide (y = x)) as [->|Hne]; [apply lookup_delete_eq|].
    rewrite lookup_delete_ne by (intros [=]; lia). rewrite (pr_tabs _ _ _ Hpr2) by lia.
    apply Hnone1. lia.
Qed.

(** The specification of one call, on the table at level [l]. *)
Definition freewalk_ok (n l : nat) : Prop := ∀ k T E r t i p,
  minv k T E → T !! r = Some t → leaves t = ∅ → tabs t !! (l, i) = Some p →
  wp (freewalk_fuel n p) k (λ _ k', ∃ k1 t1, walked k T E r t l i 512 k1 t1 ∧ kfreed p k1 k').

(** One iteration of the loop. *)
Lemma freewalk_entry n l k T E r t i p x k1 t1 Q :
  (l ≤ 2)%nat → match l with O => True | S l' => freewalk_ok n l' end →
  T !! r = Some t → leaves t = ∅ → tabs t !! (l, i) = Some p → 0 ≤ x < 512 →
  walked k T E r t l i x k1 t1 →
  (∀ k2 t2, walked k T E r t l i (x + 1) k2 t2 → Q (inl (x + 1)) k2) →
  wp (pte ← load64 (entry p x);
      if nz (Z.land pte PTE_V) && (Z.land pte (Z.lor (Z.lor PTE_R PTE_W) PTE_X) =? 0) then
        freewalk_fuel n (PTE2PA pte);; store64 (entry p x) 0;; continue (x + 1)
      else if nz (Z.land pte PTE_V) then panic "freewalk: leaf"
      else continue (x + 1)) k1 (Q : Z + unit → kernel → Prop).
Proof.
  intros Hl Hrec Hr Hlv Hp Hx Hw HQ. pose proof Hw as (Hi1 & Hkf1 & Hop1 & Hpr1 & Hnone).
  assert (<[r := t1]> T !! r = Some t1) as Hr1 by apply lookup_insert_eq.
  assert (leaves t1 = ∅) as Hlv1 by (rewrite (pr_leaves _ _ _ Hpr1); done).
  assert (tabs t1 !! (l, i) = Some p) as Hp1 by (rewrite (pr_tabs _ _ _ Hpr1); done).
  wp_pure. rewrite (mi_mem _ _ _ Hi1 _ _ Hr1 _ _ _ _ Hp1) by done.
  destruct l as [|l]; unfold word_at.
  - rewrite Hlv1, lookup_empty. simpl. apply wp_continue, (HQ _ t1). split_and!; done.
  - destruct (tabs t1 !! (l, 512 * i + x)) as [c|] eqn:Hc; unfold pte_of.
    + pose proof (mi_tabs _ _ _ Hi1 _ _ _ _ Hr1 Hc) as Hvc.
      destruct (pte_child c) as [Hh Hpa]; [by apply valid_pa_ok|]. unfold has in Hh. rewrite Hh, Hpa.
      destruct (valid_pa_ok c Hvc) as [_ Hrg].
      rewrite (land_flags (mkpte c PTE_V)), PTE_FLAGS_mkpte by done. simpl. wp_pure.
      eapply wp_mono; [by eapply Hrec|]. intros _ k3 (k2 & t2 & Hw2 & Hf). wp_pure.
      apply (HQ _ (del_tab (l, 512 * i + x) t2)). by eapply walked_step.
    + simpl. apply wp_continue, (HQ _ t1). split_and!; try done.
      intros y Hy. destruct (decide (y = x)) as [->|]; [done|]. apply Hnone. lia.
Qed.

Lemma freewalk_call n l :
  (l ≤ 2)%nat → match l with O => True | S l' => freewalk_ok n l' end → freewalk_ok (S n) l.
Proof.
  intros Hl Hrec k T E r t i p Hi Hr Hlv Hp. cbn [freewalk_fuel]. apply wp_bind.
  apply (wp_loop _ (λ x s, 0 ≤ x ≤ 512 ∧ ∃ t1, walked k T E r t l i x s t1) (λ x _, 512 - x)).
  - intros x s [Hx [t1 Hw]]. destruct (Z.ltb_spec x 512) as [Hlt|Hge].
    + eapply freewalk_entry; try done; [lia|]. intros k2 t2 Hw2.
      split; [|lia]. split; [lia|]. by exists t2.
    + assert (x = 512) as -> by lia. wp_pure. pose proof Hw as (Hi1 & _ & _ & Hpr & _).
      assert (tabs t1 !! (l, i) = Some p) as Hp1 by (rewrite (pr_tabs _ _ _ Hpr); done).
      assert (<[r := t1]> T !! r = Some t1) as Hr1 by apply lookup_insert_eq.
      eapply wp_mono; [eapply kfree_freed; [exact Hi1| |]|].
      * by eapply mi_tabs.
      * by rewrite (minv_tab_cnt _ _ _ _ _ _ _ Hi1 Hr1 Hp1).
      * intros ? k' Hf. by exists s, t1.
  - split; [lia|]. exists t. split_and!; [by rewrite insert_id|reflexivity|apply only_pages_refl|done|].
    destruct l; [done|]. intros. lia.
  - lia.
Qed.

Lemma freewalk_level l n : (l ≤ 2)%nat → (l < n)%nat → freewalk_ok n l.
Proof.
  revert n. induction l as [|l IH]; intros n Hl Hn; (destruct n as [|n]; [lia|]);
    apply freewalk_call; try done. apply IH; lia.
Qed.

(** A table that has lost its other pages: only the root is left. *)
Lemma root_only root t l i : pt_wf root t → childless t 2 0 → is_Some (tabs t !! (l, i)) → (l, i) = (2%nat, 0).
Proof.
  intros Hwf Hch Hs. assert (∀ i, tabs t !! (1%nat, i) = None) as H1.
  { intros j. destruct (tabs t !! (1%nat, j)) as [q|] eqn:Hq; [exfalso|done].
    destruct (wf_tabs _ _ Hwf 1%nat j) as [Hj [[? _]|[_ Hs1]]]; [by eexists|lia|].
    destruct (wf_tabs _ _ Hwf 2%nat (j / 512) Hs1) as [_ [[_ H0]|[? _]]]; [|lia].
    pose proof (entry_div j). pose proof (Z.mod_pos_bound j 512 ltac:(lia)).
    assert (tabs t !! (1%nat, 512 * 0 + j) = None) as Hn by (apply Hch; lia).
    replace (512 * 0 + j) with j in Hn by lia. congruence. }
  destruct (wf_tabs _ _ Hwf l i Hs) as [_ [[-> ->]|[Hl [q Hq]]]]; [done|exfalso].
  destruct l as [|[|l]]; [by rewrite H1 in Hq| |lia]. destruct Hs as [? Hs]. by rewrite H1 in Hs.
Qed.

Lemma minv_drop_table k T E r t :
  minv k T E → T !! r = Some t → leaves t = ∅ → childless t 2 0 →
  minv k (delete r T) (eadd E r 1) ∧ npt (delete r T) r = 0.
Proof.
  intros Hi Hr Hlv Hch. pose proof (mi_wf _ _ _ Hi _ _ Hr) as Hwf.
  assert (∀ pa, refs (delete r T) pa = refs T pa) as Hrefs.
  { intros pa. rewrite (refs_delete _ _ t) by done. unfold nref. rewrite Hlv, msum_empty. lia. }
  assert (∀ pa, npt (delete r T) pa = npt T pa - ind (r = pa)) as Hnpt.
  { intros pa. rewrite (npt_delete _ _ t) by done. f_equal. unfold ntab.
    rewrite (msum_delete _ _ (2%nat, 0) r) by apply Hwf. rewrite msum_zero; [lia|].
    intros [l i] q [Hne Hq]%lookup_delete_Some. destruct Hne. symmetry.
    eapply root_only; [done..|by eexists]. }
  pose proof (minv_tab_npt _ _ _ _ _ _ _ Hi Hr (wf_root _ _ Hwf)) as Hn1.
  destruct (mi_pt _ _ _ Hi r) as [?|(_ & Hr0 & HE0)]; [lia|].
  split; [|rewrite Hnpt, ind_true by done; lia].
  destruct Hi as [Ha Hwf' Hm Htb Hlf Hc Hpt Hw]. split; try done.
  - intros r1 t1 [_ H]%lookup_delete_Some. by apply Hwf'.
  - intros r1 t1 [_ H]%lookup_delete_Some. by apply (Hm r1).
  - intros r1 t1 pos p [_ H]%lookup_delete_Some. by apply (Htb r1).
  - intros r1 t1 v e [_ H]%lookup_delete_Some. by apply (Hlf r1).
  - intros pa Hv. rewrite Hc, Hnpt, Hrefs by done. unfold eadd, ind. case_decide; lia.
  - intros pa. rewrite Hnpt, Hrefs. pose proof (Hpt pa). unfold eadd, ind. case_decide; [subst|]; lia.
  - intros r1 t1 v e [_ H]%lookup_delete_Some He Hl Hu Hwr. rewrite Hrefs.
    destruct (Hw r1 t1 v e) as [H1 H2]; try done. split; [done|].
    unfold eadd. case_decide; [subst|]; lia.
Qed.

Lemma freewalk_spec k T E r t :
  minv k T E → T !! r = Some t → leaves t = ∅ →
  wp (freewalk r) k (λ _ k',
    minv k' (delete r T) E ∧ kframe k k' ∧ only_pages (touch T E) (ram k) (ram k')).
Proof.
  intros Hi Hr Hlv. pose proof (mi_wf _ _ _ Hi _ _ Hr) as Hwf. unfold freewalk.
  eapply wp_mono; [eapply (freewalk_level 2 64); [lia|lia|exact Hi|exact Hr|done|apply Hwf]|].
  intros _ k' (k1 & t1 & (Hi1 & Hkf & Hop & Hpr & Hch) & Hf).
  assert (<[r := t1]> T !! r = Some t1) as Hr1 by apply lookup_insert_eq.
  assert (leaves t1 = ∅) as Hlv1 by (rewrite (pr_leaves _ _ _ Hpr); done).
  pose proof (mi_wf _ _ _ Hi1 _ _ Hr1) as Hwf1.
  destruct (minv_drop_table _ _ _ _ _ Hi1 Hr1 Hlv1 Hch) as [Hi2 Hn2].
  rewrite delete_insert_eq in Hi2, Hn2.
  pose proof (mi_tabs _ _ _ Hi1 _ _ _ _ Hr1 (wf_root _ _ Hwf1)) as Hv.
  split_and!.
  - eapply minv_ext; [apply (eadd_back E r 1)|]. by eapply minv_kfreed.
  - etrans; [exact Hkf|apply Hf].
  - eapply only_pages_trans; [exact Hop|]. eapply only_pages_weaken; [|apply (fr_ram _ _ _ Hf)].
    intros q [-> _]. eapply (touch_tab k T E r t); [done|done|]. apply Hwf.
Qed.

(** uvmfree() frees an address space whose mappings are below [sz]. *)
Lemma uvmfree_spec k T E r t sz :
  minv k T E → Eok E → T !! r = Some t → 0 ≤ sz ≤ MAXVA →
  mapped_range t 0 (npg sz) true → (∀ v, is_Some (leaves t !! v) → v < npg sz) →
  wp (uvmfree r sz) k (λ _ k',
    minv k' (delete r T) E ∧ kframe k k' ∧
    only_pages (touch (delete r T) E) (ram k) (ram k')).
Proof.
  intros Hi HE Hr Hsz Hmap Hall. unfold uvmfree. wp_pure.
  pose proof (npg_range sz Hsz) as Hn. pose proof (mi_wf _ _ _ Hi _ _ Hr) as Hwf.
  assert (leaves (clear_range 0 (npg sz) t) = ∅) as Hlv.
  { apply map_empty. intros v. rewrite clear_range_lookup. case_decide; [done|].
    destruct (leaves t !! v) as [e|] eqn:He; [exfalso|done].
    pose proof (wf_leaf _ _ Hwf v ltac:(by eexists)) as [? _].
    pose proof (Hall v ltac:(by eexists)). lia. }
  assert (∀ k1, unmapped k T E r (clear_range 0 (npg sz) t) k1 →
    wp (freewalk r) k1 (λ _ k', minv k' (delete r T) E ∧ kframe k k' ∧
      only_pages (touch (delete r T) E) (ram k) (ram k'))) as Hgo.
  { intros k1 (Hi1 & Hkf1 & Hop1).
    assert (∀ q, touch (<[r := clear_range 0 (npg sz) t]> T) E q → touch (delete r T) E q) as Ht.
    { intros q (Hv & H0 & HE0). split_and!; try done. rewrite (refs_delete _ _ t) by done.
      rewrite (refs_insert _ _ t) in H0 by done. unfold nref in *. rewrite Hlv, msum_empty in H0. lia. }
    eapply wp_mono; [eapply freewalk_spec; [exact Hi1|apply lookup_insert_eq|done]|].
    intros _ k' (Hi' & Hkf' & Hop'). rewrite delete_insert_eq in Hi'. split_and!; [done|by etrans|].
    eapply only_pages_trans; eapply only_pages_weaken; [|exact Hop1| |exact Hop']; exact Ht. }
  destruct (Z.ltb_spec 0 sz) as [Hpos|Hzero].
  - wp_pure. rewrite PGROUNDUP_npg, Z.div_mul by done.
    eapply wp_mono; [apply (uvmunmap_spec k T E r t); try done; try lia|].
    intros ? k1 Hu. by apply Hgo.
  - wp_pure. apply Hgo. assert (npg sz = 0) as ->.
    { assert (sz = 0) as -> by lia. done. }
    rewrite clear_range_empty by done. split; [by rewrite insert_id|].
    split; [reflexivity|apply only_pages_refl].
Qed.
End free.

(** * Reference counts do not overflow

    A mapping needs a slot in a last-level table page, and table pages are
    distinct pages of RAM: so no page has more than [2 ^ 24] mappings, and the
    [int] counters of kalloc.c cannot overflow. *)

(** ** Sums over lists *)

Fixpoint lsum {A} (f : A → Z) (l : list A) : Z :=
  match l with
  | [] => 0
  | x :: l' => f x + lsum f l'
  end.

Lemma lsum_le {A} (f : A → Z) l c : (∀ x, x ∈ l → f x ≤ c) → lsum f l ≤ c * Z.of_nat (length l).
Proof.
  induction l as [|x l IH]; intros Hf; simpl; [lia|].
  pose proof (Hf x ltac:(by left)). assert (lsum f l ≤ c * Z.of_nat (length l)); [|lia].
  apply IH. intros. apply Hf. by right.
Qed.

Lemma lsum_nonneg {A} (f : A → Z) l : (∀ x, 0 ≤ f x) → 0 ≤ lsum f l.
Proof. intros Hf. induction l as [|x l IH]; simpl; [done|]. specialize (Hf x). lia. Qed.

Lemma lsum_add {A} (f g : A → Z) l : lsum (λ x, f x + g x) l = lsum f l + lsum g l.
Proof. induction l as [|x l IH]; simpl; [done|]. lia. Qed.

Lemma lsum_msum {A} `{Countable Key} {V} (f : A → Key → V → Z) (m : gmap Key V) (l : list A) :
  lsum (λ x, msum (f x) m) l = msum (λ i v, lsum (λ x, f x i v) l) m.
Proof.
  induction m as [|i v m Hi IH] using map_ind.
  - rewrite msum_empty. induction l as [|x l IHl]; [done|]. simpl. rewrite msum_empty. exact IHl.
  - rewrite msum_insert_new by done. rewrite <-IH, <-lsum_add.
    clear IH. induction l as [|x l IHl]; [done|]. simpl. rewrite msum_insert_new by done.
    rewrite IHl. done.
Qed.

Lemma lsum_ind {A} `{EqDecision A} (q : A) l : q ∈ l → 1 ≤ lsum (λ x, ind (q = x)) l.
Proof.
  induction l as [|x l IH]; intros Hq; [by apply not_elem_of_nil in Hq|]. simpl.
  assert (0 ≤ lsum (λ x, ind (q = x)) l) by (apply lsum_nonneg; intros; apply ind_range).
  pose proof (ind_range (q = x)). apply elem_of_cons in Hq as [->|Hq].
  - rewrite ind_true by done. lia.
  - specialize (IH Hq). lia.
Qed.

Lemma msum_le `{Countable Key} {V} (f g : Key → V → Z) (m : gmap Key V) :
  (∀ i x, m !! i = Some x → f i x ≤ g i x) → msum f m ≤ msum g m.
Proof.
  induction m as [|i x m Hi IH] using map_ind; intros Hf; [done|].
  rewrite !msum_insert_new by done. apply Z.add_le_mono.
  - apply Hf, lookup_insert_eq.
  - apply IH. intros j y Hj. apply Hf. rewrite lookup_insert_ne; congruence.
Qed.

Lemma msum_scale `{Countable Key} {V} c (f : Key → V → Z) (m : gmap Key V) :
  msum (λ i x, c * f i x) m = c * msum f m.
Proof.
  induction m as [|i x m Hi IH] using map_ind.
  - rewrite !msum_empty. lia.
  - rewrite !msum_insert_new, IH by done. lia.
Qed.

Lemma msum_size `{Countable Key} {V} (m : gmap Key V) : msum (λ _ _, 1) m = Z.of_nat (size m).
Proof.
  induction m as [|i x m Hi IH] using map_ind; [done|].
  rewrite msum_insert_new, map_size_insert_None, IH by done. lia.
Qed.

Section bound.
Context `{LNK : !Linker, LOK : !LinkerOk}.

(** ** Table pages *)

Definition ram_pages : list Z := (λ n, KERNBASE + n * PGSIZE) <$> seqZ 0 32768.

Lemma valid_in_pages p : valid_page p → p ∈ ram_pages.
Proof.
  intros [Ha Hr]. pose proof kend_range. apply list_elem_of_fmap.
  exists ((p - KERNBASE) / PGSIZE). rewrite elem_of_seqZ.
  unfold aligned in Ha. Zconst. split; Z.div_mod_to_equations; lia.
Qed.

Lemma ntabs_bound k T E :
  minv k T E → msum (λ _ t, Z.of_nat (size (tabs t))) T ≤ 32768.
Proof.
  intros Hi. trans (lsum (npt T) ram_pages).
  - unfold npt. rewrite (lsum_msum (λ pa _ t, ntab t pa)). apply msum_le. intros r t Hr.
    unfold ntab. rewrite (lsum_msum (λ pa _ p, ind (p = pa))). rewrite <-msum_size.
    apply msum_le. intros pos p Hp. apply lsum_ind, valid_in_pages. by eapply mi_tabs.
  - etrans; [apply (lsum_le _ _ 1)|].
    + intros p _. destruct (mi_pt _ _ _ Hi p); lia.
    + unfold ram_pages. rewrite length_fmap, length_seqZ. lia.
Qed.

(** ** Leaves *)

Lemma nleaves_bound root t :
  pt_wf root t → Z.of_nat (size (leaves t)) ≤ 512 * Z.of_nat (size (tabs t)).
Proof.
  intros Hwf.
  set (L := (map_to_list (tabs t)) ≫= λ '((_, i), _), (λ x, 512 * i + x) <$> seqZ 0 512).
  assert ((map_to_list (leaves t)).*1 ⊆+ L) as Hsub.
  { apply NoDup_submseteq; [apply NoDup_fst_map_to_list|].
    intros v [[v' e] [-> He%elem_of_map_to_list]]%list_elem_of_fmap. simpl.
    destruct (wf_leaf _ _ Hwf v') as [_ [p Hp]]; [by eexists|].
    apply list_elem_of_bind. exists ((O, v' / 512), p). split; [|by apply elem_of_map_to_list].
    apply list_elem_of_fmap. exists (v' mod 512). rewrite elem_of_seqZ.
    split; [apply Z.div_mod; lia|]. apply Z.mod_pos_bound. lia. }
  apply submseteq_length in Hsub. rewrite length_fmap, length_map_to_list in Hsub.
  assert (length L = 512 * length (map_to_list (tabs t)))%nat as HL.
  { subst L. generalize (map_to_list (tabs t)) as l.
    induction l as [|[[? i] ?] l IH]; [done|].
    rewrite bind_cons, length_app, IH, length_fmap, length_seqZ. cbn [length]. lia. }
  rewrite HL, length_map_to_list in Hsub. lia.
Qed.

Lemma nref_size t pa : nref t pa ≤ Z.of_nat (size (leaves t)).
Proof.
  unfold nref. rewrite <-msum_size. apply msum_le. intros. apply ind_range.
Qed.

Lemma refs_bound k T E pa : minv k T E → refs T pa ≤ 2 ^ 24.
Proof.
  intros Hi. pose proof (ntabs_bound k T E Hi). unfold refs.
  trans (msum (λ _ t, 512 * Z.of_nat (size (tabs t))) T).
  - apply msum_le. intros r t Hr. etrans; [apply nref_size|].
    by eapply nleaves_bound, mi_wf.
  - rewrite msum_scale. lia.
Qed.
End bound.
