(* ===== verification/Cow.v ===== *)
(** * Copy-on-write fork

    uvmcopy() shares the pages of the parent with the child, read-only and
    marked copy-on-write, and cowalloc() gives a process its own copy of such a
    page when it wants to write it. *)

From stdpp Require Import gmap list strings.
From Stdlib Require Import ZArith Lia.
From S2P Require Import Prelude Mem Str Params Machine Spinlock Kalloc Vm PageTable VmWalk VmMap VmSpace VmFree.
#[local] Open Scope Z_scope.

(** ** Flags *)

(** The flags uvmcopy() gives to both mappings. *)
Definition cow_flags (flags : Z) : Z :=
  if Z.land flags (Z.lor PTE_W PTE_U) =? Z.lor PTE_W PTE_U
  then Z.lor (Z.land flags (Z.lnot PTE_W)) PTE_COW else flags.

(** The flags cowalloc() gives to the page of its own. *)
Definition own_flags (flags : Z) : Z := Z.land (Z.lor flags PTE_W) (Z.lnot PTE_COW).

(** Ten flag bits can be checked one by one. *)
Definition all_flags (P : Z → bool) : bool := forallb P (seqZ 0 1024).

Lemma all_flags_spec P : all_flags P = true → ∀ fl, 0 ≤ fl < 1024 → P fl = true.
Proof.
  unfold all_flags. rewrite forallb_forall. intros H fl Hfl. apply H.
  apply list_elem_of_In, elem_of_seqZ. lia.
Qed.

Definition cow_flags_ok (fl : Z) : bool :=
  let c := cow_flags fl in
  (0 <=? c) && (c <? 1024) &&
  Bool.eqb (has c PTE_V) (has fl PTE_V) && Bool.eqb (has c PTE_RX) (has fl PTE_RX) &&
  Bool.eqb (has c PTE_U) (has fl PTE_U) && negb (has c PTE_U && has c PTE_W) &&
  implb (has fl PTE_V) (Z.lor c PTE_V =? c) &&
  implb (has fl PTE_U && Bool.eqb (has fl PTE_W) (negb (has fl PTE_COW)))
        (has c PTE_COW && negb (has c PTE_W)).

Definition own_flags_ok (fl : Z) : bool :=
  let c := own_flags fl in
  (0 <=? c) && (c <? 1024) &&
  Bool.eqb (has c PTE_V) (has fl PTE_V) && Bool.eqb (has c PTE_RX) (has fl PTE_RX) &&
  Bool.eqb (has c PTE_U) (has fl PTE_U) && has c PTE_W && negb (has c PTE_COW).

Lemma cow_flags_spec fl :
  0 ≤ fl < 1024 → let c := cow_flags fl in
  0 ≤ c < 1024 ∧ has c PTE_V = has fl PTE_V ∧ has c PTE_RX = has fl PTE_RX ∧
  has c PTE_U = has fl PTE_U ∧ ¬ (has c PTE_U = true ∧ has c PTE_W = true) ∧
  (has fl PTE_V = true → Z.lor c PTE_V = c) ∧
  (has fl PTE_U = true → has fl PTE_W = negb (has fl PTE_COW) →
   has c PTE_COW = true ∧ has c PTE_W = false).
Proof.
  intros Hfl. assert (cow_flags_ok fl = true) as H.
  { revert fl Hfl. apply all_flags_spec. by vm_compute. }
  unfold cow_flags_ok in H. rewrite !andb_true_iff in H.
  destruct H as [[[[[[[H1 H2] H3] H4] H5] H6] H7] H8].
  apply Z.leb_le in H1. apply Z.ltb_lt in H2. apply Bool.eqb_prop in H3, H4, H5. simpl.
  split_and!; try done.
  - intros [Hu Hw]. by rewrite Hu, Hw in H6.
  - intros Hv. rewrite Hv in H7. by apply Z.eqb_eq.
  - intros Hu Hw. rewrite Hu, Hw, Bool.eqb_reflx in H8. simpl in H8.
    apply andb_true_iff in H8 as [? ?%negb_true_iff]. done.
Qed.

Lemma own_flags_spec fl :
  0 ≤ fl < 1024 → let c := own_flags fl in
  0 ≤ c < 1024 ∧ has c PTE_V = has fl PTE_V ∧ has c PTE_RX = has fl PTE_RX ∧
  has c PTE_U = has fl PTE_U ∧ has c PTE_W = true ∧ has c PTE_COW = false.
Proof.
  intros Hfl. assert (own_flags_ok fl = true) as H.
  { revert fl Hfl. apply all_flags_spec. by vm_compute. }
  unfold own_flags_ok in H. rewrite !andb_true_iff in H.
  destruct H as [[[[[[H1 H2] H3] H4] H5] H6] H7].
  apply Z.leb_le in H1. apply Z.ltb_lt in H2. apply Bool.eqb_prop in H3, H4, H5.
  apply negb_true_iff in H7. simpl. by split_and!.
Qed.

(** The entry after uvmcopy(). *)
Definition cow_pte (e : Z) : Z := mkpte (PTE2PA e) (cow_flags (PTE_FLAGS e)).

Section cow.
Context `{LNK : !Linker, LOK : !LinkerOk}.
Implicit Types (k : kernel) (T : tables) (E : Z → Z).

Lemma leaf_pa_range lm v e : leaf_ok lm v e → pa_ok (PTE2PA e).
Proof. intros H. apply PTE2PA_ok, (lo_range _ _ _ H). Qed.

Lemma mkpte_pa_eq lm v e fl : leaf_ok lm v e → 0 ≤ fl < 1024 → PTE2PA (mkpte (PTE2PA e) fl) = PTE2PA e.
Proof. intros H Hf. apply PTE2PA_mkpte; [by eapply leaf_pa_range|done]. Qed.

Lemma has_mkpte_pa lm v e fl m :
  leaf_ok lm v e → 0 ≤ fl < 1024 → 0 ≤ m < 1024 → has (mkpte (PTE2PA e) fl) m = has fl m.
Proof.
  intros H Hf Hm. rewrite has_flags, PTE_FLAGS_mkpte; try done.
  by apply (leaf_pa_range _ _ _ H).
Qed.

Lemma cow_pte_pa lm v e : leaf_ok lm v e → PTE2PA (cow_pte e) = PTE2PA e.
Proof. intros H. unfold cow_pte. eapply mkpte_pa_eq; [exact H|]. apply cow_flags_spec, PTE_FLAGS_range. Qed.

Lemma cow_pte_has lm v e m :
  leaf_ok lm v e → 0 ≤ m < 1024 → has (cow_pte e) m = has (cow_flags (PTE_FLAGS e)) m.
Proof. intros H Hm. unfold cow_pte. eapply has_mkpte_pa; [exact H| |exact Hm]. apply cow_flags_spec, PTE_FLAGS_range. Qed.

(** The entry stays a good one, no longer writable. *)
Lemma cow_pte_ok lm lm' v e :
  leaf_ok lm v e → v < lm → v < lm' →
  leaf_ok lm' v (cow_pte e) ∧ ¬ (has (cow_pte e) PTE_U = true ∧ has (cow_pte e) PTE_W = true) ∧
  has (cow_pte e) PTE_U = has e PTE_U.
Proof.
  intros Hok Hl Hl'. destruct (cow_flags_spec (PTE_FLAGS e) (PTE_FLAGS_range e))
    as (H1 & H2 & H3 & H4 & H5 & H6 & H7).
  rewrite !(cow_pte_has lm v) by done. rewrite (has_flags e PTE_U) by done.
  split_and!; [|done|done]. rewrite <-!has_flags in * by done. split.
  - pose proof (mkpte_range (PTE2PA e) _ (proj2 (leaf_pa_range _ _ _ Hok)) H1). unfold cow_pte. lia.
  - rewrite (cow_pte_has lm v), H2 by done. apply Hok.
  - rewrite (cow_pte_has lm v), H3 by done. apply Hok.
  - intros _. rewrite (cow_pte_pa lm v) by done. by apply Hok.
  - intros _. rewrite !(cow_pte_has lm v), H4 by done. intros Hu.
    destruct H7 as [-> ->]; [done|by apply (lo_cow _ _ _ Hok)|done].
  - lia.
Qed.

(** Entries that are not writable by the user stay as they are. *)
Lemma cow_pte_id lm v e :
  leaf_ok lm v e →
  (Z.land (PTE_FLAGS e) (Z.lor PTE_W PTE_U) =? Z.lor PTE_W PTE_U) = false → cow_pte e = e.
Proof.
  intros Hok H. unfold cow_pte, cow_flags. rewrite H. apply mkpte_eta, Hok.
Qed.

(** ** Changing an entry in place *)

(** The same page with other flags: nobody else's mapping is affected. *)
Lemma minv_reflag k T E r t v e e' q :
  minv k T E → T !! r = Some t → tabs t !! (O, v / 512) = Some q → 0 ≤ v →
  leaves t !! v = Some e → PTE2PA e' = PTE2PA e → leaf_ok (lim t) v e' →
  (v < lim t → has e' PTE_U = true → has e' PTE_W = true →
   refs T (PTE2PA e) = 1 ∧ E (PTE2PA e) ≤ 0) →
  minv (upd_ram (λ m, st64 m (entry q (v mod 512)) e') k) (<[r := put_leaf v (Some e') t]> T) E.
Proof.
  intros Hi Hr Hq Hv He Hpa Hok Hw.
  assert (∀ pa, refs (<[r := put_leaf v (Some e') t]> T) pa = refs T pa) as Hrefs.
  { intros pa. rewrite refs_put_leaf by done. unfold leaf_ref. rewrite He. simpl. rewrite Hpa. lia. }
  apply (minv_set_leaf k T E E r t v (Some e') q); try done.
  - by intros ? [= <-].
  - intros pa. by rewrite Hrefs.
  - intros pa Hn. rewrite Hrefs. destruct (mi_pt _ _ _ Hi pa); lia.
  - intros ? [= <-] Hl Hu Hwr. rewrite Hrefs, Hpa. by apply Hw.
  - intros r' t' v' e1 Hr' He1 Hl' _ Hu Hwr. rewrite Hrefs. by apply (mi_w _ _ _ Hi r' t' v').
Qed.

(** ** krefinc() *)

Lemma krefinc_minv k T E pa :
  minv k T E → valid_page pa → no_writer T pa → E pa ≤ 1 → 1 ≤ cnt k pa → npt T pa = 0 →
  wp (krefinc pa) k (λ _ k', kframe k k' ∧ ram k' = ram k ∧ minv k' T (eadd E pa 1)).
Proof.
  intros Hi Hv Hnw HE H1 Hn. destruct (mi_alloc _ _ _ Hi) as [F Ha].
  pose proof (mi_cnt _ _ _ Hi pa Hv) as Hc. pose proof (refs_bound k T E pa Hi) as Hb.
  eapply wp_mono; [apply krefinc_spec; [exact Ha|split; [done|apply Hv]|lia]|].
  intros _ k' (Ha' & Hkf & Er & Hc1 & Hc2). split_and!; [done..|].
  destruct Hi as [_ Hwf Hm Htb Hlf Hcn Hpt Hw]. split; try done.
  - by exists F.
  - by rewrite Er.
  - intros q Hq. specialize (Hcn q Hq). unfold eadd. case_decide; [subst; lia|].
    rewrite Hc2 by (done || by apply valid_ram). done.
  - intros q. unfold eadd. case_decide; [subst; lia|apply Hpt].
  - intros r t v e Hr He Hl Hu Hwr. destruct (Hw r t v e) as [? ?]; try done.
    split; [done|]. unfold eadd. case_decide as Hpa; [|done]. by destruct (Hnw r t v e).
Qed.

(** ** uvmcopy() *)

(** The parent, with its pages below [n] made copy-on-write. *)
Definition cow_upto (n : Z) (t : pgtab) : pgtab :=
  set_leaves (map_imap (λ v e, Some (if decide (v < n) then cow_pte e else e))) t.

Lemma cow_upto_lookup n t v :
  leaves (cow_upto n t) !! v =
  (λ e, if decide (v < n) then cow_pte e else e) <$> leaves t !! v.
Proof. simpl. rewrite map_lookup_imap. by destruct (leaves t !! v). Qed.

Lemma cow_upto_0 root t : pt_wf root t → cow_upto 0 t = t.
Proof.
  intros Hwf. apply pgtab_eq; [done..|]. intros v. rewrite cow_upto_lookup.
  destruct (leaves t !! v) as [e|] eqn:He; [|done]. simpl.
  destruct (wf_leaf _ _ Hwf v ltac:(by eexists)). rewrite decide_False by lia. done.
Qed.

Lemma cow_upto_step n t e :
  leaves t !! n = Some e → put_leaf n (Some (cow_pte e)) (cow_upto n t) = cow_upto (n + 1) t.
Proof.
  intros He. apply pgtab_eq; [done..|]. intros v.
  rewrite put_leaf_lookup, !cow_upto_lookup. case_decide as H1.
  - subst. rewrite He. simpl. by rewrite decide_True by lia.
  - destruct (leaves t !! v); [|done]. simpl. f_equal. repeat case_decide; (done || lia).
Qed.

(** The child [t'], from its table [t] and the parent's [old]: it shares the
    parent's pages below [n]. *)
Record shared (n : Z) (old t t' : pgtab) : Prop := {
  sh_tabs : tabs t ⊆ tabs t';
  sh_lim : lim t' = lim t;
  sh_new : ∀ v, 0 ≤ v < n → leaves t' !! v = cow_pte <$> leaves old !! v;
  sh_rest : ∀ v, ¬ 0 ≤ v < n → leaves t' !! v = leaves t !! v;
}.

Lemma shared_0 old t : shared 0 old t t.
Proof. split; try done. intros. lia. Qed.

Lemma shared_step n old t t1 t2 e :
  0 ≤ n → shared n old t t1 → grown t1 t2 → leaves old !! n = Some e →
  shared (n + 1) old t (put_leaf n (Some (cow_pte e)) t2).
Proof.
  intros Hn [H1 H2 H3 H4] [G1 G2 G3] He. split.
  - by etrans.
  - simpl. congruence.
  - intros v Hv. rewrite put_leaf_lookup. case_decide; [subst; by rewrite He|].
    rewrite G2. apply H3. lia.
  - intros v Hv. rewrite put_leaf_lookup, decide_False, G2 by lia. apply H4. lia.
Qed.

Lemma shared_grown n old t t1 t2 : shared n old t t1 → grown t1 t2 → shared n old t t2.
Proof.
  intros [H1 H2 H3 H4] [G1 G2 G3]. split; [by etrans|congruence|by rewrite G2..].
Qed.

Lemma shared_none old t t' : grown t t' → shared 0 old t t'.
Proof. intros [G1 G2 G3]. split; [done|done|lia|]. intros v _. by rewrite G2. Qed.

(** Its mappings removed again. *)
Lemma shared_clear n old t t1 t2 :
  shared n old t t1 → grown t1 t2 → (∀ v, 0 ≤ v < n → leaves t !! v = None) →
  grown t (clear_range 0 n t2).
Proof.
  intros [H1 H2 H3 H4] [G1 G2 G3] Hn. split; simpl tabs; [by etrans| |simpl; congruence].
  apply map_eq. intros v. rewrite clear_range_lookup. case_decide; [by rewrite Hn|].
  rewrite G2. by apply H4.
Qed.

Lemma put_leaf_id v e t : leaves t !! v = Some e → put_leaf v (Some e) t = t.
Proof.
  intros He. apply pgtab_eq; [done..|]. intros v'. rewrite put_leaf_lookup.
  case_decide; [by subst|done].
Qed.

(** The parent's part of one iteration. *)
Lemma parent_page {X} k T E r t va e (kont : Z → Z → K X) Q :
  minv k T E → T !! r = Some t → 0 ≤ va < MAXVA → leaves t !! vpn va = Some e → vpn va < lim t →
  (∀ k', minv k' (<[r := put_leaf (vpn va) (Some (cow_pte e)) t]> T) E → kframe k k' →
     only_pages (touch T E) (ram k) (ram k') → krefs k' = krefs k →
     wp (kont (PTE2PA e) (cow_flags (PTE_FLAGS e))) k' Q) →
  wp (pte ← walk r va false;
      if pte =? 0 then panic "uvmcopy: pte should exist" else
      e ← load64 pte;
      if Z.land e PTE_V =? 0 then panic "uvmcopy: page not present" else
      e ← load64 pte;
      let pa := PTE2PA e in
      e ← load64 pte;
      let flags := PTE_FLAGS e in
      flags ← (if Z.land flags (Z.lor PTE_W PTE_U) =? Z.lor PTE_W PTE_U then
                 let flags := Z.lor (Z.land flags (Z.lnot PTE_W)) PTE_COW in
                 store64 pte (Z.lor (PA2PTE pa) flags);;
                 mret flags
               else mret flags);
      kont pa flags) k Q.
Proof.
  intros Hi Hr Hva He Hl Hk. wp_pure. eapply wp_mono; [by eapply walk_find|].
  intros ? ? [-> ->]. pose proof (slot_nonzero _ _ _ _ _ _ _ Hi Hr He) as Hnz.
  destruct (Z.eqb_spec (slot t va) 0); [done|]. wp_pure.
  pose proof (slot_load _ _ _ _ _ _ Hi Hr Hnz) as Hld. rewrite He in Hld. rewrite Hld. simpl default.
  pose proof (mi_leaf _ _ _ Hi _ _ _ _ Hr He) as Hok.
  rewrite (leaf_present _ _ _ Hok). wp_pure. rewrite !Hld. simpl default.
  destruct (slot_tab _ _ Hnz) as (q & Hq & Hs). destruct (slot_key va) as [E1 E2].
  rewrite E1 in Hq. rewrite Hs, E2 in *. unfold cow_flags in Hk.
  destruct (_ =? _) eqn:Hwu.
  - wp_pure. fold (mkpte (PTE2PA e) (Z.lor (Z.land (PTE_FLAGS e) (Z.lnot PTE_W)) PTE_COW)).
    assert (mkpte (PTE2PA e) (Z.lor (Z.land (PTE_FLAGS e) (Z.lnot PTE_W)) PTE_COW) = cow_pte e) as ->.
    { unfold cow_pte, cow_flags. by rewrite Hwu. }
    destruct (cow_pte_ok _ (lim t) _ _ Hok Hl Hl) as (Hok' & Hnw & _).
    apply Hk; [|by split| |done].
    + apply (minv_reflag k T E r t _ e); try done.
      * apply vpn_nonneg. lia.
      * by eapply cow_pte_pa.
      * intros _ Hu Hw. by destruct Hnw.
    + eapply only_pages_weaken; [|apply only_pages_entry].
      * intros ? ->. by eapply touch_tab.
      * by apply (mi_tabs _ _ _ Hi _ _ _ _ Hr Hq).
      * apply Z.mod_pos_bound. lia.
  - wp_pure. apply Hk; [|reflexivity|apply only_pages_refl|done].
    rewrite (cow_pte_id _ _ _ Hok Hwu), put_leaf_id, insert_id by done. done.
Qed.

(** After the parent's entry was changed, nobody writes the page. *)
Lemma cow_no_writer k T E r t v e lm :
  minv k T E → T !! r = Some t → leaves t !! v = Some (cow_pte e) → v < lim t →
  leaf_ok lm v e → v < lm → no_writer T (PTE2PA e).
Proof.
  intros Hi Hr He Hl Hok Hlm r' t' v' e' Hr' He' Hl' Hu Hw Hpa.
  destruct (mi_w _ _ _ Hi r' t' v' e') as [H1 _]; try done.
  destruct (leaf_unique T r' t' v' e' r t v (cow_pte e)) as [-> ->]; try done; [lia| |].
  - by rewrite (cow_pte_pa _ _ _ Hok).
  - simplify_eq. destruct (cow_pte_ok _ lm _ _ Hok Hlm Hlm) as (_ & Hnw & _). by apply Hnw.
Qed.

(** The child's part of one iteration: map the page and count the mapping. *)
Lemma child_page {X} k T E old t new tn va e lm (fail kont : K X) Q :
  minv k T E → Eok E → T !! old = Some t → T !! new = Some tn → aligned va → 0 ≤ va < MAXVA →
  leaves t !! vpn va = Some (cow_pte e) → vpn va < lim t → leaf_ok lm (vpn va) e → vpn va < lm →
  leaves tn !! vpn va = None → vpn va < lim tn →
  (∀ k', map_failed k T E new tn k' → wp fail k' Q) →
  (∀ k' tn', minv k' (<[new := put_leaf (vpn va) (Some (cow_pte e)) tn']> T) E → kframe k k' →
     grown tn tn' → only_pages (touch T E) (ram k) (ram k') → taken 2 k k' → wp kont k' Q) →
  wp (c ← mappages new va PGSIZE (PTE2PA e) (cow_flags (PTE_FLAGS e));
      if negb (c =? 0) then fail else krefinc (PTE2PA e);; kont) k Q.
Proof.
  intros Hi HE Ho Hn Hal Hva He Hl Hok Hlm Hnone Hl' Hfail Hk.
  destruct (cow_flags_spec _ (PTE_FLAGS_range e)) as (_ & _ & _ & _ & _ & Hlor & _).
  assert (Z.lor (cow_flags (PTE_FLAGS e)) PTE_V = cow_flags (PTE_FLAGS e)) as Hfl.
  { apply Hlor. rewrite <-has_flags by done. apply Hok. }
  destruct (cow_pte_ok _ (lim tn) _ _ Hok Hlm Hl') as (Hok' & Hnw & _).
  pose proof (cow_pte_pa _ _ _ Hok) as Hpa.
  pose proof (cow_no_writer _ _ _ _ _ _ _ _ Hi Ho He Hl Hok Hlm) as Hnwr.
  destruct (mapped_page _ _ _ _ _ _ _ Hi HE Ho He Hl) as (Hv & Hr1 & Hn0 & Hc).
  rewrite Hpa in Hv, Hr1, Hn0, Hc. pose proof (HE (PTE2PA e)) as HEpa.
  wp_pure. eapply wp_mono.
  { apply (mappages_page k T E new tn va (PTE2PA e)); try done.
    rewrite Hfl. fold (cow_pte e). split; [done|by rewrite Hpa; lia| |by rewrite Hpa].
    intros _ Hu Hw. by destruct Hnw. }
  rewrite Hfl. fold (cow_pte e). intros c k1 [[-> Hd]|[-> Hf]]; cbn [Z.eqb negb]; [|by apply Hfail].
  destruct Hd as (tn' & Hi1 & Hkf & Hg & Hop & Htk). rewrite Hpa in Hi1. unfold emap in Hi1.
  rewrite decide_True in Hi1 by done. set (T1 := <[new := _]> T) in *.
  assert (refs T1 (PTE2PA e) = refs T (PTE2PA e) + 1) as Hrf.
  { subst T1. rewrite <-(insert_insert_eq T new _ tn'), refs_put_leaf, (refs_grown _ _ tn), leaf_ref_none
      by (done || apply lookup_insert_eq || by rewrite (gr_leaves _ _ Hg)).
    simpl. rewrite (gr_lim _ _ Hg), Hpa, ind_true by done. lia. }
  assert (eadd E (PTE2PA e) (-1) (PTE2PA e) = E (PTE2PA e) - 1) as HE1.
  { unfold eadd. by rewrite decide_True. }
  assert (npt T1 (PTE2PA e) = 0) as Hn1 by (destruct (mi_pt _ _ _ Hi1 (PTE2PA e)); lia).
  wp_pure. eapply wp_mono; [apply (krefinc_minv k1 T1 _ _ Hi1); try done|].
  - intros r1 t1 v1 e1 [[<- <-]|[_ H1]]%lookup_insert_Some; [|by apply (Hnwr r1)].
    rewrite put_leaf_lookup. case_decide; [intros [= <-] _ Hu Hw; by destruct Hnw|].
    rewrite (gr_leaves _ _ Hg). simpl. rewrite (gr_lim _ _ Hg). by apply (Hnwr new).
  - lia.
  - rewrite (mi_cnt _ _ _ Hi1) by done. lia.
  - intros _ k2 (Hkf2 & Er & Hi2). apply (Hk _ tn'); [|by etrans|done|by rewrite Er|].
    + eapply minv_ext; [|exact Hi2]. intros q. unfold eadd. case_decide; lia.
    + apply (taken_trans 2 0 _ k1); [done|]. apply taken_0. intros pa' Hv' Hz.
      rewrite (mi_cnt _ _ _ Hi1) in Hz by done. rewrite (mi_cnt _ _ _ Hi2) by done. unfold eadd at 1.
      case_decide; [subst pa'|done]. lia.
Qed.
End cow.

(** ** uvmcopy(): all pages *)

Section uvmcopy.
Context `{LNK : !Linker, LOK : !LinkerOk}.
Context (k : kernel) (T : tables) (E : Z → Z) (old new : Z) (tp tc : pgtab) (n : Z).
Hypotheses (Hi : minv k T E) (HE : Eok E) (Hold : T !! old = Some tp) (Hnew : T !! new = Some tc).
Hypotheses (Hne : old ≠ new) (Hn : 0 ≤ n) (Hmax : n * PGSIZE ≤ MAXVA).
Hypothesis Hpar : ∀ v, 0 ≤ v < n → is_Some (leaves tp !! v) ∧ v < lim tp.
Hypothesis Hchild : ∀ v, 0 ≤ v < n → leaves tc !! v = None ∧ v < lim tc.

(** The tables when the parent's first [i] pages have been changed. *)
Definition forked (i : Z) (t : pgtab) : tables := <[new := t]> (<[old := cow_upto i tp]> T).

Definition copied (i j : Z) (s : kernel) : Prop :=
  ∃ t, minv s (forked j t) E ∧ kframe k s ∧ shared i tp tc t ∧
       only_pages (touch T E) (ram k) (ram s).

Lemma nref_cow_upto i pa : nref (cow_upto i tp) pa = nref tp pa.
Proof.
  assert (∀ v e, leaves tp !! v = Some e → PTE2PA (cow_pte e) = PTE2PA e) as Hpa.
  { intros v e He. eapply cow_pte_pa, mi_leaf; [exact Hi|exact Hold|exact He]. }
  apply Z.le_antisymm; unfold nref; (apply msum_mono; [|intros; apply ind_range]).
  - intros v e. rewrite cow_upto_lookup. intros (e' & He' & ->)%fmap_Some. exists e'.
    split; [done|]. change (lim (cow_upto i tp)) with (lim tp).
    destruct (decide (v < i)); [rewrite (Hpa v e') by done|]; lia.
  - intros v e He. exists (if decide (v < i) then cow_pte e else e).
    rewrite cow_upto_lookup, He. split; [done|]. change (lim (cow_upto i tp)) with (lim tp).
    destruct (decide (v < i)); [rewrite (Hpa v e) by done|]; lia.
Qed.

Lemma nref_shared i t pa : i ≤ n → shared i tp tc t → nref tc pa ≤ nref t pa.
Proof.
  intros Hin [_ Hl _ Hrest]. unfold nref. apply msum_mono; [|intros; apply ind_range].
  intros v e He. exists e. rewrite Hrest, Hl; [done|]. intros Hv.
  destruct (Hchild v) as [H _]; [lia|]. congruence.
Qed.

Lemma refs_forked i j t pa : i ≤ n → shared i tp tc t → refs T pa ≤ refs (forked j t) pa.
Proof.
  intros Hin Hs. unfold forked.
  rewrite (refs_insert _ _ tc) by (by rewrite lookup_insert_ne).
  rewrite (refs_insert _ _ tp), nref_cow_upto by done.
  pose proof (nref_shared i t pa Hin Hs). lia.
Qed.

Lemma touch_forked i j t q : i ≤ n → shared i tp tc t → touch (forked j t) E q → touch T E q.
Proof.
  intros Hin Hs (Hv & H0 & HEq). split_and!; try done.
  pose proof (refs_forked i j t q Hin Hs). pose proof (refs_nonneg T q). lia.
Qed.

(** One iteration: page [i] is shared, or there was no memory for the child's
    table. *)
Lemma copy_iter {X} i s (fail kont : K X) Q :
  0 ≤ i < n → copied i i s →
  (∀ s', copied i (i + 1) s' → short 2 s → wp fail s' Q) →
  (∀ s', copied (i + 1) (i + 1) s' → taken 2 s s' → wp kont s' Q) →
  wp (pte ← walk old (i * PGSIZE) false;
      if pte =? 0 then panic "uvmcopy: pte should exist" else
      e ← load64 pte;
      if Z.land e PTE_V =? 0 then panic "uvmcopy: page not present" else
      e ← load64 pte;
      let pa := PTE2PA e in
      e ← load64 pte;
      let flags := PTE_FLAGS e in
      flags ← (if Z.land flags (Z.lor PTE_W PTE_U) =? Z.lor PTE_W PTE_U then
                 let flags := Z.lor (Z.land flags (Z.lnot PTE_W)) PTE_COW in
                 store64 pte (Z.lor (PA2PTE pa) flags);;
                 mret flags
               else mret flags);
      c ← mappages new (i * PGSIZE) PGSIZE pa flags;
      if negb (c =? 0) then fail else krefinc pa;; kont) s Q.
Proof.
  intros Hin (t & Hi1 & Hkf & Hsh & Hop) Hfail Hk.
  destruct (Hpar i Hin) as [[e He] Hlp]. destruct (Hchild i Hin) as [Hnone Hlc].
  assert (forked i t !! old = Some (cow_upto i tp)) as Ho1.
  { unfold forked. rewrite lookup_insert_ne by done. apply lookup_insert_eq. }
  pose proof (mi_leaf _ _ _ Hi _ _ _ _ Hold He) as Hok.
  eapply (parent_page s (forked i t) E old (cow_upto i tp) (i * PGSIZE) e
    (λ pa flags, c ← mappages new (i * PGSIZE) PGSIZE pa flags;
                 if negb (c =? 0) then fail else krefinc pa;; kont)); try done.
  - Zconst. lia.
  - rewrite vpn_mul, cow_upto_lookup, He. simpl. by rewrite decide_False by lia.
  - rewrite vpn_mul. done.
  - intros s1 Hi2 Hkf1 Hop1 Ek. rewrite vpn_mul, cow_upto_step in Hi2 by done.
    assert (<[old := cow_upto (i + 1) tp]> (forked i t) = forked (i + 1) t) as HT.
    { unfold forked. rewrite insert_insert_ne, insert_insert_eq by done. done. }
    rewrite HT in Hi2.
    assert (only_pages (touch T E) (ram k) (ram s1)) as Hop2.
    { eapply only_pages_trans; [exact Hop|]. eapply only_pages_weaken; [|exact Hop1].
      intros q. apply touch_forked with i; [lia|done]. }
    assert (∀ m m', only_pages (touch (forked (i + 1) t) E) m m' → only_pages (touch T E) m m') as Hw.
    { intros m m'. apply only_pages_weaken. intros q. apply touch_forked with i; [lia|done]. }
    eapply (child_page s1 (forked (i + 1) t) E old (cow_upto (i + 1) tp) new t _ e (lim tp)); try done.
    + unfold forked. rewrite lookup_insert_ne by done. apply lookup_insert_eq.
    + apply lookup_insert_eq.
    + apply aligned_mul.
    + Zconst. lia.
    + rewrite vpn_mul, cow_upto_lookup, He. simpl. by rewrite decide_True by lia.
    + by rewrite vpn_mul.
    + by rewrite vpn_mul.
    + by rewrite vpn_mul.
    + rewrite vpn_mul, (sh_rest _ _ _ _ Hsh) by lia. done.
    + by rewrite vpn_mul, (sh_lim _ _ _ _ Hsh).
    + intros s2 (t2 & Hi3 & Hkf2 & Hg & Hop3 & Ho & Htk). apply Hfail;
        [|apply (taken_short 0 2 _ s1); [by apply taken_refs|]; apply (taken_short 2 0 _ s2); [done|by apply oom_short]].
      exists t2.
      unfold forked in Hi3. rewrite insert_insert_eq in Hi3. split_and!; [done| | |].
      * by repeat (etrans; [eassumption|]).
      * by eapply shared_grown.
      * eapply only_pages_trans; [exact Hop2|]. by apply Hw.
    + intros s2 t2 Hi3 Hkf2 Hg Hop3 Htk.
      apply Hk; [|apply (taken_trans 0 2 _ s1); [by apply taken_refs|done]]. eexists. unfold forked in Hi3.
      rewrite vpn_mul, insert_insert_eq in Hi3. split_and!; [exact Hi3| | |].
      * by repeat (etrans; [eassumption|]).
      * eapply shared_step; [lia|done..].
      * eapply only_pages_trans; [exact Hop2|]. by apply Hw.
Qed.

(** [goto err]: the child gets its mappings taken away again. *)
Lemma copy_err i j s :
  0 ≤ i ≤ n → copied i j s →
  wp (uvmunmap new 0 i true) s (λ _ s', ∃ t', minv s' (forked j t') E ∧ kframe k s' ∧
    grown tc t' ∧ only_pages (touch T E) (ram k) (ram s')).
Proof.
  intros Hin (t & Hi1 & Hkf & Hsh & Hop).
  assert (forked j t !! new = Some t) as Hn1 by apply lookup_insert_eq.
  assert (grown tc (clear_range 0 i t)) as Hg.
  { eapply shared_clear; [done|reflexivity|]. intros v Hv. apply Hchild. lia. }
  eapply wp_mono; [apply (uvmunmap_spec s (forked j t) E new t); try done; try lia|].
  - rewrite Z.add_0_l. etrans; [|exact Hmax]. Zconst. lia.
  - intros v Hv. change (vpn 0) with 0 in Hv. rewrite (sh_new _ _ _ _ Hsh) by lia.
    destruct (Hpar v) as [[e He] _]; [lia|].
    rewrite He, (sh_lim _ _ _ _ Hsh). split; [by eexists|]. apply Hchild. lia.
  - intros ? s' (Hi2 & Hkf2 & Hop2). exists (clear_range 0 i t).
    unfold forked in Hi2, Hop2. rewrite insert_insert_eq in Hi2, Hop2.
    split_and!; [exact Hi2|by etrans|done|].
    eapply only_pages_trans; [exact Hop|]. eapply only_pages_weaken; [|exact Hop2].
    intros q. apply (touch_forked 0); [lia|]. by apply shared_none.
Qed.

(** The result of uvmcopy() of a parent of [n] pages. *)
Definition fork_ok (s : kernel) : Prop := copied n n s.
Definition fork_failed (s : kernel) : Prop :=
  ∃ j t', 0 ≤ j ≤ n ∧ minv s (forked j t') E ∧ kframe k s ∧ grown tc t' ∧
    only_pages (touch T E) (ram k) (ram s).

Lemma uvmcopy_spec sz :
  0 ≤ sz ≤ MAXVA → n = npg sz →
  wp (uvmcopy old new sz) k (λ c s, c = 0 ∧ fork_ok s ∨ c = -1 ∧ fork_failed s ∧ short (Z.to_nat (2 * n)) k).
Proof.
  intros Hsz Hnsz. pose proof (npg_range sz Hsz) as Hrg. rewrite <-Hnsz in Hrg.
  unfold uvmcopy. apply wp_bind.
  apply (wp_loop _ (λ a s, ∃ i, a = i * PGSIZE ∧ 0 ≤ i ≤ n ∧ copied i i s ∧ taken (Z.to_nat (2 * i)) k s)
                   (λ a _, n * PGSIZE - a)).
  - intros a s (i & -> & Hin & Hc & Htk). destruct (Z.ltb_spec (i * PGSIZE) sz) as [Hlt|Hge].
    + apply (copy_iter i); [Zconst; lia|done|..].
      * intros s' Hc' Hsh. wp_pure. rewrite Z.div_mul by done.
        eapply wp_mono; [apply (copy_err i (i + 1)); [Zconst; lia|done]|].
        intros _ s2 (t' & H1 & H2 & H3 & H4). apply wp_ret. right. split_and!; [done| |].
        -- exists (i + 1), t'. split_and!; try done; Zconst; lia.
        -- eapply short_le; [|by eapply taken_short]. Zconst. lia.
      * intros s' Hc' Htk'. wp_pure. rewrite u64_small by (Zconst; lia). split; [|Zconst; lia].
        exists (i + 1). split_and!; [lia|lia|Zconst; lia|done|].
        eapply taken_le; [|by eapply taken_trans]. lia.
    + wp_pure. left. split; [done|]. unfold fork_ok. replace n with i by (Zconst; lia). done.
  - exists 0. split_and!; [done|lia|lia| |by apply taken_refs]. exists tc.
    pose proof (mi_wf _ _ _ Hi _ _ Hold) as Hwf. unfold forked.
    rewrite (cow_upto_0 old tp Hwf), (insert_id T old), insert_id by done.
    split_and!; [done|reflexivity|apply shared_0|apply only_pages_refl].
  - Zconst. lia.
Qed.
End uvmcopy.

(** * Resolving copy-on-write faults

    cowalloc(), which usertrap() and copyout() call before a copy-on-write page
    is written: afterwards the process owns a writable page with the same
    contents, and nobody else notices. *)

Section cowalloc.
Context `{LNK : !Linker, LOK : !LinkerOk}.
Implicit Types (k : kernel) (T : tables) (E : Z → Z).

(** cowalloc()'s test of the entry. *)
Definition is_cow (e : Z) : bool := has e PTE_V && has e PTE_U && has e PTE_COW.

Lemma is_cow_test e : (Z.land e PTE_VUCOW =? PTE_VUCOW) = is_cow e.
Proof.
  unfold is_cow. rewrite land_flags, !(has_flags e) by done.
  apply Bool.eqb_prop. pose proof (PTE_FLAGS_range e) as Hr. revert Hr.
  generalize (PTE_FLAGS e) as fl.
  refine (all_flags_spec (λ fl, Bool.eqb (Z.land fl PTE_VUCOW =? PTE_VUCOW)
                                  (has fl PTE_V && has fl PTE_U && has fl PTE_COW)) _).
  by vm_compute.
Qed.

(** The entry of the page of its own. *)
Lemma own_pte_ok lm v e p :
  leaf_ok lm v e → v < lm → valid_page p → leaf_ok lm v (mkpte p (own_flags (PTE_FLAGS e))).
Proof.
  intros Hok Hl Hv. destruct (own_flags_spec _ (PTE_FLAGS_range e)) as (H1 & H2 & H3 & H4 & H5 & H6).
  rewrite <-!has_flags in H2, H3, H4 by done. apply leaf_ok_mkpte; try done.
  - rewrite H2. apply Hok.
  - rewrite H3. apply Hok.
  - intros _. by rewrite H5, H6.
Qed.

Definition cow_resolved k T E r t v e k' : Prop :=
  ∃ p, let e' := mkpte p (own_flags (PTE_FLAGS e)) in
    valid_page p ∧ minv k' (<[r := put_leaf v (Some e') t]> T) E ∧ kframe k k' ∧
    only_pages (touch T E) (ram k) (ram k') ∧
    (∀ o, 0 ≤ o < PGSIZE → ldb (ram k') (p + o) = ldb (ram k) (PTE2PA e + o)).

(** The sole owner: only the flags change. *)
Lemma cow_sole k T E r t v e q :
  minv k T E → Eok E → T !! r = Some t → tabs t !! (O, v / 512) = Some q → 0 ≤ v →
  leaves t !! v = Some e → v < lim t → cnt k (PTE2PA e) = 1 →
  cow_resolved k T E r t v e
    (upd_ram (λ m, st64 m (entry q (v mod 512)) (mkpte (PTE2PA e) (own_flags (PTE_FLAGS e)))) k).
Proof.
  intros Hi HE Hr Hq Hv0 He Hl Hc.
  destruct (mapped_page _ _ _ _ _ _ _ Hi HE Hr He Hl) as (Hv & Hr1 & Hn0 & Hcn).
  pose proof (mi_leaf _ _ _ Hi _ _ _ _ Hr He) as Hok. pose proof (HE (PTE2PA e)) as HEp.
  destruct (own_flags_spec _ (PTE_FLAGS_range e)) as (H1 & _).
  pose proof (mi_tabs _ _ _ Hi _ _ _ _ Hr Hq) as Hvq.
  pose proof (touch_tab _ _ _ _ _ _ _ Hi Hr Hq) as (_ & Hrq & _).
  assert (only_pages (λ p, p = q) (ram k) (st64 (ram k) (entry q (v mod 512))
            (mkpte (PTE2PA e) (own_flags (PTE_FLAGS e))))) as Hop.
  { apply only_pages_entry; [apply Hvq|]. apply Z.mod_pos_bound. lia. }
  exists (PTE2PA e). split_and!; [done| | | |].
  - apply (minv_reflag k T E r t v e); try done.
    + by apply valid_mkpte_pa.
    + by apply own_pte_ok.
    + intros _ _ _. lia.
  - by split.
  - eapply only_pages_weaken; [|exact Hop]. intros ? ->. by eapply touch_tab.
  - intros o Ho. apply Hop. rewrite page_offset; [|apply Hv|done]. intros <-. lia.
Qed.

(** Replacing the page of a mapping by a page of one's own. *)
Lemma minv_replace k T E r t v e p fl q :
  minv k T (eadd E p 1) → Eok E → T !! r = Some t → tabs t !! (O, v / 512) = Some q → 0 ≤ v →
  leaves t !! v = Some e → v < lim t → leaf_ok (lim t) v (mkpte p fl) → 0 ≤ fl < 1024 →
  valid_page p → refs T p = 0 → E p = 0 → no_writer T (PTE2PA e) →
  minv (upd_ram (λ m, st64 m (entry q (v mod 512)) (mkpte p fl)) k)
       (<[r := put_leaf v (Some (mkpte p fl)) t]> T) (eadd E (PTE2PA e) 1).
Proof.
  intros Hi HE Hr Hq Hv0 He Hl Hok Hfl Hv Hrp HEp Hnw.
  pose proof (valid_mkpte_pa p fl Hv Hfl) as Hpa.
  pose proof (leaf_refs _ _ _ _ _ Hr He Hl) as Hre.
  assert (∀ pa, refs (<[r := put_leaf v (Some (mkpte p fl)) t]> T) pa =
                refs T pa - ind (PTE2PA e = pa) + ind (p = pa)) as Hrefs.
  { intros pa. rewrite refs_put_leaf by done. unfold leaf_ref. rewrite He. simpl. rewrite Hpa.
    rewrite (ind_ext _ (PTE2PA e = pa)), (ind_ext (_ ∧ p = pa) (p = pa)) by naive_solver. lia. }
  apply (minv_set_leaf k T (eadd E p 1) _ r t v (Some (mkpte p fl)) q); try done.
  - by intros ? [= <-].
  - intros pa. rewrite Hrefs. unfold eadd, ind. repeat case_decide; lia.
  - intros pa Hn1. rewrite Hrefs. destruct (mi_pt _ _ _ Hi pa) as [?|(_ & H2 & H3)]; [lia|].
    unfold eadd in *. specialize (HE pa). unfold ind.
    repeat case_decide; subst; try lia.
  - intros ? [= <-] _ _ _. rewrite Hpa, Hrefs. unfold eadd, ind.
    rewrite (decide_True (P := p = p)) by done. repeat case_decide; subst; lia.
  - intros r' t' v' e' Hr' He' Hl' _ Hu Hw. destruct (mi_w _ _ _ Hi r' t' v' e') as [H1 H2]; try done.
    assert (PTE2PA e' ≠ PTE2PA e) by (by apply (Hnw r' t' v')).
    rewrite Hrefs. unfold eadd, ind in *. repeat case_decide; subst; lia.
Qed.

Lemma only_pages_memmove r p src n :
  aligned p → 0 ≤ n ≤ PGSIZE → only_pages (λ q, q = p) r (memmove r p src n).
Proof.
  intros Hp Hn a Ha. rewrite memmove_spec by lia. case_decide; [|done].
  destruct Ha. replace a with (p + (a - p)) by lia. apply page_offset; [done|lia].
Qed.

Definition ram_eq (r r' : mem) : Prop := ∀ a, ldb r' a = ldb r a.

(** A copy-on-write page that has several owners has no writer. *)
Lemma shared_no_writer k T E r t v e :
  minv k T E → Eok E → T !! r = Some t → leaves t !! v = Some e → v < lim t →
  cnt k (PTE2PA e) ≠ 1 → no_writer T (PTE2PA e).
Proof.
  intros Hi HE Hr He Hl Hc r' t' v' e' Hr' He' Hl' Hu Hw Hpa.
  destruct (mapped_page _ _ _ _ _ _ _ Hi HE Hr He Hl) as (_ & Hr1 & _ & Hcn).
  destruct (mi_w _ _ _ Hi r' t' v' e') as [H1 H2]; try done. rewrite Hpa in *.
  specialize (HE (PTE2PA e)). lia.
Qed.

(** Several owners: the page is copied and the old one loses a reference. *)
Lemma cow_copy k k1 T E r t v e p q :
  minv k T E → Eok E → T !! r = Some t → tabs t !! (O, v / 512) = Some q → 0 ≤ v →
  leaves t !! v = Some e → v < lim t → cnt k (PTE2PA e) ≠ 1 →
  minv k1 T (eadd E p 1) → kframe k k1 → valid_page p → cnt k p = 0 →
  only_pages (λ z, z = p) (ram k) (ram k1) → 0 < cnt k1 p →
  wp (do_memmove p (PTE2PA e) PGSIZE;;
      store64 (entry q (v mod 512)) (mkpte p (own_flags (PTE_FLAGS e)));;
      kfree (PTE2PA e);; mret 0) k1 (λ c k', c = 0 ∧ cow_resolved k T E r t v e k').
Proof.
  intros Hi HE Hr Hq Hv0 He Hl Hc Hi1 Hkf Hvp Hp0 Hop Hc1.
  destruct (mapped_page _ _ _ _ _ _ _ Hi HE Hr He Hl) as (Hv & Hr1 & Hn0 & Hcn).
  destruct (fresh_facts _ _ _ _ Hi HE Hvp Hp0) as (Hnp & Hrp & HEp).
  pose proof (mi_leaf _ _ _ Hi _ _ _ _ Hr He) as Hok. pose proof (HE (PTE2PA e)) as HEe.
  destruct (own_flags_spec _ (PTE_FLAGS_range e)) as (Hfl & _).
  pose proof (mi_tabs _ _ _ Hi _ _ _ _ Hr Hq) as Hvq.
  pose proof (touch_tab _ _ _ _ _ _ _ Hi Hr Hq) as Htq.
  assert (PTE2PA e ≠ p) as Hne by (intros <-; lia).
  assert (q ≠ p) as Hnq.
  { intros ->. pose proof (tab_npt _ _ _ _ _ Hr Hq). lia. }
  unfold do_memmove. wp_pure.
  assert (only_pages (λ z, z = p) (ram k1) (memmove (ram k1) p (PTE2PA e) PGSIZE)) as Hop2.
  { apply only_pages_memmove; [apply Hvp|Zconst; lia]. }
  pose proof (minv_ram (λ z, z = p) k1 (λ r, memmove r p (PTE2PA e) PGSIZE) T _ Hi1 Hop2
    ltac:(by intros ? ->)) as Hi2.
  pose proof (minv_replace _ T E r t v e p _ q Hi2 HE Hr Hq Hv0 He Hl
    (own_pte_ok _ _ _ _ Hok Hl Hvp) Hfl Hvp Hrp HEp
    (shared_no_writer _ _ _ _ _ _ _ Hi HE Hr He Hl Hc)) as Hi3.
  set (e' := mkpte p (own_flags (PTE_FLAGS e))) in *.
  set (k3 := upd_ram (λ m, st64 m _ _) _) in *.
  assert (cnt k3 (PTE2PA e) = cnt k (PTE2PA e)) as Hc3.
  { change (cnt k3 (PTE2PA e)) with (cnt k1 (PTE2PA e)).
    rewrite (mi_cnt _ _ _ Hi1), Hn0, Hcn by done. unfold eadd. rewrite decide_False by done. lia. }
  assert (only_pages (λ z, z = p ∨ z = q) (ram k) (ram k3)) as Hop3.
  { eapply only_pages_trans; [eapply only_pages_weaken; [|exact Hop]; by left|].
    eapply only_pages_trans; [eapply only_pages_weaken; [|exact Hop2]; by left|].
    eapply only_pages_weaken; [|apply only_pages_entry; [apply Hvq|apply Z.mod_pos_bound; lia]]. by right. }
  assert (∀ o, 0 ≤ o < PGSIZE → ldb (ram k3) (p + o) = ldb (ram k) (PTE2PA e + o)) as Hcopy.
  { intros o Ho. unfold k3. cbn [ram upd_ram].
    rewrite (only_pages_entry _ q (v mod 512) e'), memmove_spec, decide_True;
      [|lia|Zconst; lia|apply Hvq|apply Z.mod_pos_bound; lia|].
    - replace (PTE2PA e + (p + o - p)) with (PTE2PA e + o) by lia. apply Hop.
      by rewrite page_offset by (apply Hv || done).
    - rewrite page_offset by (apply Hvp || done). congruence. }
  assert (npt (<[r := put_leaf v (Some e') t]> T) (PTE2PA e) = 0) as Hn3.
  { by rewrite npt_put_leaf. }
  eapply wp_mono; [apply (kfree_minv k3); [exact Hi3|done|lia|done]|].
  intros _ k' [[Hkf' _ _ Hop'] Hi4]. apply wp_ret. split; [done|]. exists p.
  assert (ram_eq (ram k3) (ram k')) as Hsame.
  { intros a. apply Hop'. rewrite Hc3. intros [_ ?]. lia. }
  split_and!; [done| | | |].
  - eapply minv_ext; [|exact Hi4]. apply (eadd_back E (PTE2PA e) 1).
  - etrans; [exact Hkf|]. etrans; [|exact Hkf']. by split.
  - intros a Ha. rewrite Hsame. apply Hop3.
    intros [Hz|Hz]; apply Ha; rewrite Hz; [by split|done].
  - intros o Ho. rewrite Hsame. by apply Hcopy.
Qed.

Lemma krefcount_minv k T E pa :
  minv k T E → valid_page pa →
  wp (krefcount pa) k (λ c k', c = cnt k pa ∧ minv k' T E ∧ kframe k k' ∧ ram k' = ram k ∧
    krefs k' = krefs k).
Proof.
  intros Hi Hv. destruct (mi_alloc _ _ _ Hi) as [F Ha].
  eapply wp_mono; [eapply krefcount_spec; [exact Ha|by apply valid_ram]|].
  intros c k' (-> & Ha' & Hkf & Er & _ & Ek). split_and!; try done.
  destruct Hi as [_ Hwf Hm Htb Hlf Hcn Hpt Hw]. split; try done.
  - by exists F.
  - by rewrite Er.
  - unfold cnt in *. by rewrite Ek.
Qed.

Lemma cow_resolved_start k k1 T E r t v e k' :
  kframe k k1 → ram k1 = ram k → cow_resolved k1 T E r t v e k' → cow_resolved k T E r t v e k'.
Proof.
  intros Hkf Er (p & H1 & H2 & H3 & H4 & H5). rewrite Er in H4, H5.
  exists p. split_and!; try done. by etrans.
Qed.

(** The part of cowalloc() after its tests. *)
Lemma cow_resolve k T E r t v e q :
  minv k T E → Eok E → T !! r = Some t → tabs t !! (O, v / 512) = Some q → 0 ≤ v →
  leaves t !! v = Some e → v < lim t →
  wp (c ← krefcount (PTE2PA e);
      if c =? 1 then
        store64 (entry q (v mod 512)) (mkpte (PTE2PA e) (own_flags (PTE_FLAGS e)));; mret 0
      else
      p ← kalloc;
      if p =? 0 then mret (-1) else
      do_memmove p (PTE2PA e) PGSIZE;;
      store64 (entry q (v mod 512)) (mkpte p (own_flags (PTE_FLAGS e)));;
      kfree (PTE2PA e);; mret 0) k
    (λ c k', c = 0 ∧ cow_resolved k T E r t v e k' ∨
             c = -1 ∧ kframe k k' ∧ minv k' T E ∧ ram k' = ram k ∧ oom k').
Proof.
  intros Hi HE Hr Hq Hv0 He Hl.
  destruct (mapped_page _ _ _ _ _ _ _ Hi HE Hr He Hl) as (Hv & _).
  wp_pure. eapply wp_mono; [by apply krefcount_minv|].
  intros c k1 (-> & Hi1 & Hkf & Er & Ek).
  assert (∀ pa, cnt k1 pa = cnt k pa) as Hcnt by (intros; unfold cnt; by rewrite Ek).
  destruct (Z.eqb_spec (cnt k (PTE2PA e)) 1) as [H1|H1].
  - wp_pure. left. split; [done|]. eapply cow_resolved_start; [done|done|].
    apply cow_sole; try done. by rewrite Hcnt.
  - wp_pure. eapply wp_mono; [by apply kalloc_minv|]. intros p k2 [Hkf2 [Hz|Hz]].
    + destruct Hz as (-> & Hi2 & Er2 & Ek2 & Ho). simpl. apply wp_ret. right.
      split_and!; [done|by etrans|done|by rewrite Er2|].
      intros pa Hpa. unfold cnt. rewrite Ek2. by apply Ho.
    + destruct Hz as (Hvp & H0 & Hi2 & Hc2 & Hop2 & _).
      pose proof (valid_nonzero _ Hvp). destruct (Z.eqb_spec p 0); [done|].
      eapply wp_mono; [apply (cow_copy k1 k2 T E r t v e p q); try done|].
      * by rewrite Hcnt.
      * rewrite Hc2 by (by apply valid_ram). by rewrite decide_True.
      * intros c k' [-> Hres]. left. split; [done|]. by eapply cow_resolved_start.
Qed.

(** cowalloc(): a copy-on-write page of the process becomes its own, or memory
    has run out; anything else is refused. *)
Lemma cowalloc_spec k T E r t va :
  minv k T E → Eok E → T !! r = Some t → 0 ≤ va →
  wp (cowalloc r va) k (λ c k',
    (c = -1 ∧ k' = k ∧ (va < MAXVA → ∀ e, leaves t !! vpn va = Some e → is_cow e = false)) ∨
    (∃ e, va < MAXVA ∧ leaves t !! vpn va = Some e ∧ is_cow e = true ∧ vpn va < lim t ∧
      (c = 0 ∧ cow_resolved k T E r t (vpn va) e k' ∨
       c = -1 ∧ kframe k k' ∧ minv k' T E ∧ ram k' = ram k ∧ oom k'))).
Proof.
  intros Hi HE Hr Hva. unfold cowalloc. destruct (Z.leb_spec MAXVA va) as [Hge|Hlt].
  { apply wp_ret. left. split_and!; [done|done|lia]. }
  wp_pure. rewrite PGROUNDDOWN_page. pose proof (page_range va) as Hpg.
  assert (0 ≤ page va) as Hp0.
  { unfold page. pose proof (Z.mod_le va PGSIZE). Zconst. lia. }
  assert (vpn (page va) = vpn va) as Hvp.
  { unfold vpn, page. pose proof (Z.div_mod va PGSIZE).
    replace (va - va mod PGSIZE) with (va / PGSIZE * PGSIZE) by (Zconst; lia). by apply Z.div_mul. }
  eapply wp_mono; [by eapply walk_find; [..|lia]|]. intros ? ? [-> ->].
  destruct (leaves t !! vpn va) as [e|] eqn:He.
  2:{ destruct (Z.eqb_spec (slot t (page va)) 0) as [|Hnz].
      - apply wp_ret. by left.
      - wp_pure. rewrite (slot_load _ _ _ _ _ _ Hi Hr Hnz), Hvp, He. simpl. apply wp_ret. by left. }
  rewrite <-Hvp in He. pose proof (slot_nonzero _ _ _ _ _ _ _ Hi Hr He) as Hnz.
  destruct (Z.eqb_spec (slot t (page va)) 0); [done|]. wp_pure.
  pose proof (slot_load _ _ _ _ _ _ Hi Hr Hnz) as Hld. rewrite He in Hld. rewrite !Hld. simpl default.
  rewrite is_cow_test. destruct (is_cow e) eqn:Hcow; cbn [negb].
  2:{ apply wp_ret. left. split_and!; [done|done|]. by intros _ ? [= <-]. }
  apply wp_bind, wp_load64. rewrite Hld. simpl default. cbv beta zeta.
  pose proof (mi_leaf _ _ _ Hi _ _ _ _ Hr He) as Hok.
  assert (vpn va < lim t) as Hl.
  { destruct (Z.lt_ge_cases (vpn va) (lim t)) as [|Hge]; [done|].
    pose proof (lo_kern _ _ _ Hok ltac:(lia)) as Hu. unfold is_cow in Hcow. by rewrite Hu, andb_false_r in Hcow. }
  destruct (slot_tab _ _ Hnz) as (q & Hq & Hs). destruct (slot_key (page va)) as [E1 E2].
  rewrite E1 in Hq. rewrite Hs, E2 in *. rewrite Hvp in *.
  eapply wp_mono; [apply (cow_resolve k T E r t (vpn va) e q); try done; apply vpn_nonneg; lia|].
  intros c k' Hc. right. by exists e.
Qed.
End cowalloc.
