(* ===== verification/UserView.v ===== *)
(** * What processes see of memory

    [views T m r va] is the byte that user code running on page table [r] reads
    at [va], if the page is mapped for it.  The operations of vm.c are described
    by what they do to the views of all page tables. *)

From stdpp Require Import gmap list strings.
From Stdlib Require Import ZArith Lia.
From S2P Require Import Prelude Mem Str Params Machine Spinlock Kalloc Vm.
From S2P Require Import PageTable VmWalk VmMap VmSpace VmFree Cow.
#[local] Open Scope Z_scope.

(** The page that [va] is mapped to for user mode. *)
Definition uaddr (t : pgtab) (va : Z) : option Z :=
  match leaves t !! vpn va with
  | Some e => if has e PTE_U && (vpn va <? lim t) then Some (PTE2PA e) else None
  | None => None
  end.

Definition uview (m : mem) (t : pgtab) (va : Z) : option Z :=
  p ← uaddr t va; Some (ldb m (p + va mod PGSIZE)).

Definition views (T : tables) (m : mem) (r va : Z) : option Z :=
  t ← T !! r; uview m t va.

Section views.
Context `{LNK : !Linker, LOK : !LinkerOk}.
Implicit Types (k : kernel) (T : tables) (E : Z → Z).

Lemma uaddr_Some t va p :
  uaddr t va = Some p ↔
  ∃ e, leaves t !! vpn va = Some e ∧ has e PTE_U = true ∧ vpn va < lim t ∧ p = PTE2PA e.
Proof.
  unfold uaddr. split.
  - destruct (leaves t !! vpn va) as [e|]; [|done]. destruct (has e PTE_U) eqn:Hu; [|done].
    destruct (Z.ltb_spec (vpn va) (lim t)); [|done]. intros [= <-]. by exists e.
  - intros (e & -> & -> & Hl & ->). destruct (Z.ltb_spec (vpn va) (lim t)); [done|lia].
Qed.

Lemma mod_page_range va : 0 ≤ va mod PGSIZE < PGSIZE.
Proof. apply Z.mod_pos_bound. Zconst. lia. Qed.

(** Views depend on memory only through mapped pages. *)
Lemma views_mem P T m m' :
  only_pages P m m' → (∀ q, P q → refs T q = 0) →
  (∀ r t v e, T !! r = Some t → leaves t !! v = Some e → v < lim t → aligned (PTE2PA e)) →
  ∀ r va, views T m' r va = views T m r va.
Proof.
  intros Hop HP Hal r va. unfold views. destruct (T !! r) as [t|] eqn:Hr; [|done]. simpl.
  unfold uview. destruct (uaddr t va) as [p|] eqn:Hp; [|done]. simpl.
  apply uaddr_Some in Hp as (e & He & _ & Hl & ->). f_equal. apply Hop. intros H0.
  rewrite page_offset in H0; [|by eapply Hal|apply mod_page_range].
  apply HP in H0. pose proof (leaf_refs _ _ _ _ _ Hr He Hl). lia.
Qed.

Lemma minv_leaf_aligned k T E r t v e :
  minv k T E → T !! r = Some t → leaves t !! v = Some e → v < lim t → aligned (PTE2PA e).
Proof. intros Hi Hr He Hl. eapply lo_page; [by eapply mi_leaf|done]. Qed.

Lemma views_touch k T E m' r va :
  minv k T E → only_pages (touch T E) (ram k) m' → views T m' r va = views T (ram k) r va.
Proof.
  intros Hi Hop. eapply views_mem; [exact Hop|by intros q (_ & ? & _)|].
  intros. by eapply minv_leaf_aligned.
Qed.

(** Adding table pages changes nothing for users. *)
Lemma uaddr_same t t' va : leaves t' = leaves t → lim t' = lim t → uaddr t' va = uaddr t va.
Proof. intros H1 H2. unfold uaddr. by rewrite H1, H2. Qed.

Lemma views_grown T m r t t' r' va :
  T !! r = Some t → grown t t' → views (<[r := t']> T) m r' va = views T m r' va.
Proof.
  intros Hr Hg. unfold views. destruct (decide (r = r')) as [<-|Hne].
  - rewrite lookup_insert_eq, Hr. simpl. unfold uview. by rewrite (uaddr_same t t' va) by apply Hg.
  - by rewrite lookup_insert_ne.
Qed.

Lemma views_insert T m r t r' va :
  views (<[r := t]> T) m r' va = if decide (r = r') then uview m t va else views T m r' va.
Proof.
  unfold views. case_decide; [subst; by rewrite lookup_insert_eq|by rewrite lookup_insert_ne].
Qed.

(** ** walkaddr() *)

Lemma walkaddr_spec k T E r t va :
  minv k T E → T !! r = Some t → 0 ≤ va →
  wp (walkaddr r va) k (λ a k', k' = k ∧ a = default 0 (uaddr t va)).
Proof.
  intros Hi Hr Hva. unfold walkaddr. pose proof (mi_wf _ _ _ Hi _ _ Hr) as Hwf.
  destruct (Z.leb_spec MAXVA va) as [Hge|Hlt].
  - apply wp_ret. split; [done|]. destruct (uaddr t va) as [p|] eqn:Hp; [exfalso|done].
    apply uaddr_Some in Hp as (e & _ & _ & Hl & _). pose proof (wf_lim _ _ Hwf).
    unfold vpn in Hl. pose proof (Z.div_mod va PGSIZE). pose proof (mod_page_range va). Zconst. lia.
  - wp_pure. eapply wp_mono; [by eapply walk_find|]. intros ? ? [-> ->].
    destruct (leaves t !! vpn va) as [e|] eqn:He.
    + pose proof (slot_nonzero _ _ _ _ _ _ _ Hi Hr He) as Hnz.
      destruct (Z.eqb_spec (slot t va) 0); [done|]. wp_pure.
      rewrite (slot_load _ _ _ _ _ _ Hi Hr Hnz), He. simpl default.
      pose proof (mi_leaf _ _ _ Hi _ _ _ _ Hr He) as Hok. rewrite (leaf_present _ _ _ Hok).
      destruct (has e PTE_U) eqn:Hu.
      * assert ((Z.land e PTE_U =? 0) = false) as ->.
        { unfold has, nz in Hu. by destruct (_ =? 0). }
        apply wp_ret. split; [done|]. unfold uaddr. rewrite He, Hu. simpl.
        destruct (Z.ltb_spec (vpn va) (lim t)); [done|].
        by rewrite (lo_kern _ _ _ Hok) in Hu by lia.
      * assert ((Z.land e PTE_U =? 0) = true) as ->.
        { unfold has, nz in Hu. by destruct (_ =? 0). }
        apply wp_ret. split; [done|]. unfold uaddr. by rewrite He, Hu.
    + assert (uaddr t va = None) as -> by (unfold uaddr; by rewrite He).
      destruct (Z.eqb_spec (slot t va) 0) as [|Hnz]; [by apply wp_ret|]. wp_pure.
      rewrite (slot_load _ _ _ _ _ _ Hi Hr Hnz), He. simpl. by apply wp_ret.
Qed.

Lemma uaddr_page k T E r t va p :
  minv k T E → T !! r = Some t → uaddr t va = Some p → valid_page p ∧ p ≠ 0 ∧ 1 ≤ refs T p.
Proof.
  intros Hi Hr (e & He & _ & Hl & ->)%uaddr_Some.
  assert (valid_page (PTE2PA e)) as Hv by (eapply lo_page; [by eapply mi_leaf|done]).
  split_and!; [done|by apply valid_nonzero|by eapply leaf_refs].
Qed.

(** ** Resolving a copy-on-write fault changes no view *)

Lemma vpn_page va : vpn (page va) = vpn va.
Proof.
  unfold vpn, page. pose proof (Z.div_mod va PGSIZE).
  replace (va - va mod PGSIZE) with (va / PGSIZE * PGSIZE) by (Zconst; lia). by apply Z.div_mul.
Qed.

Lemma page_split va : va = page va + va mod PGSIZE.
Proof. unfold page. lia. Qed.

(** Copy-on-write faults replace mappings of a table by writable ones. *)
Record resolved (t t' : pgtab) : Prop := {
  rs_lim : lim t' = lim t;
  rs_dom : ∀ v, is_Some (leaves t' !! v) ↔ is_Some (leaves t !! v);
  rs_leaf : ∀ v e, leaves t' !! v = Some e →
    leaves t !! v = Some e ∨ v < lim t ∧ has e PTE_U = true ∧ has e PTE_W = true;
}.

#[export] Instance resolved_preorder : PreOrder resolved.
Proof.
  split; [split; auto; done|]. intros t1 t2 t3 [A1 A2 A3] [B1 B2 B3]. split; [congruence| |].
  - intros v. by rewrite B2, A2.
  - intros v e He. destruct (B3 v e He) as [H|H]; [by apply A3|]. right. by rewrite <-A1.
Qed.

Lemma cow_views k T E r t v e k' :
  minv k T E → T !! r = Some t → leaves t !! v = Some e → v < lim t → is_cow e = true →
  cow_resolved k T E r t v e k' →
  ∃ t' e', minv k' (<[r := t']> T) E ∧ resolved t t' ∧ kframe k k' ∧ only_pages (touch T E) (ram k) (ram k') ∧
    lim t' = lim t ∧ leaves t' !! v = Some e' ∧ has e' PTE_U = true ∧ has e' PTE_W = true ∧
    has e' PTE_COW = false ∧
    ∀ r' va, views (<[r := t']> T) (ram k') r' va = views T (ram k) r' va.
Proof.
  intros Hi Hr He Hl Hcow (p & Hv & Hi' & Hkf & Hop & Hcopy).
  destruct (own_flags_spec _ (PTE_FLAGS_range e)) as (Hf & _ & _ & Hu & Hw & Hc).
  unfold is_cow in Hcow. rewrite !andb_true_iff in Hcow. destruct Hcow as [[_ Hue] _].
  rewrite <-has_flags, Hue in Hu by done. set (e' := mkpte p _) in *.
  assert (∀ m, 0 ≤ m < 1024 → has e' m = has (own_flags (PTE_FLAGS e)) m) as Hhas.
  { intros m Hm. by apply has_mkpte. }
  exists (put_leaf v (Some e') t), e'. rewrite !Hhas, put_leaf_lookup, decide_True by done.
  split_and!; try done.
  { split; [done| |]; intros v'; rewrite put_leaf_lookup; (case_decide; [subst v'|by auto]); [by rewrite He|].
    intros x [= <-]. right. by rewrite !Hhas. }
  intros r' va. rewrite <-(views_touch k T E (ram k')) by done.
  rewrite views_insert. case_decide; [subst r'|done]. unfold views. rewrite Hr. simpl.
  unfold uview, uaddr. rewrite put_leaf_lookup. simpl lim. case_decide as Hva; [|done].
  subst v. rewrite He, Hue, Hhas, Hu by done. destruct (Z.ltb_spec (vpn va) (lim t)); [|lia]. simpl.
  unfold e'. rewrite valid_mkpte_pa, Hcopy by (done || apply mod_page_range).
  symmetry. f_equal. apply Hop. intros (_ & H0 & _).
  rewrite page_offset in H0; [|by apply (minv_leaf_aligned _ _ _ _ _ _ _ Hi Hr He)|apply mod_page_range].
  pose proof (leaf_refs _ _ _ _ _ Hr He Hl). lia.
Qed.

(** A range that stays in a page. *)
Lemma same_page va va' n :
  va mod PGSIZE + n ≤ PGSIZE → va ≤ va' < va + n →
  vpn va' = vpn va ∧ va' mod PGSIZE = va mod PGSIZE + (va' - va).
Proof.
  intros Hn Hva. pose proof (Z.div_mod va PGSIZE) as D. pose proof (mod_page_range va) as Hm.
  assert (vpn va' = vpn va) as E1.
  { unfold vpn. symmetry.
    apply (Z.div_unique _ _ _ (va mod PGSIZE + (va' - va))); Zconst; lia. }
  split; [done|]. pose proof (Z.div_mod va' PGSIZE). unfold vpn in E1. Zconst. lia.
Qed.

(** ** Writing a page of one's own *)

Lemma write_views k T E r t va e src n :
  minv k T E → Eok E → T !! r = Some t → leaves t !! vpn va = Some e → vpn va < lim t →
  has e PTE_U = true → has e PTE_W = true → 0 ≤ n → va mod PGSIZE + n ≤ PGSIZE →
  let f := λ m, memmove m (PTE2PA e + va mod PGSIZE) src n in
  minv (upd_ram f k) T E ∧ valid_page (PTE2PA e) ∧ E (PTE2PA e) = 0 ∧
  only_pages (λ q, q = PTE2PA e) (ram k) (f (ram k)) ∧
  ∀ r' va', views T (f (ram k)) r' va' =
    if decide (r' = r ∧ va ≤ va' < va + n) then Some (ldb (ram k) (src + (va' - va)))
    else views T (ram k) r' va'.
Proof.
  intros Hi HE Hr He Hl Hu Hw Hn Hoff f. pose proof (mod_page_range va) as Hm.
  destruct (mapped_page _ _ _ _ _ _ _ Hi HE Hr He Hl) as (Hv & Hr1 & Hn0 & Hc).
  destruct (mi_w _ _ _ Hi r t (vpn va) e) as [H1 H2]; try done. pose proof (HE (PTE2PA e)) as HEp.
  assert (only_pages (λ q, q = PTE2PA e) (ram k) (f (ram k))) as Hop.
  { intros a Ha. unfold f. rewrite memmove_spec by lia. case_decide; [|done].
    destruct Ha. replace a with (PTE2PA e + (a - PTE2PA e)) by lia.
    apply page_offset; [apply Hv|lia]. }
  split_and!; [|done|lia|done|].
  { apply (minv_ram (λ q, q = PTE2PA e)); [done|done|]. intros q -> _. lia. }
  intros r' va'. unfold views. destruct (T !! r') as [t'|] eqn:Hr'; simpl.
  2:{ rewrite decide_False; [done|]. intros [-> _]. congruence. }
  unfold uview. destruct (uaddr t' va') as [p|] eqn:Hp; simpl.
  2:{ rewrite decide_False; [done|]. intros [-> Hva]. simplify_eq.
      destruct (same_page va va' n) as [E1 _]; [done..|].
      unfold uaddr in Hp. rewrite E1, He, Hu in Hp.
      destruct (Z.ltb_spec (vpn va) (lim t)); [done|lia]. }
  pose proof (mod_page_range va') as Hm'.
  destruct (uaddr_page _ _ _ _ _ _ _ Hi Hr' Hp) as ([Hal _] & _ & _).
  apply uaddr_Some in Hp as (e1 & He1 & Hu1 & Hl1 & ->).
  destruct (decide (PTE2PA e1 = PTE2PA e)) as [Heq|Hne].
  - destruct (leaf_unique T r t (vpn va) e r' t' (vpn va') e1) as [<- Hvv]; try done; [lia|].
    simplify_eq. assert (e1 = e) as -> by congruence. unfold f. rewrite memmove_spec by lia.
    pose proof (Z.div_mod va PGSIZE) as D1. pose proof (Z.div_mod va' PGSIZE) as D2.
    unfold vpn in Hvv. rewrite Hvv in D1.
    destruct (decide (va ≤ va' < va + n)) as [Hin|Hout].
    + rewrite !decide_True by (Zconst; lia). f_equal. f_equal. Zconst. lia.
    + rewrite !decide_False by (Zconst; lia). done.
  - rewrite (decide_False (P := r' = r ∧ _)).
    + f_equal. apply Hop. by rewrite page_offset.
    + intros [-> Hva]. simplify_eq. destruct (same_page va va' n) as [E1 _]; [done..|]. congruence.
Qed.
End views.
