(* ===== verification/UserCopy.v ===== *)
(** * Copying between kernel and user memory

    copyout(), copyin() and copyinstr(): they move exactly the bytes that the
    user sees at the given addresses, resolve copy-on-write pages before they
    write them, and leave every other process alone. *)

From stdpp Require Import gmap list strings.
From Stdlib Require Import ZArith Lia.
From S2P Require Import Prelude Mem Str Params FsData Machine Spinlock Sched FsTxn Kalloc Vm FsBmap FsWrite PageTable VmWalk VmMap VmSpace VmFree Cow UserView.
#[local] Open Scope Z_scope.

Section copy.
Context `{LNK : !Linker, LOK : !LinkerOk}.
Implicit Types (k : kernel) (T : tables) (E : Z → Z).

(** Pages that belong to user processes or page tables, or are free. *)
Definition upage E (q : Z) : Prop := valid_page q ∧ E q = 0.

(** The state changed only what user processes own, and no view. *)
Definition quiet k T E r k' t' : Prop :=
  minv k' (<[r := t']> T) E ∧ (∀ t, T !! r = Some t → resolved t t') ∧ kframe k k' ∧ only_pages (upage E) (ram k) (ram k') ∧
  ∀ r' va, views (<[r := t']> T) (ram k') r' va = views T (ram k) r' va.

(** The page of [va] is copy-on-write. *)
Definition cow_at T (r va : Z) : Prop :=
  ∃ t e, T !! r = Some t ∧ leaves t !! vpn va = Some e ∧ is_cow e = true.

(** copyout() cannot store a byte at [va]: the user has no page there, or it is
    a copy-on-write page and no page is free. *)
Definition stuck T (m : mem) (r va : Z) (k' : kernel) : Prop :=
  views T m r va = None ∨ cow_at T r va ∧ oom k'.

(** Resolving copy-on-write pages makes no new ones. *)
Lemma resolved_cow k T E r t t' va :
  minv k (<[r := t']> T) E → T !! r = Some t → resolved t t' → cow_at (<[r := t']> T) r va → cow_at T r va.
Proof.
  intros Hi Hr Hrs (t1 & e & Ht1 & He & Hc). rewrite lookup_insert_eq in Ht1. injection Ht1 as <-.
  destruct (rs_leaf _ _ Hrs _ _ He) as [He'|(Hl & Hu & Hw)]; [by exists t, e|exfalso].
  assert (<[r := t']> T !! r = Some t') as Hr' by apply lookup_insert_eq.
  pose proof (mi_leaf _ _ _ Hi _ _ _ _ Hr' He) as Hok. rewrite <-(rs_lim _ _ Hrs) in Hl.
  rewrite (lo_cow _ _ _ Hok Hl Hu) in Hw. unfold is_cow in Hc. rewrite !andb_true_iff in Hc.
  destruct Hc as [_ Hc]. by rewrite Hc in Hw.
Qed.

Lemma quiet_refl k T E r t : minv k T E → T !! r = Some t → quiet k T E r k t.
Proof.
  intros Hi Hr. split_and!; [by rewrite insert_id|by intros t0 ?; simplify_eq|reflexivity|apply only_pages_refl|].
  intros. by rewrite insert_id.
Qed.

Lemma touch_upage T E q : touch T E q → upage E q.
Proof. by intros (? & _ & ?). Qed.

(** walkaddr(), where user pages are known to be writable. *)
Lemma writable_addr {X} k T E r k1 t1 va (fail : K X) (kont : Z → K X) Q :
  quiet k T E r k1 t1 → 0 ≤ va →
  (∀ e, leaves t1 !! vpn va = Some e → has e PTE_U = true → vpn va < lim t1 → has e PTE_W = true) →
  (uaddr t1 va = None → wp fail k1 Q) →
  (∀ e, leaves t1 !! vpn va = Some e → vpn va < lim t1 →
     has e PTE_U = true → has e PTE_W = true → wp (kont (PTE2PA e)) k1 Q) →
  wp (pa0 ← walkaddr r va; if pa0 =? 0 then fail else kont pa0) k1 Q.
Proof.
  intros Hq Hva Hw Hfail Hk. wp_pure.
  assert (<[r := t1]> T !! r = Some t1) as Hr1 by apply lookup_insert_eq.
  eapply wp_mono; [eapply (walkaddr_spec k1); [apply Hq|exact Hr1|lia]|].
  intros a k2 [-> ->]. destruct (uaddr t1 va) as [p|] eqn:Hp; simpl default; [|by apply Hfail].
  destruct (uaddr_page _ _ _ _ _ _ _ (proj1 Hq) Hr1 Hp) as (_ & Hnz & _).
  destruct (Z.eqb_spec p 0); [done|]. apply uaddr_Some in Hp as (e & He & Hu & Hl & ->).
  apply Hk; try done. by apply Hw.
Qed.

(** copyout()'s way to a page: the copy-on-write test and walkaddr(). *)
Lemma cow_then_addr {X} k T E r t va (fail : K X) (kont : Z → K X) Q :
  minv k T E → Eok E → T !! r = Some t → 0 ≤ va < MAXVA →
  (∀ k' t', quiet k T E r k' t' → uaddr t va = None ∨ cow_at T r va ∧ oom k' → wp fail k' Q) →
  (∀ k' t' e, quiet k T E r k' t' → leaves t' !! vpn va = Some e → vpn va < lim t' →
     has e PTE_U = true → has e PTE_W = true → wp (kont (PTE2PA e)) k' Q) →
  wp (pte ← walk r va false;
      cow ← (if pte =? 0 then mret 0 else
             e ← load64 pte;
             if Z.land e PTE_COW =? 0 then mret 0 else cowalloc r va);
      if cow <? 0 then fail else
      pa0 ← walkaddr r va;
      if pa0 =? 0 then fail else kont pa0) k Q.
Proof.
  intros Hi HE Hr Hva Hfail Hk. wp_pure. eapply wp_mono; [by eapply walk_find|].
  intros ? ? [-> ->]. wp_pure. pose proof (quiet_refl k T E r t Hi Hr) as Hq0.
  destruct (leaves t !! vpn va) as [e|] eqn:He.
  2:{ assert (wp (pa0 ← walkaddr r va; if pa0 =? 0 then fail else kont pa0) k Q) as Hgo
        by (eapply writable_addr; [exact Hq0|lia|congruence|eauto..]).
      destruct (Z.eqb_spec (slot t va) 0) as [|Hnz]; [by apply wp_ret|]. wp_pure.
      rewrite (slot_load _ _ _ _ _ _ Hi Hr Hnz), He. simpl. by apply wp_ret. }
  pose proof (slot_nonzero _ _ _ _ _ _ _ Hi Hr He) as Hnz.
  destruct (Z.eqb_spec (slot t va) 0); [done|]. wp_pure.
  rewrite (slot_load _ _ _ _ _ _ Hi Hr Hnz), He. simpl default.
  pose proof (mi_leaf _ _ _ Hi _ _ _ _ Hr He) as Hok.
  destruct (Z.land e PTE_COW =? 0) eqn:Hcow.
  - apply wp_ret. eapply writable_addr; [exact Hq0|lia| |eauto..]. intros e' He' Hu Hl. simplify_eq.
    rewrite (lo_cow _ _ _ Hok) by done. unfold has, nz. by rewrite Hcow.
  - eapply wp_mono; [by eapply cowalloc_spec; [..|lia]|].
    intros c k1 [(-> & -> & Hno)|(e1 & _ & He1 & Hc1 & Hl1 & [[-> Hres]|(-> & Hkf & Hi1 & Er & Ho)])].
    + eapply Hfail; [exact Hq0|]. left. specialize (Hno ltac:(lia) e He). unfold uaddr. rewrite He.
      unfold is_cow in Hno. rewrite (lo_v _ _ _ Hok) in Hno. unfold has at 2, nz in Hno.
      rewrite Hcow, andb_true_r in Hno. simpl in Hno. by rewrite Hno.
    + destruct (cow_views _ _ _ _ _ _ _ _ Hi Hr He1 Hl1 Hc1 Hres)
        as (t1 & e2 & Hi1 & Hres1 & Hkf & Hop & Hlm & He2 & Hu2 & Hw2 & _ & Hvw).
      assert (quiet k T E r k1 t1) as Hq1.
      { split_and!; try done; [by intros t0 ?; simplify_eq|]. eapply only_pages_weaken; [|exact Hop]. apply touch_upage. }
      eapply (writable_addr k T E r k1 t1); [exact Hq1|lia|naive_solver| |by eauto].
      intros Hno. unfold uaddr in Hno. rewrite He2, Hu2, Hlm in Hno.
      destruct (Z.ltb_spec (vpn va) (lim t)); [done|lia].
    + apply (Hfail _ t); [|right; split; [by exists t, e1|done]]. split_and!; try done; [by rewrite insert_id|by intros t0 ?; simplify_eq|rewrite Er; apply only_pages_refl|].
      intros. by rewrite insert_id, Er.
Qed.

(** ** copyout() *)

(** [i] bytes from [src] have arrived at [dstva] of page table [r], and that is
    all that any user process can see. *)
Definition wrote k T E r dstva src i k' : Prop :=
  ∃ t', minv k' (<[r := t']> T) E ∧ (∀ t, T !! r = Some t → resolved t t') ∧ kframe k k' ∧
    only_pages (upage E) (ram k) (ram k') ∧
    ∀ r' va, views (<[r := t']> T) (ram k') r' va =
      if decide (r' = r ∧ dstva ≤ va < dstva + i) then Some (ldb (ram k) (src + (va - dstva)))
      else views T (ram k) r' va.

(** Kernel memory that no user process can change. *)
Definition kbuf E (a n : Z) : Prop := ∀ b, a ≤ b < a + n → ¬ upage E (page b).

Lemma wrote_quiet k T E r dstva src i k1 t1 k2 t2 :
  minv k1 (<[r := t1]> T) E → (∀ t, T !! r = Some t → resolved t t1) → kframe k k1 → only_pages (upage E) (ram k) (ram k1) →
  (∀ r' va, views (<[r := t1]> T) (ram k1) r' va =
      if decide (r' = r ∧ dstva ≤ va < dstva + i) then Some (ldb (ram k) (src + (va - dstva)))
      else views T (ram k) r' va) →
  quiet k1 (<[r := t1]> T) E r k2 t2 → wrote k T E r dstva src i k2.
Proof.
  intros Hi Hrs Hkf Hop Hv (Hi2 & Hrs2 & Hkf2 & Hop2 & Hv2). rewrite insert_insert_eq in Hi2.
  exists t2. split_and!; [done| |by etrans|by eapply only_pages_trans|].
  { intros t Ht. etrans; [by apply Hrs|]. apply Hrs2, lookup_insert_eq. }
  intros r' va. rewrite <-Hv, <-Hv2. by rewrite insert_insert_eq.
Qed.

Lemma wrote_step k T E r dstva src i d n k1 t1 e :
  Eok E → minv k1 (<[r := t1]> T) E → (∀ t, T !! r = Some t → resolved t t1) → kframe k k1 →
  only_pages (upage E) (ram k) (ram k1) →
  (∀ r' va, views (<[r := t1]> T) (ram k1) r' va =
      if decide (r' = r ∧ dstva ≤ va < dstva + i) then Some (ldb (ram k) (src + (va - dstva)))
      else views T (ram k) r' va) →
  d = dstva + i → 0 ≤ i → 0 ≤ n → d mod PGSIZE + n ≤ PGSIZE → kbuf E (src + i) n →
  leaves t1 !! vpn d = Some e → vpn d < lim t1 → has e PTE_U = true → has e PTE_W = true →
  wrote k T E r dstva src (i + n)
    (upd_ram (λ m, memmove m (PTE2PA e + d mod PGSIZE) (src + i) n) k1).
Proof.
  intros HE Hi Hrs Hkf Hop Hv Hd Hi0 Hn Hoff Hbuf He Hl Hu Hw.
  destruct (write_views k1 (<[r := t1]> T) E r t1 d e (src + i) n) as (Hi' & Hvp & HEp & Hop' & Hvw);
    try done; [apply lookup_insert_eq|].
  exists t1. split_and!; [exact Hi'|done| | |].
  - etrans; [exact Hkf|]. by split.
  - eapply only_pages_trans; [exact Hop|]. eapply only_pages_weaken; [|exact Hop'].
    by intros q ->.
  - intros r' va. cbn [ram upd_ram]. rewrite Hvw, Hv.
    destruct (decide (r' = r ∧ d ≤ va < d + n)) as [[-> H1]|H1].
    + rewrite decide_True by lia. f_equal. rewrite Hop by (apply Hbuf; lia). f_equal. lia.
    + destruct (decide (r' = r ∧ dstva ≤ va < dstva + i)) as [[-> H2]|H2].
      * by rewrite decide_True by lia.
      * rewrite decide_False; [done|]. intros [-> H3]. destruct (decide (va < dstva + i)); [apply H2|apply H1]; lia.
Qed.

Lemma page_nonneg va : 0 ≤ va → 0 ≤ page va.
Proof. intros. unfold page. pose proof (Z.mod_le va PGSIZE). Zconst. lia. Qed.

(** How many bytes of a range of [len] bytes fit the page of [va]. *)
Lemma chunk_range va len :
  0 < len → 0 ≤ va →
  let n := if len <? PGSIZE - (va - page va) then len else PGSIZE - (va - page va) in
  va - page va = va mod PGSIZE ∧ 0 < n ≤ len ∧ va mod PGSIZE + n ≤ PGSIZE ∧
  (n = len ∨ page va + PGSIZE = va + n).
Proof.
  intros Hlen Hva. pose proof (page_split va). pose proof (mod_page_range va). simpl.
  destruct (Z.ltb_spec len (PGSIZE - (va - page va))); lia.
Qed.

Lemma uaddr_of_page t va : uaddr t (page va) = uaddr t va.
Proof. unfold uaddr. by rewrite vpn_page. Qed.

Lemma views_high k T E m r t va :
  minv k T E → T !! r = Some t → MAXVA ≤ page va → views T m r va = None.
Proof.
  intros Hi Hr Hge. unfold views. rewrite Hr. simpl. unfold uview.
  destruct (uaddr t va) as [p|] eqn:Hp; [exfalso|done].
  apply uaddr_Some in Hp as (e & _ & _ & Hl & _).
  pose proof (wf_lim _ _ (mi_wf _ _ _ Hi _ _ Hr)). rewrite <-vpn_page in Hl. unfold vpn in Hl.
  pose proof (Z.div_mod (page va) PGSIZE). pose proof (mod_page_range (page va)). Zconst. lia.
Qed.

Lemma copyout_spec k T E r t dstva src len :
  minv k T E → Eok E → T !! r = Some t → 0 ≤ dstva < 2 ^ 64 → 0 ≤ len → 0 ≤ src →
  src + len < 2 ^ 64 → kbuf E src len →
  wp (copyout r dstva src len) k (λ c k',
    (c = 0 ∧ wrote k T E r dstva src len k') ∨
    (c = -1 ∧ ∃ i, 0 ≤ i < len ∧ wrote k T E r dstva src i k' ∧
       stuck T (ram k) r (dstva + i) k')).
Proof.
  intros Hi HE Hr Hd Hlen Hs Hsl Hbuf. unfold copyout.
  apply (wp_loop _
    (λ '(d, sp, l) s, ∃ i, 0 ≤ i ≤ len ∧ l = len - i ∧ sp = src + i ∧ 0 ≤ d < 2 ^ 64 ∧
       (l = 0 ∨ d = dstva + i) ∧ wrote k T E r dstva src i s)
    (λ '(_, _, l) _, l)).
  - intros [[d sp] l] s (i & Hin & -> & -> & Hd' & Hdi & Hwr).
    destruct (Z.ltb_spec 0 (len - i)) as [Hpos|Hz].
    2:{ wp_pure. left. split; [done|]. by replace len with i by lia. }
    destruct Hdi as [?|Hdi]; [lia|]. wp_pure. rewrite PGROUNDDOWN_page.
    destruct (Z.leb_spec MAXVA (page d)) as [Hge|Hlt].
    { wp_pure. right. split; [done|]. exists i. split_and!; [lia|lia|done|]. left.
      rewrite <-Hdi. by eapply views_high. }
    destruct Hwr as (t1 & Hi1 & Hrs1 & Hkf1 & Hop1 & Hv1). pose proof (page_range d) as Hpr.
    pose proof (chunk_range d (len - i) Hpos ltac:(lia)) as Hn.
    set (n := if _ <? _ then _ else _) in *. destruct Hn as (Hoff & Hn1 & Hn2 & Hn3).
    pose proof (page_nonneg d ltac:(lia)) as Hp0.
    eapply (cow_then_addr s (<[r := t1]> T) E r t1 (page d)); [done|done|apply lookup_insert_eq|lia|..].
    + intros s' t' Hq Hwhy. wp_pure. right. split; [done|]. exists i.
      split_and!; [lia|lia|by eapply wrote_quiet|]. destruct Hwhy as [Hno|[Hcow Ho]]; [left|right].
      2:{ split; [|done]. rewrite <-Hdi. eapply (resolved_cow s T E r t t1); [done|done|by apply Hrs1|].
          destruct Hcow as (t2 & e & ? & He & ?). exists t2, e. by rewrite vpn_page in He. }
      pose proof (Hv1 r d) as Hvd. rewrite decide_False in Hvd by lia. rewrite <-Hdi, <-Hvd.
      rewrite views_insert, decide_True by done. unfold uview. by rewrite <-uaddr_of_page, Hno.
    + intros s' t' e (Hi2 & Hrs2 & Hkf2 & Hop2 & Hv2) He Hl Hu Hw. rewrite vpn_page in He, Hl. rewrite insert_insert_eq in Hi2.
      unfold do_memmove. wp_pure. rewrite Hoff. rewrite !u64_small by (Zconst; lia).
      split; [|lia]. exists (i + n). split_and!; try lia; [Zconst; lia..|].
      eapply wrote_step; try done; try lia; [|by etrans|by eapply only_pages_trans| |].
      * intros t0 Ht0. etrans; [by apply Hrs1|]. apply Hrs2, lookup_insert_eq.
      * intros r' va. rewrite <-Hv1, <-Hv2. by rewrite insert_insert_eq.
      * intros b Hb. apply Hbuf. lia.
  - exists 0. split_and!; try lia. exists t. rewrite insert_id by done.
    split_and!; [done|by intros t0 ?; simplify_eq|reflexivity|apply only_pages_refl|].
    intros r' va. rewrite decide_False by lia. done.
  - lia.
Qed.

(** ** copyin() *)

(** [i] bytes that the user sees at [srcva] have arrived at [dst], and no other
    memory has changed. *)
Definition fetched k T r srcva dst i k' : Prop :=
  (∀ j, 0 ≤ j < i → views T (ram k) r (srcva + j) = Some (ldb (ram k') (dst + j))) ∧
  (∀ a, ¬ dst ≤ a < dst + i → ldb (ram k') a = ldb (ram k) a).

(** Kernel memory outside the user's and the allocator's reach. *)
Definition kmem_ok k T E (a n : Z) : Prop :=
  ∀ b, a ≤ b < a + n → valid_page (page b) → 0 < cnt k (page b) ∧ npt T (page b) = 0 ∧ refs T (page b) = 0.

(** Writing a kernel buffer. *)
Lemma kmem_write k T E dst n f :
  minv k T E → kmem_ok k T E dst n →
  (∀ a, ¬ dst ≤ a < dst + n → ldb (f (ram k)) a = ldb (ram k) a) →
  minv (upd_ram f k) T E ∧ ∀ r va, views T (f (ram k)) r va = views T (ram k) r va.
Proof.
  intros Hi Hk Hf.
  assert (only_pages (λ q, ∃ b, dst ≤ b < dst + n ∧ q = page b) (ram k) (f (ram k))) as Hop.
  { intros a Ha. apply Hf. intros Hin. apply Ha. by exists a. }
  split.
  - eapply minv_ram; [exact Hi|exact Hop|]. intros q (b & Hb & ->) Hv. by destruct (Hk b Hb Hv) as (? & ? & ?).
  - intros r va. unfold views. destruct (T !! r) as [t|] eqn:Hr; [|done]. simpl. unfold uview.
    destruct (uaddr t va) as [p|] eqn:Hp; [|done]. simpl. f_equal. apply Hop.
    intros (b & Hb & Hpb). destruct (uaddr_page _ _ _ _ _ _ _ Hi Hr Hp) as (Hv & _ & Hrf).
    rewrite page_offset in Hpb; [|apply Hv|apply mod_page_range]. rewrite Hpb in *.
    destruct (Hk b Hb Hv) as (_ & _ & ?). lia.
Qed.

(** The state between two pages of copyin(). *)
Record fetching k T E r srcva dst i k' : Prop := {
  fe_minv : minv k' T E;
  fe_frame : kframe k k';
  fe_krefs : krefs k' = krefs k;
  fe_data : fetched k T r srcva dst i k';
  fe_views : ∀ r va, views T (ram k') r va = views T (ram k) r va;
}.

Lemma fetching_start k T E r srcva dst : minv k T E → fetching k T E r srcva dst 0 k.
Proof. intros Hi. split; [done|reflexivity|done| |done]. split; [lia|done]. Qed.

(** Bytes of a user page arrive in the buffer. *)
Lemma fetching_step k T E r srcva dst len i n k1 f :
  kmem_ok k T E dst len → 0 ≤ i → 0 ≤ n → i + n ≤ len → fetching k T E r srcva dst i k1 →
  (∀ j, i ≤ j < i + n → views T (ram k1) r (srcva + j) = Some (ldb (f (ram k1)) (dst + j))) →
  (∀ a, ¬ dst + i ≤ a < dst + i + n → ldb (f (ram k1)) a = ldb (ram k1) a) →
  fetching k T E r srcva dst (i + n) (upd_ram f k1).
Proof.
  intros Hk Hi0 Hn Hlen [Hi Hkf Ek [Hd1 Hd2] Hv] Hnew Hold.
  destruct (kmem_write k1 T E (dst + i) n f) as [Hi' Hv']; [done| |done|].
  { intros b Hb Hvb. unfold cnt. rewrite Ek. apply Hk; [lia|done]. }
  split; [done| |done| |intros; cbn [ram upd_ram]; by rewrite Hv', Hv].
  { etrans; [exact Hkf|]. by split. }
  split; cbn [ram upd_ram].
  - intros j Hj. destruct (decide (j < i)).
    + rewrite Hold by lia. apply Hd1. lia.
    + rewrite <-Hv. apply Hnew. lia.
  - intros a Ha. rewrite Hold by lia. apply Hd2. lia.
Qed.

Lemma views_uaddr T m r t va :
  T !! r = Some t → views T m r va = (λ p, ldb m (p + va mod PGSIZE)) <$> uaddr t va.
Proof. intros Hr. unfold views. rewrite Hr. simpl. unfold uview. by destruct (uaddr t va). Qed.

(** A page of the user, byte by byte. *)
Lemma views_in_page T m r t va p n :
  T !! r = Some t → uaddr t va = Some p → va mod PGSIZE + n ≤ PGSIZE →
  ∀ va', va ≤ va' < va + n → views T m r va' = Some (ldb m (p + va mod PGSIZE + (va' - va))).
Proof.
  intros Hr Hp Hn va' Hva. destruct (same_page va va' n Hn Hva) as [E1 E2].
  rewrite (views_uaddr T m r t) by done.
  assert (uaddr t va' = Some p) as -> by (revert Hp; unfold uaddr; by rewrite E1).
  simpl. rewrite E2. do 2 f_equal. lia.
Qed.

Lemma uaddr_low k T E r t va p :
  minv k T E → T !! r = Some t → uaddr t va = Some p → page va < MAXVA.
Proof.
  intros Hi Hr Hp. apply Z.nle_gt. intros Hge. pose proof (views_high _ _ _ ∅ _ _ _ Hi Hr Hge) as Hno.
  rewrite (views_uaddr _ _ _ t), Hp in Hno by done. done.
Qed.

Lemma copyin_spec k T E r t dst srcva len :
  minv k T E → T !! r = Some t → 0 ≤ srcva < 2 ^ 64 → 0 ≤ len → 0 ≤ dst → dst + len < 2 ^ 64 →
  kmem_ok k T E dst len →
  wp (copyin r dst srcva len) k (λ c k',
    (c = 0 ∧ fetching k T E r srcva dst len k') ∨
    (c = -1 ∧ ∃ i, 0 ≤ i < len ∧ fetching k T E r srcva dst i k' ∧
       views T (ram k) r (srcva + i) = None)).
Proof.
  intros Hi Hr Hsv Hlen Hd Hdl Hk. unfold copyin.
  apply (wp_loop _
    (λ '(sv, d, l) s, ∃ i, 0 ≤ i ≤ len ∧ l = len - i ∧ d = dst + i ∧ 0 ≤ sv < 2 ^ 64 ∧
       (l = 0 ∨ sv = srcva + i) ∧ fetching k T E r srcva dst i s)
    (λ '(_, _, l) _, l)).
  - intros [[sv d] l] s (i & Hin & -> & -> & Hsv' & Hsi & Hf).
    destruct (Z.ltb_spec 0 (len - i)) as [Hpos|Hz].
    2:{ wp_pure. left. split; [done|]. by replace len with i by lia. }
    destruct Hsi as [?|Hsi]; [lia|]. wp_pure. rewrite PGROUNDDOWN_page.
    eapply wp_mono; [eapply (walkaddr_spec s); [apply Hf|exact Hr|apply page_nonneg; lia]|].
    intros a s' [-> ->]. rewrite uaddr_of_page.
    destruct (uaddr t sv) as [p|] eqn:Hp; simpl default.
    2:{ wp_pure. right. split; [done|]. exists i. split_and!; [lia|lia|done|].
        rewrite <-Hsi. unfold views. rewrite Hr. simpl. unfold uview. by rewrite Hp. }
    destruct (uaddr_page _ _ _ _ _ _ _ (fe_minv _ _ _ _ _ _ _ _ Hf) Hr Hp) as (Hvp & Hnz & Hrf).
    destruct (Z.eqb_spec p 0) as [|_]; [done|].
    pose proof (chunk_range sv (len - i) Hpos ltac:(lia)) as Hn.
    set (n := if _ <? _ then _ else _) in *. destruct Hn as (Hoff & Hn1 & Hn2 & Hn3).
    pose proof (uaddr_low _ _ _ _ _ _ _ Hi Hr Hp) as Hmx. pose proof (page_nonneg sv ltac:(lia)).
    unfold do_memmove. wp_pure. rewrite Hoff. rewrite !u64_small by (Zconst; lia).
    split; [|lia]. exists (i + n). split_and!; try lia; [Zconst; lia..|].
    eapply fetching_step; try done; try lia.
    + intros j Hj. rewrite (views_in_page T (ram s) r t sv p n) by (done || lia).
      rewrite memmove_spec, decide_True by lia. do 2 f_equal. lia.
    + intros b Hb. rewrite memmove_spec, decide_False by lia. done.
  - exists 0. split_and!; try lia. by apply fetching_start.
  - lia.
Qed.

(** ** copyinstr() *)

(** The first [i] bytes of the user's string are not the terminator. *)
Definition no_nul k T r srcva i : Prop :=
  ∀ j, 0 ≤ j < i → views T (ram k) r (srcva + j) ≠ Some 0.

Definition got_string k T E r srcva dst max k' : Prop :=
  ∃ i, 0 ≤ i < max ∧ fetching k T E r srcva dst (i + 1) k' ∧ no_nul k T r srcva i ∧
    views T (ram k) r (srcva + i) = Some 0.

Lemma copyinstr_page_spec k T E r t dst srcva max i n p s :
  T !! r = Some t → kmem_ok k T E dst max → 0 ≤ i → 0 ≤ n → i + n ≤ max → n < 2 ^ 64 →
  uaddr t (srcva + i) = Some p → (srcva + i) mod PGSIZE + n ≤ PGSIZE →
  fetching k T E r srcva dst i s → no_nul k T r srcva i →
  wp (copyinstr_page (p + (srcva + i) mod PGSIZE) (dst + i) n (max - i)) s (λ res s',
    match res with
    | inr _ => got_string k T E r srcva dst max s'
    | inl (d, m) => d = dst + (i + n) ∧ m = max - (i + n) ∧
        fetching k T E r srcva dst (i + n) s' ∧ no_nul k T r srcva (i + n)
    end).
Proof.
  intros Hr Hk Hi0 Hn0 Hnm Hn64 Hp Hoff Hf Hnn. unfold copyinstr_page.
  set (a0 := p + (srcva + i) mod PGSIZE).
  apply (wp_loop _
    (λ '(a, d, n', m) s', ∃ j, 0 ≤ j ≤ n ∧ a = a0 + j ∧ d = dst + (i + j) ∧ n' = n - j ∧
       m = max - (i + j) ∧ fetching k T E r srcva dst (i + j) s' ∧ no_nul k T r srcva (i + j))
    (λ '(_, _, n', _) _, n')).
  - intros [[[a d] n'] m] s' (j & Hj & -> & -> & -> & -> & Hf' & Hnn').
    destruct (Z.ltb_spec 0 (n - j)) as [Hpos|Hz].
    2:{ wp_pure. replace n with j by lia. by split_and!. }
    wp_pure. set (c := ldb (ram s') (a0 + j)).
    assert (views T (ram s') r (srcva + (i + j)) = Some c) as Hc.
    { rewrite (views_in_page T (ram s') r t (srcva + i) p n) by (done || lia).
      unfold c, a0. do 2 f_equal. lia. }
    assert (0 ≤ c < 256) as Hc256 by apply ldb_range.
    assert (fetching k T E r srcva dst (i + j + 1) (upd_ram (λ m, stb m (dst + (i + j)) c) s')) as Hf2.
    { eapply fetching_step; [exact Hk|lia|lia|lia|done| |].
      - intros j' Hj'. assert (j' = i + j) as -> by lia. rewrite Hc. f_equal.
        rewrite ldb_stb, decide_True by done. symmetry. by apply Z.mod_small.
      - intros b Hb. rewrite ldb_stb, decide_False by lia. done. }
    rewrite (fe_views _ _ _ _ _ _ _ _ Hf') in Hc.
    destruct (Z.eqb_spec c 0) as [Hc0|Hc0].
    + wp_pure. exists (i + j). rewrite Hc0 in *. split_and!; try done; lia.
    + wp_pure. split; [|lia]. exists (j + 1). rewrite !Z.add_assoc in *.
      split_and!; try done; try lia. intros j' Hj'. destruct (decide (j' < i + j)); [apply Hnn'; lia|].
      replace j' with (i + j) by lia. rewrite Z.add_assoc, Hc. congruence.
  - exists 0. rewrite !Z.add_0_r. split_and!; done || lia.
  - lia.
Qed.

Lemma copyinstr_spec k T E r t dst srcva max :
  minv k T E → T !! r = Some t → 0 ≤ srcva < 2 ^ 64 → 0 ≤ max < 2 ^ 64 → kmem_ok k T E dst max →
  wp (copyinstr r dst srcva max) k (λ c k',
    (c = 0 ∧ got_string k T E r srcva dst max k') ∨
    (c = -1 ∧ ∃ i, 0 ≤ i ≤ max ∧ fetching k T E r srcva dst i k' ∧ no_nul k T r srcva i ∧
       (i = max ∨ views T (ram k) r (srcva + i) = None))).
Proof.
  intros Hi Hr Hsv Hmax Hk. unfold copyinstr.
  apply (wp_loop _
    (λ '(sv, d, m) s, ∃ i, 0 ≤ i ≤ max ∧ m = max - i ∧ d = dst + i ∧ 0 ≤ sv < 2 ^ 64 ∧
       (m = 0 ∨ sv = srcva + i) ∧ fetching k T E r srcva dst i s ∧ no_nul k T r srcva i)
    (λ '(_, _, m) _, m)).
  - intros [[sv d] m] s (i & Hin & -> & -> & Hsv' & Hsi & Hf & Hnn).
    destruct (Z.ltb_spec 0 (max - i)) as [Hpos|Hz].
    2:{ wp_pure. right. split; [done|]. exists i. split_and!; done || lia. }
    destruct Hsi as [?|Hsi]; [lia|]. wp_pure. rewrite PGROUNDDOWN_page.
    eapply wp_mono; [eapply (walkaddr_spec s); [apply Hf|exact Hr|apply page_nonneg; lia]|].
    intros a s' [-> ->]. rewrite uaddr_of_page.
    destruct (uaddr t sv) as [p|] eqn:Hp; simpl default.
    2:{ wp_pure. right. split; [done|]. exists i. split_and!; try done; try lia. right.
        rewrite <-Hsi, (views_uaddr _ _ _ t), Hp by done. done. }
    destruct (uaddr_page _ _ _ _ _ _ _ (fe_minv _ _ _ _ _ _ _ _ Hf) Hr Hp) as (Hvp & Hnz & Hrf).
    destruct (Z.eqb_spec p 0) as [|_]; [done|].
    pose proof (chunk_range sv (max - i) Hpos ltac:(lia)) as Hn.
    pose proof (uaddr_low _ _ _ _ _ _ _ Hi Hr Hp) as Hlow. pose proof (page_nonneg sv ltac:(lia)).
    set (n := if _ <? _ then _ else _) in *. destruct Hn as (Hoff & Hn1 & Hn2 & Hn3).
    wp_pure. rewrite Hoff, Hsi in *.
    eapply wp_mono; [eapply copyinstr_page_spec; try done; lia|].
    intros [[d' m']|[]] s' Hres; wp_pure; [|by left].
    destruct Hres as (-> & -> & Hf' & Hnn'). rewrite u64_small by (Zconst; lia).
    split; [|lia]. exists (i + n). split_and!; try done; try lia; Zconst; lia.
  - exists 0. split_and!; try lia; [by apply fetching_start|intros j Hj; lia].
  - lia.
Qed.
End copy.

(** * User memory as destination and source of file operations

    The interfaces readi() and writei() are proved against, implemented by the
    memory of a user process: either_copyout() and either_copyin() with the
    user flag, on top of copyout() and copyin(). *)

Ltac wp_prim ::= wp_proc.

Section user_io.
Context `{OTH : Others, LNK : !Linker, LOK : !LinkerOk, KOB : !Kobj, KOK : !KobjOk} (me : nat).

Lemma minv_same k k' T E : hs_eq (hs k') (hs k) → mem_same k k' → minv k T E → minv k' T E.
Proof.
  intros Hh [M1 M2 M3] [[F Ha] Hwf Hm Htb Hlf Hc Hpt Hw]. split; try done.
  - exists F. eapply alloc_inv_frame; try done. rewrite M1. apply only_pages_refl.
  - by rewrite M1.
  - intros pa Hv. unfold cnt. rewrite M3. by apply Hc.
Qed.

(** The kernel's own memory is not the users'. *)
Lemma kernel_page b : b < kend → ¬ valid_page (page b).
Proof.
  intros Hb [_ Hv]. unfold page in Hv. pose proof (mod_page_range b). lia.
Qed.

Lemma bdata_kmem k T E n : n ≤ BSIZE → kmem_ok k T E bdata n.
Proof. intros Hn b Hb Hv. pose proof bdata_range. by destruct (kernel_page b); [lia|]. Qed.

Lemma bdata_kbuf E n : n ≤ BSIZE → kbuf E bdata n.
Proof. intros Hn b Hb [Hv _]. pose proof bdata_range. by destruct (kernel_page b); [lia|]. Qed.

(** Process [me] runs on page table [r], and its memory and that of the others
    is [T]. *)
Record uspace (E : Z → Z) (r : Z) (T : tables) (k : kernel) : Prop := {
  us_minv : minv k T E;
  us_E : Eok E;
  us_root : is_Some (T !! r);
  us_proc : p_pagetable (proc_of k me) = r;
}.

Lemma uspace_same E r T k k' : fsq k k' → mem_same k k' → uspace E r T k → uspace E r T k'.
Proof.
  intros Hq Hm [U1 U2 U3 U4]. split; try done.
  - eapply minv_same; [apply Hq|done|done].
  - rewrite <-U4. unfold proc_of. pose proof (fq_procs _ _ Hq) as Hp.
    destruct (procs k !! me) as [p|] eqn:Ep.
    + destruct (Forall2_lookup_l _ _ _ _ _ Hp Ep) as (p' & -> & [->|[_ ->]]); done.
    + apply lookup_ge_None in Ep. rewrite (Forall2_length _ _ _ Hp) in Ep.
      by rewrite (proj2 (lookup_ge_None _ _) Ep).
Qed.

Lemma uspace_bdata E r T k d :
  uspace E r T k → Z.of_nat (length d) ≤ BSIZE →
  let k' := upd_ram (λ m, st_bytes m bdata d) k in
  uspace E r T k' ∧ ∀ r' va, views T (ram k') r' va = views T (ram k) r' va.
Proof.
  intros [U1 U2 U3 U4] Hd.
  destruct (kmem_write k T E bdata (Z.of_nat (length d)) (λ m, st_bytes m bdata d)) as [Hi Hv]; try done.
  - by apply bdata_kmem.
  - intros a Ha. apply ldb_st_bytes_out. lia.
Qed.

(** ** The destination *)

(** The bytes [out] are at [dst] of the process; nothing else of any process is
    different from [k0]. *)
Definition user_at (E : Z → Z) (r : Z) (T0 : tables) (k0 : kernel) (dst : Z) (out : list Z)
    (k : kernel) : Prop :=
  ∃ T, uspace E r T k ∧ (∀ r' va, views T (ram k) r' va =
    if decide (r' = r ∧ dst ≤ va < dst + Z.of_nat (length out))
    then Some (default 0 (out !! Z.to_nat (va - dst)) mod 256) else views T0 (ram k0) r' va) ∧
  ∀ va, cow_at T r va → cow_at T0 r va.

(** Of the bytes [all] only the first [i] are there, and the next one cannot be
    stored. *)
Definition user_stuck (E : Z → Z) (r : Z) (T0 : tables) (k0 : kernel) (dst : Z) (all : list Z)
    (i : nat) (k : kernel) : Prop :=
  (i < length all)%nat ∧ user_at E r T0 k0 dst (take i all) k ∧ stuck T0 (ram k0) r (dst + Z.of_nat i) k.

Lemma user_at_low E r T0 k0 dst out k :
  0 ≤ dst < 2 ^ 64 → user_at E r T0 k0 dst out k →
  u64 (dst + Z.of_nat (length out)) = dst + Z.of_nat (length out).
Proof.
  intros Hd (T & [U1 _ [t Ht] _] & Hv & _). apply u64_small. destruct (decide (length out = 0%nat)); [lia|].
  set (va := dst + Z.of_nat (length out) - 1).
  assert (page va < MAXVA) as Hp.
  { apply Z.nle_gt. intros Hge. pose proof (views_high _ _ _ (ram k) _ _ _ U1 Ht Hge) as Hn.
    rewrite Hv, decide_True in Hn by (unfold va; lia). done. }
  pose proof (page_split va). pose proof (mod_page_range va). unfold va in *.
  assert (MAXVA = 2 ^ 38) by done. assert (PGSIZE = 4096) by done. lia.
Qed.

(** Part of a kernel buffer that holds [bs] has been copied out behind [out]. *)
Lemma user_at_wrote E r T0 k0 dst out bs a T k k' :
  uspace E r T k →
  (∀ r' va, views T (ram k) r' va =
    if decide (r' = r ∧ dst ≤ va < dst + Z.of_nat (length out))
    then Some (default 0 (out !! Z.to_nat (va - dst)) mod 256) else views T0 (ram k0) r' va) →
  (∀ va, cow_at T r va → cow_at T0 r va) →
  (∀ j b, bs !! j = Some b → ldb (ram k) (a + Z.of_nat j) = b mod 256) →
  wrote k T E r (dst + Z.of_nat (length out)) a (Z.of_nat (length bs)) k' →
  user_at E r T0 k0 dst (out ++ bs) k'.
Proof.
  intros [U1 U2 U3 U4] Hv Hcw Hb (t' & W1 & Wr & W2 & W3 & W4). exists (<[r := t']> T). split; [|split; cycle 1].
  2:{ intros va Hva. destruct U3 as [t Ht]. apply Hcw. eapply resolved_cow; [exact W1|exact Ht|by apply Wr|done]. }
  { split; [done|done|by rewrite lookup_insert_eq|]. rewrite <-U4. unfold proc_of. by rewrite (kf_procs _ _ W2). }
  intros r' va. rewrite W4, Hv, length_app. destruct (decide (r' = r)) as [->|Hne]; cycle 1.
  { by rewrite !decide_False by naive_solver. }
  destruct (decide (dst + Z.of_nat (length out) ≤ va < dst + Z.of_nat (length out) + Z.of_nat (length bs))) as [H1|H1].
  - rewrite !decide_True by (split; [done|lia]). rewrite lookup_app_r by lia.
    destruct (lookup_lt_is_Some_2 bs (Z.to_nat (va - dst) - length out)) as [v Ev]; [lia|].
    rewrite Ev. simpl. rewrite <-(Hb _ _ Ev). do 2 f_equal. lia.
  - rewrite (decide_False (P := _ ∧ dst + _ ≤ _ < _)) by tauto.
    destruct (decide (dst ≤ va < dst + Z.of_nat (length out))) as [H2|H2].
    + rewrite !decide_True by (split; [done|lia]). by rewrite lookup_app_l by lia.
    + rewrite !decide_False; [done|lia..].
Qed.

(** copyout() of the kernel buffer at [a] behind what has been copied out. *)
Lemma user_copyout E r T0 k0 dst out bs a k :
  0 ≤ dst < 2 ^ 64 → user_at E r T0 k0 dst out k → 0 ≤ a → a + Z.of_nat (length bs) ≤ kend →
  (∀ j b, bs !! j = Some b → ldb (ram k) (a + Z.of_nat j) = b mod 256) →
  wp (copyout r (u64 (dst + Z.of_nat (length out))) a (Z.of_nat (length bs))) k (λ c k',
    kframe k k' ∧ (c = 0 ∧ user_at E r T0 k0 dst (out ++ bs) k' ∨
      c = -1 ∧ ∃ i, (length out ≤ i)%nat ∧ user_stuck E r T0 k0 dst (out ++ bs) i k')).
Proof.
  intros Hd Hat Ha1 Ha2 Hb. pose proof (u64_range (dst + Z.of_nat (length out))) as Hdr.
  rewrite (user_at_low _ _ _ _ _ _ _ Hd Hat) in *. destruct Hat as (T & Hu & Hv & Hcw).
  assert (kend < 2 ^ 63) as Hke by (pose proof kend_range; unfold PHYSTOP, KERNBASE in *; lia).
  pose proof Hu as [U1 U2 [t Ht] U4].
  assert (kbuf E a (Z.of_nat (length bs))) by (intros b Hab [Hvp _]; by destruct (kernel_page b); [lia|]).
  eapply wp_mono; [eapply (copyout_spec k T E r t); first [done|lia]|].
  intros c k' [[-> Hw]|(-> & i & Hi & Hw & Hst)].
  - split; [by destruct Hw as (? & _ & _ & ? & _)|]. left. split; [done|]. by eapply user_at_wrote.
  - split; [by destruct Hw as (? & _ & _ & ? & _)|]. right. split; [done|]. exists (length out + Z.to_nat i)%nat. split; [lia|]. split_and!.
    + rewrite length_app. lia.
    + rewrite take_app_add. eapply user_at_wrote; [done|done|done| |].
      * intros j b Hj. apply lookup_take_Some in Hj as [Hj _]. by apply Hb.
      * rewrite length_take. by replace (Z.of_nat (Z.to_nat i `min` length bs)) with i by lia.
    + rewrite Nat2Z.inj_add, Z2Nat.id, Z.add_assoc by lia. destruct Hst as [Hno|[Hc Ho]]; [left|right].
      * rewrite Hv, decide_False in Hno by lia. done.
      * split; [by apply Hcw|done].
Qed.

Lemma user_out E r T0 k0 dst out bs k :
  0 ≤ dst < 2 ^ 64 → running me k → user_at E r T0 k0 dst out k → (length bs ≤ Z.to_nat BSIZE)%nat →
  wp (object_out 1 (u64 (dst + Z.of_nat (length out))) bs) k (λ c k',
    kframe k k' ∧ (c = 0 ∧ user_at E r T0 k0 dst (out ++ bs) k' ∨
      c = -1 ∧ ∃ i, user_stuck E r T0 k0 dst (out ++ bs) i k')).
Proof.
  intros Hd Hrun (T & Hu & Hv & Hcw) Hbs. pose proof bdata_range as Hbd.
  assert (Z.of_nat (length bs) ≤ BSIZE) as Hl by (unfold BSIZE in *; lia).
  destruct (uspace_bdata E r T k bs Hu Hl) as [Hu1 Hv1].
  unfold object_out, either_copyout, put_bytes. wp_pure. set (k1 := upd_ram _ k) in *.
  apply (wp_myproc_kframe me); [by destruct Hrun|]. intros k2 Hf2 Hm2.
  assert (uspace E r T k2) as Hu2.
  { eapply uspace_same; [apply (kframe_fsq _ _ Hf2)|done|done]. }
  change (nz 1) with true. cbv iota. wp_pure. rewrite (us_proc _ _ _ _ Hu2).
  eapply wp_mono; [apply (user_copyout E r T0 k0 dst out bs bdata k2); [done| |unfold KERNBASE in *; lia|lia|]|].
  - exists T. split_and!; [done| |done]. intros r' va. by rewrite (ms_ram _ _ Hm2), Hv1, Hv.
  - intros j b Hj. rewrite (ms_ram _ _ Hm2). simpl. rewrite ldb_st_bytes, (proj2 (Z.leb_le _ _)) by lia.
    replace (Z.to_nat (bdata + Z.of_nat j - bdata)) with j by lia. by rewrite Hj.
  - intros c k3 [Hf3 Hc]. split; [|by destruct Hc as [?|(-> & i & _ & Hi)]; [left|right; split; [|exists i]]].
    etrans; [|exact Hf3]. etrans; [|exact Hf2]. by split.
Qed.

Lemma user_at_same E r T0 k0 dst out k k' :
  fsq k k' → mem_same k k' → user_at E r T0 k0 dst out k → user_at E r T0 k0 dst out k'.
Proof.
  intros Hq Hm (T & Hu & Hv & Hcw). exists T. split_and!; [by eapply uspace_same| |done].
  intros. by rewrite (ms_ram _ _ Hm).
Qed.

Lemma stuck_same T m r va k k' : mem_same k k' → stuck T m r va k → stuck T m r va k'.
Proof.
  intros [_ _ Hk] [?|[? Ho]]; [by left|right]. split; [done|]. intros pa Hv. unfold cnt. rewrite Hk. by apply Ho.
Qed.

Definition user_sink (E : Z → Z) (r : Z) (T0 : tables) (k0 : kernel) (dst : Z) (Hd : 0 ≤ dst < 2 ^ 64) :
    sink me 1 dst.
Proof.
  refine {| sk_at := user_at E r T0 k0 dst; sk_failed all k := ∃ i, user_stuck E r T0 k0 dst all i k |}.
  - abstract (by apply user_at_same).
  - abstract (intros all k k' Hq Hm (i & H1 & H2 & H3); exists i; split_and!;
      [done|by eapply user_at_same|by eapply stuck_same]).
  - abstract (intros all more k (i & H1 & H2 & H3); exists i; split_and!;
      [rewrite length_app; lia|by rewrite take_app_le by lia|done]).
  - abstract (intros out bs k Hrun Hat Hbs; by apply user_out).
Defined.

(** ** The source *)

(** No process sees a change from [k0]. *)
Definition user_same (E : Z → Z) (r : Z) (T : tables) (k0 k : kernel) : Prop :=
  uspace E r T k ∧ ∀ r' va, views T (ram k) r' va = views T (ram k0) r' va.

(** The process has the bytes [bs] at [src]. *)
Definition user_has (r : Z) (T : tables) (k0 : kernel) (src : Z) (bs : list Z) : Prop :=
  0 ≤ src ∧ src + Z.of_nat (length bs) < 2 ^ 64 ∧
  ∀ i b, bs !! i = Some b → views T (ram k0) r (src + Z.of_nat i) = Some b.

Lemma user_in E r T k0 src bs i m k :
  user_has r T k0 src bs → running me k → user_same E r T k0 k → (i + m ≤ length bs)%nat →
  (m ≤ Z.to_nat BSIZE)%nat →
  wp (object_in 1 (u64 (src + Z.of_nat i)) (Z.of_nat m)) k (λ '(c, ds) k',
    kframe k k' ∧ user_same E r T k0 k' ∧ c = 0 ∧ ds = take m (drop i bs)).
Proof.
  intros (Hs1 & Hs2 & Hbs) Hrun [Hu Hv] Hi Hm. pose proof bdata_range as Hbd.
  assert (kend < 2 ^ 63) as Hke by (pose proof kend_range; unfold PHYSTOP, KERNBASE in *; lia).
  unfold object_in, either_copyin, get_bytes. rewrite u64_small by lia. wp_pure.
  apply (wp_myproc_kframe me); [done|]. intros k2 Hf2 Hm2.
  assert (uspace E r T k2) as Hu2.
  { eapply uspace_same; [apply (kframe_fsq _ _ Hf2)|done|done]. }
  change (nz 1) with true. cbv iota. wp_pure. rewrite (us_proc _ _ _ _ Hu2).
  destruct Hu2 as [U1 U2 [t Ht] U4].
  eapply wp_mono; [eapply (copyin_spec k2 T E r t);
    first [done|apply bdata_kmem; unfold BSIZE in *; lia|unfold KERNBASE, BSIZE in *; lia]|].
  assert (∀ j, (j < m)%nat → ∃ b, bs !! (i + j)%nat = Some b ∧
    views T (ram k2) r (src + Z.of_nat i + Z.of_nat j) = Some b) as Hb.
  { intros j Hj. destruct (lookup_lt_is_Some_2 bs (i + j)) as [b Eb]; [lia|]. exists b. split; [done|].
    rewrite (ms_ram _ _ Hm2), Hv. rewrite <-(Hbs (i + j)%nat b Eb). f_equal. lia. }
  intros c k3 [[-> [F1 F2 F3 [F4 F5] F6]]|(_ & j & Hj & _ & Hno)]; cycle 1.
  { destruct (Hb (Z.to_nat j)) as (b & _ & Eb); [lia|]. rewrite Z2Nat.id in Eb by lia. congruence. }
  wp_pure. split_and!; [by etrans|split|done|].
  - split; [done|done|done|]. rewrite <-U4. unfold proc_of. by rewrite (kf_procs _ _ F2).
  - intros r' va. by rewrite F6, (ms_ram _ _ Hm2), Hv.
  - rewrite Nat2Z.id. apply list_eq. intros j. destruct (decide (j < m)%nat) as [Hj|Hj].
    + destruct (Hb j Hj) as (b & Eb & Ev). rewrite lookup_ld_bytes by done.
      rewrite lookup_take_lt, lookup_drop, Eb by done. f_equal.
      specialize (F4 (Z.of_nat j) ltac:(lia)). congruence.
    + rewrite (lookup_ge_None_2 (ld_bytes _ _ _)) by (rewrite length_ld_bytes; lia).
      by rewrite lookup_take_ge by lia.
Qed.

Definition user_source (E : Z → Z) (r : Z) (T : tables) (k0 : kernel) (src : Z) (bs : list Z)
    (Hs : user_has r T k0 src bs) : source me 1 src bs.
Proof.
  refine {| so_at := user_same E r T k0 |}.
  - abstract (intros k k' Hq Hm [Hu Hv]; split;
      [by eapply uspace_same|intros; by rewrite (ms_ram _ _ Hm)]).
  - abstract (intros k d Hd [Hu Hv]; destruct (uspace_bdata E r T k d Hu) as [Hu1 Hv1];
      [unfold BSIZE in *; lia|split; [done|intros; by rewrite Hv1]]).
  - abstract (intros i m k Hrun Hat Hi Hm; by apply (user_in E r T k0 src bs i m k)).
Defined.
(** ** One byte of user memory *)

Lemma uspace_hart E r T k h :
  hart_ok h → lock_free LK_kmem h → lock_free LK_krefs h → uspace E r T k → uspace E r T (upd_hs (λ _, h) k).
Proof.
  intros H1 H2 H3 [[[F Ha] Hwf Hm Htb Hlf Hc Hpt Hw] U2 U3 U4]. split; [|done..]. split; try done.
  exists F. by destruct Ha; split.
Qed.

Lemma kloc_kmem k T E n : n ≤ BSIZE → kmem_ok k T E kloc n.
Proof. intros Hn b Hb Hv. pose proof kloc_range. by destruct (kernel_page b); [lia|]. Qed.

Lemma kloc_kbuf E n : n ≤ BSIZE → kbuf E kloc n.
Proof. intros Hn b Hb [Hv _]. pose proof kloc_range. by destruct (kernel_page b); [lia|]. Qed.

Lemma kloc_small : 0 ≤ kloc ∧ kloc + BSIZE < 2 ^ 64.
Proof.
  pose proof kloc_range. pose proof kend_range. unfold PHYSTOP, KERNBASE, BSIZE in *. lia.
Qed.

Lemma user_byte_in E r T k src b :
  uspace E r T k → 0 ≤ src < 2 ^ 64 → views T (ram k) r src = Some b →
  wp (copyin r kloc src 1) k (λ c k', c = 0 ∧ ldb (ram k') kloc = b ∧ kframe k k' ∧ user_same E r T k k').
Proof.
  intros [U1 U2 [t Ht] U4] Hs Hb. pose proof kloc_small. assert (BSIZE = 1024) by done.
  eapply wp_mono; [eapply (copyin_spec k T E r t); first [done|apply kloc_kmem; lia|lia]|].
  intros c k' [[-> [F1 F2 F3 [F4 F5] F6]]|(_ & i & Hi & _ & Hno)]; cycle 1.
  { replace (src + i) with src in Hno by lia. congruence. }
  split_and!; [done| |done|].
  - specialize (F4 0 ltac:(lia)). rewrite !Z.add_0_r in F4. congruence.
  - split; [|done]. split; [done|done|done|]. rewrite <-U4. unfold proc_of. by rewrite (kf_procs _ _ F2).
Qed.

Lemma user_byte_out E r T0 k0 dst out ch k :
  0 ≤ dst < 2 ^ 64 → user_at E r T0 k0 dst out k →
  wp (copyout r (u64 (dst + Z.of_nat (length out))) kloc 1) (upd_ram (λ m, st_bytes m kloc [ch]) k) (λ c k',
    kframe k k' ∧ (c = 0 ∧ user_at E r T0 k0 dst (out ++ [ch]) k' ∨
      c = -1 ∧ user_at E r T0 k0 dst out k' ∧ stuck T0 (ram k0) r (dst + Z.of_nat (length out)) k')).
Proof.
  intros Hd (T & [U1 U2 U3 U4] & Hv & Hcw). pose proof kloc_small. assert (BSIZE = 1024) as HB by done.
  pose proof kloc_range.
  destruct (kmem_write k T E kloc 1 (λ m, st_bytes m kloc [ch])) as [Hi1 Hv1]; [done|apply kloc_kmem; lia| |].
  { intros a Ha. apply ldb_st_bytes_out. simpl. lia. }
  change 1 with (Z.of_nat (length [ch])). eapply wp_mono; [apply (user_copyout E r T0 k0 dst out [ch] kloc)|].
  - done.
  - exists T. split_and!; [by split| |done]. intros r' va. by rewrite <-Hv, <-Hv1.
  - lia.
  - simpl. lia.
  - intros j b Hj. cbn [ram upd_ram]. rewrite ldb_st_bytes, (proj2 (Z.leb_le _ _)) by lia.
    replace (Z.to_nat (kloc + Z.of_nat j - kloc)) with j by lia. by rewrite Hj.
  - intros c k' [Hf Hc]. split; [etrans; [|exact Hf]; by split|].
    destruct Hc as [?|(-> & i & Hi & Hlt & Hat & Hst)]; [by left|right]. split; [done|].
    rewrite length_app in Hlt. simpl in Hlt. replace i with (length out) in Hat, Hst by lia.
    by rewrite take_app_length in Hat.
Qed.

Lemma uspace_fs E r T f k : uspace E r T k → uspace E r T (upd_fs f k).
Proof. intros [U1 U2 U3 U4]. split; [|done..]. by eapply (minv_same k); [|split|]. Qed.
End user_io.
