(* ===== verification/ProcSpec.v ===== *)
(** * The memory of processes

    What a process owns: a page for its trapframe and a page table that maps
    the trampoline, the trapframe and its user memory.  The process table
    invariant [pinv], and what the functions of proc.c that allocate and free a
    process do to it. *)

From stdpp Require Import gmap list strings.
From Stdlib Require Import ZArith Lia.
From S2P Require Import Prelude Mem Str Params FsData Machine Spinlock Sched Sleeplock Bio Log FsTxn.
From S2P Require Import Kalloc Vm Fs Pipe File Proc PageTable VmWalk VmMap VmSpace VmFree Cow UserView UserCopy.
#[local] Open Scope Z_scope.
Ltac wp_prim ::= wp_proc.

(** ** The page table of a process *)

(** The first virtual page that is not user memory: the trapframe; the
    trampoline is behind it. *)
Definition UPN : Z := vpn TRAPFRAME.
Definition tf_pte (tf : Z) : Z := mkpte tf (Z.lor (Z.lor PTE_R PTE_W) PTE_V).

Section proc_spec.
Context `{OTH : Others, LNK : !Linker, LOK : !LinkerOk, KOB : !Kobj, TXT : !Text}.
Implicit Types (k : kernel) (T : tables) (E : Z → Z).

Definition tramp_pte : Z := mkpte trampoline (Z.lor (Z.lor PTE_R PTE_X) PTE_V).

(** A table with the trapframe [tf] and [sz] bytes of user memory. *)
Record user_pt (t : pgtab) (tf sz : Z) : Prop := {
  up_lim : lim t = UPN;
  up_tf : leaves t !! UPN = Some (tf_pte tf);
  up_tramp : leaves t !! (UPN + 1) = Some tramp_pte;
  up_used : ∀ v, is_Some (leaves t !! v) ↔ 0 ≤ v < npg sz ∨ v = UPN ∨ v = UPN + 1;
  up_sz : 0 ≤ sz ∧ npg sz ≤ UPN;
}.

(** The memory of process [q]. *)
Record pspace T E (q : proc) : Prop := {
  ps_pt : ∃ t, T !! p_pagetable q = Some t ∧ user_pt t (p_trapframe q) (p_sz q);
  ps_valid : valid_page (p_trapframe q);
  ps_tf : E (p_trapframe q) = 1;
  ps_own : refs T (p_trapframe q) = 0;
}.

(** Writing a page that has an owner and that no user can see. *)
Lemma own_write k T E tf f :
  minv k T E → valid_page tf → E tf = 1 → refs T tf = 0 → only_pages (λ x, x = tf) (ram k) (f (ram k)) →
  minv (upd_ram f k) T E ∧ ∀ r va, views T (f (ram k)) r va = views T (ram k) r va.
Proof.
  intros Hi Hv H1 H0 Hop. split.
  - eapply minv_ram; [done|exact Hop|]. intros q -> _. rewrite (mi_cnt _ _ _ Hi) by done.
    destruct (mi_pt _ _ _ Hi tf); lia.
  - apply (views_mem _ _ _ _ Hop); [by intros q ->|]. intros. by eapply minv_leaf_aligned.
Qed.

(** *** Mappings that do not count *)

Lemma leaf_ok_high lm v pa fl :
  pa_ok pa → 0 ≤ fl < 1024 → lm ≤ v → has fl PTE_V = true → has fl PTE_RX = true →
  has fl PTE_U = false → leaf_ok lm v (mkpte pa fl).
Proof.
  intros [Ha Hp] Hf Hl H1 H2 H3.
  assert (∀ m, 0 ≤ m < 1024 → has (mkpte pa fl) m = has fl m) as Hh.
  { intros m Hm. by rewrite has_flags, PTE_FLAGS_mkpte by done. }
  split; try (by rewrite !Hh); try lia. pose proof (mkpte_range pa fl Hp Hf). lia.
Qed.

Lemma mapping_ok_high T E lm v e : leaf_ok lm v e → lm ≤ v → mapping_ok T E lm v e.
Proof. intros He Hl. split; [done|lia..]. Qed.

Lemma trampoline_ok : pa_ok trampoline.
Proof.
  split; [apply trampoline_aligned|]. pose proof trampoline_range. pose proof etext_range.
  pose proof kend_range. Zconst. lia.
Qed.

Lemma tramp_leaf_ok : leaf_ok UPN (UPN + 1) tramp_pte.
Proof. apply leaf_ok_high; [apply trampoline_ok|done|lia|done..]. Qed.

Lemma tf_leaf_ok tf : valid_page tf → leaf_ok UPN UPN (tf_pte tf).
Proof.
  intros Hv. pose proof (valid_pa_ok tf Hv) as Hp.
  apply (leaf_ok_high UPN UPN tf).
  - exact Hp.
  - done.
  - apply Z.le_refl.
  - done.
  - done.
  - done.
Qed.

(** Mappings from [lim] on are not references. *)
Lemma nref_high t pa : (∀ v, v < lim t → leaves t !! v = None) → nref t pa = 0.
Proof.
  intros Hn. apply msum_zero. intros v e He. unfold ind. rewrite decide_False; [done|].
  intros [Hl _]. by rewrite Hn in He.
Qed.

Lemma touch_new T E r t q :
  T !! r = None → (∀ v, v < lim t → leaves t !! v = None) → touch (<[r := t]> T) E q ↔ touch T E q.
Proof.
  intros Hr Hn. unfold touch. rewrite refs_insert_new, nref_high by done. done.
Qed.

Lemma emap_high lm v pa E : lm ≤ v → emap lm v pa E = E.
Proof. intros. unfold emap. by rewrite decide_False by lia. Qed.

(** *** proc_pagetable() *)

(** A new table, in [T] at [r], that has no user memory yet. *)
Definition new_table k T E r t k' : Prop :=
  minv k' (<[r := t]> T) E ∧ kframe k k' ∧ only_pages (touch T E) (ram k) (ram k') ∧
  T !! r = None ∧ lim t = UPN ∧ ∀ v, v < UPN → leaves t !! v = None.

(** Mapping a page of the kernel in it. *)
Lemma map_high n k T E r t k1 va pa perm (Q : Z → kernel → Prop) :
  new_table k T E r t k1 → taken n k k1 → Eok E → aligned va → UPN ≤ vpn va → 0 ≤ va < MAXVA → leaves t !! vpn va = None →
  leaf_ok UPN (vpn va) (mkpte pa (Z.lor perm PTE_V)) →
  (∀ k' t', new_table k T E r t' k' → leaves t' = leaves t → short (n + 2) k → Q (-1) k') →
  (∀ k' t', new_table k T E r t' k' → leaves t' = <[vpn va := mkpte pa (Z.lor perm PTE_V)]> (leaves t) → taken (n + 2) k k' → Q 0 k') →
  wp (mappages r va PGSIZE pa perm) k1 Q.
Proof.
  intros (Hi & Hkf & Hop & Hr & Hlim & Hlow) Htk HE Hal Hu Hva Hnone Hok Hfail Hdone.
  assert (∀ m, only_pages (touch (<[r := t]> T) E) (ram k1) m → only_pages (touch T E) (ram k) m) as Hop'.
  { intros m Hm. eapply only_pages_trans; [exact Hop|]. eapply only_pages_weaken; [|exact Hm].
    intros q. apply touch_new; [done|]. intros v Hv. apply Hlow. lia. }
  eapply wp_mono; [eapply (mappages_page k1 _ E r t); [exact Hi|done|apply lookup_insert_eq|done|done|done|]|].
  { apply mapping_ok_high; rewrite Hlim; done. }
  intros c k' [[-> (t' & Hi' & Hkf' & [_ Gl Gm] & Hop2 & Htk2)]|[-> (t' & Hi' & Hkf' & [_ Gl Gm] & Hop2 & Ho & Htk2)]];
    rewrite insert_insert_eq in Hi'.
  - rewrite emap_high in Hi' by lia. eapply Hdone.
    + split_and!; [exact Hi'|by etrans|by apply Hop'|done|simpl; by rewrite Gm|].
      intros v Hv. rewrite put_leaf_lookup, decide_False by lia. rewrite Gl. by apply Hlow.
    + simpl. by rewrite Gl.
    + by eapply taken_trans.
  - eapply Hfail; [|exact Gl|eapply taken_short; [exact Htk|by apply (taken_short 2 0 _ k'), oom_short]]. split_and!; [exact Hi'|by etrans|by apply Hop'|done|by rewrite Gm|].
    intros v Hv. rewrite Gl. by apply Hlow.
Qed.

(** Giving such a table back. *)
Lemma drop_table {A} k T E r t k1 (a : A) (Q : A → kernel → Prop) :
  new_table k T E r t k1 → Eok E → leaves t = ∅ →
  (∀ k', minv k' T E → kframe k k' → only_pages (touch T E) (ram k) (ram k') → Q a k') →
  wp (uvmfree r 0;; mret a) k1 Q.
Proof.
  intros (Hi & Hkf & Hop & Hr & Hlim & Hlow) HE Hl HQ. apply wp_bind.
  eapply wp_mono; [eapply (uvmfree_spec k1 _ E r t 0); [exact Hi|done|apply lookup_insert_eq|Zconst; lia| |]|].
  - intros v Hv. change (npg 0) with 0 in Hv. lia.
  - intros v [e He]. by rewrite Hl, lookup_empty in He.
  - intros [] k' (Hi' & Hkf' & Hop'). rewrite delete_insert_id in * by done. apply wp_ret.
    apply HQ; [done|by etrans|by eapply only_pages_trans].
Qed.

(** Taking the trampoline out again. *)
Lemma unmap_high {A} k T E r t k1 va (kont : K A) Q :
  new_table k T E r t k1 → Eok E → aligned va → UPN ≤ vpn va → 0 ≤ va → va + PGSIZE ≤ MAXVA →
  is_Some (leaves t !! vpn va) →
  (∀ k' t', new_table k T E r t' k' → leaves t' = delete (vpn va) (leaves t) → wp kont k' Q) →
  wp (uvmunmap r va 1 false;; kont) k1 Q.
Proof.
  intros (Hi & Hkf & Hop & Hr & Hlim & Hlow) HE Hal Hu Hva Hva' Hsome HQ. apply wp_bind.
  eapply wp_mono; [eapply (uvmunmap_spec k1 _ E r t); [exact Hi|done|apply lookup_insert_eq|done|done|done|lia|]|].
  { intros v Hv. assert (v = vpn va) as -> by lia. split; [done|by rewrite Hlim]. }
  intros ? k' (Hi' & Hkf' & Hop'). rewrite insert_insert_eq in *.
  set (t' := clear_range _ _ t) in *.
  assert (∀ v, v < UPN → leaves t' !! v = None) as Hlow'.
  { intros v Hv. unfold t'. rewrite clear_range_lookup. case_decide; [done|by apply Hlow]. }
  apply (HQ k' t').
  - split_and!; [done|by etrans| |done|done|done]. eapply only_pages_trans; [exact Hop|].
    eapply only_pages_weaken; [|exact Hop']. intros q. apply touch_new; [done|].
    intros v Hv. apply Hlow'. change (lim t') with (lim t) in Hv. lia.
  - apply map_eq. intros v. unfold t'. rewrite clear_range_lookup.
    destruct (decide (v = vpn va)) as [->|Hne].
    + by rewrite lookup_delete_eq, decide_True by lia.
    + by rewrite lookup_delete_ne, decide_False by lia.
Qed.

Lemma vpn_tramp : vpn TRAMPOLINE = UPN + 1.
Proof. done. Qed.

Lemma proc_pagetable_spec k T E p :
  let tf := p_trapframe (proc_of k p) in
  minv k T E → Eok E → valid_page tf →
  wp (proc_pagetable p) k (λ r k', kframe k k' ∧ only_pages (touch T E) (ram k) (ram k') ∧
    (r = 0 ∧ minv k' T E ∧ short 5 k ∨
     r ≠ 0 ∧ T !! r = None ∧ taken 5 k k' ∧ ∃ t, user_pt t tf 0 ∧ minv k' (<[r := t]> T) E)).
Proof.
  intros tf Hi HE Hv. unfold proc_pagetable. apply wp_bind.
  eapply wp_mono; [by apply (uvmcreate_spec UPN); [..|by vm_compute]|].
  intros r k1 [Hkf1 [(-> & Hi1 & Er & Hsh)|(Hr0 & Hr & Hi1 & Hop1 & Htk1)]].
  { apply wp_ret. rewrite Er. split_and!; [done|apply only_pages_refl|left]. split_and!; [done|done|]. apply (short_le 0); [lia|done]. }
  destruct (Z.eqb_spec r 0) as [|_]; [done|].
  assert (new_table k T E r (empty_pt r UPN) k1) as H1.
  { by split_and!. }
  apply wp_bind. eapply (map_high 1 k T E); [exact H1|exact Htk1|done|by vm_compute|by vm_compute|Zconst; lia|apply lookup_empty| | |].
  { apply tramp_leaf_ok. }
  { intros k2 t2 H2 El Hsh. change (-1 <? 0) with true. cbv iota. eapply drop_table; [exact H2|done|done|].
    intros k' Hi' Hkf Hop. split_and!; [done|done|left]. split_and!; [done|done|]. apply (short_le 3); [lia|done]. }
  intros k2 t2 H2 El Htk2. change (0 <? 0) with false. cbv iota. apply wp_bind, wp_get_proc.
  assert (p_trapframe (proc_of k2 p) = tf) as ->.
  { destruct H2 as (_ & Hkf & _). unfold tf, proc_of. by rewrite (kf_procs _ _ Hkf). }
  apply wp_bind. rewrite vpn_tramp in El.
  eapply (map_high 3 k T E); [exact H2|exact Htk2|done|by vm_compute|by vm_compute|Zconst; lia| | | |].
  { fold UPN. rewrite El, lookup_insert_ne by lia. apply lookup_empty. }
  { by apply tf_leaf_ok. }
  { intros k3 t3 H3 El3 Hsh. change (-1 <? 0) with true. cbv iota.
    eapply unmap_high; [exact H3|done|by vm_compute|by vm_compute|Zconst; lia|Zconst; lia| |].
    - rewrite vpn_tramp, El3, El, lookup_insert_eq. done.
    - intros k4 t4 H4 El4. eapply drop_table; [exact H4|done| |].
      + rewrite El4, El3, El, vpn_tramp. by rewrite delete_insert_id.
      + intros k' Hi' Hkf Hop. split_and!; [done|done|left]. by split_and!. }
  intros k3 t3 H3 El3 Htk3. change (0 <? 0) with false. cbv iota. apply wp_ret. fold UPN in El3.
  destruct H3 as (Hi3 & Hkf3 & Hop3 & _ & Hlim & Hlow). split_and!; [done|done|right].
  split_and!; [done|done|done|]. exists t3. split; [|done]. rewrite El in El3.
  assert (∀ v, leaves t3 !! v = if decide (v = UPN) then Some (tf_pte tf) else
                                if decide (v = UPN + 1) then Some tramp_pte else None) as Hlk.
  { intros v. rewrite El3. destruct (decide (v = UPN)) as [->|]; [by rewrite lookup_insert_eq|].
    rewrite lookup_insert_ne by done. destruct (decide (v = UPN + 1)) as [->|]; [by rewrite lookup_insert_eq|].
    rewrite lookup_insert_ne by done. apply lookup_empty. }
  split; [done|by rewrite Hlk, decide_True|by rewrite Hlk, decide_False, decide_True by lia| |by vm_compute].
  intros v. rewrite Hlk. change (npg 0) with 0. repeat case_decide; split; intros Hx; try lia; try done; by destruct Hx.
Qed.

(** ** freeproc() *)

Lemma touch_delete T E r t t' q :
  T !! r = Some t → touch (<[r := t']> T) E q → touch (delete r T) E q.
Proof.
  intros Hr (Hv & H0 & HE). split_and!; [done| |done].
  rewrite (refs_insert _ _ t) in H0 by done. pose proof (refs_nonneg (delete r T) q) as H1.
  rewrite (refs_delete _ _ t) in * by done. pose proof (nref_nonneg t' q). lia.
Qed.

Lemma proc_freepagetable_spec k T E r t tf sz :
  minv k T E → Eok E → T !! r = Some t → user_pt t tf sz →
  wp (proc_freepagetable r sz) k (λ _ k',
    minv k' (delete r T) E ∧ kframe k k' ∧ only_pages (touch (delete r T) E) (ram k) (ram k')).
Proof.
  intros Hi HE Hr [Hlim Htf Htr Hused [Hsz Hn]]. unfold proc_freepagetable. apply wp_bind.
  eapply wp_mono; [eapply (uvmunmap_spec k T E r t); [done..|by vm_compute|Zconst; lia|lia|Zconst; lia|]|].
  { rewrite vpn_tramp. intros v Hv. assert (v = UPN + 1) as -> by lia. rewrite Htr, Hlim. split; [done|lia]. }
  rewrite vpn_tramp. intros [] k1 (Hi1 & Hkf1 & Hop1). set (t1 := clear_range _ _ t) in *. apply wp_bind.
  eapply wp_mono; [eapply (uvmunmap_spec k1 _ E r t1); [exact Hi1|done|apply lookup_insert_eq|by vm_compute|Zconst; lia|lia|Zconst; lia|]|].
  { fold UPN. intros v Hv. assert (v = UPN) as -> by lia. unfold t1. rewrite clear_range_lookup, decide_False by lia.
    rewrite Htf. split; [done|]. simpl. lia. }
  fold UPN. intros [] k2 (Hi2 & Hkf2 & Hop2). set (t2 := clear_range _ _ t1) in *. rewrite insert_insert_eq in *.
  assert (∀ v, leaves t2 !! v = if decide (v < UPN) then leaves t !! v else None) as Hlk.
  { intros v. unfold t2, t1. rewrite !clear_range_lookup. repeat case_decide; try done; try lia.
    destruct (leaves t !! v) eqn:Ev; [|done]. pose proof (proj1 (Hused v) ltac:(by eexists)). lia. }
  eapply wp_mono; [eapply (uvmfree_spec k2 _ E r t2); [exact Hi2|done|apply lookup_insert_eq| | |]|].
  - change MAXVA with (UPN * PGSIZE + 2 * PGSIZE). unfold npg in Hn.
    pose proof (Z.div_mod (sz + PGSIZE - 1) PGSIZE). pose proof (Z.mod_pos_bound (sz + PGSIZE - 1) PGSIZE). unfold PGSIZE in *. lia.
  - intros v Hv. rewrite Hlk, decide_True by lia. split; [apply Hused; lia|]. simpl. lia.
  - intros v. rewrite Hlk. case_decide as Hd; [|by intros []]. intros Hs. apply Hused in Hs. lia.
  - intros [] k3 (Hi3 & Hkf3 & Hop3). rewrite delete_insert_eq in *. split_and!; [done|by etrans; [|etrans]|].
    eapply only_pages_trans; [|eapply only_pages_trans]; [| |exact Hop3]; eapply only_pages_weaken;
      [|exact Hop1| |exact Hop2]; intros q; by eapply touch_delete.
Qed.

(** What freeproc() makes of a slot. *)
Definition freed (q : proc) : proc :=
  mkProc UNUSED None 0 0 0 None (p_kstack q) 0 0 0 (p_context q) (p_ofile q) (p_cwd q) (<[0%nat := 0]> (p_name q)).

(** The memory of a slot, and what the system has without it: a process that
    is being created has only part of it. *)
Definition slot_tf E (tf : Z) E' : Prop :=
  tf = 0 ∧ E' = E ∨ valid_page tf ∧ E tf = 1 ∧ E' = eadd E tf (-1).
Definition slot_pt T (r tf sz : Z) T' : Prop :=
  r = 0 ∧ T' = T ∨ ∃ t, T !! r = Some t ∧ user_pt t tf sz ∧ T' = delete r T.

Lemma kframe_procs g k k' : kframe k k' → kframe (upd_procs g k) (upd_procs g k').
Proof. intros []. split; try done. simpl. congruence. Qed.

Lemma Eok_drop E p : Eok E → E p = 1 → Eok (eadd E p (-1)).
Proof. intros HE Hp q. unfold eadd. specialize (HE q). case_decide; subst; lia. Qed.

(** The steps of freeproc() that give memory back. *)
Lemma free_slot_tf k T E tf E' :
  minv k T E → Eok E → slot_tf E tf E' →
  Eok E' ∧ wp (when (nz tf) (kfree tf)) k (λ _ k', kframe k k' ∧ minv k' T E' ∧
    only_pages (touch T E') (ram k) (ram k')).
Proof.
  intros Hi HE [[-> ->]|(Hv & H1 & ->)].
  { split; [done|]. apply wp_ret. split_and!; [done|done|apply only_pages_refl]. }
  split; [by apply Eok_drop|]. pose proof (valid_nonzero _ Hv). unfold nz.
  destruct (Z.eqb_spec tf 0); [done|]. simpl negb. unfold when.
  pose proof (refs_nonneg T tf). pose proof (npt_nonneg T tf).
  pose proof (mi_cnt _ _ _ Hi tf Hv) as Hc. destruct (mi_pt _ _ _ Hi tf) as [Hn|]; [|lia].
  eapply wp_mono; [apply kfree_minv; [done|done|lia|done]|].
  intros [] k' [[Hkf _ _ Hop] Hi']. split_and!; [done|done|].
  eapply only_pages_weaken; [|exact Hop]. intros q [-> Hcnt]. split_and!; [done|lia|].
  unfold eadd. rewrite decide_True by done. lia.
Qed.

Lemma free_slot_pt k T E p r tf T' :
  minv k T E → Eok E → slot_pt T r tf (p_sz (proc_of k p)) T' →
  wp (when (nz r) (sz ← get_proc p p_sz; proc_freepagetable r sz)) k (λ _ k', kframe k k' ∧
    minv k' T' E ∧ only_pages (touch T' E) (ram k) (ram k')).
Proof.
  intros Hi HE [[-> ->]|(t & Ht & Hu & ->)].
  { apply wp_ret. split_and!; [done|done|apply only_pages_refl]. }
  pose proof (mi_tabs _ _ _ Hi _ _ _ _ Ht (wf_root _ _ (mi_wf _ _ _ Hi _ _ Ht))) as Hv.
  pose proof (valid_nonzero _ Hv). unfold nz. destruct (Z.eqb_spec r 0); [done|]. simpl negb. unfold when.
  apply wp_bind, wp_get_proc. eapply wp_mono; [eapply proc_freepagetable_spec; [exact Hi|done|done|exact Hu]|].
  by intros [] k2 (? & ? & ?).
Qed.

Lemma touch_slot T E r tf sz T' q : slot_pt T r tf sz T' → touch T E q → touch T' E q.
Proof.
  intros [[-> ->]|(t & Ht & _ & ->)]; [done|]. rewrite <-(insert_id T r t) at 1 by done.
  by eapply touch_delete.
Qed.

Lemma proc_of_lookup k p q : procs k !! p = Some q → proc_of k p = q.
Proof. intros H. unfold proc_of. by rewrite H. Qed.

Lemma minv_procs g k T E : minv k T E → minv (upd_procs g k) T E.
Proof. intros Hi. by eapply (minv_same k). Qed.

Lemma freeproc_spec k T E p q T' E' :
  minv k T E → Eok E → procs k !! p = Some q → slot_tf E (p_trapframe q) E' →
  slot_pt T (p_pagetable q) (p_trapframe q) (p_sz q) T' →
  wp (freeproc p) k (λ _ k', kframe (upd_procs (alter freed p) k) k' ∧ minv k' T' E' ∧
    only_pages (touch T' E') (ram k) (ram k')).
Proof.
  intros Hi HE Hq Htf Hpt. unfold freeproc. apply wp_bind, wp_get_proc. rewrite (proc_of_lookup _ _ _ Hq).
  destruct (free_slot_tf k T E _ E' Hi HE Htf) as [HE' Hw]. apply wp_bind.
  eapply wp_mono; [exact Hw|]. intros [] k1 (Hkf1 & Hi1 & Hop1).
  apply wp_bind, wp_set_proc. apply wp_bind, wp_get_proc.
  assert (proc_of (upd_procs (alter (upd_p_trapframe (λ _, 0)) p) k1) p = upd_p_trapframe (λ _, 0) q) as Hp.
  { apply proc_of_lookup. simpl. by rewrite list_lookup_alter_eq, (kf_procs _ _ Hkf1), Hq. }
  rewrite Hp. change (p_pagetable (upd_p_trapframe (λ _, 0) q)) with (p_pagetable q).
  apply wp_bind. eapply wp_mono; [eapply free_slot_pt; [by apply minv_procs|done|rewrite Hp; exact Hpt]|].
  intros [] k2 (Hkf2 & Hi2 & Hop2). wp_pure. split_and!.
  - destruct Hkf1 as [F1 F2 F3 F4 F5 F6 F7 F8], Hkf2 as [G1 G2 G3 G4 G5 G6 G7 G8]. simpl in *.
    split; simpl; try congruence; [by etrans|]. rewrite G2, F2, !list_alter_alter_eq. done.
  - by do 9 apply minv_procs.
  - simpl. eapply only_pages_trans; [|exact Hop2]. eapply only_pages_weaken; [|exact Hop1].
    intros a. by eapply touch_slot.
Qed.

(** ** The process table *)

(** Every slot in use has its own memory; a slot that is not has none. *)
Record pinv T E (ps : list proc) : Prop := {
  pi_len : length ps = Z.to_nat NPROC;
  pi_unused : ∀ i q, ps !! i = Some q → p_state q = UNUSED →
    p_pagetable q = 0 ∧ p_trapframe q = 0 ∧ p_sz q = 0;
  pi_used : ∀ i q, ps !! i = Some q → p_state q ≠ UNUSED → pspace T E q;
  pi_files : ∀ i q, ps !! i = Some q → length (p_ofile q) = Z.to_nat NOFILE ∧
    (p_state q = UNUSED ∨ p_state q = ZOMBIE → p_ofile q = replicate (Z.to_nat NOFILE) None);
  pi_apart : ∀ i j q q', ps !! i = Some q → ps !! j = Some q' → i ≠ j →
    p_state q ≠ UNUSED → p_state q' ≠ UNUSED →
    p_pagetable q ≠ p_pagetable q' ∧ p_trapframe q ≠ p_trapframe q';
}.

(** Changing one slot. *)
Lemma pinv_upd T E T' E' ps p q' :
  pinv T E ps →
  (∀ j q, ps !! j = Some q → j ≠ p → p_state q ≠ UNUSED → pspace T' E' q ∧
    (p_state q' ≠ UNUSED → p_pagetable q ≠ p_pagetable q' ∧ p_trapframe q ≠ p_trapframe q')) →
  (p_state q' = UNUSED → p_pagetable q' = 0 ∧ p_trapframe q' = 0 ∧ p_sz q' = 0) →
  (p_state q' ≠ UNUSED → pspace T' E' q') →
  length (p_ofile q') = Z.to_nat NOFILE →
  (p_state q' = UNUSED ∨ p_state q' = ZOMBIE → p_ofile q' = replicate (Z.to_nat NOFILE) None) →
  pinv T' E' (<[p := q']> ps).
Proof.
  intros [P1 P2 P3 P4 P5] Hj Hu Hs Hl Hf. split.
  - by rewrite length_insert.
  - intros i q [(-> & <- & _)|[_ Hq]]%list_lookup_insert_Some; [done|by eapply P2].
  - intros i q [(-> & <- & _)|[Hne Hq]]%list_lookup_insert_Some; [done|]. intros. by eapply Hj.
  - intros i q [(-> & <- & _)|[_ Hq]]%list_lookup_insert_Some; [done|by eapply P4].
  - intros i j q1 q2 [(-> & <- & _)|[H1 Hq1]]%list_lookup_insert_Some [(-> & <- & _)|[H2 Hq2]]%list_lookup_insert_Some Hne Hu1 Hu2;
      [done| | |by eapply P5].
    + destruct (Hj j q2 Hq2 ltac:(done) Hu2) as [_ Ha]. destruct (Ha Hu1). split; congruence.
    + destruct (Hj i q1 Hq1 ltac:(done) Hu1) as [_ Ha]. by apply Ha.
Qed.

(** *** allocproc() *)

Definition no_unused (ps : list proc) (n : nat) : Prop :=
  ∀ i q, (i < n)%nat → ps !! i = Some q → p_state q ≠ UNUSED.

(** Memory does not depend on the other locks. *)
Lemma minv_locks k k' T E :
  minv k T E → mem_same k k' → hart_ok (hs k') → lock_free LK_kmem (hs k') → lock_free LK_krefs (hs k') →
  minv k' T E.
Proof.
  intros [[F Ha] Hwf Hm Htb Hlf Hc Hpt Hw] [M1 M2 M3] H1 H2 H3. split; try done.
  - exists F. destruct Ha. split; rewrite ?M1, ?M2; try done; unfold cnt; by rewrite M3.
  - by rewrite M1.
  - intros pa Hv. unfold cnt. rewrite M3. by apply Hc.
Qed.

(** The slots in use are the same. *)
Definition used_same (ps ps' : list proc) : Prop :=
  length ps' = length ps ∧ ∀ i q q', ps !! i = Some q → ps' !! i = Some q' →
    (p_state q ≠ UNUSED → q' = q) ∧ (p_state q = UNUSED → p_state q' = UNUSED).

Lemma used_same_upd ps p q q' :
  ps !! p = Some q → p_state q = UNUSED → p_state q' = UNUSED → used_same ps (<[p := q']> ps).
Proof.
  intros Hq Hu Hu'. split; [by rewrite length_insert|]. intros i x x' Hx.
  intros [(<- & <- & _)|[_ Hx']]%list_lookup_insert_Some; simplify_eq; done.
Qed.

(** A slot that allocproc() has filled. *)
Definition allocated (q : proc) (pid tf r : Z) : proc :=
  mkProc USED (p_chan q) (p_killed q) (p_xstate q) pid (p_parent q) (p_kstack q) (p_sz q) r tf
    (mkContext forkret_addr (u64 (p_kstack q + PGSIZE)) (replicate 12 0)) (p_ofile q) (p_cwd q) (p_name q).

Section allocproc.
Context (me : nat) (k : kernel) (Hc : calm me (hs k)) (Hlen : length (procs k) = Z.to_nat NPROC).

Lemma allocproc_slot_spec :
  wp allocproc_slot k (λ o k', match o with
    | None => ∃ h, hs_eq h (hs k) ∧ k' = upd_hs (λ _, h) k ∧ no_unused (procs k) 64
    | Some p => ∃ h q, hs_eq h (acq (LK_proc p) (hs k)) ∧ k' = upd_hs (λ _, h) k ∧
        procs k !! p = Some q ∧ p_state q = UNUSED ∧ no_unused (procs k) p
    end).
Proof.
  unfold allocproc_slot. change (Z.to_nat NPROC) with 64%nat in Hlen.
  apply (wp_loop _ (λ p k', (p ≤ 64)%nat ∧ no_unused (procs k) p ∧ ∃ h, hs_eq h (hs k) ∧ k' = upd_hs (λ _, h) k)
    (λ p _, 64 - Z.of_nat p)).
  - intros p k' (Hp & Hn & h & Hh & ->). unfold NPROC. case_cmp; cycle 1.
    { apply wp_break. exists h. split_and!; [done|done|]. by replace 64%nat with p by lia. }
    destruct (lookup_lt_is_Some_2 (procs k) p) as [q Hq]; [lia|].
    assert (calm me h) as Hch by (by rewrite Hh).
    apply wp_bind, (wp_enter _ me); [done|]. apply wp_bind, wp_get_proc.
    rewrite (proc_of_lookup _ _ q) by done. case_bool_decide as Hst.
    + apply wp_break. exists (acq (LK_proc p) h), q. split_and!; try done. apply acq_proper; [apply Hch|done].
    + apply wp_bind, (wp_leave _ me h); [done|done|]. intros h' Hh'. apply wp_continue. split; [|lia].
      split_and!; [lia| |].
      * intros i q' Hi Hq'. destruct (decide (i = p)) as [->|]; [by simplify_eq|]. apply (Hn i); [lia|done].
      * exists h'. split; [by etrans|done].
  - split_and!; [lia|by intros ? ? ?; lia|]. exists (hs k). by destruct k.
  - lia.
Qed.

(** allocpid(), under the lock of the new process. *)
Lemma allocpid_spec h k1 :
  hart_ok h → lock_free LK_pid h → hs_eq (hs k1) h →
  wp allocpid k1 (λ pid k', pid = nextpid k1 ∧ ∃ h', hs_eq h' h ∧
    k' = upd_hs (λ _, h') (upd_nextpid (λ n, s32 (n + 1)) k1)).
Proof.
  intros Hok Hf He. unfold allocpid. apply wp_bind, wp_acquire; [by rewrite He..|]. wp_pure.
  apply (wp_release_eq _ h); [done|done|by apply acq_proper; [rewrite He|]|]. intros h' Hh'. wp_pure.
  split; [done|]. exists h'. done.
Qed.

(** The state with slot [p] as [q], its lock held. *)
Definition in_slot (p : nat) (q : proc) : kernel :=
  upd_hs (acq (LK_proc p)) (upd_procs <[p := q]> (upd_nextpid (λ n, s32 (n + 1)) k)).
Definition out_slot (p : nat) (q : proc) : kernel :=
  upd_procs <[p := q]> (upd_nextpid (λ n, s32 (n + 1)) k).

Lemma in_slot_set p q f k' :
  (p < length (procs k))%nat → kframe (in_slot p q) k' → kframe (in_slot p (f q)) (upd_procs (alter f p) k').
Proof.
  intros Hp [F1 F2 F3 F4 F5 F6 F7 F8]. split; try done. simpl in *. rewrite F2.
  apply list_eq. intros i. rewrite list_lookup_alter. case_decide as Hi; subst.
  - by rewrite !list_lookup_insert_eq by done.
  - by rewrite !list_lookup_insert_ne by done.
Qed.

Lemma in_slot_lookup p q k' : (p < length (procs k))%nat → kframe (in_slot p q) k' → procs k' !! p = Some q.
Proof. intros Hp Hf. rewrite (kf_procs _ _ Hf). by apply list_lookup_insert_eq. Qed.

Lemma slot_lt p q : procs k !! p = Some q → (p < length (procs k))%nat.
Proof. apply lookup_lt_Some. Qed.

(** Leaving the critical section of the slot. *)
Lemma leave_slot p q k1 (Q : unit → kernel → Prop) :
  kframe (in_slot p q) k1 →
  (∀ h, hs_eq h (hs k) → kframe (out_slot p q) (upd_hs (λ _, h) k1) → Q tt (upd_hs (λ _, h) k1)) →
  wp (release (LK_proc p)) k1 Q.
Proof.
  intros [F1 F2 F3 F4 F5 F6 F7 F8] HQ. apply (wp_leave _ me (hs k)); [done|done|].
  intros h Hh. apply HQ; [done|]. by split.
Qed.

Lemma minv_out k1 h T E :
  hs_eq h (hs k) → minv k1 T E → minv (upd_hs (λ _, h) k1) T E.
Proof. intros Hh Hi. destruct Hc as [H1 H2 H3 H4]. eapply minv_locks; [done|done|by simpl; rewrite Hh..]. Qed.

(** A slot is given up again. *)
Lemma undo_slot {A} p q1 k1 T1 E1 T2 E2 (a : A) Q :
  (p < length (procs k))%nat → kframe (in_slot p q1) k1 → minv k1 T1 E1 → Eok E1 →
  slot_tf E1 (p_trapframe q1) E2 → slot_pt T1 (p_pagetable q1) (p_trapframe q1) (p_sz q1) T2 →
  (∀ k', kframe (out_slot p (freed q1)) k' → minv k' T2 E2 → only_pages (touch T2 E2) (ram k1) (ram k') → Q a k') →
  wp (freeproc p;; release (LK_proc p);; mret a) k1 Q.
Proof.
  intros Hp Hf Hi HE Htf Hpt HQ. apply wp_bind.
  eapply wp_mono; [eapply freeproc_spec; [done|done|by eapply in_slot_lookup|done|done]|].
  intros [] k2 (Hf2 & Hi2 & Hop2). apply wp_bind, (leave_slot p (freed q1)).
  - etrans; [|exact Hf2]. by apply in_slot_set.
  - intros h Hh Hf3. apply wp_ret. apply HQ; [done|by apply minv_out|done].
Qed.

Context (T : tables) (E : Z → Z) (Hi : minv k T E) (HE : Eok E) (Hp : pinv T E (procs k)).

(** allocproc() returns 0, for want of a slot or of six pages: no slot in use
    has changed. *)
Definition alloc_failed (k' : kernel) : Prop :=
  ∃ ps n, kframe (upd_procs (λ _, ps) (upd_nextpid (λ _, n) k)) k' ∧ minv k' T E ∧ pinv T E ps ∧
    used_same (procs k) ps ∧ only_pages (touch T E) (ram k) (ram k') ∧ (no_unused (procs k) 64 ∨ short 6 k).

(** It returns slot [p], with its lock held. *)
Record alloc_done (p : nat) (q : proc) (tf r : Z) (t : pgtab) (k' : kernel) : Prop := {
  ad_slot : procs k !! p = Some q ∧ p_state q = UNUSED ∧ no_unused (procs k) p;
  ad_frame : kframe (in_slot p (allocated q (nextpid k) tf r)) k';
  ad_minv : minv k' (<[r := t]> T) (eadd E tf 1);
  ad_new : T !! r = None ∧ r ≠ 0;
  ad_tf : valid_page tf ∧ touch T E tf;
  ad_pt : user_pt t tf 0;
  ad_ram : only_pages (touch T E) (ram k) (ram k');
  ad_taken : taken 6 k k';
}.

Lemma freed_pinv p q q1 :
  procs k !! p = Some q → p_state q = UNUSED → p_ofile q1 = p_ofile q → pinv T E (<[p := freed q1]> (procs k)).
Proof.
  intros Hq Hu Ho. eapply pinv_upd; [exact Hp| | | | |].
  - intros j x Hx _ Hxu. split; [by eapply (pi_used _ _ _ Hp)|done].
  - done.
  - done.
  - simpl. rewrite Ho. by eapply (pi_files _ _ _ Hp).
  - intros _. simpl. rewrite Ho. destruct (pi_files _ _ _ Hp p q Hq) as [_ H]. apply H. by left.
Qed.

Lemma alloc_undo {A} p q q1 k1 E1 (a : A) (Q : A → kernel → Prop) :
  procs k !! p = Some q → p_state q = UNUSED → p_ofile q1 = p_ofile q → p_pagetable q1 = 0 →
  kframe (in_slot p q1) k1 → minv k1 T E1 → Eok E1 →
  (∃ E2, slot_tf E1 (p_trapframe q1) E2 ∧ ∀ x, E2 x = E x) → only_pages (touch T E) (ram k) (ram k1) → short 6 k →
  (∀ k', alloc_failed k' → Q a k') →
  wp (freeproc p;; release (LK_proc p);; mret a) k1 Q.
Proof.
  intros Hq Hu Ho Hpt Hf Hi1 HE1 (E2 & Htf & H2) Hop Hsh HQ.
  eapply (undo_slot p q1 k1 T E1 T E2); [by eapply slot_lt|done|done|done|done|by left|].
  intros k' Hf' Hi' Hop'. apply HQ. exists (<[p := freed q1]> (procs k)), (s32 (nextpid k + 1)). split_and!.
  - done.
  - by eapply minv_ext.
  - by eapply freed_pinv.
  - by eapply used_same_upd.
  - eapply only_pages_trans; [exact Hop|]. eapply only_pages_weaken; [|exact Hop'].
    intros x (? & ? & ?). split_and!; [done|done|by rewrite <-H2].
  - by right.
Qed.

(** The part of allocproc() behind each allocation. *)
Definition alloc_post (o : option nat) (k' : kernel) : Prop :=
  match o with
  | None => alloc_failed k'
  | Some p => ∃ q tf r t, alloc_done p q tf r t k'
  end.

Section alloc_steps.
Context (p : nat) (q : proc) (Hq : procs k !! p = Some q) (Hu : p_state q = UNUSED) (Hn : no_unused (procs k) p).

Definition with_pid : proc := upd_p_state (λ _, USED) (upd_p_pid (λ _, nextpid k) q).
Definition with_tf (tf : Z) : proc := upd_p_trapframe (λ _, tf) with_pid.

Lemma alloc_pt tf k1 :
  valid_page tf → touch T E tf → kframe (in_slot p (with_tf tf)) k1 → minv k1 T (eadd E tf 1) →
  only_pages (touch T E) (ram k) (ram k1) → taken 1 k k1 →
  wp (pt ← proc_pagetable p;
      set_proc p (upd_p_pagetable (λ _, pt));;
      if pt =? 0 then freeproc p;; release (LK_proc p);; mret None else
      kstack ← get_proc p p_kstack;
      set_proc p (upd_p_context (λ _, mkContext 0 0 (replicate 12 0)));;
      set_proc p (upd_p_context (λ c, mkContext forkret_addr (ctx_sp c) (ctx_s c)));;
      set_proc p (upd_p_context (λ c, mkContext (ctx_ra c) (u64 (kstack + PGSIZE)) (ctx_s c)));;
      mret (Some p)) k1 alloc_post.
Proof.
  intros Hv Htouch Hf1 Hi1 Hop1 Htk1. pose proof (slot_lt _ _ Hq) as Hlt. pose proof Htouch as (_ & _ & HE0).
  assert (Eok (eadd E tf 1)) as HE2 by (by apply Eok_eadd).
  assert (p_trapframe (proc_of k1 p) = tf) as Etf by (by erewrite proc_of_lookup by (by eapply in_slot_lookup)).
  apply wp_bind. eapply wp_mono; [apply (proc_pagetable_spec k1 T (eadd E tf 1)); [done|done|by rewrite Etf]|].
  rewrite Etf. intros r k3 (Hkf3 & Hop3 & Hz3). apply wp_bind, wp_set_proc. set (k3' := upd_procs _ k3).
  set (q3 := upd_p_pagetable (λ _, r) (with_tf tf)).
  assert (kframe (in_slot p q3) k3') as Hf3 by (apply (in_slot_set p (with_tf tf)); [done|by etrans]).
  assert (only_pages (touch T E) (ram k) (ram k3')) as Hop.
  { eapply only_pages_trans; [exact Hop1|]. eapply only_pages_weaken; [|exact Hop3]. intros x. by apply touch_eadd. }
  destruct Hz3 as [(-> & Hi3 & Hsh)|(Hr & Hrn & Htk3 & t & Ht & Hi3)].
  { simpl Z.eqb. cbv iota. eapply (alloc_undo p q q3 k3' (eadd E tf 1)); try done.
    - by apply minv_procs.
    - exists (eadd (eadd E tf 1) tf (-1)). split; [|by apply (eadd_back E tf 1)]. right. split_and!; [done| |done].
      unfold eadd. simpl. rewrite decide_True by done. lia.
    - by apply (taken_short 1 5 _ k1). }
  destruct (Z.eqb_spec r 0) as [|_]; [done|]. apply wp_bind, wp_get_proc. wp_pure.
  exists q, tf, r, t. split; try done.
  - erewrite proc_of_lookup by (by eapply in_slot_lookup).
    change (allocated q (nextpid k) tf r) with
      (upd_p_context (λ c, mkContext (ctx_ra c) (u64 (p_kstack q + PGSIZE)) (ctx_s c))
        (upd_p_context (λ c, mkContext forkret_addr (ctx_sp c) (ctx_s c))
          (upd_p_context (λ _, mkContext 0 0 (replicate 12 0)) q3))).
    by do 3 (apply in_slot_set; [done|]).
  - by do 4 apply minv_procs.
  - by apply (taken_trans 1 5 _ k1).
Qed.

Lemma alloc_tf k1 (kont : K (option nat)) :
  kframe (in_slot p with_pid) k1 → minv k1 T E → ram k1 = ram k → krefs k1 = krefs k →
  (∀ tf k2, valid_page tf → touch T E tf → kframe (in_slot p (with_tf tf)) k2 → minv k2 T (eadd E tf 1) →
    only_pages (touch T E) (ram k) (ram k2) → taken 1 k k2 → wp kont k2 alloc_post) →
  wp (tf ← kalloc;
      set_proc p (upd_p_trapframe (λ _, tf));;
      if tf =? 0 then freeproc p;; release (LK_proc p);; mret None else kont) k1 alloc_post.
Proof.
  intros Hf1 Hi1 Er Ek Hk. pose proof (slot_lt _ _ Hq) as Hlt. apply wp_bind. eapply wp_mono; [by apply kalloc_minv|].
  intros tf k2 [Hkf2 Hz]. apply wp_bind, wp_set_proc. set (k2' := upd_procs _ k2).
  assert (kframe (in_slot p (with_tf tf)) k2') as Hf2 by (apply (in_slot_set p with_pid); [done|by etrans]).
  destruct (pi_unused _ _ _ Hp p q Hq Hu) as (U1 & U2 & U3).
  assert (∀ pa, cnt k1 pa = cnt k pa) as Ec by (intros pa; unfold cnt; by rewrite Ek).
  destruct Hz as [(Htf0 & Hi2 & Er2 & _ & Ho)|(Hv & H0 & Hi2 & Hc2 & Hop2 & _)].
  { rewrite Htf0. simpl Z.eqb. cbv iota. eapply (alloc_undo p q (with_tf tf) k2' E); try done.
    - by apply minv_procs.
    - exists E. split; [by left|done].
    - simpl. rewrite Er2, Er. apply only_pages_refl.
    - apply (short_le 0); [lia|]. apply oom_short. intros pa Hpa. rewrite <-Ec. by apply Ho. }
  pose proof (valid_nonzero _ Hv). destruct (Z.eqb_spec tf 0) as [|_]; [done|].
  destruct (fresh_facts _ _ _ _ Hi1 HE Hv H0) as (Hn0 & Hr0 & HE0).
  assert (touch T E tf) as Htouch by (by split_and!).
  apply (Hk tf k2'); [done|done|done|by apply minv_procs| |].
  - simpl. rewrite <-Er. eapply only_pages_weaken; [|exact Hop2]. by intros ? ->.
  - apply (taken_page _ _ tf). intros pa Hpa Hne. rewrite <-Ec. change (cnt k2 pa = cnt k1 pa).
    rewrite Hc2 by (by apply valid_ram). by rewrite decide_False by congruence.
Qed.
End alloc_steps.

Lemma allocproc_spec : wp allocproc k alloc_post.
Proof.
  unfold allocproc. apply wp_bind. eapply wp_mono; [apply allocproc_slot_spec|].
  intros [p|] k1; cycle 1.
  { intros (h & Hh & -> & Hn). apply wp_ret. exists (procs k), (nextpid k). split_and!.
    - by destruct k.
    - by apply minv_out.
    - done.
    - split; [done|]. intros i q q' H1 H2. by simplify_eq.
    - apply only_pages_refl.
    - by left. }
  intros (h & q & Hh & -> & Hq & Hu & Hn). pose proof (slot_lt _ _ Hq) as Hlt.
  destruct (inside_ok (LK_proc p) me h) as (I1 & I2 & I3); [by exists (hs k)|].
  apply wp_bind. eapply wp_mono; [by apply (allocpid_spec h); [..|done]; first [done|apply I3]|].
  intros pid k1 (-> & h1 & Hh1 & ->). simpl nextpid. apply wp_bind, wp_set_proc, wp_bind, wp_set_proc.
  eapply (alloc_tf p q Hq Hu).
  - change (with_pid q) with (upd_p_state (λ _, USED) (upd_p_pid (λ _, nextpid k) q)).
    do 2 (apply in_slot_set; [done|]). split; try done; simpl; [by etrans|]. by rewrite list_insert_id.
  - eapply minv_locks; [exact Hi|by split|simpl; by rewrite Hh1|simpl; rewrite Hh1; by apply I3..].
  - done.
  - done.
  - intros tf k2 Hv Ht Hf Hi2 Hop Htk. by apply (alloc_pt p q Hq Hu Hn tf).
Qed.
End allocproc.
End proc_spec.
