(* ===== verification/PipeSpec.v ===== *)
(** * Pipes are queues

    The ring of a pipe as a queue of bytes; pipewrite() and piperead() refine
    adding at its end and taking from its front. *)

From stdpp Require Import gmap list strings.
From Stdlib Require Import ZArith Lia.
From S2P Require Import Prelude Mem RingBuf Params FsData Machine Spinlock Sched Kalloc Vm.
From S2P Require Import Sleeplock FsTxn PageTable VmWalk VmSpace UserView UserCopy Pipe.
#[local] Open Scope Z_scope.
Ltac wp_prim ::= wp_proc.

(** The bytes in a pipe, oldest first. *)
Definition pipe_ok (p : pipe) : Prop := ring_ok PIPESIZE (2 ^ 32) (pi_data p) (pi_nread p) (pi_nwrite p).
Definition pq (p : pipe) : list Z := rlist PIPESIZE (2 ^ 32) (pi_data p) (pi_nread p) (pi_nwrite p).

Definition put_byte (ch : Z) (p : pipe) : pipe :=
  upd_pi_nwrite (λ w, u32 (w + 1)) (upd_pi_data <[Z.to_nat (pi_nwrite p mod PIPESIZE) := ch]> p).
Definition get_byte : pipe → pipe := upd_pi_nread (λ r, u32 (r + 1)).

Lemma pipe_div : (PIPESIZE | 2 ^ 32).
Proof. by exists (2 ^ 23). Qed.

Lemma length_pq p : Z.of_nat (length (pq p)) = rcount (2 ^ 32) (pi_nread p) (pi_nwrite p).
Proof. by apply (length_rlist PIPESIZE). Qed.

Lemma pq_put p ch :
  pipe_ok p → (length (pq p) < Z.to_nat PIPESIZE)%nat →
  pipe_ok (put_byte ch p) ∧ pq (put_byte ch p) = pq p ++ [ch].
Proof.
  intros Hok Hl. pose proof (length_pq p) as Hc.
  apply (rlist_put PIPESIZE (2 ^ 32) eq_refl eq_refl pipe_div (pi_data p) (pi_nread p) (pi_nwrite p) ch Hok).
  rewrite <-Hc. unfold PIPESIZE in *. lia.
Qed.

Lemma pq_get p ch q :
  pipe_ok p → pq p = ch :: q →
  pipe_ok (get_byte p) ∧ default 0 (pi_data p !! Z.to_nat (pi_nread p mod PIPESIZE)) = ch ∧ pq (get_byte p) = q.
Proof.
  intros Hok Hq. pose proof (length_pq p) as Hl. rewrite Hq in Hl. cbn [length] in Hl.
  assert (0 < rcount (2 ^ 32) (pi_nread p) (pi_nwrite p)) as Hpos by (rewrite <-Hl; lia).
  destruct (rlist_get PIPESIZE (2 ^ 32) eq_refl eq_refl pipe_div _ _ _ Hok Hpos) as [H1 H2].
  split; [done|]. unfold pq in Hq. rewrite H2 in Hq. by injection Hq.
Qed.

Lemma pipe_full p :
  pipe_ok p → (pi_nwrite p =? u32 (pi_nread p + PIPESIZE)) = bool_decide (length (pq p) = Z.to_nat PIPESIZE).
Proof.
  intros Hok. pose proof (length_pq p) as Hl.
  pose proof (ring_full PIPESIZE (2 ^ 32) eq_refl eq_refl _ _ _ Hok) as Hf.
  apply eq_true_iff_eq. rewrite Z.eqb_eq, bool_decide_eq_true. unfold u32. rewrite Hf. unfold PIPESIZE in *. lia.
Qed.

Lemma pipe_empty p : pipe_ok p → (pi_nread p =? pi_nwrite p) = bool_decide (pq p = []).
Proof.
  intros Hok. apply eq_true_iff_eq. rewrite Z.eqb_eq, bool_decide_eq_true. by apply (rlist_nil PIPESIZE (2 ^ 32)).
Qed.

Section pipes.
Context `{OTH : Others, LNK : !Linker, LOK : !LinkerOk, KOB : !Kobj, KOK : !KobjOk} (me : nat).

(** ** Inside the critical section *)

Definition with_pipe (pi : Z) (p : pipe) : kernel → kernel := upd_fs (upd_pipes <[pi := p]>).

(** [k] with the pipe's lock taken and the pipe as [p]. *)
Definition in_pipe (pi : Z) (p : pipe) (k : kernel) : kernel := upd_hs (acq (LK_pipe pi)) (with_pipe pi p k).

Lemma in_pipe_of pi p k k' : kframe (in_pipe pi p k) k' → pipe_of (fs k') pi = p.
Proof. intros Hf. unfold pipe_of. rewrite (kf_fs _ _ Hf). simpl. by rewrite lookup_insert_eq. Qed.

Lemma in_pipe_set pi p g k k' :
  kframe (in_pipe pi p k) k' →
  kframe (in_pipe pi (g p) k) (upd_fs (λ f, upd_pipes <[pi := g (pipe_of f pi)]> f) k').
Proof.
  intros Hf. pose proof (in_pipe_of _ _ _ _ Hf) as Hp. destruct Hf as [F1 F2 F3 F4 F5 F6 F7].
  split; try done. simpl in *. rewrite Hp, F7. unfold upd_pipes. simpl. by rewrite insert_insert_eq.
Qed.

Lemma pipe_enter {A} pi p k (f : nat → K A) Q :
  calm me (hs k) → pipes (fs k) !! pi = Some p →
  (∀ k', kframe (in_pipe pi p k) k' → mem_same k k' → wp (f me) k' Q) →
  wp (pr ← curproc; acquire (LK_pipe pi);; f pr) k Q.
Proof.
  intros Hc Hp HQ. pose proof Hc as [C1 C2 C3 C4]. apply wp_bind, (wp_curproc me); [done|done|].
  intros h Hh. apply wp_bind, (wp_enter _ me); [by simpl; rewrite Hh|]. apply HQ; [|by split].
  split; try done; simpl.
  - by apply acq_proper; [rewrite Hh|].
  - destruct k as [? ? ? ? ? ? ? ? ? [] ?]. simpl in *. unfold upd_pipes. simpl. by rewrite insert_id.
Qed.

(** A call is over: the processes that sleep on [ch] have been woken. *)
Definition after_pipe (pi : Z) (p : pipe) (ch : chan) (k : kernel) : kernel :=
  upd_procs (wake_all (Some ch) (Some me)) (with_pipe pi p k).

Lemma pipe_exit {A} pi p ch k k' (v : A) Q :
  running me k → kframe (in_pipe pi p k) k' →
  (∀ k2, kframe (after_pipe pi p ch k) k2 → mem_same k' k2 → Q v k2) →
  wp (wakeup (Some ch);; release (LK_pipe pi);; mret v) k' Q.
Proof.
  intros [Hc Hl] [F1 F2 F3 F4 F5 F6 F7] HQ. apply wp_bind. simpl in *.
  apply (wp_wakeup_inside _ (LK_pipe pi) me (hs k)); [done|done|done|by rewrite F2|].
  intros h1 Hh1. apply wp_bind, (wp_leave _ me (hs k)); [done|done|]. intros h2 Hh2. wp_pure.
  apply HQ; [|by split]. split; simpl; try done. by rewrite F2.
Qed.

(** The user's memory does not depend on the locks. *)
Lemma uspace_enter E r T pi p k k' :
  calm me (hs k) → kframe (in_pipe pi p k) k' → mem_same k k' → uspace me E r T k → uspace me E r T k'.
Proof.
  intros Hc Hf Hm Hu. destruct (inside_ok (LK_pipe pi) me (acq (LK_pipe pi) (hs k))) as (H1 & _ & H3);
    [by apply calm_inside|].
  pose proof (uspace_hart me E r T k _ H1 (H3 LK_kmem ltac:(done)) (H3 LK_krefs ltac:(done)) Hu) as [U1 U2 U3 U4].
  split; [|done|done|].
  - eapply (minv_same (upd_hs (λ _, acq (LK_pipe pi) (hs k)) k)); [exact (kf_hs _ _ Hf)|by destruct Hm; split|done].
  - rewrite <-U4. unfold proc_of. by rewrite (kf_procs _ _ Hf).
Qed.

Lemma uspace_exit E r T pi p ch k k' k2 :
  calm me (hs k) → kframe (after_pipe pi p ch k) k2 → mem_same k' k2 →
  procs k' = procs k → uspace me E r T k' → uspace me E r T k2.
Proof.
  intros [C1 C2 C3 C4] Hf [M1 M2 M3] Hp [[[F []] Hwf Hm Htb Hlf Hc Hpt Hw] U2 U3 U4]. pose proof (kf_hs _ _ Hf) as Hh.
  split; [split| | |]; try done.
  - exists F. split; try done; first [by rewrite Hh|by rewrite M1, M2|unfold cnt; by rewrite M3].
  - by rewrite M1.
  - intros pa Hv. unfold cnt. rewrite M3. by apply Hc.
  - rewrite <-U4. unfold proc_of. rewrite (kf_procs _ _ Hf). simpl. unfold wake_all.
    rewrite list_lookup_imap, Hp. destruct (procs k !! me); [|done]. simpl. by rewrite decide_True.
Qed.

(** ** pipewrite() *)

(** [i] of the bytes [bs] have gone into the pipe. *)
Definition piped_in E r T pi p k bs (i : nat) (k' : kernel) : Prop :=
  ∃ p', kframe (in_pipe pi p' k) k' ∧ user_same me E r T k k' ∧ pipe_ok p' ∧ pq p' = pq p ++ take i bs ∧
    pi_readopen p' = pi_readopen p ∧ pi_writeopen p' = pi_writeopen p.

Lemma pipewrite_loop_spec E r T pi p k k1 addr bs :
  user_has r T k addr bs → pi_readopen p ≠ 0 → p_killed (proc_of k me) = 0 →
  (length (pq p) + length bs ≤ Z.to_nat PIPESIZE)%nat → piped_in E r T pi p k bs 0 k1 →
  wp (pipewrite_loop me pi addr (Z.of_nat (length bs))) k1 (λ v k',
    v = Some (Z.of_nat (length bs)) ∧ piped_in E r T pi p k bs (length bs) k').
Proof.
  intros (Ha1 & Ha2 & Hbs) Hro Hkl Hfit H1. unfold pipewrite_loop.
  apply (wp_loop _ (λ i s, ∃ j, i = Z.of_nat j ∧ (j ≤ length bs)%nat ∧ piped_in E r T pi p k bs j s)
    (λ i _, Z.of_nat (length bs) - i)); [|by exists 0%nat; split_and!; [|lia|]|lia].
  intros _ s (j & -> & Hj & p' & Hf & [Hu Hv] & Hok & Hq & Hr & Hw).
  destruct (Z.ltb_spec (Z.of_nat j) (Z.of_nat (length bs))) as [Hlt|Hge]; cycle 1.
  { assert (j = length bs) as -> by lia. wp_pure. split; [done|]. exists p'. by split_and!. }
  assert (proc_of s me = proc_of k me) as Hme by (unfold proc_of; by rewrite (kf_procs _ _ Hf)).
  unfold get_pipe, get_fs. wp_pure. rewrite (in_pipe_of _ _ _ _ Hf), Hme, Hkl, Hr.
  rewrite (proj2 (Z.eqb_neq _ _) Hro). simpl. wp_pure. rewrite (in_pipe_of _ _ _ _ Hf), pipe_full by done.
  rewrite bool_decide_eq_false_2 by (rewrite Hq, length_app, length_take; lia). wp_pure.
  destruct (lookup_lt_is_Some_2 bs j) as [b Hb]; [lia|].
  rewrite (us_proc _ _ _ _ _ Hu), u64_small by lia.
  eapply wp_mono; [apply (user_byte_in me E r T s _ b Hu); [lia|rewrite Hv; by apply Hbs]|].
  intros c s2 (-> & Hch & Hf2 & [Hu2 Hv2]). simpl. wp_pure. rewrite Hch. unfold pipe_put, set_pipe, set_fs. wp_pure.
  split; [exists (S j); split_and!; [lia|lia|]|lia]. exists (put_byte b p').
  destruct (pq_put p' b Hok) as [G1 G2]; [rewrite Hq, length_app, length_take; lia|].
  split_and!; [apply in_pipe_set; by etrans| |done| |done|done].
  - split; [by apply uspace_fs|intros; by rewrite <-Hv, <-Hv2].
  - by rewrite G2, Hq, (take_S_r _ _ _ Hb), app_assoc.
Qed.

(** [k2] is [k] after a call that left pipe [pi] as [p'] and woke the sleepers of [ch]. *)
Definition pipe_done (pi : Z) (p p' : pipe) (ch : chan) (k k2 : kernel) : Prop :=
  kframe (after_pipe pi p' ch k) k2 ∧ pipe_ok p' ∧
  pi_readopen p' = pi_readopen p ∧ pi_writeopen p' = pi_writeopen p.

Lemma pipewrite_fits E r T pi p k addr bs :
  running me k → uspace me E r T k → pipes (fs k) !! pi = Some p → pipe_ok p → pi_readopen p ≠ 0 →
  p_killed (proc_of k me) = 0 → user_has r T k addr bs →
  (length (pq p) + length bs ≤ Z.to_nat PIPESIZE)%nat →
  wp (pipewrite pi addr (Z.of_nat (length bs))) k (λ v k',
    v = Z.of_nat (length bs) ∧ ∃ p', pipe_done pi p p' (Ch_nread pi) k k' ∧ pq p' = pq p ++ bs ∧
      user_same me E r T k k').
Proof.
  intros Hrun Hu Hp Hok Hro Hkl Hbs Hfit. unfold pipewrite.
  apply (pipe_enter pi p); [by destruct Hrun|done|]. intros k1 Hf1 Hm1. apply wp_bind.
  eapply wp_mono; [apply (pipewrite_loop_spec E r T pi p k k1 addr bs); [done..|]|].
  { exists p. split_and!; [done| |done|by rewrite app_nil_r|done|done]. split; [|intros; by rewrite (ms_ram _ _ Hm1)].
    eapply uspace_enter; [by destruct Hrun|done|done|done]. }
  intros v k2 (-> & p' & Hf2 & [Hu2 Hv2] & Hok2 & Hq2 & Hr2 & Hw2).
  apply (pipe_exit pi p' _ k); [done|done|]. intros k3 Hf3 Hm3. split; [done|]. exists p'.
  rewrite firstn_all in Hq2. split_and!; [done|done|split].
  - eapply uspace_exit; [by destruct Hrun|done|done|exact (kf_procs _ _ Hf2)|done].
  - intros. by rewrite (ms_ram _ _ Hm3).
Qed.

(** A pipe no one reads: nothing is written. *)
Lemma pipewrite_broken pi p k addr n :
  running me k → pipes (fs k) !! pi = Some p → 0 < n →
  (pi_readopen p = 0 ∨ p_killed (proc_of k me) ≠ 0) →
  wp (pipewrite pi addr n) k (λ v k', v = -1 ∧ kframe k k' ∧ mem_same k k').
Proof.
  intros Hrun Hp Hn Hbad. unfold pipewrite. apply (pipe_enter pi p); [by destruct Hrun|done|]. intros k1 Hf1 Hm1.
  apply wp_bind. unfold pipewrite_loop.
  apply (wp_loop _ (λ i s, i = 0 ∧ s = k1) (λ _ _, 0)); [|done|done]. intros _ _ [-> ->].
  rewrite (proj2 (Z.ltb_lt _ _) Hn). unfold get_pipe, get_fs. wp_pure. rewrite (in_pipe_of _ _ _ _ Hf1).
  assert (proc_of k1 me = proc_of k me) as -> by (unfold proc_of; by rewrite (kf_procs _ _ Hf1)).
  assert ((pi_readopen p =? 0) || nz (p_killed (proc_of k me)) = true) as ->.
  { unfold nz. destruct Hbad as [->|Hk]; [done|]. apply Z.eqb_neq in Hk. rewrite Hk. by rewrite orb_true_r. }
  apply wp_bind, (wp_leave _ me (hs k)); [by destruct Hrun|exact (kf_hs _ _ Hf1)|]. intros h Hh. wp_pure.
  split; [done|]. destruct Hf1 as [F1 F2 F3 F4 F5 F6 F7]. split; [split; try done|by destruct Hm1; split].
  simpl in *. rewrite F7. destruct (fs k). unfold upd_pipes. simpl in *. by rewrite insert_id.
Qed.

(** ** piperead() *)

(** [i] bytes have left the pipe for the reader's memory. *)
Definition piped_out E r T pi p k dst (i : nat) (k' : kernel) : Prop :=
  ∃ p', kframe (in_pipe pi p' k) k' ∧ user_at me E r T k dst (take i (pq p)) k' ∧ pipe_ok p' ∧
    pq p' = drop i (pq p) ∧ pi_readopen p' = pi_readopen p ∧ pi_writeopen p' = pi_writeopen p.

(** The reader has [i] bytes; when it has been cut short, [fault] says why, and
    the byte it could not store is lost. *)
Definition took (n i : nat) (q q' : list Z) (fault : Prop) : Prop :=
  i = (n `min` length q)%nat ∧ q' = drop i q ∨ (i < n `min` length q)%nat ∧ q' = drop (S i) q ∧ fault.

Definition piped_out_end E r T pi p k dst (n i : nat) (k' : kernel) : Prop :=
  ∃ p', kframe (in_pipe pi p' k) k' ∧ user_at me E r T k dst (take i (pq p)) k' ∧ pipe_ok p' ∧
    took n i (pq p) (pq p') (stuck T (ram k) r (dst + Z.of_nat i) k') ∧ pi_readopen p' = pi_readopen p ∧ pi_writeopen p' = pi_writeopen p.

Lemma piperead_copy_spec E r T pi p k k1 dst (n : nat) :
  0 ≤ dst < 2 ^ 64 → Z.of_nat n < 2 ^ 31 → piped_out E r T pi p k dst 0 k1 →
  wp (piperead_copy me pi dst (Z.of_nat n)) k1 (λ v k',
    ∃ i, v = Z.of_nat i ∧ piped_out_end E r T pi p k dst n i k').
Proof.
  intros Hd Hn H1. unfold piperead_copy. set (m := (n `min` length (pq p))%nat).
  apply (wp_loop _ (λ i s, ∃ j, i = Z.of_nat j ∧ (j ≤ m)%nat ∧ piped_out E r T pi p k dst j s)
    (λ i _, Z.of_nat n - i)); [|by exists 0%nat; split_and!; [|lia|]|lia].
  intros _ s (j & -> & Hj & p' & Hf & Hat & Hok & Hq & Hr & Hw).
  destruct (Z.ltb_spec (Z.of_nat j) (Z.of_nat n)) as [Hlt|Hge]; cycle 1.
  { wp_pure. exists j. split; [done|]. exists p'. split_and!; try done. left. split; [lia|done]. }
  unfold get_pipe, get_fs. wp_pure. rewrite (in_pipe_of _ _ _ _ Hf), pipe_empty by done.
  destruct (pq p !! j) as [ch|] eqn:Ech; cycle 1.
  { apply lookup_ge_None in Ech. rewrite bool_decide_eq_true_2 by (rewrite Hq; by apply drop_ge). wp_pure.
    exists j. split; [done|]. exists p'. split_and!; try done. left. split; [lia|done]. }
  rewrite (drop_S _ _ _ Ech) in Hq. rewrite bool_decide_eq_false_2 by (by rewrite Hq).
  destruct (pq_get p' ch _ Hok Hq) as (G1 & G2 & G3).
  unfold pipe_get, set_pipe, set_fs, get_pipe, get_fs. wp_pure. rewrite (in_pipe_of _ _ _ _ Hf), G2.
  unfold put_bytes. wp_pure.
  match goal with |- context [upd_fs ?f s] => set (s1 := upd_fs f s) in * end.
  assert (user_at me E r T k dst (take j (pq p)) s1) as Hat1.
  { destruct Hat as (T' & Hu & Hv). exists T'. split; [by apply uspace_fs|done]. }
  assert (kframe (in_pipe pi (get_byte p') k) s1) as Hf1 by (by apply in_pipe_set).
  assert (p_pagetable (proc_of s1 me) = r) as -> by (by destruct Hat1 as (? & [] & _)).
  replace (Z.of_nat j) with (Z.of_nat (length (take j (pq p)))) at 1 by (rewrite length_take; lia).
  eapply wp_mono; [apply (user_byte_out me E r T k dst (take j (pq p)) ch s1); done|].
  intros c s2 [Hf2 [[-> Hat2]|(-> & Hat2 & Hst2)]]; simpl; wp_pure.
  - split; [exists (S j); split_and!; [lia|apply lookup_lt_Some in Ech; lia|]|lia]. exists (get_byte p').
    rewrite (take_S_r _ _ _ Ech). split_and!; try done. by etrans.
  - exists j. split; [done|]. exists (get_byte p'). split_and!; try done; [by etrans|right].
    apply lookup_lt_Some in Ech. split_and!; [lia|done|]. rewrite length_take in Hst2.
    by replace (j `min` length (pq p))%nat with j in Hst2 by lia.
Qed.

Lemma piperead_ready E r T pi p k dst (n : nat) :
  running me k → uspace me E r T k → pipes (fs k) !! pi = Some p → pipe_ok p →
  (pq p ≠ [] ∨ pi_writeopen p = 0) → 0 ≤ dst < 2 ^ 64 → Z.of_nat n < 2 ^ 31 →
  wp (piperead pi dst (Z.of_nat n)) k (λ v k', ∃ i p', v = Z.of_nat i ∧
    pipe_done pi p p' (Ch_nwrite pi) k k' ∧ user_at me E r T k dst (take i (pq p)) k' ∧
    took n i (pq p) (pq p') (stuck T (ram k) r (dst + Z.of_nat i) k')).
Proof.
  intros Hrun Hu Hp Hok Hrdy Hd Hn. unfold piperead.
  apply (pipe_enter pi p); [by destruct Hrun|done|]. intros k1 Hf1 Hm1. apply wp_bind.
  unfold piperead_wait. apply (wp_loop _ (λ _ s, s = k1) (λ _ _, 0)); [|done|done]. intros _ _ ->.
  unfold get_pipe, get_fs. wp_pure. rewrite (in_pipe_of _ _ _ _ Hf1), pipe_empty by done.
  assert (bool_decide (pq p = []) && nz (pi_writeopen p) = false) as ->.
  { destruct Hrdy as [Hq| ->]; [by rewrite bool_decide_eq_false_2|apply andb_false_r]. }
  wp_pure. simpl. wp_pure. eapply wp_mono; [apply (piperead_copy_spec E r T pi p k k1 dst n); [done..|]|].
  { exists p. split_and!; try done. exists T. split_and!; [|by intros; rewrite decide_False, (ms_ram _ _ Hm1) by (simpl; lia)|done].
    eapply uspace_enter; [by destruct Hrun|done|done|done]. }
  intros v k2 (i & -> & p' & Hf2 & Hat & Hok2 & Hq2 & Hr2 & Hw2).
  apply (pipe_exit pi p' _ k); [done|done|]. intros k3 Hf3 Hm3. exists i, p'. split_and!; try done; cycle 1.
  { destruct Hq2 as [?|(? & ? & ?)]; [by left|right]. split_and!; [done..|by eapply stuck_same]. }
  destruct Hat as (T' & Hu' & Hv' & Hc'). exists T'. split_and!; [|intros; by rewrite (ms_ram _ _ Hm3)|done].
  eapply uspace_exit; [by destruct Hrun|done|done|exact (kf_procs _ _ Hf2)|done].
Qed.
End pipes.
