(* ===== verification/VmDemo.v ===== *)
(** * A small concrete machine

    The machine of [Kalloc] in a state in which a process with one page of memory is about to fork: page table
    [pg 0] with its lower tables [pg 1] and [pg 2] maps page [pg 3] at address
    0, the empty table [pg 4] is the child's, and [pg 5], [pg 6], [pg 7] are
    free.  The theorems about vm.c are applied to it. *)

From stdpp Require Import gmap list strings.
From Stdlib Require Import ZArith Lia.
From S2P Require Import Prelude Mem Str Params Machine Spinlock Kalloc Vm.
From S2P Require Import PageTable VmWalk VmMap VmSpace VmFree Cow UserView UserCopy.
#[local] Open Scope Z_scope.

(** Pages with an external owner. *)
Definition owned (l : list Z) (q : Z) : Z := if decide (q ∈ l) then 1 else 0.

Lemma owned_cons p l q : p ∉ l → eadd (owned l) p 1 q = owned (p :: l) q.
Proof.
  intros Hp. unfold eadd, owned.
  repeat case_decide; rewrite ?elem_of_cons in *; subst; try lia; naive_solver.
Qed.

Lemma owned_drop p l q : p ∉ l → eadd (owned (p :: l)) p (-1) q = owned l q.
Proof. intros Hp. rewrite <-(eadd_back (owned l) p 1 q). unfold eadd at 1 2. rewrite <-owned_cons by done. done. Qed.

Lemma demo0_minv : minv demo0 ∅ (owned [pg 0; pg 1; pg 2; pg 3; pg 4]).
Proof.
  split; try (intros; by rewrite lookup_empty in *).
  - eexists. exact demo0_alloc.
  - intros pa Hv. destruct (demo_cnt pa Hv) as [-> _]. unfold npt, refs, owned. rewrite !msum_empty. lia.
  - intros pa. left. done.
Qed.

(** The tables are built the way walk() and mappages() build them. *)
Definition ulim : Z := TRAPFRAME / PGSIZE.

Definition demo1 : kernel := upd_ram (λ m, st64 m (entry (pg 0) 0) (mkpte (pg 1) PTE_V)) demo0.
Definition demo2 : kernel := upd_ram (λ m, st64 m (entry (pg 1) 0) (mkpte (pg 2) PTE_V)) demo1.
Definition demo : kernel := upd_ram (λ m, st64 m (entry (pg 2) 0) (mkpte (pg 3) WRXU)) demo2.

Definition parent0 : pgtab := empty_pt (pg 0) ulim.
Definition parent1 : pgtab := set_tab (1%nat, 512 * 0 + 0) (pg 1) parent0.
Definition parent2 : pgtab := set_tab (0%nat, 512 * 0 + 0) (pg 2) parent1.
Definition parent : pgtab := put_leaf 0 (Some (mkpte (pg 3) WRXU)) parent2.
Definition child : pgtab := empty_pt (pg 4) ulim.

Definition demo_T0 : tables := <[pg 4 := child]> (<[pg 0 := parent0]> ∅).
Definition demo_T : tables := <[pg 0 := parent]> demo_T0.

Lemma fresh_zero i y : 0 ≤ i < 5 → 0 ≤ y < 512 → ld64 (ram demo0) (entry (pg i) y) = 0.
Proof.
  intros Hi Hy. change (ram demo0) with demo_ram. unfold demo_ram, entry, pg.
  rewrite !ld64_st64_out by (Zconst; lia). by apply ld64_zero.
Qed.

Lemma demo_roots : minv demo0 demo_T0 (owned [pg 1; pg 2; pg 3]).
Proof.
  assert (minv demo0 (<[pg 0 := parent0]> ∅) (owned [pg 1; pg 2; pg 3; pg 4])) as H0.
  { apply minv_new_table;
      [|by apply pg_valid|by vm_compute|by vm_compute|by vm_compute|by vm_compute|
       by intros; apply fresh_zero].
    eapply minv_ext; [|exact demo0_minv]. intros q. symmetry. apply owned_cons.
    apply (bool_decide_eq_true_1 _). by vm_compute. }
  apply minv_new_table;
    [|by apply pg_valid|by vm_compute|by vm_compute|by vm_compute|by vm_compute|
     by intros; apply fresh_zero].
  eapply minv_ext; [|exact H0]. intros q. rewrite owned_cons.
  - unfold owned. repeat case_decide; set_solver.
  - apply (bool_decide_eq_true_1 _). by vm_compute.
Qed.

Lemma demo_mid : minv demo1 (<[pg 0 := parent1]> demo_T0) (owned [pg 2; pg 3]).
Proof.
  eapply minv_ext; [intros q; apply (owned_drop (pg 1)); apply (bool_decide_eq_true_1 _); by vm_compute|].
  apply (minv_add_tab demo0 demo_T0 _ (pg 0) parent0 1 0 0 (pg 0) (pg 1));
    [exact demo_roots|by vm_compute|lia|by vm_compute|lia|by vm_compute|by apply pg_valid|
     by vm_compute|by vm_compute|by vm_compute|by intros; apply fresh_zero].
Qed.

Lemma demo_low : minv demo2 (<[pg 0 := parent2]> demo_T0) (owned [pg 3]).
Proof.
  eapply minv_ext; [intros q; apply (owned_drop (pg 2)); apply (bool_decide_eq_true_1 _); by vm_compute|].
  unfold parent2. rewrite <-(insert_insert_eq demo_T0 (pg 0) _ parent1).
  apply (minv_add_tab demo1 (<[pg 0 := parent1]> demo_T0) _ (pg 0) parent1 0 0 0 (pg 1) (pg 2));
    [exact demo_mid|by vm_compute|lia|by vm_compute|lia|by vm_compute|by apply pg_valid|
     by vm_compute|by vm_compute|by vm_compute|].
  intros y Hy. unfold demo1. cbn [ram upd_ram]. unfold entry at 1.
  rewrite ld64_st64_out by (unfold entry, pg; Zconst; lia). by apply fresh_zero.
Qed.

Lemma demo_minv : minv demo demo_T (owned []).
Proof.
  assert (PTE2PA (mkpte (pg 3) WRXU) = pg 3) as Hpa by (by vm_compute).
  assert (minv demo2 (<[pg 0 := parent2]> demo_T0) (eadd (owned []) (pg 3) 1)) as Hlow.
  { eapply minv_ext; [|exact demo_low]. intros q. symmetry. apply owned_cons, not_elem_of_nil. }
  eapply minv_ext; [|unfold demo_T, parent; rewrite <-(insert_insert_eq demo_T0 (pg 0) _ parent2);
    apply (minv_new_leaf demo2 _ _ (pg 0) parent2 0 (mkpte (pg 3) WRXU) (pg 2) Hlow)].
  - intros q. rewrite Hpa. unfold emap. rewrite decide_True by (by vm_compute).
    apply (eadd_back (owned []) (pg 3) 1).
  - by vm_compute.
  - by vm_compute.
  - lia.
  - by vm_compute.
  - apply mapping_ok_fresh; [by apply pg_valid|by vm_compute..].
Qed.

Lemma demo_E : Eok (owned []).
Proof. intros q. done. Qed.

(** The facts about it that the theorems ask for. *)
Lemma demo_parent : demo_T !! pg 0 = Some parent.
Proof. by vm_compute. Qed.

Lemma demo_child : demo_T !! pg 4 = Some child.
Proof. by vm_compute. Qed.

Lemma demo_leaf : leaves parent !! 0 = Some (mkpte (pg 3) WRXU).
Proof. by vm_compute. Qed.

Lemma demo_used v : is_Some (leaves parent !! v) → v = 0.
Proof.
  unfold parent. rewrite put_leaf_lookup. case_decide; [done|]. intros [e He].
  simpl in He. by rewrite lookup_empty in He.
Qed.

(** Its page can be written. *)
Lemma demo_writable m va k' : 0 ≤ va < 4096 → ¬ stuck demo_T m (pg 0) va k'.
Proof.
  intros Hva. assert (vpn va = 0) as Ev by (by apply Z.div_small). intros [Hno|[(t & e & Ht & He & Hc) _]].
  - rewrite (views_uaddr _ _ _ parent) in Hno by exact demo_parent.
    assert (uaddr parent va = Some (PTE2PA (mkpte (pg 3) WRXU))) as Eu; [|by rewrite Eu in Hno].
    unfold uaddr. rewrite Ev, demo_leaf. assert (has (mkpte (pg 3) WRXU) PTE_U = true) as -> by (by vm_compute).
    assert ((0 <? lim parent) = true) as -> by (by vm_compute). done.
  - rewrite demo_parent in Ht. injection Ht as <-. rewrite Ev, demo_leaf in He. injection He as <-.
    assert (is_cow (mkpte (pg 3) WRXU) = false) by (by vm_compute). congruence.
Qed.

(** The same process after its page was marked copy-on-write. *)
Definition cow_leaf : Z := cow_pte (mkpte (pg 3) WRXU).
Definition demo_cow : kernel := upd_ram (λ m, st64 m (entry (pg 2) 0) cow_leaf) demo.
Definition cow_parent : pgtab := put_leaf 0 (Some cow_leaf) parent.
Definition demo_cow_T : tables := <[pg 0 := cow_parent]> demo_T.

Lemma demo_cow_minv : minv demo_cow demo_cow_T (owned []).
Proof.
  pose proof (mi_leaf _ _ _ demo_minv _ _ _ _ demo_parent demo_leaf) as Hok.
  assert (0 < lim parent) as Hl by (by vm_compute).
  destruct (cow_pte_ok _ (lim parent) _ _ Hok Hl Hl) as (Hok' & Hnw & _).
  apply (minv_reflag demo demo_T (owned []) (pg 0) parent 0 (mkpte (pg 3) WRXU) cow_leaf (pg 2)).
  - exact demo_minv.
  - exact demo_parent.
  - by vm_compute.
  - lia.
  - exact demo_leaf.
  - by vm_compute.
  - exact Hok'.
  - intros _ Hu Hw. by destruct Hnw.
Qed.

Lemma demo_cow_parent : demo_cow_T !! pg 0 = Some cow_parent.
Proof. by vm_compute. Qed.
