(* ===== verification/FsDemo.v ===== *)
(** * A small file system

    A disk of 64 blocks with the layout mkfs makes: the log, one block of
    inodes, the bitmap; the root directory with the entries "." and "a", and the
    file "a" with five bytes.  The machine that has booted from it runs process 0
    in the memory of [VmDemo].  The theorems about fs.c are applied to it. *)

From stdpp Require Import gmap list strings.
From Stdlib Require Import ZArith Lia.
From S2P Require Import Prelude Mem Str Params FsData DevData Machine Spinlock Sched Sleeplock Ring Bio.
From S2P Require Import BioSpec Log LogDisk LogSpec LogCommit LogTheorems FsTxn Kalloc.
From S2P Require Import Vm Fs FsAlloc FsInode FsFile FsBmap FsWrite FsDir.
From S2P Require Import PageTable VmWalk UserView UserCopy VmDemo.
#[local] Open Scope Z_scope.

#[export] Instance demo_kobj : Kobj := {| bdata := KERNBASE; kloc := KERNBASE + BSIZE |}.
#[export] Instance demo_kobj_ok : KobjOk.
Proof. split; unfold bdata, kloc, kend, demo_kobj, demo_linker, BSIZE; Zconst; lia. Qed.

(** ** The disk *)

Definition fs_sb : superblock := mkSb FSMAGIC 64 28 16 30 2 32 33.

Definition pad (bs : list Z) : block := bs ++ replicate (Z.to_nat BSIZE - length bs) 0.

(** Blocks 0 to 35 are in use. *)
Definition fs_bitmap : block := pad [255; 255; 255; 255; 15].

Definition root_inode : inode :=
  mkInode ROOTDEV 1 1 1 T_DIR 0 0 1 32 (34 :: replicate 12 0).
Definition a_inode : inode :=
  mkInode ROOTDEV 2 1 1 T_FILE 0 0 1 5 (35 :: replicate 12 0).

Definition fs_inodes : block :=
  di_write 2 (di_inode a_inode) (di_write 1 (di_inode root_inode) zero_block).

Definition fs_dir : block := pad (new_entry [46] 1 ++ new_entry [97] 2).
Definition fs_a : block := pad [104; 101; 108; 108; 111].

Definition fs_disk : gmap Z block :=
  <[32 := fs_inodes]> (<[33 := fs_bitmap]> (<[34 := fs_dir]> (<[35 := fs_a]> ∅))).

Lemma fs_disk_size n : length (dget fs_disk n) = Z.to_nat BSIZE.
Proof.
  unfold dget, fs_disk. rewrite !lookup_insert, lookup_empty. repeat case_decide; by vm_compute.
Qed.

(** ** The machine *)

Definition fs_boot : kernel :=
  upd_fs (λ _, fsys0 fs_disk) boot_kernel.

Lemma fs_booted : ∃ k, booted 0 0 fs_disk k.
Proof.
  apply (binit_booted 0 fs_boot); [by destruct boot_running| |done|apply fs_disk_size|done].
  change (bcache (fs fs_boot)) with (replicate (S NB) buf0). by rewrite fmap_replicate.
Qed.

Lemma fs_log_ok :
  log_area_ok (s32 (sb_logstart fs_sb)) (s32 (sb_nlog fs_sb)) ∧
  log_disk_ok (s32 (sb_logstart fs_sb)) (s32 (sb_nlog fs_sb)) fs_disk ∧
  hd_n (dget fs_disk (s32 (sb_logstart fs_sb))) = 0.
Proof.
  assert (hd_n (dget fs_disk (s32 (sb_logstart fs_sb))) = 0) as Hn by (by vm_compute).
  assert (log_area_ok (s32 (sb_logstart fs_sb)) (s32 (sb_nlog fs_sb))) as Ha
    by (split; vm_compute; done).
  split_and!; [done| |done]. by apply log_disk_ok_empty.
Qed.

Definition is_buf (l : slid) : bool := match l with SL_buf _ => true | _ => false end.

Lemma only_buf_locks f i :
  sleeplock_of (upd_sleeplocks (filter (λ l, is_buf l.1)) f) (SL_buf i) = sleeplock_of f (SL_buf i) ∧
  sl_locked (sleeplock_of (upd_sleeplocks (filter (λ l, is_buf l.1)) f) (SL_inode i)) = 0.
Proof.
  unfold sleeplock_of. simpl. rewrite !map_lookup_filter. split.
  - by destruct (sleeplocks f !! SL_buf i).
  - by destruct (sleeplocks f !! SL_inode i).
Qed.

(** The file system is mounted, the two inodes are open, process 0 has the page
    table [pg 0]. *)
Definition fs_table : list inode := [root_inode; a_inode] ++ replicate 48 inode0.

Definition mount (k : kernel) : kernel :=
  mkKernel (ram demo) (hs k) (freelist demo) (krefs demo)
    (alter (upd_p_pagetable (λ _, pg 0)) 0%nat (procs k)) (nextpid k) (initproc k) (ticks k)
    (kernel_pagetable k)
    (upd_sleeplocks (filter (λ l, is_buf l.1)) (upd_itable (λ _, fs_table) (upd_sb (λ _, fs_sb) (fs k)))) (dev k).

Lemma fs_table_cases i x :
  fs_table !! i = Some x → x = inode0 ∨ i = 0%nat ∧ x = root_inode ∨ i = 1%nat ∧ x = a_inode.
Proof.
  revert i x. intros [|[|i]] x; [intros [= <-]; auto..|]. change (fs_table !! S (S i)) with (replicate 48 inode0 !! i).
  intros [-> _]%lookup_replicate. auto.
Qed.

Lemma fs_table_ok : itable_ok fs_table.
Proof.
  split; [done| |].
  - intros i x [->|[[_ ->]|[_ ->]]]%fs_table_cases; done.
  - intros i j x y [->|[[-> ->]|[-> ->]]]%fs_table_cases [->|[[-> ->]|[-> ->]]]%fs_table_cases; done.
Qed.

Lemma fs_free_entry : inode0 ∈ fs_table.
Proof. apply list_elem_of_lookup. by exists 2%nat. Qed.

Record mounted (k : kernel) (V : view) : Prop := {
  md_op : op 0 0 1 k V ∅ 29;
  md_sb : sb (fs k) = fs_sb;
  md_start : lg_start (log (fs k)) = 2;
  md_size : lg_size (log (fs k)) = 30;
  md_itable : itable (fs k) = fs_table;
  md_views : ∀ b, home 2 30 b → V b = dget fs_disk b;
  md_user : uspace 0 (owned []) (pg 0) demo_T k;
  md_ram : ram k = ram demo;
  md_free : ∀ i, sl_locked (sleeplock_of (fs k) (SL_inode i)) = 0;
}.

Lemma minv_hart k k' T E :
  minv k T E → running 0 k' → ram k' = ram k → freelist k' = freelist k → krefs k' = krefs k → minv k' T E.
Proof.
  intros [[F Ha] Hwf Hm Htb Hlf Hc Hpt Hw] [Hrun _] Er El Ek. split; try done.
  - exists F. destruct Hrun as [R1 R2 R3 R4], Ha as [_ _ _ A4 A5 A6 A7 A8].
    split; rewrite ?Er, ?El; try done; unfold cnt in *; by rewrite Ek.
  - by rewrite Er.
  - intros pa Hv. unfold cnt. rewrite Ek. by apply Hc.
Qed.

Lemma fs_mounted : ∃ k V, mounted k V.
Proof.
  destruct fs_booted as [k Hk], fs_log_ok as (Ha & Hd & Hn). destruct Hk as [B1 B2 B3 B4 B5].
  rewrite <-B2 in Hd.
  destruct (wp_run _ _ _ (initlog_spec (OTH := alone) 0 0 k (dget fs_disk) fs_sb B1 B3 B4 B5 Ha Hd))
    as (u & k1 & V & Hi & Es & Ez & _ & _ & HV).
  destruct (wp_run _ _ _ (begin_op_spec (OTH := alone) 0 0 k1 V Hi)) as (u2 & k2 & _ & Ht & Ef).
  exists (mount k2), V. destruct Ht as [T1 T2 T3 T4 T5 T6].
  assert (running 0 (mount k2)) as Hrun.
  { destruct T1 as [[R1 R2] _ _]. split; [done|]. simpl. by rewrite length_alter. }
  assert (lg_start (log (fs (mount k2))) = 2 ∧ lg_size (log (fs (mount k2))) = 30) as [Es2 Ez2].
  { simpl. rewrite Ef. split; [exact Es|exact Ez]. }
  split; [|done|done|done|done| | |done|].
  - eapply (op_frame 0 0 1 k2); [|done| |done|done|done|].
    + exists []. split; [by split|]. change (Z.of_nat (length ([] : list Z) + 29) < lg_size (log (fs (mount k2)))).
      rewrite Ez2. simpl. lia.
    + unfold mypid, proc_of. simpl. destruct (procs k2) as [|p l]; [done|by destruct p].
    + intros i. exact (proj1 (only_buf_locks _ i)).
  - intros b Hb. rewrite (HV b Hb), B2. unfold recovered. by rewrite (entries_none _ _ Hn).
  - split; [|exact demo_E|by rewrite demo_parent|].
    + by apply (minv_hart demo); [exact demo_minv|..].
    + unfold proc_of. simpl. destruct Hrun as [_ Hl]. simpl in Hl. destruct (procs k2); done.
  - intros i. exact (proj2 (only_buf_locks _ i)).
Qed.

(** ** What is on the disk *)

Section mounted.
Context (k : kernel) (V : view) (Hk : mounted k V).

Lemma fs_home b : (0 ≤ b < 2 ∨ 32 ≤ b < 64) ↔ (fshome k b ∧ b < 64).
Proof. unfold fshome, home. rewrite (md_start _ _ Hk), (md_size _ _ Hk). lia. Qed.

Lemma fs_block b d : fs_disk !! b = Some d → 32 ≤ b < 64 → V b = d.
Proof.
  intros Hb Hr. rewrite (md_views _ _ Hk) by (unfold home; lia). unfold dget. by rewrite Hb.
Qed.

Lemma fs_bits : forallb (λ b, Bool.eqb (bit_of fs_bitmap b) (b <? 36)) (seqZ 0 64) = true.
Proof. by vm_compute. Qed.

Lemma fs_used b : 0 ≤ b < 64 → used fs_sb V b = (b <? 36).
Proof.
  intros Hb. unfold used, BBLOCK.
  assert (b / BPB = 0) as -> by (apply Z.div_small; unfold BPB, BSIZE; lia).
  change (u32 (0 + sb_bmapstart fs_sb)) with 33. rewrite (fs_block 33 fs_bitmap); [|done|lia].
  pose proof fs_bits as Hf. rewrite forallb_forall in Hf. apply eqb_prop, Hf.
  apply list_elem_of_In, elem_of_seqZ. lia.
Qed.

Lemma fs_bblock b : blkno fs_sb b → BBLOCK b fs_sb = 33.
Proof.
  unfold blkno. simpl. intros Hb. unfold BBLOCK.
  by assert (b / BPB = 0) as -> by (apply Z.div_small; unfold BPB, BSIZE; lia).
Qed.

Lemma fs_layout : layout_ok k V.
Proof.
  split.
  - split; rewrite ?(md_sb _ _ Hk).
    + by split; vm_compute.
    + intros b Hb. rewrite fs_bblock by done. apply fs_home. lia.
    + intros b Hb. rewrite fs_bblock by done. by rewrite fs_used by lia.
    + by rewrite fs_used by lia.
    + intros b Hb. unfold blkno in Hb. simpl in Hb. rewrite fs_used by done. intros E%Z.ltb_ge.
      apply fs_home. lia.
  - rewrite (md_sb _ _ Hk). by vm_compute.
  - rewrite (md_sb _ _ Hk). intros i Hi. simpl in Hi.
    assert (IBLOCK i fs_sb = 32) as ->.
    { unfold IBLOCK. by assert (i / IPB = 0) as -> by (apply Z.div_small; done). }
    simpl. split_and!; [by unfold blkno; simpl; lia|by rewrite fs_used by lia|apply fs_home; lia|].
    intros b Hb. by rewrite fs_bblock.
Qed.

(** An inode with one block. *)
Section one_block.
Context (x : inode) (a : Z) (Hx : i_addrs x = a :: replicate 12 0) (Ha : 34 ≤ a < 36).

Lemma one_iaddr j : 0 ≤ j → iaddr x j = if decide (j = 0) then a else 0.
Proof.
  intros Hj. unfold iaddr. rewrite Hx. case_decide; [by subst|].
  replace (Z.to_nat j) with (S (Z.to_nat (j - 1))) by lia. rewrite lookup_cons.
  generalize 12%nat as n, (Z.to_nat (j - 1)) as i. intros n i.
  destruct (replicate n 0 !! i) as [v|] eqn:E; [|done]. by apply lookup_replicate in E as [-> _].
Qed.

Lemma one_fmap bn : in_file bn → fmap_at V x bn = if decide (bn = 0) then a else 0.
Proof.
  intros Hb. unfold fmap_at. rewrite (one_iaddr NDIRECT) by done. rewrite decide_False by done.
  destruct (Z.ltb_spec bn NDIRECT).
  - apply one_iaddr. unfold in_file in Hb. lia.
  - simpl. rewrite decide_False; [done|]. unfold NDIRECT in *. lia.
Qed.

Lemma one_dblock : dblock (fshome k) fs_sb V a.
Proof.
  split.
  - unfold blkno. simpl. lia.
  - rewrite fs_used by lia. apply Z.ltb_lt. lia.
  - apply fs_home. lia.
  - intros b Hb. rewrite fs_bblock by done. lia.
  - intros i Hi. simpl in Hi. unfold IBLOCK.
    assert (i / IPB = 0) as -> by (apply Z.div_small; done). change (u32 (0 + sb_inodestart fs_sb)) with 32. lia.
Qed.

Lemma one_file : file_ok (fshome k) fs_sb V x.
Proof.
  split.
  - by rewrite Hx.
  - intros bn Hb. rewrite one_fmap by done. case_decide; [|done]. intros _. apply one_dblock.
  - by rewrite one_iaddr, decide_False.
  - intros b b' Hb Hb'. rewrite !one_fmap by done. repeat case_decide; congruence || lia.
  - intros b Hb. rewrite one_fmap by done. rewrite one_iaddr, (decide_False (P := NDIRECT = 0)) by done. done.
Qed.

Lemma one_whole : 0 ≤ i_size x ≤ 1024 → whole V x.
Proof.
  intros Hs. assert (MAXFILE * BSIZE = 274432) by done. split; [lia|]. intros bn H1 H2.
  unfold BSIZE in H2. assert (bn = 0) as -> by lia. rewrite one_fmap by (unfold in_file; done).
  rewrite decide_True by done. lia.
Qed.

Lemma one_fbyte i : 0 ≤ i < 1024 → fbyte V x i = default 0 (V a !! Z.to_nat i).
Proof.
  intros Hi. unfold fbyte. rewrite (Z.div_small i BSIZE), (Z.mod_small i BSIZE) by (unfold BSIZE; lia).
  unfold fblk. rewrite one_fmap by done. rewrite decide_True by done. by destruct (Z.eqb_spec a 0); [lia|].
Qed.
End one_block.

Lemma fs_wf : dinode_wf (di_inode root_inode) ∧ dinode_wf (di_inode a_inode).
Proof.
  assert (∀ a, 0 ≤ a < 2 ^ 32 → Forall (λ b, 0 ≤ b < 2 ^ 32) (a :: replicate 12 0)) as Hf.
  { intros a Ha. constructor; [done|]. apply Forall_replicate. lia. }
  split; (split; [done..|by apply Hf]).
Qed.

Lemma fs_inode_1 : dinode_of fs_sb V 1 = di_inode root_inode.
Proof.
  unfold dinode_of. change (IBLOCK 1 fs_sb) with 32. rewrite (fs_block 32 fs_inodes); [|done|lia]. by vm_compute.
Qed.

Lemma fs_inode_2 : dinode_of fs_sb V 2 = di_inode a_inode.
Proof.
  unfold dinode_of. change (IBLOCK 2 fs_sb) with 32. rewrite (fs_block 32 fs_inodes); [|done|lia]. by vm_compute.
Qed.

Lemma fs_root_dir : dir_ok V root_inode.
Proof. split; [done|done| |done]. apply (one_whole _ 34); [done|lia|]. simpl. lia. Qed.

Lemma fs_root_entries :
  entry_at V root_inode <$> seqZ 0 (nentries root_inode) = [(1, [46]); (2, [97])].
Proof.
  change (seqZ 0 (nentries root_inode)) with [0; 1]. cbn [fmap list_fmap].
  assert (∀ j, 0 ≤ j < 2 → dirent_at V root_inode (DIRENT_SIZE * j) =
    take 16 (drop (Z.to_nat (16 * j)) fs_dir)) as Hd.
  { intros j Hj. unfold dirent_at, fslice. apply list_eq. intros i. unfold DIRENT_SIZE.
    rewrite !list_lookup_fmap. destruct (decide (i < 16)%nat) as [Hi|Hi].
    - rewrite lookup_seqZ_lt, lookup_take_lt, lookup_drop by lia. simpl.
      rewrite (one_fbyte _ 34) by (done || lia). rewrite (fs_block 34 fs_dir); [|done|lia].
      replace (Z.to_nat (16 * j + Z.of_nat i)) with (Z.to_nat (16 * j) + i)%nat by lia.
      destruct (lookup_lt_is_Some_2 fs_dir (Z.to_nat (16 * j) + i)) as [b Hb].
      { change (length fs_dir) with 1024%nat. lia. }
      rewrite Hb. simpl. f_equal. apply Z.mod_small.
      assert (bytes fs_dir) as Hby by (apply Forall_app; split; [apply Forall_app; split; apply bytes_new_entry; repeat constructor; lia|apply Forall_replicate; lia]).
      by eapply (proj1 (Forall_lookup _ _) Hby).
    - rewrite lookup_seqZ_ge, lookup_take_ge by lia. done. }
  unfold entry_at. rewrite !Hd by lia. by vm_compute.
Qed.
End mounted.
