(* ===== verification/DevTheorems.v ===== *)
(** * The device drivers

    printf() prints the text of its format, the UART sends what it is given in
    order, the console edits lines and delivers them to readers, and the disk
    driver transfers blocks. *)

From stdpp Require Import gmap list strings.
From Stdlib Require Import ZArith Lia.
From S2P Require Import Prelude Mem RingBuf Params FsData DevData Machine Spinlock Sched Sleeplock Bio BioSpec LogSpec LogTheorems FsTxn Kalloc Vm Uart Printf Console.
From S2P Require Import ConsoleSpec Virtio VirtioSpec PageTable VmWalk VmSpace UserView UserCopy VmDemo FsDemo.
#[local] Open Scope Z_scope.

(** * Reading from the console

    consoleread() takes a line, or part of one, from the front of what has been
    typed and puts it into the memory of the process. *)

Ltac wp_prim ::= wp_cons.

(** What a read of [n] bytes delivers of [rd], and what it leaves: up to a line
    end, or to a control-D, which is left for the next read unless it comes first.
    [None] when the read has to wait. *)
Fixpoint cooked (first : bool) (n : nat) (rd : list Z) : option (list Z * list Z) :=
  match n, rd with
  | O, _ => Some ([], rd)
  | S _, [] => None
  | S n', c :: rd' =>
      if c =? C 68 then Some ([], if first then rd' else rd)
      else if c =? 10 then Some ([c], rd')
      else '(bs, rest) ← cooked false n' rd'; Some (c :: bs, rest)
  end.

(** Taking a character, and putting it back. *)
Definition take_ready : console → console := upd_cs_r (λ r, u32 (r + 1)).

Lemma take_ready_spec c b rd :
  cons_ok c → ready c = b :: rd →
  cons_ok (take_ready c) ∧ ready (take_ready c) = rd ∧ editing (take_ready c) = editing c ∧ cons_at c (cs_r c) = b ∧
  upd_cs_r (λ r, u32 (r - 1)) (take_ready c) = c.
Proof.
  intros [H1 H2 H3 H4] Hr. pose proof (length_ready c) as Hl. rewrite Hr in Hl. cbn [length] in Hl.
  assert (0 < rcount (2 ^ 32) (cs_r c) (cs_w c)) as Hp by (rewrite <-Hl; lia).
  destruct (rlist_get INPUT_BUF (2 ^ 32) eq_refl eq_refl input_div _ _ _ H1 Hp) as [G1 G2].
  pose proof (rcount_next INPUT_BUF (2 ^ 32) eq_refl eq_refl (cs_r c) (cs_w c) Hp) as Hc.
  unfold ready in Hr. rewrite G2 in Hr. injection Hr as Hb Hrd.
  split_and!; [|exact Hrd|done|exact Hb|].
  - split; [exact G1|done| |done]. unfold take_ready, u32. simpl. lia.
  - destruct H1 as [_ R _ _]. destruct c as [buf r w e]. simpl in *. unfold take_ready, upd_cs_r, u32. simpl. f_equal.
    rewrite Zminus_mod_idemp_l. replace (r + 1 - 1) with r by lia. by apply Z.mod_small.
Qed.

Section consoleread.
Context `{OTH : Others, LNK : !Linker, LOK : !LinkerOk, KOB : !Kobj, KOK : !KobjOk, MIO : Mmio} (me : nat) (k0 : kernel).
Context (Hrun : running me k0) (E : Z → Z) (r : Z) (T : tables) (dst : Z) (Hd : 0 ≤ dst < 2 ^ 64).

(** [k0] with the console as [c], with or without its lock. *)
Definition cons_is (c : console) (k : kernel) : kernel := upd_dev (upd_d_cons (λ _, c)) k.

Definition reading (c : console) (out : list Z) (s : kernel) : Prop :=
  kframe (upd_hs (acq LK_cons) (cons_is c k0)) s ∧ user_at me E r T k0 dst out s.

Lemma reading_cons c out s : reading c out s → d_cons (dev s) = c.
Proof. intros [Hf _]. by rewrite (kf_dev _ _ Hf). Qed.

Lemma reading_set g c out s : reading c out s → reading (g c) out (upd_dev (upd_d_cons g) s).
Proof.
  intros [[F1 F2 F3 F4 F5 F6 F7 F8] (T' & [U1 U2 U3 U4] & Hv)]. split.
  - split; try done. simpl. by rewrite F8.
  - exists T'. split; [split; try done; by eapply (minv_same s); [|split|]|done].
Qed.

(** Storing one character. *)
Lemma reading_out {A} c out b s (f : Z → K A) Q :
  reading c out s →
  (∀ s', reading c (out ++ [b]) s' → wp (f 0) s' Q) → (∀ s', reading c out s' → wp (f (-1)) s' Q) →
  wp (put_bytes kloc [b];; r ← either_copyout 1 (u64 (dst + Z.of_nat (length out))) kloc 1; f r) s Q.
Proof.
  intros [Hf Hat] H0 H1. unfold put_bytes, either_copyout. wp_pure.
  destruct (inside_ok LK_cons me (hs s)) as (I1 & I2 & _).
  { rewrite (kf_hs _ _ Hf). simpl. apply calm_inside. by destruct Hrun. }
  apply wp_myproc; [done|]. intros h Hh. simpl in *. rewrite I2. change (nz 1) with true. cbv iota. wp_pure.
  assert (user_at me E r T k0 dst out (upd_hs (λ _, h) s)) as Hat1.
  { destruct Hat as (T' & [U1 U2 U3 U4] & Hv). exists T'. split; [split; try done; by eapply (minv_same s); [|split|]|done]. }
  match goal with |- wp _ ?k _ => change k with (upd_ram (λ m, st_bytes m kloc [b]) (upd_hs (λ _, h) s)) end.
  assert (p_pagetable (proc_of (upd_ram (λ m, st_bytes m kloc [b]) (upd_hs (λ _, h) s)) me) = r) as ->
    by (by destruct Hat1 as (? & [] & _)).
  eapply wp_mono; [by apply (user_byte_out me E r T k0 dst out b)|]. intros v s' [Hf' Hv].
  assert (kframe (upd_hs (acq LK_cons) (cons_is c k0)) s') as Hf2.
  { etrans; [|exact Hf']. etrans; [exact Hf|]. by split. }
  destruct Hv as [[-> ?]|(-> & ? & _)]; [by apply H0|by apply H1].
Qed.

Lemma reading_enter : uspace me E r T k0 → reading (d_cons (dev k0)) [] (upd_hs (acq LK_cons) k0).
Proof.
  intros Hu. split.
  - split; try done. simpl. by destruct (dev k0).
  - destruct (inside_ok LK_cons me (acq LK_cons (hs k0))) as (H1 & _ & H3); [apply calm_inside; by destruct Hrun|].
    exists T. split_and!; [|by intros; rewrite decide_False by (simpl; lia)|done].
    change (upd_hs (acq LK_cons) k0) with (upd_hs (λ _, acq LK_cons (hs k0)) k0).
    apply uspace_hart; [done|by apply H3|by apply H3|done].
Qed.

(** The outcome: all of [bs] is delivered and [rest] is left; or a character
    could not be stored, and is lost. *)
Definition read_done (bs rest : list Z) (c0 c : console) (out : list Z) : Prop :=
  cons_ok c ∧ editing c = editing c0 ∧
  (out = bs ∧ ready c = rest ∨ ∃ b bs', bs = out ++ b :: bs').

Lemma consoleread_wait_ready c out s Q :
  reading c out s → cons_ok c → ready c ≠ [] → (∀ s, reading c out s → Q true s) → wp consoleread_wait s Q.
Proof.
  intros Hs Hok Hr HQ. unfold consoleread_wait. apply (wp_loop _ (λ _ s', s' = s) (λ _ _, 0)); [|done|done]. intros _ _ ->.
  wp_pure. rewrite (reading_cons _ _ _ Hs). destruct (Z.eqb_spec (cs_r c) (cs_w c)) as [Eq|Ne].
  - destruct Hr. by apply (rlist_nil INPUT_BUF (2 ^ 32) eq_refl eq_refl); [apply Hok|].
  - wp_pure. by apply HQ.
Qed.

Lemma consoleread_spec (N : nat) bs rest :
  let c0 := d_cons (dev k0) in
  uspace me E r T k0 → cons_ok c0 → Z.of_nat N < 2 ^ 31 → cooked true N (ready c0) = Some (bs, rest) →
  wp (consoleread 1 dst (Z.of_nat N)) k0 (λ v k', ∃ c out, v = Z.of_nat (length out) ∧ read_done bs rest c0 c out ∧
    kframe (cons_is c k0) k' ∧ user_at me E r T k0 dst out k').
Proof.
  intros c0 Hu Hok HN Hck. pose proof (ru_calm _ _ Hrun) as Hc. unfold consoleread.
  rewrite u32_small by lia. apply wp_bind, (wp_enter _ me); [done|]. apply wp_bind.
  eapply (wp_mono _ _ (λ v s, ∃ c out, v = Some (Z.of_nat N - Z.of_nat (length out)) ∧ (length out ≤ N)%nat ∧
    read_done bs rest c0 c out ∧ reading c out s)).
  - apply (wp_loop _ (λ '(n, d) s, ∃ c out n' bs', n = Z.of_nat n' ∧ d = u64 (dst + Z.of_nat (length out)) ∧
        (length out + n')%nat = N ∧ bs = out ++ bs' ∧
        cooked (bool_decide (out = [])) n' (ready c) = Some (bs', rest) ∧ cons_ok c ∧ editing c = editing c0 ∧ reading c out s)
      (λ '(n, _) _, n)).
    + intros [n d] s (c & out & n' & bs' & -> & -> & Hn' & -> & Hck' & Hok' & Hed & Hs).
      destruct n' as [|n']; cbn [cooked] in Hck'.
      { simpl. wp_pure. injection Hck' as <- <-. exists c, out. rewrite app_nil_r.
        split_and!; [f_equal; lia|lia| |done]. split_and!; [done|done|by left]. }
      rewrite (proj2 (Z.ltb_lt _ _)) by lia. destruct (ready c) as [|b rd] eqn:Er; [done|]. apply wp_bind.
      eapply (consoleread_wait_ready c out); [done|done|by rewrite Er|]. clear s Hs. intros s Hs. simpl negb. cbv iota.
      wp_pure. rewrite (reading_cons _ _ _ Hs). destruct (take_ready_spec c b rd Hok' Er) as (G1 & G2 & G3 & G4 & G5).
      rewrite G4. apply (reading_set (upd_cs_r (λ r, u32 (r + 1)))) in Hs. change (upd_cs_r _ c) with (take_ready c) in Hs.
      destruct (b =? C 68).
      { injection Hck' as <- <-. rewrite app_nil_r. wp_pure. rewrite u32_small by lia.
        destruct (Z.ltb_spec (Z.of_nat (S n')) (Z.of_nat N)) as [Hlt|Hge]; wp_pure.
        - rewrite bool_decide_eq_false_2 by (intros ->; simpl in Hn'; lia).
          apply (reading_set (upd_cs_r (λ r, u32 (r - 1)))) in Hs. rewrite G5 in Hs. exists c, out.
          split_and!; [f_equal; lia|lia| |done]. split_and!; [done|done|by left].
        - rewrite bool_decide_eq_true_2 by (destruct out; [done|simpl in Hn'; lia]). exists (take_ready c), out.
          split_and!; [f_equal; lia|lia| |done]. split_and!; [done|congruence|by left]. }
      assert (∃ bs2, bs' = b :: bs2 ∧ (if b =? 10 then bs2 = [] ∧ rest = rd else cooked false n' rd = Some (bs2, rest)))
        as (bs2 & -> & Hck2).
      { destruct (b =? 10); [injection Hck' as <- <-; by exists []|].
        destruct (cooked false n' rd) as [[bs2 rest2]|]; [|done]. injection Hck' as <- <-. by exists bs2. }
      eapply (reading_out _ out b); [done|clear s Hs; intros s Hs; simpl; wp_pure..].
      * destruct (b =? 10); wp_pure.
        -- destruct Hck2 as [-> ->]. exists (take_ready c), (out ++ [b]). rewrite length_app. cbn [length].
           split_and!; [f_equal; lia|lia| |done]. split_and!; [done|congruence|by left].
        -- split; [|lia]. exists (take_ready c), (out ++ [b]), n', bs2. rewrite length_app. cbn [length].
           split_and!; [lia| |lia|by rewrite <-app_assoc| |done|congruence|done].
           ++ unfold u64. rewrite Zplus_mod_idemp_l. f_equal. lia.
           ++ rewrite bool_decide_eq_false_2 by (by destruct out). by rewrite G2.
      * exists (take_ready c), out. split_and!; [f_equal; lia|lia| |done].
        split_and!; [done|congruence|right; by exists b, bs2].
    + exists c0, [], N, bs. split_and!; try done.
      * simpl. rewrite Z.add_0_r, u64_small by lia. done.
      * apply reading_enter. done.
    + lia.
  - intros v s (c & out & -> & Hlen & Hdone & Hf & Hat). apply wp_bind.
    apply (wp_leave _ me (hs k0)); [done|exact (kf_hs _ _ Hf)|]. intros h Hh. wp_pure. exists c, out.
    replace (Z.of_nat N - (Z.of_nat N - Z.of_nat (length out))) with (Z.of_nat (length out)) by lia.
    rewrite u32_small, s32_small by lia. split_and!; [done|done| |].
    + destruct Hf as [F1 F2 F3 F4 F5 F6 F7 F8]. by split.
    + destruct Hat as (T' & Hu' & Hv). exists T'. split; [|done]. destruct Hc as [C1 C2 C3 C4].
      apply uspace_hart; [by rewrite Hh..|done].
Qed.
End consoleread.

Ltac wp_prim ::= wp_cons.

(** ** The UART's interrupts

    What happens while a process waits for room in the transmit buffer and the
    hart has nothing else to do: the scheduler takes interrupts of the UART until
    the process is runnable. *)

(** The UART has no input, and once it can take a character it can until it gets
    one. *)
Class UartSteady `{Mmio} := {
  us_quiet h : Z.land (u8 (mmio_value h (UART0 + LSR))) LSR_RX_READY = 0;
  us_stays h : tx_ready h = true → tx_ready ((UART0 + LSR, None) :: h) = true;
}.

Definition uart_machine `{Mmio} (me : nat) : Others :=
  on_hs (set_cpu (upd_cproc (λ _, None)));;
  release (LK_proc me);;
  loop (λ _ : unit,
    on_hs intr_off;;
    uartintr;;
    on_hs intr_on;;
    acquire (LK_proc me);;
    st ← get_proc me p_state;
    if bool_decide (st = RUNNABLE) then
      set_proc me (upd_p_state (λ _, RUNNING));;
      on_hs (set_cpu (upd_cproc (λ _, Some me)));;
      break tt
    else release (LK_proc me);; continue tt) tt.

Section uart_machine.
Context `{MIO : Mmio, LIV : !UartLive, STE : !UartSteady} (me : nat) (h : harts) (Hc : calm me h).

Lemma idle_rest k : idle_hart h (hs k) → length (procs k) = Z.to_nat NPROC → at_rest None k.
Proof. intros Hi Hl. destruct (idle_ok me h Hc _ Hi) as [H1 H2]. destruct (idle_cpu me h Hc _ Hi) as (E & _). split; [done|by rewrite E|done|by rewrite E|done]. Qed.

(** An interrupt without input. *)
Lemma uartintr_spec k Q :
  let m := (UART0 + LSR, None) :: d_mmio (dev k) in
  idle_hart h (hs k) → length (procs k) = Z.to_nat NPROC → uart_ok (d_uart (dev k)) →
  (∀ g u' m' ps, idle_hart h g → uart_ok u' → sent m' ++ pending u' = stream (dev k) → Forall2 woke (procs k) ps →
    let k' := upd_hs (λ _, g) (with_uart u' m' ps k) in
    pending (d_uart (dev k)) = [] ∨
    tx_ready m = false ∧ u' = d_uart (dev k) ∧ m' = (UART0 + LSR, None) :: m ∧ ps = procs k ∨
    (length (pending u') < length (pending (d_uart (dev k))))%nat ∧ writers_woken None k k' → Q tt k') →
  wp uartintr k Q.
Proof.
  intros m Hi Hl Hok HQ. unfold uartintr. set (k1 := with_mmio m k).
  apply wp_bind. apply (wp_loop _ (λ _ s, s = k) (λ _ _, 0)); [|done|lia]. intros _ s ->.
  unfold uartgetc. wp_pure. rewrite us_quiet. simpl. wp_pure. fold m. change (upd_dev _ k) with k1.
  assert (at_rest None k1) as Hr by (by apply idle_rest). pose proof Hr as [R1 R2 R3 R4 R5].
  apply wp_bind, wp_acquire; [done|apply R3|].
  apply wp_bind. eapply wp_mono; [apply (uartstart_spec None k1 Hr (d_uart (dev k1))); [exact Hok|eapply in_uart_enter; exact Hr]|].
  intros [] s (u' & out & A1 & A2 & A3 & _ & A5). eapply (uart_leave None k1 Hr); [exact A3|].
  intros h' Hh' (h2 & m' & ps & B1 & B2 & B3 & Es). rewrite Es.
  apply (HQ h2 u' m' ps); [by eapply idle_hs_eq|done| |exact B3|].
  - by rewrite B2, A2.
  - destruct A5 as [[A5 _]|[[A5 Es']|[A5 Hw]]]; [by left|right; left|right; right].
    + rewrite Es' in Es. injection Es. intros. subst. done.
    + split; [done|]. change (writers_woken None k1 (upd_hs (λ _, h2) (with_uart u' m' ps k1))). rewrite <-Es. exact Hw.
Qed.

Lemma ready_later n j m :
  tx_ready (replicate n (UART0 + LSR, None) ++ m) = true → (n ≤ j)%nat →
  tx_ready (replicate j (UART0 + LSR, None) ++ m) = true.
Proof. intros Hn. induction 1 as [|j _ IH]; [done|]. simpl. by apply us_stays. Qed.

Lemma uart_machine_spec k p :
  hs_eq (hs k) (acq (LK_proc me) h) → length (procs k) = Z.to_nat NPROC →
  procs k !! me = Some p → p_state p = SLEEPING → p_chan p = Some Ch_uart →
  uart_ok (d_uart (dev k)) → pending (d_uart (dev k)) ≠ [] →
  wp (uart_machine me) k (λ _ k', hs_eq (set_intena (if sie h then 1 else 0) (hs k')) (acq (LK_proc me) h) ∧
    length (procs k') = Z.to_nat NPROC ∧ p_state (proc_of k' me) = RUNNING ∧ same_rest k k' ∧ uart_ok (d_uart (dev k')) ∧
    stream (dev k') = stream (dev k) ∧
    (length (pending (d_uart (dev k'))) < length (pending (d_uart (dev k))))%nat).
Proof.
  intros Hh Hl Hp Hst Hch Hok Hne. unfold uart_machine, others. set (hi := set_cproc None h).
  assert (idle_hart h hi) as Hi by (by eapply idle_start). destruct (idle_ok me h Hc _ Hi) as [Hoki Hfi].
  apply wp_bind, wp_set_cproc. apply wp_bind, (wp_release_eq _ hi); [done|apply Hfi| |].
  { simpl. etrans; [|apply set_cproc_acq]. exact (set_cproc_hs _ _ None Hh). }
  intros g1 Hg1. assert (idle_hart h g1) as Hi1 by (by eapply idle_hs_eq).
  set (m := d_mmio (dev k)). destruct (uart_live m) as (n & Hn & Hrdy).
  apply (wp_loop _ (λ _ s, ∃ g j, idle_hart h g ∧ (j ≤ S n)%nat ∧ s = upd_hs (λ _, g) (with_mmio (replicate j (UART0 + LSR, None) ++ m) k))
    (λ _ s, Z.of_nat (S n + length m) - Z.of_nat (length (d_mmio (dev s))))).
  - intros _ s (g & j & Hg & Hj & ->). apply wp_bind, wp_intr_off.
    eassert (idle_hart h _) as Hi2 by (eapply (idle_csr _ _ (λ x, Z.land x (Z.lnot SSTATUS_SIE))); [apply sie_land_off|exact Hg]).
    apply wp_bind, uartintr_spec; [exact Hi2|done|done|].
    assert (sent (replicate j (UART0 + LSR, None) ++ m) = sent m) as Esent.
    { clear. induction j as [|j IH]; [done|]. simpl. by rewrite sent_read. }
    intros g' u' m' ps Hg' Hu' Hs' Hps k1 Hcase. unfold stream in Hs'. simpl in Hs', Hps. rewrite Esent in Hs'.
    apply wp_bind, wp_intr_on.
    pose proof (idle_csr h g' (λ x, Z.lor x SSTATUS_SIE) sie_lor_off Hg') as Hi4.
    destruct (idle_ok me h Hc _ Hi4) as [Hok4 Hf4]. apply wp_bind, wp_acquire; [exact Hok4|apply Hf4|]. wp_pure.
    destruct Hcase as [Hcase|[(Er & -> & -> & ->)|[Hlt Hw]]]; [by destruct Hne| |].
    + match goal with |- context [proc_of ?s me] => assert (p_state (proc_of s me) = SLEEPING) as Ep end.
      { unfold proc_of. simpl. by rewrite Hp. }
      rewrite Ep, bool_decide_eq_false_2 by done. apply wp_bind, (wp_release_eq _ (upd_csr (upd_sstatus (λ x : Z, Z.lor x SSTATUS_SIE)) g')); [exact Hok4|apply Hf4|reflexivity|].
      intros g2 Hg2. wp_pure.
      assert (j + 1 < n)%nat as Hjn.
      { destruct (decide (n ≤ S j)%nat) as [Hle|]; [|lia]. pose proof (ready_later n (S j) m Hrdy Hle) as E.
        change (tx_ready (replicate (S j) (UART0 + LSR, None) ++ m) = false) in Er. congruence. }
      split.
      * exists g2, (S (S j)). split_and!; [by eapply idle_hs_eq|lia|]. destruct k as [? ? ? ? ? ? ? ? ? ? []]. reflexivity.
      * simpl. rewrite !length_app, length_replicate. lia.
    + match goal with |- context [proc_of ?s me] => assert (p_state (proc_of s me) = RUNNABLE) as Ep end.
      { by apply (Hw me p). }
      rewrite Ep, bool_decide_eq_true_2 by done. wp_pure. apply wp_set_cproc. wp_pure.
      destruct (Forall2_lookup_l _ _ _ _ _ Hps Hp) as (q & Hq & _). split_and!.
      * eapply (idle_back me h Hc); [exact Hi4|reflexivity].
      * simpl. by rewrite length_alter, <-(Forall2_length _ _ _ Hps).
      * unfold proc_of. simpl. by rewrite list_lookup_alter_eq, Hq.
      * by eexists _, _, _.
      * done.
      * exact Hs'.
      * exact Hlt.
  - exists g1, 0%nat. split_and!; [done|lia|]. by destruct k as [? ? ? ? ? ? ? ? ? ? []].
  - simpl. fold m. lia.
Qed.
End uart_machine.

(** The interrupt handler keeps the promise to a process that waits. *)
#[export] Instance uart_machine_others `{MIO : Mmio, LIV : !UartLive, STE : !UartSteady} me :
  UartOthers (OTH := uart_machine me) me same_rest (λ cs, cs = []).
Proof.
  refine {| uw_rank := λ _, 0 |}; [done|split| |done| |].
  - intros k. exists (hs k), (procs k), (dev k). by destruct k.
  - intros k1 k2 k3 (h & ps & d & ->) (h' & ps' & d' & ->). by exists h', ps', d'.
  - done.
  - by intros ? ? -> ->.
  - intros h k p Hc Hh Hl Hp Hst Hch Hok Hfull.
    eapply wp_mono; [exact (uart_machine_spec me h Hc k p Hh Hl Hp Hst Hch Hok ltac:(intros E; by rewrite E in Hfull))|].
    intros [] k' (A1 & A2 & A3 & A4 & A5 & A6 & A7).
    split_and!; [exact A1|exact A2|exact A3|exact A4|exact A5|exists []; by rewrite app_nil_r|left; by rewrite <-Hfull].
Defined.

(** ** Sequences of characters *)

(** The characters [cs] arrive, as in the loop of uartintr(). *)
Fixpoint type_all `{MIO : Mmio} (cs : list Z) : K unit :=
  match cs with
  | [] => mret tt
  | c :: cs' => consoleintr c;; type_all cs'
  end.

(** What they do to the lines and the processes, and what is echoed. *)
Inductive edits (me : nat) : list Z → list proc → list Z → list Z → list proc → list Z → list Z → list Z → Prop :=
| edits_nil ps rd ed : edits me [] ps rd ed ps rd ed []
| edits_cons b cs ps rd ed rd1 ed1 out1 ps2 rd2 ed2 out2 :
    edit_step b ps rd ed rd1 ed1 out1 → edits me cs (woken me rd rd1 ps) rd1 ed1 ps2 rd2 ed2 out2 →
    edits me (b :: cs) ps rd ed ps2 rd2 ed2 (out1 ++ out2).

Section dev_theorems.
Context `{OTH : Others, MIO : Mmio, LIV : !UartLive}.

(** printf() sends exactly the text that the format string stands for: literal
    characters as they are, %d and %x as numerals in base 10 and 16 without
    leading zeros, %p as 16 hexadecimal digits, %s as the string; it takes and gives back the lock and
    changes nothing else. *)
Theorem printf_correct fmt ap t k :
  hart_ok (hs k) → noff (the_cpu (hs k)) < 2 ^ 31 - 2 → lock_free LK_pr (hs k) → d_panicked (dev k) = 0 →
  formats fmt ap t → wp (printf fmt ap) k (λ _ k', printed t k k').
Proof.
  intros Hok Hn Hf Hp Ht. by apply kprintf_spec.
Qed.

(** C39. uartputc() puts the character behind those that wait to be sent and starts the
    UART.  When the buffer is full it waits until there is room, whatever others
    do that keep to [UartOthers]: it returns, and what has been sent followed by
    what waits is what it was, then what others have written in the meantime,
    then the character: nothing is lost, overtaken or overwritten.  With room in
    the buffer it does not wait and nothing else changes.  The UART is left idle
    only with nothing to send. *)
Theorem uartputc_correct me R W `{UOT : !UartOthers me R W} c k :
  running me k → p_state (proc_of k me) = RUNNING → d_panicked (dev k) = 0 → uart_ok (d_uart (dev k)) →
  wp (uartputc c) k (λ _ k', ∃ more, W more ∧ running me k' ∧ p_state (proc_of k' me) = RUNNING ∧ R k k' ∧
    uart_ok (d_uart (dev k')) ∧ stalled (d_uart (dev k')) k' ∧
    stream (dev k') = stream (dev k) ++ more ++ [u8 c] ∧ (room k → more = [] ∧ kquiet k k' ∧ fs k' = fs k)).
Proof. intros Hrun Hst Hp Hok. by apply uartputc_spec. Qed.

(** C40. The interrupt handler makes room for a process that waits in uartputc(): on
    a hart that meanwhile only takes interrupts of the UART, uartputc() returns
    even when the buffer is full, the process runs on, and exactly its
    character comes after those that were sent or waited before; memory and files
    do not change.  The UART has no input meanwhile, gets ready some time after
    each character and then stays ready. *)
Theorem uartintr_makes_room `{STE : !UartSteady} me c k :
  running me k → p_state (proc_of k me) = RUNNING → d_panicked (dev k) = 0 → uart_ok (d_uart (dev k)) →
  wp (uartputc (OTH := uart_machine me) c) k (λ _ k', running me k' ∧ p_state (proc_of k' me) = RUNNING ∧
    same_rest k k' ∧ uart_ok (d_uart (dev k')) ∧ stalled (d_uart (dev k')) k' ∧
    stream (dev k') = stream (dev k) ++ [u8 c]).
Proof.
  intros Hrun Hst Hp Hok. eapply wp_mono; [by apply (uartputc_spec (OTH := uart_machine me) me same_rest (λ cs, cs = []))|].
  intros [] k' (more & -> & A1 & A2 & A3 & A4 & A5 & A6 & _). by split_and!.
Qed.

(** A process other than [me] that waits for input. *)
Definition reader (me p : nat) (k : kernel) : Prop :=
  p ≠ me ∧ p_state (proc_of k p) = SLEEPING ∧ p_chan (proc_of k p) = Some Ch_cons.

(** The state after some characters: the processes are [ps]. *)
Definition typed (me : nat) (k : kernel) (ps : list proc) (rd ed out : list Z) (k' : kernel) : Prop :=
  let c' := d_cons (dev k') in
  cons_ok c' ∧ ready c' = rd ∧ editing c' = ed ∧ sent (d_mmio (dev k')) = sent (d_mmio (dev k)) ++ out ∧
  kquiet k k' ∧ fs k' = fs k ∧ d_panicked (dev k') = d_panicked (dev k) ∧ procs k' = ps.

Lemma typed_one me b k :
  let c := d_cons (dev k) in
  running me k → d_panicked (dev k) = 0 → cons_ok c → byte b → names_ok (procs k) →
  wp (consoleintr b) k (λ _ k', ∃ rd ed out, edit_step b (procs k) (ready c) (editing c) rd ed out ∧
    typed me k (woken me (ready c) rd (procs k)) rd ed out k').
Proof.
  intros c Hrun Hp Hok Hb Hn. eapply wp_mono; [by apply (consoleintr_spec me k Hrun Hp)|].
  intros ? k' (c' & out & Hst & Hok' & h & m & Hh & Hm & ->). exists (ready c'), (editing c'), out. split; [done|].
  unfold typed. cbn -[ready editing]. split_and!; try done.
  split; try done. cbn -[ready]. unfold woken. case_decide; [done|apply woke_wake_all].
Qed.

Lemma names_ok_woken me rd rd' ps : names_ok ps → names_ok (woken me rd rd' ps).
Proof.
  intros Hn. unfold woken. case_decide; [done|]. apply Forall_lookup. intros i p Hp.
  destruct (Forall2_lookup_r _ _ _ _ _ (woke_wake_all (Some Ch_cons) (Some me) ps) Hp) as (q & Hq & Hw).
  pose proof (Forall_lookup_1 _ _ _ _ Hn Hq) as Hq'. by destruct Hw as [-> |[_ ->]].
Qed.

(** Readers are woken when there is more to read. *)
Lemma edits_readers me cs ps rd ed ps' rd' ed' out p q :
  edits me cs ps rd ed ps' rd' ed' out → rd' ≠ rd → p ≠ me →
  ps !! p = Some q → p_state q = SLEEPING → p_chan q = Some Ch_cons →
  ∃ q', ps' !! p = Some q' ∧ p_state q' = RUNNABLE.
Proof.
  intros He Hne Hp. revert q.
  assert (∀ rd rd' ps q, ps !! p = Some q → p_state q = RUNNABLE →
    ∃ q', woken me rd rd' ps !! p = Some q' ∧ p_state q' = RUNNABLE) as Hstay.
  { intros r1 r2 ps1 q Hq Hs. unfold woken. case_decide; [by exists q|]. unfold wake_all. rewrite list_lookup_imap, Hq. simpl.
    eexists. split; [done|]. case_decide; [done|]. unfold wake_one. by rewrite Hs. }
  assert (∀ cs ps rd ed ps' rd' ed' out q, edits me cs ps rd ed ps' rd' ed' out → ps !! p = Some q → p_state q = RUNNABLE →
    ∃ q', ps' !! p = Some q' ∧ p_state q' = RUNNABLE) as Hkeep.
  { clear -Hstay. intros cs ps rd ed ps' rd' ed' out q He. revert q. induction He as [|b cs ps rd ed rd1 ed1 out1 ps2 rd2 ed2 out2 Hst He IH]; intros q Hq Hs; [eauto|].
    destruct (Hstay rd rd1 ps q Hq Hs) as (q' & Hq' & Hs'). eauto. }
  induction He as [|b cs ps rd ed rd1 ed1 out1 ps2 rd2 ed2 out2 Hst He IH]; intros q Hq Hs Hc; [done|].
  destruct (decide (rd1 = rd)) as [->|Hr].
  - unfold woken in *. rewrite decide_True in IH by done. by eapply IH.
  - eapply (Hkeep _ _ _ _ _ _ _ _ (upd_p_state (λ _, RUNNABLE) q) He); [|done]. unfold woken. rewrite decide_False by done.
    unfold wake_all. rewrite list_lookup_imap, Hq. simpl. rewrite decide_False by congruence.
    unfold wake_one. by rewrite Hs, Hc, !bool_decide_eq_true_2.
Qed.

(** C38. The console is a line editor: for every sequence of characters, the lines
    that can be read, the line that is edited and what is echoed are those of
    the editor [edit_step], character by character: control-U, backspace, full
    buffers, and control-P, which prints a line for every process and changes
    nothing else.  Whenever there is more to read, exactly the processes that
    wait for input become runnable.  The names of the processes are bytes, and the
    UART gets ready some time after each character. *)
Theorem consoleintr_correct me cs k :
  let c := d_cons (dev k) in
  running me k → d_panicked (dev k) = 0 → cons_ok c → Forall byte cs → names_ok (procs k) →
  wp (type_all cs) k (λ _ k', ∃ ps rd ed out,
    edits me cs (procs k) (ready c) (editing c) ps rd ed out ∧ typed me k ps rd ed out k' ∧
    (rd ≠ ready c → ∀ p, reader me p k → p_state (proc_of k' p) = RUNNABLE)).
Proof.
  intros c Hrun Hp Hok Hb Hn. subst c.
  assert (wp (type_all cs) k (λ _ k', ∃ ps rd ed out,
    edits me cs (procs k) (ready (d_cons (dev k))) (editing (d_cons (dev k))) ps rd ed out ∧ typed me k ps rd ed out k')) as H.
  { revert k Hrun Hp Hok Hn. induction Hb as [|b cs Hb Hcs IH]; intros k Hrun Hp Hok Hn; cbn [type_all].
    - wp_pure. do 4 eexists. split; [constructor|]. unfold typed. rewrite app_nil_r. split_and!; done.
    - apply wp_bind. eapply wp_mono; [by apply (typed_one me b k)|]. intros ? k1 (rd1 & ed1 & out1 & Hst & H1).
      pose proof H1 as (A1 & A2 & A3 & A4 & A5 & A6 & A7 & A8).
      eapply wp_mono; [apply (IH k1); [by eapply kquiet_running|congruence|done|rewrite A8; by apply names_ok_woken]|].
      intros ? k2 (ps & rd & ed & out & He & (B1 & B2 & B3 & B4 & B5 & B6 & B7 & B8)). rewrite A2, A3, A8 in He.
      exists ps, rd, ed, (out1 ++ out). split; [by econstructor|]. unfold typed.
      split_and!; [done|done|done|by rewrite B4, A4, app_assoc|by etrans|congruence|congruence|done]. }
  eapply wp_mono; [exact H|]. intros ? k' (ps & rd & ed & out & He & Ht). exists ps, rd, ed, out. split_and!; [done|done|].
  intros Hne p (H1 & H2 & H3). destruct Ht as (_ & _ & _ & _ & _ & _ & _ & Eps). unfold proc_of in *.
  destruct (procs k !! p) as [q|] eqn:Hq; [|done].
  destruct (edits_readers me _ _ _ _ _ _ _ _ p q He Hne H1 Hq H2 H3) as (q' & Hq' & Hs'). by rewrite Eps, Hq'.
Qed.
End dev_theorems.

(** consoleread() delivers the user what [cooked] takes from the lines that
    are ready: up to the end of a line or a control-D, which is left for the
    next read when something comes before it; only the reader's memory changes. *)
Theorem consoleread_correct `{OTH : Others, LNK : !Linker, LOK : !LinkerOk, KOB : !Kobj, KOK : !KobjOk, MIO : Mmio}
    me k E r T dst (n : nat) bs rest :
  let c0 := d_cons (dev k) in
  running me k → 0 ≤ dst < 2 ^ 64 → uspace me E r T k → cons_ok c0 → Z.of_nat n < 2 ^ 31 →
  cooked true n (ready c0) = Some (bs, rest) →
  wp (consoleread 1 dst (Z.of_nat n)) k (λ v k', ∃ c out, v = Z.of_nat (length out) ∧ read_done bs rest c0 c out ∧
    kframe (cons_is c k) k' ∧ user_at me E r T k dst out k').
Proof. intros c0 Hrun Hd Hu Hok Hn Hck. by apply consoleread_spec. Qed.

(** C37. With a device that serves requests as the virtio block protocol says,
    virtio_disk_rw() returns, after sleeping until the interrupt, and its effect
    is that of the synchronous transfer of one block on which the buffer cache is built;
    the descriptors are free again and the process runs on as before. *)
Theorem virtio_disk_rw_correct `{MIO : Mmio, DPG : DiskPages} device me k b write p :
  serves device → running me k → vd_idle (d_vdisk (dev k)) →
  procs k !! me = Some p → p_state p = RUNNING → p_chan p = None →
  (b < length (bcache (fs k)))%nat → b_disk (buf_of (fs k) b) = 0 → 0 ≤ b_blockno (buf_of (fs k) b) < 2 ^ 31 →
  ∃ k1, disk_rw b write k = Ok tt k1 ∧
  wp (virtio_disk_rw (OTH := machine device me) b write) k (λ _ k', kquiet k k' ∧ vd_idle (d_vdisk (dev k')) ∧ fs k' = fs k1).
Proof.
  intros Hdev Hrun Hv Hp Hst Hch Hb Hd Hn. eexists. split; [apply disk_rw_eq|]. by apply (virtio_disk_rw_spec device Hdev me k b write p).
Qed.

(** ** Witnesses *)

(** A UART that is always idle, and no other device. *)
#[local] Instance idle_uart : Mmio := λ _ a, if a =? UART0 + LSR then LSR_TX_IDLE else 0.
Lemma idle_uart_live : UartLive.
Proof. intros h. by exists 0%nat. Qed.

Lemma printf_correct_witness :
  wp (printf (chars "%d %x") [A_int (-20); A_int 255]) boot_kernel (λ _ k', printed (chars "-20 ff") boot_kernel k').
Proof.
  apply (printf_correct (LIV := idle_uart_live)); [apply boot_running|vm_compute; done|by vm_compute|done|].
  change (chars "-20 ff") with ([45; 50; 48] ++ 32 :: [102; 102] ++ []).
  apply F_d.
  { exists [2; 0]. split; [|done]. split; [repeat constructor; lia|done|done|done]. }
  apply F_char; [done|done|]. apply F_x; [|apply F_end].
  exists [15; 15]. split; [|done]. split; [repeat constructor; lia|done|done|done].
Defined.

Lemma uart0_ok : uart_ok uart0.
Proof. split; [by split|]. constructor. Qed.

#[local] Instance idle_uart_steady : UartSteady.
Proof. by split. Qed.

(** The buffer is full; process 0 runs. *)
Definition full_kernel : kernel :=
  upd_procs (alter (upd_p_state (λ _, RUNNING)) 0%nat)
    (upd_dev (upd_d_uart (λ _, mkUart (replicate 32 66) 32 0)) boot_kernel).

Lemma full_running : running 0 full_kernel.
Proof. destruct boot_running as [H1 H2]. by split. Qed.

Lemma full_ok : uart_ok (d_uart (dev full_kernel)).
Proof. split; [by split|]. change (Forall (λ c, 0 ≤ c < 256) (replicate 32 66)). by apply Forall_replicate. Qed.

(** It waits for the interrupt handler. *)
Lemma uartputc_correct_witness :
  ¬ room full_kernel ∧
  wp (uartputc (OTH := uart_machine 0) 65) full_kernel (λ _ k', stream (dev k') = replicate 32 66 ++ [65]).
Proof.
  split; [unfold room; vm_compute; lia|].
  eapply wp_mono; [apply (uartputc_correct (OTH := uart_machine 0) 0 same_rest (λ cs, cs = [])
    (UOT := uart_machine_others (LIV := idle_uart_live) 0) 65 full_kernel); [exact full_running|done|done|exact full_ok]|].
  intros ? k' (more & -> & _ & _ & _ & _ & _ & E & _). rewrite E. by vm_compute.
Defined.

Lemma uartintr_makes_room_witness :
  ¬ room full_kernel ∧
  wp (uartputc (OTH := uart_machine 0) 65) full_kernel (λ _ k', stream (dev k') = replicate 32 66 ++ [65] ∧
    p_state (proc_of k' 0) = RUNNING).
Proof.
  split; [unfold room; vm_compute; lia|].
  eapply wp_mono; [apply (uartintr_makes_room (LIV := idle_uart_live) 0 65 full_kernel); [exact full_running|done|done|exact full_ok]|].
  intros ? k' (_ & A2 & _ & _ & _ & E). rewrite E. split; [by vm_compute|done].
Defined.

Lemma cons0_ok : cons_ok cons0.
Proof. split; [by split|by split|by vm_compute|constructor]. Qed.

(** The user types [a], control-P, backspace, [b] and return. *)
Lemma consoleintr_correct_witness :
  wp (type_all [97; 16; 127; 98; 13]) boot_kernel (λ _ k', ready (d_cons (dev k')) = [98; 10]).
Proof.
  eapply wp_mono; [apply (consoleintr_correct (LIV := idle_uart_live) 0 [97; 16; 127; 98; 13] boot_kernel)|].
  - exact boot_running.
  - done.
  - exact cons0_ok.
  - repeat constructor; done.
  - apply Forall_replicate. constructor.
  - intros ? k' (ps & rd & ed & out & He & (_ & -> & _) & _).
    repeat match goal with H : edits _ (_ :: _) _ _ _ _ _ _ _ |- _ => inversion H; clear H; simplify_eq end.
    repeat match goal with H : edit_step ?b _ _ _ _ _ _ |- _ =>
      first [unfold edit_step in H; change (b =? C 80) with true in H; destruct H as (-> & -> & _)
            |unfold edit_step in H; change (b =? C 80) with false in H; vm_compute in H; simplify_eq] end.
    by match goal with H : edits _ [] _ _ _ _ _ _ _ |- _ => inversion H end.
Defined.

(** A line has been typed; process 0 reads it. *)
Definition a_line : console := mkCons ([104; 105; 10; 120] ++ replicate 124 0) 0 3 4.
Definition at_console : kernel := cons_is a_line (mount fs_boot).

Lemma at_console_running : running 0 at_console.
Proof. destruct boot_running as [H1 H2]. split; [done|]. exact (eq_trans (length_alter _ _ _) H2). Qed.

Lemma at_console_user : uspace 0 (owned []) (pg 0) demo_T at_console.
Proof.
  split; [|exact demo_E|by rewrite demo_parent|done].
  by apply (minv_hart demo); [exact demo_minv|exact at_console_running|..].
Qed.

Lemma consoleread_correct_witness :
  wp (consoleread (OTH := alone) 1 64 100) at_console (λ v k', v ≤ 3 ∧
    user_at 0 (owned []) (pg 0) demo_T at_console 64 (take (Z.to_nat v) [104; 105; 10]) k').
Proof.
  eapply wp_mono; [apply (consoleread_correct (OTH := alone) 0 at_console (owned []) (pg 0) demo_T 64 100 [104; 105; 10] [])|].
  - exact at_console_running.
  - lia.
  - exact at_console_user.
  - split; [by split|by split|by vm_compute|repeat constructor].
  - done.
  - by vm_compute.
  - intros v k' (c & out & -> & (_ & _ & Hd) & _ & Hat). rewrite Nat2Z.id.
    assert (out `prefix_of` [104; 105; 10]) as [l E].
    { destruct Hd as [[-> _]|(b & bs & ->)]; [done|by eexists]. }
    split; [|rewrite E, take_app_length; exact Hat].
    apply (f_equal length) in E. rewrite length_app in E. cbn [length] in E. lia.
Defined.

(** A device that follows the protocol. *)
Definition block_device : K unit := λ k,
  let v := d_vdisk (dev k) in
  if decide (vd_avail_idx v = u16 (vd_dev_idx v + 1)) then
    match vd_avail_ring v !! Z.to_nat (vd_dev_idx v mod NUM) with
    | Some i => match request v i with Some (b, rq, st) => Ok tt (served i b rq st k) | None => Ok tt k end
    | None => Ok tt k
    end
  else Ok tt k.

Lemma block_device_serves : serves block_device.
Proof. intros k i b rq st v H1 H2 H3. unfold block_device. fold v. by rewrite decide_True, H2, H3. Qed.

(** Process 0 runs, no request is outstanding, buffer 3 holds block 40. *)
Definition with_disk : kernel :=
  upd_procs (alter (upd_p_state (λ _, RUNNING)) 0%nat)
    (upd_dev (upd_d_vdisk (upd_vd_free (λ _, replicate 8 1)))
      (upd_fs (upd_bcache (alter (upd_b_blockno (λ _, 40)) 3%nat)) fs_boot)).

Lemma virtio_disk_rw_correct_witness :
  wp (virtio_disk_rw (OTH := machine block_device 0) 3 true) with_disk (λ _ k', disk (fs k') !! 40 = Some zero_block).
Proof.
  destruct (virtio_disk_rw_correct (DPG := 0) block_device 0 with_disk 3 true (upd_p_state (λ _, RUNNING) proc0))
    as (k1 & E1 & Hwp).
  - exact block_device_serves.
  - destruct boot_running as [H1 H2]. split; [done|]. exact (eq_trans (length_alter _ _ _) H2).
  - split; try done.
  - done.
  - done.
  - done.
  - apply Nat.ltb_lt. by vm_compute.
  - done.
  - split; [|]; done.
  - eapply wp_mono; [exact Hwp|]. intros ? k' (_ & _ & ->). injection E1 as <-.
    exact (lookup_insert_eq fs_disk 40 zero_block).
Defined.
