(* ===== verification/PipeTheorems.v ===== *)
(** * Pipes: the theorems

    A pipe is a queue of bytes of bounded length: what pipewrite() and piperead()
    do to it, and that the bytes come out as they went in. *)

From stdpp Require Import gmap list strings.
From Stdlib Require Import ZArith Lia.
From S2P Require Import Prelude Mem RingBuf Params FsData DevData Machine Spinlock Sched Kalloc Vm Sleeplock.
From S2P Require Import FsTxn PageTable VmWalk VmSpace UserView UserCopy Pipe PipeSpec.
From S2P Require Import BioSpec LogSpec LogTheorems VmDemo FsDemo.
#[local] Open Scope Z_scope.
Ltac wp_prim ::= wp_proc.

Section pipe_theorems.
Context `{OTH : Others, LNK : !Linker, LOK : !LinkerOk, KOB : !Kobj, KOK : !KobjOk} (me : nat).

(** pipewrite() refines adding at the end of a queue: when the pipe has room
    for the bytes [bs] that the process has at [addr], it returns their number,
    the pipe's queue is the old one followed by [bs], and no memory that a process
    sees has changed.  When the read end is closed or the process has been killed
    it returns -1 and nothing has changed. *)
Theorem pipewrite_correct E r T pi p k addr bs :
  running me k → uspace me E r T k → pipes (fs k) !! pi = Some p → pipe_ok p → user_has r T k addr bs →
  (0 < length bs)%nat → (length (pq p) + length bs ≤ Z.to_nat PIPESIZE)%nat →
  wp (pipewrite pi addr (Z.of_nat (length bs))) k (λ v k',
    if (pi_readopen p =? 0) || nz (p_killed (proc_of k me)) then v = -1 ∧ kframe k k' ∧ mem_same k k'
    else v = Z.of_nat (length bs) ∧ ∃ p', pipe_done me pi p p' (Ch_nread pi) k k' ∧ pq p' = pq p ++ bs ∧
      user_same me E r T k k').
Proof.
  intros Hrun Hu Hp Hok Hbs Hn Hfit. destruct (_ || _) eqn:Hb.
  - apply (pipewrite_broken me pi p); [done|done|lia|]. apply orb_true_iff in Hb as [Hb|Hb].
    + left. by apply Z.eqb_eq.
    + right. unfold nz in Hb. by destruct (Z.eqb_spec (p_killed (proc_of k me)) 0).
  - apply orb_false_iff in Hb as [H1 H2]. apply Z.eqb_neq in H1. apply negb_false_iff, Z.eqb_eq in H2.
    by apply pipewrite_fits.
Qed.

(** piperead() refines taking from the front of a queue: when the pipe is not
    empty, or nobody can write to it any more, it does not wait; it returns how
    many bytes it has taken, they are at [dst] of the process in the order in
    which they were written, nothing else of any process has changed, and the
    queue has lost them.  It takes the smaller of [n] and what there is, except
    when a byte cannot be stored at its address (no page there, or a
    copy-on-write page and no free page): that byte is lost as well. *)
Theorem piperead_correct E r T pi p k dst (n : nat) :
  running me k → uspace me E r T k → pipes (fs k) !! pi = Some p → pipe_ok p →
  (pq p ≠ [] ∨ pi_writeopen p = 0) → 0 ≤ dst < 2 ^ 64 → Z.of_nat n < 2 ^ 31 →
  wp (piperead pi dst (Z.of_nat n)) k (λ v k', ∃ i p', v = Z.of_nat i ∧
    pipe_done me pi p p' (Ch_nwrite pi) k k' ∧ user_at me E r T k dst (take i (pq p)) k' ∧
    took n i (pq p) (pq p') (stuck T (ram k) r (dst + Z.of_nat i) k')).
Proof. apply piperead_ready. Qed.

(** C26. What is written to an empty pipe is what is read from it, in order: after
    pipewrite() of [bs], piperead() of as many bytes returns all of them and the
    pipe is empty again.  It returns less, say [i], only if byte [i] of the
    destination cannot be stored: the user has no page there, or it is a
    copy-on-write page and no page is free; the first [i] bytes are there. *)
Theorem pipe_roundtrip E r T pi p k addr dst bs :
  running me k → uspace me E r T k → pipes (fs k) !! pi = Some p → pipe_ok p → user_has r T k addr bs →
  pq p = [] → pi_readopen p ≠ 0 → p_killed (proc_of k me) = 0 → (0 < length bs ≤ Z.to_nat PIPESIZE)%nat →
  0 ≤ dst < 2 ^ 64 →
  wp (w ← pipewrite pi addr (Z.of_nat (length bs)); v ← piperead pi dst w; mret v) k (λ v k',
    v = Z.of_nat (length bs) ∧ user_at me E r T k dst bs k' ∧ pq (pipe_of (fs k') pi) = [] ∨
    ∃ i, v = Z.of_nat i ∧ user_stuck me E r T k dst bs i k').
Proof.
  intros Hrun Hu Hp Hok Hbs Hq Hro Hkl Hl Hd. apply wp_bind.
  eapply wp_mono; [eapply (pipewrite_fits me E r T pi p k addr bs); try done; rewrite Hq; simpl; lia|].
  intros v k1 (-> & p1 & (Hf1 & Hok1 & _ & _) & Hq1 & [Hu1 Hv1]). rewrite Hq in Hq1. simpl in Hq1.
  apply wp_bind. eapply wp_mono; [apply (piperead_ready me E r T pi p1 k1)|].
  - destruct Hrun as [Hc Hlp]. split; [by rewrite (kf_hs _ _ Hf1)|].
    rewrite (kf_procs _ _ Hf1). simpl. unfold wake_all. by rewrite length_imap.
  - done.
  - rewrite (kf_fs _ _ Hf1). simpl. by rewrite lookup_insert_eq.
  - done.
  - left. rewrite Hq1. by destruct bs; [simpl in Hl; lia|].
  - done.
  - assert (PIPESIZE = 512) by done. lia.
  - intros v k2 (i & p2 & -> & (Hf2 & _) & (T' & Hu2 & Hv2 & Hc2) & Ht). wp_pure. rewrite Hq1 in *. unfold took in Ht.
    assert (user_at me E r T k dst (take i bs) k2) as Hat.
    { exists T'. split_and!; [done| |done]. intros r' va. rewrite Hv2. destruct (decide (r' = r ∧ _)); [done|]. apply Hv1. }
    rewrite Nat.min_id in Ht. destruct Ht as [[-> Ht]|(Hi & _ & Hst)]; [left|right].
    2:{ exists i. unfold user_stuck. split_and!; [done|done|done|]. destruct Hst as [Hno|?]; [left|by right]. by rewrite <-Hv1. }
    rewrite firstn_all in Hat. split_and!; [done|done|].
    + unfold pipe_of. rewrite (kf_fs _ _ Hf2). simpl. rewrite lookup_insert_eq. simpl. rewrite Ht. by apply drop_ge.
Qed.
End pipe_theorems.

(** ** Witnesses *)

(** A machine on which process 0 has an empty pipe. *)
Definition a_pipe : pipe := mkPipe (replicate (Z.to_nat PIPESIZE) 5) 4294967295 4294967295 1 1.
Definition piping : kernel := with_pipe 77 a_pipe (mount fs_boot).

Lemma a_pipe_ok : pipe_ok a_pipe.
Proof. split; vm_compute; done. Qed.

Lemma piping_running : running 0 piping.
Proof. destruct boot_running as [H1 H2]. split; [done|]. exact (eq_trans (length_alter _ _ _) H2). Qed.

Lemma piping_user : uspace 0 (owned []) (pg 0) demo_T piping.
Proof.
  split; [|exact demo_E|by rewrite demo_parent|].
  - by apply (minv_hart demo); [exact demo_minv|exact piping_running|..].
  - done.
Qed.

Lemma piping_bytes : user_has (pg 0) demo_T piping 8 [0; 0; 0].
Proof.
  split_and!; [lia|simpl; lia|]. intros i b Hb.
  destruct i as [|[|[|i]]]; [injection Hb as <-; by vm_compute..|done].
Qed.

Lemma pipewrite_correct_witness :
  wp (pipewrite (OTH := alone) 77 8 3) piping (λ v k', v = 3 ∧ pq (pipe_of (fs k') 77) = [0; 0; 0]).
Proof.
  eapply wp_mono; [apply (pipewrite_correct (OTH := alone) 0 (owned []) (pg 0) demo_T 77 a_pipe piping 8 [0; 0; 0])|].
  - exact piping_running.
  - exact piping_user.
  - done.
  - exact a_pipe_ok.
  - exact piping_bytes.
  - simpl. lia.
  - assert (pq a_pipe = []) as -> by (by vm_compute). assert (PIPESIZE = 512) as -> by done. simpl. lia.
  - intros v k' (-> & p' & (Hf & _) & Hq & _). split; [done|]. unfold pipe_of. rewrite (kf_fs _ _ Hf).
    cbn [fs after_pipe upd_procs with_pipe upd_fs pipes upd_pipes]. rewrite lookup_insert_eq. change (default pipe0 (Some p')) with p'. rewrite Hq. by vm_compute.
Defined.

(** The writer has gone, two bytes are left. *)
Definition left_pipe : pipe := mkPipe (<[511%nat := 104]> (<[0%nat := 105]> (replicate (Z.to_nat PIPESIZE) 5))) 4294967295 1 1 0.

Lemma piperead_correct_witness :
  wp (piperead (OTH := alone) 77 100 10) (with_pipe 77 left_pipe piping) (λ v k', v ≤ 2 ∧
    user_at 0 (owned []) (pg 0) demo_T (with_pipe 77 left_pipe piping) 100 (take (Z.to_nat v) [104; 105]) k').
Proof.
  assert (pq left_pipe = [104; 105]) as Hq by (by vm_compute).
  eapply wp_mono; [apply (piperead_correct (OTH := alone) 0 (owned []) (pg 0) demo_T 77 left_pipe _ 100 10)|].
  - by destruct piping_running.
  - apply uspace_fs. exact piping_user.
  - simpl. by rewrite lookup_insert_eq.
  - split; vm_compute; done.
  - by right.
  - lia.
  - lia.
  - intros v k' (i & p' & -> & _ & Hat & Ht). rewrite Nat2Z.id. rewrite Hq in Hat, Ht. split; [|done].
    unfold took in Ht. simpl in Ht. lia.
Defined.

Lemma pipe_roundtrip_witness :
  wp (w ← pipewrite (OTH := alone) 77 8 3; v ← piperead (OTH := alone) 77 100 w; mret v) piping (λ v k',
    v = 3 ∧ user_at 0 (owned []) (pg 0) demo_T piping 100 [0; 0; 0] k' ∧ pq (pipe_of (fs k') 77) = []).
Proof.
  eapply wp_mono; [apply (pipe_roundtrip (OTH := alone) 0 (owned []) (pg 0) demo_T 77 a_pipe piping 8 100 [0; 0; 0])|].
  - exact piping_running.
  - exact piping_user.
  - done.
  - exact a_pipe_ok.
  - exact piping_bytes.
  - by vm_compute.
  - done.
  - done.
  - assert (PIPESIZE = 512) as -> by done. simpl. lia.
  - lia.
  - intros v k' [Hv|(i & _ & Hi & _ & Hst)]; [done|]. simpl in Hi. apply demo_writable in Hst; [done|lia].
Defined.
