(* ===== verification/FsTheorems.v ===== *)
(** * The theorems about the file system *)

From stdpp Require Import gmap list strings.
From Stdlib Require Import ZArith Lia.
From S2P Require Import Prelude Mem Str Params FsData Machine Spinlock Sched Sleeplock Ring Bio BioSpec Log LogDisk LogSpec LogCommit LogTheorems FsTxn Kalloc.
From S2P Require Import Vm Fs FsAlloc FsInode FsFile FsBmap FsWrite FsDir FsPath PageTable VmWalk UserView UserCopy VmDemo FsDemo.
#[local] Open Scope Z_scope.

Ltac wp_prim ::= wp_ino.

Section fs_theorems.
Context `{OTH : Others, LNK : !Linker, LOK : !LinkerOk, KOB : !Kobj, KOK : !KobjOk} (me : nat) (pid : Z).
Abbreviation op := (op me pid).
Abbreviation recovers := (recovers me pid).

(** ** Blocks *)

(** balloc() returns the first free block, filled with zeros, and marks it
    as used; no other block and no other bit of the bitmap changes.  bfree() of
    the block brings the bitmap back to what it was. *)
Theorem balloc_correct k V r :
  let s := sb (fs k) in
  op 1 k V ∅ (3 + r) → bitmap_ok k V → (∃ b, blkno s b ∧ used s V b = false) →
  wp (balloc ROOTDEV) k (λ a k', ∃ V', op 1 k' V' ∅ (1 + r) ∧ blkq k k' ∧
    blkno s a ∧ used s V a = false ∧ full_below s V a ∧ V' a = zero_block ∧
    (∀ c, blkno s c → used s V' c = if decide (a = c) then true else used s V c) ∧
    (∀ n, not_bitmap s n → n ≠ a → V' n = V n) ∧
    wp (bfree (s32 ROOTDEV) a) k' (λ _ k'', ∃ V'', op 1 k'' V'' ∅ r ∧ blkq k k'' ∧
      (∀ c, blkno s c → used s V'' c = used s V c) ∧
      (∀ n, not_bitmap s n → n ≠ a → V'' n = V n))).
Proof.
  intros s Hop Hbm Hex.
  eapply wp_mono; [eapply (balloc_spec me pid k V ∅ (1 + r)); try done; rewrite map_size_empty; lia|].
  intros a k' [Hfull (Hq & Ha & Hu & Hop')]. fold s in Ha, Hu, Hop'.
  assert (∀ n, length (V n) = Z.to_nat BSIZE) as Hsz by (intros; by eapply op_block_size).
  destruct (allocated_used k V a Hbm Ha Hu Hsz) as (U1 & U2 & U3). fold s in U1, U2.
  set (V' := vset (vset _ _ _) _ _) in *. exists V'. split_and!; try done; [unfold V'; apply vset_eq|].
  assert (sb (fs k') = s) as Es by apply Hq.
  eapply wp_mono; [eapply (bfree_spec me pid k' V' ∅ r a); rewrite ?Es; try done|].
  - eapply bitmap_ok_same; [apply fsq_same, Hq|done].
  - rewrite map_size_empty. lia.
  - rewrite U1 by done. by rewrite decide_True.
  - rewrite Es. intros ? k'' [Hq2 Hop2]. eexists. split_and!; [exact Hop2|by etrans| |].
    + intros c Hc. rewrite used_set; try done; [|apply U3|by eapply op_block_size].
      case_decide; [by subst|]. rewrite U1 by done. by rewrite decide_False.
    + intros n Hn Hna. rewrite vset_ne by (by apply Hn). by apply U2.
Qed.

(** ** Inodes *)

(** An inode written by iupdate() and read back by ilock() into an entry
    that is not valid is the inode that was written; iupdate() changes no other
    inode on the disk. *)
Theorem inode_roundtrip k V r ip x :
  let s := sb (fs k) in
  op 1 k V ∅ (1 + r) → layout_ok k V → itable (fs k) !! ip = Some x → i_dev x = ROOTDEV →
  dinode_wf (di_inode x) → i_type x ≠ 0 → 0 ≤ i_inum x < sb_ninodes s → 1 ≤ i_ref x →
  sl_locked (sleeplock_of (fs k) (SL_inode ip)) = 0 →
  wp (iupdate ip;; set_inode ip (upd_i_valid (λ _, 0));; ilock (Some ip)) k (λ _ k', ∃ V',
    op 1 k' V' ∅ r ∧ ilocked pid ip (upd_i_valid (λ _, 1) x) k k' ∧
    (∀ inum, 0 ≤ inum < sb_ninodes s → inum ≠ i_inum x → dinode_of s V' inum = dinode_of s V inum)).
Proof.
  intros s Hop Hly Hx Hdev Hwf Hty Hin Href Hfree. apply wp_bind.
  destruct (ly_iblock _ _ Hly _ Hin) as (_ & _ & Hh & _).
  eapply wp_mono; [eapply (iupdate_spec me pid k V ∅ r ip x); try done; [apply Hwf|rewrite map_size_empty; lia]|].
  intros ? k1 [Hq1 Hop1]. fold s in Hop1. set (V' := vset _ _ _) in *. wp_pure. set (k2 := upd_fs _ k1).
  assert (itable (fs k1) !! ip = Some x) as Hx1 by (by rewrite (is_itable _ _ (proj2 (proj2 Hq1)))).
  assert (iset ip (upd_i_valid (λ _, 0) x) k k2) as Hi2.
  { eapply iset_trans; [by apply (iset_blkq ip x)|]. by apply iset_upd. }
  assert (sb (fs k2) = s) as Es by apply Hq1.
  assert (dinode_of s V' (i_inum x) = di_inode x) as Ed.
  { apply dinode_of_update; [done|by eapply op_block_size]. }
  assert (locked_inode s V' (upd_i_valid (λ _, 0) x) = upd_i_valid (λ _, 1) x) as El.
  { unfold locked_inode. simpl. rewrite Ed. by destruct x. }
  eapply wp_mono; [eapply (ilock_spec me pid 1 k2 V' ∅ r ip (upd_i_valid (λ _, 0) x)); rewrite ?Es; try done|].
  - by apply op_upd_itable.
  - eapply iset_lookup; [|exact Hi2]. by eapply lookup_lt_Some.
  - by rewrite (ie_locks _ _ _ _ Hi2).
  - rewrite map_size_empty. lia.
  - left. by rewrite El.
  - rewrite Es, El. intros ? k3 [Hil Hop3]. exists V'. split_and!; [done| |].
    + destruct Hi2 as [A1 A2 A3 A4], Hil as [B1 B2 B3 B4]. split; [by etrans|by etrans| |].
      * by rewrite B3, A3, list_insert_insert_eq.
      * intros i. by rewrite B4, A4.
    + intros inum Hi Hne. apply dinode_of_other; [apply Hwf|by eapply op_block_size|].
      destruct (decide (IBLOCK (i_inum x) s = IBLOCK inum s)); [right|by left].
      intros E. apply Hne. by apply (iblock_inj k V).
Qed.

(** The table of inodes in memory: iget() returns an entry for the inode it
    was asked for, with one more reference; entries of other inodes are not
    touched, and an inode in use never has two entries. *)
Theorem iget_correct k dev inum :
  running me k → itable_ok (itable (fs k)) →
  (∃ x, x ∈ itable (fs k) ∧ (imatch dev inum x = true ∨ i_ref x = 0)) →
  wp (iget dev inum) k (λ i k', kquiet k k' ∧ itable_ok (itable (fs k')) ∧
    (∃ x', itable (fs k') !! i = Some x' ∧ i_dev x' = dev ∧ i_inum x' = inum ∧ 0 < i_ref x') ∧
    (∀ j, j ≠ i → itable (fs k') !! j = itable (fs k) !! j) ∧
    ∀ j y, itable (fs k) !! j = Some y → imatch dev inum y = true →
      j = i ∧ itable (fs k') !! i = Some (upd_i_ref (λ r, r + 1) y)).
Proof.
  intros Hrun Hok (x & Hx & Hor). destruct (iget_in_room _ dev inum x Hx Hor) as [[i tbl'] Hg].
  eapply wp_mono; [eapply (iget_spec me k Hrun dev inum i tbl'); [apply Hok|done]|].
  intros ? k' (-> & Hq & Hf). rewrite Hf. simpl.
  destruct (iget_in_ok _ _ _ _ _ Hok Hg) as (O1 & O2 & O3). split_and!; try done.
  intros j y Hy Hm. unfold iget_in in Hg.
  destruct (find_ix (imatch dev inum) (itable (fs k))) as [i'|] eqn:E1.
  - injection Hg as <- <-. apply find_ix_Some in E1 as (z & Hz & Hmz & _).
    apply imatch_true in Hm as (M1 & M2 & M3). apply imatch_true in Hmz as (N1 & N2 & N3).
    assert (j = i') as ->.
    { eapply (it_unique _ Hok j i' y z); try done; congruence. }
    split; [done|]. rewrite list_lookup_alter_eq, Hy. done.
  - rewrite find_ix_None in E1. by rewrite (E1 _ _ Hy) in Hm.
Qed.

(** ** Files *)

Lemma user_same_start E r T k : uspace me E r T k → user_same me E r T k k.
Proof. by split. Qed.

Lemma user_at_start E r T k k0 dst :
  uspace me E r T k → (∀ r' va, views T (ram k) r' va = views T (ram k0) r' va) →
  user_at me E r T k0 dst [] k.
Proof. intros Hu Hv. exists T. split_and!; [done| |done]. intros r' va. by rewrite decide_False by (simpl; lia). Qed.

(** C23. readi() into user memory returns the number of bytes there are to read,
    and the user sees exactly those bytes of the file at [dst]; no other byte of
    any process changes, and neither does the file system.  It returns -1 only
    if one of the bytes cannot be stored: the user has no page at its address, or
    it is a copy-on-write page and no page is free; the bytes before it are then
    there and nothing else has changed. *)
Theorem readi_correct o k V b ip x E r T dst off n :
  op o k V ∅ b → itable (fs k) !! ip = Some x → i_dev x = ROOTDEV → whole V x →
  uspace me E r T k → 0 ≤ off < 2 ^ 32 → 0 ≤ n < 2 ^ 32 → 0 ≤ dst < 2 ^ 64 →
  wp (readi ip 1 dst off n) k (λ v k', fsq k k' ∧ inodes_same k k' ∧ op o k' V ∅ b ∧
    (v = readable x off n ∧
     (∃ T', uspace me E r T' k' ∧ ∀ r' va, views T' (ram k') r' va =
        if decide (r' = r ∧ dst ≤ va < dst + v) then Some (fbyte V x (off + (va - dst)) mod 256)
        else views T (ram k) r' va)
     ∨ v = -1 ∧ ∃ i, user_stuck me E r T k dst (fslice V x off (readable x off n)) i k')).
Proof.
  intros Hop Hx Hdev Hwh Hu Ho Hn Hd.
  eapply wp_mono; [eapply (readi_spec me pid o k V b ip x 1 dst (user_sink me E r T k dst Hd)); try done|].
  { by apply user_at_start. }
  intros v k' (Hq & Hi & Hop' & Hv). split_and!; try done. destruct Hv as [[-> Hv]|[-> Hv]]; [left|by right].
  split; [done|]. destruct Hv as (T' & Hu' & Hv & _). exists T'. split; [done|]. intros r' va. rewrite Hv.
  rewrite length_fslice. assert (0 ≤ readable x off n) as Hr.
  { unfold readable. destruct (_ || _) eqn:Eb; [done|]. apply orb_false_iff in Eb as [E1%Z.ltb_ge _].
    destruct (i_size x <? u32 (off + n)); lia. }
  rewrite Z2Nat.id by done. destruct (decide (r' = r ∧ dst ≤ va < dst + readable x off n)) as [[-> Hva]|]; [|done].
  unfold fslice. rewrite list_lookup_fmap, lookup_seqZ_lt by lia. simpl. do 4 f_equal. lia.
Qed.

Lemma written_slice k V x off bs V' x' :
  written k V x off bs V' x' → 0 ≤ off → off + Z.of_nat (length bs) ≤ MAXFILE * BSIZE →
  fslice V' x' off (Z.of_nat (length bs)) = bs.
Proof.
  intros Hw Ho Hmax. apply list_eq. intros i. unfold fslice. rewrite list_lookup_fmap.
  destruct (decide (i < length bs)%nat) as [Hi|Hi].
  - rewrite lookup_seqZ_lt by lia. simpl. rewrite (wt_bytes _ _ _ _ _ _ _ Hw) by lia.
    rewrite decide_True by lia. replace (Z.to_nat (off + Z.of_nat i - off)) with i by lia.
    by destruct (lookup_lt_is_Some_2 bs i Hi) as [v ->].
  - rewrite lookup_seqZ_ge by lia. symmetry. apply lookup_ge_None. lia.
Qed.

(** C22. writei() of [n] bytes from user memory into a file: it writes all of
    them, the file's bytes in the range are the user's, its other bytes and all
    other inodes are as before; the file grows to the end of the write; blocks
    of other files keep their contents; no process sees a change. *)
Theorem writei_correct k V b ip x E r T src bs off :
  let s := sb (fs k) in
  let n := Z.of_nat (length bs) in
  op 1 k V ∅ (Z.to_nat (6 * nchunks off n) + (1 + b)) → layout_ok k V →
  itable (fs k) !! ip = Some x → i_dev x = ROOTDEV → dinode_wf (di_inode x) →
  0 ≤ i_inum x < sb_ninodes s → file_ok (fshome k) s V x → whole V x →
  0 ≤ off ≤ i_size x → off + n ≤ MAXFILE * BSIZE → fits s V x off n →
  uspace me E r T k → user_has r T k src bs →
  wp (writei ip 1 src off n) k (λ v k', v = n ∧ user_same me E r T k k' ∧ ∃ V' x',
    written k V x off bs V' x' ∧ ichanged ip x' k k' ∧ op 1 k' V' ∅ b ∧ fslice V' x' off n = bs).
Proof.
  intros s n Hop Hly Hx Hdev Hwf Hin Hf Hwh Ho Hmax Hfit Hu Hs.
  eapply wp_mono; [eapply (writei_spec me pid k V b ip x 1 src bs (user_source me E r T k src bs Hs) off); try done|].
  { destruct Hs as (? & ? & _). lia. }
  intros v k' (-> & V' & x' & HS & Hw & Hic & Hop'). split_and!; [done|done|]. exists V', x'.
  split_and!; try done. by eapply written_slice; [done|lia|].
Qed.

(** C24. What a process writes to a file it reads back: readi() after writei(),
    at the same offset, puts the bytes that were written at [dst] of the user's
    memory.  It returns -1 only if one of them cannot be stored there: no page of
    the user, or a copy-on-write page and no free page; the bytes before it are
    then there. *)
Theorem write_read_roundtrip k V b ip x E r T src bs off dst :
  let s := sb (fs k) in
  let n := Z.of_nat (length bs) in
  op 1 k V ∅ (Z.to_nat (6 * nchunks off n) + (1 + b)) → layout_ok k V →
  itable (fs k) !! ip = Some x → i_dev x = ROOTDEV → dinode_wf (di_inode x) →
  0 ≤ i_inum x < sb_ninodes s → file_ok (fshome k) s V x → whole V x →
  0 ≤ off ≤ i_size x → off + n ≤ MAXFILE * BSIZE → fits s V x off n → 0 ≤ dst < 2 ^ 64 →
  uspace me E r T k → user_has r T k src bs →
  wp (writei ip 1 src off n;; readi ip 1 dst off n) k (λ v k',
    v = n ∧ user_at me E r T k dst bs k' ∨ v = -1 ∧ ∃ i, user_stuck me E r T k dst bs i k').
Proof.
  intros s n Hop Hly Hx Hdev Hwf Hin Hf Hwh Ho Hmax Hfit Hd Hu Hs. apply wp_bind.
  eapply wp_mono; [eapply (writei_spec me pid k V b ip x 1 src bs (user_source me E r T k src bs Hs) off); try done|].
  { destruct Hs as (? & ? & _). lia. }
  intros v k1 (-> & V' & x' & [Hu1 Hv1] & Hw & Hic & Hop1).
  pose proof (wt_inode _ _ _ _ _ _ _ Hw) as Ex'. pose proof (f_equal i_size Ex') as Esz. simpl in Esz.
  assert (readable x' off n = n) as Er.
  { pose proof (wh_size _ _ (wt_whole _ _ _ _ _ _ _ Hw)) as Hws. assert (MAXFILE * BSIZE = 274432) by done.
    unfold readable. rewrite u32_small by lia. fold n in Esz.
    destruct (Z.ltb_spec (i_size x') off), (Z.ltb_spec (off + n) off), (Z.ltb_spec (i_size x') (off + n)); done || lia. }
  assert (MAXFILE * BSIZE = 274432) as Hmx by done.
  eapply wp_mono; [eapply (readi_spec me pid 1 k1 V' b ip x' 1 dst (user_sink me E r T k dst Hd)); try done; try lia|].
  - eapply ichanged_lookup; [|exact Hic]. by eapply lookup_lt_Some.
  - rewrite Ex'. simpl. done.
  - apply (wt_whole _ _ _ _ _ _ _ Hw).
  - by apply user_at_start.
  - intros v k2 (_ & _ & _ & Hv). rewrite Er in Hv. unfold n in Hv.
    rewrite (written_slice k V x off bs V' x' Hw) in Hv by lia. destruct Hv as [[-> Hv]|[-> Hv]]; [by left|by right].
Qed.

(** C20. A write to a file is atomic with respect to crashes: when writei() is
    the work of a transaction that end_op() commits, a machine that stops after
    any number of the block writes and reboots finds, after recovery, the disk
    from before the transaction or the one with all of the write, and after
    end_op() it finds the latter. *)
Theorem write_atomic k V b ip x E r T src bs off :
  let s := sb (fs k) in
  let n := Z.of_nat (length bs) in
  op 1 k V ∅ (Z.to_nat (6 * nchunks off n) + (1 + b)) → layout_ok k V →
  itable (fs k) !! ip = Some x → i_dev x = ROOTDEV → dinode_wf (di_inode x) →
  0 ≤ i_inum x < sb_ninodes s → file_ok (fshome k) s V x → whole V x →
  0 ≤ off ≤ i_size x → off + n ≤ MAXFILE * BSIZE → fits s V x off n →
  uspace me E r T k → user_has r T k src bs →
  lg_start (log (fs k)) = s32 (sb_logstart s) → lg_size (log (fs k)) = s32 (sb_nlog s) →
  wp (writei ip 1 src off n;; end_op) k (λ _ k', ∃ V' x' ws,
    written k V x off bs V' x' ∧ disk (fs k') = apply_writes (disk (fs k)) ws ∧
    recovers s (disk (fs k')) V' ∧
    ∀ m, recovers s (apply_writes (disk (fs k)) (take m ws)) (dget (disk (fs k))) ∨
         recovers s (apply_writes (disk (fs k)) (take m ws)) V').
Proof.
  intros s n Hop Hly Hx Hdev Hwf Hin Hf Hwh Ho Hmax Hfit Hu Hs Es Ez. apply wp_bind.
  eapply wp_mono; [eapply (writei_spec me pid k V b ip x 1 src bs (user_source me E r T k src bs Hs) off); try done|].
  { destruct Hs as (? & ? & _). lia. }
  intros v k1 (-> & V' & x' & _ & Hw & [Hq _ _] & (bl & Htx & _)).
  eapply wp_mono; [eapply (end_op_all me pid k1 V' bl s Htx)|].
  - by rewrite (fq_start _ _ Hq).
  - by rewrite (fq_size _ _ Hq).
  - intros ? k2 (ws & V2 & _ & Ed & _ & _ & Hr & Hm). rewrite (fq_disk _ _ Hq) in *.
    by exists V', x', ws.
Qed.

(** ** Directories *)

(** dirlookup() returns the first entry in use with the name, with its
    offset and a reference to its inode, and nothing if there is none; two names
    are the same when their first 14 characters are. *)
Theorem dirlookup_correct o k V b dp x name :
  op o k V ∅ b → itable (fs k) !! dp = Some x → dir_ok V x → itable_ok (itable (fs k)) →
  (∃ e, e ∈ itable (fs k) ∧ i_ref e = 0) →
  wp (dirlookup dp name) k (λ v k', fsq k k' ∧ op o k' V ∅ b ∧ itable_ok (itable (fs k')) ∧
    match v with
    | None => itable (fs k') = itable (fs k) ∧
        ∀ j, 0 ≤ j < nentries x → (entry_at V x j).1 = 0 ∨ (entry_at V x j).2 ≠ cstr (Z.to_nat DIRSIZ) name
    | Some (i, off) => ∃ j, off = DIRENT_SIZE * j ∧ 0 ≤ j < nentries x ∧
        (entry_at V x j).1 ≠ 0 ∧ (entry_at V x j).2 = cstr (Z.to_nat DIRSIZ) name ∧
        (∀ j', 0 ≤ j' < j → (entry_at V x j').1 = 0 ∨ (entry_at V x j').2 ≠ cstr (Z.to_nat DIRSIZ) name) ∧
        ∃ y, itable (fs k') !! i = Some y ∧ i_dev y = ROOTDEV ∧ i_inum y = (entry_at V x j).1 ∧ 0 < i_ref y
    end).
Proof.
  intros Hop Hx Hd Hok (e0 & He0 & Hr0).
  eapply wp_mono; [eapply (dirlookup_spec me pid o k V b dp x name); try done; [apply Hok|]|].
  { intros j e _. apply (iget_in_room _ _ _ e0); [done|by right]. }
  assert (∀ j, 0 ≤ j → is_entry name (entry_at V x j) = false →
    (entry_at V x j).1 = 0 ∨ (entry_at V x j).2 ≠ cstr (Z.to_nat DIRSIZ) name) as Hno.
  { intros j _. unfold is_entry. intros [H1|H1]%andb_false_iff.
    - left. by apply negb_false_iff, Z.eqb_eq in H1.
    - right. by apply bool_decide_eq_false in H1. }
  intros v k' (Hq & Hop' & _ & Hf). unfold found in Hf.
  destruct (dir_find V x name) as [[j e]|] eqn:Ef.
  - destruct Hf as (i & Hg & ->). destruct (iget_in_ok _ _ _ _ _ Hok Hg) as (O1 & (y & O2) & _).
    apply list_find_Some in Ef as (F1 & F2 & F3). rewrite entry_lookup in F1. case_decide; [|done].
    injection F1 as <-. apply Is_true_true, andb_true_iff in F2 as [F2 F4].
    apply negb_true_iff, Z.eqb_neq in F2. apply bool_decide_eq_true in F4.
    split_and!; [done|done|done|]. exists (Z.of_nat j). split_and!; try done; try lia; [|by exists y].
    intros j' Hj'. apply Hno; [lia|]. apply Is_true_false. apply (F3 (Z.to_nat j')); [|lia].
    rewrite entry_lookup, decide_True by lia. by rewrite Z2Nat.id by lia.
  - destruct Hf as [-> Ht]. rewrite Ht. split_and!; try done. intros j Hj. apply Hno; [lia|].
    apply list_find_None in Ef. rewrite Forall_lookup in Ef. apply Is_true_false, (Ef (Z.to_nat j)).
    rewrite entry_lookup, decide_True by lia. by rewrite Z2Nat.id by lia.
Qed.

(** C25. dirlink() adds a name that is not in the directory: afterwards the name
    is found with the inode number given, every other name is found as before,
    and the directory stays one. *)
Theorem dirlink_correct k V b dp x name inum :
  let s := sb (fs k) in
  op 1 k V ∅ (7 + b) → layout_ok k V → itable (fs k) !! dp = Some x → dir_ok V x →
  dinode_wf (di_inode x) → 0 ≤ i_inum x < sb_ninodes s → file_ok (fshome k) s V x →
  length (itable (fs k)) = Z.to_nat NINODE → bytes name → dir_find V x name = None →
  0 < inum < 2 ^ 16 → i_size x + DIRENT_SIZE ≤ MAXFILE * BSIZE → avail s V 2 →
  wp (dirlink dp name inum) k (λ v k', v = 0 ∧ ∃ V' x', op 1 k' V' ∅ b ∧ ichanged dp x' k k' ∧
    dir_ok V' x' ∧ dinode_of s V' (i_inum x) = di_inode x' ∧
    (∃ j, dir_find V' x' name = Some (j, (inum, cstr (Z.to_nat DIRSIZ) name))) ∧
    (∀ other, cstr (Z.to_nat DIRSIZ) other ≠ cstr (Z.to_nat DIRSIZ) name →
       dir_find V' x' other = dir_find V x other)).
Proof.
  intros s Hop Hly Hx Hd Hwf Hin Hf Hlen Hby Hnone Hi Hmax Hav.
  eapply wp_mono; [by eapply (dirlink_spec me pid k V b dp x name inum)|].
  intros v k' (-> & V' & x' & j & Hfree & Hw & Hic & Hop'). split; [done|]. exists V', x'.
  destruct (dirlink_linked _ _ _ _ _ _ _ _ Hd Hfree Hw Hby Hi Hnone Hmax) as [L1 L2 L3].
  split_and!; try done. apply Hw.
Qed.
End fs_theorems.

(** ** Examples *)

Lemma balloc_correct_witness : ∃ k V, mounted k V ∧
  wp (balloc (OTH := alone) ROOTDEV) k (λ a k', a = 36 ∧
    wp (bfree (OTH := alone) (s32 ROOTDEV) a) k' (λ _ k'', blkq k k'')).
Proof.
  destruct fs_mounted as (k & V & Hk). exists k, V. split; [done|].
  pose proof (md_sb _ _ Hk) as Es. pose proof (fs_layout k V Hk) as Hly.
  eapply wp_mono; [apply (balloc_correct (OTH := alone) 0 0 k V 26)|].
  - exact (md_op _ _ Hk).
  - apply Hly.
  - rewrite Es. exists 36. split; [by vm_compute|]. by rewrite (fs_used k V Hk).
  - rewrite Es. intros a k' (V' & _ & _ & Hb & Hu & Hf & _ & _ & _ & Hfree). unfold blkno in Hb. simpl in Hb.
    rewrite (fs_used k V Hk) in Hu by done. apply Z.ltb_ge in Hu. split.
    + destruct (decide (a = 36)) as [->|Hne]; [done|]. exfalso.
      specialize (Hf 36 ltac:(lia)). by rewrite (fs_used k V Hk) in Hf by lia.
    + eapply wp_mono; [exact Hfree|]. by intros ? k'' (V'' & _ & ? & _).
Defined.

Lemma inode_roundtrip_witness : ∃ k V, mounted k V ∧
  wp (iupdate (OTH := alone) 1;; set_inode 1 (upd_i_valid (λ _, 0));; ilock (OTH := alone) (Some 1%nat)) k
    (λ _ k', itable (fs k') !! 1%nat = Some a_inode).
Proof.
  destruct fs_mounted as (k & V & Hk). exists k, V. split; [done|].
  eapply wp_mono; [apply (inode_roundtrip (OTH := alone) 0 0 k V 28 1 a_inode)|].
  - exact (md_op _ _ Hk).
  - by apply fs_layout.
  - by rewrite (md_itable _ _ Hk).
  - done.
  - apply fs_wf.
  - done.
  - rewrite (md_sb _ _ Hk). by vm_compute.
  - done.
  - exact (md_free _ _ Hk 1%nat).
  - intros ? k' (V' & _ & [_ _ Ht _] & _). rewrite Ht, (md_itable _ _ Hk). done.
Defined.

Lemma iget_correct_witness : ∃ k V, mounted k V ∧
  wp (iget ROOTDEV 2) k (λ i k', i = 1%nat ∧ itable (fs k') !! 1%nat = Some (upd_i_ref (λ r, r + 1) a_inode)).
Proof.
  destruct fs_mounted as (k & V & Hk). exists k, V. split; [done|].
  pose proof (md_itable _ _ Hk) as Et. pose proof (op_running _ _ _ _ _ _ _ (md_op _ _ Hk)) as [Hrun _].
  eapply wp_mono; [apply (iget_correct 0 k ROOTDEV 2 Hrun)|].
  - rewrite Et. apply fs_table_ok.
  - rewrite Et. exists inode0. split; [apply fs_free_entry|by right].
  - rewrite Et. intros i k' (_ & _ & _ & _ & Hm). by destruct (Hm 1%nat a_inode) as [<- ?].
Defined.

(** Process 0 reads the file "a" to address 16 of its memory. *)
Lemma readi_correct_witness : ∃ k V, mounted k V ∧
  wp (readi (OTH := alone) 1 1 16 0 100) k (λ v k', v = 5).
Proof.
  destruct fs_mounted as (k & V & Hk). exists k, V. split; [done|].
  eapply wp_mono; [apply (readi_correct (OTH := alone) 0 0 1 k V 29 1 a_inode (owned []) (pg 0) demo_T 16 0 100)|].
  - exact (md_op _ _ Hk).
  - by rewrite (md_itable _ _ Hk).
  - done.
  - apply (one_whole V a_inode 35); [done|lia|]. simpl. lia.
  - exact (md_user _ _ Hk).
  - lia.
  - lia.
  - lia.
  - intros v k' (_ & _ & _ & [[-> _]|(_ & i & Hi & _ & Hst)]); [done|].
    rewrite length_fslice in Hi. change (readable a_inode 0 100) with 5 in Hi. apply demo_writable in Hst; [done|lia].
Defined.

Lemma fs_user_bytes k V : mounted k V → user_has (pg 0) demo_T k 8 [0; 0; 0].
Proof.
  intros Hk. split_and!; [lia|simpl; lia|]. intros i b Hb. rewrite (md_ram _ _ Hk).
  destruct i as [|[|[|i]]]; [injection Hb as <-; by vm_compute..|done].
Qed.

Lemma fs_fits k V : mounted k V → fits fs_sb V a_inode 3 3.
Proof.
  intros Hk. left. intros bn H1 H2. change (3 / BSIZE) with 0 in H1. unfold BSIZE in H2.
  assert (bn = 0) as -> by lia. rewrite (one_fmap V a_inode 35); done || lia.
Qed.

(** Process 0 writes three bytes at offset 3 of the file "a". *)
Lemma writei_correct_witness : ∃ k V, mounted k V ∧
  wp (writei (OTH := alone) 1 1 8 3 3) k (λ v k', v = 3 ∧ ∃ V' x',
    written k V a_inode 3 [0; 0; 0] V' x' ∧ i_size x' = 6).
Proof.
  destruct fs_mounted as (k & V & Hk). exists k, V. split; [done|].
  eapply wp_mono; [apply (writei_correct (OTH := alone) 0 0 k V 22 1 a_inode (owned []) (pg 0) demo_T 8 [0; 0; 0] 3)|].
  all: rewrite ?(md_sb _ _ Hk).
  - exact (md_op _ _ Hk).
  - by apply fs_layout.
  - by rewrite (md_itable _ _ Hk).
  - done.
  - apply fs_wf.
  - by vm_compute.
  - apply (one_file k V Hk a_inode 35); [done|lia].
  - apply (one_whole V a_inode 35); [done|lia|]. simpl. lia.
  - simpl. lia.
  - by vm_compute.
  - by apply (fs_fits k).
  - exact (md_user _ _ Hk).
  - by eapply fs_user_bytes.
  - intros v k' (-> & _ & V' & x' & Hw & _). split; [done|]. exists V', x'. split; [done|].
    by rewrite (wt_inode _ _ _ _ _ _ _ Hw).
Defined.

(** ... and reads them back at address 100. *)
Lemma write_read_roundtrip_witness : ∃ k V, mounted k V ∧
  wp (writei (OTH := alone) 1 1 8 3 3;; readi (OTH := alone) 1 1 100 3 3) k (λ v k',
    v = 3 ∧ user_at 0 (owned []) (pg 0) demo_T k 100 [0; 0; 0] k').
Proof.
  destruct fs_mounted as (k & V & Hk). exists k, V. split; [done|].
  eapply wp_mono; [apply (write_read_roundtrip (OTH := alone) 0 0 k V 22 1 a_inode (owned []) (pg 0) demo_T 8 [0; 0; 0] 3 100)|].
  all: rewrite ?(md_sb _ _ Hk).
  - exact (md_op _ _ Hk).
  - by apply fs_layout.
  - by rewrite (md_itable _ _ Hk).
  - done.
  - apply fs_wf.
  - by vm_compute.
  - apply (one_file k V Hk a_inode 35); [done|lia].
  - apply (one_whole V a_inode 35); [done|lia|]. simpl. lia.
  - simpl. lia.
  - by vm_compute.
  - by apply (fs_fits k).
  - lia.
  - exact (md_user _ _ Hk).
  - by eapply fs_user_bytes.
  - intros v k' [Hv|(_ & i & Hi & _ & Hst)]; [done|]. simpl in Hi. apply demo_writable in Hst; [done|lia].
Defined.

Lemma write_atomic_witness : ∃ k V, mounted k V ∧
  wp (writei (OTH := alone) 1 1 8 3 3;; end_op (OTH := alone)) k (λ _ k', ∃ V' x',
    written k V a_inode 3 [0; 0; 0] V' x' ∧ recovers (OTH := alone) 0 0 fs_sb (disk (fs k')) V').
Proof.
  destruct fs_mounted as (k & V & Hk). exists k, V. split; [done|].
  eapply wp_mono; [apply (write_atomic (OTH := alone) 0 0 k V 22 1 a_inode (owned []) (pg 0) demo_T 8 [0; 0; 0] 3)|].
  all: rewrite ?(md_sb _ _ Hk).
  - exact (md_op _ _ Hk).
  - by apply fs_layout.
  - by rewrite (md_itable _ _ Hk).
  - done.
  - apply fs_wf.
  - by vm_compute.
  - apply (one_file k V Hk a_inode 35); [done|lia].
  - apply (one_whole V a_inode 35); [done|lia|]. simpl. lia.
  - simpl. lia.
  - by vm_compute.
  - by apply (fs_fits k).
  - exact (md_user _ _ Hk).
  - by eapply fs_user_bytes.
  - exact (md_start _ _ Hk).
  - exact (md_size _ _ Hk).
  - intros ? k' (V' & x' & ws & Hw & _ & Hr & _). by exists V', x'.
Defined.

(** "a" in the root directory. *)
Lemma dirlookup_correct_witness : ∃ k V, mounted k V ∧
  wp (dirlookup (OTH := alone) 0 [97]) k (λ v k', ∃ i, v = Some (i, 16)).
Proof.
  destruct fs_mounted as (k & V & Hk). exists k, V. split; [done|].
  pose proof (md_itable _ _ Hk) as Et. pose proof (fs_root_entries k V Hk) as He.
  assert (entry_at V root_inode 0 = (1, [46]) ∧ entry_at V root_inode 1 = (2, [97])) as [E0 E1].
  { change (entry_at V root_inode <$> seqZ 0 (nentries root_inode))
      with [entry_at V root_inode 0; entry_at V root_inode 1] in He.
    revert He. generalize (entry_at V root_inode 0), (entry_at V root_inode 1). by intros ?? [= -> ->]. }
  eapply wp_mono; [apply (dirlookup_correct (OTH := alone) 0 0 1 k V 29 0 root_inode [97])|].
  - exact (md_op _ _ Hk).
  - by rewrite Et.
  - by apply (fs_root_dir V).
  - rewrite Et. apply fs_table_ok.
  - rewrite Et. exists inode0. split; [apply fs_free_entry|done].
  - intros v k' (_ & _ & _ & Hv). change (nentries root_inode) with 2 in Hv. destruct v as [[i off]|].
    + destruct Hv as (j & -> & Hj & _ & Hn & _). exists i.
      assert (j = 0 ∨ j = 1) as [-> | ->] by lia; [by rewrite E0 in Hn|done].
    + destruct Hv as [_ Hv]. destruct (Hv 1 ltac:(lia)) as [H|H]; rewrite E1 in H; [done|by destruct H].
Defined.

Lemma fs_avail k V n : mounted k V → (n ≤ 28)%nat → avail fs_sb V n.
Proof.
  intros Hk Hn. exists (seqZ 36 28). split_and!; [apply NoDup_seqZ|rewrite length_seqZ; lia|].
  intros b Hb%elem_of_seqZ. split; [unfold blkno; simpl; lia|].
  rewrite (fs_used k V Hk) by lia. apply Z.ltb_ge. lia.
Qed.

(** "b" is added for inode 2. *)
Lemma dirlink_correct_witness : ∃ k V, mounted k V ∧
  wp (dirlink (OTH := alone) 0 [98] 2) k (λ v k', v = 0 ∧ ∃ V' x' j,
    dir_find V' x' [98] = Some (j, (2, [98]))).
Proof.
  destruct fs_mounted as (k & V & Hk). exists k, V. split; [done|].
  pose proof (md_itable _ _ Hk) as Et. pose proof (fs_root_entries k V Hk) as He.
  eapply wp_mono; [apply (dirlink_correct (OTH := alone) 0 0 k V 22 0 root_inode [98] 2)|].
  all: rewrite ?(md_sb _ _ Hk).
  - exact (md_op _ _ Hk).
  - by apply fs_layout.
  - by rewrite Et.
  - by apply (fs_root_dir V).
  - apply fs_wf.
  - by vm_compute.
  - apply (one_file k V Hk root_inode 34); [done|lia].
  - by rewrite Et.
  - repeat constructor; lia.
  - unfold dir_find. by rewrite He.
  - lia.
  - by vm_compute.
  - apply (fs_avail k); [done|lia].
  - intros v k' (-> & V' & x' & _ & _ & _ & _ & [j Hj] & _). split; [done|]. by exists V', x', j.
Defined.

(** * Path names: the theorems *)

(** skipelem() takes the components off a path one by one: it fails exactly
    when there is none left; otherwise the rest has the other components, the name
    buffer holds the first one, cut off at 14 bytes, the rest is empty exactly
    when that was the last one, and it is shorter than the path, so that the
    loop over the components ends. *)
Theorem skipelem_correct path name :
  length name = Z.to_nat DIRSIZ → Forall (λ c, c ≠ 0) path →
  match skipelem path name with
  | None => components path = []
  | Some (rest, name') => ∃ c, components path = c :: components rest ∧
      (rest = [] ↔ components rest = []) ∧ (length rest < length path)%nat ∧
      length name' = Z.to_nat DIRSIZ ∧ cstr (Z.to_nat DIRSIZ) name' = take (Z.to_nat DIRSIZ) c
  end.
Proof.
  intros Hl Hnz. pose proof (skipelem_spec path name Hl Hnz) as H.
  destruct (components path) as [|c cs]; [by rewrite H|].
  destruct H as (rest & name' & -> & <- & H1 & H2 & _ & H3 & H4 & _). by exists c.
Qed.

Section path_theorems.
Context `{OTH : Others, LNK : !Linker, LOK : !LinkerOk, KOB : !Kobj, KOK : !KobjOk} (me : nat) (pid : Z).

(** C27. namex() resolves a path in the tree of directories on the disk: starting
    from the root, or from the current directory for a relative path, it finds
    the inode the abstract walk over the components finds (namei), or the
    directory of the last component and that component's name (nameiparent), and
    fails exactly when the walk does.  It returns with one reference more to the
    inode it found and with all other references and all locks as they were. *)
Theorem namex_correct o k V r L path np name n :
  op me pid o k V ∅ r → itable_ok (itable (fs k)) →
  (∀ i x, itable (fs k) !! i = Some x → 0 < i_ref x → fresh (sb (fs k)) V x) →
  (∃ a b x y, a ≠ b ∧ itable (fs k) !! a = Some x ∧ i_ref x = 0 ∧ itable (fs k) !! b = Some y ∧ i_ref y = 0) →
  (∀ i, sl_locked (sleeplock_of (fs k) (SL_inode i)) = 0) →
  tree (sb (fs k)) V L → L n → path_start me k path n →
  length name = Z.to_nat DIRSIZ → Forall (λ c, c ≠ 0) path → Z.of_nat (length path) < 2 ^ 31 →
  wp (namex path np name) k (λ v k',
    match resolve (sb (fs k)) V (nz np) n (components path) with
    | None => v.1 = None ∧ walks me pid o k V r [] None k'
    | Some (m, last) => ∃ ip, v.1 = Some ip ∧ walks me pid o k V r [ip] None k' ∧ entry_for ip m k' ∧
        (nz np = true → cstr (Z.to_nat DIRSIZ) v.2 = last)
    end).
Proof.
  intros Hop Hok Hfr Hfree Hlk Htree HL Hst Hname Hnz Hlp.
  apply (namex_spec me pid o k V r L Htree (it_length _ Hok) Hfree path np name n); try done.
  split; [done|done| |done|by apply walking_start]. intros i. by rewrite Hlk, decide_False.
Qed.
End path_theorems.

(** ** Witnesses *)

Lemma skipelem_correct_witness :
  ∃ c, components [47; 97; 47; 98] = c :: components [98].
Proof.
  pose proof (skipelem_correct [47; 97; 47; 98] (replicate 14 0) eq_refl) as H.
  destruct H as (c & Hc & _); [repeat constructor; lia|]. by exists c.
Defined.

Definition fs_live (n : Z) : Prop := n = 1 ∨ n = 2.

Lemma fs_nodes k V : mounted k V →
  node fs_sb V 1 = upd_i_ref (λ _, 0) root_inode ∧ node fs_sb V 2 = upd_i_ref (λ _, 0) a_inode.
Proof. intros Hk. unfold node. by rewrite (fs_inode_1 k V Hk), (fs_inode_2 k V Hk). Qed.

Lemma fs_tree k V : mounted k V → tree fs_sb V fs_live.
Proof.
  intros Hk. destruct (fs_nodes k V Hk) as [E1 E2]. split.
  - by intros n [->| ->]; rewrite ?E1, ?E2.
  - by intros n [->| ->]; rewrite ?E1, ?E2.
  - intros n [->| ->]; rewrite ?E1, ?E2; [|done]. intros _.
    destruct (fs_root_dir V) as [D1 D2 [D3 D4] D5]. by split.
  - intros n name j e [->| ->]; rewrite ?E1, ?E2; [|done]. intros _ Hf.
    change (dir_find V root_inode name = Some (j, e)) in Hf. unfold dir_find in Hf. rewrite (fs_root_entries k V Hk) in Hf.
    apply list_find_Some in Hf as (Hj & _). by destruct j as [|[|j]]; [injection Hj as <-; left|injection Hj as <-; right|].
Qed.

(** The path "/a". *)
Lemma namex_correct_witness : ∃ k V, mounted k V ∧
  wp (namex (OTH := alone) [47; 97] 0 (replicate 14 0)) k (λ v k', ∃ ip, v.1 = Some ip ∧ entry_for ip 2 k').
Proof.
  destruct fs_mounted as (k & V & Hk). exists k, V. split; [done|].
  pose proof (md_itable _ _ Hk) as Et. pose proof (md_sb _ _ Hk) as Es.
  eapply wp_mono; [apply (namex_correct (OTH := alone) 0 0 1 k V 29 fs_live [47; 97] 0 (replicate 14 0) 1)|].
  all: rewrite ?Et, ?Es.
  - exact (md_op _ _ Hk).
  - apply fs_table_ok.
  - intros i x [->|[[_ ->]|[_ ->]]]%fs_table_cases; [done|split; [done|right]..].
    + exact (eq_sym (fs_inode_1 k V Hk)).
    + exact (eq_sym (fs_inode_2 k V Hk)).
  - by exists 2%nat, 3%nat, inode0, inode0.
  - exact (md_free _ _ Hk).
  - by apply (fs_tree k).
  - by left.
  - done.
  - done.
  - repeat constructor; lia.
  - done.
  - intros v k'. destruct (fs_nodes k V Hk) as [E1 E2].
    change (components [47; 97]) with [[97]]. cbn [resolve]. rewrite E1.
    change (dir_find V (upd_i_ref (λ _, 0) root_inode)) with (dir_find V root_inode). unfold dir_find.
    rewrite (fs_root_entries k V Hk). intros (ip & ? & _ & ? & _). by exists ip.
Defined.
