(* ===== verification/VmTheorems.v ===== *)
(** * The theorems about vm.c

    What each operation of vm.c does to the views of all processes, to the
    reference counts and to the memory invariant, each theorem applied to
    the machine of [VmDemo]; and what any sequence of them does from kinit() on. *)

From stdpp Require Import gmap list strings.
From Stdlib Require Import ZArith Lia.
From S2P Require Import Prelude Mem Str Params Machine Spinlock Kalloc Vm.
From S2P Require Import PageTable VmWalk VmMap VmSpace VmFree Cow UserView.
From S2P Require Import UserCopy VmDemo.
#[local] Open Scope Z_scope.

Section theorems.
Context `{LNK : !Linker, LOK : !LinkerOk}.
Implicit Types (k : kernel) (T : tables) (E : Z → Z).

(** User code on page table [r] may write page [v]. *)
Definition uwritable T (r v : Z) : Prop :=
  ∃ t e, T !! r = Some t ∧ leaves t !! v = Some e ∧ has e PTE_U = true ∧ has e PTE_W = true.

(** Page [v] of table [r] may be written and is mapped nowhere else. *)
Definition owns k T (r v : Z) : Prop :=
  ∃ t e, T !! r = Some t ∧ leaves t !! v = Some e ∧ has e PTE_U = true ∧ has e PTE_W = true ∧
    refs T (PTE2PA e) = 1 ∧ cnt k (PTE2PA e) = 1.

Definition same_views T m T' m' : Prop := ∀ r va, views T' m' r va = views T m r va.

(** ** Finding and counting mappings *)

(** walk() finds the entry of a virtual address: without [alloc] it changes
    nothing, and the entry at the address it returns is the mapping of the
    page (or there is no mapping).  With [alloc] it adds the table pages that
    are missing, which no process can see, unless memory has run out. *)
Theorem walk_correct k T E r t va :
  minv k T E → Eok E → T !! r = Some t → 0 ≤ va < MAXVA →
  wp (walk r va false) k (λ a k', k' = k ∧
    if decide (a = 0) then leaves t !! vpn va = None
    else ld64 (ram k) a = default 0 (leaves t !! vpn va)) ∧
  wp (walk r va true) k (λ a k', ∃ T', minv k' T' E ∧ kframe k k' ∧
    same_views T (ram k) T' (ram k') ∧
    if decide (a = 0) then oom k' else ld64 (ram k') a = default 0 (leaves t !! vpn va)).
Proof.
  intros Hi HE Hr Hva. split.
  - eapply wp_mono; [by eapply walk_find|]. intros a ? [-> ->]. split; [done|]. case_decide as Hs.
    + destruct (leaves t !! vpn va) as [e|] eqn:He; [|done].
      by destruct (slot_nonzero _ _ _ _ _ _ _ Hi Hr He).
    + by eapply slot_load.
  - eapply wp_mono; [by eapply walk_alloc|]. intros a k' (t' & Hi' & Hkf & Hg & Hop & -> & _ & Hz).
    exists (<[r := t']> T). split_and!; [done..| |].
    + intros r' va'. rewrite (views_grown T (ram k') r t t') by done. by eapply views_touch.
    + case_decide as Hs; [by destruct Hz as [[_ ?]|]|].
      rewrite (slot_load _ _ _ _ _ _ Hi' (lookup_insert_eq _ _ _) Hs). by rewrite (gr_leaves _ _ Hg).
Qed.

(** ** fork *)

(** Marking a mapping copy-on-write does not change what it shows. *)
Lemma uaddr_cow lm v e :
  leaf_ok lm v e → PTE2PA (cow_pte e) = PTE2PA e ∧ has (cow_pte e) PTE_U = has e PTE_U.
Proof.
  intros Hok. split; [by eapply cow_pte_pa|]. rewrite (cow_pte_has _ _ _ _ Hok) by done.
  destruct (cow_flags_spec _ (PTE_FLAGS_range e)) as (_ & _ & _ & -> & _).
  by rewrite <-has_flags.
Qed.

Lemma uview_cow_upto k T E r t m i va :
  minv k T E → T !! r = Some t → uview m (cow_upto i t) va = uview m t va.
Proof.
  intros Hi Hr. unfold uview, uaddr. rewrite cow_upto_lookup. simpl lim.
  destruct (leaves t !! vpn va) as [e|] eqn:He; [|done]. simpl.
  destruct (uaddr_cow _ _ e (mi_leaf _ _ _ Hi _ _ _ _ Hr He)) as [H1 H2].
  case_decide; [by rewrite H1, H2|done].
Qed.

Lemma vpn_range va n : 0 ≤ vpn va < n ↔ 0 ≤ va < n * PGSIZE.
Proof.
  unfold vpn. pose proof (Z.div_mod va PGSIZE). pose proof (mod_page_range va).
  Zconst. split; lia.
Qed.

Section fork.
Context k T E old new tp tc (n : Z) (Hi : minv k T E) (Ho : T !! old = Some tp) (Hn : T !! new = Some tc).
Hypotheses (Hne : old ≠ new)
  (Hpar : ∀ v, 0 ≤ v < n → is_Some (leaves tp !! v) ∧ v < lim tp)
  (Hch : ∀ v, 0 ≤ v < n → leaves tc !! v = None ∧ v < lim tc).

Lemma uview_shared t m va :
  shared n tp tc t → uview m t va = if decide (0 ≤ va < n * PGSIZE) then uview m tp va else uview m tc va.
Proof.
  intros [_ Hlim Hnew Hrest]. unfold uview, uaddr. rewrite Hlim.
  destruct (decide (0 ≤ va < n * PGSIZE)) as [Hin|Hout]; rewrite <-vpn_range in *.
  - rewrite Hnew by done. destruct (Hpar (vpn va) Hin) as [[e He] Hl]. destruct (Hch (vpn va) Hin) as [_ Hl'].
    rewrite He. cbn [fmap option_fmap option_map]. destruct (uaddr_cow _ _ e (mi_leaf _ _ _ Hi _ _ _ _ Ho He)) as [-> ->].
    by destruct (Z.ltb_spec (vpn va) (lim tc)), (Z.ltb_spec (vpn va) (lim tp)); try lia.
  - by rewrite Hrest.
Qed.

Lemma views_forked i j t m :
  (i = n ∧ shared n tp tc t ∨ i = 0 ∧ grown tc t) →
  ∀ r va, views (forked T old new tp j t) m r va =
    if decide (r = new ∧ 0 ≤ va < i * PGSIZE) then views T m old va else views T m r va.
Proof.
  intros Ht r va. unfold forked. rewrite views_insert.
  destruct (decide (new = r)) as [<-|Hr].
  - destruct Ht as [[-> Ht]|[-> Ht]].
    + rewrite (uview_shared t m va Ht). unfold views at 1 2. rewrite Ho, Hn. simpl.
      repeat case_decide; naive_solver.
    + rewrite decide_False by lia. unfold views. rewrite Hn. simpl. unfold uview.
      by rewrite (uaddr_same tc t) by apply Ht.
  - rewrite decide_False by naive_solver. rewrite views_insert. case_decide; [subst r|done].
    rewrite (uview_cow_upto k T E old) by done. unfold views. by rewrite Ho.
Qed.
End fork.

(** After the fork neither side may write a shared page. *)
Lemma forked_readonly k T E old new tp tc n t v :
  minv k T E → T !! old = Some tp → old ≠ new → shared n tp tc t → 0 ≤ v < n → v < lim tp →
  ¬ uwritable (forked T old new tp n t) old v ∧ ¬ uwritable (forked T old new tp n t) new v.
Proof.
  intros Hi Ho Hne Hsh Hv Hl.
  assert (∀ e, leaves tp !! v = Some e →
    ¬ (has (cow_pte e) PTE_U = true ∧ has (cow_pte e) PTE_W = true)) as Hnw.
  { intros e He. pose proof (mi_leaf _ _ _ Hi _ _ _ _ Ho He) as Hok.
    by destruct (cow_pte_ok _ (lim tp) _ _ Hok Hl Hl) as (_ & ? & _). }
  unfold forked. split; intros (t1 & e1 & Ht1 & He1 & Hu & Hw).
  - rewrite lookup_insert_ne, lookup_insert_eq in Ht1 by done. injection Ht1 as <-.
    rewrite cow_upto_lookup in He1. apply fmap_Some in He1 as (e & He & ->).
    rewrite decide_True in Hu, Hw by lia. by apply (Hnw e).
  - rewrite lookup_insert_eq in Ht1. injection Ht1 as <-.
    rewrite (sh_new _ _ _ _ Hsh) in He1 by done. apply fmap_Some in He1 as (e & He & ->).
    by apply (Hnw e).
Qed.

(** C4. fork: uvmcopy() gives the child exactly the memory of the parent below
    [sz], by sharing the pages: no other process sees a change, the parent sees
    the same memory, and neither may write a shared page.  If memory runs out,
    which takes less than two free pages for every page of the parent, nobody
    sees a change and every page has as many mappings as before.  The
    invariant (reference counts equal to the number of owners, a writable page
    has one owner) holds in both cases. *)
Theorem uvmcopy_correct k T E old new tp tc sz :
  minv k T E → Eok E → T !! old = Some tp → T !! new = Some tc → old ≠ new → 0 ≤ sz ≤ MAXVA →
  (∀ v, 0 ≤ v < npg sz → is_Some (leaves tp !! v) ∧ v < lim tp) →
  (∀ v, 0 ≤ v < npg sz → leaves tc !! v = None ∧ v < lim tc) →
  wp (uvmcopy old new sz) k (λ c k', ∃ T', minv k' T' E ∧ kframe k k' ∧
    ((c = 0 ∧
      (∀ r va, views T' (ram k') r va =
         if decide (r = new ∧ 0 ≤ va < npg sz * PGSIZE) then views T (ram k) old va
         else views T (ram k) r va) ∧
      (∀ v, 0 ≤ v < npg sz → ¬ uwritable T' old v ∧ ¬ uwritable T' new v)) ∨
     (c = -1 ∧ same_views T (ram k) T' (ram k') ∧ (∀ pa, refs T' pa = refs T pa) ∧
      short (Z.to_nat (2 * npg sz)) k))).
Proof.
  intros Hi HE Ho Hn Hne Hsz Hpar Hch. pose proof (npg_range sz Hsz) as Hnp.
  assert (∀ m r va, only_pages (touch T E) (ram k) m → views T m r va = views T (ram k) r va) as Htv
    by (intros; by eapply views_touch).
  eapply wp_mono; [eapply (uvmcopy_spec k T E old new tp tc (npg sz)); try done; lia|].
  intros c k' [[-> (t & Hi' & Hkf & Hsh & Hop)]|[-> [(j & t & Hj & Hi' & Hkf & Hg & Hop) Hsh]]].
  - exists (forked T old new tp (npg sz) t). split_and!; [done..|]. left. split_and!; [done| |].
    + intros r va. erewrite (views_forked _ _ _ _ _ _ tc (npg sz)) by eauto.
      case_decide; by apply Htv.
    + intros v Hv. eapply forked_readonly; try done. by apply Hpar.
  - exists (forked T old new tp j t). split_and!; [done..|]. right. split_and!; [done| | |done].
    + intros r va. erewrite (views_forked _ _ _ _ _ _ tc (npg sz)) by eauto.
      rewrite decide_False by lia. by apply Htv.
    + intros pa. unfold forked. rewrite (refs_grown _ _ tc) by (done || by rewrite lookup_insert_ne).
      rewrite (refs_insert _ _ tp) by done. rewrite (nref_cow_upto k T E old tp Hi Ho). lia.
Qed.

(** ** Copy-on-write faults *)

(** C5. cowalloc() resolves a write to a copy-on-write page: afterwards the page
    is writable and has one owner, and every process (this one included) sees
    the same memory as before.  It fails, without changing anything that can be
    seen, only for an address that is not a copy-on-write page of the process,
    or when there is no free page. *)
Theorem cowalloc_correct k T E r t va :
  minv k T E → Eok E → T !! r = Some t → 0 ≤ va →
  wp (cowalloc r va) k (λ c k', ∃ T', minv k' T' E ∧ kframe k k' ∧
    same_views T (ram k) T' (ram k') ∧
    ((c = 0 ∧ owns k' T' r (vpn va)) ∨
     (c = -1 ∧ T' = T ∧ ram k' = ram k ∧
      ((∀ e, leaves t !! vpn va = Some e → va < MAXVA → is_cow e = false) ∨ oom k')))).
Proof.
  intros Hi HE Hr Hva. eapply wp_mono; [by eapply cowalloc_spec|].
  intros c k' [(-> & -> & Hno)|(e & Hlt & He & Hcow & Hl & [[-> Hres]|(-> & Hkf & Hi' & Er & Ho)])].
  - exists T. split_and!; [done|reflexivity|done|]. right. split_and!; try done. left. auto.
  - destruct (cow_views _ _ _ _ _ _ _ _ Hi Hr He Hl Hcow Hres)
      as (t' & e' & Hi' & _ & Hkf & _ & Hlm & He' & Hu & Hw & _ & Hv).
    exists (<[r := t']> T). split_and!; [done..|]. left. split; [done|].
    assert (<[r := t']> T !! r = Some t') as Hr' by apply lookup_insert_eq.
    assert (vpn va < lim t') as Hl' by lia.
    destruct (mi_w _ _ _ Hi' r t' (vpn va) e') as [H1 H2]; try done.
    destruct (mapped_page _ _ _ _ _ _ _ Hi' HE Hr' He' Hl') as (_ & _ & _ & Hc).
    exists t', e'. split_and!; try done. specialize (HE (PTE2PA e')). lia.
  - exists T. split_and!; [done..| |].
    + intros r' va'. by rewrite Er.
    + right. split_and!; try done. by right.
Qed.

(** ** Kernel and user memory *)

(** C6. copyout() writes [len] bytes of the kernel buffer [src] to user address
    [dstva] and nothing else that any process can see, copy-on-write pages
    included; when it fails, a prefix was written and the next byte is not
    mapped for the user, or it is in a copy-on-write page and no page is free. *)
Theorem copyout_correct k T E r t dstva src len :
  minv k T E → Eok E → T !! r = Some t → 0 ≤ dstva < 2 ^ 64 → 0 ≤ len → 0 ≤ src →
  src + len < 2 ^ 64 → kbuf E src len →
  wp (copyout r dstva src len) k (λ c k', ∃ T' i, minv k' T' E ∧ kframe k k' ∧
    only_pages (upage E) (ram k) (ram k') ∧
    (∀ r' va, views T' (ram k') r' va =
       if decide (r' = r ∧ dstva ≤ va < dstva + i) then Some (ldb (ram k) (src + (va - dstva)))
       else views T (ram k) r' va) ∧
    ((c = 0 ∧ i = len) ∨
     (c = -1 ∧ 0 ≤ i < len ∧ stuck T (ram k) r (dstva + i) k'))).
Proof.
  intros Hi HE Hr Hd Hlen Hs Hsl Hbuf. eapply wp_mono; [by eapply copyout_spec|].
  intros c k' [[-> (t' & H1 & _ & H2 & H3 & H4)]|(-> & i & Hin & (t' & H1 & _ & H2 & H3 & H4) & Hwhy)].
  - exists (<[r := t']> T), len. split_and!; try done. by left.
  - exists (<[r := t']> T), i. split_and!; try done. right. by split_and!; try lia.
Qed.

(** copyin() copies the [len] bytes that the user sees at [srcva] to the
    kernel buffer [dst] and changes no other memory; it fails exactly at the
    first byte that is not mapped for the user. *)
Theorem copyin_correct k T E r t dst srcva len :
  minv k T E → T !! r = Some t → 0 ≤ srcva < 2 ^ 64 → 0 ≤ len → 0 ≤ dst → dst + len < 2 ^ 64 →
  kmem_ok k T E dst len →
  wp (copyin r dst srcva len) k (λ c k', ∃ i, minv k' T E ∧ kframe k k' ∧
    (∀ j, 0 ≤ j < i → views T (ram k) r (srcva + j) = Some (ldb (ram k') (dst + j))) ∧
    (∀ a, ¬ dst ≤ a < dst + i → ldb (ram k') a = ldb (ram k) a) ∧
    ((c = 0 ∧ i = len) ∨ (c = -1 ∧ 0 ≤ i < len ∧ views T (ram k) r (srcva + i) = None))).
Proof.
  intros. eapply wp_mono; [by eapply copyin_spec|].
  intros c k' [[-> [H1' H2' _ [H4' H5'] _]]|(-> & i & Hin & [H1' H2' _ [H4' H5'] _] & Hno)].
  - exists len. split_and!; try done. by left.
  - exists i. split_and!; try done. right. by split_and!; try lia.
Qed.

(** C14. copyinstr() copies the user's string at [srcva] with its terminating zero
    if that lies within [max] bytes; otherwise it fails, at the first byte that
    is not mapped or after [max] bytes without a zero. *)
Theorem copyinstr_correct k T E r t dst srcva max :
  minv k T E → T !! r = Some t → 0 ≤ srcva < 2 ^ 64 → 0 ≤ max < 2 ^ 64 → kmem_ok k T E dst max →
  wp (copyinstr r dst srcva max) k (λ c k', ∃ i, minv k' T E ∧ kframe k k' ∧
    (∀ j, 0 ≤ j < i → views T (ram k) r (srcva + j) = Some (ldb (ram k') (dst + j))) ∧
    (∀ a, ¬ dst ≤ a < dst + i → ldb (ram k') a = ldb (ram k) a) ∧
    ((c = 0 ∧ 0 < i ≤ max ∧ no_nul k T r srcva (i - 1) ∧
      views T (ram k) r (srcva + (i - 1)) = Some 0) ∨
     (c = -1 ∧ no_nul k T r srcva i ∧
      (i = max ∨ 0 ≤ i < max ∧ views T (ram k) r (srcva + i) = None)))).
Proof.
  intros. eapply wp_mono; [by eapply copyinstr_spec|].
  intros c k' [[-> (i & Hin & [H1' H2' _ [H4' H5'] _] & Hnn & Hz)]|
               (-> & i & Hin & [H1' H2' _ [H4' H5'] _] & Hnn & Hwhy)].
  - exists (i + 1). split_and!; try done. left. replace (i + 1 - 1) with i by lia.
    by split_and!; try lia.
  - exists i. split_and!; try done. right. split_and!; try done.
    destruct (decide (i = max)); [by left|right]. naive_solver lia.
Qed.

(** ** Growing, shrinking and freeing *)

Lemma views_extended T m r t t' v0 v1 :
  T !! r = Some t → v1 ≤ lim t → extended m t t' v0 v1 →
  ∀ r' va, views (<[r := t']> T) m r' va =
    if decide (r' = r ∧ v0 ≤ vpn va < v1) then Some 0 else views T m r' va.
Proof.
  intros Hr Hl [_ Hlm Hold Hnew] r' va. rewrite views_insert.
  destruct (decide (r = r')) as [<-|Hne]; [|by rewrite decide_False by naive_solver].
  unfold views. rewrite Hr. simpl. unfold uview, uaddr. rewrite Hlm.
  destruct (decide (v0 ≤ vpn va < v1)) as [Hin|Hout].
  - destruct (Hnew (vpn va) Hin) as (pa & -> & Hv & Hz). rewrite decide_True by done.
    rewrite has_mkpte by done. destruct (Z.ltb_spec (vpn va) (lim t)); [|lia]. simpl.
    rewrite valid_mkpte_pa by done. f_equal. apply Hz. apply page_offset; [apply Hv|apply mod_page_range].
  - rewrite decide_False by naive_solver. by rewrite Hold.
Qed.

(** C15. uvmalloc() grows an address space by zero-filled pages, each owned by the
    process alone; on failure, which takes less than three free pages for each
    of them, it takes back what it allocated.  Nobody else sees a change. *)
Theorem uvmalloc_correct k T E r t oldsz newsz :
  minv k T E → Eok E → T !! r = Some t → 0 ≤ oldsz ≤ newsz → newsz ≤ MAXVA →
  npg newsz ≤ lim t → (∀ v, npg oldsz ≤ v < npg newsz → leaves t !! v = None) →
  wp (uvmalloc r oldsz newsz) k (λ c k', ∃ T', minv k' T' E ∧ kframe k k' ∧
    ((c = newsz ∧
      (∀ r' va, views T' (ram k') r' va =
         if decide (r' = r ∧ npg oldsz ≤ vpn va < npg newsz) then Some 0
         else views T (ram k) r' va) ∧
      (∀ v, npg oldsz ≤ v < npg newsz → owns k' T' r v)) ∨
     (c = 0 ∧ same_views T (ram k) T' (ram k') ∧ (∀ pa, refs T' pa = refs T pa) ∧
      short (Z.to_nat (3 * (npg newsz - npg oldsz))) k))).
Proof.
  intros Hi HE Hr Hsz Hmax Hlim Hnone. eapply wp_mono; [by eapply uvmalloc_spec|].
  intros c k' [[-> (t' & Hi' & Hkf & Hex & Hop)]|[-> [(t' & Hi' & Hkf & Hg & Hop) Hsh]]];
    exists (<[r := t']> T); (split_and!; [done..|]).
  - left. split_and!; [done| |].
    + intros r' va. rewrite (views_extended T (ram k') r t t' _ _ Hr Hlim Hex).
      case_decide; [done|]. by eapply views_touch.
    + intros v Hv. destruct (ex_new _ _ _ _ _ Hex v Hv) as (pa & He & Hvp & _).
      assert (<[r := t']> T !! r = Some t') as Hr' by apply lookup_insert_eq.
      assert (v < lim t') as Hl' by (rewrite (ex_lim _ _ _ _ _ Hex); lia).
      assert (has (mkpte pa WRXU) PTE_U = true ∧ has (mkpte pa WRXU) PTE_W = true) as [Hu Hw]
        by (by rewrite !has_mkpte).
      destruct (mi_w _ _ _ Hi' r t' v _ Hr' He Hl' Hu Hw) as [H1 H2].
      destruct (mapped_page _ _ _ _ _ _ _ Hi' HE Hr' He Hl') as (_ & _ & _ & Hc).
      exists t', (mkpte pa WRXU). split_and!; try done. specialize (HE (PTE2PA (mkpte pa WRXU))). lia.
  - right. split_and!; [done| | |done].
    + intros r' va. rewrite (views_grown T (ram k') r t t') by done. by eapply views_touch.
    + intros pa. by apply (refs_grown _ _ t).
Qed.

Lemma views_clear T m r t v0 v1 :
  T !! r = Some t →
  ∀ r' va, views (<[r := clear_range v0 v1 t]> T) m r' va =
    if decide (r' = r ∧ v0 ≤ vpn va < v1) then None else views T m r' va.
Proof.
  intros Hr r' va. rewrite views_insert.
  destruct (decide (r = r')) as [<-|Hne]; [|by rewrite decide_False by naive_solver].
  unfold views. rewrite Hr. simpl. unfold uview, uaddr. rewrite clear_range_lookup. simpl lim.
  destruct (decide (v0 ≤ vpn va < v1)).
  - by rewrite decide_True.
  - by rewrite decide_False by naive_solver.
Qed.

(** uvmdealloc() removes the pages between the two sizes from the address
    space, drops their references, and returns the smaller size; nobody else
    sees a change. *)
Theorem uvmdealloc_correct k T E r t oldsz newsz :
  minv k T E → Eok E → T !! r = Some t → 0 ≤ newsz → 0 ≤ oldsz ≤ MAXVA →
  mapped_range t (npg newsz) (npg oldsz) true →
  wp (uvmdealloc r oldsz newsz) k (λ c k', ∃ T', minv k' T' E ∧ kframe k k' ∧
    c = Z.min oldsz newsz ∧
    ∀ r' va, views T' (ram k') r' va =
      if decide (r' = r ∧ npg newsz ≤ vpn va < npg oldsz) then None else views T (ram k) r' va).
Proof.
  intros Hi HE Hr Hn Ho Hmap. eapply wp_mono; [by eapply uvmdealloc_spec|].
  intros c k' (-> & Hi' & Hkf & Hop). eexists. split_and!; [exact Hi'|done|done|].
  intros r' va. rewrite (views_mem _ _ (ram k) _ Hop).
  - by apply views_clear.
  - by intros q (_ & ? & _).
  - intros. by eapply minv_leaf_aligned.
Qed.

(** C16. uvmfree() frees a whole address space: a page that only this table used,
    as a table page or as memory, is free afterwards, the other page tables
    keep their memory, and no page is leaked (the counts of all other pages are
    again the number of their owners). *)
Theorem uvmfree_correct k T E r t sz :
  minv k T E → Eok E → T !! r = Some t → 0 ≤ sz ≤ MAXVA →
  mapped_range t 0 (npg sz) true → (∀ v, is_Some (leaves t !! v) → v < npg sz) →
  wp (uvmfree r sz) k (λ _ k', minv k' (delete r T) E ∧ kframe k k' ∧
    (∀ pa, valid_page pa → cnt k' pa = cnt k pa - ntab t pa - nref t pa) ∧
    ∀ r' va, views (delete r T) (ram k') r' va = if decide (r' = r) then None else views T (ram k) r' va).
Proof.
  intros Hi HE Hr Hsz Hmap Hall. eapply wp_mono; [by eapply uvmfree_spec|].
  intros ? k' (Hi' & Hkf & Hop). split_and!; [done..| |].
  - intros pa Hv. rewrite (mi_cnt _ _ _ Hi'), (mi_cnt _ _ _ Hi), (npt_delete _ _ t), (refs_delete _ _ t)
      by done. lia.
  - intros r' va. rewrite (views_mem _ (delete r T) (ram k) _ Hop).
    + unfold views. case_decide; [subst; by rewrite lookup_delete_eq|by rewrite lookup_delete_ne].
    + by intros q (_ & ? & _).
    + intros. by eapply minv_leaf_aligned.
Qed.

(** ** Address spaces over time *)

(** What the kernel does with address spaces: it makes an empty one, grows or
    shrinks one to a size, copies one for a child, resolves a write fault, and
    takes one down. *)
Inductive vmop :=
  | Create | Grow (r newsz : Z) | Shrink (r newsz : Z) | Fork (r : Z) | Fault (r va : Z) | Destroy (r : Z).

(** One operation, with the sizes of the spaces there are.  The calls are made
    as growproc(), fork(), freeproc() and usertrap() make them; an operation on
    a space that does not exist, or to a size the code does not ask for, is
    skipped. *)
Definition vm_op (o : vmop) (A : gmap Z Z) : K (gmap Z Z) :=
  match o with
  | Create =>
      r ← uvmcreate;
      mret (if r =? 0 then A else <[r := 0]> A)
  | Grow r newsz =>
      match A !! r with
      | Some sz =>
          if (sz <=? newsz) && (newsz <=? MAXVA) then
            c ← uvmalloc r sz newsz;
            mret (if c =? 0 then A else <[r := c]> A)
          else mret A
      | None => mret A
      end
  | Shrink r newsz =>
      match A !! r with
      | Some sz => if 0 <=? newsz then c ← uvmdealloc r sz newsz; mret (<[r := c]> A) else mret A
      | None => mret A
      end
  | Fork r =>
      match A !! r with
      | Some sz =>
          new ← uvmcreate;
          if new =? 0 then mret A else
          c ← uvmcopy r new sz;
          if c <? 0 then uvmfree new 0;; mret A else mret (<[new := sz]> A)
      | None => mret A
      end
  | Fault r va =>
      match A !! r with
      | Some _ => if 0 <=? va then cowalloc r va;; mret A else mret A
      | None => mret A
      end
  | Destroy r =>
      match A !! r with
      | Some sz => uvmfree r sz;; mret (delete r A)
      | None => mret A
      end
  end.

Fixpoint vm_ops (l : list vmop) (A : gmap Z Z) : K (gmap Z Z) :=
  match l with
  | [] => mret A
  | o :: l' => A' ← vm_op o A; vm_ops l' A'
  end.

(** A space of [sz] bytes maps exactly the pages below its size. *)
Record space_ok (sz : Z) (t : pgtab) : Prop := {
  so_size : 0 ≤ sz ≤ MAXVA;
  so_lim : lim t = MAXVA / PGSIZE;
  so_dom : ∀ v, is_Some (leaves t !! v) ↔ 0 ≤ v < npg sz;
}.

(** The page tables are those of the spaces. *)
Definition spaces (A : gmap Z Z) T : Prop := map_relation (λ _, space_ok) (λ _ _, False) (λ _ _, False) A T.

(** Nobody but the page tables has a reference. *)
Definition E0 : Z → Z := λ _, 0.

Lemma spaces_insert A T r sz t : spaces A T → space_ok sz t → spaces (<[r := sz]> A) (<[r := t]> T).
Proof.
  intros HA Ht r'. destruct (decide (r = r')) as [<-|Hne]; [by rewrite !lookup_insert_eq|].
  rewrite !lookup_insert_ne by done. apply HA.
Qed.
Lemma spaces_update A T r sz t : spaces A T → A !! r = Some sz → space_ok sz t → spaces A (<[r := t]> T).
Proof. intros HA Hr Ht. rewrite <-(insert_id A r sz) by done. by apply spaces_insert. Qed.
Lemma spaces_lookup A T r sz : spaces A T → A !! r = Some sz → ∃ t, T !! r = Some t ∧ space_ok sz t.
Proof. intros HA Hr. specialize (HA r). rewrite Hr in HA. destruct (T !! r) as [t|]; [|done]. eauto. Qed.
Lemma spaces_delete A T r : spaces A T → spaces (delete r A) (delete r T).
Proof.
  intros HA r'. destruct (decide (r = r')) as [<-|Hne]; [by rewrite !lookup_delete_eq|].
  rewrite !lookup_delete_ne by done. apply HA.
Qed.

Lemma E0_ok : Eok E0.
Proof. intros q. unfold E0. lia. Qed.

Lemma max_pages : MAXVA / PGSIZE = 2 ^ 26.
Proof. done. Qed.

Lemma space_mapped sz t v0 : space_ok sz t → 0 ≤ v0 → mapped_range t v0 (npg sz) true.
Proof.
  intros [Hs Hl Hd] Hv v Hin. pose proof (npg_range sz Hs) as Hn. split; [apply Hd; lia|].
  rewrite Hl, max_pages. Zconst. lia.
Qed.

(** Tables that map the same pages are as good. *)
Lemma space_ok_same sz t t' :
  space_ok sz t → lim t' = lim t → (∀ v, is_Some (leaves t' !! v) ↔ is_Some (leaves t !! v)) → space_ok sz t'.
Proof. intros [Hs Hl Hd] El Ed. split; [done|congruence|]. intros v. by rewrite Ed. Qed.

(** The invariant over time. *)
Definition vm_inv (A : gmap Z Z) (k : kernel) : Prop := ∃ T, minv k T E0 ∧ spaces A T.

Section ops.
Context (A : gmap Z Z) (k : kernel) (T : tables) (Hi : minv k T E0) (HA : spaces A T).

Lemma create_inv (Q : Z → kernel → Prop) :
  (∀ k', vm_inv A k' → Q 0 k') →
  (∀ r k', r ≠ 0 → A !! r = None →
     minv k' (<[r := empty_pt r (MAXVA / PGSIZE)]> T) E0 → T !! r = None → Q r k') →
  wp uvmcreate k Q.
Proof.
  intros H0 H1. eapply wp_mono; [apply (uvmcreate_spec (MAXVA / PGSIZE) k T E0 Hi E0_ok); by Zconst|].
  intros r k' (_ & [(-> & Hi' & _)|(Hr & Hn & Hi' & _)]); [apply H0; by exists T|].
  apply H1; try done. specialize (HA r). rewrite Hn in HA. by destruct (A !! r).
Qed.

Lemma empty_space r : space_ok 0 (empty_pt r (MAXVA / PGSIZE)).
Proof.
  split; [by Zconst|done|]. intros v. simpl. rewrite lookup_empty. change (npg 0) with 0.
  split; [by intros []|lia].
Qed.

Lemma grow_op_inv r sz newsz :
  A !! r = Some sz → sz ≤ newsz ≤ MAXVA →
  wp (uvmalloc r sz newsz) k (λ c k', vm_inv (if c =? 0 then A else <[r := c]> A) k').
Proof.
  intros Hr Hn. destruct (spaces_lookup _ _ _ _ HA Hr) as (t & Ht & Hs). pose proof Hs as [Hsz Hl Hd].
  pose proof (npg_range newsz ltac:(lia)) as Hnp. pose proof (npg_le sz newsz ltac:(lia)) as Hle.
  eapply wp_mono; [eapply (uvmalloc_spec k T E0 r t); try done; try apply E0_ok; try lia|].
  - rewrite Hl, max_pages. Zconst. lia.
  - intros v Hv. destruct (leaves t !! v) eqn:E; [|done]. assert (0 ≤ v < npg sz) by (apply Hd; by eexists). lia.
  - intros c k' [[-> (t' & Hi' & _ & Hex & _)]|(-> & (t' & Hi' & _ & Hg & _) & _)]; simpl.
    + assert (space_ok newsz t') as Hs'.
      { split; [lia|by rewrite (ex_lim _ _ _ _ _ Hex)|]. intros v.
        pose proof (npg_range sz Hsz) as Hnz. destruct (decide (npg sz ≤ v < npg newsz)) as [Hin|Hout].
        - destruct (ex_new _ _ _ _ _ Hex v Hin) as (pa & -> & _). split; [lia|by eexists].
        - rewrite (ex_old _ _ _ _ _ Hex v Hout), Hd. lia. }
      exists (<[r := t']> T). split; [done|]. destruct (Z.eqb_spec newsz 0) as [->|]; [|by apply spaces_insert].
      assert (sz = 0) as -> by lia. by eapply spaces_update.
    + exists (<[r := t']> T). split; [done|]. eapply spaces_update; [done..|].
      eapply space_ok_same; [done|apply Hg|]. intros v. by rewrite (gr_leaves _ _ Hg).
Qed.

Lemma shrink_inv r sz newsz :
  A !! r = Some sz → 0 ≤ newsz → wp (uvmdealloc r sz newsz) k (λ c k', vm_inv (<[r := c]> A) k').
Proof.
  intros Hr Hn. destruct (spaces_lookup _ _ _ _ HA Hr) as (t & Ht & Hs). pose proof Hs as [Hsz Hl Hd].
  assert (0 ≤ npg newsz) as Hn0 by (change 0 with (npg 0); by apply npg_le).
  eapply wp_mono; [eapply (uvmdealloc_spec k T E0 r t); [done|apply E0_ok|done|done|done|by apply space_mapped]|].
  intros c k' [-> (Hi' & _)]. eexists. split; [exact Hi'|]. apply spaces_insert; [done|]. split; [lia|done|].
  intros v. rewrite clear_range_lookup. destruct (Z.le_ge_cases sz newsz) as [Hle|Hge].
  - rewrite Z.min_l by done. pose proof (npg_le _ _ Hle). rewrite decide_False by lia. apply Hd.
  - rewrite Z.min_r by done. pose proof (npg_le _ _ Hge).
    case_decide as E; [|rewrite Hd; lia]. split; [by intros []|lia].
Qed.

Lemma fault_inv r sz va : A !! r = Some sz → 0 ≤ va → wp (cowalloc r va) k (λ _ k', vm_inv A k').
Proof.
  intros Hr Hva. destruct (spaces_lookup _ _ _ _ HA Hr) as (t & Ht & Hs).
  eapply wp_mono; [eapply (cowalloc_spec k T E0 r t); [done|apply E0_ok|done..]|].
  intros c k' [(_ & -> & _)|(e & _ & He & _ & _ & [[_ (p & _ & Hi' & _)]|(_ & _ & Hi' & _)])];
    [by exists T| |by exists T].
  eexists. split; [exact Hi'|]. eapply spaces_update; [done..|]. eapply space_ok_same; [done|done|].
  intros v. unfold put_leaf. simpl. destruct (decide (vpn va = v)) as [<-|Hne].
  - rewrite lookup_partial_alter_eq. by rewrite He.
  - by rewrite lookup_partial_alter_ne.
Qed.

Lemma destroy_inv r sz : A !! r = Some sz → wp (uvmfree r sz) k (λ _ k', vm_inv (delete r A) k').
Proof.
  intros Hr. destruct (spaces_lookup _ _ _ _ HA Hr) as (t & Ht & Hs). pose proof Hs as [Hsz Hl Hd].
  eapply wp_mono; [eapply (uvmfree_spec k T E0 r t); [done|apply E0_ok|done|done|by apply space_mapped|]|].
  - intros v Hv%Hd. lia.
  - intros _ k' (Hi' & _). exists (delete r T). split; [done|by apply spaces_delete].
Qed.
End ops.

(** uvmcopy() into a new space; on failure the new space is still empty. *)
Lemma copy_inv A k T r sz t new :
  spaces A T → A !! r = Some sz → T !! r = Some t → space_ok sz t → A !! new = None → T !! new = None →
  minv k (<[new := empty_pt new (MAXVA / PGSIZE)]> T) E0 →
  wp (uvmcopy r new sz) k (λ c k', c = 0 ∧ vm_inv (<[new := sz]> A) k' ∨ c = -1 ∧ vm_inv (<[new := 0]> A) k').
Proof.
  intros HA Hr Ht Hs HnA HnT Hi. pose proof Hs as [Hsz Hl Hd]. set (tc := empty_pt new (MAXVA / PGSIZE)) in *.
  assert (r ≠ new) as Hne by congruence.
  pose proof (npg_range sz Hsz) as Hnp. pose proof (space_mapped sz t 0 Hs ltac:(lia)) as Hm.
  eapply wp_mono; [eapply (uvmcopy_spec k (<[new := tc]> T) E0 r new t tc (npg sz));
    [done|apply E0_ok|by rewrite lookup_insert_ne|apply lookup_insert_eq|done|lia|lia|done| |done|done]|].
  - intros v Hv. split; [apply lookup_empty|]. subst tc. simpl. rewrite max_pages. Zconst. lia.
  - assert (∀ j, space_ok sz (cow_upto j t)) as Hcow.
    { intros j. eapply space_ok_same; [done|done|]. intros v. rewrite cow_upto_lookup. apply fmap_is_Some. }
    assert (∀ j t' sz', space_ok sz' t' → spaces (<[new := sz']> A) (<[new := t']> (<[r := cow_upto j t]> (<[new := tc]> T)))) as Hsp.
    { intros j t' sz' Ht'. rewrite (insert_insert_ne T r new) by done. rewrite insert_insert_eq.
      apply spaces_insert; [|done]. by eapply spaces_update. }
    intros c k' [[-> (t' & Hi' & _ & Hsh & _)]|[-> [(j & t' & _ & Hi' & _ & Hg & _) _]]]; [left|right]; (split; [done|]).
    + eexists. split; [exact Hi'|]. apply Hsp. split; [done|by rewrite (sh_lim _ _ _ _ Hsh)|].
      intros v. destruct (decide (0 ≤ v < npg sz)) as [Hv|Hv].
      * rewrite (sh_new _ _ _ _ Hsh v Hv), fmap_is_Some, Hd. done.
      * rewrite (sh_rest _ _ _ _ Hsh v Hv). subst tc. simpl. rewrite lookup_empty. split; [by intros []|lia].
    + eexists. split; [exact Hi'|]. apply Hsp. eapply space_ok_same; [apply (empty_space new)|apply Hg|].
      intros v. by rewrite (gr_leaves _ _ Hg).
Qed.

Lemma vm_op_inv o A k : vm_inv A k → wp (vm_op o A) k vm_inv.
Proof.
  intros (T & Hi & HA). destruct o as [|r newsz|r newsz|r|r va|r]; simpl;
    try (destruct (A !! r) as [sz|] eqn:Hr; [|apply wp_ret; by exists T]).
  - apply wp_bind. eapply create_inv; [done..| |].
    + intros k' Hk. apply wp_ret. by simpl.
    + intros r k' Hr0 HnA Hi' HnT. apply wp_ret. destruct (Z.eqb_spec r 0); [done|].
      eexists. split; [exact Hi'|]. apply spaces_insert; [done|apply empty_space].
  - destruct ((sz <=? newsz) && (newsz <=? MAXVA)) eqn:E; [|apply wp_ret; by exists T].
    apply andb_true_iff in E as [E1%Z.leb_le E2%Z.leb_le]. apply wp_bind.
    eapply wp_mono; [by eapply grow_op_inv|]. intros c k' Hk. by apply wp_ret.
  - destruct (Z.leb_spec 0 newsz); [|apply wp_ret; by exists T]. apply wp_bind.
    eapply wp_mono; [by eapply shrink_inv|]. intros c k' Hk. by apply wp_ret.
  - apply wp_bind. eapply create_inv; [done..| |].
    + intros k' Hk. by apply wp_ret.
    + intros new k' Hn0 HnA Hi' HnT. destruct (Z.eqb_spec new 0); [done|].
      destruct (spaces_lookup _ _ _ _ HA Hr) as (t & Ht & Hs).
      apply wp_bind. eapply wp_mono; [by eapply copy_inv|].
      intros c k2 [[-> Hk2]|[-> (T2 & Hi2 & HA2)]]; simpl; [by apply wp_ret|].
      apply wp_bind. eapply wp_mono; [eapply (destroy_inv _ k2 T2); [done..|apply lookup_insert_eq]|].
      intros [] k3 Hk3. apply wp_ret. cbv beta in Hk3. by rewrite delete_insert_id in Hk3.
  - destruct (Z.leb_spec 0 va); [|apply wp_ret; by exists T]. apply wp_bind.
    eapply wp_mono; [by eapply fault_inv|]. intros c k' Hk. by apply wp_ret.
  - apply wp_bind. eapply wp_mono; [by eapply destroy_inv|]. intros [] k' Hk. by apply wp_ret.
Qed.

Lemma vm_ops_inv l A k : vm_inv A k → wp (vm_ops l A) k vm_inv.
Proof.
  revert A k. induction l as [|o l IH]; intros A k Hk; [by apply wp_ret|]. simpl. apply wp_bind.
  eapply wp_mono; [by apply vm_op_inv|]. intros A' k'. apply IH.
Qed.

(** After kinit() there are no page tables and no references. *)
Lemma kinit_vm k : hart_ok (hs k) → freelist k = 0 → wp kinit k (λ _ k', vm_inv ∅ k').
Proof.
  intros Hok Hf. eapply wp_mono; [by apply kinit_spec|]. intros _ k' (F & Hal & Hall & _). exists ∅.
  split; [|by intros r; rewrite !lookup_empty].
  split; try (intros r t; by rewrite lookup_empty); try (intros r t ? ?; by rewrite lookup_empty); [by exists F| |].
  - intros pa Hv. unfold npt, refs, E0. rewrite !msum_empty. simpl.
    apply (ai_free _ _ _ Hal); [split; [done|apply Hv]|]. by apply Hall.
  - intros pa. left. unfold npt. apply msum_empty.
Qed.

(** C12. Whatever the kernel does with address spaces after kinit(), in whatever
    order (creating, growing, shrinking, forking, resolving write faults, taking
    down, with memory running out at any point), every call returns without a
    panic and the count of every page is the number of its owners: the page
    tables it is part of and the mappings of it.  It is at most 2^24 + 1, far
    below the range of the [int] it is kept in.  Every space maps the pages
    below its size, and once the last space is gone every page is free. *)
Theorem refcount_exact k l :
  hart_ok (hs k) → freelist k = 0 →
  wp (kinit;; vm_ops l ∅) k (λ A k', ∃ T, spaces A T ∧
    (∀ r t, T !! r = Some t → pt_mem (ram k') t) ∧
    (∀ pa, valid_page pa → cnt k' pa = npt T pa + refs T pa ∧ 0 ≤ cnt k' pa ≤ 2 ^ 24 + 1) ∧
    (A = ∅ → ∀ pa, valid_page pa → cnt k' pa = 0)).
Proof.
  intros Hok Hf. apply wp_bind. eapply wp_mono; [by apply kinit_vm|]. intros [] k1 H1.
  eapply wp_mono; [by apply vm_ops_inv|]. intros A k' (T & Hi & HA). exists T.
  assert (∀ pa, valid_page pa → cnt k' pa = npt T pa + refs T pa) as Hc.
  { intros pa Hv. rewrite (mi_cnt _ _ _ Hi pa Hv). unfold E0. lia. }
  split_and!; [done|apply Hi| |].
  - intros pa Hv. rewrite (Hc pa Hv). pose proof (refs_bound k' T E0 pa Hi). pose proof (refs_nonneg T pa).
    destruct (mi_pt _ _ _ Hi pa); lia.
  - intros -> pa Hv. rewrite (Hc pa Hv). replace T with (∅ : tables); [unfold npt, refs; by rewrite !msum_empty|].
    symmetry. apply map_empty. intros r. specialize (HA r). rewrite lookup_empty in HA. by destruct (T !! r).
Qed.
End theorems.

(** ** The theorems applied *)

(** The process of [VmDemo] forks. *)
Lemma uvmcopy_correct_witness :
  wp (uvmcopy (pg 0) (pg 4) 4096) demo (λ c k', ∃ T', minv k' T' (owned []) ∧ kframe demo k' ∧
    ((c = 0 ∧
      (∀ r va, views T' (ram k') r va =
         if decide (r = pg 4 ∧ 0 ≤ va < npg 4096 * PGSIZE) then views demo_T (ram demo) (pg 0) va
         else views demo_T (ram demo) r va) ∧
      (∀ v, 0 ≤ v < npg 4096 → ¬ uwritable T' (pg 0) v ∧ ¬ uwritable T' (pg 4) v)) ∨
     (c = -1 ∧ same_views demo_T (ram demo) T' (ram k') ∧ (∀ pa, refs T' pa = refs demo_T pa) ∧
      short (Z.to_nat (2 * npg 4096)) demo))).
Proof.
  apply (uvmcopy_correct demo demo_T (owned []) (pg 0) (pg 4) parent child);
    [exact demo_minv|exact demo_E|exact demo_parent|exact demo_child|done|Zconst; lia|..].
  - intros v Hv. change (npg 4096) with 1 in Hv. assert (v = 0) as -> by lia.
    split; [|by vm_compute]. eexists. exact demo_leaf.
  - intros v Hv. change (npg 4096) with 1 in Hv. assert (v = 0) as -> by lia. by vm_compute.
Defined.

(** It writes to a copy-on-write page. *)
Lemma cowalloc_correct_witness :
  wp (cowalloc (pg 0) 8) demo_cow (λ c k', ∃ T', minv k' T' (owned []) ∧ kframe demo_cow k' ∧
    same_views demo_cow_T (ram demo_cow) T' (ram k') ∧
    ((c = 0 ∧ owns k' T' (pg 0) (vpn 8)) ∨
     (c = -1 ∧ T' = demo_cow_T ∧ ram k' = ram demo_cow ∧
      ((∀ e, leaves cow_parent !! vpn 8 = Some e → 8 < MAXVA → is_cow e = false) ∨ oom k')))).
Proof.
  apply (cowalloc_correct demo_cow demo_cow_T (owned []) (pg 0) cow_parent);
    [exact demo_cow_minv|exact demo_E|exact demo_cow_parent|lia].
Defined.

(** Kernel data lies below [end]. *)
Lemma demo_kbuf a n : KERNBASE ≤ a → a + n ≤ kend → kbuf (owned []) a n.
Proof.
  intros Ha Hn b Hb [[_ Hv] _]. pose proof (page_range b). unfold kend, demo_linker in *. Zconst. lia.
Qed.

Lemma demo_kmem k T E a n : KERNBASE ≤ a → a + n ≤ kend → kmem_ok k T E a n.
Proof.
  intros Ha Hn b Hb [_ Hv]. pose proof (page_range b). unfold kend, demo_linker in *. Zconst. lia.
Qed.

Lemma copyout_correct_witness :
  wp (copyout (pg 0) 4090 KERNBASE 10) demo_cow (λ c k', ∃ T' i, minv k' T' (owned []) ∧
    kframe demo_cow k' ∧ only_pages (upage (owned [])) (ram demo_cow) (ram k') ∧
    (∀ r' va, views T' (ram k') r' va =
       if decide (r' = pg 0 ∧ 4090 ≤ va < 4090 + i) then Some (ldb (ram demo_cow) (KERNBASE + (va - 4090)))
       else views demo_cow_T (ram demo_cow) r' va) ∧
    ((c = 0 ∧ i = 10) ∨
     (c = -1 ∧ 0 ≤ i < 10 ∧ stuck demo_cow_T (ram demo_cow) (pg 0) (4090 + i) k'))).
Proof.
  apply (copyout_correct demo_cow demo_cow_T (owned []) (pg 0) cow_parent);
    [exact demo_cow_minv|exact demo_E|exact demo_cow_parent|lia|lia|Zconst; lia|Zconst; lia|].
  apply demo_kbuf; unfold kend, demo_linker; Zconst; lia.
Defined.

Lemma copyin_correct_witness :
  wp (copyin (pg 0) KERNBASE 100 8) demo (λ c k', ∃ i, minv k' demo_T (owned []) ∧ kframe demo k' ∧
    (∀ j, 0 ≤ j < i → views demo_T (ram demo) (pg 0) (100 + j) = Some (ldb (ram k') (KERNBASE + j))) ∧
    (∀ a, ¬ KERNBASE ≤ a < KERNBASE + i → ldb (ram k') a = ldb (ram demo) a) ∧
    ((c = 0 ∧ i = 8) ∨ (c = -1 ∧ 0 ≤ i < 8 ∧ views demo_T (ram demo) (pg 0) (100 + i) = None))).
Proof.
  apply (copyin_correct demo demo_T (owned []) (pg 0) parent);
    [exact demo_minv|exact demo_parent|lia|lia|Zconst; lia|Zconst; lia|].
  apply demo_kmem; unfold kend, demo_linker; Zconst; lia.
Defined.

Lemma copyinstr_correct_witness :
  wp (copyinstr (pg 0) KERNBASE 100 8) demo (λ c k', ∃ i, minv k' demo_T (owned []) ∧ kframe demo k' ∧
    (∀ j, 0 ≤ j < i → views demo_T (ram demo) (pg 0) (100 + j) = Some (ldb (ram k') (KERNBASE + j))) ∧
    (∀ a, ¬ KERNBASE ≤ a < KERNBASE + i → ldb (ram k') a = ldb (ram demo) a) ∧
    ((c = 0 ∧ 0 < i ≤ 8 ∧ no_nul demo demo_T (pg 0) 100 (i - 1) ∧
      views demo_T (ram demo) (pg 0) (100 + (i - 1)) = Some 0) ∨
     (c = -1 ∧ no_nul demo demo_T (pg 0) 100 i ∧
      (i = 8 ∨ 0 ≤ i < 8 ∧ views demo_T (ram demo) (pg 0) (100 + i) = None)))).
Proof.
  apply (copyinstr_correct demo demo_T (owned []) (pg 0) parent);
    [exact demo_minv|exact demo_parent|lia|lia|].
  apply demo_kmem; unfold kend, demo_linker; Zconst; lia.
Defined.

Lemma uvmalloc_correct_witness :
  wp (uvmalloc (pg 0) 4096 5000) demo (λ c k', ∃ T', minv k' T' (owned []) ∧ kframe demo k' ∧
    ((c = 5000 ∧
      (∀ r' va, views T' (ram k') r' va =
         if decide (r' = pg 0 ∧ npg 4096 ≤ vpn va < npg 5000) then Some 0
         else views demo_T (ram demo) r' va) ∧
      (∀ v, npg 4096 ≤ v < npg 5000 → owns k' T' (pg 0) v)) ∨
     (c = 0 ∧ same_views demo_T (ram demo) T' (ram k') ∧ (∀ pa, refs T' pa = refs demo_T pa) ∧
      short (Z.to_nat (3 * (npg 5000 - npg 4096))) demo))).
Proof.
  apply (uvmalloc_correct demo demo_T (owned []) (pg 0) parent);
    [exact demo_minv|exact demo_E|exact demo_parent|lia|Zconst; lia|by vm_compute|].
  intros v Hv. destruct (leaves parent !! v) as [e|] eqn:He; [|done].
  pose proof (demo_used v ltac:(by eexists)). subst v. change (npg 4096) with 1 in Hv. lia.
Defined.

Lemma demo_mapped : mapped_range parent 0 1 true.
Proof.
  intros v Hv. assert (v = 0) as -> by lia. split; [|by vm_compute]. eexists. exact demo_leaf.
Qed.

Lemma uvmdealloc_correct_witness :
  wp (uvmdealloc (pg 0) 4096 0) demo (λ c k', ∃ T', minv k' T' (owned []) ∧ kframe demo k' ∧
    c = Z.min 4096 0 ∧
    ∀ r' va, views T' (ram k') r' va =
      if decide (r' = pg 0 ∧ npg 0 ≤ vpn va < npg 4096) then None else views demo_T (ram demo) r' va).
Proof.
  apply (uvmdealloc_correct demo demo_T (owned []) (pg 0) parent);
    [exact demo_minv|exact demo_E|exact demo_parent|lia|Zconst; lia|exact demo_mapped].
Defined.

Lemma uvmfree_correct_witness :
  wp (uvmfree (pg 0) 4096) demo (λ _ k', minv k' (delete (pg 0) demo_T) (owned []) ∧ kframe demo k' ∧
    (∀ pa, valid_page pa → cnt k' pa = cnt demo pa - ntab parent pa - nref parent pa) ∧
    ∀ r' va, views (delete (pg 0) demo_T) (ram k') r' va =
      if decide (r' = pg 0) then None else views demo_T (ram demo) r' va).
Proof.
  apply (uvmfree_correct demo demo_T (owned []) (pg 0) parent);
    [exact demo_minv|exact demo_E|exact demo_parent|Zconst; lia|exact demo_mapped|].
  intros v Hv. rewrite (demo_used v Hv). by vm_compute.
Defined.

Lemma walk_correct_witness :
  wp (walk (pg 0) 5000 false) demo (λ a k', k' = demo ∧
    if decide (a = 0) then leaves parent !! vpn 5000 = None
    else ld64 (ram demo) a = default 0 (leaves parent !! vpn 5000)) ∧
  wp (walk (pg 0) 5000 true) demo (λ a k', ∃ T', minv k' T' (owned []) ∧ kframe demo k' ∧
    same_views demo_T (ram demo) T' (ram k') ∧
    if decide (a = 0) then oom k' else ld64 (ram k') a = default 0 (leaves parent !! vpn 5000)).
Proof.
  apply (walk_correct demo demo_T (owned []) (pg 0) parent);
    [exact demo_minv|exact demo_E|exact demo_parent|Zconst; lia].
Defined.

(** From boot: a space of two pages is made at the first free page, forked, and
    written to; then the parent shrinks and goes. *)
Lemma refcount_exact_witness :
  wp (kinit;; vm_ops [Create; Grow (PHYSTOP - PGSIZE) 8192; Fork (PHYSTOP - PGSIZE);
                      Fault (PHYSTOP - PGSIZE) 5000; Shrink (PHYSTOP - PGSIZE) 100; Destroy (PHYSTOP - PGSIZE)] ∅)
    boot (λ A k', ∃ T, spaces A T ∧
    (∀ r t, T !! r = Some t → pt_mem (ram k') t) ∧
    (∀ pa, valid_page pa → cnt k' pa = npt T pa + refs T pa ∧ 0 ≤ cnt k' pa ≤ 2 ^ 24 + 1) ∧
    (A = ∅ → ∀ pa, valid_page pa → cnt k' pa = 0)).
Proof. apply (refcount_exact boot); [exact hart0_ok|reflexivity]. Defined.
