(* ===== verification/ProcFork.v ===== *)
(** * fork()

    fork() (kernel/proc.c) against the process table invariant: the child is a
    copy of the parent in a slot that was free, or nothing has changed. *)

From stdpp Require Import gmap list strings.
From Stdlib Require Import ZArith Lia.
From S2P Require Import Prelude Mem Str Params FsData Machine Spinlock Sched Sleeplock Bio Log FsTxn.
From S2P Require Import Kalloc Vm Fs Pipe File Proc PageTable VmWalk VmMap VmSpace VmFree Cow UserView UserCopy ProcSpec VmTheorems.
#[local] Open Scope Z_scope.
Ltac wp_prim ::= wp_proc.

Section fork.
Context `{OTH : Others, LNK : !Linker, LOK : !LinkerOk, KOB : !Kobj, TXT : !Text}.
Implicit Types (k : kernel) (T : tables) (E : Z → Z).

(** ** Page tables *)

Lemma user_pt_grown t t' tf sz : grown t t' → user_pt t tf sz → user_pt t' tf sz.
Proof. intros [_ Gl Gm] [U1 U2 U3 U4 U5]. by split; rewrite ?Gl, ?Gm. Qed.

Lemma user_pt_cow t tf sz n : n ≤ UPN → user_pt t tf sz → user_pt (cow_upto n t) tf sz.
Proof.
  intros Hn [U1 U2 U3 U4 U5]. split; try done.
  - by rewrite cow_upto_lookup, U2; simpl; rewrite decide_False by lia.
  - by rewrite cow_upto_lookup, U3; simpl; rewrite decide_False by lia.
  - intros v. by rewrite cow_upto_lookup, fmap_is_Some, U4.
Qed.

Lemma npg_0 : npg 0 = 0.
Proof. done. Qed.

(** The table of the child. *)
Lemma user_pt_shared tp tc t tf tf' sz :
  user_pt tp tf sz → user_pt tc tf' 0 → shared (npg sz) tp tc t → user_pt t tf' sz.
Proof.
  intros [U1 U2 U3 U4 [U5 U6]] [V1 V2 V3 V4 V5] [_ Sl Sn Sr].
  assert (0 ≤ npg sz) as Hn by (unfold npg; apply Z.div_pos; unfold PGSIZE; lia).
  split; [by rewrite Sl|by rewrite Sr by lia|by rewrite Sr by lia| |done].
  intros v. destruct (decide (0 ≤ v < npg sz)) as [Hv|Hv].
  - rewrite Sn, fmap_is_Some, U4 by done. lia.
  - rewrite Sr, V4, npg_0 by done. lia.
Qed.

Lemma nref_pos t pa : 0 < nref t pa → ∃ v e, leaves t !! v = Some e ∧ v < lim t ∧ PTE2PA e = pa.
Proof.
  intros (v & e & He & Hp)%msum_pos. exists v, e. split; [done|].
  unfold ind in Hp. by case_decide.
Qed.

(** Only pages that the parent maps get new references. *)
Lemma refs_forked_0 k T E old new tp tc n j t pa :
  minv k T E → T !! old = Some tp → T !! new = Some tc → old ≠ new → 0 ≤ n ≤ lim tp →
  shared n tp tc t → refs T pa = 0 → refs (forked T old new tp j t) pa = 0.
Proof.
  intros Hi Ho Hn Hne Hl Hs H0. unfold forked.
  pose proof (nref_refs T old tp pa Ho). pose proof (nref_refs T new tc pa Hn).
  pose proof (nref_nonneg tp pa). pose proof (nref_nonneg tc pa). pose proof (nref_nonneg t pa).
  rewrite (refs_insert _ _ tc) by (by rewrite lookup_insert_ne).
  rewrite (refs_insert _ _ tp), (nref_cow_upto k T E old tp Hi Ho) by done.
  destruct (decide (0 < nref t pa)) as [Hp|]; [exfalso|lia].
  destruct (nref_pos _ _ Hp) as (v & e & He & Hv & <-). destruct (decide (0 ≤ v < n)) as [Hin|Hout].
  - rewrite (sh_new _ _ _ _ Hs) in He by done. apply fmap_Some in He as (e0 & He0 & ->).
    rewrite (cow_pte_pa (lim tp) v e0) in * by (by eapply mi_leaf).
    pose proof (leaf_nref tp v e0 He0). lia.
  - rewrite (sh_rest _ _ _ _ Hs) in He by done. rewrite (sh_lim _ _ _ _ Hs) in Hv.
    pose proof (leaf_nref tc v e He Hv). lia.
Qed.

Lemma pspace_keep T E T' E' q :
  pspace T E q → T' !! p_pagetable q = T !! p_pagetable q → E' (p_trapframe q) = E (p_trapframe q) →
  refs T' (p_trapframe q) = 0 → pspace T' E' q.
Proof. intros [(t & Ht & Hu) H1 H2 H3] HT HE Hr. split; [|done|congruence|done]. exists t. by rewrite HT. Qed.

(** Outside of its memory a process sees nothing. *)
Lemma uview_out t tf sz m va : user_pt t tf sz → ¬ 0 ≤ va < npg sz * PGSIZE → uview m t va = None.
Proof.
  intros [U1 U2 U3 U4 U5] Hva. rewrite <-vpn_range in Hva. unfold uview, uaddr.
  destruct (leaves t !! vpn va) as [e|] eqn:He; [|done].
  pose proof (proj1 (U4 (vpn va)) ltac:(by eexists)) as Hu. rewrite U1.
  destruct (Z.ltb_spec (vpn va) UPN); [lia|]. by rewrite andb_false_r.
Qed.

(** ** Open files *)

(** The references to open files that a new process has. *)
Definition dup_file (f : fsys) (o : option nat) : fsys :=
  match o with Some i => upd_ftable (alter (upd_f_ref (λ r, r + 1)) i) f | None => f end.
Definition dup_files (l : list (option nat)) (f : fsys) : fsys := fold_left dup_file l f.

Lemma dup_files_ref l f i : f_ref (file_of f i) ≤ f_ref (file_of (dup_files l f) i).
Proof.
  revert f. induction l as [|[j|] l IH]; intros f; [done| |by apply IH].
  etrans; [|apply IH]. unfold file_of. simpl. rewrite list_lookup_alter. case_decide; [subst j|done].
  destruct (ftable f !! i); simpl; lia.
Qed.

Lemma dup_files_S l i x f : l !! i = Some x → dup_files (take (S i) l) f = dup_file (dup_files (take i l) f) x.
Proof. intros Hx. rewrite (take_S_r _ _ x) by done. apply fold_left_app. Qed.

Lemma fill_S {A} (l : list (option A)) i x n :
  l !! i = Some x → length l = n →
  <[i := x]> (take i l ++ replicate (n - i) None) = take (S i) l ++ replicate (n - S i) None.
Proof.
  intros Hx Hl. pose proof (lookup_lt_Some _ _ _ Hx). rewrite (take_S_r _ _ x) by done.
  rewrite insert_app_r_alt by (rewrite length_take; lia). rewrite length_take_le, Nat.sub_diag by lia.
  replace (n - i)%nat with (S (n - S i)) by lia. simpl. by rewrite <-app_assoc.
Qed.

(** filedup() inside the critical section of a process. *)
Lemma filedup_spec me p f h s (Q : nat → kernel → Prop) :
  calm me h → hs_eq (hs s) (acq (LK_proc p) h) → 1 ≤ f_ref (file_of (fs s) f) →
  (∀ h', hs_eq h' (acq (LK_proc p) h) → Q f (upd_hs (λ _, h') (upd_fs (λ x, dup_file x (Some f)) s))) →
  wp (filedup f) s Q.
Proof.
  intros Hc Hh Href HQ. destruct (inside_ok (LK_proc p) me (hs s)) as (I1 & I2 & I3); [by exists h|].
  unfold filedup. apply wp_bind, wp_acquire; [done|by apply I3|]. unfold get_file, set_file, get_fs, set_fs. wp_pure.
  simpl fs. case_cmp; [lia|]. wp_pure. apply (wp_release_eq _ (hs s)); [done|by apply I3|done|].
  intros h' Hh'. wp_pure. apply HQ. by etrans.
Qed.

(** One more reference to inode [ip]. *)
Definition ref_inode (ip : nat) : fsys → fsys := upd_itable (alter (upd_i_ref (λ r, r + 1)) ip).

Lemma idup_nested me p ip h s (Q : nat → kernel → Prop) :
  calm me h → hs_eq (hs s) (acq (LK_proc p) h) →
  (∀ h', hs_eq h' (acq (LK_proc p) h) → Q ip (upd_hs (λ _, h') (upd_fs (ref_inode ip) s))) →
  wp (idup ip) s Q.
Proof.
  intros Hc Hh HQ. destruct (inside_ok (LK_proc p) me (hs s)) as (I1 & I2 & I3); [by exists h|].
  unfold idup. apply wp_bind, wp_acquire; [done|by apply I3|]. unfold set_inode, set_fs. wp_pure.
  apply (wp_release_eq _ (hs s)); [done|by apply I3|done|]. intros h' Hh'. wp_pure. apply HQ. by etrans.
Qed.

(** The end of fork(), behind the loop over the open files. *)
#[warnings="-inconsistent-scopes"] Local Abbreviation fork_end me np := (
      cwd ← get_proc me p_cwd;
      cwd ← deref cwd;
      cwd ← idup cwd;
      set_proc np (upd_p_cwd (λ _, Some cwd));;
      name ← get_proc me p_name;
      set_proc np (upd_p_name (λ s, safestrcpy_l s name PNAME_SIZE));;
      pid ← get_proc np p_pid;
      release (LK_proc np);;
      acquire LK_wait;;
      set_proc np (upd_p_parent (λ _, Some me));;
      release LK_wait;;
      acquire (LK_proc np);;
      set_proc np (upd_p_state (λ _, RUNNABLE));;
      release (LK_proc np);;
      mret pid).

(** ** The steps of fork() *)

Section steps.
Context (me : nat) (k : kernel) (T : tables) (E : Z → Z) (pq : proc).
Context (Hc : calm me (hs k)) (Hi : minv k T E) (HE : Eok E) (Hp : pinv T E (procs k)).
Context (Hme : procs k !! me = Some pq) (Hst : p_state pq ≠ UNUSED).

(** fork() returns -1: the slots in use and what processes see are as before. *)
Definition fork_undone (k' : kernel) : Prop :=
  ∃ T' ps n, kframe (upd_procs (λ _, ps) (upd_nextpid (λ _, n) k)) k' ∧ minv k' T' E ∧ pinv T' E ps ∧
    used_same (procs k) ps ∧ only_pages (touch T E) (ram k) (ram k') ∧ same_views T (ram k) T' (ram k').

(** There is no unused slot, or there is too little memory for the copy: six
    pages for the page table, the trapframe and the mappings of the kernel, and
    two pages of tables for every page. *)
Definition fork_lacks : Prop := no_unused (procs k) 64 ∨ short (6 + Z.to_nat (2 * npg (p_sz pq))) k.

Lemma alloc_failed_undone k' : alloc_failed k T E k' → fork_undone k' ∧ fork_lacks.
Proof.
  intros (ps & n & H1 & H2 & H3 & H4 & H5 & H6). split.
  - exists T, ps, n. split_and!; try done. intros r va. by eapply views_touch.
  - destruct H6 as [|H6]; [by left|right]. eapply short_le; [|exact H6]. lia.
Qed.

Context (np : nat) (q : proc) (tf r : Z) (t : pgtab) (k1 : kernel) (Ha : alloc_done k T E np q tf r t k1).

Local Abbreviation old := (p_pagetable pq).
Local Abbreviation sz := (p_sz pq).
Local Abbreviation T1 := (<[r := t]> T).
Local Abbreviation E1 := (eadd E tf 1).

Lemma np_me : np ≠ me.
Proof. intros ->. destruct (ad_slot _ _ _ _ _ _ _ _ _ Ha) as (H1 & H2 & _). simplify_eq. Qed.

Lemma parent_space : ∃ tp, T !! old = Some tp ∧ user_pt tp (p_trapframe pq) sz.
Proof. by destruct (pi_used _ _ _ Hp me pq Hme Hst) as [? _ _ _]. Qed.

Lemma old_r : old ≠ r.
Proof. destruct parent_space as (tp & Ht & _), (ad_new _ _ _ _ _ _ _ _ _ Ha). congruence. Qed.

Lemma sz_range : 0 ≤ sz ≤ MAXVA ∧ 0 ≤ npg sz ≤ UPN.
Proof.
  destruct parent_space as (tp & _ & [_ _ _ _ [H1 H2]]).
  change MAXVA with (UPN * PGSIZE + 2 * PGSIZE). unfold npg in *.
  pose proof (Z.div_mod (sz + PGSIZE - 1) PGSIZE). pose proof (Z.mod_pos_bound (sz + PGSIZE - 1) PGSIZE).
  unfold PGSIZE in *. lia.
Qed.

Lemma T1_old : T1 !! old = T !! old.
Proof. apply lookup_insert_ne. pose proof old_r. congruence. Qed.

Lemma E1_ok : Eok E1.
Proof. apply Eok_eadd; [done|]. by destruct (ad_tf _ _ _ _ _ _ _ _ _ Ha) as (_ & _ & _ & ?). Qed.

Lemma touch_T1 x : touch T1 E1 x → touch T E x.
Proof.
  intros H. apply touch_eadd in H; [|done]. destruct (ad_new _ _ _ _ _ _ _ _ _ Ha) as [Hn _].
  apply (touch_new T E r t x Hn); [|done]. intros v Hv.
  destruct (ad_pt _ _ _ _ _ _ _ _ _ Ha) as [U1 _ _ U4 _].
  destruct (leaves t !! v) eqn:Ev; [|done]. pose proof (proj1 (U4 v) ltac:(by eexists)) as H'.
  rewrite npg_0 in H'. lia.
Qed.

Lemma E1_other x : E x = 1 → E1 x = 1 ∧ x ≠ tf.
Proof.
  intros Hx. destruct (ad_tf _ _ _ _ _ _ _ _ _ Ha) as (_ & _ & _ & H0).
  assert (x ≠ tf) by congruence. split; [|done]. unfold eadd. by rewrite decide_False.
Qed.

(** The slots in use keep their memory when the parent's pages are shared. *)
Lemma used_keep tp j T' E' :
  T !! old = Some tp → user_pt tp (p_trapframe pq) sz → j ≤ UPN →
  T' !! old = Some (cow_upto j tp) → (∀ r', r' ≠ old → r' ≠ r → T' !! r' = T !! r') →
  (∀ x, E x = 1 → E' x = 1 ∧ (refs T x = 0 → refs T' x = 0)) →
  ∀ i x, procs k !! i = Some x → p_state x ≠ UNUSED → pspace T' E' x.
Proof.
  intros Ho Hu Hj Ho' HT' HE' i x Hx Hxu. pose proof (pi_used _ _ _ Hp i x Hx Hxu) as [(tx & Htx & Hux) X2 X3 X4].
  destruct (HE' _ X3) as [X3' X4']. split; [|done|done|by apply X4'].
  destruct (decide (p_pagetable x = old)) as [Heq|Hne].
  - rewrite Heq in *. simplify_eq. exists (cow_upto j tp). split; [done|]. by apply user_pt_cow.
  - exists tx. split; [|done]. rewrite HT'; [done|done|].
    destruct (ad_new _ _ _ _ _ _ _ _ _ Ha). congruence.
Qed.

Lemma copy_undo tp s :
  T !! old = Some tp → user_pt tp (p_trapframe pq) sz →
  fork_failed k1 T1 E1 old r tp t (npg sz) s →
  wp (freeproc np;; release (LK_proc np);; mret (-1)) s (λ c k', c = -1 ∧ fork_undone k').
Proof.
  intros Ho Hu (j & t' & Hj & Hi' & Hkf & Hg & Hop). pose proof sz_range as [_ Hn].
  destruct Ha as [(Hq & Hqu & _) Hf _ [Hr _] [Hv (_ & Ht0 & HE0)] Hpt Hram _].
  assert (∀ pa, refs (<[old := cow_upto j tp]> T) pa = refs T pa) as Hrefs.
  { intros pa. rewrite (refs_insert _ _ tp), (nref_cow_upto k T E old tp Hi Ho) by done. lia. }
  eapply (undo_slot me k Hc np _ s _ E1 (<[old := cow_upto j tp]> T) (eadd E1 tf (-1)));
    [by eapply lookup_lt_Some|by etrans|exact Hi'|apply E1_ok| | |].
  - right. split_and!; [done| |done]. unfold eadd. simpl. rewrite decide_True by done. lia.
  - right. exists t'. simpl. split_and!; [apply lookup_insert_eq| |].
    + destruct (pi_unused _ _ _ Hp np q Hq Hqu) as (_ & _ & ->). by eapply user_pt_grown.
    + pose proof old_r. unfold forked. by rewrite delete_insert_eq, delete_insert_ne, delete_insert_id by congruence.
  - intros k' Hf' Hi2 Hop2. split; [done|].
    assert (only_pages (touch T E) (ram k) (ram k')) as Hopk.
    { eapply only_pages_trans; [exact Hram|]. eapply only_pages_trans.
      - eapply only_pages_weaken; [|exact Hop]. apply touch_T1.
      - eapply only_pages_weaken; [|exact Hop2]. intros x (Hxv & Hxr & HxE). rewrite (eadd_back E tf 1) in HxE.
        rewrite Hrefs in Hxr. by split_and!. }
    exists (<[old := cow_upto j tp]> T), (<[np := freed (allocated q (nextpid k) tf r)]> (procs k)), (s32 (nextpid k + 1)).
    split_and!; [done| | |by eapply used_same_upd|done|].
    + eapply minv_ext; [|exact Hi2]. apply (eadd_back E tf 1).
    + eapply pinv_upd; [exact Hp| |done|done| |].
      * intros i x Hx _ Hxu. split; [|done]. eapply (used_keep tp j); try done; [lia|apply lookup_insert_eq| |].
        { intros r' Hr' _. by apply lookup_insert_ne. }
        { intros x' Hx'. by rewrite Hrefs. }
      * simpl. by eapply (pi_files _ _ _ Hp).
      * intros _. simpl. destruct (pi_files _ _ _ Hp np q Hq) as [_ H]. apply H. by left.
    + intros r' va. rewrite views_insert. case_decide as Hd; [subst r'|by eapply views_touch].
      rewrite (uview_cow_upto k T E old) by done.
      rewrite <-(views_touch k T E (ram k') old va Hi Hopk). unfold views. by rewrite Ho.
Qed.

(** np->ofile[i] = filedup(p->ofile[i]) *)
Lemma fork_files_spec c s :
  kframe (in_slot k np c) s → p_ofile c = replicate 16 None → length (p_ofile pq) = 16%nat →
  (∀ i f, p_ofile pq !! i = Some (Some f) → 1 ≤ f_ref (file_of (fs k) f)) →
  wp (fork_files me np) s (λ _ s', mem_same s s' ∧
    kframe (in_slot (upd_fs (dup_files (p_ofile pq)) k) np (upd_p_ofile (λ _, p_ofile pq) c)) s').
Proof.
  intros Hf Hn Hl Href. set (l := p_ofile pq) in *. pose proof np_me as Hne.
  destruct (ad_slot _ _ _ _ _ _ _ _ _ Ha) as (Hq & _). pose proof (lookup_lt_Some _ _ _ Hq) as Hlt.
  set (kx := λ i, upd_fs (λ _, dup_files (take i l) (fs k)) k).
  set (cx := λ i, upd_p_ofile (λ _, take i l ++ replicate (16 - i) None) c).
  unfold fork_files. change NOFILE with 16.
  apply (wp_loop _ (λ i s', (i ≤ 16)%nat ∧ mem_same s s' ∧ kframe (in_slot (kx i) np (cx i)) s') (λ i _, 16 - Z.of_nat i)).
  - intros i s' (Hi16 & Hm & Hf'). case_cmp; cycle 1.
    { apply wp_break. split; [done|]. assert (i = 16%nat) as -> by lia. unfold kx, cx in Hf'.
      rewrite take_ge in Hf' by lia. simpl replicate in Hf'. rewrite app_nil_r in Hf'. exact Hf'. }
    destruct (lookup_lt_is_Some_2 l i) as [x Hx]; [lia|]. apply wp_bind, wp_get_proc.
    assert (procs s' !! me = Some pq) as Hme'.
    { rewrite (kf_procs _ _ Hf'). simpl. by rewrite list_lookup_insert_ne. }
    rewrite (proc_of_lookup _ _ _ Hme'). fold l. rewrite Hx. simpl mjoin.
    destruct x as [f|]; cycle 1.
    { apply wp_bind, wp_ret, wp_continue. split; [|lia]. split_and!; [lia|done|]. unfold kx, cx in *.
      rewrite (dup_files_S l i None) by done. rewrite <-(fill_S l i None) by done.
      rewrite list_insert_id; [done|]. rewrite lookup_app_r by (rewrite length_take; lia).
      rewrite length_take_le, Nat.sub_diag by lia. by replace (16 - i)%nat with (S (16 - S i)) by lia. }
    apply wp_bind, wp_bind. eapply (filedup_spec me np f (hs k)); [done|exact (kf_hs _ _ Hf')| |].
    { rewrite (kf_fs _ _ Hf'). simpl. etrans; [by apply (Href i)|apply dup_files_ref]. }
    intros h' Hh'. apply wp_set_proc. apply wp_continue. split; [|lia]. split_and!; [lia|by destruct Hm; split|].
    unfold kx, cx in *. rewrite (dup_files_S l i (Some f)) by done. rewrite <-(fill_S l i (Some f)) by done.
    apply (in_slot_set (upd_fs (λ _, dup_file (dup_files (take i l) (fs k)) (Some f)) k) np
      (upd_p_ofile (λ _, take i l ++ replicate (16 - i) None) c) (upd_p_ofile <[i := Some f]>)); [done|].
    destruct Hf' as [F1 F2 F3 F4 F5 F6 F7 F8]. split; try done. simpl in *. by rewrite F7.
  - split_and!; [lia|done|]. unfold kx, cx. change (take 0 l ++ _) with (replicate 16 (@None nat)).
    rewrite <-Hn. clear - Hf. by destruct k, c.
  - lia.
Qed.

(** The child when it is complete: [c] with the directory, the name, the parent
    and the state that the end of fork() sets. *)
Definition finish_child (cwd : nat) (c : proc) : proc :=
  upd_p_state (λ _, RUNNABLE) (upd_p_parent (λ _, Some me)
    (upd_p_name (λ s, safestrcpy_l s (p_name pq) PNAME_SIZE) (upd_p_cwd (λ _, Some cwd) c))).

Lemma fork_tail g c cwd s :
  kframe (in_slot (upd_fs g k) np c) s → p_cwd pq = Some cwd →
  wp (fork_end me np) s (λ pid s', pid = p_pid c ∧ mem_same s s' ∧
    kframe (out_slot (upd_fs (λ f, ref_inode cwd (g f)) k) np (finish_child cwd c)) s').
Proof.
  intros Hf Hcwd. pose proof np_me as Hne. destruct (ad_slot _ _ _ _ _ _ _ _ _ Ha) as (Hq & _).
  pose proof (lookup_lt_Some _ _ _ Hq) as Hlt.
  assert (∀ kk x s', kframe (in_slot kk np x) s' → procs kk = procs k → proc_of s' me = pq ∧ proc_of s' np = x) as Hof.
  { intros kk x s' Hs' Hpk. split; apply proc_of_lookup; rewrite (kf_procs _ _ Hs'); simpl; rewrite Hpk.
    - by rewrite list_lookup_insert_ne.
    - by apply list_lookup_insert_eq. }
  apply wp_bind, wp_get_proc. destruct (Hof _ _ _ Hf eq_refl) as [-> _]. rewrite Hcwd. apply wp_bind, wp_ret.
  apply wp_bind, (idup_nested me np cwd (hs k)); [done|exact (kf_hs _ _ Hf)|]. intros h1 Hh1.
  apply wp_bind, wp_set_proc. set (k2 := upd_fs (λ f, ref_inode cwd (g f)) k). set (s1 := upd_procs _ _).
  assert (kframe (in_slot k2 np (upd_p_cwd (λ _, Some cwd) c)) s1) as Hf1.
  { apply in_slot_set; [done|]. destruct Hf as [F1 F2 F3 F4 F5 F6 F7 F8]. split; try done. simpl in *. by rewrite F7. }
  apply wp_bind, wp_get_proc. destruct (Hof _ _ _ Hf1 eq_refl) as [-> _]. apply wp_bind, wp_set_proc.
  set (s2 := upd_procs _ s1).
  assert (kframe (in_slot k2 np (upd_p_name (λ s, safestrcpy_l s (p_name pq) PNAME_SIZE) (upd_p_cwd (λ _, Some cwd) c))) s2)
    as Hf2 by (by apply in_slot_set).
  apply wp_bind, wp_get_proc. destruct (Hof _ _ _ Hf2 eq_refl) as [_ ->].
  apply wp_bind, (leave_slot me k2 Hc np _ s2 _ Hf2). intros h2 Hh2 _. change (hs k2) with (hs k) in Hh2.
  assert (calm me h2) as Hc2 by (by rewrite Hh2).
  apply wp_bind, (wp_enter _ me); [done|]. apply wp_bind, wp_set_proc.
  apply wp_bind, (wp_leave _ me h2); [done|done|]. intros h3 Hh3.
  assert (calm me h3) as Hc3 by (by rewrite Hh3).
  apply wp_bind, (wp_enter _ me); [done|]. apply wp_bind, wp_set_proc.
  apply wp_bind, (wp_leave _ me h3); [done|done|]. intros h4 Hh4. apply wp_ret. split_and!; [done|by split|].
  destruct Hf2 as [F1 F2 F3 F4 F5 F6 F7 F8]. split; try done.
  - simpl in *. etrans; [exact Hh4|]. etrans; [exact Hh3|done].
  - simpl in *. rewrite list_alter_alter_eq. unfold s1. simpl. rewrite F2. apply list_eq. intros i.
    rewrite list_lookup_alter. case_decide as Hd; subst; [by rewrite !list_lookup_insert_eq|by rewrite !list_lookup_insert_ne].
Qed.

(** The saved registers of the child: those of the parent, with 0 in a0. *)
Definition child_regs (m : mem) : mem := st64 (memmove m tf (p_trapframe pq) TRAPFRAME_SIZE) (tf + TF_a0) 0.

Lemma child_regs_page m : only_pages (λ x, x = tf) m (child_regs m).
Proof.
  destruct (ad_tf _ _ _ _ _ _ _ _ _ Ha) as ([Hal _] & _). unfold child_regs, TRAPFRAME_SIZE, TF_a0.
  apply (only_pages_trans _ _ (memmove m tf (p_trapframe pq) 288)).
  - apply only_pages_memmove; [done|Zconst; lia].
  - apply only_pages_st64; [done|lia|Zconst; lia].
Qed.

Lemma child_regs_ld m x :
  0 ≤ x → x mod 8 = 0 → x + 8 ≤ TRAPFRAME_SIZE →
  ld64 (child_regs m) (tf + x) = if decide (x = TF_a0) then 0 else ld64 m (p_trapframe pq + x).
Proof.
  intros H0 H8 Hx. unfold child_regs, TRAPFRAME_SIZE, TF_a0 in *. case_decide as Hd.
  - subst x. by apply ld64_st64.
  - rewrite ld64_st64_out by (pose proof (Z.div_mod x 8); lia). apply ld64_at. intros i Hi'.
    rewrite memmove_spec, decide_True by lia. f_equal. lia.
Qed.

(** The tables after a successful copy. *)
Section copied.
Context (tp t2 : pgtab) (Ho : T !! old = Some tp) (Hu : user_pt tp (p_trapframe pq) sz) (Hsh : shared (npg sz) tp t t2).
Local Abbreviation T2 := (forked T1 old r tp (npg sz) t2).

Lemma copied_refs x : refs T x = 0 → refs T2 x = 0.
Proof.
  intros Hx. pose proof sz_range as [_ Hn]. eapply refs_forked_0; [exact (ad_minv _ _ _ _ _ _ _ _ _ Ha)|by rewrite T1_old
    |apply lookup_insert_eq|apply old_r|by rewrite (up_lim _ _ _ Hu)|exact Hsh|].
  destruct (ad_new _ _ _ _ _ _ _ _ _ Ha) as [Hr _]. rewrite refs_insert_new, Hx by done.
  rewrite nref_high; [done|]. intros v Hv. destruct (ad_pt _ _ _ _ _ _ _ _ _ Ha) as [U1 _ _ U4 _].
  destruct (leaves t !! v) eqn:Ev; [|done]. pose proof (proj1 (U4 v) ltac:(by eexists)) as H'. rewrite npg_0 in H'. lia.
Qed.

Lemma copied_pinv c :
  p_pagetable c = r → p_trapframe c = tf → p_sz c = sz → p_state c = RUNNABLE → length (p_ofile c) = Z.to_nat NOFILE →
  pinv T2 E1 (<[np := c]> (procs k)).
Proof.
  intros C1 C2 C3 C4 C5. pose proof sz_range as [_ Hn]. pose proof old_r as Hne.
  destruct (ad_tf _ _ _ _ _ _ _ _ _ Ha) as (Hv & _ & Hr0 & HE0), (ad_new _ _ _ _ _ _ _ _ _ Ha) as [Hr _].
  eapply pinv_upd; [exact Hp| |by rewrite C4| |done|rewrite C4; by intros []].
  - intros i x Hx Hi' Hxu. split.
    + eapply (used_keep tp (npg sz)); try done; [lia| | |].
      * unfold forked. by rewrite lookup_insert_ne, lookup_insert_eq by done.
      * intros r' H1 H2. unfold forked. by rewrite !lookup_insert_ne by done.
      * intros y Hy. split; [by apply E1_other|]. apply copied_refs.
    + intros _. destruct (pi_used _ _ _ Hp i x Hx Hxu) as [(tx & Htx & _) _ X3 _]. rewrite C1, C2.
      split; [congruence|]. by apply E1_other.
  - intros _. split; rewrite ?C1, ?C2, ?C3.
    + exists t2. split; [apply lookup_insert_eq|]. eapply user_pt_shared; [exact Hu|exact (ad_pt _ _ _ _ _ _ _ _ _ Ha)|done].
    + done.
    + unfold eadd. rewrite decide_True by done. lia.
    + by apply copied_refs.
Qed.

Lemma copied_views m r' va :
  views T2 m r' va = if decide (r' = r) then views T m old va else views T m r' va.
Proof.
  pose proof sz_range as [_ Hn]. pose proof old_r as Hne.
  pose proof (ad_pt _ _ _ _ _ _ _ _ _ Ha) as [U1 _ _ U4 _].
  assert (∀ v, 0 ≤ v < npg sz → is_Some (leaves tp !! v) ∧ v < lim tp) as Hpar.
  { intros v Hv. destruct Hu as [V1 _ _ V4 _]. rewrite V4, V1. lia. }
  assert (∀ v, 0 ≤ v < npg sz → leaves t !! v = None ∧ v < lim t) as Hch.
  { intros v Hv. rewrite U1. split; [|lia]. destruct (leaves t !! v) eqn:Ev; [|done].
    pose proof (proj1 (U4 v) ltac:(by eexists)) as H'. rewrite npg_0 in H'. lia. }
  assert (T1 !! old = Some tp) as Ho1 by (by rewrite T1_old).
  rewrite (views_forked k1 T1 E1 old r tp t (npg sz) (ad_minv _ _ _ _ _ _ _ _ _ Ha) Ho1
    (lookup_insert_eq _ _ _) Hpar Hch (npg sz)) by (by left).
  destruct (decide (r' = r)) as [->|Hr'].
  - unfold views. rewrite Ho1, Ho, lookup_insert_eq. simpl.
    destruct (decide (0 ≤ va < npg sz * PGSIZE)) as [Hin|Hout].
    + by rewrite decide_True.
    + rewrite decide_False by naive_solver. rewrite (uview_out tp _ sz) by done.
      eapply (uview_out t tf 0); [exact (ad_pt _ _ _ _ _ _ _ _ _ Ha)|]. rewrite npg_0. lia.
  - rewrite decide_False by naive_solver. unfold views. by rewrite lookup_insert_ne.
Qed.
End copied.
End steps.

(** ** The result of fork() *)

(** Process [me], which is [pq], has forked: the child is in slot [np], which
    was [q], with trapframe [tf], page table [r] and the tables [T']. *)
Record fork_done (me : nat) k T E (pq : proc) (np : nat) (q : proc) (tf r : Z) (cwd : nat) T' k' : Prop := {
  fd_slot : procs k !! np = Some q ∧ p_state q = UNUSED ∧ no_unused (procs k) np;
  fd_new : T !! r = None ∧ valid_page tf ∧ touch T E tf;
  fd_frame : kframe (out_slot (upd_fs (λ f, ref_inode cwd (dup_files (p_ofile pq) f)) k) np
    (finish_child me pq cwd (upd_p_ofile (λ _, p_ofile pq) (upd_p_sz (λ _, p_sz pq) (allocated q (nextpid k) tf r))))) k';
  fd_minv : minv k' T' (eadd E tf 1);
  fd_E : Eok (eadd E tf 1);
  fd_pinv : pinv T' (eadd E tf 1) (procs k');
  fd_views : ∀ r' va, views T' (ram k') r' va =
    if decide (r' = r) then views T (ram k) (p_pagetable pq) va else views T (ram k) r' va;
  fd_regs : ∀ x, 0 ≤ x → x mod 8 = 0 → x + 8 ≤ TRAPFRAME_SIZE →
    ld64 (ram k') (tf + x) = if decide (x = TF_a0) then 0 else ld64 (ram k) (p_trapframe pq + x);
  fd_ram : only_pages (touch T E) (ram k) (ram k');
}.

Section fork_spec.
Context (me : nat) (k : kernel) (T : tables) (E : Z → Z) (pq : proc) (cwd : nat).
Context (Hc : calm me (hs k)) (Hi : minv k T E) (HE : Eok E) (Hp : pinv T E (procs k)).
Context (Hme : procs k !! me = Some pq) (Hst : p_state pq ≠ UNUSED) (Hcwd : p_cwd pq = Some cwd).
Hypothesis Href : ∀ i f, p_ofile pq !! i = Some (Some f) → 1 ≤ f_ref (file_of (fs k) f).

Definition fork_post (v : Z) (k' : kernel) : Prop :=
  v = -1 ∧ fork_undone k T E k' ∧ fork_lacks k pq ∨
  v = nextpid k ∧ ∃ np q tf r T', fork_done me k T E pq np q tf r cwd T' k'.

(** The state that fork() ends in. *)
Lemma fork_result np q tf r t k1 tp t2 s k' :
  alloc_done k T E np q tf r t k1 → T !! p_pagetable pq = Some tp → user_pt tp (p_trapframe pq) (p_sz pq) →
  shared (npg (p_sz pq)) tp t t2 →
  let T2 := forked (<[r := t]> T) (p_pagetable pq) r tp (npg (p_sz pq)) t2 in
  minv s T2 (eadd E tf 1) → only_pages (touch (<[r := t]> T) (eadd E tf 1)) (ram k1) (ram s) →
  mem_same (upd_ram (child_regs pq tf) s) k' →
  kframe (out_slot (upd_fs (λ f, ref_inode cwd (dup_files (p_ofile pq) f)) k) np
    (finish_child me pq cwd (upd_p_ofile (λ _, p_ofile pq) (upd_p_sz (λ _, p_sz pq) (allocated q (nextpid k) tf r))))) k' →
  fork_done me k T E pq np q tf r cwd T2 k'.
Proof.
  intros Ha Ho Hu Hsh T2 Hi2 Hop Hm Hf. pose proof Ha as [Hslot _ _ [Hr _] [Hv Htouch] Hpt Hram].
  pose proof (child_regs_page k T E pq np q tf r t k1 Ha (ram s)) as Hpage.
  assert (only_pages (touch T E) (ram k) (ram s)) as Hops.
  { eapply only_pages_trans; [exact Hram|]. eapply only_pages_weaken; [|exact Hop].
    by eapply (touch_T1 k T E HE np q tf r t k1 Ha). }
  assert (only_pages (touch T E) (ram k) (ram k')) as Hopk.
  { rewrite (ms_ram _ _ Hm). eapply only_pages_trans; [exact Hops|]. eapply only_pages_weaken; [|exact Hpage]. by intros ? ->. }
  destruct (own_write s T2 (eadd E tf 1) tf (child_regs pq tf)) as [Hi3 Hviews]; [done|done| | |done|].
  { unfold eadd. rewrite decide_True by done. destruct Htouch as (_ & _ & ->). done. }
  { by eapply (copied_refs me k T E pq Hp Hme Hst np q tf r t k1 Ha tp t2), Htouch. }
  pose proof Hc as [C1 C2 C3 C4]. pose proof (kf_hs _ _ Hf) as Hh. simpl in Hh.
  destruct (pi_used _ _ _ Hp me pq Hme Hst) as [_ [Hal _] X3 _].
  split; [done|by split_and!|done| |by apply (E1_ok k T E HE np q tf r t k1 Ha)| | | |done].
  - eapply minv_locks; [exact Hi3|done|by rewrite Hh..].
  - rewrite (kf_procs _ _ Hf). apply (copied_pinv me k T E pq Hp Hme Hst np q tf r t k1 Ha tp t2 Ho Hu Hsh); try done.
    exact (proj1 (pi_files _ _ _ Hp me pq Hme)).
  - intros r' va. rewrite (ms_ram _ _ Hm). cbn [ram upd_ram]. rewrite Hviews.
    unfold T2. rewrite (copied_views me k T E pq Hp Hme Hst np q tf r t k1 Ha tp t2 Ho Hu Hsh).
    case_decide; by eapply views_touch.
  - intros x X0 X8 Xs. rewrite (ms_ram _ _ Hm). cbn [ram upd_ram].
    rewrite (child_regs_ld pq tf) by done. case_decide; [done|].
    apply ld64_ext. intros b Hb. apply Hops.
    assert (page b = p_trapframe pq) as ->.
    { replace b with (p_trapframe pq + (b - p_trapframe pq)) by lia. unfold TRAPFRAME_SIZE in *. apply page_offset; [done|Zconst; lia]. }
    intros (_ & _ & ?). lia.
Qed.

(** What fork() does after uvmcopy(). *)
Lemma fork_copied np q tf r t k1 tp s :
  alloc_done k T E np q tf r t k1 → T !! p_pagetable pq = Some tp → user_pt tp (p_trapframe pq) (p_sz pq) →
  fork_ok k1 (<[r := t]> T) (eadd E tf 1) (p_pagetable pq) r tp t (npg (p_sz pq)) s →
  wp (set_proc np (upd_p_sz (λ _, p_sz pq));;
      tf ← get_proc me p_trapframe;
      ntf ← get_proc np p_trapframe;
      do_memmove ntf tf TRAPFRAME_SIZE;;
      set_tf np TF_a0 0;;
      fork_files me np;;
      fork_end me np) s fork_post.
Proof.
  intros Ha Ho Hu (t2 & Hi2 & Hkf & Hsh & Hop).
  pose proof (np_me me k T E pq Hme Hst _ _ _ _ _ _ Ha) as Hne.
  pose proof Ha as [(Hq & Hqu & Hnu) Hf Hi1 [Hr Hr0] [Hv Htouch] Hpt Hram].
  pose proof (lookup_lt_Some _ _ _ Hq) as Hlt.
  set (c1 := upd_p_sz (λ _, p_sz pq) (allocated q (nextpid k) tf r)).
  apply wp_bind, wp_set_proc. set (s1 := upd_procs _ s).
  assert (kframe (in_slot k np c1) s1) as Hf1 by (apply in_slot_set; [done|by etrans]).
  assert (∀ s', kframe (in_slot k np c1) s' → proc_of s' me = pq ∧ proc_of s' np = c1) as Hof.
  { intros s' Hs'. split; apply proc_of_lookup; rewrite (kf_procs _ _ Hs'); simpl.
    - by rewrite list_lookup_insert_ne.
    - by apply list_lookup_insert_eq. }
  destruct (Hof _ Hf1) as [E1 E2].
  apply wp_bind, wp_get_proc. rewrite E1. apply wp_bind, wp_get_proc. rewrite E2.
  unfold do_memmove, set_tf. wp_pure.
  change (proc_of (upd_ram _ s1) np) with (proc_of s1 np). rewrite E2.
  set (s2 := upd_ram (child_regs pq tf) s1). change (wp (fork_files me np) s2 (λ _ s', wp (
      fork_end me np) s' fork_post)).
  assert (kframe (in_slot k np c1) s2) as Hf2 by (by destruct Hf1; split).
  destruct (pi_files _ _ _ Hp np q Hq) as [_ Hnone]. specialize (Hnone (or_introl Hqu)).
  destruct (pi_files _ _ _ Hp me pq Hme) as [Hlen _].
  eapply wp_mono; [by eapply (fork_files_spec me k T E pq Hc Hme Hst np q tf r t k1 Ha c1 s2)|].
  intros [] s3 [Hm3 Hf3].
  eapply wp_mono; [by eapply (fork_tail me k T E pq Hc Hme Hst np q tf r t k1 Ha _ _ cwd s3 Hf3)|].
  intros pid s4 (-> & Hm4 & Hf4). right. split; [done|]. exists np, q, tf, r, (forked (<[r := t]> T) (p_pagetable pq) r tp (npg (p_sz pq)) t2).
  eapply (fork_result np q tf r t k1 tp t2 s1); try done.
  - by apply minv_procs.
  - by etrans.
Qed.

(** fork(), behind the call of myproc(). *)
Lemma fork_body :
  wp (np ← allocproc;
      match np with
      | None => mret (-1)
      | Some np =>
          pt ← get_proc me p_pagetable;
          npt ← get_proc np p_pagetable;
          sz ← get_proc me p_sz;
          r ← uvmcopy pt npt sz;
          if r <? 0 then freeproc np;; release (LK_proc np);; mret (-1) else
          set_proc np (upd_p_sz (λ _, sz));;
          tf ← get_proc me p_trapframe;
          ntf ← get_proc np p_trapframe;
          do_memmove ntf tf TRAPFRAME_SIZE;;
          set_tf np TF_a0 0;;
          fork_files me np;;
          fork_end me np
      end) k fork_post.
Proof.
  apply wp_bind. eapply wp_mono; [by apply (allocproc_spec me k Hc (pi_len _ _ _ Hp) T E)|].
  intros [np|] k1; cycle 1.
  { intros Hf. apply wp_ret. left. split; [done|]. by apply alloc_failed_undone. }
  intros (q & tf & r & t & Ha). pose proof (np_me me k T E pq Hme Hst _ _ _ _ _ _ Ha) as Hne.
  destruct (parent_space me k T E pq Hp Hme Hst) as (tp & Ho & Hu).
  destruct (sz_range me k T E pq Hp Hme Hst) as [Hsz Hn].
  pose proof (ad_slot _ _ _ _ _ _ _ _ _ Ha) as (Hq & Hqu & _). pose proof (lookup_lt_Some _ _ _ Hq) as Hlt.
  pose proof (ad_frame _ _ _ _ _ _ _ _ _ Ha) as Hf.
  assert (proc_of k1 me = pq) as Ep.
  { apply proc_of_lookup. rewrite (kf_procs _ _ Hf). simpl. by rewrite list_lookup_insert_ne. }
  assert (proc_of k1 np = allocated q (nextpid k) tf r) as En.
  { apply proc_of_lookup. rewrite (kf_procs _ _ Hf). by apply list_lookup_insert_eq. }
  apply wp_bind, wp_get_proc. rewrite Ep. apply wp_bind, wp_get_proc. rewrite En. apply wp_bind, wp_get_proc. rewrite Ep.
  simpl p_pagetable. apply wp_bind. pose proof (ad_pt _ _ _ _ _ _ _ _ _ Ha) as [U1 _ _ U4 _].
  eapply wp_mono; [eapply (uvmcopy_spec k1 (<[r := t]> T) (eadd E tf 1) (p_pagetable pq) r tp t (npg (p_sz pq)))|].
  - exact (ad_minv _ _ _ _ _ _ _ _ _ Ha).
  - by apply (E1_ok k T E HE np q tf r t k1 Ha).
  - by rewrite (T1_old me k T E pq Hp Hme Hst np q tf r t k1 Ha).
  - apply lookup_insert_eq.
  - by apply (old_r me k T E pq Hp Hme Hst np q tf r t k1 Ha).
  - lia.
  - change MAXVA with (UPN * PGSIZE + 2 * PGSIZE). unfold PGSIZE in *. lia.
  - intros v Hv. destruct Hu as [V1 _ _ V4 _]. rewrite V4, V1. lia.
  - intros v Hv. rewrite U1. split; [|lia]. destruct (leaves t !! v) eqn:Ev; [|done].
    pose proof (proj1 (U4 v) ltac:(by eexists)) as H'. rewrite npg_0 in H'. lia.
  - done.
  - done.
  - intros c s [[-> Hok]|[-> [Hfail Hsh]]]; simpl Z.ltb; cbv iota.
    + by eapply fork_copied.
    + eapply wp_mono; [by eapply (copy_undo me k T E pq Hc Hi HE Hp Hme Hst np q tf r t k1 Ha tp s)|].
      intros v k' [-> H]. left. split_and!; [done|done|]. right. eapply taken_short; [by eapply ad_taken|done].
Qed.
End fork_spec.

Lemma fork_spec me k T E pq cwd :
  calm me (hs k) → minv k T E → Eok E → pinv T E (procs k) →
  procs k !! me = Some pq → p_state pq ≠ UNUSED → p_cwd pq = Some cwd →
  (∀ i f, p_ofile pq !! i = Some (Some f) → 1 ≤ f_ref (file_of (fs k) f)) →
  wp fork k (fork_post me k T E pq cwd).
Proof.
  intros Hc Hi HE Hp Hme Hst Hcwd Href. pose proof Hc as [C1 C2 C3 C4]. unfold fork.
  apply wp_bind, (wp_curproc me); [done|done|]. intros h Hh. set (k0 := upd_hs (λ _, h) k).
  assert (calm me (hs k0)) as Hc0 by (simpl; by rewrite Hh).
  eapply wp_mono; [eapply (fork_body me k0 T E pq cwd); try done|].
  - eapply minv_locks; [exact Hi|by split|apply Hc0..].
  - intros v k' [(-> & (T' & ps & n & H1 & H2) & Hl)|[-> (np & q & tf & r & T' & [F1 F2 F3 F4 F5 F6 F7 F8 F9])]].
    + left. split_and!; [done| |done]. exists T', ps, n. split; [|done]. etrans; [|exact H1]. by split.
    + right. split; [done|]. exists np, q, tf, r, T'. split; try done. etrans; [|exact F3]. by split.
Qed.
End fork.
