(* ===== verification/ProcTrap.v ===== *)
(** * Traps from user mode

    usertrap() and usertrapret() (kernel/trap.c) as the two ends of a trap: the
    registers of the process are in its trapframe, the kernel does its work,
    and the process goes on. *)

From stdpp Require Import gmap list strings.
From Stdlib Require Import ZArith Lia.
From S2P Require Import Prelude Mem Str Params FsData Machine Spinlock Sched Sleeplock Bio Log FsTxn.
From S2P Require Import Kalloc Vm Fs Pipe File Proc Syscall Exec SysFile Trap PageTable VmWalk VmMap VmSpace VmFree Cow UserView UserCopy.
From S2P Require Import VmTheorems ProcSpec ProcFork.
#[local] Open Scope Z_scope.
Ltac wp_prim ::= wp_proc.

Section trap.
Context `{OTH : Others, LNK : !Linker, LOK : !LinkerOk, KOB : !Kobj, TXT : !Text, DEV : !Devices}.
Implicit Types (k : kernel) (T : tables) (E : Z → Z).

(** Process [me], which is [pq], runs in the kernel and holds no lock. *)
Record task (me : nat) T E (pq : proc) k : Prop := {
  tk_calm : calm me (hs k);
  tk_minv : minv k T E;
  tk_E : Eok E;
  tk_pinv : pinv T E (procs k);
  tk_me : procs k !! me = Some pq;
  tk_used : p_state pq ≠ UNUSED;
}.

(** The state outside of memory, locks and registers is the same. *)
Record tframe k k' : Prop := {
  tf_procs : procs k' = procs k;
  tf_nextpid : nextpid k' = nextpid k;
  tf_initproc : initproc k' = initproc k;
  tf_ticks : ticks k' = ticks k;
  tf_kpt : kernel_pagetable k' = kernel_pagetable k;
  tf_fs : fs k' = fs k;
  tf_dev : dev k' = dev k;
}.

#[export] Instance tframe_preorder : PreOrder tframe.
Proof. split; [by split|]. intros k1 k2 k3 [] []. split; congruence. Qed.

Lemma kframe_tframe k k' : kframe k k' → tframe k k'.
Proof. by intros []. Qed.

(** ** Registers and locks *)

Lemma wp_r_csr {A} (f : csrs → A) k (Q : A → kernel → Prop) : Q (f (csr (hs k))) k → wp (r_csr f) k Q.
Proof. done. Qed.
Lemma wp_w_csr f k (Q : unit → kernel → Prop) : Q tt (upd_hs (upd_csr f) k) → wp (w_csr f) k Q.
Proof. done. Qed.
Lemma wp_r_sstatus k (Q : Z → kernel → Prop) : Q (sstatus (csr (hs k))) k → wp (on_hs r_sstatus) k Q.
Proof. intros HQ. by destruct k. Qed.
Lemma wp_r_tp k (Q : Z → kernel → Prop) : Q (tp (csr (hs k))) k → wp (on_hs r_tp) k Q.
Proof. intros HQ. by destruct k. Qed.
Lemma wp_w_sstatus x k (Q : unit → kernel → Prop) :
  Q tt (upd_hs (upd_csr (upd_sstatus (λ _, x))) k) → wp (on_hs (w_sstatus x)) k Q.
Proof. done. Qed.
Lemma wp_intr_off_k k (Q : unit → kernel → Prop) :
  Q tt (upd_hs (upd_csr (upd_sstatus (λ x, Z.land x (Z.lnot SSTATUS_SIE)))) k) → wp (on_hs intr_off) k Q.
Proof. done. Qed.
Lemma wp_intr_on_k k (Q : unit → kernel → Prop) :
  Q tt (upd_hs (upd_csr (upd_sstatus (λ x, Z.lor x SSTATUS_SIE))) k) → wp (on_hs intr_on) k Q.
Proof. done. Qed.

Lemma calm_csr me f h : (∀ c, tp (f c) = tp c) → calm me h → calm me (upd_csr f h).
Proof.
  intros Htp [[H1 H2 H3] H4 H5 H6].
  assert (hart (upd_csr f h) = hart h) as Eh by (unfold hart; simpl; by rewrite Htp).
  assert (the_cpu (upd_csr f h) = the_cpu h) as Ec by (unfold the_cpu; rewrite Eh; done).
  split; [split|..]; rewrite ?Eh, ?Ec; try done. rewrite H4. lia.
Qed.

Lemma proc_of_ram f k p : proc_of (upd_ram f k) p = proc_of k p.
Proof. done. Qed.
Lemma proc_of_hs f k p : proc_of (upd_hs f k) p = proc_of k p.
Proof. done. Qed.

Section task.
Context (me : nat) (T : tables) (E : Z → Z) (pq : proc).
Local Abbreviation tf := (p_trapframe pq).

Lemma task_hs h k : calm me h → task me T E pq k → task me T E pq (upd_hs (λ _, h) k).
Proof. intros Hh [H1 H2 H3 H4 H5 H6]. split; try done. eapply minv_locks; [exact H2|by split|apply Hh..]. Qed.

Lemma task_csr f k : (∀ c, tp (f c) = tp c) → task me T E pq k → task me T E pq (upd_hs (upd_csr f) k).
Proof. intros Hf Hk. apply (task_hs (upd_csr f (hs k))); [|done]. apply calm_csr; [done|apply Hk]. Qed.

Lemma task_space k : task me T E pq k → pspace T E pq.
Proof. intros Hk. eapply (pi_used _ _ _ (tk_pinv _ _ _ _ _ Hk)); apply Hk. Qed.

Lemma task_proc k : task me T E pq k → proc_of k me = pq.
Proof. intros Hk. apply proc_of_lookup, Hk. Qed.

Lemma task_store x v k :
  task me T E pq k → 0 ≤ x → x + 8 ≤ PGSIZE →
  task me T E pq (upd_ram (λ m, st64 m (tf + x) v) k) ∧
  ∀ r va, views T (st64 (ram k) (tf + x) v) r va = views T (ram k) r va.
Proof.
  intros Hk Hx Hx'. destruct (task_space k Hk) as [_ Hv H1 H0].
  destruct (own_write k T E tf (λ m, st64 m (tf + x) v)) as [Hi Hw]; [apply Hk|done|done|done| |].
  { apply only_pages_st64; [apply Hv|done|done]. }
  split; [|done]. by destruct Hk; split.
Qed.

Lemma wp_task_curproc k (Q : nat → kernel → Prop) :
  task me T E pq k → (∀ h, hs_eq h (hs k) → task me T E pq (upd_hs (λ _, h) k) → Q me (upd_hs (λ _, h) k)) →
  wp curproc k Q.
Proof.
  intros Hk HQ. pose proof (tk_calm _ _ _ _ _ Hk) as [H1 H2 H3 H4]. apply (wp_curproc me); [done|done|].
  intros h Hh. apply HQ; [done|]. apply task_hs; [|done]. rewrite Hh. apply Hk.
Qed.

Lemma wp_set_tf x v k (Q : unit → kernel → Prop) :
  task me T E pq k → Q tt (upd_ram (λ m, st64 m (tf + x) v) k) → wp (set_tf me x v) k Q.
Proof. intros Hk HQ. unfold set_tf. apply wp_bind, wp_get_proc. rewrite (task_proc k Hk). by apply wp_store64. Qed.

Lemma wp_get_tf x k (Q : Z → kernel → Prop) :
  task me T E pq k → Q (ld64 (ram k) (tf + x)) k → wp (get_tf me x) k Q.
Proof. intros Hk HQ. unfold get_tf. apply wp_bind, wp_get_proc. rewrite (task_proc k Hk). by apply wp_load64. Qed.

(** ** usertrapret() *)

(** What usertrapret() leaves in the trapframe for the next trap. *)
Definition trap_regs (k : kernel) (m : mem) : mem :=
  st64 (st64 (st64 (st64 m (tf + TF_kernel_satp) (satp (csr (hs k)))) (tf + TF_kernel_sp) (u64 (p_kstack pq + PGSIZE)))
    (tf + TF_kernel_trap) usertrap_addr) (tf + TF_kernel_hartid) (tp (csr (hs k))).

(** The registers with which the hart enters user mode. *)
Definition user_csrs (k : kernel) : csrs :=
  let c := csr (hs k) in
  mkCsrs (Z.lor (Z.land (Z.land (sstatus c) (Z.lnot SSTATUS_SIE)) (Z.lnot SSTATUS_SPP)) SSTATUS_SPIE)
    (ld64 (ram k) (tf + TF_epc)) (scause c) (stval c) (u64 (TRAMPOLINE + (uservec_addr - trampoline)))
    (satp c) (sip c) (tp c).

(** The jump into the trampoline. *)
Definition to_user : Z * Z * Z :=
  (u64 (TRAMPOLINE + (userret_addr - trampoline)), TRAPFRAME, MAKE_SATP (p_pagetable pq)).

(** Words of the trapframe. *)
Lemma tf_ld_other m x y v : x + 8 ≤ y ∨ y + 8 ≤ x → ld64 (st64 m (tf + y) v) (tf + x) = ld64 m (tf + x).
Proof. intros. apply ld64_st64_out. lia. Qed.

Lemma trap_regs_ld k m x :
  x mod 8 = 0 → (x ∉ [TF_kernel_satp; TF_kernel_sp; TF_kernel_trap; TF_kernel_hartid]) →
  ld64 (trap_regs k m) (tf + x) = ld64 m (tf + x).
Proof.
  intros H8 Hx. rewrite !not_elem_of_cons in Hx. unfold trap_regs, TF_kernel_satp, TF_kernel_sp, TF_kernel_trap, TF_kernel_hartid in *.
  pose proof (Z.div_mod x 8). rewrite !tf_ld_other by lia. done.
Qed.

Lemma task_trap_regs k : task me T E pq k →
  task me T E pq (upd_ram (trap_regs k) k) ∧ ∀ r va, views T (trap_regs k (ram k)) r va = views T (ram k) r va.
Proof.
  intros Hk. unfold trap_regs, TF_kernel_satp, TF_kernel_sp, TF_kernel_trap, TF_kernel_hartid.
  destruct (task_store 0 (satp (csr (hs k))) k Hk) as [H1 V1]; [lia|Zconst; lia|].
  destruct (task_store 8 (u64 (p_kstack pq + PGSIZE)) _ H1) as [H2 V2]; [lia|Zconst; lia|].
  destruct (task_store 16 usertrap_addr _ H2) as [H3 V3]; [lia|Zconst; lia|].
  destruct (task_store 32 (tp (csr (hs k))) _ H3) as [H4 V4]; [lia|Zconst; lia|].
  split; [exact H4|]. intros r va. cbn [ram upd_ram] in *. by rewrite V4, V3, V2, V1.
Qed.

(** A trap has been handled: the process continues in user mode. *)
Record returned k (ret : Z * Z * Z) k' : Prop := {
  rt_jump : ret = to_user;
  rt_task : task me T E pq k';
  rt_frame : tframe k k';
  rt_krefs : krefs k' = krefs k;
  rt_ram : ram k' = trap_regs k (ram k);
  rt_csr : csr (hs k') = user_csrs k;
  rt_views : ∀ r va, views T (ram k') r va = views T (ram k) r va;
}.

(** The hart is set up for the next trap from user mode: the trapframe has the
    page table and the hart of the kernel, which are those of [c]. *)
Record armed (c : csrs) k' : Prop := {
  ar_ram : ∃ m k0, ram k' = trap_regs k0 m ∧ satp (csr (hs k0)) = satp c ∧ tp (csr (hs k0)) = tp c;
  ar_csr : satp (csr (hs k')) = satp c ∧ tp (csr (hs k')) = tp c;
  ar_spp : Z.land (sstatus (csr (hs k'))) SSTATUS_SPP = 0;
}.

Lemma user_spp k : Z.land (sstatus (user_csrs k)) SSTATUS_SPP = 0.
Proof.
  cbn [user_csrs sstatus]. apply Z.bits_inj'. intros n Hn. rewrite Z.land_spec, Z.lor_spec, Z.land_spec, Z.lnot_spec by done.
  rewrite Z.bits_0. unfold SSTATUS_SPP, SSTATUS_SPIE. rewrite !Z.shiftl_spec by done. destruct (decide (n = 8)) as [->|Hne].
  - change (8 - 8) with 0. by rewrite !andb_false_r.
  - replace (Z.testbit 1 (n - 8)) with false; [apply andb_false_r|]. symmetry. change 1 with (2 ^ 0). apply Z.pow2_bits_false. lia.
Qed.

Lemma returned_armed k ret k' : returned k ret k' → armed (csr (hs k)) k'.
Proof. intros [R1 R2 R3 R4 R5 R6 R7]. split; [by exists (ram k), k|by rewrite R6|by rewrite R6; apply user_spp]. Qed.

Lemma armed_csr c c' k' : satp c' = satp c → tp c' = tp c → armed c k' → armed c' k'.
Proof. intros H1 H2 [A1 A2 A3]. split; [by rewrite H1, H2|by rewrite H1, H2|done]. Qed.

(** usertrapret() behind the change of stvec, in state [k2]. *)
Lemma usertrapret_tf k k2 :
  task me T E pq k2 → ram k2 = ram k → tframe k k2 → krefs k2 = krefs k →
  csr (hs k2) = upd_stvec (λ _, u64 (TRAMPOLINE + (uservec_addr - trampoline)))
    (upd_sstatus (λ x, Z.land x (Z.lnot SSTATUS_SIE)) (csr (hs k))) →
  wp (satp ← r_satp;
      set_tf me TF_kernel_satp satp;;
      kstack ← get_proc me p_kstack;
      set_tf me TF_kernel_sp (u64 (kstack + PGSIZE));;
      set_tf me TF_kernel_trap usertrap_addr;;
      hartid ← on_hs r_tp;
      set_tf me TF_kernel_hartid hartid;;
      x ← on_hs r_sstatus;
      on_hs (w_sstatus (Z.lor (Z.land x (Z.lnot SSTATUS_SPP)) SSTATUS_SPIE));;
      epc ← get_tf me TF_epc;
      w_sepc epc;;
      pt ← get_proc me p_pagetable;
      mret (u64 (TRAMPOLINE + (userret_addr - trampoline)), TRAPFRAME, MAKE_SATP pt)) k2 (returned k).
Proof.
  intros Hk Er Hf Ek Ec. destruct (task_trap_regs k2 Hk) as [Hk' Hviews]. pose proof (task_proc _ Hk) as Hp.
  unfold set_tf, get_tf. apply wp_bind, wp_r_csr. apply wp_bind, wp_bind, wp_get_proc, wp_store64.
  apply wp_bind, wp_get_proc. do 2 apply wp_bind. apply wp_get_proc, wp_store64.
  do 2 apply wp_bind. apply wp_get_proc, wp_store64. apply wp_bind, wp_r_tp.
  do 2 apply wp_bind. apply wp_get_proc, wp_store64. apply wp_bind, wp_r_sstatus. apply wp_bind, wp_w_sstatus.
  do 2 apply wp_bind. apply wp_get_proc, wp_load64. apply wp_bind, wp_w_csr. apply wp_bind, wp_get_proc, wp_ret.
  rewrite ?proc_of_hs, ?proc_of_ram, ?Hp.
  assert (trap_regs k2 (ram k2) = trap_regs k (ram k)) as Et by (unfold trap_regs; by rewrite Ec, Er).
  split.
  - done.
  - do 2 (apply task_csr; [done|]). exact Hk'.
  - destruct Hf. by split.
  - exact Ek.
  - exact Et.
  - transitivity (upd_sepc (λ _, ld64 (trap_regs k2 (ram k2)) (tf + TF_epc))
      (upd_sstatus (λ _, Z.lor (Z.land (sstatus (csr (hs k2))) (Z.lnot SSTATUS_SPP)) SSTATUS_SPIE) (csr (hs k2)))); [done|].
    rewrite Ec, trap_regs_ld, Er; [done|done|].
    apply (bool_decide_eq_true_1 _). by vm_compute.
  - intros r va. rewrite <-Er, <-Hviews. done.
Qed.

Lemma usertrapret_spec k : task me T E pq k → wp usertrapret k (returned k).
Proof.
  intros Hk. unfold usertrapret. apply wp_bind, (wp_task_curproc _ _ Hk). intros h Hh Hk0.
  apply wp_bind, wp_intr_off_k. apply wp_bind, wp_w_csr. apply usertrapret_tf.
  - by do 2 (apply task_csr; [done|]).
  - done.
  - by split.
  - done.
  - simpl. by rewrite (he_csr _ _ Hh).
Qed.

(** ** usertrap() *)

(** The beginning of usertrap(): the process is in the kernel, its program
    counter is saved. *)
Record entered k k1 : Prop := {
  et_task : task me T E pq k1;
  et_frame : tframe k k1;
  et_krefs : krefs k1 = krefs k;
  et_ram : ram k1 = st64 (ram k) (tf + TF_epc) (sepc (csr (hs k)));
  et_csr : csr (hs k1) = upd_stvec (λ _, kernelvec_addr) (csr (hs k));
  et_views : ∀ r va, views T (ram k1) r va = views T (ram k) r va;
}.

Lemma usertrap_enter k Q :
  task me T E pq k → Z.land (sstatus (csr (hs k))) SSTATUS_SPP = 0 →
  (∀ k1, entered k k1 →
    wp (which_dev ← usertrap_cause me;
        killed ← get_proc me p_killed;
        when (nz killed) (exit (-1));;
        when (which_dev =? 2) yield;;
        usertrapret) k1 Q) →
  wp usertrap k Q.
Proof.
  intros Hk Hspp HQ. unfold usertrap. apply wp_bind, wp_r_sstatus. rewrite Hspp. change (nz 0) with false. cbv iota.
  apply wp_bind, wp_w_csr. set (k0 := upd_hs _ k).
  assert (task me T E pq k0) as Hk0 by (by apply task_csr).
  apply wp_bind, (wp_task_curproc _ _ Hk0). intros h Hh Hk1. apply wp_bind, wp_r_csr.
  apply wp_bind, (wp_set_tf _ _ _ _ Hk1).
  destruct (task_store TF_epc (sepc (csr h)) _ Hk1) as [Hk2 Hviews]; [done|unfold TF_epc; Zconst; lia|].
  apply HQ. pose proof (he_csr _ _ Hh) as Ec. split.
  - exact Hk2.
  - by split.
  - done.
  - simpl. by rewrite Ec.
  - exact Ec.
  - exact Hviews.
Qed.

(** The words of the trapframe that hold the registers of the user. *)
Definition ureg (x : Z) : Prop := 40 ≤ x ∧ x + 8 ≤ TRAPFRAME_SIZE ∧ x mod 8 = 0.

Lemma ureg_store m x y v : ureg x → y mod 8 = 0 → x ≠ y → ld64 (st64 m (tf + y) v) (tf + x) = ld64 m (tf + x).
Proof. intros (H1 & H2 & H3) Hy Hne. apply tf_ld_other. pose proof (Z.div_mod x 8). pose proof (Z.div_mod y 8). lia. Qed.

Lemma ureg_trap_regs k m x : ureg x → ld64 (trap_regs k m) (tf + x) = ld64 m (tf + x).
Proof.
  intros (H1 & H2 & H3). apply trap_regs_ld; [done|]. rewrite !not_elem_of_cons.
  unfold TF_kernel_satp, TF_kernel_sp, TF_kernel_trap, TF_kernel_hartid. split_and!; try lia. apply not_elem_of_nil.
Qed.

(** A word of the trapframe is not touched by what the kernel does to pages
    without an owner. *)
Lemma tf_untouched k m x :
  task me T E pq k → only_pages (touch T E) (ram k) m → 0 ≤ x → x + 8 ≤ PGSIZE → ld64 m (tf + x) = ld64 (ram k) (tf + x).
Proof.
  intros Hk Hop Hx Hx'. destruct (task_space k Hk) as [_ [Hal _] H1 _]. apply ld64_ext. intros b Hb. apply Hop.
  assert (page b = tf) as ->.
  { replace b with (tf + (b - tf)) by lia. apply page_offset; [done|lia]. }
  intros (_ & _ & ?). lia.
Qed.
End task.

(** *** A store to a copy-on-write page *)

Lemma user_pt_resolved t t' tf sz : resolved t t' → user_pt t tf sz → user_pt t' tf sz.
Proof.
  intros [R1 R2 R3] [U1 U2 U3 U4 U5].
  assert (∀ v e, UPN ≤ v → leaves t !! v = Some e → leaves t' !! v = Some e) as Hh.
  { intros v e Hv He. destruct (proj2 (R2 v) ltac:(by rewrite He)) as [e' He'].
    destruct (R3 v e' He') as [|[? _]]; [congruence|lia]. }
  split; [congruence|apply Hh; [lia|done]|apply Hh; [lia|done]| |done]. intros v. by rewrite R2, U4.
Qed.

(** The trapframes are not mapped by it. *)
Lemma refs_resolved k T E r t t' x :
  minv k (<[r := t']> T) E → T !! r = Some t → resolved t t' → E x = 1 → refs T x = 0 → refs (<[r := t']> T) x = 0.
Proof.
  intros Hi Hr [R1 R2 R3] Hx H0. pose proof (nref_refs T r t x Hr). pose proof (nref_nonneg t x).
  rewrite (refs_insert _ _ t) by done. destruct (decide (0 < nref t' x)) as [Hp|]; [exfalso|pose proof (nref_nonneg t' x); lia].
  destruct (nref_pos _ _ Hp) as (v & e & He & Hv & <-). destruct (R3 v e He) as [He0|(Hl & Hu & Hw)].
  - pose proof (leaf_nref t v e He0). lia.
  - destruct (mi_w _ _ _ Hi r t' v e (lookup_insert_eq _ _ _) He Hv Hu Hw). lia.
Qed.

Lemma pinv_resolved k T E ps r t t' :
  minv k (<[r := t']> T) E → pinv T E ps → T !! r = Some t → resolved t t' → pinv (<[r := t']> T) E ps.
Proof.
  intros Hi [P1 P2 P3 P4 P5] Hr Ht. split; try done. intros i q Hq Hu.
  destruct (P3 i q Hq Hu) as [(tq & Htq & Huq) Q2 Q3 Q4]. split; try done; [|by eapply refs_resolved].
  destruct (decide (p_pagetable q = r)) as [Heq|Hne].
  - rewrite Heq in *. simplify_eq. exists t'. split; [apply lookup_insert_eq|by eapply user_pt_resolved].
  - exists tq. by rewrite lookup_insert_ne.
Qed.

(** cowalloc() of a page that can be resolved. *)
Lemma task_cow me T E pq k t v e k' :
  task me T E pq k → T !! p_pagetable pq = Some t → leaves t !! v = Some e → v < lim t → is_cow e = true →
  cow_resolved k T E (p_pagetable pq) t v e k' →
  ∃ T', task me T' E pq k' ∧ kframe k k' ∧ only_pages (touch T E) (ram k) (ram k') ∧
    same_views T (ram k) T' (ram k') ∧ owns k' T' (p_pagetable pq) v.
Proof.
  intros [K1 K2 K3 K4 K5 K6] Hr He Hl Hcow Hres.
  destruct (cow_views _ _ _ _ _ _ _ _ K2 Hr He Hl Hcow Hres)
    as (t' & e' & Hi' & Hrs & Hkf & Hop & Hlm & He' & Hu & Hw & _ & Hv).
  exists (<[p_pagetable pq := t']> T). split_and!; [|done..|].
  - split; try done.
    + by rewrite (kf_hs _ _ Hkf).
    + rewrite (kf_procs _ _ Hkf). by eapply pinv_resolved.
    + by rewrite (kf_procs _ _ Hkf).
  - assert (v < lim t') as Hl' by lia.
    destruct (mi_w _ _ _ Hi' _ t' v e' (lookup_insert_eq _ _ _) He' Hl' Hu Hw) as [H1 H2].
    destruct (mapped_page _ _ _ _ _ _ _ Hi' K3 (lookup_insert_eq _ _ _) He' Hl') as (_ & _ & _ & Hc).
    exists t', e'. split_and!; try done; [apply lookup_insert_eq|]. specialize (K3 (PTE2PA e')). lia.
Qed.

(** There is a free page. *)
Definition free_page k : Prop := ∃ pa, valid_page pa ∧ cnt k pa = 0.

Lemma cowalloc_task me T E pq k t va e :
  task me T E pq k → T !! p_pagetable pq = Some t → 0 ≤ va < MAXVA → leaves t !! vpn va = Some e → is_cow e = true →
  free_page k →
  wp (cowalloc (p_pagetable pq) va) k (λ c k', c = 0 ∧ ∃ T', task me T' E pq k' ∧ kframe k k' ∧
    only_pages (touch T E) (ram k) (ram k') ∧ same_views T (ram k) T' (ram k') ∧ owns k' T' (p_pagetable pq) (vpn va)).
Proof.
  intros Hk Hr Hva He Hcow (pa & Hpv & Hp0). pose proof Hk as [K1 K2 K3 K4 K5 K6].
  eapply wp_mono; [eapply (cowalloc_spec k T E); [done|done|done|lia]|].
  intros c k' [(-> & -> & Hno)|(e1 & Hlt & He1 & Hc1 & Hl & [[-> Hres]|(-> & Hkf & Hi' & Er & Ho)])].
  - specialize (Hno ltac:(lia) e He). congruence.
  - split; [done|]. by eapply task_cow.
  - exfalso. apply (Ho pa Hpv). rewrite (mi_cnt _ _ _ Hi' pa Hpv), <-(mi_cnt _ _ _ K2 pa Hpv). done.
Qed.

(** The pages that change in a trap. *)
Definition trap_pages T E pq (q : Z) : Prop := q = p_trapframe pq ∨ touch T E q.

Lemma own_pages T E pq m m' : only_pages (λ q, q = p_trapframe pq) m m' → only_pages (trap_pages T E pq) m m'.
Proof. apply only_pages_weaken. intros q ->. by left. Qed.

Lemma only_pages_trap_regs pq k m : aligned (p_trapframe pq) → only_pages (λ q, q = p_trapframe pq) m (trap_regs pq k m).
Proof.
  intros Hal. unfold trap_regs, TF_kernel_satp, TF_kernel_sp, TF_kernel_trap, TF_kernel_hartid.
  repeat (eapply only_pages_trans; [|apply only_pages_st64; [done|lia|Zconst; lia]]). apply only_pages_refl.
Qed.

(** A process that stores to a copy-on-write page traps; it goes on at the same
    instruction with the same memory and registers, and the page is its own. *)
Lemma usertrap_store_spec me T E pq k t e :
  let va := stval (csr (hs k)) in
  task me T E pq k → Z.land (sstatus (csr (hs k))) SSTATUS_SPP = 0 → scause (csr (hs k)) = 15 → p_killed pq = 0 →
  0 ≤ sepc (csr (hs k)) < 2 ^ 64 →
  T !! p_pagetable pq = Some t → 0 ≤ va < MAXVA → leaves t !! vpn va = Some e → is_cow e = true → free_page k →
  wp usertrap k (λ ret k', ret = to_user pq ∧ ∃ T', task me T' E pq k' ∧ tframe k k' ∧
    same_views T (ram k) T' (ram k') ∧ owns k' T' (p_pagetable pq) (vpn va) ∧
    sepc (csr (hs k')) = sepc (csr (hs k)) ∧
    (∀ x, ureg x → ld64 (ram k') (p_trapframe pq + x) = ld64 (ram k) (p_trapframe pq + x)) ∧
    only_pages (trap_pages T E pq) (ram k) (ram k') ∧ armed pq (csr (hs k)) k').
Proof.
  intros va Hk Hspp Hsc Hkill Hpc Hr Hva He Hcow Hfree. apply (usertrap_enter me T E pq k); [done|done|].
  intros k1 [E1 E2 E3 E4 E5 E6]. apply wp_bind. unfold usertrap_cause. apply wp_bind, wp_r_csr.
  rewrite E5. simpl scause. rewrite Hsc. simpl Z.eqb. cbv iota. apply wp_bind, wp_get_proc. rewrite (task_proc _ _ _ _ _ E1).
  apply wp_bind, wp_r_csr. rewrite E5. simpl stval. fold va. apply wp_bind.
  eapply wp_mono; [eapply cowalloc_task; [done|done|done|done|done|]|].
  { destruct Hfree as (pa & ? & ?). exists pa. split; [done|]. unfold cnt in *. by rewrite E3. }
  intros c k2 (-> & T' & Hk2 & Hkf & Hop & Hv & Hown). simpl Z.ltb. apply wp_bind, wp_ret, wp_ret.
  apply wp_bind, wp_get_proc. rewrite (task_proc _ _ _ _ _ Hk2), Hkill. apply wp_bind, wp_ret. apply wp_bind, wp_ret.
  destruct (task_space _ _ _ _ _ Hk) as [_ [Hal _] _ _].
  eapply wp_mono; [by apply (usertrapret_spec me T' E pq)|]. intros ret k' Hret. pose proof Hret as [R1 R2 R3 R4 R5 R6 R7].
  split; [done|]. exists T'. split_and!; [done| | | | | | |].
  - etrans; [exact E2|]. etrans; [by apply kframe_tframe|done].
  - intros r va'. by rewrite R7, Hv, E6.
  - destruct Hown as (t' & e' & O1 & O2 & O3 & O4 & O5 & O6). exists t', e'. split_and!; try done.
    unfold cnt in *. by rewrite R4.
  - rewrite R6. cbn [user_csrs sepc]. rewrite (tf_untouched me T E pq k1), E4 by (done || unfold TF_epc; Zconst; lia).
    by apply ld64_st64.
  - intros x Hx. rewrite R5, ureg_trap_regs by done. pose proof Hx as (X1 & X2 & X3). unfold TRAPFRAME_SIZE in X2.
    rewrite (tf_untouched me T E pq k1), E4 by (done || Zconst; lia). apply ureg_store; [done|done|unfold TF_epc; lia].
  - apply (only_pages_trans _ _ (ram k1)); [rewrite E4; apply own_pages, only_pages_st64; [done|done|unfold TF_epc; Zconst; lia]|].
    apply (only_pages_trans _ _ (ram k2)); [eapply only_pages_weaken; [|exact Hop]; by right|].
    rewrite R5. by apply own_pages, only_pages_trap_regs.
  - eapply armed_csr; [| |by eapply returned_armed]; rewrite (he_csr _ _ (kf_hs _ _ Hkf)), E5; done.
Qed.

(** *** System calls *)

(** The state in which the handler of a system call runs: the program counter
    is behind the ecall, interrupts are on. *)
Record called me T E pq k k2 : Prop := {
  cl_task : task me T E pq k2;
  cl_frame : tframe k k2;
  cl_krefs : krefs k2 = krefs k;
  cl_pc : ld64 (ram k2) (p_trapframe pq + TF_epc) = u64 (sepc (csr (hs k)) + 4);
  cl_regs : ∀ x, ureg x → ld64 (ram k2) (p_trapframe pq + x) = ld64 (ram k) (p_trapframe pq + x);
  cl_ram : only_pages (λ q, q = p_trapframe pq) (ram k) (ram k2);
  cl_views : ∀ r va, views T (ram k2) r va = views T (ram k) r va;
  cl_csr : satp (csr (hs k2)) = satp (csr (hs k)) ∧ tp (csr (hs k2)) = tp (csr (hs k));
}.

(** Back in user mode after a system call that left state [k3] and returned
    [v]. *)
Record sysret me T E pq (v : Z) k3 (ret : Z * Z * Z) k' : Prop := {
  sr_jump : ret = to_user pq;
  sr_task : task me T E pq k';
  sr_frame : tframe k3 k';
  sr_krefs : krefs k' = krefs k3;
  sr_pc : sepc (csr (hs k')) = ld64 (ram k3) (p_trapframe pq + TF_epc);
  sr_regs : ∀ x, ureg x → ld64 (ram k') (p_trapframe pq + x) =
    if decide (x = TF_a0) then v else ld64 (ram k3) (p_trapframe pq + x);
  sr_ram : only_pages (λ q, q = p_trapframe pq) (ram k3) (ram k');
  sr_views : ∀ r va, views T (ram k') r va = views T (ram k3) r va;
  sr_armed : armed pq (csr (hs k3)) k';
}.

Lemma task_pc me T E pq k1 k (Hk1 : entered me T E pq k k1) :
  0 ≤ sepc (csr (hs k)) < 2 ^ 64 →
  called me T E pq k (upd_hs (upd_csr (upd_sstatus (λ x, Z.lor x SSTATUS_SIE)))
    (upd_ram (λ m, st64 m (p_trapframe pq + TF_epc) (u64 (sepc (csr (hs k)) + 4))) k1)).
Proof.
  intros Hpc. destruct Hk1 as [E1 E2 E3 E4 E5 E6].
  destruct (task_store me T E pq TF_epc (u64 (sepc (csr (hs k)) + 4)) k1 E1) as [Hk2 Hv]; [done|unfold TF_epc; Zconst; lia|].
  destruct (task_space _ _ _ _ _ E1) as [_ [Hal _] _ _]. split.
  - by apply task_csr.
  - destruct E2. by split.
  - done.
  - simpl. apply ld64_st64, u64_range.
  - intros x Hx. simpl. assert (x ≠ TF_epc) by (destruct Hx as (? & _); unfold TF_epc; lia).
    rewrite ureg_store, E4 by done. by apply ureg_store.
  - simpl. rewrite E4. eapply only_pages_trans; apply only_pages_st64; try done; unfold TF_epc; Zconst; lia.
  - intros r va. simpl. by rewrite Hv.
  - simpl. by rewrite E5.
Qed.

(** Storing the result and going back. *)
Lemma syscall_return me T E pq k v Q :
  task me T E pq k → 0 ≤ v < 2 ^ 64 → p_killed pq = 0 → (∀ ret k', sysret me T E pq v k ret k' → Q ret k') →
  wp (set_tf me TF_a0 v) k (λ _ k1,
    wp (killed ← get_proc me p_killed;
        when (nz killed) (exit (-1));;
        when (0 =? 2) yield;;
        usertrapret) k1 Q).
Proof.
  intros Hk Hvr Hkill HQ. apply (wp_set_tf _ _ _ _ _ _ _ _ Hk).
  destruct (task_store me T E pq TF_a0 v k Hk) as [Hk1 Hv]; [done|unfold TF_a0; Zconst; lia|].
  destruct (task_space _ _ _ _ _ Hk) as [_ [Hal _] _ _].
  apply wp_bind, wp_get_proc. rewrite (task_proc _ _ _ _ _ Hk1), Hkill. apply wp_bind, wp_ret. apply wp_bind, wp_ret.
  eapply wp_mono; [by apply (usertrapret_spec me T E pq)|]. intros ret k' Hret. pose proof Hret as [R1 R2 R3 R4 R5 R6 R7]. apply HQ. split.
  - done.
  - done.
  - destruct R3. by split.
  - done.
  - rewrite R6. cbn [user_csrs sepc]. simpl ram. apply tf_ld_other. unfold TF_a0, TF_epc. lia.
  - intros x Hx. rewrite R5, ureg_trap_regs by done. simpl ram. case_decide as Hd.
    + subst x. by apply ld64_st64.
    + by apply ureg_store.
  - rewrite R5. eapply only_pages_trans; [|by apply only_pages_trap_regs].
    apply only_pages_st64; [done|done|unfold TF_a0; Zconst; lia].
  - intros r va. by rewrite R7, <-Hv.
  - by eapply (returned_armed _ _ _ _ _ _ _ Hret).
Qed.

Lemma usertrap_syscall me T E pq k n call Q :
  task me T E pq k → Z.land (sstatus (csr (hs k))) SSTATUS_SPP = 0 → scause (csr (hs k)) = 8 → p_killed pq = 0 →
  0 ≤ sepc (csr (hs k)) < 2 ^ 64 →
  s32 (ld64 (ram k) (p_trapframe pq + TF_a7)) = Z.of_nat (S n) → syscalls !! S n = Some (Some call) →
  (∀ k2, called me T E pq k k2 → wp call k2 (λ v k3, 0 ≤ v < 2 ^ 64 ∧ ∃ T' E' pq', task me T' E' pq' k3 ∧
    p_killed pq' = 0 ∧ ∀ ret k', sysret me T' E' pq' v k3 ret k' → Q ret k')) →
  wp usertrap k Q.
Proof.
  intros Hk Hspp Hsc Hkill Hpc Ha7 Hcall HQ. apply (usertrap_enter me T E pq k); [done|done|].
  intros k1 He. pose proof He as [E1 E2 E3 E4 E5 E6]. pose proof (task_pc _ _ _ _ _ _ He Hpc) as Hcl.
  apply wp_bind. unfold usertrap_cause. apply wp_bind, wp_r_csr. rewrite E5. simpl scause. rewrite Hsc.
  simpl Z.eqb. cbv iota. apply wp_bind, wp_get_proc. rewrite (task_proc _ _ _ _ _ E1), Hkill. apply wp_bind, wp_ret.
  apply wp_bind, (wp_get_tf _ _ _ _ _ _ _ E1). rewrite E4, ld64_st64 by done.
  apply wp_bind, (wp_set_tf _ _ _ _ _ _ _ _ E1). apply wp_bind, wp_intr_on_k.
  unfold syscall. apply wp_bind, wp_bind, (wp_task_curproc _ _ _ _ _ _ (cl_task _ _ _ _ _ _ Hcl)). intros h Hh Hk2.
  set (k2 := upd_hs (λ _, h) _) in *.
  assert (called me T E pq k k2) as Hcl2 by (destruct Hcl as [C1 [] C3 C4 C5 C6 C7 C8]; split; try done; simpl; by rewrite (he_csr _ _ Hh)).
  apply wp_bind, (wp_get_tf _ _ _ _ _ _ _ Hk2).
  rewrite (cl_regs _ _ _ _ _ _ Hcl2) by (by unfold ureg, TF_a7, TRAPFRAME_SIZE). rewrite Ha7.
  pose proof (lookup_lt_Some _ _ _ Hcall) as Hlt.
  destruct (Z.ltb_spec 0 (Z.of_nat (S n))); [|lia]. destruct (Z.ltb_spec (Z.of_nat (S n)) (Z.of_nat (length syscalls))); [|lia].
  rewrite Nat2Z.id, Hcall. apply wp_bind. eapply wp_mono; [by apply HQ|].
  intros v k3 (Hv & T' & E' & pq' & Hk3 & Hkill' & HQ').
  eapply wp_mono; [by apply (syscall_return me T' E' pq' k3 v Q)|]. intros [] k4 Hk4. by apply wp_ret.
Qed.
End trap.
