(* ===== verification/ProcTheorems.v ===== *)
(** * The theorems about processes

    The fork system call on the whole way through usertrap() and usertrapret():
    the parent comes back with the number of the child, the child is a runnable
    copy of the parent that will come back with 0, and the call succeeds
    when there is a free slot and enough free pages.  At the end a small machine
    with two processes, to which this and the theorems of UserMode are applied. *)

From stdpp Require Import gmap list strings.
From Stdlib Require Import ZArith Lia.
From S2P Require Import Prelude Mem Str Params FsData DevData Machine Spinlock Sched Sleeplock Bio Log FsTxn.
From S2P Require Import Kalloc Vm Fs Pipe File Proc Syscall Exec SysFile Trap PageTable VmWalk VmMap VmSpace VmFree Cow UserView UserCopy.
From S2P Require Import VmDemo VmTheorems ProcSpec ProcFork ProcTrap.
#[local] Open Scope Z_scope.
Ltac wp_prim ::= wp_proc.

Section theorems.
Context `{OTH : Others, LNK : !Linker, LOK : !LinkerOk, KOB : !Kobj, TXT : !Text, DEV : !Devices}.
Implicit Types (k : kernel) (T : tables) (E : Z → Z).

(** ** System calls *)

(** A word of the trapframe of a process. *)
Definition reg k (q : proc) (x : Z) : Z := ld64 (ram k) (p_trapframe q + x).

(** The process [c] is the child that process [me], which is [pq], has after
    it called fork(): it was started as a copy of [pq] in state [k]. *)
Record born (me : nat) k (pq c : proc) k' : Prop := {
  bo_state : p_state c = RUNNABLE;
  bo_pid : p_pid c = nextpid k;
  bo_parent : p_parent c = Some me;
  bo_sz : p_sz c = p_sz pq;
  bo_files : p_ofile c = p_ofile pq;
  bo_cwd : p_cwd c = p_cwd pq;
  bo_a0 : reg k' c TF_a0 = 0;
  bo_pc : reg k' c TF_epc = u64 (sepc (csr (hs k)) + 4);
  bo_regs : ∀ x, ureg x → x ≠ TF_a0 → reg k' c x = reg k pq x;
}.

Lemma task_undone me T E pq k k3 :
  task me T E pq k → fork_undone k T E k3 →
  ∃ T', task me T' E pq k3 ∧ used_same (procs k) (procs k3) ∧ same_views T (ram k) T' (ram k3) ∧
    only_pages (touch T E) (ram k) (ram k3) ∧ csr (hs k3) = csr (hs k).
Proof.
  intros [K1 K2 K3 K4 K5 K6] (T' & ps & n & H1 & H2 & H3 & H4 & H5 & H6). exists T'.
  pose proof (kf_procs _ _ H1) as Ep. simpl in Ep. rewrite Ep.
  split_and!; try done; [|by rewrite (he_csr _ _ (kf_hs _ _ H1))]. split; try done.
  - by rewrite (kf_hs _ _ H1).
  - by rewrite Ep.
  - rewrite Ep. destruct H4 as [Hl H4]. destruct (lookup_lt_is_Some_2 ps me) as [q Hq].
    { rewrite Hl. by eapply lookup_lt_Some. }
    rewrite Hq. f_equal. by apply (H4 me pq q).
Qed.

Lemma task_done me T E pq k np q tf r cwd T' k3 :
  task me T E pq k → fork_done me k T E pq np q tf r cwd T' k3 →
  task me T' (eadd E tf 1) pq k3.
Proof.
  intros [K1 K2 K3 K4 K5 K6] [F1 F2 F3 F4 F5 F6 F7 F8 F9]. split; try done.
  - by rewrite (kf_hs _ _ F3).
  - rewrite (kf_procs _ _ F3). simpl. rewrite list_lookup_insert_ne; [done|].
    intros ->. destruct F1 as (? & ? & _). simplify_eq.
Qed.

(** What process [me] sees of its call of fork() when it is back in user mode:
    [v] is the result. *)
Record resumed T E (pq : proc) (v : Z) k (ret : Z * Z * Z) k' : Prop := {
  re_jump : ret = to_user pq;
  re_pc : sepc (csr (hs k')) = u64 (sepc (csr (hs k)) + 4);
  re_regs : ∀ x, ureg x → reg k' pq x = if decide (x = TF_a0) then v else reg k pq x;
  re_ram : only_pages (trap_pages T E pq) (ram k) (ram k');
  re_armed : armed pq (csr (hs k)) k';
}.

Lemma fork_resumed me T E pq k k2 T' E' v k3 ret k' :
  called me T E pq k k2 → only_pages (touch T E) (ram k2) (ram k3) → csr (hs k3) = csr (hs k2) →
  sysret me T' E' pq v k3 ret k' → resumed T E pq v k ret k'.
Proof.
  intros [C1 C2 C3 C4 C5 C6 C7 [C8 C9]] Hop Hcsr [S1 S2 S3 S4 S5 S6 S7 S8 S9]. split.
  - done.
  - rewrite S5, <-C4. apply (tf_untouched me T E pq k2); [done|done|done|unfold TF_epc; Zconst; lia].
  - intros x Hx. unfold reg. rewrite S6 by done. case_decide; [done|]. rewrite <-C5 by done.
    destruct Hx as (X1 & X2 & X3). unfold TRAPFRAME_SIZE in X2.
    apply (tf_untouched me T E pq k2); [done|done|lia|Zconst; lia].
  - apply (only_pages_trans _ _ (ram k2)); [by apply own_pages|].
    apply (only_pages_trans _ _ (ram k3)); [|by apply own_pages]. eapply only_pages_weaken; [|exact Hop]. by right.
  - by eapply armed_csr; [..|exact S9]; rewrite Hcsr.
Qed.

(** The child at that time. *)
Lemma fork_child me T E pq k k2 np q tf r cwd T' E' v k3 ret k' :
  called me T E pq k k2 → p_cwd pq = Some cwd → fork_done me k2 T E pq np q tf r cwd T' k3 →
  sysret me T' E' pq v k3 ret k' →
  ∃ c, procs k' = <[np := c]> (procs k) ∧ p_pagetable c = r ∧ p_trapframe c = tf ∧ born me k pq c k'.
Proof.
  intros [C1 C2 C3 C4 C5 C6 C7 _] Hcwd [F1 F2 F3 F4 F5 F6 F7 F8 F9] [S1 S2 S3 S4 S5 S6 S7 S8 _].
  exists (finish_child me pq cwd (upd_p_ofile (λ _, p_ofile pq) (upd_p_sz (λ _, p_sz pq) (allocated q (nextpid k2) tf r)))).
  destruct F2 as (_ & [Hal _] & (_ & _ & Hnt)).
  assert (tf ≠ p_trapframe pq) as Hne.
  { intros ->. destruct (task_space _ _ _ _ _ C1) as [_ _ Ho _]. lia. }
  assert (∀ x, 0 ≤ x → x mod 8 = 0 → x + 8 ≤ TRAPFRAME_SIZE →
    ld64 (ram k') (tf + x) = if decide (x = TF_a0) then 0 else ld64 (ram k2) (p_trapframe pq + x)) as Hld.
  { intros x X1 X2 X3. rewrite <-F8 by done. apply ld64_ext. intros b Hb. apply S7.
    replace b with (tf + (b - tf)) by lia. unfold TRAPFRAME_SIZE in X3. rewrite page_offset; [done|done|Zconst; lia]. }
  split_and!; [|done|done|split].
  - rewrite (tf_procs _ _ S3), (kf_procs _ _ F3). simpl. by rewrite (tf_procs _ _ C2).
  - done.
  - simpl. by rewrite (tf_nextpid _ _ C2).
  - done.
  - done.
  - done.
  - by rewrite Hcwd.
  - unfold reg. simpl. by rewrite Hld.
  - unfold reg. simpl. by rewrite Hld.
  - intros x (X1 & X2 & X3) Hx. unfold reg. simpl. rewrite Hld, decide_False by (done || lia). apply C5. by split.
Qed.
(** A call of fork() by process [me]. *)
Lemma fork_syscall_spec me T E pq k cwd :
  task me T E pq k → Z.land (sstatus (csr (hs k))) SSTATUS_SPP = 0 → scause (csr (hs k)) = 8 → p_killed pq = 0 →
  0 ≤ sepc (csr (hs k)) < 2 ^ 64 → s32 (reg k pq TF_a7) = SYS_fork → p_cwd pq = Some cwd →
  (∀ i f, p_ofile pq !! i = Some (Some f) → 1 ≤ f_ref (file_of (fs k) f)) →
  wp usertrap k (λ ret k',
    (fork_lacks k pq ∧ resumed T E pq (u64 (-1)) k ret k' ∧ ∃ T', task me T' E pq k' ∧
      used_same (procs k) (procs k') ∧ same_views T (ram k) T' (ram k')) ∨
    (resumed T E pq (u64 (nextpid k)) k ret k' ∧ ∃ np q c T', task me T' (eadd E (p_trapframe c) 1) pq k' ∧
      procs k !! np = Some q ∧ p_state q = UNUSED ∧ procs k' = <[np := c]> (procs k) ∧ born me k pq c k' ∧
      T !! p_pagetable c = None ∧
      ∀ r va, views T' (ram k') r va =
        if decide (r = p_pagetable c) then views T (ram k) (p_pagetable pq) va else views T (ram k) r va)).
Proof.
  intros Hk Hspp Hsc Hkill Hpc Ha7 Hcwd Hf.
  apply (usertrap_syscall me T E pq k 0 sys_fork); [done|done|done|done|done|done|done|]. intros k2 Hcl.
  pose proof Hcl as [[K1 K2 K3 K4 K5 K6] C2 C3 C4 C5 C6 C7 C8]. unfold sys_fork, ret_int. apply wp_bind.
  eapply wp_mono; [apply (fork_spec me k2 T E pq cwd); try done; by rewrite (tf_fs _ _ C2)|].
  intros v k3 [(-> & Hu & Hl)|[-> (np & q & tf & r & T' & Hd)]]; apply wp_ret; (split; [apply u64_range|]).
  - destruct (task_undone me T E pq k2 k3) as (T' & Ht & Hs & Hv & Hop & Ec); [apply Hcl|done|].
    exists T', E, pq. split_and!; [done|done|]. intros ret k' Hr. left. split_and!; [|by eapply fork_resumed|].
    { unfold fork_lacks in *. rewrite <-(tf_procs _ _ C2). destruct Hl as [|Hl]; [by left|right].
      by apply (taken_short 0 _ _ k2); [apply taken_refs|]. }
    exists T'. split_and!; [apply Hr| |].
    + by rewrite (tf_procs _ _ (sr_frame _ _ _ _ _ _ _ _ Hr)), <-(tf_procs _ _ C2).
    + intros r va. by rewrite (sr_views _ _ _ _ _ _ _ _ Hr), Hv, C7.
  - exists T', (eadd E tf 1), pq. split_and!; [by eapply task_done; [apply Hcl|]|done|]. intros ret k' Hr. right.
    rewrite <-(tf_nextpid _ _ C2). split; [eapply fork_resumed; [done|apply Hd| |done]|].
    { by rewrite (he_csr _ _ (kf_hs _ _ (fd_frame _ _ _ _ _ _ _ _ _ _ _ _ Hd))). }
    destruct (fork_child _ _ _ _ _ _ _ _ _ _ _ _ _ _ _ _ _ Hcl Hcwd Hd Hr) as (c & Hp & <- & <- & Hb).
    destruct Hd as [(F1 & F1' & _) (F2 & _) _ _ _ _ F7 _ _].
    exists np, q, c, T'. rewrite <-(tf_procs _ _ C2). split_and!; [apply Hr|done|done| |done|done|].
    + by rewrite Hp, (tf_procs _ _ C2).
    + intros r va. rewrite (sr_views _ _ _ _ _ _ _ _ Hr), F7. by rewrite !C7.
Qed.

(** C3. fork() makes progress: when there is an unused slot and the list [l] of
    free pages is long enough, the call does not fail; its result is the pid of
    a runnable child that is a copy of the parent. *)
Theorem fork_progress me T E pq k cwd i q l :
  task me T E pq k → Z.land (sstatus (csr (hs k))) SSTATUS_SPP = 0 → scause (csr (hs k)) = 8 → p_killed pq = 0 →
  0 ≤ sepc (csr (hs k)) < 2 ^ 64 → s32 (reg k pq TF_a7) = SYS_fork → p_cwd pq = Some cwd →
  (∀ i f, p_ofile pq !! i = Some (Some f) → 1 ≤ f_ref (file_of (fs k) f)) →
  procs k !! i = Some q → p_state q = UNUSED →
  NoDup l → Forall (λ pa, valid_page pa ∧ cnt k pa = 0) l → (6 + Z.to_nat (2 * npg (p_sz pq)) < length l)%nat →
  wp usertrap k (λ ret k', resumed T E pq (u64 (nextpid k)) k ret k' ∧
    ∃ np c, procs k' !! np = Some c ∧ p_state c = RUNNABLE ∧ born me k pq c k').
Proof.
  intros Hk H1 H2 H3 H4 H5 H6 H7 Hq Hu Hn Hl Hlen. eapply wp_mono; [by eapply fork_syscall_spec|].
  intros ret k' [([Hno|Hsh] & _)|(Hr & np & x & c & T' & Ht & Hx & Hxu & Hp & Hb & _)].
  - assert (i < 64)%nat as Hi.
    { rewrite <-(pi_len _ _ _ (tk_pinv _ _ _ _ _ Hk) : _ = 64%nat). by eapply lookup_lt_Some. }
    by destruct (Hno i q Hi Hq).
  - pose proof (short_free _ _ _ Hsh Hn Hl). lia.
  - split; [done|]. exists np, c. rewrite Hp. split_and!; [|apply Hb|done].
    apply list_lookup_insert_eq. by eapply lookup_lt_Some.
Qed.

End theorems.

(** * A concrete machine

    Nineteen pages of RAM.  Process 0 has one page of memory, [pp 3]; its page
    table is [pp 0] with the lower tables [pp 1], [pp 2], [pp 4] and [pp 5], its
    trapframe is [pp 6].  The kernel's page table is [pp 16] with [pp 17] and
    [pp 18].  The other pages are free. *)

#[local] Instance two_linker : Linker := {|
  kend := PHYSTOP - 19 * PGSIZE;
  etext := KERNBASE + 8 * PGSIZE;
  trampoline := KERNBASE + 7 * PGSIZE;
|}.
#[local] Instance two_linker_ok : LinkerOk.
Proof. by split. Qed.
#[local] Instance two_kobj : Kobj := {| bdata := KERNBASE; kloc := KERNBASE + BSIZE |}.
#[local] Instance two_text : Text := {|
  forkret_addr := KERNBASE + 4096; usertrap_addr := KERNBASE + 8192; kernelvec_addr := KERNBASE + 12288;
  uservec_addr := KERNBASE + 7 * PGSIZE; userret_addr := KERNBASE + 7 * PGSIZE + 144;
|}.
#[local] Instance two_others : Others := mret tt.
#[local] Instance two_devices : Devices := {|
  devsw_read := λ _, None; devsw_write := λ _, None; plic_claim := mret 0; plic_complete := λ _, mret tt;
  uartintr := mret tt; virtio_disk_intr := mret tt; printf := λ _ _, mret tt;
|}.

Definition pp (i : Z) : Z := PHYSTOP - 19 * PGSIZE + i * PGSIZE.
Definition two_owned : list Z := [pp 6; pp 16; pp 17; pp 18].
Definition two_used : list Z := pp 0 :: pp 1 :: pp 2 :: pp 4 :: pp 5 :: pp 3 :: two_owned.
Definition two_free : list Z := [pp 7; pp 8; pp 9; pp 10; pp 11; pp 12; pp 13; pp 14; pp 15].

Lemma pp_pages pa : valid_page pa ↔ pa ∈ two_used ++ two_free.
Proof.
  unfold two_used, two_free, two_owned; cbn [app]. rewrite !elem_of_cons, elem_of_nil. unfold valid_page, pp, kend, two_linker, aligned. Zconst. split.
  - intros [Ha Hr]. Z.div_mod_to_equations. lia.
  - intros H. repeat destruct H as [->|H]; try done; split; try done; lia.
Qed.

Lemma pp_valid i : 0 ≤ i < 19 → valid_page (pp i).
Proof. intros Hi. apply pp_pages. unfold two_used, two_free, two_owned; cbn [app]. rewrite !elem_of_cons. unfold pp. Zconst. lia. Qed.

Fixpoint two_list (m : mem) (F : list Z) : mem :=
  match F with [] => m | x :: F' => two_list (st64 m x (default 0 (head F'))) F' end.
Definition two_ksatp : Z := MAKE_SATP (pp 16).
Definition two_ktable : mem :=
  st64 (st64 (st64 (two_list ∅ two_free) (entry (pp 16) 255) (mkpte (pp 17) PTE_V)) (entry (pp 17) 511) (mkpte (pp 18) PTE_V))
    (entry (pp 18) 511) tramp_pte.
Definition two_ram : mem :=
  st64 (st64 (st64 two_ktable (pp 6 + TF_a7) SYS_fork) (pp 6 + TF_kernel_satp) two_ksatp) (pp 6 + TF_kernel_trap) usertrap_addr.
Definition two_refs : gmap Z Z := list_to_map ((λ p, (pidx p, 1)) <$> two_used).
Definition two_proc : proc :=
  mkProc RUNNING None 0 0 1 None (KSTACK 0) 4096 (pp 0) (pp 6) (mkContext 0 0 (replicate 12 0))
    (replicate (Z.to_nat NOFILE) None) (Some 0%nat) (replicate 16 0).
Definition two_procs : list proc := two_proc :: replicate 63 proc0.
Definition two_csrs (cause : Z) : csrs := mkCsrs 0 256 cause 8 0 (MAKE_SATP (pp 0)) 0 0.

(** The machine traps for the reason [cause]. *)
Definition two0 (cause : Z) : kernel :=
  mkKernel two_ram (mkHarts ∅ [mkCpu (Some 0%nat) 0 0] (two_csrs cause)) (pp 7) two_refs two_procs 2 None 0 0 (fsys0 ∅) devs0.

Lemma two_cnt c pa :
  valid_page pa → cnt (two0 c) pa = owned two_used pa ∧ (cnt (two0 c) pa = 0 ↔ pa ∈ two_free).
Proof.
  rewrite pp_pages. unfold two_used, two_free, two_owned; cbn [app]. rewrite !elem_of_cons, elem_of_nil. intros H.
  repeat destruct H as [->|H]; try done;
    (split; [by vm_compute|]; apply (bool_decide_eq_true_1 _); by vm_compute).
Qed.

Lemma two_alloc c : alloc_inv PHYSTOP (two0 c) two_free.
Proof.
  split; try done.
  - split; [vm_compute; lia|by vm_compute|by vm_compute].
  - apply (bool_decide_eq_true_1 _). by vm_compute.
  - repeat constructor; by apply pp_valid.
  - intros pa [Hv _]. by apply two_cnt.
  - intros pa [Hv _]. destruct (two_cnt c pa Hv) as [-> _]. unfold owned. case_decide; lia.
Qed.

Lemma two0_minv c : minv (two0 c) ∅ (owned two_used).
Proof.
  split; try (intros; by rewrite lookup_empty in *).
  - eexists. exact (two_alloc c).
  - intros pa Hv. destruct (two_cnt c pa Hv) as [-> _]. unfold npt, refs. rewrite !msum_empty. lia.
  - intros pa. left. done.
Qed.

(** Its page table, as walk() and mappages() build it. *)
Definition low1 : pgtab := set_tab (1%nat, 512 * 0 + 0) (pp 1) (empty_pt (pp 0) UPN).
Definition low0 : pgtab := set_tab (0%nat, 512 * 0 + 0) (pp 2) low1.
Definition high1 : pgtab := set_tab (1%nat, 512 * 0 + 255) (pp 4) low0.
Definition high0 : pgtab := set_tab (0%nat, 512 * 255 + 511) (pp 5) high1.
Definition two_pt1 : pgtab := put_leaf 0 (Some (mkpte (pp 3) WRXU)) high0.
Definition two_pt2 : pgtab := put_leaf UPN (Some (tf_pte (pp 6))) two_pt1.
Definition two_pt : pgtab := put_leaf (UPN + 1) (Some tramp_pte) two_pt2.

Definition two1 (c : Z) : kernel := upd_ram (λ m, st64 m (entry (pp 0) 0) (mkpte (pp 1) PTE_V)) (two0 c).
Definition two2 (c : Z) : kernel := upd_ram (λ m, st64 m (entry (pp 1) 0) (mkpte (pp 2) PTE_V)) (two1 c).
Definition two3 (c : Z) : kernel := upd_ram (λ m, st64 m (entry (pp 0) 255) (mkpte (pp 4) PTE_V)) (two2 c).
Definition two4 (c : Z) : kernel := upd_ram (λ m, st64 m (entry (pp 4) 511) (mkpte (pp 5) PTE_V)) (two3 c).
Definition two5 (c : Z) : kernel := upd_ram (λ m, st64 m (entry (pp 2) (0 mod 512)) (mkpte (pp 3) WRXU)) (two4 c).
Definition two6 (c : Z) : kernel := upd_ram (λ m, st64 m (entry (pp 5) (UPN mod 512)) (tf_pte (pp 6))) (two5 c).
Definition two (c : Z) : kernel := upd_ram (λ m, st64 m (entry (pp 5) ((UPN + 1) mod 512)) tramp_pte) (two6 c).

Definition two_of (t : pgtab) : tables := {[ pp 0 := t ]}.

Lemma two_zero i y : i ∈ [0; 1; 2; 4; 5] → 0 ≤ y < 512 → ld64 two_ram (entry (pp i) y) = 0.
Proof.
  rewrite !elem_of_cons, elem_of_nil. intros Hi Hy. unfold two_ram, two_ktable, two_free, entry, pp, TF_a7, TF_kernel_satp, TF_kernel_trap. cbn [two_list].
  rewrite !ld64_st64_out by (Zconst; lia). by apply ld64_zero.
Qed.

Lemma two_root c : minv (two0 c) (two_of (empty_pt (pp 0) UPN)) (owned (pp 1 :: pp 2 :: pp 4 :: pp 5 :: pp 3 :: two_owned)).
Proof.
  unfold two_of. rewrite <-insert_empty.
  apply minv_new_table;
    [|by apply pp_valid|by vm_compute|by vm_compute|by vm_compute|by vm_compute|intros; apply two_zero; [set_solver|done]].
  eapply minv_ext; [|exact (two0_minv c)]. intros q. symmetry. apply owned_cons.
  apply (bool_decide_eq_true_1 _). by vm_compute.
Qed.

(** One more table. *)
Lemma two_tab k t l i x p q us :
  minv k (two_of t) (owned (q :: us)) → (l < 2)%nat → tabs t !! (S l, i) = Some p → 0 ≤ x < 512 →
  tabs t !! (l, 512 * i + x) = None → valid_page q → NoDup (q :: us) → npt (two_of t) q = 0 → refs (two_of t) q = 0 →
  (∀ y, 0 ≤ y < 512 → ld64 (ram k) (entry q y) = 0) →
  minv (upd_ram (λ m, st64 m (entry p x) (mkpte q PTE_V)) k) (two_of (set_tab (l, 512 * i + x) q t)) (owned us).
Proof.
  intros Hi Hl Hp Hx Hn Hv [Hq _]%NoDup_cons H1 H2 Hz.
  eapply minv_ext; [intros z; by apply (owned_drop q)|].
  replace (two_of (set_tab (l, 512 * i + x) q t)) with (<[pp 0 := set_tab (l, 512 * i + x) q t]> (two_of t))
    by (unfold two_of; apply insert_singleton_eq).
  eapply (minv_add_tab k (two_of t)); [exact Hi|apply lookup_singleton_eq|exact Hl|exact Hp|exact Hx|exact Hn|exact Hv| |exact H1|exact H2|exact Hz].
  unfold owned. rewrite decide_True by left. done.
Qed.

(** One more leaf. *)
Lemma two_leaf k t v e q E :
  minv k (two_of t) E → tabs t !! (O, v / 512) = Some q → 0 ≤ v → leaves t !! v = None →
  mapping_ok (two_of t) E (lim t) v e →
  minv (upd_ram (λ m, st64 m (entry q (v mod 512)) e) k) (two_of (put_leaf v (Some e) t)) (emap (lim t) v (PTE2PA e) E).
Proof.
  intros Hi Hq Hv Hn Hok.
  replace (two_of (put_leaf v (Some e) t)) with (<[pp 0 := put_leaf v (Some e) t]> (two_of t))
    by (unfold two_of; apply insert_singleton_eq).
  eapply (minv_new_leaf k (two_of t)); [exact Hi|apply lookup_singleton_eq|exact Hq|exact Hv|exact Hn|exact Hok].
Qed.

Lemma two_high k t v e q E :
  minv k (two_of t) E → tabs t !! (O, v / 512) = Some q → 0 ≤ v → leaves t !! v = None → leaf_ok (lim t) v e → lim t ≤ v →
  minv (upd_ram (λ m, st64 m (entry q (v mod 512)) e) k) (two_of (put_leaf v (Some e) t)) E.
Proof.
  intros Hi Hq Hv Hn Hok Hl. rewrite <-(emap_high (lim t) v (PTE2PA e) E) by done.
  apply two_leaf; try done. by apply mapping_ok_high.
Qed.

Ltac two_step := first [done | by apply pp_valid | by vm_compute | apply (bool_decide_eq_true_1 _); by vm_compute | lia].

(** A page that no store has touched. *)
Ltac two_blank :=
  let y := fresh "y" in let Hy := fresh "Hy" in intros y Hy;
  unfold two4, two3, two2, two1; cbn [ram upd_ram]; unfold entry at 1;
  rewrite ?ld64_st64_out by (unfold entry, pp; Zconst; lia); apply two_zero; [set_solver|exact Hy].

Lemma two_tables c : minv (two4 c) (two_of high0) (owned (pp 3 :: two_owned)).
Proof.
  assert (minv (two1 c) (two_of low1) (owned (pp 2 :: pp 4 :: pp 5 :: pp 3 :: two_owned))) as H1.
  { apply (two_tab (two0 c) (empty_pt (pp 0) UPN) 1 0 0 (pp 0) (pp 1) _ (two_root c)); [two_step..|two_blank]. }
  assert (minv (two2 c) (two_of low0) (owned (pp 4 :: pp 5 :: pp 3 :: two_owned))) as H2.
  { apply (two_tab (two1 c) low1 0 0 0 (pp 1) (pp 2) _ H1); [two_step..|two_blank]. }
  assert (minv (two3 c) (two_of high1) (owned (pp 5 :: pp 3 :: two_owned))) as H3.
  { apply (two_tab (two2 c) low0 1 0 255 (pp 0) (pp 4) _ H2); [two_step..|two_blank]. }
  apply (two_tab (two3 c) high1 0 255 511 (pp 4) (pp 5) _ H3); [two_step..|two_blank].
Qed.

Lemma two_user c : minv (two5 c) (two_of two_pt1) (owned two_owned).
Proof.
  assert (PTE2PA (mkpte (pp 3) WRXU) = pp 3) as Hpa by (by vm_compute).
  assert (minv (two4 c) (two_of high0) (eadd (owned two_owned) (pp 3) 1)) as Hlow.
  { eapply minv_ext; [|exact (two_tables c)]. intros q. symmetry. apply owned_cons. two_step. }
  eapply minv_ext; [|apply (two_leaf (two4 c) high0 0 (mkpte (pp 3) WRXU) (pp 2) _ Hlow)].
  - intros q. rewrite Hpa. unfold emap. rewrite decide_True by (by vm_compute).
    apply (eadd_back (owned two_owned) (pp 3) 1).
  - by vm_compute.
  - lia.
  - by vm_compute.
  - apply mapping_ok_fresh; [by apply pp_valid|by vm_compute..].
Qed.

Lemma two_minv c : minv (two c) (two_of two_pt) (owned two_owned).
Proof.
  assert (minv (two6 c) (two_of two_pt2) (owned two_owned)) as H1.
  { apply (two_high (two5 c) two_pt1 UPN _ (pp 5) _ (two_user c)); [by vm_compute|by vm_compute|by vm_compute|
      apply tf_leaf_ok; by apply pp_valid|apply Z.le_refl]. }
  apply (two_high (two6 c) two_pt2 (UPN + 1) _ (pp 5) _ H1); [by vm_compute|by vm_compute|by vm_compute|
    apply tramp_leaf_ok|by vm_compute].
Qed.

Lemma two_user_pt : user_pt two_pt (pp 6) 4096.
Proof.
  split; [done|by vm_compute|by vm_compute| |by vm_compute]. intros v. unfold two_pt, two_pt2, two_pt1.
  rewrite !put_leaf_lookup. change (npg 4096) with 1.
  repeat case_decide; subst; try (split; [intros _; lia|intros _; by eexists]).
  change (leaves high0 !! v) with ((∅ : gmap Z Z) !! v). rewrite lookup_empty. split; [by intros []|lia].
Qed.

Lemma two_slot i q : two_procs !! i = Some q → i = O ∧ q = two_proc ∨ i ≠ O ∧ q = proc0.
Proof. destruct i as [|i]; cbn [lookup list_lookup two_procs]; [intros [= <-]; by left|]. intros [-> _]%lookup_replicate_1. by right. Qed.

Lemma two_calm c : calm 0 (hs (two0 c)).
Proof. split; [split; [vm_compute; lia|by vm_compute|by vm_compute]|by vm_compute|intros lk; by split|by vm_compute]. Qed.

Lemma two_E : Eok (owned two_owned).
Proof. intros q. unfold owned. case_decide; lia. Qed.

(** Whatever the flags of the user's page. *)
Lemma two_run c k t :
  hs k = hs (two0 c) → procs k = two_procs → minv k (two_of t) (owned two_owned) → user_pt t (pp 6) 4096 →
  refs (two_of t) (pp 6) = 0 → task 0 (two_of t) (owned two_owned) two_proc k.
Proof.
  intros Hh Hp Hi Hu Hr. split; [|exact Hi| | |by rewrite Hp|discriminate].
  - rewrite Hh. apply two_calm.
  - apply two_E.
  - rewrite Hp. split.
    + by vm_compute.
    + intros i q [[-> ->]|[_ ->]]%two_slot Hs.
      { discriminate. }
      by split_and!.
    + intros i q [[-> ->]|[_ ->]]%two_slot Hs; [|by destruct Hs].
      split; [exists t; split; [apply lookup_singleton_eq|exact Hu]|apply (pp_valid 6); lia|by vm_compute|exact Hr].
    + intros i q [[-> ->]|[_ ->]]%two_slot; by split.
    + intros i j q q' [[-> ->]|[? ->]]%two_slot [[-> ->]|[? ->]]%two_slot Hij H1 H2;
        [by destruct Hij|by destruct H2|by destruct H1..].
Qed.

Lemma two_task c : task 0 (two_of two_pt) (owned two_owned) two_proc (two c).
Proof. apply (two_run c); [done|done|apply two_minv|apply two_user_pt|by vm_compute]. Qed.

(** The same process after a fork whose child is gone. *)
Definition two_leafc : Z := cow_pte (mkpte (pp 3) WRXU).
Definition two_cow : kernel := upd_ram (λ m, st64 m (entry (pp 2) (0 mod 512)) two_leafc) (two 15).
Definition two_ptc : pgtab := put_leaf 0 (Some two_leafc) two_pt.

Lemma two_cow_minv : minv two_cow (two_of two_ptc) (owned two_owned).
Proof.
  assert (two_of two_pt !! pp 0 = Some two_pt) as Hr by apply lookup_singleton_eq.
  assert (leaves two_pt !! 0 = Some (mkpte (pp 3) WRXU)) as He by (by vm_compute).
  pose proof (mi_leaf _ _ _ (two_minv 15) _ _ _ _ Hr He) as Hok.
  assert (0 < lim two_pt) as Hl by (by vm_compute).
  destruct (cow_pte_ok _ (lim two_pt) _ _ Hok Hl Hl) as (Hok' & Hnw & _).
  replace (two_of two_ptc) with (<[pp 0 := two_ptc]> (two_of two_pt)) by (unfold two_of; apply insert_singleton_eq).
  apply (minv_reflag (two 15) (two_of two_pt) (owned two_owned) (pp 0) two_pt 0 (mkpte (pp 3) WRXU) two_leafc (pp 2));
    [apply two_minv|exact Hr|by vm_compute|lia|exact He|by vm_compute|exact Hok'|].
  intros _ Hu Hw. by destruct Hnw.
Qed.

Lemma two_cow_task : task 0 (two_of two_ptc) (owned two_owned) two_proc two_cow.
Proof.
  apply (two_run 15); [done|done|apply two_cow_minv| |by vm_compute].
  destruct two_user_pt as [U1 U2 U3 U4 U5]. split; [done|done|done| |done]. intros v. rewrite <-U4. unfold two_ptc.
  rewrite put_leaf_lookup. case_decide; [subst|done]. split; intros _; by eexists.
Qed.

(** ** The theorems on it *)

Lemma fork_progress_witness :
  wp usertrap (two 8) (λ ret k', resumed (two_of two_pt) (owned two_owned) two_proc (u64 2) (two 8) ret k' ∧
    ∃ np c, procs k' !! np = Some c ∧ p_state c = RUNNABLE ∧ born 0 (two 8) two_proc c k').
Proof.
  apply (fork_progress 0 (two_of two_pt) (owned two_owned) two_proc (two 8) 0 1 proc0 two_free);
    [apply two_task|reflexivity|reflexivity|reflexivity|done|by vm_compute|reflexivity| |reflexivity|reflexivity|two_step| |].
  - intros i f [Hf _]%lookup_replicate_1. discriminate.
  - repeat constructor; [apply (pp_valid 7); lia|apply (pp_valid 8); lia|apply (pp_valid 9); lia|apply (pp_valid 10); lia
      |apply (pp_valid 11); lia|apply (pp_valid 12); lia|apply (pp_valid 13); lia|apply (pp_valid 14); lia|apply (pp_valid 15); lia].
  - by vm_compute.
Defined.
