(* ===== verification/UserMode.v ===== *)
(** * Traps as user code sees them

    The whole way of a trap from user mode: uservec of trampoline.S, usertrap()
    of trap.c with what it calls, usertrapret(), and userret of trampoline.S.
    The page table of the process is walked the way the hardware does it, so
    that the theorems say what the user's registers, program counter and memory
    are when the process runs again. *)

From stdpp Require Import functions gmap list strings.
From Stdlib Require Import ZArith Lia.
From S2P Require Import Prelude Mem Str Params Asm AsmSpec FsData DevData Machine Spinlock Sched Sleeplock Bio Log FsTxn.
From S2P Require Import Kalloc Vm Fs Pipe File Proc Syscall Exec SysFile Trap PageTable VmWalk VmMap VmSpace VmFree Cow UserView UserCopy.
From S2P Require Import VmDemo VmTheorems ProcSpec ProcFork ProcTrap ProcTheorems.
#[local] Open Scope Z_scope.
Ltac wp_prim ::= wp_proc.

Section user_mode.
Context `{OTH : Others, LNK : !Linker, LOK : !LinkerOk, KOB : !Kobj, TXT : !Text, DEV : !Devices}.
Implicit Types (k : kernel) (T : tables) (E : Z → Z) (R : regs).

(** ** The trap path *)

(** The registers of the core; those that the kernel does not use after boot
    are left out.  [ssc] is what sscratch holds. *)
Definition csr_of (c : csrs) (ssc : Z) (x : Csr.t) : Z :=
  match x with
  | Csr.satp => satp c
  | Csr.sscratch => ssc
  | Csr.sstatus => sstatus c
  | Csr.sepc => sepc c
  | Csr.stvec => stvec c
  | Csr.sip => sip c
  | _ => 0
  end.
Definition core_of k R (ssc pc : Z) : core := mkCore R (csr_of (csr (hs k)) ssc) (ram k) Supervisor pc.

(** uservec, up to its jump to usertrap().  The hardware starts at the address in
    stvec, which usertrapret() has set to that of uservec; that it has is shown
    with usertrapret() and not looked at again here.  sscratch holds TRAPFRAME, as
    userret has left it. *)
Definition enter_kernel R : K unit := λ k,
  match run from_trampoline uservec (core_of k R TRAPFRAME (stvec (csr (hs k)))) with
  | Some s =>
      if h_pc s =? usertrap_addr then
        Ok tt (upd_hs (upd_csr (λ c, mkCsrs (sstatus c) (sepc c) (scause c) (stval c) (stvec c) (h_csr s Csr.satp) (sip c)
          (h_reg s Reg.tp))) (upd_ram (λ _, h_mem s) k))
      else Panic "jump" k
  | None => Panic "trap" k
  end.

(** The jump of usertrapret() to userret, with whatever the compiler has left in
    the other registers.  While the user runs, the field [tp] still says which
    hart it is; the user's own tp is in the registers of the core. *)
Definition leave_kernel (junk : regs) (ssc : Z) (ret : Z * Z * Z) : K core := λ k,
  let '(fn, a0, a1) := ret in
  if fn =? u64 (TRAMPOLINE + (userret_addr - trampoline)) then
    match run from_trampoline userret (core_of k (<[Reg.a1 := a1]> (<[Reg.a0 := a0]> junk)) ssc fn) with
    | Some s =>
        Ok s (upd_hs (upd_csr (λ c, mkCsrs (h_csr s Csr.sstatus) (sepc c) (scause c) (stval c) (stvec c) (h_csr s Csr.satp)
          (sip c) (tp c))) k)
    | None => Panic "trap" k
    end
  else Panic "jump" k.

(** A trap in user mode with the registers [R]. *)
Definition user_trap (junk R : regs) : K core :=
  enter_kernel R;;
  ret ← usertrap;
  leave_kernel junk (R Reg.a0) ret.

(** ** Translation with the page tables of the kernel *)

Lemma satp_root r : aligned r → 0 ≤ r < 2 ^ 44 → Z.shiftr (MAKE_SATP r) 60 = 8 ∧ Z.land (MAKE_SATP r) (2 ^ 44 - 1) * PGSIZE = r.
Proof.
  intros Hal Hr. unfold MAKE_SATP, SATP_SV39, aligned in *.
  assert (Z.shiftr r 12 = r / PGSIZE) as E1 by (by rewrite Z.shiftr_div_pow2).
  assert (0 ≤ r / PGSIZE < 2 ^ 32) as Hd.
  { split; [apply Z.div_pos; Zconst; lia|]. apply Z.div_lt_upper_bound; Zconst; lia. }
  assert (Z.lor (Z.shiftl 8 60) (Z.shiftr r 12) = 2 ^ 63 + r / PGSIZE) as ->.
  { rewrite E1. change (Z.shiftl 8 60) with (1 * 2 ^ 63). rewrite lor_pow2; lia. }
  split.
  - rewrite Z.shiftr_div_pow2 by lia. replace (2 ^ 63 + r / PGSIZE) with (r / PGSIZE + 8 * 2 ^ 60) by lia.
    rewrite Z.div_add, Z.div_small by lia. lia.
  - change (2 ^ 44 - 1) with (Z.ones 44). rewrite Z.land_ones by lia.
    replace (2 ^ 63 + r / PGSIZE) with (r / PGSIZE + 2 ^ 19 * 2 ^ 44) by lia.
    rewrite Z.mod_add, Z.mod_small by lia. pose proof (Z.div_mod r PGSIZE). unfold PGSIZE in *. lia.
Qed.

(** The hardware finds the leaf that the abstract table has. *)
Lemma sv39_leaf l m root t va p e :
  pt_wf root t → pt_mem m t → (∀ pos q, tabs t !! pos = Some q → valid_page q) → (l ≤ 2)%nat →
  tabs t !! (l, vkey (S l) va) = Some p → leaves t !! vpn va = Some e → has e PTE_V = true → has e PTE_RX = true →
  sv39 l m p va = Some e.
Proof.
  intros Hwf Hm Hv. revert p. induction l as [|l IH]; intros p Hl Hp He HV HX;
    [pose proof (Hm _ _ _ _ Hp (PX_range 0 va)) as Hld|pose proof (Hm _ _ _ _ Hp (PX_range (S l) va)) as Hld];
    unfold entry in Hld; cbn [sv39]; rewrite Hld; cbn [word_at]; rewrite vkey_split; change bit with has.
  - rewrite vkey_0, He. simpl default. rewrite HV. cbn [negb].
    assert (has e PTE_R || has e PTE_X = true) as ->; [|done].
    apply not_false_iff_true. intros [H1 H2]%orb_false_iff. unfold has, PTE_RX in *. rewrite Z.land_lor_distr_r in HX.
    unfold nz in *. apply negb_false_iff, Z.eqb_eq in H1, H2. by rewrite H1, H2 in HX.
  - destruct (tabs t !! (l, vkey (S l) va)) as [q|] eqn:Hq.
    2:{ exfalso. assert (tabs t !! (O, vkey 1 va) = None) as Hn by (apply (tab_none_below root t l va); [done|lia|done]).
        pose proof (leaf_none_child root t (vkey 1 va) (PX (Z.of_nat 0) va) Hwf (PX_range 0 va) Hn) as Hx.
        rewrite (vkey_split 0), vkey_0 in Hx. congruence. }
    cbn [pte_of]. pose proof (Hv _ _ Hq) as Hvq. rewrite !has_mkpte by done. cbn. rewrite valid_mkpte_pa by done.
    apply IH; try done. lia.
Qed.

(** A virtual address [va] that the process has mapped by [e]. *)
Lemma translate_leaf k T E r t m a va e :
  minv k T E → T !! r = Some t → pt_mem m t → 0 ≤ va < MAXVA → leaves t !! vpn va = Some e →
  permitted a Supervisor e = true →
  translate a Supervisor (MAKE_SATP r) m va = Some (PTE2PA e + va mod PGSIZE).
Proof.
  intros Hi Hr Hm Hva He Hp. pose proof (mi_wf _ _ _ Hi _ _ Hr) as Hwf.
  pose proof (mi_tabs _ _ _ Hi _ _ _ _ Hr (wf_root _ _ Hwf)) as [Hal Hrng]. pose proof kend_range.
  destruct (satp_root r Hal) as [S1 S2]; [Zconst; lia|]. cbn [translate]. rewrite S1, S2. cbn [Z.eqb andb].
  change (8 =? 0) with false. cbv iota. destruct (Z.leb_spec 0 va); [|lia]. destruct (Z.ltb_spec va MAXVA); [|lia].
  pose proof (mi_leaf _ _ _ Hi _ _ _ _ Hr He) as Hok. cbn [andb].
  rewrite (sv39_leaf 2 m r t va r e); try done.
  - cbn [mbind option_bind]. by rewrite Hp.
  - intros. by eapply mi_tabs.
  - rewrite vkey_top by done. apply Hwf.
  - apply Hok.
  - apply Hok.
Qed.

(** Stores to the trapframe do not touch page tables. *)
Lemma pt_mem_same_out k T E r t tf m :
  minv k T E → T !! r = Some t → valid_page tf → npt T tf = 0 → same_out tf PGSIZE (ram k) m → pt_mem m t.
Proof.
  intros Hi Hr [Hal _] Hn Ho l i p x Hp Hx. rewrite <-(mi_mem _ _ _ Hi _ _ Hr l i p x Hp Hx). apply ld64_ext. intros b Hb.
  apply Ho. intros Hin. pose proof (mi_tabs _ _ _ Hi _ _ _ _ Hr Hp) as [Hpa _].
  assert (page b = tf) as H1 by (replace b with (tf + (b - tf)) by lia; apply page_offset; [done|lia]).
  assert (page b = p) as H2 by (unfold entry in Hb; replace b with (p + (b - p)) by lia; apply page_offset; [done|Zconst; lia]).
  pose proof (minv_tab_npt _ _ _ _ _ _ _ Hi Hr Hp). congruence.
Qed.

Lemma tf_not_table k T E pq : minv k T E → pspace T E pq → npt T (p_trapframe pq) = 0.
Proof. intros Hi [_ _ H1 _]. destruct (mi_pt _ _ _ Hi (p_trapframe pq)) as [|(_ & _ & ?)]; [done|lia]. Qed.

(** The page table of a process maps its trapframe and the trampoline. *)
Lemma user_window k T E pq :
  minv k T E → pspace T E pq → window Supervisor (MAKE_SATP (p_pagetable pq)) (ram k) TRAPFRAME (p_trapframe pq) PGSIZE.
Proof.
  intros Hi Hs m a o Ho Ha H0 H1. pose proof (tf_not_table _ _ _ _ Hi Hs) as Hn. destruct Hs as [(t & Ht & Hu) Hv _ _].
  rewrite u64_small by (Zconst; lia).
  assert (vpn (TRAPFRAME + o) = UPN) as Ev.
  { unfold vpn. change TRAPFRAME with (UPN * PGSIZE). rewrite Z.div_add_l, Z.div_small by (Zconst; lia). lia. }
  rewrite (translate_leaf k T E (p_pagetable pq) t m a (TRAPFRAME + o) (tf_pte (p_trapframe pq))); try done.
  - f_equal. unfold tf_pte. rewrite valid_mkpte_pa by done. f_equal. change TRAPFRAME with (UPN * PGSIZE).
    rewrite Z.add_comm, Z.mod_add, Z.mod_small by (Zconst; lia). done.
  - by eapply pt_mem_same_out.
  - Zconst. lia.
  - rewrite Ev. apply Hu.
  - unfold permitted, tf_pte. change bit with has. by destruct a; rewrite ?has_mkpte.
Qed.

Lemma user_tramp k T E pq :
  minv k T E → pspace T E pq → tramp_mapped (MAKE_SATP (p_pagetable pq)) (ram k) (p_trapframe pq).
Proof.
  intros Hi Hs m Ho. pose proof (tf_not_table _ _ _ _ Hi Hs) as Hn. destruct Hs as [(t & Ht & Hu) Hv _ _].
  destruct trampoline_ok as [Hal Hp].
  rewrite (translate_leaf k T E (p_pagetable pq) t m Fetch TRAMPOLINE tramp_pte); try done.
  - f_equal. unfold tramp_pte. rewrite PTE2PA_mkpte by done. change (TRAMPOLINE mod PGSIZE) with 0. lia.
  - by eapply pt_mem_same_out.
  - rewrite vpn_tramp. apply Hu.
  - unfold permitted, tramp_pte. change bit with has. by rewrite (has_flags _ PTE_X), (has_flags _ PTE_U), PTE_FLAGS_mkpte by done.
Qed.

(** ** Running in user mode *)

(** The kernel's page table is in the pages [P] and maps the trampoline. *)
Definition kernel_maps (P : Z → Prop) (ksatp : Z) (m : mem) : Prop :=
  ∀ m', (∀ b, P (page b) → ldb m' b = ldb m b) → translate Fetch Supervisor ksatp m' TRAMPOLINE = Some trampoline.

(** No page of [P] belongs to the memory of a process. *)
Definition kernel_own (P : Z → Prop) E (ps : list proc) : Prop :=
  ∀ q, P q → E q = 1 ∧ ∀ i p, ps !! i = Some p → p_state p ≠ UNUSED → q ≠ p_trapframe p.

(** Process [me] runs in user mode, or has just trapped: the page table is its
    own, and its trapframe leads into the kernel. *)
Record in_user (me : nat) T E (pq : proc) (P : Z → Prop) (ksatp : Z) k : Prop := {
  iu_task : task me T E pq k;
  iu_satp : satp (csr (hs k)) = MAKE_SATP (p_pagetable pq);
  iu_spp : Z.land (sstatus (csr (hs k))) SSTATUS_SPP = 0;
  iu_words : ld64 (ram k) (p_trapframe pq) = ksatp ∧ ld64 (ram k) (p_trapframe pq + 16) = usertrap_addr ∧
             ld64 (ram k) (p_trapframe pq + 32) = tp (csr (hs k));
  iu_kmap : kernel_maps P ksatp (ram k);
  iu_own : kernel_own P E (procs k);
}.

Lemma page_in_tf tf b : aligned tf → tf ≤ b < tf + PGSIZE → page b = tf.
Proof. intros Hal Hb. replace b with (tf + (b - tf)) by lia. apply page_offset; [done|lia]. Qed.

Lemma same_out_pages tf m m' : aligned tf → same_out tf PGSIZE m m' ↔ only_pages (λ q, q = tf) m m'.
Proof.
  intros Hal. split.
  - intros H a Ha. apply H. intros Hin. by apply Ha, page_in_tf.
  - intros H a Ha. apply H. intros <-. pose proof (page_range a). lia.
Qed.

Lemma kernel_tramp P ksatp m tf : aligned tf → ¬ P tf → kernel_maps P ksatp m → tramp_mapped ksatp m tf.
Proof.
  intros Hal HP Hk m' Ho. apply Hk. intros b Hb. apply Ho. intros Hin. apply HP. by rewrite <-(page_in_tf tf b).
Qed.

Lemma kernel_maps_keep P ksatp m m' (Q : Z → Prop) :
  only_pages Q m m' → (∀ q, P q → ¬ Q q) → kernel_maps P ksatp m → kernel_maps P ksatp m'.
Proof. intros Ho Hd Hk m2 H2. apply Hk. intros b Hb. rewrite H2 by done. apply Ho. by apply Hd. Qed.

(** uservec: the process is in the kernel and its registers are in its
    trapframe. *)
Record trapped me T E pq (ksatp : Z) R k k1 : Prop := {
  tr_task : task me T E pq k1;
  tr_frame : tframe k k1;
  tr_krefs : krefs k1 = krefs k;
  tr_regs : tf_regs (ram k1) (p_trapframe pq) R;
  tr_ram : only_pages (λ q, q = p_trapframe pq) (ram k) (ram k1);
  tr_views : ∀ r va, views T (ram k1) r va = views T (ram k) r va;
  tr_csr : csr (hs k1) = let c := csr (hs k) in
    mkCsrs (sstatus c) (sepc c) (scause c) (stval c) (stvec c) ksatp (sip c) (tp c);
}.

Lemma enter_spec me T E pq P ksatp R k :
  in_user me T E pq P ksatp k → (∀ r, 0 ≤ R r < 2 ^ 64) → wp (enter_kernel R) k (λ _ k1, trapped me T E pq ksatp R k k1).
Proof.
  intros [Hk Hsatp Hspp (W1 & W2 & W3) Hkm Hown] HR. pose proof (task_space _ _ _ _ _ Hk) as Hsp.
  pose proof Hsp as [_ [Hal _] HE1 Hr0]. pose proof (tk_minv _ _ _ _ _ Hk) as Hi.
  assert (¬ P (p_trapframe pq)) as HP.
  { intros HP. destruct (Hown _ HP) as [_ Hne]. by eapply (Hne me pq); [apply Hk|apply Hk|]. }
  destruct (uservec_spec (core_of k R TRAPFRAME (stvec (csr (hs k)))) (p_trapframe pq)) as (s & Hrun & Hke);
    [done|done|done|cbn; rewrite Hsatp; by eapply user_window|cbn; rewrite Hsatp; by eapply user_tramp|cbn; rewrite W1; by eapply kernel_tramp|].
  unfold wp, enter_kernel. rewrite Hrun. destruct Hke as [K1 K2 K3 K4 K5 K6 K7 K8 K9].
  cbn [core_of h_mem] in *. rewrite K4, W2, Z.eqb_refl.
  apply same_out_pages in K8; [|done].
  destruct (own_write k T E (p_trapframe pq) (λ _, h_mem s)) as [Hi1 Hv1]; [done|apply Hsp|done|done|done|].
  assert (tp (csr (hs k)) = h_reg s Reg.tp) as Etp by congruence.
  set (f := λ c, mkCsrs _ _ _ _ _ _ _ _).
  assert (upd_csr f (hs k) = upd_csr (λ c, mkCsrs (sstatus c) (sepc c) (scause c) (stval c) (stvec c) ksatp (sip c) (tp c)) (hs k)) as Ef.
  { unfold upd_csr, f. f_equal. f_equal; congruence. }
  split; try done.
  - apply (task_hs _ _ _ _ (upd_csr f (hs k)) (upd_ram (λ _, h_mem s) k)).
    + rewrite Ef. apply calm_csr; [done|apply Hk].
    + destruct Hk; by split.
  - change (csr (upd_csr f (hs k)) = csr (upd_csr (λ c, mkCsrs (sstatus c) (sepc c) (scause c) (stval c) (stvec c) ksatp (sip c) (tp c)) (hs k))).
    by rewrite Ef.
Qed.

Lemma sret_spp x : Z.land (sret_status x) SSTATUS_SPP = 0.
Proof.
  apply Z.bits_inj'. intros n Hn. unfold sret_status. rewrite Z.land_spec, !Z.lor_spec, Z.land_spec, Z.lnot_spec, Z.lor_spec, Z.bits_0 by done.
  destruct (decide (n = 8)) as [->|Hne].
  - change (Z.testbit SSTATUS_SPP 8) with true. change (Z.testbit SSTATUS_SPIE 8) with false.
    assert (Z.testbit (if bit x SSTATUS_SPIE then SSTATUS_SIE else 0) 8 = false) as -> by (by destruct (bit x SSTATUS_SPIE)).
    by rewrite !andb_false_r.
  - replace (Z.testbit SSTATUS_SPP n) with false; [apply andb_false_r|]. symmetry. change SSTATUS_SPP with (2 ^ 8).
    apply Z.pow2_bits_false. lia.
Qed.

(** What usertrapret() has left in the trapframe. *)
Lemma armed_words pq c k :
  armed pq c k → 0 ≤ satp c < 2 ^ 64 → 0 ≤ tp c < 2 ^ 64 → 0 ≤ usertrap_addr < 2 ^ 64 →
  ld64 (ram k) (p_trapframe pq) = satp c ∧ ld64 (ram k) (p_trapframe pq + 16) = usertrap_addr ∧
  ld64 (ram k) (p_trapframe pq + 32) = tp c.
Proof.
  intros [(m & k0 & -> & E1 & E2) _ _] H1 H2 H3. unfold trap_regs, TF_kernel_satp, TF_kernel_sp, TF_kernel_trap, TF_kernel_hartid.
  rewrite Z.add_0_r, E1, E2. split_and!.
  - rewrite !ld64_st64_out by lia. by apply ld64_st64.
  - rewrite ld64_st64_out by lia. by apply ld64_st64.
  - by apply ld64_st64.
Qed.

Lemma leave_spec me T E pq P c R junk ssc k :
  task me T E pq k → armed pq c k → 0 ≤ satp c < 2 ^ 64 → 0 ≤ tp c < 2 ^ 64 → 0 ≤ usertrap_addr < 2 ^ 64 →
  tf_regs (ram k) (p_trapframe pq) R → kernel_maps P (satp c) (ram k) → kernel_own P E (procs k) →
  wp (leave_kernel junk ssc (to_user pq)) k (λ s k',
    (∀ r, r ≠ Reg.zero → h_reg s r = R r) ∧ h_pc s = sepc (csr (hs k)) ∧ h_mode s = User ∧
    in_user me T E pq P (satp c) k' ∧ tframe k k' ∧ ram k' = ram k ∧ krefs k' = krefs k).
Proof.
  intros Hk Ha H1 H2 H3 HR Hkm Hown. pose proof (task_space _ _ _ _ _ Hk) as Hsp.
  pose proof Hsp as [_ [Hal _] _ _]. pose proof (tk_minv _ _ _ _ _ Hk) as Hi.
  destruct (armed_words _ _ _ Ha H1 H2 H3) as (W1 & W2 & W3). destruct Ha as [_ [A1 A2] A3].
  assert (¬ P (p_trapframe pq)) as HP.
  { intros HP. destruct (Hown _ HP) as [_ Hne]. by eapply (Hne me pq); [apply Hk|apply Hk|]. }
  set (fn := u64 (TRAMPOLINE + (userret_addr - trampoline))).
  set (s0 := core_of k (<[Reg.a1 := MAKE_SATP (p_pagetable pq)]> (<[Reg.a0 := TRAPFRAME]> junk)) ssc fn).
  destruct (userret_spec s0 (p_trapframe pq) (MAKE_SATP (p_pagetable pq)) R) as (s & Hrun & [U1 U2 U3 U4 U5 U6 U7 U8]);
    [done|done|done|done|cbn; rewrite A1; by eapply kernel_tramp|by eapply user_tramp|by eapply user_window|].
  unfold wp, leave_kernel, to_user. fold fn. rewrite Z.eqb_refl. fold s0. rewrite Hrun. split_and!; try done.
  - rewrite U3. unfold SPP_mode, bit. cbn [h_csr s0 core_of csr_of]. by rewrite A3.
  - split; try done.
    + by apply task_csr.
    + cbn. rewrite U4. apply sret_spp.
    + cbn. by rewrite A2.
Qed.

(** The registers in the trapframe, and the words that the C code keeps. *)
Lemma layout_ureg r o : (r, o) ∈ tf_layout → ureg o ∧ o ≠ TF_a0.
Proof.
  assert (Forall (λ x : Reg.t * Z, (40 ≤ x.2 ∧ x.2 + 8 ≤ TRAPFRAME_SIZE ∧ x.2 mod 8 = 0) ∧ x.2 ≠ TF_a0) tf_layout) as Hl by by_table.
  rewrite Forall_forall in Hl. intros Hx. apply (Hl _ Hx).
Qed.

Lemma tf_regs_step m m' tf tf' R v :
  tf_regs m tf R → (∀ x, ureg x → ld64 m' (tf' + x) = if decide (x = TF_a0) then v else ld64 m (tf + x)) →
  tf_regs m' tf' (<[Reg.a0 := v]> R).
Proof.
  intros [H0 H1] Hx. split.
  - change 112 with TF_a0. by rewrite Hx, decide_True, fn_lookup_insert by done.
  - intros r o Hr. destruct (layout_ureg r o Hr) as [Hu Hne]. rewrite Hx, decide_False, (H1 r o) by done.
    rewrite fn_lookup_insert_ne; [done|]. intros <-. apply (list_elem_of_fmap_2 fst) in Hr. revert Hr. by_table.
Qed.

Lemma tf_regs_same m m' tf R :
  tf_regs m tf R → (∀ x, ureg x → ld64 m' (tf + x) = ld64 m (tf + x)) → tf_regs m' tf R.
Proof.
  intros [H0 H1] Hx. split.
  - change 112 with TF_a0. by rewrite Hx.
  - intros r o Hr. destruct (layout_ureg r o Hr) as [Hu _]. by rewrite Hx, (H1 r o).
Qed.

(** The kernel's page table after a trap. *)
Lemma kernel_maps_trap me T E pq P ksatp k k1 m :
  in_user me T E pq P ksatp k → only_pages (λ q, q = p_trapframe pq) (ram k) (ram k1) →
  only_pages (trap_pages T E pq) (ram k1) m → kernel_maps P ksatp m.
Proof.
  intros [Hk _ _ _ Hkm Hown] H1 H2.
  assert (∀ q, P q → q ≠ p_trapframe pq) as HP.
  { intros q Hq. destruct (Hown _ Hq) as [_ Hne]. by eapply (Hne me pq); [apply Hk|apply Hk]. }
  eapply (kernel_maps_keep P ksatp (ram k1)); [exact H2| |by eapply kernel_maps_keep].
  intros q Hq [->|(_ & _ & H0)]; [by apply (HP _ Hq)|]. destruct (Hown _ Hq). lia.
Qed.

(** *** A store to a copy-on-write page *)

(** C2. A user program does not notice a store to a page that it shares since a
    fork: the trap goes through the trampoline, usertrap() and back, and the
    program goes on at the same instruction in user mode with every register as
    it was.  Every process sees the memory it saw before, and the page now
    belongs to this process alone, which may write it. *)
Theorem user_cow_correct me T E pq P ksatp k R junk t e :
  in_user me T E pq P ksatp k → scause (csr (hs k)) = 15 → p_killed pq = 0 → 0 ≤ sepc (csr (hs k)) < 2 ^ 64 →
  (∀ r, 0 ≤ R r < 2 ^ 64) → T !! p_pagetable pq = Some t → 0 ≤ stval (csr (hs k)) < MAXVA →
  leaves t !! vpn (stval (csr (hs k))) = Some e → is_cow e = true → free_page k →
  wp (user_trap junk R) k (λ s k',
    h_mode s = User ∧ h_pc s = sepc (csr (hs k)) ∧ (∀ r, r ≠ Reg.zero → h_reg s r = R r) ∧
    ∃ T', in_user me T' E pq P ksatp k' ∧ tframe k k' ∧ same_views T (ram k) T' (ram k') ∧
      owns k' T' (p_pagetable pq) (vpn (stval (csr (hs k))))).
Proof.
  intros Hin Hsc Hkill Hpc HR Ht Hva He Hcow Hfree. unfold user_trap. apply wp_bind.
  eapply wp_mono; [by eapply enter_spec|]. intros [] k1 [E1 E2 E3 E4 E5 E6 E7].
  assert (satp (csr (hs k1)) = ksatp ∧ tp (csr (hs k1)) = tp (csr (hs k)) ∧ scause (csr (hs k1)) = scause (csr (hs k)) ∧
    stval (csr (hs k1)) = stval (csr (hs k)) ∧ sepc (csr (hs k1)) = sepc (csr (hs k)) ∧
    sstatus (csr (hs k1)) = sstatus (csr (hs k))) as (C1 & C2 & C3 & C4 & C5 & C6) by (by rewrite E7).
  destruct (iu_words _ _ _ _ _ _ _ Hin) as (W1 & W2 & W3). apply wp_bind.
  eapply wp_mono; [eapply (usertrap_store_spec me T E pq k1 t e); rewrite ?C3, ?C4, ?C5, ?C6; try done; [apply Hin|]|].
  { destruct Hfree as (pa & Hv & Hc). exists pa. split; [done|]. unfold cnt in *. by rewrite E3. }
  intros ret k2 (-> & T' & R2 & R3 & R4 & R5 & R6 & R7 & R8 & R9). rewrite C4 in *. rewrite C5 in *.
  eapply wp_mono; [eapply (leave_spec me T' E pq P (csr (hs k1)) R); try done|].
  - rewrite C1, <-W1. apply ld64_range.
  - rewrite C2, <-W3. apply ld64_range.
  - rewrite <-W2. apply ld64_range.
  - by eapply tf_regs_same.
  - rewrite C1. by eapply kernel_maps_trap.
  - rewrite (tf_procs _ _ R3), (tf_procs _ _ E2). apply Hin.
  - intros s k3 (L1 & L2 & L3 & L4 & L5 & L6 & L7). rewrite C1 in L4. split_and!; [done|congruence|done|].
    exists T'. split_and!; [done|by etrans; [|etrans]| |].
    + intros r va. by rewrite L6, R4, E6.
    + destruct R5 as (t' & e' & O1 & O2 & O3 & O4 & O5 & O6). exists t', e'. split_and!; try done. unfold cnt in *. by rewrite L7.
Qed.

(** *** fork() *)

(** When the process is scheduled it continues at [pc] with the registers [R]. *)
Record parked (c : proc) R (pc : Z) k : Prop := {
  pk_state : p_state c = RUNNABLE;
  pk_regs : tf_regs (ram k) (p_trapframe c) R;
  pk_pc : reg k c TF_epc = pc;
}.

(** The child shares everything with its parent but its address space. *)
Definition child_of (me : nat) (pid : Z) (pq c : proc) : Prop :=
  p_pid c = pid ∧ p_parent c = Some me ∧ p_sz c = p_sz pq ∧ p_ofile c = p_ofile pq ∧ p_cwd c = p_cwd pq.

Lemma kernel_own_same P E ps ps' : used_same ps ps' → kernel_own P E ps → kernel_own P E ps'.
Proof.
  intros [Hl Hs] Ho q Hq. destruct (Ho q Hq) as [H1 H2]. split; [done|]. intros i p Hp Hu.
  destruct (lookup_lt_is_Some_2 ps i) as [x Hx]; [rewrite <-Hl; by eapply lookup_lt_Some|].
  destruct (Hs i x p Hx Hp) as [S1 S2]. destruct (decide (p_state x = UNUSED)) as [Hxu|Hxu]; [by destruct Hu; apply S2|].
  rewrite (S1 Hxu). by apply (H2 i).
Qed.

Lemma kernel_own_child P E ps np c :
  Eok (eadd E (p_trapframe c) 1) → kernel_own P E ps → kernel_own P (eadd E (p_trapframe c) 1) (<[np := c]> ps).
Proof.
  intros HE Ho q Hq. destruct (Ho q Hq) as [H1 H2].
  assert (p_trapframe c ≠ q) as Hne.
  { intros <-. specialize (HE (p_trapframe c)). unfold eadd in HE. rewrite decide_True in HE by done. lia. }
  split; [unfold eadd; by rewrite decide_False|]. intros i p [(<- & <- & _)|[_ Hp]]%list_lookup_insert_Some Hu; [congruence|].
  by apply (H2 i).
Qed.

(** The state after uservec, usertrap() and userret, when the trapframe got the
    result [v]. *)
Lemma back_in_user me T E T' E' pq P ksatp k k1 k2 R v junk ssc ret :
  in_user me T E pq P ksatp k → trapped me T E pq ksatp R k k1 → resumed T E pq v k1 ret k2 →
  task me T' E' pq k2 → kernel_own P E' (procs k2) →
  wp (leave_kernel junk ssc ret) k2 (λ s k',
    h_mode s = User ∧ h_pc s = u64 (sepc (csr (hs k)) + 4) ∧ (∀ r, r ≠ Reg.zero → h_reg s r = <[Reg.a0 := v]> R r) ∧
    in_user me T' E' pq P ksatp k' ∧ tframe k2 k' ∧ ram k' = ram k2).
Proof.
  intros Hin [E1 E2 E3 E4 E5 E6 E7] [-> R2 R3 R4 R5] Ht Ho.
  destruct (iu_words _ _ _ _ _ _ _ Hin) as (W1 & W2 & W3).
  assert (satp (csr (hs k1)) = ksatp ∧ tp (csr (hs k1)) = tp (csr (hs k)) ∧ sepc (csr (hs k1)) = sepc (csr (hs k)))
    as (C1 & C2 & C3) by (by rewrite E7).
  eapply wp_mono; [eapply (leave_spec me T' E' pq P (csr (hs k1)) (<[Reg.a0 := v]> R)); try done|].
  - rewrite C1, <-W1. apply ld64_range.
  - rewrite C2, <-W3. apply ld64_range.
  - rewrite <-W2. apply ld64_range.
  - by eapply tf_regs_step.
  - rewrite C1. by eapply kernel_maps_trap.
  - intros s k3 (L1 & L2 & L3 & L4 & L5 & L6 & L7). rewrite C1 in L4. rewrite R2, C3 in L2. by split_and!.
Qed.

Lemma born_parked me T E pq ksatp R k k1 c k2 :
  trapped me T E pq ksatp R k k1 → born me k1 pq c k2 →
  parked c (<[Reg.a0 := 0]> R) (u64 (sepc (csr (hs k)) + 4)) k2 ∧ child_of me (nextpid k) pq c.
Proof.
  intros [E1 E2 E3 E4 E5 E6 E7] [B1 B2 B3 B4 B5 B6 B7 B8 B9]. split; [split|].
  - done.
  - eapply tf_regs_step; [exact E4|]. intros x Hx. case_decide as Hd; [by subst x|]. by apply B9.
  - rewrite B8, E7. done.
  - by rewrite <-(tf_nextpid _ _ E2).
Qed.

(** C1. fork() as a user program sees it, from the ecall to the next instruction.
    The parent is in user mode behind the ecall with all its registers, and the
    result in a0.  If that is -1, there was no unused slot or not enough memory,
    and nothing has changed for any process.  Otherwise it is the pid of a new
    process, which continues, when it is scheduled, at the same instruction with
    the same registers but 0 in a0, and which sees the memory that the parent
    had; all other processes see the memory they saw before. *)
Theorem user_fork_correct me T E pq P ksatp k R junk cwd :
  in_user me T E pq P ksatp k → scause (csr (hs k)) = 8 → p_killed pq = 0 → 0 ≤ sepc (csr (hs k)) < 2 ^ 64 →
  (∀ r, 0 ≤ R r < 2 ^ 64) → s32 (R Reg.a7) = SYS_fork → p_cwd pq = Some cwd →
  (∀ i f, p_ofile pq !! i = Some (Some f) → 1 ≤ f_ref (file_of (fs k) f)) →
  wp (user_trap junk R) k (λ s k',
    h_mode s = User ∧ h_pc s = u64 (sepc (csr (hs k)) + 4) ∧
    ((∀ r, r ≠ Reg.zero → h_reg s r = <[Reg.a0 := u64 (-1)]> R r) ∧ fork_lacks k pq ∧
     (∃ T', in_user me T' E pq P ksatp k' ∧ used_same (procs k) (procs k') ∧ same_views T (ram k) T' (ram k')) ∨
     (∀ r, r ≠ Reg.zero → h_reg s r = <[Reg.a0 := u64 (nextpid k)]> R r) ∧
     ∃ np q c T', in_user me T' (eadd E (p_trapframe c) 1) pq P ksatp k' ∧
       procs k !! np = Some q ∧ p_state q = UNUSED ∧ procs k' = <[np := c]> (procs k) ∧
       child_of me (nextpid k) pq c ∧ parked c (<[Reg.a0 := 0]> R) (u64 (sepc (csr (hs k)) + 4)) k' ∧
       ∀ r va, views T' (ram k') r va =
         if decide (r = p_pagetable c) then views T (ram k) (p_pagetable pq) va else views T (ram k) r va)).
Proof.
  intros Hin Hsc Hkill Hpc HR Ha7 Hcwd Hf. unfold user_trap. apply wp_bind.
  eapply wp_mono; [by eapply enter_spec|]. intros [] k1 Htr. pose proof Htr as [E1 E2 E3 E4 E5 E6 E7]. apply wp_bind.
  eapply wp_mono; [apply (fork_syscall_spec me T E pq k1 cwd); try done; rewrite ?E7; try done; [apply Hin| |by rewrite (tf_fs _ _ E2)]|].
  { unfold reg, TF_a7. destruct E4 as [_ E4]. rewrite (E4 Reg.a7 168) by by_table. done. }
  intros ret k2 [(Hl & Hr & T' & Ht & Hs & Hv)|(Hr & np & q & c & T' & Ht & Hq & Hu & Hp & Hb & Hnew & Hv)].
  - eapply wp_mono; [eapply back_in_user; [done|done|done|done|]|].
    { eapply kernel_own_same; [exact Hs|]. rewrite (tf_procs _ _ E2). apply Hin. }
    intros s k3 (L1 & L2 & L3 & L4 & L5 & L6). split_and!; [done|done|]. left. split_and!; [done| |].
    + unfold fork_lacks in *. rewrite <-(tf_procs _ _ E2). destruct Hl as [|Hl]; [by left|right].
      by apply (taken_short 0 _ _ k1); [apply taken_refs|].
    + exists T'. split_and!; [done| |].
      * by rewrite (tf_procs _ _ L5), <-(tf_procs _ _ E2).
      * intros r va. by rewrite L6, Hv, E6.
  - rewrite (tf_procs _ _ E2) in Hq, Hp.
    eapply wp_mono; [eapply back_in_user; [done|done|done|done|]|].
    { rewrite Hp. apply kernel_own_child; [apply Ht|apply Hin]. }
    intros s k3 (L1 & L2 & L3 & L4 & L5 & L6). destruct (born_parked _ _ _ _ _ _ _ _ _ _ Htr Hb) as [[K1 K2 K3] Hc].
    split_and!; [done|done|]. right. rewrite (tf_nextpid _ _ E2) in L3. split; [done|]. exists np, q, c, T'.
    split_and!; [done|done|done|by rewrite (tf_procs _ _ L5)|done| |].
    + split; [done|by rewrite L6|]. unfold reg in *. by rewrite L6.
    + intros r va. rewrite L6, Hv. by rewrite !E6.
Qed.
End user_mode.

(** ** The theorems on a concrete machine *)

#[local] Existing Instances two_linker two_linker_ok two_kobj two_text two_others two_devices.

Definition two_kpages (q : Z) : Prop := q ∈ [pp 16; pp 17; pp 18].

(** The three entries of the kernel's page table. *)
Lemma two_kernel_maps m :
  ld64 m (entry (pp 16) 255) = mkpte (pp 17) PTE_V → ld64 m (entry (pp 17) 511) = mkpte (pp 18) PTE_V →
  ld64 m (entry (pp 18) 511) = tramp_pte → kernel_maps two_kpages two_ksatp m.
Proof.
  intros H1 H2 H3 m' Hs.
  assert (∀ p x, two_kpages p → aligned p → 0 ≤ x < 512 → ld64 m' (entry p x) = ld64 m (entry p x)) as Hld.
  { intros p x Hp Hal Hx. apply ld64_ext. intros b Hb. apply Hs. unfold entry in *.
    replace (page b) with p; [done|]. symmetry. apply page_in_tf; [done|Zconst; lia]. }
  assert (ld64 m' (entry (pp 16) 255) = mkpte (pp 17) PTE_V) as L1 by (rewrite Hld by by_table; done).
  assert (ld64 m' (entry (pp 17) 511) = mkpte (pp 18) PTE_V) as L2 by (rewrite Hld by by_table; done).
  assert (ld64 m' (entry (pp 18) 511) = tramp_pte) as L3 by (rewrite Hld by by_table; done).
  assert (sv39 2 m' (pp 16) TRAMPOLINE = Some tramp_pte) as Hsv.
  { cbn [sv39]. change (pp 16 + 8 * PX (Z.of_nat 2) TRAMPOLINE) with (entry (pp 16) 255). rewrite L1.
    change (PTE2PA (mkpte (pp 17) PTE_V) + 8 * PX (Z.of_nat 1) TRAMPOLINE) with (entry (pp 17) 511). rewrite L2.
    change (PTE2PA (mkpte (pp 18) PTE_V) + 8 * PX (Z.of_nat 0) TRAMPOLINE) with (entry (pp 18) 511). by rewrite L3. }
  unfold translate, two_ksatp. change (Z.land (MAKE_SATP (pp 16)) (2 ^ 44 - 1) * PGSIZE) with (pp 16). rewrite Hsv. by vm_compute.
Qed.

(** The process is in user mode. *)
Lemma two_in_user k t :
  task 0 (two_of t) (owned two_owned) two_proc k → csr (hs k) = csr (hs (two0 (scause (csr (hs k))))) → procs k = two_procs →
  (∀ o, 0 ≤ o → o + 8 ≤ PGSIZE → ∀ p, p ∈ [pp 6; pp 16; pp 17; pp 18] → ld64 (ram k) (p + o) = ld64 two_ram (p + o)) →
  in_user 0 (two_of t) (owned two_owned) two_proc two_kpages two_ksatp k.
Proof.
  intros Ht Hc Hp Hld. split; [done|by rewrite Hc|by rewrite Hc| | |].
  - rewrite Hc. cbn [tp csr hs two0 two_csrs p_trapframe two_proc]. split_and!.
    + rewrite <-(Z.add_0_r (pp 6)), Hld by by_table. by vm_compute.
    + rewrite Hld by by_table. by vm_compute.
    + rewrite Hld by by_table. by vm_compute.
  - apply two_kernel_maps; unfold entry; rewrite Hld by by_table; by vm_compute.
  - rewrite Hp. intros q Hq. split.
    + unfold owned. rewrite decide_True; [done|]. unfold two_owned. by right.
    + intros i p [[-> ->]|[_ ->]]%two_slot Hu; [|by destruct Hu]. intros ->. revert Hq. by_table.
Qed.

Lemma two_tables_only c o p :
  0 ≤ o → o + 8 ≤ PGSIZE → p ∈ [pp 6; pp 16; pp 17; pp 18] → ld64 (ram (two c)) (p + o) = ld64 two_ram (p + o).
Proof.
  intros H0 H1 Hp. rewrite !elem_of_cons, elem_of_nil in Hp. unfold two, two6, two5, two4, two3, two2, two1. cbn [ram upd_ram].
  assert (UPN mod 512 = 510 ∧ (UPN + 1) mod 512 = 511 ∧ 0 mod 512 = 0) as (-> & -> & ->) by by_table.
  unfold entry, pp in *. by rewrite !ld64_st64_out by (Zconst; lia).
Qed.

Definition user_regs : regs := λ r, match r with Reg.a7 => SYS_fork | Reg.sp => 4096 | _ => 0 end.

Lemma user_regs_range r : 0 ≤ user_regs r < 2 ^ 64.
Proof. by destruct r. Qed.

Lemma user_cow_correct_witness :
  wp (user_trap (λ _, 0) user_regs) two_cow (λ s k',
    h_mode s = User ∧ h_pc s = 256 ∧ (∀ r, r ≠ Reg.zero → h_reg s r = user_regs r) ∧
    ∃ T', in_user 0 T' (owned two_owned) two_proc two_kpages two_ksatp k' ∧ tframe two_cow k' ∧
      same_views (two_of two_ptc) (ram two_cow) T' (ram k') ∧ owns k' T' (pp 0) 0).
Proof.
  apply (user_cow_correct 0 (two_of two_ptc) (owned two_owned) two_proc two_kpages two_ksatp two_cow user_regs (λ _, 0) two_ptc two_leafc);
    [|reflexivity|reflexivity|done|exact user_regs_range|apply lookup_singleton_eq|done|by vm_compute|by vm_compute|].
  - apply two_in_user; [apply two_cow_task|reflexivity|reflexivity|]. intros o H0 H1 p Hp. rewrite <-(two_tables_only 15 o p) by done.
    unfold two_cow. cbn [ram upd_ram]. change (0 mod 512) with 0. rewrite !elem_of_cons, elem_of_nil in Hp. unfold entry, pp in *.
    by rewrite ld64_st64_out by (Zconst; lia).
  - exists (pp 7). split; [by apply pp_valid|by vm_compute].
Defined.

Lemma user_fork_correct_witness :
  wp (user_trap (λ _, 0) user_regs) (two 8) (λ s k',
    h_mode s = User ∧ h_pc s = 260 ∧
    ((∀ r, r ≠ Reg.zero → h_reg s r = <[Reg.a0 := u64 (-1)]> user_regs r) ∧ fork_lacks (two 8) two_proc ∧
     (∃ T', in_user 0 T' (owned two_owned) two_proc two_kpages two_ksatp k' ∧ used_same two_procs (procs k') ∧
        same_views (two_of two_pt) (ram (two 8)) T' (ram k')) ∨
     (∀ r, r ≠ Reg.zero → h_reg s r = <[Reg.a0 := u64 2]> user_regs r) ∧
     ∃ np q c T', in_user 0 T' (eadd (owned two_owned) (p_trapframe c) 1) two_proc two_kpages two_ksatp k' ∧
       two_procs !! np = Some q ∧ p_state q = UNUSED ∧ procs k' = <[np := c]> two_procs ∧
       child_of 0 2 two_proc c ∧ parked c (<[Reg.a0 := 0]> user_regs) 260 k' ∧
       ∀ r va, views T' (ram k') r va =
         if decide (r = p_pagetable c) then views (two_of two_pt) (ram (two 8)) (pp 0) va
         else views (two_of two_pt) (ram (two 8)) r va)).
Proof.
  apply (user_fork_correct 0 (two_of two_pt) (owned two_owned) two_proc two_kpages two_ksatp (two 8) user_regs (λ _, 0) 0);
    [|reflexivity|reflexivity|done|exact user_regs_range|reflexivity|reflexivity|].
  - apply two_in_user; [apply two_task|reflexivity|reflexivity|]. intros. by apply two_tables_only.
  - intros i f [Hf _]%lookup_replicate_1. discriminate.
Defined.
