(* ===== verification/Sh.v ===== *)
(** * The shell's parser (user/sh.c)

    The command line is a buffer that ends with a NUL, pointers into it are
    indices.  Commands are nodes of a heap; a pointer to a command is the index
    of its node, and malloc() appends a node: it never fails here, while the source
    does not check whether it did.  As in the source, a redirection
    can be wrapped around an EXEC node that still gets arguments.

    panic() of the shell prints its message and exits; it ends the computation.
    [sh_msgs] are the calls fprintf(2, fmt, s) of the parser. *)

From stdpp Require Import list strings.
From Stdlib Require Import ZArith Lia.
From S2P Require Import Prelude FsData.
#[local] Open Scope Z_scope.

Definition MAXARGS : nat := 10.

(** struct execcmd, redircmd, pipecmd, listcmd and backcmd.  A null pointer in
    argv[] is [None]. *)
Inductive node : Type :=
| N_exec (argv eargv : list (option nat))
| N_redir (cmd file efile : nat) (mode fd : Z)
| N_pipe (left right : nat)
| N_list (left right : nat)
| N_back (cmd : nat).

Record shell : Type := mkShell {
  sh_buf : list Z;
  sh_heap : list node;
  sh_msgs : list (list Z * list Z);
}.
Definition upd_sh_buf (f : list Z → list Z) (s : shell) : shell := mkShell (f (sh_buf s)) (sh_heap s) (sh_msgs s).
Definition upd_sh_heap (f : list node → list node) (s : shell) : shell := mkShell (sh_buf s) (f (sh_heap s)) (sh_msgs s).
Definition upd_sh_msgs (f : list (list Z * list Z) → list (list Z * list Z)) (s : shell) : shell :=
  mkShell (sh_buf s) (sh_heap s) (f (sh_msgs s)).

Abbreviation SH := (M shell).

(** ** Constructors *)

Definition new_node (x : node) : SH nat :=
  p ← gets (λ s, length (sh_heap s));
  modify (upd_sh_heap (λ h, h ++ [x]));;
  mret p.

Definition execcmd : SH nat := new_node (N_exec (replicate MAXARGS None) (replicate MAXARGS None)).
Definition redircmd (subcmd file efile : nat) (mode fd : Z) : SH nat := new_node (N_redir subcmd file efile mode fd).
Definition pipecmd (left right : nat) : SH nat := new_node (N_pipe left right).
Definition listcmd (left right : nat) : SH nat := new_node (N_list left right).
Definition backcmd (subcmd : nat) : SH nat := new_node (N_back subcmd).

(** cmd->argv[argc] = q; cmd->eargv[argc] = eq; *)
Definition set_arg (cmd argc : nat) (q eq : option nat) : SH unit :=
  modify (upd_sh_heap (alter (λ x,
    match x with N_exec av ev => N_exec (<[argc := q]> av) (<[argc := eq]> ev) | _ => x end) cmd)).

(** ** Tokens *)

Definition whitespace : list Z := [32; 9; 13; 10; 11].
Definition symbols : list Z := chars "<|>&;()".

(** strchr() of ulib.c finds no NUL. *)
Definition strchr (s : list Z) (c : Z) : bool := bool_decide (c ∈ s).

(** The character at [p]. *)
Definition ch (b : list Z) (p : nat) : Z := default 0 (b !! p).

(** while(s < es && f( *s)) s++; with [n = es - s]. *)
Fixpoint skip_while (f : Z → bool) (b : list Z) (n p : nat) : nat :=
  match n with
  | O => p
  | S n' => if f (ch b p) then skip_while f b n' (S p) else p
  end.
Definition skip_space (b : list Z) (es s : nat) : nat := skip_while (strchr whitespace) b (es - s) s.

(** The token, the pointers to its start and its end, and the new *ps. *)
Definition gettoken (b : list Z) (es ps : nat) : Z * nat * nat * nat :=
  let s := skip_space b es ps in
  let q := s in
  let c := ch b s in
  let '(ret, s) :=
    if c =? 0 then (c, s)
    else if strchr (chars "|();&<") c then (c, S s)
    else if c =? 62 then if ch b (S s) =? 62 then (43, S (S s)) else (c, S s)
    else (97, skip_while (λ c, negb (strchr whitespace c) && negb (strchr symbols c)) b (es - s) s) in
  let eq := s in
  (ret, q, eq, skip_space b es s).

(** The new *ps, and whether one of [toks] comes next. *)
Definition peek (b : list Z) (es ps : nat) (toks : list Z) : nat * bool :=
  let s := skip_space b es ps in
  (s, negb (ch b s =? 0) && strchr toks (ch b s)).

Definition get_token (es ps : nat) : SH (Z * nat * nat * nat) := gets (λ s, gettoken (sh_buf s) es ps).
Definition get_peek (es ps : nat) (toks : list Z) : SH (nat * bool) := gets (λ s, peek (sh_buf s) es ps toks).

(** ** Parsing

    A parsing function gives a command and the new *ps. *)

Section parse.
Context (es : nat).

Definition parseredirs (cmd ps : nat) : SH (nat * nat) :=
  loop (λ '(cmd, ps),
    '(ps, b) ← get_peek es ps (chars "<>");
    if b : bool then
      '(tok, _, _, ps) ← get_token es ps;
      '(a, q, eq, ps) ← get_token es ps;
      if negb (a =? 97) then panic "missing file for redirection" else
      if tok =? 60 then cmd ← redircmd cmd q eq O_RDONLY 0; continue (cmd, ps)
      else if tok =? 62 then cmd ← redircmd cmd q eq (Z.lor (Z.lor O_WRONLY O_CREATE) O_TRUNC) 1; continue (cmd, ps)
      else if tok =? 43 then cmd ← redircmd cmd q eq (Z.lor O_WRONLY O_CREATE) 1; continue (cmd, ps)
      else continue (cmd, ps)
    else break (cmd, ps)) (cmd, ps).

Definition parseblock (parseline : nat → SH (nat * nat)) (ps : nat) : SH (nat * nat) :=
  '(ps, b) ← get_peek es ps (chars "(");
  if negb b then panic "parseblock" else
  '(_, _, _, ps) ← get_token es ps;
  '(cmd, ps) ← parseline ps;
  '(ps, b) ← get_peek es ps (chars ")");
  if negb b then panic "syntax - missing )" else
  '(_, _, _, ps) ← get_token es ps;
  parseredirs cmd ps.

Definition parseexec (parseline : nat → SH (nat * nat)) (ps : nat) : SH (nat * nat) :=
  '(ps, b) ← get_peek es ps (chars "(");
  if b : bool then parseblock parseline ps else
  cmd ← execcmd;
  '(ret, ps) ← parseredirs cmd ps;
  '(ret, argc, ps) ← loop (λ '(ret, argc, ps),
    '(ps, b) ← get_peek es ps (chars "|)&;");
    if negb b then
      '(tok, q, eq, ps) ← get_token es ps;
      if tok =? 0 then break (ret, argc, ps) else
      if negb (tok =? 97) then panic "syntax" else
      set_arg cmd argc (Some q) (Some eq);;
      let argc := S argc in
      if Nat.leb MAXARGS argc then panic "too many args" else
      '(ret, ps) ← parseredirs ret ps;
      continue (ret, argc, ps)
    else break (ret, argc, ps)) (ret, 0%nat, ps);
  set_arg cmd argc None None;;
  mret (ret, ps).

Fixpoint parsepipe (parseline : nat → SH (nat * nat)) (fuel ps : nat) : SH (nat * nat) :=
  match fuel with
  | O => diverge
  | S fuel' =>
      '(cmd, ps) ← parseexec parseline ps;
      '(ps, b) ← get_peek es ps (chars "|");
      if b : bool then
        '(_, _, _, ps) ← get_token es ps;
        '(rcmd, ps) ← parsepipe parseline fuel' ps;
        cmd ← pipecmd cmd rcmd;
        mret (cmd, ps)
      else mret (cmd, ps)
  end.

(** Every recursive call comes after a token, so that [es + 1] is enough fuel. *)
Fixpoint parseline (fuel ps : nat) : SH (nat * nat) :=
  match fuel with
  | O => diverge
  | S fuel' =>
      '(cmd, ps) ← parsepipe (parseline fuel') fuel ps;
      '(cmd, ps) ← loop (λ '(cmd, ps),
        '(ps, b) ← get_peek es ps (chars "&");
        if b : bool then
          '(_, _, _, ps) ← get_token es ps;
          cmd ← backcmd cmd;
          continue (cmd, ps)
        else break (cmd, ps)) (cmd, ps);
      '(ps, b) ← get_peek es ps (chars ";");
      if b : bool then
        '(_, _, _, ps) ← get_token es ps;
        '(rcmd, ps) ← parseline fuel' ps;
        cmd ← listcmd cmd rcmd;
        mret (cmd, ps)
      else mret (cmd, ps)
  end.
End parse.

(** ** NUL-terminating the words *)

Definition set_nul (p : nat) : SH unit := modify (upd_sh_buf (<[p := 0]>)).

(** for(i=0; ecmd->argv[i]; i++) *ecmd->eargv[i] = 0; *)
Fixpoint nul_args (argv eargv : list (option nat)) : SH unit :=
  match argv, eargv with
  | Some _ :: argv', Some e :: eargv' => set_nul e;; nul_args argv' eargv'
  | _, _ => mret tt
  end.

(** The commands below a node have smaller indices, so that [cmd + 1] is enough
    fuel. *)
Fixpoint nulterminate (fuel cmd : nat) : SH unit :=
  match fuel with
  | O => diverge
  | S fuel' =>
      x ← gets (λ s, sh_heap s !! cmd);
      match x with
      | Some (N_exec argv eargv) => nul_args argv eargv
      | Some (N_redir c _ efile _ _) => nulterminate fuel' c;; set_nul efile
      | Some (N_pipe l r) => nulterminate fuel' l;; nulterminate fuel' r
      | Some (N_list l r) => nulterminate fuel' l;; nulterminate fuel' r
      | Some (N_back c) => nulterminate fuel' c
      | None => mret tt
      end
  end.

(** fprintf(2, "leftovers: %s\n", s) *)
Definition leftovers : list Z := chars "leftovers: %s" ++ [10].

Definition parsecmd : SH nat :=
  es ← gets (λ s, length (cstring (sh_buf s)));
  '(cmd, s) ← parseline es (S es) 0;
  '(s, _) ← get_peek es s [];
  if negb (s =? es)%nat then
    rest ← gets (λ st, cstring (drop s (sh_buf st)));
    modify (upd_sh_msgs (λ l, l ++ [(leftovers, rest)]));;
    panic "syntax"
  else
  nulterminate (S cmd) cmd;;
  mret cmd.
