(* ===== verification/ShSpec.v ===== *)
(** * The shell's language

    Tokens of a command line, the grammar of commands over tokens, and the lemmas
    on gettoken(), peek() and the redirections that the parsing functions share. *)

From stdpp Require Import list strings.
From Stdlib Require Import ZArith Lia.
From S2P Require Import Prelude FsData Sh.
#[local] Open Scope Z_scope.

(** ** Tokens *)

Inductive token : Type :=
| Tword (w : list Z)
| Tsym (c : Z)
| Tappend.

Definition space (c : Z) : Prop := c ∈ whitespace.
Definition wordc (c : Z) : Prop := (c ∉ whitespace) ∧ (c ∉ symbols).
(** A text that does not go on with a character of a word. *)
Definition word_end (r : list Z) : Prop := ∀ c, head r = Some c → ¬ wordc c.

Inductive lexes : list Z → list token → Prop :=
| lex_nil ws : Forall space ws → lexes ws []
| lex_sym ws c r ts : Forall space ws → c ∈ chars "|();&<" → lexes r ts → lexes (ws ++ c :: r) (Tsym c :: ts)
| lex_out ws r ts : Forall space ws → head r ≠ Some 62 → lexes r ts → lexes (ws ++ 62 :: r) (Tsym 62 :: ts)
| lex_append ws r ts : Forall space ws → lexes r ts → lexes (ws ++ 62 :: 62 :: r) (Tappend :: ts)
| lex_word ws w r ts : Forall space ws → w ≠ [] → Forall wordc w → word_end r → lexes r ts →
    lexes (ws ++ w ++ r) (Tword w :: ts).

(** What gettoken() returns for the token, and its first character. *)
Definition tok_code (t : token) : Z :=
  match t with Tword _ => 97 | Tsym c => c | Tappend => 43 end.
Definition tok_first (t : token) : Z :=
  match t with Tword w => default 0 (head w) | Tsym c => c | Tappend => 62 end.
(** The next token starts with one of [toks]. *)
Definition starts (ts : list token) (toks : list Z) : bool :=
  match ts with [] => false | t :: _ => strchr toks (tok_first t) end.

Lemma strchr_true s c : strchr s c = true ↔ c ∈ s.
Proof. unfold strchr. by rewrite bool_decide_eq_true. Qed.
Lemma strchr_false s c : strchr s c = false ↔ c ∉ s.
Proof. unfold strchr. by rewrite bool_decide_eq_false. Qed.

Definition is_wordc (c : Z) : bool := negb (strchr whitespace c) && negb (strchr symbols c).
Lemma is_wordc_true c : is_wordc c = true ↔ wordc c.
Proof. unfold is_wordc, wordc. by rewrite andb_true_iff, !negb_true_iff, !strchr_false. Qed.

#[export] Instance wordc_dec c : Decision (wordc c).
Proof. unfold wordc. apply _. Defined.

(** The separators are neither spaces nor characters of words. *)
Lemma sym_not_word c : c ∈ symbols → ¬ wordc c ∧ ¬ space c.
Proof.
  intros Hc. split; [by intros [_ ?]|]. unfold space. revert c Hc. apply Forall_forall. by apply (bool_decide_unpack _).
Qed.
Lemma gettoken_syms c : c ∈ chars "|();&<" → c ∈ symbols ∧ c ≠ 0 ∧ c ≠ 62.
Proof. revert c. apply Forall_forall. by apply (bool_decide_unpack _). Qed.
Lemma wordc_not c : wordc c → (c ∉ chars "|();&<") ∧ c ≠ 62 ∧ ¬ space c.
Proof.
  intros [H1 H2]. split_and!; [|intros ->; apply H2; by apply (bool_decide_unpack _)|done].
  intros Hc. by apply H2, gettoken_syms.
Qed.

(** ** The command line *)

Section line.
Context (text junk : list Z) (Hnz : Forall (λ c, c ≠ 0) text).
Abbreviation b := (text ++ 0 :: junk).
Abbreviation es := (length text).

Lemma ch_text p c r : drop p text = c :: r → ch b p = c.
Proof.
  intros Hd. assert (text !! p = Some c) as Hc by (rewrite <-(Nat.add_0_r p), <-lookup_drop; by rewrite Hd).
  unfold ch. rewrite lookup_app_l by (by eapply lookup_lt_Some). by rewrite Hc.
Qed.
Lemma ch_end : ch b es = 0.
Proof. unfold ch. by rewrite lookup_app_r, Nat.sub_diag. Qed.

Lemma drop_past p pre r : drop p text = pre ++ r → drop (p + length pre) text = r.
Proof. intros Hd. by rewrite <-drop_drop, Hd, drop_app_length. Qed.
Lemma drop_length p r : (p ≤ es)%nat → drop p text = r → (length r = es - p)%nat.
Proof. intros Hp <-. apply length_drop. Qed.

Lemma skip_while_spec f pre p r :
  (p ≤ es)%nat → drop p text = pre ++ r → Forall (λ c, f c = true) pre → (∀ c, head r = Some c → f c = false) →
  skip_while f b (es - p) p = (p + length pre)%nat.
Proof.
  revert p. induction pre as [|c pre IH]; intros p Hp Hd Hpre Hr.
  - pose proof (drop_length p _ Hp Hd) as Hl. simpl in Hl. simpl length. destruct r as [|c r]; simpl in Hl.
    + replace (es - p)%nat with 0%nat by lia. simpl. lia.
    + replace (es - p)%nat with (S (length r)) by lia. cbn [skip_while]. rewrite (ch_text p c r Hd), (Hr c eq_refl). lia.
  - pose proof (drop_length p _ Hp Hd) as Hl. simpl in Hl. apply Forall_cons in Hpre as [Hc Hpre].
    replace (es - p)%nat with (S (es - S p)) by lia. cbn [skip_while]. rewrite (ch_text p c (pre ++ r) Hd), Hc.
    rewrite IH; [simpl; lia|lia| |done|done]. replace (S p) with (p + length [c])%nat by (simpl; lia). by apply drop_past.
Qed.

Lemma skip_space_spec ws p r :
  (p ≤ es)%nat → drop p text = ws ++ r → Forall space ws → (∀ c, head r = Some c → ¬ space c) →
  skip_space b es p = (p + length ws)%nat.
Proof.
  intros Hp Hd Hws Hr. unfold skip_space. apply (skip_while_spec _ ws p r Hp Hd).
  - eapply Forall_impl; [done|]. intros c Hc. by apply strchr_true.
  - intros c Hc. apply strchr_false, (Hr c Hc).
Qed.

(** The tokens [ts] follow at [p]. *)
Definition follow (p : nat) (ts : list token) : Prop := (p ≤ es)%nat ∧ lexes (drop p text) ts.

(** The word [w] lies at [q], up to [e]. *)
Record span (q e : nat) (w : list Z) : Prop := {
  spn_end : (q + length w = e)%nat;
  spn_word : w ≠ [] ∧ Forall wordc w;
  spn_text : ∃ r, drop q text = w ++ r ∧ word_end r;
  spn_bound : (e ≤ es)%nat;
}.

(** The spaces before a token, and the token. *)
Inductive token_text : list token → list Z → Prop :=
| tt_nil : token_text [] []
| tt_sym c r ts : c ∈ chars "|();&<" → lexes r ts → token_text (Tsym c :: ts) (c :: r)
| tt_out r ts : head r ≠ Some 62 → lexes r ts → token_text (Tsym 62 :: ts) (62 :: r)
| tt_append r ts : lexes r ts → token_text (Tappend :: ts) (62 :: 62 :: r)
| tt_word w r ts : w ≠ [] → Forall wordc w → word_end r → lexes r ts → token_text (Tword w :: ts) (w ++ r).

Lemma lexes_inv l ts : lexes l ts → ∃ ws r, l = ws ++ r ∧ Forall space ws ∧ token_text ts r.
Proof.
  destruct 1 as [ws Hws|ws c r ts Hws Hc Hr|ws r ts Hws Hn Hr|ws r ts Hws Hr|ws w r ts Hws Hne Hw He Hr].
  - exists ws, []. rewrite app_nil_r. split_and!; [done|done|constructor].
  - exists ws, (c :: r). split_and!; [done|done|by constructor].
  - exists ws, (62 :: r). split_and!; [done|done|by constructor].
  - exists ws, (62 :: 62 :: r). split_and!; [done|done|by constructor].
  - exists ws, (w ++ r). split_and!; [done|done|by constructor].
Qed.

Lemma token_text_lexes ts r : token_text ts r → lexes r ts.
Proof.
  destruct 1 as [|c r ts Hc Hr|r ts Hn Hr|r ts Hr|w r ts Hne Hw He Hr].
  - by apply (lex_nil []).
  - by apply (lex_sym []).
  - by apply (lex_out []).
  - by apply (lex_append []).
  - by apply (lex_word []).
Qed.

Lemma token_text_head ts r c : token_text ts r → head r = Some c → ¬ space c ∧ ∃ t ts', ts = t :: ts' ∧ tok_first t = c.
Proof.
  destruct 1 as [|d r ts Hd _|r ts _ _|r ts _|w r ts Hne Hw _ _]; intros Hc; [done|..].
  - injection Hc as ->. split; [by apply sym_not_word, gettoken_syms|by eauto].
  - injection Hc as <-. split; [by apply (bool_decide_unpack _)|by eauto].
  - injection Hc as <-. split; [by apply (bool_decide_unpack _)|by eauto].
  - destruct w as [|d w]; [done|]. injection Hc as ->. apply Forall_cons in Hw as [Hd _]. split; [by apply wordc_not|]. by eexists _, _.
Qed.

(** Where the next token starts. *)
Lemma follow_skip p ts : follow p ts →
  let s := skip_space b es p in (p ≤ s ≤ es)%nat ∧ ∃ r, drop s text = r ∧ token_text ts r.
Proof.
  intros [Hp (ws & r & Hd & Hws & Hr)%lexes_inv]. cbv zeta. rewrite (skip_space_spec ws p r Hp Hd Hws).
  - pose proof (drop_length p _ Hp Hd) as Hl. rewrite length_app in Hl. split; [lia|]. exists r. split; [by apply drop_past|done].
  - intros c Hc. by apply (token_text_head _ _ _ Hr Hc).
Qed.

Lemma peek_spec p ts toks : follow p ts →
  ∃ p', peek b es p toks = (p', starts ts toks) ∧ follow p' ts ∧ (p ≤ p')%nat ∧ skip_space b es p' = p'.
Proof.
  intros Hf. pose proof (follow_skip p ts Hf) as (Hp' & r & Hd & Hr). set (p' := skip_space b es p) in *. exists p'.
  assert (follow p' ts) as Hf' by (split; [lia|]; rewrite Hd; by apply token_text_lexes).
  split_and!; [|done|lia|].
  - unfold peek. fold p'. f_equal. destruct r as [|c r].
    + assert (p' = es) as -> by (pose proof (drop_length p' _ ltac:(lia) Hd) as Hl; simpl in Hl; lia). rewrite ch_end. simpl.
      inversion Hr as [| | | |w r' ts' Hne Hw He Hl Ets Er]; subst; [done|]. by destruct w.
    + rewrite (ch_text p' c r Hd). destruct (token_text_head ts (c :: r) c Hr eq_refl) as (_ & t & ts' & -> & <-). simpl.
      assert (tok_first t ≠ 0) as Hz; [|by rewrite (proj2 (Z.eqb_neq _ _) Hz)].
      apply (Forall_drop _ p') in Hnz. rewrite Hd in Hnz. by apply Forall_cons in Hnz as [? _].
  - rewrite (skip_space_spec [] p' r); [simpl; lia|lia|done|done|]. intros c Hc. by apply (token_text_head _ _ _ Hr Hc).
Qed.

Lemma follow_after p ts : follow p ts → follow (skip_space b es p) ts ∧ (p ≤ skip_space b es p ≤ es)%nat.
Proof.
  intros Hf. pose proof (follow_skip p ts Hf) as (Hp' & r & Hd & Hr). split; [|done]. split; [lia|]. rewrite Hd. by apply token_text_lexes.
Qed.

Lemma follow_past p pre r ts : (p ≤ es)%nat → drop p text = pre ++ r → lexes r ts → follow (p + length pre) ts.
Proof.
  intros Hp Hd Hr. pose proof (drop_length p _ Hp Hd) as Hl. rewrite length_app in Hl. split; [lia|]. by rewrite (drop_past _ _ _ Hd).
Qed.

Lemma gettoken_end p : follow p [] → gettoken b es p = (0, es, es, es).
Proof.
  intros Hf. pose proof (follow_skip p [] Hf) as (Hp' & r & Hd & Hr).
  assert (r = []) as -> by (by inversion Hr).
  assert (skip_space b es p = es) as E by (pose proof (drop_length _ _ (proj2 Hp') Hd) as Hl; simpl in Hl; lia).
  unfold gettoken. rewrite E, ch_end. simpl. unfold skip_space. by rewrite Nat.sub_diag.
Qed.

Lemma token_text_cons t ts r : token_text (t :: ts) r →
  match t with
  | Tsym c => ∃ r', r = c :: r' ∧ lexes r' ts ∧ (c ∈ chars "|();&<" ∨ c = 62 ∧ head r' ≠ Some 62)
  | Tappend => ∃ r', r = 62 :: 62 :: r' ∧ lexes r' ts
  | Tword w => ∃ r', r = w ++ r' ∧ lexes r' ts ∧ w ≠ [] ∧ Forall wordc w ∧ word_end r'
  end.
Proof. inversion 1; eauto 8. Qed.

Lemma gettoken_next p t ts : follow p (t :: ts) →
  ∃ q e p', gettoken b es p = (tok_code t, q, e, p') ∧ follow p' ts ∧ (p < p' ≤ es)%nat ∧ (∀ w, t = Tword w → span q e w).
Proof.
  intros Hf. pose proof (follow_skip p _ Hf) as (Hp' & r & Hd & Hr%token_text_cons). set (s := skip_space b es p) in *.
  assert (∀ pre r', r = pre ++ r' → pre ≠ [] → lexes r' ts → follow (s + length pre) ts ∧
    follow (skip_space b es (s + length pre)) ts ∧ (p < skip_space b es (s + length pre) ≤ es)%nat) as Hpast.
  { intros pre r' -> Hne Hl. pose proof (follow_past s pre r' ts ltac:(lia) Hd Hl) as Hfe. destruct (follow_after _ _ Hfe) as [H1 H2].
    split_and!; [done|done|destruct pre; [done|simpl in *; lia]|lia]. }
  unfold gettoken. fold s. cbv zeta. destruct t as [w|c|].
  - destruct Hr as (r' & -> & Hl & Hne & Hw & He). destruct (Hpast w r' eq_refl Hne Hl) as ([P0 _] & P1 & P2).
    destruct w as [|c w]; [done|]. rewrite (ch_text s c (w ++ r')) by done. pose proof Hw as [Hc _]%Forall_cons.
    destruct (wordc_not c Hc) as (W1 & W2 & _). assert (c ≠ 0) as W0.
    { apply (Forall_drop _ s) in Hnz. rewrite Hd in Hnz. by apply Forall_cons in Hnz as [? _]. }
    rewrite (proj2 (Z.eqb_neq _ _) W0), (proj2 (strchr_false _ _) W1), (proj2 (Z.eqb_neq _ _) W2).
    rewrite (skip_while_spec _ (c :: w) s r'); [|lia|done| |].
    + eexists _, _, _. split_and!; [done|done|lia|lia|]. intros w' [= <-]. split; [done|done|by exists r'|lia].
    + eapply Forall_impl; [done|]. intros d. apply is_wordc_true.
    + intros d Hd'. pose proof (He d Hd') as Hn. destruct (is_wordc d) eqn:E; [by apply is_wordc_true in E|done].
  - destruct Hr as (r' & -> & Hl & Hc). destruct (Hpast [c] r' eq_refl ltac:(done) Hl) as (P0 & P1 & P2).
    rewrite Nat.add_1_r in P0, P1, P2. rewrite (ch_text s c r') by done. destruct Hc as [Hc|[-> Hn]].
    + destruct (gettoken_syms c Hc) as (_ & Hz & _). rewrite (proj2 (Z.eqb_neq _ _) Hz), (proj2 (strchr_true _ _) Hc).
      by eexists _, _, _.
    + simpl. replace (ch b (S s) =? 62) with false; [by eexists _, _, _|]. symmetry. apply Z.eqb_neq.
      assert (drop (S s) text = r') as Hd' by (rewrite <-Nat.add_1_r; by apply (drop_past s [62])).
      destruct r' as [|d r']; [|rewrite (ch_text _ _ _ Hd'); intros ->; by apply Hn].
      pose proof (drop_length s _ ltac:(lia) Hd) as Hlen. simpl in Hlen. replace (S s) with es by lia. by rewrite ch_end.
  - destruct Hr as (r' & -> & Hl). destruct (Hpast [62; 62] r' eq_refl ltac:(done) Hl) as (P0 & P1 & P2).
    simpl length in *. replace (s + 2)%nat with (S (S s)) in * by lia. rewrite (ch_text s 62 (62 :: r')) by done.
    assert (drop (S s) text = 62 :: r') as Hd' by (rewrite <-Nat.add_1_r; by apply (drop_past s [62])).
    rewrite (ch_text (S s) 62 r') by done. simpl. by eexists _, _, _.
Qed.
End line.

(** ** Commands *)

Inductive redir : Type := R_in | R_out | R_app.
Definition redir_tok (k : redir) : token := match k with R_in => Tsym 60 | R_out => Tsym 62 | R_app => Tappend end.
Definition redir_mode (k : redir) : Z :=
  match k with R_in => O_RDONLY | R_out => Z.lor (Z.lor O_WRONLY O_CREATE) O_TRUNC | R_app => Z.lor O_WRONLY O_CREATE end.
Definition redir_fd (k : redir) : Z := match k with R_in => 0 | _ => 1 end.

(** What a command line says. *)
Inductive cmd : Type :=
| EXEC (argv : list (list Z))
| REDIR (c : cmd) (k : redir) (file : list Z)
| PIPE (l r : cmd)
| LIST (l r : cmd)
| BACK (c : cmd).

(** Redirections, in the order of the text. *)
Definition redirs (rs : list (redir * list Z)) (c : cmd) : cmd := foldl (λ c r, REDIR c r.1 r.2) c rs.
Definition redirs_toks (rs : list (redir * list Z)) : list token := rs ≫= λ r, [redir_tok r.1; Tword r.2].

(** The parts of a simple command: arguments and redirections in any order. *)
Inductive item : Type := Arg (w : list Z) | Red (r : redir * list Z).
Definition item_toks (i : item) : list token := match i with Arg w => [Tword w] | Red r => [redir_tok r.1; Tword r.2] end.
Definition item_arg (i : item) : option (list Z) := match i with Arg w => Some w | Red _ => None end.
Definition item_red (i : item) : option (redir * list Z) := match i with Arg _ => None | Red r => Some r end.
Definition simple_toks (its : list item) : list token := its ≫= item_toks.
Definition simple_cmd (its : list item) : cmd := redirs (omap item_red its) (EXEC (omap item_arg its)).

(** & after a command. *)
Definition backs (k : nat) (c : cmd) : cmd := Nat.iter k BACK c.

(** The grammar: lists of pipelines of simple commands and blocks. *)
Inductive gline : list token → cmd → Prop :=
| gline_last ts c k : gpipe ts c → gline (ts ++ replicate k (Tsym 38)) (backs k c)
| gline_seq ts c k ts' c' : gpipe ts c → gline ts' c' →
    gline (ts ++ replicate k (Tsym 38) ++ Tsym 59 :: ts') (LIST (backs k c) c')
with gpipe : list token → cmd → Prop :=
| gpipe_last ts c : gexec ts c → gpipe ts c
| gpipe_bar ts c ts' c' : gexec ts c → gpipe ts' c' → gpipe (ts ++ Tsym 124 :: ts') (PIPE c c')
with gexec : list token → cmd → Prop :=
| gexec_block ts c rs : gline ts c → gexec (Tsym 40 :: ts ++ Tsym 41 :: redirs_toks rs) (redirs rs c)
| gexec_simple its : (length (omap item_arg its) < MAXARGS)%nat → gexec (simple_toks its) (simple_cmd its).

Scheme gline_mut := Minimality for gline Sort Prop
  with gpipe_mut := Minimality for gpipe Sort Prop
  with gexec_mut := Minimality for gexec Sort Prop.
Combined Scheme grammar_ind from gline_mut, gpipe_mut, gexec_mut.

(** ** Commands in the heap *)

Section tree.
Context (sp : nat → nat → list Z → Prop).

(** The words [ws] are the arguments. *)
Definition args_are (av ev : list (option nat)) (ws : list (list Z)) : Prop :=
  (length ws < MAXARGS)%nat ∧ length av = MAXARGS ∧ length ev = MAXARGS ∧
  (∀ i w, ws !! i = Some w → ∃ q e, av !! i = Some (Some q) ∧ ev !! i = Some (Some e) ∧ sp q e w) ∧
  (∀ i, (length ws ≤ i < MAXARGS)%nat → av !! i = Some None).

(** The node [p] is the command [c]; what it points to was made before it. *)
Fixpoint tree (h : list node) (p : nat) (c : cmd) : Prop :=
  match c with
  | EXEC ws => ∃ av ev, h !! p = Some (N_exec av ev) ∧ args_are av ev ws
  | REDIR c k f => ∃ p' q e, h !! p = Some (N_redir p' q e (redir_mode k) (redir_fd k)) ∧ sp q e f ∧ (p' < p)%nat ∧ tree h p' c
  | PIPE l r => ∃ p1 p2, h !! p = Some (N_pipe p1 p2) ∧ (p1 < p)%nat ∧ (p2 < p)%nat ∧ tree h p1 l ∧ tree h p2 r
  | LIST l r => ∃ p1 p2, h !! p = Some (N_list p1 p2) ∧ (p1 < p)%nat ∧ (p2 < p)%nat ∧ tree h p1 l ∧ tree h p2 r
  | BACK c => ∃ p', h !! p = Some (N_back p') ∧ (p' < p)%nat ∧ tree h p' c
  end.

Lemma tree_prefix h h' p c : prefix h h' → tree h p c → tree h' p c.
Proof.
  intros Hp. assert (∀ i x, h !! i = Some x → h' !! i = Some x) as Hl by (intros i x Hx; by eapply prefix_lookup_Some).
  revert p. induction c as [ws|c IH k f|l IHl r IHr|l IHl r IHr|c IH]; intros p; simpl; naive_solver.
Qed.

Lemma tree_lt h p c : tree h p c → (p < length h)%nat.
Proof. destruct c; simpl; intros H; destruct_and?; repeat (destruct H as [? H]); by eapply lookup_lt_Some. Qed.

(** A pipeline or a list of two commands of the heap. *)
Lemma tree_pipe h l r cl cr : tree h l cl → tree h r cr → tree (h ++ [N_pipe l r]) (length h) (PIPE cl cr).
Proof.
  intros Hl Hr. exists l, r. rewrite lookup_app_r, Nat.sub_diag by done.
  split_and!; [done|by eapply tree_lt|by eapply tree_lt|by eapply tree_prefix; [apply prefix_app_r|]..].
Qed.
Lemma tree_list h l r cl cr : tree h l cl → tree h r cr → tree (h ++ [N_list l r]) (length h) (LIST cl cr).
Proof.
  intros Hl Hr. exists l, r. rewrite lookup_app_r, Nat.sub_diag by done.
  split_and!; [done|by eapply tree_lt|by eapply tree_lt|by eapply tree_prefix; [apply prefix_app_r|]..].
Qed.

(** [p] is [e] inside the redirections [rs], the last one first. *)
Fixpoint wraps (h : list node) (p e : nat) (rs : list (redir * list Z)) : Prop :=
  match rs with
  | [] => p = e
  | (k, f) :: rs' => ∃ p' q e', h !! p = Some (N_redir p' q e' (redir_mode k) (redir_fd k)) ∧ sp q e' f ∧ (p' < p)%nat ∧ wraps h p' e rs'
  end.

Lemma wraps_tree h p e rs c : wraps h p e (reverse rs) → tree h e c → tree h p (redirs rs c).
Proof.
  revert p. induction rs as [|[k f] rs IH] using rev_ind; intros p; [by intros ->|].
  rewrite reverse_snoc. unfold redirs. rewrite foldl_app. simpl. naive_solver.
Qed.

(** Redirection nodes do not change. *)
Lemma wraps_mono h h' p e rs :
  (∀ i a q e' m fd, h !! i = Some (N_redir a q e' m fd) → h' !! i = Some (N_redir a q e' m fd)) → wraps h p e rs → wraps h' p e rs.
Proof. intros Hl. revert p. induction rs as [|[k f] rs IH]; intros p; simpl; naive_solver. Qed.
End tree.

(** * The parsing functions implement the grammar

    Each parsing function of the shell, called where the tokens of a phrase of
    its grammar rule follow, returns the command that the phrase stands for and
    stops behind it. *)

Section parsing.
Context (text junk : list Z) (Hnz : Forall (λ c, c ≠ 0) text) (Hsmall : Z.of_nat (length text) < 2 ^ 31).
Abbreviation b := (text ++ 0 :: junk).
Abbreviation es := (length text).
Abbreviation follow := (follow text).
Abbreviation tree := (tree (span text)).
Abbreviation wraps := (wraps (span text)).

(** ** Steps *)

Lemma wp_peek st p ts toks Q :
  sh_buf st = b → follow p ts → (∀ p', follow p' ts → (p ≤ p')%nat → Q (p', starts ts toks) st) → wp (get_peek es p toks) st Q.
Proof.
  intros Hb Hf HQ. apply wp_gets. rewrite Hb. destruct (peek_spec text junk Hnz p ts toks Hf) as (p' & -> & Hf' & Hp & _). by apply HQ.
Qed.

Lemma wp_token st p t ts Q :
  sh_buf st = b → follow p (t :: ts) →
  (∀ q e p', follow p' ts → (p < p' ≤ es)%nat → (∀ w, t = Tword w → span text q e w) → Q (tok_code t, q, e, p') st) →
  wp (get_token es p) st Q.
Proof.
  intros Hb Hf HQ. apply wp_gets. rewrite Hb. destruct (gettoken_next text junk Hnz p t ts Hf) as (q & e & p' & -> & Hf' & Hp & Hw). by apply HQ.
Qed.

Lemma wp_new x st Q : Q (length (sh_heap st)) (upd_sh_heap (λ h, h ++ [x]) st) → wp (new_node x) st Q.
Proof. intros HQ. unfold new_node. apply wp_bind, wp_gets, wp_bind, wp_modify, wp_ret. exact HQ. Qed.

Lemma lookup_new (h : list node) x : (h ++ [x]) !! length h = Some x.
Proof. by rewrite lookup_app_r, Nat.sub_diag. Qed.

(** ** Redirections *)

Lemma redir_first k ts : starts (redir_tok k :: ts) (chars "<>") = true.
Proof. by destruct k. Qed.

(** One redirection. *)
Lemma redir_node st p' e rs k f q e' :
  wraps (sh_heap st) p' e rs → (p' < length (sh_heap st))%nat → span text q e' f →
  wraps (sh_heap st ++ [N_redir p' q e' (redir_mode k) (redir_fd k)]) (length (sh_heap st)) e ((k, f) :: rs).
Proof.
  intros Hw Hlt Hs. exists p', q, e'. split_and!; [apply lookup_new|done|done|].
  eapply wraps_mono; [|done]. intros i a q1 e1 m fd Hi. rewrite lookup_app_l; [done|by eapply lookup_lt_Some].
Qed.

Lemma parseredirs_spec st cmd p e rs rs0 rest :
  sh_buf st = b → follow p (redirs_toks rs ++ rest) → starts rest (chars "<>") = false →
  wraps (sh_heap st) cmd e rs0 → (cmd < length (sh_heap st))%nat →
  wp (parseredirs es cmd p) st (λ '(ret, p') st', sh_buf st' = b ∧ prefix (sh_heap st) (sh_heap st') ∧
    wraps (sh_heap st') ret e (reverse rs ++ rs0) ∧ (ret < length (sh_heap st'))%nat ∧ follow p' rest ∧ (p ≤ p')%nat).
Proof.
  intros Hb Hf Hrest Hw Hlt. unfold parseredirs.
  apply (wp_loop _ (λ '(ret, p') st', ∃ done todo, rs = done ++ todo ∧ sh_buf st' = b ∧ prefix (sh_heap st) (sh_heap st') ∧
    wraps (sh_heap st') ret e (reverse done ++ rs0) ∧ (ret < length (sh_heap st'))%nat ∧ follow p' (redirs_toks todo ++ rest) ∧ (p ≤ p')%nat)
    (λ '(_, p') _, Z.of_nat (es - p'))); [|by exists [], rs|lia].
  intros [ret p1] st1 (pre & todo & -> & Hb1 & Hp1 & Hw1 & Hl1 & Hf1 & Hle1).
  apply wp_bind, (wp_peek st1 p1 (redirs_toks todo ++ rest)); [done|done|]. intros p2 Hf2 Hle2. destruct todo as [|[k f] todo].
  - change (starts (redirs_toks [] ++ rest) _) with (starts rest (chars "<>")). rewrite Hrest. apply wp_ret.
    rewrite app_nil_r. split_and!; [done|done|done|done|done|lia].
  - change (redirs_toks ((k, f) :: todo) ++ rest) with (redir_tok k :: Tword f :: (redirs_toks todo ++ rest)) in *. rewrite redir_first.
    apply wp_bind, (wp_token st1 p2 (redir_tok k) (Tword f :: (redirs_toks todo ++ rest))); [done|done|]. intros q0 e0 p3 Hf3 Hle3 _.
    apply wp_bind, (wp_token st1 p3 (Tword f) (redirs_toks todo ++ rest)); [done|done|]. intros q e1 p4 Hf4 Hle4 Hs.
    specialize (Hs f eq_refl). change (negb (tok_code (Tword f) =? 97)) with false. cbv iota.
    set (st2 := upd_sh_heap (λ h, h ++ [N_redir ret q e1 (redir_mode k) (redir_fd k)]) st1).
    assert (wp (c ← redircmd ret q e1 (redir_mode k) (redir_fd k); continue (R := nat * nat) (c, p4)) st1 (λ r st', r = inl (length (sh_heap st1), p4) ∧ st' = st2)) as Hnew.
    { apply wp_bind, wp_new, wp_ret. done. }
    eapply wp_mono; [by destruct k; exact Hnew|]. intros r st' [-> ->]. split; [|lia].
    exists (pre ++ [(k, f)]), todo. split_and!; [by rewrite <-(assoc_L (++))|done|by apply prefix_app_r| |simpl; rewrite length_app; simpl; lia|done|lia].
    rewrite reverse_snoc. by apply redir_node.
Qed.

(** ** Simple commands *)

(** [toks] are separators. *)
Definition seps (toks : list Z) : Prop := ∀ c, c ∈ toks → c ∈ symbols.

Lemma lexes_words l ts w : lexes l ts → Tword w ∈ ts → w ≠ [] ∧ Forall wordc w.
Proof.
  induction 1 as [ws Hws|ws c r ts Hws Hc Hr IH|ws r ts Hws Hn Hr IH|ws r ts Hws Hr IH|ws w' r ts Hws Hne Hw He Hr IH];
    rewrite ?elem_of_nil, ?elem_of_cons; naive_solver.
Qed.

Lemma word_starts p ts w ts' toks : follow p (ts ++ Tword w :: ts') → seps toks → starts (Tword w :: ts') toks = false.
Proof.
  intros [_ Hl] Hs. destruct (lexes_words _ _ w Hl) as [Hne Hw]; [apply elem_of_app; right; by left|].
  destruct w as [|c w]; [done|]. apply Forall_cons in Hw as [[_ Hc] _]. simpl. apply strchr_false. intros Hin. by apply Hc, Hs.
Qed.

(** Where a simple command ends. *)
Definition exec_end (rest : list token) : Prop := rest = [] ∨ starts rest (chars "|)&;") = true.

Lemma exec_end_starts rest toks :
  exec_end rest → bool_decide (Forall (λ c, c ∉ toks) (chars "|)&;")) = true → starts rest toks = false.
Proof.
  intros [->|H] Ht%bool_decide_eq_true; [done|]. destruct rest as [|t rest]; [done|]. simpl in *. apply strchr_true in H. apply strchr_false.
  rewrite Forall_forall in Ht. by apply Ht.
Qed.

Lemma seps_dec toks : bool_decide (Forall (λ c, c ∈ symbols) toks) = true → seps toks.
Proof. rewrite bool_decide_eq_true, Forall_forall. done. Qed.

(** The redirections at the front. *)
Definition no_red (its : list item) : Prop := ∀ r its', its ≠ Red r :: its'.

Lemma reds_first (its : list item) : ∃ (rs : list (redir * list Z)) its', its = (Red <$> rs) ++ its' ∧ no_red its'.
Proof.
  induction its as [|[w|r] its (rs & its' & -> & Hn)]; [by exists [], []|by eexists [], _|by exists (r :: rs), its'].
Qed.

Lemma simple_toks_reds rs its : simple_toks ((Red <$> rs) ++ its) = redirs_toks rs ++ simple_toks its.
Proof. induction rs as [|r rs IH]; [done|]. change (simple_toks ((Red <$> r :: rs) ++ its)) with (redir_tok r.1 :: Tword r.2 :: simple_toks ((Red <$> rs) ++ its)). by rewrite IH. Qed.
Lemma omap_reds (rs : list (redir * list Z)) : omap item_red (Red <$> rs) = rs.
Proof. induction rs as [|r rs IH]; [done|]. simpl. by f_equal. Qed.
Lemma omap_reds_arg (rs : list (redir * list Z)) : omap item_arg (Red <$> rs) = [].
Proof. by induction rs. Qed.

(** The EXEC node [n] after the items [pre], in a heap that extends [h0]. *)
Record filling (h0 : list node) (pre : list item) (ret : nat) (st : shell) : Prop := {
  fg_buf : sh_buf st = b;
  fg_heap : prefix h0 (sh_heap st);
  fg_node : ∃ av ev, sh_heap st !! length h0 = Some (N_exec av ev) ∧ args_are (span text) av ev (omap item_arg pre);
  fg_wraps : wraps (sh_heap st) ret (length h0) (reverse (omap item_red pre));
  fg_lt : (ret < length (sh_heap st))%nat;
}.

Lemma parseredirs_filling h0 pre todo ret st p rest :
  filling h0 pre ret st → follow p (simple_toks todo ++ rest) → exec_end rest →
  wp (parseredirs es ret p) st (λ '(ret', p') st', ∃ pre' todo', pre ++ todo = pre' ++ todo' ∧ no_red todo' ∧ filling h0 pre' ret' st' ∧
    omap item_arg pre' = omap item_arg pre ∧ follow p' (simple_toks todo' ++ rest) ∧ (p ≤ p')%nat).
Proof.
  intros [F1 F2 (av & ev & F3 & F3') F4 F5] Hf He. destruct (reds_first todo) as (rs & todo' & -> & Hn).
  rewrite simple_toks_reds, <-(assoc_L (++)) in Hf.
  assert (starts (simple_toks todo' ++ rest) (chars "<>") = false) as Hst.
  { destruct todo' as [|[w|r] todo']; [by apply exec_end_starts| |by destruct (Hn r todo')].
    apply (word_starts p (redirs_toks rs)); [done|by apply seps_dec]. }
  eapply wp_mono; [by eapply (parseredirs_spec st ret p (length h0) rs)|].
  intros [ret' p'] st' (B1 & B2 & B3 & B4 & B5 & B6). exists (pre ++ (Red <$> rs)), todo'.
  rewrite omap_app, omap_reds_arg, app_nil_r. split_and!; [by rewrite <-(assoc_L (++))|done| |done|done|done].
  split; [done|by etrans| | |done].
  - exists av, ev. rewrite omap_app, omap_reds_arg, app_nil_r. split; [by eapply prefix_lookup_Some|done].
  - by rewrite omap_app, omap_reds, reverse_app.
Qed.

(** The node of a simple command is new. *)
Lemma filling_start st :
  sh_buf st = b → filling (sh_heap st) [] (length (sh_heap st))
    (upd_sh_heap (λ h, h ++ [N_exec (replicate MAXARGS None) (replicate MAXARGS None)]) st).
Proof.
  intros Hb. split; simpl; [done|by apply prefix_app_r| |done|rewrite length_app; simpl; lia].
  eexists _, _. rewrite lookup_new. split; [done|]. split_and!; [simpl; unfold MAXARGS; lia|done|done|done|].
  intros i Hi. exact (lookup_replicate_2 MAXARGS None i (proj2 Hi)).
Qed.

(** An argument is stored. *)
Lemma args_snoc av ev ws q e w :
  args_are (span text) av ev ws → span text q e w → (S (length ws) < MAXARGS)%nat →
  args_are (span text) (<[length ws := Some q]> av) (<[length ws := Some e]> ev) (ws ++ [w]).
Proof.
  intros (H1 & H2 & H3 & H4 & H5) Hs Hl. unfold args_are. rewrite length_app, !length_insert. simpl length.
  split_and!; [lia|done|done| |].
  - intros i w' Hi. apply lookup_app_Some in Hi as [Hi|[Hge Hi]].
    + pose proof (lookup_lt_Some _ _ _ Hi). rewrite !list_lookup_insert_ne by lia. by apply H4.
    + destruct (i - length ws)%nat eqn:E; [|done]. injection Hi as <-. replace i with (length ws) by lia.
      exists q, e. rewrite !list_lookup_insert_eq by lia. done.
  - intros i Hi. rewrite list_lookup_insert_ne by lia. apply H5. lia.
Qed.

Lemma args_close av ev ws : args_are (span text) av ev ws → args_are (span text) (<[length ws := None]> av) (<[length ws := None]> ev) ws.
Proof.
  intros (H1 & H2 & H3 & H4 & H5). unfold args_are. rewrite !length_insert. split_and!; [done|done|done| |].
  - intros i w' Hi. pose proof (lookup_lt_Some _ _ _ Hi). rewrite !list_lookup_insert_ne by lia. by apply H4.
  - intros i Hi. rewrite list_lookup_insert. case_decide; [done|]. by apply H5.
Qed.

(** cmd->argv[argc] is set in the node of a simple command. *)
Lemma wp_set_arg h0 pre ret st q e pre' Q :
  filling h0 pre ret st → omap item_red pre' = omap item_red pre →
  (∀ av ev, args_are (span text) av ev (omap item_arg pre) →
    args_are (span text) (<[length (omap item_arg pre) := q]> av) (<[length (omap item_arg pre) := e]> ev) (omap item_arg pre')) →
  (∀ st', filling h0 pre' ret st' → Q tt st') → wp (set_arg (length h0) (length (omap item_arg pre)) q e) st Q.
Proof.
  intros [F1 F2 (av & ev & F3 & F3') F4 F5] Hr Ha HQ. apply wp_modify, HQ. split; simpl.
  - done.
  - destruct F2 as [t Ht]. rewrite Ht in F3 |- *. destruct t as [|x t]; [by rewrite app_nil_r, lookup_ge_None_2 in F3|].
    rewrite alter_app_r_alt by done. by apply prefix_app_r.
  - eexists _, _. rewrite list_lookup_alter_eq, F3. split; [done|]. by apply Ha.
  - rewrite Hr. eapply wraps_mono; [|done]. intros i a q1 e1 m fd Hi. destruct (decide (i = length h0)) as [->|Hne]; [congruence|].
    by rewrite list_lookup_alter_ne.
  - by rewrite length_alter.
Qed.

(** What parsing a phrase for the command [c] gives. *)
Definition parsed (st : shell) (p : nat) (c : cmd) (rest : list token) (r : nat * nat) (st' : shell) : Prop :=
  sh_buf st' = b ∧ prefix (sh_heap st) (sh_heap st') ∧ tree (sh_heap st') r.1 c ∧ follow r.2 rest ∧ (p ≤ r.2)%nat.

(** One round of the loop of parseexec(). *)
Lemma parseexec_item h0 its pre todo ret argc st p rest p0 :
  its = pre ++ todo → no_red todo → filling h0 pre ret st → follow p (simple_toks todo ++ rest) → exec_end rest →
  (length (omap item_arg its) < MAXARGS)%nat → (p0 ≤ p)%nat → argc = length (omap item_arg pre) →
  wp ('(ps, b) ← get_peek es p (chars "|)&;");
      if negb b then
        '(tok, q, eq, ps) ← get_token es ps;
        if tok =? 0 then break (ret, argc, ps) else
        if negb (tok =? 97) then panic "syntax" else
        set_arg (length h0) argc (Some q) (Some eq);;
        let argc := S argc in
        if Nat.leb MAXARGS argc then panic "too many args" else
        '(ret, ps) ← parseredirs es ret ps;
        continue (ret, argc, ps)
      else break (ret, argc, ps)) st
    (λ r st', match r with
      | inl (ret', argc', p') => (∃ pre todo, its = pre ++ todo ∧ no_red todo ∧ filling h0 pre ret' st' ∧
          argc' = length (omap item_arg pre) ∧ follow p' (simple_toks todo ++ rest) ∧ (p0 ≤ p')%nat) ∧ (p < p' ≤ es)%nat
      | inr (ret', argc', p') => filling h0 its ret' st' ∧ argc' = length (omap item_arg its) ∧ follow p' rest ∧ (p0 ≤ p')%nat
      end).
Proof.
  intros Eits Hnr Hfl Hf He Hmax Hle Earg. pose proof (fg_buf _ _ _ _ Hfl) as Hb.
  apply wp_bind, (wp_peek st p (simple_toks todo ++ rest)); [done|done|]. intros p1 Hf1 Hle1. destruct todo as [|[w|r] todo].
  - rewrite app_nil_r in Eits. subst pre. change (simple_toks [] ++ rest) with rest in *.
    destruct He as [->|He]; [|rewrite He; apply wp_ret; split_and!; [done|done|done|lia]].
    apply wp_bind, wp_gets. rewrite Hb, (gettoken_end text junk p1 Hf1). apply wp_ret. split_and!; [done|done| |destruct Hf1; lia].
    split; [done|]. rewrite drop_all. by apply (lex_nil []).
  - change (simple_toks (Arg w :: todo) ++ rest) with (Tword w :: (simple_toks todo ++ rest)) in *.
    rewrite (word_starts p1 [] w) by (done || by apply seps_dec). simpl negb. cbv iota.
    apply wp_bind, (wp_token st p1 (Tword w) (simple_toks todo ++ rest)); [done|done|]. intros q e p2 Hf2 Hle2 Hs. specialize (Hs w eq_refl).
    simpl tok_code. change (97 =? 0) with false. change (negb (97 =? 97)) with false. cbv iota zeta. subst its argc.
    assert (length (omap item_arg pre) + 1 ≤ length (omap item_arg (pre ++ Arg w :: todo)))%nat as Hn.
    { rewrite omap_app. simpl. rewrite length_app. simpl. lia. }
    apply wp_bind, (wp_set_arg h0 pre ret st (Some q) (Some e) (pre ++ [Arg w])); [done|by rewrite omap_app, app_nil_r| |].
    { intros av ev Ha. rewrite omap_app. simpl. apply args_snoc; [done|done|lia]. }
    intros st2 Hfl2. rewrite (proj2 (Nat.leb_gt _ _)) by lia. apply wp_bind.
    eapply wp_mono; [by apply (parseredirs_filling h0 (pre ++ [Arg w]) todo ret st2 p2 rest)|].
    intros [ret' p3] st3 (pre' & todo' & E3 & Hn3 & Hfl3 & Ha3 & Hf3 & Hle3). apply wp_ret. split; [|destruct Hf3; lia].
    exists pre', todo'. split_and!; [by rewrite <-E3, <-(assoc_L (++))|done|done| |done|lia].
    rewrite Ha3, omap_app, length_app. simpl. lia.
  - by destruct (Hnr r todo).
Qed.

Lemma parseexec_simple pl st p its rest :
  sh_buf st = b → follow p (simple_toks its ++ rest) → exec_end rest → (length (omap item_arg its) < MAXARGS)%nat →
  wp (parseexec es pl p) st (parsed st p (simple_cmd its) rest).
Proof.
  intros Hb Hf He Hn. unfold parseexec.
  apply wp_bind, (wp_peek st p (simple_toks its ++ rest)); [done|done|]. intros p1 Hf1 Hle1.
  assert (starts (simple_toks its ++ rest) (chars "(") = false) as ->.
  { destruct its as [|[w|[k f]] its]; [by apply exec_end_starts| |by destruct k].
    apply (word_starts p []); [done|by apply seps_dec]. }
  apply wp_bind, wp_new. set (st1 := upd_sh_heap _ st).
  pose proof (filling_start st Hb) as Hf0. fold st1 in Hf0.
  apply wp_bind. eapply wp_mono; [by apply (parseredirs_filling (sh_heap st) [] its _ _ _ rest)|].
  intros [ret p2] st2 (pre & todo & Eits & Hnr & Hfl & Ha & Hf2 & Hle2). simpl app in Eits. cbv beta iota. apply wp_bind.
  apply (wp_loop _ (λ '(ret, argc, p') st', ∃ pre todo, its = pre ++ todo ∧ no_red todo ∧ filling (sh_heap st) pre ret st' ∧
      argc = length (omap item_arg pre) ∧ follow p' (simple_toks todo ++ rest) ∧ (p ≤ p')%nat) (λ '(_, _, p') _, Z.of_nat (es - p'))).
  - intros [[ret3 argc] p3] st3 (pre' & todo' & Eits' & Hnr' & Hfl' & Earg & Hf3 & Hle3).
    eapply wp_mono; [by apply (parseexec_item (sh_heap st) its pre' todo' _ _ st3 p3 rest p)|].
    intros [[[ret4 argc4] p4]|[[ret4 argc4] p4]] st4; [intros [HI Hlt]; split; [done|lia]|]. intros (Hfl4 & -> & Hf4 & Hle4). cbv beta iota.
    apply wp_bind, (wp_set_arg (sh_heap st) its ret4 st4 None None its); [done|done|by intros av ev; apply args_close|].
    intros st5 [F1 F2 (av & ev & F3 & F3') F4 F5]. apply wp_ret. split_and!; [done|done| |done|done].
    apply (wraps_tree _ _ _ (length (sh_heap st))); [done|]. by exists av, ev.
  - exists pre, todo. rewrite Ha. split_and!; [done|done|done|done|done|lia].
  - lia.
Qed.

(** ** Blocks, pipelines and lists *)

(** Where pipelines and lists end. *)
Definition pipe_end (rest : list token) : Prop := rest = [] ∨ starts rest (chars ")&;") = true.
Definition line_end (rest : list token) : Prop := rest = [] ∨ starts rest (chars ")") = true.

Definition line_ok (ts : list token) (c : cmd) : Prop := ∀ n p rest st,
  sh_buf st = b → follow p (ts ++ rest) → line_end rest → (es - p < n)%nat → wp (parseline es n p) st (parsed st p c rest).
Definition pipe_ok (ts : list token) (c : cmd) : Prop := ∀ m n p rest st,
  sh_buf st = b → follow p (ts ++ rest) → pipe_end rest → (es - p < n)%nat → (es - p ≤ m)%nat →
  wp (parsepipe es (parseline es m) n p) st (parsed st p c rest).
Definition exec_ok (ts : list token) (c : cmd) : Prop := ∀ m p rest st,
  sh_buf st = b → follow p (ts ++ rest) → exec_end rest → (es - p ≤ m)%nat →
  wp (parseexec es (parseline es m) p) st (parsed st p c rest).

Lemma parseexec_block ts c rs : line_ok ts c → exec_ok (Tsym 40 :: ts ++ Tsym 41 :: redirs_toks rs) (redirs rs c).
Proof.
  intros IH m p rest st Hb Hf He Hm. simpl in Hf. rewrite <-(assoc_L (++)) in Hf. simpl in Hf. unfold parseexec.
  apply wp_bind, (wp_peek st p (Tsym 40 :: ts ++ Tsym 41 :: redirs_toks rs ++ rest)); [done|done|]. intros p1 Hf1 Hle1. cbv iota.
  change (starts (Tsym 40 :: _) (chars "(")) with true. cbv iota. unfold parseblock.
  apply wp_bind, (wp_peek st p1 (Tsym 40 :: ts ++ Tsym 41 :: redirs_toks rs ++ rest)); [done|done|]. intros p2 Hf2 Hle2.
  change (starts (Tsym 40 :: _) (chars "(")) with true. simpl negb. cbv iota.
  apply wp_bind, (wp_token st p2 (Tsym 40) (ts ++ Tsym 41 :: redirs_toks rs ++ rest)); [done|done|]. intros q0 e0 p3 Hf3 Hle3 _.
  apply wp_bind. eapply wp_mono; [apply (IH m p3 (Tsym 41 :: redirs_toks rs ++ rest)); [done|done|by right|lia]|].
  intros [cmd p4] st1 (B1 & B2 & B3 & B4 & B5). cbn [fst snd] in *.
  apply wp_bind, (wp_peek st1 p4 (Tsym 41 :: redirs_toks rs ++ rest)); [done|done|]. intros p5 Hf5 Hle5.
  change (starts (Tsym 41 :: _) (chars ")")) with true. simpl negb. cbv iota.
  apply wp_bind, (wp_token st1 p5 (Tsym 41) (redirs_toks rs ++ rest)); [done|done|]. intros q1 e1 p6 Hf6 Hle6 _.
  eapply wp_mono; [apply (parseredirs_spec st1 cmd p6 cmd rs [] rest); [done|done|by apply exec_end_starts|done|by apply (tree_lt _ _ _ _ B3)]|].
  intros [ret p7] st2 (C1 & C2 & C3 & C4 & C5 & C6). rewrite app_nil_r in C3.
  split_and!; [done|by etrans| |done|simpl; lia]. apply (wraps_tree _ _ _ cmd); [done|]. by eapply tree_prefix.
Qed.

Lemma starts_sub rest toks toks' :
  starts rest toks = true → bool_decide (Forall (λ c, c ∈ toks') toks) = true → starts rest toks' = true.
Proof.
  destruct rest as [|t rest]; [done|]. simpl. rewrite !strchr_true, bool_decide_eq_true, Forall_forall. auto.
Qed.
Lemma starts_disj rest toks toks' :
  starts rest toks = true → bool_decide (Forall (λ c, c ∉ toks') toks) = true → starts rest toks' = false.
Proof.
  destruct rest as [|t rest]; [done|]. simpl. rewrite strchr_true, strchr_false, bool_decide_eq_true, Forall_forall. auto.
Qed.

Lemma pipe_end_exec rest : pipe_end rest → exec_end rest.
Proof. intros [->|H]; [by left|right]. by eapply starts_sub. Qed.
Lemma line_end_pipe rest : line_end rest → pipe_end rest.
Proof. intros [->|H]; [by left|right]. by eapply starts_sub. Qed.

Lemma parsepipe_last ts c : exec_ok ts c → pipe_ok ts c.
Proof.
  intros IH m n p rest st Hb Hf He Hn Hm. destruct n as [|n]; [lia|]. cbn [parsepipe].
  apply wp_bind. eapply wp_mono; [by apply (IH m p rest); [..|by apply pipe_end_exec|]|].
  intros [cmd p1] st1 (B1 & B2 & B3 & B4 & B5). cbn [fst snd] in *.
  apply wp_bind, (wp_peek st1 p1 rest); [done|done|]. intros p2 Hf2 Hle2.
  replace (starts rest (chars "|")) with false by (destruct He as [->|He]; [done|symmetry; by eapply starts_disj]).
  apply wp_ret. split_and!; [done|done|done|done|simpl; lia].
Qed.

Lemma parsepipe_bar ts c ts' c' : exec_ok ts c → pipe_ok ts' c' → pipe_ok (ts ++ Tsym 124 :: ts') (PIPE c c').
Proof.
  intros IH IH' m n p rest st Hb Hf He Hn Hm. rewrite <-(assoc_L (++)) in Hf. simpl in Hf. destruct n as [|n]; [lia|]. cbn [parsepipe].
  apply wp_bind. eapply wp_mono; [apply (IH m p (Tsym 124 :: ts' ++ rest)); [done|done|by right|done]|].
  intros [cmd p1] st1 (B1 & B2 & B3 & B4 & B5). cbn [fst snd] in *.
  apply wp_bind, (wp_peek st1 p1 (Tsym 124 :: ts' ++ rest)); [done|done|]. intros p2 Hf2 Hle2. change (starts (Tsym 124 :: _) _) with true. cbv iota.
  apply wp_bind, (wp_token st1 p2 (Tsym 124) (ts' ++ rest)); [done|done|]. intros q e p3 Hf3 Hle3 _.
  apply wp_bind. eapply wp_mono; [apply (IH' m n p3 rest st1); [done|done|done|lia|lia]|].
  intros [right p4] st2 (C1 & C2 & C3 & C4 & C5). cbn [fst snd] in *.
  apply wp_bind, wp_new, wp_ret. split_and!; [done|simpl; by apply prefix_app_r; etrans| |done|simpl; lia].
  apply tree_pipe; [by eapply tree_prefix|done].
Qed.

(** The loop over & of parseline(). *)
Lemma parseline_amps k c rest st cmd p :
  sh_buf st = b → follow p (replicate k (Tsym 38) ++ rest) → starts rest (chars "&") = false → tree (sh_heap st) cmd c →
  wp (loop (λ '(cmd, ps),
      '(ps, b) ← get_peek es ps (chars "&");
      if b : bool then
        '(_, _, _, ps) ← get_token es ps;
        cmd ← backcmd cmd;
        continue (cmd, ps)
      else break (cmd, ps)) (cmd, p)) st (parsed st p (backs k c) rest).
Proof.
  intros Hb Hf Hr Ht.
  apply (wp_loop _ (λ '(cmd', p') st', ∃ i j, (k = i + j)%nat ∧ sh_buf st' = b ∧ prefix (sh_heap st) (sh_heap st') ∧
    tree (sh_heap st') cmd' (backs i c) ∧ follow p' (replicate j (Tsym 38) ++ rest) ∧ (p ≤ p')%nat)
    (λ '(_, p') _, Z.of_nat (es - p'))); [|by exists 0%nat, k|lia].
  intros [cmd1 p1] st1 (i & j & -> & B1 & B2 & B3 & B4 & B5).
  apply wp_bind, (wp_peek st1 p1 (replicate j (Tsym 38) ++ rest)); [done|done|]. intros p2 Hf2 Hle2. destruct j as [|j].
  - change (replicate 0 (Tsym 38) ++ rest) with rest in *. rewrite Hr. apply wp_ret. rewrite Nat.add_0_r. split_and!; [done|done|done|done|simpl; lia].
  - change (replicate (S j) (Tsym 38) ++ rest) with (Tsym 38 :: (replicate j (Tsym 38) ++ rest)) in *.
    change (starts (Tsym 38 :: _) (chars "&")) with true. cbv iota.
    apply wp_bind, (wp_token st1 p2 (Tsym 38) (replicate j (Tsym 38) ++ rest)); [done|done|]. intros q e p3 Hf3 Hle3 _.
    apply wp_bind, wp_new, wp_ret. split; [|lia]. exists (S i), j. split_and!; [lia|done|simpl; by apply prefix_app_r| |done|lia].
    exists cmd1. simpl. rewrite lookup_new. split_and!; [done|by eapply tree_lt|]. eapply tree_prefix; [|exact B3]. by apply prefix_app_r.
Qed.

Lemma amps_end k rest : starts rest (chars ")&;") = true ∨ rest = [] → pipe_end (replicate k (Tsym 38) ++ rest).
Proof. destruct k; [by intros [|]; [right|left]|by right]. Qed.

Lemma parseline_last ts c k : pipe_ok ts c → line_ok (ts ++ replicate k (Tsym 38)) (backs k c).
Proof.
  intros IH n p rest st Hb Hf He Hn. rewrite <-(assoc_L (++)) in Hf. destruct n as [|n]; [lia|]. cbn [parseline].
  apply wp_bind. eapply wp_mono; [apply (IH n (S n) p (replicate k (Tsym 38) ++ rest)); [done|done| |lia|lia]|].
  { apply amps_end. destruct (line_end_pipe _ He); auto. }
  intros [cmd p1] st1 (B1 & B2 & B3 & B4 & B5). cbn [fst snd] in *.
  apply wp_bind. eapply wp_mono; [apply (parseline_amps k c rest st1); [done|done| |done]|].
  { destruct He as [->|He]; [done|by eapply starts_disj]. }
  intros [cmd2 p2] st2 (C1 & C2 & C3 & C4 & C5). cbn [fst snd] in *.
  apply wp_bind, (wp_peek st2 p2 rest); [done|done|]. intros p3 Hf3 Hle3.
  replace (starts rest (chars ";")) with false by (destruct He as [->|He]; [done|symmetry; by eapply starts_disj]).
  apply wp_ret. split_and!; [done|by etrans|done|done|simpl; lia].
Qed.

Lemma parseline_seq ts c k ts' c' : pipe_ok ts c → line_ok ts' c' →
  line_ok (ts ++ replicate k (Tsym 38) ++ Tsym 59 :: ts') (LIST (backs k c) c').
Proof.
  intros IH IH' n p rest st Hb Hf He Hn. rewrite <-!(assoc_L (++)) in Hf. simpl in Hf. destruct n as [|n]; [lia|]. cbn [parseline].
  apply wp_bind. eapply wp_mono; [apply (IH n (S n) p (replicate k (Tsym 38) ++ Tsym 59 :: ts' ++ rest)); [done|done| |lia|lia]|].
  { apply amps_end. by left. }
  intros [cmd p1] st1 (B1 & B2 & B3 & B4 & B5). cbn [fst snd] in *.
  apply wp_bind. eapply wp_mono; [by apply (parseline_amps k c (Tsym 59 :: ts' ++ rest) st1)|].
  intros [cmd2 p2] st2 (C1 & C2 & C3 & C4 & C5). cbn [fst snd] in *.
  apply wp_bind, (wp_peek st2 p2 (Tsym 59 :: ts' ++ rest)); [done|done|]. intros p3 Hf3 Hle3. change (starts (Tsym 59 :: _) _) with true. cbv iota.
  apply wp_bind, (wp_token st2 p3 (Tsym 59) (ts' ++ rest)); [done|done|]. intros q e p4 Hf4 Hle4 _.
  apply wp_bind. eapply wp_mono; [apply (IH' n p4 rest st2); [done|done|done|lia]|].
  intros [right p5] st3 (D1 & D2 & D3 & D4 & D5). cbn [fst snd] in *.
  apply wp_bind, wp_new, wp_ret. split_and!; [done|simpl; apply prefix_app_r; by do 2 etrans| |done|simpl; lia].
  apply tree_list; [by eapply tree_prefix|done].
Qed.

Lemma parse_ok : (∀ ts c, gline ts c → line_ok ts c) ∧ (∀ ts c, gpipe ts c → pipe_ok ts c) ∧ (∀ ts c, gexec ts c → exec_ok ts c).
Proof.
  apply grammar_ind.
  - intros ts c k _. apply parseline_last.
  - intros ts c k ts' c' _ IH _. by apply parseline_seq.
  - intros ts c _. apply parsepipe_last.
  - intros ts c ts' c' _ IH _. by apply parsepipe_bar.
  - intros ts c rs _. apply parseexec_block.
  - intros its Hn m p rest st Hb Hf He Hm. by apply parseexec_simple.
Qed.
End parsing.
