(* ===== verification/ShSound.v ===== *)
(** * What the parsing functions accept

    Every command line is a list of tokens.  A parsing function always ends; when
    it does not end in a panic, it has read a phrase of its grammar rule. *)

From stdpp Require Import list strings.
From Stdlib Require Import ZArith Lia.
From S2P Require Import Prelude FsData Sh ShSpec.
#[local] Open Scope Z_scope.

(** ** Every text has tokens *)

Lemma split_while (P : Z → Prop) `{!∀ c, Decision (P c)} l :
  ∃ pre r, l = pre ++ r ∧ Forall P pre ∧ ∀ c, head r = Some c → ¬ P c.
Proof.
  induction l as [|c l (pre & r & -> & Hpre & Hr)]; [by exists [], []|].
  destruct (decide (P c)); [exists (c :: pre), r; by split_and!; [|constructor|]|].
  exists [], (c :: pre ++ r). split_and!; [done|done|]. by intros d [= <-].
Qed.

#[export] Instance space_dec c : Decision (space c).
Proof. unfold space. apply _. Defined.

Lemma not_word_cases c : ¬ wordc c → ¬ space c → c = 62 ∨ c ∈ chars "|();&<".
Proof.
  intros Hw Hs. destruct (decide (c ∈ symbols)) as [Hc|Hc]; [|by destruct Hw].
  revert Hc. clear. revert c. apply Forall_forall. by apply (bool_decide_unpack _).
Qed.

Lemma lexes_total l : ∃ ts, lexes l ts.
Proof.
  remember (length l) as n eqn:Hn. revert l Hn. induction (lt_wf n) as [n _ IH]. intros l ->.
  destruct (split_while space l) as (ws & r & -> & Hws & Hr). destruct (split_while wordc r) as (w & r' & -> & Hw & Hr').
  rewrite !length_app in IH. destruct w as [|d w].
  - destruct r' as [|c r']; [exists []; simpl; rewrite app_nil_r; by constructor|]. simpl in *.
    destruct (not_word_cases c (Hr' c eq_refl) (Hr c eq_refl)) as [->|Hc].
    + destruct r' as [|c' r']; [exists [Tsym 62]; apply lex_out; [done|done|by apply (lex_nil [])]|].
      destruct (decide (c' = 62)) as [->|Hne].
      * destruct (IH (length r') ltac:(simpl; lia) r' eq_refl) as [ts Hts]. exists (Tappend :: ts). by apply lex_append.
      * destruct (IH (length (c' :: r')) ltac:(simpl; lia) (c' :: r') eq_refl) as [ts Hts]. exists (Tsym 62 :: ts). apply lex_out; [done|by intros [= ?]|done].
    + destruct (IH (length r') ltac:(lia) r' eq_refl) as [ts Hts]. exists (Tsym c :: ts). by apply lex_sym.
  - destruct (IH (length r') ltac:(simpl; lia) r' eq_refl) as [ts Hts]. exists (Tword (d :: w) :: ts). by apply lex_word.
Qed.

(** ** Tokens *)

Definition tok_ok (t : token) : Prop :=
  match t with Tword w => w ≠ [] ∧ Forall wordc w | Tsym c => c ∈ symbols | Tappend => True end.

Lemma lexes_ok l ts : lexes l ts → Forall tok_ok ts.
Proof.
  induction 1 as [ws Hws|ws c r ts Hws Hc Hr IH|ws r ts Hws Hn Hr IH|ws r ts Hws Hr IH|ws w' r ts Hws Hne Hw He Hr IH];
    constructor; try done; [by apply gettoken_syms|by apply (bool_decide_unpack _)].
Qed.

Lemma tok_word t : tok_ok t → tok_code t = 97 → ∃ w, t = Tword w.
Proof.
  destruct t as [w|c|]; simpl; intros Hok E; [by exists w|subst c|done]. exfalso. revert Hok. by apply (bool_decide_unpack _).
Qed.

(** The symbol that peek() sees. *)
Lemma tok_symbol t c ts : tok_ok t → starts (t :: ts) [c] = true → c ∈ symbols → c ≠ 62 → t = Tsym c.
Proof.
  intros Hok H%strchr_true Hc Hne. apply list_elem_of_singleton in H. destruct t as [w|c'|]; simpl in *; [|by subst|done].
  destruct w as [|d w]; [by destruct Hok|]. destruct Hok as [_ [[_ Hd] _]%Forall_cons]. simpl in H. by subst d.
Qed.

Lemma tok_redir t ts : tok_ok t → starts (t :: ts) (chars "<>") = true → ∃ k, t = redir_tok k.
Proof.
  intros Hok H%strchr_true. destruct t as [w|c|]; simpl in *; [| |by exists R_app].
  - destruct w as [|d w]; [by destruct Hok|]. destruct Hok as [_ [[_ Hd] _]%Forall_cons]. destruct Hd. simpl in H.
    revert H. generalize d. apply Forall_forall. by apply (bool_decide_unpack _).
  - apply elem_of_cons in H as [->|H]; [by exists R_in|]. apply list_elem_of_singleton in H as ->. by exists R_out.
Qed.

Section accepting.
Context (text junk : list Z) (Hnz : Forall (λ c, c ≠ 0) text) (Hsmall : Z.of_nat (length text) < 2 ^ 31).
Abbreviation b := (text ++ 0 :: junk).
Abbreviation es := (length text).
Abbreviation follow := (follow text).
Abbreviation tree := (tree (span text)).
Abbreviation wraps := (wraps (span text)).
Abbreviation filling := (filling text junk).
Abbreviation parsed := (parsed text junk).

Lemma runs_peek st p ts toks Q :
  sh_buf st = b → follow p ts → (∀ p', follow p' ts → (p ≤ p')%nat → Q (p', starts ts toks) st) → runs (get_peek es p toks) st Q.
Proof. intros Hb Hf HQ. by apply wp_runs, (wp_peek text junk Hnz st p ts). Qed.

Lemma runs_token st p ts Q :
  sh_buf st = b → follow p ts → (ts = [] → Q (0, es, es, es) st) →
  (∀ t ts' q e p', ts = t :: ts' → tok_ok t → follow p' ts' → (p < p' ≤ es)%nat → (∀ w, t = Tword w → span text q e w) → Q (tok_code t, q, e, p') st) →
  runs (get_token es p) st Q.
Proof.
  intros Hb Hf H0 H1. destruct ts as [|t ts].
  - apply runs_gets. rewrite Hb, (gettoken_end text junk p Hf). by apply H0.
  - apply wp_runs, (wp_token text junk Hnz st p t ts); [done|done|]. intros q e p' Hf' Hp Hw. apply (H1 t ts q e p'); try done.
    destruct Hf as [_ Hl%lexes_ok]. by apply Forall_cons in Hl as [? _].
Qed.

(** A token that peek() has seen. *)
Lemma runs_symbol st p ts c Q :
  sh_buf st = b → follow p ts → starts ts [c] = true → c ∈ symbols → c ≠ 62 →
  (∀ ts' q e p', ts = Tsym c :: ts' → follow p' ts' → (p < p' ≤ es)%nat → Q (c, q, e, p') st) → runs (get_token es p) st Q.
Proof.
  intros Hb Hf Hs Hc Hne HQ. apply (runs_token st p ts); [done|done|by intros ->|].
  intros t ts' q e p' -> Hok Hf' Hp _. pose proof (tok_symbol t c ts' Hok Hs Hc Hne) as ->. by apply (HQ ts' q e p').
Qed.

Lemma runs_redirs st cmd p e rs0 ts :
  sh_buf st = b → follow p ts → wraps (sh_heap st) cmd e rs0 → (cmd < length (sh_heap st))%nat →
  runs (parseredirs es cmd p) st (λ '(ret, p') st', ∃ rs rest, ts = redirs_toks rs ++ rest ∧ sh_buf st' = b ∧
    prefix (sh_heap st) (sh_heap st') ∧ wraps (sh_heap st') ret e (reverse rs ++ rs0) ∧ (ret < length (sh_heap st'))%nat ∧
    follow p' rest ∧ (p ≤ p')%nat).
Proof.
  intros Hb Hf Hw Hlt. unfold parseredirs.
  apply (runs_loop _ (λ '(ret, p') st', ∃ rs rest, ts = redirs_toks rs ++ rest ∧ sh_buf st' = b ∧ prefix (sh_heap st) (sh_heap st') ∧
    wraps (sh_heap st') ret e (reverse rs ++ rs0) ∧ (ret < length (sh_heap st'))%nat ∧ follow p' rest ∧ (p ≤ p')%nat)
    (λ '(_, p') _, Z.of_nat (es - p'))); [|by exists [], ts|lia].
  intros [ret p1] st1 (rs & rest & -> & Hb1 & Hp1 & Hw1 & Hl1 & Hf1 & Hle1).
  apply runs_bind, (runs_peek st1 p1 rest); [done|done|]. intros p2 Hf2 Hle2. destruct (starts rest (chars "<>")) eqn:Hst.
  - apply runs_bind, (runs_token st1 p2 rest); [done|done|by intros ->|]. intros t ts' q0 e0 p3 -> Hok Hf3 Hle3 _.
    destruct (tok_redir t ts' Hok Hst) as [k ->].
    apply runs_bind, (runs_token st1 p3 ts'); [done|done|done|]. intros t' rest' q e1 p4 -> Hok' Hf4 Hle4 Hs.
    destruct (Z.eqb_spec (tok_code t') 97) as [E|E]; [|done]. destruct (tok_word t' Hok' E) as [f ->]. specialize (Hs f eq_refl).
    set (st2 := upd_sh_heap (λ h, h ++ [N_redir ret q e1 (redir_mode k) (redir_fd k)]) st1).
    assert (runs (c ← redircmd ret q e1 (redir_mode k) (redir_fd k); continue (R := nat * nat) (c, p4)) st1
      (λ r st', r = inl (length (sh_heap st1), p4) ∧ st' = st2)) as Hnew by done.
    eapply runs_mono; [by destruct k; exact Hnew|]. intros r st' [-> ->]. split; [|lia].
    exists (rs ++ [(k, f)]), rest'. split_and!; [|done|by apply prefix_app_r| |simpl; rewrite length_app; simpl; lia|done|lia].
    + unfold redirs_toks. rewrite bind_app, <-(assoc_L (++)). done.
    + rewrite reverse_snoc. by apply (redir_node text).
  - apply runs_ret. exists rs, rest. split_and!; [done|done|done|done|done|done|lia].
Qed.

(** A phrase of [rule] at the front of [ts] has been read. *)
Definition accepted (rule : list token → cmd → Prop) (st : shell) (p : nat) (ts : list token) (r : nat * nat) (st' : shell) : Prop :=
  ∃ ts1 c rest, ts = ts1 ++ rest ∧ rule ts1 c ∧ parsed st p c rest r st'.

Lemma runs_redirs_filling h0 pre ret st p ts :
  filling h0 pre ret st → follow p ts →
  runs (parseredirs es ret p) st (λ '(ret', p') st', ∃ rs rest, ts = redirs_toks rs ++ rest ∧ filling h0 (pre ++ (Red <$> rs)) ret' st' ∧
    follow p' rest ∧ (p ≤ p')%nat).
Proof.
  intros [F1 F2 (av & ev & F3 & F3') F4 F5] Hf. eapply runs_mono; [by apply (runs_redirs st ret p (length h0) (reverse (omap item_red pre)) ts)|].
  intros [ret' p'] st' (rs & rest & -> & B1 & B2 & B3 & B4 & B5 & B6). exists rs, rest. split_and!; [done| |done|done].
  split; [done|by etrans| | |done].
  - exists av, ev. rewrite omap_app, omap_reds_arg, app_nil_r. split; [by eapply prefix_lookup_Some|done].
  - by rewrite omap_app, omap_reds, reverse_app.
Qed.

Lemma simple_toks_app a c : simple_toks (a ++ c) = simple_toks a ++ simple_toks c.
Proof. apply bind_app. Qed.

(** One round of the loop of parseexec(). *)
Lemma runs_exec_item h0 pre ret argc st p rest :
  filling h0 pre ret st → follow p rest → argc = length (omap item_arg pre) →
  runs ('(ps, b) ← get_peek es p (chars "|)&;");
      if negb b then
        '(tok, q, eq, ps) ← get_token es ps;
        if tok =? 0 then break (ret, argc, ps) else
        if negb (tok =? 97) then panic "syntax" else
        set_arg (length h0) argc (Some q) (Some eq);;
        let argc := S argc in
        if Nat.leb MAXARGS argc then panic "too many args" else
        '(ret, ps) ← parseredirs es ret ps;
        continue (ret, argc, ps)
      else break (ret, argc, ps)) st
    (λ r st', match r with
      | inl (ret', argc', p') => ∃ its rest', rest = simple_toks its ++ rest' ∧ filling h0 (pre ++ its) ret' st' ∧
          argc' = length (omap item_arg (pre ++ its)) ∧ follow p' rest' ∧ (p < p' ≤ es)%nat
      | inr (ret', argc', p') => filling h0 pre ret' st' ∧ argc' = argc ∧ follow p' rest ∧ (p ≤ p')%nat
      end).
Proof.
  intros Hfl Hf ->. pose proof (fg_buf _ _ _ _ _ _ Hfl) as Hb.
  apply runs_bind, (runs_peek st p rest); [done|done|]. intros p1 Hf1 Hle1. destruct (starts rest (chars "|)&;")) eqn:Hst; [by apply runs_ret|].
  simpl negb. cbv iota. apply runs_bind, (runs_token st p1 rest); [done|done| |].
  { intros ->. apply runs_ret. split_and!; [done|done| |destruct Hf1; lia]. split; [done|]. rewrite drop_all. by apply (lex_nil []). }
  intros t ts' q e p2 -> Hok Hf2 Hle2 Hs. cbv beta iota. destruct (Z.eqb_spec (tok_code t) 97) as [E|E].
  2: { destruct (tok_code t =? 0) eqn:E0; [|done]. exfalso. destruct t as [w|c|]; [done| |done]. simpl in E0, Hok. apply Z.eqb_eq in E0 as ->.
       revert Hok. by apply (bool_decide_unpack _). }
  destruct (tok_word t Hok E) as [w ->]. specialize (Hs w eq_refl). simpl tok_code. change (97 =? 0) with false. change (negb true) with false. cbv iota zeta.
  destruct (Nat.leb_spec MAXARGS (S (length (omap item_arg pre)))) as [Hge|Hlt]; [by apply runs_bind, runs_modify, runs_panic|].
  apply runs_bind, wp_runs, (wp_set_arg text junk h0 pre ret st (Some q) (Some e) (pre ++ [Arg w])); [done|by rewrite omap_app, app_nil_r| |].
  { intros av ev Ha. rewrite omap_app. by apply args_snoc. }
  intros st2 Hfl2. apply runs_bind. eapply runs_mono; [by apply (runs_redirs_filling h0 (pre ++ [Arg w]) ret st2 p2 ts')|].
  intros [ret' p3] st3 (rs & rest & -> & Hfl3 & Hf3 & Hle3). apply runs_ret. exists (Arg w :: (Red <$> rs)), rest.
  rewrite <-(assoc_L (++)) in Hfl3. split_and!; [|done| |done|lia|destruct Hf3; lia].
  - change (simple_toks (Arg w :: (Red <$> rs))) with (Tword w :: simple_toks (Red <$> rs)).
    rewrite <-(app_nil_r (Red <$> rs)), simple_toks_reds, app_nil_r. done.
  - rewrite omap_app, length_app. simpl. rewrite omap_reds_arg. simpl. lia.
Qed.

Definition line_runs (pl : nat → SH (nat * nat)) (m : nat) : Prop := ∀ p ts st,
  sh_buf st = b → follow p ts → (es - p < m)%nat → runs (pl p) st (accepted gline st p ts).

Lemma runs_block pl m st p ts :
  line_runs pl m → sh_buf st = b → follow p ts → (es - p ≤ m)%nat → starts ts (chars "(") = true →
  runs (parseblock es pl p) st (accepted gexec st p ts).
Proof.
  intros IH Hb Hf Hm Hst. unfold parseblock.
  apply runs_bind, (runs_peek st p ts); [done|done|]. intros p1 Hf1 Hle1. rewrite Hst. simpl negb. cbv iota.
  apply runs_bind, (runs_symbol st p1 ts 40); [done|done|done|by apply (bool_decide_unpack _)|done|]. intros ts1 q0 e0 p2 -> Hf2 Hle2.
  apply runs_bind. eapply runs_mono; [apply (IH p2 ts1 st); [done|done|lia]|].
  intros [cmd p3] st1 (tl & c & rest & -> & Hg & B1 & B2 & B3 & B4 & B5). cbn [fst snd] in *.
  apply runs_bind, (runs_peek st1 p3 rest); [done|done|]. intros p4 Hf4 Hle4. destruct (starts rest (chars ")")) eqn:Hst2; [|done]. simpl negb. cbv iota.
  apply runs_bind, (runs_symbol st1 p4 rest 41); [done|done|done|by apply (bool_decide_unpack _)|done|]. intros rest1 q1 e1 p5 -> Hf5 Hle5.
  eapply runs_mono; [apply (runs_redirs st1 cmd p5 cmd [] rest1); [done|done|done|by apply (tree_lt _ _ _ _ B3)]|].
  intros [ret p6] st2 (rs & rest & -> & C1 & C2 & C3 & C4 & C5 & C6). rewrite app_nil_r in C3.
  exists (Tsym 40 :: tl ++ Tsym 41 :: redirs_toks rs), (redirs rs c), rest.
  split_and!; [simpl; by rewrite <-(assoc_L (++))|by constructor|]. split_and!; [done|by etrans| |done|simpl; lia].
  apply (wraps_tree _ _ _ cmd); [done|]. by eapply tree_prefix.
Qed.

Lemma runs_exec pl m st p ts :
  line_runs pl m → sh_buf st = b → follow p ts → (es - p ≤ m)%nat → runs (parseexec es pl p) st (accepted gexec st p ts).
Proof.
  intros IH Hb Hf Hm. unfold parseexec.
  apply runs_bind, (runs_peek st p ts); [done|done|]. intros p1 Hf1 Hle1. destruct (starts ts (chars "(")) eqn:Hst.
  { eapply runs_mono; [apply (runs_block pl m st p1 ts); [done|done|done|lia|done]|].
    intros r st' (ts1 & c & rest & -> & Hg & B1 & B2 & B3 & B4 & B5). exists ts1, c, rest. split_and!; [done|done|]. split_and!; [done..|lia]. }
  apply runs_bind, wp_runs, wp_new. set (st1 := upd_sh_heap _ st).
  apply runs_bind. eapply runs_mono; [by apply (runs_redirs_filling (sh_heap st) [] _ st1 p1 ts (filling_start text junk st Hb))|].
  intros [ret p2] st2 (rs & rest & -> & Hfl & Hf2 & Hle2). cbv beta iota. apply runs_bind.
  apply (runs_loop _ (λ '(ret, argc, p') st', ∃ its rest', redirs_toks rs ++ rest = simple_toks its ++ rest' ∧ filling (sh_heap st) its ret st' ∧
      argc = length (omap item_arg its) ∧ follow p' rest' ∧ (p ≤ p')%nat) (λ '(_, _, p') _, Z.of_nat (es - p'))).
  - intros [[ret3 argc] p3] st3 (its & rest' & Ets & Hfl' & Earg & Hf3 & Hle3).
    eapply runs_mono; [by apply (runs_exec_item (sh_heap st) its ret3 argc st3 p3 rest')|].
    intros [[[ret4 argc4] p4]|[[ret4 argc4] p4]] st4.
    + intros (its' & rest2 & -> & Hfl4 & Earg4 & Hf4 & Hle4). split; [|lia]. exists (its ++ its'), rest2.
      split_and!; [by rewrite simple_toks_app, <-(assoc_L (++))|done|done|done|lia].
    + intros (Hfl4 & -> & Hf4 & Hle4). cbv beta iota. rewrite Earg.
      apply runs_bind, wp_runs, (wp_set_arg text junk (sh_heap st) its ret4 st4 None None its); [done|done|by intros av ev; apply args_close|].
      intros st5 [F1 F2 (av & ev & F3 & F3') F4 F5]. apply runs_ret. exists (simple_toks its), (simple_cmd its), rest'.
      split_and!; [done|constructor; by apply F3'|]. split_and!; [done|done| |done|simpl; lia].
      apply (wraps_tree _ _ _ (length (sh_heap st))); [done|]. by exists av, ev.
  - exists (Red <$> rs), rest. split_and!; [|done| |done|lia].
    + by rewrite <-(app_nil_r (Red <$> rs)), simple_toks_reds, app_nil_r.
    + by rewrite omap_reds_arg.
  - lia.
Qed.

Lemma runs_pipe pl m n st p ts :
  line_runs pl m → sh_buf st = b → follow p ts → (es - p < n)%nat → (es - p ≤ m)%nat → runs (parsepipe es pl n p) st (accepted gpipe st p ts).
Proof.
  intros IHl. revert st p ts. induction n as [|n IH]; intros st p ts Hb Hf Hn Hm; [lia|]. cbn [parsepipe].
  apply runs_bind. eapply runs_mono; [by apply (runs_exec pl m st p ts)|].
  intros [cmd p1] st1 (t1 & c & rest & -> & Hg & B1 & B2 & B3 & B4 & B5). cbn [fst snd] in *.
  apply runs_bind, (runs_peek st1 p1 rest); [done|done|]. intros p2 Hf2 Hle2. destruct (starts rest (chars "|")) eqn:Hst.
  - apply runs_bind, (runs_symbol st1 p2 rest 124); [done|done|done|by apply (bool_decide_unpack _)|done|]. intros rest1 q e p3 -> Hf3 Hle3.
    apply runs_bind. eapply runs_mono; [apply (IH st1 p3 rest1); [done|done|lia|lia]|].
    intros [right p4] st2 (t2 & c' & rest & -> & Hg' & C1 & C2 & C3 & C4 & C5). cbn [fst snd] in *.
    apply runs_bind, wp_runs, wp_new, wp_ret. exists (t1 ++ Tsym 124 :: t2), (PIPE c c'), rest.
    split_and!; [by rewrite <-(assoc_L (++))|by constructor|]. split_and!; [done|simpl; by apply prefix_app_r; etrans| |done|simpl; lia].
    apply tree_pipe; [by eapply tree_prefix|done].
  - apply runs_ret. exists t1, c, rest. split_and!; [done|by constructor|]. split_and!; [done..|simpl; lia].
Qed.

Lemma runs_amps c ts st cmd p :
  sh_buf st = b → follow p ts → tree (sh_heap st) cmd c →
  runs (loop (λ '(cmd, ps),
      '(ps, b) ← get_peek es ps (chars "&");
      if b : bool then
        '(_, _, _, ps) ← get_token es ps;
        cmd ← backcmd cmd;
        continue (cmd, ps)
      else break (cmd, ps)) (cmd, p)) st (λ r st', ∃ k rest, ts = replicate k (Tsym 38) ++ rest ∧ parsed st p (backs k c) rest r st').
Proof.
  intros Hb Hf Ht.
  apply (runs_loop _ (λ '(cmd', p') st', ∃ k rest, ts = replicate k (Tsym 38) ++ rest ∧ parsed st p (backs k c) rest (cmd', p') st')
    (λ '(_, p') _, Z.of_nat (es - p'))); [|by exists 0%nat, ts|lia].
  intros [cmd1 p1] st1 (k & rest & -> & B1 & B2 & B3 & B4 & B5). cbn [fst snd] in *.
  apply runs_bind, (runs_peek st1 p1 rest); [done|done|]. intros p2 Hf2 Hle2. destruct (starts rest (chars "&")) eqn:Hst.
  - apply runs_bind, (runs_symbol st1 p2 rest 38); [done|done|done|by apply (bool_decide_unpack _)|done|]. intros rest1 q e p3 -> Hf3 Hle3.
    apply runs_bind, wp_runs, wp_new, wp_ret. split; [|lia]. exists (S k), rest1.
    split; [rewrite replicate_S_end, <-(assoc_L (++)); done|]. split_and!; [done|simpl; by apply prefix_app_r| |done|simpl; lia].
    exists cmd1. simpl. rewrite lookup_new. split_and!; [done|by eapply tree_lt|]. eapply tree_prefix; [|exact B3]. by apply prefix_app_r.
  - apply runs_ret. exists k, rest. split; [done|]. split_and!; [done..|simpl; lia].
Qed.

Lemma runs_line m : line_runs (parseline es m) m.
Proof.
  induction m as [|m IH]; intros p ts st Hb Hf Hn; [lia|]. cbn [parseline].
  apply runs_bind. eapply runs_mono; [apply (runs_pipe (parseline es m) m (S m) st p ts IH Hb Hf); lia|].
  intros [cmd p1] st1 (t1 & c & rest0 & -> & Hg & B1 & B2 & B3 & B4 & B5). cbn [fst snd] in *.
  apply runs_bind. eapply runs_mono; [by apply (runs_amps c rest0 st1 cmd p1)|].
  intros [cmd2 p2] st2 (k & rest & -> & C1 & C2 & C3 & C4 & C5). cbn [fst snd] in *.
  apply runs_bind, (runs_peek st2 p2 rest); [done|done|]. intros p3 Hf3 Hle3. destruct (starts rest (chars ";")) eqn:Hst.
  - apply runs_bind, (runs_symbol st2 p3 rest 59); [done|done|done|by apply (bool_decide_unpack _)|done|]. intros rest1 q e p4 -> Hf4 Hle4.
    apply runs_bind. eapply runs_mono; [apply (IH p4 rest1 st2); [done|done|lia]|].
    intros [right p5] st3 (t2 & c' & rest & -> & Hg' & D1 & D2 & D3 & D4 & D5). cbn [fst snd] in *.
    apply runs_bind, wp_runs, wp_new, wp_ret. exists (t1 ++ replicate k (Tsym 38) ++ Tsym 59 :: t2), (LIST (backs k c) c'), rest.
    split_and!; [by rewrite <-!(assoc_L (++))|by constructor|]. split_and!; [done|simpl; apply prefix_app_r; by do 2 etrans| |done|simpl; lia].
    apply tree_list; [by eapply tree_prefix|done].
  - apply runs_ret. exists (t1 ++ replicate k (Tsym 38)), (backs k c), rest.
    split_and!; [by rewrite <-(assoc_L (++))|by constructor|]. split_and!; [done|by etrans|done|done|simpl; lia].
Qed.
End accepting.

(** * The shell parses exactly the grammar

    nulterminate() makes every word of a parsed line a string; parsecmd() returns
    the command that the line stands for, and refuses every other line. *)

Section nul.
Context (text junk : list Z) (Hnz : Forall (λ c, c ≠ 0) text).
Abbreviation b := (text ++ 0 :: junk).

(** Only places that are not in a word are overwritten, with NULs. *)
Record nuls (b0 b1 : list Z) : Prop := {
  nl_len : length b1 = length b0;
  nl_at : ∀ i, b1 !! i = b0 !! i ∨ b1 !! i = Some 0 ∧ ∀ c, text !! i = Some c → ¬ wordc c;
}.

#[local] Instance nuls_preorder : PreOrder nuls.
Proof.
  split; [by split; auto|]. intros b0 b1 b2 [L1 A1] [L2 A2]. split; [congruence|]. intros i.
  destruct (A2 i) as [E2|E2]; [|by right]. rewrite E2. apply A1.
Qed.

Lemma nuls_zero b0 b1 i : nuls b0 b1 → b0 !! i = Some 0 → b1 !! i = Some 0.
Proof. intros [_ A] H0. destruct (A i) as [->|[-> _]]; done. Qed.

(** The word and the NUL behind it. *)
Definition closed (b1 : list Z) (q e : nat) (w : list Z) : Prop := span text q e w ∧ b1 !! e = Some 0.

Lemma args_mono (sp sp' : nat → nat → list Z → Prop) av ev ws :
  (∀ q e w, sp q e w → sp' q e w) → args_are sp av ev ws → args_are sp' av ev ws.
Proof. intros Hm (H1 & H2 & H3 & H4 & H5). split_and!; [done..| |done]. intros i w Hi. destruct (H4 i w Hi) as (q & e & ? & ? & ?). exists q, e. auto. Qed.

Lemma tree_mono (sp sp' : nat → nat → list Z → Prop) h p c :
  (∀ q e w, sp q e w → sp' q e w) → tree sp h p c → tree sp' h p c.
Proof.
  intros Hm. revert p. induction c as [ws|c IH k f|l IHl r IHr|l IHl r IHr|c IH]; intros p; simpl; [|naive_solver..].
  intros (av & ev & Hp & Ha). exists av, ev. split; [done|]. by eapply args_mono.
Qed.

Lemma closed_nuls b0 b1 q e w : nuls b0 b1 → closed b0 q e w → closed b1 q e w.
Proof. intros Hn [Hs H0]. split; [done|]. by eapply nuls_zero. Qed.

(** The end of a word is overwritten. *)
Lemma set_nul_spec st q e w Q :
  span text q e w → length (sh_buf st) = length b →
  (∀ st', sh_heap st' = sh_heap st → nuls (sh_buf st) (sh_buf st') → closed (sh_buf st') q e w → Q tt st') → wp (set_nul e) st Q.
Proof.
  intros Hs Hl HQ. pose proof Hs as [S1 S2 (r & S3 & S3') S4]. apply wp_modify, HQ; simpl; [done| |].
  - split; [apply length_insert|]. intros i. destruct (decide (i = e)) as [->|Hne]; [right|left; by rewrite list_lookup_insert_ne].
    rewrite list_lookup_insert_eq by (rewrite Hl, length_app; simpl; lia). split; [done|]. intros c Hc. apply S3'.
    pose proof (drop_past text q w r S3) as Hd. rewrite S1 in Hd. by rewrite <-Hd, head_lookup, lookup_drop, Nat.add_0_r.
  - split; [done|]. rewrite list_lookup_insert_eq; [done|]. rewrite Hl, length_app. simpl. lia.
Qed.

Lemma nul_args_spec av ev ws st :
  (∀ i w, ws !! i = Some w → ∃ q e, av !! i = Some (Some q) ∧ ev !! i = Some (Some e) ∧ span text q e w) →
  av !! length ws = Some None → length (sh_buf st) = length b →
  wp (nul_args av ev) st (λ _ st', sh_heap st' = sh_heap st ∧ nuls (sh_buf st) (sh_buf st') ∧
    ∀ i w, ws !! i = Some w → ∃ q e, av !! i = Some (Some q) ∧ ev !! i = Some (Some e) ∧ closed (sh_buf st') q e w).
Proof.
  revert av ev st. induction ws as [|w ws IH]; intros av ev st Ha Hend Hl.
  - destruct av as [|[q|] av]; [done|done|]. apply wp_ret. split_and!; [done|done|done].
  - destruct (Ha 0%nat w eq_refl) as (q & e & Hq & He & Hs). destruct av as [|a av]; [done|]. destruct ev as [|a' ev]; [done|].
    injection Hq as ->. injection He as ->. cbn [nul_args]. apply wp_bind, (set_nul_spec st q e w); [done|done|]. intros st1 Hh1 Hn1 Hc1.
    eapply wp_mono; [apply (IH av ev st1); [intros i w'; apply (Ha (S i) w')|done|by rewrite (nl_len _ _ Hn1)]|].
    intros [] st2 (Hh2 & Hn2 & Hc2). split_and!; [congruence|by etrans|]. intros [|i] w' Hi; [|by apply (Hc2 i w')].
    injection Hi as <-. exists q, e. split_and!; [done|done|]. by eapply closed_nuls.
Qed.

Definition nulled (p : nat) (c : cmd) (st : shell) (_ : unit) (st' : shell) : Prop :=
  sh_heap st' = sh_heap st ∧ nuls (sh_buf st) (sh_buf st') ∧ tree (closed (sh_buf st')) (sh_heap st) p c.

(** Two commands, one after the other. *)
Lemma nul_two n p1 p2 c1 c2 st :
  (∀ st, tree (span text) (sh_heap st) p1 c1 → length (sh_buf st) = length b → wp (nulterminate n p1) st (nulled p1 c1 st)) →
  (∀ st, tree (span text) (sh_heap st) p2 c2 → length (sh_buf st) = length b → wp (nulterminate n p2) st (nulled p2 c2 st)) →
  tree (span text) (sh_heap st) p1 c1 → tree (span text) (sh_heap st) p2 c2 → length (sh_buf st) = length b →
  wp (nulterminate n p1;; nulterminate n p2) st (λ _ st', sh_heap st' = sh_heap st ∧ nuls (sh_buf st) (sh_buf st') ∧
    tree (closed (sh_buf st')) (sh_heap st) p1 c1 ∧ tree (closed (sh_buf st')) (sh_heap st) p2 c2).
Proof.
  intros H1 H2 T1 T2 Hl. apply wp_bind. eapply wp_mono; [by apply H1|]. intros [] st1 (Hh1 & Hn1 & Ht1).
  eapply wp_mono; [apply H2; [by rewrite Hh1|by rewrite (nl_len _ _ Hn1)]|]. intros [] st2 (Hh2 & Hn2 & Ht2).
  split_and!; [congruence|by etrans| |by rewrite <-Hh1]. eapply tree_mono; [|done]. intros q e w. by apply closed_nuls.
Qed.

Lemma nulterminate_spec c n p st :
  tree (span text) (sh_heap st) p c → (p < n)%nat → length (sh_buf st) = length b → wp (nulterminate n p) st (nulled p c st).
Proof.
  revert n p st. induction c as [ws|c IH k f|l IHl r IHr|l IHl r IHr|c IH]; intros n p st Ht Hn Hl; (destruct n as [|n]; [lia|]);
    cbn [nulterminate]; apply wp_bind, wp_gets.
  - destruct Ht as (av & ev & Ep & Ha & H2 & H3 & H4 & H5). rewrite Ep.
    eapply wp_mono; [apply (nul_args_spec av ev ws); [done|apply H5; lia|done]|].
    intros [] st' (Hh & Hnl & Hc). split_and!; [done|done|]. exists av, ev. by split_and!.
  - destruct Ht as (p' & q & e & Ep & Hs & Hlt & Ht). rewrite Ep. apply wp_bind. eapply wp_mono; [apply (IH n p' st Ht); [lia|done]|].
    intros [] st1 (Hh1 & Hn1 & Ht1). apply (set_nul_spec st1 q e f); [done|by rewrite (nl_len _ _ Hn1)|]. intros st2 Hh2 Hn2 Hc2.
    split_and!; [congruence|by etrans|]. exists p', q, e. split_and!; [done|done|done|].
    eapply tree_mono; [|done]. intros q' e' w. by apply closed_nuls.
  - destruct Ht as (p1 & p2 & Ep & L1 & L2 & T1 & T2). rewrite Ep.
    eapply wp_mono; [apply (nul_two n p1 p2 l r st); [intros st' ? ?; apply IHl; [done|lia|done]|intros st' ? ?; apply IHr; [done|lia|done]|done..]|].
    intros [] st' (Hh & Hnl & Hc1 & Hc2). split_and!; [done|done|]. by exists p1, p2.
  - destruct Ht as (p1 & p2 & Ep & L1 & L2 & T1 & T2). rewrite Ep.
    eapply wp_mono; [apply (nul_two n p1 p2 l r st); [intros st' ? ?; apply IHl; [done|lia|done]|intros st' ? ?; apply IHr; [done|lia|done]|done..]|].
    intros [] st' (Hh & Hnl & Hc1 & Hc2). split_and!; [done|done|]. by exists p1, p2.
  - destruct Ht as (p' & Ep & Hlt & Ht). rewrite Ep. eapply wp_mono; [apply (IH n p' st Ht); [lia|done]|].
    intros [] st' (Hh & Hnl & Hc). split_and!; [done|done|]. by exists p'.
Qed.

(** ** Strings *)

Lemma cstring_prefix w r : Forall (λ c, c ≠ 0) w → cstring (w ++ 0 :: r) = w.
Proof. induction 1 as [|c w Hc _ IH]; [done|]. simpl. rewrite (proj2 (Z.eqb_neq c 0) Hc). by f_equal. Qed.

(** A closed word is a string of the buffer. *)
Lemma closed_string b1 q e w : nuls b b1 → closed b1 q e w → cstring (drop q b1) = w.
Proof.
  intros Hn [[S1 [_ S2] (r & S3 & _) S4] H0].
  assert (∀ i c, w !! i = Some c → text !! (q + i)%nat = Some c) as Hw.
  { intros i c Hi. rewrite <-lookup_drop, S3. by apply lookup_app_l_Some. }
  assert (drop q b1 = w ++ 0 :: drop (S e) b1) as ->.
  { rewrite <-(take_drop (length w) (drop q b1)), drop_drop, S1. f_equal; [|by apply drop_S].
    apply list_eq. intros i. destruct (decide (i < length w)%nat) as [Hi|Hi].
    - rewrite lookup_take_lt, lookup_drop by done. destruct (lookup_lt_is_Some_2 w i Hi) as [c Hc]. rewrite Hc. pose proof (Hw i c Hc) as Ht.
      destruct (nl_at _ _ Hn (q + i)) as [->|[_ Hbad]]; [by apply lookup_app_l_Some|]. destruct (Hbad c Ht).
      by apply (Forall_lookup_1 _ _ _ _ S2 Hc).
    - rewrite lookup_take_ge, lookup_ge_None_2 by lia. done. }
  apply cstring_prefix, Forall_lookup. intros i c Hi. apply (Forall_lookup_1 _ _ _ _ Hnz (Hw i c Hi)).
Qed.
End nul.

(** ** Messages

    The parser reports nothing itself before it is at the end. *)

Definition silent {A} (m : SH A) : Prop := ∀ s,
  match m s with Ok _ s' | Panic _ s' => sh_msgs s' = sh_msgs s | Diverge => True end.

Section silent.
Lemma silent_bind {A B} (m : SH A) (f : A → SH B) : silent m → (∀ a, silent (f a)) → silent (m ≫= f).
Proof.
  intros Hm Hf s. specialize (Hm s). unfold mbind, M_bind. destruct (m s) as [a s'|msg s'|]; [|done..].
  specialize (Hf a s'). destruct (f a s'); congruence || done.
Qed.
Lemma silent_loop {X R} (body : X → SH (X + R)) x : (∀ x, silent (body x)) → silent (loop body x).
Proof.
  intros Hb. apply silent_bind; [|by intros [y|v]]. generalize 64%nat as k. intros k. revert x.
  induction k as [|k IH]; intros x s; [apply Hb|].
  change (iterate (S k) body x s) with (match iterate k body x s with Ok (inl y) s' => iterate k body y s' | r => r end).
  pose proof (IH x s) as H1. destruct (iterate k body x s) as [[y|v] s'| |]; [|done..].
  pose proof (IH y s') as H2. destruct (iterate k body y s'); congruence || done.
Qed.
Lemma silent_new x : silent (new_node x).
Proof. done. Qed.
Lemma silent_arg cmd argc q eq : silent (set_arg cmd argc q eq).
Proof. done. Qed.
End silent.

Ltac silent :=
  repeat lazymatch goal with
  | |- silent (new_node _) => apply silent_new
  | |- silent (set_arg _ _ _ _) => apply silent_arg
  | |- silent (loop _ _) => apply silent_loop; intros
  | |- silent (_ ≫= _) => apply silent_bind; intros
  | |- silent (match ?x with _ => _ end) => destruct x
  | H : ∀ _, silent _ |- _ => first [apply H | done]
  | |- _ => done
  end.

Lemma silent_redirs es cmd ps : silent (parseredirs es cmd ps).
Proof. unfold parseredirs. silent. Qed.

Lemma silent_exec es pl ps : (∀ ps, silent (pl ps)) → silent (parseexec es pl ps).
Proof. intros Hpl. pose proof (λ q, silent_redirs es q.1 q.2) as Hr. unfold parseexec, parseblock. silent; [apply (Hr (_, _))..]. Qed.

Lemma silent_line es fuel ps : silent (parseline es fuel ps).
Proof.
  revert ps. induction fuel as [|fuel IH]; intros ps; [done|]. cbn [parseline].
  assert (∀ n ps, silent (parsepipe es (parseline es fuel) n ps)) as Hpipe.
  { induction n as [|n IHn]; intros ps1; [done|]. cbn [parsepipe]. pose proof (λ ps, silent_exec es _ ps IH) as He. silent. }
  silent.
Qed.

Lemma silent_nul fuel cmd : silent (nulterminate fuel cmd).
Proof.
  assert (∀ argv eargv, silent (nul_args argv eargv)) as Hargs.
  { induction argv as [|[q|] argv IH]; intros eargv; [done| |done]. destruct eargv as [|[e|] eargv]; simpl; silent. }
  revert cmd. induction fuel as [|fuel IH]; intros cmd; [done|]. cbn [nulterminate]. silent; by destruct eargv || apply Hargs.
Qed.

(** ** parsecmd() *)

(** A pointer to a string of the buffer. *)
Definition string_at (b1 : list Z) (q e : nat) (w : list Z) : Prop := cstring (drop q b1) = w.

Section parsecmd.
Context (text junk : list Z) (h0 : list node) (ts : list token).
Context (Hnz : Forall (λ c, c ≠ 0) text) (Hsmall : Z.of_nat (length text) < 2 ^ 31) (Hlex : lexes text ts).
Abbreviation st0 := (mkShell (text ++ 0 :: junk) h0 []).

Lemma follow_all : follow text 0 ts.
Proof. split; [lia|done]. Qed.

(** Nothing is left when peek() comes to the end. *)
Lemma peek_end p rest p' t : follow text p rest → peek (text ++ 0 :: junk) (length text) p [] = (p', t) → p' = length text ↔ rest = [].
Proof.
  intros Hf. pose proof (follow_skip text junk p rest Hf) as (Hp & r & Hd & Hr). unfold peek. intros [= <- _].
  pose proof (drop_length text _ r (proj2 Hp) Hd) as Hl. split.
  - intros E. assert (r = []) as -> by (apply length_zero_iff_nil; lia). destruct rest as [|t' rest]; [done|].
    apply token_text_cons in Hr. destruct t' as [w|c|]; destruct Hr as (r' & Er & Hr); [|done|done].
    symmetry in Er. apply app_eq_nil in Er as [-> _]. naive_solver.
  - intros ->. assert (r = []) as -> by (by inversion Hr). simpl in Hl. lia.
Qed.

Lemma parsecmd_complete c : gline ts c → wp parsecmd st0 (λ p st', tree (string_at (sh_buf st')) (sh_heap st') p c).
Proof.
  intros Hg. unfold parsecmd. apply wp_bind, wp_gets. cbn [sh_buf]. rewrite cstring_prefix by done.
  apply wp_bind. eapply wp_mono.
  { apply (proj1 (parse_ok text junk Hnz Hsmall) ts c Hg (S (length text)) 0%nat []); [done|rewrite app_nil_r; apply follow_all|by left|lia]. }
  intros [cmd p] st1 (B1 & B2 & B3 & B4 & B5). cbn [fst snd] in *. apply wp_bind, wp_gets. rewrite B1.
  destruct (peek (text ++ 0 :: junk) (length text) p []) as [p' t] eqn:Ep. rewrite (proj2 (peek_end _ _ _ _ B4 Ep) eq_refl), Nat.eqb_refl. simpl negb. cbv iota.
  apply wp_bind. eapply wp_mono; [apply (nulterminate_spec text junk c (S cmd) cmd st1); [done|lia|by rewrite B1]|].
  intros [] st2 (C1 & C2 & C3). apply wp_ret. rewrite C1. eapply tree_mono; [|done]. intros q e w. apply (closed_string text junk Hnz). by rewrite <-B1.
Qed.

Lemma parsecmd_accepts : runs parsecmd st0 (λ _ _, ∃ c, gline ts c).
Proof.
  unfold parsecmd. apply runs_bind, runs_gets. cbn [sh_buf]. rewrite cstring_prefix by done.
  apply runs_bind. eapply runs_mono; [apply (runs_line text junk Hnz Hsmall (S (length text)) 0%nat ts st0); [done|apply follow_all|lia]|].
  intros [cmd p] st1 (t1 & c & rest & Ets & Hg & B1 & B2 & B3 & B4 & B5). cbn [fst snd] in *. apply runs_bind, runs_gets. rewrite B1.
  destruct (peek (text ++ 0 :: junk) (length text) p []) as [p' t] eqn:Ep. destruct (Nat.eqb_spec p' (length text)) as [E|E]; [|done].
  apply (peek_end _ _ _ _ B4 Ep) in E as ->. rewrite app_nil_r in Ets. subst t1. simpl negb. cbv iota.
  apply runs_bind, wp_runs. eapply wp_mono; [apply (nulterminate_spec text junk c (S cmd) cmd st1); [done|lia|by rewrite B1]|].
  intros [] st2 _. apply runs_ret. by exists c.
Qed.

(** What is written before a syntax error: nothing, or what follows a phrase at
    the start of the line. *)
Definition complaint (msg : string) (msgs : list (list Z * list Z)) : Prop :=
  msgs = [] ∨ msg = "syntax"%string ∧ ∃ w t1 c rest, msgs = [(leftovers, w)] ∧ w `suffix_of` text ∧
    ts = t1 ++ rest ∧ gline t1 c ∧ rest ≠ [] ∧ lexes w rest.

Lemma parsecmd_msgs :
  match parsecmd st0 with Ok _ st => sh_msgs st = [] | Panic msg st => complaint msg (sh_msgs st) | Diverge => True end.
Proof.
  unfold parsecmd. unfold mbind at 1, M_bind at 1, gets at 1. cbn [sh_buf]. rewrite cstring_prefix by done.
  pose proof (silent_line (length text) (S (length text)) 0 st0) as Hsil.
  pose proof (runs_line text junk Hnz Hsmall (S (length text)) 0%nat ts st0 eq_refl follow_all ltac:(lia)) as Hrun.
  unfold mbind at 1, M_bind at 1. unfold runs in Hrun.
  destruct (parseline (length text) (S (length text)) 0 st0) as [[cmd p] st1|msg st1|]; [|by left|done]. simpl in Hsil.
  destruct Hrun as (t1 & c & rest & Ets & Hg & B1 & B2 & B3 & B4 & B5). cbn [fst snd] in *.
  unfold get_peek, gets, mbind at 1, M_bind at 1. rewrite B1.
  destruct (peek_spec text junk Hnz p rest [] B4) as (p' & Ep & [Hp' Hl'] & _ & _). rewrite Ep.
  pose proof (peek_end p rest p' _ B4 Ep) as Hend. destruct (Nat.eqb_spec p' (length text)) as [E|E]; simpl negb; cbv iota.
  - apply Hend in E as ->. rewrite app_nil_r in Ets. subst t1.
    pose proof (nulterminate_spec text junk c (S cmd) cmd st1 ltac:(done) ltac:(lia) ltac:(by rewrite B1)) as Hn.
    pose proof (silent_nul (S cmd) cmd st1) as Hs2. unfold wp in Hn. unfold mbind, M_bind.
    change (negb true) with false. cbv beta iota.
    destruct (nulterminate (S cmd) cmd st1); [|done..]. simpl in Hs2. unfold mret, M_ret. by rewrite Hs2.
  - change (negb false) with true. cbv beta iota. unfold mbind, M_bind, modify, panic. cbn [upd_sh_msgs sh_msgs].
    rewrite Hsil. right. split; [done|]. exists (drop p' text), t1, c, rest. rewrite B1, drop_app_le by lia.
    split_and!; [|by apply suffix_drop|done|done|by intros ->; apply E, Hend|done]. simpl. do 2 f_equal. apply cstring_prefix. by apply Forall_drop.
Qed.
End parsecmd.

(** C28. parsecmd() of the shell ends on every command line, and implements the
    grammar: when the line is a phrase of the grammar it returns the command the
    phrase stands for, every argument and file name a NUL-terminated string of
    the buffer; when it is not, it ends in a syntax error. *)
Theorem parsecmd_correct text junk h0 ts :
  Forall (λ c, c ≠ 0) text → Z.of_nat (length text) < 2 ^ 31 → lexes text ts →
  match parsecmd (mkShell (text ++ 0 :: junk) h0 []) with
  | Ok p st' => (∃ c, gline ts c) ∧ ∀ c, gline ts c → tree (string_at (sh_buf st')) (sh_heap st') p c
  | Panic _ _ => ∀ c, ¬ gline ts c
  | Diverge => False
  end.
Proof.
  intros Hnz Hs Hl. pose proof (parsecmd_accepts text junk h0 ts Hnz Hs Hl) as Ha.
  pose proof (parsecmd_complete text junk h0 ts Hnz Hs Hl) as Hc. unfold runs, wp in *.
  destruct (parsecmd _) as [p st'|msg st'|]; [by split|by intros c Hg; apply (Hc c)|done].
Qed.

(** a b>f|(c;d)& *)
Definition demo_line : list Z := chars "a b>f|(c;d)&".
Definition demo_toks : list token :=
  [Tword (chars "a"); Tword (chars "b"); Tsym 62; Tword (chars "f"); Tsym 124; Tsym 40; Tword (chars "c"); Tsym 59; Tword (chars "d"); Tsym 41; Tsym 38].
Definition demo_cmd : cmd :=
  BACK (PIPE (REDIR (EXEC [chars "a"; chars "b"]) R_out (chars "f")) (LIST (EXEC [chars "c"]) (EXEC [chars "d"]))).

Lemma demo_lexes : lexes demo_line demo_toks.
Proof.
  assert (∀ c r ts, c ∈ chars "|();&<" → lexes r ts → lexes (c :: r) (Tsym c :: ts)) as Hsym by (intros c r ts; by apply (lex_sym [])).
  assert (∀ c r ts, wordc c → word_end r → lexes r ts → lexes (c :: r) (Tword [c] :: ts)) as Hword.
  { intros c r ts Hc Hr Hl. apply (lex_word [] [c] r); [done|done|by constructor|done|done]. }
  assert (∀ c, bool_decide (c ∈ whitespace ∨ c ∈ symbols) = true → ∀ r, word_end (c :: r)) as Hend.
  { intros c Hc%bool_decide_eq_true r d [= <-] [H1 H2]. by destruct Hc. }
  apply Hword; [by apply (bool_decide_unpack _)|by apply Hend|]. apply (lex_word [32] [98]); [by apply (bool_decide_unpack _)|done|by apply (bool_decide_unpack _)|by apply Hend|].
  apply (lex_out []); [done|done|]. apply Hword; [by apply (bool_decide_unpack _)|by apply Hend|].
  apply Hsym; [by apply (bool_decide_unpack _)|]. apply Hsym; [by apply (bool_decide_unpack _)|].
  apply Hword; [by apply (bool_decide_unpack _)|by apply Hend|]. apply Hsym; [by apply (bool_decide_unpack _)|].
  apply Hword; [by apply (bool_decide_unpack _)|by apply Hend|]. apply Hsym; [by apply (bool_decide_unpack _)|].
  apply Hsym; [by apply (bool_decide_unpack _)|]. by apply (lex_nil []).
Qed.

Lemma demo_grammar : gline demo_toks demo_cmd.
Proof.
  apply (gline_last (take 10 demo_toks) _ 1). apply (gpipe_bar (take 4 demo_toks) _ (drop 5 (take 10 demo_toks))).
  - by apply (gexec_simple [Arg (chars "a"); Arg (chars "b"); Red (R_out, chars "f")]), Nat.ltb_lt.
  - apply gpipe_last, (gexec_block (take 3 (drop 6 demo_toks)) _ []).
    apply (gline_seq [Tword (chars "c")] _ 0 [Tword (chars "d")]).
    + by apply gpipe_last, (gexec_simple [Arg (chars "c")]), Nat.ltb_lt.
    + by apply (gline_last [Tword (chars "d")] _ 0), gpipe_last, (gexec_simple [Arg (chars "d")]), Nat.ltb_lt.
Qed.

Lemma parsecmd_correct_witness :
  match parsecmd (mkShell (demo_line ++ [0]) [] []) with
  | Ok p st' => tree (string_at (sh_buf st')) (sh_heap st') p demo_cmd
  | _ => False
  end.
Proof.
  pose proof (parsecmd_correct demo_line [] [] demo_toks) as H.
  specialize (H ltac:(by apply (bool_decide_unpack _)) ltac:(done) demo_lexes).
  destruct (parsecmd _) as [p st'|msg st'|]; [by apply H, demo_grammar|by apply (H demo_cmd), demo_grammar|done].
Defined.
