(* ===== verification/Grep.v ===== *)
(** * Regular expressions of grep (user/grep.c)

    match(), matchhere() and matchstar() over strings, and the language that a
    pattern stands for.  C strings are lists without NULs, so the end of the list
    is the terminator. *)

From stdpp Require Import list strings.
From Stdlib Require Import ZArith Lia.
From S2P Require Import Prelude.
#[local] Open Scope Z_scope.

(** ** The matcher *)

(** matchstar(): [c] is repeated, and [here] is matchhere() for the rest of the
    pattern. *)
Fixpoint matchstar (c : Z) (here : list Z → bool) (text : list Z) : bool :=
  if here text then true else
  match text with
  | [] => false
  | t :: text' => if (t =? c) || (c =? 46) then matchstar c here text' else false
  end.

Fixpoint matchhere (re : list Z) (text : list Z) : bool :=
  match re with
  | [] => true
  | c :: re1 =>
      let plain :=
        if (c =? 36) && bool_decide (re1 = []) then bool_decide (text = []) else
        match text with
        | t :: text' => if (c =? 46) || (c =? t) then matchhere re1 text' else false
        | [] => false
        end in
      match re1 with
      | d :: re2 => if d =? 42 then matchstar c (matchhere re2) text else plain
      | [] => plain
      end
  end.

(** The do-while loop of match(). *)
Fixpoint match_at (re : list Z) (text : list Z) : bool :=
  if matchhere re text then true else
  match text with
  | [] => false
  | _ :: text' => match_at re text'
  end.

Definition match_re (re text : list Z) : bool :=
  match re with
  | c :: re' => if c =? 94 then matchhere re' text else match_at re text
  | [] => match_at re text
  end.

(** ** The language of a pattern *)

(** A character, or any character. *)
Definition class_ok (c t : Z) : Prop := c = 46 ∨ c = t.

(** A pattern: characters that are matched once or any number of times, and
    whether it is tied to the start and to the end of the line. *)
Inductive piece : Type := One (c : Z) | Many (c : Z).
Record regex : Type := mkRegex { rx_start : bool; rx_pieces : list piece; rx_end : bool }.

Inductive piece_lang : piece → list Z → Prop :=
| pl_one c t : class_ok c t → piece_lang (One c) [t]
| pl_many c ts : Forall (class_ok c) ts → piece_lang (Many c) ts.

(** Concatenation. *)
Inductive pieces_lang : list piece → list Z → Prop :=
| psl_nil : pieces_lang [] []
| psl_cons p ps s s' : piece_lang p s → pieces_lang ps s' → pieces_lang (p :: ps) (s ++ s').

(** The line has a part in the language, at the start or the end if the pattern
    says so. *)
Definition matches (r : regex) (text : list Z) : Prop :=
  ∃ pre mid post, text = pre ++ mid ++ post ∧ pieces_lang (rx_pieces r) mid ∧
    (rx_start r = true → pre = []) ∧ (rx_end r = true → post = []).

(** The pieces of a pattern, and whether it ends with $. *)
Fixpoint parse_pieces (re : list Z) : list piece * bool :=
  match re with
  | [] => ([], false)
  | c :: re1 =>
      match re1 with
      | [] => if c =? 36 then ([], true) else ([One c], false)
      | d :: re2 =>
          if d =? 42 then let '(ps, e) := parse_pieces re2 in (Many c :: ps, e)
          else let '(ps, e) := parse_pieces re1 in (One c :: ps, e)
      end
  end.

Definition parse_re (re : list Z) : regex :=
  match re with
  | c :: re' =>
      if c =? 94 then let '(ps, e) := parse_pieces re' in mkRegex true ps e
      else let '(ps, e) := parse_pieces re in mkRegex false ps e
  | [] => mkRegex false [] false
  end.

(** ** The matcher decides the language *)

Definition here_lang (pe : list piece * bool) (text : list Z) : Prop :=
  ∃ mid post, text = mid ++ post ∧ pieces_lang pe.1 mid ∧ (pe.2 = true → post = []).

Lemma matchstar_spec c here text :
  matchstar c here text = true ↔ ∃ ts rest, text = ts ++ rest ∧ Forall (class_ok c) ts ∧ here rest = true.
Proof.
  induction text as [|t text IH]; simpl; destruct (here _) eqn:Hh.
  - split; [intros _; by exists [], []|done].
  - split; [done|]. intros (ts & rest & E & _ & Hr). symmetry in E. apply app_eq_nil in E as [-> ->]. congruence.
  - split; [intros _; by exists [], (t :: text)|done].
  - assert ((t =? c) || (c =? 46) = true ↔ class_ok c t) as Hc.
    { rewrite orb_true_iff, !Z.eqb_eq. unfold class_ok. naive_solver. }
    destruct ((t =? c) || (c =? 46)) eqn:E.
    + rewrite IH. split.
      * intros (ts & rest & -> & Hts & Hr). exists (t :: ts), rest. split_and!; [done|constructor; [by apply Hc|done]|done].
      * intros ([|t' ts] & rest & Et & Hts & Hr); [simpl in Et; congruence|]. injection Et as <- ->.
        apply Forall_cons in Hts as [_ Hts]. by exists ts, rest.
    + split; [done|]. intros ([|t' ts] & rest & Et & Hts & Hr); [simpl in Et; congruence|]. injection Et as <- ->.
      apply Forall_cons in Hts as [Ht _]. by apply Hc in Ht.
Qed.

Lemma here_lang_one c ps e text :
  here_lang (One c :: ps, e) text ↔ ∃ t text', text = t :: text' ∧ class_ok c t ∧ here_lang (ps, e) text'.
Proof.
  unfold here_lang. simpl. split.
  - intros (mid & post & -> & Hm & He). inversion Hm as [|p ps' s s' Hp Hps]; subst. inversion Hp; subst.
    exists t, (s' ++ post). split_and!; [done|done|]. by exists s', post.
  - intros (t & text' & -> & Hc & mid & post & -> & Hm & He). exists (t :: mid), post. split_and!; [done| |done].
    apply (psl_cons _ _ [t]); [by constructor|done].
Qed.

Lemma here_lang_many c ps e text :
  here_lang (Many c :: ps, e) text ↔ ∃ ts rest, text = ts ++ rest ∧ Forall (class_ok c) ts ∧ here_lang (ps, e) rest.
Proof.
  unfold here_lang. simpl. split.
  - intros (mid & post & -> & Hm & He). inversion Hm as [|p ps' s s' Hp Hps]; subst. inversion Hp; subst.
    exists s, (s' ++ post). split_and!; [by rewrite (assoc_L (++))|done|]. by exists s', post.
  - intros (ts & rest & -> & Hc & mid & post & -> & Hm & He). exists (ts ++ mid), post.
    split_and!; [by rewrite (assoc_L (++))| |done]. constructor; [by constructor|done].
Qed.

Lemma here_lang_nil e text : here_lang ([], e) text ↔ (e = true → text = []).
Proof.
  unfold here_lang. simpl. split.
  - intros (mid & post & -> & Hm & He). inversion Hm; subst. simpl. done.
  - intros He. exists [], text. split_and!; [done|constructor|done].
Qed.

(** A character that is matched once, or $ at the end. *)
Lemma plain_spec c re1 text :
  (∀ t, matchhere re1 t = true ↔ here_lang (parse_pieces re1) t) →
  (if (c =? 36) && bool_decide (re1 = []) then bool_decide (text = []) else
    match text with
    | t :: text' => if (c =? 46) || (c =? t) then matchhere re1 text' else false
    | [] => false
    end) = true ↔
  here_lang (if (c =? 36) && bool_decide (re1 = []) then ([], true) else (One c :: (parse_pieces re1).1, (parse_pieces re1).2)) text.
Proof.
  intros IH. destruct ((c =? 36) && bool_decide (re1 = [])).
  - rewrite here_lang_nil, bool_decide_eq_true. naive_solver.
  - rewrite here_lang_one, <-surjective_pairing. destruct text as [|t text]; [naive_solver|].
    assert ((c =? 46) || (c =? t) = true ↔ class_ok c t) as Hc by (rewrite orb_true_iff, !Z.eqb_eq; done).
    destruct ((c =? 46) || (c =? t)); [rewrite IH|]; naive_solver.
Qed.

Lemma matchhere_spec re text : matchhere re text = true ↔ here_lang (parse_pieces re) text.
Proof.
  revert text. remember (length re) as n eqn:Hn. revert re Hn. induction (lt_wf n) as [n _ IH]. intros re -> text.
  destruct re as [|c re1]; [split; [intros _; by apply here_lang_nil|done]|].
  pose proof (plain_spec c re1 text (IH (length re1) ltac:(simpl; lia) re1 eq_refl)) as Hp.
  destruct re1 as [|d re2].
  - cbn [matchhere parse_pieces]. rewrite Hp. rewrite bool_decide_eq_true_2 by done. rewrite andb_true_r. by destruct (c =? 36).
  - rewrite bool_decide_eq_false_2, andb_false_r in Hp by done. cbn [matchhere]. rewrite bool_decide_eq_false_2, andb_false_r by done.
    change (parse_pieces (c :: d :: re2)) with (if d =? 42 then let '(ps, e) := parse_pieces re2 in (Many c :: ps, e)
      else let '(ps, e) := parse_pieces (d :: re2) in (One c :: ps, e)).
    destruct (d =? 42).
    + rewrite matchstar_spec. pose proof (IH (length re2) ltac:(simpl; lia) re2 eq_refl) as Hre.
      destruct (parse_pieces re2) as [ps e]. rewrite here_lang_many. by setoid_rewrite Hre.
    + destruct (parse_pieces (d :: re2)) as [ps e]. exact Hp.
Qed.

Lemma match_at_spec re text :
  match_at re text = true ↔ ∃ pre rest, text = pre ++ rest ∧ matchhere re rest = true.
Proof.
  induction text as [|t text IH]; cbn [match_at]; destruct (matchhere re _) eqn:Hh.
  - split; [intros _; by exists [], []|done].
  - split; [done|]. intros (pre & rest & E & Hr). symmetry in E. apply app_eq_nil in E as [-> ->]. congruence.
  - split; [intros _; by exists [], (t :: text)|done].
  - rewrite IH. split.
    + intros (pre & rest & -> & Hr). by exists (t :: pre), rest.
    + intros ([|t' pre] & rest & E & Hr); [simpl in E; congruence|]. injection E as <- ->. by exists pre, rest.
Qed.

(** C30. match() of grep decides the language of the pattern: it returns true
    exactly for the lines with a part that is a concatenation of characters, of
    "." for any character and of "x*" for any number of x, at the start of the
    line when the pattern begins with ^, at its end when it ends with $. *)
Theorem match_correct re text : match_re re text = true ↔ matches (parse_re re) text.
Proof.
  assert (∀ ps e, (∃ pre rest, text = pre ++ rest ∧ here_lang (ps, e) rest) ↔ matches (mkRegex false ps e) text) as Hfree.
  { intros ps e. unfold matches, here_lang. simpl. split; [intros (pre & rest & -> & mid & post & -> & Hm & He); by exists pre, mid, post|].
    intros (pre & mid & post & -> & Hm & _ & He). exists pre, (mid ++ post). split; [done|]. by exists mid, post. }
  assert (∀ ps e, here_lang (ps, e) text ↔ matches (mkRegex true ps e) text) as Htied.
  { intros ps e. unfold matches, here_lang. simpl. split; [intros (mid & post & -> & Hm & He); by exists [], mid, post|].
    intros (pre & mid & post & -> & Hm & Hs & He). rewrite (Hs eq_refl). by exists mid, post. }
  destruct re as [|c re]; [unfold match_re, parse_re; rewrite <-Hfree, match_at_spec; by setoid_rewrite (matchhere_spec [])|].
  unfold match_re, parse_re. destruct (c =? 94).
  - rewrite matchhere_spec. destruct (parse_pieces re) as [ps e]. apply Htied.
  - rewrite match_at_spec. setoid_rewrite matchhere_spec. destruct (parse_pieces (c :: re)) as [ps e]. apply Hfree.
Qed.
