(* ===== verification/User.v ===== *)
(** * User programs: system calls for files, formatted output, cat, wc, echo, grep

    A program sees its open files as streams.  What a read() returns is chosen by
    the environment: any non-empty part of what is left, or an error; a write()
    takes all bytes or fails.  Output is recorded as pairs of a descriptor and a
    byte.  The result of main() is the argument of its exit(). *)

From stdpp Require Import gmap list strings.
From Stdlib Require Import ZArith Lia.
From S2P Require Import Prelude Params Grep.
#[local] Open Scope Z_scope.

Record uproc : Type := mkUproc {
  u_fds : gmap Z (list Z);               (* what is left to read of the open files *)
  u_files : list Z → option (list Z);    (* the contents of the files by name *)
  u_reads : list (option nat);           (* how the next calls of read() go *)
  u_writes : list bool;                  (* whether the next calls of write() fail *)
  u_out : list (Z * Z);
}.
Definition upd_u_fds (f : gmap Z (list Z) → gmap Z (list Z)) (u : uproc) : uproc :=
  mkUproc (f (u_fds u)) (u_files u) (u_reads u) (u_writes u) (u_out u).
Definition upd_u_reads (f : list (option nat) → list (option nat)) (u : uproc) : uproc :=
  mkUproc (u_fds u) (u_files u) (f (u_reads u)) (u_writes u) (u_out u).
Definition upd_u_writes (f : list bool → list bool) (u : uproc) : uproc :=
  mkUproc (u_fds u) (u_files u) (u_reads u) (f (u_writes u)) (u_out u).
Definition upd_u_out (f : list (Z * Z) → list (Z * Z)) (u : uproc) : uproc :=
  mkUproc (u_fds u) (u_files u) (u_reads u) (u_writes u) (f (u_out u)).

Abbreviation U := (M uproc).

(** ** System calls *)

(** [None] is the result -1.  [Some k] allows up to [k + 1] bytes. *)
Definition read (fd : Z) (n : nat) : U (option (list Z)) :=
  rs ← gets u_reads;
  modify (upd_u_reads tail);;
  rest ← gets (λ u, u_fds u !! fd);
  match rest, rs with
  | None, _ | _, None :: _ => mret None
  | Some l, _ =>
      let m := Nat.min n (Nat.min (match rs with Some k :: _ => S k | _ => n end) (length l)) in
      modify (upd_u_fds (<[fd := drop m l]>));;
      mret (Some (take m l))
  end.

(** Whether all bytes were written. *)
Definition write (fd : Z) (bs : list Z) : U bool :=
  ws ← gets u_writes;
  modify (upd_u_writes tail);;
  match ws with
  | true :: _ => mret false
  | _ => modify (upd_u_out (λ o, o ++ ((fd,.) <$> bs)));; mret true
  end.

(** The lowest descriptor that is free, open for reading. *)
Definition open (name : list Z) : U (option Z) :=
  u ← gets id;
  match u_files u name, list_find (λ fd, u_fds u !! fd = None) (seqZ 0 NOFILE) with
  | Some l, Some (_, fd) => modify (upd_u_fds (<[fd := l]>));; mret (Some fd)
  | _, _ => mret None
  end.

Definition close (fd : Z) : U unit := modify (upd_u_fds (delete fd)).

(** ** user/printf.c *)

(** An argument of printf(): a number, or a string or null pointer. *)
Inductive arg : Type :=
| A_int (z : Z)
| A_str (s : option (list Z)).

Definition putc (fd c : Z) : U unit := write fd [u8 c];; mret tt.
Fixpoint put_all (fd : Z) (cs : list Z) : U unit :=
  match cs with
  | [] => mret tt
  | c :: cs' => putc fd c;; put_all fd cs'
  end.

Definition digits : list Z := chars "0123456789ABCDEF".
Definition digit (d : Z) : Z := default 0 (digits !! Z.to_nat d).

(** The do-while loop of printint(): the contents of [buf], the last digit first;
    a number of 32 bits has fewer than 16 digits. *)
Fixpoint printint_digits (n : nat) (x base : Z) : list Z :=
  match n with
  | O => []
  | S n' => digit (x mod base) :: (if x / base =? 0 then [] else printint_digits n' (x / base) base)
  end.

Definition printint (fd xx base : Z) (sgn : bool) : U unit :=
  let xx := s32 xx in
  let neg := sgn && (xx <? 0) in
  let x := u32 (if neg then - xx else xx) in
  let buf := printint_digits 16 x base in
  let buf := if neg then buf ++ [45] else buf in
  put_all fd (reverse buf).

Fixpoint printptr_loop (fd : Z) (n : nat) (x : Z) : U unit :=
  match n with
  | O => mret tt
  | S n' => putc fd (digit (Z.shiftr x 60));; printptr_loop fd n' (u64 (Z.shiftl x 4))
  end.
Definition printptr (fd x : Z) : U unit :=
  putc fd 48;;
  putc fd 120;;
  printptr_loop fd 16 (u64 x).

(** The loop over the format string; [state] is whether a % came before.  A
    missing argument, or one of another type, has no defined value in C; nothing
    is printed for it. *)
Fixpoint vprintf (fd : Z) (state : bool) (fmt : list Z) (ap : list arg) : U unit :=
  match fmt with
  | [] => mret tt
  | c :: fmt' =>
      if negb state then
        if c =? 37 then vprintf fd true fmt' ap else putc fd c;; vprintf fd false fmt' ap
      else if c =? 100 then
        match ap with A_int z :: _ => printint fd z 10 true | _ => mret tt end;;
        vprintf fd false fmt' (tail ap)
      else if c =? 108 then
        match ap with A_int z :: _ => printint fd z 10 false | _ => mret tt end;;
        vprintf fd false fmt' (tail ap)
      else if c =? 120 then
        match ap with A_int z :: _ => printint fd z 16 false | _ => mret tt end;;
        vprintf fd false fmt' (tail ap)
      else if c =? 112 then
        match ap with A_int z :: _ => printptr fd z | _ => mret tt end;;
        vprintf fd false fmt' (tail ap)
      else if c =? 115 then
        match ap with A_str s :: _ => put_all fd (default (chars "(null)") s) | _ => mret tt end;;
        vprintf fd false fmt' (tail ap)
      else if c =? 99 then
        match ap with A_int z :: _ => putc fd z | _ => mret tt end;;
        vprintf fd false fmt' (tail ap)
      else if c =? 37 then putc fd c;; vprintf fd false fmt' ap
      else putc fd 37;; putc fd c;; vprintf fd false fmt' ap
  end.

Definition fprintf (fd : Z) (fmt : list Z) (ap : list arg) : U unit := vprintf fd false fmt ap.
Definition printf (fmt : list Z) (ap : list arg) : U unit := vprintf 1 false fmt ap.

(** ** Running over the arguments *)

(** The loop of the main() of cat, wc and grep over the file names: the exit
    status. *)
Definition each_file (cannot : list Z → U unit) (f : Z → list Z → U (option Z)) (names : list (list Z)) : U Z :=
  loop (λ names,
    match names with
    | [] => break 0
    | name :: names' =>
        fd ← open name;
        match fd with
        | None => cannot name;; break 1
        | Some fd =>
            r ← f fd name;
            match r with
            | Some status => break status
            | None => close fd;; continue names'
            end
        end
    end) names.

(** ** user/cat.c *)

Module Cat.
(** [Some status] when the program exits. *)
Definition cat (fd : Z) : U (option Z) :=
  loop (λ _ : unit,
    r ← read fd 512;
    match r with
    | None => fprintf 2 (chars "cat: read error" ++ [10]) [];; break (Some 1)
    | Some [] => break None
    | Some bs =>
        ok ← write 1 bs;
        if ok : bool then continue tt else fprintf 2 (chars "cat: write error" ++ [10]) [];; break (Some 1)
    end) tt.

Definition main (argv : list (list Z)) : U Z :=
  match argv with
  | _ :: name :: names =>
      each_file (λ name, fprintf 2 (chars "cat: cannot open %s" ++ [10]) [A_str (Some name)]) (λ fd _, cat fd) (name :: names)
  | _ => r ← cat 0; mret (default 0 r)
  end.
End Cat.

(** ** user/wc.c *)

Module Wc.
Definition spaces : list Z := [32; 13; 9; 10; 11].

(** The body of the loop over the bytes: lines, words, characters, inword. *)
Definition count (s : Z * Z * Z * bool) (ch : Z) : Z * Z * Z * bool :=
  let '(l, w, c, inword) := s in
  let c := s32 (c + 1) in
  let l := if ch =? 10 then s32 (l + 1) else l in
  if bool_decide (ch ∈ spaces) then (l, w, c, false)
  else if inword then (l, w, c, inword)
  else (l, s32 (w + 1), c, true).

Definition wc (fd : Z) (name : list Z) : U (option Z) :=
  r ← loop (λ s,
    r ← read fd 512;
    match r with
    | None => break None
    | Some [] => break (Some s)
    | Some bs => continue (foldl count s bs)
    end) (0, 0, 0, false);
  match r with
  | None => printf (chars "wc: read error" ++ [10]) [];; mret (Some 1)
  | Some (l, w, c, _) => printf (chars "%d %d %d %s" ++ [10]) [A_int l; A_int w; A_int c; A_str (Some name)];; mret None
  end.

Definition main (argv : list (list Z)) : U Z :=
  match argv with
  | _ :: name :: names => each_file (λ name, printf (chars "wc: cannot open %s" ++ [10]) [A_str (Some name)]) wc (name :: names)
  | _ => r ← wc 0 []; mret (default 0 r)
  end.
End Wc.

(** ** user/echo.c *)

Module Echo.
Fixpoint echo (args : list (list Z)) : U unit :=
  match args with
  | [] => mret tt
  | a :: args' => write 1 a;; write 1 (if bool_decide (args' = []) then [10] else [32]);; echo args'
  end.
Definition main (argv : list (list Z)) : U Z := echo (tail argv);; mret 0.
End Echo.

(** ** user/grep.c *)

Module GrepProg.
(** q = strchr(p, newline): the line before it and what comes after it. *)
Fixpoint next_line (p : list Z) : option (list Z * list Z) :=
  match p with
  | [] => None
  | c :: p' =>
      if c =? 0 then None
      else if c =? 10 then Some ([], p')
      else '(line, rest) ← next_line p'; Some (c :: line, rest)
  end.

(** The loop over the lines of the buffer; what is left of it. *)
Definition lines_loop (pattern p : list Z) : U (list Z) :=
  loop (λ p,
    match next_line p with
    | None => break p
    | Some (line, rest) =>
        when (match_re pattern line) (write 1 (line ++ [10]);; mret tt);;
        continue rest
    end) p.

(** [buf] are the first [m] bytes of the buffer. *)
Definition grep (pattern : list Z) (fd : Z) : U unit :=
  loop (λ buf,
    r ← read fd (1024 - length buf - 1);
    match r with
    | None | Some [] => break tt
    | Some bs =>
        p ← lines_loop pattern (buf ++ bs);
        continue p
    end) [].

Definition main (argv : list (list Z)) : U Z :=
  match argv with
  | _ :: pattern :: name :: names =>
      each_file (λ name, printf (chars "grep: cannot open %s" ++ [10]) [A_str (Some name)])
        (λ fd _, grep pattern fd;; mret None) (name :: names)
  | [_; pattern] => grep pattern 0;; mret 0
  | _ => fprintf 2 (chars "usage: grep pattern [file ...]" ++ [10]) [];; mret 1
  end.
End GrepProg.
