(* ===== verification/UserSpec.v ===== *)
(** * What the user programs write

    The text that a format string stands for, and the output of cat, wc, echo and
    grep, however the reads split their input. *)

From stdpp Require Import gmap list strings.
From Stdlib Require Import ZArith Lia.
From S2P Require Import Prelude Params Grep User.
#[local] Open Scope Z_scope.

(** ** System calls *)

(** No call fails. *)
Record calm (u : uproc) : Prop := {
  ca_reads : Forall is_Some (u_reads u);
  ca_writes : u_writes u = [];
}.

(** [u'] is [u] with [bs] written to [fd]. *)
Definition wrote_out (fd : Z) (bs : list Z) (u : uproc) : uproc := upd_u_out (λ o, o ++ ((fd,.) <$> bs)) u.

Lemma calm_out f u : calm u → calm (upd_u_out f u).
Proof. by intros []. Qed.
Lemma calm_fds f u : calm u → calm (upd_u_fds f u).
Proof. by intros []. Qed.

Lemma wp_write fd bs u Q : calm u → Q true (wrote_out fd bs u) → wp (write fd bs) u Q.
Proof.
  intros [_ Hw] HQ. unfold write. apply wp_bind, wp_gets, wp_bind, wp_modify. rewrite Hw. apply wp_bind, wp_modify, wp_ret.
  destruct u as [fds files rs ws out]. simpl in *. by subst ws.
Qed.

Lemma wrote_out_app fd a c u : wrote_out fd c (wrote_out fd a u) = wrote_out fd (a ++ c) u.
Proof. unfold wrote_out, upd_u_out. simpl. by rewrite fmap_app, (assoc_L (++)). Qed.
Lemma wrote_out_nil fd u : wrote_out fd [] u = u.
Proof. unfold wrote_out, upd_u_out. destruct u. simpl. by rewrite app_nil_r. Qed.

(** What a read() of [n] bytes does to the descriptor. *)
Definition after_read (fd : Z) (l : list Z) (m : nat) (u : uproc) : uproc :=
  upd_u_fds (<[fd := drop m l]>) (upd_u_reads tail u).

Lemma wp_read fd n l u Q :
  calm u → u_fds u !! fd = Some l →
  (∀ m u', u' = after_read fd l m u → calm u' → (m ≤ n)%nat → (m ≤ length l)%nat → (m = 0 → n = 0 ∨ l = [])%nat → Q (Some (take m l)) u') →
  wp (read fd n) u Q.
Proof.
  intros [Hr Hw] Hl HQ. unfold read. apply wp_bind, wp_gets, wp_bind, wp_modify, wp_bind, wp_gets. simpl. rewrite Hl.
  assert (∀ m, calm (after_read fd l m u)) as Hc.
  { intros m. split; [|done]. simpl. destruct (u_reads u); [done|]. by apply Forall_cons in Hr as [_ ?]. }
  destruct (u_reads u) as [|[k|] rs]; [| |by apply Forall_cons in Hr as [[? ?] _]].
  - apply wp_bind, wp_modify, wp_ret. eapply HQ; [done|apply Hc|lia|lia|]. intros E. destruct l; [by right|left; simpl in E; lia].
  - apply wp_bind, wp_modify, wp_ret. eapply HQ; [done|apply Hc|lia|lia|]. intros E. destruct l; [by right|left; simpl in E; lia].
Qed.

(** ** Formatted output *)

Definition printint_text (xx base : Z) (sgn : bool) : list Z :=
  let xx := s32 xx in
  let neg := sgn && (xx <? 0) in
  let buf := printint_digits 16 (u32 (if neg then - xx else xx)) base in
  reverse (if neg then buf ++ [45] else buf).

Fixpoint printptr_text (n : nat) (x : Z) : list Z :=
  match n with
  | O => []
  | S n' => digit (Z.shiftr x 60) :: printptr_text n' (u64 (Z.shiftl x 4))
  end.

(** What a conversion prints for an argument. *)
Definition conv_text (c : Z) (a : option arg) : list Z :=
  match a with
  | Some (A_int z) =>
      if c =? 100 then printint_text z 10 true
      else if c =? 108 then printint_text z 10 false
      else if c =? 120 then printint_text z 16 false
      else if c =? 112 then [48; 120] ++ printptr_text 16 (u64 z)
      else if c =? 99 then [z]
      else []
  | Some (A_str s) => if c =? 115 then default (chars "(null)") s else []
  | None => []
  end.

Definition convs : list Z := chars "dlxpsc".

Fixpoint vtext (state : bool) (fmt : list Z) (ap : list arg) : list Z :=
  match fmt with
  | [] => []
  | c :: fmt' =>
      if negb state then if c =? 37 then vtext true fmt' ap else c :: vtext false fmt' ap
      else if bool_decide (c ∈ convs) then conv_text c (head ap) ++ vtext false fmt' (tail ap)
      else if c =? 37 then c :: vtext false fmt' ap
      else 37 :: c :: vtext false fmt' ap
  end.

(** The bytes of a text. *)
Definition bytes_of (t : list Z) : list Z := u8 <$> t.

Lemma wp_putc fd c u Q : calm u → Q tt (wrote_out fd (bytes_of [c]) u) → wp (putc fd c) u Q.
Proof. intros Hc HQ. unfold putc. apply wp_bind, wp_write; [done|]. by apply wp_ret. Qed.

Lemma wp_put_all fd cs u Q : calm u → Q tt (wrote_out fd (bytes_of cs) u) → wp (put_all fd cs) u Q.
Proof.
  revert u. induction cs as [|c cs IH]; intros u Hc HQ; [apply wp_ret; by rewrite wrote_out_nil in HQ|].
  cbn [put_all]. apply wp_bind, wp_putc; [done|]. apply IH; [by apply calm_out|]. by rewrite wrote_out_app.
Qed.

Lemma wp_printptr_loop fd n x u Q : calm u → Q tt (wrote_out fd (bytes_of (printptr_text n x)) u) → wp (printptr_loop fd n x) u Q.
Proof.
  revert x u. induction n as [|n IH]; intros x u Hc HQ; [apply wp_ret; by rewrite wrote_out_nil in HQ|].
  cbn [printptr_loop]. apply wp_bind, wp_putc; [done|]. apply IH; [by apply calm_out|]. by rewrite wrote_out_app.
Qed.

Lemma wp_printptr fd x u Q : calm u → Q tt (wrote_out fd (bytes_of ([48; 120] ++ printptr_text 16 (u64 x))) u) → wp (printptr fd x) u Q.
Proof.
  intros Hc HQ. unfold printptr. apply wp_bind, wp_putc; [done|]. apply wp_bind, wp_putc; [by apply calm_out|].
  apply wp_printptr_loop; [by do 2 apply calm_out|]. by rewrite !wrote_out_app.
Qed.

(** A part of the text, and then the rest. *)
Lemma wp_then fd a c (m : U unit) u Q :
  (∀ Q', Q' tt (wrote_out fd (bytes_of a) u) → wp m u Q') → ∀ k : U unit,
  (∀ Q', Q' tt (wrote_out fd (bytes_of c) (wrote_out fd (bytes_of a) u)) → wp k (wrote_out fd (bytes_of a) u) Q') →
  Q tt (wrote_out fd (bytes_of (a ++ c)) u) → wp (m;; k) u Q.
Proof.
  intros Hm k Hk HQ. apply wp_bind, Hm, Hk. rewrite wrote_out_app. unfold bytes_of in *. by rewrite <-fmap_app.
Qed.

Lemma vprintf_spec fd state fmt ap u Q :
  calm u → Q tt (wrote_out fd (bytes_of (vtext state fmt ap)) u) → wp (vprintf fd state fmt ap) u Q.
Proof.
  revert state ap u Q. induction fmt as [|c fmt IH]; intros state ap u Q Hc HQ; [apply wp_ret; by rewrite wrote_out_nil in HQ|].
  assert (∀ a ap' (m : U unit), (∀ Q', Q' tt (wrote_out fd (bytes_of a) u) → wp m u Q') →
    Q tt (wrote_out fd (bytes_of (a ++ vtext false fmt ap')) u) → wp (m;; vprintf fd false fmt ap') u Q) as Hthen.
  { intros a ap' m Hm HQ'. apply (wp_then fd a (vtext false fmt ap')); [done| |done]. intros Q' HQ2. apply IH; [by apply calm_out|done]. }
  assert (∀ d, Q tt (wrote_out fd (bytes_of (conv_text d (head ap) ++ vtext false fmt (tail ap))) u) → ∀ m : U unit,
    (∀ Q', Q' tt (wrote_out fd (bytes_of (conv_text d (head ap))) u) → wp m u Q') → wp (m;; vprintf fd false fmt (tail ap)) u Q) as Hconv.
  { intros d HQ' m Hm. by apply (Hthen (conv_text d (head ap))). }
  assert (∀ Q' : unit → uproc → Prop, Q' tt (wrote_out fd (bytes_of []) u) → wp (mret tt) u Q') as Hnil.
  { intros Q' HQ'. apply wp_ret. by rewrite wrote_out_nil in HQ'. }
  cbn [vprintf vtext] in *. destruct state; simpl negb in *; cbv iota in *.
  2: { destruct (c =? 37); [by apply IH|]. apply (Hthen [c] ap (putc fd c)); [|done]. intros Q' HQ'. by apply wp_putc. }
  destruct (Z.eqb_spec c 100) as [->|N1]; [apply (Hconv 100 HQ); intros Q' HQ'; destruct ap as [|[z|s] ap]; first [by apply wp_put_all|by apply Hnil]|].
  destruct (Z.eqb_spec c 108) as [->|N2]; [apply (Hconv 108 HQ); intros Q' HQ'; destruct ap as [|[z|s] ap]; first [by apply wp_put_all|by apply Hnil]|].
  destruct (Z.eqb_spec c 120) as [->|N3]; [apply (Hconv 120 HQ); intros Q' HQ'; destruct ap as [|[z|s] ap]; first [by apply wp_put_all|by apply Hnil]|].
  destruct (Z.eqb_spec c 112) as [->|N4]; [apply (Hconv 112 HQ); intros Q' HQ'; destruct ap as [|[z|s] ap]; first [by apply wp_printptr|by apply Hnil]|].
  destruct (Z.eqb_spec c 115) as [->|N5]; [apply (Hconv 115 HQ); intros Q' HQ'; destruct ap as [|[z|s] ap]; first [by apply wp_put_all|by apply Hnil]|].
  destruct (Z.eqb_spec c 99) as [->|N6]; [apply (Hconv 99 HQ); intros Q' HQ'; destruct ap as [|[z|s] ap]; first [by apply wp_putc|by apply Hnil]|].
  rewrite bool_decide_eq_false_2 in HQ.
  2: { unfold convs. simpl. rewrite !elem_of_cons, elem_of_nil. intuition. }
  destruct (c =? 37).
  - apply (Hthen [c] ap (putc fd c)); [|done]. intros Q' HQ'. by apply wp_putc.
  - apply wp_bind, wp_putc; [done|]. apply (wp_then fd [c] (vtext false fmt ap)).
    + intros Q' HQ'. by apply wp_putc; [apply calm_out|].
    + intros Q' HQ'. by apply IH; [do 2 apply calm_out|].
    + rewrite wrote_out_app. unfold bytes_of in *. by rewrite <-fmap_app.
Qed.

Lemma printf_spec fmt ap t u Q :
  t = bytes_of (vtext false fmt ap) → calm u → Q tt (wrote_out 1 t u) → wp (printf fmt ap) u Q.
Proof. intros ->. apply vprintf_spec. Qed.

(** ** Reading a file to its end *)

(** The program [f] has read [fd] and written [t] to its output. *)
Record handled (fd : Z) (t : list Z) (u u' : uproc) : Prop := {
  hd_calm : calm u';
  hd_files : u_files u' = u_files u;
  hd_fds : ∃ l', u_fds u' = <[fd := l']> (u_fds u);
  hd_out : u_out u' = u_out u ++ ((1,.) <$> t);
}.

(** What is left to read. *)
Definition left_of (fd : Z) (u : uproc) : list Z := default [] (u_fds u !! fd).

(** In the middle: [rest] is left, [t] has been written. *)
Record midway (fd : Z) (rest t : list Z) (u u' : uproc) : Prop := {
  mw_calm : calm u';
  mw_files : u_files u' = u_files u;
  mw_fds : u_fds u' = <[fd := rest]> (u_fds u);
  mw_out : u_out u' = u_out u ++ ((1,.) <$> t);
}.

Lemma midway_start fd l u : calm u → u_fds u !! fd = Some l → midway fd l [] u u.
Proof. intros Hc Hl. split; [done|done|by rewrite insert_id|by rewrite app_nil_r]. Qed.

Lemma midway_left fd rest t u u' : midway fd rest t u u' → u_fds u' !! fd = Some rest ∧ left_of fd u' = rest.
Proof. intros [_ _ E _]. unfold left_of. rewrite E, lookup_insert_eq. done. Qed.

Lemma midway_handled fd rest t u u' : midway fd rest t u u' → handled fd t u u'.
Proof. intros []. split; eauto. Qed.

Lemma midway_out fd rest t u u' s : midway fd rest t u u' → midway fd rest (t ++ s) u (wrote_out 1 s u').
Proof.
  intros [H1 H2 H3 H4]. split; [by apply calm_out|done|done|]. unfold wrote_out. simpl. by rewrite H4, fmap_app, (assoc_L (++)).
Qed.

(** A read() that finds something, or the end. *)
Lemma midway_read fd n rest t u u' Q :
  midway fd rest t u u' → (0 < n)%nat →
  (rest = [] → ∀ u2, midway fd [] t u u2 → Q (Some []) u2) →
  (∀ bs rest' u2, rest = bs ++ rest' → bs ≠ [] → (length bs ≤ n)%nat → midway fd rest' t u u2 → Q (Some bs) u2) →
  wp (read fd n) u' Q.
Proof.
  intros Hm Hn H0 H1. destruct (midway_left _ _ _ _ _ Hm) as [Hl _]. pose proof Hm as [M1 M2 M3 M4].
  apply (wp_read fd n rest u' Q M1 Hl). intros m u2 -> Hc Hmn Hml Hm0.
  assert (midway fd (drop m rest) t u (after_read fd rest m u')) as Hm2.
  { split; [done|done| |done]. simpl. by rewrite M3, insert_insert_eq. }
  destruct m as [|m].
  - destruct (Hm0 eq_refl) as [?| ->]; [lia|]. by apply H0.
  - destruct rest as [|c rest]; [simpl in Hml; lia|].
    apply (H1 (take (S m) (c :: rest)) (drop (S m) (c :: rest))); [by rewrite take_drop|done|rewrite length_take; lia|done].
Qed.

(** ** cat *)

Lemma cat_spec fd l u :
  calm u → u_fds u !! fd = Some l → Z.of_nat (length l) < 2 ^ 64 → wp (Cat.cat fd) u (λ r u', r = None ∧ handled fd l u u').
Proof.
  intros Hc Hl Hlen. unfold Cat.cat.
  apply (wp_loop _ (λ _ u', ∃ t rest, l = t ++ rest ∧ midway fd rest t u u') (λ _ u', Z.of_nat (length (left_of fd u')))).
  - intros [] u1 (t & rest & -> & Hm). destruct (midway_left _ _ _ _ _ Hm) as [_ El].
    apply wp_bind, (midway_read fd 512 rest t u u1); [done|lia| |].
    + intros -> u2 Hm2. apply wp_ret. split; [done|]. rewrite app_nil_r. by eapply midway_handled.
    + intros bs rest' u2 -> Hne Hlt Hm2. destruct bs as [|c bs]; [done|].
      apply wp_bind, wp_write; [apply Hm2|]. apply wp_ret. pose proof (midway_out _ _ _ _ _ (c :: bs) Hm2) as Hm3.
      split; [by exists (t ++ c :: bs), rest'; rewrite <-(assoc_L (++))|].
      destruct (midway_left _ _ _ _ _ Hm3) as [_ ->]. rewrite El. rewrite length_app. simpl. lia.
  - exists [], l. split; [done|]. by apply midway_start.
  - unfold left_of. by rewrite Hl.
Qed.

(** ** wc *)

(** The parts of a text between spaces. *)
Fixpoint split_spaces (l : list Z) : list (list Z) :=
  match l with
  | [] => [[]]
  | c :: l' =>
      if bool_decide (c ∈ Wc.spaces) then [] :: split_spaces l'
      else match split_spaces l' with w :: ws => (c :: w) :: ws | [] => [[c]] end
  end.
Definition nwords (l : list Z) : Z := Z.of_nat (length (filter (λ w, w ≠ []) (split_spaces l))).
Definition nlines (l : list Z) : Z := Z.of_nat (length (filter (λ c, c = 10) l)).

(** The words that begin in [l]: all but one that goes on. *)
Definition new_words (inword : bool) (l : list Z) : Z :=
  nwords l - (if inword then match head (split_spaces l) with Some (_ :: _) => 1 | _ => 0 end else 0).

Lemma split_spaces_cons l : ∃ w ws, split_spaces l = w :: ws.
Proof. induction l as [|c l (w & ws & E)]; [by exists [], []|]. simpl. case_bool_decide; [by eauto|]. rewrite E. eauto. Qed.

Lemma new_words_cons inword c l :
  new_words inword (c :: l) = if bool_decide (c ∈ Wc.spaces) then new_words false l else (if inword then 0 else 1) + new_words true l.
Proof.
  unfold new_words, nwords. destruct (split_spaces_cons l) as (w & ws & E). cbn [split_spaces]. rewrite E. case_bool_decide.
  - rewrite filter_cons_False by naive_solver. cbn [head]. destruct inword; lia.
  - rewrite !filter_cons. cbn [head]. rewrite decide_True by done. destruct w as [|d w].
    + rewrite decide_False by naive_solver. simpl. destruct inword; lia.
    + rewrite decide_True by done. simpl. destruct inword; lia.
Qed.

Lemma new_words_range inword l : 0 ≤ new_words inword l ≤ Z.of_nat (length l).
Proof.
  revert inword. induction l as [|c l IH]; intros inword; [by destruct inword|].
  rewrite new_words_cons. simpl length. specialize (IH true) as H1. specialize (IH false) as H2. case_bool_decide; destruct inword; lia.
Qed.

Lemma nlines_cons c l : nlines (c :: l) = (if c =? 10 then 1 else 0) + nlines l.
Proof. unfold nlines. rewrite filter_cons. case_decide; destruct (Z.eqb_spec c 10); simpl; lia. Qed.

Lemma nlines_range l : 0 ≤ nlines l ≤ Z.of_nat (length l).
Proof. induction l as [|c l IH]; [done|]. rewrite nlines_cons. simpl length. destruct (c =? 10); lia. Qed.

Lemma count_spec l n w c inword :
  0 ≤ n → 0 ≤ w → 0 ≤ c → n + Z.of_nat (length l) < 2 ^ 31 → w + Z.of_nat (length l) < 2 ^ 31 → c + Z.of_nat (length l) < 2 ^ 31 →
  ∃ b, foldl Wc.count (n, w, c, inword) l = (n + nlines l, w + new_words inword l, c + Z.of_nat (length l), b).
Proof.
  revert n w c inword. induction l as [|ch l IH]; intros n w c inword Hn Hw Hc Bn Bw Bc.
  - exists inword. simpl. unfold nlines, new_words, nwords. simpl. destruct inword; repeat f_equal; lia.
  - rewrite nlines_cons, new_words_cons. simpl length in *. cbn [foldl]. unfold Wc.count at 2.
    rewrite (s32_small (c + 1)), (s32_small (n + 1)), (s32_small (w + 1)) by lia.
    set (n' := if ch =? 10 then n + 1 else n). assert (n' = n + (if ch =? 10 then 1 else 0) ∧ n ≤ n' ≤ n + 1) as [E Hn'] by (unfold n'; destruct (ch =? 10); lia).
    case_bool_decide; [|destruct inword].
    + destruct (IH n' w (c + 1) false) as [b ->]; [lia..|]. exists b. f_equal. f_equal; [f_equal|]; lia.
    + destruct (IH n' w (c + 1) true) as [b ->]; [lia..|]. exists b. f_equal. f_equal; [f_equal|]; lia.
    + destruct (IH n' (w + 1) (c + 1) true) as [b ->]; [lia..|]. exists b. f_equal. f_equal; [f_equal|]; lia.
Qed.

(** The line that wc prints. *)
Definition wc_text (name l : list Z) : list Z :=
  bytes_of (vtext false (chars "%d %d %d %s" ++ [10]) [A_int (nlines l); A_int (nwords l); A_int (Z.of_nat (length l)); A_str (Some name)]).

Lemma wc_spec fd name l u :
  calm u → u_fds u !! fd = Some l → Z.of_nat (length l) < 2 ^ 31 → wp (Wc.wc fd name) u (λ r u', r = None ∧ handled fd (wc_text name l) u u').
Proof.
  intros Hc Hl Hlen. unfold Wc.wc. apply wp_bind.
  apply (wp_loop _ (λ s u', ∃ t rest, l = t ++ rest ∧ s = foldl Wc.count (0, 0, 0, false) t ∧ midway fd rest [] u u')
    (λ _ u', Z.of_nat (length (left_of fd u')))).
  - intros s u1 (t & rest & -> & -> & Hm). destruct (midway_left _ _ _ _ _ Hm) as [_ El].
    apply wp_bind, (midway_read fd 512 rest [] u u1); [done|lia| |].
    + intros -> u2 Hm2. apply wp_ret. rewrite app_nil_r in *.
      destruct (count_spec t 0 0 0 false) as [b ->]; [lia..|]. rewrite !Z.add_0_l.
      replace (new_words false t) with (nwords t) by (unfold new_words; lia).
      apply wp_bind, (printf_spec _ _ (wc_text name t)); [unfold wc_text; reflexivity|apply Hm2|]. apply wp_ret. split; [done|].
      pose proof (midway_out fd [] [] u u2 (wc_text name t) Hm2) as Hm3. rewrite app_nil_l in Hm3. exact (midway_handled _ _ _ _ _ Hm3).
    + intros bs rest' u2 -> Hne Hlt Hm2. destruct bs as [|c bs]; [done|]. apply wp_ret.
      split; [exists (t ++ c :: bs), rest'; rewrite foldl_app, <-(assoc_L (++)); done|].
      destruct (midway_left _ _ _ _ _ Hm2) as [_ ->]. rewrite El, length_app. simpl. lia.
  - exists [], l. split_and!; [done|done|]. by apply midway_start.
  - unfold left_of. rewrite Hl. simpl. lia.
Qed.

(** ** grep *)

(** The lines of a text, without their ends, and what comes after the last one. *)
Fixpoint split_nl (l : list Z) : list (list Z) * list Z :=
  match l with
  | [] => ([], [])
  | c :: l' =>
      let '(ls, t) := split_nl l' in
      if c =? 10 then ([] :: ls, t)
      else match ls with ln :: ls' => ((c :: ln) :: ls', t) | [] => ([], c :: t) end
  end.

(** The lines that the pattern selects, with their ends. *)
Definition selected (pattern l : list Z) : list Z :=
  concat ((λ ln, ln ++ [10]) <$> filter (λ ln, match_re pattern ln = true) (split_nl l).1).

Lemma split_nl_line line rest : 10 ∉ line → split_nl (line ++ 10 :: rest) = (line :: (split_nl rest).1, (split_nl rest).2).
Proof.
  induction line as [|c line IH]; intros Hn; simpl; [by destruct (split_nl rest)|].
  apply not_elem_of_cons in Hn as [Hc Hn]. rewrite IH by done. by rewrite (proj2 (Z.eqb_neq c 10)).
Qed.

Lemma split_nl_none l : 10 ∉ l → split_nl l = ([], l).
Proof.
  induction l as [|c l IH]; intros Hn; [done|]. apply not_elem_of_cons in Hn as [Hc Hn]. simpl. rewrite IH by done.
  by rewrite (proj2 (Z.eqb_neq c 10)).
Qed.

(** A text is its lines and a rest without a line end. *)
Lemma split_nl_eq l : l = concat ((λ ln, ln ++ [10]) <$> (split_nl l).1) ++ (split_nl l).2 ∧ 10 ∉ (split_nl l).2.
Proof.
  induction l as [|c l [IH1 IH2]]; [split; [done|apply not_elem_of_nil]|]. simpl. destruct (split_nl l) as [ls t]. simpl in *.
  destruct (Z.eqb_spec c 10) as [->|Hc]; simpl; [by rewrite IH1 at 1|].
  destruct ls as [|ln ls]; simpl in *; [|by rewrite IH1 at 1]. rewrite IH1 at 1. split; [done|]. by apply not_elem_of_cons.
Qed.

Lemma split_nl_app a c :
  split_nl (a ++ c) = ((split_nl a).1 ++ (split_nl ((split_nl a).2 ++ c)).1, (split_nl ((split_nl a).2 ++ c)).2).
Proof.
  induction a as [|x a IH]; [simpl; by destruct (split_nl c)|]. simpl. rewrite IH. destruct (split_nl a) as [ls t] eqn:E. simpl.
  destruct (Z.eqb_spec x 10) as [->|Hx]; [done|]. destruct ls as [|ln ls]; simpl; [|done].
  destruct (split_nl (t ++ c)) as [[|ln ls'] t']; simpl; by rewrite (proj2 (Z.eqb_neq x 10)).
Qed.

Lemma selected_app pattern a c : selected pattern (a ++ c) = selected pattern a ++ selected pattern ((split_nl a).2 ++ c).
Proof. unfold selected. rewrite split_nl_app. simpl. by rewrite filter_app, fmap_app, concat_app. Qed.

Lemma next_line_spec p :
  0 ∉ p → match GrepProg.next_line p with
    | Some (line, rest) => p = line ++ 10 :: rest ∧ 10 ∉ line
    | None => 10 ∉ p
    end.
Proof.
  induction p as [|c p IH]; intros Hz; [apply not_elem_of_nil|]. apply not_elem_of_cons in Hz as [Hc Hz]. specialize (IH Hz). simpl.
  rewrite (proj2 (Z.eqb_neq c 0)) by done. destruct (Z.eqb_spec c 10) as [->|Hn]; [split; [done|apply not_elem_of_nil]|].
  destruct (GrepProg.next_line p) as [[line rest]|]; simpl; [|by apply not_elem_of_cons]. destruct IH as [-> IH].
  split; [done|]. by apply not_elem_of_cons.
Qed.

Lemma lines_loop_spec pattern p u :
  calm u → 0 ∉ p → Z.of_nat (length p) < 2 ^ 64 →
  wp (GrepProg.lines_loop pattern p) u (λ p' u', p' = (split_nl p).2 ∧ u' = wrote_out 1 (selected pattern p) u).
Proof.
  intros Hc Hz Hlen. unfold GrepProg.lines_loop.
  apply (wp_loop _ (λ p' u', (0 ∉ p') ∧ calm u' ∧ (split_nl p').2 = (split_nl p).2 ∧
    ∃ t, u' = wrote_out 1 t u ∧ selected pattern p = t ++ selected pattern p') (λ p' _, Z.of_nat (length p'))); [| |done].
  - intros p1 u1 (Hz1 & Hc1 & Ht & t & -> & Hs). pose proof (next_line_spec p1 Hz1) as Hn. destruct (GrepProg.next_line p1) as [[line rest]|].
    + destruct Hn as [-> Hnl]. pose proof (split_nl_line line rest Hnl) as Hsp. rewrite Hsp in Ht. simpl in Ht.
      assert (selected pattern (line ++ 10 :: rest) = (if match_re pattern line then line ++ [10] else []) ++ selected pattern rest) as Hsel.
      { unfold selected. rewrite Hsp. simpl fst. rewrite filter_cons. destruct (match_re pattern line); [rewrite decide_True by done|rewrite decide_False by done]; simpl; by rewrite ?(assoc_L (++)). }
      rewrite Hsel in Hs. apply not_elem_of_app in Hz1 as [_ Hz1]. apply not_elem_of_cons in Hz1 as [_ Hz1].
      assert ((Z.of_nat (length rest) < Z.of_nat (length (line ++ 10%Z :: rest)))) as Hlt by (rewrite length_app; simpl; lia).
      destruct (match_re pattern line); simpl when.
      * apply wp_bind, wp_bind, wp_write; [done|]. apply wp_ret, wp_ret. split; [|lia]. split_and!; [done|by apply calm_out|done|].
        exists (t ++ (line ++ [10])). split; [by rewrite wrote_out_app|by rewrite <-(assoc_L (++) t)].
      * apply wp_bind, wp_ret, wp_ret. split; [|lia]. split_and!; [done|done|done|]. by exists t.
    + apply wp_ret. rewrite (split_nl_none p1 Hn) in Ht. split; [done|]. f_equal. rewrite Hs. unfold selected at 1. rewrite (split_nl_none p1 Hn). simpl.
      by rewrite app_nil_r.
  - split_and!; [done|done|done|]. exists []. by rewrite wrote_out_nil.
Qed.

(** A buffer that is full holds no more of a line of the text. *)
Lemma long_rest a c : Forall (λ ln, (length ln < 1023)%nat) (split_nl (a ++ c)).1 → (1023 ≤ length (split_nl a).2)%nat → 10 ∉ c.
Proof.
  intros Hl Hlen Hin. apply list_elem_of_split_l in Hin as (c1 & c2 & -> & Hn). destruct (split_nl_eq a) as [_ Ht].
  rewrite split_nl_app, (assoc_L (++)), split_nl_line in Hl by (by apply not_elem_of_app). simpl in Hl.
  apply Forall_app in Hl as [_ Hl]. apply Forall_cons in Hl as [Hl _]. rewrite length_app in Hl. lia.
Qed.

Lemma grep_spec pattern fd l u :
  calm u → u_fds u !! fd = Some l → 0 ∉ l → Z.of_nat (length l) < 2 ^ 31 → Forall (λ ln, (length ln < 1023)%nat) (split_nl l).1 →
  wp (GrepProg.grep pattern fd) u (λ _ u', handled fd (selected pattern l) u u').
Proof.
  intros Hc Hl Hz Hlen Hfit. unfold GrepProg.grep.
  apply (wp_loop _ (λ buf u', ∃ t rest, l = t ++ rest ∧ buf = (split_nl t).2 ∧ midway fd rest (selected pattern t) u u')
    (λ _ u', Z.of_nat (length (left_of fd u')))).
  - intros buf u1 (t & rest & -> & -> & Hm). destruct (midway_left _ _ _ _ _ Hm) as [Hl1 El].
    assert (10 ∉ rest → selected pattern (t ++ rest) = selected pattern t) as Hend.
    { intros Hn. rewrite selected_app. unfold selected at 2. destruct (split_nl_eq t) as [_ Ht].
      rewrite split_nl_none by (by apply not_elem_of_app). simpl. by rewrite app_nil_r. }
    destruct (decide (length (split_nl t).2 < 1023)%nat) as [Hs|Hs].
    + apply wp_bind, (midway_read fd _ rest (selected pattern t) u u1); [done|lia| |].
      * intros -> u2 Hm2. apply wp_ret. rewrite Hend by apply not_elem_of_nil. by eapply midway_handled.
      * intros bs rest' u2 -> Hne Hlt Hm2. destruct bs as [|c bs]; [done|]. rewrite (assoc_L (++)) in Hz, Hlen.
        pose proof (split_nl_eq t) as [Et _]. apply not_elem_of_app in Hz as [Hz _].
        apply wp_bind. eapply wp_mono; [apply (lines_loop_spec pattern ((split_nl t).2 ++ c :: bs) u2); [apply Hm2| |]|].
        { apply not_elem_of_app in Hz as [Hz1 Hz2]. apply not_elem_of_app. split; [|done]. rewrite Et in Hz1. by apply not_elem_of_app in Hz1 as [_ ?]. }
        { rewrite !length_app in Hlen. rewrite length_app. lia. }
        intros p' u3 [-> ->]. apply wp_ret. pose proof (midway_out _ _ _ _ _ (selected pattern ((split_nl t).2 ++ c :: bs)) Hm2) as Hm3.
        rewrite <-selected_app in Hm3. split.
        -- exists (t ++ c :: bs), rest'. split_and!; [by rewrite <-(assoc_L (++))|by rewrite (split_nl_app t)|done].
        -- destruct (midway_left _ _ _ _ _ Hm3) as [_ ->]. rewrite El, length_app. simpl. lia.
    + pose proof (long_rest t rest Hfit ltac:(lia)) as Hn. replace (1024 - length (split_nl t).2 - 1)%nat with 0%nat by lia.
      apply wp_bind, (wp_read fd 0 rest u1); [apply Hm|done|]. intros m u2 -> Hc2 Hm0 _ _. assert (m = 0%nat) as -> by lia. apply wp_ret.
      rewrite Hend by done. destruct Hm as [M1 M2 M3 M4]. split; [exact Hc2|exact M2| |exact M4]. exists rest. simpl. by rewrite M3, insert_insert_eq.
  - exists [], l. split_and!; [done|done|]. by apply midway_start.
  - unfold left_of. rewrite Hl. simpl. lia.
Qed.

(** ** The files of the command line *)

Section each.
Context (cannot : list Z → U unit) (f : Z → list Z → U (option Z)) (text : list Z → list Z → list Z) (fine : list Z → Prop).
Context (Hf : ∀ fd name l u, calm u → u_fds u !! fd = Some l → fine l → wp (f fd name) u (λ r u', r = None ∧ handled fd (text name l) u u')).

Lemma open_spec name l u Q :
  u_files u name = Some l → (∃ fd, 0 ≤ fd < NOFILE ∧ u_fds u !! fd = None) →
  (∀ fd, u_fds u !! fd = None → Q (Some fd) (upd_u_fds (<[fd := l]>) u)) → wp (open name) u Q.
Proof.
  intros Hl (fd0 & Hfd0 & Hn0) HQ. unfold open. apply wp_bind, wp_gets. unfold id. rewrite Hl.
  destruct (list_find_elem_of (λ fd, u_fds u !! fd = None) (seqZ 0 NOFILE) fd0) as [[i fd] E]; [by apply elem_of_seqZ|done|].
  rewrite E. apply list_find_Some in E as (_ & Hfd & _). apply wp_bind, wp_modify, wp_ret. by apply HQ.
Qed.

Lemma each_file_spec names ls u :
  calm u → Forall2 (λ n l, u_files u n = Some l ∧ fine l) names ls → (∃ fd, 0 ≤ fd < NOFILE ∧ u_fds u !! fd = None) →
  Z.of_nat (length names) < 2 ^ 64 →
  wp (each_file cannot f names) u (λ v u', v = 0 ∧ u_out u' = u_out u ++ ((1,.) <$> concat (zip_with text names ls))).
Proof.
  intros Hc Hall Hfree Hlen. unfold each_file.
  apply (wp_loop _ (λ rest u', ∃ ls' t, Forall2 (λ n l, u_files u n = Some l ∧ fine l) rest ls' ∧ calm u' ∧ u_files u' = u_files u ∧
    u_fds u' = u_fds u ∧ u_out u' = u_out u ++ ((1,.) <$> t) ∧ concat (zip_with text names ls) = t ++ concat (zip_with text rest ls'))
    (λ rest _, Z.of_nat (length rest))); [| |done].
  - intros rest u1 (ls' & t & Hrest & C1 & C2 & C3 & C4 & C5). destruct Hrest as [|name l rest ls' [Hn Hfine] Hrest].
    + apply wp_ret. split; [done|]. rewrite C4, C5. simpl. by rewrite app_nil_r.
    + apply wp_bind, (open_spec name l); [by rewrite C2|by rewrite C3|]. intros fd Hfd.
      apply wp_bind. eapply wp_mono; [apply (Hf fd name l); [by apply calm_fds|simpl; by rewrite lookup_insert_eq|done]|].
      intros r u2 [-> [D1 D2 [l' D3] D4]]. simpl in D2, D3, D4. apply wp_bind, wp_modify, wp_ret. split; [|simpl; lia].
      exists ls', (t ++ text name l). split_and!; [done|by apply calm_fds|simpl; by rewrite D2| | |].
      * simpl. rewrite D3, insert_insert_eq, delete_insert_id by done. done.
      * simpl. by rewrite D4, C4, fmap_app, (assoc_L (++)).
      * rewrite C5. simpl. by rewrite (assoc_L (++)).
  - exists ls, []. split_and!; [done|done|done|done|by rewrite app_nil_r|done].
Qed.
End each.

(** ** echo *)

(** The arguments with single spaces between them, and a line end. *)
Definition echo_text (args : list (list Z)) : list Z :=
  match args with [] => [] | a :: args' => a ++ concat ((32 ::.) <$> args') ++ [10] end.

Lemma echo_text_cons a args : echo_text (a :: args) = a ++ (if bool_decide (args = []) then [10] else [32]) ++ echo_text args.
Proof. destruct args as [|a' args]; [done|]. unfold echo_text. simpl. by rewrite <-(assoc_L (++)). Qed.

Lemma echo_spec args u : calm u → wp (Echo.echo args) u (λ _ u', u' = wrote_out 1 (echo_text args) u).
Proof.
  revert u. induction args as [|a args IH]; intros u Hc; [apply wp_ret; by rewrite wrote_out_nil|]. cbn [Echo.echo].
  apply wp_bind, wp_write; [done|]. apply wp_bind, wp_write; [by apply calm_out|].
  eapply wp_mono; [apply IH; by do 2 apply calm_out|]. intros [] u' ->. by rewrite echo_text_cons, !wrote_out_app.
Qed.

(** * The user programs

    grep, wc and cat over the files of their command line. *)

(** A descriptor is free. *)
Definition free_fd (u : uproc) : Prop := ∃ fd, 0 ≤ fd < NOFILE ∧ u_fds u !! fd = None.

(** Text whose lines fit into the buffer of grep. *)
Definition grep_fine (l : list Z) : Prop :=
  (0 ∉ l) ∧ Z.of_nat (length l) < 2 ^ 31 ∧ Forall (λ ln, (length ln < 1023)%nat) (split_nl l).1.

(** The loop of main() over at least one file name. *)
Lemma main_files f text fine cannot name names ls u :
  (∀ fd name l u, calm u → u_fds u !! fd = Some l → fine l → wp (f fd name) u (λ r u', r = None ∧ handled fd (text name l) u u')) →
  calm u → free_fd u → Forall2 (λ n l, u_files u n = Some l ∧ fine l) (name :: names) ls → Z.of_nat (length names) < 2 ^ 31 →
  wp (each_file cannot f (name :: names)) u (λ v u', v = 0 ∧ u_out u' = u_out u ++ ((1,.) <$> concat (zip_with text (name :: names) ls))).
Proof. intros Hf Hc Hfree Hall Hlen. apply (each_file_spec cannot f text fine Hf); [done|done|done|simpl length; lia]. Qed.

(** cat writes the contents of the files one after the other. *)
Lemma cat_correct prog name names ls u :
  calm u → free_fd u → Z.of_nat (length names) < 2 ^ 31 →
  Forall2 (λ n l, u_files u n = Some l ∧ Z.of_nat (length l) < 2 ^ 64) (name :: names) ls →
  wp (Cat.main (prog :: name :: names)) u (λ v u', v = 0 ∧ u_out u' = u_out u ++ ((1,.) <$> concat (zip_with (λ _ l, l) (name :: names) ls))).
Proof.
  intros Hc Hfree Hlen Hall. apply (main_files _ _ (λ l, Z.of_nat (length l) < 2 ^ 64)); [|done|done|done|done].
  intros fd n l u'. apply cat_spec.
Qed.

(** wc writes the numbers of lines, words and characters of every file. *)
Lemma wc_correct prog name names ls u :
  calm u → free_fd u → Z.of_nat (length names) < 2 ^ 31 →
  Forall2 (λ n l, u_files u n = Some l ∧ Z.of_nat (length l) < 2 ^ 31) (name :: names) ls →
  wp (Wc.main (prog :: name :: names)) u (λ v u', v = 0 ∧ u_out u' = u_out u ++ ((1,.) <$> concat (zip_with wc_text (name :: names) ls))).
Proof.
  intros Hc Hfree Hlen Hall. apply (main_files _ _ (λ l, Z.of_nat (length l) < 2 ^ 31)); [|done|done|done|done].
  intros fd n l u'. apply wc_spec.
Qed.

(** C31. grep over files with lines of less than 1023 bytes and no NUL writes, for
    every way in which the reads split the files, exactly the complete lines that
    match the pattern, in their order, and exits with status 0. *)
Theorem grep_correct prog pattern name names ls u :
  calm u → free_fd u → Z.of_nat (length names) < 2 ^ 31 →
  Forall2 (λ n l, u_files u n = Some l ∧ grep_fine l) (name :: names) ls →
  wp (GrepProg.main (prog :: pattern :: name :: names)) u (λ v u', v = 0 ∧
    u_out u' = u_out u ++ ((1,.) <$> concat (zip_with (λ _ l, selected pattern l) (name :: names) ls))).
Proof.
  intros Hc Hfree Hlen Hall. apply (main_files _ _ grep_fine); [|done|done|done|done].
  intros fd n l u' Hc' Hl (F1 & F2 & F3). apply wp_bind. eapply wp_mono; [by apply (grep_spec pattern fd l u')|].
  intros [] u2 Hh. by apply wp_ret.
Qed.

(** A file with two lines that is read in parts. *)
Definition demo_text : list Z := chars "ab" ++ [10] ++ chars "cd" ++ [10].
Definition demo_proc : uproc :=
  mkUproc {[0 := []; 1 := []; 2 := []]} (λ n, if bool_decide (n = chars "f") then Some demo_text else None) [Some 0%nat; Some 2%nat] [] [].

Lemma grep_correct_witness :
  wp (GrepProg.main [chars "grep"; chars "^c.$"; chars "f"]) demo_proc (λ v u', v = 0 ∧ u_out u' = (1,.) <$> (chars "cd" ++ [10])).
Proof.
  apply (grep_correct (chars "grep") (chars "^c.$") (chars "f") [] [demo_text] demo_proc).
  - by split; [repeat constructor|].
  - by exists 3.
  - done.
  - constructor; [|constructor]. split; [reflexivity|]. split_and!; [by apply (bool_decide_unpack _)|done|by repeat constructor; apply Nat.ltb_lt].
Defined.
