(* ===== verification/Umalloc.v ===== *)
(** * The allocator of user programs (user/umalloc.c)

    malloc(), morecore() and free() of Kernighan and Ritchie over the bytes of
    the process.  A header is 16 bytes: the pointer to the next free block, and
    the number of units of 16 bytes of the block, header included.  The free
    blocks form a ring in the order of their addresses, from the static header
    [base] of size 0, and [freep] points somewhere into it.

    sbrk() is the system call: the environment chooses whether it gets memory, and
    the break never passes what the machine has.

    Shown: both functions return from every well-formed heap; malloc() gives a
    block that is large enough, apart from everything in use, and fails only
    when no free block is large enough and sbrk() fails; free() gives all of a
    block back and joins it with its neighbours; no byte of a block in use is
    touched.  malloc() of the last 15 sizes of 32 bits gives a block of 16
    bytes. *)

From stdpp Require Import gmap list sorting.
From Stdlib Require Import ZArith Lia.
From S2P Require Import Prelude Params Mem.
#[local] Open Scope Z_scope.

Record uheap : Type := mkUheap {
  uh_mem : mem;
  uh_freep : Z;
  uh_brk : Z;
  uh_fails : list bool;    (* whether the next calls of sbrk() fail *)
}.
Definition upd_uh_mem (f : mem → mem) (h : uheap) : uheap := mkUheap (f (uh_mem h)) (uh_freep h) (uh_brk h) (uh_fails h).
Definition upd_uh_freep (f : Z → Z) (h : uheap) : uheap := mkUheap (uh_mem h) (f (uh_freep h)) (uh_brk h) (uh_fails h).
Definition upd_uh_brk (f : Z → Z) (h : uheap) : uheap := mkUheap (uh_mem h) (uh_freep h) (f (uh_brk h)) (uh_fails h).
Definition upd_uh_fails (f : list bool → list bool) (h : uheap) : uheap := mkUheap (uh_mem h) (uh_freep h) (uh_brk h) (f (uh_fails h)).

Abbreviation UH := (M uheap).

(** sizeof(Header) *)
Definition HDR : Z := 16.

(** p->s.ptr and p->s.size *)
Definition ptr (p : Z) : UH Z := gets (λ h, ld64 (uh_mem h) p).
Definition set_ptr (p v : Z) : UH unit := modify (upd_uh_mem (λ m, st64 m p v)).
Definition size (p : Z) : UH Z := gets (λ h, ld32 (uh_mem h) (p + 8)).
Definition set_size (p v : Z) : UH unit := modify (upd_uh_mem (λ m, st32 m (p + 8) v)).
Definition set_freep (p : Z) : UH unit := modify (upd_uh_freep (λ _, p)).

(** The number of bytes of memory a process can have. *)
Definition sbrk_limit : Z := PHYSTOP - KERNBASE.

(** The old break, or -1. *)
Definition sbrk (n : Z) : UH Z :=
  fs ← gets uh_fails;
  modify (upd_uh_fails tail);;
  old ← gets uh_brk;
  if (0 <? n) && (bool_decide (head fs = Some true) || (sbrk_limit <? old + n)) then mret (u64 (-1)) else
  modify (upd_uh_brk (λ b, b + n));;
  mret old.

(** The loop that finds the place of [bp]. *)
Definition free_place (bp : Z) : UH Z :=
  p ← gets uh_freep;
  loop (λ p,
    q ← ptr p;
    if (p <? bp) && (bp <? q) then break p
    else if (q <=? p) && ((p <? bp) || (bp <? q)) then break p
    else continue q) p.

Definition free (ap : Z) : UH unit :=
  let bp := ap - HDR in
  p ← free_place bp;
  q ← ptr p;
  sz ← size bp;
  (if bp + HDR * sz =? q then
     szq ← (q ← ptr p; size q);
     set_size bp (u32 (sz + szq));;
     qq ← (q ← ptr p; ptr q);
     set_ptr bp qq
   else
     q ← ptr p;
     set_ptr bp q);;
  szp ← size p;
  (if p + HDR * szp =? bp then
     sz ← size bp;
     set_size p (u32 (szp + sz));;
     q ← ptr bp;
     set_ptr p q
   else set_ptr p bp);;
  set_freep p.

(** The number of bytes is 64 bits wide, sbrk() takes an int. *)
Definition morecore (nu : Z) : UH Z :=
  let nu := if nu <? 4096 then 4096 else nu in
  p ← sbrk (s32 (nu * HDR));
  if p =? u64 (-1) then mret 0 else
  set_size p nu;;
  free (p + HDR);;
  gets uh_freep.

Definition nunits_of (nbytes : Z) : Z := u32 ((nbytes + HDR - 1) / HDR + 1).

(** The block [p] of [sz] units is large enough: all of it, or its last [nunits]
    units. *)
Definition malloc_take (nunits prevp p sz : Z) : UH Z :=
  p ← (if sz =? nunits then
         q ← ptr p;
         set_ptr prevp q;;
         mret p
       else
         set_size p (u32 (sz - nunits));;
         sz ← size p;
         let p := p + HDR * sz in
         set_size p nunits;;
         mret p);
  set_freep prevp;;
  mret (p + HDR).

(** The loop over the ring. *)
Definition malloc_search (nunits prevp p : Z) : UH Z :=
  loop (λ '(prevp, p),
    sz ← size p;
    if nunits <=? sz then
      r ← malloc_take nunits prevp p sz;
      break r
    else
      f ← gets uh_freep;
      if p =? f then
        p ← morecore nunits;
        if p =? 0 then break 0 else q ← ptr p; continue (p, q)
      else q ← ptr p; continue (p, q)) (prevp, p).

Section alloc.
(** Where the linker put [base]. *)
Context (base : Z).

Definition malloc (nbytes : Z) : UH Z :=
  let nunits := nunits_of nbytes in
  f ← gets uh_freep;
  prevp ← (if f =? 0 then set_freep base;; set_ptr base base;; set_size base 0;; mret base else mret f);
  p ← ptr prevp;
  malloc_search nunits prevp p.
End alloc.

(** ** The ring of free blocks *)

(** A free block: its address and its units. *)
Abbreviation block := (Z * Z)%type.

Definition first (nxt : Z) (l : list block) : Z := match l with [] => nxt | (a, _) :: _ => a end.

(** The headers of the blocks [l], the last of which points to [nxt]. *)
Fixpoint chain (m : mem) (l : list block) (nxt : Z) : Prop :=
  match l with
  | [] => True
  | (a, s) :: l' => ld64 m a = first nxt l' ∧ ld32 m (a + 8) = s ∧ chain m l' nxt
  end.

(** Free blocks do not touch. *)
Definition before (x y : block) : Prop := x.1 + 16 * x.2 < y.1 ∧ x.1 + 16 ≤ y.1.

(** The bytes of two memories are the same from [a] to [b]. *)
Definition same_bytes (m m' : mem) (a b : Z) : Prop := ∀ c, a ≤ c < b → ldb m' c = ldb m c.

Record heap_wf (base : Z) (h : uheap) (fl : list block) (used : gmap Z Z) : Prop := mkHeapWf {
  hw_base : ∃ l, fl = (base, 0) :: l ∧ Forall (λ x : block, 1 ≤ x.2) l;
  hw_range : 0 < base ∧ base + 16 ≤ uh_brk h ≤ sbrk_limit;
  hw_chain : chain (uh_mem h) fl base;
  hw_sorted : StronglySorted before fl;
  hw_end : Forall (λ x : block, x.1 + 16 * x.2 ≤ uh_brk h) fl;
  hw_freep : ∃ s, (uh_freep h, s) ∈ fl;
  hw_used : ∀ a s, used !! a = Some s → 1 ≤ s ∧ base + 16 ≤ a ∧ a + 16 * s ≤ uh_brk h ∧ ld32 (uh_mem h) (a + 8) = s;
  hw_used_apart : ∀ a s b t, used !! a = Some s → used !! b = Some t → a ≠ b → a + 16 * s ≤ b ∨ b + 16 * t ≤ a;
  hw_free_apart : ∀ a s b t, used !! a = Some s → (b, t) ∈ fl → a + 16 * s ≤ b ∨ b + 16 * t ≤ a;
}.

(** The heap of a program that has not called malloc(), and of one that has. *)
Definition heap_ok (base : Z) (h : uheap) (fl : list block) (used : gmap Z Z) : Prop :=
  uh_freep h = 0 ∧ fl = [(base, 0)] ∧ used = ∅ ∧ 0 < base ∧ base + 16 ≤ uh_brk h ≤ sbrk_limit ∨
  heap_wf base h fl used.

(** ** Lists of blocks *)

Lemma chain_app m x y nxt : chain m (x ++ y) nxt ↔ chain m x (first nxt y) ∧ chain m y nxt.
Proof.
  induction x as [|[a s] x IH]; simpl; [tauto|]. rewrite IH.
  replace (first nxt (x ++ y)) with (first (first nxt y) x) by (by destruct x as [|[]]). tauto.
Qed.

Lemma ld_same m m' a : same_bytes m m' a (a + 16) → ld64 m' a = ld64 m a ∧ ld32 m' (a + 8) = ld32 m (a + 8).
Proof.
  intros H. split; [apply ld64_ext|apply ldn_ext]; intros b Hb; apply H; lia.
Qed.

Lemma chain_same m m' l nxt :
  (∀ a s, (a, s) ∈ l → same_bytes m m' a (a + 16)) → chain m l nxt → chain m' l nxt.
Proof.
  induction l as [|[a s] l IH]; simpl; [done|]. intros H (H1 & H2 & H3).
  destruct (ld_same m m' a) as [-> ->]; [apply (H a s); left|]. split_and!; [done..|].
  apply IH; [|done]. intros b t Hb. apply (H b t). by right.
Qed.

Lemma chain_lookup m l nxt i a s :
  chain m l nxt → l !! i = Some (a, s) →
  ld64 m a = match l !! S i with Some x => x.1 | None => nxt end ∧ ld32 m (a + 8) = s.
Proof.
  revert i. induction l as [|[b t] l IH]; intros i; [done|]. intros (H1 & H2 & H3) Hi.
  destruct i as [|i]; simpl in *; [|by apply IH]. simplify_eq. split; [|done]. rewrite H1. by destruct l as [|[]].
Qed.

Lemma sorted_lookup l i j x y :
  StronglySorted before l → (i < j)%nat → l !! i = Some x → l !! j = Some y → before x y.
Proof.
  intros Hs. revert i j. induction Hs as [|z l Hs IH Hz]; intros i j Hij Hx Hy; [done|].
  destruct i as [|i], j as [|j]; simpl in *; try lia.
  - simplify_eq. rewrite Forall_forall in Hz. apply Hz. by eapply list_elem_of_lookup_2.
  - apply (IH i j); [lia|done..].
Qed.

Lemma split_lookup {A} (l x : list A) a y : l = x ++ a :: y → l !! length x = Some a.
Proof. intros ->. by rewrite lookup_app_r, Nat.sub_diag by lia. Qed.

Lemma lookup_split {A} (l : list A) i a : l !! i = Some a → ∃ x y, l = x ++ a :: y ∧ length x = i.
Proof.
  intros H. exists (take i l), (drop (S i) l). split; [by rewrite take_drop_middle|].
  apply length_take_le. apply lookup_lt_Some in H. lia.
Qed.

Ltac simp_pair := repeat match goal with H : before _ _ |- _ => unfold before in H; cbn [fst snd] in H end.

(** The steps from block [i] of the ring of [n] blocks to block [k]. *)
Definition dist (n k i : nat) : nat := if decide (i ≤ k)%nat then (k - i)%nat else (n - i + k)%nat.
Definition succ_ix (n i : nat) : nat := if decide (S i = n) then 0%nat else S i.

Lemma dist_succ n k i : (i < n)%nat → (k < n)%nat → i ≠ k → dist n k i = S (dist n k (succ_ix n i)).
Proof. unfold dist, succ_ix. intros. repeat case_decide; lia. Qed.
Lemma dist_lt n k i : (i < n)%nat → (k < n)%nat → (dist n k i < n)%nat.
Proof. unfold dist. intros. case_decide; lia. Qed.
Lemma dist_inj n k i j : (i < n)%nat → (j < n)%nat → (k < n)%nat → dist n k i = dist n k j → i = j.
Proof. unfold dist. intros. repeat case_decide; lia. Qed.
Lemma dist_0 n k i : (i < n)%nat → dist n k i = 0%nat → i = k.
Proof. unfold dist. intros. case_decide; lia. Qed.

Section ring.
Context (base : Z) (h : uheap) (fl : list block) (used : gmap Z Z).
Hypothesis W : heap_wf base h fl used.

Lemma ring_0 : fl !! 0%nat = Some (base, 0).
Proof. by destruct (hw_base _ _ _ _ W) as (l & -> & _). Qed.

Lemma ring_size i a s : fl !! S i = Some (a, s) → 1 ≤ s.
Proof.
  destruct (hw_base _ _ _ _ W) as (l & -> & F). simpl. intros Hi.
  by apply (Forall_lookup_1 _ _ _ _ F) in Hi.
Qed.

Lemma ring_low i a s : fl !! i = Some (a, s) → base + 16 * Z.of_nat i ≤ a.
Proof.
  revert a s. induction i as [|i IH]; intros a s Hi; [rewrite ring_0 in Hi; simplify_eq; lia|].
  destruct (fl !! i) as [[b t]|] eqn:Eb; [|apply lookup_ge_None in Eb; apply lookup_lt_Some in Hi; lia].
  specialize (IH _ _ eq_refl). pose proof (sorted_lookup _ _ _ _ _ (hw_sorted _ _ _ _ W) (Nat.lt_succ_diag_r i) Eb Hi).
  simp_pair. lia.
Qed.

Lemma ring_inj i j a s t : fl !! i = Some (a, s) → fl !! j = Some (a, t) → i = j.
Proof.
  intros Hi Hj. destruct (Nat.lt_total i j) as [Hlt|[?|Hlt]]; [|done|];
    [pose proof (sorted_lookup _ _ _ _ _ (hw_sorted _ _ _ _ W) Hlt Hi Hj)|pose proof (sorted_lookup _ _ _ _ _ (hw_sorted _ _ _ _ W) Hlt Hj Hi)];
    simp_pair; lia.
Qed.

Lemma ring_high i a s : fl !! i = Some (a, s) → 0 ≤ s ∧ a + 16 ≤ sbrk_limit ∧ a + 16 * s ≤ uh_brk h.
Proof.
  intros Hi. pose proof (hw_range _ _ _ _ W) as Hr. pose proof (Forall_lookup_1 _ _ _ _ (hw_end _ _ _ _ W) Hi) as He.
  cbn [fst snd] in He. destruct i as [|i].
  - rewrite ring_0 in Hi. simplify_eq. lia.
  - pose proof (ring_size _ _ _ Hi). lia.
Qed.

Lemma ring_length : Z.of_nat (length fl) < 2 ^ 24.
Proof.
  destruct (hw_base _ _ _ _ W) as (l & E & _). destruct (lookup_lt_is_Some_2 fl (length fl - 1)) as [[a s] Hi].
  { rewrite E. simpl. lia. }
  pose proof (ring_low _ _ _ Hi). pose proof (ring_high _ _ _ Hi). pose proof (hw_range _ _ _ _ W).
  change sbrk_limit with 134217728 in *. lia.
Qed.

(** The pointer of a block leads to the next block of the ring. *)
Lemma ring_succ i a s :
  fl !! i = Some (a, s) →
  ∃ b t, fl !! succ_ix (length fl) i = Some (b, t) ∧ ld64 (uh_mem h) a = b ∧ ld32 (uh_mem h) (a + 8) = s ∧
    (succ_ix (length fl) i = S i ∧ before (a, s) (b, t) ∨ succ_ix (length fl) i = 0%nat ∧ S i = length fl ∧ b = base).
Proof.
  intros Hi. destruct (chain_lookup _ _ _ _ _ _ (hw_chain _ _ _ _ W) Hi) as [Hp Hs]. unfold succ_ix.
  pose proof (lookup_lt_Some _ _ _ Hi). case_decide as E.
  - rewrite (lookup_ge_None_2 fl (S i)) in Hp by lia. exists base, 0. split_and!; [apply ring_0|done..|]. by right.
  - destruct (lookup_lt_is_Some_2 fl (S i)) as [[b t] Hb]; [lia|]. rewrite Hb in Hp. exists b, t.
    split_and!; [done..|]. left. split; [done|]. by apply (sorted_lookup _ _ _ _ _ (hw_sorted _ _ _ _ W) (Nat.lt_succ_diag_r i) Hi Hb).
Qed.

Lemma ring_free_ix : ∃ i s, fl !! i = Some (uh_freep h, s).
Proof. destruct (hw_freep _ _ _ _ W) as [s Hs]. apply list_elem_of_lookup_1 in Hs as [i Hi]. eauto. Qed.

(** The block below [bp] whose successor is above it. *)
Lemma ring_place bp :
  base < bp → (∀ a s, (a, s) ∈ fl → a ≠ bp) →
  ∃ k p s, fl !! k = Some (p, s) ∧ p < bp ∧ ∀ j a t, (k < j)%nat → fl !! j = Some (a, t) → bp < a.
Proof.
  intros Hb Hne.
  assert (∀ n, (n ≤ length fl)%nat → (0 < n)%nat → ∃ k p s, (k < n)%nat ∧ fl !! k = Some (p, s) ∧ p < bp ∧
    ∀ j a t, (k < j < n)%nat → fl !! j = Some (a, t) → bp < a) as H.
  { induction n as [|n IH]; intros Hn H0; [lia|].
    destruct (lookup_lt_is_Some_2 fl n) as [[a t] Ha]; [lia|].
    destruct (decide (a < bp)).
    - exists n, a, t. split_and!; [lia|done..|]. intros; lia.
    - assert (n ≠ 0%nat) by (intros ->; rewrite ring_0 in Ha; simplify_eq; lia).
      destruct IH as (k & p & s & Hk & Ek & Hp & Hj); [lia..|]. exists k, p, s. split_and!; [lia|done..|].
      intros j a' t' Hj' E'. destruct (decide (j = n)) as [->|]; [|by apply (Hj j a' t'); [lia|]].
      rewrite Ha in E'. simplify_eq. assert (a' ≠ bp); [|lia]. apply (Hne _ t'). by eapply list_elem_of_lookup_2. }
  destruct (hw_base _ _ _ _ W) as (l & E & _).
  destruct (H (length fl)) as (k & p & s & _ & Ek & Hp & Hj); [done|rewrite E; simpl; lia|].
  exists k, p, s. split_and!; [done..|]. intros j a t Hj' Ej. apply (Hj j a t); [|done]. split; [done|]. by eapply lookup_lt_Some.
Qed.
(** free() finds the place from wherever [freep] points. *)
Lemma free_place_spec bp :
  base < bp → (∀ a s, (a, s) ∈ fl → a ≠ bp) →
  wp (free_place bp) h (λ p h', h' = h ∧ ∃ x s y, fl = x ++ (p, s) :: y ∧ p < bp ∧ (y = [] ∨ bp < first base y)).
Proof.
  intros Hb Hne. destruct (ring_place bp Hb Hne) as (k & p0 & s0 & Ek & Hp0 & Hup).
  pose proof ring_length as Hlen. pose proof (lookup_lt_Some _ _ _ Ek) as Lk.
  destruct ring_free_ix as (i0 & sf & Ei0). unfold free_place. wp_pure.
  apply (wp_loop_ix _ (λ n p h', h' = h ∧ ∃ i s, fl !! i = Some (p, s) ∧ n = dist (length fl) k i) _) with
    (n := dist (length fl) k i0).
  2: { eauto. }
  2: { pose proof (dist_lt (length fl) k i0 (lookup_lt_Some _ _ _ Ei0) Lk). lia. }
  clear i0 sf Ei0. intros n p h' (-> & i & s & Ei & ->). unfold ptr. wp_pure.
  pose proof (lookup_lt_Some _ _ _ Ei) as Li.
  destruct (ring_succ _ _ _ Ei) as (q & t & Eq & -> & _ & Hq).
  assert (p < bp → i ≠ k → (i < k)%nat) as Hlow.
  { intros Hp Hik. destruct (decide (k < i)%nat); [|lia]. specialize (Hup i _ _ l Ei). lia. }
  destruct (decide (i = k)) as [->|Hik].
  - rewrite Ek in Ei. simplify_eq.
    assert ((p <? bp) && (bp <? q) = true ∨ (q <=? p) && ((p <? bp) || (bp <? q)) = true) as Hc.
    { destruct Hq as [[Es _]|(_ & _ & ->)].
      - left. rewrite Es in Eq. pose proof (Hup (S k) _ _ ltac:(lia) Eq). lia.
      - right. pose proof (ring_low _ _ _ Ek). lia. }
    assert (∃ x s y, fl = x ++ (p, s) :: y ∧ p < bp ∧ (y = [] ∨ bp < first base y)) as Hpost.
    { destruct (lookup_split _ _ _ Ek) as (x & y & E & Lx). exists x, s, y. split_and!; [done..|].
      destruct y as [|[b u] y]; [by left|right]. simpl. apply (Hup (S k) b u); [lia|].
      rewrite E, lookup_app_r by lia. by replace (S k - length x)%nat with 1%nat by lia. }
    destruct ((p <? bp) && (bp <? q)); [wp_pure; done|]. destruct Hc as [Hc| ->]; [done|]. wp_pure. done.
  - assert ((p <? bp) && (bp <? q) = false ∧ (q <=? p) && ((p <? bp) || (bp <? q)) = false) as [-> ->].
    { destruct Hq as [[Es Hbef]|(Es & El & ->)]; simp_pair.
      - rewrite Es in Eq. destruct (decide (p < bp)); [|lia].
        assert (q ≤ p0); [|lia]. destruct (decide (S i = k)) as [Hk|]; [rewrite Hk, Ek in Eq; simplify_eq; lia|].
        assert (S i < k)%nat as Hlt by lia. pose proof (sorted_lookup _ _ _ _ _ (hw_sorted _ _ _ _ W) Hlt Eq Ek). simp_pair. lia.
      - lia. }
    wp_pure. exists (dist (length fl) k (succ_ix (length fl) i)).
    rewrite (dist_succ (length fl) k i) by done. split; [lia|]. eauto.
Qed.
End ring.

(** ** Joining blocks *)

(** [(a, s)] in front of [l], as one block with the first of [l] when they touch. *)
Definition put (a s : Z) (l : list block) : list block :=
  match l with
  | (b, t) :: l' => if a + 16 * s =? b then (a, s + t) :: l' else (a, s) :: l
  | [] => [(a, s)]
  end.

(** The address [c] is in a free block. *)
Definition in_free (l : list block) (c : Z) : Prop := ∃ a s, (a, s) ∈ l ∧ a ≤ c < a + 16 * s.

(** [(a, s)] lies below the blocks of [l]. *)
Definition below (a s : Z) (l : list block) : Prop := ∀ b t, (b, t) ∈ l → a + 16 * s ≤ b ∧ a + 16 ≤ b ∧ 0 ≤ t.

Lemma below_cons a s b t l : below a s ((b, t) :: l) ↔ (a + 16 * s ≤ b ∧ a + 16 ≤ b ∧ 0 ≤ t) ∧ below a s l.
Proof.
  unfold below. split.
  - intros H. split; [apply H; left|]. intros. apply H. by right.
  - intros [H1 H2] b' t' [?|?]%elem_of_cons; [by simplify_eq|]. by apply H2.
Qed.

Lemma put_elem a s l c v :
  (c, v) ∈ put a s l → (c, v) ∈ l ∨ c = a ∧ (v = s ∨ ∃ b t, (b, t) ∈ l ∧ a + 16 * s = b ∧ v = s + t).
Proof.
  destruct l as [|[b t] l]; simpl; [intros E%list_elem_of_singleton; simplify_eq; by right; split; [|left]|].
  case_cmp; intros [E|?]%elem_of_cons.
  - simplify_eq. right. split; [done|right]. exists (a + 16 * s), t. split_and!; [left|done..].
  - left. by right.
  - simplify_eq. right. by split; [|left].
  - by left.
Qed.

Lemma put_first a s l : ∃ s' l', put a s l = (a, s') :: l' ∧ (0 ≤ s → below a s l → s ≤ s') ∧ (length l' ≤ length l)%nat.
Proof.
  destruct l as [|[b t] l]; simpl; [exists s, []; split_and!; [done|lia|simpl; lia]|].
  case_cmp; eexists _, _; (split; [done|]); [|simpl; split; lia]. split; [|lia]. intros _ (H & _)%below_cons. lia.
Qed.

Lemma put_sorted a s l : StronglySorted before l → below a s l → StronglySorted before (put a s l).
Proof.
  destruct l as [|[b t] l]; simpl; [intros; by repeat constructor|]. intros Hs [Hb Hl]%below_cons.
  inversion Hs as [|?? Hs' Hf]; subst. case_cmp; constructor; try done.
  - eapply Forall_impl; [done|]. intros x Hx. simp_pair. unfold before. simpl. lia.
  - constructor; [unfold before; simpl; lia|]. eapply Forall_impl; [done|]. intros x Hx. simp_pair. unfold before. simpl. lia.
Qed.

Lemma in_free_cons a s l c : in_free ((a, s) :: l) c ↔ a ≤ c < a + 16 * s ∨ in_free l c.
Proof.
  unfold in_free. split.
  - intros (b & t & [?|?]%elem_of_cons & Hc); [simplify_eq; by left|right; eauto].
  - intros [Hc|(b & t & Hb & Hc)]; eexists _, _; (split; [|exact Hc]); [left|by right].
Qed.

Lemma in_free_app x y c : in_free (x ++ y) c ↔ in_free x c ∨ in_free y c.
Proof. unfold in_free. setoid_rewrite elem_of_app. naive_solver. Qed.

Lemma in_free_put a s l c : 0 ≤ s → below a s l → in_free (put a s l) c ↔ a ≤ c < a + 16 * s ∨ in_free l c.
Proof.
  intros Hs Hl. destruct l as [|[b t] l]; simpl; [apply in_free_cons|]. apply below_cons in Hl as [Hb _].
  case_cmp; rewrite !in_free_cons; [|done].
  split; [intros [?|?]|intros [?|[?|?]]]; try tauto; [|left; lia..]. destruct (decide (c < b)); [left; lia|right; left; lia].
Qed.

(** What the code stores into the header [a], which is followed by [l]. *)
Definition link (m : mem) (a s b : Z) : mem :=
  if a + 16 * s =? b
  then st64 (st32 m (a + 8) (u32 (s + ld32 m (b + 8)))) a (ld64 (st32 m (a + 8) (u32 (s + ld32 m (b + 8)))) b)
  else st64 m a b.

Lemma link_out m a s b c : ¬ (a ≤ c < a + 16) → ldb (link m a s b) c = ldb m c.
Proof. intros. unfold link. case_cmp; rewrite ldb_st64_out by lia; [apply ldb_st32_out; lia|done]. Qed.

Lemma link_chain m a s l base :
  chain m l base → ld32 m (a + 8) = s → 0 ≤ s → 0 ≤ base < 2 ^ 64 → (l = [] → base < a) → below a s l →
  (∀ b t, (b, t) ∈ l → 0 ≤ b < 2 ^ 64 ∧ s + t < 2 ^ 32) →
  chain (link m a s (first base l)) (put a s l) base.
Proof.
  intros Hc Es H0 Hbase Hnil Hbel Hbig.
  assert (∀ l', (∀ b t, (b, t) ∈ l' → (b, t) ∈ l) → chain m l' base → chain (link m a s (first base l)) l' base) as Hframe.
  { intros l' Hin. apply chain_same. intros b t Hb c Hcb. apply link_out. apply Hin, Hbel in Hb. lia. }
  unfold link. destruct l as [|[b t] l].
  - simpl. destruct (Z.eqb_spec (a + 16 * s) base); [specialize (Hnil eq_refl); lia|].
    rewrite ld64_st64 by lia. rewrite ld32_st64_out by lia. done.
  - pose proof Hc as (Eb & Et & Hl). destruct (Hbig b t) as [Hb Ht]; [left|]. apply below_cons in Hbel as [Hab _].
    simpl in Hframe |- *. unfold link in Hframe. case_cmp; simpl.
    + rewrite ld32_st64_out by lia. rewrite Et in *. rewrite ld32_st32 by apply u32_range. rewrite ld64_st64 by apply ld64_range.
      rewrite ld64_st32_out by lia. rewrite u32_small by lia. split_and!; [done..|]. rewrite Eb in *.
      specialize (Hframe l ltac:(by right)). rewrite ld64_st32_out in Hframe by lia. rewrite u32_small in Hframe by lia. by rewrite Eb in Hframe; apply Hframe.
    + rewrite ld64_st64 by lia. rewrite ld32_st64_out by lia. do 2 (split; [done|]). by apply (Hframe ((b, t) :: l)).
Qed.

(** ** free() *)

(** The bytes of the blocks in use are the same. *)
Definition kept (used : gmap Z Z) (m m' : mem) : Prop := ∀ a s, used !! a = Some s → same_bytes m m' a (a + 16 * s).

Section free.
Context (base : Z) (h : uheap) (x y : list block) (used : gmap Z Z) (bp s p sp : Z).
Hypothesis W : heap_wf base h (x ++ (p, sp) :: y) (<[bp := s]> used).
Hypothesis Hnew : used !! bp = None.
Hypothesis Hp : p < bp.
Hypothesis Hy : y = [] ∨ bp < first base y.

Lemma freed_block : 1 ≤ s ∧ base + 16 ≤ bp ∧ bp + 16 * s ≤ uh_brk h ∧ ld32 (uh_mem h) (bp + 8) = s.
Proof. apply (hw_used _ _ _ _ W). apply lookup_insert_eq. Qed.

Lemma freed_sorted :
  StronglySorted before x ∧ StronglySorted before y ∧ Forall (λ z, before z (p, sp)) x ∧ Forall (before (p, sp)) y ∧
  ∀ z z', z ∈ x → z' ∈ y → before z z'.
Proof.
  pose proof (hw_sorted _ _ _ _ W) as Hs. apply StronglySorted_app in Hs as (H1 & H2 & H3).
  inversion H3; subst. split_and!; [done..| |done|].
  - rewrite Forall_forall. intros z Hz. apply H1; [done|left].
  - intros z z' Hz Hz'. apply H1; [done|by right].
Qed.

Lemma freed_free a t : (a, t) ∈ x ++ (p, sp) :: y → 0 ≤ t ∧ 0 < a < 2 ^ 64 ∧ a + 16 * t ≤ uh_brk h.
Proof.
  intros [i Hi]%list_elem_of_lookup_1. pose proof (ring_high _ _ _ _ W _ _ _ Hi). pose proof (ring_low _ _ _ _ W _ _ _ Hi).
  pose proof (hw_range _ _ _ _ W). change sbrk_limit with 134217728 in *. lia.
Qed.

(** The block lies between its neighbours. *)
Lemma freed_below : p + 16 * sp ≤ bp ∧ p + 16 ≤ bp ∧ below bp s y.
Proof.
  pose proof freed_block as Hb. destruct freed_sorted as (_ & Hsy & _). pose proof freed_free as Hff.
  assert ((p, sp) ∈ x ++ (p, sp) :: y) as Hin by (apply elem_of_app; right; left).
  pose proof (hw_free_apart _ _ _ _ W bp s p sp (lookup_insert_eq _ _ _) Hin) as Hap. pose proof (freed_free _ _ Hin).
  split; [lia|]. split.
  - apply list_elem_of_lookup_1 in Hin as [[|i] Hi]; [rewrite (ring_0 _ _ _ _ W) in Hi; simplify_eq; lia|].
    pose proof (ring_size _ _ _ _ W _ _ _ Hi). lia.
  - intros b t Hbt. assert ((b, t) ∈ x ++ (p, sp) :: y) as Hin' by (apply elem_of_app; right; by right).
    pose proof (hw_free_apart _ _ _ _ W bp s b t (lookup_insert_eq _ _ _) Hin') as Hap'. pose proof (freed_free _ _ Hin').
    assert (bp < b); [|lia]. destruct Hy as [->|Hf]; [by apply not_elem_of_nil in Hbt|].
    destruct y as [|[b0 t0] y']; [by apply not_elem_of_nil in Hbt|]. simpl in Hf. apply elem_of_cons in Hbt as [?|Hbt]; [by simplify_eq|].
    inversion Hsy as [|?? _ Hfa]; subst. rewrite Forall_forall in Hfa. specialize (Hfa _ Hbt). simp_pair.
    assert ((b0, t0) ∈ x ++ (p, sp) :: (b0, t0) :: y') as Hin0 by (apply elem_of_app; right; right; left).
    pose proof (Hff _ _ Hin0). lia.
Qed.

(** The memory after free(). *)
Definition freed_mem : mem := link (link (uh_mem h) bp s (first base y)) p sp bp.
Definition freed_list : list block := x ++ put p sp (put bp s y).

Lemma free_run (Q : unit → uheap → Prop) :
  Q tt (mkUheap freed_mem p (uh_brk h) (uh_fails h)) → wp (free_place bp) h (λ p' h', p' = p ∧ h' = h) →
  wp (free (bp + 16)) h Q.
Proof.
  intros HQ Hplace. pose proof freed_block as (_ & _ & _ & Es). destruct freed_below as (_ & Hpb & Hbel).
  pose proof (hw_chain _ _ _ _ W) as Hc. apply chain_app in Hc as [_ [Ep [Esp _]]].
  unfold free, HDR. replace (bp + 16 - 16) with bp by lia. apply wp_bind. eapply wp_mono; [exact Hplace|].
  intros ? ? [-> ->]. unfold ptr, size, set_ptr, set_size, set_freep. wp_pure. rewrite Ep, Es.
  unfold freed_mem in HQ. set (m1 := link (uh_mem h) bp s (first base y)) in *.
  assert (ld32 m1 (p + 8) = sp ∧ m1 = link (uh_mem h) bp s (first base y)) as [Esp1 Em1].
  { split; [|done]. rewrite <-Esp. apply ldn_ext. intros c Hcc. apply link_out. lia. }
  assert (∀ Q', (∀ u, Q' u (upd_uh_mem (λ _, m1) h)) → wp (if bp + 16 * s =? first base y
     then szq ← (q ← gets (λ h0, ld64 (uh_mem h0) p); gets (λ h0, ld32 (uh_mem h0) (q + 8)));
          modify (upd_uh_mem (λ m, st32 m (bp + 8) (u32 (s + szq))));;
          qq ← (q ← gets (λ h0, ld64 (uh_mem h0) p); gets (λ h0, ld64 (uh_mem h0) q));
          modify (upd_uh_mem (λ m, st64 m bp qq))
     else q ← gets (λ h0, ld64 (uh_mem h0) p); modify (upd_uh_mem (λ m, st64 m bp q))) h Q') as Hj1.
  { intros Q' HQ'. specialize (HQ' tt). rewrite Em1 in HQ'. unfold link in HQ'. clear m1 HQ Esp1 Em1. case_cmp; wp_pure; cbn [uh_mem upd_uh_mem].
    - rewrite (ld64_st32_out _ _ _ p) by lia. rewrite Ep. exact HQ'.
    - rewrite Ep. exact HQ'. }
  apply Hj1. intros _. wp_pure. cbn [uh_mem upd_uh_mem]. rewrite Esp1.
  unfold link in HQ. case_cmp; wp_pure; exact HQ.
Qed.
Lemma freed_below_p : below p sp (put bp s y).
Proof.
  pose proof freed_block. destruct freed_below as (H1 & H2 & Hbel). destruct freed_sorted as (_ & _ & _ & Hpy & _).
  rewrite Forall_forall in Hpy. intros b t [Hb|(-> & Ht)]%put_elem.
  - pose proof (Hpy _ Hb). apply Hbel in Hb. simp_pair. lia.
  - split_and!; [done..|]. destruct Ht as [->|(b & u & Hb & _ & ->)]; [lia|]. apply Hbel in Hb. simpl in *. lia.
Qed.

Lemma freed_put_end b t : (b, t) ∈ put bp s y → 0 < b ∧ b + 16 * t ≤ uh_brk h.
Proof.
  pose proof freed_block. pose proof (hw_range _ _ _ _ W). pose proof freed_free as Hff.
  assert (∀ b t, (b, t) ∈ y → 0 < b ∧ b + 16 * t ≤ uh_brk h) as Hy'.
  { intros b' t' Hb. destruct (Hff b' t'); [apply elem_of_app; right; by right|lia]. }
  intros [Hb|(-> & [->|(b' & u & Hb & E & ->)])]%put_elem; [by apply Hy'|lia|]. apply Hy' in Hb. lia.
Qed.

Lemma freed_elem a t : (a, t) ∈ freed_list →
  (a, t) ∈ x ++ (p, sp) :: y ∨ (a = p ∨ a = bp) ∧ 1 ≤ t ∧ a + 16 * t ≤ uh_brk h ∧
    ∀ b u, used !! b = Some u → b + 16 * u ≤ a ∨ a + 16 * t ≤ b.
Proof.
  pose proof freed_block as Hblk. destruct freed_below as (Hpb & _ & Hbel).
  assert (∀ b u, used !! b = Some u → b + 16 * u ≤ bp ∨ bp + 16 * s ≤ b) as Hap.
  { intros b u Hb. apply (hw_used_apart _ _ _ _ W b u bp s); [|apply lookup_insert_eq|congruence]. rewrite lookup_insert_ne; congruence. }
  assert (∀ b u c v, used !! b = Some u → (c, v) ∈ x ++ (p, sp) :: y → 1 ≤ u ∧ (b + 16 * u ≤ c ∨ c + 16 * v ≤ b)) as Hapf.
  { intros b u c v Hb Hc. assert (<[bp := s]> used !! b = Some u) as Hb' by (rewrite lookup_insert_ne; congruence).
    pose proof (hw_used _ _ _ _ W _ _ Hb'). split; [lia|]. by apply (hw_free_apart _ _ _ _ W b u c v). }
  assert (∀ t, (bp, t) ∈ put bp s y → (bp, t) ∈ y ∨ 1 ≤ t ∧ bp + 16 * t ≤ uh_brk h ∧ ∀ b u, used !! b = Some u → b + 16 * u ≤ bp ∨ bp + 16 * t ≤ b) as Hbp.
  { intros t' [Hy'|(_ & [E|(b & u & Hb & E & E')])]%put_elem; simpl in *; [by left|subst t'; right; split_and!; [lia..|done]|right].
    assert ((b, u) ∈ x ++ (p, sp) :: y) as Hin by (apply elem_of_app; right; by right). pose proof (freed_free _ _ Hin). pose proof (Hbel _ _ Hb). subst t'.
    split_and!; [lia..|]. intros b' u' Hb'. pose proof (Hap _ _ Hb'). pose proof (Hapf _ _ _ _ Hb' Hin). lia. }
  unfold freed_list. intros [?|[Hin|(-> & Ht)]%put_elem]%elem_of_app; [by left; apply elem_of_app; left| |].
  - pose proof Hin as [Hy'|[-> _]]%put_elem; [left; apply elem_of_app; right; by right|]. simpl in *.
    destruct (Hbp t Hin) as [?|?]; [left; apply elem_of_app; right; by right|right]. split; [by right|done].
  - destruct Ht as [Et|(b & u & Hb & E & Et)]; simpl in *; subst t; [left; apply elem_of_app; right; left|].
    assert ((p, sp) ∈ x ++ (p, sp) :: y) as Hin by (apply elem_of_app; right; left). pose proof (freed_free _ _ Hin).
    apply freed_below_p in Hb as Hlow. assert (b = bp) as ->.
    { apply put_elem in Hb as [Hb|[? _]]; [|done]. apply Hbel in Hb. lia. }
    destruct (Hbp u Hb) as [Hu|(Hu1 & Hu2 & Hu3)]; [apply Hbel in Hu; lia|]. right. split; [by left|]. split_and!; [lia..|].
    intros b' u' Hb'. pose proof (Hu3 _ _ Hb'). pose proof (Hapf _ _ _ _ Hb' Hin). lia.
Qed.
Lemma freed_list_sorted : StronglySorted before freed_list.
Proof.
  pose proof freed_block. destruct freed_below as (Hpb & Hpb' & Hbel). destruct freed_sorted as (H1 & H2 & H3 & H4 & H5).
  apply StronglySorted_app. split_and!; [|done|by apply put_sorted, freed_below_p; apply put_sorted].
  rewrite Forall_forall in H3. intros z [a t] Hz Ha. pose proof (H3 _ Hz) as Hzp. apply put_elem in Ha as [Ha|[-> _]]; [|done].
  apply put_elem in Ha as [Ha|[-> _]]; [by apply H5|]. simp_pair. unfold before. simpl. lia.
Qed.

Lemma freed_list_base : ∃ l, freed_list = (base, 0) :: l ∧ Forall (λ z : block, 1 ≤ z.2) l.
Proof.
  assert (∃ l, freed_list = (base, 0) :: l) as [l El].
  { pose proof (ring_0 _ _ _ _ W) as H0. pose proof freed_block. unfold freed_list. destruct x as [|z x']; simpl in *; injection H0; [|intros ->; by eexists].
    intros -> ->. destruct (put_first bp s y) as (s' & l & -> & _). cbn [app put]. case_cmp; [lia|]. by eexists. }
  exists l. split; [done|]. pose proof freed_list_sorted as Hs. rewrite El in Hs. inversion Hs as [|?? _ Hf]; subst.
  rewrite Forall_forall in Hf |- *. intros [a t] Hz. pose proof (Hf _ Hz). simp_pair. simpl.
  destruct (freed_elem a t) as [Hin|(_ & ? & _)]; [rewrite El; by right| |done].
  apply list_elem_of_lookup_1 in Hin as [[|i] Hi]; [rewrite (ring_0 _ _ _ _ W) in Hi; simplify_eq; lia|]. by apply (ring_size _ _ _ _ W) in Hi.
Qed.

Lemma freed_chain : chain freed_mem freed_list base.
Proof.
  pose proof freed_block as (Hs1 & Hs2 & Hs3 & Hs4). destruct freed_below as (Hpb & Hpb' & Hbel). destruct freed_sorted as (_ & _ & Hxp & _).
  pose proof (hw_range _ _ _ _ W) as Hr. change sbrk_limit with 134217728 in Hr. pose proof freed_free as Hff.
  pose proof (hw_chain _ _ _ _ W) as Hc. apply chain_app in Hc as [Hcx (_ & Esp & Hcy)].
  destruct (put_first bp s y) as (s' & l & Eput & _). rewrite Forall_forall in Hxp. unfold freed_list, freed_mem. apply chain_app. split.
  - destruct (put_first p sp (put bp s y)) as (? & ? & -> & _). simpl. simpl in Hcx. revert Hcx. apply chain_same.
    intros a t Ha c Hcc. pose proof (Hxp _ Ha). simp_pair. rewrite !link_out by lia. done.
  - assert (bp = first base (put bp s y)) as Ef by by rewrite Eput.
    assert (chain (link (uh_mem h) bp s (first base y)) (put bp s y) base) as Hc1.
    { apply link_chain; try done; try lia. intros b t Hb. pose proof (Hbel _ _ Hb).
      destruct (Hff b t); [apply elem_of_app; right; by right|]. lia. }
    assert (0 ≤ sp ∧ 0 < p) by (destruct (Hff p sp); [apply elem_of_app; right; left|lia]).
    rewrite Ef at 2. apply link_chain; [done| |lia|lia| |apply freed_below_p|].
    + rewrite <-Esp. apply ldn_ext. intros c Hcc. apply link_out. lia.
    + by rewrite Eput.
    + intros b t Hb. pose proof (freed_put_end _ _ Hb). pose proof (freed_below_p _ _ Hb). lia.
Qed.
Lemma freed_kept : kept used (uh_mem h) freed_mem.
Proof.
  intros a u Ha c Hc. pose proof freed_block as Hblk. destruct freed_below as (Hpb & Hpb' & _).
  assert (<[bp := s]> used !! a = Some u) as Ha' by (rewrite lookup_insert_ne; congruence).
  pose proof (hw_used _ _ _ _ W _ _ Ha'). assert (a ≠ bp) as Hne by congruence.
  pose proof (hw_used_apart _ _ _ _ W a u bp s Ha' (lookup_insert_eq _ _ _) Hne).
  assert ((p, sp) ∈ x ++ (p, sp) :: y) as Hin by (apply elem_of_app; right; left).
  pose proof (hw_free_apart _ _ _ _ W a u p sp Ha' Hin). apply list_elem_of_lookup_1 in Hin as [i Hi].
  assert (p = base ∨ 1 ≤ sp) as Hsp.
  { destruct i; [rewrite (ring_0 _ _ _ _ W) in Hi; simplify_eq; by left|right; by eapply (ring_size _ _ _ _ W)]. }
  unfold freed_mem. rewrite !link_out by lia. done.
Qed.

Lemma freed_wf : heap_wf base (mkUheap freed_mem p (uh_brk h) (uh_fails h)) freed_list used.
Proof.
  assert (∀ a u, used !! a = Some u → <[bp := s]> used !! a = Some u) as Hin by (intros; rewrite lookup_insert_ne; congruence).
  split; cbn [uh_mem uh_freep uh_brk].
  - apply freed_list_base.
  - apply (hw_range _ _ _ _ W).
  - apply freed_chain.
  - apply freed_list_sorted.
  - apply Forall_forall. intros [a t] Ha. simpl. apply freed_elem in Ha as [Ha|Ha]; [apply freed_free in Ha; lia|lia].
  - destruct (put_first p sp (put bp s y)) as (s' & l & E & _). exists s'. unfold freed_list. rewrite E. apply elem_of_app. right. left.
  - intros a u Ha. destruct (hw_used _ _ _ _ W a u) as (? & ? & ? & E); [by apply Hin|]. split_and!; [done..|].
    rewrite <-E. apply ldn_ext. intros c Hc. apply (freed_kept a u Ha). lia.
  - intros a u b v Ha Hb. apply (hw_used_apart _ _ _ _ W); by apply Hin.
  - intros a u b v Ha [Hb|(_ & _ & _ & Hb)]%freed_elem; [apply (hw_free_apart _ _ _ _ W); [by apply Hin|done]|by apply Hb].
Qed.

Lemma freed_in_free c : in_free freed_list c ↔ bp ≤ c < bp + 16 * s ∨ in_free (x ++ (p, sp) :: y) c.
Proof.
  pose proof freed_block. destruct freed_below as (_ & _ & Hbel). unfold freed_list. rewrite !in_free_app, in_free_cons.
  rewrite in_free_put; [|apply (freed_free p); apply elem_of_app; right; left|apply freed_below_p].
  rewrite in_free_put by (lia || done). tauto.
Qed.

Lemma freed_fit : ∃ a t, (a, t) ∈ freed_list ∧ s ≤ t.
Proof.
  pose proof freed_block. destruct freed_below as (_ & _ & Hbel). destruct (put_first bp s y) as (s' & l & E & Hs' & _).
  specialize (Hs' ltac:(lia) Hbel). pose proof freed_below_p as Hbp. unfold freed_list. rewrite E in *. simpl.
  assert (0 ≤ sp) by (apply (freed_free p); apply elem_of_app; right; left).
  case_cmp; [exists p, (sp + s')|exists bp, s']; (split; [apply elem_of_app; right|lia]); [left|right; left].
Qed.

Lemma freed_length : (length freed_list ≤ S (length (x ++ (p, sp) :: y)))%nat.
Proof.
  unfold freed_list. destruct (put_first p sp (put bp s y)) as (? & l1 & -> & _ & H1). destruct (put_first bp s y) as (? & l2 & E & _ & H2).
  rewrite E in H1. rewrite !length_app. simpl in *. lia.
Qed.
End free.

(** What free() does with the block [bp] of [s] units. *)
Lemma free_spec base h fl used bp s :
  heap_wf base h fl (<[bp := s]> used) → used !! bp = None →
  wp (free (bp + 16)) h (λ _ h', ∃ fl', heap_wf base h' fl' used ∧
    (∀ c, in_free fl' c ↔ bp ≤ c < bp + 16 * s ∨ in_free fl c) ∧ (∃ a t, (a, t) ∈ fl' ∧ s ≤ t) ∧
    (length fl' ≤ S (length fl))%nat ∧ kept used (uh_mem h) (uh_mem h') ∧ uh_brk h' = uh_brk h ∧ uh_fails h' = uh_fails h).
Proof.
  intros W Hnew. destruct (hw_used _ _ _ _ W bp s (lookup_insert_eq _ _ _)) as (Hs & Hb & _).
  assert (wp (free_place bp) h (λ p h', h' = h ∧ ∃ x sp y, fl = x ++ (p, sp) :: y ∧ p < bp ∧ (y = [] ∨ bp < first base y))) as Hplace.
  { apply (free_place_spec _ _ _ _ W); [lia|]. intros a t Ha ->.
    pose proof (hw_free_apart _ _ _ _ W bp s bp t (lookup_insert_eq _ _ _) Ha) as Hap.
    apply list_elem_of_lookup_1 in Ha as [[|i] Hi]; [rewrite (ring_0 _ _ _ _ W) in Hi; simplify_eq; lia|].
    apply (ring_size _ _ _ _ W) in Hi. lia. }
  assert (∃ p, wp (free_place bp) h (λ p' h', p' = p ∧ h' = h) ∧ ∃ x sp y, fl = x ++ (p, sp) :: y ∧ p < bp ∧ (y = [] ∨ bp < first base y)) as (p & Hrun & x & sp & y & -> & Hp & Hy).
  { unfold wp in *. destruct (free_place bp h) as [p h'| |]; [|done..]. destruct Hplace as [-> ?]. by exists p. }
  eapply free_run; [done..| |done]. exists (freed_list x y bp s p sp). split_and!.
  - by apply freed_wf.
  - intros c. by eapply freed_in_free.
  - by eapply freed_fit.
  - by apply freed_length.
  - by eapply freed_kept.
  - done.
  - done.
Qed.

(** ** morecore() *)

(** The units morecore() asks for. *)
Definition core_units (nu : Z) : Z := if nu <? 4096 then 4096 else nu.

(** The new memory is a block in use, which free() is called for. *)
Lemma grow_wf base h fl used nu :
  heap_wf base h fl used → 1 ≤ nu → uh_brk h + 16 * nu ≤ sbrk_limit →
  used !! uh_brk h = None ∧
  heap_wf base (mkUheap (st32 (uh_mem h) (uh_brk h + 8) nu) (uh_freep h) (uh_brk h + 16 * nu) (tail (uh_fails h))) fl (<[uh_brk h := nu]> used).
Proof.
  intros W Hnu Hlim. pose proof (hw_range _ _ _ _ W) as Hr. change sbrk_limit with 134217728 in *.
  assert (used !! uh_brk h = None) as Hnew.
  { destruct (used !! uh_brk h) as [u|] eqn:E; [|done]. pose proof (hw_used _ _ _ _ W _ _ E). lia. }
  assert (∀ a t, (a, t) ∈ fl → a + 16 ≤ uh_brk h ∧ a + 16 * t ≤ uh_brk h) as Hfl.
  { intros a t [i Hi]%list_elem_of_lookup_1. pose proof (ring_high _ _ _ _ W _ _ _ Hi).
    destruct i; [rewrite (ring_0 _ _ _ _ W) in Hi; simplify_eq; lia|]. apply (ring_size _ _ _ _ W) in Hi. lia. }
  split; [done|]. split; cbn [uh_mem uh_freep uh_brk].
  - apply (hw_base _ _ _ _ W).
  - change sbrk_limit with 134217728. lia.
  - eapply chain_same; [|apply (hw_chain _ _ _ _ W)]. intros a t Ha c Hc. apply ldb_st32_out. apply Hfl in Ha. lia.
  - apply (hw_sorted _ _ _ _ W).
  - eapply Forall_impl; [apply (hw_end _ _ _ _ W)|]. simpl. lia.
  - apply (hw_freep _ _ _ _ W).
  - intros a u. rewrite lookup_insert_Some. intros [[<- <-]|[Hne Ha]]; [rewrite ld32_st32; lia|].
    destruct (hw_used _ _ _ _ W _ _ Ha) as (? & ? & ? & <-). split_and!; [done|done|lia|]. apply ld32_st32_out. lia.
  - intros a u b v. rewrite !lookup_insert_Some. intros [[<- <-]|[Hne Ha]] [[<- <-]|[Hne' Hb]] Hab; [done| | |by apply (hw_used_apart _ _ _ _ W)].
    + destruct (hw_used _ _ _ _ W _ _ Hb). lia.
    + destruct (hw_used _ _ _ _ W _ _ Ha). lia.
  - intros a u b v. rewrite lookup_insert_Some. intros [[<- <-]|[Hne Ha]] Hb; [apply Hfl in Hb; lia|by apply (hw_free_apart _ _ _ _ W)].
Qed.

Lemma morecore_spec base h fl used nu :
  heap_wf base h fl used → 1 ≤ nu → 16 * nu < 2 ^ 31 →
  wp (morecore nu) h (λ p h',
    p = 0 ∧ h' = upd_uh_fails tail h ∧
      (head (uh_fails h) = Some true ∨ sbrk_limit < uh_brk h + 16 * core_units nu) ∨
    p ≠ 0 ∧ p = uh_freep h' ∧ uh_brk h' = uh_brk h + 16 * core_units nu ∧ ∃ fl', heap_wf base h' fl' used ∧
      (∀ c, in_free fl' c ↔ uh_brk h ≤ c < uh_brk h' ∨ in_free fl c) ∧ (∃ a t, (a, t) ∈ fl' ∧ nu ≤ t) ∧
      (length fl' ≤ S (length fl))%nat ∧ kept used (uh_mem h) (uh_mem h')).
Proof.
  intros W Hnu Hbig. pose proof (hw_range _ _ _ _ W) as Hr. unfold morecore. fold (core_units nu). set (n := core_units nu).
  assert (1 ≤ n ∧ nu ≤ n ∧ 16 * n < 2 ^ 31) as Hn by (unfold n, core_units; case_cmp; lia).
  unfold sbrk, HDR. wp_pure. rewrite s32_small by lia. destruct (Z.ltb_spec 0 (n * 16)); [|lia]. cbn [uh_brk upd_uh_fails andb].
  destruct (bool_decide _ || _) eqn:Ef.
  - wp_pure. rewrite Z.eqb_refl. wp_pure. left. split_and!; [done..|]. apply orb_true_iff in Ef as [Ef%bool_decide_eq_true|Ef]; [by left|right]. lia.
  - wp_pure. apply orb_false_iff in Ef as [_ Hlim]. destruct (grow_wf base h fl used n W) as [Hnew Wg]; [lia..|].
    destruct (Z.eqb_spec (uh_brk h) (u64 (-1))) as [E|_]; [change (u64 (-1)) with 18446744073709551615 in E; change sbrk_limit with 134217728 in Hr; lia|].
    unfold set_size. wp_pure. unfold upd_uh_mem, upd_uh_brk, upd_uh_fails. cbn [uh_mem uh_freep uh_brk uh_fails].
    replace (n * 16) with (16 * n) by lia. eapply wp_mono; [by apply free_spec|]. cbn [uh_mem uh_brk uh_fails].
    intros _ h' (fl' & W' & Hin & (a & t & Ha & Ht) & Hlen & Hk & Eb & _). wp_pure. right.
    destruct (ring_free_ix _ _ _ _ W') as (i & sf & Hi). pose proof (ring_low _ _ _ _ W' _ _ _ Hi).
    split_and!; [lia|done|done|]. exists fl'. rewrite Eb. split_and!; [done|done|exists a, t; split; [done|lia]|done|].
    intros b u Hb c Hc. rewrite (Hk b u Hb c Hc). destruct (hw_used _ _ _ _ W _ _ Hb). apply ldb_st32_out. lia.
Qed.

(** ** malloc() *)

(** A block [q] of [n] units is cut off the free blocks. *)
Record taken_from (base : Z) (h : uheap) (fl : list block) (used : gmap Z Z) (q n : Z) (h' : uheap) : Prop := mkTakenFrom {
  tf_new : used !! q = None;
  tf_wf : ∃ fl', heap_wf base h' fl' (<[q := n]> used) ∧ ∀ c, in_free fl c ↔ q ≤ c < q + 16 * n ∨ in_free fl' c;
  tf_kept : kept used (uh_mem h) (uh_mem h');
  tf_brk : uh_brk h' = uh_brk h;
}.

Section take.
Context (base : Z) (h : uheap) (x y : list block) (used : gmap Z Z) (prevp sp p s n : Z).
Hypothesis W : heap_wf base h (x ++ (prevp, sp) :: (p, s) :: y) used.
Hypothesis Hn : 1 ≤ n ≤ s.

Let fl := x ++ (prevp, sp) :: (p, s) :: y.
Let q := p + 16 * (s - n).

Lemma take_in : (p, s) ∈ fl ∧ (prevp, sp) ∈ fl.
Proof. split; apply elem_of_app; right; [right; left|left]. Qed.

Lemma take_block_range : prevp + 16 ≤ p ∧ prevp + 16 * sp < p ∧ 0 < prevp ∧ base + 16 ≤ p ∧ p + 16 * s ≤ uh_brk h ∧ uh_brk h ≤ 134217728.
Proof.
  pose proof (hw_sorted _ _ _ _ W) as Hs. apply StronglySorted_app in Hs as (_ & _ & Hs). inversion Hs as [|?? Hs' Hf]; subst.
  apply Forall_cons_1 in Hf as [Hb _]. simp_pair. pose proof (hw_range _ _ _ _ W) as Hr. change sbrk_limit with 134217728 in Hr.
  destruct take_in as [[i Hi]%list_elem_of_lookup_1 [j Hj]%list_elem_of_lookup_1].
  pose proof (ring_low _ _ _ _ W _ _ _ Hi). pose proof (ring_low _ _ _ _ W _ _ _ Hj). pose proof (ring_high _ _ _ _ W _ _ _ Hi).
  pose proof (ring_high _ _ _ _ W _ _ _ Hj). lia.
Qed.

(** Every other free block is apart from this one. *)
Lemma take_apart a t : (a, t) ∈ x ++ (prevp, sp) :: y → a + 16 * t < p ∧ a + 16 ≤ p ∨ p + 16 * s < a.
Proof.
  pose proof (hw_sorted _ _ _ _ W) as Hs. replace (x ++ (prevp, sp) :: (p, s) :: y) with ((x ++ [(prevp, sp)]) ++ (p, s) :: y) in Hs by by rewrite <-app_assoc.
  apply StronglySorted_app in Hs as (Hxy & _ & Hy). inversion Hy as [|?? _ Hf]; subst. rewrite Forall_forall in Hf.
  replace (x ++ (prevp, sp) :: y) with ((x ++ [(prevp, sp)]) ++ y) by by rewrite <-app_assoc.
  intros [Ha|Ha]%elem_of_app.
  - left. destruct (Hxy (a, t) (p, s) Ha); [left|]. simpl in *. lia.
  - right. specialize (Hf _ Ha). simp_pair. lia.
Qed.

Lemma take_used a u : used !! a = Some u → 1 ≤ u ∧ base + 16 ≤ a ∧ (a + 16 * u ≤ p ∨ p + 16 * s ≤ a).
Proof.
  intros Ha. destruct (hw_used _ _ _ _ W _ _ Ha) as (? & ? & _). destruct take_in as [Hin _].
  pose proof (hw_free_apart _ _ _ _ W _ _ _ _ Ha Hin). lia.
Qed.

(** The heap after [q] was taken, with [fl'] as the free blocks. *)
Lemma take_wf m' fl' :
  (∃ l, fl' = (base, 0) :: l ∧ Forall (λ z : block, 1 ≤ z.2) l) → chain m' fl' base → StronglySorted before fl' →
  (∀ a t, (a, t) ∈ fl' → (a, t) ∈ x ++ (prevp, sp) :: y ∨ a = p ∧ t = s - n) →
  (∃ t, (prevp, t) ∈ fl') → ld32 m' (q + 8) = n → kept used (uh_mem h) m' →
  used !! q = None ∧ heap_wf base (mkUheap m' prevp (uh_brk h) (uh_fails h)) fl' (<[q := n]> used).
Proof.
  intros Hb Hc Hs Hfl Hf Hq Hk. pose proof take_block_range as Hr.
  assert (used !! q = None) as Hnew.
  { destruct (used !! q) as [u|] eqn:E; [|done]. pose proof (take_used _ _ E). unfold q in *. lia. }
  assert (∀ a t, (a, t) ∈ x ++ (prevp, sp) :: y → (a, t) ∈ fl) as Hin.
  { unfold fl. intros a t. rewrite !elem_of_app, !elem_of_cons. tauto. }
  split; [done|]. split; cbn [uh_mem uh_freep uh_brk]; [done| |done|done| |done| | |].
  - apply (hw_range _ _ _ _ W).
  - apply Forall_forall. intros [a t] [Ha%Hin|[-> ->]]%Hfl; simpl; [|lia].
    pose proof (hw_end _ _ _ _ W) as He. rewrite Forall_forall in He. apply (He _ Ha).
  - intros a u. rewrite lookup_insert_Some. unfold q in *. intros [[<- <-]|[_ Ha]]; [split_and!; [lia..|done]|].
    destruct (hw_used _ _ _ _ W _ _ Ha) as (? & ? & ? & E). split_and!; [lia..|]. rewrite <-E. apply ldn_ext.
    intros c Hcc. apply (Hk a u Ha). lia.
  - intros a u b v. rewrite !lookup_insert_Some. unfold q in *. intros [[<- <-]|[_ Ha]] [[<- <-]|[_ Hb']] Hab; [done| | |by apply (hw_used_apart _ _ _ _ W)].
    + apply take_used in Hb'. lia.
    + apply take_used in Ha. lia.
  - intros a u b v. rewrite lookup_insert_Some. unfold q in *. intros [[<- <-]|[_ Ha]] [Hb'|[-> ->]]%Hfl.
    + apply take_apart in Hb'. lia.
    + lia.
    + apply (hw_free_apart _ _ _ _ W); [done|by apply Hin].
    + apply take_used in Ha. lia.
Qed.
Lemma take_chain :
  chain (uh_mem h) x prevp ∧ ld64 (uh_mem h) prevp = p ∧ ld32 (uh_mem h) (prevp + 8) = sp ∧
  ld64 (uh_mem h) p = first base y ∧ ld32 (uh_mem h) (p + 8) = s ∧ chain (uh_mem h) y base.
Proof.
  pose proof (hw_chain _ _ _ _ W) as Hc. apply chain_app in Hc as [Hx (H1 & H2 & H3 & H4 & H5)]. done.
Qed.

Lemma take_sorted_x a t : (a, t) ∈ x → a + 16 ≤ prevp.
Proof.
  pose proof (hw_sorted _ _ _ _ W) as Hs. apply StronglySorted_app in Hs as (Hx & _). intros Ha.
  destruct (Hx _ (prevp, sp) Ha) as [_ Hb]; [left|done].
Qed.

(** A memory that differs in the headers of [prevp] and of [p] and below [p + 16 * s]. *)
Lemma take_chain_same m' :
  (∀ c, c < prevp ∨ p + 16 * s ≤ c → ldb m' c = ldb (uh_mem h) c) → chain m' x prevp ∧ chain m' y base.
Proof.
  intros Hm. destruct take_chain as (Hx & _ & _ & _ & _ & Hy). pose proof take_block_range.
  split; [revert Hx|revert Hy]; apply chain_same; intros a t Ha c Hc; apply Hm.
  - apply take_sorted_x in Ha. lia.
  - assert ((a, t) ∈ x ++ (prevp, sp) :: y) as Hin by (apply elem_of_app; right; by right).
    pose proof (hw_sorted _ _ _ _ W) as Hs. apply StronglySorted_app in Hs as (_ & _ & Hs). inversion Hs as [|?? Hs' _]; subst.
    inversion Hs' as [|?? _ Hf]; subst. rewrite Forall_forall in Hf. specialize (Hf _ Ha). simp_pair. lia.
Qed.

Lemma take_base z :
  Forall (λ z : block, 1 ≤ z.2) z →
  ∃ l, x ++ (prevp, sp) :: z ++ y = (base, 0) :: l ∧ Forall (λ z : block, 1 ≤ z.2) l.
Proof.
  intros Hz. destruct (hw_base _ _ _ _ W) as (l & E & Hf). destruct x as [|z0 x']; simpl in *; [injection E as E0 E1 E2|injection E as E1 E2].
  - exists (z ++ y). rewrite E0, E1. split; [done|]. apply Forall_app. split; [done|]. rewrite <-E2 in Hf. by apply Forall_cons_1 in Hf as [_ ?].
  - exists (x' ++ (prevp, sp) :: z ++ y). rewrite E1. split; [done|]. rewrite <-E2 in Hf. rewrite Forall_app, Forall_cons in Hf |- *.
    destruct Hf as (H1 & H2 & H3). apply Forall_cons_1 in H3 as [_ H3]. split_and!; [done..|]. by apply Forall_app.
Qed.

Lemma take_kept m' :
  (∀ c, ¬ (prevp ≤ c < prevp + 16) → ¬ (p ≤ c < p + 16 * s) → ldb m' c = ldb (uh_mem h) c) → kept used (uh_mem h) m'.
Proof.
  intros Hm a u Ha c Hc. pose proof (take_used _ _ Ha). destruct take_in as [_ Hin].
  pose proof (hw_free_apart _ _ _ _ W _ _ _ _ Ha Hin). apply list_elem_of_lookup_1 in Hin as [i Hi]. unfold fl in Hi.
  assert (prevp = base ∨ 1 ≤ sp) as Hsp.
  { destruct i; [rewrite (ring_0 _ _ _ _ W) in Hi; simplify_eq; by left|right; by eapply (ring_size _ _ _ _ W)]. }
  apply Hm; lia.
Qed.

Lemma take_exact :
  s = n → taken_from base h fl used p n (mkUheap (st64 (uh_mem h) prevp (ld64 (uh_mem h) p)) prevp (uh_brk h) (uh_fails h)).
Proof.
  intros E. pose proof take_block_range as Hr. destruct take_chain as (Hx & E1 & E2 & E3 & E4 & Hy).
  assert (q = p) as Eq by (unfold q; lia). set (m' := st64 (uh_mem h) prevp (ld64 (uh_mem h) p)).
  assert (∀ c, ¬ (prevp ≤ c < prevp + 16) → ldb m' c = ldb (uh_mem h) c) as Hm by (intros; apply ldb_st64_out; lia).
  destruct (take_chain_same m') as [Hx' Hy']; [intros; apply Hm; lia|].
  assert (kept used (uh_mem h) m') as Hk by (apply take_kept; auto).
  destruct (take_wf m' (x ++ (prevp, sp) :: y)) as [Hnew W'].
  - by apply (take_base []).
  - apply chain_app. split; [done|]. simpl. unfold m'. rewrite ld64_st64 by apply ld64_range. by rewrite ld32_st64_out by lia.
  - pose proof (hw_sorted _ _ _ _ W) as Hs. apply StronglySorted_app in Hs as (H1 & H2 & H3). apply StronglySorted_inv in H3 as [H4 H5].
    apply StronglySorted_inv in H4 as [H6 H7]. apply Forall_cons_1 in H5 as [_ H5]. apply StronglySorted_app. split_and!; [|done|by constructor].
    intros z1 z2 Hz1 Hz2. apply H1; [done|]. rewrite !elem_of_cons in *. tauto.
  - tauto.
  - exists sp. apply elem_of_app. right. left.
  - rewrite Eq. unfold m'. rewrite ld32_st64_out by lia. lia.
  - done.
  - rewrite Eq in *. split; [done| |done|done]. exists (x ++ (prevp, sp) :: y). split; [done|].
    intros c. unfold fl. rewrite !in_free_app, !in_free_cons. rewrite E. tauto.
Qed.

Lemma take_split :
  n < s → taken_from base h fl used q n
    (mkUheap (st32 (st32 (uh_mem h) (p + 8) (u32 (s - n))) (q + 8) n) prevp (uh_brk h) (uh_fails h)).
Proof.
  intros Hlt. pose proof take_block_range as Hr. destruct take_chain as (Hx & E1 & E2 & E3 & E4 & Hy).
  rewrite u32_small by lia. set (m' := st32 (st32 (uh_mem h) (p + 8) (s - n)) (q + 8) n).
  assert (∀ c, ¬ (p ≤ c < p + 16 * s) → ldb m' c = ldb (uh_mem h) c) as Hm by (intros; unfold m', q; rewrite !ldb_st32_out by lia; done).
  destruct (take_chain_same m') as [Hx' Hy']; [intros; apply Hm; lia|].
  assert (kept used (uh_mem h) m') as Hk by (apply take_kept; auto).
  destruct (take_wf m' (x ++ (prevp, sp) :: (p, s - n) :: y)) as [Hnew W'].
  - apply (take_base [(p, s - n)]). constructor; [simpl; lia|done].
  - apply chain_app. split; [done|]. simpl. unfold m', q. rewrite !ld64_st32_out by lia. rewrite !(ld32_st32_out _ (p + _ + 8)) by lia.
    rewrite (ld32_st32_out _ (p + 8)) by lia. rewrite ld32_st32 by lia. done.
  - pose proof (hw_sorted _ _ _ _ W) as Hs. apply StronglySorted_app in Hs as (H1 & H2 & H3). apply StronglySorted_inv in H3 as [H4 H5].
    apply StronglySorted_inv in H4 as [H6 H7]. apply Forall_cons_1 in H5 as [Hb H5]. apply StronglySorted_app. split_and!; [|done|].
    + intros z1 z2 Hz1 [->|[->|Hz2]%elem_of_cons]%elem_of_cons; [apply H1; [done|left]| |apply H1; [done|right; by right]].
      destruct (H1 z1 (p, s)); [done|right; left|]. by split.
    + constructor; [constructor; [done|]|constructor; done]. eapply Forall_impl; [exact H7|]. intros z Hz. simp_pair. unfold before. cbn [fst snd]. lia.
  - intros a t. rewrite !elem_of_app, !elem_of_cons. intros [?|[?|[?|?]]]; simplify_eq; tauto.
  - exists sp. apply elem_of_app. right. left.
  - unfold m'. rewrite ld32_st32 by lia. done.
  - done.
  - split; [done| |done|done]. eexists _. split; [done|]. intros c. unfold fl. rewrite !in_free_app, !in_free_cons. unfold q.
    assert (p ≤ c < p + 16 * s ↔ p + 16 * (s - n) ≤ c < p + 16 * (s - n) + 16 * n ∨ p ≤ c < p + 16 * (s - n)) as -> by lia. tauto.
Qed.
End take.

Definition fits (fl : list block) (n : Z) : Prop := ∃ a s, (a, s) ∈ fl ∧ n ≤ s.

Lemma malloc_take_spec base h fl used i j prevp sp p s n :
  heap_wf base h fl used → fl !! i = Some (p, s) → (i = S j → fl !! j = Some (prevp, sp)) → i = S j → 1 ≤ n ≤ s →
  wp (malloc_take n prevp p s) h (λ r h', ∃ q, r = q + 16 ∧ taken_from base h fl used q n h').
Proof.
  intros W Hi Hj -> Hn. specialize (Hj eq_refl).
  destruct (lookup_split _ _ _ Hj) as (x & y & -> & <-). rewrite lookup_app_r in Hi by lia.
  replace (S (length x) - length x)%nat with 1%nat in Hi by lia. simpl in Hi. destruct y as [|z y]; [done|]. simpl in Hi. simplify_eq.
  destruct (take_chain _ _ _ _ _ _ _ _ _ W) as (_ & _ & _ & _ & Es & _).
  destruct (take_block_range _ _ _ _ _ _ _ _ _ n W) as (? & ? & ? & ? & ? & ?).
  unfold malloc_take, ptr, size, set_ptr, set_size, set_freep, HDR. case_cmp; wp_pure.
  - exists p. split; [done|]. by apply take_exact.
  - pose proof (u32_small (s - n) ltac:(lia)) as Eu. cbn [uh_mem upd_uh_mem]. rewrite ld32_st32 by apply u32_range.
    exists (p + 16 * (s - n)). pose proof (take_split _ _ _ _ _ _ _ _ _ n W) as HT. rewrite Eu in HT |- *. split; [done|]. apply HT; lia.
Qed.

Lemma ring_pred base h fl used i a s j :
  heap_wf base h fl used → fl !! i = Some (a, s) → succ_ix (length fl) i = S j → fl !! j = Some (a, s).
Proof. unfold succ_ix. intros W Hi. case_decide; intros; simplify_eq; done. Qed.

Lemma dist_start n f : (f < n)%nat → dist n f (succ_ix n f) = (n - 1)%nat.
Proof. unfold dist, succ_ix. intros. repeat case_decide; lia. Qed.

(** malloc() gives the block [q] of [n] units. *)
Record malloc_done (base : Z) (h : uheap) (fl : list block) (used : gmap Z Z) (n q : Z) (h' : uheap) : Prop := mkMallocDone {
  md_new : used !! q = None;
  md_wf : ∃ fl', heap_wf base h' fl' (<[q := n]> used) ∧
    ∀ c, in_free fl c ∨ uh_brk h ≤ c < uh_brk h' ↔ q ≤ c < q + 16 * n ∨ in_free fl' c;
  md_kept : kept used (uh_mem h) (uh_mem h');
  md_brk : fits fl n ∧ uh_brk h' = uh_brk h ∨ ¬ fits fl n ∧ uh_brk h' = uh_brk h + 16 * core_units n;
}.

(** No free block is large enough, and sbrk() fails. *)
Definition malloc_failed (base : Z) (h : uheap) (fl : list block) (n : Z) (h' : uheap) : Prop :=
  ¬ fits fl n ∧ h' = upd_uh_fails tail h ∧
  (head (uh_fails h) = Some true ∨ sbrk_limit < uh_brk h + 16 * core_units n).

Section search.
Context (base : Z) (h : uheap) (fl : list block) (used : gmap Z Z) (n : Z).
Hypothesis W : heap_wf base h fl used.
Hypothesis Hn : 1 ≤ n.
Hypothesis Hbig : 16 * n < 2 ^ 31.

(** Block [i] of [l] is [p], and the one before it [prevp]. *)
Definition at_block (l : list block) (prevp p : Z) (i : nat) : Prop :=
  ∃ s, l !! i = Some (p, s) ∧ ∀ j, i = S j → ∃ sp, l !! j = Some (prevp, sp).

(** Before morecore(): the blocks that were passed are too small. *)
Definition looking (k : nat) (prevp p : Z) (h' : uheap) : Prop :=
  h' = h ∧ ∃ i f sf, at_block fl prevp p i ∧ fl !! f = Some (uh_freep h, sf) ∧
    (∀ j a t, fl !! j = Some (a, t) → (dist (length fl) f i < dist (length fl) f j)%nat → t < n) ∧
    k = (dist (length fl) f i + length fl + 2)%nat.

(** After it: a block that is large enough is on the way. *)
Definition grown (k : nat) (prevp p : Z) (h' : uheap) : Prop :=
  ¬ fits fl n ∧ uh_brk h' = uh_brk h + 16 * core_units n ∧ kept used (uh_mem h) (uh_mem h') ∧
  ∃ fl', heap_wf base h' fl' used ∧ (∀ c, in_free fl' c ↔ uh_brk h ≤ c < uh_brk h' ∨ in_free fl c) ∧
    ∃ i t b sb f sf, at_block fl' prevp p i ∧ fl' !! t = Some (b, sb) ∧ n ≤ sb ∧ k = dist (length fl') t i ∧
      fl' !! f = Some (uh_freep h', sf) ∧ (dist (length fl') t i ≤ dist (length fl') f i)%nat.

Lemma at_next l h1 used1 i a s :
  heap_wf base h1 l used1 → l !! i = Some (a, s) →
  ∃ b, ld64 (uh_mem h1) a = b ∧ at_block l a b (succ_ix (length l) i).
Proof.
  intros W1 Hi. destruct (ring_succ _ _ _ _ W1 _ _ _ Hi) as (b & t & Eb & Ep & _). exists b. split; [done|]. exists t. split; [done|].
  intros j Hj. exists s. by apply (ring_pred _ _ _ _ _ _ _ _ W1 Hi).
Qed.

Lemma taken_done h1 fl1 q h' :
  taken_from base h1 fl1 used q n h' → (∀ c, in_free fl1 c ↔ in_free fl c ∨ uh_brk h ≤ c < uh_brk h1) →
  kept used (uh_mem h) (uh_mem h1) →
  (fits fl n ∧ uh_brk h1 = uh_brk h ∨ ¬ fits fl n ∧ uh_brk h1 = uh_brk h + 16 * core_units n) →
  malloc_done base h fl used n q h'.
Proof.
  intros [T1 (fl' & T2 & T3) T4 T5] Hin Hk Hb. split; [done| | |by rewrite T5].
  - exists fl'. split; [done|]. intros c. rewrite T5, <-T3. by rewrite Hin.
  - intros a u Ha c Hc. rewrite (T4 a u Ha c Hc). by apply (Hk a u).
Qed.
Definition search_post (r : Z) (h' : uheap) : Prop :=
  r = 0 ∧ malloc_failed base h fl n h' ∨ ∃ q, r = q + 16 ∧ malloc_done base h fl used n q h'.

(** The block at [p] is large enough. *)
Lemma fit_spec h1 fl1 prevp p i s :
  heap_wf base h1 fl1 used → at_block fl1 prevp p i → fl1 !! i = Some (p, s) → n ≤ s →
  wp (malloc_take n prevp p s) h1 (λ r h', ∃ q, r = q + 16 ∧ taken_from base h1 fl1 used q n h').
Proof.
  intros W1 (s' & Hi' & Hprev) Hi Hs. rewrite Hi in Hi'. simplify_eq.
  destruct i as [|j]; [rewrite (ring_0 _ _ _ _ W1) in Hi; simplify_eq; lia|].
  destruct (Hprev j eq_refl) as [sp Hj]. by apply (malloc_take_spec _ _ _ _ (S j) j _ sp).
Qed.

(** One round of the loop. *)
Definition search_body : Z * Z → UH ((Z * Z) + Z) := λ '(prevp, p),
  sz ← size p;
  if n <=? sz then
    r ← malloc_take n prevp p sz;
    break r
  else
    f ← gets uh_freep;
    if p =? f then
      p ← morecore n;
      if p =? 0 then break 0 else q ← ptr p; continue (p, q)
    else q ← ptr p; continue (p, q).

Definition round_post (k : nat) (r : (Z * Z) + Z) (h' : uheap) : Prop :=
  match r with
  | inl (prevp, p) => ∃ k', (k' < k)%nat ∧ (looking k' prevp p h' ∨ grown k' prevp p h')
  | inr v => search_post v h'
  end.

Lemma grown_round k prevp p h' : grown k prevp p h' → wp (search_body (prevp, p)) h' (round_post k).
Proof.
  intros (Hnf & Eb & Hk & fl' & W' & Hin & i & t & b & sb & f & sf & Hat & Ht & Hsb & -> & Hf & Hd).
  pose proof Hat as (s & Hi & Hprev). destruct (at_next _ _ _ _ _ _ W' Hi) as (q & Eq & Hq).
  destruct (ring_succ _ _ _ _ W' _ _ _ Hi) as (_ & _ & _ & _ & Es & _).
  unfold search_body, size, ptr. wp_pure. rewrite Es. destruct (Z.leb_spec n s).
  - apply wp_bind. eapply wp_mono; [by eapply fit_spec|]. intros r h2 (q' & -> & HT). wp_pure. right. exists q'. split; [done|].
    eapply taken_done; [done|intros c; rewrite Hin; tauto|done|]. by right.
  - pose proof (lookup_lt_Some _ _ _ Hi). pose proof (lookup_lt_Some _ _ _ Ht). pose proof (lookup_lt_Some _ _ _ Hf).
    assert (i ≠ t) as Hit by (intros ->; rewrite Hi in Ht; simplify_eq; lia).
    pose proof (dist_succ (length fl') t i ltac:(done) ltac:(done) Hit) as Hdt.
    assert (i ≠ f) as Hif by (intros ->; unfold dist in Hd, Hdt; repeat case_decide; lia).
    pose proof (dist_succ (length fl') f i ltac:(done) ltac:(done) Hif) as Hdf.
    assert (p ≠ uh_freep h') as Hpf.
    { intros ->. apply Hif. by eapply (ring_inj _ _ _ _ W'). }
    wp_pure. destruct (Z.eqb_spec p (uh_freep h')); [done|]. wp_pure. rewrite Eq.
    exists (dist (length fl') t (succ_ix (length fl') i)). split; [lia|right].
    split_and!; [done..|]. exists fl'. split_and!; [done..|]. exists (succ_ix (length fl') i), t, b, sb, f, sf. split_and!; try done. lia.
Qed.
(** After morecore() the search goes on at the block that [freep] points to. *)
Lemma grown_start h' fl' :
  heap_wf base h' fl' used → ¬ fits fl n → uh_brk h' = uh_brk h + 16 * core_units n → kept used (uh_mem h) (uh_mem h') →
  (∀ c, in_free fl' c ↔ uh_brk h ≤ c < uh_brk h' ∨ in_free fl c) → fits fl' n → (length fl' ≤ S (length fl))%nat →
  ∃ k, (k ≤ length fl)%nat ∧ grown k (uh_freep h') (ld64 (uh_mem h') (uh_freep h')) h'.
Proof.
  intros W' Hnf Eb Hk Hin (b & sb & Hb & Hsb) Hl. destruct (ring_free_ix _ _ _ _ W') as (f & sf & Hf).
  destruct (at_next _ _ _ _ _ _ W' Hf) as (q & Eq & Hq). apply list_elem_of_lookup_1 in Hb as [t Ht].
  pose proof (lookup_lt_Some _ _ _ Ht) as Lt. pose proof (lookup_lt_Some _ _ _ Hf) as Lf. pose proof Hq as (s & Hs & _). pose proof (lookup_lt_Some _ _ _ Hs) as Ls.
  pose proof (dist_lt _ _ _ Ls Lt). exists (dist (length fl') t (succ_ix (length fl') f)). split; [lia|]. rewrite Eq.
  split_and!; [done..|]. exists fl'. split_and!; [done..|]. exists (succ_ix (length fl') f), t, b, sb, f, sf. split_and!; try done.
  rewrite (dist_start _ _ Lf). lia.
Qed.

Lemma looking_round k prevp p h' : looking k prevp p h' → wp (search_body (prevp, p)) h' (round_post k).
Proof.
  intros (-> & i & f & sf & Hat & Hf & Hpast & ->). pose proof Hat as (s & Hi & Hprev).
  destruct (at_next _ _ _ _ _ _ W Hi) as (q & Eq & Hq). destruct (ring_succ _ _ _ _ W _ _ _ Hi) as (_ & _ & _ & _ & Es & _).
  pose proof (lookup_lt_Some _ _ _ Hi) as Li. pose proof (lookup_lt_Some _ _ _ Hf) as Lf.
  unfold search_body, size, ptr. wp_pure. rewrite Es. destruct (Z.leb_spec n s) as [Hfit|Hsmall].
  - apply wp_bind. eapply wp_mono; [by eapply fit_spec|]. intros r h2 (q' & -> & HT). wp_pure. right. exists q'. split; [done|].
    eapply taken_done; [done| |done|].
    + intros c. split; [tauto|]. intros [?|?]; [done|lia].
    + left. split; [|done]. exists p, s. split; [by eapply list_elem_of_lookup_2|done].
  - wp_pure. destruct (Z.eqb_spec p (uh_freep h)) as [->|Hpf].
    + assert (i = f) as -> by by eapply (ring_inj _ _ _ _ W). assert (¬ fits fl n) as Hnf.
      { intros (a & t & [j Hj]%list_elem_of_lookup_1 & Ht). destruct (decide (j = f)) as [->|Hjf]; [rewrite Hf in Hj; simplify_eq; lia|].
        pose proof (lookup_lt_Some _ _ _ Hj) as Lj. specialize (Hpast j a t Hj). pose proof (dist_0 (length fl) f j Lj).
        unfold dist in Hpast at 1. case_decide; lia. }
      apply wp_bind. eapply wp_mono; [by eapply morecore_spec|]. intros r h2 [(-> & -> & Hfail)|(Hr & -> & Eb & fl' & W' & Hin & Hfit & Hl & Hk)]; simpl.
      * wp_pure. left. done.
      * destruct (Z.eqb_spec (uh_freep h2) 0); [done|]. wp_pure.
        destruct (grown_start h2 fl') as (k' & Hk' & G); [done..|]. exists k'. split; [lia|by right].
    + assert (i ≠ f) as Hif by (intros ->; rewrite Hi in Hf; simplify_eq).
      pose proof (dist_succ (length fl) f i Li Lf Hif) as Hdf. wp_pure. rewrite Eq.
      exists (dist (length fl) f (succ_ix (length fl) i) + length fl + 2)%nat. split; [lia|left]. split; [done|].
      exists (succ_ix (length fl) i), f, sf. split_and!; [done..| |done]. intros j a t Hj Hd.
      destruct (decide (j = i)) as [->|Hji]; [rewrite Hi in Hj; simplify_eq; lia|]. apply (Hpast j a t Hj).
      assert (dist (length fl) f j ≠ dist (length fl) f i); [|lia]. intros E. apply Hji. eapply dist_inj; [by eapply lookup_lt_Some|exact Li|exact Lf|exact E].
Qed.

Lemma malloc_search_spec : wp (malloc_search n (uh_freep h) (ld64 (uh_mem h) (uh_freep h))) h search_post.
Proof.
  destruct (ring_free_ix _ _ _ _ W) as (f & sf & Hf). destruct (at_next _ _ _ _ _ _ W Hf) as (q & Eq & Hq). rewrite Eq.
  pose proof (lookup_lt_Some _ _ _ Hf) as Lf. pose proof (ring_length _ _ _ _ W) as Hlen.
  apply (wp_loop_ix search_body (λ k x h', looking k x.1 x.2 h' ∨ grown k x.1 x.2 h') search_post) with
    (n := (dist (length fl) f (succ_ix (length fl) f) + length fl + 2)%nat).
  - intros k [prevp p] h' HI. eapply wp_mono; [destruct HI; [by apply looking_round|by apply grown_round]|].
    intros [[prevp' p']|v] h2; [|done]. done.
  - left. split; [done|]. exists (succ_ix (length fl) f), f, sf. split_and!; [done..| |done].
    intros j a t Hj. rewrite (dist_start _ _ Lf). pose proof (dist_lt _ _ _ (lookup_lt_Some _ _ _ Hj) Lf). lia.
  - rewrite (dist_start _ _ Lf). lia.
Qed.
End search.

(** The ring after the first call has set it up. *)
Lemma ring_init base m brk fails :
  0 < base → base + 16 ≤ brk ≤ sbrk_limit →
  heap_wf base (mkUheap (st32 (st64 m base base) (base + 8) 0) base brk fails) [(base, 0)] ∅.
Proof.
  intros H0 Hr. split; cbn [uh_mem uh_freep uh_brk]; [by exists []|done| | |..].
  - simpl. change sbrk_limit with 134217728 in Hr. rewrite ld64_st32_out, ld64_st64, ld32_st32 by lia. done.
  - by repeat constructor.
  - repeat constructor. simpl. lia.
  - exists 0. left.
  - done.
  - done.
  - done.
Qed.

Lemma nunits_of_spec nbytes :
  0 ≤ nbytes ≤ 2 ^ 31 - 32 →
  1 ≤ nunits_of nbytes ∧ 16 * nunits_of nbytes < 2 ^ 31 ∧ nbytes + 16 ≤ 16 * nunits_of nbytes < nbytes + 32.
Proof.
  intros Hb. unfold nunits_of, HDR. pose proof (Z.div_mod (nbytes + 16 - 1) 16 ltac:(lia)). pose proof (Z.mod_pos_bound (nbytes + 16 - 1) 16 ltac:(lia)).
  rewrite u32_small; lia.
Qed.

(** What malloc() gives: a null pointer, with the heap as it was, or a block. *)
Definition malloc_post (base : Z) (h : uheap) (fl : list block) (used : gmap Z Z) (n p : Z) (h' : uheap) : Prop :=
  p = 0 ∧ ¬ fits fl n ∧ (head (uh_fails h) = Some true ∨ sbrk_limit < uh_brk h + 16 * core_units n) ∧
    heap_wf base h' fl used ∧ kept used (uh_mem h) (uh_mem h') ∧ uh_brk h' = uh_brk h ∨
  ∃ q, p = q + 16 ∧ malloc_done base h fl used n q h'.

Lemma malloc_spec base h fl used nbytes :
  heap_ok base h fl used → 0 ≤ nbytes ≤ 2 ^ 31 - 32 →
  wp (malloc base nbytes) h (malloc_post base h fl used (nunits_of nbytes)).
Proof.
  intros Hok Hb. destruct (nunits_of_spec nbytes Hb) as (H1 & H2 & _). set (n := nunits_of nbytes) in *.
  assert (∀ h1, heap_wf base h1 fl used → uh_fails h1 = uh_fails h → uh_brk h1 = uh_brk h → kept used (uh_mem h) (uh_mem h1) →
    wp (malloc_search n (uh_freep h1) (ld64 (uh_mem h1) (uh_freep h1))) h1 (malloc_post base h fl used n)) as Hsearch.
  { intros h1 W1 Ef Eb Hk. eapply wp_mono; [by eapply malloc_search_spec|].
    intros r h2 [(-> & Hnf & -> & Hfail)|(q & -> & [D1 (fl' & D2 & D3) D4 D5])].
    - left. rewrite <-Ef, <-Eb. split_and!; [done..| |done|done]. by destruct W1; split.
    - right. exists q. split; [done|]. split; [done| | |by rewrite <-Eb].
      + exists fl'. split; [done|]. by rewrite <-Eb.
      + intros a u Ha c Hc. rewrite (D4 a u Ha c Hc). by apply (Hk a u). }
  unfold malloc. fold n. unfold ptr, set_freep, set_ptr, set_size. wp_pure. destruct Hok as [(-> & -> & -> & H3 & H4)|W].
  - simpl. wp_pure. by apply (Hsearch (mkUheap (st32 (st64 (uh_mem h) base base) (base + 8) 0) base (uh_brk h) (uh_fails h))); [apply ring_init|..].
  - destruct (ring_free_ix _ _ _ _ W) as (i & s & Hi). pose proof (ring_low _ _ _ _ W _ _ _ Hi). pose proof (hw_range _ _ _ _ W).
    destruct (Z.eqb_spec (uh_freep h) 0); [lia|]. wp_pure. by apply Hsearch.
Qed.

(** ** Programs that use the allocator *)

(** The largest request whose bytes, rounded up to units with the header, fit
    into the int that morecore() passes to sbrk(). *)
Definition max_request : Z := 2 ^ 31 - 32.

(** What a program does with its heap: it calls malloc() for at most
    [max_request] bytes and free() for blocks in use, and writes into blocks in
    use.  (malloc() accepts every uint; larger requests break the invariant, as
    the last theorem shows.) *)
Inductive heap_step (base : Z) : uheap * gmap Z Z → uheap * gmap Z Z → Prop :=
| hs_malloc h used nbytes p h' :
    0 ≤ nbytes ≤ max_request → malloc base nbytes h = Ok p h' →
    heap_step base (h, used) (h', if p =? 0 then used else <[p - 16 := nunits_of nbytes]> used)
| hs_free h used a s h' :
    used !! a = Some s → free (a + 16) h = Ok tt h' → heap_step base (h, used) (h', delete a used)
| hs_write h used a s c v :
    used !! a = Some s → a + 16 ≤ c < a + 16 * s → heap_step base (h, used) (upd_uh_mem (λ m, stb m c v) h, used).

(** The heaps of a program that starts with the break [brk]. *)
Definition heap_reached (base brk : Z) (fails : list bool) (m : mem) (x : uheap * gmap Z Z) : Prop :=
  rtc (heap_step base) (mkUheap m 0 brk fails, ∅) x.

Lemma free_ok base h fl used a s :
  heap_ok base h fl used → used !! a = Some s →
  wp (free (a + 16)) h (λ _ h', ∃ fl', heap_wf base h' fl' (delete a used) ∧
    (∀ c, in_free fl' c ↔ a ≤ c < a + 16 * s ∨ in_free fl c) ∧
    kept (delete a used) (uh_mem h) (uh_mem h') ∧ uh_brk h' = uh_brk h).
Proof.
  intros [(_ & _ & -> & _)|W] Ha; [done|]. eapply wp_mono.
  - apply (free_spec base h fl (delete a used) a s); [by rewrite insert_delete_id|apply lookup_delete_eq].
  - intros _ h' (fl' & W' & Hin & _ & _ & Hk & Eb & _). by exists fl'.
Qed.

(** A byte of a block in use is not part of a header the allocator reads. *)
Lemma write_wf base h fl used a s c v :
  heap_wf base h fl used → used !! a = Some s → a + 16 ≤ c < a + 16 * s →
  heap_wf base (upd_uh_mem (λ m, stb m c v) h) fl used.
Proof.
  intros W Ha Hc. pose proof (hw_used _ _ _ _ W _ _ Ha) as Hu.
  assert (∀ b t, (b, t) ∈ fl → c < b ∨ b + 16 ≤ c) as Hout.
  { intros b t Hb. pose proof (hw_free_apart _ _ _ _ W _ _ _ _ Ha Hb). apply list_elem_of_lookup_1 in Hb as [[|i] Hi].
    - rewrite (ring_0 _ _ _ _ W) in Hi. simplify_eq. lia.
    - apply (ring_size _ _ _ _ W) in Hi. lia. }
  destruct W as [W1 W2 W3 W4 W5 W6 W7 W8 W9]. split; cbn [uh_mem uh_freep uh_brk upd_uh_mem]; try done.
  - eapply chain_same; [|exact W3]. intros b t Hb d Hd. apply ldb_stb_ne. apply Hout in Hb. lia.
  - intros b t Hb. destruct (W7 b t Hb) as (? & ? & ? & E). split_and!; [done..|]. rewrite <-E. apply ldn_ext. intros d Hd. apply ldb_stb_ne.
    destruct (decide (a = b)) as [<-|Hab]; [lia|]. pose proof (W8 _ _ _ _ Ha Hb Hab). lia.
Qed.

Lemma heap_step_ok base x y :
  heap_step base x y → (∃ fl, heap_ok base x.1 fl x.2) → ∃ fl, heap_ok base y.1 fl y.2.
Proof.
  intros Hs [fl Hok]. destruct Hs as [h used nbytes p h' Hb E|h used a s h' Ha E|h used a s c v Ha Hc]; simpl in *.
  - pose proof (malloc_spec _ _ _ _ nbytes Hok Hb) as Hwp. unfold wp in Hwp. rewrite E in Hwp.
    destruct Hwp as [(-> & _ & _ & W & _)|(q & -> & [D1 (fl' & W & _) _ _])]; [exists fl; by right|].
    exists fl'. right. destruct (hw_used _ _ _ _ W q (nunits_of nbytes) (lookup_insert_eq _ _ _)) as (_ & Hq & _). pose proof (hw_range _ _ _ _ W).
    destruct (Z.eqb_spec (q + 16) 0); [lia|]. by replace (q + 16 - 16) with q by lia.
  - pose proof (free_ok _ _ _ _ _ _ Hok Ha) as Hwp. unfold wp in Hwp. rewrite E in Hwp. destruct Hwp as (fl' & W & _). exists fl'. by right.
  - exists fl. right. destruct Hok as [(_ & _ & -> & _)|W]; [done|]. by eapply write_wf.
Qed.

Lemma heap_reached_ok base brk fails m x :
  0 < base → base + 16 ≤ brk ≤ sbrk_limit → heap_reached base brk fails m x → ∃ fl, heap_ok base x.1 fl x.2.
Proof.
  intros H0 Hr Hx. assert (∃ fl, heap_ok base (mkUheap m 0 brk fails, ∅ : gmap Z Z).1 fl (mkUheap m 0 brk fails, ∅ : gmap Z Z).2) as Hok.
  { exists [(base, 0)]. by left. }
  unfold heap_reached in Hx. induction Hx as [|x y z Hxy Hyz IH]; [done|]. apply IH. by eapply heap_step_ok.
Qed.

(** ** Sizes that do not fit *)

Lemma nunits_of_wrap nbytes : 2 ^ 32 - 15 ≤ nbytes < 2 ^ 32 → nunits_of nbytes = 2 ^ 28 + 1.
Proof.
  intros Hb. unfold nunits_of, HDR. pose proof (Z.div_mod (nbytes + 16 - 1) 16 ltac:(lia)). pose proof (Z.mod_pos_bound (nbytes + 16 - 1) 16 ltac:(lia)).
  rewrite u32_small; lia.
Qed.

(** The first block of a ring that holds only [base]. *)
Lemma free_first base h bp sz :
  0 < base → base + 16 ≤ bp < 2 ^ 38 → 1 ≤ sz → uh_freep h = base → ld64 (uh_mem h) base = base → ld32 (uh_mem h) (base + 8) = 0 →
  ld32 (uh_mem h) (bp + 8) = sz →
  free (bp + 16) h = Ok tt (mkUheap (st64 (st64 (uh_mem h) bp base) base bp) base (uh_brk h) (uh_fails h)).
Proof.
  intros H0 Hbp Hsz Ef Ep Es Ez.
  assert (wp (free (bp + 16)) h (λ _ h', h' = mkUheap (st64 (st64 (uh_mem h) bp base) base bp) base (uh_brk h) (uh_fails h))) as Hwp.
  { unfold free, HDR. replace (bp + 16 - 16) with bp by lia. apply wp_bind. eapply wp_mono with (Q := λ p h', p = base ∧ h' = h).
    { unfold free_place. wp_pure. apply (wp_loop_ix _ (λ k p h', k = 0%nat ∧ p = base ∧ h' = h) (λ p h', p = base ∧ h' = h)) with (n := 0%nat); [|done..].
      intros k p h' (-> & -> & ->). unfold ptr. wp_pure. rewrite Ep. destruct (Z.ltb_spec base bp), (Z.ltb_spec bp base), (Z.leb_spec base base); try lia. wp_pure. done. }
    intros ? ? [-> ->]. unfold ptr, size, set_ptr, set_size, set_freep. wp_pure. rewrite Ep, Ez. destruct (Z.eqb_spec (bp + 16 * sz) base); [lia|].
    wp_pure. cbn [uh_mem upd_uh_mem]. rewrite (ld32_st64_out _ bp) by lia. rewrite Es. destruct (Z.eqb_spec (base + 16 * 0) bp); [lia|].
    wp_pure. by rewrite Ep. }
  unfold wp in Hwp. by destruct (free (bp + 16) h) as [[] h'| |]; [subst h'|..].
Qed.

(** For 2^28 + 1 units sbrk() is asked for 16 bytes. *)
Lemma morecore_wrap base m brk fails (Q : Z → uheap → Prop) :
  0 < base → base + 16 ≤ brk → brk + 16 ≤ sbrk_limit → head fails ≠ Some true →
  ld64 m base = base → ld32 m (base + 8) = 0 →
  Q base (mkUheap (st64 (st64 (st32 m (brk + 8) (2 ^ 28 + 1)) brk base) base brk) base (brk + 16) (tail fails)) →
  wp (morecore (2 ^ 28 + 1)) (mkUheap m base brk fails) Q.
Proof.
  intros H0 H1 H2 Hf Ep Es HQ. unfold morecore, sbrk, set_size. cbv zeta. apply wp_bind.
  change (s32 ((if 2 ^ 28 + 1 <? 4096 then 4096 else 2 ^ 28 + 1) * HDR)) with 16. wp_pure. cbn [uh_fails uh_brk upd_uh_fails].
  rewrite bool_decide_eq_false_2 by done. destruct (Z.ltb_spec sbrk_limit (brk + 16)); [lia|]. change ((0 <? 16) && (false || false)) with false.
  wp_pure. change (u64 (-1)) with 18446744073709551615. change sbrk_limit with 134217728 in *. change (2 ^ 28 + 1 <? 4096) with false. cbv iota. wp_pure.
  case_cmp; [lia|]. wp_pure. unfold wp, HDR. rewrite (free_first base _ brk (2 ^ 28 + 1)); cbn [uh_mem uh_freep uh_brk upd_uh_mem upd_uh_brk upd_uh_fails]; try (done || lia).
  - by rewrite ld64_st32_out by lia.
  - by rewrite ld32_st32_out by lia.
  - by rewrite ld32_st32 by lia.
Qed.

Lemma malloc_wrap base m brk fails nbytes :
  0 < base → base + 16 ≤ brk → brk + 16 ≤ sbrk_limit → head fails ≠ Some true → 2 ^ 32 - 15 ≤ nbytes < 2 ^ 32 →
  wp (malloc base nbytes) (mkUheap m 0 brk fails) (λ p h', p = brk + 16 ∧ uh_brk h' = brk + 16).
Proof.
  intros H0 H1 H2 Hf Hb. unfold malloc. rewrite (nunits_of_wrap _ Hb). unfold ptr, set_freep, set_ptr, set_size. cbv zeta. wp_pure. cbn [uh_freep]. rewrite Z.eqb_refl. wp_pure.
  cbn [uh_mem upd_uh_mem upd_uh_freep]. set (m0 := st32 (st64 m base base) (base + 8) 0). change sbrk_limit with 134217728 in *.
  assert (ld64 m0 base = base ∧ ld32 m0 (base + 8) = 0) as [Ep Es].
  { unfold m0. rewrite ld64_st32_out, ld64_st64, ld32_st32 by lia. done. }
  rewrite Ep. set (h1 := mkUheap m0 base brk fails).
  set (h2 := mkUheap (st64 (st64 (st32 m0 (brk + 8) (2 ^ 28 + 1)) brk base) base brk) base (brk + 16) (tail fails)).
  apply (wp_loop_ix _ (λ k x h, k = 1%nat ∧ x = (base, base) ∧ h = h1 ∨ k = 0%nat ∧ x = (base, brk) ∧ h = h2) _) with (n := 1%nat); [|by left|done].
  intros k x h [(-> & -> & ->)|(-> & -> & ->)]; unfold size, ptr, malloc_take, set_ptr, set_freep; wp_pure; cbn [uh_mem h1 h2].
  - rewrite Es. change (2 ^ 28 + 1 <=? 0) with false. cbv iota. wp_pure. cbn [uh_freep]. rewrite Z.eqb_refl.
    apply wp_bind. apply morecore_wrap; try (done || lia). destruct (Z.eqb_spec base 0); [lia|]. unfold ptr. wp_pure. cbn [uh_mem].
    rewrite ld64_st64 by lia. exists 0%nat. split; [lia|]. by right.
  - rewrite !(ld32_st64_out _ _ _ (brk + 8)) by lia. rewrite ld32_st32 by lia. change (2 ^ 28 + 1 <=? 2 ^ 28 + 1) with true.
    cbv iota. wp_pure. rewrite Z.eqb_refl. wp_pure. done.
Qed.

(** ** Theorems *)

(** C32. malloc() of up to 2^31 - 32 bytes returns from every well-formed heap.  It
    gives a null pointer only when no free block is large enough and sbrk()
    fails, and then the heap is as before.  Otherwise it gives at least [nbytes]
    bytes below the break that are in no block in use; the free blocks shrink
    by exactly the new block, after they grew by what sbrk() gave, which is
    called only when nothing fits; no byte of a block in use changes. *)
Theorem malloc_correct base h fl used nbytes :
  heap_ok base h fl used → 0 ≤ nbytes ≤ 2 ^ 31 - 32 →
  wp (malloc base nbytes) h (λ p h',
    malloc_post base h fl used (nunits_of nbytes) p h' ∧
    (p ≠ 0 → base + 32 ≤ p ∧ p + nbytes ≤ uh_brk h' ∧
       ∀ a s, used !! a = Some s → a + 16 * s ≤ p - 16 ∨ p + nbytes ≤ a)).
Proof.
  intros Hok Hb. eapply wp_mono; [by apply malloc_spec|]. intros p h' Hpost. split; [done|]. intros Hp.
  destruct Hpost as [[? _]|(q & -> & [D1 (fl' & W & _) _ _])]; [done|]. destruct (nunits_of_spec nbytes Hb) as (_ & _ & Hn).
  pose proof (hw_used _ _ _ _ W q _ (lookup_insert_eq _ _ _)) as Hq. split_and!; [lia..|]. intros a s Ha. assert (a ≠ q) as Hne by congruence.
  pose proof (hw_used_apart _ _ _ _ W a s q (nunits_of nbytes) ltac:(by rewrite lookup_insert_ne) (lookup_insert_eq _ _ _) Hne). lia.
Qed.

(** C33. free() of a block in use returns from every well-formed heap, and leaves
    one in which the block is free: the bytes in free blocks are those that were
    and the bytes of the block, adjacent free blocks are joined, the other blocks
    stay in use and none of their bytes changes. *)
Theorem free_correct base h fl used a s :
  heap_ok base h fl used → used !! a = Some s →
  wp (free (a + 16)) h (λ _ h', ∃ fl', heap_wf base h' fl' (delete a used) ∧
    (∀ c, in_free fl' c ↔ a ≤ c < a + 16 * s ∨ in_free fl c) ∧
    kept (delete a used) (uh_mem h) (uh_mem h') ∧ uh_brk h' = uh_brk h).
Proof. apply free_ok. Qed.

(** C34. Whatever a program does with malloc() of up to 2^31 - 32 bytes, free() of
    its blocks and the bytes of its blocks, its heap is well-formed: the free
    blocks are a ring in the order of the addresses from [base], none touches the
    next, [freep] points into it, the sizes in the headers are right, and all
    blocks, free or in use, are apart and below the break.  In each heap the
    program reaches this way its next such call returns. *)
Theorem heap_invariant base brk fails m h used :
  0 < base → base + 16 ≤ brk ≤ sbrk_limit → heap_reached base brk fails m (h, used) →
  (∃ fl, heap_ok base h fl used) ∧
  (∀ nbytes, 0 ≤ nbytes ≤ max_request → ∃ p h', malloc base nbytes h = Ok p h') ∧
  (∀ a s, used !! a = Some s → ∃ h', free (a + 16) h = Ok tt h').
Proof.
  intros H0 Hr Hx. destruct (heap_reached_ok _ _ _ _ _ H0 Hr Hx) as [fl Hok]. simpl in Hok. split_and!; [by exists fl|..].
  - intros nbytes Hb. pose proof (malloc_spec _ _ _ _ nbytes Hok Hb) as Hwp. unfold wp in Hwp.
    destruct (malloc base nbytes h) as [p h'| |]; [eauto|done..].
  - intros a s Ha. pose proof (free_ok _ _ _ _ _ _ Hok Ha) as Hwp. unfold wp in Hwp.
    destruct (free (a + 16) h) as [[] h'| |]; [eauto|done..].
Qed.

(** C35. For the 15 largest sizes the number of bytes that morecore() wants does
    not fit into the int that sbrk() takes: the first malloc() of such a size
    asks for 16 bytes, and the block it returns starts at the break, so that no
    byte of it is memory of the process. *)
Theorem malloc_wraps base m brk fails nbytes :
  0 < base → base + 16 ≤ brk → brk + 16 ≤ sbrk_limit → head fails ≠ Some true → 2 ^ 32 - 15 ≤ nbytes < 2 ^ 32 →
  wp (malloc base nbytes) (mkUheap m 0 brk fails) (λ p h', p = uh_brk h' ∧ uh_brk h' = brk + 16).
Proof. intros. eapply wp_mono; [by apply malloc_wrap|]. simpl. intros p h' [-> ->]. done. Qed.

(** *** Concrete heaps *)

(** A program that has not allocated, and one that has a block of 2 units. *)
Definition fresh_heap : uheap := mkUheap ∅ 0 8192 [].
Definition one_block : uheap :=
  mkUheap (st32 (st32 (st64 ∅ 4096 4096) (4096 + 8) 0) (8192 + 8) 2) 4096 (8192 + 16 * 2) [].

Lemma one_block_ok : heap_ok 4096 one_block [(4096, 0)] {[8192 := 2]}.
Proof. right. apply (grow_wf 4096 (mkUheap _ 4096 8192 []) [(4096, 0)] ∅ 2); [by apply ring_init|done..]. Qed.

(** malloc(100), and then free(). *)
Definition demo_malloc : Z * uheap := match malloc 4096 100 fresh_heap with Ok p h => (p, h) | _ => (0, fresh_heap) end.
Definition demo_free : uheap := match free demo_malloc.1 demo_malloc.2 with Ok _ h => h | _ => fresh_heap end.

Lemma demo_reached : heap_reached 4096 8192 [] ∅ (demo_free, delete 73600 {[73600 := 8]}).
Proof.
  eapply rtc_l; [apply (hs_malloc 4096 fresh_heap ∅ 100 demo_malloc.1 demo_malloc.2); [unfold max_request; lia|by vm_compute]|].
  replace (if demo_malloc.1 =? 0 then _ else _) with ({[73600 := 8]} : gmap Z Z) by by vm_compute.
  eapply rtc_l; [apply (hs_free 4096 _ _ 73600 8 demo_free); by vm_compute|]. apply rtc_refl.
Qed.

Lemma malloc_correct_witness :
  ∃ p h', malloc 4096 100 fresh_heap = Ok p h' ∧ malloc_post 4096 fresh_heap [(4096, 0)] ∅ (nunits_of 100) p h'.
Proof.
  pose proof (malloc_correct 4096 fresh_heap [(4096, 0)] ∅ 100 ltac:(by left) ltac:(lia)) as H.
  unfold wp in H. destruct (malloc 4096 100 fresh_heap) as [p h'| |]; [|done..]. exists p, h'. split; [done|]. by destruct H.
Defined.

Lemma free_correct_witness :
  wp (free (8192 + 16)) one_block (λ _ h', ∃ fl', heap_wf 4096 h' fl' (delete 8192 {[8192 := 2]}) ∧
    (∀ c, in_free fl' c ↔ 8192 ≤ c < 8192 + 16 * 2 ∨ in_free [(4096, 0)] c) ∧
    kept (delete 8192 {[8192 := 2]}) (uh_mem one_block) (uh_mem h') ∧ uh_brk h' = uh_brk one_block).
Proof. apply (free_correct 4096 one_block [(4096, 0)] {[8192 := 2]} 8192 2); [apply one_block_ok|done]. Defined.

Lemma heap_invariant_witness :
  (∃ fl, heap_ok 4096 demo_free fl (delete 73600 {[73600 := 8]})) ∧ ∃ p h', malloc 4096 500 demo_free = Ok p h'.
Proof.
  destruct (heap_invariant 4096 8192 [] ∅ demo_free (delete 73600 {[73600 := 8]}) ltac:(lia) ltac:(by split) demo_reached) as (H1 & H2 & _).
  split; [exact H1|]. apply H2. unfold max_request. lia.
Defined.

Lemma malloc_wraps_witness :
  wp (malloc 4096 (2 ^ 32 - 1)) fresh_heap (λ p h', p = uh_brk h' ∧ uh_brk h' = 8192 + 16).
Proof. apply (malloc_wraps 4096 ∅ 8192 [] (2 ^ 32 - 1)); [lia|lia|done|done|lia]. Defined.
