(* ===== verification/Ulib.v ===== *)
(** * The C library of user programs (user/ulib.c)

    The string and memory functions work on the bytes of the process; pointers
    are addresses, and a char is unsigned, as on RISC-V.  The loops without a
    counter use the [loop] combinator.  gets() reads from descriptor 0, and
    stat() uses the system calls of User.v.

    Shown: the functions compute their list counterparts on C strings, the copy
    functions write only their destination, strcmp() recognises what strcpy()
    wrote and orders strings lexicographically, atoi() reads back what printf()
    printed, and strchr() is the search that the parser of the shell uses. *)

From stdpp Require Import gmap list strings.
From Stdlib Require Import ZArith Lia.
From S2P Require Import Prelude Params Mem Str Grep User Sh UserSpec.
#[local] Open Scope Z_scope.

(** ** Strings *)

(** while(( *s++ = *t++) != 0) ; *)
Definition strcpy (s t : Z) : M mem Z :=
  loop (λ '(s, t),
    c ← gets (λ r, ldb r t);
    modify (λ r, stb r s c);;
    if c =? 0 then break tt else continue (s + 1, t + 1)) (s, t);;
  mret s.

Definition strcmp (p q : Z) : M mem Z :=
  loop (λ '(p, q),
    a ← gets (λ r, ldb r p);
    b ← gets (λ r, ldb r q);
    if nz a && (a =? b) then continue (p + 1, q + 1) else break (u8 a - u8 b)) (p, q).

(** The counter is an int, the result a uint. *)
Definition strlen (s : Z) : M mem Z :=
  n ← loop (λ n,
    c ← gets (λ r, ldb r (s + n));
    if c =? 0 then break n else continue (s32 (n + 1))) 0;
  mret (u32 n).

(** A null pointer when the character does not occur. *)
Definition strchr (s c : Z) : M mem Z :=
  loop (λ s,
    a ← gets (λ r, ldb r s);
    if a =? 0 then break 0 else
    if a =? u8 c then break s else continue (s + 1)) s.

Definition atoi (s : Z) : M mem Z :=
  loop (λ '(s, n),
    c ← gets (λ r, ldb r s);
    if (48 <=? c) && (c <=? 57) then continue (s + 1, s32 (n * 10 + c - 48)) else break n) (s, 0).

(** ** Memory *)

Definition memset (r : mem) (dst c n : Z) : mem := memset_loop (Z.to_nat n) r dst c 0.

Definition memmove (r : mem) (vdst vsrc n : Z) : mem :=
  if vdst <? vsrc then copy_up (Z.to_nat n) r vdst vsrc
  else copy_down (Z.to_nat n) r (vdst + n) (vsrc + n).

Definition memcmp (r : mem) (s1 s2 n : Z) : Z := memcmp_loop (Z.to_nat n) r s1 s2.

(** [n] is a uint here, an int in memmove(). *)
Definition memcpy (r : mem) (dst src n : Z) : mem := memmove r dst src (s32 n).

(** ** Input *)

(** The memory of a process, and its files. *)
Record ustate : Type := mkUstate {
  us_mem : mem;
  us_proc : uproc;
}.

Definition on_mem (f : mem → mem) : M ustate unit := modify (λ s, mkUstate (f (us_mem s)) (us_proc s)).
Definition on_proc {A} (m : U A) : M ustate A := λ s,
  match m (us_proc s) with
  | Ok a u => Ok a (mkUstate (us_mem s) u)
  | Panic msg u => Panic msg (mkUstate (us_mem s) u)
  | Diverge => Diverge
  end.

Definition gets_line (buf max : Z) : M ustate Z :=
  i ← loop (λ i,
    if i + 1 <? max then
      r ← on_proc (read 0 1);
      match r with
      | Some (c :: _) =>
          on_mem (λ m, stb m (buf + i) c);;
          if (c =? 10) || (c =? 13) then break (i + 1) else continue (i + 1)
      | _ => break i
      end
    else break i) 0;
  on_mem (λ m, stb m (buf + i) 0);;
  mret buf.

(** fstat() is the system call; it fills in the struct at [st]. *)
Definition stat (fstat : Z → Z → M ustate Z) (n : list Z) (st : Z) : M ustate Z :=
  fd ← on_proc (open n);
  match fd with
  | None => mret (-1)
  | Some fd =>
      r ← fstat fd st;
      on_proc (close fd);;
      mret r
  end.

(** ** Specifications *)

Lemma strlen_ok r s bs :
  is_cstr r s bs → Z.of_nat (length bs) < 2 ^ 31 → strlen s r = Ok (Z.of_nat (length bs)) r.
Proof.
  intros Hs Hl. pose proof (strlen_spec r s bs Hs Hl) as E. unfold Str.strlen in E. unfold strlen.
  assert (wp (n ← loop (λ n, c ← gets (λ r0, ldb r0 (s + n)); if c =? 0 then break n else continue (s32 (n + 1))) 0; mret (u32 n)) r
            (λ n r', n = Z.of_nat (length bs) ∧ r' = r)) as H.
  { apply wp_bind. unfold wp at 1. rewrite E. wp_pure. rewrite u32_small by lia. done. }
  apply wp_iff in H as (? & ? & -> & -> & ->). done.
Qed.

Lemma strcpy_ok r s t ts :
  is_cstr r t ts → s + Z.of_nat (length ts) < t ∨ t + Z.of_nat (length ts) < s → Z.of_nat (length ts) < 2 ^ 63 →
  wp (strcpy s t) r (λ p r', p = s ∧ is_cstr r' s ts ∧
    ∀ b, b < s ∨ s + Z.of_nat (length ts) < b → ldb r' b = ldb r b).
Proof.
  intros Ht Hd Hlen. unfold strcpy. apply wp_bind.
  apply (wp_loop_ix _ (λ n x r', ∃ i, n = (length ts - i)%nat ∧ (i ≤ length ts)%nat ∧ x = (s + Z.of_nat i, t + Z.of_nat i) ∧
      (∀ j b, (j < i)%nat → ts !! j = Some b → ldb r' (s + Z.of_nat j) = b) ∧
      ∀ b, b < s ∨ s + Z.of_nat i ≤ b → ldb r' b = ldb r b) _) with (n := length ts); [|exists 0%nat|lia].
  - intros n x r' (i & -> & Hi & -> & Hdone & Hsame). wp_pure. destruct Ht as [Hts Hnul].
    destruct (decide (i = length ts)) as [->|Hne].
    + rewrite (Hsame (t + _)) by lia. rewrite Hnul. simpl (0 =? 0). cbv iota. wp_pure. split; [done|]. split.
      * split; [|by rewrite ldb_stb_eq]. intros j b Hj. apply lookup_lt_Some in Hj as Hlt. rewrite ldb_stb_ne by lia.
        split; [by apply Hdone|]. by apply (Hts j).
      * intros b Hb. rewrite ldb_stb_ne by lia. apply Hsame. lia.
    + destruct (lookup_lt_is_Some_2 ts i) as [c Hc]; [lia|]. destruct (Hts _ _ Hc) as [Ec Hc0].
      rewrite (Hsame (t + _)) by lia. rewrite Ec. destruct (Z.eqb_spec c 0); [done|]. wp_pure.
      exists (length ts - S i)%nat. split; [lia|]. exists (S i). split_and!; [done|lia|f_equal; lia| |].
      * intros j b Hj Hb. destruct (decide (j = i)) as [->|]; [|rewrite ldb_stb_ne by lia; apply Hdone; [lia|done]].
        rewrite ldb_stb_eq. rewrite Hc in Hb. simplify_eq. apply Z.mod_small. apply ldb_range.
      * intros b Hb. rewrite ldb_stb_ne by lia. apply Hsame. lia.
  - split_and!; [lia|lia|f_equal; lia|intros; lia|done].
Qed.

(** The first difference of two strings. *)
Fixpoint str_diff (ps qs : list Z) : Z :=
  match ps, qs with
  | a :: ps', b :: qs' => if a =? b then str_diff ps' qs' else a - b
  | a :: _, [] => a
  | [], b :: _ => - b
  | [], [] => 0
  end.

(** The order of a dictionary. *)
Inductive str_lt : list Z → list Z → Prop :=
| sl_end b qs : str_lt [] (b :: qs)
| sl_less a b ps qs : a < b → str_lt (a :: ps) (b :: qs)
| sl_same a ps qs : str_lt ps qs → str_lt (a :: ps) (a :: qs).

Lemma str_diff_zero ps qs : Forall (λ c, 0 < c) ps → Forall (λ c, 0 < c) qs → str_diff ps qs = 0 ↔ ps = qs.
Proof.
  intros Hp. revert qs. induction Hp as [|a ps Ha Hp IH]; intros qs Hqs; destruct Hqs as [|b qs Hb Hq]; simpl; try (split; [lia|done]); [done|].
  case_cmp; [subst; rewrite (IH qs Hq); split; [by intros ->|by intros [=]]|]. split; [lia|intros [=]; lia].
Qed.

Lemma str_diff_neg ps qs : Forall (λ c, 0 < c) ps → Forall (λ c, 0 < c) qs → str_diff ps qs < 0 ↔ str_lt ps qs.
Proof.
  intros Hp. revert qs. induction Hp as [|a ps Ha Hp IH]; intros qs Hqs; destruct Hqs as [|b qs' Hb Hq]; simpl.
  - split; [lia|]. inversion 1.
  - split; [constructor|lia].
  - split; [lia|]. inversion 1.
  - case_cmp; [subst; rewrite (IH qs' Hq)|]; split.
    + by constructor.
    + inversion 1; subst; [lia|done].
    + intros. constructor. lia.
    + inversion 1; subst; [lia|done].
Qed.

Lemma is_cstr_head r a bs : is_cstr r a bs → ldb r a = default 0 (head bs).
Proof. destruct bs as [|b bs]; [by rewrite is_cstr_nil|]. by intros (-> & _)%is_cstr_cons. Qed.

Lemma is_cstr_pos r a bs : is_cstr r a bs → Forall (λ c, 0 < c) bs.
Proof.
  intros [H _]. apply Forall_lookup. intros i c Hc. destruct (H i c Hc) as [E ?]. pose proof (ldb_range r (a + Z.of_nat i)). lia.
Qed.

Lemma strcmp_ok r p q ps qs :
  is_cstr r p ps → is_cstr r q qs → Z.of_nat (length ps) < 2 ^ 63 →
  wp (strcmp p q) r (λ n r', n = str_diff ps qs ∧ r' = r).
Proof.
  intros Hp Hq Hl. unfold strcmp.
  apply (wp_loop_ix _ (λ n x r', ∃ ps' qs', n = length ps' ∧ r' = r ∧ is_cstr r x.1 ps' ∧ is_cstr r x.2 qs' ∧ str_diff ps' qs' = str_diff ps qs) _)
    with (n := length ps); [|by exists ps, qs|lia].
  intros n [p' q'] r' (ps' & qs' & -> & -> & Hp' & Hq' & E). simpl in Hp', Hq'. wp_pure.
  pose proof (is_cstr_head _ _ _ Hp') as Ep. pose proof (is_cstr_head _ _ _ Hq') as Eq.
  pose proof (ldb_range r p'). pose proof (ldb_range r q'). unfold nz, u8.
  destruct ps' as [|a ps'].
  - simpl in Ep. rewrite Ep. simpl. wp_pure. split; [|done]. rewrite <-E, !Z.mod_small by lia. rewrite Eq. by destruct qs'.
  - apply is_cstr_cons in Hp' as (_ & Ha & Hp'). simpl in Ep. rewrite Ep in *. destruct (Z.eqb_spec a 0); [done|]. simpl (negb false && _).
    destruct qs' as [|b qs']; simpl in Eq; rewrite Eq in *.
    + destruct (Z.eqb_spec a 0); [done|]. wp_pure. split; [|done]. rewrite <-E. simpl. rewrite Z.mod_small, Z.sub_0_r; [done|lia].
    + apply is_cstr_cons in Hq' as (_ & Hb & Hq'). simpl in E. destruct (Z.eqb_spec a b); wp_pure.
      * exists (length ps'). split; [simpl; lia|]. by exists ps', qs'.
      * split; [|done]. rewrite <-E, !Z.mod_small by lia. done.
Qed.

Lemma strchr_ok r s c bs :
  is_cstr r s bs → Z.of_nat (length bs) < 2 ^ 63 →
  wp (strchr s c) r (λ p r', r' = r ∧
    match list_find (λ b, b = u8 c) bs with Some (i, _) => p = s + Z.of_nat i | None => p = 0 end).
Proof.
  intros Hs Hl. unfold strchr.
  apply (wp_loop_ix _ (λ n x r', ∃ i bs', n = length bs' ∧ r' = r ∧ x = s + Z.of_nat i ∧ is_cstr r x bs' ∧
      list_find (λ b, b = u8 c) bs = prod_map (λ j, (i + j)%nat) id <$> list_find (λ b, b = u8 c) bs') _)
    with (n := length bs); [| |lia].
  2: { exists 0%nat, bs. split_and!; [done|done|lia|done|]. by destruct (list_find _ bs) as [[]|]. }
  intros n x r' (i & bs' & -> & -> & -> & Hs' & E). wp_pure. pose proof (is_cstr_head _ _ _ Hs') as Eh. rewrite Eh.
  destruct bs' as [|b bs']; simpl.
  - wp_pure. split; [done|]. by rewrite E.
  - apply is_cstr_cons in Hs' as (_ & Hb & Hs'). destruct (Z.eqb_spec b 0); [done|]. destruct (Z.eqb_spec b (u8 c)) as [->|Hne]; wp_pure.
    + split; [done|]. rewrite E. simpl. rewrite decide_True by done. simpl. f_equal. lia.
    + exists (length bs'). split; [lia|]. exists (S i), bs'. split_and!; [done|done|lia|by replace (s + Z.of_nat (S i)) with (s + Z.of_nat i + 1) by lia|].
      rewrite E. simpl. rewrite decide_False by done. destruct (list_find _ bs') as [[j b']|]; simpl; [|done]. unfold prod_map. simpl. do 3 f_equal. lia.
Qed.

(** *** Numbers *)

Definition is_digit (c : Z) : Prop := 48 ≤ c ≤ 57.
Definition add_digit (n c : Z) : Z := n * 10 + c - 48.

Lemma add_digits_ge ds n : Forall is_digit ds → 0 ≤ n → n ≤ foldl add_digit n ds.
Proof.
  intros Hd. revert n. induction Hd as [|c ds Hc Hd IH]; intros n Hn; simpl; [done|].
  unfold is_digit in Hc. etrans; [|apply IH]; unfold add_digit; lia.
Qed.

Lemma atoi_ok r s ds :
  is_cstr r s ds → Forall is_digit ds → foldl add_digit 0 ds < 2 ^ 31 → Z.of_nat (length ds) < 2 ^ 63 →
  wp (atoi s) r (λ n r', n = foldl add_digit 0 ds ∧ r' = r).
Proof.
  intros Hs Hd Hv Hl. unfold atoi.
  apply (wp_loop_ix _ (λ k x r', ∃ ds', k = length ds' ∧ r' = r ∧ is_cstr r x.1 ds' ∧ Forall is_digit ds' ∧ 0 ≤ x.2 ∧
      foldl add_digit x.2 ds' = foldl add_digit 0 ds) _) with (n := length ds); [|by exists ds|lia].
  intros k [s' n] r' (ds' & -> & -> & Hs' & Hd' & Hn & E). simpl in *. wp_pure. rewrite (is_cstr_head _ _ _ Hs').
  destruct ds' as [|c ds']; simpl; [wp_pure; done|]. apply Forall_cons in Hd' as [Hc Hd']. apply is_cstr_cons in Hs' as (_ & _ & Hs').
  unfold is_digit in Hc. destruct (Z.leb_spec 48 c), (Z.leb_spec c 57); try lia. simpl (true && true). cbv iota. wp_pure.
  simpl in E. assert (0 ≤ add_digit n c) as Hp by (unfold add_digit; lia). pose proof (add_digits_ge ds' (add_digit n c) Hd' Hp).
  exists (length ds'). split; [lia|]. exists ds'. split_and!; [done..| |]; simpl; fold (add_digit n c) in *; rewrite s32_small by lia; done.
Qed.

Lemma digit_10 d : 0 ≤ d < 10 → digit d = 48 + d.
Proof.
  intros Hd. assert (d ∈ seqZ 0 10) as Hin by (apply elem_of_seqZ; lia). clear Hd. revert d Hin.
  apply Forall_forall. by repeat constructor.
Qed.

Lemma printint_digits_10 n x :
  0 ≤ x < 10 ^ Z.of_nat n →
  foldl add_digit 0 (reverse (printint_digits n x 10)) = x ∧ Forall is_digit (printint_digits n x 10).
Proof.
  revert x. induction n as [|n IH]; intros x Hx; [simpl; split; [lia|constructor]|].
  rewrite Nat2Z.inj_succ, Z.pow_succ_r in Hx by lia. cbn [printint_digits]. rewrite reverse_cons, foldl_app. simpl (foldl _ _ [_]).
  pose proof (Z.mod_pos_bound x 10 ltac:(lia)) as Hm. pose proof (Z.div_mod x 10 ltac:(lia)) as Hdm. rewrite digit_10 by done.
  assert (is_digit (48 + x mod 10)) by (unfold is_digit; lia).
  destruct (Z.eqb_spec (x / 10) 0) as [E0|_].
  - simpl. unfold add_digit. split; [lia|]. constructor; [done|constructor].
  - destruct (IH (x / 10)) as [-> Hd]; [split; [apply Z.div_pos; lia|apply Z.div_lt_upper_bound; lia]|].
    unfold add_digit. split; [lia|by constructor].
Qed.

Lemma printint_digits_length n x : (length (printint_digits n x 10) ≤ n)%nat.
Proof. revert x. induction n as [|n IH]; intros x; simpl; [done|]. case_cmp; simpl; [lia|]. specialize (IH (x / 10)). lia. Qed.

(** *** Memory *)

Lemma memset_ok r dst c n b :
  ldb (memset r dst c n) b = if decide (dst ≤ b < dst + n) then c mod 256 else ldb r b.
Proof. unfold memset. rewrite memset_loop_spec. repeat case_decide; try done; lia. Qed.

Lemma memmove_ok r dst src n b :
  0 ≤ n → ldb (memmove r dst src n) b = if decide (dst ≤ b < dst + n) then ldb r (src + (b - dst)) else ldb r b.
Proof.
  intros Hn. unfold memmove. case_cmp.
  - rewrite copy_up_spec by lia. repeat case_decide; try lia; done.
  - rewrite copy_down_spec by lia. repeat case_decide; try done; try lia. f_equal. lia.
Qed.

(** *** Input *)

(** The line that gets() takes from the input: at most [n] characters, up to the
    end of a line. *)
Fixpoint line_of (n : nat) (l : list Z) : list Z :=
  match n, l with
  | S n', c :: l' => c :: (if (c =? 10) || (c =? 13) then [] else line_of n' l')
  | _, _ => []
  end.

Lemma line_of_prefix n l : (length (line_of n l) ≤ n)%nat ∧ line_of n l `prefix_of` l.
Proof.
  revert l. induction n as [|n IH]; intros [|c l]; simpl; try (split; [lia|apply prefix_nil]).
  destruct (_ || _); simpl; [split; [lia|apply prefix_cons, prefix_nil]|]. destruct (IH l). split; [lia|by apply prefix_cons].
Qed.

Lemma wp_on_proc {A} (m : U A) s (Q : A → ustate → Prop) :
  wp m (us_proc s) (λ a u, Q a (mkUstate (us_mem s) u)) → wp (on_proc m) s Q.
Proof. unfold wp, on_proc. by destruct (m (us_proc s)). Qed.

(** The state in the loop of gets(): [done] was read and stored, [rest] is left. *)
Record getting (buf : Z) (s : ustate) (done rest : list Z) (s' : ustate) : Prop := mkGetting {
  ge_calm : calm (us_proc s');
  ge_fds : u_fds (us_proc s') !! 0 = Some rest;
  ge_out : u_out (us_proc s') = u_out (us_proc s);
  ge_mem : ∀ b, ldb (us_mem s') b =
    match (if buf <=? b then done !! Z.to_nat (b - buf) else None) with Some c => c mod 256 | None => ldb (us_mem s) b end;
}.

Lemma getting_snoc buf s done c rest s' u' :
  getting buf s done (c :: rest) s' → calm u' → u_fds u' !! 0 = Some rest → u_out u' = u_out (us_proc s') →
  getting buf s (done ++ [c]) rest (mkUstate (stb (us_mem s') (buf + Z.of_nat (length done)) c) u').
Proof.
  intros [G1 G2 G3 G4] H1 H2 H3. split; cbn [us_proc us_mem]; [done|done|congruence|]. intros b. rewrite ldb_stb, G4.
  destruct (Z.leb_spec buf b); [|by rewrite decide_False by lia]. case_decide as E.
  - replace (Z.to_nat (b - buf)) with (length done) by lia. by rewrite lookup_app_r, Nat.sub_diag by lia.
  - destruct (decide (Z.to_nat (b - buf) < length done)%nat); [by rewrite lookup_app_l|].
    rewrite lookup_app_r by lia. rewrite (lookup_ge_None_2 done) by lia. rewrite lookup_ge_None_2; [done|]. simpl. lia.
Qed.

Lemma gets_ok buf max l s :
  calm (us_proc s) → u_fds (us_proc s) !! 0 = Some l → 1 ≤ max < 2 ^ 31 →
  wp (gets_line buf max) s (λ p s', p = buf ∧
    let t := line_of (Z.to_nat (max - 1)) l in
    getting buf s (t ++ [0]) (drop (length t) l) s').
Proof.
  intros Hc Hl Hmax. unfold gets_line. apply wp_bind. set (t := line_of (Z.to_nat (max - 1)) l).
  apply (wp_loop_ix _ (λ k i s', ∃ done rest, i = Z.of_nat (length done) ∧ k = (Z.to_nat (max - 1) - length done)%nat ∧
      Z.of_nat (length done) ≤ max - 1 ∧ l = done ++ rest ∧ t = done ++ line_of k rest ∧ getting buf s done rest s') _)
    with (n := Z.to_nat (max - 1)).
  3: lia.
  2: { exists [], l. split_and!; [done|simpl; lia|simpl; lia|done|done|]. split; [done..|]. intros b. by destruct (buf <=? b). }
  intros k i s' (done & rest & -> & Hk & Hle & Hsplit & Et & G).
  assert (∀ done rest s'', l = done ++ rest → t = done → getting buf s done rest s'' →
    wp (on_mem (λ m, stb m (buf + Z.of_nat (length done)) 0);; mret buf) s'' (λ p s', p = buf ∧ getting buf s (t ++ [0]) (drop (length t) l) s')) as Hend.
  { intros d2 r2 s'' -> -> [G1 G2 G3 G4]. unfold on_mem. wp_pure. split; [done|]. rewrite drop_app_length.
    eapply (getting_snoc buf s d2 0 r2 (mkUstate (us_mem s'') (upd_u_fds (<[0 := 0 :: r2]>) (us_proc s'')))); [|done..].
    split; [by apply calm_fds|apply lookup_insert_eq|done|done]. }
  destruct (Z.ltb_spec (Z.of_nat (length done) + 1) max) as [Hlt|Hge]; [|wp_pure; apply (Hend done rest); [done|rewrite Et|done]].
  2: { replace k with 0%nat by lia. simpl. by rewrite app_nil_r. }
  destruct k as [|k]; [lia|]. apply wp_bind, wp_on_proc. destruct G as [G1 G2 G3 G4]. eapply wp_read; [done..|].
  intros m u' -> Hc' Hm1 Hm2 Hm0. destruct m as [|[|m]]; [|destruct rest as [|c rest]; simpl in Hm2; [lia|]|lia].
  - destruct Hm0 as [|Hr]; [done|lia|subst rest]. rewrite take_0. wp_pure. apply (Hend done []); [done|by rewrite Et; simpl; rewrite app_nil_r|].
    split; [done|apply lookup_insert_eq|done|done].
  - simpl (take 1 _). cbv iota. unfold on_mem. wp_pure. cbn [us_mem us_proc].
    assert (getting buf s (done ++ [c]) rest (mkUstate (stb (us_mem s') (buf + Z.of_nat (length done)) c) (after_read 0 (c :: rest) 1 (us_proc s')))) as G'.
    { eapply getting_snoc; [by split|done|apply lookup_insert_eq|done]. }
    assert (l = (done ++ [c]) ++ rest) as El by by rewrite <-app_assoc.
    assert (Z.of_nat (length done) + 1 = Z.of_nat (length (done ++ [c]))) as Elen by (rewrite length_app; simpl; lia). simpl in Et.
    destruct ((c =? 10) || (c =? 13)) eqn:Enl; wp_pure.
    + rewrite Elen. apply (Hend _ rest); [done|by rewrite Et|done].
    + exists k. split; [lia|]. exists (done ++ [c]), rest. split_and!; [done|rewrite length_app; simpl; lia|rewrite length_app; simpl; lia|done| |done].
      by rewrite <-app_assoc.
Qed.

(** stat() leaves the descriptors as they were, whatever fstat() says. *)
Lemma stat_ok fstat n st s (R : Z → mem → mem → Prop) :
  (∀ fd l s', u_fds (us_proc s') = <[fd := l]> (u_fds (us_proc s)) →
     wp (fstat fd st) s' (λ r s'', us_proc s'' = us_proc s' ∧ R r (us_mem s') (us_mem s''))) →
  wp (stat fstat n st) s (λ r s', u_fds (us_proc s') = u_fds (us_proc s) ∧
    (r = -1 ∧ us_mem s' = us_mem s ∨ R r (us_mem s) (us_mem s'))).
Proof.
  intros Hf. unfold stat. apply wp_bind, wp_on_proc. unfold open. apply wp_bind, wp_gets. unfold id.
  destruct (u_files (us_proc s) n) as [l|]; [|wp_pure; split; [done|by left]].
  destruct (list_find (λ fd, u_fds (us_proc s) !! fd = None) (seqZ 0 NOFILE)) as [[i fd]|] eqn:Efd; [|wp_pure; split; [done|by left]].
  apply list_find_Some in Efd as (_ & Hfree & _). apply wp_bind, wp_modify, wp_ret. apply wp_bind.
  eapply wp_mono; [apply (Hf fd l); done|]. simpl. intros r s'' [Ep HR]. apply wp_bind, wp_on_proc, wp_modify, wp_ret. rewrite Ep. simpl.
  split; [|by right]. by rewrite delete_insert_id.
Qed.

(** What the parser of the shell uses for strchr(). *)
Lemma strchr_refines r s c bs :
  is_cstr r s bs → 0 < s → 0 < c < 256 → Z.of_nat (length bs) < 2 ^ 63 →
  wp (strchr s c) r (λ p r', r' = r ∧ negb (p =? 0) = Sh.strchr bs c).
Proof.
  intros Hs H0 Hc Hl. eapply wp_mono; [by apply strchr_ok|]. intros p r' [-> Hp]. split; [done|]. unfold Sh.strchr. unfold u8 in Hp. rewrite Z.mod_small in Hp by lia.
  destruct (list_find (λ b, b = c) bs) as [[i b]|] eqn:E.
  - apply list_find_Some in E as (Hi & -> & _). rewrite bool_decide_eq_true_2 by by eapply list_elem_of_lookup_2. subst p. destruct (Z.eqb_spec (s + Z.of_nat i) 0); [lia|done].
  - apply list_find_None in E. rewrite bool_decide_eq_false_2; [by subst p|]. rewrite Forall_forall in E. intros Hin. by apply (E c).
Qed.

(** ** Theorems *)

(** strcpy() returns its first argument and leaves a copy of the string
    there: strcmp() of the two is zero, strlen() of the copy is the length of the
    string, and no other byte changes. *)
Theorem strcpy_roundtrip r s t ts :
  is_cstr r t ts → s + Z.of_nat (length ts) < t ∨ t + Z.of_nat (length ts) < s → Z.of_nat (length ts) < 2 ^ 31 →
  wp (strcpy s t) r (λ p r', p = s ∧ strcmp s t r' = Ok 0 r' ∧ strlen s r' = Ok (Z.of_nat (length ts)) r' ∧
    ∀ b, b < s ∨ s + Z.of_nat (length ts) < b → ldb r' b = ldb r b).
Proof.
  intros Ht Hd Hl. eapply wp_mono; [apply (strcpy_ok r s t ts); [done|done|lia]|]. intros p r' (-> & Hs & Hout). split_and!; [done| |by apply strlen_ok|done].
  assert (is_cstr r' t ts) as Ht' by (eapply is_cstr_ext; [|exact Ht]; intros b Hb; apply Hout; lia).
  pose proof (strcmp_ok r' s t ts ts Hs Ht' ltac:(lia)) as Hwp. apply wp_iff in Hwp as (? & ? & -> & -> & ->). f_equal.
  apply str_diff_zero; by try eapply is_cstr_pos.
Qed.

(** strcmp() returns zero exactly for equal strings, and a negative number
    exactly when the first string comes first in the order of a dictionary. *)
Theorem strcmp_correct r p q ps qs :
  is_cstr r p ps → is_cstr r q qs → Z.of_nat (length ps) < 2 ^ 63 →
  wp (strcmp p q) r (λ n r', r' = r ∧ (n = 0 ↔ ps = qs) ∧ (n < 0 ↔ str_lt ps qs)).
Proof.
  intros Hp Hq Hl. eapply wp_mono; [by apply (strcmp_ok r p q ps qs)|]. intros n r' [-> ->].
  pose proof (is_cstr_pos _ _ _ Hp). pose proof (is_cstr_pos _ _ _ Hq). split_and!; [done|by apply str_diff_zero|by apply str_diff_neg].
Qed.

(** C36. atoi() reads back what printf() printed for a number that is not negative. *)
Theorem atoi_printf x u :
  0 ≤ x < 2 ^ 31 → calm u →
  wp (printf (chars "%d") [A_int x]) u (λ _ u', ∃ t, u' = wrote_out 1 t u ∧
    ∀ r s, is_cstr r s t → atoi s r = Ok x r).
Proof.
  intros Hx Hc. set (ds := reverse (printint_digits 16 x 10)). destruct (printint_digits_10 16 x) as [Hv Hd]; [change (10 ^ Z.of_nat 16) with 10000000000000000; lia|].
  fold ds in Hv. eapply (printf_spec _ _ ds); [|done|].
  - assert (vtext false (chars "%d") [A_int x] = ds) as ->.
    { change (vtext false (chars "%d") [A_int x]) with (printint_text x 10 true ++ []). rewrite app_nil_r. unfold printint_text. rewrite s32_small by lia.
      destruct (Z.ltb_spec x 0); [lia|]. simpl (true && false). cbv iota. by rewrite u32_small by lia. }
    unfold bytes_of. rewrite <-(list_fmap_id ds) at 1. apply list_fmap_ext. intros i c Hi. unfold id.
    assert (Forall is_digit ds) as Hds by by apply Forall_reverse. pose proof (Forall_lookup_1 _ _ _ _ Hds Hi) as Hr. unfold is_digit in Hr. unfold u8. by rewrite Z.mod_small by lia.
  - exists ds. split; [done|]. intros r s Hs.
    assert (wp (atoi s) r (λ n r', n = foldl add_digit 0 ds ∧ r' = r)) as Hwp.
    { apply atoi_ok; [done|by apply Forall_reverse|rewrite Hv; lia|].
      pose proof (printint_digits_length 16 x). unfold ds. rewrite length_reverse. lia. }
    apply wp_iff in Hwp as (? & ? & -> & -> & ->). by rewrite Hv.
Qed.

(** gets() stores the next line of the input, up to [max - 1] characters and
    with its end, and a NUL after it; it takes exactly those characters from the
    input and changes no other byte. *)
Theorem gets_correct buf max l s :
  calm (us_proc s) → u_fds (us_proc s) !! 0 = Some l → 1 ≤ max < 2 ^ 31 →
  wp (gets_line buf max) s (λ p s', p = buf ∧
    let t := line_of (Z.to_nat (max - 1)) l in
    u_fds (us_proc s') !! 0 = Some (drop (length t) l) ∧ (length t < Z.to_nat max)%nat ∧ t `prefix_of` l ∧
    (∀ i c, (t ++ [0]) !! i = Some c → ldb (us_mem s') (buf + Z.of_nat i) = c mod 256) ∧
    ∀ b, b < buf ∨ buf + max ≤ b → ldb (us_mem s') b = ldb (us_mem s) b).
Proof.
  intros Hc Hl Hmax. eapply wp_mono; [by apply gets_ok|]. intros p s' [-> [_ Hfds _ Hmem]]. split; [done|]. cbv zeta. set (t := line_of _ l) in *.
  assert ((length t ≤ Z.to_nat (max - 1))%nat ∧ t `prefix_of` l) as [Ht Hpre] by apply line_of_prefix.
  split_and!; [done|lia|done| |].
  - intros i c Hi. rewrite Hmem. destruct (Z.leb_spec buf (buf + Z.of_nat i)); [|lia]. replace (Z.to_nat _) with i by lia. by rewrite Hi.
  - intros b Hb. rewrite Hmem. destruct (Z.leb_spec buf b); [|done]. rewrite lookup_ge_None_2; [done|]. rewrite length_app. simpl. lia.
Qed.

(** *** Concrete inputs *)

(** The input of the shell. *)
Definition demo_input : list Z := chars "ls" ++ [10] ++ chars "wc" ++ [10].
Definition demo_state : ustate := mkUstate two_strings (upd_u_fds (<[0 := demo_input]>) demo_proc).

Lemma strcpy_roundtrip_witness :
  wp (strcpy 300 200) two_strings (λ p r', p = 300 ∧ strcmp 300 200 r' = Ok 0 r' ∧ strlen 300 r' = Ok 3 r' ∧
    ∀ b, b < 300 ∨ 300 + 3 < b → ldb r' b = ldb two_strings b).
Proof. apply (strcpy_roundtrip two_strings 300 200 [108; 115; 120] two_strings_2); simpl; lia. Defined.

Lemma strcmp_correct_witness :
  wp (strcmp 100 200) two_strings (λ n r', r' = two_strings ∧ (n = 0 ↔ [108; 115] = [108; 115; 120]) ∧ (n < 0 ↔ str_lt [108; 115] [108; 115; 120])).
Proof. apply (strcmp_correct two_strings 100 200 _ _ two_strings_1 two_strings_2). simpl. lia. Defined.

Lemma atoi_printf_witness :
  wp (printf (chars "%d") [A_int 1120]) demo_proc (λ _ u', ∃ t, u' = wrote_out 1 t demo_proc ∧ ∀ r s, is_cstr r s t → atoi s r = Ok 1120 r).
Proof. apply (atoi_printf 1120 demo_proc); [lia|]. by split; [repeat constructor|]. Defined.

Lemma gets_correct_witness :
  wp (gets_line 1000 100) demo_state (λ p s', p = 1000 ∧ u_fds (us_proc s') !! 0 = Some (chars "wc" ++ [10])).
Proof.
  eapply wp_mono; [apply (gets_correct 1000 100 demo_input demo_state)|].
  - split; [by repeat constructor|done].
  - done.
  - lia.
  - intros p s' (-> & H & _). split; [done|]. exact H.
Defined.
