(* ===== verification/ShRun.v ===== *)
(** * Programs that make system calls: the shell (user/sh.c), init, kill, ln, mkdir, rm, zombie

    runcmd(), getcmd(), fork1(), panic() and main() of the shell, and the main()
    of the small programs.  Each constructor of [prog] is a system call with what
    follows for each of its results, and after fork() both processes go on, the
    child with 0.  runcmd() never returns, so that nothing follows a call of it.

    [run] is what happens when such a program runs: descriptor tables with the
    lowest free descriptor handed out, pipes with a number each.  The environment
    says which files can be opened and executed, which directories entered, and
    what the other calls return.
    The result is a [job]: the processes that are started, who waits for whom, and
    the descriptors that are open where a process executes a program, waits or
    exits.

    The parent of a child sees its number as 1.

    Shown: for every command the job is the one its syntax stands for
    ([denote]): redirections and pipe ends are at descriptors 0 and 1 of
    the right commands and nowhere else, not even in the processes that wait, and a list waits for its left part; and
    main() runs the lines of its input one after the other. *)

From stdpp Require Import gmap list strings.
From Stdlib Require Import ZArith Lia.
From S2P Require Import Prelude Mem Params FsData Sh ShSpec ShSound Grep User UserSpec Ulib.
#[local] Open Scope Z_scope.

(** ** Programs *)

(** Calls that only have a result. *)
Inductive call : Type :=
| C_kill (pid : Z)
| C_link (old new : list Z)
| C_mkdir (path : list Z)
| C_unlink (path : list Z)
| C_mknod (path : list Z) (major minor : Z)
| C_sleep (n : Z).

Inductive prog : Type :=
| Exit (status : Z)
| Exec (path : list Z) (argv : list (list Z)) (failed : prog)
| Open (path : list Z) (mode : Z) (k : Z → prog)
| Close (fd : Z) (k : prog)
| Dup (fd : Z) (k : prog)
| Pipe (k : option (Z * Z) → prog)
| Fork (k : Z → prog)
| Wait (k : Z → prog)
| Chdir (path : list Z) (k : Z → prog)
| Read (fd : Z) (k : option Z → prog)     (* one byte *)
| Print (fd : Z) (text : list Z) (k : prog)
| Call (c : call) (k : Z → prog)
| Stuck.                                  (* recursion without end *)

(** fprintf() *)
Definition message (fd : Z) (fmt : list Z) (ap : list arg) (k : prog) : prog := Print fd (bytes_of (vtext false fmt ap)) k.

(** panic() *)
Definition sh_panic (s : list Z) : prog := message 2 (chars "%s" ++ [10]) [A_str (Some s)] (Exit 1).

Definition fork1 (k : Z → prog) : prog :=
  Fork (λ pid, if pid =? -1 then sh_panic (chars "fork") else k pid).

(** The string at [q] of the buffer. *)
Definition str_at (b : list Z) (q : nat) : list Z := cstring (drop q b).

(** argv[] up to the null pointer. *)
Fixpoint argv_of (b : list Z) (argv : list (option nat)) : list (list Z) :=
  match argv with
  | Some q :: argv' => str_at b q :: argv_of b argv'
  | _ => []
  end.

(** A pointer to no node is the null pointer.  The commands below a node have
    smaller indices, so that [cmd + 1] is enough fuel. *)
Fixpoint runcmd (fuel : nat) (b : list Z) (h : list node) (cmd : nat) : prog :=
  match fuel with
  | O => Stuck
  | S fuel' =>
      match h !! cmd with
      | None => Exit 1
      | Some (N_exec argv _) =>
          match argv_of b argv with
          | [] => Exit 1
          | path :: _ =>
              Exec path (argv_of b argv) (message 2 (chars "exec %s failed" ++ [10]) [A_str (Some path)] (Exit 0))
          end
      | Some (N_redir c file _ mode fd) =>
          Close fd (Open (str_at b file) mode (λ r,
            if r <? 0 then message 2 (chars "open %s failed" ++ [10]) [A_str (Some (str_at b file))] (Exit 1)
            else runcmd fuel' b h c))
      | Some (N_list l r) =>
          fork1 (λ pid, if pid =? 0 then runcmd fuel' b h l else Wait (λ _, runcmd fuel' b h r))
      | Some (N_pipe l r) =>
          Pipe (λ p,
            match p with
            | None => sh_panic (chars "pipe")
            | Some (p0, p1) =>
                fork1 (λ pid,
                  if pid =? 0 then Close 1 (Dup p1 (Close p0 (Close p1 (runcmd fuel' b h l)))) else
                  fork1 (λ pid,
                    if pid =? 0 then Close 0 (Dup p0 (Close p0 (Close p1 (runcmd fuel' b h r)))) else
                    Close p0 (Close p1 (Wait (λ _, Wait (λ _, Exit 0))))))
            end)
      | Some (N_back c) =>
          fork1 (λ pid, if pid =? 0 then runcmd fuel' b h c else Exit 0)
      end
  end.

(** ** Reading commands *)

(** gets(buf, nbuf) with [n] characters before the last byte of the buffer left;
    [i] were read. *)
Fixpoint gets_buf (n i : nat) (buf : list Z) (k : list Z → prog) : prog :=
  match n with
  | O => k (<[i := 0]> buf)
  | S n' =>
      Read 0 (λ c,
        match c with
        | None => k (<[i := 0]> buf)
        | Some c =>
            let buf := <[i := c]> buf in
            if (c =? 10) || (c =? 13) then k (<[S i := 0]> buf) else gets_buf n' (S i) buf k
        end)
  end.

(** sizeof(buf) of main(). *)
Definition nbuf : nat := 100.

Definition getcmd (k : Z → list Z → prog) : prog :=
  message 2 (chars "$ ") [] (
  let buf := replicate nbuf 0 in
  gets_buf (nbuf - 1) 0 buf (λ buf,
  if ch buf 0 =? 0 then k (-1) buf else k 0 buf)).

(** runcmd(parsecmd(buf)) in the child; panic() of the parser ends it. *)
Definition reports (msgs : list (list Z * list Z)) (k : prog) : prog :=
  foldr (λ m k, message 2 m.1 [A_str (Some m.2)] k) k msgs.
Definition run_line (buf : list Z) : prog :=
  match parsecmd (mkShell buf [] []) with
  | Ok cmd st => reports (sh_msgs st) (runcmd (S cmd) (sh_buf st) (sh_heap st) cmd)
  | Panic msg st => reports (sh_msgs st) (sh_panic (chars msg))
  | Diverge => Stuck
  end.

(** The loop of main(); [fuel] is more than the number of commands. *)
Fixpoint main_loop (fuel : nat) : prog :=
  match fuel with
  | O => Stuck
  | S fuel' =>
      getcmd (λ r buf,
        if r <? 0 then Exit 0 else
        if (ch buf 0 =? 99) && (ch buf 1 =? 100) && (ch buf 2 =? 32) then
          let buf := <[(length (cstring buf) - 1)%nat := 0]> buf in
          Chdir (str_at buf 3) (λ r,
            if r <? 0 then message 2 (chars "cannot cd %s" ++ [10]) [A_str (Some (str_at buf 3))] (main_loop fuel')
            else main_loop fuel')
        else
          fork1 (λ pid, if pid =? 0 then run_line buf else Wait (λ _, main_loop fuel')))
  end.

(** while((fd = open("console", O_RDWR)) >= 0), with at most [fuel] rounds. *)
Fixpoint open_console (fuel : nat) (k : prog) : prog :=
  match fuel with
  | O => Stuck
  | S fuel' =>
      Open (chars "console") O_RDWR (λ fd,
        if 0 <=? fd then if 3 <=? fd then Close fd k else open_console fuel' k else k)
  end.

Definition main (fuel : nat) : prog := open_console fuel (main_loop fuel).

(** ** Small programs *)

(** The number that atoi() finds in a string. *)
Definition num (w : list Z) : Z :=
  match atoi 0 (st_bytes ∅ 0 (w ++ [0])) with Ok n _ => n | _ => 0 end.

Module Kill.
Definition main (argv : list (list Z)) : prog :=
  match argv with
  | _ :: a :: args => foldr (λ w k, Call (C_kill (num w)) (λ _, k)) (Exit 0) (a :: args)
  | _ => message 2 (chars "usage: kill pid..." ++ [10]) [] (Exit 1)
  end.
End Kill.

Module Ln.
Definition main (argv : list (list Z)) : prog :=
  match argv with
  | [_; old; new] =>
      Call (C_link old new) (λ r,
        if r <? 0 then message 2 (chars "link %s %s: failed" ++ [10]) [A_str (Some old); A_str (Some new)] (Exit 0)
        else Exit 0)
  | _ => message 2 (chars "Usage: ln old new" ++ [10]) [] (Exit 1)
  end.
End Ln.

Module Mkdir.
Definition main (argv : list (list Z)) : prog :=
  match argv with
  | _ :: a :: args =>
      foldr (λ w k,
        Call (C_mkdir w) (λ r,
          if r <? 0 then message 2 (chars "mkdir: %s failed to create" ++ [10]) [A_str (Some w)] (Exit 0) else k))
        (Exit 0) (a :: args)
  | _ => message 2 (chars "Usage: mkdir files..." ++ [10]) [] (Exit 1)
  end.
End Mkdir.

Module Rm.
Definition main (argv : list (list Z)) : prog :=
  match argv with
  | _ :: a :: args =>
      foldr (λ w k,
        Call (C_unlink w) (λ r,
          if r <? 0 then message 2 (chars "rm: %s failed to delete" ++ [10]) [A_str (Some w)] (Exit 0) else k))
        (Exit 0) (a :: args)
  | _ => message 2 (chars "Usage: rm files..." ++ [10]) [] (Exit 1)
  end.
End Rm.

Module Zombie.
Definition main : prog :=
  Fork (λ pid, if 0 <? pid then Call (C_sleep 5) (λ _, Exit 0) else Exit 0).
End Zombie.

Module Init.
(** The loops of main(): with [Some pid] it waits for that child.  [fuel] bounds
    the number of rounds, of which there is no end. *)
Fixpoint loop (fuel : nat) (waiting : option Z) : prog :=
  match fuel with
  | O => Stuck
  | S fuel' =>
      match waiting with
      | None =>
          message 1 (chars "init: starting sh" ++ [10]) [] (Fork (λ pid,
            if pid <? 0 then message 1 (chars "init: fork failed" ++ [10]) [] (Exit 1) else
            if pid =? 0 then Exec (chars "sh") [chars "sh"] (message 1 (chars "init: exec sh failed" ++ [10]) [] (Exit 1))
            else loop fuel' (Some pid)))
      | Some pid =>
          Wait (λ wpid,
            if wpid =? pid then loop fuel' None
            else if wpid <? 0 then message 1 (chars "init: wait returned an error" ++ [10]) [] (Exit 1)
            else loop fuel' (Some pid))
      end
  end.

Definition main (fuel : nat) : prog :=
  let go := Dup 0 (Dup 0 (loop fuel None)) in
  Open (chars "console") O_RDWR (λ fd,
    if fd <? 0 then Call (C_mknod (chars "console") CONSOLE 0) (λ _, Open (chars "console") O_RDWR (λ _, go))
    else go).
End Init.

(** ** Running a program *)

(** What a descriptor stands for: a file that was opened with a mode, or an end of
    a pipe. *)
Inductive handle : Type :=
| H_file (path : list Z) (mode : Z)
| H_pipe_r (i : nat)
| H_pipe_w (i : nat).

Abbreviation fdtab := (gmap Z handle).

(** The processes of a command.  [J_fork] is a child and what its parent does
    then; [J_exec] is a process that became another program.  Where a process
    waits, exits or becomes another program its open descriptors are recorded. *)
Inductive job : Type :=
| J_exit (status : Z) (fds : fdtab)
| J_exec (argv : list (list Z)) (fds : fdtab)
| J_print (f : option handle) (text : list Z) (rest : job)
| J_fork (child parent : job)
| J_wait (fds : fdtab) (rest : job)
| J_chdir (path : list Z) (rest : job)
| J_call (c : call) (result : Z) (rest : job)
| J_stuck.

Definition lowest (fds : fdtab) : option Z := snd <$> list_find (λ fd, fds !! fd = None) (seqZ 0 NOFILE).

Section run.
Context (can_open : list Z → Z → bool) (can_exec can_chdir : list Z → bool) (sys : call → Z).

(** [inp] is what is left of the input of the shell, and [n] the number of pipes
    that there were. *)
Fixpoint run (p : prog) (fds : fdtab) (inp : list Z) (n : nat) : job * nat :=
  match p with
  | Exit status => (J_exit status fds, n)
  | Exec path argv k => if can_exec path then (J_exec argv fds, n) else run k fds inp n
  | Open path mode k =>
      match lowest fds with
      | Some fd => if can_open path mode then run (k fd) (<[fd := H_file path mode]> fds) inp n else run (k (-1)) fds inp n
      | None => run (k (-1)) fds inp n
      end
  | Close fd k => run k (delete fd fds) inp n
  | Dup fd k =>
      match fds !! fd, lowest fds with
      | Some x, Some fd' => run k (<[fd' := x]> fds) inp n
      | _, _ => run k fds inp n
      end
  | Pipe k =>
      match lowest fds with
      | Some p0 =>
          match lowest (<[p0 := H_pipe_r n]> fds) with
          | Some p1 => run (k (Some (p0, p1))) (<[p1 := H_pipe_w n]> (<[p0 := H_pipe_r n]> fds)) inp (S n)
          | None => run (k None) fds inp n
          end
      | None => run (k None) fds inp n
      end
  | Fork k =>
      let '(child, n) := run (k 0) fds inp n in
      let '(parent, n) := run (k 1) fds inp n in
      (J_fork child parent, n)
  | Wait k => let '(j, n) := run (k 1) fds inp n in (J_wait fds j, n)
  | Chdir path k =>
      if can_chdir path then let '(j, n) := run (k 0) fds inp n in (J_chdir path j, n) else run (k (-1)) fds inp n
  | Read fd k =>
      match inp with
      | [] => run (k None) fds [] n
      | c :: inp' => run (k (Some c)) fds inp' n
      end
  | Print fd text k => let '(j, n) := run k fds inp n in (J_print (fds !! fd) text j, n)
  | Call c k => let '(j, n) := run (k (sys c)) fds inp n in (J_call c (sys c) j, n)
  | Stuck => (J_stuck, n)
  end.

(** ** What a command stands for *)

(** A message on descriptor 2. *)
Definition says (fds : fdtab) (fmt w : list Z) (j : job) : job := J_print (fds !! 2) (bytes_of (vtext false fmt [A_str (Some w)])) j.

Fixpoint denote (c : cmd) (fds : fdtab) (n : nat) : job * nat :=
  match c with
  | EXEC [] => (J_exit 1 fds, n)
  | EXEC (w :: ws) =>
      (if can_exec w then J_exec (w :: ws) fds else says fds (chars "exec %s failed" ++ [10]) w (J_exit 0 fds), n)
  | REDIR c k f =>
      if can_open f (redir_mode k) then denote c (<[redir_fd k := H_file f (redir_mode k)]> fds) n
      else (says fds (chars "open %s failed" ++ [10]) f (J_exit 1 (delete (redir_fd k) fds)), n)
  | PIPE l r =>
      let '(jl, n1) := denote l (<[1 := H_pipe_w n]> fds) (S n) in
      let '(jr, n2) := denote r (<[0 := H_pipe_r n]> fds) n1 in
      (J_fork jl (J_fork jr (J_wait fds (J_wait fds (J_exit 0 fds)))), n2)
  | LIST l r =>
      let '(jl, n1) := denote l fds n in
      let '(jr, n2) := denote r fds n1 in
      (J_fork jl (J_wait fds jr), n2)
  | BACK c =>
      let '(j, n1) := denote c fds n in
      (J_fork j (J_exit 0 fds), n1)
  end.

(** ** Descriptors *)

(** Descriptors 0 and 1 are open, and two are free. *)
Definition fds_ok (fds : fdtab) : Prop :=
  is_Some (fds !! 0) ∧ is_Some (fds !! 1) ∧
  ∃ a b, 0 ≤ a < NOFILE ∧ 0 ≤ b < NOFILE ∧ a ≠ b ∧ fds !! a = None ∧ fds !! b = None.

Lemma lowest_is fds fd : 0 ≤ fd < NOFILE → fds !! fd = None → (∀ d, 0 ≤ d < fd → is_Some (fds !! d)) → lowest fds = Some fd.
Proof.
  intros Hr Hfd Hlow. unfold lowest. rewrite (proj2 (list_find_Some (λ fd, fds !! fd = None) (seqZ 0 NOFILE) (Z.to_nat fd) fd)); [done|].
  split_and!; [rewrite lookup_seqZ; lia|done|]. intros j y Hj Hlt. apply lookup_seqZ in Hj as [-> ?]. intros Hn.
  destruct (Hlow (0 + Z.of_nat j)) as [x Hx]; [lia|]. congruence.
Qed.

Lemma lowest_some fds a : 0 ≤ a < NOFILE → fds !! a = None → ∃ fd, lowest fds = Some fd ∧ 0 ≤ fd < NOFILE ∧ fds !! fd = None.
Proof.
  intros Ha Hn. destruct (list_find_elem_of (λ fd, fds !! fd = None) (seqZ 0 NOFILE) a) as [[i fd] E]; [by apply elem_of_seqZ|done|].
  exists fd. unfold lowest. rewrite E. split; [done|]. apply list_find_Some in E as (Hi & Hfd & _). apply lookup_seqZ in Hi. split; [lia|done].
Qed.

(** pipe() gives two descriptors that were free. *)
Lemma pipe_fds fds n :
  fds_ok fds → ∃ p0 p1, lowest fds = Some p0 ∧ lowest (<[p0 := H_pipe_r n]> fds) = Some p1 ∧
    fds !! p0 = None ∧ fds !! p1 = None ∧ p0 ≠ p1 ∧ p0 ≠ 0 ∧ p0 ≠ 1 ∧ p1 ≠ 0 ∧ p1 ≠ 1.
Proof.
  intros ([x0 H0] & [x1 H1] & a & b & Ha & Hb & Hab & Na & Nb).
  destruct (lowest_some fds a Ha Na) as (p0 & E0 & Hp0 & N0).
  assert (∃ c, 0 ≤ c < NOFILE ∧ <[p0 := H_pipe_r n]> fds !! c = None) as (c & Hc & Nc).
  { destruct (decide (a = p0)) as [->|]; [exists b|exists a]; by rewrite lookup_insert_ne. }
  destruct (lowest_some _ c Hc Nc) as (p1 & E1 & Hp1 & N1). apply lookup_insert_None in N1 as [N1 Hne].
  exists p0, p1. split_and!; try done; congruence.
Qed.

Lemma fds_ok_insert fds fd x : fds_ok fds → fd = 0 ∨ fd = 1 → fds_ok (<[fd := x]> fds).
Proof.
  intros (H0 & H1 & a & b & Ha & Hb & Hab & Na & Nb) Hfd.
  assert (∀ d, is_Some (fds !! d) → is_Some (<[fd := x]> fds !! d)) as Hsome.
  { intros d Hd. destruct (decide (fd = d)) as [->|]; [rewrite lookup_insert_eq|rewrite lookup_insert_ne by done]; by eauto. }
  split_and!; [by apply Hsome..|]. destruct H0 as [x0 H0], H1 as [x1 H1]. exists a, b.
  rewrite !lookup_insert_ne by (intros ->; destruct Hfd; subst; congruence). done.
Qed.

(** The child that is to use an end of the pipe: descriptor [fd] becomes that end,
    and the two descriptors of the pipe are closed. *)
Lemma pipe_child fds n fd p0 p1 x :
  fds_ok fds → fds !! p0 = None → fds !! p1 = None → p0 ≠ p1 → p0 ≠ 0 → p0 ≠ 1 → p1 ≠ 0 → p1 ≠ 1 → fd = 0 ∨ fd = 1 →
  lowest (delete fd (<[p1 := H_pipe_w n]> (<[p0 := H_pipe_r n]> fds))) = Some fd ∧
  delete p1 (delete p0 (<[fd := x]> (delete fd (<[p1 := H_pipe_w n]> (<[p0 := H_pipe_r n]> fds))))) = <[fd := x]> fds.
Proof.
  intros (H0 & H1 & _) N0 N1 Hne Ha Hb Hc Hd Hfd. split.
  - apply lowest_is; [unfold NOFILE; lia|apply lookup_delete_eq|]. intros d Hdd. assert (d = 0 ∧ fd = 1) as [-> ->] by lia.
    rewrite lookup_delete_ne, !lookup_insert_ne by done. done.
  - apply map_eq. intros d. destruct (decide (d = p1)) as [->|]; [rewrite lookup_delete_eq, lookup_insert_ne by naive_solver; done|].
    rewrite lookup_delete_ne by done. destruct (decide (d = p0)) as [->|]; [rewrite lookup_delete_eq, lookup_insert_ne by naive_solver; done|].
    rewrite lookup_delete_ne by done. destruct (decide (d = fd)) as [->|]; [by rewrite !lookup_insert_eq|].
    rewrite lookup_insert_ne, lookup_delete_ne, !lookup_insert_ne by done. done.
Qed.

(** The parent, which closes both ends. *)
Lemma pipe_parent (fds : fdtab) n p0 p1 :
  fds !! p0 = None → fds !! p1 = None →
  delete p1 (delete p0 (<[p1 := H_pipe_w n]> (<[p0 := H_pipe_r n]> fds))) = fds.
Proof.
  intros N0 N1. apply map_eq. intros d. destruct (decide (d = p1)) as [->|]; [by rewrite lookup_delete_eq|]. rewrite lookup_delete_ne by done.
  destruct (decide (d = p0)) as [->|]; [by rewrite lookup_delete_eq|]. by rewrite lookup_delete_ne, !lookup_insert_ne by done.
Qed.

(** ** runcmd() *)

(** The two processes after fork1(). *)
Ltac run_fork :=
  unfold fork1; cbn [run]; repeat (simpl (0 =? -1); simpl (1 =? -1); simpl (0 =? 0); simpl (1 =? 0); cbv iota; cbn [run]).

Lemma argv_of_args b av ev ws : args_are (string_at b) av ev ws → argv_of b av = ws.
Proof.
  intros (Hlt & Hla & _ & Hin & Hout).
  assert (∀ av ws, (length ws < length av)%nat → (∀ i w, ws !! i = Some w → ∃ q, av !! i = Some (Some q) ∧ str_at b q = w) →
    (∀ i, (length ws ≤ i < length av)%nat → av !! i = Some None) → argv_of b av = ws) as H.
  { clear. induction av as [|a av IH]; intros ws Hlt Hin Hout; simpl in *; [lia|]. destruct ws as [|w ws]; simpl in *.
    - pose proof (Hout 0%nat ltac:(lia)) as E. simpl in E. by injection E as ->.
    - destruct (Hin 0%nat w eq_refl) as (q & [= ->] & <-). f_equal. apply IH; [lia|intros i; apply (Hin (S i))|].
      intros i Hi. apply (Hout (S i)). lia. }
  apply H; [lia| |by rewrite Hla]. intros i w Hi. destruct (Hin i w Hi) as (q & e & Hq & _ & Hs). by exists q.
Qed.

Lemma redir_fds fds k (x : handle) :
  fds_ok fds → lowest (delete (redir_fd k) fds) = Some (redir_fd k) ∧ <[redir_fd k := x]> (delete (redir_fd k) fds) = <[redir_fd k := x]> fds.
Proof.
  intros (H0 & H1 & _). split; [|apply insert_delete_eq]. apply lowest_is; [destruct k; simpl; unfold NOFILE; lia|apply lookup_delete_eq|].
  intros d Hd. destruct k; simpl in *; try lia; assert (d = 0) as -> by lia; by rewrite lookup_delete_ne.
Qed.

Lemma runcmd_denote c fuel b h p fds inp n :
  tree (string_at b) h p c → (p < fuel)%nat → fds_ok fds → run (runcmd fuel b h p) fds inp n = denote c fds n.
Proof.
  revert fuel p fds n. induction c as [ws|c IH k f|l IHl r IHr|l IHl r IHr|c IH]; intros [|fuel] p fds n Ht Hlt Hok; [lia|..]; simpl in Ht |- *.
  - destruct Ht as (av & ev & -> & Hargs). rewrite (argv_of_args _ _ _ _ Hargs). destruct ws as [|w ws]; [done|]. cbn [run]. by destruct (can_exec w).
  - lia.
  - destruct Ht as (p' & q & e & -> & Hf & Hp & Hc). unfold string_at in Hf. unfold str_at. rewrite Hf. cbn [run].
    destruct (redir_fds fds k (H_file f (redir_mode k)) Hok) as [-> Eins]. destruct (can_open f (redir_mode k)).
    + rewrite Eins. assert ((redir_fd k <? 0) = false) as -> by by destruct k. apply IH; [done|lia|]. apply fds_ok_insert; [done|]. destruct k; auto.
    + simpl. unfold says, message. cbn [run]. by rewrite lookup_delete_ne by by destruct k.
  - lia.
  - destruct Ht as (p1 & p2 & -> & H1 & H2 & Hl & Hr). cbn [run]. destruct (pipe_fds fds n Hok) as (d0 & d1 & -> & -> & N0 & N1 & Hne & Ha & Hb & Hc & Hd).
    run_fork.
    assert (∀ fd, fd = 0 ∨ fd = 1 → ∀ d x, d = d0 ∨ d = d1 → <[d1 := H_pipe_w n]> (<[d0 := H_pipe_r n]> fds) !! d = Some x →
      delete fd (<[d1 := H_pipe_w n]> (<[d0 := H_pipe_r n]> fds)) !! d = Some x) as Hdup.
    { intros fd Hfd d x Hd' Hx. rewrite lookup_delete_ne; [done|]. destruct Hfd, Hd'; congruence. }
    rewrite (Hdup 1 (or_intror eq_refl) d1 (H_pipe_w n)); [|tauto|by rewrite lookup_insert_eq].
    destruct (pipe_child fds n 1 d0 d1 (H_pipe_w n)) as [-> ->]; [tauto || done..|].
    rewrite (IHl fuel p1) by (done || lia || (apply fds_ok_insert; tauto)). destruct (denote l _ _) as [jl n1]. run_fork.
    rewrite (Hdup 0 (or_introl eq_refl) d0 (H_pipe_r n)); [|tauto|by rewrite lookup_insert_ne, lookup_insert_eq].
    destruct (pipe_child fds n 0 d0 d1 (H_pipe_r n)) as [-> ->]; [tauto || done..|].
    rewrite (IHr fuel p2) by (done || lia || (apply fds_ok_insert; tauto)). destruct (denote r _ _) as [jr n2]. by rewrite pipe_parent.
  - lia.
  - destruct Ht as (p1 & p2 & -> & H1 & H2 & Hl & Hr). run_fork.
    rewrite (IHl fuel p1) by (done || lia). destruct (denote l fds n) as [jl n1]. rewrite (IHr fuel p2) by (done || lia). by destruct (denote r fds n1).
  - lia.
  - destruct Ht as (p' & -> & H1 & Hc). run_fork.
    rewrite (IH fuel p') by (done || lia). by destruct (denote c fds n).
Qed.
(** ** Lines *)

Lemma gets_buf_run m done k fds inp n :
  m = (nbuf - 1 - length done)%nat → (length done < nbuf)%nat →
  let t := line_of m inp in
  run (gets_buf m (length done) (done ++ replicate (nbuf - length done) 0) k) fds inp n =
  run (k ((done ++ t) ++ 0 :: replicate (nbuf - 1 - length (done ++ t)) 0)) fds (drop (length t) inp) n.
Proof.
  assert (∀ d (c : Z), (length d < nbuf)%nat → <[length d := c]> (d ++ replicate (nbuf - length d) 0) = d ++ c :: replicate (nbuf - 1 - length d) 0) as Hins.
  { intros d c Hd. rewrite insert_app_r_alt by done. rewrite Nat.sub_diag. f_equal. by replace (nbuf - length d)%nat with (S (nbuf - 1 - length d)) by lia. }
  revert m done. intros m. revert inp. induction m as [|m IH]; intros inp done Hm Hd; cbn [gets_buf line_of].
  { rewrite Hins by done. destruct inp; simpl; by rewrite app_nil_r. }
  cbn [run]. destruct inp as [|c inp]; simpl.
  { rewrite Hins by done. by rewrite app_nil_r. }
  rewrite Hins by done. assert (done ++ c :: replicate (nbuf - 1 - length done) 0 = (done ++ [c]) ++ replicate (nbuf - length (done ++ [c])) 0) as E.
  { rewrite <-app_assoc, length_app. simpl (length [c]). by replace (nbuf - (length done + 1))%nat with (nbuf - 1 - length done)%nat by lia. }
  rewrite E. assert (S (length done) = length (done ++ [c])) as El by (rewrite length_app; simpl; lia). rewrite El.
  destruct ((c =? 10) || (c =? 13)).
  - rewrite Hins by (rewrite <-El; lia). done.
  - rewrite (IH inp (done ++ [c])) by (rewrite <-El; lia). simpl. by rewrite <-!app_assoc.
Qed.

(** A line of the input. *)
Lemma line_of_text text rest m :
  Forall (λ c, c ≠ 10 ∧ c ≠ 13) text → (length text < m)%nat → line_of m (text ++ 10 :: rest) = text ++ [10].
Proof.
  intros Ht. revert m. induction Ht as [|c text [H1 H2] Ht IH]; intros [|m] Hm; simpl in *; try lia; [done|].
  destruct (Z.eqb_spec c 10), (Z.eqb_spec c 13); try done. simpl. f_equal. apply IH. lia.
Qed.

(** A line the shell is given: a phrase of the grammar, a line that is none, or a
    change of the directory. *)
Inductive line : Type :=
| L_cmd (text : list Z) (c : cmd)
| L_bad (text : list Z)
| L_cd (dir : list Z).

Definition line_text (x : line) : list Z :=
  match x with L_cmd text _ => text | L_bad text => text | L_cd dir => chars "cd " ++ dir end.

Definition is_cd (text : list Z) : Prop := take 3 text = chars "cd ".

Definition line_fine (x : line) : Prop :=
  Forall (λ c, c ≠ 0 ∧ c ≠ 10 ∧ c ≠ 13) (line_text x) ∧ (length (line_text x) < nbuf - 1)%nat ∧
  match x with
  | L_cmd text c => ¬ is_cd text ∧ ∃ ts, lexes (text ++ [10]) ts ∧ gline ts c
  | L_bad text => ¬ is_cd text ∧ ∃ ts, lexes (text ++ [10]) ts ∧ ∀ c, ¬ gline ts c
  | L_cd _ => True
  end.

Definition prompt (fds : fdtab) (j : job) : job := J_print (fds !! 2) (bytes_of (vtext false (chars "$ ") [])) j.

(** What the shell does with its lines. *)
Inductive session (fds : fdtab) : list line → nat → job → nat → Prop :=
| ss_end n : session fds [] n (prompt fds (J_exit 0 fds)) n
| ss_cmd text c xs n j n1 rest n2 :
    denote c fds n = (j, n1) → session fds xs n1 rest n2 →
    session fds (L_cmd text c :: xs) n (prompt fds (J_fork j (J_wait fds rest))) n2
| ss_bad text ts xs n msg msgs rest n2 :
    lexes (text ++ [10]) ts → complaint (text ++ [10]) ts msg msgs → session fds xs n rest n2 →
    session fds (L_bad text :: xs) n (prompt fds (J_fork
      (foldr (λ m, says fds m.1 m.2) (says fds (chars "%s" ++ [10]) (chars msg) (J_exit 1 fds)) msgs)
      (J_wait fds rest))) n2
| ss_cd dir xs n rest n2 :
    session fds xs n rest n2 →
    session fds (L_cd dir :: xs) n
      (prompt fds (if can_chdir dir then J_chdir dir rest else says fds (chars "cannot cd %s" ++ [10]) dir rest)) n2.

(** runcmd(parsecmd(buf)) *)
Lemma run_line_cmd text junk ts c fds inp n :
  Forall (λ c, c ≠ 0) text → Z.of_nat (length text) < 2 ^ 31 → lexes text ts → gline ts c → fds_ok fds →
  run (run_line (text ++ 0 :: junk)) fds inp n = denote c fds n.
Proof.
  intros Hnz Hs Hl Hg Hok. pose proof (parsecmd_complete text junk [] ts Hnz Hs Hl c Hg) as H. unfold wp, run_line in *.
  pose proof (parsecmd_msgs text junk [] ts Hnz Hs Hl) as Hq.
  destruct (parsecmd _) as [p st| |]; [|done..]. rewrite Hq. apply runcmd_denote; [done|lia|done].
Qed.

Lemma run_reports msgs k fds inp n j n' :
  run k fds inp n = (j, n') → run (reports msgs k) fds inp n = (foldr (λ m, says fds m.1 m.2) j msgs, n').
Proof. intros E. induction msgs as [|m msgs IH]; [done|]. simpl. by rewrite IH. Qed.

Lemma run_line_bad text junk ts fds inp n :
  Forall (λ c, c ≠ 0) text → Z.of_nat (length text) < 2 ^ 31 → lexes text ts → (∀ c, ¬ gline ts c) →
  ∃ msg msgs, complaint text ts msg msgs ∧ run (run_line (text ++ 0 :: junk)) fds inp n =
    (foldr (λ m, says fds m.1 m.2) (says fds (chars "%s" ++ [10]) (chars msg) (J_exit 1 fds)) msgs, n).
Proof.
  intros Hnz Hs Hl Hg. pose proof (parsecmd_msgs text junk [] ts Hnz Hs Hl) as Hm. pose proof (parsecmd_accepts text junk [] ts Hnz Hs Hl) as H. unfold runs, run_line in *.
  destruct (parsecmd _) as [p st|msg st|]; [by destruct H as [c ?%Hg]| |done].
  exists msg, (sh_msgs st). split; [done|]. by apply run_reports.
Qed.
(** The input that the lines make up. *)
Definition input_of (xs : list line) : list Z := xs ≫= λ x, line_text x ++ [10].

(** getcmd() with a line, and at the end of the input. *)
Lemma getcmd_line text rest k fds n :
  Forall (λ c, c ≠ 0 ∧ c ≠ 10 ∧ c ≠ 13) text → (length text < nbuf - 1)%nat →
  ∃ zs, run (getcmd k) fds (text ++ 10 :: rest) n =
    let '(j, n') := run (k 0 ((text ++ [10]) ++ 0 :: zs)) fds rest n in (prompt fds j, n').
Proof.
  intros Ht Hlen. eexists. unfold getcmd, message. cbn [run].
  rewrite (gets_buf_run (nbuf - 1) [] _ fds (text ++ 10 :: rest) n eq_refl ltac:(simpl; unfold nbuf; lia)). cbn [app length].
  rewrite line_of_text; [|eapply Forall_impl; [done|naive_solver]|done].
  assert ((ch ((text ++ [10]) ++ 0 :: replicate (nbuf - 1 - length (text ++ [10])) 0) 0 =? 0) = false) as ->.
  { apply Z.eqb_neq. destruct text as [|c text]; [done|]. apply Forall_cons in Ht as [[Hc _] _]. done. }
  replace (text ++ 10 :: rest) with ((text ++ [10]) ++ rest) by by rewrite <-app_assoc. rewrite drop_app_length. done.
Qed.

Lemma getcmd_end k fds n :
  ∃ buf, run (getcmd k) fds [] n = let '(j, n') := run (k (-1) buf) fds [] n in (prompt fds j, n').
Proof. by eexists. Qed.

(** The test for cd. *)
Lemma cd_test text zs :
  let b := (text ++ [10]) ++ 0 :: zs in
  (ch b 0 =? 99) && (ch b 1 =? 100) && (ch b 2 =? 32) = bool_decide (is_cd text).
Proof.
  unfold is_cd, ch. destruct text as [|a [|b [|c text]]];
    [rewrite bool_decide_eq_false_2 by done; simpl; by rewrite ?andb_false_r..|]. simpl.
  destruct (Z.eqb_spec a 99), (Z.eqb_spec b 100), (Z.eqb_spec c 32); simpl; symmetry;
    [apply bool_decide_eq_true_2; by subst; rewrite take_0|apply bool_decide_eq_false_2; by intros [=]..].
Qed.

(** buf[strlen(buf)-1] = 0 *)
Lemma cd_dir dir zs :
  Forall (λ c, c ≠ 0) dir →
  let b := ((chars "cd " ++ dir) ++ [10]) ++ 0 :: zs in
  str_at (<[(length (cstring b) - 1)%nat := 0]> b) 3 = dir.
Proof.
  intros Hd b. unfold b. rewrite cstring_prefix.
  - rewrite <-!app_assoc. rewrite insert_app_r_alt by (rewrite !length_app; simpl; lia).
    rewrite insert_app_r_alt by (rewrite !length_app; simpl; lia). rewrite !length_app. simpl length.
    unfold str_at. simpl. rewrite drop_0. replace (length dir + 1 - 1 - length dir)%nat with 0%nat by lia. by apply cstring_prefix.
  - rewrite !Forall_app. split_and!; [by apply (bool_decide_unpack _)|done|by apply (bool_decide_unpack _)].
Qed.

Lemma main_loop_session xs fuel fds n :
  Forall line_fine xs → (length xs < fuel)%nat → fds_ok fds →
  ∃ j n', run (main_loop fuel) fds (input_of xs) n = (j, n') ∧ session fds xs n j n'.
Proof.
  intros Hx. revert fuel n. induction Hx as [|x xs (Ht & Hlen & Hx) Hxs IH]; intros [|fuel] n Hf Hok; simpl in Hf; try lia.
  - cbn [main_loop]. change (input_of []) with (@nil Z). edestruct getcmd_end as [buf ->]. eexists _, _. split; [reflexivity|]. constructor.
  - change (input_of (x :: xs)) with ((line_text x ++ [10]) ++ input_of xs). rewrite <-app_assoc. cbn [main_loop app].
    edestruct (getcmd_line (line_text x) (input_of xs)) as [zs ->]; [done..|]. change (0 <? 0) with false. cbv iota. rewrite cd_test.
    assert (Forall (λ c, c ≠ 0) (line_text x ++ [10])) as Hnz.
    { apply Forall_app. split; [eapply Forall_impl; [done|naive_solver]|by constructor]. }
    assert (Z.of_nat (length (line_text x ++ [10])) < 2 ^ 31) as Hs by (rewrite length_app; unfold nbuf in Hlen; simpl; lia).
    destruct x as [text c|text|dir]; cbn [line_text] in *.
    + destruct Hx as (Hcd & ts & Hl & Hg). rewrite bool_decide_eq_false_2 by done. run_fork.
      rewrite (run_line_cmd _ _ _ _ _ _ _ Hnz Hs Hl Hg Hok). destruct (denote c fds n) as [j n1] eqn:Ej.
      destruct (IH fuel n1) as (rest & n2 & E & S); [lia|done|]. run_fork. rewrite E. eexists _, _. split; [done|]. by eapply ss_cmd.
    + destruct Hx as (Hcd & ts & Hl & Hg). rewrite bool_decide_eq_false_2 by done. run_fork.
      destruct (run_line_bad _ (zs) _ fds (input_of xs) n Hnz Hs Hl Hg) as (msg & msgs & Hm & ->).
      destruct (IH fuel n) as (rest & n2 & E & S); [lia|done|]. run_fork. rewrite E. eexists _, _. split; [done|]. by eapply ss_bad.
    + rewrite bool_decide_eq_true_2 by done. destruct (IH fuel n) as (rest & n2 & E & S); [lia|done|].
      rewrite cd_dir; [|apply Forall_app in Ht as [_ Ht]; eapply Forall_impl; [done|naive_solver]].
      pose proof (ss_cd fds dir xs n rest n2 S) as Hss. cbn [run]. destruct (can_chdir dir); [change (0 <? 0) with false|change (-1 <? 0) with true]; cbv iota; unfold message; cbn [run]; rewrite E; by eexists _, _.
Qed.
(** ** The descriptors of the shell *)

Definition console_file : handle := H_file (chars "console") O_RDWR.
Definition fill (d : Z) (fds : fdtab) : fdtab := match fds !! d with Some _ => fds | None => <[d := console_file]> fds end.
(** Descriptors 0, 1 and 2 are open. *)
Definition std_fds (fds : fdtab) : fdtab := fill 2 (fill 1 (fill 0 fds)).

Lemma fill_keeps d d' fds : is_Some (fds !! d) → is_Some (fill d' fds !! d).
Proof. unfold fill. intros H. destruct (fds !! d'); [done|]. rewrite lookup_insert_is_Some. destruct (decide (d' = d)); tauto. Qed.
Lemma fill_open d fds : is_Some (fill d fds !! d).
Proof. unfold fill. destruct (fds !! d) eqn:E; [by eexists|]. rewrite lookup_insert_eq. by eexists. Qed.
Lemma fill_id d fds : is_Some (fds !! d) → fill d fds = fds.
Proof. unfold fill. by intros [x ->]. Qed.

Section console.
Context (Hcon : can_open (chars "console") O_RDWR = true).

(** open() fills the lowest descriptor. *)
Lemma open_console_fill d fuel k fds inp n :
  0 ≤ d < 3 → (∀ d', 0 ≤ d' < d → is_Some (fds !! d')) → fds !! d = None →
  run (open_console (S fuel) k) fds inp n = run (open_console fuel k) (fill d fds) inp n.
Proof.
  intros Hd Hlow Hn. cbn [open_console run]. rewrite (lowest_is _ d) by (unfold NOFILE; done || lia). rewrite Hcon.
  destruct (Z.leb_spec 0 d), (Z.leb_spec 3 d); try lia. unfold fill. by rewrite Hn.
Qed.

Lemma open_console_done fuel k fds inp n :
  (∀ d, 0 ≤ d < 3 → is_Some (fds !! d)) → run (open_console (S fuel) k) fds inp n = run k fds inp n.
Proof.
  intros Hopen. cbn [open_console run]. destruct (lowest fds) as [fd|] eqn:E; [|done]. rewrite Hcon.
  unfold lowest in E. destruct (list_find _ _) as [[i fd']|] eqn:Ef; [|done]. injection E as ->. apply list_find_Some in Ef as (Hi & Hfd & _).
  apply lookup_seqZ in Hi. destruct (decide (fd < 3)); [destruct (Hopen fd); [lia|congruence]|].
  destruct (Z.leb_spec 0 fd), (Z.leb_spec 3 fd); try lia. cbn [run]. by rewrite delete_insert_id.
Qed.

Lemma open_console_run fuel k fds inp n :
  (3 < fuel)%nat → run (open_console fuel k) fds inp n = run k (std_fds fds) inp n.
Proof.
  assert (∀ d fuel fds, 0 ≤ d < 3 → (∀ d', 0 ≤ d' < d → is_Some (fds !! d')) → (4 - d ≤ Z.of_nat fuel) →
    ∃ fuel', (3 - d ≤ Z.of_nat fuel') ∧ run (open_console fuel k) fds inp n = run (open_console fuel' k) (fill d fds) inp n) as Hstep.
  { intros d f0 fds0 Hd Hlow Hf. destruct (fds0 !! d) eqn:E.
    - exists f0. split; [lia|]. by rewrite fill_id by by eexists.
    - destruct f0 as [|f0]; [lia|]. exists f0. split; [lia|]. by apply open_console_fill. }
  intros Hf. destruct (Hstep 0 fuel fds) as (f1 & H1 & ->); [lia|intros; lia|lia|].
  assert (is_Some (fill 0 fds !! 0)) as S0 by apply fill_open. destruct (Hstep 1 f1 (fill 0 fds)) as (f2 & H2 & ->); [lia|intros; by replace d' with 0 by lia|lia|].
  assert (∀ d', 0 ≤ d' < 2 → is_Some (fill 1 (fill 0 fds) !! d')) as S1.
  { intros d' Hd'. destruct (decide (d' = 1)) as [->|]; [apply fill_open|]. replace d' with 0 by lia. by apply fill_keeps. }
  destruct (Hstep 2 f2 (fill 1 (fill 0 fds))) as (f3 & H3 & ->); [lia|done|lia|]. destruct f3 as [|f3]; [lia|]. apply open_console_done.
  intros d Hd. destruct (decide (d = 2)) as [->|]; [apply fill_open|]. apply fill_keeps, S1. lia.
Qed.
End console.

(** ** No descriptor leaks *)

(** The descriptors of the programs that a job executes, and of the processes that
    wait: those that stay open while other commands run. *)
Fixpoint tables (j : job) : list fdtab :=
  match j with
  | J_exec _ fds => [fds]
  | J_wait fds j => fds :: tables j
  | J_print _ _ j | J_chdir _ j | J_call _ _ j => tables j
  | J_fork child parent => tables child ++ tables parent
  | J_exit _ _ | J_stuck => []
  end.

(** The same descriptors are open, and all but 0 and 1 stand for the same. *)
Definition same_fds (fds fds' : fdtab) : Prop := dom fds' = dom fds ∧ ∀ d, d ≠ 0 → d ≠ 1 → fds' !! d = fds !! d.

Lemma same_fds_insert fds fds' d x : is_Some (fds !! d) → d = 0 ∨ d = 1 → same_fds (<[d := x]> fds) fds' → same_fds fds fds'.
Proof.
  intros Hd Hd' [H1 H2]. split.
  - rewrite H1, dom_insert_L. apply elem_of_dom in Hd. set_solver.
  - intros e H0 He. rewrite H2 by done. apply lookup_insert_ne. lia.
Qed.

Lemma same_fds_refl fds : same_fds fds fds.
Proof. by split. Qed.

Lemma denote_tables c fds n :
  fds_ok fds → ∀ fds', fds' ∈ tables (denote c fds n).1 → same_fds fds fds'.
Proof.
  revert fds n. induction c as [ws|c IH k f|l IHl r IHr|l IHl r IHr|c IH]; intros fds n Hok fds'; simpl.
  - destruct ws as [|w ws]; simpl; [by intros ?%not_elem_of_nil|]. destruct (can_exec w); simpl; [|by intros ?%not_elem_of_nil].
    by intros ->%list_elem_of_singleton.
  - destruct (can_open f (redir_mode k)); simpl; [|by intros ?%not_elem_of_nil]. assert (redir_fd k = 0 ∨ redir_fd k = 1) as Hk by (destruct k; auto).
    intros Hin%IH; [|by apply fds_ok_insert]. eapply same_fds_insert; [|done..]. destruct Hok as (? & ? & _). by destruct Hk as [-> | ->].
  - specialize (IHl (<[1 := H_pipe_w n]> fds) (S n)). destruct (denote l _ _) as [jl n1]. specialize (IHr (<[0 := H_pipe_r n]> fds) n1). destruct (denote r _ _) as [jr n2]. simpl in *.
    pose proof Hok as (? & ? & _). intros [Hin%IHl|[Hin%IHr|Hin]%elem_of_app]%elem_of_app; try (apply fds_ok_insert; tauto); [eapply same_fds_insert; [| |exact Hin]; tauto..|].
    apply elem_of_cons in Hin as [-> | ->%list_elem_of_singleton]; apply same_fds_refl.
  - specialize (IHl fds n). destruct (denote l _ _) as [jl n1]. specialize (IHr fds n1). destruct (denote r _ _) as [jr n2]. simpl in *.
    intros [Hin%IHl|[->|Hin%IHr]%elem_of_cons]%elem_of_app; done.
  - specialize (IH fds n). destruct (denote c _ _) as [j n1]. simpl in *. rewrite app_nil_r. by apply IH.
Qed.

Lemma tables_says fds msgs j : tables (foldr (λ m, says fds m.1 m.2) j msgs) = tables j.
Proof. induction msgs as [|m msgs IH]; [done|exact IH]. Qed.

Lemma session_tables fds xs n j n' :
  fds_ok fds → session fds xs n j n' → ∀ fds', fds' ∈ tables j → same_fds fds fds'.
Proof.
  intros Hok. induction 1 as [n|text c xs n j n1 rest n2 Ej S IH|text ts xs n msg msgs rest n2 Hl Hm S IH|dir xs n rest n2 S IH]; intros fds'; simpl.
  - by intros ?%not_elem_of_nil.
  - intros [Hin|[->|Hin%IH]%elem_of_cons]%elem_of_app; [|done..]. pose proof (denote_tables c fds n Hok) as H. rewrite Ej in H. by apply H.
  - rewrite tables_says. intros [->|Hin%IH]%elem_of_cons; done.
  - destruct (can_chdir dir); simpl; apply IH.
Qed.
End run.

(** ** Theorems *)


(** The end of a line does not change its tokens. *)
Lemma lexes_newline text ts : lexes text ts → lexes (text ++ [10]) ts.
Proof.
  assert (Forall space [10]) as Hnl by by apply (bool_decide_unpack _).
  induction 1; rewrite <-?app_assoc; [apply lex_nil; by apply Forall_app|apply lex_sym|apply lex_out|apply lex_append|apply lex_word]; try done.
  - by destruct r.
  - intros c Hc. destruct r as [|c' r]; [|by apply H2]. simpl in Hc. injection Hc as <-. intros [Hw _]. apply Hw. by apply (bool_decide_unpack _).
Qed.

(** A session of two lines; only a and c can be executed. *)
Definition demo_session : list line := [L_cmd demo_line demo_cmd; L_cd (chars "d")].
Definition demo_can_exec (w : list Z) : bool := bool_decide (w = chars "a") || bool_decide (w = chars "c").

